(* ===== verification/_CoqProject ===== *)
-Q . S2P
Prelude.v
ServiceTransition.v
RequestLedger.v
RequestLedgerSpec.v
Bytes.v
MessageAbi.v
VersionedPayload.v
MessageRing.v
MessageRingRep.v
MessageRingSpec.v
ResourceDomain.v
ResourceDomainSpec.v
KObject.v
HandleTable.v
HandleTableOps.v
HandleTableSpec.v
HandleTableSeq.v
KMessagePort.v
KMessagePortSpec.v
KMessagePortProps.v
ObjectTransfer.v
ObjectStore.v
ObjectTransferSpec.v
ObjectTransferProps.v
ObjectTransferSeq.v
ChannelCore.v
ChannelResources.v
ChannelCoreInv.v
ChannelCoreSpec.v
ChannelCoreSteps.v
ChannelCoreProps.v
Checksum.v
Base64.v
Unicode.v
DateTime.v
Authorization.v
AuthorizationSpec.v
AuthorizationProps.v
Credentials.v
CredentialsProps.v
Sha256.v
ServiceManifest.v
ServiceManifestGraph.v
ServiceManifestCodec.v
ServiceManifestProps.v
ServiceLifecycleBroker.v
ServiceDirectory.v
ServiceDirectoryRows.v
ServiceDirectoryInv.v
ServiceDirectoryClose.v
ServiceDirectoryRuns.v
ServiceDirectoryKeys.v
ServiceDirectoryWorld.v
ServiceDirectoryDrain.v
ServiceDirectoryProps.v
ServiceLifecycleSpec.v
ServiceLifecycleInv.v
ServiceLifecycleSim.v
ServiceLifecycleRefusals.v
ServiceLifecycleInit.v
ServiceLifecycleRuns.v
ServiceLifecycleDrain.v
ServiceLifecycleProps.v
