(* ===== verification/Prelude.v ===== *)
(** * DuetOS kernel verification library

    DuetOS is a capability-based x86-64 kernel.  This library models the core
    through which its services talk to each other and are kept apart: the
    authority, transport and accounting code of [src/kernel/ipc],
    [src/kernel/core] and [src/kernel/proc].  Definitions are translated
    function by function from the C++ sources and are executable; the
    theorems are about those definitions.

    ** The parts and how they interact

    A signed manifest lists the services, what each may ask for and what it
    depends on.  The lifecycle broker is built from an accepted manifest and
    owns one row of the service transition machine per service: it grants
    starts, commits publications, gathers readiness, orders stops and drains,
    and asks the service directory while it holds its own lock.  The directory
    names the registered services, pins lookups, queues the channels of
    clients until a server accepts them, and owns the endpoint receipts of all
    of them until they are released.  A service reaches other services over
    channels.  A channel core owns two request ledgers (one per direction), two
    message ports, two object-transfer tables and one charge
    in a resource domain.  A message port is a kernel object around one
    message ring, which carries frames of the message ABI whose payloads are
    versioned.  A transfer table moves references to kernel objects from the
    handle table of one process to that of another.  What a process may ask
    for at all is decided by its authorization context, and who it acts as by
    its credential.

    ** Files

    - [Prelude]: machine widths, list and map lemmas, automation.
    - [ServiceTransition]: core/service_transition.{h,cpp}; the row of one
      service, its abstract lifetime and the refinement between them.
    - [RequestLedger], [RequestLedgerSpec]: ipc/endpoint_request_ledger.{h,cpp};
      the fixed table of requests, and its contract (a finite map of
      outstanding requests) with the refinement.
    - [Bytes], [MessageAbi], [VersionedPayload]: the little-endian accessors,
      ipc/message_abi.{h,cpp} and ipc/versioned_payload.{h,cpp}.
    - [MessageRing], [MessageRingRep], [MessageRingSpec]:
      ipc/message_ring.{h,cpp}; the ring, its reading as a queue of records,
      and the concurrent system of producers and receivers.
    - [ResourceDomain], [ResourceDomainSpec]: proc/resource_domain.{h,cpp};
      domains and the exact accounting of charges.
    - [KObject]: ipc/kobject.{h,cpp}; reference counts over a heap of objects.
    - [HandleTable], [HandleTableOps], [HandleTableSpec], [HandleTableSeq]:
      ipc/handle_table.{h,cpp}; the operations, their contracts, the system of
      processes, and uninterrupted operations.
    - [KMessagePort], [KMessagePortSpec], [KMessagePortProps]:
      ipc/kmessage_port.{h,cpp}; ports, their concurrent system, its theorems.
    - [ObjectStore]: the class of what holders of references rely on, with
      the object base as an instance.
    - [ObjectTransfer], [ObjectTransferSpec], [ObjectTransferProps],
      [ObjectTransferSeq]: ipc/object_transfer.{h,cpp} over any [ObjectStore].
    - [ChannelCore], [ChannelResources], [ChannelCoreInv], [ChannelCoreSpec],
      [ChannelCoreSteps], [ChannelCoreProps]: ipc/channel_core.{h,cpp} over
      the models of the four components it composes.
    - [Authorization], [AuthorizationSpec], [AuthorizationProps]:
      proc/authorization_context.{h,cpp}; the registry of capability contexts,
      its contract (finite maps and sets), and the theorems about whole runs.
    - [Credentials], [CredentialsProps]: proc/credentials.{h,cpp}; the pool of
      security contexts, the ledger of identities it implements, and its
      theorems.
    - [Sha256]: crypto/sha256.{h,cpp}; the streaming hash against the standard's
      padded blocks.
    - [ServiceManifest], [ServiceManifestGraph], [ServiceManifestCodec],
      [ServiceManifestProps]: core/service_manifest.{h,cpp}; the signed list of
      services with its validator, start order, encoder and hash.
    - [ServiceLifecycleBroker], [ServiceLifecycleSpec], [ServiceLifecycleInv],
      [ServiceLifecycleSim], [ServiceLifecycleRefusals],
      [ServiceLifecycleInit], [ServiceLifecycleRuns],
      [ServiceLifecycleDrain], [ServiceLifecycleProps]:
      core/service_lifecycle_broker.{h,cpp}; the operations against the class
      [DirectoryPeer] of what the broker asks of a service directory, the
      promised fleet of services, the shapes of rows and the relation [shows],
      the simulation of every call, refusals, initialization against the
      manifest validator, whole runs, drains, and the theorems.
    - [ServiceDirectory], [ServiceDirectoryRows], [ServiceDirectoryInv],
      [ServiceDirectoryClose], [ServiceDirectoryRuns],
      [ServiceDirectoryKeys], [ServiceDirectoryWorld],
      [ServiceDirectoryDrain], [ServiceDirectoryProps]:
      core/service_directory.{h,cpp} with the keys, receipts and pairs of
      core/service_endpoint.h; the operations as their sections, rows and
      their queues, what ties a row to the calls under way on it, closing, the
      directory under concurrent calls, keys and published handles over any
      run, the invariant of runs that keep room in the queues, closing to the
      end, and the theorems.  [directory_peer]
      discharges the class [DirectoryPeer], so the theorems about the broker
      hold of the broker beside this directory.
    - [Checksum] (modules [Crc] and [Adler]), [Base64], [Unicode], [DateTime]:
      util/crc32.cpp, util/adler32.{h,cpp}, util/base64.{h,cpp},
      util/unicode.{h,cpp}, util/datetime.{h,cpp}; the pure utilities the rest
      of the kernel stores and prints data with, each with its self test.

    ** Conventions

    A [w]-bit unsigned integer is a [Z] with its wrap-around written out where
    the source can overflow.  A pointer that may be null is an [option], or an
    address with 0 for null where the code compares addresses.  A status is a
    value; [None] of a computation is a tripped assertion or an access to
    memory that is not allocated.  A critical section of a lock is one
    definition, and a call that leaves its lock is the composition of its
    sections; concurrent theorems quantify over every interleaving of the
    sections of any number of calls, given by a step relation or an executor
    over a list of actions.  What lies outside the sources modelled (the
    allocator, the clock, the rest of the kernel) is an argument: block
    addresses are the allocator's answers, constrained only to be new; the
    system of channels takes arbitrary steps of the rest of the kernel
    between sections that respect what the channels hold.

    ** What the theorems show

    - Service rows: refinement of the abstract lifetime, no two instances at
      once, generations used once and never wrapped.
    - Request ledgers: refinement of the contract, every admitted request
      settled once, failures change nothing.
    - Message formats: encode and validate are inverse, the binary search of
      the rule table agrees with linear search.
    - Message rings and ports: FIFO delivery with exact bytes under every
      interleaving, pinned spans stable, no corruption reported, closes
      final, no lost wakeup, entry points through a handle checked.
    - Resource domains: counters equal the live charges, charges paid once and
      always payable.
    - Handle tables: codec, no assertion trips, counts exact, tokens never
      return, drain terminal, no cyclic wait, rights never amplified.
    - Object transfer: counts exact, references never return, close
      terminates, end-to-end authority.
    - Channels: no reported corruption, exact ownership of ports, tables and
      charges through construction, reset, drain and cleanup, authority never
      returns, requests settled once, drains complete.
    - Authorization contexts: refinement of the contract, capabilities never
      regained by a context or its descendants, leases neither replayed nor
      outlived, enforcement orders given exactly once.
    - Service manifests: an accepted plan is the document of the sealed bytes
      and stays inside the retained authority, a cycle is reported exactly when no start order exists, accepted bytes
      are the one encoding of their document, and encoding, hashing and
      validating compose.
    - Lifecycle broker: initialization accepts exactly the validated plans;
      any run answers as the fleet; grants, publications, stop orders and ends
      of a service move forward and happen once; starts wait for the announced
      readiness of their dependencies; refusals change nothing, the rollback
      of a publication the directory refuses included, but for the first start
      asked of a service at its last generation, which retires its row; drains
      complete.
    - Service directory: keys never return, over any run.  Over runs in which
      the queue has room whenever a publication fails ([room_kept]): canonical
      at all times and no CorruptState answer; each row counts its calls, names
      and services are unique; every endpoint receipt is in one place; an idle
      registration can be closed to the end.  Two runs show what goes wrong where a failed publication meets a refilled
      queue ([directory_restore_overflows]) or a closed service
      ([directory_publishing_orphan]).
    - Credentials: the pool answers as a ledger of identities whose keys are
      issued once, and nothing derived exceeds what it was derived from.
    - SHA-256: the digest does not depend on how the message is cut.
    - Utilities: CRC-32 is the bit-serial register and detects every error of
      four consecutive bytes; Adler-32's delayed reduction never overflows;
      base64, UTF-8 and UTF-16 round trips and bounds; day numbers are the
      calendar's day count, week dates and Unix times agree with them, and
      ISO 8601 text denotes the instant it was printed from.

    ** Bounds and fuel

    Scans of fixed tables (63 handle rows, 31 transfer rows, 32 ledger rows and
    operation slots, 64 domains, the 64 rows of the directory with 8 queue,
    accepted and operation slots each) are structural recursions over exactly the
    capacity of the source, so no fuel can run out.  The binary search has
    fuel equal to the length of its table and is proved to agree with linear
    search at that fuel; so are the searches of the manifest's
    and of the broker's rows.  The broker replays the start order in as many
    turns as the plan has services.  The hash's
    block loop has fuel for every byte of its input.  The name conversion has fuel for every code unit, the
    Adler runs and the scan of fractional digits for every byte; each is
    proved to end before its fuel does.  Polling loops (detach, adopt-replace, drain, wait for
    a readable port) take a number of turns; the concurrent theorems are about
    their single turns and do not depend on it, and the liveness theorems show
    that the turn that ends the loop comes.

    ** Not modelled

    Lock words, lock order and interrupt masking: each section is atomic.  Two
    pieces of channel_core.cpp that run outside the core's lock are one step
    each: the preparation of a channel's resources, which nobody else has a
    reference to yet, and the port closes of a drain, whose ports the drain
    holds.  The meters of the authorization contract are the code's own.
    Destroy callbacks of object types other than ports: that they run is
    recorded.  Host-test hooks and functions that name a status for logging.
    Scheduler, memory management, file systems, network, drivers, loaders,
    subsystems, shell and applications: hardware programming, on-disk formats
    and user interface, listed with their reasons in the manifest.

    The operations of service endpoints, the exit observer and the reap
    ledger, jobs and the waitable objects: they are built on scheduler wait
    queues, process teardown or endpoint registries that are not modelled.
    The sections of the directory take what endpoints and handle tables
    answer as arguments. *)

From Stdlib Require Export ZArith Lia ZifyBool.
From stdpp Require Export base numbers list gmap sorting.

#[export] Set Default Goal Selector "!".

Open Scope Z_scope.

(** ** Machine integers

    A [w]-bit unsigned integer of the source is a [Z]; the range predicates
    below are the type invariants, and [wrap32]/[wrap64] write out the
    wrap-around of an unsigned operation that can overflow. *)

Definition u8_max : Z := 255.
Definition u16_max : Z := 65535.
Definition u32_max : Z := 4294967295.
Definition u64_max : Z := 18446744073709551615.

Definition is_u8 (x : Z) : Prop := 0 <= x <= u8_max.
Definition is_u16 (x : Z) : Prop := 0 <= x <= u16_max.
Definition is_u32 (x : Z) : Prop := 0 <= x <= u32_max.
Definition is_u64 (x : Z) : Prop := 0 <= x <= u64_max.

Definition wrap8 (x : Z) : Z := x mod 256.
Definition wrap16 (x : Z) : Z := x mod 65536.
Definition wrap32 (x : Z) : Z := x mod 4294967296.
Definition wrap64 (x : Z) : Z := x mod 18446744073709551616.

(** [ulia] is [lia] after the width constants have been unfolded. *)
Ltac unfold_widths :=
  unfold is_u8, is_u16, is_u32, is_u64, u8_max, u16_max, u32_max, u64_max in *.
Ltac ulia := unfold_widths; lia.

Lemma wrap32_small x : is_u32 x -> wrap32 x = x.
Proof. intros H. unfold wrap32. apply Z.mod_small. ulia. Qed.

Lemma wrap64_small x : is_u64 x -> wrap64 x = x.
Proof. intros H. unfold wrap64. apply Z.mod_small. ulia. Qed.

Lemma wrap32_range x : is_u32 (wrap32 x).
Proof.
  unfold wrap32. pose proof (Z.mod_pos_bound x 4294967296 ltac:(lia)). ulia.
Qed.

Lemma wrap64_range x : is_u64 (wrap64 x).
Proof.
  unfold wrap64.
  pose proof (Z.mod_pos_bound x 18446744073709551616 ltac:(lia)). ulia.
Qed.

(** ** Packed words *)

Lemma lor_shift_add a b n : 0 <= n -> 0 <= a < 2 ^ n -> Z.lor a (Z.shiftl b n) = a + b * 2 ^ n.
Proof.
  intros Hn Ha. rewrite <- Z.shiftl_mul_pow2 by done.
  rewrite <- Z.add_lor_land. enough (Z.land a (Z.shiftl b n) = 0) by lia.
  apply Z.bits_inj'. intros i Hi. rewrite Z.land_spec, Z.bits_0, Z.shiftl_spec by done.
  destruct (Z.lt_ge_cases i n).
  - by rewrite (Z.testbit_neg_r b) by lia; rewrite andb_false_r.
  - rewrite <- (Z.mod_small a (2 ^ n)) by done. by rewrite Z.mod_pow2_bits_high by lia.
Qed.

Lemma shift_lor a b n : 0 <= n -> 0 <= b < 2 ^ n -> Z.lor (Z.shiftl a n) b = a * 2 ^ n + b.
Proof. intros Hn Hb. rewrite Z.lor_comm, lor_shift_add by done. lia. Qed.

Lemma map_nth_seq {A} (l : list A) (x : A) : map (fun i => nth i l x) (seq 0 (length l)) = l.
Proof.
  apply list_eq. intros i. rewrite list_lookup_fmap. destruct (decide (i < length l)%nat) as [Hi|Hi].
  - rewrite lookup_seq_lt by done. simpl. destruct (lookup_lt_is_Some_2 l i Hi) as [y Hy].
    by rewrite (nth_lookup_Some _ _ _ _ Hy), Hy.
  - rewrite lookup_seq_ge by lia. simpl. symmetry. apply lookup_ge_None. lia.
Qed.

(** A property of small numbers, by checking them all. *)
Lemma small_nat (P : nat -> bool) n : forallb P (seq 0 n) = true -> forall q, 0 <= q < Z.of_nat n -> P (Z.to_nat q) = true.
Proof.
  rewrite forallb_forall. intros H q Hq. apply H, in_seq. lia.
Qed.

(** Tokens pack a generation above a slot index. *)
Lemma pack_token bits slot generation :
  0 <= bits -> 0 <= slot < 2 ^ bits -> 0 <= generation -> generation * 2 ^ bits <= u32_max ->
  Z.lor (wrap32 (Z.shiftl generation bits)) slot = generation * 2 ^ bits + slot.
Proof.
  intros Hb Hs Hg Hm. rewrite wrap32_small by (rewrite Z.shiftl_mul_pow2 by done; ulia).
  rewrite Z.lor_comm, lor_shift_add by done. lia.
Qed.

Lemma packed_low m g s : 0 <= s < m -> (g * m + s) mod m = s.
Proof. intros. rewrite (Z.add_comm (g * m)), Z.mod_add by lia. apply Z.mod_small. lia. Qed.

Lemma packed_high m g s : 0 <= s < m -> (g * m + s) / m = g.
Proof. intros. rewrite Z.div_add_l, Z.div_small by lia. lia. Qed.

(** ** Sums over tables *)

Definition sumZ {A} (f : A -> Z) (l : list A) : Z := foldr (fun x acc => f x + acc) 0 l.

Lemma sumZ_insert {A} (f : A -> Z) (l : list A) : forall i x y,
  l !! i = Some x -> sumZ f (<[i := y]> l) = sumZ f l - f x + f y.
Proof.
  induction l as [|a l IH]; intros [|i] x y Hi; simplify_eq/=; [lia|].
  rewrite (IH _ _ y Hi). lia.
Qed.

Lemma sumZ_nonneg {A} (f : A -> Z) (l : list A) :
  (forall x, x ∈ l -> 0 <= f x) -> 0 <= sumZ f l.
Proof.
  induction l as [|a l IH]; intros H; simpl; [lia|].
  pose proof (H a (list_elem_of_here _ _)).
  pose proof (IH (fun x Hx => H x (list_elem_of_further _ _ _ Hx))). lia.
Qed.

Lemma sumZ_zero {A} (f : A -> Z) (l : list A) : (forall x, x ∈ l -> f x = 0) -> sumZ f l = 0.
Proof.
  induction l as [|a l IH]; intros H; simpl; [done|].
  rewrite (H a (list_elem_of_here _ _)), IH; [done|].
  intros x Hx. apply H. by apply list_elem_of_further.
Qed.

Lemma sumZ_member {A} (f : A -> Z) (l : list A) x :
  (forall y, y ∈ l -> 0 <= f y) -> x ∈ l -> f x <= sumZ f l.
Proof.
  intros Hnn Hx. induction l as [|a l IH]; [by apply elem_of_nil in Hx|]. simpl.
  assert (Htl : forall y, y ∈ l -> 0 <= f y) by (intros; apply Hnn; by apply list_elem_of_further).
  apply elem_of_cons in Hx as [->|Hx].
  - pose proof (sumZ_nonneg f l Htl). lia.
  - pose proof (Hnn a (list_elem_of_here _ _)). specialize (IH Htl Hx). lia.
Qed.

Lemma sumZ_app {A} (f : A -> Z) (l k : list A) : sumZ f (l ++ k) = sumZ f l + sumZ f k.
Proof. induction l as [|a l IH]; simpl; [lia|]. rewrite IH. lia. Qed.

Lemma sumZ_delete {A} (f : A -> Z) (l : list A) : forall i x,
  l !! i = Some x -> sumZ f (delete i l) = sumZ f l - f x.
Proof.
  induction l as [|a l IH]; intros [|i] x Hi; simplify_eq/=; [lia|].
  rewrite (IH _ _ Hi). lia.
Qed.

Lemma sumZ_ext {A} (f g : A -> Z) (l : list A) : (forall x, x ∈ l -> f x = g x) -> sumZ f l = sumZ g l.
Proof.
  induction l as [|a l IH]; intros H; simpl; [done|].
  rewrite (H a (list_elem_of_here _ _)), IH; [done|].
  intros x Hx. apply H. by apply list_elem_of_further.
Qed.

(** ** Case analysis on guard chains

    The operations of the source are chains of early returns.  [guards]
    splits every remaining [if] and [match] of the goal (or of the named
    hypothesis), keeps the equation, and discards the impossible branches. *)
Ltac guard_step :=
  match goal with
  | |- context [if ?b then _ else _] => destruct b eqn:?
  | |- context [match ?x with _ => _ end] => destruct x eqn:?
  end.
Ltac guard_step_in H :=
  match type of H with
  | context [if ?b then _ else _] => destruct b eqn:?
  | context [match ?x with _ => _ end] => destruct x eqn:?
  end.
Ltac guards := repeat (guard_step; simplify_eq/=; try done).
Ltac guards_in H := repeat (guard_step_in H; simplify_eq/=; try done).

Create HintDb duet.

(** ** Lists that change at one place

    The operations in flight are kept in a list; a step removes or adds
    entries at one location and leaves the others. *)

Lemma elem_of_delete_sub {A} (x : A) n (l : list A) : x ∈ delete n l -> x ∈ l.
Proof.
  rewrite !list_elem_of_lookup. intros [i Hi].
  destruct (decide (i < n)%nat).
  - exists i. by rewrite list_lookup_delete_lt in Hi.
  - exists (S i). rewrite list_lookup_delete_ge in Hi by lia. done.
Qed.

Lemma Forall_delete_sub {A} (P : A -> Prop) n l : Forall P l -> Forall P (delete n l).
Proof. rewrite !Forall_forall. intros H x Hx%elem_of_delete_sub. auto. Qed.

(** An entry that counts keeps the sum positive. *)
Lemma sumZ_counted {A} (g : A -> Z) l x :
  (forall y, 0 <= g y) -> x ∈ l -> g x = 1 -> 0 < sumZ g l.
Proof. intros Hnn Hx Hg. pose proof (sumZ_member g l x (fun y _ => Hnn y) Hx). lia. Qed.

(** The number of times [b] is [a]. *)
Definition one_if (a b : Z) : Z := if a =? b then 1 else 0.

Lemma one_if_null a : a <> 0 -> one_if a 0 = 0.
Proof. intros. unfold one_if. by replace (a =? 0) with false by lia. Qed.

Lemma one_if_pos a b : 0 <= one_if a b.
Proof. unfold one_if. by case_match. Qed.

Lemma one_if_same a : one_if a a = 1.
Proof. unfold one_if. by rewrite Z.eqb_refl. Qed.

Section same_off.
Context {F L : Type} (loc : F -> L).

Definition same_off_at (l : L) (fl fl' : list F) : Prop :=
  (forall g : F -> Z, (forall f, loc f = l -> g f = 0) -> sumZ g fl' = sumZ g fl)
  /\ (forall f, f ∈ fl' -> loc f <> l -> f ∈ fl).

Lemma same_off_refl l fl : same_off_at l fl fl.
Proof. by split. Qed.

Lemma same_off_add l fl f : loc f = l -> same_off_at l fl (fl ++ [f]).
Proof.
  intros Hl. split.
  - intros g Hg. rewrite sumZ_app. simpl. rewrite (Hg f Hl). lia.
  - intros f' [Hf|Hf%list_elem_of_singleton]%elem_of_app Hn; [done | by subst].
Qed.

Lemma same_off_del l fl n f : fl !! n = Some f -> loc f = l -> same_off_at l fl (delete n fl).
Proof.
  intros Hn Hl. split.
  - intros g Hg. rewrite (sumZ_delete _ _ _ _ Hn), (Hg f Hl). lia.
  - intros f' Hf _. by eapply elem_of_delete_sub.
Qed.

Lemma same_off_trans l fl fl' fl'' :
  same_off_at l fl fl' -> same_off_at l fl' fl'' -> same_off_at l fl fl''.
Proof.
  intros [H1 H1'] [H2 H2']. split.
  - intros g Hg. by rewrite H2, H1.
  - intros f Hf Hn. auto.
Qed.

Lemma same_off_swap l fl n f f' :
  fl !! n = Some f -> loc f = l -> loc f' = l -> same_off_at l fl (delete n fl ++ [f']).
Proof.
  intros Hn Hl Hl'. eapply same_off_trans; [by eapply same_off_del | by apply same_off_add].
Qed.
End same_off.

#[export] Hint Resolve same_off_refl same_off_add same_off_del same_off_swap Forall_delete_sub : duet.
