(* ===== verification/ServiceTransition.v ===== *)
(** * Exact-generation service publication state machine

    Model of [kernel/core/service_transition.h] and
    [kernel/core/service_transition.cpp]: the row a service manager keeps for
    one service, and the operations that reserve a start, publish it, fail
    it, stop it and observe its exit.  A nullable pointer is an [option]; an
    out-parameter is the [option] of the value it pointed at, returned with
    its new value. *)

From S2P Require Import Prelude.

Definition kInvalidServiceTransitionIdentity : Z := 0.
Definition kServiceTransitionGenerationMaximum : Z := u64_max.

Record ServiceStartTicket := MkTicket {
  ticket_service_identity : Z;
  ticket_generation : Z;
}.
#[export] Instance ServiceStartTicket_eq_dec : EqDecision ServiceStartTicket.
Proof. solve_decision. Defined.

Definition kInvalidServiceStartTicket : ServiceStartTicket :=
  MkTicket kInvalidServiceTransitionIdentity 0.

Definition ServiceStartTicketIsValid (ticket : ServiceStartTicket) : bool :=
  negb (ticket_service_identity ticket =? kInvalidServiceTransitionIdentity)
  && negb (ticket_generation ticket =? 0).

Record ServiceInstanceKey := MkInstanceKey {
  process_identity : Z;
  pid : Z;
}.
#[export] Instance ServiceInstanceKey_eq_dec : EqDecision ServiceInstanceKey.
Proof. solve_decision. Defined.

Definition kInvalidServiceInstanceKey : ServiceInstanceKey := MkInstanceKey 0 0.

Definition ServiceInstanceKeyIsValid (key : ServiceInstanceKey) : bool :=
  negb (process_identity key =? 0) && negb (pid key =? 0).

Definition ServiceInstanceKey_eqb (lhs rhs : ServiceInstanceKey) : bool :=
  (process_identity lhs =? process_identity rhs) && (pid lhs =? pid rhs).

Record ServiceInstanceToken := MkToken {
  token_start : ServiceStartTicket;
  token_process : ServiceInstanceKey;
}.
#[export] Instance ServiceInstanceToken_eq_dec : EqDecision ServiceInstanceToken.
Proof. solve_decision. Defined.

Definition kInvalidServiceInstanceToken : ServiceInstanceToken :=
  MkToken kInvalidServiceStartTicket kInvalidServiceInstanceKey.

Definition ServiceInstanceTokenIsValid (token : ServiceInstanceToken) : bool :=
  ServiceStartTicketIsValid (token_start token)
  && ServiceInstanceKeyIsValid (token_process token).

Inductive ServiceTransitionPhase :=
| Stopped | Starting | Running | Exited | Failed | GenerationExhausted | Stopping.
#[export] Instance ServiceTransitionPhase_eq_dec : EqDecision ServiceTransitionPhase.
Proof. solve_decision. Defined.

Definition phase_eqb (a b : ServiceTransitionPhase) : bool := bool_decide (a = b).

Record ServiceTransitionState := MkTransition {
  service_identity : Z;
  phase : ServiceTransitionPhase;
  generation : Z;
  instance : ServiceInstanceKey;
  desired_running : bool;
  start_in_flight : bool;
}.
#[export] Instance ServiceTransitionState_eq_dec : EqDecision ServiceTransitionState.
Proof. solve_decision. Defined.

Inductive ServiceStartReserveResult :=
| ReserveRejected | Reserved | AlreadyRequested | StopInProgress
| ReserveGenerationExhausted.
Inductive ServicePublicationResult := PublicationRejected | Published.
Inductive ServiceSpawnFailureResult := SpawnFailureRejected | SpawnFailureApplied.
Inductive ServiceStopResult :=
| StopRejected | AlreadyStopped | StartCancelled | KillRequired | AlreadyStopping.
Inductive ServiceExitResult := ExitRejected | ExitApplied.

(** ** Operations *)

(** [ClearState] overwrites every field of the row. *)
Definition ClearState : ServiceTransitionState :=
  MkTransition kInvalidServiceTransitionIdentity GenerationExhausted 0
    kInvalidServiceInstanceKey false false.

Definition TicketMatches (state : ServiceTransitionState) (ticket : ServiceStartTicket) : bool :=
  ServiceStartTicketIsValid ticket
  && (ticket_service_identity ticket =? service_identity state)
  && (ticket_generation ticket =? generation state).

Definition ServiceTransitionInitialize (identity : Z)
    (out_state : option ServiceTransitionState) : bool * option ServiceTransitionState :=
  match out_state with
  | None => (false, None)
  | Some _ =>
      let cleared := ClearState in
      if identity =? kInvalidServiceTransitionIdentity then (false, Some cleared)
      else (true, Some (MkTransition identity Stopped (generation cleared)
                          (instance cleared) (desired_running cleared)
                          (start_in_flight cleared)))
  end.

Definition ServiceTransitionIsCanonical (state : ServiceTransitionState) : bool :=
  if service_identity state =? kInvalidServiceTransitionIdentity then false
  else
    match phase state with
    | Stopped =>
        ServiceInstanceKey_eqb (instance state) kInvalidServiceInstanceKey
        && negb (desired_running state) && negb (start_in_flight state)
    | Starting =>
        negb (generation state =? 0)
        && ServiceInstanceKey_eqb (instance state) kInvalidServiceInstanceKey
        && desired_running state && start_in_flight state
    | Running =>
        negb (generation state =? 0) && ServiceInstanceKeyIsValid (instance state)
        && desired_running state && negb (start_in_flight state)
    | Stopping =>
        negb (generation state =? 0) && ServiceInstanceKeyIsValid (instance state)
        && negb (desired_running state) && negb (start_in_flight state)
    | Exited | Failed =>
        negb (generation state =? 0)
        && ServiceInstanceKey_eqb (instance state) kInvalidServiceInstanceKey
        && negb (desired_running state) && negb (start_in_flight state)
    | GenerationExhausted =>
        (generation state =? kServiceTransitionGenerationMaximum)
        && ServiceInstanceKey_eqb (instance state) kInvalidServiceInstanceKey
        && negb (desired_running state) && negb (start_in_flight state)
    end.

Definition ServiceTransitionReserveStart (state : option ServiceTransitionState)
    (out_ticket : option ServiceStartTicket)
    : ServiceStartReserveResult * option ServiceTransitionState * option ServiceStartTicket :=
  let out_ticket := match out_ticket with
                    | Some _ => Some kInvalidServiceStartTicket
                    | None => None
                    end in
  match state, out_ticket with
  | Some s, Some _ =>
      if negb (ServiceTransitionIsCanonical s) then (ReserveRejected, state, out_ticket)
      else if (phase_eqb (phase s) Starting && start_in_flight s)
              || (phase_eqb (phase s) Running && desired_running s)
      then (AlreadyRequested, state, out_ticket)
      else if phase_eqb (phase s) Stopping then (StopInProgress, state, out_ticket)
      else if phase_eqb (phase s) GenerationExhausted
              || (generation s =? kServiceTransitionGenerationMaximum)
      then (ReserveGenerationExhausted,
            Some (MkTransition (service_identity s) GenerationExhausted (generation s)
                    kInvalidServiceInstanceKey false false),
            out_ticket)
      else
        let generation' := wrap64 (generation s + 1) in
        (Reserved,
         Some (MkTransition (service_identity s) Starting generation'
                 kInvalidServiceInstanceKey true true),
         Some (MkTicket (service_identity s) generation'))
  | _, _ => (ReserveRejected, state, out_ticket)
  end.

Definition ServiceTransitionIsCurrentStart (state : ServiceTransitionState)
    (ticket : ServiceStartTicket) : bool :=
  ServiceTransitionIsCanonical state && phase_eqb (phase state) Starting
  && desired_running state && start_in_flight state && TicketMatches state ticket.

Definition ServiceTransitionRecordSpawnFailure (state : option ServiceTransitionState)
    (ticket : ServiceStartTicket)
    : ServiceSpawnFailureResult * option ServiceTransitionState :=
  match state with
  | Some s =>
      if ServiceTransitionIsCurrentStart s ticket
      then (SpawnFailureApplied,
            Some (MkTransition (service_identity s) Failed (generation s)
                    kInvalidServiceInstanceKey false false))
      else (SpawnFailureRejected, state)
  | None => (SpawnFailureRejected, state)
  end.

Definition ServiceTransitionCommitAtSchedulerPublication
    (state : option ServiceTransitionState) (ticket : ServiceStartTicket)
    (inst : ServiceInstanceKey)
    : ServicePublicationResult * option ServiceTransitionState :=
  match state with
  | Some s =>
      if negb (ServiceInstanceKeyIsValid inst) || negb (ServiceTransitionIsCurrentStart s ticket)
      then (PublicationRejected, state)
      else (Published,
            Some (MkTransition (service_identity s) Running (generation s) inst true false))
  | None => (PublicationRejected, state)
  end.

Definition ServiceTransitionStop (state : option ServiceTransitionState)
    (out_instance_to_kill : option ServiceInstanceToken)
    : ServiceStopResult * option ServiceTransitionState * option ServiceInstanceToken :=
  let out := match out_instance_to_kill with
             | Some _ => Some kInvalidServiceInstanceToken
             | None => None
             end in
  match state, out with
  | Some s, Some _ =>
      if negb (ServiceTransitionIsCanonical s) then (StopRejected, state, out)
      else if phase_eqb (phase s) Stopped || phase_eqb (phase s) Exited
              || phase_eqb (phase s) Failed || phase_eqb (phase s) GenerationExhausted
      then (AlreadyStopped, state, out)
      else if phase_eqb (phase s) Stopping then (AlreadyStopping, state, out)
      else if phase_eqb (phase s) Running
      then (KillRequired,
            Some (MkTransition (service_identity s) Stopping (generation s)
                    (instance s) false false),
            Some (MkToken (MkTicket (service_identity s) (generation s)) (instance s)))
      else
        let phase' := if generation s =? kServiceTransitionGenerationMaximum
                      then GenerationExhausted else Stopped in
        (StartCancelled,
         Some (MkTransition (service_identity s) phase' (generation s)
                 kInvalidServiceInstanceKey false false),
         out)
  | _, _ => (StopRejected, state, out)
  end.

Definition ServiceTransitionIsCurrentInstance (state : ServiceTransitionState)
    (inst : ServiceInstanceToken) : bool :=
  ServiceInstanceTokenIsValid inst && ServiceTransitionIsCanonical state
  && (phase_eqb (phase state) Running || phase_eqb (phase state) Stopping)
  && ServiceInstanceKey_eqb (instance state) (token_process inst)
  && TicketMatches state (token_start inst).

Definition ServiceTransitionIsCurrentRunning (state : ServiceTransitionState)
    (inst : ServiceInstanceToken) : bool :=
  phase_eqb (phase state) Running && desired_running state
  && ServiceTransitionIsCurrentInstance state inst.

Definition ServiceTransitionObserveExit (state : option ServiceTransitionState)
    (inst : ServiceInstanceToken)
    : ServiceExitResult * option ServiceTransitionState :=
  match state with
  | Some s =>
      if negb (ServiceTransitionIsCurrentInstance s inst) then (ExitRejected, state)
      else
        let stop_was_requested := phase_eqb (phase s) Stopping in
        let phase' :=
          if stop_was_requested
          then (if generation s =? kServiceTransitionGenerationMaximum
                then GenerationExhausted else Stopped)
          else Exited in
        (ExitApplied,
         Some (MkTransition (service_identity s) phase' (generation s)
                 kInvalidServiceInstanceKey false false))
  | None => (ExitRejected, state)
  end.

(** ** Executions

    A service manager issues the operations in any order and with any
    tickets and tokens, stale, forged or exact.  [exec_op] runs one call and
    reports what it granted; [run_ops] runs a sequence. *)

Inductive op :=
| OpReserve
| OpSpawnFailure (t : ServiceStartTicket)
| OpCommit (t : ServiceStartTicket) (k : ServiceInstanceKey)
| OpStop
| OpObserveExit (tok : ServiceInstanceToken).

Inductive event :=
| EvNone
| EvReserved (t : ServiceStartTicket)
| EvFailed (t : ServiceStartTicket)
| EvCancelled
| EvPublished (tok : ServiceInstanceToken)
| EvKill (tok : ServiceInstanceToken)
| EvExited (tok : ServiceInstanceToken).
#[export] Instance event_eq_dec : EqDecision event.
Proof. solve_decision. Defined.

Definition exec_op (s : ServiceTransitionState) (o : op) : ServiceTransitionState * event :=
  match o with
  | OpReserve =>
      match ServiceTransitionReserveStart (Some s) (Some kInvalidServiceStartTicket) with
      | (Reserved, Some s', Some t) => (s', EvReserved t)
      | (_, Some s', _) => (s', EvNone)
      | _ => (s, EvNone)
      end
  | OpSpawnFailure t =>
      match ServiceTransitionRecordSpawnFailure (Some s) t with
      | (SpawnFailureApplied, Some s') => (s', EvFailed t)
      | (_, Some s') => (s', EvNone)
      | _ => (s, EvNone)
      end
  | OpCommit t k =>
      match ServiceTransitionCommitAtSchedulerPublication (Some s) t k with
      | (Published, Some s') => (s', EvPublished (MkToken t k))
      | (_, Some s') => (s', EvNone)
      | _ => (s, EvNone)
      end
  | OpStop =>
      match ServiceTransitionStop (Some s) (Some kInvalidServiceInstanceToken) with
      | (KillRequired, Some s', Some tok) => (s', EvKill tok)
      | (StartCancelled, Some s', _) => (s', EvCancelled)
      | (_, Some s', _) => (s', EvNone)
      | _ => (s, EvNone)
      end
  | OpObserveExit tok =>
      match ServiceTransitionObserveExit (Some s) tok with
      | (ExitApplied, Some s') => (s', EvExited tok)
      | (_, Some s') => (s', EvNone)
      | _ => (s, EvNone)
      end
  end.

Fixpoint run_ops (s : ServiceTransitionState) (os : list op)
    : ServiceTransitionState * list event :=
  match os with
  | [] => (s, [])
  | o :: os' =>
      let '(s1, e) := exec_op s o in
      let '(s2, es) := run_ops s1 os' in
      (s2, e :: es)
  end.

(** ** The promised lifetime

    What the row promises its clients, with no phases or flags: start
    tickets are minted with consecutive generations and never while another
    start or instance is outstanding; only the outstanding ticket can be
    published or failed; the one live instance is killed at most once and
    leaves only through its own exit. *)

Record lifetime := MkLifetime {
  lt_minted : Z;
  lt_pending : option ServiceStartTicket;
  lt_live : option (ServiceInstanceToken * bool);
}.

Definition lifetime_step (l : lifetime) (e : event) : option lifetime :=
  match e with
  | EvNone => Some l
  | EvReserved t =>
      match lt_pending l, lt_live l with
      | None, None =>
          if ticket_generation t =? lt_minted l + 1
          then Some (MkLifetime (ticket_generation t) (Some t) None) else None
      | _, _ => None
      end
  | EvFailed t =>
      if decide (lt_pending l = Some t)
      then Some (MkLifetime (lt_minted l) None (lt_live l)) else None
  | EvCancelled =>
      match lt_pending l with
      | Some _ => Some (MkLifetime (lt_minted l) None (lt_live l))
      | None => None
      end
  | EvPublished tok =>
      if decide (lt_pending l = Some (token_start tok))
      then Some (MkLifetime (lt_minted l) None (Some (tok, false))) else None
  | EvKill tok =>
      if decide (lt_live l = Some (tok, false))
      then Some (MkLifetime (lt_minted l) (lt_pending l) (Some (tok, true))) else None
  | EvExited tok =>
      match lt_live l with
      | Some (tok', _) =>
          if decide (tok = tok')
          then Some (MkLifetime (lt_minted l) (lt_pending l) None) else None
      | None => None
      end
  end.

Fixpoint lifetime_run (l : lifetime) (es : list event) : option lifetime :=
  match es with
  | [] => Some l
  | e :: es' => match lifetime_step l e with
                | Some l' => lifetime_run l' es'
                | None => None
                end
  end.

Definition row_ticket (s : ServiceTransitionState) : ServiceStartTicket :=
  MkTicket (service_identity s) (generation s).

(** The abstraction function of the refinement. *)
Definition lifetime_of (s : ServiceTransitionState) : lifetime :=
  MkLifetime (generation s)
    (if phase_eqb (phase s) Starting then Some (row_ticket s) else None)
    (match phase s with
     | Running => Some (MkToken (row_ticket s) (instance s), false)
     | Stopping => Some (MkToken (row_ticket s) (instance s), true)
     | _ => None
     end).

(** The row invariant: canonical, with a generation of its width. *)
Definition row_ok (s : ServiceTransitionState) : Prop :=
  ServiceTransitionIsCanonical s = true /\ is_u64 (generation s).

(** The row initialization leaves. *)
Definition start_row (identity : Z) : ServiceTransitionState :=
  default ClearState (ServiceTransitionInitialize identity (Some ClearState)).2.

(** ** Facts about the guards *)

Lemma phase_eqb_spec a b : phase_eqb a b = true <-> a = b.
Proof. apply bool_decide_eq_true. Qed.

Lemma ServiceInstanceKey_eqb_spec a b : ServiceInstanceKey_eqb a b = true <-> a = b.
Proof.
  destruct a, b. unfold ServiceInstanceKey_eqb. simpl.
  rewrite andb_true_iff, !Z.eqb_eq. naive_solver.
Qed.

Lemma TicketMatches_row s t : TicketMatches s t = true -> t = row_ticket s.
Proof.
  destruct t. unfold TicketMatches, row_ticket. simpl.
  rewrite !andb_true_iff, !Z.eqb_eq. naive_solver.
Qed.

Lemma current_start_inv s t :
  ServiceTransitionIsCurrentStart s t = true -> phase s = Starting /\ t = row_ticket s.
Proof.
  unfold ServiceTransitionIsCurrentStart. rewrite !andb_true_iff, phase_eqb_spec.
  naive_solver eauto using TicketMatches_row.
Qed.

Lemma current_instance_inv s tok :
  ServiceTransitionIsCurrentInstance s tok = true ->
  (phase s = Running \/ phase s = Stopping) /\ tok = MkToken (row_ticket s) (instance s).
Proof.
  unfold ServiceTransitionIsCurrentInstance.
  rewrite !andb_true_iff, orb_true_iff, !phase_eqb_spec, ServiceInstanceKey_eqb_spec.
  intros [[[_ Hp] Hi] Ht%TicketMatches_row]. destruct tok; simpl in *. by subst.
Qed.

(** The canonical rows, one constructor per shape: inverting a canonical row
    with this view leaves an explicit record on which every guard computes. *)
Inductive row_view : ServiceTransitionState -> Prop :=
| view_idle id ph g :
    id <> 0 -> is_u64 g ->
    ph = Stopped \/ ((ph = Exited \/ ph = Failed) /\ g <> 0) ->
    row_view (MkTransition id ph g kInvalidServiceInstanceKey false false)
| view_exhausted id :
    id <> 0 ->
    row_view (MkTransition id GenerationExhausted u64_max kInvalidServiceInstanceKey false false)
| view_starting id g :
    id <> 0 -> is_u64 g -> g <> 0 ->
    row_view (MkTransition id Starting g kInvalidServiceInstanceKey true true)
| view_running id g k :
    id <> 0 -> is_u64 g -> g <> 0 -> ServiceInstanceKeyIsValid k = true ->
    row_view (MkTransition id Running g k true false)
| view_stopping id g k :
    id <> 0 -> is_u64 g -> g <> 0 -> ServiceInstanceKeyIsValid k = true ->
    row_view (MkTransition id Stopping g k false false).

Lemma row_ok_view s : row_ok s <-> row_view s.
Proof.
  split.
  - intros [Hc Hg]. destruct s as [id ph g i d f].
    unfold ServiceTransitionIsCanonical in Hc. simpl in *.
    unfold kInvalidServiceTransitionIdentity, kServiceTransitionGenerationMaximum in Hc.
    destruct (Z.eqb_spec id 0); [done|].
    destruct ph; rewrite ?andb_true_iff, ?negb_true_iff, ?Z.eqb_neq, ?Z.eqb_eq,
      ?ServiceInstanceKey_eqb_spec in Hc; destruct_and?; simplify_eq;
      first [by constructor; auto | by apply view_exhausted].
  - destruct 1 as [id ph g Hid Hg Hph|id Hid|id g Hid Hg H0|id g k Hid Hg H0 Hk|id g k Hid Hg H0 Hk];
      (split; [|simpl; ulia]); unfold ServiceTransitionIsCanonical; simpl;
      (destruct (Z.eqb_spec id kInvalidServiceTransitionIdentity); [done|]).
    1: destruct Hph as [->|[[->| ->] ?]]; simpl; [done| |].
    all: rewrite ?andb_true_iff, ?negb_true_iff, ?Z.eqb_neq, ?Z.eqb_eq; auto.
Qed.


(** Run every guard of an operation on an explicit row, then re-establish the
    view and the abstract step. *)
Ltac sim_done :=
  unfold lifetime_of, row_ticket in *; simpl in *;
  repeat (case_decide || rewrite Z.eqb_refl || simpl);
  try done; try congruence; try (rewrite bool_decide_true by done; done).

Lemma reserve_sim s s' e :
  row_view s -> exec_op s OpReserve = (s', e) ->
  row_view s' /\ lifetime_step (lifetime_of s) e = Some (lifetime_of s').
Proof.
  intros Hv. pose proof (proj2 (row_ok_view s) Hv) as [Hc _]. simpl. rewrite Hc. simpl.
  destruct Hv as [id ph g Hid Hg Hph|id Hid|id g Hid Hg H0|id g k Hid Hg H0 Hk|id g k Hid Hg H0 Hk];
    simpl; try (intros [= <- <-]; split; [by constructor|by sim_done]).
  destruct (Z.eqb_spec g kServiceTransitionGenerationMaximum) as [->|Hm].
  - destruct Hph as [->|[[->| ->] ?]]; simpl; intros [= <- <-]; (split; [by constructor|by sim_done]).
  - assert (wrap64 (g + 1) = g + 1) as Hw.
    { apply wrap64_small. unfold kServiceTransitionGenerationMaximum in *. ulia. }
    unfold kServiceTransitionGenerationMaximum in *.
    destruct Hph as [->|[[->| ->] ?]]; simpl; rewrite Hw; intros [= <- <-];
      (split; [constructor; ulia|by sim_done]).
Qed.

Lemma spawn_failure_sim s t s' e :
  row_view s -> exec_op s (OpSpawnFailure t) = (s', e) ->
  row_view s' /\ lifetime_step (lifetime_of s) e = Some (lifetime_of s').
Proof.
  intros Hv. simpl. destruct (ServiceTransitionIsCurrentStart s t) eqn:Hs;
    intros [= <- <-]; [|done].
  apply current_start_inv in Hs as [Hp ->].
  destruct Hv; simplify_eq/=; [by destruct_or?; destruct_and?; destruct_or?|].
  split; [by constructor; auto|by sim_done].
Qed.

Lemma commit_sim s t k s' e :
  row_view s -> exec_op s (OpCommit t k) = (s', e) ->
  row_view s' /\ lifetime_step (lifetime_of s) e = Some (lifetime_of s').
Proof.
  intros Hv. simpl.
  destruct (ServiceInstanceKeyIsValid k) eqn:Hk; simpl; [|by intros [= <- <-]].
  destruct (ServiceTransitionIsCurrentStart s t) eqn:Hs; intros [= <- <-]; [|done].
  apply current_start_inv in Hs as [Hp ->].
  destruct Hv; simplify_eq/=; [by destruct_or?; destruct_and?; destruct_or?|].
  split; [by constructor|by sim_done].
Qed.

Lemma stop_sim s s' e :
  row_view s -> exec_op s OpStop = (s', e) ->
  row_view s' /\ lifetime_step (lifetime_of s) e = Some (lifetime_of s').
Proof.
  intros Hv. pose proof (proj2 (row_ok_view s) Hv) as [Hc _]. simpl. rewrite Hc. simpl.
  destruct Hv as [id ph g Hid Hg Hph|id Hid|id g Hid Hg H0|id g k Hid Hg H0 Hk|id g k Hid Hg H0 Hk];
    simpl; try (intros [= <- <-]; split; [by constructor|by sim_done]).
  - destruct Hph as [->|[[->| ->] ?]]; simpl; intros [= <- <-];
      (split; [constructor; auto|by sim_done]).
  - intros [= <- <-].
    destruct (Z.eqb_spec g kServiceTransitionGenerationMaximum) as [->|Hm];
      (split; [by constructor; auto|by sim_done]).
Qed.

Lemma observe_exit_sim s tok s' e :
  row_view s -> exec_op s (OpObserveExit tok) = (s', e) ->
  row_view s' /\ lifetime_step (lifetime_of s) e = Some (lifetime_of s').
Proof.
  intros Hv. simpl. destruct (ServiceTransitionIsCurrentInstance s tok) eqn:Hs;
    simpl; intros [= <- <-]; [|done].
  apply current_instance_inv in Hs as [Hp ->].
  destruct Hv as [id ph g Hid Hg Hph|id Hid|id g Hid Hg H0|id g k Hid Hg H0 Hk|id g k Hid Hg H0 Hk];
    simplify_eq/=; try (by destruct_or?; destruct_and?; destruct_or?; simplify_eq).
  - split; [by constructor; auto|by sim_done].
  - destruct (Z.eqb_spec g kServiceTransitionGenerationMaximum) as [->|Hm];
      (split; [by constructor; auto|by sim_done]).
Qed.

#[export] Hint Resolve reserve_sim spawn_failure_sim commit_sim stop_sim observe_exit_sim : duet.

Lemma exec_op_sim s o s' e :
  row_view s -> exec_op s o = (s', e) ->
  row_view s' /\ lifetime_step (lifetime_of s) e = Some (lifetime_of s').
Proof. destruct o; eauto with duet. Qed.

Lemma run_ops_sim os : forall s s' es,
  row_view s -> run_ops s os = (s', es) ->
  row_view s' /\ lifetime_run (lifetime_of s) es = Some (lifetime_of s').
Proof.
  induction os as [|o os IH]; intros s s' es Hv Hrun; simplify_eq/=; [done|].
  destruct (exec_op s o) as [s1 e] eqn:Ho, (run_ops s1 os) as [s2 es2] eqn:Hr.
  simplify_eq. apply exec_op_sim in Ho as [Hv1 He]; [|done]. simpl. rewrite He. eauto.
Qed.

Lemma start_row_view id : id <> 0 -> row_view (start_row id).
Proof.
  intros Hid. unfold start_row, ServiceTransitionInitialize, kInvalidServiceTransitionIdentity. rewrite (proj2 (Z.eqb_neq id 0)) by done.
  change (row_view (MkTransition id Stopped 0 kInvalidServiceInstanceKey false false)). apply view_idle; [done|ulia|auto].
Qed.

(** ** Consequences of an accepted lifetime *)

Definition pick_published (e : event) : option ServiceInstanceToken :=
  match e with EvPublished t => Some t | _ => None end.
Definition pick_killed (e : event) : option ServiceInstanceToken :=
  match e with EvKill t => Some t | _ => None end.
Definition published_tokens (es : list event) : list ServiceInstanceToken :=
  omap pick_published es.
Definition killed_tokens (es : list event) : list ServiceInstanceToken :=
  omap pick_killed es.
Definition token_generation (t : ServiceInstanceToken) : Z := ticket_generation (token_start t).

(** The outstanding ticket and the live instance carry minted generations. *)
Definition lifetime_wf (l : lifetime) : Prop :=
  (forall t, lt_pending l = Some t -> ticket_generation t = lt_minted l) /\
  (forall tok b, lt_live l = Some (tok, b) -> token_generation tok <= lt_minted l) /\
  (lt_pending l <> None -> lt_live l = None).

(** The generations still available to publish and to kill. *)
Definition publish_floor (l : lifetime) : Z :=
  match lt_pending l with Some _ => lt_minted l - 1 | None => lt_minted l end.
Definition kill_floor (l : lifetime) : Z :=
  match lt_live l with
  | Some (tok, false) => token_generation tok - 1
  | Some (_, true) | None => publish_floor l
  end.

Ltac lifetime_cases :=
  repeat match goal with
  | H : lifetime_step ?l ?e = Some _ |- _ => destruct l as [m pe li], e; simpl in H
  | H : context [match ?x with _ => _ end] |- _ => destruct x eqn:?; simplify_eq/=
  end; simplify_eq/=.

Lemma lifetime_step_wf l e l' :
  lifetime_wf l -> lifetime_step l e = Some l' -> lifetime_wf l'.
Proof.
  intros (Hp & Hl & Hx) Hs. unfold lifetime_wf in *. lifetime_cases; try done;
  repeat split; intros; simplify_eq; try done; eauto.
  all: try (specialize (Hp _ eq_refl); unfold token_generation; simpl in *; lia).
  all: try (by eapply Hl).
  all: try (by specialize (Hx H)).
Qed.

Lemma lifetime_floors l e l' :
  lifetime_wf l -> lifetime_step l e = Some l' ->
  publish_floor l <= publish_floor l' /\ kill_floor l <= kill_floor l' /\
  (forall t, e = EvPublished t -> publish_floor l < token_generation t <= publish_floor l') /\
  (forall t, e = EvKill t -> kill_floor l < token_generation t <= kill_floor l').
Proof.
  intros (Hp & Hl & Hx) Hs. unfold kill_floor, publish_floor, token_generation in *.
  lifetime_cases; repeat split; intros; simplify_eq/=; try lia; try done.
  all: try match goal with x : option ServiceStartTicket |- _ => destruct x; simpl end.
  all: repeat match goal with
    | H : forall t, Some ?x = Some t -> _ |- _ => specialize (H x eq_refl); simpl in H
    | H : forall t b, Some (?x, ?c) = Some (t, b) -> _ |- _ => specialize (H x c eq_refl); simpl in H
    | H : Some _ <> None -> _ |- _ => specialize (H ltac:(done)); simplify_eq
    end; simpl in *; try case_match; lia.
Qed.

(** Collecting what a predicate on events extracts, with a rising floor. *)
Lemma accepted_sorted (pick : event -> option ServiceInstanceToken) (floor : lifetime -> Z) :
  (forall l e l', lifetime_wf l -> lifetime_step l e = Some l' ->
     floor l <= floor l' /\
     (forall t, pick e = Some t -> floor l < token_generation t <= floor l')) ->
  forall es l l', lifetime_wf l -> lifetime_run l es = Some l' ->
    Forall (fun t => floor l < token_generation t) (omap pick es) /\
    StronglySorted Z.lt (token_generation <$> omap pick es).
Proof.
  intros Hfloor. induction es as [|e es IH]; intros l l' Hwf Hrun; simpl in *.
  { split; constructor. }
  destruct (lifetime_step l e) as [l1|] eqn:He; [|done].
  destruct (Hfloor l e l1 Hwf He) as [Hmono Hpick].
  destruct (IH l1 l') as [Hall Hsort]; [eauto using lifetime_step_wf|done|].
  assert (Forall (fun t => floor l < token_generation t) (omap pick es)).
  { eapply Forall_impl; [exact Hall|]. simpl. lia. }
  destruct (pick e) as [t|] eqn:Ht; [|done].
  specialize (Hpick t eq_refl). split; [by constructor; [lia|]|].
  simpl. constructor; [done|]. apply Forall_fmap.
  eapply Forall_impl; [exact Hall|]. simpl. lia.
Qed.

Lemma live_until_exit tok b c tok2 : forall bs l l',
  lifetime_wf l -> lt_live l = Some (tok, b) ->
  lifetime_run l (bs ++ EvPublished tok2 :: c) = Some l' -> EvExited tok ∈ bs.
Proof.
  intros bs. revert b. induction bs as [|e bs IH]; intros b l l' Hwf Hl Hrun; simpl in *.
  { destruct Hwf as (_ & _ & Hx). case_decide as Hp; [|done].
    rewrite Hp in Hx. rewrite Hx in Hl by done. done. }
  destruct (lifetime_step l e) as [l1|] eqn:He; [|done].
  destruct (decide (e = EvExited tok)) as [->|Hne]; [by left|]. right.
  pose proof (lifetime_step_wf _ _ _ Hwf He) as Hwf1.
  assert (exists b', lt_live l1 = Some (tok, b')) as [b' Hl1].
  { destruct Hwf as (_ & _ & Hx). destruct l as [m pe li]. simpl in *. subst li.
    destruct e; simpl in He; repeat case_match; simplify_eq/=; eauto.
    all: repeat match goal with H : decide _ = _ |- _ => clear H end; simplify_eq; eauto.
    by specialize (Hx ltac:(done)). }
  eauto.
Qed.

Lemma lifetime_wf_start id : lifetime_wf (lifetime_of (start_row id)).
Proof. unfold start_row, ServiceTransitionInitialize. destruct (_ =? _); repeat split; by intros. Qed.

Lemma run_from_start id os s es :
  id <> 0 -> run_ops (start_row id) os = (s, es) ->
  row_view s /\ lifetime_run (lifetime_of (start_row id)) es = Some (lifetime_of s).
Proof. eauto using run_ops_sim, start_row_view. Qed.

Lemma lifetime_run_app es1 es2 : forall l,
  lifetime_run l (es1 ++ es2) = match lifetime_run l es1 with
                                | Some l' => lifetime_run l' es2 | None => None end.
Proof. induction es1 as [|e es1 IH]; intros l; simpl; [done|]. by destruct (lifetime_step l e). Qed.

Lemma lifetime_run_wf es : forall l l',
  lifetime_wf l -> lifetime_run l es = Some l' -> lifetime_wf l'.
Proof.
  induction es as [|e es IH]; intros l l' Hwf Hr; simplify_eq/=; [done|].
  destruct (lifetime_step l e) eqn:He; [|done]. eauto using lifetime_step_wf.
Qed.

(** ** Claims *)

(** C1: Refinement: whatever sequence of operations a service manager issues
    on a freshly initialized row, with arbitrary stale or forged tickets and
    tokens, the row stays canonical and the grants it hands out form an
    accepted lifetime: tickets with consecutive generations, never while a
    start or an instance is outstanding, publication only of the outstanding
    ticket, at most one kill of the live instance, removal only through that
    instance's exit. *)
Theorem service_row_refines_lifetime id os s es :
  id <> 0 ->
  run_ops (start_row id) os = (s, es) ->
  ServiceTransitionIsCanonical s = true /\
  lifetime_run (lifetime_of (start_row id)) es = Some (lifetime_of s).
Proof.
  intros Hid Hrun. destruct (run_from_start id os s es Hid Hrun) as [Hv Hl].
  split; [by apply row_ok_view|done].
Qed.

(** C2: Safety: service instances never overlap.  Between two publications of
    one row, in any execution, the exit of the first published instance was
    observed. *)
Theorem service_instances_never_overlap id os s a tok1 b tok2 c :
  id <> 0 ->
  run_ops (start_row id) os = (s, a ++ EvPublished tok1 :: b ++ EvPublished tok2 :: c) ->
  EvExited tok1 ∈ b.
Proof.
  intros Hid Hrun. apply run_from_start in Hrun as [_ Hl]; [|done].
  rewrite lifetime_run_app in Hl. destruct (lifetime_run _ a) as [l1|] eqn:Ha; [|done].
  assert (lifetime_wf l1) as Hwf by eauto using lifetime_run_wf, lifetime_wf_start.
  cbn [lifetime_run] in Hl. destruct (lifetime_step l1 _) as [l2|] eqn:Hs; [|done].
  eapply (live_until_exit tok1 false c tok2 b l2);
    [exact (lifetime_step_wf _ _ _ Hwf Hs)| |exact Hl].
  simpl in Hs. case_decide; [|done]. by injection Hs as <-.
Qed.

(** Exactness: the generations of the published instances are strictly
    increasing, and so are those of the kill tokens: no generation is ever
    published twice and no instance is handed out for killing twice. *)
Theorem service_generations_used_once id os s es :
  id <> 0 ->
  run_ops (start_row id) os = (s, es) ->
  StronglySorted Z.lt (token_generation <$> published_tokens es) /\
  StronglySorted Z.lt (token_generation <$> killed_tokens es).
Proof.
  intros Hid Hrun. apply run_from_start in Hrun as [_ Hl]; [|done].
  pose proof (lifetime_wf_start id) as Hwf.
  split; [eapply (accepted_sorted pick_published publish_floor)
         |eapply (accepted_sorted pick_killed kill_floor)]; eauto;
    intros l e l' Hl1 Hs; destruct (lifetime_floors l e l' Hl1 Hs) as (? & ? & Hpub & Hkill);
    (split; [done|]); intros t Ht; destruct e; simplify_eq/=; auto.
Qed.

(** Bringing a row back to a startable state: stop it and, when the stop
    handed out a kill token, commit that instance's exit. *)
Definition settle (s : ServiceTransitionState) : ServiceTransitionState :=
  match exec_op s OpStop with
  | (s1, EvKill tok) => (exec_op s1 (OpObserveExit tok)).1
  | (s1, _) =>
      match phase s1 with
      | Stopping =>
          (exec_op s1 (OpObserveExit (MkToken (row_ticket s1) (instance s1)))).1
      | _ => s1
      end
  end.

Lemma settle_startable s :
  row_view s -> generation s < u64_max ->
  exists ph, (ph = Stopped \/ ph = Exited \/ ph = Failed) /\
    settle s = MkTransition (service_identity s) ph (generation s)
                 kInvalidServiceInstanceKey false false.
Proof.
  intros Hv Hg. unfold settle.
  pose proof (proj2 (row_ok_view s) Hv) as [Hc _].
  unfold exec_op at 1. cbn [ServiceTransitionStop]. rewrite Hc. simpl.
  destruct Hv as [id ph g Hid Hgr Hph|id Hid|id g Hid Hgr H0|id g k Hid Hgr H0 Hk|id g k Hid Hgr H0 Hk];
    simpl in *.
  1: destruct Hph as [->|[[->| ->] ?]]; simpl; eauto.
  1: ulia.
  1: destruct (Z.eqb_spec g kServiceTransitionGenerationMaximum) as [->|];
       [unfold kServiceTransitionGenerationMaximum in *; lia|simpl; eauto].
  all: assert (ServiceTransitionIsCurrentInstance
         (MkTransition id Stopping g k false false) (MkToken (MkTicket id g) k) = true) as Hcur;
    [unfold ServiceTransitionIsCurrentInstance, ServiceInstanceTokenIsValid,
       ServiceStartTicketIsValid, TicketMatches, ServiceTransitionIsCanonical,
       ServiceStartTicketIsValid, kInvalidServiceTransitionIdentity; simpl;
     rewrite Hk, (proj2 (ServiceInstanceKey_eqb_spec k k) eq_refl), !Z.eqb_refl,
       (proj2 (Z.eqb_neq id 0) Hid), (proj2 (Z.eqb_neq g 0) H0); done|].
  all: unfold row_ticket; simpl; rewrite Hcur; simpl;
    unfold kServiceTransitionGenerationMaximum;
    rewrite (proj2 (Z.eqb_neq g u64_max)) by lia; eauto.
Qed.

(** Liveness: a row that has not used up its generations can always be
    started again. From any canonical row, stopping it and committing the
    exit of the instance it names leaves a row on which the next reservation
    is granted, with exactly the next generation. *)
Theorem service_settled_row_restarts s :
  ServiceTransitionIsCanonical s = true -> 0 <= generation s < u64_max ->
  ServiceTransitionReserveStart (Some (settle s)) (Some kInvalidServiceStartTicket) =
    (Reserved,
     Some (MkTransition (service_identity s) Starting (generation s + 1)
             kInvalidServiceInstanceKey true true),
     Some (MkTicket (service_identity s) (generation s + 1))).
Proof.
  intros Hc Hg. assert (row_view s) as Hv by (apply row_ok_view; split; [done|ulia]).
  destruct (settle_startable s Hv ltac:(lia)) as (ph & Hph & Hs).
  assert (row_view (settle s)) as Hv'.
  { unfold settle. destruct (exec_op s OpStop) as [s1 e] eqn:He.
    destruct (exec_op_sim _ _ _ _ Hv He) as [Hv1 _].
    assert (forall tok, row_view (exec_op s1 (OpObserveExit tok)).1).
    { intros tok. destruct (exec_op s1 (OpObserveExit tok)) eqn:Ho. simpl.
      eapply exec_op_sim; eauto. }
    destruct e; try done; by destruct (phase s1). }
  pose proof (proj2 (row_ok_view _) Hv') as [Hc' _].
  unfold ServiceTransitionReserveStart. rewrite Hc', Hs. simpl.
  unfold kServiceTransitionGenerationMaximum.
  rewrite (proj2 (Z.eqb_neq _ u64_max)) by lia. rewrite wrap64_small by ulia.
  destruct Hph as [->|[->| ->]]; done.
Qed.

(** C3: Bounds: generations never wrap.  A row that has spent the last
    generation and has nothing outstanding grants nothing any more, whatever
    operations follow, and its generation stays at the maximum. *)
Theorem service_generation_exhaustion_is_final s os s' es :
  ServiceTransitionIsCanonical s = true -> generation s = u64_max ->
  lt_pending (lifetime_of s) = None -> lt_live (lifetime_of s) = None ->
  run_ops s os = (s', es) ->
  generation s' = u64_max /\ Forall (eq EvNone) es.
Proof.
  intros Hc Hg Hp Hl. assert (row_view s) as Hv by (apply row_ok_view; split; [done|ulia]).
  clear Hc. revert s s' es Hv Hg Hp Hl.
  induction os as [|o os IH]; intros s s' es Hv Hg Hp Hl Hrun; cbn [run_ops] in Hrun.
  { by injection Hrun as <- <-. }
  destruct (exec_op s o) as [s1 e] eqn:Ho, (run_ops s1 os) as [s2 es2] eqn:Hr.
  injection Hrun as -> <-.
  destruct (exec_op_sim _ _ _ _ Hv Ho) as [Hv1 Hs].
  pose proof (proj2 (row_ok_view _) Hv1) as [_ Hr1].
  assert (e = EvNone) as ->.
  { destruct e as [|t|t| |tok|tok|tok]; [done|..]; exfalso;
      cbn [lifetime_step] in Hs; rewrite ?Hp, ?Hl in Hs; try done.
    destruct (Z.eqb_spec (ticket_generation t) (lt_minted (lifetime_of s) + 1)) as [Ht|]; [|done].
    apply (f_equal (fmap lt_minted)) in Hs. cbn in Hs, Ht. simplify_eq. ulia. }
  assert (lifetime_of s1 = lifetime_of s) as Heq by (cbn [lifetime_step] in Hs; congruence).
  destruct (IH s1 s' es2) as [? ?]; [done| |by rewrite Heq|by rewrite Heq|done|by auto].
  by change (lt_minted (lifetime_of s1) = u64_max); rewrite Heq.
Qed.

(** ** Witnesses *)

Definition demo_key1 : ServiceInstanceKey := MkInstanceKey 100 12.
Definition demo_key2 : ServiceInstanceKey := MkInstanceKey 101 12.
Definition demo_token1 : ServiceInstanceToken := MkToken (MkTicket 7 1) demo_key1.
Definition demo_token2 : ServiceInstanceToken := MkToken (MkTicket 7 3) demo_key2.

(** A run with a recycled PID, a replayed ticket and a cancelled start. *)
Definition demo_ops : list op :=
  [ OpReserve; OpCommit (MkTicket 7 1) demo_key1; OpCommit (MkTicket 7 1) demo_key2;
    OpReserve; OpStop; OpStop; OpObserveExit demo_token1; OpReserve; OpStop; OpReserve;
    OpObserveExit demo_token1; OpCommit (MkTicket 7 3) demo_key2; OpStop ].

Lemma service_row_refines_lifetime_witness :
  ServiceTransitionIsCanonical (run_ops (start_row 7) demo_ops).1 = true /\
  lifetime_run (lifetime_of (start_row 7)) (run_ops (start_row 7) demo_ops).2 =
    Some (lifetime_of (run_ops (start_row 7) demo_ops).1).
Proof. apply (service_row_refines_lifetime 7 demo_ops); [lia|apply surjective_pairing]. Defined.

Lemma service_instances_never_overlap_witness :
  EvExited demo_token1 ∈ [EvNone; EvNone; EvKill demo_token1; EvNone; EvExited demo_token1;
      EvReserved (MkTicket 7 2); EvCancelled; EvReserved (MkTicket 7 3); EvNone].
Proof.
  apply (service_instances_never_overlap 7 demo_ops
           (MkTransition 7 Stopping 3 demo_key2 false false)
           [EvReserved (MkTicket 7 1)] demo_token1 _ demo_token2 [EvKill demo_token2]);
    [lia|reflexivity].
Defined.

Lemma service_generations_used_once_witness :
  StronglySorted Z.lt (token_generation <$> [demo_token1; demo_token2]) /\
  StronglySorted Z.lt (token_generation <$> [demo_token1; demo_token2]).
Proof.
  apply (service_generations_used_once 7 demo_ops
           (MkTransition 7 Stopping 3 demo_key2 false false)
           (run_ops (start_row 7) demo_ops).2); [lia|reflexivity].
Defined.

Lemma service_settled_row_restarts_witness :
  ServiceTransitionReserveStart
    (Some (settle (MkTransition 7 Running 3 demo_key1 true false)))
    (Some kInvalidServiceStartTicket) =
  (Reserved, Some (MkTransition 7 Starting 4 kInvalidServiceInstanceKey true true),
   Some (MkTicket 7 4)).
Proof.
  apply (service_settled_row_restarts (MkTransition 7 Running 3 demo_key1 true false));
    [reflexivity|unfold u64_max; simpl; lia].
Defined.

Lemma service_generation_exhaustion_is_final_witness :
  generation (run_ops (MkTransition 7 Exited u64_max kInvalidServiceInstanceKey false false)
                demo_ops).1 = u64_max /\
  Forall (eq EvNone)
    (run_ops (MkTransition 7 Exited u64_max kInvalidServiceInstanceKey false false) demo_ops).2.
Proof.
  apply (service_generation_exhaustion_is_final
    (MkTransition 7 Exited u64_max kInvalidServiceInstanceKey false false) demo_ops);
    reflexivity.
Defined.
