(* ===== verification/RequestLedger.v ===== *)
(** * Exact-epoch service-endpoint request ledger

    Model of [kernel/ipc/endpoint_request_ledger.h] and
    [kernel/ipc/endpoint_request_ledger.cpp]: the fixed table in which a
    service endpoint records the requests it has admitted, and the
    operations that reserve, commit, cancel, complete and drain them.
    A nullable ledger pointer is an [option]; every operation returns its
    status with the new ledger.  The 32-row array is a list of length 32. *)

From S2P Require Import Prelude.

Definition kEndpointRequestEpochInvalid : Z := 0.
Definition kEndpointRequestEpochMaximum : Z := u64_max.
Definition kEndpointRequestIdInvalid : Z := 0.
Definition kEndpointRequestIdMaximum : Z := u64_max.
Definition kEndpointRequestLedgerCapacity : nat := 32.
Definition kNoEndpointRequestSlot : nat := kEndpointRequestLedgerCapacity.

Inductive EndpointRequestDirection :=
| DirInvalid | InitiatorToAcceptor | AcceptorToInitiator.
#[export] Instance EndpointRequestDirection_eq_dec : EqDecision EndpointRequestDirection.
Proof. solve_decision. Defined.

Record EndpointRequestLedgerIdentity := MkIdentity {
  endpoint_epoch : Z;
  direction : EndpointRequestDirection;
}.
#[export] Instance EndpointRequestLedgerIdentity_eq_dec :
  EqDecision EndpointRequestLedgerIdentity.
Proof. solve_decision. Defined.

Definition kInvalidEndpointRequestLedgerIdentity : EndpointRequestLedgerIdentity :=
  MkIdentity kEndpointRequestEpochInvalid DirInvalid.

Definition EndpointRequestDirectionIsValid (d : EndpointRequestDirection) : bool :=
  bool_decide (d = InitiatorToAcceptor) || bool_decide (d = AcceptorToInitiator).

Definition EndpointRequestLedgerIdentityIsValid (id : EndpointRequestLedgerIdentity) : bool :=
  negb (endpoint_epoch id =? kEndpointRequestEpochInvalid)
  && EndpointRequestDirectionIsValid (direction id).

Definition identity_eqb (lhs rhs : EndpointRequestLedgerIdentity) : bool :=
  (endpoint_epoch lhs =? endpoint_epoch rhs) && bool_decide (direction lhs = direction rhs).

Record EndpointRequestKey := MkKey {
  ledger_identity : EndpointRequestLedgerIdentity;
  request_id : Z;
}.
#[export] Instance EndpointRequestKey_eq_dec : EqDecision EndpointRequestKey.
Proof. solve_decision. Defined.

Definition kInvalidEndpointRequestKey : EndpointRequestKey :=
  MkKey kInvalidEndpointRequestLedgerIdentity kEndpointRequestIdInvalid.

Definition EndpointRequestKeyIsValid (key : EndpointRequestKey) : bool :=
  EndpointRequestLedgerIdentityIsValid (ledger_identity key)
  && negb (request_id key =? kEndpointRequestIdInvalid).

Definition key_eqb (lhs rhs : EndpointRequestKey) : bool :=
  identity_eqb (ledger_identity lhs) (ledger_identity rhs)
  && (request_id lhs =? request_id rhs).

(** The completion authority wraps the key it was minted for. *)
Record EndpointRequestCompletionAuthority := MkAuthority { authority_key : EndpointRequestKey }.
Definition kInvalidEndpointRequestCompletionAuthority : EndpointRequestCompletionAuthority :=
  MkAuthority kInvalidEndpointRequestKey.
Definition EndpointRequestCompletionAuthorityIsValid
    (a : EndpointRequestCompletionAuthority) : bool :=
  EndpointRequestKeyIsValid (authority_key a).

Inductive EndpointRequestSlotState := SlotFree | SlotReserved | SlotCommitted.
#[export] Instance EndpointRequestSlotState_eq_dec : EqDecision EndpointRequestSlotState.
Proof. solve_decision. Defined.

Inductive EndpointRequestLedgerState :=
| LedgerUninitialized | LedgerOpen | LedgerSequenceRetired | LedgerDraining.
#[export] Instance EndpointRequestLedgerState_eq_dec : EqDecision EndpointRequestLedgerState.
Proof. solve_decision. Defined.

Inductive EndpointRequestLedgerStatus :=
| Ok | InvalidArgument | NotInitialized | AlreadyInitialized | ResetNotDrained
| IdentityExhausted | CorruptState | Draining | SequenceExhausted | Full
| StaleIdentity | OutOfOrder | ReplayRejected | NotFound | NotCommitted.
#[export] Instance EndpointRequestLedgerStatus_eq_dec : EqDecision EndpointRequestLedgerStatus.
Proof. solve_decision. Defined.

Record EndpointRequestCommitResult := MkCommitResult {
  commit_status : EndpointRequestLedgerStatus;
  completion_authority : EndpointRequestCompletionAuthority;
}.

(** [detached_keys] holds the first [detached_count] entries of the array. *)
Record EndpointRequestDrainResult := MkDrainResult {
  drain_status : EndpointRequestLedgerStatus;
  detached_keys : list EndpointRequestKey;
}.
Definition detached_count (r : EndpointRequestDrainResult) : nat := length (detached_keys r).

Record EndpointRequestSlot := MkSlot {
  slot_key : EndpointRequestKey;
  slot_state : EndpointRequestSlotState;
}.
#[export] Instance EndpointRequestSlot_eq_dec : EqDecision EndpointRequestSlot.
Proof. solve_decision. Defined.

Record EndpointRequestLedger := MkLedger {
  slots : list EndpointRequestSlot;
  identity : EndpointRequestLedgerIdentity;
  next_request_id : Z;
  active_count : Z;
  next_free_hint : Z;
  state : EndpointRequestLedgerState;
}.

(** ** Helpers of the source *)

Definition ClearSlot : EndpointRequestSlot := MkSlot kInvalidEndpointRequestKey SlotFree.

Definition slot_is (s : EndpointRequestSlotState) (slot : EndpointRequestSlot) : bool :=
  bool_decide (slot_state slot = s).

Definition SlotIsClear (slot : EndpointRequestSlot) : bool :=
  slot_is SlotFree slot && key_eqb (slot_key slot) kInvalidEndpointRequestKey.

Definition state_is (s : EndpointRequestLedgerState) (l : EndpointRequestLedger) : bool :=
  bool_decide (state l = s).

(** First live row that carries [key], or the capacity. *)
Definition FindLiveSlot (l : EndpointRequestLedger) (key : EndpointRequestKey) : nat :=
  match list_find (fun slot => negb (slot_is SlotFree slot) && key_eqb (slot_key slot) key)
          (slots l) with
  | Some (index, _) => index
  | None => kNoEndpointRequestSlot
  end.

Definition slot_index (l : EndpointRequestLedger) (offset : nat) : nat :=
  Z.to_nat (wrap32 (next_free_hint l + Z.of_nat offset)
            mod Z.of_nat kEndpointRequestLedgerCapacity).

Definition slot_at (l : EndpointRequestLedger) (index : nat) : EndpointRequestSlot :=
  nth index (slots l) ClearSlot.

(** First free row at or after the hint, cyclically, or the capacity. *)
Definition FindFreeSlot (l : EndpointRequestLedger) : nat :=
  match list_find (fun offset => slot_is SlotFree (slot_at l (slot_index l offset)))
          (seq 0 kEndpointRequestLedgerCapacity) with
  | Some (_, offset) => slot_index l offset
  | None => kNoEndpointRequestSlot
  end.

Definition ConsumeSlot (l : EndpointRequestLedger) (index : nat) : EndpointRequestLedger :=
  MkLedger (<[index := ClearSlot]> (slots l)) (identity l) (next_request_id l)
    (wrap32 (active_count l - 1)) (Z.of_nat index) (state l).

(** The duplicate and row checks of the canonicality scan: [previous] are the
    rows already visited, [observed] the live rows among them; [None] is the
    early [return false]. *)
Fixpoint canonical_scan (l : EndpointRequestLedger) (previous rest : list EndpointRequestSlot)
    (observed : Z) : option Z :=
  match rest with
  | [] => Some observed
  | slot :: rest' =>
      if slot_is SlotFree slot then
        if negb (SlotIsClear slot) then None
        else canonical_scan l (previous ++ [slot]) rest' observed
      else if state_is LedgerDraining l
              || (negb (slot_is SlotReserved slot) && negb (slot_is SlotCommitted slot))
              || negb (EndpointRequestKeyIsValid (slot_key slot))
              || negb (identity_eqb (ledger_identity (slot_key slot)) (identity l))
      then None
      else if state_is LedgerOpen l && (next_request_id l <=? request_id (slot_key slot))
      then None
      else if existsb (fun p => negb (slot_is SlotFree p) && key_eqb (slot_key p) (slot_key slot))
                previous
      then None
      else canonical_scan l (previous ++ [slot]) rest' (observed + 1)
  end.

Definition EndpointRequestLedgerIsCanonical (l : EndpointRequestLedger) : bool :=
  if (Z.of_nat kEndpointRequestLedgerCapacity <=? next_free_hint l)
     || (Z.of_nat kEndpointRequestLedgerCapacity <? active_count l)
  then false
  else if state_is LedgerUninitialized l then
    if negb (identity_eqb (identity l) kInvalidEndpointRequestLedgerIdentity)
       || negb (next_request_id l =? kEndpointRequestIdInvalid)
       || negb (active_count l =? 0) || negb (next_free_hint l =? 0)
    then false
    else forallb SlotIsClear (slots l)
  else if negb (EndpointRequestLedgerIdentityIsValid (identity l)) then false
  else if match state l with
          | LedgerOpen => next_request_id l =? kEndpointRequestIdInvalid
          | LedgerSequenceRetired => negb (next_request_id l =? kEndpointRequestIdInvalid)
          | LedgerDraining =>
              negb (next_request_id l =? kEndpointRequestIdInvalid)
              || negb (active_count l =? 0)
          | LedgerUninitialized => true
          end
  then false
  else match canonical_scan l [] (slots l) 0 with
       | Some observed_active => observed_active =? active_count l
       | None => false
       end.

Definition ValidateLedger (l : option EndpointRequestLedger) : EndpointRequestLedgerStatus :=
  match l with
  | None => InvalidArgument
  | Some l =>
      if negb (EndpointRequestLedgerIsCanonical l) then CorruptState
      else if state_is LedgerUninitialized l then NotInitialized
      else Ok
  end.

Definition ValidateKeyForLedger (l : EndpointRequestLedger) (key : EndpointRequestKey)
    : EndpointRequestLedgerStatus :=
  if negb (EndpointRequestKeyIsValid key) then InvalidArgument
  else if negb (identity_eqb (ledger_identity key) (identity l)) then StaleIdentity
  else Ok.

Definition CommitFailure (status : EndpointRequestLedgerStatus) : EndpointRequestCommitResult :=
  MkCommitResult status kInvalidEndpointRequestCompletionAuthority.

Definition DrainFailure (status : EndpointRequestLedgerStatus) : EndpointRequestDrainResult :=
  MkDrainResult status [].

Definition ClassifyMissingKey (l : EndpointRequestLedger) (key : EndpointRequestKey)
    : EndpointRequestLedgerStatus :=
  if state_is LedgerDraining l then Draining
  else if state_is LedgerSequenceRetired l then ReplayRejected
  else if request_id key <? next_request_id l then ReplayRejected
  else if next_request_id l <? request_id key then OutOfOrder
  else NotFound.

(** ** Operations *)

Definition EndpointRequestLedgerInitialize (ledger : option EndpointRequestLedger)
    (id : EndpointRequestLedgerIdentity) (first_request_id : Z)
    : EndpointRequestLedgerStatus * option EndpointRequestLedger :=
  match ledger with
  | None => (InvalidArgument, ledger)
  | Some l =>
      if negb (EndpointRequestLedgerIsCanonical l) then (CorruptState, ledger)
      else if negb (state_is LedgerUninitialized l) then (AlreadyInitialized, ledger)
      else if negb (EndpointRequestLedgerIdentityIsValid id)
              || (first_request_id =? kEndpointRequestIdInvalid)
      then (InvalidArgument, ledger)
      else (Ok, Some (MkLedger (slots l) id first_request_id (active_count l)
                        (next_free_hint l) LedgerOpen))
  end.

Definition EndpointRequestLedgerReset (ledger : option EndpointRequestLedger)
    (next_identity : EndpointRequestLedgerIdentity) (first_request_id : Z)
    : EndpointRequestLedgerStatus * option EndpointRequestLedger :=
  match ledger with
  | None => (InvalidArgument, ledger)
  | Some l =>
      if negb (EndpointRequestLedgerIsCanonical l) then (CorruptState, ledger)
      else if state_is LedgerUninitialized l then (NotInitialized, ledger)
      else if negb (state_is LedgerDraining l) then (ResetNotDrained, ledger)
      else if negb (EndpointRequestLedgerIdentityIsValid next_identity)
              || (first_request_id =? kEndpointRequestIdInvalid)
              || negb (bool_decide (direction next_identity = direction (identity l)))
      then (InvalidArgument, ledger)
      else if endpoint_epoch (identity l) =? kEndpointRequestEpochMaximum
      then (IdentityExhausted, ledger)
      else if endpoint_epoch next_identity <=? endpoint_epoch (identity l)
      then (StaleIdentity, ledger)
      else (Ok, Some (MkLedger (slots l) next_identity first_request_id 0 0 LedgerOpen))
  end.

Definition EndpointRequestLedgerReserve (ledger : option EndpointRequestLedger)
    (key : EndpointRequestKey) : EndpointRequestLedgerStatus * option EndpointRequestLedger :=
  match ValidateLedger ledger, ledger with
  | Ok, Some l =>
      match ValidateKeyForLedger l key with
      | Ok =>
          if state_is LedgerDraining l then (Draining, ledger)
          else if state_is LedgerSequenceRetired l then (SequenceExhausted, ledger)
          else if request_id key <? next_request_id l then (ReplayRejected, ledger)
          else if next_request_id l <? request_id key then (OutOfOrder, ledger)
          else
            let index := FindFreeSlot l in
            if Nat.eqb index kNoEndpointRequestSlot then (Full, ledger)
            else
              let slots' := <[index := MkSlot key SlotReserved]> (slots l) in
              let active' := wrap32 (active_count l + 1) in
              let hint' := (Z.of_nat index + 1) mod Z.of_nat kEndpointRequestLedgerCapacity in
              if request_id key =? kEndpointRequestIdMaximum
              then (Ok, Some (MkLedger slots' (identity l) kEndpointRequestIdInvalid active'
                                hint' LedgerSequenceRetired))
              else (Ok, Some (MkLedger slots' (identity l) (wrap64 (request_id key + 1)) active'
                                hint' (state l)))
      | key_status => (key_status, ledger)
      end
  | ledger_status, _ => (ledger_status, ledger)
  end.

Definition EndpointRequestLedgerCommit (ledger : option EndpointRequestLedger)
    (key : EndpointRequestKey) : EndpointRequestCommitResult * option EndpointRequestLedger :=
  match ValidateLedger ledger, ledger with
  | Ok, Some l =>
      match ValidateKeyForLedger l key with
      | Ok =>
          if state_is LedgerDraining l then (CommitFailure Draining, ledger)
          else
            let index := FindLiveSlot l key in
            if Nat.eqb index kNoEndpointRequestSlot
            then (CommitFailure (ClassifyMissingKey l key), ledger)
            else
              let slot := slot_at l index in
              if negb (slot_is SlotReserved slot) then (CommitFailure ReplayRejected, ledger)
              else (MkCommitResult Ok (MkAuthority key),
                    Some (MkLedger (<[index := MkSlot (slot_key slot) SlotCommitted]> (slots l))
                            (identity l) (next_request_id l) (active_count l)
                            (next_free_hint l) (state l)))
      | key_status => (CommitFailure key_status, ledger)
      end
  | ledger_status, _ => (CommitFailure ledger_status, ledger)
  end.

Definition EndpointRequestLedgerCancel (ledger : option EndpointRequestLedger)
    (key : EndpointRequestKey) : EndpointRequestLedgerStatus * option EndpointRequestLedger :=
  match ValidateLedger ledger, ledger with
  | Ok, Some l =>
      match ValidateKeyForLedger l key with
      | Ok =>
          if state_is LedgerDraining l then (Draining, ledger)
          else
            let index := FindLiveSlot l key in
            if Nat.eqb index kNoEndpointRequestSlot then (ClassifyMissingKey l key, ledger)
            else (Ok, Some (ConsumeSlot l index))
      | key_status => (key_status, ledger)
      end
  | ledger_status, _ => (ledger_status, ledger)
  end.

Definition EndpointRequestLedgerComplete (ledger : option EndpointRequestLedger)
    (a : EndpointRequestCompletionAuthority)
    : EndpointRequestLedgerStatus * option EndpointRequestLedger :=
  match ValidateLedger ledger, ledger with
  | Ok, Some l =>
      if negb (EndpointRequestCompletionAuthorityIsValid a) then (InvalidArgument, ledger)
      else
        let key := authority_key a in
        match ValidateKeyForLedger l key with
        | Ok =>
            if state_is LedgerDraining l then (Draining, ledger)
            else
              let index := FindLiveSlot l key in
              if Nat.eqb index kNoEndpointRequestSlot then (ClassifyMissingKey l key, ledger)
              else if negb (slot_is SlotCommitted (slot_at l index)) then (NotCommitted, ledger)
              else (Ok, Some (ConsumeSlot l index))
        | key_status => (key_status, ledger)
        end
  | ledger_status, _ => (ledger_status, ledger)
  end.

(** The keys of the rows in use, in row order. *)
Definition live_slots (ss : list EndpointRequestSlot) : list EndpointRequestSlot :=
  List.filter (fun slot => negb (slot_is SlotFree slot)) ss.

Definition EndpointRequestLedgerDrain (ledger : option EndpointRequestLedger)
    : EndpointRequestDrainResult * option EndpointRequestLedger :=
  match ValidateLedger ledger, ledger with
  | Ok, Some l =>
      if state_is LedgerDraining l then (DrainFailure Ok, ledger)
      else
        (MkDrainResult Ok (slot_key <$> live_slots (slots l)),
         Some (MkLedger ((fun _ => ClearSlot) <$> slots l) (identity l)
                 kEndpointRequestIdInvalid 0 0 LedgerDraining))
  | ledger_status, _ => (DrainFailure ledger_status, ledger)
  end.

(** The zero-initialized storage a ledger is constructed from. *)
Definition zero_ledger : EndpointRequestLedger :=
  MkLedger (replicate kEndpointRequestLedgerCapacity ClearSlot)
    kInvalidEndpointRequestLedgerIdentity 0 0 0 LedgerUninitialized.

Example zero_ledger_canonical : EndpointRequestLedgerIsCanonical zero_ledger = true.
Proof. reflexivity. Qed.

(** ** The invariant behind the canonicality scan *)

Definition live_keys (ss : list EndpointRequestSlot) : list EndpointRequestKey :=
  slot_key <$> live_slots ss.

(** What the scan checks of one row. *)
Definition row_ok (l : EndpointRequestLedger) (slot : EndpointRequestSlot) : Prop :=
  if slot_is SlotFree slot then slot = ClearSlot
  else state l <> LedgerDraining /\ EndpointRequestKeyIsValid (slot_key slot) = true /\
       ledger_identity (slot_key slot) = identity l /\
       (state l = LedgerOpen -> request_id (slot_key slot) < next_request_id l).

(** Widths and extents that the C++ types fix. *)
Record ledger_typed (l : EndpointRequestLedger) : Prop := {
  typed_rows : length (slots l) = kEndpointRequestLedgerCapacity;
  typed_next : is_u64 (next_request_id l);
  typed_hint : is_u32 (next_free_hint l);
  typed_active : is_u32 (active_count l);
}.

Definition phase_ok (l : EndpointRequestLedger) : Prop :=
  match state l with
  | LedgerUninitialized =>
      identity l = kInvalidEndpointRequestLedgerIdentity /\ next_request_id l = 0 /\
      next_free_hint l = 0 /\ live_slots (slots l) = []
  | LedgerOpen =>
      EndpointRequestLedgerIdentityIsValid (identity l) = true /\ next_request_id l <> 0
  | LedgerSequenceRetired =>
      EndpointRequestLedgerIdentityIsValid (identity l) = true /\ next_request_id l = 0
  | LedgerDraining =>
      EndpointRequestLedgerIdentityIsValid (identity l) = true /\ next_request_id l = 0 /\
      live_slots (slots l) = []
  end.

Record ledger_ok (l : EndpointRequestLedger) : Prop := {
  ok_typed : ledger_typed l;
  ok_hint : next_free_hint l < 32;
  ok_active : active_count l = Z.of_nat (length (live_slots (slots l)));
  ok_phase : phase_ok l;
  ok_rows : Forall (row_ok l) (slots l);
  ok_nodup : NoDup (live_keys (slots l));
}.

Lemma slot_is_spec s slot : slot_is s slot = true <-> slot_state slot = s.
Proof. apply bool_decide_eq_true. Qed.

Lemma slot_is_free_false slot : slot_is SlotFree slot = false <-> slot_state slot <> SlotFree.
Proof. apply bool_decide_eq_false. Qed.

Lemma state_is_spec s l : state_is s l = true <-> state l = s.
Proof. apply bool_decide_eq_true. Qed.

Lemma state_is_false s l : state_is s l = false <-> state l <> s.
Proof. apply bool_decide_eq_false. Qed.

Lemma identity_eqb_spec a b : identity_eqb a b = true <-> a = b.
Proof.
  destruct a, b. unfold identity_eqb. simpl.
  rewrite andb_true_iff, Z.eqb_eq, bool_decide_eq_true. naive_solver.
Qed.

Lemma key_eqb_spec a b : key_eqb a b = true <-> a = b.
Proof.
  destruct a, b. unfold key_eqb. simpl.
  rewrite andb_true_iff, Z.eqb_eq, identity_eqb_spec. naive_solver.
Qed.

Lemma SlotIsClear_spec slot : SlotIsClear slot = true <-> slot = ClearSlot.
Proof.
  destruct slot. unfold SlotIsClear, ClearSlot.
  rewrite andb_true_iff, slot_is_spec, key_eqb_spec. simpl. naive_solver.
Qed.

Lemma live_slots_app a b : live_slots (a ++ b) = live_slots a ++ live_slots b.
Proof. apply List.filter_app. Qed.

Lemma live_slots_elem slot ss : slot ∈ live_slots ss <-> slot ∈ ss /\ slot_state slot <> SlotFree.
Proof.
  unfold live_slots.
  rewrite list_elem_of_In, List.filter_In, <- list_elem_of_In, negb_true_iff, slot_is_free_false.
  done.
Qed.

Lemma live_keys_app a b : live_keys (a ++ b) = live_keys a ++ live_keys b.
Proof. unfold live_keys. by rewrite live_slots_app, fmap_app. Qed.

Lemma dup_check_spec previous key :
  existsb (fun p => negb (slot_is SlotFree p) && key_eqb (slot_key p) key) previous = true <->
  key ∈ live_keys previous.
Proof.
  unfold live_keys. rewrite existsb_exists, list_elem_of_fmap.
  split; intros (p & Hp); exists p.
  - destruct Hp as [Hin Hb]. rewrite andb_true_iff, negb_true_iff, slot_is_free_false, key_eqb_spec in Hb.
    rewrite live_slots_elem, list_elem_of_In. naive_solver.
  - destruct Hp as [-> Hl]. rewrite live_slots_elem, list_elem_of_In in Hl. destruct Hl as [? Hs].
    rewrite (proj2 (slot_is_free_false p) Hs), (proj2 (key_eqb_spec _ _) eq_refl). done.
Qed.

(** The row test of the scan, as one boolean. *)
Lemma row_test_spec l slot :
  slot_state slot <> SlotFree ->
  (state_is LedgerDraining l
   || (negb (slot_is SlotReserved slot) && negb (slot_is SlotCommitted slot))
   || negb (EndpointRequestKeyIsValid (slot_key slot))
   || negb (identity_eqb (ledger_identity (slot_key slot)) (identity l))) = false /\
  (state_is LedgerOpen l && (next_request_id l <=? request_id (slot_key slot))) = false <->
  row_ok l slot.
Proof.
  intros Hf. unfold row_ok. rewrite (proj2 (slot_is_free_false slot) Hf).
  rewrite !orb_false_iff, !andb_false_iff, !negb_false_iff, state_is_false, identity_eqb_spec,
    state_is_false, !slot_is_spec, Z.leb_gt.
  split.
  - intros ((((Hd & _) & Hv) & Hi) & Ho). split_and!; [done..|]. intros. by destruct Ho.
  - intros (Hd & Hv & Hi & Ho). split_and!; [done| |done..|].
    + destruct (slot_state slot); naive_solver.
    + destruct (decide (state l = LedgerOpen)); auto.
Qed.

Lemma canonical_scan_spec l : forall rest previous observed n,
  NoDup (live_keys previous) ->
  canonical_scan l previous rest observed = Some n <->
  Forall (row_ok l) rest /\ NoDup (live_keys (previous ++ rest)) /\
  n = observed + Z.of_nat (length (live_slots rest)).
Proof.
  induction rest as [|slot rest IH]; intros previous observed n Hnd; simpl.
  { rewrite app_nil_r. split; [intros [= <-]; repeat split; [constructor|done|lia]|].
    intros (_ & _ & ->). f_equal. lia. }
  replace (previous ++ slot :: rest) with ((previous ++ [slot]) ++ rest) by by rewrite <- app_assoc.
  destruct (slot_is SlotFree slot) eqn:Hfree.
  - assert (live_keys (previous ++ [slot]) = live_keys previous) as Hsame.
    { rewrite live_keys_app. unfold live_keys at 2, live_slots. simpl. rewrite Hfree. simpl. by rewrite app_nil_r. }
    destruct (SlotIsClear slot) eqn:Hclear; simpl.
    + rewrite IH by (by rewrite Hsame). rewrite Forall_cons. unfold row_ok at 2.
      rewrite Hfree. apply SlotIsClear_spec in Hclear. tauto.
    + rewrite Forall_cons. split; [done|]. intros ((Hrow & _) & _). unfold row_ok in Hrow.
      rewrite Hfree in Hrow. by apply SlotIsClear_spec in Hrow; rewrite Hrow in Hclear.
  - assert (slot_state slot <> SlotFree) as Hlive by by apply slot_is_free_false.
    assert (live_keys (previous ++ [slot]) = live_keys previous ++ [slot_key slot]) as Hsnoc.
    { rewrite live_keys_app. unfold live_keys at 2, live_slots. simpl. by rewrite Hfree. }
    pose proof (row_test_spec l slot Hlive) as Htest.
    rewrite Forall_cons. simpl length. rewrite Nat2Z.inj_succ.
    match type of Htest with ?b1 = false /\ ?b2 = false <-> _ =>
      destruct b1 eqn:Ht1; [|destruct b2 eqn:Ht2] end.
    1,2: split; [done|]; intros ((Hrow & _) & _); apply Htest in Hrow as [? ?]; congruence.
    destruct (existsb _ previous) eqn:Hdup.
    + apply dup_check_spec in Hdup. split; [done|]. intros (_ & Hnd2 & _).
      rewrite live_keys_app, Hsnoc in Hnd2. apply NoDup_app in Hnd2 as [Hnd2 _].
      apply NoDup_app in Hnd2 as (_ & Hnot & _). exfalso. by eapply Hnot; [|left].
    + rewrite IH.
      * assert (row_ok l slot) as Hrow by (apply Htest; done).
        split; [intros (? & ? & ->)|intros ((_ & ?) & ? & ->)]; (split_and!; [done..|lia]).
      * rewrite Hsnoc. apply NoDup_app. split_and!; [done| |apply NoDup_singleton].
        intros k Hk ->%list_elem_of_singleton. apply dup_check_spec in Hk. congruence.
Qed.

Lemma live_slots_nil_Forall ss :
  live_slots ss = [] <-> Forall (fun slot => slot_state slot = SlotFree) ss.
Proof.
  rewrite Forall_forall. split.
  - intros Hnil slot Hin. destruct (decide (slot_state slot = SlotFree)); [done|].
    assert (slot ∈ live_slots ss) as Hl by by apply live_slots_elem.
    rewrite Hnil in Hl. by apply elem_of_nil in Hl.
  - intros H. destruct (live_slots ss) as [|slot rest] eqn:E; [done|].
    assert (slot ∈ live_slots ss) as Hl by (rewrite E; left).
    apply live_slots_elem in Hl as [? ?]. naive_solver.
Qed.

Lemma row_ok_free l slot : slot_state slot = SlotFree -> row_ok l slot -> slot = ClearSlot.
Proof. intros Hs. unfold row_ok. by rewrite (proj2 (slot_is_spec SlotFree slot) Hs). Qed.

Lemma row_ok_clear l : row_ok l ClearSlot.
Proof. done. Qed.

(** An uninitialized ledger passes its own branch exactly when every row is
    clear, which is what the scan would accept as well. *)
Lemma clear_rows_spec l :
  forallb SlotIsClear (slots l) = true <->
  Forall (row_ok l) (slots l) /\ live_slots (slots l) = [].
Proof.
  rewrite forallb_forall, live_slots_nil_Forall, !Forall_forall. split.
  - intros H. split; intros slot Hin; apply list_elem_of_In, H, SlotIsClear_spec in Hin as ->; done.
  - intros [Hrow Hfree] slot Hin%list_elem_of_In. apply SlotIsClear_spec.
    eapply row_ok_free; eauto.
Qed.

Lemma canonical_ledger_ok l :
  ledger_typed l -> EndpointRequestLedgerIsCanonical l = true <-> ledger_ok l.
Proof.
  intros Ht. pose proof Ht as [Hlen Hnext Hhint Hact].
  assert (Z.of_nat (length (live_slots (slots l))) <= 32) as Hmax.
  { unfold kEndpointRequestLedgerCapacity in Hlen. unfold live_slots.
    pose proof (List.filter_length_le (fun slot => negb (slot_is SlotFree slot)) (slots l)). lia. }
  unfold EndpointRequestLedgerIsCanonical. change (Z.of_nat kEndpointRequestLedgerCapacity) with 32.
  unfold kEndpointRequestIdInvalid.
  destruct (Z.leb_spec 32 (next_free_hint l)); simpl; [split; [done|intros [? ? ? ? ?]; lia]|].
  destruct (Z.ltb_spec 32 (active_count l)); [split; [done|intros [? ? ? ? ?]; lia]|].
  assert (forall n, canonical_scan l [] (slots l) 0 = Some n <->
    Forall (row_ok l) (slots l) /\ NoDup (live_keys (slots l)) /\
    n = Z.of_nat (length (live_slots (slots l)))) as Hscan.
  { intros n. rewrite canonical_scan_spec by constructor. done. }
  assert (live_slots (slots l) = [] -> NoDup (live_keys (slots l))) as Hnd
    by (unfold live_keys; intros ->; constructor).
  destruct (state l) eqn:Hst; unfold state_is; rewrite Hst; simpl.
  { destruct (_ || _) eqn:Hb.
    - split; [done|]. intros [_ _ Ha Hp _ _]. unfold phase_ok in Hp. rewrite Hst in Hp.
      destruct Hp as (Hi & Hn & Hh & Hlive). rewrite Hlive in Ha. simpl in Ha.
      rewrite (proj2 (identity_eqb_spec _ _) Hi), Hn, Ha, Hh in Hb. done.
    - rewrite !orb_false_iff, !negb_false_iff, identity_eqb_spec in Hb.
      rewrite clear_rows_spec. destruct Hb as [[[Hi Hn] Ha] Hh]. split.
      + intros [Hr Hlive]. constructor; auto; [rewrite Hlive; simpl; lia|].
        unfold phase_ok. rewrite Hst. split_and!; [done|lia|lia|done].
      + intros [_ _ _ Hp ? _]. unfold phase_ok in Hp. rewrite Hst in Hp. tauto. }
  all: destruct (EndpointRequestLedgerIdentityIsValid (identity l)) eqn:Hv; simpl;
    [|split; [done|intros [_ _ _ Hp _ _]; unfold phase_ok in Hp; rewrite Hst in Hp; naive_solver]].
  all: destruct (canonical_scan l [] (slots l) 0) as [n|] eqn:Hsc.
  all: try (destruct (proj1 (Hscan n) eq_refl) as (Hrows & Hdup & ->)).
  all: try (assert (ledger_ok l -> False) as Hno by
     (intros [_ _ _ _ Hr Hd]; by discriminate (proj2 (Hscan _) (conj Hr (conj Hd eq_refl))))).
  all: match goal with |- context [if ?b then _ else _] => destruct b eqn:Hb end.
  all: try (split; [done|]; intros [_ _ Ha Hp _ _]; unfold phase_ok in Hp; rewrite Hst in Hp;
            destruct_and?; repeat match goal with H : live_slots _ = [] |- _ => rewrite H in Ha end;
            simpl in *; lia).
  all: try (split; [done|by intros ?%Hno]).
  all: rewrite Z.eqb_eq; split; [intros Ha|by intros [_ _ -> _ _ _]].
  all: constructor; auto; unfold phase_ok; rewrite Hst; split_and?; try done; try lia.
  apply nil_length_inv. lia.
Qed.
