(* ===== verification/RequestLedgerSpec.v ===== *)
(** * The request ledger against its contract

    The abstract ledger has no rows, hints or counters: an identity, a
    phase, and the finite map of outstanding request ids with one bit, set
    once the request was committed.  Every operation of [RequestLedger] is
    shown to return the abstract status and to commute with the abstraction
    function; the history theorems (each key admitted once, settled once,
    replied to at most once) are then proved of whole executions. *)

From S2P Require Import Prelude RequestLedger.

(** ** Abstract ledger *)

Inductive aphase := AUninit | AOpen (next : Z) | ARetired | ADraining.

Record aledger := MkA {
  a_identity : EndpointRequestLedgerIdentity;
  a_phase : aphase;
  a_live : gmap Z bool;
}.

(** One result type for all calls: status, minted authority, detached keys. *)
Inductive lop :=
| LInitialize (id : EndpointRequestLedgerIdentity) (first : Z)
| LReset (id : EndpointRequestLedgerIdentity) (first : Z)
| LReserve (k : EndpointRequestKey)
| LCommit (k : EndpointRequestKey)
| LCancel (k : EndpointRequestKey)
| LComplete (a : EndpointRequestCompletionAuthority)
| LDrain.

Definition a_key (a : aledger) (id : Z) : EndpointRequestKey := MkKey (a_identity a) id.

(** Outcome of a call that names a request [k], given what to do with the
    live entry. *)
Definition a_on_live (a : aledger) (k : EndpointRequestKey)
    (f : bool -> EndpointRequestLedgerStatus * aledger) : EndpointRequestLedgerStatus * aledger :=
  match a_phase a with
  | AUninit => (NotInitialized, a)
  | ph =>
      if negb (EndpointRequestKeyIsValid k) then (InvalidArgument, a)
      else if negb (identity_eqb (ledger_identity k) (a_identity a)) then (StaleIdentity, a)
      else
        match ph, a_live a !! request_id k with
        | ADraining, _ => (Draining, a)
        | _, Some committed => f committed
        | AOpen next, None =>
            if request_id k <? next then (ReplayRejected, a)
            else if next <? request_id k then (OutOfOrder, a) else (NotFound, a)
        | _, None => (ReplayRejected, a)
        end
  end.

Definition a_commit (a : aledger) (k : EndpointRequestKey) :=
  a_on_live a k (fun committed =>
    if committed then (ReplayRejected, a)
    else (Ok, MkA (a_identity a) (a_phase a) (<[request_id k := true]> (a_live a)))).

Definition a_cancel (a : aledger) (k : EndpointRequestKey) :=
  a_on_live a k (fun _ => (Ok, MkA (a_identity a) (a_phase a) (delete (request_id k) (a_live a)))).

Definition a_complete (a : aledger) (k : EndpointRequestKey) :=
  a_on_live a k (fun committed =>
    if committed then (Ok, MkA (a_identity a) (a_phase a) (delete (request_id k) (a_live a)))
    else (NotCommitted, a)).

Definition a_reserve (a : aledger) (k : EndpointRequestKey) : EndpointRequestLedgerStatus * aledger :=
  match a_phase a with
  | AUninit => (NotInitialized, a)
  | ph =>
      if negb (EndpointRequestKeyIsValid k) then (InvalidArgument, a)
      else if negb (identity_eqb (ledger_identity k) (a_identity a)) then (StaleIdentity, a)
      else
        match ph with
        | AOpen next =>
            if request_id k <? next then (ReplayRejected, a)
            else if next <? request_id k then (OutOfOrder, a)
            else if decide (size (a_live a) = kEndpointRequestLedgerCapacity) then (Full, a)
            else (Ok, MkA (a_identity a)
                        (if next =? u64_max then ARetired else AOpen (next + 1))
                        (<[next := false]> (a_live a)))
        | ARetired => (SequenceExhausted, a)
        | _ => (Draining, a)
        end
  end.

Definition a_initialize (a : aledger) (id : EndpointRequestLedgerIdentity) (first : Z) :=
  match a_phase a with
  | AUninit =>
      if negb (EndpointRequestLedgerIdentityIsValid id) || (first =? 0) then (InvalidArgument, a)
      else (Ok, MkA id (AOpen first) ∅)
  | _ => (AlreadyInitialized, a)
  end.

Definition a_reset (a : aledger) (id : EndpointRequestLedgerIdentity) (first : Z) :=
  match a_phase a with
  | AUninit => (NotInitialized, a)
  | ADraining =>
      if negb (EndpointRequestLedgerIdentityIsValid id) || (first =? 0)
         || negb (bool_decide (direction id = direction (a_identity a)))
      then (InvalidArgument, a)
      else if endpoint_epoch (a_identity a) =? u64_max then (IdentityExhausted, a)
      else if endpoint_epoch id <=? endpoint_epoch (a_identity a) then (StaleIdentity, a)
      else (Ok, MkA id (AOpen first) ∅)
  | _ => (ResetNotDrained, a)
  end.

Definition a_drain (a : aledger) : EndpointRequestLedgerStatus * aledger :=
  match a_phase a with
  | AUninit => (NotInitialized, a)
  | _ => (Ok, MkA (a_identity a) ADraining ∅)
  end.

Definition a_exec (a : aledger) (o : lop) : EndpointRequestLedgerStatus * aledger :=
  match o with
  | LInitialize id first => a_initialize a id first
  | LReset id first => a_reset a id first
  | LReserve k => a_reserve a k
  | LCommit k => a_commit a k
  | LCancel k => a_cancel a k
  | LComplete auth => a_complete a (authority_key auth)
  | LDrain => a_drain a
  end.

(** The keys the abstract ledger has outstanding. *)
Definition a_keys (a : aledger) : list EndpointRequestKey :=
  a_key a <$> (map_to_list (a_live a)).*1.

(** ** The concrete calls, uniformly *)

Record lresult := MkResult {
  res_status : EndpointRequestLedgerStatus;
  res_authority : EndpointRequestCompletionAuthority;
  res_detached : list EndpointRequestKey;
}.
Definition plain (s : EndpointRequestLedgerStatus) : lresult :=
  MkResult s kInvalidEndpointRequestCompletionAuthority [].

Definition exec_lop (l : EndpointRequestLedger) (o : lop) : lresult * EndpointRequestLedger :=
  match o with
  | LInitialize id first =>
      let '(s, l') := EndpointRequestLedgerInitialize (Some l) id first in (plain s, default l l')
  | LReset id first =>
      let '(s, l') := EndpointRequestLedgerReset (Some l) id first in (plain s, default l l')
  | LReserve k =>
      let '(s, l') := EndpointRequestLedgerReserve (Some l) k in (plain s, default l l')
  | LCommit k =>
      let '(r, l') := EndpointRequestLedgerCommit (Some l) k in
      (MkResult (commit_status r) (completion_authority r) [], default l l')
  | LCancel k =>
      let '(s, l') := EndpointRequestLedgerCancel (Some l) k in (plain s, default l l')
  | LComplete a =>
      let '(s, l') := EndpointRequestLedgerComplete (Some l) a in (plain s, default l l')
  | LDrain =>
      let '(r, l') := EndpointRequestLedgerDrain (Some l) in
      (MkResult (drain_status r) kInvalidEndpointRequestCompletionAuthority (detached_keys r),
       default l l')
  end.

Fixpoint run_lops (l : EndpointRequestLedger) (os : list lop)
    : list lresult * EndpointRequestLedger :=
  match os with
  | [] => ([], l)
  | o :: os' =>
      let '(r, l1) := exec_lop l o in
      let '(rs, l2) := run_lops l1 os' in
      (r :: rs, l2)
  end.

(** Request ids passed to the constructors are [u64]. *)
Definition lop_typed (o : lop) : Prop :=
  match o with
  | LInitialize _ first | LReset _ first => is_u64 first
  | _ => True
  end.

(** ** Abstraction *)

Definition entry (slot : EndpointRequestSlot) : Z * bool :=
  (request_id (slot_key slot), slot_is SlotCommitted slot).

Definition entries (ss : list EndpointRequestSlot) : list (Z * bool) := entry <$> live_slots ss.

Definition abs (l : EndpointRequestLedger) : aledger :=
  MkA (identity l)
    (match state l with
     | LedgerUninitialized => AUninit
     | LedgerOpen => AOpen (next_request_id l)
     | LedgerSequenceRetired => ARetired
     | LedgerDraining => ADraining
     end)
    (list_to_map (entries (slots l))).

(** ** Rows and entries *)

Lemma live_insert_split (ss : list EndpointRequestSlot) i s s' :
  ss !! i = Some s ->
  exists a b, live_slots ss = a ++ live_slots [s] ++ b /\
              live_slots (<[i := s']> ss) = a ++ live_slots [s'] ++ b.
Proof.
  intros Hi. exists (live_slots (take i ss)), (live_slots (drop (S i) ss)).
  rewrite <- !live_slots_app. split.
  - simpl. by rewrite take_drop_middle.
  - f_equal. simpl. apply insert_take_drop. by eapply lookup_lt_Some.
Qed.

Lemma live_singleton s :
  live_slots [s] = if decide (slot_state s = SlotFree) then [] else [s].
Proof. unfold live_slots, slot_is. simpl. by case_bool_decide; case_decide. Qed.

Lemma entries_insert_live (ss : list EndpointRequestSlot) i s s' :
  ss !! i = Some s -> slot_state s = SlotFree -> slot_state s' <> SlotFree ->
  live_slots (<[i := s']> ss) ≡ₚ s' :: live_slots ss.
Proof.
  intros Hi Hs Hs'. destruct (live_insert_split ss i s s' Hi) as (a & b & -> & ->).
  rewrite !live_singleton. repeat case_decide; try done. simpl. by rewrite Permutation_middle.
Qed.

Lemma entries_insert_free (ss : list EndpointRequestSlot) i s :
  ss !! i = Some s -> slot_state s <> SlotFree ->
  live_slots ss ≡ₚ s :: live_slots (<[i := ClearSlot]> ss).
Proof.
  intros Hi Hs. destruct (live_insert_split ss i s ClearSlot Hi) as (a & b & -> & ->).
  rewrite !live_singleton. repeat case_decide; try done. simpl. by rewrite Permutation_middle.
Qed.

Lemma entries_update_live (ss : list EndpointRequestSlot) i s s' :
  ss !! i = Some s -> slot_state s <> SlotFree -> slot_state s' <> SlotFree ->
  exists rest, live_slots ss ≡ₚ s :: rest /\ live_slots (<[i := s']> ss) ≡ₚ s' :: rest.
Proof.
  intros Hi Hs Hs'. destruct (live_insert_split ss i s s' Hi) as (a & b & -> & ->).
  rewrite !live_singleton. repeat case_decide; try done. exists (a ++ b). simpl.
  by rewrite !Permutation_middle.
Qed.

Lemma live_row l slot :
  ledger_ok l -> slot ∈ live_slots (slots l) ->
  state l <> LedgerDraining /\ EndpointRequestKeyIsValid (slot_key slot) = true /\
  slot_key slot = MkKey (identity l) (request_id (slot_key slot)) /\
  (state l = LedgerOpen -> request_id (slot_key slot) < next_request_id l).
Proof.
  intros Hok [Hin Hlive]%live_slots_elem.
  pose proof (proj1 (Forall_forall _ _) (ok_rows l Hok) slot Hin) as Hrow.
  unfold row_ok in Hrow. rewrite (proj2 (slot_is_free_false slot) Hlive) in Hrow.
  destruct Hrow as (? & ? & Hi & ?). split_and!; try done.
  destruct (slot_key slot). simpl in *. by subst.
Qed.

Lemma live_keys_entries l :
  ledger_ok l -> live_keys (slots l) = MkKey (identity l) <$> (entries (slots l)).*1.
Proof.
  intros Hok. unfold live_keys, entries. rewrite <- !list_fmap_compose.
  apply list_fmap_ext. intros i slot Hi%list_elem_of_lookup_2. simpl.
  by apply (live_row l slot Hok Hi).
Qed.

Lemma entries_nodup l : ledger_ok l -> NoDup (entries (slots l)).*1.
Proof.
  intros Hok. eapply NoDup_fmap_1. rewrite <- live_keys_entries by done. apply (ok_nodup l Hok).
Qed.

Lemma abs_lookup l slot :
  ledger_ok l -> slot ∈ live_slots (slots l) ->
  a_live (abs l) !! request_id (slot_key slot) = Some (slot_is SlotCommitted slot).
Proof.
  intros Hok Hin. simpl. apply elem_of_list_to_map; [by apply entries_nodup|].
  apply list_elem_of_fmap. by exists slot.
Qed.

Lemma abs_lookup_None l key :
  ledger_ok l -> ledger_identity key = identity l ->
  a_live (abs l) !! request_id key = None <->
  (forall slot, slot ∈ live_slots (slots l) -> slot_key slot <> key).
Proof.
  intros Hok Hid. simpl. rewrite <- not_elem_of_list_to_map. split.
  - intros Hn slot Hin <-. apply Hn. apply list_elem_of_fmap.
    exists (entry slot). split; [done|]. apply list_elem_of_fmap. by exists slot.
  - intros Hn Hin. unfold entries in Hin. rewrite <- list_fmap_compose in Hin.
    apply list_elem_of_fmap in Hin as (slot & Heq & Hl).
    apply (Hn slot Hl). destruct (live_row l slot Hok Hl) as (_ & _ & -> & _).
    destruct key. simpl in *. by subst.
Qed.

Lemma abs_size l : ledger_ok l -> size (a_live (abs l)) = length (live_slots (slots l)).
Proof.
  intros Hok. rewrite <- length_map_to_list. simpl.
  rewrite map_to_list_to_map by by apply entries_nodup. unfold entries. by rewrite length_fmap.
Qed.

(** ** Searching the rows *)

Lemma FindLiveSlot_spec l key :
  ledger_ok l ->
  (exists slot, slots l !! FindLiveSlot l key = Some slot /\ slot_state slot <> SlotFree /\
     slot_key slot = key /\ (FindLiveSlot l key =? kNoEndpointRequestSlot)%nat = false /\
     slot_at l (FindLiveSlot l key) = slot) \/
  ((FindLiveSlot l key =? kNoEndpointRequestSlot)%nat = true /\
   forall slot, slot ∈ live_slots (slots l) -> slot_key slot <> key).
Proof.
  intros Hok. unfold FindLiveSlot.
  destruct (list_find _ (slots l)) as [[i slot]|] eqn:Hf; [left|right; split; [done|]].
  - apply list_find_Some in Hf as (Hi & Hp & _). apply Is_true_true in Hp.
    rewrite andb_true_iff, negb_true_iff, slot_is_free_false, key_eqb_spec in Hp.
    destruct Hp as [Hl Hk]. exists slot. split_and!; [done..| |].
    + apply Nat.eqb_neq. apply lookup_lt_Some in Hi.
      rewrite (typed_rows l (ok_typed l Hok)) in Hi. unfold kNoEndpointRequestSlot. lia.
    + unfold slot_at. by apply nth_lookup_Some.
  - apply list_find_None in Hf. intros slot [Hin Hl]%live_slots_elem Hk.
    apply (proj1 (Forall_forall _ _) Hf) in Hin. apply Hin, Is_true_true.
    rewrite andb_true_iff, negb_true_iff, slot_is_free_false, key_eqb_spec. done.
Qed.

Lemma slot_index_small l offset :
  ledger_ok l -> (offset < 32)%nat ->
  slot_index l offset = Z.to_nat ((next_free_hint l + Z.of_nat offset) mod 32).
Proof.
  intros Hok Hoff. unfold slot_index. rewrite wrap32_small; [done|].
  pose proof (typed_hint l (ok_typed l Hok)). pose proof (ok_hint l Hok). ulia.
Qed.

Lemma FindFreeSlot_spec l :
  ledger_ok l ->
  (exists slot, slots l !! FindFreeSlot l = Some slot /\ slot_state slot = SlotFree /\
     (FindFreeSlot l < 32)%nat) \/
  (FindFreeSlot l = kNoEndpointRequestSlot /\
   length (live_slots (slots l)) = kEndpointRequestLedgerCapacity).
Proof.
  intros Hok. pose proof (typed_rows l (ok_typed l Hok)) as Hlen.
  unfold kEndpointRequestLedgerCapacity in Hlen.
  unfold FindFreeSlot. destruct (list_find _ (seq _ _)) as [[j offset]|] eqn:Hf; [left|right; split; [done|]].
  - apply list_find_Some in Hf as (Hj & Hp & _). apply lookup_seq in Hj as [-> Hj].
    apply Is_true_true, slot_is_spec in Hp. simpl in *.
    rewrite slot_index_small in * by done.
    pose proof (Z.mod_pos_bound (next_free_hint l + Z.of_nat j) 32 ltac:(lia)) as Hb.
    destruct (lookup_lt_is_Some_2 (slots l) (Z.to_nat ((next_free_hint l + Z.of_nat j) mod 32)))
      as [slot Hs]; [lia|].
    exists slot. unfold slot_at in Hp. rewrite (nth_lookup_Some _ _ _ _ Hs) in Hp.
    split_and!; [done..|lia].
  - apply list_find_None in Hf. unfold live_slots.
    assert (Forall (fun slot => negb (slot_is SlotFree slot) = true) (slots l)) as Hall.
    { apply Forall_lookup. intros i slot Hi. apply negb_true_iff.
      destruct (slot_is SlotFree slot) eqn:Hfree; [|done]. exfalso.
      pose proof (lookup_lt_Some _ _ _ Hi) as Hlt.
      pose proof (typed_hint l (ok_typed l Hok)). pose proof (ok_hint l Hok).
      set (off := Z.to_nat ((Z.of_nat i - next_free_hint l) mod 32)).
      pose proof (Z.mod_pos_bound (Z.of_nat i - next_free_hint l) 32 ltac:(lia)) as Hb.
      assert (slot_index l off = i) as Hidx.
      { rewrite slot_index_small by (unfold off; (done || lia)). unfold off.
        rewrite Z2Nat.id by lia. rewrite Zplus_mod_idemp_r.
        replace (next_free_hint l + (Z.of_nat i - next_free_hint l)) with (Z.of_nat i) by lia.
        rewrite Z.mod_small by lia. lia. }
      assert (off ∈ seq 0 kEndpointRequestLedgerCapacity) as Hin.
      { apply elem_of_seq. unfold off, kEndpointRequestLedgerCapacity. lia. }
      apply (proj1 (Forall_forall _ _) Hf) in Hin. apply Hin, Is_true_true.
      unfold slot_at. rewrite Hidx. by rewrite (nth_lookup_Some _ _ _ _ Hi). }
    rewrite List.forallb_filter_id; [done|]. clear -Hall.
    by induction Hall as [|slot ss Hs Hall IH]; simpl; [|rewrite Hs].
Qed.

(** ** Per-operation refinement *)

Lemma abs_phase_draining l : state_is LedgerDraining l = true -> a_phase (abs l) = ADraining.
Proof. intros H%state_is_spec. unfold abs. simpl. by rewrite H. Qed.

Lemma ok_canonical l : ledger_ok l -> EndpointRequestLedgerIsCanonical l = true.
Proof. intros Hok. apply canonical_ledger_ok; [by apply ok_typed|done]. Qed.

(** The head of every call on an initialized ledger. *)
Lemma ValidateLedger_ok l :
  ledger_ok l ->
  ValidateLedger (Some l) = if state_is LedgerUninitialized l then NotInitialized else Ok.
Proof. intros Hok. unfold ValidateLedger. by rewrite ok_canonical. Qed.

(** Consuming the row of a live key. *)
Lemma consume_refines l index slot :
  ledger_ok l -> slots l !! index = Some slot -> slot_state slot <> SlotFree ->
  ledger_ok (ConsumeSlot l index) /\
  abs (ConsumeSlot l index) =
    MkA (identity l) (a_phase (abs l)) (delete (request_id (slot_key slot)) (a_live (abs l))) /\
  live_keys (slots l) ≡ₚ slot_key slot :: live_keys (slots (ConsumeSlot l index)).
Proof.
  intros Hok Hi Hs. pose proof (entries_insert_free _ _ _ Hi Hs) as Hperm.
  pose proof (lookup_lt_Some _ _ _ Hi) as Hlt.
  pose proof Hok as [[Hlen Hn Hh Ha] Hhint Hact Hphase Hrows Hnd].
  rewrite Hlen in Hlt. unfold kEndpointRequestLedgerCapacity in Hlt.
  assert (active_count l = 1 + Z.of_nat (length (live_slots (<[index:=ClearSlot]> (slots l))))) as Hcount.
  { rewrite Hact, Hperm. simpl. lia. }
  assert (live_keys (slots l) ≡ₚ slot_key slot :: live_keys (<[index:=ClearSlot]> (slots l))) as Hkeys.
  { unfold live_keys. by rewrite Hperm. }
  assert (slot ∈ live_slots (slots l)) as Hin by (rewrite Hperm; left).
  split_and!; [|unfold abs; simpl; f_equal|done].
  - constructor; simpl.
    + constructor; simpl; [by rewrite length_insert|done|ulia|apply wrap32_range].
    + lia.
    + rewrite wrap32_small; ulia.
    + unfold phase_ok in *. simpl. destruct (state l); try done.
      * destruct Hphase as (_ & _ & _ & Hnil). by rewrite Hnil in Hin; apply elem_of_nil in Hin.
      * destruct Hphase as (_ & _ & Hnil). by rewrite Hnil in Hin; apply elem_of_nil in Hin.
    + apply Forall_insert; [exact Hrows|done].
    + rewrite Hkeys in Hnd. by apply NoDup_cons in Hnd as [_ Hnd].
  - pose proof (entries_nodup l Hok) as Hnd1. unfold entries in *.
    rewrite (list_to_map_proper (entry <$> live_slots (slots l))
               (entry slot :: (entry <$> live_slots (<[index:=ClearSlot]> (slots l)))));
      [|done|by rewrite Hperm].
    rewrite Hperm in Hnd1. simpl in Hnd1. apply NoDup_cons in Hnd1 as [Hnotin _].
    simpl. rewrite delete_insert_id; [done|]. by apply not_elem_of_list_to_map.
Qed.

(** What a call naming [k] finds: either one of the early statuses that both
    sides agree on, or the live row of [k]. *)
Inductive probe (l : EndpointRequestLedger) (k : EndpointRequestKey) : Prop :=
| probe_fail st :
    st <> Ok ->
    (forall f, a_on_live (abs l) k f = (st, abs l)) ->
    EndpointRequestLedgerCommit (Some l) k = (CommitFailure st, Some l) ->
    EndpointRequestLedgerCancel (Some l) k = (st, Some l) ->
    EndpointRequestLedgerComplete (Some l) (MkAuthority k) = (st, Some l) ->
    probe l k
| probe_live index slot :
    slots l !! index = Some slot -> slot_state slot <> SlotFree -> slot_key slot = k ->
    (forall f, a_on_live (abs l) k f = f (slot_is SlotCommitted slot)) ->
    EndpointRequestLedgerCommit (Some l) k =
      (if negb (slot_is SlotReserved slot) then (CommitFailure ReplayRejected, Some l)
       else (MkCommitResult Ok (MkAuthority k),
             Some (MkLedger (<[index := MkSlot k SlotCommitted]> (slots l))
                     (identity l) (next_request_id l) (active_count l)
                     (next_free_hint l) (state l)))) ->
    EndpointRequestLedgerCancel (Some l) k = (Ok, Some (ConsumeSlot l index)) ->
    EndpointRequestLedgerComplete (Some l) (MkAuthority k) =
      (if negb (slot_is SlotCommitted slot) then (NotCommitted, Some l)
       else (Ok, Some (ConsumeSlot l index))) ->
    probe l k.

#[local] Arguments ValidateLedger : simpl never.

(** Turn the guards of the three calls into one case analysis. *)
Ltac probe_unfold :=
  unfold a_on_live, EndpointRequestLedgerCommit, EndpointRequestLedgerCancel,
    EndpointRequestLedgerComplete, EndpointRequestCompletionAuthorityIsValid,
    ValidateKeyForLedger, ClassifyMissingKey, abs, state_is; cbn [a_phase a_identity a_live authority_key].
Ltac probe_rewrite :=
  repeat match goal with
  | H : ?x = ?c |- context [?x] =>
      match x with
      | state _ => rewrite H | ValidateLedger _ => rewrite H
      | EndpointRequestKeyIsValid _ => rewrite H | identity_eqb _ _ => rewrite H
      | (_ =? _)%nat => rewrite H | Z.ltb _ _ => rewrite H
      end
  end.
Ltac probe_refute st :=
  apply (probe_fail _ _ st); [done|intros f; probe_unfold; repeat (probe_rewrite; cbn); try done
                             |probe_unfold; repeat (probe_rewrite; cbn); done..].

Lemma probe_key l k : ledger_ok l -> probe l k.
Proof.
  intros Hok. pose proof (ValidateLedger_ok l Hok) as Hval. unfold state_is in Hval.
  destruct (decide (state l = LedgerUninitialized)) as [Hst|Hni].
  { rewrite Hst in Hval. simpl in Hval. by probe_refute NotInitialized. }
  assert (ValidateLedger (Some l) = Ok) as Hv by (rewrite Hval; by rewrite bool_decide_false).
  clear Hval.
  destruct (EndpointRequestKeyIsValid k) eqn:Hkv.
  2: by destruct (state l) eqn:Hst; try done; probe_refute InvalidArgument.
  destruct (identity_eqb (ledger_identity k) (identity l)) eqn:Hid.
  2: by destruct (state l) eqn:Hst; try done; probe_refute StaleIdentity.
  destruct (decide (state l = LedgerDraining)) as [Hst|Hnd]; [by probe_refute Draining|].
  pose proof Hid as Hideq. apply identity_eqb_spec in Hideq.
  destruct (FindLiveSlot_spec l k Hok) as [(slot & Hi & Hl & Hk & Hne & Hat)|[He Hnone]].
  - assert (slot ∈ live_slots (slots l)) as Hin.
    { apply live_slots_elem. split; [by eapply list_elem_of_lookup_2|done]. }
    pose proof (abs_lookup l slot Hok Hin) as Hlook. rewrite Hk in Hlook. simpl in Hlook.
    apply (probe_live _ _ (FindLiveSlot l k) slot); try done.
    + intros f. probe_unfold. rewrite Hlook.
      destruct (state l) eqn:Hst; try done; cbn; by rewrite Hkv, Hid.
    + probe_unfold. rewrite Hv. cbn. rewrite Hkv, Hid. cbn. rewrite bool_decide_false by done.
      rewrite Hne, Hat, Hk. done.
    + probe_unfold. rewrite Hv. cbn. rewrite Hkv, Hid. cbn. rewrite bool_decide_false by done.
      rewrite Hne. done.
    + probe_unfold. rewrite Hv. cbn. rewrite Hkv. cbn. rewrite Hid. cbn.
      rewrite bool_decide_false by done. rewrite Hne, Hat. done.
  - pose proof (proj2 (abs_lookup_None l k Hok Hideq) Hnone) as Hlook. simpl in Hlook.
    destruct (state l) eqn:Hst; try done.
    2: probe_refute ReplayRejected; by rewrite Hlook.
    destruct (request_id k <? next_request_id l) eqn:Hlt.
    { probe_refute ReplayRejected. by rewrite Hlook. }
    destruct (next_request_id l <? request_id k) eqn:Hgt.
    { probe_refute OutOfOrder. by rewrite Hlook. }
    probe_refute NotFound. by rewrite Hlook.
Qed.

(** A successful commit flips the bit of the entry and touches nothing else. *)
Lemma commit_row_refines l index slot :
  ledger_ok l -> slots l !! index = Some slot -> slot_state slot = SlotReserved ->
  let l' := MkLedger (<[index := MkSlot (slot_key slot) SlotCommitted]> (slots l))
              (identity l) (next_request_id l) (active_count l) (next_free_hint l) (state l) in
  ledger_ok l' /\
  abs l' = MkA (identity l) (a_phase (abs l))
             (<[request_id (slot_key slot) := true]> (a_live (abs l))) /\
  live_keys (slots l') ≡ₚ live_keys (slots l).
Proof.
  intros Hok Hi Hs. set (slot' := MkSlot (slot_key slot) SlotCommitted). simpl.
  destruct (entries_update_live (slots l) index slot slot' Hi) as (rest & Hold & Hnew);
    [by rewrite Hs|done|].
  pose proof Hok as [[Hlen Hn Hh Ha] Hhint Hact Hphase Hrows Hnd].
  assert (live_keys (<[index:=slot']> (slots l)) ≡ₚ live_keys (slots l)) as Hkeys.
  { unfold live_keys. by rewrite Hnew, Hold. }
  assert (slot ∈ live_slots (slots l)) as Hin by (rewrite Hold; left).
  split_and!; [|unfold abs; simpl; f_equal|done].
  - constructor; simpl; try done.
    + constructor; simpl; try done. by rewrite length_insert.
    + rewrite Hact, Hnew, Hold. done.
    + unfold phase_ok in *. simpl. destruct (state l); try done.
      * destruct Hphase as (_ & _ & _ & Hnil). by rewrite Hnil in Hin; apply elem_of_nil in Hin.
      * destruct Hphase as (_ & _ & Hnil). by rewrite Hnil in Hin; apply elem_of_nil in Hin.
    + apply Forall_insert; [exact Hrows|].
      pose proof (proj1 (Forall_lookup _ _) Hrows _ _ Hi) as Hrow. unfold row_ok in *. simpl.
      by rewrite (proj2 (slot_is_free_false slot)) in Hrow by by rewrite Hs.
    + by rewrite Hkeys.
  - pose proof (entries_nodup l Hok) as Hnd1. unfold entries in *.
    rewrite (list_to_map_proper (entry <$> live_slots (slots l)) (entry slot :: (entry <$> rest)));
      [|done|by rewrite Hold].
    rewrite Hold in Hnd1.
    rewrite (list_to_map_proper _ (entry slot' :: (entry <$> rest)));
      [|by rewrite Hnew|by rewrite Hnew].
    simpl. by rewrite insert_insert_eq.
Qed.

Lemma next_not_live l : ledger_ok l -> state l = LedgerOpen ->
  a_live (abs l) !! next_request_id l = None.
Proof.
  intros Hok Hst.
  apply (abs_lookup_None l (MkKey (identity l) (next_request_id l)) Hok eq_refl).
  intros slot Hin Hk. destruct (live_row l slot Hok Hin) as (_ & _ & _ & Hlt).
  specialize (Hlt Hst). rewrite Hk in Hlt. simpl in Hlt. lia.
Qed.

(** Admitting the next id into a free row. *)
Lemma admit_refines l index slot key next' st' :
  ledger_ok l -> state l = LedgerOpen -> slots l !! index = Some slot ->
  slot_state slot = SlotFree -> (index < 32)%nat ->
  EndpointRequestKeyIsValid key = true -> ledger_identity key = identity l ->
  request_id key = next_request_id l ->
  (st' = LedgerOpen /\ next' = next_request_id l + 1 /\ is_u64 next') \/
  (st' = LedgerSequenceRetired /\ next' = 0) ->
  let l' := MkLedger (<[index := MkSlot key SlotReserved]> (slots l)) (identity l) next'
              (wrap32 (active_count l + 1)) ((Z.of_nat index + 1) mod 32) st' in
  ledger_ok l' /\
  abs l' = MkA (identity l) (a_phase (abs l')) (<[request_id key := false]> (a_live (abs l))) /\
  live_keys (slots l') ≡ₚ key :: live_keys (slots l).
Proof.
  intros Hok Hst Hi Hfree Hidx Hkv Hkid Hknext Hst'. set (slot' := MkSlot key SlotReserved). simpl.
  pose proof (entries_insert_live (slots l) index slot slot' Hi Hfree ltac:(done)) as Hperm.
  pose proof Hok as [[Hlen Hn Hh Ha] Hhint Hact Hphase Hrows Hnd].
  pose proof (next_not_live l Hok Hst) as Hfresh.
  assert (live_keys (<[index:=slot']> (slots l)) ≡ₚ key :: live_keys (slots l)) as Hkeys.
  { unfold live_keys. by rewrite Hperm. }
  pose proof (Z.mod_pos_bound (Z.of_nat index + 1) 32 ltac:(lia)) as Hmod.
  assert (Z.of_nat (length (live_slots (slots l))) <= 32) as Hle.
  { unfold kEndpointRequestLedgerCapacity in Hlen. unfold live_slots.
    pose proof (List.filter_length_le (fun s => negb (slot_is SlotFree s)) (slots l)). lia. }
  unfold phase_ok in Hphase. rewrite Hst in Hphase. destruct Hphase as [Hidv Hnz].
  split_and!; [|unfold abs; simpl; f_equal|done].
  - constructor; simpl.
    + constructor; simpl; [by rewrite length_insert| |ulia|apply wrap32_range].
      destruct Hst' as [(_ & _ & ?)|(_ & ->)]; ulia.
    + lia.
    + rewrite wrap32_small by ulia. rewrite Hact, Hperm. simpl. lia.
    + unfold phase_ok. simpl. destruct Hst' as [(-> & -> & ?)|(-> & ->)]; [|done].
      split; [done|]. ulia.
    + apply Forall_insert.
      * apply Forall_forall. intros s Hs. pose proof (proj1 (Forall_forall _ _) Hrows s Hs) as Hrow.
        unfold row_ok in *. simpl. destruct (slot_is SlotFree s); [done|].
        destruct Hrow as (? & ? & ? & Hlt). split_and!; [by destruct Hst' as [(-> & _)|(-> & _)]|done..|].
        intros Ho. specialize (Hlt Hst). destruct Hst' as [(_ & -> & _)|(-> & _)]; [lia|done].
      * unfold row_ok. simpl. split_and!; [by destruct Hst' as [(-> & _)|(-> & _)]|done..|].
        intros Ho. destruct Hst' as [(_ & -> & _)|(-> & _)]; [lia|done].
    + rewrite Hkeys. apply NoDup_cons. split; [|done].
      unfold live_keys. intros (s & -> & Hs)%list_elem_of_fmap.
      rewrite <- Hknext in Hfresh. revert Hfresh. by rewrite (abs_lookup l s Hok Hs).
  - rewrite (list_to_map_proper _ (entry slot' :: entries (slots l))).
    + simpl. done.
    + unfold entries. rewrite Hperm. simpl. apply NoDup_cons. split; [|by apply entries_nodup].
      apply not_elem_of_list_to_map. simpl in Hfresh. by rewrite Hknext.
    + unfold entries. by rewrite Hperm.
Qed.

(** ** What one call admits, commits and settles *)

Definition admitted (o : lop) (r : lresult) : list EndpointRequestKey :=
  match o, res_status r with LReserve k, Ok => [k] | _, _ => [] end.
Definition committed (o : lop) (r : lresult) : list EndpointRequestKey :=
  match o, res_status r with LCommit k, Ok => [k] | _, _ => [] end.
Definition completed (o : lop) (r : lresult) : list EndpointRequestKey :=
  match o, res_status r with LComplete a, Ok => [authority_key a] | _, _ => [] end.
Definition settled (o : lop) (r : lresult) : list EndpointRequestKey :=
  match o, res_status r with
  | LCancel k, Ok => [k]
  | LComplete a, Ok => [authority_key a]
  | LDrain, Ok => res_detached r
  | _, _ => []
  end.

(** The step simulation, with the conservation of keys. *)
Definition refines (l : EndpointRequestLedger) (o : lop) (r : lresult)
    (l' : EndpointRequestLedger) : Prop :=
  ledger_ok l' /\ a_exec (abs l) o = (res_status r, abs l') /\
  live_keys (slots l) ++ admitted o r ≡ₚ settled o r ++ live_keys (slots l').

Lemma refines_same l o r :
  ledger_ok l -> a_exec (abs l) o = (res_status r, abs l) -> res_status r <> Ok ->
  refines l o r l.
Proof.
  intros Hok Ha Hs. split_and!; [done..|]. unfold admitted, settled.
  destruct o, (res_status r); try done; by rewrite app_nil_r.
Qed.

Lemma reserve_refines l k r l' :
  ledger_ok l -> exec_lop l (LReserve k) = (r, l') -> refines l (LReserve k) r l'.
Proof.
  intros Hok. cbn [exec_lop]. unfold EndpointRequestLedgerReserve.
  rewrite ValidateLedger_ok by done. unfold state_is, ValidateKeyForLedger.
  assert (forall st, st <> Ok -> a_reserve (abs l) k = (st, abs l) ->
    (plain st, l) = (r, l') -> refines l (LReserve k) r l') as Hfail.
  { intros st Hst Ha [= <- <-]. by apply refines_same. }
  unfold a_reserve, abs in Hfail. cbn [a_phase a_identity a_live] in Hfail.
  destruct (EndpointRequestKeyIsValid k) eqn:Hkv;
    [|destruct (state l) eqn:Hst; cbn in *; intros Heq; by eapply Hfail; [| |exact Heq]].
  destruct (identity_eqb (ledger_identity k) (identity l)) eqn:Hid;
    [|destruct (state l) eqn:Hst; cbn in *; intros Heq; by eapply Hfail; [| |exact Heq]].
  destruct (state l) eqn:Hst; cbn -[FindFreeSlot wrap64 wrap32] in *;
    try (intros Heq; by eapply Hfail; [| |exact Heq]).
  destruct (request_id k <? next_request_id l) eqn:Hlt;
    [intros Heq; by eapply Hfail; [| |exact Heq]|].
  destruct (next_request_id l <? request_id k) eqn:Hgt;
    [intros Heq; by eapply Hfail; [| |exact Heq]|].
  pose proof (abs_size l Hok) as Hsize. cbn [abs a_live] in Hsize.
  destruct (FindFreeSlot_spec l Hok) as [(slot & Hi & Hfree & Hidx)|[He Hfull]].
  2: { rewrite He. cbn. intros Heq. eapply Hfail; [| |exact Heq]; [done|].
       by rewrite decide_True by congruence. }
  clear Hfail. rewrite (proj2 (Nat.eqb_neq _ kNoEndpointRequestSlot))
    by (unfold kNoEndpointRequestSlot, kEndpointRequestLedgerCapacity; lia).
  assert (length (live_slots (slots l)) <> kEndpointRequestLedgerCapacity) as Hroom.
  { intros Hall. pose proof (entries_insert_live (slots l) _ slot (MkSlot k SlotReserved) Hi Hfree ltac:(done)) as Hp.
    apply Permutation_length in Hp. simpl in Hp.
    pose proof (typed_rows l (ok_typed l Hok)) as Hlen.
    pose proof (List.filter_length_le (fun s => negb (slot_is SlotFree s))
      (<[FindFreeSlot l:=MkSlot k SlotReserved]> (slots l))) as Hle.
    fold (live_slots (<[FindFreeSlot l:=MkSlot k SlotReserved]> (slots l))) in Hle.
    rewrite length_insert in Hle. lia. }
  apply identity_eqb_spec in Hid.
  pose proof (typed_next l (ok_typed l Hok)) as Hn.
  assert (request_id k = next_request_id l) as Hkn by lia.
  unfold kEndpointRequestIdMaximum, kEndpointRequestIdInvalid.
  destruct (request_id k =? u64_max) eqn:Hmax; intros [= <- <-].
  - destruct (admit_refines l (FindFreeSlot l) slot k 0 LedgerSequenceRetired) as (H1 & H2 & H3);
      try done; [by right|].
    split_and!; [exact H1| |etransitivity; [apply Permutation_app_comm|by symmetry]].
    etransitivity; [|apply f_equal; symmetry; exact H2].
    cbn [a_exec]. unfold a_reserve, abs. cbn [a_phase a_identity a_live]. rewrite Hst.
    rewrite Hkv, (proj2 (identity_eqb_spec _ _) Hid). cbn [negb]. rewrite Hlt, Hgt, decide_False by congruence.
    rewrite Hkn in Hmax |- *. by rewrite Hmax.
  - destruct (admit_refines l (FindFreeSlot l) slot k (next_request_id l + 1) LedgerOpen)
      as (H1 & H2 & H3); try done; [left; split_and!; [done..|ulia]|].
    assert (wrap64 (request_id k + 1) = next_request_id l + 1) as ->
      by (rewrite Hkn; apply wrap64_small; ulia).
    split_and!; [exact H1| |etransitivity; [apply Permutation_app_comm|by symmetry]].
    etransitivity; [|apply f_equal; symmetry; exact H2].
    cbn [a_exec]. unfold a_reserve, abs. cbn [a_phase a_identity a_live]. rewrite Hst.
    rewrite Hkv, (proj2 (identity_eqb_spec _ _) Hid). cbn [negb].
    rewrite Hlt, Hgt, decide_False by congruence. rewrite Hkn in Hmax |- *. by rewrite Hmax.
Qed.

Lemma commit_refines l k r l' :
  ledger_ok l -> exec_lop l (LCommit k) = (r, l') -> refines l (LCommit k) r l'.
Proof.
  intros Hok. cbn [exec_lop].
  destruct (probe_key l k Hok) as [st Hst Ha Hc _ _|index slot Hi Hl Hk Ha Hc _ _];
    rewrite Hc; clear Hc.
  - intros [= <- <-]. apply refines_same; [done|apply Ha|done].
  - destruct (slot_is SlotReserved slot) eqn:Hres; cbn [negb].
    + apply slot_is_spec in Hres.
      destruct (commit_row_refines l index slot Hok Hi Hres) as (H1 & H2 & H3). subst k.
      intros [= <- <-]. split_and!; [exact H1| |cbn -[live_keys]; by rewrite app_nil_r, H3].
      etransitivity; [|apply f_equal; symmetry; exact H2]. cbn [a_exec]. unfold a_commit.
      rewrite Ha. unfold slot_is. by rewrite Hres.
    + intros [= <- <-]. apply refines_same; [done| |done]. cbn [a_exec]. unfold a_commit.
      rewrite Ha. destruct slot as [sk []]; done.
Qed.

Lemma cancel_refines l k r l' :
  ledger_ok l -> exec_lop l (LCancel k) = (r, l') -> refines l (LCancel k) r l'.
Proof.
  intros Hok. cbn [exec_lop].
  destruct (probe_key l k Hok) as [st Hst Ha _ Hc _|index slot Hi Hl Hk Ha _ Hc _];
    rewrite Hc; clear Hc; intros [= <- <-].
  - apply refines_same; [done|apply Ha|done].
  - destruct (consume_refines l index slot Hok Hi Hl) as (H1 & H2 & H3). subst k.
    split_and!; [exact H1| |cbn -[live_keys]; by rewrite app_nil_r].
    cbn [a_exec]. unfold a_cancel. rewrite Ha. by rewrite H2.
Qed.

Lemma complete_refines l a r l' :
  ledger_ok l -> exec_lop l (LComplete a) = (r, l') -> refines l (LComplete a) r l'.
Proof.
  intros Hok. destruct a as [k]. cbn [exec_lop].
  destruct (probe_key l k Hok) as [st Hst Ha _ _ Hc|index slot Hi Hl Hk Ha _ _ Hc];
    rewrite Hc; clear Hc.
  - intros [= <- <-]. apply refines_same; [done|apply Ha|done].
  - destruct (slot_is SlotCommitted slot) eqn:Hcom; cbn [negb]; intros [= <- <-].
    + destruct (consume_refines l index slot Hok Hi Hl) as (H1 & H2 & H3). subst k.
      split_and!; [exact H1| |cbn -[live_keys]; by rewrite app_nil_r].
      cbn [a_exec authority_key]. unfold a_complete. rewrite Ha, H2. done.
    + apply refines_same; [done| |done]. cbn [a_exec authority_key]. unfold a_complete.
      by rewrite Ha.
Qed.

Lemma empty_entries ss : live_slots ss = [] -> list_to_map (entries ss) = (∅ : gmap Z bool).
Proof. unfold entries. by intros ->. Qed.

(** (Re)opening a ledger that has no live row. *)
Lemma reopen_ok l id first hint :
  ledger_ok l -> live_slots (slots l) = [] ->
  EndpointRequestLedgerIdentityIsValid id = true -> is_u64 first -> first <> 0 ->
  0 <= hint < 32 ->
  ledger_ok (MkLedger (slots l) id first 0 hint LedgerOpen).
Proof.
  intros [[Hlen Hn Hh Ha] Hhint Hact Hphase Hrows Hnd] Hnil Hid Hfirst Hnz Hb.
  constructor; simpl; [by constructor; simpl; try ulia|lia|by rewrite Hnil|done| |done].
  apply Forall_forall. intros s Hs. pose proof (proj1 (Forall_forall _ _) Hrows s Hs) as Hrow.
  rewrite live_slots_nil_Forall, Forall_forall in Hnil.
  by rewrite (row_ok_free l s (Hnil s Hs) Hrow).
Qed.

Lemma initialize_refines l id first r l' :
  ledger_ok l -> is_u64 first ->
  exec_lop l (LInitialize id first) = (r, l') -> refines l (LInitialize id first) r l'.
Proof.
  intros Hok Hfirst. cbn [exec_lop]. unfold EndpointRequestLedgerInitialize.
  rewrite ok_canonical by done. cbn [negb]. unfold state_is.
  destruct (decide (state l = LedgerUninitialized)) as [Hst|Hst].
  - rewrite bool_decide_true by done. cbn [negb].
    pose proof (ok_phase l Hok) as Hp. unfold phase_ok in Hp. rewrite Hst in Hp.
    destruct Hp as (Hi & Hn & Hh & Hnil).
    destruct (EndpointRequestLedgerIdentityIsValid id) eqn:Hv; cbn [negb orb];
      [destruct (Z.eqb_spec first kEndpointRequestIdInvalid) as [->|Hnz]|]; intros [= <- <-];
      unfold refines, abs; rewrite Hst; cbn -[live_keys entries]; unfold a_initialize;
      cbn -[live_keys entries];
      rewrite Hv, ?app_nil_r; try done.
    pose proof (ok_active l Hok) as Ha. rewrite Hnil in Ha. simpl in Ha. rewrite Ha, Hh.
    split_and!; [by apply reopen_ok; try done; lia| |done].
    unfold kEndpointRequestIdInvalid in Hnz. rewrite (proj2 (Z.eqb_neq first 0) Hnz).
    by rewrite empty_entries.
  - rewrite bool_decide_false by done. cbn [negb]. intros [= <- <-].
    apply refines_same; [done| |done]. cbn [a_exec]. unfold a_initialize, abs. cbn.
    by destruct (state l).
Qed.

Lemma reset_refines l id first r l' :
  ledger_ok l -> is_u64 first ->
  exec_lop l (LReset id first) = (r, l') -> refines l (LReset id first) r l'.
Proof.
  intros Hok Hfirst. cbn [exec_lop]. unfold EndpointRequestLedgerReset.
  rewrite ok_canonical by done. cbn [negb]. unfold state_is.
  assert (forall st, st <> Ok -> a_reset (abs l) id first = (st, abs l) ->
    (plain st, l) = (r, l') -> refines l (LReset id first) r l') as Hfail.
  { intros st Hs Ha [= <- <-]. by apply refines_same. }
  unfold a_reset in Hfail. cbn [abs a_phase a_identity] in Hfail.
  destruct (state l) eqn:Hst; cbn [bool_decide negb]; try (intros Heq; by eapply Hfail; [| |exact Heq]).
  pose proof (ok_phase l Hok) as Hp. unfold phase_ok in Hp. rewrite Hst in Hp.
  destruct Hp as (Hi & Hn & Hnil).
  rewrite (bool_decide_false (LedgerDraining = LedgerUninitialized)) by done.
  rewrite (bool_decide_true (LedgerDraining = LedgerDraining)) by done. cbn [negb].
  unfold kEndpointRequestIdInvalid, kEndpointRequestEpochMaximum in *.
  destruct (negb _ || _ || _) eqn:Hbad; [intros Heq; by eapply Hfail; [| |exact Heq]|].
  destruct (endpoint_epoch (identity l) =? u64_max) eqn:Hmax;
    [intros Heq; by eapply Hfail; [| |exact Heq]|].
  destruct (endpoint_epoch id <=? endpoint_epoch (identity l)) eqn:Hstale;
    [intros Heq; by eapply Hfail; [| |exact Heq]|].
  intros [= <- <-]. pose proof Hbad as Hbad'.
  apply orb_false_iff in Hbad' as [[Hv Hnz]%orb_false_iff _].
  apply negb_false_iff in Hv.
  split_and!; [by apply reopen_ok; try done; lia| |cbn -[live_keys]; by rewrite app_nil_r].
  cbn [a_exec]. unfold a_reset, abs. cbn [a_phase a_identity].
  rewrite Hst, Hbad, Hmax, Hstale. cbn -[entries]. by rewrite empty_entries.
Qed.

Lemma drain_refines l r l' :
  ledger_ok l -> exec_lop l LDrain = (r, l') ->
  refines l LDrain r l' /\ (res_status r = Ok -> res_detached r = live_keys (slots l)).
Proof.
  intros Hok. cbn [exec_lop]. unfold EndpointRequestLedgerDrain.
  rewrite ValidateLedger_ok by done. unfold state_is.
  pose proof (ok_phase l Hok) as Hp. unfold phase_ok in Hp.
  assert (live_slots ((fun _ => ClearSlot) <$> slots l) = []) as Hclear.
  { apply live_slots_nil_Forall, Forall_fmap, Forall_true. done. }
  assert (EndpointRequestLedgerIdentityIsValid (identity l) = true ->
    ledger_ok (MkLedger ((fun _ => ClearSlot) <$> slots l) (identity l) 0 0 0 LedgerDraining)) as Hnew.
  { intros Hv. constructor; simpl; [|lia|by rewrite Hclear|done| |].
    - constructor; simpl; try ulia. rewrite length_fmap. apply (typed_rows l (ok_typed l Hok)).
    - apply Forall_fmap, Forall_true. done.
    - unfold live_keys. rewrite Hclear. constructor. }
  destruct (state l) eqn:Hst; cbn -[live_keys live_slots].
  - intros [= <- <-]. split; [|done]. apply refines_same; [done| |done].
    cbn [a_exec]. unfold a_drain, abs. cbn. by rewrite Hst.
  - intros [= <- <-]. split; [|done]. destruct Hp as [Hv _].
    split_and!; [by apply Hnew| |].
    + cbn [a_exec]. unfold a_drain, abs. cbn -[entries]. rewrite Hst. by rewrite empty_entries.
    + cbn -[live_keys live_slots]. rewrite app_nil_r. unfold live_keys at 2.
      by rewrite Hclear, app_nil_r.
  - intros [= <- <-]. split; [|done]. destruct Hp as [Hv _].
    split_and!; [by apply Hnew| |].
    + cbn [a_exec]. unfold a_drain, abs. cbn -[entries]. rewrite Hst. by rewrite empty_entries.
    + cbn -[live_keys live_slots]. rewrite app_nil_r. unfold live_keys at 2.
      by rewrite Hclear, app_nil_r.
  - intros [= <- <-]. destruct Hp as (Hv & Hn & Hnil). split; [|by unfold live_keys; rewrite Hnil].
    split_and!; [done| |cbn -[live_keys]; by rewrite app_nil_r].
    cbn [a_exec]. unfold a_drain, abs. cbn -[entries]. rewrite Hst. by rewrite empty_entries.
Qed.

Lemma exec_refines l o r l' :
  ledger_ok l -> lop_typed o -> exec_lop l o = (r, l') -> refines l o r l'.
Proof.
  destruct o; intros Hok Ht He.
  - by eapply initialize_refines.
  - by eapply reset_refines.
  - by eapply reserve_refines.
  - by eapply commit_refines.
  - by eapply cancel_refines.
  - by eapply complete_refines.
  - by eapply drain_refines.
Qed.

(** ** Shape of the abstract steps *)

Inductive a_step (a : aledger) : lop -> EndpointRequestLedgerStatus -> aledger -> Prop :=
| as_fail o st : st <> Ok -> a_step a o st a
| as_open o id first :
    o = LInitialize id first /\ a_phase a = AUninit \/
    o = LReset id first /\ a_phase a = ADraining /\
      endpoint_epoch (a_identity a) < endpoint_epoch id ->
    a_step a o Ok (MkA id (AOpen first) ∅)
| as_reserve next ph' :
    a_phase a = AOpen next -> ph' = ARetired \/ ph' = AOpen (next + 1) ->
    a_step a (LReserve (a_key a next)) Ok (MkA (a_identity a) ph' (<[next := false]> (a_live a)))
| as_commit id :
    a_live a !! id = Some false ->
    a_step a (LCommit (a_key a id)) Ok (MkA (a_identity a) (a_phase a) (<[id := true]> (a_live a)))
| as_cancel id c :
    a_live a !! id = Some c ->
    a_step a (LCancel (a_key a id)) Ok (MkA (a_identity a) (a_phase a) (delete id (a_live a)))
| as_complete id :
    a_live a !! id = Some true ->
    a_step a (LComplete (MkAuthority (a_key a id))) Ok
      (MkA (a_identity a) (a_phase a) (delete id (a_live a)))
| as_drain :
    a_phase a <> AUninit -> a_step a LDrain Ok (MkA (a_identity a) ADraining ∅).

Lemma a_on_live_inv a k f st a' :
  a_on_live a k f = (st, a') ->
  (st <> Ok /\ a' = a) \/
  (exists c, k = a_key a (request_id k) /\ a_live a !! request_id k = Some c /\ f c = (st, a')).
Proof.
  unfold a_on_live, a_key. intros H.
  destruct (EndpointRequestKeyIsValid k); cbn [negb] in H;
    [|left; destruct (a_phase a); simplify_eq; done].
  destruct (identity_eqb (ledger_identity k) (a_identity a)) eqn:Hid; cbn [negb] in H;
    [|left; destruct (a_phase a); simplify_eq; done].
  apply identity_eqb_spec in Hid.
  assert (k = MkKey (a_identity a) (request_id k)) as Hk by (destruct k; simpl in *; by subst).
  destruct (a_phase a), (a_live a !! request_id k) eqn:Hl; simplify_eq; eauto.
  left. repeat case_match; simplify_eq; done.
Qed.

Lemma a_exec_inv a o st a' : a_exec a o = (st, a') -> a_step a o st a'.
Proof.
  destruct o as [id first|id first|k|k|k|[k]|]; cbn [a_exec authority_key]; intros H.
  - unfold a_initialize in H. destruct (a_phase a) eqn:Hp; simplify_eq; try by constructor.
    destruct (_ || _); simplify_eq; [by constructor|]. apply as_open. by left.
  - unfold a_reset in H. destruct (a_phase a) eqn:Hp; simplify_eq; try by constructor.
    destruct (negb _ || _ || _); simplify_eq; [by constructor|].
    destruct (_ =? _); simplify_eq; [by constructor|].
    destruct (Z.leb_spec (endpoint_epoch id) (endpoint_epoch (a_identity a))); simplify_eq;
      [by constructor|]. apply as_open. right. done.
  - unfold a_reserve in H.
    destruct (a_phase a) as [|next| |] eqn:Hp;
      [by simplify_eq; constructor|
       |destruct (EndpointRequestKeyIsValid k), (identity_eqb (ledger_identity k) (a_identity a));
        by simplify_eq/=; constructor..].
    destruct (EndpointRequestKeyIsValid k); simplify_eq/=; [|by constructor].
    destruct (identity_eqb (ledger_identity k) (a_identity a)) eqn:Hid; simplify_eq/=; [|by constructor].
    apply identity_eqb_spec in Hid.
    destruct (Z.ltb_spec (request_id k) next); simplify_eq; [by constructor|].
    destruct (Z.ltb_spec next (request_id k)); simplify_eq; [by constructor|].
    destruct (decide _); simplify_eq; [by constructor|].
    replace k with (a_key a next) by (destruct k; unfold a_key; simpl in *; f_equal; [done|lia]).
    apply as_reserve; [done|]. destruct (next =? u64_max); auto.
  - apply a_on_live_inv in H as [[? ->]|(c & -> & Hl & Hf)]; [by constructor|].
    destruct c; simplify_eq; [by constructor|]. by apply as_commit.
  - apply a_on_live_inv in H as [[? ->]|(c & -> & Hl & Hf)]; [by constructor|].
    simplify_eq. by eapply as_cancel.
  - apply a_on_live_inv in H as [[? ->]|(c & -> & Hl & Hf)]; [by constructor|].
    destruct c; simplify_eq; [by apply as_complete|by constructor].
  - unfold a_drain in H. destruct (a_phase a) eqn:Hp; simplify_eq; try by constructor.
    all: apply as_drain; by rewrite Hp.
Qed.

(** ** Histories *)

(** [k] can never be admitted again by a ledger in state [a]. *)
Definition spent (a : aledger) (k : EndpointRequestKey) : Prop :=
  endpoint_epoch (ledger_identity k) < endpoint_epoch (a_identity a) \/
  (ledger_identity k = a_identity a /\
   match a_phase a with AOpen next => request_id k < next | _ => True end).

Record history_ok (a : aledger) (live adm com sett : list EndpointRequestKey) : Prop := {
  h_nodup : NoDup adm;
  h_conserve : adm ≡ₚ sett ++ live;
  h_spent : Forall (spent a) adm;
  h_uninit : a_phase a = AUninit -> adm = [];
  h_com_nodup : NoDup com;
  h_com_sub : com ⊆ adm;
  h_live_com : forall id c, a_live a !! id = Some c -> a_key a id ∈ com <-> c = true;
}.

Lemma spent_step a o st a' k :
  a_step a o st a' -> a_phase a <> AUninit -> spent a k -> spent a' k.
Proof.
  intros Hs Hu Hk. destruct Hs as [| o id first Ho | next ph' Hp Hph| | | |]; try done.
  - left. simpl. destruct Ho as [[_ ?]|(_ & Hp & Hlt)]; [done|].
    destruct Hk as [?|[-> _]]; lia.
  - unfold spent in *. simpl. rewrite Hp in Hk. destruct Hk as [?|[? ?]]; [by left|right].
    split; [done|]. destruct Hph as [->| ->]; [done|lia].
  - unfold spent in *. simpl. naive_solver.
Qed.

Lemma admitted_fresh a next : a_phase a = AOpen next -> ~ spent a (a_key a next).
Proof. unfold spent. intros ->. simpl. intros [?|[_ ?]]; lia. Qed.

Lemma history_step a o r a' live live' adm com sett :
  history_ok a live adm com sett ->
  a_step a o (res_status r) a' ->
  live ++ admitted o r ≡ₚ settled o r ++ live' ->
  (forall id, is_Some (a_live a !! id) -> a_key a id ∈ adm) ->
  history_ok a' live' (adm ++ admitted o r) (com ++ committed o r) (sett ++ settled o r) /\
  completed o r ⊆ com.
Proof.
  intros [Hnd Hcons Hsp Hun Hcnd Hcsub Hlc] Hstep Hcons' Hlive_adm.
  assert (adm ++ admitted o r ≡ₚ (sett ++ settled o r) ++ live') as Hcons1.
  { rewrite Hcons, <- !app_assoc. by rewrite Hcons'. }
  assert (Forall (spent a') adm) as Hsp1.
  { destruct adm as [|k adm]; [constructor|]. eapply Forall_impl; [exact Hsp|].
    intros k' Hk'. eapply spent_step; [exact Hstep| |done]. intros Hu. by specialize (Hun Hu). }
  unfold admitted, committed, completed, settled in *.
  inversion Hstep as [o' st Hst|o' id first Ho|next ph' Hp Hph|id Hl|id c Hl|id Hl|Hp]; subst;
    try match goal with H : Ok = res_status r |- _ => rewrite <- H in * end.
  - destruct o, (res_status r); try done; rewrite ?app_nil_r in *; (split; [by constructor|set_solver]).
  - destruct Ho as [[-> Hp]|(-> & Hp & _)]; rewrite ?app_nil_r in *; (split; [|set_solver]);
      constructor; try done.
  - split; [|set_solver]. rewrite app_nil_r. constructor.
    + apply NoDup_app. split_and!; [done| |apply NoDup_singleton].
      intros k Hk ->%list_elem_of_singleton.
      apply (admitted_fresh a next Hp). by apply (proj1 (Forall_forall _ _) Hsp).
    + exact Hcons1.
    + apply Forall_app. split; [done|]. apply Forall_singleton. right. simpl.
      split; [done|]. destruct Hph as [->| ->]; [done|lia].
    + simpl. by destruct Hph as [->| ->].
    + done.
    + set_solver.
    + simpl. intros id c. rewrite lookup_insert. case_decide as Heq; [|apply Hlc].
      intros [= <-]. split; [|done]. intros Hin%Hcsub. subst id.
      destruct (admitted_fresh a next Hp). by apply (proj1 (Forall_forall _ _) Hsp).
  - split; [|set_solver]. rewrite !app_nil_r in *. constructor; try done.
    + apply NoDup_app. split_and!; [done| |apply NoDup_singleton].
      intros k Hk ->%list_elem_of_singleton. by apply (Hlc id false Hl) in Hk.
    + intros k [Hk|Hk%list_elem_of_singleton]%elem_of_app; [set_solver|]. subst k.
      apply Hlive_adm. eauto.
    + simpl. intros id' c. unfold a_key. simpl. rewrite lookup_insert. case_decide as Heq.
      * intros [= <-]. subst. split; [done|]. intros _. apply elem_of_app. right. by left.
      * intros Hl'. rewrite <- (Hlc id' c Hl'). unfold a_key. rewrite elem_of_app, list_elem_of_singleton.
        naive_solver.
  - split; [|set_solver]. rewrite !app_nil_r in *. constructor; try done.
    simpl. intros id' c' [_ Hl']%lookup_delete_Some. by apply Hlc.
  - split; [rewrite !app_nil_r in *; constructor; try done;
            simpl; intros id' c' [_ Hl']%lookup_delete_Some; by apply Hlc|].
    intros k ->%list_elem_of_singleton. by apply (Hlc id true Hl).
  - split; [|set_solver]. rewrite !app_nil_r in *. constructor; try done.
Qed.

(** ** Executions *)

Fixpoint a_run (a : aledger) (os : list lop) : list EndpointRequestLedgerStatus * aledger :=
  match os with
  | [] => ([], a)
  | o :: os' =>
      let '(st, a1) := a_exec a o in
      let '(sts, a2) := a_run a1 os' in (st :: sts, a2)
  end.

(** The keys some kind of effect concerned, over a whole execution. *)
Definition collect (f : lop -> lresult -> list EndpointRequestKey) (os : list lop)
    (rs : list lresult) : list EndpointRequestKey := concat (zip_with f os rs).

Lemma live_id_key l id :
  ledger_ok l -> is_Some (a_live (abs l) !! id) -> a_key (abs l) id ∈ live_keys (slots l).
Proof.
  intros Hok [c Hc]. rewrite live_keys_entries by done. apply list_elem_of_fmap.
  exists id. split; [done|]. apply list_elem_of_fmap. exists (id, c). split; [done|].
  by apply elem_of_list_to_map_2.
Qed.

Lemma run_invariant os : forall l rs l' adm com sett,
  ledger_ok l -> Forall lop_typed os ->
  history_ok (abs l) (live_keys (slots l)) adm com sett ->
  run_lops l os = (rs, l') ->
  ledger_ok l' /\ a_run (abs l) os = (res_status <$> rs, abs l') /\
  history_ok (abs l') (live_keys (slots l')) (adm ++ collect admitted os rs)
    (com ++ collect committed os rs) (sett ++ collect settled os rs) /\
  collect completed os rs ⊆ com ++ collect committed os rs.
Proof.
  induction os as [|o os IH]; intros l rs l' adm com sett Hok Hty Hh Hrun; cbn [run_lops] in Hrun.
  { injection Hrun as <- <-. unfold collect. simpl. rewrite !app_nil_r.
    split_and!; [done..|set_solver]. }
  destruct (exec_lop l o) as [r l1] eqn:He, (run_lops l1 os) as [rs1 l2] eqn:Hr.
  injection Hrun as <- <-. apply Forall_cons in Hty as [Ht Hty].
  destruct (exec_refines l o r l1 Hok Ht He) as (Hok1 & Ha & Hcons).
  destruct (history_step _ _ _ _ _ _ _ _ _ Hh (a_exec_inv _ _ _ _ Ha) Hcons) as [Hh1 Hcomp].
  { intros id Hid. rewrite (h_conserve _ _ _ _ _ Hh), elem_of_app. right. by apply live_id_key. }
  destruct (IH _ _ _ _ _ _ Hok1 Hty Hh1 Hr) as (Hok2 & Ha2 & Hh2 & Hc2).
  unfold collect in *. simpl. rewrite !app_assoc. split_and!; [done| |done|set_solver].
  cbn [a_run]. rewrite Ha, Ha2. done.
Qed.

Lemma zero_ledger_ok : ledger_ok zero_ledger.
Proof.
  apply canonical_ledger_ok; [|reflexivity]. constructor; simpl; try ulia. reflexivity.
Qed.

Lemma zero_history : history_ok (abs zero_ledger) (live_keys (slots zero_ledger)) [] [] [].
Proof. constructor; try done; constructor. Qed.

Lemma run_from_zero os rs l :
  Forall lop_typed os -> run_lops zero_ledger os = (rs, l) ->
  ledger_ok l /\ a_run (abs zero_ledger) os = (res_status <$> rs, abs l) /\
  history_ok (abs l) (live_keys (slots l)) (collect admitted os rs) (collect committed os rs)
    (collect settled os rs) /\
  collect completed os rs ⊆ collect committed os rs.
Proof. intros Hty Hr. exact (run_invariant _ _ _ _ _ _ _ zero_ledger_ok Hty zero_history Hr). Qed.

Lemma completed_settled os rs :
  collect completed os rs `sublist_of` collect settled os rs.
Proof.
  unfold collect. revert rs. induction os as [|o os IH]; intros [|r rs]; simpl; try done.
  apply sublist_app; [|apply IH]. unfold completed, settled. destruct o, (res_status r);
    try done; apply sublist_nil_l.
Qed.

(** ** Claims *)

(** C4: Refinement: from zero-initialized storage, under any sequence of
    calls with any keys, identities and authorities, the fixed table stays
    canonical (no call ever observes a corrupt ledger) and returns, call by
    call, exactly the statuses of the abstract ledger, to which it stays
    related by the abstraction function. *)
Theorem request_ledger_refines_contract os rs l :
  Forall lop_typed os -> run_lops zero_ledger os = (rs, l) ->
  EndpointRequestLedgerIsCanonical l = true /\
  a_run (abs zero_ledger) os = (res_status <$> rs, abs l).
Proof.
  intros Hty Hr. destruct (run_from_zero os rs l Hty Hr) as (Hok & Ha & _).
  split; [by apply ok_canonical|done].
Qed.

(** C5: Conservation: no request key is admitted twice, not even across
    drains and resets, and the admitted keys are exactly the settled ones
    (cancelled, completed or handed back by a drain) plus the outstanding
    ones: every request ends once. *)
Theorem request_keys_admitted_and_settled_once os rs l :
  Forall lop_typed os -> run_lops zero_ledger os = (rs, l) ->
  NoDup (collect admitted os rs) /\
  collect admitted os rs ≡ₚ collect settled os rs ++ live_keys (slots l).
Proof.
  intros Hty Hr. destruct (run_from_zero os rs l Hty Hr) as (_ & _ & [Hnd Hcons _ _ _ _ _] & _).
  done.
Qed.

(** At most one reply: completion authority is minted at most once per
    key, only for admitted keys; a completion succeeds at most once per key
    and only for a key whose authority was minted. *)
Theorem request_replies_at_most_once os rs l :
  Forall lop_typed os -> run_lops zero_ledger os = (rs, l) ->
  NoDup (collect committed os rs) /\ NoDup (collect completed os rs) /\
  collect completed os rs ⊆ collect committed os rs /\
  collect committed os rs ⊆ collect admitted os rs.
Proof.
  intros Hty Hr.
  destruct (run_from_zero os rs l Hty Hr) as (_ & _ & [Hnd Hcons _ _ Hcnd Hcsub _] & Hcc).
  split_and!; try done. rewrite Hcons in Hnd. apply NoDup_app in Hnd as [Hset _].
  exact (sublist_NoDup _ _ Hset (completed_settled os rs)).
Qed.

(** Transactionality: a call that does not return [Ok] leaves every field
    of the ledger unchanged, whatever the ledger held before, a corrupt
    state included. *)
Theorem request_ledger_failures_change_nothing l o r l' :
  exec_lop l o = (r, l') -> res_status r <> Ok -> l' = l.
Proof.
  destruct o; cbn [exec_lop];
    unfold EndpointRequestLedgerInitialize, EndpointRequestLedgerReset,
      EndpointRequestLedgerReserve, EndpointRequestLedgerCommit, EndpointRequestLedgerCancel,
      EndpointRequestLedgerComplete, EndpointRequestLedgerDrain; intros He Hs;
    repeat (case_match; simplify_eq/=; try done).
Qed.

(** Admission: a canonical ledger admits a request exactly when it is
    open, the key carries the ledger's identity and the next request id, and
    fewer than 32 requests are outstanding. *)
Theorem request_ledger_admits_iff l k :
  ledger_typed l -> EndpointRequestLedgerIsCanonical l = true ->
  fst (EndpointRequestLedgerReserve (Some l) k) = Ok <->
  state l = LedgerOpen /\ k = MkKey (identity l) (next_request_id l) /\
  (length (live_keys (slots l)) < kEndpointRequestLedgerCapacity)%nat.
Proof.
  intros Hty Hc. apply canonical_ledger_ok in Hc as Hok; [|done].
  destruct (exec_lop l (LReserve k)) as [r l'] eqn:He.
  destruct (reserve_refines l k r l' Hok He) as (_ & Ha & _).
  assert (fst (EndpointRequestLedgerReserve (Some l) k) = res_status r) as ->.
  { cbn [exec_lop] in He. destruct (EndpointRequestLedgerReserve (Some l) k). by injection He as <- _. }
  pose proof (abs_size l Hok) as Hsize. unfold live_keys. rewrite length_fmap, <- Hsize.
  assert (length (live_slots (slots l)) <= kEndpointRequestLedgerCapacity)%nat as Hle.
  { rewrite <- (typed_rows l Hty). apply List.filter_length_le. }
  pose proof (ok_phase l Hok) as Hph. unfold phase_ok in Hph.
  cbn [a_exec] in Ha. unfold a_reserve in Ha. cbn [abs a_phase a_identity] in Ha.
  unfold EndpointRequestKeyIsValid, kEndpointRequestIdInvalid in Ha.
  destruct (state l) eqn:Hst;
    try (split; [intros Hr; rewrite Hr in Ha; repeat case_match; simplify_eq|naive_solver]; done).
  destruct Hph as [Hidv Hnz]. split.
  - intros Hr. rewrite Hr in Ha. split; [done|].
    repeat case_match; simplify_eq; simpl in *; destruct k as [ki kr]; simpl in *;
    match goal with H : negb (identity_eqb _ _) = false |- _ =>
      apply negb_false_iff, identity_eqb_spec in H end;
    (split; [f_equal; [done|lia]|rewrite Hsize in *; lia]).
  - intros (_ & -> & Hlt). cbn [ledger_identity request_id] in Ha.
    rewrite Hidv, (proj2 (identity_eqb_spec _ _) eq_refl), Z.ltb_irrefl in Ha.
    rewrite (proj2 (Z.eqb_neq _ 0) Hnz) in Ha. cbn [negb andb] in Ha.
    rewrite decide_False in Ha by lia. by injection Ha as <- _.
Qed.

(** ** Witnesses *)

Definition demo_key (epoch id : Z) : EndpointRequestKey :=
  MkKey (MkIdentity epoch InitiatorToAcceptor) id.

(** Two epochs, with a replayed commit, a replayed completion, a cancel, a
    drain with one request outstanding, and a reset. *)
Definition demo_lops : list lop :=
  [ LInitialize (MkIdentity 5 InitiatorToAcceptor) 1;
    LReserve (demo_key 5 1); LReserve (demo_key 5 2); LReserve (demo_key 5 2);
    LCommit (demo_key 5 1); LCommit (demo_key 5 1);
    LComplete (MkAuthority (demo_key 5 2));
    LComplete (MkAuthority (demo_key 5 1)); LComplete (MkAuthority (demo_key 5 1));
    LCancel (demo_key 5 2); LReserve (demo_key 5 3); LDrain;
    LReset (MkIdentity 6 InitiatorToAcceptor) 1; LReserve (demo_key 5 1); LReserve (demo_key 6 1) ].

Lemma demo_lops_typed : Forall lop_typed demo_lops.
Proof. repeat constructor; unfold u64_max; lia. Qed.

Lemma request_ledger_refines_contract_witness :
  EndpointRequestLedgerIsCanonical (run_lops zero_ledger demo_lops).2 = true /\
  a_run (abs zero_ledger) demo_lops =
    (res_status <$> (run_lops zero_ledger demo_lops).1, abs (run_lops zero_ledger demo_lops).2).
Proof.
  apply (request_ledger_refines_contract demo_lops);
    [exact demo_lops_typed|apply surjective_pairing].
Defined.

Lemma request_keys_admitted_and_settled_once_witness :
  NoDup [demo_key 5 1; demo_key 5 2; demo_key 5 3; demo_key 6 1] /\
  [demo_key 5 1; demo_key 5 2; demo_key 5 3; demo_key 6 1] ≡ₚ
  [demo_key 5 1; demo_key 5 2; demo_key 5 3] ++ [demo_key 6 1].
Proof.
  apply (request_keys_admitted_and_settled_once demo_lops (run_lops zero_ledger demo_lops).1
           (run_lops zero_ledger demo_lops).2); [exact demo_lops_typed|apply surjective_pairing].
Defined.

Lemma request_replies_at_most_once_witness :
  NoDup [demo_key 5 1] /\ NoDup [demo_key 5 1] /\
  [demo_key 5 1] ⊆ [demo_key 5 1] /\
  [demo_key 5 1] ⊆ [demo_key 5 1; demo_key 5 2; demo_key 5 3; demo_key 6 1].
Proof.
  apply (request_replies_at_most_once demo_lops (run_lops zero_ledger demo_lops).1
           (run_lops zero_ledger demo_lops).2); [exact demo_lops_typed|apply surjective_pairing].
Defined.

Lemma request_ledger_failures_change_nothing_witness :
  (exec_lop zero_ledger (LReserve (demo_key 5 1))).2 = zero_ledger.
Proof.
  apply (request_ledger_failures_change_nothing zero_ledger (LReserve (demo_key 5 1))
           (plain NotInitialized)); [reflexivity|discriminate].
Defined.

Lemma request_ledger_admits_iff_witness :
  fst (EndpointRequestLedgerReserve (Some (run_lops zero_ledger demo_lops).2) (demo_key 6 2)) = Ok.
Proof.
  apply (request_ledger_admits_iff (run_lops zero_ledger demo_lops).2 (demo_key 6 2)).
  - constructor; vm_compute; repeat split; try reflexivity; discriminate.
  - reflexivity.
  - vm_compute. repeat split; try reflexivity; lia.
Defined.
