(* ===== verification/Bytes.v ===== *)
(** * Little-endian bytes and address ranges

    The byte accessors and the pointer-range tests that
    [kernel/ipc/message_abi.cpp], [kernel/ipc/versioned_payload.cpp] and
    [kernel/ipc/message_ring.cpp] each define for themselves.  A byte is a
    [Z] in [0, 255]; a buffer is a list of bytes at an address; the null
    pointer is address 0. *)

From S2P Require Import Prelude.

Record Buffer := MkBuffer { buf_addr : Z; buf_bytes : list Z }.

Definition byte_at (bytes : list Z) (i : nat) : Z := nth i bytes 0.

Definition bytes_ok (bytes : list Z) : Prop := Forall is_u8 bytes.

Definition ReadLe16 (bytes : list Z) (off : nat) : Z :=
  wrap16 (Z.lor (byte_at bytes off) (Z.shiftl (byte_at bytes (off + 1)) 8)).

Definition ReadLe32 (bytes : list Z) (off : nat) : Z :=
  Z.lor (Z.lor (Z.lor (byte_at bytes off) (Z.shiftl (byte_at bytes (off + 1)) 8))
               (Z.shiftl (byte_at bytes (off + 2)) 16))
        (Z.shiftl (byte_at bytes (off + 3)) 24).

Definition ReadLe64 (bytes : list Z) (off : nat) : Z :=
  Z.lor (ReadLe32 bytes off) (Z.shiftl (ReadLe32 bytes (off + 4)) 32).

Definition WriteLe16 (bytes : list Z) (off : nat) (value : Z) : list Z :=
  <[(off + 1)%nat := Z.land (Z.shiftr value 8) 255]> (<[off := Z.land value 255]> bytes).

Definition WriteLe32 (bytes : list Z) (off : nat) (value : Z) : list Z :=
  <[(off + 3)%nat := Z.land (Z.shiftr value 24) 255]>
    (<[(off + 2)%nat := Z.land (Z.shiftr value 16) 255]>
       (<[(off + 1)%nat := Z.land (Z.shiftr value 8) 255]>
          (<[off := Z.land value 255]> bytes))).

Definition WriteLe64 (bytes : list Z) (off : nat) (value : Z) : list Z :=
  WriteLe32 (WriteLe32 bytes off (Z.land value 4294967295)) (off + 4) (Z.shiftr value 32).

(** [RangesOverlap] / [PointerRangesOverlap]: byte ranges of two objects. *)
Definition RangesOverlap (left left_bytes right right_bytes : Z) : bool :=
  if (left =? 0) || (right =? 0) || (left_bytes =? 0) || (right_bytes =? 0) then false
  else if left <=? right then right - left <? left_bytes else left - right <? right_bytes.

(** ** Bytes of a word *)

Lemma land_255 x : Z.land x 255 = x mod 256.
Proof. change 255 with (Z.ones 8). by rewrite Z.land_ones. Qed.

Lemma read16_arith b0 b1 :
  is_u8 b0 -> is_u8 b1 -> wrap16 (Z.lor b0 (Z.shiftl b1 8)) = b0 + 256 * b1.
Proof.
  intros H0 H1. rewrite lor_shift_add by ulia. unfold wrap16. rewrite Z.mod_small; ulia.
Qed.

Lemma read32_arith b0 b1 b2 b3 :
  is_u8 b0 -> is_u8 b1 -> is_u8 b2 -> is_u8 b3 ->
  Z.lor (Z.lor (Z.lor b0 (Z.shiftl b1 8)) (Z.shiftl b2 16)) (Z.shiftl b3 24) =
  b0 + 256 * b1 + 65536 * b2 + 16777216 * b3.
Proof.
  intros H0 H1 H2 H3. rewrite (lor_shift_add b0 b1 8) by ulia.
  rewrite (lor_shift_add _ b2 16) by ulia. rewrite (lor_shift_add _ b3 24) by ulia. lia.
Qed.

Lemma byte_of_range v : is_u8 (v mod 256).
Proof. pose proof (Z.mod_pos_bound v 256). ulia. Qed.

Lemma write_byte v k : Z.land (Z.shiftr v k) 255 = Z.shiftr v k mod 256.
Proof. apply land_255. Qed.

(** Reading back the bytes a writer stored. *)
Lemma read_write16 v :
  is_u16 v ->
  wrap16 (Z.lor (Z.land v 255) (Z.shiftl (Z.land (Z.shiftr v 8) 255) 8)) = v.
Proof.
  intros Hv. rewrite !land_255, !Z.shiftr_div_pow2 by lia. change (2 ^ 8) with 256.
  rewrite read16_arith by apply byte_of_range. unfold_widths. Z.div_mod_to_equations. lia.
Qed.

Lemma read_write32 v :
  is_u32 v ->
  Z.lor (Z.lor (Z.lor (Z.land v 255) (Z.shiftl (Z.land (Z.shiftr v 8) 255) 8))
               (Z.shiftl (Z.land (Z.shiftr v 16) 255) 16))
        (Z.shiftl (Z.land (Z.shiftr v 24) 255) 24) = v.
Proof.
  intros Hv. rewrite !land_255, !Z.shiftr_div_pow2 by lia.
  change (2 ^ 8) with 256. change (2 ^ 16) with 65536. change (2 ^ 24) with 16777216.
  rewrite read32_arith by apply byte_of_range. unfold_widths. Z.div_mod_to_equations. lia.
Qed.

(** Storing again what was read stores the same bytes. *)
Lemma write_read16 b0 b1 :
  is_u8 b0 -> is_u8 b1 ->
  let v := wrap16 (Z.lor b0 (Z.shiftl b1 8)) in
  Z.land v 255 = b0 /\ Z.land (Z.shiftr v 8) 255 = b1.
Proof.
  intros H0 H1. simpl. rewrite read16_arith by done.
  rewrite !land_255, Z.shiftr_div_pow2 by lia. change (2 ^ 8) with 256.
  unfold_widths. split; Z.div_mod_to_equations; lia.
Qed.

Lemma write_read32 b0 b1 b2 b3 :
  is_u8 b0 -> is_u8 b1 -> is_u8 b2 -> is_u8 b3 ->
  let v := Z.lor (Z.lor (Z.lor b0 (Z.shiftl b1 8)) (Z.shiftl b2 16)) (Z.shiftl b3 24) in
  Z.land v 255 = b0 /\ Z.land (Z.shiftr v 8) 255 = b1 /\
  Z.land (Z.shiftr v 16) 255 = b2 /\ Z.land (Z.shiftr v 24) 255 = b3.
Proof.
  intros H0 H1 H2 H3. simpl. rewrite read32_arith by done.
  rewrite !land_255, !Z.shiftr_div_pow2 by lia.
  change (2 ^ 8) with 256. change (2 ^ 16) with 65536. change (2 ^ 24) with 16777216.
  unfold_widths. split_and!; Z.div_mod_to_equations; lia.
Qed.

Lemma split64 v :
  is_u64 v ->
  is_u32 (Z.land v 4294967295) /\ is_u32 (Z.shiftr v 32) /\
  Z.lor (Z.land v 4294967295) (Z.shiftl (Z.shiftr v 32) 32) = v.
Proof.
  intros Hv. change 4294967295 with (Z.ones 32). rewrite Z.land_ones by lia.
  rewrite Z.shiftr_div_pow2 by lia.
  pose proof (Z.mod_pos_bound v (2 ^ 32) ltac:(lia)) as Hm.
  rewrite lor_shift_add by (lia || done). change (2 ^ 32) with 4294967296 in *.
  unfold_widths. split_and!; try lia; Z.div_mod_to_equations; lia.
Qed.

Lemma join64 lo hi :
  is_u32 lo -> is_u32 hi ->
  let v := Z.lor lo (Z.shiftl hi 32) in
  is_u64 v /\ Z.land v 4294967295 = lo /\ Z.shiftr v 32 = hi.
Proof.
  intros Hl Hh. cbn zeta. rewrite lor_shift_add by ulia.
  change 4294967295 with (Z.ones 32). rewrite Z.land_ones by lia.
  rewrite Z.shiftr_div_pow2 by lia. change (2 ^ 32) with 4294967296.
  unfold_widths. split_and!; try lia; Z.div_mod_to_equations; lia.
Qed.

Lemma read32_range b0 b1 b2 b3 :
  is_u8 b0 -> is_u8 b1 -> is_u8 b2 -> is_u8 b3 ->
  is_u32 (Z.lor (Z.lor (Z.lor b0 (Z.shiftl b1 8)) (Z.shiftl b2 16)) (Z.shiftl b3 24)).
Proof. intros. rewrite read32_arith by done. ulia. Qed.

Lemma wrap16_range x : is_u16 (wrap16 x).
Proof. unfold wrap16. pose proof (Z.mod_pos_bound x 65536 ltac:(lia)). ulia. Qed.

Lemma byte_at_ok bytes i : bytes_ok bytes -> is_u8 (byte_at bytes i).
Proof.
  intros H. unfold byte_at. destruct (bytes !! i) as [b|] eqn:Hi.
  - rewrite (nth_lookup_Some _ _ _ _ Hi). by apply (proj1 (Forall_lookup _ _) H i).
  - apply lookup_ge_None in Hi. rewrite nth_overflow by done. ulia.
Qed.

Lemma byte_land_ok v : is_u8 (Z.land v 255).
Proof. rewrite land_255. apply byte_of_range. Qed.

#[export] Hint Resolve byte_at_ok byte_land_ok byte_of_range wrap16_range : duet.

(** ** Ranges *)

(** The test decides whether some address lies in both ranges. *)
Lemma RangesOverlap_spec l ln r rn :
  0 < l -> 0 < r -> 0 <= ln -> 0 <= rn ->
  RangesOverlap l ln r rn = true <-> exists a, l <= a < l + ln /\ r <= a < r + rn.
Proof.
  intros Hl Hr Hln Hrn. unfold RangesOverlap.
  destruct ((l =? 0) || (r =? 0) || (ln =? 0) || (rn =? 0)) eqn:Hz.
  { split; [done|]. intros (a & ? & ?). lia. }
  destruct (Z.leb_spec l r); rewrite Z.ltb_lt; split.
  - intros. exists r. lia.
  - intros (a & ? & ?). lia.
  - intros. exists l. lia.
  - intros (a & ? & ?). lia.
Qed.
