(* ===== verification/MessageAbi.v ===== *)
(** * Versioned IPC message envelope

    Model of [kernel/ipc/message_abi.h] and [kernel/ipc/message_abi.cpp]: the
    32-byte little-endian header every IPC frame starts with, its encoder and
    its validator.  A message kind is the raw [u16] that the source casts to
    the enumeration, so values outside it are representable.  The optional
    view is [None] when the source leaves it untouched. *)

From S2P Require Import Prelude Bytes.

Definition kMessageAbiMagic : Z := 1129335108. (* 0x43504944, "DIPC" *)
Definition kMessageAbiVersion1 : Z := 1.
Definition kMessageAbiHeaderV1Bytes : Z := 32.
Definition kMessageAbiMaxBytes : Z := 64 * 1024.
Definition kMessageAbiV1KnownFlags : Z := 0.

Definition KindRequest : Z := 1.
Definition KindReply : Z := 2.
Definition KindNotification : Z := 3.
Definition KindCancel : Z := 4.

Inductive MessageValidationError :=
| MsgOk | NullBuffer | TruncatedHeader | BadMagic | UnsupportedVersion
| UnsupportedHeaderSize | MessageTooSmall | MessageTooLarge | SizeMismatch
| UnsupportedFlags | InvalidKind | InvalidRoute | InvalidRequestId
| UnexpectedPayload | OutputAliasesInput.
#[export] Instance MessageValidationError_eq_dec : EqDecision MessageValidationError.
Proof. solve_decision. Defined.

Record MessageHeaderV1 := MkHeader {
  hdr_kind : Z;
  hdr_flags : Z;
  hdr_service_id : Z;
  hdr_method_id : Z;
  hdr_request_id : Z;
}.

Record MessageView := MkView {
  total_size : Z;
  version : Z;
  header_size : Z;
  kind : Z;
  flags : Z;
  service_id : Z;
  method_id : Z;
  msg_request_id : Z;
  payload_offset : Z;
  payload_size : Z;
}.
Definition zero_view : MessageView := MkView 0 0 0 0 0 0 0 0 0 0.

(** [sizeof(MessageView)] under the x86-64 ABI. *)
Definition sizeof_MessageView : Z := 40.

Definition kMagicOffset : nat := 0.
Definition kTotalSizeOffset : nat := 4.
Definition kVersionOffset : nat := 8.
Definition kHeaderSizeOffset : nat := 10.
Definition kKindOffset : nat := 12.
Definition kFlagsOffset : nat := 14.
Definition kServiceIdOffset : nat := 16.
Definition kMethodIdOffset : nat := 20.
Definition kRequestIdOffset : nat := 24.

Definition MessageKindIsValid (k : Z) : bool :=
  (k =? KindRequest) || (k =? KindReply) || (k =? KindNotification) || (k =? KindCancel).

Definition ValidateSemantics (k fl service method request payload : Z) : MessageValidationError :=
  if negb (Z.land fl (Z.land (Z.lnot kMessageAbiV1KnownFlags) 65535) =? 0) then UnsupportedFlags
  else if negb (MessageKindIsValid k) then InvalidKind
  else if (service =? 0) || (method =? 0) then InvalidRoute
  else if (if k =? KindNotification then negb (request =? 0) else request =? 0)
  then InvalidRequestId
  else if (k =? KindCancel) && negb (payload =? 0) then UnexpectedPayload
  else MsgOk.

(** The encoder returns its result with the bytes of the output buffer. *)
Definition MessageEncodeHeaderV1 (buffer : Buffer) (buffer_bytes : Z) (header : MessageHeaderV1)
    : MessageValidationError * list Z :=
  let bytes := buf_bytes buffer in
  if buf_addr buffer =? 0 then (NullBuffer, bytes)
  else if buffer_bytes <? kMessageAbiHeaderV1Bytes then (MessageTooSmall, bytes)
  else if kMessageAbiMaxBytes <? buffer_bytes then (MessageTooLarge, bytes)
  else
    let payload := buffer_bytes - kMessageAbiHeaderV1Bytes in
    match ValidateSemantics (hdr_kind header) (hdr_flags header) (hdr_service_id header)
            (hdr_method_id header) (hdr_request_id header) payload with
    | MsgOk =>
        let bytes := WriteLe32 bytes kMagicOffset kMessageAbiMagic in
        let bytes := WriteLe32 bytes kTotalSizeOffset buffer_bytes in
        let bytes := WriteLe16 bytes kVersionOffset kMessageAbiVersion1 in
        let bytes := WriteLe16 bytes kHeaderSizeOffset kMessageAbiHeaderV1Bytes in
        let bytes := WriteLe16 bytes kKindOffset (hdr_kind header) in
        let bytes := WriteLe16 bytes kFlagsOffset (hdr_flags header) in
        let bytes := WriteLe32 bytes kServiceIdOffset (hdr_service_id header) in
        let bytes := WriteLe32 bytes kMethodIdOffset (hdr_method_id header) in
        let bytes := WriteLe64 bytes kRequestIdOffset (hdr_request_id header) in
        (MsgOk, bytes)
    | e => (e, bytes)
    end.

(** [view_out] is the address of the output, 0 when absent. *)
Definition MessageValidate (buffer : Buffer) (available_bytes : Z) (view_out : Z)
    : MessageValidationError * option MessageView :=
  if RangesOverlap (buf_addr buffer) available_bytes view_out sizeof_MessageView
  then (OutputAliasesInput, None)
  else
    let store (v : MessageView) := if view_out =? 0 then None else Some v in
    let bytes := buf_bytes buffer in
    if buf_addr buffer =? 0 then (NullBuffer, store zero_view)
    else if available_bytes <? kMessageAbiHeaderV1Bytes then (TruncatedHeader, store zero_view)
    else if negb (ReadLe32 bytes kMagicOffset =? kMessageAbiMagic) then (BadMagic, store zero_view)
    else
      let ver := ReadLe16 bytes kVersionOffset in
      if negb (ver =? kMessageAbiVersion1) then (UnsupportedVersion, store zero_view)
      else
        let hsize := ReadLe16 bytes kHeaderSizeOffset in
        if negb (hsize =? kMessageAbiHeaderV1Bytes) then (UnsupportedHeaderSize, store zero_view)
        else
          let total := ReadLe32 bytes kTotalSizeOffset in
          if total <? hsize then (MessageTooSmall, store zero_view)
          else if kMessageAbiMaxBytes <? total then (MessageTooLarge, store zero_view)
          else if negb (total =? available_bytes) then (SizeMismatch, store zero_view)
          else
            let k := ReadLe16 bytes kKindOffset in
            let fl := ReadLe16 bytes kFlagsOffset in
            let service := ReadLe32 bytes kServiceIdOffset in
            let method := ReadLe32 bytes kMethodIdOffset in
            let request := ReadLe64 bytes kRequestIdOffset in
            let payload := total - hsize in
            match ValidateSemantics k fl service method request payload with
            | MsgOk =>
                (MsgOk, store (MkView total ver hsize k fl service method request
                                 (if payload =? 0 then 0 else hsize) payload))
            | e => (e, store zero_view)
            end.

(** ** The 32 header bytes, one by one

    A buffer that holds a header is 32 explicit bytes followed by the
    payload; on such a list reads and writes at the header offsets compute. *)

Lemma header_bytes (bytes : list Z) :
  (32 <= length bytes)%nat ->
  exists b0 b1 b2 b3 b4 b5 b6 b7 b8 b9 b10 b11 b12 b13 b14 b15 b16 b17 b18 b19 b20 b21 b22 b23
         b24 b25 b26 b27 b28 b29 b30 b31 payload,
    bytes = b0 :: b1 :: b2 :: b3 :: b4 :: b5 :: b6 :: b7 :: b8 :: b9 :: b10 :: b11 :: b12 :: b13
      :: b14 :: b15 :: b16 :: b17 :: b18 :: b19 :: b20 :: b21 :: b22 :: b23 :: b24 :: b25 :: b26
      :: b27 :: b28 :: b29 :: b30 :: b31 :: payload.
Proof.
  intros H. do 32 (destruct bytes as [|? bytes]; [simpl in H; lia|]). repeat eexists.
Qed.

Record header_typed (h : MessageHeaderV1) : Prop := {
  typed_kind : is_u16 (hdr_kind h);
  typed_flags : is_u16 (hdr_flags h);
  typed_service : is_u32 (hdr_service_id h);
  typed_method : is_u32 (hdr_method_id h);
  typed_request : is_u64 (hdr_request_id h);
}.

Definition header_view (h : MessageHeaderV1) (n : Z) : MessageView :=
  MkView n kMessageAbiVersion1 kMessageAbiHeaderV1Bytes (hdr_kind h) (hdr_flags h)
    (hdr_service_id h) (hdr_method_id h) (hdr_request_id h)
    (if n - kMessageAbiHeaderV1Bytes =? 0 then 0 else kMessageAbiHeaderV1Bytes)
    (n - kMessageAbiHeaderV1Bytes).

Definition view_header (v : MessageView) : MessageHeaderV1 :=
  MkHeader (kind v) (flags v) (service_id v) (method_id v) (msg_request_id v).

#[local] Arguments Z.lor : simpl never.
#[local] Arguments Z.land : simpl never.
#[local] Arguments Z.shiftl : simpl never.
#[local] Arguments Z.shiftr : simpl never.
#[local] Arguments wrap16 : simpl never.
#[local] Arguments Z.sub : simpl never.
#[local] Arguments Z.eqb : simpl never.
#[local] Arguments Z.ltb : simpl never.

(** Splitting the encoder and the validator into their guards. *)
Lemma encode_ok_inv buffer n h out :
  MessageEncodeHeaderV1 buffer n h = (MsgOk, out) ->
  buf_addr buffer <> 0 /\ 32 <= n <= kMessageAbiMaxBytes /\
  ValidateSemantics (hdr_kind h) (hdr_flags h) (hdr_service_id h) (hdr_method_id h)
    (hdr_request_id h) (n - 32) = MsgOk.
Proof.
  unfold MessageEncodeHeaderV1, kMessageAbiHeaderV1Bytes.
  destruct (Z.eqb_spec (buf_addr buffer) 0); [done|].
  destruct (Z.ltb_spec n 32); [done|]. destruct (Z.ltb_spec kMessageAbiMaxBytes n); [done|].
  destruct (ValidateSemantics _ _ _ _ _ _); try done; intros; split_and!; try done; lia.
Qed.

Lemma encode_unfold buffer n h :
  buf_addr buffer <> 0 -> 32 <= n <= kMessageAbiMaxBytes ->
  ValidateSemantics (hdr_kind h) (hdr_flags h) (hdr_service_id h) (hdr_method_id h)
    (hdr_request_id h) (n - 32) = MsgOk ->
  MessageEncodeHeaderV1 buffer n h =
  (MsgOk,
   WriteLe64 (WriteLe32 (WriteLe32 (WriteLe16 (WriteLe16 (WriteLe16 (WriteLe16
     (WriteLe32 (WriteLe32 (buf_bytes buffer) 0 kMessageAbiMagic) 4 n) 8 1) 10 32)
       12 (hdr_kind h)) 14 (hdr_flags h)) 16 (hdr_service_id h)) 20 (hdr_method_id h))
         24 (hdr_request_id h)).
Proof.
  intros Ha Hn Hs. unfold MessageEncodeHeaderV1, kMessageAbiHeaderV1Bytes.
  rewrite (proj2 (Z.eqb_neq _ 0) Ha), (proj2 (Z.ltb_ge n 32)), (proj2 (Z.ltb_ge _ n)) by lia.
  rewrite Hs. done.
Qed.

Lemma validate_unfold addr bytes n view_out :
  addr <> 0 -> 32 <= n <= kMessageAbiMaxBytes ->
  RangesOverlap addr n view_out sizeof_MessageView = false ->
  ReadLe32 bytes 0 = kMessageAbiMagic -> ReadLe16 bytes 8 = 1 -> ReadLe16 bytes 10 = 32 ->
  ReadLe32 bytes 4 = n ->
  ValidateSemantics (ReadLe16 bytes 12) (ReadLe16 bytes 14) (ReadLe32 bytes 16)
    (ReadLe32 bytes 20) (ReadLe64 bytes 24) (n - 32) = MsgOk ->
  MessageValidate (MkBuffer addr bytes) n view_out =
  (MsgOk, if view_out =? 0 then None else
     Some (header_view (MkHeader (ReadLe16 bytes 12) (ReadLe16 bytes 14) (ReadLe32 bytes 16)
       (ReadLe32 bytes 20) (ReadLe64 bytes 24)) n)).
Proof.
  intros Ha Hn Hov Hm Hv Hh Ht Hs. unfold MessageValidate. cbn [buf_addr buf_bytes].
  unfold kMagicOffset, kVersionOffset, kHeaderSizeOffset, kTotalSizeOffset, kKindOffset,
    kFlagsOffset, kServiceIdOffset, kMethodIdOffset, kRequestIdOffset, kMessageAbiHeaderV1Bytes,
    kMessageAbiVersion1.
  rewrite Hov, (proj2 (Z.eqb_neq _ 0) Ha), (proj2 (Z.ltb_ge n 32)) by lia.
  rewrite Hm, Hv, Hh, Ht, !Z.eqb_refl. cbn [negb].
  rewrite (proj2 (Z.ltb_ge n 32)), (proj2 (Z.ltb_ge _ n)) by lia. by rewrite Hs.
Qed.

Lemma validate_ok_inv buffer n view_out v :
  MessageValidate buffer n view_out = (MsgOk, Some v) ->
  let bytes := buf_bytes buffer in
  buf_addr buffer <> 0 /\ view_out <> 0 /\ 32 <= n <= kMessageAbiMaxBytes /\
  ReadLe32 bytes 0 = kMessageAbiMagic /\ ReadLe16 bytes 8 = 1 /\ ReadLe16 bytes 10 = 32 /\
  ReadLe32 bytes 4 = n /\
  ValidateSemantics (ReadLe16 bytes 12) (ReadLe16 bytes 14) (ReadLe32 bytes 16)
    (ReadLe32 bytes 20) (ReadLe64 bytes 24) (n - 32) = MsgOk /\
  v = header_view (MkHeader (ReadLe16 bytes 12) (ReadLe16 bytes 14) (ReadLe32 bytes 16)
        (ReadLe32 bytes 20) (ReadLe64 bytes 24)) n.
Proof.
  unfold MessageValidate, kMagicOffset, kVersionOffset, kHeaderSizeOffset, kTotalSizeOffset,
    kKindOffset, kFlagsOffset, kServiceIdOffset, kMethodIdOffset, kRequestIdOffset,
    kMessageAbiHeaderV1Bytes, kMessageAbiVersion1.
  destruct (RangesOverlap _ _ _ _); [done|].
  destruct (Z.eqb_spec (buf_addr buffer) 0) as [|Ha]; [done|].
  destruct (Z.ltb_spec n 32); [done|].
  destruct (Z.eqb_spec (ReadLe32 (buf_bytes buffer) 0) kMessageAbiMagic) as [Hm|]; [|done].
  destruct (Z.eqb_spec (ReadLe16 (buf_bytes buffer) 8) 1) as [Hv|]; [|done].
  destruct (Z.eqb_spec (ReadLe16 (buf_bytes buffer) 10) 32) as [Hh|]; [|done]. cbn [negb].
  destruct (Z.ltb_spec (ReadLe32 (buf_bytes buffer) 4) (ReadLe16 (buf_bytes buffer) 10)); [done|].
  destruct (Z.ltb_spec kMessageAbiMaxBytes (ReadLe32 (buf_bytes buffer) 4)); [done|].
  destruct (Z.eqb_spec (ReadLe32 (buf_bytes buffer) 4) n) as [Ht|]; [|done]. cbn [negb].
  rewrite Ht, Hh, Hv in *.
  destruct (ValidateSemantics _ _ _ _ _ _) eqn:Hs; try done.
  destruct (Z.eqb_spec view_out 0); [done|]. intros [= <-]. split_and!; try done; lia.
Qed.

Ltac word_cbn :=
  unfold ReadLe64, ReadLe32, ReadLe16, WriteLe64, WriteLe32, WriteLe16, byte_at in *; simpl.

(** ** Claims *)

(** Round trip: whatever header the encoder accepts, the validator reads
    back from the written buffer exactly that header with the exact sizes,
    and the encoder touched no payload byte. *)
Theorem message_encode_validate_roundtrip buffer n h out view_out :
  header_typed h -> Z.of_nat (length (buf_bytes buffer)) = n -> view_out <> 0 ->
  RangesOverlap (buf_addr buffer) n view_out sizeof_MessageView = false ->
  MessageEncodeHeaderV1 buffer n h = (MsgOk, out) ->
  MessageValidate (MkBuffer (buf_addr buffer) out) n view_out = (MsgOk, Some (header_view h n)) /\
  drop 32 out = drop 32 (buf_bytes buffer).
Proof.
  intros [Hk Hf Hse Hme Hre] Hlen Hview Hov Henc.
  destruct (encode_ok_inv _ _ _ _ Henc) as (Ha & Hn & Hs).
  rewrite (encode_unfold _ _ _ Ha Hn Hs) in Henc. injection Henc as Hout.
  destruct (header_bytes (buf_bytes buffer)) as
    (b0&b1&b2&b3&b4&b5&b6&b7&b8&b9&b10&b11&b12&b13&b14&b15&b16&b17&b18&b19&b20&b21&b22&b23&b24&b25
     &b26&b27&b28&b29&b30&b31&payload&Hbytes); [lia|].
  rewrite Hbytes in *. clear Hbytes Hlen. word_cbn. rewrite <- Hout. clear Hout. simpl. split; [|done].
  destruct (split64 _ Hre) as (Hlo & Hhi & Hjoin).
  assert (is_u32 n) as Hn32 by (unfold kMessageAbiMaxBytes in Hn; ulia).
  rewrite validate_unfold; try done; word_cbn;
    rewrite ?read_write32, ?read_write16, ?Hjoin by done; try done.
  by rewrite (proj2 (Z.eqb_neq _ 0) Hview).
Qed.

(** Canonical encoding: a frame the validator accepts is byte for byte
    what the encoder writes for the header the validator reports: hostile
    bytes have no second spelling of an accepted header.  The reported payload
    range lies inside the frame. *)
Theorem message_validated_frames_are_canonical buffer n view_out v :
  bytes_ok (buf_bytes buffer) -> Z.of_nat (length (buf_bytes buffer)) = n ->
  MessageValidate buffer n view_out = (MsgOk, Some v) ->
  MessageEncodeHeaderV1 buffer n (view_header v) = (MsgOk, buf_bytes buffer) /\
  0 <= payload_offset v /\ payload_offset v + payload_size v <= n.
Proof.
  intros Hb Hlen Hval.
  destruct (validate_ok_inv _ _ _ _ Hval) as (Ha & _ & Hn & Hm & Hv & Hh & Ht & Hs & ->).
  clear Hval. split; [|unfold header_view, kMessageAbiHeaderV1Bytes; cbn [payload_offset payload_size];
                       destruct (Z.eqb_spec (n - 32) 0); lia]. unfold view_header, header_view. cbn [kind flags service_id method_id msg_request_id
    hdr_kind hdr_flags hdr_service_id hdr_method_id hdr_request_id].
  rewrite encode_unfold by done.
  destruct (header_bytes (buf_bytes buffer)) as
    (b0&b1&b2&b3&b4&b5&b6&b7&b8&b9&b10&b11&b12&b13&b14&b15&b16&b17&b18&b19&b20&b21&b22&b23&b24&b25
     &b26&b27&b28&b29&b30&b31&payload&Hbytes); [lia|].
  rewrite Hbytes in *. unfold bytes_ok in Hb. rewrite !Forall_cons in Hb. destruct_and! Hb.
  word_cbn. simpl in Hm, Hv, Hh, Ht.
  destruct (write_read32 b0 b1 b2 b3) as (Em0 & Em1 & Em2 & Em3); [done..|].
  destruct (write_read32 b4 b5 b6 b7) as (Et0 & Et1 & Et2 & Et3); [done..|].
  destruct (write_read16 b8 b9) as [Ev0 Ev1]; [done..|].
  destruct (write_read16 b10 b11) as [Eh0 Eh1]; [done..|].
  cbn zeta in *. rewrite Hm in Em0, Em1, Em2, Em3. rewrite Ht in Et0, Et1, Et2, Et3.
  rewrite Hv in Ev0, Ev1. rewrite Hh in Eh0, Eh1.
  rewrite Em0, Em1, Em2, Em3, Et0, Et1, Et2, Et3, Ev0, Ev1, Eh0, Eh1.
  destruct (join64 (Z.lor (Z.lor (Z.lor b24 (Z.shiftl b25 8)) (Z.shiftl b26 16)) (Z.shiftl b27 24))
              (Z.lor (Z.lor (Z.lor b28 (Z.shiftl b29 8)) (Z.shiftl b30 16)) (Z.shiftl b31 24)))
    as (_ & -> & ->); [by apply read32_range..|].
  repeat match goal with
  | |- context [Z.land (wrap16 (Z.lor ?x (Z.shiftl ?y 8))) 255] =>
      destruct (write_read16 x y) as [-> ->]; [done..|]
  | |- context [Z.land (Z.lor (Z.lor (Z.lor ?x (Z.shiftl ?y 8)) (Z.shiftl ?z 16)) (Z.shiftl ?w 24)) 255] =>
      destruct (write_read32 x y z w) as (-> & -> & -> & ->); [done..|]
  end. done.
Qed.

(** ** Witnesses *)

Definition demo_header : MessageHeaderV1 := MkHeader KindRequest 0 7 9 (u64_max - 1).
Definition demo_buffer : Buffer := MkBuffer 4096 (replicate 40 170).

Lemma demo_header_typed : header_typed demo_header.
Proof. constructor; unfold demo_header, KindRequest; simpl; ulia. Qed.

Lemma message_encode_validate_roundtrip_witness :
  MessageValidate (MkBuffer 4096 (MessageEncodeHeaderV1 demo_buffer 40 demo_header).2) 40 8192 =
    (MsgOk, Some (MkView 40 1 32 1 0 7 9 (u64_max - 1) 32 8)) /\
  drop 32 (MessageEncodeHeaderV1 demo_buffer 40 demo_header).2 = replicate 8 170.
Proof.
  apply (message_encode_validate_roundtrip demo_buffer 40 demo_header);
    [exact demo_header_typed|reflexivity|lia|reflexivity|reflexivity].
Defined.

Lemma message_validated_frames_are_canonical_witness :
  MessageEncodeHeaderV1 (MkBuffer 4096 (MessageEncodeHeaderV1 demo_buffer 40 demo_header).2) 40
    (view_header (MkView 40 1 32 1 0 7 9 (u64_max - 1) 32 8)) =
  (MsgOk, (MessageEncodeHeaderV1 demo_buffer 40 demo_header).2) /\ 0 <= 32 /\ 32 + 8 <= 40.
Proof.
  apply (message_validated_frames_are_canonical
    (MkBuffer 4096 (MessageEncodeHeaderV1 demo_buffer 40 demo_header).2) 40 8192
    (MkView 40 1 32 1 0 7 9 (u64_max - 1) 32 8)).
  - vm_compute. repeat constructor; discriminate.
  - reflexivity.
  - reflexivity.
Defined.
