(* ===== verification/VersionedPayload.v ===== *)
(** * Size- and version-tagged payloads

    Model of [kernel/ipc/versioned_payload.h] and
    [kernel/ipc/versioned_payload.cpp]: the eight-byte prefix of a typed
    payload, the version-rule table it is checked against, and the binary
    search that finds the rule.  The rule table is a list at an address. *)

From Equations Require Import Equations.
From S2P Require Import Prelude Bytes MessageAbi.

Definition kVersionedPayloadHeaderBytes : Z := 8.
Definition kVersionedPayloadMaxBytes : Z := kMessageAbiMaxBytes - kMessageAbiHeaderV1Bytes.
Definition kVersionedPayloadMaxRules : Z := 256.

Record PayloadVersionRule := MkRule {
  rule_version : Z;
  known_flags : Z;
  minimum_size : Z;
  maximum_size : Z;
}.
Definition zero_rule : PayloadVersionRule := MkRule 0 0 0 0.

(** [sizeof] of the rule and of the view under the x86-64 ABI. *)
Definition sizeof_PayloadVersionRule : Z := 12.
Definition sizeof_VersionedPayloadView : Z := 8.

Record RuleTable := MkRules { rules_addr : Z; rules_list : list PayloadVersionRule }.

Inductive PayloadValidationError :=
| PayOk | PayNullBuffer | InvalidRuleTable | PayTruncatedHeader | PayloadTooSmall
| PayloadTooLarge | PaySizeMismatch | PayUnsupportedVersion | PayUnsupportedFlags
| SizeOutsideVersionRange | PayOutputAliasesInput | InputsOverlap.
#[export] Instance PayloadValidationError_eq_dec : EqDecision PayloadValidationError.
Proof. solve_decision. Defined.

Record VersionedPayloadView := MkPayloadView {
  pv_total_size : Z;
  pv_version : Z;
  pv_flags : Z;
}.
Definition zero_payload_view : VersionedPayloadView := MkPayloadView 0 0 0.

Definition pTotalSizeOffset : nat := 0.
Definition pVersionOffset : nat := 4.
Definition pFlagsOffset : nat := 6.

(** The loop of [RuleTableIsValid] from one row on. *)
Fixpoint rules_ascend (previous_version : Z) (rules : list PayloadVersionRule) : bool :=
  match rules with
  | [] => true
  | rule :: rest =>
      if (rule_version rule =? 0) || (rule_version rule <=? previous_version) then false
      else if (minimum_size rule <? kVersionedPayloadHeaderBytes)
              || (maximum_size rule <? minimum_size rule)
              || (kVersionedPayloadMaxBytes <? maximum_size rule)
      then false
      else rules_ascend (rule_version rule) rest
  end.

Definition RuleTableIsValid (rules : RuleTable) (rule_count : Z) : bool :=
  if (rules_addr rules =? 0) || (rule_count =? 0) || (kVersionedPayloadMaxRules <? rule_count)
  then false
  else rules_ascend 0 (take (Z.to_nat rule_count) (rules_list rules)).

(** The lower-bound loop of [FindRule]; [count] halves at every turn. *)
Equations? find_rule_loop (rules : list PayloadVersionRule) (ver : Z) (first count : nat) : nat
  by wf count lt :=
  find_rule_loop rules ver first 0 := first;
  find_rule_loop rules ver first (S c) with
    (rule_version (nth (first + Nat.div (S c) 2) rules zero_rule) <? ver) => {
    | true := find_rule_loop rules ver (first + Nat.div (S c) 2 + 1) (S c - (Nat.div (S c) 2 + 1));
    | false := find_rule_loop rules ver first (Nat.div (S c) 2) }.
Proof.
  - lia.
  - apply Nat.div_lt; lia.
Qed.

Definition FindRule (rules : list PayloadVersionRule) (rule_count : nat) (ver : Z)
    : option PayloadVersionRule :=
  let first := find_rule_loop rules ver 0 rule_count in
  if (first <? rule_count)%nat && (rule_version (nth first rules zero_rule) =? ver)
  then Some (nth first rules zero_rule)
  else None.

Definition ValidateAgainstRule (total fl : Z) (rule : PayloadVersionRule) : PayloadValidationError :=
  if negb (Z.land fl (Z.land (Z.lnot (known_flags rule)) 65535) =? 0) then PayUnsupportedFlags
  else if (total <? minimum_size rule) || (maximum_size rule <? total) then SizeOutsideVersionRange
  else PayOk.

Definition PayloadEncodeHeader (buffer : Buffer) (buffer_bytes ver fl : Z) (rules : RuleTable)
    (rule_count : Z) : PayloadValidationError * list Z :=
  let bytes := buf_bytes buffer in
  if buf_addr buffer =? 0 then (PayNullBuffer, bytes)
  else if buffer_bytes <? kVersionedPayloadHeaderBytes then (PayloadTooSmall, bytes)
  else if kVersionedPayloadMaxBytes <? buffer_bytes then (PayloadTooLarge, bytes)
  else if negb (RuleTableIsValid rules rule_count) then (InvalidRuleTable, bytes)
  else
    match FindRule (rules_list rules) (Z.to_nat rule_count) ver with
    | None => (PayUnsupportedVersion, bytes)
    | Some canonical_rule =>
        match ValidateAgainstRule buffer_bytes fl canonical_rule with
        | PayOk =>
            let bytes := WriteLe32 bytes pTotalSizeOffset buffer_bytes in
            let bytes := WriteLe16 bytes pVersionOffset ver in
            let bytes := WriteLe16 bytes pFlagsOffset fl in
            (PayOk, bytes)
        | e => (e, bytes)
        end
    end.

Definition PayloadValidate (buffer : Buffer) (available_bytes : Z) (rules : RuleTable)
    (rule_count : Z) (view_out : Z) : PayloadValidationError * option VersionedPayloadView :=
  if kVersionedPayloadMaxRules <? rule_count then (InvalidRuleTable, None)
  else
    let rule_bytes := wrap32 (rule_count * sizeof_PayloadVersionRule) in
    if RangesOverlap (buf_addr buffer) available_bytes view_out sizeof_VersionedPayloadView
       || RangesOverlap (rules_addr rules) rule_bytes view_out sizeof_VersionedPayloadView
    then (PayOutputAliasesInput, None)
    else if RangesOverlap (buf_addr buffer) available_bytes (rules_addr rules) rule_bytes
    then (InputsOverlap, None)
    else
      let store (v : VersionedPayloadView) := if view_out =? 0 then None else Some v in
      let bytes := buf_bytes buffer in
      if buf_addr buffer =? 0 then (PayNullBuffer, store zero_payload_view)
      else if available_bytes <? kVersionedPayloadHeaderBytes
      then (PayTruncatedHeader, store zero_payload_view)
      else if kVersionedPayloadMaxBytes <? available_bytes
      then (PayloadTooLarge, store zero_payload_view)
      else if negb (RuleTableIsValid rules rule_count)
      then (InvalidRuleTable, store zero_payload_view)
      else
        let total := ReadLe32 bytes pTotalSizeOffset in
        if total <? kVersionedPayloadHeaderBytes then (PayloadTooSmall, store zero_payload_view)
        else if kVersionedPayloadMaxBytes <? total then (PayloadTooLarge, store zero_payload_view)
        else if negb (total =? available_bytes) then (PaySizeMismatch, store zero_payload_view)
        else
          let ver := ReadLe16 bytes pVersionOffset in
          match FindRule (rules_list rules) (Z.to_nat rule_count) ver with
          | None => (PayUnsupportedVersion, store zero_payload_view)
          | Some matched_rule =>
              let fl := ReadLe16 bytes pFlagsOffset in
              match ValidateAgainstRule total fl matched_rule with
              | PayOk => (PayOk, store (MkPayloadView total ver fl))
              | e => (e, store zero_payload_view)
              end
          end.

(** ** The rule search *)

Definition version_lt (a b : PayloadVersionRule) : Prop := rule_version a < rule_version b.

Lemma rules_ascend_sorted rules : forall prev,
  rules_ascend prev rules = true ->
  Forall (fun r => prev < rule_version r) rules /\ StronglySorted version_lt rules.
Proof.
  induction rules as [|rule rest IH]; intros prev H; simpl in H; [split; constructor|].
  destruct (_ || _) eqn:Hv; [done|]. destruct (_ || _ || _) eqn:Hs; [done|].
  destruct (IH _ H) as [Hall Hsort]. split.
  - constructor; [lia|]. eapply Forall_impl; [exact Hall|]. simpl. lia.
  - by constructor.
Qed.

Lemma StronglySorted_lookup {A} (R : A -> A -> Prop) (l : list A) : forall i j a b,
  StronglySorted R l -> l !! i = Some a -> l !! j = Some b -> (i < j)%nat -> R a b.
Proof.
  induction l as [|x l IH]; intros i j a b Hs Hi Hj Hlt; [done|].
  inversion Hs as [|? ? Hs' Hall]; subst. destruct j as [|j]; [lia|].
  destruct i as [|i]; simplify_eq/=.
  - by apply (proj1 (Forall_lookup _ _) Hall j).
  - eapply (IH i j); eauto. lia.
Qed.

Lemma sorted_nth rules n i j :
  StronglySorted version_lt (take n rules) -> (n <= length rules)%nat -> (i < j < n)%nat ->
  rule_version (nth i rules zero_rule) < rule_version (nth j rules zero_rule).
Proof.
  intros Hs Hn Hij.
  destruct (lookup_lt_is_Some_2 rules i) as [a Ha]; [lia|].
  destruct (lookup_lt_is_Some_2 rules j) as [b Hb]; [lia|].
  rewrite (nth_lookup_Some _ _ _ _ Ha), (nth_lookup_Some _ _ _ _ Hb).
  apply (StronglySorted_lookup version_lt (take n rules) i j); [done| | |lia];
    by rewrite lookup_take_lt by lia.
Qed.

(** The loop returns the lower bound of [ver] in the searched window. *)
Lemma find_rule_loop_spec rules ver n first count :
  (forall i j, (i < j < n)%nat ->
     rule_version (nth i rules zero_rule) < rule_version (nth j rules zero_rule)) ->
  (first + count <= n)%nat ->
  (first <= find_rule_loop rules ver first count <= first + count)%nat /\
  (forall i, (first <= i < find_rule_loop rules ver first count)%nat ->
     rule_version (nth i rules zero_rule) < ver) /\
  (forall i, (find_rule_loop rules ver first count <= i < first + count)%nat ->
     ver <= rule_version (nth i rules zero_rule)).
Proof.
  intros Hs. funelim (find_rule_loop rules ver first count); intros Hle.
  all: try rewrite <- Heqcall.
  - split_and!; intros; lia.
  - set (h := Nat.div (S c) 2) in *.
    pose proof (Nat.div_lt (S c) 2 ltac:(lia) ltac:(lia)) as Hh. fold h in Hh.
    destruct (H n Hs ltac:(lia)) as (Hr & Hlo & Hhi). apply Z.ltb_lt in Heq.
    split_and!; [lia|lia| |intros; apply Hhi; lia].
    intros i Hi. destruct (Nat.lt_ge_cases i (first + h)%nat) as [Hlt|Hge].
    + specialize (Hs i (first + h)%nat ltac:(lia)). lia.
    + destruct (Nat.eq_dec i (first + h)%nat) as [->|]; [done|]. apply Hlo. lia.
  - set (h := Nat.div (S c) 2) in *.
    pose proof (Nat.div_lt (S c) 2 ltac:(lia) ltac:(lia)) as Hh. fold h in Hh.
    destruct (H n Hs ltac:(lia)) as (Hr & Hlo & Hhi). apply Z.ltb_ge in Heq.
    split_and!; [lia|lia|done|].
    intros i Hi. destruct (Nat.lt_ge_cases i (first + h)%nat) as [Hlt|Hge]; [apply Hhi; lia|].
    destruct (Nat.eq_dec i (first + h)%nat) as [->|]; [done|].
    specialize (Hs (first + h)%nat i ltac:(lia)). lia.
Qed.

(** The linear search a rule table stands for. *)
Definition rule_of (rules : list PayloadVersionRule) (ver : Z) : option PayloadVersionRule :=
  snd <$> list_find (fun r => rule_version r = ver) rules.

Lemma FindRule_linear rules n ver :
  StronglySorted version_lt (take n rules) -> (n <= length rules)%nat ->
  FindRule rules n ver = rule_of (take n rules) ver.
Proof.
  intros Hs Hn. unfold FindRule, rule_of.
  destruct (find_rule_loop_spec rules ver n 0 n) as (Hr & Hlo & Hhi);
    [intros; by apply sorted_nth with n|lia|].
  set (r := find_rule_loop rules ver 0 n) in *.
  assert (forall i, (i < n)%nat -> take n rules !! i = Some (nth i rules zero_rule)) as Hnth.
  { intros i Hi. rewrite lookup_take_lt by done.
    destruct (nth_lookup_or_length rules i zero_rule) as [?|?]; [done|lia]. }
  destruct ((r <? n)%nat && (rule_version (nth r rules zero_rule) =? ver)) eqn:Hf.
  - apply andb_true_iff in Hf as [Hlt%Nat.ltb_lt Hv%Z.eqb_eq].
    rewrite (proj2 (list_find_Some (fun x => rule_version x = ver) (take n rules) r
      (nth r rules zero_rule))); [done|].
    split_and!; [by apply Hnth|done|]. intros j y Hj Hjr. rewrite Hnth in Hj by lia. simplify_eq.
    specialize (Hlo j ltac:(lia)). lia.
  - rewrite (proj2 (list_find_None _ _)); [done|]. apply Forall_lookup. intros i y Hi Hy.
    pose proof (lookup_lt_Some _ _ _ Hi) as Hin. rewrite length_take in Hin.
    rewrite Hnth in Hi by lia. simplify_eq.
    destruct (Nat.lt_ge_cases i r) as [?|Hge]; [specialize (Hlo i ltac:(lia)); lia|].
    assert (r < n)%nat as Hrn by lia.
    apply andb_false_iff in Hf as [Hf%Nat.ltb_ge|Hf%Z.eqb_neq]; [lia|].
    destruct (Nat.eq_dec i r) as [Hir|]; [by rewrite Hir in *|].
    pose proof (sorted_nth rules n r i Hs Hn ltac:(lia)). specialize (Hhi r ltac:(lia)). lia.
Qed.

Lemma RuleTable_sorted rules n :
  RuleTableIsValid rules n = true ->
  0 <> n /\ n <= kVersionedPayloadMaxRules /\
  StronglySorted version_lt (take (Z.to_nat n) (rules_list rules)).
Proof.
  unfold RuleTableIsValid. destruct (_ || _) eqn:Hz; [done|]. intros H%rules_ascend_sorted.
  split_and!; [lia|lia|tauto].
Qed.

(** ** Claims *)

(** Search equivalence: on a table that passes validation, the binary
    search finds exactly the rule a linear scan for the version finds, and
    nothing when no rule has the version. *)
Theorem find_rule_is_linear_search rules rule_count ver :
  RuleTableIsValid rules rule_count = true ->
  0 <= rule_count <= Z.of_nat (length (rules_list rules)) ->
  FindRule (rules_list rules) (Z.to_nat rule_count) ver =
  rule_of (take (Z.to_nat rule_count) (rules_list rules)) ver.
Proof.
  intros Hv Hlen. apply RuleTable_sorted in Hv as (_ & _ & Hs).
  apply FindRule_linear; [done|lia].
Qed.

Lemma payload_encode_ok_inv buffer n ver fl rules rc out :
  PayloadEncodeHeader buffer n ver fl rules rc = (PayOk, out) ->
  buf_addr buffer <> 0 /\ 8 <= n <= kVersionedPayloadMaxBytes /\
  RuleTableIsValid rules rc = true /\
  (exists rule, FindRule (rules_list rules) (Z.to_nat rc) ver = Some rule /\
                ValidateAgainstRule n fl rule = PayOk) /\
  out = WriteLe16 (WriteLe16 (WriteLe32 (buf_bytes buffer) 0 n) 4 ver) 6 fl.
Proof.
  unfold PayloadEncodeHeader, kVersionedPayloadHeaderBytes.
  destruct (Z.eqb_spec (buf_addr buffer) 0); [done|].
  destruct (Z.ltb_spec n 8); [done|]. destruct (Z.ltb_spec kVersionedPayloadMaxBytes n); [done|].
  destruct (RuleTableIsValid rules rc); [|done]. cbn [negb].
  destruct (FindRule _ _ _) as [rule|]; [|done].
  destruct (ValidateAgainstRule n fl rule) eqn:Hr; try done.
  intros [= <-]. split_and!; eauto; lia.
Qed.

(** Round trip: a payload prefix the encoder accepts under a rule table
    validates under that table, with the same size, version and flags, and
    the encoder touched no byte behind the prefix. *)
Theorem payload_encode_validate_roundtrip buffer n ver fl rules rc out view_out :
  is_u16 ver -> is_u16 fl -> Z.of_nat (length (buf_bytes buffer)) = n -> 0 <= rc -> view_out <> 0 ->
  RangesOverlap (buf_addr buffer) n view_out sizeof_VersionedPayloadView = false ->
  RangesOverlap (rules_addr rules) (rc * sizeof_PayloadVersionRule) view_out
    sizeof_VersionedPayloadView = false ->
  RangesOverlap (buf_addr buffer) n (rules_addr rules) (rc * sizeof_PayloadVersionRule) = false ->
  PayloadEncodeHeader buffer n ver fl rules rc = (PayOk, out) ->
  PayloadValidate (MkBuffer (buf_addr buffer) out) n rules rc view_out =
    (PayOk, Some (MkPayloadView n ver fl)) /\
  drop 8 out = drop 8 (buf_bytes buffer).
Proof.
  intros Hver Hfl Hlen Hrc Hview Ho1 Ho2 Ho3 Henc.
  destruct (payload_encode_ok_inv _ _ _ _ _ _ _ Henc) as (Ha & Hn & Hv & (rule & Hf & Hr) & ->).
  destruct (RuleTable_sorted _ _ Hv) as (_ & Hmax & _).
  clear Henc. destruct (buf_bytes buffer) as [|b0 [|b1 [|b2 [|b3 [|b4 [|b5 [|b6 [|b7 rest]]]]]]]];
    try (simpl in Hlen; lia).
  assert (is_u32 n) as Hn32
    by (unfold kVersionedPayloadMaxBytes, kMessageAbiMaxBytes, kMessageAbiHeaderV1Bytes in Hn; ulia).
  split; [|done]. unfold PayloadValidate. cbn [buf_addr buf_bytes].
  rewrite (proj2 (Z.ltb_ge _ _) Hmax).
  rewrite wrap32_small by (unfold sizeof_PayloadVersionRule, kVersionedPayloadMaxRules in *; ulia).
  rewrite Ho1, Ho2, Ho3. cbn [orb]. rewrite (proj2 (Z.eqb_neq _ 0) Ha), (proj2 (Z.eqb_neq _ 0) Hview).
  unfold kVersionedPayloadHeaderBytes, pTotalSizeOffset, pVersionOffset, pFlagsOffset.
  rewrite (proj2 (Z.ltb_ge n 8)), (proj2 (Z.ltb_ge _ n)), Hv by lia. cbn [negb].
  assert (forall l : list Z, l = WriteLe16 (WriteLe16 (WriteLe32
      (b0 :: b1 :: b2 :: b3 :: b4 :: b5 :: b6 :: b7 :: rest) 0 n) 4 ver) 6 fl ->
    ReadLe32 l 0 = n /\ ReadLe16 l 4 = ver /\ ReadLe16 l 6 = fl) as Hread.
  { intros l ->. unfold ReadLe32, ReadLe16, WriteLe16, WriteLe32, byte_at. cbn [insert list_insert Nat.add nth].
    by rewrite read_write32, !read_write16. }
  destruct (Hread _ eq_refl) as (-> & -> & ->).
  rewrite (proj2 (Z.ltb_ge n 8)), (proj2 (Z.ltb_ge _ n)), Z.eqb_refl by lia. cbn [negb].
  by rewrite Hf, Hr.
Qed.

(** Validation is sound: an accepted payload declares exactly the bytes
    that are there, and some rule of the table has its version, knows all
    its flags and admits its size. *)
Theorem payload_validate_sound buffer n rules rc view_out v :
  0 <= rc <= Z.of_nat (length (rules_list rules)) ->
  PayloadValidate buffer n rules rc view_out = (PayOk, Some v) ->
  pv_total_size v = n /\
  exists rule, rule ∈ take (Z.to_nat rc) (rules_list rules) /\ rule_version rule = pv_version v /\
    minimum_size rule <= n <= maximum_size rule /\
    Z.land (pv_flags v) (Z.land (Z.lnot (known_flags rule)) 65535) = 0.
Proof.
  intros Hrc. unfold PayloadValidate.
  destruct (_ <? rc); [done|]. destruct (_ || _); [done|]. destruct (RangesOverlap _ _ _ _); [done|].
  destruct (view_out =? 0); [by intros; repeat case_match|].
  destruct (buf_addr buffer =? 0); [done|]. destruct (n <? _); [done|]. destruct (_ <? n); [done|].
  destruct (RuleTableIsValid rules rc) eqn:Hv; [|done]. cbn [negb].
  destruct (_ <? _); [done|]. destruct (_ <? _); [done|].
  destruct (Z.eqb_spec (ReadLe32 (buf_bytes buffer) pTotalSizeOffset) n) as [Ht|]; [|done]. cbn [negb].
  destruct (RuleTable_sorted _ _ Hv) as (_ & _ & Hs).
  rewrite FindRule_linear by (done || lia). unfold rule_of.
  destruct (list_find _ _) as [[i rule]|] eqn:Hf; [|done]. cbn [fmap option_fmap option_map snd].
  apply list_find_Some in Hf as (Hi & Hver & _). unfold ValidateAgainstRule. rewrite Ht.
  destruct (Z.eqb_spec (Z.land (ReadLe16 (buf_bytes buffer) pFlagsOffset)
    (Z.land (Z.lnot (known_flags rule)) 65535)) 0) as [Hfl|]; [|done]. cbn [negb].
  destruct (_ || _) eqn:Hb; [done|]. intros [= <-]. split; [done|]. exists rule.
  split_and!; [by eapply list_elem_of_lookup_2|done|lia|lia|done].
Qed.

(** ** Witnesses *)

Definition demo_rules : RuleTable :=
  MkRules 16384 [MkRule 1 0 8 64; MkRule 2 3 16 64; MkRule 5 1 8 1024].

Lemma find_rule_is_linear_search_witness :
  FindRule (rules_list demo_rules) (Z.to_nat 3) 2 = Some (MkRule 2 3 16 64).
Proof.
  apply (find_rule_is_linear_search demo_rules 3 2); [reflexivity|simpl; lia].
Defined.

Definition demo_payload : Buffer := MkBuffer 4096 (replicate 20 170).

Lemma payload_encode_validate_roundtrip_witness :
  PayloadValidate (MkBuffer 4096 (PayloadEncodeHeader demo_payload 20 2 3 demo_rules 3).2)
    20 demo_rules 3 8192 = (PayOk, Some (MkPayloadView 20 2 3)) /\
  drop 8 (PayloadEncodeHeader demo_payload 20 2 3 demo_rules 3).2 = replicate 12 170.
Proof.
  apply (payload_encode_validate_roundtrip demo_payload 20 2 3 demo_rules 3);
    try reflexivity; try ulia; vm_compute; reflexivity.
Defined.

Lemma payload_validate_sound_witness :
  20 = 20 /\
  exists rule, rule ∈ take 3 (rules_list demo_rules) /\ rule_version rule = 2 /\
    minimum_size rule <= 20 <= maximum_size rule /\
    Z.land 3 (Z.land (Z.lnot (known_flags rule)) 65535) = 0.
Proof.
  apply (payload_validate_sound
    (MkBuffer 4096 (PayloadEncodeHeader demo_payload 20 2 3 demo_rules 3).2) 20 demo_rules 3 8192
    (MkPayloadView 20 2 3)); [simpl; lia|vm_compute; reflexivity].
Defined.
