(* ===== verification/MessageRing.v ===== *)
(** * Fixed-storage message ring

    Model of [kernel/ipc/message_ring.h] and [kernel/ipc/message_ring.cpp]:
    the circular byte buffer that carries validated IPC frames, with its
    two-phase producer (prepare, then publish or abort) and its transactional
    receiver (peek, begin copy, end copy, commit).

    The flat fields of the C++ object are grouped into the producer
    reservation and the receive transaction, which the source clears as
    units.  [ring_self] is the address of the object and [storage] that of
    its byte storage, whose contents are [data].  A critical section of the
    ring lock is one definition; [MessageRingPrepareEnqueue], which takes the
    lock twice with an unlocked byte copy between, is the composition of its
    three parts.  The lock words are not part of the state. *)

From S2P Require Import Prelude Bytes MessageAbi VersionedPayload.

Definition kMessageRingRecordHeaderBytes : Z := 16.
Definition kMessageRingMinimumStorageBytes : Z :=
  kMessageRingRecordHeaderBytes + kMessageAbiHeaderV1Bytes.
Definition kRecordSequenceOffset : nat := 0.
Definition kRecordFrameSizeOffset : nat := 8.
Definition kRecordReservedOffset : nat := 12.
Definition kU64Max : Z := u64_max.
Definition kRingStateUninitialized : Z := 0.
Definition kRingStateInitializing : Z := 1.
Definition kRingStateReady : Z := 2.

(** Object sizes under the x86-64 ABI. *)
Definition sizeof_MessageRing : Z := 184.
Definition sizeof_u64 : Z := 8.
Definition sizeof_u32 : Z := 4.
Definition sizeof_MessageRingPeekView : Z := 24.
Definition sizeof_MessageRingCopySpans : Z := 40.
Definition sizeof_MessageRingSnapshot : Z := 48.

Inductive MessageRingStatus :=
| RingOk | RingInvalidArgument | RingNotInitialized | AliasedBuffer | MalformedMessage
| InvalidPayloadContract | MissingPayloadContract | MalformedPayload | RingFull | RingBusy
| RingEmpty | BufferTooSmall | CopyRequired | CopyNotActive | StaleSequence
| StaleReservation | ProducerAborted | RingSequenceExhausted | ReservationExhausted
| RingCorruptState | RingAlreadyInitialized | StaleReceiveLease | StaleCopyAttempt
| ReceiveLeaseExhausted | CopyIdExhausted.
#[export] Instance MessageRingStatus_eq_dec : EqDecision MessageRingStatus.
Proof. solve_decision. Defined.

Record MessageRingEnqueueResult := MkEnqueueResult {
  enq_status : MessageRingStatus;
  enq_reservation_id : Z;
  enq_sequence : Z;
  enq_message_error : MessageValidationError;
  enq_payload_error : PayloadValidationError;
}.

Record MessageRingPeekView := MkPeekView {
  peek_sequence : Z;
  peek_receive_lease_id : Z;
  peek_frame_size : Z;
}.

(** Spans are offsets into the storage; the second is absent when empty. *)
Record MessageRingCopySpans := MkSpans {
  span_first : Z;
  span_first_size : Z;
  span_second : option Z;
  span_second_size : Z;
  span_copy_id : Z;
}.

Record MessageRingSnapshot := MkSnapshot {
  snap_capacity_bytes : Z;
  snap_used_bytes : Z;
  snap_free_bytes : Z;
  snap_queued_frames : Z;
  snap_next_sequence : Z;
  snap_producer_reservation_id : Z;
  snap_receive_sequence : Z;
  snap_producer_copy_active : bool;
  snap_producer_abort_requested : bool;
  snap_receive_copy_active : bool;
  snap_receive_copy_succeeded : bool;
  snap_sequence_exhausted : bool;
  snap_reservation_exhausted : bool;
  snap_receive_lease_exhausted : bool;
  snap_copy_id_exhausted : bool;
}.

Record ProducerState := MkProducer {
  producer_reservation_id : Z;
  producer_tail_offset : Z;
  producer_record_bytes : Z;
  producer_frame_size : Z;
  producer_copy_active : Z;
  producer_abort_requested : Z;
}.

Record ReceiverState := MkReceiver {
  receive_sequence : Z;
  receive_lease_id : Z;
  receive_frame_size : Z;
  receive_copy_id : Z;
  receive_copy_succeeded_id : Z;
}.

Record MessageRing := MkRing {
  ring_self : Z;
  storage : Z;
  data : list Z;
  capacity_bytes : Z;
  head_offset : Z;
  tail_offset : Z;
  used_bytes : Z;
  queued_frames : Z;
  initialized : Z;
  next_sequence : Z;
  sequence_exhausted : Z;
  next_reservation_id : Z;
  reservation_exhausted : Z;
  producer : ProducerState;
  next_receive_lease_id : Z;
  receive_lease_exhausted : Z;
  next_copy_id : Z;
  copy_id_exhausted : Z;
  receiver : ReceiverState;
}.

(** ** Field updates *)

Definition set_data (r : MessageRing) (d : list Z) : MessageRing :=
  MkRing (ring_self r) (storage r) d (capacity_bytes r) (head_offset r) (tail_offset r)
    (used_bytes r) (queued_frames r) (initialized r) (next_sequence r) (sequence_exhausted r)
    (next_reservation_id r) (reservation_exhausted r) (producer r) (next_receive_lease_id r)
    (receive_lease_exhausted r) (next_copy_id r) (copy_id_exhausted r) (receiver r).
Definition set_producer (r : MessageRing) (p : ProducerState) : MessageRing :=
  MkRing (ring_self r) (storage r) (data r) (capacity_bytes r) (head_offset r) (tail_offset r)
    (used_bytes r) (queued_frames r) (initialized r) (next_sequence r) (sequence_exhausted r)
    (next_reservation_id r) (reservation_exhausted r) p (next_receive_lease_id r)
    (receive_lease_exhausted r) (next_copy_id r) (copy_id_exhausted r) (receiver r).
Definition set_receiver (r : MessageRing) (v : ReceiverState) : MessageRing :=
  MkRing (ring_self r) (storage r) (data r) (capacity_bytes r) (head_offset r) (tail_offset r)
    (used_bytes r) (queued_frames r) (initialized r) (next_sequence r) (sequence_exhausted r)
    (next_reservation_id r) (reservation_exhausted r) (producer r) (next_receive_lease_id r)
    (receive_lease_exhausted r) (next_copy_id r) (copy_id_exhausted r) v.
Definition set_queue (r : MessageRing) (head tail used queued : Z) : MessageRing :=
  MkRing (ring_self r) (storage r) (data r) (capacity_bytes r) head tail used queued
    (initialized r) (next_sequence r) (sequence_exhausted r)
    (next_reservation_id r) (reservation_exhausted r) (producer r) (next_receive_lease_id r)
    (receive_lease_exhausted r) (next_copy_id r) (copy_id_exhausted r) (receiver r).
Definition set_sequence (r : MessageRing) (next exhausted : Z) : MessageRing :=
  MkRing (ring_self r) (storage r) (data r) (capacity_bytes r) (head_offset r) (tail_offset r)
    (used_bytes r) (queued_frames r) (initialized r) next exhausted
    (next_reservation_id r) (reservation_exhausted r) (producer r) (next_receive_lease_id r)
    (receive_lease_exhausted r) (next_copy_id r) (copy_id_exhausted r) (receiver r).
Definition set_reservation (r : MessageRing) (next exhausted : Z) : MessageRing :=
  MkRing (ring_self r) (storage r) (data r) (capacity_bytes r) (head_offset r) (tail_offset r)
    (used_bytes r) (queued_frames r) (initialized r) (next_sequence r) (sequence_exhausted r)
    next exhausted (producer r) (next_receive_lease_id r)
    (receive_lease_exhausted r) (next_copy_id r) (copy_id_exhausted r) (receiver r).
Definition set_lease (r : MessageRing) (next exhausted : Z) : MessageRing :=
  MkRing (ring_self r) (storage r) (data r) (capacity_bytes r) (head_offset r) (tail_offset r)
    (used_bytes r) (queued_frames r) (initialized r) (next_sequence r) (sequence_exhausted r)
    (next_reservation_id r) (reservation_exhausted r) (producer r) next exhausted
    (next_copy_id r) (copy_id_exhausted r) (receiver r).
Definition set_copy (r : MessageRing) (next exhausted : Z) : MessageRing :=
  MkRing (ring_self r) (storage r) (data r) (capacity_bytes r) (head_offset r) (tail_offset r)
    (used_bytes r) (queued_frames r) (initialized r) (next_sequence r) (sequence_exhausted r)
    (next_reservation_id r) (reservation_exhausted r) (producer r) (next_receive_lease_id r)
    (receive_lease_exhausted r) next exhausted (receiver r).

(** ** Helpers of the source *)

Definition PointerRangeIsValid (pointer bytes : Z) : bool :=
  if pointer =? 0 then false else bytes <=? kU64Max - pointer.

Definition RingIsReady (r : MessageRing) : bool := initialized r =? kRingStateReady.

Definition AdvanceOffset (offset bytes capacity : Z) : Z :=
  let remaining := wrap32 (capacity - offset) in
  if bytes <? remaining then wrap32 (offset + bytes)
  else if bytes =? remaining then 0
  else bytes - remaining.

(** The copy loops: one turn per contiguous chunk; the number of remaining
    bytes bounds the number of turns. *)
Fixpoint copy_into (fuel : nat) (capacity : nat) (d : list Z) (target : nat) (source : list Z)
    : list Z :=
  match fuel, source with
  | O, _ | _, [] => d
  | S fuel', _ =>
      let chunk := Nat.min (length source) (capacity - target) in
      let remaining := drop chunk source in
      copy_into fuel' capacity (list_inserts target (take chunk source) d)
        (match remaining with [] => target | _ => O end) remaining
  end.

Definition CopyIntoStorage (r : MessageRing) (offset : Z) (source : list Z) : MessageRing :=
  set_data r (copy_into (length source) (Z.to_nat (capacity_bytes r)) (data r)
                (Z.to_nat offset) source).

Fixpoint copy_from (fuel : nat) (capacity : nat) (d : list Z) (source : nat) (bytes : nat)
    : list Z :=
  match fuel, bytes with
  | O, _ | _, O => []
  | S fuel', _ =>
      let chunk := Nat.min bytes (capacity - source) in
      let remaining := (bytes - chunk)%nat in
      take chunk (drop source d)
      ++ copy_from fuel' capacity d (match remaining with O => source | _ => O end) remaining
  end.

Definition CopyFromStorage (r : MessageRing) (offset bytes : Z) : list Z :=
  copy_from (Z.to_nat bytes) (Z.to_nat (capacity_bytes r)) (data r) (Z.to_nat offset)
    (Z.to_nat bytes).

Definition StateIsValid (r : MessageRing) : bool :=
  let p := producer r in
  let v := receiver r in
  if (storage r =? 0) || (capacity_bytes r <? kMessageRingMinimumStorageBytes) then false
  else if (capacity_bytes r <=? head_offset r) || (capacity_bytes r <=? tail_offset r)
          || (capacity_bytes r <? used_bytes r)
  then false
  else if negb (Bool.eqb (queued_frames r =? 0) (used_bytes r =? 0)) then false
  else if negb (queued_frames r =? 0) && (used_bytes r <? kMessageRingMinimumStorageBytes)
  then false
  else if (if receive_sequence v =? 0
           then negb (receive_lease_id v =? 0) || negb (receive_frame_size v =? 0)
                || negb (receive_copy_id v =? 0) || negb (receive_copy_succeeded_id v =? 0)
           else (queued_frames r =? 0) || (receive_lease_id v =? 0)
                || (receive_frame_size v <? kMessageAbiHeaderV1Bytes))
  then false
  else if negb (receive_copy_id v =? 0) && negb (receive_copy_succeeded_id v =? 0) then false
  else if (next_receive_lease_id r =? 0) || (next_copy_id r =? 0)
          || (1 <? receive_lease_exhausted r) || (1 <? copy_id_exhausted r)
  then false
  else if producer_reservation_id p =? 0
  then negb (negb (producer_record_bytes p =? 0) || negb (producer_frame_size p =? 0)
             || negb (producer_copy_active p =? 0) || negb (producer_abort_requested p =? 0))
  else negb (negb (producer_tail_offset p =? tail_offset r)
             || negb (producer_record_bytes p
                      =? wrap32 (kMessageRingRecordHeaderBytes + producer_frame_size p))
             || (producer_frame_size p <? kMessageAbiHeaderV1Bytes)
             || (wrap32 (capacity_bytes r - used_bytes r) <? producer_record_bytes p)).

Definition zero_producer : ProducerState := MkProducer 0 0 0 0 0 0.
Definition zero_receiver : ReceiverState := MkReceiver 0 0 0 0 0.
Definition ClearProducer (r : MessageRing) : MessageRing := set_producer r zero_producer.
Definition ClearReceiver (r : MessageRing) : MessageRing := set_receiver r zero_receiver.

Record HeadRecord := MkHead {
  head_sequence : Z;
  head_frame_size : Z;
  head_record_size : Z;
}.

Definition ReadHeadRecord (r : MessageRing) : option HeadRecord :=
  if (queued_frames r =? 0) || (used_bytes r <? kMessageRingRecordHeaderBytes) then None
  else
    let header := CopyFromStorage r (head_offset r) kMessageRingRecordHeaderBytes in
    let sequence := ReadLe64 header kRecordSequenceOffset in
    let frame_size := ReadLe32 header kRecordFrameSizeOffset in
    let reserved := ReadLe32 header kRecordReservedOffset in
    if (sequence =? 0) || negb (reserved =? 0) || (frame_size <? kMessageAbiHeaderV1Bytes)
       || (kMessageAbiMaxBytes <? frame_size)
    then None
    else
      let record_size := kMessageRingRecordHeaderBytes + frame_size in
      if (used_bytes r <? record_size) || (capacity_bytes r <? record_size) then None
      else Some (MkHead sequence frame_size record_size).

Definition EnqueueFailure (status : MessageRingStatus) (message_error : MessageValidationError)
    (payload_error : PayloadValidationError) : MessageRingEnqueueResult :=
  MkEnqueueResult status 0 0 message_error payload_error.

(** ** Operations

    A nullable ring is an option.  Output pointers are addresses (0 for the
    null pointer), because the alias tests look at them; the value stored
    through an output is returned as an option, [None] when the source leaves
    it untouched.  [local_*] arguments are the stack addresses of the locals
    whose address the source passes on. *)

Definition cas_ok (value expected : Z) : bool := value =? expected.

Definition MessageRingInitialize (ring : option MessageRing) (store : Buffer) (storage_bytes : Z)
    (first_sequence : Z) : MessageRingStatus * option MessageRing :=
  match ring with
  | None => (RingInvalidArgument, None)
  | Some r =>
      if (first_sequence =? 0) || (storage_bytes <? kMessageRingMinimumStorageBytes)
         || negb (PointerRangeIsValid (buf_addr store) storage_bytes)
         || RangesOverlap (ring_self r) sizeof_MessageRing (buf_addr store) storage_bytes
      then (RingInvalidArgument, ring)
      else if negb (cas_ok (initialized r) kRingStateUninitialized)
      then (RingAlreadyInitialized, ring)
      else (RingOk, Some (MkRing (ring_self r) (buf_addr store) (buf_bytes store) storage_bytes
              0 0 0 0 kRingStateReady first_sequence 0 1 0 zero_producer 1 0 1 0 zero_receiver))
  end.

(** The checks of [MessageRingPrepareEnqueue] before its first lock: [Some]
    is the early return. *)
Definition PrepareEnqueue_preflight (r : MessageRing) (frame : Buffer) (frame_bytes : Z)
    (payload_rules : RuleTable) (payload_rule_count : Z) (local_view : Z)
    : option MessageRingEnqueueResult :=
  if (buf_addr frame =? 0) || (frame_bytes =? 0)
  then Some (EnqueueFailure RingInvalidArgument MsgOk PayOk)
  else if negb (RingIsReady r) then Some (EnqueueFailure RingNotInitialized MsgOk PayOk)
  else if negb (PointerRangeIsValid (buf_addr frame) frame_bytes)
          || RangesOverlap (buf_addr frame) frame_bytes (storage r) (capacity_bytes r)
          || RangesOverlap (buf_addr frame) frame_bytes (ring_self r) sizeof_MessageRing
  then Some (EnqueueFailure AliasedBuffer MsgOk PayOk)
  else
    let has_rules := negb (rules_addr payload_rules =? 0) in
    let has_rule_count := negb (payload_rule_count =? 0) in
    if negb (Bool.eqb has_rules has_rule_count)
       || (kVersionedPayloadMaxRules <? payload_rule_count)
    then Some (EnqueueFailure InvalidPayloadContract MsgOk InvalidRuleTable)
    else
      let rule_bytes := wrap32 (payload_rule_count * sizeof_PayloadVersionRule) in
      if has_rules && negb (PointerRangeIsValid (rules_addr payload_rules) rule_bytes)
      then Some (EnqueueFailure InvalidPayloadContract MsgOk InvalidRuleTable)
      else if has_rules
              && (RangesOverlap (rules_addr payload_rules) rule_bytes (buf_addr frame) frame_bytes
                  || RangesOverlap (rules_addr payload_rules) rule_bytes (storage r)
                       (capacity_bytes r)
                  || RangesOverlap (rules_addr payload_rules) rule_bytes (ring_self r)
                       sizeof_MessageRing)
      then Some (EnqueueFailure AliasedBuffer MsgOk PayOk)
      else
        let '(message_error, stored_view) := MessageValidate frame frame_bytes local_view in
        let message_view := default zero_view stored_view in
        match message_error with
        | MsgOk =>
            if payload_size message_view =? 0 then
              if has_rules then
                let payload_end := MkBuffer (buf_addr frame + header_size message_view)
                                     (drop (Z.to_nat (header_size message_view)) (buf_bytes frame)) in
                let '(payload_error, _) :=
                  PayloadValidate payload_end 0 payload_rules payload_rule_count 0 in
                Some (EnqueueFailure MalformedPayload MsgOk payload_error)
              else None
            else if negb has_rules
            then Some (EnqueueFailure MissingPayloadContract MsgOk InvalidRuleTable)
            else
              let payload := MkBuffer (buf_addr frame + payload_offset message_view)
                               (drop (Z.to_nat (payload_offset message_view)) (buf_bytes frame)) in
              let '(payload_error, _) :=
                PayloadValidate payload (payload_size message_view) payload_rules
                  payload_rule_count 0 in
              match payload_error with
              | PayOk => None
              | e => Some (EnqueueFailure MalformedPayload MsgOk e)
              end
        | e => Some (EnqueueFailure MalformedMessage e PayOk)
        end.

(** A prepare call that owns a reservation and has yet to copy its frame. *)
Record PrepareCall := MkCall {
  call_reservation_id : Z;
  call_frame_offset : Z;
}.

Definition set_reserved (r : MessageRing) (reservation_id record_bytes frame_bytes : Z)
    : MessageRing :=
  set_producer r (MkProducer reservation_id (tail_offset r) record_bytes frame_bytes 1 0).

(** First critical section: reserve the tail. *)
Definition PrepareEnqueue_reserve (r : MessageRing) (frame_bytes : Z)
    : (MessageRingStatus + PrepareCall) * MessageRing :=
  let record_bytes := wrap32 (kMessageRingRecordHeaderBytes + frame_bytes) in
  if negb (StateIsValid r) then (inl RingCorruptState, r)
  else if negb (producer_reservation_id (producer r) =? 0) then (inl RingBusy, r)
  else if negb (reservation_exhausted r =? 0) then (inl ReservationExhausted, r)
  else if negb (sequence_exhausted r =? 0) then (inl RingSequenceExhausted, r)
  else if wrap32 (capacity_bytes r - used_bytes r) <? record_bytes then (inl RingFull, r)
  else
    let reservation_id := next_reservation_id r in
    let r1 := if reservation_id =? kU64Max then set_reservation r reservation_id 1
              else set_reservation r (reservation_id + 1) (reservation_exhausted r) in
    let r2 := set_reserved r1 reservation_id record_bytes frame_bytes in
    (inr (MkCall reservation_id
            (AdvanceOffset (tail_offset r) kMessageRingRecordHeaderBytes (capacity_bytes r))), r2).

(** Second critical section: the copy is over. *)
Definition PrepareEnqueue_finish (r : MessageRing) (reservation_id : Z)
    : MessageRingStatus * MessageRing :=
  let p := producer r in
  if negb (StateIsValid r) || negb (producer_reservation_id p =? reservation_id)
     || (producer_copy_active p =? 0)
  then (RingCorruptState,
        if producer_reservation_id p =? reservation_id then ClearProducer r else r)
  else if negb (producer_abort_requested p =? 0) then (ProducerAborted, ClearProducer r)
  else (RingOk, set_producer r (MkProducer (producer_reservation_id p) (producer_tail_offset p)
                                  (producer_record_bytes p) (producer_frame_size p) 0
                                  (producer_abort_requested p))).

(** The whole call with nothing interleaved. *)
Definition MessageRingPrepareEnqueue (ring : option MessageRing) (frame : Buffer)
    (frame_bytes : Z) (payload_rules : RuleTable) (payload_rule_count : Z) (local_view : Z)
    : MessageRingEnqueueResult * option MessageRing :=
  match ring with
  | None => (EnqueueFailure RingInvalidArgument MsgOk PayOk, None)
  | Some r =>
      match PrepareEnqueue_preflight r frame frame_bytes payload_rules payload_rule_count
              local_view with
      | Some failure => (failure, ring)
      | None =>
          match PrepareEnqueue_reserve r frame_bytes with
          | (inl status, r1) => (EnqueueFailure status MsgOk PayOk, Some r1)
          | (inr call, r1) =>
              let r2 := CopyIntoStorage r1 (call_frame_offset call)
                          (take (Z.to_nat frame_bytes) (buf_bytes frame)) in
              match PrepareEnqueue_finish r2 (call_reservation_id call) with
              | (RingOk, r3) =>
                  (MkEnqueueResult RingOk (call_reservation_id call) 0 MsgOk PayOk, Some r3)
              | (status, r3) => (EnqueueFailure status MsgOk PayOk, Some r3)
              end
          end
      end
  end.

Definition record_header (sequence frame_size : Z) : list Z :=
  let header := replicate (Z.to_nat kMessageRingRecordHeaderBytes) 0 in
  let header := WriteLe64 header kRecordSequenceOffset sequence in
  let header := WriteLe32 header kRecordFrameSizeOffset frame_size in
  WriteLe32 header kRecordReservedOffset 0.

(** The critical section of [MessageRingPublishEnqueue]; the value is the
    sequence stored through [sequence_out] on success. *)
Definition PublishEnqueue_locked (r : MessageRing) (reservation_id : Z)
    : MessageRingStatus * MessageRing * Z :=
  let p := producer r in
  if negb (StateIsValid r) then (RingCorruptState, r, 0)
  else if negb (producer_reservation_id p =? reservation_id) then (StaleReservation, r, 0)
  else if negb (producer_copy_active p =? 0) then (RingBusy, r, 0)
  else if negb (producer_abort_requested p =? 0) then (ProducerAborted, ClearProducer r, 0)
  else if negb (sequence_exhausted r =? 0) then (RingSequenceExhausted, ClearProducer r, 0)
  else
    let sequence := next_sequence r in
    let r1 := CopyIntoStorage r (producer_tail_offset p)
                (record_header sequence (producer_frame_size p)) in
    let r2 := set_queue r1 (head_offset r1)
                (AdvanceOffset (tail_offset r1) (producer_record_bytes p) (capacity_bytes r1))
                (wrap32 (used_bytes r1 + producer_record_bytes p))
                (wrap32 (queued_frames r1 + 1)) in
    let r3 := if sequence =? kU64Max then set_sequence r2 sequence 1
              else set_sequence r2 (sequence + 1) (sequence_exhausted r2) in
    (RingOk, ClearProducer r3, sequence).

Definition MessageRingPublishEnqueue (ring : option MessageRing) (reservation_id sequence_out : Z)
    : MessageRingStatus * option MessageRing * option Z :=
  let store (v : Z) := if sequence_out =? 0 then None else Some v in
  if negb (sequence_out =? 0) && negb (PointerRangeIsValid sequence_out sizeof_u64)
  then (RingInvalidArgument, ring, None)
  else
    match ring with
    | None => (RingInvalidArgument, None, store 0)
    | Some r =>
        if RangesOverlap sequence_out sizeof_u64 (ring_self r) sizeof_MessageRing
        then (AliasedBuffer, ring, None)
        else if negb (RingIsReady r) then (RingNotInitialized, ring, None)
        else if RangesOverlap sequence_out sizeof_u64 (storage r) (capacity_bytes r)
        then (AliasedBuffer, ring, None)
        else if reservation_id =? 0 then (RingInvalidArgument, ring, store 0)
        else
          let '(status, r', sequence) := PublishEnqueue_locked r reservation_id in
          (status, Some r', store sequence)
    end.

Definition MessageRingAbortEnqueue (ring : option MessageRing) (reservation_id : Z)
    : MessageRingStatus * option MessageRing :=
  match ring with
  | None => (RingInvalidArgument, None)
  | Some r =>
      let p := producer r in
      if reservation_id =? 0 then (RingInvalidArgument, ring)
      else if negb (RingIsReady r) then (RingNotInitialized, ring)
      else if negb (StateIsValid r) then (RingCorruptState, ring)
      else if negb (producer_reservation_id p =? reservation_id) then (StaleReservation, ring)
      else if negb (producer_copy_active p =? 0)
      then (RingOk, Some (set_producer r
                            (MkProducer (producer_reservation_id p) (producer_tail_offset p)
                               (producer_record_bytes p) (producer_frame_size p)
                               (producer_copy_active p) 1)))
      else (RingOk, Some (ClearProducer r))
  end.

Definition MessageRingEnqueue (ring : option MessageRing) (frame : Buffer) (frame_bytes : Z)
    (payload_rules : RuleTable) (payload_rule_count : Z) (local_view local_sequence : Z)
    : MessageRingEnqueueResult * option MessageRing :=
  let '(result, ring1) :=
    MessageRingPrepareEnqueue ring frame frame_bytes payload_rules payload_rule_count local_view in
  match enq_status result with
  | RingOk =>
      let '(status, ring2, stored) :=
        MessageRingPublishEnqueue ring1 (enq_reservation_id result) local_sequence in
      let with_sequence (q : Z) :=
        MkEnqueueResult status (enq_reservation_id result) q (enq_message_error result)
          (enq_payload_error result) in
      match status with
      | RingOk => (with_sequence (default 0 stored), ring2)
      | _ => (with_sequence (enq_sequence result),
              snd (MessageRingAbortEnqueue ring2 (enq_reservation_id result)))
      end
  | _ => (result, ring1)
  end.

(** The preflight that [Peek], [BeginCopyOut] and [Inspect] share: an output
    object of [bytes] bytes that must be valid and alias nothing. *)
Definition output_preflight (ring : option MessageRing) (out bytes : Z) (arguments_ok : bool)
    : MessageRingStatus + MessageRing :=
  if negb (out =? 0) && negb (PointerRangeIsValid out bytes) then inl RingInvalidArgument
  else
    match ring with
    | None => inl RingInvalidArgument
    | Some r =>
        if RangesOverlap out bytes (ring_self r) sizeof_MessageRing then inl AliasedBuffer
        else if negb arguments_ok || (out =? 0) then inl RingInvalidArgument
        else if negb (RingIsReady r) then inl RingNotInitialized
        else if RangesOverlap out bytes (storage r) (capacity_bytes r) then inl AliasedBuffer
        else inr r
    end.

Definition zero_peek_view : MessageRingPeekView := MkPeekView 0 0 0.

Definition MessageRingPeek (ring : option MessageRing) (view_out : Z)
    : MessageRingStatus * option MessageRing * option MessageRingPeekView :=
  match output_preflight ring view_out sizeof_MessageRingPeekView true with
  | inl status => (status, ring, None)
  | inr r =>
      if negb (StateIsValid r) then (RingCorruptState, ring, Some zero_peek_view)
      else if negb (receive_sequence (receiver r) =? 0) then (RingBusy, ring, Some zero_peek_view)
      else if queued_frames r =? 0 then (RingEmpty, ring, Some zero_peek_view)
      else if negb (receive_lease_exhausted r =? 0)
      then (ReceiveLeaseExhausted, ring, Some zero_peek_view)
      else
        match ReadHeadRecord r with
        | None => (RingCorruptState, ring, Some zero_peek_view)
        | Some record =>
            let lease := next_receive_lease_id r in
            let r1 := if lease =? kU64Max then set_lease r lease 1
                      else set_lease r (lease + 1) (receive_lease_exhausted r) in
            let r2 := set_receiver r1
                        (MkReceiver (head_sequence record) lease (head_frame_size record) 0 0) in
            (RingOk, Some r2,
             Some (MkPeekView (head_sequence record) lease (head_frame_size record)))
        end
  end.

Definition zero_spans : MessageRingCopySpans := MkSpans 0 0 None 0 0.

Definition head_matches (r : MessageRing) (sequence : Z) : option HeadRecord :=
  match ReadHeadRecord r with
  | Some record =>
      if negb (head_sequence record =? sequence)
         || negb (head_frame_size record =? receive_frame_size (receiver r))
      then None
      else Some record
  | None => None
  end.

Definition MessageRingBeginCopyOut (ring : option MessageRing) (sequence lease spans_out : Z)
    : MessageRingStatus * option MessageRing * option MessageRingCopySpans :=
  match output_preflight ring spans_out sizeof_MessageRingCopySpans
          (negb (sequence =? 0) && negb (lease =? 0)) with
  | inl status => (status, ring, None)
  | inr r =>
      let v := receiver r in
      if negb (StateIsValid r) then (RingCorruptState, ring, Some zero_spans)
      else if negb (receive_sequence v =? sequence) then (StaleSequence, ring, Some zero_spans)
      else if negb (receive_lease_id v =? lease) then (StaleReceiveLease, ring, Some zero_spans)
      else if negb (receive_copy_id v =? 0) then (RingBusy, ring, Some zero_spans)
      else if negb (copy_id_exhausted r =? 0) then (CopyIdExhausted, ring, Some zero_spans)
      else
        match head_matches r sequence with
        | None => (RingCorruptState, ring, Some zero_spans)
        | Some record =>
            let frame_offset :=
              AdvanceOffset (head_offset r) kMessageRingRecordHeaderBytes (capacity_bytes r) in
            let contiguous := wrap32 (capacity_bytes r - frame_offset) in
            let first_size := if head_frame_size record <? contiguous
                              then head_frame_size record else contiguous in
            let second_size := wrap32 (head_frame_size record - first_size) in
            let copy_id := next_copy_id r in
            let r1 := if copy_id =? kU64Max then set_copy r copy_id 1
                      else set_copy r (copy_id + 1) (copy_id_exhausted r) in
            let r2 := set_receiver r1
                        (MkReceiver (receive_sequence v) (receive_lease_id v)
                           (receive_frame_size v) copy_id 0) in
            (RingOk, Some r2,
             Some (MkSpans frame_offset first_size
                     (if second_size =? 0 then None else Some 0) second_size copy_id))
        end
  end.

Definition MessageRingEndCopyOut (ring : option MessageRing) (sequence lease copy_id : Z)
    (succeeded : bool) : MessageRingStatus * option MessageRing :=
  match ring with
  | None => (RingInvalidArgument, None)
  | Some r =>
      let v := receiver r in
      if (sequence =? 0) || (lease =? 0) || (copy_id =? 0) then (RingInvalidArgument, ring)
      else if negb (RingIsReady r) then (RingNotInitialized, ring)
      else if negb (StateIsValid r) then (RingCorruptState, ring)
      else if negb (receive_sequence v =? sequence) then (StaleSequence, ring)
      else if negb (receive_lease_id v =? lease) then (StaleReceiveLease, ring)
      else if receive_copy_id v =? 0 then (CopyNotActive, ring)
      else if negb (receive_copy_id v =? copy_id) then (StaleCopyAttempt, ring)
      else (RingOk, Some (set_receiver r
              (MkReceiver (receive_sequence v) (receive_lease_id v) (receive_frame_size v) 0
                 (if succeeded then copy_id else 0))))
  end.

(** The bytes a span pair denotes in the storage. *)
Definition read_spans (r : MessageRing) (spans : MessageRingCopySpans) : list Z :=
  take (Z.to_nat (span_first_size spans)) (drop (Z.to_nat (span_first spans)) (data r))
  ++ match span_second spans with
     | Some off => take (Z.to_nat (span_second_size spans)) (drop (Z.to_nat off) (data r))
     | None => []
     end.

(** [MessageRingCopyOut]: the destination is disjoint from ring and storage
    (checked), so its bytes are returned apart. *)
Definition MessageRingCopyOut (ring : option MessageRing) (sequence lease : Z)
    (destination : Buffer) (destination_bytes copied_bytes_out local_spans : Z)
    : MessageRingStatus * option MessageRing * list Z * option Z :=
  let dst := buf_bytes destination in
  let addr := buf_addr destination in
  let store (v : Z) := if copied_bytes_out =? 0 then None else Some v in
  if negb (copied_bytes_out =? 0) && negb (PointerRangeIsValid copied_bytes_out sizeof_u32)
  then (RingInvalidArgument, ring, dst, None)
  else
    match ring with
    | None => (RingInvalidArgument, None, dst, store 0)
    | Some r =>
        if RangesOverlap copied_bytes_out sizeof_u32 (ring_self r) sizeof_MessageRing
        then (AliasedBuffer, ring, dst, None)
        else if negb (RingIsReady r) then (RingNotInitialized, ring, dst, None)
        else if RangesOverlap addr destination_bytes (storage r) (capacity_bytes r)
                || RangesOverlap addr destination_bytes (ring_self r) sizeof_MessageRing
        then (AliasedBuffer, ring, dst, None)
        else if RangesOverlap copied_bytes_out sizeof_u32 (storage r) (capacity_bytes r)
        then (AliasedBuffer, ring, dst, None)
        else if (sequence =? 0) || (lease =? 0) || (addr =? 0)
                || negb (PointerRangeIsValid addr destination_bytes)
        then (RingInvalidArgument, ring, dst, store 0)
        else if RangesOverlap copied_bytes_out sizeof_u32 addr destination_bytes
        then (AliasedBuffer, ring, dst, None)
        else
          let '(status, ring1, out) := MessageRingBeginCopyOut ring sequence lease local_spans in
          match status, ring1 with
          | RingOk, Some r1 =>
              let spans := default zero_spans out in
              let required := wrap32 (span_first_size spans + span_second_size spans) in
              if destination_bytes <? required
              then (BufferTooSmall,
                    snd (MessageRingEndCopyOut ring1 sequence lease (span_copy_id spans) false),
                    dst, store 0)
              else
                let dst' := list_inserts 0 (read_spans r1 spans) dst in
                let '(status', ring2) :=
                  MessageRingEndCopyOut ring1 sequence lease (span_copy_id spans) true in
                (status', ring2, dst', store (match status' with RingOk => required | _ => 0 end))
          | _, _ => (status, ring1, dst, store 0)
          end
    end.

Definition MessageRingCommit (ring : option MessageRing) (sequence lease : Z)
    : MessageRingStatus * option MessageRing :=
  match ring with
  | None => (RingInvalidArgument, None)
  | Some r =>
      let v := receiver r in
      if (sequence =? 0) || (lease =? 0) then (RingInvalidArgument, ring)
      else if negb (RingIsReady r) then (RingNotInitialized, ring)
      else if negb (StateIsValid r) then (RingCorruptState, ring)
      else if negb (receive_sequence v =? sequence) then (StaleSequence, ring)
      else if negb (receive_lease_id v =? lease) then (StaleReceiveLease, ring)
      else if negb (receive_copy_id v =? 0) then (RingBusy, ring)
      else if receive_copy_succeeded_id v =? 0 then (CopyRequired, ring)
      else
        match head_matches r sequence with
        | None => (RingCorruptState, ring)
        | Some record =>
            let head := AdvanceOffset (head_offset r) (head_record_size record)
                          (capacity_bytes r) in
            let used := wrap32 (used_bytes r - head_record_size record) in
            let queued := wrap32 (queued_frames r - 1) in
            let head := if queued =? 0 then tail_offset r else head in
            (RingOk, Some (ClearReceiver (set_queue r head (tail_offset r) used queued)))
        end
  end.

Definition MessageRingCancelReceive (ring : option MessageRing) (sequence lease : Z)
    : MessageRingStatus * option MessageRing :=
  match ring with
  | None => (RingInvalidArgument, None)
  | Some r =>
      let v := receiver r in
      if (sequence =? 0) || (lease =? 0) then (RingInvalidArgument, ring)
      else if negb (RingIsReady r) then (RingNotInitialized, ring)
      else if negb (StateIsValid r) then (RingCorruptState, ring)
      else if negb (receive_sequence v =? sequence) then (StaleSequence, ring)
      else if negb (receive_lease_id v =? lease) then (StaleReceiveLease, ring)
      else if negb (receive_copy_id v =? 0) then (RingBusy, ring)
      else (RingOk, Some (ClearReceiver r))
  end.

Definition zero_snapshot : MessageRingSnapshot :=
  MkSnapshot 0 0 0 0 0 0 0 false false false false false false false false.

Definition MessageRingInspect (ring : option MessageRing) (snapshot_out : Z)
    : MessageRingStatus * option MessageRingSnapshot :=
  match output_preflight ring snapshot_out sizeof_MessageRingSnapshot true with
  | inl status => (status, None)
  | inr r =>
      if negb (StateIsValid r) then (RingCorruptState, Some zero_snapshot)
      else
        let p := producer r in
        let v := receiver r in
        (RingOk, Some (MkSnapshot (capacity_bytes r) (used_bytes r)
          (wrap32 (capacity_bytes r - used_bytes r)) (queued_frames r) (next_sequence r)
          (producer_reservation_id p) (receive_sequence v)
          (negb (producer_copy_active p =? 0)) (negb (producer_abort_requested p =? 0))
          (negb (receive_copy_id v =? 0)) (negb (receive_copy_succeeded_id v =? 0))
          (negb (sequence_exhausted r =? 0)) (negb (reservation_exhausted r =? 0))
          (negb (receive_lease_exhausted r =? 0)) (negb (copy_id_exhausted r =? 0))))
  end.
