(* ===== verification/MessageRingRep.v ===== *)
(** * The message ring as a queue of records

    The representation of a ring: its circular storage is read and written
    by position, the occupied part is the concatenation of the queued
    records, and every critical section of [MessageRing] has its effect on
    that queue. *)

From S2P Require Import Prelude Bytes MessageAbi VersionedPayload MessageRing.

(** ** Circular reads and writes

    [rread d off n] are the [n] bytes of the circular storage [d] from
    offset [off] on. *)

Definition cell (d : list Z) (off i : nat) : Z := byte_at d ((off + i) mod length d).
Definition rread (d : list Z) (off n : nat) : list Z := map (cell d off) (seq 0 n).

Lemma length_rread d off n : length (rread d off n) = n.
Proof. unfold rread. by rewrite length_map, length_seq. Qed.

Lemma lookup_rread d off n i : (i < n)%nat -> rread d off n !! i = Some (cell d off i).
Proof.
  intros Hi. unfold rread. rewrite list_lookup_fmap, lookup_seq_lt by done. done.
Qed.

Lemma rread_eq d off n (l : list Z) :
  length l = n -> (forall i, (i < n)%nat -> cell d off i = byte_at l i) -> rread d off n = l.
Proof.
  intros Hl H. apply list_eq_same_length with n; rewrite ?length_rread; [done..|].
  intros i x y Hi Hx Hy. rewrite lookup_rread in Hx by done. simplify_eq.
  rewrite H by done. unfold byte_at. by rewrite (nth_lookup_Some _ _ _ _ Hy).
Qed.

Lemma rread_app d off n m :
  rread d off (n + m) = rread d off n ++ rread d (off + n) m.
Proof.
  unfold rread. rewrite seq_app, map_app. f_equal.
  rewrite Nat.add_0_l. replace n with (n + 0)%nat at 1 by lia. rewrite <- fmap_add_seq.
  rewrite <- list_fmap_compose. apply list_fmap_ext. intros i j Hj. unfold compose, cell.
  f_equal. f_equal. lia.
Qed.

Lemma cell_mod d off k : (0 < length d)%nat -> cell d (off mod length d) k = cell d off k.
Proof. intros H. unfold cell. by rewrite Nat.Div0.add_mod_idemp_l. Qed.

Lemma rread_mod d off n : (0 < length d)%nat -> rread d (off mod length d) n = rread d off n.
Proof. intros H. apply list_fmap_ext. intros i j _. by apply cell_mod. Qed.

Lemma byte_at_take (l : list Z) n i : (i < n)%nat -> byte_at (take n l) i = byte_at l i.
Proof.
  intros Hi. unfold byte_at. rewrite nth_firstn. by rewrite (proj2 (Nat.ltb_lt i n) Hi).
Qed.

Lemma byte_at_drop (l : list Z) n i : byte_at (drop n l) i = byte_at l (n + i).
Proof. apply nth_skipn. Qed.

Lemma byte_at_app (l k : list Z) i :
  byte_at (l ++ k) i =
  if decide (i < length l)%nat then byte_at l i else byte_at k (i - length l).
Proof.
  unfold byte_at. destruct (decide _); [by apply app_nth1|]. apply app_nth2. lia.
Qed.

(** One chunk of the copy loops. *)
Lemma byte_at_inserts d off (src : list Z) j :
  (off + length src <= length d)%nat -> (j < length d)%nat ->
  byte_at (list_inserts off src d) j =
  if decide (off <= j < off + length src)%nat then byte_at src (j - off) else byte_at d j.
Proof.
  intros Ho Hj. unfold byte_at. destruct (decide _) as [Hd|Hd].
  - destruct (lookup_lt_is_Some_2 src (j - off)) as [x Hx]; [lia|].
    rewrite (nth_lookup_Some _ _ _ _ Hx). apply nth_lookup_Some.
    rewrite list_lookup_inserts by lia. done.
  - destruct (lookup_lt_is_Some_2 d j) as [x Hx]; [lia|].
    rewrite (nth_lookup_Some _ _ _ _ Hx). apply nth_lookup_Some.
    destruct (decide (j < off)%nat).
    + by rewrite list_lookup_inserts_lt by lia.
    + by rewrite list_lookup_inserts_ge by lia.
Qed.

(** The loops in closed form: one chunk, or two when the range wraps. *)
Lemma copy_into_nil fuel cap d off : copy_into fuel cap d off [] = d.
Proof. by destruct fuel. Qed.

Lemma copy_into_closed fuel cap d off src :
  (off < cap)%nat -> (length src <= cap)%nat -> (length src <= fuel)%nat ->
  copy_into fuel cap d off src =
  list_inserts 0 (drop (cap - off) src) (list_inserts off (take (cap - off) src) d).
Proof.
  intros Ho Hl Hf. destruct src as [|x src]; [by rewrite copy_into_nil, drop_nil, take_nil|].
  destruct fuel as [|fuel]; [simpl in Hf; lia|]. unfold copy_into at 1. fold copy_into.
  set (s := x :: src) in *. clearbody s.
  destruct (decide (length s <= cap - off)%nat) as [Hfit|Hwrap].
  - rewrite Nat.min_l, !take_ge, !drop_ge, copy_into_nil by lia. done.
  - rewrite Nat.min_r by lia. destruct (drop (cap - off) s) as [|y t] eqn:Hd.
    { apply (f_equal length) in Hd. rewrite length_drop in Hd. simpl in Hd. lia. }
    assert (Hlen : length (y :: t) = (length s - (cap - off))%nat) by (rewrite <- Hd; apply length_drop).
    destruct fuel as [|fuel]; [simpl in *; lia|]. unfold copy_into. fold copy_into.
    rewrite Nat.sub_0_r, Nat.min_l by lia. rewrite take_ge, drop_ge, copy_into_nil by lia. done.
Qed.

Lemma copy_from_zero fuel cap d off : copy_from fuel cap d off 0 = [].
Proof. by destruct fuel. Qed.

Lemma copy_from_closed fuel cap d off n :
  (off < cap)%nat -> (n <= cap)%nat -> (n <= fuel)%nat ->
  copy_from fuel cap d off n =
  take (Nat.min n (cap - off)) (drop off d) ++ take (n - (cap - off)) d.
Proof.
  intros Ho Hl Hf. destruct n as [|n]; [by rewrite copy_from_zero|].
  destruct fuel as [|fuel]; [lia|]. unfold copy_from at 1. fold copy_from.
  set (m := S n) in *. f_equal.
  destruct (m - Nat.min m (cap - off))%nat as [|k] eqn:Hk.
  - rewrite copy_from_zero. by replace (m - (cap - off))%nat with O by lia.
  - destruct fuel as [|fuel]; [lia|]. unfold copy_from. fold copy_from.
    rewrite Nat.sub_0_r, Nat.min_l by lia. rewrite Nat.sub_diag, copy_from_zero, app_nil_r, drop_0.
    f_equal. lia.
Qed.

Lemma wrap_index off i cap :
  (off < cap)%nat -> (i < cap)%nat ->
  ((off + i) mod cap = if decide (off + i < cap) then off + i else off + i - cap)%nat.
Proof.
  intros Ho Hi. destruct (decide _).
  - by apply Nat.mod_small.
  - replace (off + i)%nat with (off + i - cap + 1 * cap)%nat at 1 by lia.
    rewrite Nat.Div0.mod_add. apply Nat.mod_small. lia.
Qed.

(** [copy_into] writes exactly the circular range. *)
Lemma copy_into_spec fuel d off src :
  (off < length d)%nat -> (length src <= length d)%nat -> (length src <= fuel)%nat ->
  let d' := copy_into fuel (length d) d off src in
  length d' = length d /\
  (forall i, (i < length src)%nat -> cell d' off i = byte_at src i) /\
  (forall i, (length src <= i < length d)%nat -> cell d' off i = cell d off i).
Proof.
  intros Ho Hl Hf. simpl. rewrite copy_into_closed by done.
  set (d1 := list_inserts off _ d).
  assert (Hd1 : length d1 = length d) by apply length_inserts.
  assert (H2 : (length (drop (length d - off) src) <= length d)%nat) by (rewrite length_drop; lia).
  assert (H1 : (off + length (take (length d - off) src) <= length d)%nat)
    by (rewrite length_take; lia).
  rewrite length_inserts. split; [done|].
  split; intros i Hi; unfold cell; rewrite ?length_inserts, ?Hd1, wrap_index by lia;
    (destruct (decide (off + i < length d)%nat); rewrite byte_at_inserts by lia;
     rewrite length_drop; destruct (decide _); try lia; unfold d1;
     rewrite ?byte_at_inserts by lia; rewrite ?length_take; try (destruct (decide _); try lia)).
  - rewrite byte_at_take by lia. f_equal. lia.
  - rewrite byte_at_drop. f_equal. lia.
Qed.

(** [copy_from] reads the circular range. *)
Lemma copy_from_rread fuel d off n :
  (off < length d)%nat -> (n <= length d)%nat -> (n <= fuel)%nat ->
  copy_from fuel (length d) d off n = rread d off n.
Proof.
  intros Ho Hn Hf. rewrite copy_from_closed by done. symmetry.
  assert (Hl : length (take (Nat.min n (length d - off)) (drop off d)) = Nat.min n (length d - off))
    by (rewrite length_take, length_drop; lia).
  apply rread_eq.
  { rewrite length_app, Hl, length_take. lia. }
  intros i Hi. unfold cell. rewrite wrap_index by lia.
  rewrite byte_at_app, Hl. destruct (decide (off + i < length d)%nat), (decide (i < _)%nat); try lia.
  - rewrite byte_at_take, byte_at_drop by lia. done.
  - rewrite byte_at_take by lia. f_equal. lia.
Qed.

(** A write leaves every disjoint circular range as it was. *)
Lemma rread_write_disjoint fuel d off src k n :
  (off < length d)%nat -> (length src <= k)%nat -> (k + n <= length d)%nat ->
  (length src <= fuel)%nat ->
  rread (copy_into fuel (length d) d off src) (off + k) n = rread d (off + k) n.
Proof.
  intros Ho Hk Hn Hf.
  destruct (copy_into_spec fuel d off src) as (Hl & _ & Hout); [lia..|].
  apply rread_eq; [apply length_rread|]. intros i Hi.
  unfold byte_at at 1. rewrite (nth_lookup_Some _ _ _ _ (lookup_rread d (off + k) n i Hi)).
  specialize (Hout (k + i)%nat). unfold cell in *. rewrite Hl in *.
  rewrite <- !Nat.add_assoc. apply Hout. lia.
Qed.

Lemma rread_write_same fuel d off src :
  (off < length d)%nat -> (length src <= length d)%nat -> (length src <= fuel)%nat ->
  rread (copy_into fuel (length d) d off src) off (length src) = src.
Proof.
  intros Ho Hl Hf. destruct (copy_into_spec fuel d off src) as (_ & Hin & _); [done..|].
  by apply rread_eq.
Qed.

Lemma rread_take d off n m : (n <= m)%nat -> rread d off n = take n (rread d off m).
Proof.
  intros H. replace m with (n + (m - n))%nat by lia. rewrite rread_app.
  rewrite take_app_le by (rewrite length_rread; lia). by rewrite take_ge by (rewrite length_rread; lia).
Qed.

(** ** Records *)

Notation entry := (Z * list Z)%type.

Definition record_of (e : entry) : list Z :=
  record_header e.1 (Z.of_nat (length e.2)) ++ e.2.

Definition queue_bytes (q : list entry) : list Z := concat (map record_of q).

Lemma length_record_header s n : length (record_header s n) = 16%nat.
Proof. reflexivity. Qed.

Lemma length_record_of e : length (record_of e) = (16 + length e.2)%nat.
Proof. unfold record_of. by rewrite length_app, length_record_header. Qed.

Lemma queue_bytes_cons e q : queue_bytes (e :: q) = record_of e ++ queue_bytes q.
Proof. done. Qed.

Lemma queue_bytes_snoc q e : queue_bytes (q ++ [e]) = queue_bytes q ++ record_of e.
Proof. unfold queue_bytes. rewrite map_app, concat_app. simpl. by rewrite app_nil_r. Qed.

#[local] Arguments Z.lor : simpl never.
#[local] Arguments Z.land : simpl never.
#[local] Arguments Z.shiftl : simpl never.
#[local] Arguments Z.shiftr : simpl never.
#[local] Arguments Z.to_nat : simpl nomatch.

Lemma record_header_read s n :
  is_u64 s -> is_u32 n ->
  ReadLe64 (record_header s n) 0 = s /\ ReadLe32 (record_header s n) 8 = n /\
  ReadLe32 (record_header s n) 12 = 0.
Proof.
  intros Hs Hn. destruct (split64 s Hs) as (Hlo & Hhi & Hjoin).
  unfold ReadLe64, ReadLe32, byte_at.
  split_and!; cbv -[Z.land Z.lor Z.shiftl Z.shiftr]; rewrite ?read_write32 by done; try done.
Qed.

(** [skip_guards]: every remaining guard is false by arithmetic. *)
Ltac skip_guards :=
  repeat match goal with
         | |- context [if ?b then _ else _] => replace b with false by lia
         end.

(** ** The ring as a queue *)

Definition ring_next (r : MessageRing) : Z :=
  if sequence_exhausted r =? 0 then next_sequence r else next_sequence r + 1.

Definition entry_ok (e : entry) : Prop := 32 <= Z.of_nat (length e.2) <= kMessageAbiMaxBytes.

Definition counter_ok (next exhausted : Z) : Prop :=
  1 <= next <= u64_max /\ (exhausted = 0 \/ exhausted = 1 /\ next = u64_max).

Definition receiver_ok (v : ReceiverState) (q : list entry) : Prop :=
  v = zero_receiver \/
  exists f q', q = (receive_sequence v, f) :: q' /\ receive_frame_size v = Z.of_nat (length f) /\
    1 <= receive_lease_id v /\ 0 <= receive_copy_id v /\ 0 <= receive_copy_succeeded_id v /\
    (receive_copy_id v = 0 \/ receive_copy_succeeded_id v = 0).

Definition producer_ok (r : MessageRing) : Prop :=
  let p := producer r in
  p = zero_producer \/
  1 <= producer_reservation_id p /\ producer_tail_offset p = tail_offset r /\
  producer_record_bytes p = 16 + producer_frame_size p /\
  32 <= producer_frame_size p <= kMessageAbiMaxBytes /\
  used_bytes r + producer_record_bytes p <= capacity_bytes r /\
  (producer_copy_active p = 1 /\
     (producer_abort_requested p = 0 \/ producer_abort_requested p = 1) \/
   producer_copy_active p = 0 /\ producer_abort_requested p = 0).

Record ring_rep (r : MessageRing) (q : list entry) : Prop := {
  rep_ready : initialized r = kRingStateReady;
  rep_storage : storage r <> 0;
  rep_cap : capacity_bytes r = Z.of_nat (length (data r));
  rep_cap_range : 48 <= capacity_bytes r <= u32_max;
  rep_head : 0 <= head_offset r < capacity_bytes r;
  rep_tail : tail_offset r = (head_offset r + used_bytes r) mod capacity_bytes r;
  rep_used : used_bytes r = Z.of_nat (length (queue_bytes q));
  rep_fits : used_bytes r <= capacity_bytes r;
  rep_queued : queued_frames r = Z.of_nat (length q);
  rep_data : rread (data r) (Z.to_nat (head_offset r)) (length (queue_bytes q)) = queue_bytes q;
  rep_entries : Forall entry_ok q;
  rep_order : forall i e, q !! i = Some e ->
    e.1 = ring_next r - Z.of_nat (length q) + Z.of_nat i;
  rep_first : 1 <= ring_next r - Z.of_nat (length q);
  rep_sequence : counter_ok (next_sequence r) (sequence_exhausted r);
  rep_reservation : counter_ok (next_reservation_id r) (reservation_exhausted r);
  rep_lease : counter_ok (next_receive_lease_id r) (receive_lease_exhausted r);
  rep_copy : counter_ok (next_copy_id r) (copy_id_exhausted r);
  rep_receiver : receiver_ok (receiver r) q;
  rep_producer : producer_ok r;
}.

Lemma AdvanceOffset_mod off bytes cap :
  0 <= off < cap -> cap <= u32_max -> 0 <= bytes <= cap ->
  AdvanceOffset off bytes cap = (off + bytes) mod cap.
Proof.
  intros Ho Hc Hb. unfold AdvanceOffset. rewrite (wrap32_small (cap - off)) by ulia.
  destruct (Z.ltb_spec bytes (cap - off)).
  { rewrite wrap32_small by ulia. symmetry. apply Z.mod_small. lia. }
  destruct (Z.eqb_spec bytes (cap - off)).
  { replace (off + bytes) with (1 * cap) by lia. by rewrite Z.mod_mul by lia. }
  replace (off + bytes) with (bytes - (cap - off) + 1 * cap) by lia.
  rewrite Z.mod_add by lia. symmetry. apply Z.mod_small. lia.
Qed.

Lemma queue_bytes_min q :
  Forall entry_ok q -> 48 * Z.of_nat (length q) <= Z.of_nat (length (queue_bytes q)).
Proof.
  induction 1 as [|e q He Hq IH]; [simpl; lia|].
  rewrite queue_bytes_cons, length_app, length_record_of. unfold entry_ok in He. simpl length. lia.
Qed.

Lemma StateIsValid_rep r q : ring_rep r q -> StateIsValid r = true.
Proof.
  intros [Hready Hst Hcap Hcr Hh Ht Hu Hf Hq Hd He Ho H1 Hs Hres Hl Hc Hrv Hp].
  pose proof (queue_bytes_min q He) as Hmin.
  pose proof (Z.mod_pos_bound (head_offset r + used_bytes r) (capacity_bytes r) ltac:(lia)) as Htb.
  rewrite <- Ht in Htb. rename Ht into Ht0.
  unfold counter_ok in *.
  assert (Hz : Bool.eqb (queued_frames r =? 0) (used_bytes r =? 0) = true).
  { rewrite Hq, Hu. destruct q; [done|]. simpl length in *.
    rewrite (proj2 (Z.eqb_neq (Z.of_nat (S _)) 0)) by lia. apply eqb_true_iff. lia. }
  assert (Hv : receiver r = zero_receiver \/
    receive_sequence (receiver r) <> 0 /\ (1 <= length q)%nat /\ receive_lease_id (receiver r) <> 0 /\
    32 <= receive_frame_size (receiver r) /\
    (receive_copy_id (receiver r) = 0 \/ receive_copy_succeeded_id (receiver r) = 0)).
  { destruct Hrv as [->|(f & q' & -> & -> & ? & ? & ? & ?)]; [by left|right].
    inversion He as [|? ? He1 _]; subst. unfold entry_ok in He1. simpl in *.
    pose proof (Ho O _ eq_refl) as Ho0. simpl in Ho0. split_and!; try lia; done. }
  unfold StateIsValid, kMessageRingMinimumStorageBytes, kMessageRingRecordHeaderBytes,
    kMessageAbiHeaderV1Bytes in *.
  rewrite (wrap32_small (capacity_bytes r - used_bytes r)), Hz by ulia.
  destruct Hl as [Hl1 Hl2], Hc as [Hc1 Hc2]. clear Hz Hd Ho He Hrv Hs Hres Hready H1 Hcap Ht0.
  destruct Hp as [->|(? & ? & ? & Hfs & ? & ?)].
  - destruct Hv as [->|Hv]; [|rewrite (proj2 (Z.eqb_neq (receive_sequence _) 0)) by lia];
      simpl; skip_guards; try done; lia.
  - unfold kMessageAbiMaxBytes in Hfs. rewrite (wrap32_small (16 + _)) by ulia.
    destruct Hv as [->|Hv]; [|rewrite (proj2 (Z.eqb_neq (receive_sequence _) 0)) by lia];
      simpl; skip_guards; try done; lia.
Qed.

(** ** Positions of the storage

    Positions are counted from the start of the storage without reduction;
    [hpos] is where the queue starts and [tpos] where it ends. *)

Definition hpos (r : MessageRing) : nat := Z.to_nat (head_offset r).
Definition tpos (r : MessageRing) : nat := (Z.to_nat (head_offset r) + Z.to_nat (used_bytes r))%nat.

Section Represented.
Context (r : MessageRing) (q : list entry) (H : ring_rep r q).

Lemma rep_cap_nat : Z.to_nat (capacity_bytes r) = length (data r).
Proof. rewrite (rep_cap _ _ H). lia. Qed.

Lemma rep_bounds :
  (48 <= length (data r))%nat /\ (hpos r < length (data r))%nat /\
  (Z.to_nat (used_bytes r) = length (queue_bytes q))%nat /\
  (length (queue_bytes q) <= length (data r))%nat /\
  Z.of_nat (length (data r)) <= u32_max.
Proof. destruct H. unfold hpos. split_and!; lia. Qed.

Lemma rep_tail_range : 0 <= tail_offset r < capacity_bytes r.
Proof. destruct H as [_ _ _ ? ? -> _]. apply Z.mod_pos_bound. lia. Qed.

Lemma rep_advance k :
  0 <= k <= capacity_bytes r ->
  Z.to_nat (AdvanceOffset (tail_offset r) k (capacity_bytes r)) =
  ((tpos r + Z.to_nat k) mod length (data r))%nat.
Proof.
  intros Hk. pose proof rep_tail_range. destruct H as [_ _ Hc ? ? Ht ? ? _].
  rewrite AdvanceOffset_mod, Ht, Z.add_mod_idemp_l by lia.
  rewrite Z2Nat.inj_mod, Hc by lia. unfold tpos.
  rewrite Nat2Z.id. f_equal. lia.
Qed.

Lemma rep_advance_head k :
  0 <= k <= capacity_bytes r ->
  Z.to_nat (AdvanceOffset (head_offset r) k (capacity_bytes r)) =
  ((hpos r + Z.to_nat k) mod length (data r))%nat.
Proof.
  intros Hk. destruct H as [_ _ Hc ? ? _ ? ? _].
  rewrite AdvanceOffset_mod, Z2Nat.inj_mod, Hc by lia.
  unfold hpos. rewrite Nat2Z.id. f_equal. lia.
Qed.

Lemma rep_tail_nat : Z.to_nat (tail_offset r) = (tpos r mod length (data r))%nat.
Proof.
  destruct H as [_ _ Hc ? ? Ht ? ? _]. rewrite Ht, Z2Nat.inj_mod, Hc by lia.
  rewrite Nat2Z.id. unfold tpos. f_equal. lia.
Qed.

Lemma rep_sequence_bounds i e : q !! i = Some e -> 1 <= e.1 <= u64_max /\ e.1 < ring_next r.
Proof.
  intros Hi. pose proof (lookup_lt_Some _ _ _ Hi). destruct H as [].
  rewrite (rep_order0 _ _ Hi). revert rep_first0. unfold ring_next, counter_ok in *.
  destruct (Z.eqb_spec (sequence_exhausted r) 0); lia.
Qed.

Lemma rep_queue_prefix n :
  (n <= length (queue_bytes q))%nat -> rread (data r) (hpos r) n = take n (queue_bytes q).
Proof. intros Hn. rewrite (rread_take _ _ _ _ Hn). f_equal. apply (rep_data _ _ H). Qed.
End Represented.

(** A write at [k] bytes past the tail into free space: the queue and the
    other free bytes stay, the range holds the source. *)
Lemma rread_write_at fuel d off src base n K :
  (off < length d)%nat -> (base mod length d = (off + K) mod length d)%nat ->
  (length src <= K)%nat -> (K + n <= length d)%nat -> (length src <= fuel)%nat ->
  rread (copy_into fuel (length d) d off src) base n = rread d base n.
Proof.
  intros Ho Hb Hk Hn Hf.
  destruct (copy_into_spec fuel d off src) as (Hl & _ & _); [lia..|].
  rewrite <- (rread_mod d base), <- (rread_mod _ base), Hl, Hb by lia.
  rewrite <- Hl at 2. rewrite !rread_mod by lia. by apply rread_write_disjoint.
Qed.

Lemma mod_shift a b K L :
  (b + K = a + L)%nat \/ (b + K = a)%nat -> (0 < L)%nat ->
  (a mod L = (b mod L + K) mod L)%nat.
Proof.
  intros Hor HL. rewrite Nat.Div0.add_mod_idemp_l. destruct Hor as [-> | ->]; [|done].
  replace (a + L)%nat with (a + 1 * L)%nat by lia. by rewrite Nat.Div0.mod_add.
Qed.

Section Write.
Context (r : MessageRing) (q : list entry) (H : ring_rep r q).
Context (k : nat) (off : Z) (src : list Z).
Context (Hoff : Z.to_nat off = ((tpos r + k) mod length (data r))%nat).
Context (Hfits : (length (queue_bytes q) + k + length src <= length (data r))%nat).

Let r' := CopyIntoStorage r off src.

Lemma write_off : (Z.to_nat off < length (data r))%nat.
Proof. rewrite Hoff. apply Nat.mod_upper_bound. pose proof (rep_bounds r q H). lia. Qed.

Lemma write_data :
  data r' = copy_into (length src) (length (data r)) (data r) (Z.to_nat off) src.
Proof. unfold r', CopyIntoStorage. simpl. by rewrite (rep_cap_nat r q H). Qed.

Lemma write_length : length (data r') = length (data r).
Proof.
  rewrite write_data. pose proof write_off.
  destruct (copy_into_spec (length src) (data r) (Z.to_nat off) src); [lia..|done].
Qed.

Lemma write_keeps_queue n :
  (n <= length (queue_bytes q))%nat -> rread (data r') (hpos r) n = rread (data r) (hpos r) n.
Proof.
  intros Hn. rewrite write_data. pose proof (rep_bounds r q H) as (? & ? & Hu & ? & ?).
  apply (rread_write_at _ _ _ _ _ _ (length (data r) - length (queue_bytes q) - k)); try lia.
  - apply write_off.
  - rewrite Hoff. apply mod_shift; [|lia]. left. unfold tpos, hpos in *. lia.
Qed.

Lemma write_keeps_before j n :
  (j + n <= k)%nat -> rread (data r') (tpos r + j) n = rread (data r) (tpos r + j) n.
Proof.
  intros Hn. rewrite write_data. pose proof (rep_bounds r q H) as (? & ? & Hu & ? & ?).
  apply (rread_write_at _ _ _ _ _ _ (length (data r) - k + j)); try lia.
  - apply write_off.
  - rewrite Hoff. apply mod_shift; lia.
Qed.

Lemma write_keeps_after j n :
  (k + length src <= j)%nat -> (j + n <= length (data r))%nat ->
  rread (data r') (tpos r + j) n = rread (data r) (tpos r + j) n.
Proof.
  intros Hj Hn. rewrite write_data. pose proof (rep_bounds r q H) as (? & ? & Hu & ? & ?).
  apply (rread_write_at _ _ _ _ _ _ (j - k)); try lia.
  - apply write_off.
  - rewrite Hoff. apply mod_shift; lia.
Qed.

Lemma write_holds_source : rread (data r') (tpos r + k) (length src) = src.
Proof.
  pose proof (rep_bounds r q H). pose proof write_off.
  rewrite <- rread_mod, write_length, <- Hoff by (rewrite write_length; lia).
  rewrite write_data. apply rread_write_same; lia.
Qed.

Lemma write_rep : ring_rep r' q.
Proof.
  pose proof (write_keeps_queue (length (queue_bytes q)) ltac:(lia)) as Hk.
  pose proof write_length as Hl. destruct H as []. unfold hpos in *.
  constructor; simpl; try done.
  - etrans; [exact rep_cap0|]. exact (f_equal Z.of_nat (eq_sym Hl)).
  - etrans; [exact Hk|done].
Qed.
End Write.

(** ** The head record *)

Lemma rep_head_len r s f q :
  ring_rep r ((s, f) :: q) ->
  32 <= Z.of_nat (length f) <= kMessageAbiMaxBytes /\
  length (queue_bytes ((s, f) :: q)) = (16 + length f + length (queue_bytes q))%nat.
Proof.
  intros H. pose proof (rep_entries _ _ H) as He. inversion He as [|? ? He1 _]; subst.
  split; [done|]. rewrite queue_bytes_cons, length_app, length_record_of. done.
Qed.

Lemma ReadHeadRecord_rep r s f q :
  ring_rep r ((s, f) :: q) ->
  ReadHeadRecord r =
  Some (MkHead s (Z.of_nat (length f)) (16 + Z.of_nat (length f))).
Proof.
  intros H. pose proof (rep_head_len _ _ _ _ H) as [Hf Hl].
  pose proof (rep_bounds _ _ H) as (? & ? & Hu & Hle & ?).
  pose proof (rep_sequence_bounds _ _ H O _ eq_refl) as [Hs _]. simpl in Hs.
  unfold kMessageAbiMaxBytes in *.
  unfold ReadHeadRecord, CopyFromStorage, kMessageRingRecordHeaderBytes, kRecordSequenceOffset,
    kRecordFrameSizeOffset, kRecordReservedOffset, kMessageAbiHeaderV1Bytes, kMessageAbiMaxBytes.
  rewrite (rep_cap_nat _ _ H). fold (hpos r). rewrite copy_from_rread by lia.
  change (Z.to_nat 16) with 16%nat.
  rewrite (rep_queue_prefix _ _ H) by lia. rewrite queue_bytes_cons.
  unfold record_of. rewrite <- app_assoc, take_app_le, take_ge by (rewrite length_record_header; lia).
  simpl fst. simpl snd.
  destruct (record_header_read s (Z.of_nat (length f))) as (-> & -> & ->); [ulia..|].
  pose proof (rep_queued _ _ H) as Hqn. simpl length in Hqn.
  pose proof (rep_cap _ _ H). skip_guards. done.
Qed.

Lemma rep_head_frame r s f q :
  ring_rep r ((s, f) :: q) -> rread (data r) (hpos r + 16) (length f) = f.
Proof.
  intros H. pose proof (rep_head_len _ _ _ _ H) as [Hf Hl].
  pose proof (rep_queue_prefix _ _ H (16 + length f) ltac:(lia)) as Hp.
  rewrite queue_bytes_cons in Hp. rewrite take_app_le in Hp by (rewrite length_record_of; simpl; lia).
  rewrite take_ge, rread_app in Hp by (rewrite length_record_of; simpl; lia).
  apply app_inj_1 in Hp as [_ Hp]; [done|]. by rewrite length_rread.
Qed.

Lemma head_matches_rep r f q :
  ring_rep r ((receive_sequence (receiver r), f) :: q) ->
  receive_frame_size (receiver r) = Z.of_nat (length f) ->
  head_matches r (receive_sequence (receiver r)) =
  Some (MkHead (receive_sequence (receiver r)) (Z.of_nat (length f)) (16 + Z.of_nat (length f))).
Proof.
  intros H Hf. unfold head_matches. rewrite (ReadHeadRecord_rep _ _ _ _ H). simpl.
  by rewrite Hf, !Z.eqb_refl.
Qed.

(** ** Updates that leave the queue alone *)

Section Updates.
Context (r : MessageRing) (q : list entry) (H : ring_rep r q).

Lemma set_producer_rep p : producer_ok (set_producer r p) -> ring_rep (set_producer r p) q.
Proof. intros Hp. destruct H. by constructor. Qed.

Lemma set_receiver_rep v : receiver_ok v q -> ring_rep (set_receiver r v) q.
Proof. intros Hp. destruct H. by constructor. Qed.

Lemma set_reservation_rep n e : counter_ok n e -> ring_rep (set_reservation r n e) q.
Proof. intros Hp. destruct H. by constructor. Qed.

Lemma set_lease_rep n e : counter_ok n e -> ring_rep (set_lease r n e) q.
Proof. intros Hp. destruct H. by constructor. Qed.

Lemma set_copy_rep n e : counter_ok n e -> ring_rep (set_copy r n e) q.
Proof. intros Hp. destruct H. by constructor. Qed.

Lemma ClearProducer_rep : ring_rep (ClearProducer r) q.
Proof. apply set_producer_rep. by left. Qed.

Lemma ClearReceiver_rep : ring_rep (ClearReceiver r) q.
Proof. apply set_receiver_rep. by left. Qed.
End Updates.

#[export] Hint Resolve set_producer_rep set_receiver_rep set_reservation_rep set_lease_rep
  set_copy_rep ClearProducer_rep ClearReceiver_rep : duet.

(** Counters step by one and record their exhaustion. *)
Lemma counter_ok_next n e :
  counter_ok n e -> e = 0 -> n <> kU64Max -> counter_ok (n + 1) e.
Proof. unfold counter_ok, kU64Max. intros. lia. Qed.

Lemma counter_ok_last n e : counter_ok n e -> n = kU64Max -> counter_ok n 1.
Proof. unfold counter_ok, kU64Max. intros. lia. Qed.

#[export] Hint Resolve counter_ok_next counter_ok_last : duet.

(** ** Producer critical sections *)

(** Same queue, same bytes, same receiver. *)
Record same_queue (r r' : MessageRing) : Prop := {
  same_data : data r' = data r;
  same_head : head_offset r' = head_offset r;
  same_tail : tail_offset r' = tail_offset r;
  same_used : used_bytes r' = used_bytes r;
  same_cap : capacity_bytes r' = capacity_bytes r;
  same_next : ring_next r' = ring_next r;
}.

Lemma reserve_rep r q n res r' :
  ring_rep r q -> 32 <= n <= kMessageAbiMaxBytes ->
  PrepareEnqueue_reserve r n = (res, r') ->
  match res with
  | inl st => r' = r /\ st <> RingCorruptState /\ st <> RingOk
  | inr call =>
      producer r = zero_producer /\ ring_rep r' q /\ same_queue r r' /\ receiver r' = receiver r /\
      1 <= call_reservation_id call /\
      producer r' = MkProducer (call_reservation_id call) (tail_offset r) (16 + n) n 1 0 /\
      call_frame_offset call = AdvanceOffset (tail_offset r) 16 (capacity_bytes r) /\
      used_bytes r + (16 + n) <= capacity_bytes r
  end.
Proof.
  intros H Hn. unfold PrepareEnqueue_reserve, kMessageRingRecordHeaderBytes.
  rewrite (StateIsValid_rep _ _ H). cbn [negb].
  pose proof (rep_fits _ _ H). pose proof (rep_cap_range _ _ H). pose proof (rep_used _ _ H).
  unfold kMessageAbiMaxBytes in Hn.
  rewrite (wrap32_small (16 + n)), (wrap32_small (_ - _)) by ulia.
  destruct (Z.eqb_spec (producer_reservation_id (producer r)) 0) as [Hid|]; cbn [negb];
    [|by intros [= <- <-]].
  destruct (Z.eqb_spec (reservation_exhausted r) 0); cbn [negb]; [|by intros [= <- <-]].
  destruct (Z.eqb_spec (sequence_exhausted r) 0); cbn [negb]; [|by intros [= <- <-]].
  destruct (Z.ltb_spec (capacity_bytes r - used_bytes r) (16 + n)); [by intros [= <- <-]|].
  intros [= <- <-]. simpl.
  assert (Hp : producer r = zero_producer).
  { destruct (rep_producer _ _ H) as [|(? & _)]; [done|lia]. }
  pose proof (rep_reservation _ _ H) as Hc.
  set (r1 := if next_reservation_id r =? kU64Max then _ else _).
  assert (Hr1 : ring_rep r1 q) by (unfold r1; destruct (Z.eqb_spec (next_reservation_id r) kU64Max);
    eauto with duet).
  assert (Hs : same_queue r r1 /\ receiver r1 = receiver r)
    by (unfold r1; destruct (_ =? _); split; [constructor| |constructor|]; done).
  destruct Hs as [Hs Hv]. assert (Ht : tail_offset r1 = tail_offset r) by apply Hs.
  split_and!; try done.
  - apply set_producer_rep; [done|]. right. simpl. destruct Hs as []. unfold kMessageAbiMaxBytes.
    rewrite same_used0, same_cap0. destruct Hc. split_and!; try lia; done.
  - destruct Hs. by constructor.
  - by destruct Hc as [[? ?] _].
  - by rewrite Ht.
  - lia.
Qed.

Definition copy_done (p : ProducerState) : ProducerState :=
  MkProducer (producer_reservation_id p) (producer_tail_offset p) (producer_record_bytes p)
    (producer_frame_size p) 0 (producer_abort_requested p).

Lemma finish_rep r q :
  ring_rep r q -> producer_copy_active (producer r) <> 0 ->
  PrepareEnqueue_finish r (producer_reservation_id (producer r)) =
    (if producer_abort_requested (producer r) =? 0
     then (RingOk, set_producer r (copy_done (producer r)))
     else (ProducerAborted, ClearProducer r)) /\
  ring_rep (snd (PrepareEnqueue_finish r (producer_reservation_id (producer r)))) q.
Proof.
  intros H Ha. unfold PrepareEnqueue_finish. rewrite (StateIsValid_rep _ _ H), Z.eqb_refl.
  rewrite (proj2 (Z.eqb_neq _ 0) Ha). cbn [negb orb].
  destruct (Z.eqb_spec (producer_abort_requested (producer r)) 0) as [Hz|]; cbn [negb].
  - split; [done|]. simpl. apply set_producer_rep; [done|].
    destruct (rep_producer _ _ H) as [Hp|(? & ? & ? & ? & ? & ?)].
    { by rewrite Hp in Ha. }
    right. simpl. split_and!; try done; lia.
  - split; [done|]. simpl. by apply ClearProducer_rep.
Qed.

Lemma receiver_ok_snoc v q e : receiver_ok v q -> receiver_ok v (q ++ [e]).
Proof.
  intros [->|(f & q' & -> & ?)]; [by left|]. right. by exists f, (q' ++ [e]).
Qed.

(** A ring whose free bytes after the tail already spell one more record. *)
Lemma push_rep r q f t u n ns se :
  let r' := ClearProducer (set_sequence (set_queue r (head_offset r) t u n) ns se) in
  ring_rep r q -> entry_ok (ring_next r, f) -> counter_ok ns se ->
  rread (data r) (hpos r) (length (queue_bytes q) + (16 + length f)) =
    queue_bytes (q ++ [(ring_next r, f)]) ->
  u = used_bytes r + (16 + Z.of_nat (length f)) -> u <= capacity_bytes r ->
  t = (head_offset r + u) mod capacity_bytes r -> n = queued_frames r + 1 ->
  ring_next r' = ring_next r + 1 ->
  ring_rep r' (q ++ [(ring_next r, f)]).
Proof.
  simpl. intros H Hf Hc Hb Hu Hfit Ht Hn Hnx.
  assert (Hqb : length (queue_bytes (q ++ [(ring_next r, f)])) =
                (length (queue_bytes q) + (16 + length f))%nat).
  { rewrite queue_bytes_snoc, length_app, length_record_of. done. }
  destruct H as [? ? ? ? ? ? Hused ? Hqn ? He Ho Hfirst ? ? ? ? Hv _].
  constructor; simpl; rewrite ?Hqb, ?length_app; try done; simpl length; try lia.
  - apply Forall_app. split; [done|]. by constructor.
  - intros i e Hi. rewrite Hnx. apply lookup_app_Some in Hi as [Hi|[Hge Hi]].
    + rewrite (Ho _ _ Hi). lia.
    + apply list_lookup_singleton_Some in Hi as [Hz <-]. simpl. lia.
  - by apply receiver_ok_snoc.
  - by left.
Qed.

(** The queue after a publication. *)
Section Publish.
Context (r : MessageRing) (q : list entry) (f : list Z) (H : ring_rep r q).
Context (Hid : producer r <> zero_producer).
Context (Hlen : producer_frame_size (producer r) = Z.of_nat (length f)).
Context (Hfr : rread (data r) (tpos r + 16) (length f) = f).
Context (Hseq : sequence_exhausted r = 0).

Let header := record_header (next_sequence r) (producer_frame_size (producer r)).
Let r1 := CopyIntoStorage r (producer_tail_offset (producer r)) header.

Lemma publish_fits :
  producer_tail_offset (producer r) = tail_offset r /\
  producer_record_bytes (producer r) = 16 + Z.of_nat (length f) /\
  32 <= Z.of_nat (length f) <= kMessageAbiMaxBytes /\
  used_bytes r + (16 + Z.of_nat (length f)) <= capacity_bytes r.
Proof.
  destruct (rep_producer _ _ H) as [|(? & ? & Hr & ? & ? & _)]; [done|].
  rewrite Hlen in *. split_and!; try done; lia.
Qed.

Lemma publish_bytes :
  ring_rep r1 q /\ length (data r1) = length (data r) /\
  rread (data r1) (hpos r) (length (queue_bytes q) + (16 + length f)) =
  queue_bytes (q ++ [(next_sequence r, f)]).
Proof.
  destruct publish_fits as (Ht & Hrec & Hf & Hfit).
  pose proof (rep_bounds _ _ H) as (Hb1 & Hb2 & Hu & Hb3 & Hb4). pose proof (rep_cap _ _ H).
  assert (Hoff : Z.to_nat (producer_tail_offset (producer r)) =
                 ((tpos r + 0) mod length (data r))%nat).
  { rewrite Ht, Nat.add_0_r. apply (rep_tail_nat _ _ H). }
  assert (Hfit' : (length (queue_bytes q) + 0 + length header <= length (data r))%nat).
  { unfold header. rewrite length_record_header. lia. }
  assert (H16 : length header = 16%nat) by apply length_record_header.
  assert (Hused : 0 <= used_bytes r) by (rewrite (rep_used _ _ H); lia).
  pose proof (write_rep _ _ H _ _ _ Hoff Hfit') as Hrep.
  pose proof (write_length _ _ H _ _ _ Hoff Hfit') as Hl.
  pose proof (write_keeps_queue _ _ H _ _ _ Hoff Hfit' (length (queue_bytes q)) ltac:(lia)) as Hq.
  pose proof (write_holds_source _ _ H _ _ _ Hoff Hfit') as Hh.
  pose proof (write_keeps_after _ _ H _ _ _ Hoff Hfit' 16 (length f)) as Ha.
  fold r1 in Hrep, Hl, Hq, Hh, Ha. split_and!; [done|done|].
  replace (tpos r) with (hpos r + length (queue_bytes q))%nat in *
    by (unfold tpos, hpos; lia).
  rewrite rread_app, Hq, queue_bytes_snoc. f_equal; [apply (rep_data _ _ H)|].
  rewrite rread_app, Ha by lia.
  unfold record_of. simpl fst. simpl snd. rewrite Hfr, <- Hlen. f_equal.
  rewrite Nat.add_0_r in Hh. exact Hh.
Qed.

Lemma publish_rep st r' s :
  PublishEnqueue_locked r (producer_reservation_id (producer r)) = (st, r', s) ->
  producer_copy_active (producer r) = 0 ->
  st = RingOk /\ s = ring_next r /\ ring_rep r' (q ++ [(s, f)]) /\ ring_next r' = s + 1 /\
  receiver r' = receiver r /\ producer r' = zero_producer /\ head_offset r' = head_offset r /\
  capacity_bytes r' = capacity_bytes r.
Proof.
  destruct publish_fits as (Ht & Hrec & Hf & Hfit). destruct publish_bytes as (Hrep & Hl & Hbytes).
  intros Hpub Hact. revert Hpub. unfold PublishEnqueue_locked.
  destruct (rep_producer _ _ H) as [|(_ & _ & _ & _ & _ & Hab)]; [done|].
  rewrite (StateIsValid_rep _ _ H), Z.eqb_refl, Hact, Hseq.
  rewrite (proj2 (Z.eqb_eq (producer_abort_requested (producer r)) 0)) by lia. cbn [negb].
  fold header. fold r1. set (r2 := set_queue r1 _ _ _ _).
  set (r3 := if _ =? kU64Max then _ else _). intros [= <- <- <-].
  pose proof (rep_bounds _ _ H) as (Hb1 & Hb2 & Hu & Hb3 & Hb4).
  pose proof (rep_cap _ _ H) as Hcap. pose proof (rep_used _ _ H) as Hused.
  pose proof (rep_sequence _ _ H) as Hcnt. pose proof (queue_bytes_min _ (rep_entries _ _ H)) as Hqm.
  assert (Hnext : ring_next r = next_sequence r) by (unfold ring_next; by rewrite Hseq).
  assert (H3 : ring_next r3 = next_sequence r + 1 /\ counter_ok (next_sequence r3) (sequence_exhausted r3)).
  { unfold r3, ring_next. destruct (Z.eqb_spec (next_sequence r) kU64Max); simpl; rewrite ?Hseq;
      split; try done; [by eapply counter_ok_last|by apply counter_ok_next; rewrite <- ?Hseq]. }
  destruct H3 as [Hn3 Hc3].
  split_and!; try (unfold r3; destruct (_ =? kU64Max); done).
  replace (ClearProducer r3) with
    (ClearProducer (set_sequence r2 (next_sequence r3) (sequence_exhausted r3)))
    by (unfold r3; destruct (_ =? kU64Max); done).
  rewrite <- Hnext in *. pose proof (rep_tail_range _ _ H).
  pose proof (rep_queued _ _ H). pose proof (rep_cap_range _ _ H). pose proof (rep_fits _ _ H).
  assert (Hu2 : used_bytes r + producer_record_bytes (producer r) =
                used_bytes r + (16 + Z.of_nat (length f))) by lia.
  apply (push_rep r1 q f); try done.
  - simpl. rewrite wrap32_small by ulia. done.
  - simpl. rewrite wrap32_small by ulia. lia.
  - simpl. rewrite Hrec, wrap32_small by ulia.
    rewrite AdvanceOffset_mod, (rep_tail _ _ H), Z.add_mod_idemp_l by lia. f_equal. lia.
  - simpl. rewrite wrap32_small by ulia. done.
Qed.
End Publish.

(** The failing publications. *)
Lemma publish_refused r q id st r' s :
  ring_rep r q -> PublishEnqueue_locked r id = (st, r', s) ->
  producer_reservation_id (producer r) <> id \/ producer_copy_active (producer r) <> 0 \/
    sequence_exhausted r <> 0 ->
  st <> RingOk /\ st <> RingCorruptState /\
  (r' = r \/ r' = ClearProducer r /\ producer_copy_active (producer r) = 0).
Proof.
  intros H Hpub Hor. revert Hpub. unfold PublishEnqueue_locked. rewrite (StateIsValid_rep _ _ H).
  cbn [negb]. destruct (Z.eqb_spec (producer_reservation_id (producer r)) id); cbn [negb].
  2: { intros [= <- <- _]. split_and!; auto. }
  destruct (Z.eqb_spec (producer_copy_active (producer r)) 0); cbn [negb].
  2: { intros [= <- <- _]. split_and!; auto. }
  destruct (Z.eqb_spec (producer_abort_requested (producer r)) 0); cbn [negb].
  2: { intros [= <- <- _]. split_and!; auto. }
  destruct (Z.eqb_spec (sequence_exhausted r) 0); cbn [negb].
  2: { intros [= <- <- _]. split_and!; auto. }
  intuition lia.
Qed.

Definition abort_marked (p : ProducerState) : ProducerState :=
  MkProducer (producer_reservation_id p) (producer_tail_offset p) (producer_record_bytes p)
    (producer_frame_size p) (producer_copy_active p) 1.

Lemma abort_rep r q id st ring' :
  ring_rep r q -> MessageRingAbortEnqueue (Some r) id = (st, ring') ->
  st <> RingCorruptState /\ exists r', ring' = Some r' /\ ring_rep r' q /\
  (r' = r \/ r' = ClearProducer r /\ producer_copy_active (producer r) = 0 \/
   r' = set_producer r (abort_marked (producer r)) /\ producer_copy_active (producer r) <> 0).
Proof.
  intros H. unfold MessageRingAbortEnqueue, RingIsReady.
  rewrite (StateIsValid_rep _ _ H), (rep_ready _ _ H), Z.eqb_refl. cbn [negb].
  destruct (id =? 0); [intros [= <- <-]; split; [done|]; eauto|].
  destruct (Z.eqb_spec (producer_reservation_id (producer r)) id) as [Hid|]; cbn [negb];
    [|intros [= <- <-]; split; [done|]; eauto].
  destruct (Z.eqb_spec (producer_copy_active (producer r)) 0) as [Ha|Ha]; cbn [negb];
    intros [= <- <-]; split; try done; eexists; (split; [done|]).
  - split; [by apply ClearProducer_rep|]. auto.
  - split; [|auto]. apply set_producer_rep; [done|].
    destruct (rep_producer _ _ H) as [Hp|(? & ? & ? & ? & ? & ?)]; [by rewrite Hp in Ha|].
    right. simpl. split_and!; try done; lia.
Qed.

(** ** Receiver critical sections *)

Lemma preflight_inr r out bytes ok r0 :
  output_preflight (Some r) out bytes ok = inr r0 -> r0 = r /\ ok = true.
Proof. unfold output_preflight. intros Hp. guards_in Hp; destruct ok; naive_solver. Qed.

Lemma preflight_inl r out bytes ok st :
  output_preflight (Some r) out bytes ok = inl st -> st <> RingCorruptState /\ st <> RingOk.
Proof. unfold output_preflight. intros Hp. guards_in Hp; naive_solver. Qed.

Lemma receiver_idle r q :
  ring_rep r q -> receive_sequence (receiver r) = 0 -> receiver r = zero_receiver.
Proof.
  intros H Hz. destruct (rep_receiver _ _ H) as [|(f & q' & -> & _)]; [done|].
  pose proof (rep_sequence_bounds _ _ H O _ eq_refl) as [Hb _]. simpl in Hb. lia.
Qed.

Lemma receiver_busy r q :
  ring_rep r q -> receive_sequence (receiver r) <> 0 ->
  exists f q', q = (receive_sequence (receiver r), f) :: q' /\
    receive_frame_size (receiver r) = Z.of_nat (length f) /\ 1 <= receive_lease_id (receiver r) /\
    (receive_copy_id (receiver r) = 0 \/ receive_copy_succeeded_id (receiver r) = 0) /\
    0 <= receive_copy_id (receiver r) /\ 0 <= receive_copy_succeeded_id (receiver r).
Proof.
  intros H Hz. destruct (rep_receiver _ _ H) as [Hv|(f & q' & -> & ?)]; [by rewrite Hv in Hz|].
  exists f, q'. split; [done|]. intuition.
Qed.

Lemma peek_rep r q out st ring' v :
  ring_rep r q -> MessageRingPeek (Some r) out = (st, ring', v) ->
  st <> RingCorruptState /\ exists r', ring' = Some r' /\ ring_rep r' q /\
  (r' = r /\ st <> RingOk \/
   st = RingOk /\ receiver r = zero_receiver /\ same_queue r r' /\ producer r' = producer r /\
   exists s f q0 lease, q = (s, f) :: q0 /\ 1 <= lease /\
     receiver r' = MkReceiver s lease (Z.of_nat (length f)) 0 0 /\
     v = Some (MkPeekView s lease (Z.of_nat (length f)))).
Proof.
  intros H. unfold MessageRingPeek. destruct (output_preflight _ _ _ _) as [e|r0] eqn:Hp.
  { apply preflight_inl in Hp as [? ?]. intros [= <- <- _]. split; [done|]. eauto 6. }
  apply preflight_inr in Hp as [-> _]. rewrite (StateIsValid_rep _ _ H). cbn [negb].
  destruct (Z.eqb_spec (receive_sequence (receiver r)) 0) as [Hz|]; cbn [negb];
    [|intros [= <- <- _]; split; [done|]; eauto 6].
  apply (receiver_idle _ _ H) in Hz.
  destruct (Z.eqb_spec (queued_frames r) 0) as [|Hq]; [intros [= <- <- _]; split; [done|]; eauto 6|].
  destruct (Z.eqb_spec (receive_lease_exhausted r) 0) as [Hx|]; cbn [negb];
    [|intros [= <- <- _]; split; [done|]; eauto 6].
  destruct q as [|[s f] q0]; [by rewrite (rep_queued _ _ H) in Hq|].
  rewrite (ReadHeadRecord_rep _ _ _ _ H). cbn [head_sequence head_frame_size].
  intros [= <- <- <-]. split; [done|]. pose proof (rep_lease _ _ H) as Hl.
  eexists. split; [done|]. split.
  - apply set_receiver_rep.
    + destruct (Z.eqb_spec (next_receive_lease_id r) kU64Max); eauto with duet.
    + right. exists f, q0. simpl. destruct Hl. split_and!; try done; try lia; auto.
  - right. split_and!; try done.
    + destruct (_ =? kU64Max); by constructor.
    + by destruct (_ =? kU64Max).
    + exists s, f, q0, (next_receive_lease_id r). destruct Hl. split_and!; try done. lia.
Qed.

(** The spans that cover the frame of the head record. *)
Definition head_spans (head cap n cid : Z) : MessageRingCopySpans :=
  let frame_offset := AdvanceOffset head 16 cap in
  let contiguous := wrap32 (cap - frame_offset) in
  let first_size := if n <? contiguous then n else contiguous in
  let second_size := wrap32 (n - first_size) in
  MkSpans frame_offset first_size (if second_size =? 0 then None else Some 0) second_size cid.

Lemma read_head_spans r s f q cid :
  ring_rep r ((s, f) :: q) ->
  read_spans r (head_spans (head_offset r) (capacity_bytes r) (Z.of_nat (length f)) cid) = f /\
  let sp := head_spans (head_offset r) (capacity_bytes r) (Z.of_nat (length f)) cid in
  wrap32 (span_first_size sp + span_second_size sp) = Z.of_nat (length f).
Proof.
  intros H. pose proof (rep_head_len _ _ _ _ H) as [Hf Hl]. unfold kMessageAbiMaxBytes in Hf.
  pose proof (rep_bounds _ _ H) as (? & ? & Hu & Hle & ?). pose proof (rep_cap _ _ H) as Hcap.
  pose proof (rep_head _ _ H).
  pose proof (rep_advance_head _ _ H 16 ltac:(lia)) as Hoff.
  assert (Hr : 0 <= AdvanceOffset (head_offset r) 16 (capacity_bytes r) < capacity_bytes r).
  { rewrite AdvanceOffset_mod by lia. apply Z.mod_pos_bound. lia. }
  pose proof (rep_head_frame _ _ _ _ H) as Hframe.
  rewrite <- rread_mod in Hframe by lia. change 16%nat with (Z.to_nat 16) in Hframe.
  rewrite <- Hoff, <- (copy_from_rread (length f)), copy_from_closed in Hframe by lia.
  unfold read_spans, head_spans. cbn [span_first span_first_size span_second span_second_size].
  set (off := AdvanceOffset _ _ _) in *. rewrite (wrap32_small (capacity_bytes r - off)) by ulia.
  destruct (Z.ltb_spec (Z.of_nat (length f)) (capacity_bytes r - off)).
  - rewrite Z.sub_diag. change (wrap32 0) with 0. cbn [Z.eqb]. rewrite app_nil_r.
    rewrite Z.add_0_r, wrap32_small by ulia. split; [|done].
    etrans; [|exact Hframe]. replace (length f - _)%nat with O by lia. rewrite take_0, app_nil_r.
    f_equal. lia.
  - rewrite (wrap32_small (_ - _)) by ulia. rewrite wrap32_small by ulia. split; [|lia].
    etrans; [|exact Hframe]. f_equal; [f_equal; lia|].
    destruct (Z.eqb_spec (Z.of_nat (length f) - (capacity_bytes r - off)) 0).
    + by replace (length f - _)%nat with O by lia.
    + change (Z.to_nat 0) with O. rewrite drop_0. f_equal. lia.
Qed.

Lemma begin_rep r q s l out st ring' v :
  ring_rep r q -> MessageRingBeginCopyOut (Some r) s l out = (st, ring', v) ->
  st <> RingCorruptState /\ exists r', ring' = Some r' /\ ring_rep r' q /\
  (r' = r /\ st <> RingOk \/
   st = RingOk /\ same_queue r r' /\ producer r' = producer r /\
   exists f q0 cid, q = (s, f) :: q0 /\ s = receive_sequence (receiver r) /\
     l = receive_lease_id (receiver r) /\ receive_copy_id (receiver r) = 0 /\ 1 <= cid /\
     receiver r' = MkReceiver s l (Z.of_nat (length f)) cid 0 /\
     v = Some (head_spans (head_offset r) (capacity_bytes r) (Z.of_nat (length f)) cid)).
Proof.
  intros H. unfold MessageRingBeginCopyOut. destruct (output_preflight _ _ _ _) as [e|r0] eqn:Hp.
  { apply preflight_inl in Hp as [? ?]. intros [= <- <- _]. split; [done|]. eauto 6. }
  apply preflight_inr in Hp as [-> Harg]. rewrite (StateIsValid_rep _ _ H). cbn [negb].
  destruct (Z.eqb_spec (receive_sequence (receiver r)) s) as [Hs|]; cbn [negb];
    [|intros [= <- <- _]; split; [done|]; eauto 6].
  destruct (Z.eqb_spec (receive_lease_id (receiver r)) l) as [Hl|]; cbn [negb];
    [|intros [= <- <- _]; split; [done|]; eauto 6].
  destruct (Z.eqb_spec (receive_copy_id (receiver r)) 0) as [Hc|]; cbn [negb];
    [|intros [= <- <- _]; split; [done|]; eauto 6].
  destruct (Z.eqb_spec (copy_id_exhausted r) 0) as [Hx|]; cbn [negb];
    [|intros [= <- <- _]; split; [done|]; eauto 6].
  destruct (receiver_busy _ _ H) as (f & q0 & Hq & Hfs & Hlease & _); [lia|].
  rewrite <- Hs, Hq in *. rewrite (head_matches_rep _ _ _ H Hfs). cbn [head_frame_size].
  intros [= <- <- <-]. split; [done|]. pose proof (rep_copy _ _ H) as Hcnt.
  eexists. split; [done|]. split.
  - apply set_receiver_rep.
    + destruct (Z.eqb_spec (next_copy_id r) kU64Max); eauto with duet.
    + right. exists f, q0. simpl. destruct Hcnt. split_and!; try done; try lia; auto.
  - right. split_and!; try done.
    + destruct (_ =? kU64Max); by constructor.
    + by destruct (_ =? kU64Max).
    + exists f, q0, (next_copy_id r). destruct Hcnt. split_and!; try done; try lia.
      simpl. by rewrite Hfs, Hl.
Qed.

Lemma end_rep r q s l cid ok st ring' :
  ring_rep r q -> MessageRingEndCopyOut (Some r) s l cid ok = (st, ring') ->
  st <> RingCorruptState /\ exists r', ring' = Some r' /\ ring_rep r' q /\
  (r' = r /\ st <> RingOk \/
   st = RingOk /\ receive_copy_id (receiver r) = cid /\ cid <> 0 /\
   r' = set_receiver r (MkReceiver (receive_sequence (receiver r)) (receive_lease_id (receiver r))
                          (receive_frame_size (receiver r)) 0 (if ok then cid else 0))).
Proof.
  intros H. unfold MessageRingEndCopyOut, RingIsReady.
  rewrite (StateIsValid_rep _ _ H), (rep_ready _ _ H), Z.eqb_refl. cbn [negb].
  destruct ((s =? 0) || (l =? 0) || (cid =? 0)) eqn:Harg;
    [intros [= <- <-]; split; [done|]; eauto 6|].
  destruct (Z.eqb_spec (receive_sequence (receiver r)) s) as [Hs|]; cbn [negb];
    [|intros [= <- <-]; split; [done|]; eauto 6].
  destruct (Z.eqb_spec (receive_lease_id (receiver r)) l) as [Hl|]; cbn [negb];
    [|intros [= <- <-]; split; [done|]; eauto 6].
  destruct (Z.eqb_spec (receive_copy_id (receiver r)) 0) as [Hc|Hc];
    [intros [= <- <-]; split; [done|]; eauto 6|].
  destruct (Z.eqb_spec (receive_copy_id (receiver r)) cid) as [Hcid|]; cbn [negb];
    [|intros [= <- <-]; split; [done|]; eauto 6].
  intros [= <- <-]. split; [done|]. eexists. split; [done|].
  destruct (receiver_busy _ _ H) as (f & q0 & Hq & Hfs & Hlease & _ & Hc0 & _); [lia|]. split.
  - apply set_receiver_rep; [done|]. right. exists f, q0. simpl. split_and!; try done; [|by left].
    destruct ok; lia.
  - right. split_and!; try done; lia.
Qed.

(** A ring whose head record is dropped. *)
Lemma pop_rep r s f q h u n :
  ring_rep r ((s, f) :: q) ->
  h = (if n =? 0 then tail_offset r
       else (head_offset r + (16 + Z.of_nat (length f))) mod capacity_bytes r) ->
  u = used_bytes r - (16 + Z.of_nat (length f)) -> n = queued_frames r - 1 ->
  ring_rep (ClearReceiver (set_queue r h (tail_offset r) u n)) q.
Proof.
  intros H Hh Hu Hn. pose proof (rep_head_len _ _ _ _ H) as [Hf Hl].
  pose proof (rep_tail_range _ _ H) as Htr.
  pose proof (rep_bounds _ _ H) as (? & ? & Hu' & Hle & ?).
  pose proof (rep_data _ _ H) as Hd. rewrite Hl in Hd. rewrite queue_bytes_cons in Hd.
  rewrite rread_app in Hd. apply app_inj_1 in Hd as [_ Hd];
    [|by rewrite length_rread, length_record_of].
  destruct H as [? ? Hcap ? Hhd Ht Hused ? Hqn ? He Ho Hfirst ? ? ? ? Hv Hp].
  simpl length in Hqn, Hfirst.
  assert (Hmod : forall x, 0 <= x mod capacity_bytes r < capacity_bytes r)
    by (intros x; apply Z.mod_pos_bound; lia).
  assert (Hq0 : n = 0 <-> q = []).
  { destruct q; simpl in *; split; intros; try done; lia. }
  constructor; simpl; try done; try lia.
  - subst h. destruct (n =? 0); [done|apply Hmod].
  - subst h. destruct (Z.eqb_spec n 0) as [Hz|_].
    + apply Hq0 in Hz as ->. change (length (queue_bytes [])) with O in Hl. replace (tail_offset r + u) with (tail_offset r) by lia.
      by rewrite Z.mod_small.
    + rewrite Z.add_mod_idemp_l by lia. rewrite Ht. f_equal. lia.
  - subst h. destruct (Z.eqb_spec n 0) as [Hz|_].
    + apply Hq0 in Hz as ->. done.
    + rewrite Z2Nat.inj_mod, Hcap, Nat2Z.id, rread_mod by lia. rewrite <- Hd at 2. f_equal. lia.
  - by inversion He.
  - intros i e Hi. change (ring_next (ClearReceiver _)) with (ring_next r).
    specialize (Ho (S i) e Hi). simpl length in Ho. lia.
  - change (ring_next (ClearReceiver _)) with (ring_next r). lia.
  - by left.
  - destruct Hp as [Hp|(? & ? & ? & ? & ? & ?)]; [by left|right]. simpl. split_and!; try done; lia.
Qed.

Lemma commit_rep r q s l st ring' :
  ring_rep r q -> MessageRingCommit (Some r) s l = (st, ring') ->
  st <> RingCorruptState /\ exists r',
  ring' = Some r' /\
  (r' = r /\ st <> RingOk \/
   st = RingOk /\ receive_copy_succeeded_id (receiver r) <> 0 /\
   receive_copy_id (receiver r) = 0 /\
   exists f q0, q = (s, f) :: q0 /\ ring_rep r' q0 /\ data r' = data r /\
     tail_offset r' = tail_offset r /\ capacity_bytes r' = capacity_bytes r /\
     producer r' = producer r /\ receiver r' = zero_receiver /\ ring_next r' = ring_next r).
Proof.
  intros H. unfold MessageRingCommit, RingIsReady.
  rewrite (StateIsValid_rep _ _ H), (rep_ready _ _ H), Z.eqb_refl. cbn [negb].
  destruct ((s =? 0) || (l =? 0)) eqn:Harg;
    [intros [= <- <-]; split; [done|]; eauto 6|].
  destruct (Z.eqb_spec (receive_sequence (receiver r)) s) as [Hs|]; cbn [negb];
    [|intros [= <- <-]; split; [done|]; eauto 6].
  destruct (Z.eqb_spec (receive_lease_id (receiver r)) l) as [Hl|]; cbn [negb];
    [|intros [= <- <-]; split; [done|]; eauto 6].
  destruct (Z.eqb_spec (receive_copy_id (receiver r)) 0) as [Hc|Hc]; cbn [negb];
    [|intros [= <- <-]; split; [done|]; eauto 6].
  destruct (Z.eqb_spec (receive_copy_succeeded_id (receiver r)) 0) as [Hcs|Hcs];
    [intros [= <- <-]; split; [done|]; eauto 6|].
  destruct (receiver_busy _ _ H) as (f & q0 & Hq & Hfs & _); [lia|].
  rewrite <- Hs, Hq in *. rewrite (head_matches_rep _ _ _ H Hfs). cbn [head_record_size].
  intros [= <- <-]. split; [done|]. eexists. split; [done|]. right. split_and!; try done.
  exists f, q0. split_and!; try done.
  pose proof (rep_head_len _ _ _ _ H) as [Hf Hlen]. unfold kMessageAbiMaxBytes in Hf.
  pose proof (rep_bounds _ _ H) as (? & ? & Hu & Hle & ?).
  pose proof (rep_cap _ _ H). pose proof (rep_used _ _ H) as Hus. pose proof (rep_queued _ _ H) as Hqn.
  pose proof (queue_bytes_min _ (rep_entries _ _ H)) as Hmin. simpl length in Hqn.
  rewrite Hlen in *. simpl length in Hmin. pose proof (rep_head _ _ H).
  rewrite (wrap32_small (used_bytes r - _)), (wrap32_small (queued_frames r - _)) by ulia.
  eapply (pop_rep r _ f q0); [exact H| |done..].
  destruct (queued_frames r - 1 =? 0); [done|]. apply AdvanceOffset_mod; lia.
Qed.

Lemma cancel_rep r q s l st ring' :
  ring_rep r q -> MessageRingCancelReceive (Some r) s l = (st, ring') ->
  st <> RingCorruptState /\ exists r', ring' = Some r' /\ ring_rep r' q /\
  (r' = r \/ receive_copy_id (receiver r) = 0 /\ r' = ClearReceiver r).
Proof.
  intros H. unfold MessageRingCancelReceive, RingIsReady.
  rewrite (StateIsValid_rep _ _ H), (rep_ready _ _ H), Z.eqb_refl. cbn [negb].
  destruct ((s =? 0) || (l =? 0)) eqn:Harg; [intros [= <- <-]; split; [done|]; eauto 6|].
  destruct (Z.eqb_spec (receive_sequence (receiver r)) s) as [Hs|]; cbn [negb];
    [|intros [= <- <-]; split; [done|]; eauto 6].
  destruct (Z.eqb_spec (receive_lease_id (receiver r)) l) as [Hl|]; cbn [negb];
    [|intros [= <- <-]; split; [done|]; eauto 6].
  destruct (Z.eqb_spec (receive_copy_id (receiver r)) 0) as [Hc|Hc]; cbn [negb];
    [|intros [= <- <-]; split; [done|]; eauto 6].
  intros [= <- <-]. split; [done|]. eexists. split; [done|].
  split; [by apply ClearReceiver_rep|]. by right.
Qed.
