(* ===== verification/MessageRingSpec.v ===== *)
(** * The message ring under concurrent producers and receivers

    The ring of [MessageRing] with every call in flight: producers that hold
    a reservation and copy their frame without the lock in pieces of any
    size, receivers that hold a lease or pinned spans, and calls with stale
    or invalid arguments, in any interleaving.  The promise is a FIFO channel:
    frames are delivered in the order they were published, each once, with
    exactly the bytes its producer gave. *)

From S2P Require Import Prelude Bytes MessageAbi VersionedPayload MessageRing MessageRingRep.

(** A prepare call between its two critical sections. *)
Record flight := MkFlight {
  fl_frame : list Z;
  fl_id : Z;
  fl_offset : Z;
  fl_done : nat;
}.

(** The ring with the calls in flight; [sys_frames] remembers which frame a
    reservation was taken for, [sys_spans] the last spans granted,
    [sys_copied] the bytes read through them when the last copy succeeded,
    and the two logs what was published and what was committed. *)
Record ring_sys := MkSys {
  sys_ring : MessageRing;
  sys_flights : list flight;
  sys_frames : gmap Z (list Z);
  sys_spans : MessageRingCopySpans;
  sys_copied : list Z;
  sys_published : list entry;
  sys_delivered : list entry;
}.

Inductive ring_action :=
| APrepare (frame : Buffer) (rules : RuleTable) (rule_count local_view : Z)
| ACopy (i n : nat)
| AFinish (i : nat)
| APublish (reservation_id sequence_out : Z)
| AAbort (reservation_id : Z)
| APeek (view_out : Z)
| ABegin (sequence lease spans_out : Z)
| AEnd (sequence lease copy_id : Z) (succeeded : bool)
| ACommit (sequence lease : Z)
| ACancel (sequence lease : Z)
| AInspect (snapshot_out : Z).

Definition with_ring (s : ring_sys) (ring : option MessageRing) : ring_sys :=
  MkSys (default (sys_ring s) ring) (sys_flights s) (sys_frames s) (sys_spans s) (sys_copied s)
    (sys_published s) (sys_delivered s).

(** One step; the status is what a call that returns in this step returns. *)
Definition ring_exec (s : ring_sys) (a : ring_action) : ring_sys * option MessageRingStatus :=
  let r := sys_ring s in
  match a with
  | APrepare frame rules rule_count local_view =>
      let n := Z.of_nat (length (buf_bytes frame)) in
      match PrepareEnqueue_preflight r frame n rules rule_count local_view with
      | Some failure => (s, Some (enq_status failure))
      | None =>
          match PrepareEnqueue_reserve r n with
          | (inl status, r') => (with_ring s (Some r'), Some status)
          | (inr call, r') =>
              (MkSys r'
                 (sys_flights s ++ [MkFlight (buf_bytes frame) (call_reservation_id call)
                                      (call_frame_offset call) 0])
                 (<[call_reservation_id call := buf_bytes frame]> (sys_frames s))
                 (sys_spans s) (sys_copied s) (sys_published s) (sys_delivered s), None)
          end
      end
  | ACopy i n =>
      match sys_flights s !! i with
      | None => (s, None)
      | Some f =>
          let piece := take n (drop (fl_done f) (fl_frame f)) in
          let r' := CopyIntoStorage r
                      (AdvanceOffset (fl_offset f) (Z.of_nat (fl_done f)) (capacity_bytes r)) piece in
          (MkSys r'
             (<[i := MkFlight (fl_frame f) (fl_id f) (fl_offset f) (fl_done f + length piece)]>
                (sys_flights s))
             (sys_frames s) (sys_spans s) (sys_copied s) (sys_published s) (sys_delivered s), None)
      end
  | AFinish i =>
      match sys_flights s !! i with
      | None => (s, None)
      | Some f =>
          if decide (fl_done f = length (fl_frame f)) then
            let '(status, r') := PrepareEnqueue_finish r (fl_id f) in
            (MkSys r' (delete i (sys_flights s)) (sys_frames s) (sys_spans s) (sys_copied s)
               (sys_published s) (sys_delivered s), Some status)
          else (s, None)
      end
  | APublish reservation_id sequence_out =>
      let '(status, ring', _) :=
        MessageRingPublishEnqueue (Some r) reservation_id sequence_out in
      let sequence := (PublishEnqueue_locked r reservation_id).2 in
      let log := match status with
                 | RingOk => [(sequence, default [] (sys_frames s !! reservation_id))]
                 | _ => []
                 end in
      (MkSys (default r ring') (sys_flights s) (sys_frames s) (sys_spans s) (sys_copied s)
         (sys_published s ++ log) (sys_delivered s), Some status)
  | AAbort reservation_id =>
      let '(status, ring') := MessageRingAbortEnqueue (Some r) reservation_id in
      (with_ring s ring', Some status)
  | APeek view_out =>
      let '(status, ring', _) := MessageRingPeek (Some r) view_out in
      (with_ring s ring', Some status)
  | ABegin sequence lease spans_out =>
      let '(status, ring', out) := MessageRingBeginCopyOut (Some r) sequence lease spans_out in
      (MkSys (default r ring') (sys_flights s) (sys_frames s)
         (match status with RingOk => default zero_spans out | _ => sys_spans s end)
         (sys_copied s) (sys_published s) (sys_delivered s), Some status)
  | AEnd sequence lease copy_id succeeded =>
      let '(status, ring') := MessageRingEndCopyOut (Some r) sequence lease copy_id succeeded in
      (MkSys (default r ring') (sys_flights s) (sys_frames s) (sys_spans s)
         (match status with RingOk => read_spans r (sys_spans s) | _ => sys_copied s end)
         (sys_published s) (sys_delivered s), Some status)
  | ACommit sequence lease =>
      let '(status, ring') := MessageRingCommit (Some r) sequence lease in
      (MkSys (default r ring') (sys_flights s) (sys_frames s) (sys_spans s) (sys_copied s)
         (sys_published s)
         (sys_delivered s ++ match status with RingOk => [(sequence, sys_copied s)] | _ => [] end),
       Some status)
  | ACancel sequence lease =>
      let '(status, ring') := MessageRingCancelReceive (Some r) sequence lease in
      (with_ring s ring', Some status)
  | AInspect snapshot_out => (s, Some (MessageRingInspect (Some r) snapshot_out).1)
  end.

Fixpoint ring_run (s : ring_sys) (actions : list ring_action)
    : ring_sys * list (option MessageRingStatus) :=
  match actions with
  | [] => (s, [])
  | a :: rest =>
      let '(s1, status) := ring_exec s a in
      let '(s2, statuses) := ring_run s1 rest in
      (s2, status :: statuses)
  end.

Definition start_sys (r : MessageRing) : ring_sys := MkSys r [] ∅ zero_spans [] [] [].

(** ** The invariant *)

(** The prepared bytes lie behind the place of their record header. *)
Definition reserved_bytes (r : MessageRing) (n : nat) : list Z :=
  rread (data r) (Z.to_nat (tail_offset r) + 16) n.

Definition flight_ok (r : MessageRing) (flights : list flight) (f : list Z) : Prop :=
  if producer_copy_active (producer r) =? 0
  then flights = [] /\ reserved_bytes r (length f) = f
  else exists fl, flights = [fl] /\ fl_frame fl = f /\
    fl_id fl = producer_reservation_id (producer r) /\
    fl_offset fl = AdvanceOffset (tail_offset r) 16 (capacity_bytes r) /\
    (fl_done fl <= length f)%nat /\ reserved_bytes r (fl_done fl) = take (fl_done fl) f.

Definition producers_ok (s : ring_sys) : Prop :=
  let r := sys_ring s in
  producer r = zero_producer /\ sys_flights s = [] \/
  producer r <> zero_producer /\
  exists f, sys_frames s !! producer_reservation_id (producer r) = Some f /\
    producer_frame_size (producer r) = Z.of_nat (length f) /\ flight_ok r (sys_flights s) f.

Definition receivers_ok (s : ring_sys) (q : list entry) : Prop :=
  let r := sys_ring s in
  let v := receiver r in
  forall f q', q = (receive_sequence v, f) :: q' ->
  (receive_copy_id v <> 0 ->
   sys_spans s = head_spans (head_offset r) (capacity_bytes r) (Z.of_nat (length f))
                   (receive_copy_id v)) /\
  (receive_copy_succeeded_id v <> 0 -> sys_copied s = f).

Record sys_ok (first : Z) (s : ring_sys) : Prop := {
  ok_queue : exists q, ring_rep (sys_ring s) q /\ sys_published s = sys_delivered s ++ q /\
    receivers_ok s q;
  ok_producers : producers_ok s;
  ok_numbered : forall i e, sys_published s !! i = Some e -> e.1 = first + Z.of_nat i;
  ok_next : ring_next (sys_ring s) = first + Z.of_nat (length (sys_published s));
}.

(** ** Preservation *)

Lemma tail_position r q k n :
  ring_rep r q -> rread (data r) (Z.to_nat (tail_offset r) + k) n = rread (data r) (tpos r + k) n.
Proof.
  intros H. pose proof (rep_bounds _ _ H). rewrite (rep_tail_nat _ _ H).
  rewrite <- (rread_mod _ (_ + k)), Nat.Div0.add_mod_idemp_l, rread_mod by lia. done.
Qed.

Lemma validate_ok_size buffer n out v :
  MessageValidate buffer n out = (MsgOk, v) -> 32 <= n <= kMessageAbiMaxBytes.
Proof.
  unfold MessageValidate, kMessageAbiHeaderV1Bytes. intros Hv.
  destruct (RangesOverlap _ _ _ _); [done|]. destruct (buf_addr buffer =? 0); [done|].
  destruct (Z.ltb_spec n 32); [done|]. destruct (negb _); [done|]. destruct (negb _); [done|].
  destruct (negb _); [done|]. destruct (_ <? ReadLe16 _ _); [done|].
  destruct (Z.ltb_spec kMessageAbiMaxBytes (ReadLe32 (buf_bytes buffer) kTotalSizeOffset)); [done|].
  destruct (Z.eqb_spec (ReadLe32 (buf_bytes buffer) kTotalSizeOffset) n); [|done]. lia.
Qed.

Lemma preflight_size r frame n rules rc lv :
  PrepareEnqueue_preflight r frame n rules rc lv = None -> 32 <= n <= kMessageAbiMaxBytes.
Proof.
  unfold PrepareEnqueue_preflight. intros Hp.
  repeat (case_match; [done|]). destruct (MessageValidate frame n lv) as [e v] eqn:Hv.
  destruct e; try done. by eapply validate_ok_size.
Qed.

Lemma preflight_status r frame n rules rc lv failure :
  PrepareEnqueue_preflight r frame n rules rc lv = Some failure ->
  enq_status failure <> RingCorruptState.
Proof.
  unfold PrepareEnqueue_preflight, EnqueueFailure. intros Hp.
  repeat (case_match; simplify_eq/=; try done).
Qed.

(** Steps that touch neither the free bytes nor the reservation. *)
Lemma producers_ok_frame s s' :
  producers_ok s -> sys_flights s' = sys_flights s -> sys_frames s' = sys_frames s ->
  producer (sys_ring s') = producer (sys_ring s) -> data (sys_ring s') = data (sys_ring s) ->
  tail_offset (sys_ring s') = tail_offset (sys_ring s) ->
  capacity_bytes (sys_ring s') = capacity_bytes (sys_ring s) -> producers_ok s'.
Proof.
  unfold producers_ok, flight_ok, reserved_bytes. intros H -> -> -> -> -> ->. done.
Qed.

(** Steps that touch neither the head nor the receive transaction. *)
Lemma receivers_ok_frame s s' q :
  receivers_ok s q -> sys_spans s' = sys_spans s -> sys_copied s' = sys_copied s ->
  receiver (sys_ring s') = receiver (sys_ring s) ->
  head_offset (sys_ring s') = head_offset (sys_ring s) ->
  capacity_bytes (sys_ring s') = capacity_bytes (sys_ring s) -> receivers_ok s' q.
Proof. unfold receivers_ok. intros H -> -> -> -> ->. done. Qed.

Lemma producer_nonzero r q :
  ring_rep r q -> producer r <> zero_producer -> 1 <= producer_reservation_id (producer r).
Proof. intros H Hp. by destruct (rep_producer _ _ H) as [|(? & _)]. Qed.

(** One piece of an unlocked copy. *)
Lemma piece_write r q f m n :
  let piece := take n (drop m f) in
  let r' := CopyIntoStorage r (AdvanceOffset (AdvanceOffset (tail_offset r) 16 (capacity_bytes r))
                                 (Z.of_nat m) (capacity_bytes r)) piece in
  ring_rep r q -> (16 + length f + length (queue_bytes q) <= length (data r))%nat ->
  (m <= length f)%nat -> reserved_bytes r m = take m f ->
  ring_rep r' q /\ reserved_bytes r' (m + length piece) = take (m + length piece) f.
Proof.
  intros piece r' H Hroom Hm Hb.
  pose proof (rep_bounds _ _ H) as (? & ? & ? & ? & ?). pose proof (rep_cap _ _ H).
  pose proof (rep_tail_range _ _ H).
  assert (Hp : (m + length piece <= length f)%nat) by (unfold piece; rewrite length_take, length_drop; lia).
  assert (Hoff : Z.to_nat (AdvanceOffset (AdvanceOffset (tail_offset r) 16 (capacity_bytes r))
                   (Z.of_nat m) (capacity_bytes r)) = ((tpos r + (16 + m)) mod length (data r))%nat).
  { assert (0 <= AdvanceOffset (tail_offset r) 16 (capacity_bytes r) < capacity_bytes r).
    { rewrite AdvanceOffset_mod by lia. apply Z.mod_pos_bound. lia. }
    rewrite AdvanceOffset_mod, Z2Nat.inj_mod, Z2Nat.inj_add, (rep_advance _ _ H) by lia.
    rewrite (rep_cap_nat _ _ H), Nat2Z.id, Nat.Div0.add_mod_idemp_l. f_equal. lia. }
  assert (Hfits : (length (queue_bytes q) + (16 + m) + length piece <= length (data r))%nat) by lia.
  pose proof (write_rep _ _ H _ _ _ Hoff Hfits) as Hrep. split; [done|].
  unfold reserved_bytes in *. rewrite (tail_position _ _ _ _ H) in Hb.
  rewrite (tail_position _ _ _ _ Hrep), rread_app, <- Nat.add_assoc.
  change (tpos (CopyIntoStorage r _ piece)) with (tpos r).
  rewrite (write_holds_source _ _ H _ _ _ Hoff Hfits).
  rewrite (write_keeps_before _ _ H _ _ _ Hoff Hfits) by lia. rewrite Hb.
  rewrite <- take_take_drop. f_equal. unfold piece. rewrite length_take, length_drop.
  destruct (decide (n <= length f - m)%nat); [by rewrite Nat.min_l by lia|].
  rewrite Nat.min_r by lia. rewrite !take_ge; rewrite ?length_drop; done || lia.
Qed.

Section Steps.
Context (first : Z).

Lemma prepare_step s frame rules rc lv s' st :
  sys_ok first s -> ring_exec s (APrepare frame rules rc lv) = (s', st) ->
  sys_ok first s' /\ st <> Some RingCorruptState.
Proof.
  intros [(q & Hrep & Hlog & Hrv) Hp Hnum Hnx]. cbn [ring_exec].
  destruct (PrepareEnqueue_preflight _ _ _ _ _ _) as [failure|] eqn:Hpre.
  { intros [= <- <-]. split; [|intros [= Hst]; by eapply preflight_status]. constructor; eauto. }
  apply preflight_size in Hpre.
  destruct (PrepareEnqueue_reserve _ _) as [res r'] eqn:Hres.
  apply (reserve_rep _ _ _ _ _ Hrep Hpre) in Hres. destruct res as [status|call].
  { destruct Hres as (-> & ? & ?). intros [= <- <-]. split; [|congruence]. constructor; eauto. }
  destruct Hres as (Hz & Hrep' & Hsame & Hrv' & Hid & Hprod & Hoff & Hfit).
  intros [= <- <-]. split; [|done].
  destruct Hp as [[_ Hfl]|[Hnz _]]; [|done].
  pose proof (same_head _ _ Hsame). pose proof (same_cap _ _ Hsame).
  constructor; simpl.
  - exists q. split_and!; [done|done|]. eapply receivers_ok_frame; [exact Hrv|done..].
  - right. simpl. rewrite Hprod. simpl. split; [intros [=]; lia|].
    exists (buf_bytes frame). rewrite lookup_insert_eq. split_and!; [done|done|].
    unfold flight_ok. rewrite Hprod, Hfl. simpl. eexists. split_and!; try done.
    + simpl. rewrite Hoff. by rewrite (same_tail _ _ Hsame), (same_cap _ _ Hsame).
    + simpl. lia.
  - done.
  - by rewrite (same_next _ _ Hsame).
Qed.

Lemma copy_step s i n s' st :
  sys_ok first s -> ring_exec s (ACopy i n) = (s', st) -> sys_ok first s' /\ st = None.
Proof.
  intros [(q & Hrep & Hlog & Hrv) Hp Hnum Hnx]. cbn [ring_exec].
  destruct (sys_flights s !! i) as [fl|] eqn:Hi.
  2: { intros [= <- <-]. split; [|done]. constructor; eauto. }
  intros [= <- <-]. split; [|done].
  destruct Hp as [[_ Hfl]|(Hnz & f & Hf & Hsize & Hflight)]; [by rewrite Hfl in Hi|].
  unfold flight_ok in Hflight.
  destruct (Z.eqb_spec (producer_copy_active (producer (sys_ring s))) 0) as [|Hact].
  { destruct Hflight as [Hfl _]. by rewrite Hfl in Hi. }
  destruct Hflight as (fl' & Hfl & Hfr & Hid & Hoff & Hdone & Hbytes).
  rewrite Hfl in Hi. destruct i; [|done]. simplify_eq/=. rewrite Hfl. simpl.
  set (piece := take n (drop (fl_done fl) (fl_frame fl))).
  destruct (rep_producer _ _ Hrep) as [|(Hid1 & Ht & Hrec & Hfs & Hfit & _)]; [done|].
  assert (Hroom : (16 + length (fl_frame fl) + length (queue_bytes q) <=
                   length (data (sys_ring s)))%nat).
  { rewrite Hrec, Hsize, (rep_used _ _ Hrep), (rep_cap _ _ Hrep) in Hfit. lia. }
  destruct (piece_write _ _ _ _ n Hrep Hroom Hdone Hbytes) as (Hrep' & Hbytes').
  rewrite <- Hoff in Hrep', Hbytes'. fold piece in Hrep', Hbytes'.
  constructor; simpl.
  - exists q. split_and!; [done|done|]. eapply receivers_ok_frame; [exact Hrv|done..].
  - right. split; [done|]. exists (fl_frame fl). split_and!; [done|done|].
    unfold flight_ok. simpl. rewrite (proj2 (Z.eqb_neq _ 0) Hact). eexists.
    split_and!; try done; simpl.
    unfold piece. rewrite length_take, length_drop. lia.
  - done.
  - done.
Qed.

Lemma finish_step s i s' st :
  sys_ok first s -> ring_exec s (AFinish i) = (s', st) ->
  sys_ok first s' /\ st <> Some RingCorruptState.
Proof.
  intros [(q & Hrep & Hlog & Hrv) Hp Hnum Hnx]. cbn [ring_exec].
  destruct (sys_flights s !! i) as [fl|] eqn:Hi.
  2: { intros [= <- <-]. split; [|done]. constructor; eauto. }
  destruct (decide _) as [Hd|]; [|intros [= <- <-]; split; [|done]; constructor; eauto].
  destruct Hp as [[_ Hfl]|(Hnz & f & Hf & Hsize & Hflight)]; [by rewrite Hfl in Hi|].
  unfold flight_ok in Hflight.
  destruct (Z.eqb_spec (producer_copy_active (producer (sys_ring s))) 0) as [|Hact].
  { destruct Hflight as [Hfl _]. by rewrite Hfl in Hi. }
  destruct Hflight as (fl' & Hfl & Hfr & Hid & Hoff & Hdone & Hbytes).
  rewrite Hfl in Hi. destruct i; [|done]. simplify_eq/=. rewrite Hfl, Hid. simpl.
  destruct (finish_rep _ _ Hrep Hact) as [Heq Hrep']. rewrite Heq in *.
  destruct (Z.eqb_spec (producer_abort_requested (producer (sys_ring s))) 0) as [Hab|Hab];
    intros [= <- <-]; (split; [|done]); constructor; simpl; try done;
    try (exists q; split_and!; [done|done|eapply receivers_ok_frame; [exact Hrv|done..]]).
  - right. simpl. split; [intros [= Hz _]; pose proof (producer_nonzero _ _ Hrep Hnz); lia|].
    exists (fl_frame fl). split_and!; [done|done|]. unfold flight_ok. simpl. split; [done|].
    rewrite Hd in Hbytes. unfold reserved_bytes in *. simpl. rewrite Hbytes. by rewrite take_ge.
  - by left.
Qed.

Lemma publish_step s rid out s' st :
  sys_ok first s -> ring_exec s (APublish rid out) = (s', st) ->
  sys_ok first s' /\ st <> Some RingCorruptState.
Proof.
  intros [(q & Hrep & Hlog & Hrv) Hp Hnum Hnx]. cbn [ring_exec].
  set (r := sys_ring s) in *. unfold MessageRingPublishEnqueue.
  assert (Hsame : forall e : MessageRingStatus, e <> RingOk -> e <> RingCorruptState ->
    sys_ok first (MkSys r (sys_flights s) (sys_frames s) (sys_spans s) (sys_copied s)
      (sys_published s ++ []) (sys_delivered s)) /\ Some e <> Some RingCorruptState).
  { intros e He1 He2. rewrite app_nil_r. split; [|congruence]. constructor; eauto. }
  destruct (negb (out =? 0) && _); [intros [= <- <-]; by apply Hsame|].
  destruct (RangesOverlap _ _ _ _); [intros [= <- <-]; by apply Hsame|].
  destruct (negb (RingIsReady r)); [intros [= <- <-]; by apply Hsame|].
  destruct (RangesOverlap _ _ _ _); [intros [= <- <-]; by apply Hsame|].
  destruct (Z.eqb_spec rid 0) as [|Hrid]; [intros [= <- <-]; by apply Hsame|].
  destruct (PublishEnqueue_locked r rid) as [[status r'] sequence] eqn:Hpub. cbn [snd default].
  destruct (decide (producer_reservation_id (producer r) = rid /\
                    producer_copy_active (producer r) = 0 /\ sequence_exhausted r = 0))
    as [(Hid & Hact & Hseq)|Hno].
  - destruct Hp as [[Hz _]|(Hnz & f & Hf & Hsize & Hflight)].
    { fold r in Hz. rewrite Hz in Hid. simpl in Hid. lia. }
    fold r in Hnz, Hf, Hsize, Hflight. unfold flight_ok in Hflight. rewrite Hact in Hflight.
    destruct Hflight as [Hfl Hbytes]. unfold reserved_bytes in Hbytes.
    rewrite (tail_position _ _ _ _ Hrep) in Hbytes.
    rewrite <- Hid in Hpub.
    destruct (publish_rep _ _ _ Hrep Hnz Hsize Hbytes Hseq _ _ _ Hpub Hact)
      as (-> & Hs & Hrep' & Hn' & Hrv' & Hp' & Hh' & Hc').
    rewrite <- Hid, Hf. intros [= <- <-]. split; [|done]. cbn [default].
    constructor; simpl.
    + exists (q ++ [(sequence, f)]). split_and!; [done|by rewrite Hlog, app_assoc|].
      intros f0 q' Hq. simpl in Hq |- *. rewrite Hrv', Hh', Hc' in *.
      destruct q as [|e0 q0]; [|injection Hq as Hq1 Hq2; apply (Hrv f0 q0); by rewrite Hq1].
      destruct (rep_receiver _ _ Hrep) as [Hz|(? & ? & ? & _)]; [|done].
      fold r. by rewrite Hz.
    + by left.
    + intros i e Hi. apply lookup_app_Some in Hi as [Hi|[Hge Hi]]; [by apply Hnum|].
      apply list_lookup_singleton_Some in Hi as [Hi <-]. simpl. rewrite Hs, Hnx. lia.
    + rewrite Hn', Hs, Hnx, length_app. simpl. lia.
  - destruct (publish_refused _ _ _ _ _ _ Hrep Hpub) as (Hok & Hcs & Hr'); [lia|].
    assert (Hlog' : match status with RingOk => [(sequence, default [] (sys_frames s !! rid))]
                    | _ => [] end = []) by (by destruct status).
    rewrite Hlog'. intros [= <- <-].
    destruct Hr' as [->|[-> Hact]]; [by apply Hsame|]. rewrite app_nil_r. split; [|congruence].
    constructor; simpl; try done.
    + exists q. split_and!; [by apply ClearProducer_rep|done|].
      eapply receivers_ok_frame; [exact Hrv|done..].
    + left. split; [done|]. destruct Hp as [[_ ?]|(_ & f & _ & _ & Hfl)]; [done|].
      unfold flight_ok in Hfl. fold r in Hfl. rewrite Hact in Hfl. by destruct Hfl.
Qed.

Lemma abort_step s rid s' st :
  sys_ok first s -> ring_exec s (AAbort rid) = (s', st) ->
  sys_ok first s' /\ st <> Some RingCorruptState.
Proof.
  intros [(q & Hrep & Hlog & Hrv) Hp Hnum Hnx]. cbn [ring_exec].
  destruct (MessageRingAbortEnqueue _ _) as [status ring'] eqn:Hab.
  apply (abort_rep _ _ _ _ _ Hrep) in Hab as (Hcs & r' & -> & Hrep' & Hr').
  intros [= <- <-]. split; [|congruence].
  destruct Hr' as [->|[[-> Hact]|[-> Hact]]]; constructor; simpl; try done;
    try (exists q; split_and!; [done|done|eapply receivers_ok_frame; [exact Hrv|done..]]).
  - left. split; [done|]. destruct Hp as [[_ ?]|(_ & f & _ & _ & Hfl)]; [done|].
    unfold flight_ok in Hfl. rewrite Hact in Hfl. by destruct Hfl.
  - destruct Hp as [[Hz _]|(Hnz & f & Hf & Hsize & Hfl)]; [by rewrite Hz in Hact|].
    right. simpl. split; [intros [=]|]. by exists f.
Qed.

Lemma peek_step s out s' st :
  sys_ok first s -> ring_exec s (APeek out) = (s', st) ->
  sys_ok first s' /\ st <> Some RingCorruptState.
Proof.
  intros [(q & Hrep & Hlog & Hrv) Hp Hnum Hnx]. cbn [ring_exec].
  destruct (MessageRingPeek _ _) as [[status ring'] v] eqn:Hpk.
  apply (peek_rep _ _ _ _ _ _ Hrep) in Hpk as (Hcs & r' & -> & Hrep' & Hr').
  intros [= <- <-]. split; [|congruence].
  destruct Hr' as [[-> _]|(_ & Hz & Hsame & Hprod & sq & f & q0 & l & Hq & Hl & Hrc & _)];
    [constructor; simpl; try done; by exists q|].
  pose proof Hsame as [Hd Hh Ht Hu Hc Hn]. constructor; simpl; try done.
  - exists q. split_and!; [done|done|]. intros f0 q' _. simpl. rewrite Hrc. done.
  - by eapply producers_ok_frame.
  - by rewrite Hn.
Qed.

Lemma begin_step s sq l out s' st :
  sys_ok first s -> ring_exec s (ABegin sq l out) = (s', st) ->
  sys_ok first s' /\ st <> Some RingCorruptState.
Proof.
  intros [(q & Hrep & Hlog & Hrv) Hp Hnum Hnx]. cbn [ring_exec].
  destruct (MessageRingBeginCopyOut _ _ _ _) as [[status ring'] v] eqn:Hb.
  apply (begin_rep _ _ _ _ _ _ _ _ Hrep) in Hb as (Hcs & r' & -> & Hrep' & Hr').
  intros [= <- <-]. split; [|congruence].
  destruct Hr' as [[-> Hok]|(-> & Hsame & Hprod & f & q0 & cid & Hq & Hsq & Hl & Hc0 & Hcid & Hrc & ->)].
  { replace (match status with RingOk => _ | _ => sys_spans s end) with (sys_spans s)
      by (by destruct status). constructor; simpl; try done; by exists q. }
  pose proof Hsame as [Hd Hh Ht Hu Hc Hn]. constructor; simpl; try done.
  - exists q. split_and!; [done|done|]. intros f0 q' Hq'. simpl in *. rewrite Hrc in *. simpl in *.
    rewrite Hq in Hq'. simplify_eq. rewrite Hh, Hc. done.
  - by eapply producers_ok_frame.
  - by rewrite Hn.
Qed.

Lemma end_step s sq l cid ok s' st :
  sys_ok first s -> ring_exec s (AEnd sq l cid ok) = (s', st) ->
  sys_ok first s' /\ st <> Some RingCorruptState.
Proof.
  intros [(q & Hrep & Hlog & Hrv) Hp Hnum Hnx]. cbn [ring_exec].
  destruct (MessageRingEndCopyOut _ _ _ _ _) as [status ring'] eqn:He.
  apply (end_rep _ _ _ _ _ _ _ _ Hrep) in He as (Hcs & r' & -> & Hrep' & Hr').
  intros [= <- <-]. split; [|congruence].
  destruct Hr' as [[-> Hok]|(-> & Hcid & Hnz & ->)].
  { replace (match status with RingOk => _ | _ => sys_copied s end) with (sys_copied s)
      by (by destruct status). constructor; simpl; try done; by exists q. }
  constructor; simpl; try done. exists q. split_and!; [done|done|].
  intros f q' Hq. simpl in Hq |- *. split; [done|]. intros _.
  destruct (Hrv f q' Hq) as [Hsp _]. rewrite Hsp by lia. rewrite Hq in Hrep.
  by apply (read_head_spans _ _ _ _ _ Hrep).
Qed.

Lemma commit_step s sq l s' st :
  sys_ok first s -> ring_exec s (ACommit sq l) = (s', st) ->
  sys_ok first s' /\ st <> Some RingCorruptState.
Proof.
  intros [(q & Hrep & Hlog & Hrv) Hp Hnum Hnx]. cbn [ring_exec].
  destruct (MessageRingCommit _ _ _) as [status ring'] eqn:Hc.
  apply (commit_rep _ _ _ _ _ _ Hrep) in Hc as (Hcs & r' & -> & Hr').
  intros [= <- <-]. split; [|congruence].
  destruct Hr' as [[-> Hok]|(-> & Hsucc & Hidle & f & q0 & Hq & Hrep' & Hd & Ht & Hcap & Hprod & Hrc & Hn)].
  { replace (match status with RingOk => _ | _ => [] end) with (@nil entry)
      by (by destruct status). rewrite app_nil_r. constructor; simpl; try done; by exists q. }
  assert (Hsq : sq = receive_sequence (receiver (sys_ring s))).
  { destruct (rep_receiver _ _ Hrep) as [Hz|(? & ? & Hq' & _)]; [by rewrite Hz in Hsucc|].
    rewrite Hq in Hq'. by injection Hq'. }
  destruct (Hrv f q0) as [_ Hcopied]; [by rewrite <- Hsq|].
  constructor; simpl; try done.
  - exists q0. split_and!; [done| |intros f0 q' _; simpl; rewrite Hrc; done].
    by rewrite Hlog, Hq, (Hcopied Hsucc), <- app_assoc.
  - by eapply producers_ok_frame.
  - by rewrite Hn.
Qed.

Lemma cancel_step s sq l s' st :
  sys_ok first s -> ring_exec s (ACancel sq l) = (s', st) ->
  sys_ok first s' /\ st <> Some RingCorruptState.
Proof.
  intros [(q & Hrep & Hlog & Hrv) Hp Hnum Hnx]. cbn [ring_exec].
  destruct (MessageRingCancelReceive _ _ _) as [status ring'] eqn:Hc.
  apply (cancel_rep _ _ _ _ _ _ Hrep) in Hc as (Hcs & r' & -> & Hrep' & Hr').
  intros [= <- <-]. split; [|congruence].
  destruct Hr' as [->|[_ ->]]; constructor; simpl; try done; exists q; try done.
Qed.

Lemma inspect_step s out s' st :
  sys_ok first s -> ring_exec s (AInspect out) = (s', st) ->
  sys_ok first s' /\ st <> Some RingCorruptState.
Proof.
  intros Hok. cbn [ring_exec]. intros [= <- <-]. split; [done|].
  destruct Hok as [(q & Hrep & _) _ _ _]. unfold MessageRingInspect.
  destruct (output_preflight _ _ _ _) as [e|r0] eqn:Hp.
  - apply preflight_inl in Hp as [? ?]. simpl. congruence.
  - apply preflight_inr in Hp as [-> _]. by rewrite (StateIsValid_rep _ _ Hrep).
Qed.

Lemma exec_step s a s' st :
  sys_ok first s -> ring_exec s a = (s', st) -> sys_ok first s' /\ st <> Some RingCorruptState.
Proof.
  intros Hok. destruct a; intros Hex;
    eauto using prepare_step, finish_step, publish_step, abort_step, peek_step, begin_step,
      end_step, commit_step, cancel_step, inspect_step.
  apply copy_step in Hex as [? ->]; done.
Qed.

Lemma run_ok actions : forall s s' sts,
  sys_ok first s -> ring_run s actions = (s', sts) ->
  sys_ok first s' /\ Some RingCorruptState ∉ sts.
Proof.
  induction actions as [|a rest IH]; intros s s' sts Hok Hrun; simpl in Hrun.
  { simplify_eq. split; [done|apply not_elem_of_nil]. }
  destruct (ring_exec s a) as [s1 st] eqn:Hex. destruct (ring_run s1 rest) as [s2 sts'] eqn:Hr.
  simplify_eq. apply exec_step in Hex as [H1 Hst]; [|done].
  destruct (IH _ _ _ H1 Hr) as [? ?]. split; [done|]. by rewrite not_elem_of_cons.
Qed.
End Steps.

Lemma initialize_ok ring0 store n first r :
  MessageRingInitialize ring0 store n first = (RingOk, Some r) ->
  n = Z.of_nat (length (buf_bytes store)) -> n <= u32_max -> is_u64 first ->
  ring_rep r [] /\ sys_ok first (start_sys r).
Proof.
  intros Hi Hn Hmax Hf. unfold MessageRingInitialize in Hi. destruct ring0 as [r0|]; [|done].
  match type of Hi with context [if ?b then _ else _] => destruct b eqn:Harg; [done|] end.
  destruct (cas_ok _ _); [|done]. simpl in Hi. simplify_eq.
  rewrite !orb_false_iff in Harg. destruct Harg as [[[Hz Hmin] Hvalid] _].
  unfold kMessageRingMinimumStorageBytes, kMessageRingRecordHeaderBytes, kMessageAbiHeaderV1Bytes in *.
  assert (Haddr : buf_addr store <> 0).
  { intros H0. unfold PointerRangeIsValid in Hvalid. by rewrite H0 in Hvalid. }
  assert (Hrep : ring_rep (MkRing (ring_self r0) (buf_addr store) (buf_bytes store)
    (Z.of_nat (length (buf_bytes store))) 0 0 0 0 kRingStateReady first 0 1 0 zero_producer 1 0 1 0
    zero_receiver) []).
  { constructor; simpl; unfold counter_ok, ring_next; simpl; try done; try ulia; by left. }
  split; [done|]. constructor; simpl; try done.
  - exists []. split_and!; [done|done|]. intros f q' Hq. done.
  - by left.
  - unfold ring_next. simpl. lia.
Qed.

(** Pinned spans read as the oldest undelivered frame. *)
Lemma spans_read first s :
  sys_ok first s -> receive_copy_id (receiver (sys_ring s)) <> 0 ->
  span_copy_id (sys_spans s) = receive_copy_id (receiver (sys_ring s)) /\
  sys_published s !! length (sys_delivered s) =
    Some (receive_sequence (receiver (sys_ring s)), read_spans (sys_ring s) (sys_spans s)).
Proof.
  intros [(q & Hrep & Hlog & Hrv) _ _ _] Hc.
  destruct (rep_receiver _ _ Hrep) as [Hz|(f & q' & Hq & _)]; [by rewrite Hz in Hc|].
  destruct (Hrv _ _ Hq) as [Hsp _]. rewrite Hsp by done. split; [done|].
  rewrite Hlog, lookup_app_r, Nat.sub_diag, Hq by done. rewrite Hq in Hrep. simpl.
  by rewrite (proj1 (read_head_spans _ _ _ _ _ Hrep)).
Qed.

(** ** Claims *)

Section Reachable.
Context (ring0 : option MessageRing) (store : Buffer) (first : Z) (r0 : MessageRing).
Context (Hinit : MessageRingInitialize ring0 store (Z.of_nat (length (buf_bytes store))) first
                 = (RingOk, Some r0)).
Context (Hbytes : Z.of_nat (length (buf_bytes store)) <= u32_max) (Hfirst : is_u64 first).

Lemma reachable_ok actions s sts :
  ring_run (start_sys r0) actions = (s, sts) -> sys_ok first s /\ Some RingCorruptState ∉ sts.
Proof.
  apply run_ok. by eapply initialize_ok.
Qed.

(** C6: The ring is a FIFO channel under every interleaving of producer
    and receiver calls: what was committed, followed by the frames still
    queued, is exactly what was published, in order, each frame once and
    with the bytes of its prepare call, and sequence numbers count up by one
    from the first. *)
Theorem message_ring_is_fifo actions s sts :
  ring_run (start_sys r0) actions = (s, sts) ->
  (exists q, sys_published s = sys_delivered s ++ q /\
     queued_frames (sys_ring s) = Z.of_nat (length q)) /\
  (forall i e, sys_published s !! i = Some e -> e.1 = first + Z.of_nat i /\ e.1 <= u64_max).
Proof.
  intros Hrun. destruct (reachable_ok _ _ _ Hrun) as [[(q & Hrep & Hlog & _) _ Hnum Hnx] _].
  split; [exists q; split; [done|apply (rep_queued _ _ Hrep)]|].
  intros i e Hi. split; [by apply Hnum|]. rewrite (Hnum _ _ Hi).
  pose proof (lookup_lt_Some _ _ _ Hi). pose proof (rep_sequence _ _ Hrep) as Hc.
  unfold ring_next, counter_ok in *. destruct (sequence_exhausted (sys_ring s) =? 0); lia.
Qed.

(** No interleaving corrupts the ring: no call ever reports
    [CorruptState], the validity check passes in every reachable state, and
    the occupied bytes are exactly the records of the undelivered frames,
    never more than the storage holds. *)
Theorem message_ring_never_corrupts actions s sts :
  ring_run (start_sys r0) actions = (s, sts) ->
  Some RingCorruptState ∉ sts /\ StateIsValid (sys_ring s) = true /\
  exists q, sys_published s = sys_delivered s ++ q /\
    used_bytes (sys_ring s) = Z.of_nat (length (queue_bytes q)) /\
    used_bytes (sys_ring s) <= capacity_bytes (sys_ring s) /\
    rread (data (sys_ring s)) (hpos (sys_ring s)) (length (queue_bytes q)) = queue_bytes q.
Proof.
  intros Hrun. destruct (reachable_ok _ _ _ Hrun) as [[(q & Hrep & Hlog & _) _ _ _] Hsts].
  split_and!; [done|by eapply StateIsValid_rep|]. exists q.
  split_and!; [done|apply (rep_used _ _ Hrep)|apply (rep_fits _ _ Hrep)|apply (rep_data _ _ Hrep)].
Qed.

(** Pinned spans are stable: from a successful begin to its end,
    whatever producers and other callers do in between, the spans read as
    the oldest undelivered frame, the one whose sequence the lease names. *)
Theorem message_ring_spans_are_stable actions s sts :
  ring_run (start_sys r0) actions = (s, sts) ->
  receive_copy_id (receiver (sys_ring s)) <> 0 ->
  span_copy_id (sys_spans s) = receive_copy_id (receiver (sys_ring s)) /\
  sys_published s !! length (sys_delivered s) =
    Some (receive_sequence (receiver (sys_ring s)), read_spans (sys_ring s) (sys_spans s)).
Proof.
  intros Hrun. by apply (spans_read first), (reachable_ok _ _ _ Hrun).
Qed.
End Reachable.

(** ** The sequential calls *)

Lemma prepare_idle r q frame rules rc lv :
  let n := Z.of_nat (length (buf_bytes frame)) in
  ring_rep r q -> PrepareEnqueue_preflight r frame n rules rc lv = None ->
  producer r = zero_producer -> reservation_exhausted r = 0 -> sequence_exhausted r = 0 ->
  used_bytes r + (16 + n) <= capacity_bytes r ->
  exists r', MessageRingPrepareEnqueue (Some r) frame n rules rc lv =
      (MkEnqueueResult RingOk (next_reservation_id r) 0 MsgOk PayOk, Some r') /\
    ring_rep r' q /\ reserved_bytes r' (length (buf_bytes frame)) = buf_bytes frame /\
    producer r' = MkProducer (next_reservation_id r) (tail_offset r) (16 + n) n 0 0 /\
    receiver r' = receiver r /\ ring_next r' = ring_next r /\ sequence_exhausted r' = 0 /\
    ring_self r' = ring_self r /\ storage r' = storage r /\ capacity_bytes r' = capacity_bytes r.
Proof.
  intros n H Hpre Hz Hres Hseq Hfit. unfold MessageRingPrepareEnqueue. rewrite Hpre.
  pose proof (preflight_size _ _ _ _ _ _ Hpre) as Hn.
  pose proof (rep_used _ _ H). pose proof (rep_cap _ _ H). pose proof (rep_cap_range _ _ H).
  assert (Hr : PrepareEnqueue_reserve r n =
    (inr (MkCall (next_reservation_id r) (AdvanceOffset (tail_offset r) 16 (capacity_bytes r))),
     set_reserved (if next_reservation_id r =? kU64Max
                   then set_reservation r (next_reservation_id r) 1
                   else set_reservation r (next_reservation_id r + 1) (reservation_exhausted r))
       (next_reservation_id r) (16 + n) n)).
  { unfold PrepareEnqueue_reserve, kMessageRingRecordHeaderBytes, kMessageAbiMaxBytes in *.
    rewrite (StateIsValid_rep _ _ H), Hz, Hres, Hseq.
    rewrite (wrap32_small (16 + n)), (wrap32_small (_ - _)) by ulia. simpl.
    by rewrite (proj2 (Z.ltb_ge _ _)) by lia. }
  rewrite Hr. cbn [call_frame_offset call_reservation_id].
  pose proof (reserve_rep _ _ _ _ _ H Hn Hr) as (_ & Hrep1 & Hsame & Hrv1 & _ & Hp1 & _ & _).
  set (r1 := set_reserved _ _ _ _) in *. destruct Hsame as [Hd1 Hh1 Ht1 Hu1 Hc1 Hn1].
  unfold n. rewrite Nat2Z.id, take_ge by done.
  destruct (piece_write r1 q (buf_bytes frame) 0 (length (buf_bytes frame)) Hrep1)
    as [Hrep2 Hb2]; [rewrite Hd1; lia|lia|done|].
  rewrite drop_0, take_ge in Hrep2, Hb2 by done. rewrite Nat.add_0_l, take_ge in Hb2 by done.
  replace (AdvanceOffset (AdvanceOffset (tail_offset r1) 16 (capacity_bytes r1)) (Z.of_nat 0)
             (capacity_bytes r1))
    with (AdvanceOffset (tail_offset r) 16 (capacity_bytes r)) in Hrep2, Hb2.
  2: { rewrite Ht1, Hc1. pose proof (rep_tail_range _ _ H).
       rewrite (AdvanceOffset_mod (tail_offset r)) by lia.
       pose proof (Z.mod_pos_bound (tail_offset r + 16) (capacity_bytes r) ltac:(lia)).
       rewrite AdvanceOffset_mod, Z.add_0_r by lia. symmetry. by apply Z.mod_small. }
  set (r2 := CopyIntoStorage r1 (AdvanceOffset (tail_offset r) 16 (capacity_bytes r))
               (buf_bytes frame)) in *.
  assert (Hp2 : producer r2 = MkProducer (next_reservation_id r) (tail_offset r) (16 + n) n 1 0)
    by exact Hp1.
  destruct (finish_rep _ _ Hrep2) as [Hf Hrep3]; [by rewrite Hp2|].
  rewrite Hp2 in Hf, Hrep3. cbn [producer_reservation_id producer_abort_requested] in Hf, Hrep3.
  rewrite Hf in Hrep3 |- *. cbn [Z.eqb snd] in Hrep3 |- *. eexists. split; [done|].
  split_and!; try done; unfold r2, r1; destruct (_ =? kU64Max); done.
Qed.

(** What the ring's state says about a frame of [n] validated bytes. *)
Definition admission (r : MessageRing) (n : Z) : MessageRingStatus :=
  if negb (producer_reservation_id (producer r) =? 0) then RingBusy
  else if negb (reservation_exhausted r =? 0) then ReservationExhausted
  else if negb (sequence_exhausted r =? 0) then RingSequenceExhausted
  else if capacity_bytes r - used_bytes r <? 16 + n then RingFull
  else RingOk.

(** An output object that is addressable and apart from ring and storage. *)
Record local_ok (r : MessageRing) (addr bytes : Z) : Prop := {
  local_valid : PointerRangeIsValid addr bytes = true;
  local_ring : RangesOverlap addr bytes (ring_self r) sizeof_MessageRing = false;
  local_storage : RangesOverlap addr bytes (storage r) (capacity_bytes r) = false;
}.

Lemma local_nonnull r a b : local_ok r a b -> (a =? 0) = false.
Proof. intros [Hv _ _]. unfold PointerRangeIsValid in Hv. by destruct (a =? 0). Qed.

Lemma local_preflight r a b :
  RingIsReady r = true -> local_ok r a b -> output_preflight (Some r) a b true = inr r.
Proof.
  intros Hready Hl. pose proof (local_nonnull _ _ _ Hl) as Hz. destruct Hl as [Hv Hr Hs].
  unfold output_preflight. by rewrite Hz, Hv, Hr, Hs, Hready.
Qed.

Lemma rep_is_ready r q : ring_rep r q -> RingIsReady r = true.
Proof. intros H. unfold RingIsReady. rewrite (rep_ready _ _ H). apply Z.eqb_refl. Qed.

Lemma inserts_prefix (k l : list Z) :
  (length k <= length l)%nat -> list_inserts 0 k l = k ++ drop (length k) l.
Proof.
  intros Hle. apply list_eq. intros i. destruct (decide (i < length k)%nat).
  - rewrite list_lookup_inserts by lia. rewrite lookup_app_l by lia. f_equal. lia.
  - rewrite list_lookup_inserts_ge by lia. rewrite lookup_app_r by lia.
    rewrite lookup_drop. f_equal. lia.
Qed.

(** [MessageRingEnqueue] of a frame that passes validation is decided by
    the ring alone: it returns exactly the admission status (busy, exhausted,
    full or accepted), appends exactly this frame with the next sequence
    number when accepted, and leaves the ring untouched otherwise. *)
Theorem message_ring_enqueue_decided r q frame rules rc lv ls :
  let n := Z.of_nat (length (buf_bytes frame)) in
  ring_rep r q -> PrepareEnqueue_preflight r frame n rules rc lv = None ->
  local_ok r ls sizeof_u64 ->
  match admission r n with
  | RingOk =>
      exists r', MessageRingEnqueue (Some r) frame n rules rc lv ls =
        (MkEnqueueResult RingOk (next_reservation_id r) (ring_next r) MsgOk PayOk, Some r') /\
        ring_rep r' (q ++ [(ring_next r, buf_bytes frame)])
  | st =>
      MessageRingEnqueue (Some r) frame n rules rc lv ls = (EnqueueFailure st MsgOk PayOk, Some r)
  end.
Proof.
  intros n H Hpre Hl.
  pose proof (preflight_size _ _ _ _ _ _ Hpre) as Hn. unfold kMessageAbiMaxBytes in Hn.
  pose proof (rep_used _ _ H) as Hu. pose proof (rep_cap_range _ _ H). pose proof (rep_fits _ _ H).
  assert (Hstuck : forall st, PrepareEnqueue_reserve r n = (inl st, r) -> st <> RingOk ->
    MessageRingEnqueue (Some r) frame n rules rc lv ls = (EnqueueFailure st MsgOk PayOk, Some r)).
  { intros st Hst Hno. unfold MessageRingEnqueue, MessageRingPrepareEnqueue. fold n. rewrite Hpre, Hst.
    simpl. by destruct st. }
  unfold PrepareEnqueue_reserve, kMessageRingRecordHeaderBytes in Hstuck.
  rewrite (StateIsValid_rep _ _ H) in Hstuck. cbn [negb] in Hstuck.
  rewrite (wrap32_small (16 + n)), (wrap32_small (_ - _)) in Hstuck by ulia. unfold admission.
  destruct (Z.eqb_spec (producer_reservation_id (producer r)) 0) as [Hid|]; cbn [negb] in *;
    [|by apply Hstuck].
  destruct (Z.eqb_spec (reservation_exhausted r) 0) as [Hre|]; cbn [negb] in *; [|by apply Hstuck].
  destruct (Z.eqb_spec (sequence_exhausted r) 0) as [Hse|]; cbn [negb] in *; [|by apply Hstuck].
  destruct (Z.ltb_spec (capacity_bytes r - used_bytes r) (16 + n)); [by apply Hstuck|].
  clear Hstuck. assert (Hz : producer r = zero_producer).
  { destruct (rep_producer _ _ H) as [|(? & _)]; [done|lia]. }
  destruct (prepare_idle _ _ _ _ _ _ H Hpre Hz Hre Hse) as
    (r1 & Hprep & Hrep1 & Hb & Hp1 & _ & Hn1 & Hs1 & Hself & Hst & Hcap); [fold n; lia|].
  fold n in Hprep. unfold MessageRingEnqueue. rewrite Hprep. cbn [enq_status enq_reservation_id].
  pose proof (rep_reservation _ _ H) as [Hres _].
  unfold MessageRingPublishEnqueue. rewrite (local_nonnull _ _ _ Hl). destruct Hl as [Hv Hr Hs].
  rewrite Hv, Hself, Hst, Hcap, Hr, Hs, (rep_is_ready _ _ Hrep1). cbn [negb andb].
  rewrite (proj2 (Z.eqb_neq (next_reservation_id r) 0)) by lia.
  unfold reserved_bytes in Hb. rewrite (tail_position _ _ _ _ Hrep1) in Hb.
  assert (Hnz : producer r1 <> zero_producer) by (rewrite Hp1; intros [=]; lia).
  assert (Hfs : producer_frame_size (producer r1) = n) by (by rewrite Hp1).
  destruct (PublishEnqueue_locked r1 (next_reservation_id r)) as [[st r2] sq] eqn:Hpub.
  replace (next_reservation_id r) with (producer_reservation_id (producer r1)) in Hpub
    by (by rewrite Hp1).
  destruct (publish_rep _ _ _ Hrep1 Hnz Hfs Hb Hs1 _ _ _ Hpub) as (-> & -> & Hrep2 & _);
    [by rewrite Hp1|].
  exists r2. cbn [default enq_message_error enq_payload_error]. rewrite Hn1 in *. done.
Qed.

(** The owner of the receive transaction ends its copy and commits. *)
Lemma end_owned r q s lease n cid ok :
  ring_rep r q -> receiver r = MkReceiver s lease n cid 0 -> cid <> 0 ->
  MessageRingEndCopyOut (Some r) s lease cid ok
  = (RingOk, Some (set_receiver r (MkReceiver s lease n 0 (if ok then cid else 0)))).
Proof.
  intros Hrep Hrc Hc. destruct (rep_receiver _ _ Hrep) as [Hz|(f & q' & Hq & _ & Hl & _)].
  { rewrite Hrc in Hz. by injection Hz. }
  rewrite Hq in Hrep. pose proof (rep_sequence_bounds _ _ Hrep O _ eq_refl) as [Hs _]. simpl in Hs.
  rewrite Hrc in Hl, Hs. simpl in Hl, Hs. unfold MessageRingEndCopyOut.
  rewrite (rep_is_ready _ _ Hrep), (StateIsValid_rep _ _ Hrep), Hrc.
  cbn [receive_sequence receive_lease_id receive_copy_id receive_frame_size negb]. rewrite !Z.eqb_refl.
  by rewrite (proj2 (Z.eqb_neq s 0)), (proj2 (Z.eqb_neq lease 0)), (proj2 (Z.eqb_neq cid 0)) by lia.
Qed.

Lemma commit_owned r s f q lease cid :
  ring_rep r ((s, f) :: q) -> receiver r = MkReceiver s lease (Z.of_nat (length f)) 0 cid -> cid <> 0 ->
  exists r', MessageRingCommit (Some r) s lease = (RingOk, Some r') /\ ring_rep r' q
    /\ producer r' = producer r /\ receiver r' = zero_receiver.
Proof.
  intros Hrep Hrc Hc. pose proof (rep_sequence_bounds _ _ Hrep O _ eq_refl) as [Hs _]. simpl in Hs.
  assert (1 <= lease) as Hl.
  { destruct (rep_receiver _ _ Hrep) as [Hz|(_ & _ & _ & _ & Hl & _)]; rewrite Hrc in *; [by injection Hz | done]. }
  destruct (MessageRingCommit (Some r) s lease) as [st ring'] eqn:Hcm.
  assert (st = RingOk) as ->.
  { revert Hcm. unfold MessageRingCommit. rewrite (rep_is_ready _ _ Hrep), (StateIsValid_rep _ _ Hrep), Hrc.
    cbn [receive_sequence receive_lease_id receive_copy_id receive_copy_succeeded_id negb Z.eqb].
    rewrite !Z.eqb_refl. rewrite (proj2 (Z.eqb_neq s 0)), (proj2 (Z.eqb_neq lease 0)), (proj2 (Z.eqb_neq cid 0)) by lia.
    cbn [negb orb]. pose proof (head_matches_rep r f q) as Hm. rewrite Hrc in Hm.
    cbn [receive_sequence receive_frame_size] in Hm. rewrite (Hm Hrep eq_refl). by intros [= <- _]. }
  apply (commit_rep _ _ _ _ _ _ Hrep) in Hcm as (_ & r' & -> & [[_ ?]|Hok]); [done|].
  destruct Hok as (_ & _ & _ & f' & q' & Hq & Hrep' & _ & _ & _ & Hp & Hrv & _). simplify_eq. by exists r'.
Qed.

Lemma peek_head r s f q out :
  ring_rep r ((s, f) :: q) -> receiver r = zero_receiver -> receive_lease_exhausted r = 0 ->
  local_ok r out sizeof_MessageRingPeekView ->
  exists lease r', MessageRingPeek (Some r) out =
      (RingOk, Some r', Some (MkPeekView s lease (Z.of_nat (length f)))) /\
    ring_rep r' ((s, f) :: q) /\ 1 <= lease /\
    receiver r' = MkReceiver s lease (Z.of_nat (length f)) 0 0 /\
    ring_self r' = ring_self r /\ storage r' = storage r /\ capacity_bytes r' = capacity_bytes r /\
    copy_id_exhausted r' = copy_id_exhausted r /\ next_copy_id r' = next_copy_id r.
Proof.
  intros H Hidle Hx Hl. destruct (MessageRingPeek (Some r) out) as [[st ring'] v] eqn:Hp.
  pose proof Hp as Hp0. apply (peek_rep _ _ _ _ _ _ H) in Hp as (_ & r' & -> & Hrep & Hcase).
  pose proof Hp0 as Hcalc. revert Hcalc. unfold MessageRingPeek.
  rewrite (local_preflight _ _ _ (rep_is_ready _ _ H) Hl), (StateIsValid_rep _ _ H), Hidle, Hx.
  pose proof (rep_queued _ _ H) as Hqn. simpl length in Hqn. cbn [negb receive_sequence zero_receiver Z.eqb].
  rewrite (proj2 (Z.eqb_neq (queued_frames r) 0)), (ReadHeadRecord_rep _ _ _ _ H) by lia.
  intros [= <- Hr <-]. destruct Hcase as [[_ ?]|(_ & _ & _ & _ & s' & f' & q' & l & Hq & Hl1 & Hrc & Hv)];
    [done|]. simplify_eq. eexists _, _. split; [done|].
  split_and!; try done; destruct (_ =? kU64Max); done.
Qed.

Lemma copyout_head r s f q lease dst out spans_addr :
  let n := Z.of_nat (length (buf_bytes dst)) in
  ring_rep r ((s, f) :: q) -> receiver r = MkReceiver s lease (Z.of_nat (length f)) 0 0 ->
  1 <= lease -> copy_id_exhausted r = 0 -> local_ok r spans_addr sizeof_MessageRingCopySpans ->
  local_ok r (buf_addr dst) n -> local_ok r out sizeof_u32 ->
  RangesOverlap out sizeof_u32 (buf_addr dst) n = false -> (length f <= length (buf_bytes dst))%nat ->
  exists r', MessageRingCopyOut (Some r) s lease dst n out spans_addr =
      (RingOk, Some r', f ++ drop (length f) (buf_bytes dst), Some (Z.of_nat (length f))) /\
    ring_rep r' ((s, f) :: q) /\
    receiver r' = MkReceiver s lease (Z.of_nat (length f)) 0 (next_copy_id r).
Proof.
  intros n H Hrc Hlease Hx Hsp Hd Ho Hov Hlen.
  pose proof (rep_sequence_bounds _ _ H O _ eq_refl) as [Hs _]. simpl in Hs.
  pose proof (rep_copy _ _ H) as [Hcid _].
  destruct (MessageRingBeginCopyOut (Some r) s lease spans_addr) as [[st ring1] v] eqn:Hb.
  assert (Hst : st = RingOk /\ option_map span_copy_id v = Some (next_copy_id r)).
  { revert Hb. unfold MessageRingBeginCopyOut.
    rewrite (proj2 (Z.eqb_neq s 0)), (proj2 (Z.eqb_neq lease 0)) by lia. cbn [negb andb].
    rewrite (local_preflight _ _ _ (rep_is_ready _ _ H) Hsp), (StateIsValid_rep _ _ H), Hrc, Hx.
    cbn [receive_sequence receive_lease_id receive_copy_id negb Z.eqb]. rewrite !Z.eqb_refl.
    pose proof (head_matches_rep r f q) as Hm. rewrite Hrc in Hm. cbn [receive_sequence receive_frame_size] in Hm.
    rewrite (Hm H eq_refl). by intros [= <- _ <-]. }
  destruct Hst as [-> Hid].
  pose proof Hb as Hb'. apply (begin_rep _ _ _ _ _ _ _ _ H) in Hb as (_ & r1 & -> & Hrep1 & [[_ ?]|Hok]); [done|].
  destruct Hok as (_ & Hsame & _ & f' & q' & cid & Hq & _ & _ & _ & Hcid1 & Hrc1 & ->).
  simplify_eq/=. destruct Hsame as [Hda Hh _ _ Hc _].
  pose proof (end_owned r1 _ s lease _ (next_copy_id r) true Hrep1 Hrc1 ltac:(lia)) as He0.
  pose proof He0 as He.
  apply (end_rep _ _ _ _ _ _ _ _ Hrep1) in He as (_ & r2 & E2 & Hrep2 & _). injection E2 as <-.
  eexists. pose proof (read_head_spans _ _ _ _ (next_copy_id r) Hrep1) as [Hread Hsize].
  rewrite Hh, Hc in Hread, Hsize. cbv zeta in Hsize.
  unfold MessageRingCopyOut. rewrite (local_nonnull _ _ _ Ho), (local_nonnull _ _ _ Hd).
  destruct Ho as [Ho1 Ho2 Ho3], Hd as [Hd1 Hd2 Hd3]. fold n.
  rewrite Ho1, Ho2, (rep_is_ready _ _ H), Hd2, Hd3, Ho3, Hd1, Hov, Hb'. cbn [negb andb orb].
  rewrite (proj2 (Z.eqb_neq s 0)), (proj2 (Z.eqb_neq lease 0)) by lia. cbn [orb default id from_option].
  rewrite Hsize, Hread, (proj2 (Z.ltb_ge _ _)) by lia.
  cbn [span_copy_id head_spans]. rewrite He0, inserts_prefix by done.
  by split_and!.
Qed.

(** Receive round trip: on a ring whose oldest frame is [f], peek,
    copy-out and commit succeed, name the frame's sequence and size, put
    exactly the bytes of [f] at the start of the destination and no other
    byte, and leave exactly the remaining queue. *)
Theorem message_ring_receive_roundtrip r s f q dst view_addr out spans_addr :
  let n := Z.of_nat (length (buf_bytes dst)) in
  ring_rep r ((s, f) :: q) -> receiver r = zero_receiver ->
  receive_lease_exhausted r = 0 -> copy_id_exhausted r = 0 ->
  local_ok r view_addr sizeof_MessageRingPeekView ->
  local_ok r spans_addr sizeof_MessageRingCopySpans ->
  local_ok r (buf_addr dst) n -> local_ok r out sizeof_u32 ->
  RangesOverlap out sizeof_u32 (buf_addr dst) n = false -> (length f <= length (buf_bytes dst))%nat ->
  exists lease r1 r2 r3,
    MessageRingPeek (Some r) view_addr =
      (RingOk, Some r1, Some (MkPeekView s lease (Z.of_nat (length f)))) /\
    MessageRingCopyOut (Some r1) s lease dst n out spans_addr =
      (RingOk, Some r2, f ++ drop (length f) (buf_bytes dst), Some (Z.of_nat (length f))) /\
    MessageRingCommit (Some r2) s lease = (RingOk, Some r3) /\ ring_rep r3 q.
Proof.
  intros n H Hidle Hlx Hcx Hview Hsp Hd Ho Hov Hlen.
  destruct (peek_head _ _ _ _ _ H Hidle Hlx Hview)
    as (lease & r1 & Hpeek & Hrep1 & Hlease & Hrc1 & Hself & Hst & Hcap & Hcx1 & Hcid1).
  assert (Hmove : forall a b, local_ok r a b -> local_ok r1 a b).
  { intros a b []. constructor; by rewrite ?Hself, ?Hst, ?Hcap. }
  destruct (copyout_head r1 s f q lease dst out spans_addr Hrep1 Hrc1 Hlease) as (r2 & Hcopy & Hrep2 & Hrc2);
    [by rewrite Hcx1|by apply Hmove..|done|done|].
  pose proof (rep_copy _ _ Hrep1) as [Hcid _].
  pose proof (rep_sequence_bounds _ _ H O _ eq_refl) as [Hs _]. simpl in Hs.
  destruct (commit_owned r2 s f q lease (next_copy_id r1) Hrep2 Hrc2 ltac:(lia)) as (r3 & Hc & Hrep3 & _).
  exists lease, r1, r2, r3. done.
Qed.

(** ** Witnesses *)

Definition demo_blank : MessageRing :=
  MkRing 1048576 0 [] 0 0 0 0 0 0 0 0 0 0 zero_producer 0 0 0 0 zero_receiver.
Definition demo_store : Buffer := MkBuffer 2097152 (replicate 100 0).
Definition demo_ring : MessageRing :=
  default demo_blank (MessageRingInitialize (Some demo_blank) demo_store 100 7).2.
Definition demo_frame (k : Z) : Buffer :=
  MkBuffer 4096 (MessageEncodeHeaderV1 (MkBuffer 4096 (replicate 32 0)) 32
                   (MkHeader KindRequest 0 7 9 k)).2.
Definition no_rules : RuleTable := MkRules 0 [].

(** Two frames, one of them received while a third wraps around the end of
    the storage under a pinned copy. *)
Definition demo_actions : list ring_action :=
  [APrepare (demo_frame 1) no_rules 0 8192; ACopy 0 20; ACopy 0 40; AFinish 0; APublish 1 12288;
   APrepare (demo_frame 2) no_rules 0 8192; ACopy 0 32; AFinish 0; APublish 2 0;
   APeek 12288; ABegin 7 1 12288; AEnd 7 1 1 true; ACommit 7 1;
   APrepare (demo_frame 3) no_rules 0 8192; APeek 12288; ABegin 8 2 12288; ACopy 0 5; ACopy 0 32;
   AFinish 0; APublish 3 0].
Definition demo_sys : ring_sys := (ring_run (start_sys demo_ring) demo_actions).1.
Definition demo_statuses := (ring_run (start_sys demo_ring) demo_actions).2.

Lemma demo_run : ring_run (start_sys demo_ring) demo_actions = (demo_sys, demo_statuses).
Proof. vm_compute. reflexivity. Qed.

Lemma message_ring_is_fifo_witness :
  demo_statuses = [None; None; None; Some RingOk; Some RingOk; None; None; Some RingOk;
    Some RingOk; Some RingOk; Some RingOk; Some RingOk; Some RingOk; None; Some RingOk;
    Some RingOk; None; None; Some RingOk; Some RingOk] /\
  (exists q, sys_published demo_sys = sys_delivered demo_sys ++ q /\
     queued_frames (sys_ring demo_sys) = Z.of_nat (length q)) /\
  (forall i e, sys_published demo_sys !! i = Some e -> e.1 = 7 + Z.of_nat i /\ e.1 <= u64_max).
Proof.
  split; [vm_compute; reflexivity|].
  apply (message_ring_is_fifo (Some demo_blank) demo_store 7 demo_ring) with
    (actions := demo_actions) (sts := demo_statuses).
  - vm_compute. reflexivity.
  - vm_compute. discriminate.
  - vm_compute. split; discriminate.
  - exact demo_run.
Defined.

Lemma message_ring_never_corrupts_witness :
  Some RingCorruptState ∉ demo_statuses /\ StateIsValid (sys_ring demo_sys) = true /\
  exists q, sys_published demo_sys = sys_delivered demo_sys ++ q /\
    used_bytes (sys_ring demo_sys) = Z.of_nat (length (queue_bytes q)) /\
    used_bytes (sys_ring demo_sys) <= capacity_bytes (sys_ring demo_sys) /\
    rread (data (sys_ring demo_sys)) (hpos (sys_ring demo_sys)) (length (queue_bytes q)) =
      queue_bytes q.
Proof.
  apply (message_ring_never_corrupts (Some demo_blank) demo_store 7 demo_ring) with
    (actions := demo_actions).
  - vm_compute. reflexivity.
  - vm_compute. discriminate.
  - vm_compute. split; discriminate.
  - exact demo_run.
Defined.

Lemma message_ring_spans_are_stable_witness :
  receive_copy_id (receiver (sys_ring demo_sys)) = 2 /\
  span_copy_id (sys_spans demo_sys) = receive_copy_id (receiver (sys_ring demo_sys)) /\
  sys_published demo_sys !! length (sys_delivered demo_sys) =
    Some (receive_sequence (receiver (sys_ring demo_sys)),
          read_spans (sys_ring demo_sys) (sys_spans demo_sys)).
Proof.
  split; [vm_compute; reflexivity|].
  apply (message_ring_spans_are_stable (Some demo_blank) demo_store 7 demo_ring) with
    (actions := demo_actions) (sts := demo_statuses).
  - vm_compute. reflexivity.
  - vm_compute. discriminate.
  - vm_compute. split; discriminate.
  - exact demo_run.
  - vm_compute. discriminate.
Defined.

Lemma demo_ring_rep : ring_rep demo_ring [].
Proof.
  apply (initialize_ok (Some demo_blank) demo_store 100 7 demo_ring).
  - vm_compute. reflexivity.
  - vm_compute. reflexivity.
  - vm_compute. discriminate.
  - vm_compute. split; discriminate.
Qed.

Lemma demo_local r addr bytes :
  PointerRangeIsValid addr bytes = true ->
  RangesOverlap addr bytes (ring_self r) sizeof_MessageRing = false ->
  RangesOverlap addr bytes (storage r) (capacity_bytes r) = false -> local_ok r addr bytes.
Proof. by constructor. Qed.

Lemma message_ring_enqueue_decided_witness :
  admission demo_ring 32 = RingOk /\
  exists r', MessageRingEnqueue (Some demo_ring) (demo_frame 1) 32 no_rules 0 8192 12288 =
    (MkEnqueueResult RingOk 1 7 MsgOk PayOk, Some r') /\
    ring_rep r' [(7, buf_bytes (demo_frame 1))].
Proof.
  split; [vm_compute; reflexivity|].
  apply (message_ring_enqueue_decided demo_ring [] (demo_frame 1) no_rules 0 8192 12288).
  - exact demo_ring_rep.
  - vm_compute. reflexivity.
  - apply demo_local; vm_compute; reflexivity.
Defined.

Definition demo_one : MessageRing :=
  default demo_blank
    (MessageRingEnqueue (Some demo_ring) (demo_frame 1) 32 no_rules 0 8192 12288).2.

Lemma demo_one_rep : ring_rep demo_one [(7, buf_bytes (demo_frame 1))].
Proof.
  constructor; try (vm_compute; done); try (vm_compute; split; done).
  - apply Forall_singleton. vm_compute. split; discriminate.
  - intros [|i] e Hi; [|done]. injection Hi as <-. vm_compute. reflexivity.
  - vm_compute. split; [split; discriminate|by left].
  - vm_compute. split; [split; discriminate|by left].
  - vm_compute. split; [split; discriminate|by left].
  - vm_compute. split; [split; discriminate|by left].
  - by left.
  - by left.
Qed.

Lemma message_ring_receive_roundtrip_witness :
  exists lease r1 r2 r3,
    MessageRingPeek (Some demo_one) 8192 = (RingOk, Some r1, Some (MkPeekView 7 lease 32)) /\
    MessageRingCopyOut (Some r1) 7 lease (MkBuffer 16384 (replicate 40 170)) 40 12288 8192 =
      (RingOk, Some r2, buf_bytes (demo_frame 1) ++ replicate 8 170, Some 32) /\
    MessageRingCommit (Some r2) 7 lease = (RingOk, Some r3) /\ ring_rep r3 [].
Proof.
  apply (message_ring_receive_roundtrip demo_one 7 (buf_bytes (demo_frame 1)) []
           (MkBuffer 16384 (replicate 40 170)) 8192 12288 8192).
  - exact demo_one_rep.
  - vm_compute. reflexivity.
  - vm_compute. reflexivity.
  - vm_compute. reflexivity.
  - apply demo_local; vm_compute; reflexivity.
  - apply demo_local; vm_compute; reflexivity.
  - apply demo_local; vm_compute; reflexivity.
  - apply demo_local; vm_compute; reflexivity.
  - vm_compute. reflexivity.
  - vm_compute. lia.
Defined.
