(* ===== verification/ResourceDomain.v ===== *)
(** * Resource domains and their charges

    Model of [kernel/proc/resource_domain.h] and
    [kernel/proc/resource_domain.cpp]: the fixed table of accounting domains,
    one per independently rooted process tree, and the two fixed tables of
    charge rows (Sections in pages, channels in bytes) that pin a domain
    until the last exact charge is released.

    The two charge classes have the same row layout and the same critical
    sections over different counters; they are one definition indexed by
    [ChargeClass], instantiated as in the source.  A null output pointer is
    [false] for the presence flag, and a stored output is returned as an
    option.  Every public operation is one critical section of the domain
    lock. *)

From S2P Require Import Prelude.

Definition kResourceDomainCapacity : nat := 64.
Definition kResourceSectionChargeCapacity : nat := 8.
Definition kResourceChannelChargeCapacity : nat := 64.

Definition kSandboxSectionObjectLimit : Z := 2.
Definition kSandboxSectionPageLimitMaximum : Z := 8.
Definition kTrustedSectionObjectLimit : Z := 2.
Definition kTrustedSectionPageLimit : Z := 1024.
Definition kAuthenticatedServiceSectionObjectLimit : Z := 4.
Definition kAuthenticatedServiceSectionPageLimit : Z := 2048.
Definition kSandboxChannelObjectLimit : Z := 2.
Definition kSandboxChannelByteLimit : Z := 16 * 1024.
Definition kTrustedChannelObjectLimit : Z := 8.
Definition kTrustedChannelByteLimit : Z := 64 * 1024.
Definition kAuthenticatedServiceChannelObjectLimit : Z := 32.
Definition kAuthenticatedServiceChannelByteLimit : Z := 256 * 1024.

Definition kResourceDomainGenerationMaximum : Z := 2251799813685247. (* 2^51 - 1 *)
Definition kResourceChargeGenerationMaximum : Z := 2251799813685247.

Inductive ResourceDomainProfile := ProfileSandbox | ProfileTrusted | ProfileAuthenticatedService.
Inductive ResourceDomainState := DomainRetired | DomainLive | DomainClosing.
Inductive ResourceSectionPoolClass := PoolOrdinary | PoolAuthenticatedService.
Inductive ResourceChargeState := ChargeRetired | ChargeLive.
Inductive ChargeClass := SectionCharge | ChannelCharge.

#[export] Instance ResourceDomainProfile_eq_dec : EqDecision ResourceDomainProfile.
Proof. solve_decision. Defined.
#[export] Instance ResourceDomainState_eq_dec : EqDecision ResourceDomainState.
Proof. solve_decision. Defined.
#[export] Instance ResourceSectionPoolClass_eq_dec : EqDecision ResourceSectionPoolClass.
Proof. solve_decision. Defined.
#[export] Instance ResourceChargeState_eq_dec : EqDecision ResourceChargeState.
Proof. solve_decision. Defined.
#[export] Instance ChargeClass_eq_dec : EqDecision ChargeClass.
Proof. solve_decision. Defined.

(** [ResourceDomainKey], [ResourceSectionChargeKey], [ResourceChannelChargeKey]. *)
Record ResourceKey := MkKey { key_slot : nat; key_generation : Z }.
#[export] Instance ResourceKey_eq_dec : EqDecision ResourceKey.
Proof. solve_decision. Defined.

Definition charge_capacity (c : ChargeClass) : nat :=
  match c with
  | SectionCharge => kResourceSectionChargeCapacity
  | ChannelCharge => kResourceChannelChargeCapacity
  end.

Definition kInvalidResourceDomainKey : ResourceKey := MkKey kResourceDomainCapacity 0.
Definition kInvalidChargeKey (c : ChargeClass) : ResourceKey := MkKey (charge_capacity c) 0.

Definition ResourceDomainKeyIsValid (key : ResourceKey) : bool :=
  (key_slot key <? kResourceDomainCapacity)%nat && negb (key_generation key =? 0)
  && (key_generation key <=? kResourceDomainGenerationMaximum).

Definition ChargeKeyIsValid (c : ChargeClass) (key : ResourceKey) : bool :=
  (key_slot key <? charge_capacity c)%nat && negb (key_generation key =? 0)
  && (key_generation key <=? kResourceChargeGenerationMaximum).

(** The counters and limits of one charge class in a domain row. *)
Record Usage := MkUsage {
  use_objects : Z;
  use_amount : Z;
  use_object_limit : Z;
  use_amount_limit : Z;
}.

Record ResourceDomainRow := MkDomainRow {
  row_state : ResourceDomainState;
  row_profile : ResourceDomainProfile;
  row_pool_class : ResourceSectionPoolClass;
  row_generation : Z;
  owner_references : Z;
  section_usage : Usage;
  channel_usage : Usage;
}.

Record ResourceChargeRow := MkChargeRow {
  charge_state : ResourceChargeState;
  charge_generation : Z;
  charge_domain : ResourceKey;
  charge_amount : Z;
}.

Record Domains := MkDomains {
  g_resource_domains : list ResourceDomainRow;
  g_section_charges : list ResourceChargeRow;
  g_channel_charges : list ResourceChargeRow;
}.

Definition zero_usage : Usage := MkUsage 0 0 0 0.
Definition zero_domain_row : ResourceDomainRow :=
  MkDomainRow DomainRetired ProfileSandbox PoolOrdinary 0 0 zero_usage zero_usage.
Definition zero_charge_row : ResourceChargeRow := MkChargeRow ChargeRetired 0 (MkKey 0 0) 0.
Definition boot_domains : Domains :=
  MkDomains (replicate kResourceDomainCapacity zero_domain_row)
    (replicate kResourceSectionChargeCapacity zero_charge_row)
    (replicate kResourceChannelChargeCapacity zero_charge_row).

(** ** Access by class *)

Definition usage (c : ChargeClass) (row : ResourceDomainRow) : Usage :=
  match c with SectionCharge => section_usage row | ChannelCharge => channel_usage row end.
Definition set_usage (c : ChargeClass) (row : ResourceDomainRow) (u : Usage) : ResourceDomainRow :=
  match c with
  | SectionCharge => MkDomainRow (row_state row) (row_profile row) (row_pool_class row)
                       (row_generation row) (owner_references row) u (channel_usage row)
  | ChannelCharge => MkDomainRow (row_state row) (row_profile row) (row_pool_class row)
                       (row_generation row) (owner_references row) (section_usage row) u
  end.
Definition charges (c : ChargeClass) (d : Domains) : list ResourceChargeRow :=
  match c with SectionCharge => g_section_charges d | ChannelCharge => g_channel_charges d end.
Definition set_charges (c : ChargeClass) (d : Domains) (l : list ResourceChargeRow) : Domains :=
  match c with
  | SectionCharge => MkDomains (g_resource_domains d) l (g_channel_charges d)
  | ChannelCharge => MkDomains (g_resource_domains d) (g_section_charges d) l
  end.
Definition set_domain (d : Domains) (slot : nat) (row : ResourceDomainRow) : Domains :=
  MkDomains (<[slot := row]> (g_resource_domains d)) (g_section_charges d) (g_channel_charges d).
Definition set_owners (row : ResourceDomainRow) (n : Z) : ResourceDomainRow :=
  MkDomainRow (row_state row) (row_profile row) (row_pool_class row) (row_generation row) n
    (section_usage row) (channel_usage row).
Definition set_state (row : ResourceDomainRow) (s : ResourceDomainState) : ResourceDomainRow :=
  MkDomainRow s (row_profile row) (row_pool_class row) (row_generation row)
    (owner_references row) (section_usage row) (channel_usage row).
Definition uncharged (u : Usage) : Usage := MkUsage 0 0 (use_object_limit u) (use_amount_limit u).

(** ** Operations *)

Definition ResolveDomainExactLocked (d : Domains) (key : ResourceKey) : option ResourceDomainRow :=
  if negb (ResourceDomainKeyIsValid key) then None
  else match g_resource_domains d !! key_slot key with
       | Some row => if row_generation row =? key_generation key then Some row else None
       | None => None
       end.

Definition ResolveChargeExactLocked (c : ChargeClass) (d : Domains) (key : ResourceKey)
    : option ResourceChargeRow :=
  if negb (ChargeKeyIsValid c key) then None
  else match charges c d !! key_slot key with
       | Some row => if charge_generation row =? key_generation key then Some row else None
       | None => None
       end.

Definition RetireDomainLocked (row : ResourceDomainRow) : ResourceDomainRow :=
  MkDomainRow DomainRetired (row_profile row) (row_pool_class row) (row_generation row) 0
    (uncharged (section_usage row)) (uncharged (channel_usage row)).

(** The scan loops: the first retired row whose generation can still grow. *)
Fixpoint first_free_domain (slot : nat) (rows : list ResourceDomainRow)
    : option (nat * ResourceDomainRow) :=
  match rows with
  | [] => None
  | row :: rest =>
      if negb (bool_decide (row_state row = DomainRetired))
         || (kResourceDomainGenerationMaximum <=? row_generation row)
      then first_free_domain (S slot) rest
      else Some (slot, row)
  end.

Fixpoint first_free_charge (slot : nat) (rows : list ResourceChargeRow)
    : option (nat * ResourceChargeRow) :=
  match rows with
  | [] => None
  | row :: rest =>
      if negb (bool_decide (charge_state row = ChargeRetired))
         || (kResourceChargeGenerationMaximum <=? charge_generation row)
      then first_free_charge (S slot) rest
      else Some (slot, row)
  end.

Definition CreateDomain (d : Domains) (profile : ResourceDomainProfile)
    (pool_class : ResourceSectionPoolClass)
    (object_limit page_limit channel_object_limit channel_byte_limit : Z) (has_out : bool)
    : bool * Domains * option ResourceKey :=
  if negb has_out || (object_limit =? 0) || (page_limit =? 0) || (channel_object_limit =? 0)
     || (channel_byte_limit =? 0)
  then (false, d, None)
  else
    match first_free_domain 0 (g_resource_domains d) with
    | None => (false, d, Some kInvalidResourceDomainKey)
    | Some (slot, row) =>
        let generation := row_generation row + 1 in
        (true,
         set_domain d slot
           (MkDomainRow DomainLive profile pool_class generation 1
              (MkUsage 0 0 object_limit page_limit)
              (MkUsage 0 0 channel_object_limit channel_byte_limit)),
         Some (MkKey slot generation))
    end.

(** A caller that stored the invalid key before calling [CreateDomain]. *)
Definition cleared_first (r : bool * Domains * option ResourceKey)
    : bool * Domains * option ResourceKey :=
  let '(ok, d, out) := r in
  (ok, d, Some (default kInvalidResourceDomainKey out)).

Definition ResourceDomainCreateSandbox (d : Domains) (frame_budget_pages : Z) (has_out : bool)
    : bool * Domains * option ResourceKey :=
  if negb has_out then (false, d, None)
  else if frame_budget_pages =? 0 then (false, d, Some kInvalidResourceDomainKey)
  else
    let page_limit := wrap32 (if frame_budget_pages <? kSandboxSectionPageLimitMaximum
                              then frame_budget_pages else kSandboxSectionPageLimitMaximum) in
    cleared_first
      (CreateDomain d ProfileSandbox PoolOrdinary kSandboxSectionObjectLimit page_limit
         kSandboxChannelObjectLimit kSandboxChannelByteLimit has_out).

Definition ResourceDomainCreateTrusted (d : Domains) (has_out : bool)
    : bool * Domains * option ResourceKey :=
  CreateDomain d ProfileTrusted PoolOrdinary kTrustedSectionObjectLimit kTrustedSectionPageLimit
    kTrustedChannelObjectLimit kTrustedChannelByteLimit has_out.

Definition ResourceDomainCreateBoundedAuthenticatedService (d : Domains)
    (requested_section_objects requested_section_pages : Z) (has_out : bool)
    : bool * Domains * option ResourceKey :=
  if negb has_out then (false, d, None)
  else if (requested_section_objects =? 0)
          || (kAuthenticatedServiceSectionObjectLimit <? requested_section_objects)
          || (requested_section_pages =? 0)
          || (kAuthenticatedServiceSectionPageLimit <? requested_section_pages)
  then (false, d, Some kInvalidResourceDomainKey)
  else
    cleared_first
      (CreateDomain d ProfileAuthenticatedService PoolAuthenticatedService
         requested_section_objects requested_section_pages
         kAuthenticatedServiceChannelObjectLimit kAuthenticatedServiceChannelByteLimit has_out).

Definition ResourceDomainCreateAuthenticatedService (d : Domains) (has_out : bool)
    : bool * Domains * option ResourceKey :=
  ResourceDomainCreateBoundedAuthenticatedService d kAuthenticatedServiceSectionObjectLimit
    kAuthenticatedServiceSectionPageLimit has_out.

Definition ResourceDomainRetain (d : Domains) (key : ResourceKey) : bool * Domains :=
  match ResolveDomainExactLocked d key with
  | None => (false, d)
  | Some row =>
      if negb (bool_decide (row_state row = DomainLive)) || (owner_references row =? 0)
         || (owner_references row =? u32_max)
      then (false, d)
      else (true, set_domain d (key_slot key) (set_owners row (owner_references row + 1)))
  end.

(** Any class still charged. *)
Definition row_charged (row : ResourceDomainRow) : bool :=
  negb (use_objects (section_usage row) =? 0) || negb (use_amount (section_usage row) =? 0)
  || negb (use_objects (channel_usage row) =? 0) || negb (use_amount (channel_usage row) =? 0).

Definition ResourceDomainRelease (d : Domains) (key : ResourceKey) : bool * Domains :=
  match ResolveDomainExactLocked d key with
  | None => (false, d)
  | Some row =>
      if negb (bool_decide (row_state row = DomainLive)) || (owner_references row =? 0)
      then (false, d)
      else
        let row1 := set_owners row (owner_references row - 1) in
        if negb (owner_references row1 =? 0) then (true, set_domain d (key_slot key) row1)
        else if row_charged row1
        then (true, set_domain d (key_slot key) (set_state row1 DomainClosing))
        else (true, set_domain d (key_slot key) (RetireDomainLocked row1))
  end.

(** The width of an amount: pages are [u32], channel bytes [u64]. *)
Definition wrap_amount (c : ChargeClass) (x : Z) : Z :=
  match c with SectionCharge => wrap32 x | ChannelCharge => wrap64 x end.

(** [ResourceDomainTryChargeSection] / [ResourceDomainTryChargeChannel]. *)
Definition TryCharge (c : ChargeClass) (d : Domains) (domain : ResourceKey) (amount : Z)
    (has_out : bool) : bool * Domains * option ResourceKey * ResourceSectionPoolClass :=
  if negb has_out then (false, d, None, PoolOrdinary)
  else if amount =? 0 then (false, d, Some (kInvalidChargeKey c), PoolOrdinary)
  else
    match ResolveDomainExactLocked d domain with
    | None => (false, d, Some (kInvalidChargeKey c), PoolOrdinary)
    | Some domain_row =>
        let u := usage c domain_row in
        if negb (bool_decide (row_state domain_row = DomainLive))
           || (owner_references domain_row =? 0)
           || (use_object_limit u <=? use_objects u) || (use_amount_limit u <? use_amount u)
           || (use_amount_limit u - use_amount u <? amount)
        then (false, d, Some (kInvalidChargeKey c), PoolOrdinary)
        else
          match first_free_charge 0 (charges c d) with
          | None => (false, d, Some (kInvalidChargeKey c), PoolOrdinary)
          | Some (slot, charge) =>
              let generation := charge_generation charge + 1 in
              let charge' := MkChargeRow ChargeLive generation domain amount in
              let u' := MkUsage (wrap32 (use_objects u + 1)) (wrap_amount c (use_amount u + amount))
                          (use_object_limit u) (use_amount_limit u) in
              (true,
               set_domain (set_charges c d (<[slot := charge']> (charges c d))) (key_slot domain)
                 (set_usage c domain_row u'),
               Some (MkKey slot generation), row_pool_class domain_row)
          end
    end.

(** [ResourceDomainReleaseSection] / [ResourceDomainReleaseChannel]; the
    output is the caller's key after the call, absent when untouched. *)
Definition ReleaseCharge (c : ChargeClass) (d : Domains) (charge_key : option ResourceKey)
    : bool * Domains * option ResourceKey :=
  match charge_key with
  | None => (false, d, None)
  | Some key =>
      if negb (ChargeKeyIsValid c key) then (false, d, None)
      else
        match ResolveChargeExactLocked c d key with
        | None => (false, d, None)
        | Some charge =>
            if negb (bool_decide (charge_state charge = ChargeLive)) || (charge_amount charge =? 0)
            then (false, d, None)
            else
              match ResolveDomainExactLocked d (charge_domain charge) with
              | None => (false, d, None)
              | Some domain =>
                  let u := usage c domain in
                  if (negb (bool_decide (row_state domain = DomainLive))
                      && negb (bool_decide (row_state domain = DomainClosing)))
                     || (use_objects u =? 0) || (use_amount u <? charge_amount charge)
                  then (false, d, None)
                  else
                    let u' := MkUsage (use_objects u - 1) (use_amount u - charge_amount charge)
                                (use_object_limit u) (use_amount_limit u) in
                    let domain' := set_usage c domain u' in
                    let charge' := MkChargeRow ChargeRetired (charge_generation charge)
                                     kInvalidResourceDomainKey 0 in
                    let domain'' :=
                      if bool_decide (row_state domain' = DomainClosing) && negb (row_charged domain')
                      then RetireDomainLocked domain' else domain' in
                    (true,
                     set_domain
                       (set_charges c d (<[key_slot key := charge']> (charges c d)))
                       (key_slot (charge_domain charge)) domain'',
                     Some (kInvalidChargeKey c))
              end
        end
  end.

Definition ResourceDomainTryChargeSection := TryCharge SectionCharge.
Definition ResourceDomainReleaseSection := ReleaseCharge SectionCharge.
Definition ResourceDomainTryChargeChannel (d : Domains) (domain : ResourceKey)
    (queued_buffer_bytes : Z) (has_out : bool) : bool * Domains * option ResourceKey :=
  (TryCharge ChannelCharge d domain queued_buffer_bytes has_out).1.
Definition ResourceDomainReleaseChannel := ReleaseCharge ChannelCharge.

Record ResourceDomainSnapshot := MkSnapshotRow {
  snap_state : ResourceDomainState;
  snap_profile : ResourceDomainProfile;
  snap_pool_class : ResourceSectionPoolClass;
  snap_owner_references : Z;
  snap_section : Usage;
  snap_channel : Usage;
}.
Definition zero_domain_snapshot : ResourceDomainSnapshot :=
  MkSnapshotRow DomainRetired ProfileSandbox PoolOrdinary 0 zero_usage zero_usage.

Definition ResourceDomainInspectExact (d : Domains) (key : ResourceKey) (has_out : bool)
    : bool * option ResourceDomainSnapshot :=
  if negb has_out then (false, None)
  else match ResolveDomainExactLocked d key with
       | None => (false, Some zero_domain_snapshot)
       | Some row => (true, Some (MkSnapshotRow (row_state row) (row_profile row)
                          (row_pool_class row) (owner_references row) (section_usage row)
                          (channel_usage row)))
       end.

(** ** The boot self test

    [ResourceDomainSelfTest] as a state transformer on the tables; [andM] is
    the short-circuiting [&&] of calls. *)

Definition rdM (A : Type) : Type := Domains -> A * Domains.
Definition retM {A} (x : A) : rdM A := fun d => (x, d).
Definition bindM {A B} (m : rdM A) (k : A -> rdM B) : rdM B := fun d => let '(x, d') := m d in k x d'.
Notation "x <- m ;; k" := (bindM m (fun x => k)) (at level 100, m at next level, right associativity).
Definition andM (m n : rdM bool) : rdM bool := b <- m;; if b then n else retM false.
Definition notM (m : rdM bool) : rdM bool := b <- m;; retM (negb b).

Definition create (op : Domains -> bool * Domains * option ResourceKey) : rdM (bool * ResourceKey) :=
  fun d => let '(ok, d', out) := op d in ((ok, default kInvalidResourceDomainKey out), d').
Definition retain (key : ResourceKey) : rdM bool := fun d => ResourceDomainRetain d key.
Definition release (key : ResourceKey) : rdM bool := fun d => ResourceDomainRelease d key.
Definition charge_section (key : ResourceKey) (pages : Z)
    : rdM (bool * ResourceKey * ResourceSectionPoolClass) :=
  fun d => let '(ok, d', out, pool) := ResourceDomainTryChargeSection d key pages true in
           ((ok, default (kInvalidChargeKey SectionCharge) out, pool), d').
(** The charge with its outcome and stored key tested. *)
Definition charged (key : ResourceKey) (pages : Z) (pool : ResourceSectionPoolClass)
    : rdM (bool * ResourceKey) :=
  r <- charge_section key pages;;
  retM (r.1.1 && bool_decide (r.2 = pool), r.1.2).
Definition refused (key : ResourceKey) (pages : Z) : rdM bool :=
  r <- charge_section key pages;;
  retM (negb r.1.1).
Definition release_section (key : ResourceKey) : rdM bool :=
  fun d => let '(ok, d', _) := ResourceDomainReleaseSection d (Some key) in (ok, d').
Definition inspect (key : ResourceKey) (test : ResourceDomainSnapshot -> bool) : rdM bool :=
  fun d => match ResourceDomainInspectExact d key true with
           | (true, Some s) => (test s, d)
           | _ => (false, d)
           end.

Definition SnapshotMatches (s : ResourceDomainSnapshot) (state : ResourceDomainState)
    (profile : ResourceDomainProfile) (pool_class : ResourceSectionPoolClass)
    (refs objects pages object_limit page_limit channel_object_limit channel_byte_limit : Z)
    : bool :=
  bool_decide (snap_state s = state) && bool_decide (snap_profile s = profile)
  && bool_decide (snap_pool_class s = pool_class) && (snap_owner_references s =? refs)
  && (use_objects (snap_section s) =? objects) && (use_amount (snap_section s) =? pages)
  && (use_objects (snap_channel s) =? 0) && (use_amount (snap_channel s) =? 0)
  && (use_object_limit (snap_section s) =? object_limit)
  && (use_amount_limit (snap_section s) =? page_limit)
  && (use_object_limit (snap_channel s) =? channel_object_limit)
  && (use_amount_limit (snap_channel s) =? channel_byte_limit).

Definition when_valid (key : ResourceKey) (ok : bool) (body : rdM bool) : rdM bool :=
  if ResourceDomainKeyIsValid key then body else retM ok.
Definition release_if_valid (key : ResourceKey) (ok : bool) : rdM bool :=
  if ChargeKeyIsValid SectionCharge key then andM (release_section key) (retM ok) else retM ok.

Definition selftest_sandbox (ok : bool) : rdM bool :=
  c <- create (fun d => ResourceDomainCreateSandbox d 3 true);;
  let sandbox := c.2 in
  let ok := c.1 && ok in
  when_valid sandbox ok
    (ok <- andM (inspect sandbox (fun s => SnapshotMatches s DomainLive ProfileSandbox PoolOrdinary
           1 0 0 kSandboxSectionObjectLimit 3 kSandboxChannelObjectLimit kSandboxChannelByteLimit))
           (retM ok);;
     ok <- andM (retain sandbox) (retM ok);;
     ok <- andM (release sandbox) (retM ok);;
     a <- charged sandbox 2 PoolOrdinary;;
     let ok := a.1 && ok in
     r <- charge_section sandbox 2;;
     let ok := negb r.1.1 && bool_decide (r.1.2 = kInvalidChargeKey SectionCharge) && ok in
     b <- charge_section sandbox 1;;
     let ok := b.1.1 && ok in
     ok <- andM (refused sandbox 1) (retM ok);;
     let replay := a.2 in
     ok <- andM (release sandbox) (retM ok);;
     ok <- andM (inspect sandbox (fun s => SnapshotMatches s DomainClosing ProfileSandbox
           PoolOrdinary 0 2 3 kSandboxSectionObjectLimit 3 kSandboxChannelObjectLimit
           kSandboxChannelByteLimit)) (retM ok);;
     ok <- andM (notM (retain sandbox)) (andM (refused sandbox 1) (retM ok));;
     ok <- (if ChargeKeyIsValid SectionCharge a.2
            then ok <- andM (release_section a.2) (retM ok);;
                 andM (notM (release_section replay)) (retM ok)
            else retM ok);;
     ok <- release_if_valid b.1.2 ok;;
     andM (inspect sandbox (fun s => bool_decide (snap_state s = DomainRetired)
             && (snap_owner_references s =? 0) && (use_objects (snap_section s) =? 0)
             && (use_amount (snap_section s) =? 0))) (retM ok)).

Definition selftest_wide (ok : bool) : rdM bool :=
  c <- create (fun d => ResourceDomainCreateSandbox d 4096 true);;
  let ok := c.1 && ok in
  when_valid c.2 ok
    (ok <- andM (inspect c.2 (fun s => bool_decide (snap_profile s = ProfileSandbox)
           && (use_amount_limit (snap_section s) =? kSandboxSectionPageLimitMaximum))) (retM ok);;
     andM (release c.2) (retM ok)).

Definition selftest_trusted (ok : bool) : rdM bool :=
  c <- create (fun d => ResourceDomainCreateTrusted d true);;
  let trusted := c.2 in
  let ok := c.1 && ok in
  when_valid trusted ok
    (ok <- andM (inspect trusted (fun s => SnapshotMatches s DomainLive ProfileTrusted PoolOrdinary
           1 0 0 kTrustedSectionObjectLimit kTrustedSectionPageLimit kTrustedChannelObjectLimit
           kTrustedChannelByteLimit)) (retM ok);;
     a <- charge_section trusted 512;;
     b <- (if a.1.1 then charge_section trusted 512
           else retM (false, kInvalidChargeKey SectionCharge, PoolOrdinary));;
     let ok := a.1.1 && b.1.1 && ok in
     ok <- andM (refused trusted 1) (retM ok);;
     ok <- release_if_valid a.1.2 ok;;
     ok <- release_if_valid b.1.2 ok;;
     andM (release trusted) (retM ok)).

(** The two loops over the service's charges. *)
Fixpoint service_charges (n : nat) (service : ResourceKey) (ok : bool)
    : rdM (bool * list ResourceKey) :=
  match n with
  | O => retM (ok, [])
  | S n' =>
      r <- charged service 512 PoolAuthenticatedService;;
      rest <- service_charges n' service (r.1 && ok);;
      retM (rest.1, r.2 :: rest.2)
  end.
Fixpoint service_releases (keys : list ResourceKey) (ok : bool) : rdM bool :=
  match keys with
  | [] => retM ok
  | k :: rest => ok <- release_if_valid k ok;; service_releases rest ok
  end.

Definition selftest_service (ok : bool) : rdM bool :=
  c <- create (fun d => ResourceDomainCreateAuthenticatedService d true);;
  let service := c.2 in
  let ok := c.1 && ok in
  when_valid service ok
    (ok <- andM (inspect service (fun s => SnapshotMatches s DomainLive ProfileAuthenticatedService
           PoolAuthenticatedService 1 0 0 kAuthenticatedServiceSectionObjectLimit
           kAuthenticatedServiceSectionPageLimit kAuthenticatedServiceChannelObjectLimit
           kAuthenticatedServiceChannelByteLimit)) (retM ok);;
     r <- service_charges (Z.to_nat kAuthenticatedServiceSectionObjectLimit) service ok;;
     ok <- andM (refused service 1) (retM r.1);;
     ok <- service_releases r.2 ok;;
     andM (release service) (retM ok)).

Definition ResourceDomainSelfTest : rdM bool :=
  ok <- selftest_sandbox true;;
  ok <- selftest_wide ok;;
  ok <- selftest_trusted ok;;
  ok <- selftest_service ok;;
  z <- create (fun d => ResourceDomainCreateSandbox d 0 true);;
  retM (negb z.1 && bool_decide (z.2 = kInvalidResourceDomainKey) && ok).

Example selftest_at_boot : (ResourceDomainSelfTest boot_domains).1 = true.
Proof. vm_compute. reflexivity. Qed.
