(* ===== verification/ResourceDomainSpec.v ===== *)
(** * Exact accounting of resource domains

    The contract of [ResourceDomain]: the counters of a domain are at every
    moment the exact number and sum of its live charges, the limits hold, a
    charge key pays back once, and a domain generation is pinned until its
    last charge is gone and then never comes back. *)

From S2P Require Import Prelude ResourceDomain.

(** ** The invariant *)

Definition is_charge (k : ResourceKey) (row : ResourceChargeRow) : bool :=
  bool_decide (charge_state row = ChargeLive) && bool_decide (charge_domain row = k).
Definition one_if (k : ResourceKey) (row : ResourceChargeRow) : Z :=
  if is_charge k row then 1 else 0.
Definition amount_if (k : ResourceKey) (row : ResourceChargeRow) : Z :=
  if is_charge k row then charge_amount row else 0.

(** What the live charges of one class say about a domain key. *)
Definition live_objects (cs : list ResourceChargeRow) (k : ResourceKey) : Z := sumZ (one_if k) cs.
Definition live_amount (cs : list ResourceChargeRow) (k : ResourceKey) : Z := sumZ (amount_if k) cs.

Definition amount_max (c : ChargeClass) : Z :=
  match c with SectionCharge => u32_max | ChannelCharge => u64_max end.

Record usage_ok (c : ChargeClass) (cs : list ResourceChargeRow) (k : ResourceKey) (u : Usage)
    : Prop := {
  use_objects_exact : use_objects u = live_objects cs k;
  use_amount_exact : use_amount u = live_amount cs k;
  use_objects_bound : use_objects u <= use_object_limit u <= u32_max;
  use_amount_bound : use_amount u <= use_amount_limit u <= amount_max c;
}.

Definition state_ok (row : ResourceDomainRow) : Prop :=
  match row_state row with
  | DomainLive => 1 <= row_generation row /\ 1 <= owner_references row <= u32_max
  | DomainClosing => 1 <= row_generation row /\ owner_references row = 0 /\ row_charged row = true
  | DomainRetired => owner_references row = 0 /\ row_charged row = false
  end.

Record domain_row_ok (cs : ChargeClass -> list ResourceChargeRow) (i : nat) (row : ResourceDomainRow)
    : Prop := {
  row_gen_range : 0 <= row_generation row <= kResourceDomainGenerationMaximum;
  row_usage : forall c, usage_ok c (cs c) (MkKey i (row_generation row)) (usage c row);
  row_state_ok : state_ok row;
}.

Definition pinned (rows : list ResourceDomainRow) (k : ResourceKey) : Prop :=
  exists row, rows !! key_slot k = Some row /\ row_generation row = key_generation k /\
    row_state row <> DomainRetired.

Definition charge_row_ok (rows : list ResourceDomainRow) (row : ResourceChargeRow) : Prop :=
  0 <= charge_generation row <= kResourceChargeGenerationMaximum /\
  match charge_state row with
  | ChargeLive => 1 <= charge_generation row /\ 0 < charge_amount row /\
      pinned rows (charge_domain row)
  | ChargeRetired => charge_amount row = 0
  end.

Record domains_ok (d : Domains) : Prop := {
  ok_domain_count : length (g_resource_domains d) = kResourceDomainCapacity;
  ok_charge_count : forall c, length (charges c d) = charge_capacity c;
  ok_rows : forall i row, g_resource_domains d !! i = Some row ->
    domain_row_ok (fun c => charges c d) i row;
  ok_charges : forall c i row, charges c d !! i = Some row ->
    charge_row_ok (g_resource_domains d) row;
}.

(** ** Reading the tables *)

Lemma one_if_nonneg k row : 0 <= one_if k row.
Proof. unfold one_if. destruct (is_charge k row); lia. Qed.

Lemma is_charge_true k row :
  is_charge k row = true <-> charge_state row = ChargeLive /\ charge_domain row = k.
Proof. unfold is_charge. rewrite andb_true_iff, !bool_decide_eq_true. done. Qed.

Lemma amount_if_nonneg rows k row : charge_row_ok rows row -> 0 <= amount_if k row.
Proof.
  intros [_ Hr]. unfold amount_if. destruct (is_charge k row) eqn:Hc; [|lia].
  apply is_charge_true in Hc as [Hs _]. rewrite Hs in Hr. lia.
Qed.

Lemma RowCharged_false row :
  row_charged row = false <-> forall c, use_objects (usage c row) = 0 /\ use_amount (usage c row) = 0.
Proof.
  unfold row_charged. rewrite !orb_false_iff, !negb_false_iff, !Z.eqb_eq. split.
  - intros (((? & ?) & ?) & ?) []; done.
  - intros H. pose proof (H SectionCharge). pose proof (H ChannelCharge). simpl in *. tauto.
Qed.

Lemma live_zero cs k :
  live_objects cs k = 0 ->
  forall row, row ∈ cs -> charge_state row = ChargeLive -> charge_domain row <> k.
Proof.
  intros Hz row Hr Hs Hk.
  pose proof (sumZ_member (one_if k) _ _ (fun _ _ => one_if_nonneg _ _) Hr) as Hle.
  unfold live_objects in Hz. rewrite Hz in Hle. unfold one_if in Hle.
  by rewrite (proj2 (is_charge_true _ _) (conj Hs Hk)) in Hle.
Qed.

Section Read.
Context (d : Domains) (H : domains_ok d).

Lemma elem_charge_ok c row : row ∈ charges c d -> charge_row_ok (g_resource_domains d) row.
Proof. intros Hr. apply list_elem_of_lookup in Hr as [i Hi]. by eapply ok_charges. Qed.

Lemma live_objects_nonneg c k : 0 <= live_objects (charges c d) k.
Proof. apply sumZ_nonneg. intros. apply one_if_nonneg. Qed.

Lemma live_amount_nonneg c k : 0 <= live_amount (charges c d) k.
Proof. apply sumZ_nonneg. intros row Hr. eapply amount_if_nonneg. by eapply elem_charge_ok. Qed.

Lemma no_charges c k :
  (forall row, row ∈ charges c d -> charge_state row = ChargeLive -> charge_domain row <> k) ->
  live_objects (charges c d) k = 0 /\ live_amount (charges c d) k = 0.
Proof.
  intros Hno. assert (Hf : forall row, row ∈ charges c d -> is_charge k row = false).
  { intros row Hr. apply not_true_is_false. rewrite is_charge_true. intros [Hs Hk].
    by eapply (Hno row). }
  split; apply sumZ_zero; intros row Hr; [unfold one_if|unfold amount_if]; by rewrite (Hf _ Hr).
Qed.

Lemma resolve_some k row :
  ResolveDomainExactLocked d k = Some row ->
  g_resource_domains d !! key_slot k = Some row /\ row_generation row = key_generation k /\
  1 <= key_generation k <= kResourceDomainGenerationMaximum.
Proof.
  unfold ResolveDomainExactLocked. destruct (ResourceDomainKeyIsValid k) eqn:Hv; [|done]. simpl.
  destruct (g_resource_domains d !! key_slot k) as [row'|] eqn:Hl; [|done].
  destruct (Z.eqb_spec (row_generation row') (key_generation k)); [|done]. intros [= <-].
  unfold ResourceDomainKeyIsValid in Hv. pose proof (row_gen_range _ _ _ (ok_rows _ H _ _ Hl)).
  split_and!; try done; lia.
Qed.

Lemma resolve_pinned k :
  pinned (g_resource_domains d) k ->
  exists row, ResolveDomainExactLocked d k = Some row /\ row_state row <> DomainRetired.
Proof.
  intros (row & Hl & Hg & Hs). exists row. split; [|done].
  pose proof (ok_rows _ H _ _ Hl) as Hok. pose proof (row_gen_range _ _ _ Hok).
  pose proof (row_state_ok _ _ _ Hok) as Hst. unfold state_ok in Hst.
  assert (1 <= row_generation row) by (by destruct (row_state row); destruct Hst).
  pose proof (lookup_lt_Some _ _ _ Hl) as Hlt. rewrite (ok_domain_count _ H) in Hlt.
  unfold ResolveDomainExactLocked, ResourceDomainKeyIsValid. rewrite Hl, Hg, Z.eqb_refl.
  replace (_ && _ && _) with true by lia. done.
Qed.

Lemma resolve_charge_some c k row :
  ResolveChargeExactLocked c d k = Some row ->
  charges c d !! key_slot k = Some row /\ charge_generation row = key_generation k /\
  1 <= key_generation k.
Proof.
  unfold ResolveChargeExactLocked. destruct (ChargeKeyIsValid c k) eqn:Hv; [|done]. simpl.
  destruct (charges c d !! key_slot k) as [row'|] eqn:Hl; [|done].
  destruct (Z.eqb_spec (charge_generation row') (key_generation k)); [|done]. intros [= <-].
  unfold ChargeKeyIsValid in Hv. pose proof (ok_charges _ H _ _ _ Hl) as [? _].
  split_and!; try done; lia.
Qed.
End Read.

(** ** Preservation *)

Lemma pinned_insert rows slot row row' k :
  rows !! slot = Some row -> row_generation row' = row_generation row ->
  (key_slot k = slot -> key_generation k = row_generation row -> row_state row' <> DomainRetired) ->
  pinned rows k -> pinned (<[slot := row']> rows) k.
Proof.
  intros Hl Hg Hs (r & Hr & Hgen & Hst). destruct (decide (key_slot k = slot)) as [Hk|Hk].
  - rewrite Hk in Hr. simplify_eq. exists row'.
    rewrite list_lookup_insert_eq by (by eapply lookup_lt_Some). split_and!; [done|by rewrite Hg|].
    by apply Hs.
  - exists r. by rewrite list_lookup_insert_ne by done.
Qed.

Lemma charge_row_ok_mono rows rows' row :
  (charge_state row = ChargeLive -> pinned rows (charge_domain row) ->
   pinned rows' (charge_domain row)) ->
  charge_row_ok rows row -> charge_row_ok rows' row.
Proof.
  intros Hp [Hg Hr]. split; [done|]. destruct (charge_state row); [done|].
  destruct Hr as (? & ? & ?). auto.
Qed.

Lemma charges_set_domain c d slot row : charges c (set_domain d slot row) = charges c d.
Proof. by destruct c. Qed.

(** A row that changes owners or state but no charge. *)
Lemma set_domain_ok d slot row row' :
  domains_ok d -> g_resource_domains d !! slot = Some row ->
  row_generation row' = row_generation row -> (forall c, usage c row' = usage c row) ->
  state_ok row' -> domains_ok (set_domain d slot row').
Proof.
  intros H Hl Hg Hu Hs. pose proof (ok_rows _ H _ _ Hl) as Hrow. constructor; simpl.
  - rewrite length_insert. apply H.
  - intros c. rewrite charges_set_domain. apply (ok_charge_count _ H).
  - intros i r Hi. destruct (decide (i = slot)) as [->|Hne].
    + rewrite list_lookup_insert_eq in Hi by (by eapply lookup_lt_Some). simplify_eq.
      destruct Hrow as [Hr1 Hr2 _]. constructor; [by rewrite Hg| |done].
      intros c. rewrite Hg, Hu, charges_set_domain. apply Hr2.
    + rewrite list_lookup_insert_ne in Hi by done.
      destruct (ok_rows _ H _ _ Hi) as [Hr1 Hr2 Hr3]. constructor; [done| |done].
      intros c. rewrite charges_set_domain. apply Hr2.
  - intros c i r Hi. rewrite charges_set_domain in Hi.
    eapply charge_row_ok_mono; [|by eapply (ok_charges _ H)]. intros Hlive Hp.
    eapply pinned_insert; [done..| |done]. intros Hk Hgen Hret.
    unfold state_ok in Hs. rewrite Hret in Hs. destruct Hs as [_ Hz].
    apply (proj1 (RowCharged_false _)) with (c := c) in Hz as [Hz _]. rewrite Hu in Hz.
    rewrite (use_objects_exact _ _ _ _ (row_usage _ _ _ Hrow c)) in Hz.
    eapply (live_zero _ _ Hz r); [by eapply list_elem_of_lookup_2|done|].
    destruct (charge_domain r); simpl in *; congruence.
Qed.

Lemma first_free_domain_spec rows : forall n slot row,
  first_free_domain n rows = Some (slot, row) ->
  (n <= slot)%nat /\ rows !! (slot - n)%nat = Some row /\ row_state row = DomainRetired /\
  row_generation row < kResourceDomainGenerationMaximum.
Proof.
  induction rows as [|r rest IH]; intros n slot row Hf; [done|]. simpl in Hf.
  destruct (_ || _) eqn:Hg.
  - apply IH in Hf as (? & Hl & ? & ?). split_and!; try done; [lia|].
    by replace (slot - n)%nat with (S (slot - S n)) by lia.
  - apply orb_false_iff in Hg as [Hs Hg]. apply negb_false_iff, bool_decide_eq_true in Hs.
    simplify_eq. rewrite Nat.sub_diag. split_and!; try done; lia.
Qed.

Lemma first_free_charge_spec rows : forall n slot row,
  first_free_charge n rows = Some (slot, row) ->
  (n <= slot)%nat /\ rows !! (slot - n)%nat = Some row /\ charge_state row = ChargeRetired /\
  charge_generation row < kResourceChargeGenerationMaximum.
Proof.
  induction rows as [|r rest IH]; intros n slot row Hf; [done|]. simpl in Hf.
  destruct (_ || _) eqn:Hg.
  - apply IH in Hf as (? & Hl & ? & ?). split_and!; try done; [lia|].
    by replace (slot - n)%nat with (S (slot - S n)) by lia.
  - apply orb_false_iff in Hg as [Hs Hg]. apply negb_false_iff, bool_decide_eq_true in Hs.
    simplify_eq. rewrite Nat.sub_diag. split_and!; try done; lia.
Qed.

(** The limits of the public constructors. *)
Definition limits_ok (ol pl col cbl : Z) : Prop :=
  0 <= ol <= u32_max /\ 0 <= pl <= u32_max /\ 0 <= col <= u32_max /\ 0 <= cbl <= u64_max.

Lemma CreateDomain_ok d prof pool ol pl col cbl out ok d' key :
  domains_ok d -> limits_ok ol pl col cbl ->
  CreateDomain d prof pool ol pl col cbl out = (ok, d', key) -> domains_ok d'.
Proof.
  intros H Hlim. unfold CreateDomain. destruct (_ || _ || _ || _ || _); [by intros [= <- <- <-]|].
  destruct (first_free_domain 0 _) as [[slot row]|] eqn:Hf; [|by intros [= <- <- <-]].
  intros [= <- <- <-]. apply first_free_domain_spec in Hf as (_ & Hl & Hret & Hgen).
  rewrite Nat.sub_0_r in Hl. pose proof (ok_rows _ H _ _ Hl) as Hrow.
  pose proof (row_gen_range _ _ _ Hrow) as Hg0.
  assert (Hnone : forall c r, r ∈ charges c d -> charge_state r = ChargeLive ->
                  key_slot (charge_domain r) <> slot).
  { intros c r Hr Hlive Hk. pose proof (elem_charge_ok _ H _ _ Hr) as [_ Hc]. rewrite Hlive in Hc.
    destruct Hc as (_ & _ & x & Hx & _ & Hnr). rewrite Hk in Hx. by simplify_eq. }
  constructor; simpl.
  - rewrite length_insert. apply H.
  - intros c. rewrite charges_set_domain. apply (ok_charge_count _ H).
  - intros i r Hi. destruct (decide (i = slot)) as [->|Hne].
    + rewrite list_lookup_insert_eq in Hi by (by eapply lookup_lt_Some). simplify_eq.
      constructor; simpl; [lia| |unfold state_ok; simpl; ulia].
      intros c. rewrite charges_set_domain.
      assert (Hz : live_objects (charges c d) (MkKey slot (row_generation row + 1)) = 0 /\
                     live_amount (charges c d) (MkKey slot (row_generation row + 1)) = 0).
      { apply no_charges. intros r Hr Hlive Hk. eapply Hnone; [done..|]. by rewrite Hk. }
      destruct Hz as [Hz1 Hz2]. destruct Hlim as (? & ? & ? & ?).
      destruct c; constructor; simpl; try done; symmetry; assumption.
    + rewrite list_lookup_insert_ne in Hi by done.
      destruct (ok_rows _ H _ _ Hi) as [Hr1 Hr2 Hr3]. constructor; [done| |done].
      intros c. rewrite charges_set_domain. apply Hr2.
  - intros c i r Hi. rewrite charges_set_domain in Hi.
    eapply charge_row_ok_mono; [|by eapply (ok_charges _ H)]. intros Hlive (x & Hx & ? & ?).
    exists x. rewrite list_lookup_insert_ne; [done|]. intros Hk.
    eapply Hnone; [by eapply list_elem_of_lookup_2|done|done].
Qed.

Lemma charges_set_same c d l : charges c (set_charges c d l) = l.
Proof. by destruct c. Qed.

Lemma charges_set_other c c' d l : c' <> c -> charges c' (set_charges c d l) = charges c' d.
Proof. by destruct c, c'. Qed.

Lemma domains_set_charges c d l : g_resource_domains (set_charges c d l) = g_resource_domains d.
Proof. by destruct c. Qed.

Lemma usage_set_same c row u : usage c (set_usage c row u) = u.
Proof. by destruct c. Qed.

Lemma usage_set_other c c' row u : c' <> c -> usage c' (set_usage c row u) = usage c' row.
Proof. by destruct c, c'. Qed.

(** One charge row and the row of its domain change together. *)
Section Exchange.
Context (d : Domains) (H : domains_ok d) (c : ChargeClass).
Context (cslot : nat) (crow crow' : ResourceChargeRow).
Context (Hcl : charges c d !! cslot = Some crow).
Context (slot : nat) (row row' : ResourceDomainRow).
Context (Hl : g_resource_domains d !! slot = Some row).
Context (Hg : row_generation row' = row_generation row).

Let k := MkKey slot (row_generation row).
Let cs' := <[cslot := crow']> (charges c d).
Let d' := set_domain (set_charges c d cs') slot row'.

Context (Hother : forall k', k' <> k -> is_charge k' crow = false /\ is_charge k' crow' = false).
Context (Hrow_other : forall c', c' <> c -> usage c' row' = usage c' row).
Context (Hrow_same : usage_ok c cs' k (usage c row')).
Context (Hstate : state_ok row').
Context (Hnew : charge_row_ok (<[slot := row']> (g_resource_domains d)) crow').

Lemma exchange_charges c' :
  charges c' d' = if decide (c' = c) then cs' else charges c' d.
Proof.
  unfold d'. rewrite charges_set_domain. destruct (decide (c' = c)) as [->|Hne].
  - apply charges_set_same.
  - by apply charges_set_other.
Qed.

Lemma exchange_live_other k' :
  k' <> k -> live_objects cs' k' = live_objects (charges c d) k' /\
             live_amount cs' k' = live_amount (charges c d) k'.
Proof.
  intros Hk. destruct (Hother _ Hk) as [H1 H2]. unfold live_objects, live_amount, cs'.
  rewrite !(sumZ_insert _ _ _ _ _ Hcl). unfold one_if, amount_if. rewrite H1, H2. lia.
Qed.

Lemma exchange_usage c' : usage_ok c' (charges c' d') k (usage c' row').
Proof.
  rewrite exchange_charges. destruct (decide (c' = c)) as [->|Hne]; [done|].
  rewrite Hrow_other by done. apply (row_usage _ _ _ (ok_rows _ H _ _ Hl)).
Qed.

Lemma exchange_unpinned c' r :
  row_state row' = DomainRetired -> r ∈ charges c' d' -> charge_state r = ChargeLive ->
  charge_domain r <> k.
Proof.
  intros Hret Hr Hlive. pose proof Hstate as Hs. unfold state_ok in Hs. rewrite Hret in Hs.
  destruct Hs as [_ Hz]. apply (proj1 (RowCharged_false _)) with (c := c') in Hz as [Hz _].
  rewrite (use_objects_exact _ _ _ _ (exchange_usage c')) in Hz. by eapply live_zero.
Qed.

Lemma exchange_ok : domains_ok d'.
Proof.
  assert (Hdom : g_resource_domains d' = <[slot := row']> (g_resource_domains d)).
  { unfold d'. simpl. by rewrite domains_set_charges. }
  constructor; rewrite ?Hdom.
  - rewrite length_insert. apply H.
  - intros c'. rewrite exchange_charges. destruct (decide (c' = c)) as [->|].
    + unfold cs'. rewrite length_insert. apply H.
    + apply H.
  - intros i r Hi. destruct (decide (i = slot)) as [->|Hne].
    + rewrite list_lookup_insert_eq in Hi by (by eapply lookup_lt_Some). injection Hi as <-.
      constructor; [|rewrite Hg; apply exchange_usage|done].
      rewrite Hg. apply (row_gen_range _ _ _ (ok_rows _ H _ _ Hl)).
    + rewrite list_lookup_insert_ne in Hi by done.
      destruct (ok_rows _ H _ _ Hi) as [Hr1 Hr2 Hr3]. constructor; [done| |done].
      intros c'. specialize (Hr2 c'). rewrite exchange_charges.
      destruct (decide (c' = c)) as [->|]; [|done].
      destruct (exchange_live_other (MkKey i (row_generation r))) as [E1 E2]; [by intros [=]|].
      destruct Hr2. constructor; rewrite ?E1, ?E2; done.
  - intros c' i r Hi. assert (Hr : r ∈ charges c' d') by (by eapply list_elem_of_lookup_2).
    assert (Hold : r = crow' \/ charge_row_ok (g_resource_domains d) r).
    { rewrite exchange_charges in Hi. destruct (decide (c' = c)) as [->|];
        [|right; by eapply (ok_charges _ H)].
      apply list_lookup_insert_Some in Hi as [(_ & -> & _)|[_ Hi]]; [by left|].
      right. by eapply (ok_charges _ H). }
    destruct Hold as [->|Hold]; [done|]. eapply charge_row_ok_mono; [|done].
    intros Hlive Hp. eapply pinned_insert; [done..| |done]. intros Hk Hgen Hret.
    eapply (exchange_unpinned c' r Hret Hr Hlive). unfold k.
    destruct (charge_domain r); simpl in *; congruence.
Qed.
End Exchange.

Lemma wrap_amount_small c x : 0 <= x <= amount_max c -> wrap_amount c x = x.
Proof. destruct c; simpl; [apply wrap32_small|apply wrap64_small]. Qed.

(** The branch of [TryCharge] that succeeds. *)
Lemma TryCharge_inv c d k amount out d' key pool :
  TryCharge c d k amount out = (true, d', key, pool) ->
  exists row slot charge u,
    out = true /\ amount <> 0 /\ ResolveDomainExactLocked d k = Some row /\
    row_state row = DomainLive /\ owner_references row <> 0 /\ u = usage c row /\
    use_objects u < use_object_limit u /\ use_amount u <= use_amount_limit u /\
    amount <= use_amount_limit u - use_amount u /\
    first_free_charge 0 (charges c d) = Some (slot, charge) /\
    key = Some (MkKey slot (charge_generation charge + 1)) /\ pool = row_pool_class row /\
    d' = set_domain
           (set_charges c d (<[slot := MkChargeRow ChargeLive (charge_generation charge + 1) k amount]>
              (charges c d))) (key_slot k)
           (set_usage c row (MkUsage (wrap32 (use_objects u + 1)) (wrap_amount c (use_amount u + amount))
              (use_object_limit u) (use_amount_limit u))).
Proof.
  unfold TryCharge. destruct out; [|done]. simpl. destruct (Z.eqb_spec amount 0); [done|].
  destruct (ResolveDomainExactLocked d k) as [row|] eqn:Hr; [|done].
  destruct (_ || _ || _ || _ || _) eqn:Hg; [done|].
  rewrite !orb_false_iff, negb_false_iff, bool_decide_eq_true in Hg.
  destruct Hg as ((((Hs & Ho) & H1) & H2) & H3).
  destruct (first_free_charge 0 _) as [[slot charge]|] eqn:Hf; [|done].
  intros [= <- <- <-]. exists row, slot, charge, (usage c row). split_and!; try done; lia.
Qed.

Lemma state_ok_live_usage c row u :
  row_state row = DomainLive -> state_ok row -> state_ok (set_usage c row u).
Proof. unfold state_ok. intros Hs H. destruct c; simpl; by rewrite Hs in *. Qed.

Lemma row_set_usage c row u :
  row_state (set_usage c row u) = row_state row /\
  row_generation (set_usage c row u) = row_generation row /\
  owner_references (set_usage c row u) = owner_references row.
Proof. by destruct c. Qed.

Lemma is_charge_retired k row : charge_state row = ChargeRetired -> is_charge k row = false.
Proof. intros Hs. unfold is_charge. rewrite Hs. done. Qed.

Lemma is_charge_other k row : charge_domain row <> k -> is_charge k row = false.
Proof.
  intros Hs. apply not_true_is_false. rewrite is_charge_true. by intros [_ ?].
Qed.

Lemma charge_weight_retired k row :
  charge_state row = ChargeRetired -> one_if k row = 0 /\ amount_if k row = 0.
Proof. intros Hs. unfold one_if, amount_if. by rewrite is_charge_retired. Qed.

Lemma charge_weight_live k row :
  charge_state row = ChargeLive -> charge_domain row = k ->
  one_if k row = 1 /\ amount_if k row = charge_amount row.
Proof.
  intros Hs Hk. unfold one_if, amount_if. by rewrite (proj2 (is_charge_true _ _)).
Qed.

Lemma TryCharge_ok c d k amount out ok d' key pool :
  domains_ok d -> 0 <= amount -> TryCharge c d k amount out = (ok, d', key, pool) ->
  domains_ok d'.
Proof.
  intros H Ham Hc. destruct ok.
  2: { revert Hc. unfold TryCharge. intros Hc. repeat (case_match; simplify_eq/=; try done). }
  apply TryCharge_inv in Hc as (row & slot & charge & u & _ & Hnz & Hres & Hlive & Hown & Hu & Ho & Ha
    & Hfit & Hfree & _ & _ & ->).
  apply (resolve_some _ H) in Hres as (Hl & Hgen & Hgr).
  apply first_free_charge_spec in Hfree as (_ & Hcl & Hret & Hcg). rewrite Nat.sub_0_r in Hcl.
  pose proof (ok_rows _ H _ _ Hl) as Hrow. pose proof (ok_charges _ H _ _ _ Hcl) as [Hcg0 _].
  pose proof (row_usage _ _ _ Hrow c) as [E1 E2 E3 E4]. rewrite <- Hu in E1, E2, E3, E4.
  pose proof (live_objects_nonneg d c (MkKey (key_slot k) (row_generation row))).
  pose proof (live_amount_nonneg d H c (MkKey (key_slot k) (row_generation row))).
  set (u' := MkUsage _ _ _ _).
  destruct (row_set_usage c row u') as (Rs & Rg & Ro).
  assert (Hk : k = MkKey (key_slot k) (row_generation row)) by (rewrite Hgen; by destruct k).
  eapply (exchange_ok d H c slot charge _ Hcl (key_slot k) row _ Hl); try done.
  - intros k' Hk'. split; [by apply is_charge_retired|]. apply is_charge_other. simpl. congruence.
  - intros c' Hc'. by apply usage_set_other.
  - rewrite usage_set_same. unfold u'. rewrite wrap32_small, wrap_amount_small by ulia.
    pose proof (charge_weight_retired (MkKey (key_slot k) (row_generation row)) _ Hret) as [W1 W2].
    pose proof (charge_weight_live (MkKey (key_slot k) (row_generation row))
      (MkChargeRow ChargeLive (charge_generation charge + 1) k amount) eq_refl Hk) as [W3 W4].
    constructor; simpl; try lia; unfold live_objects, live_amount in *;
      rewrite (sumZ_insert _ _ _ _ _ Hcl), ?W1, ?W2, ?W3, ?W4; simpl; lia.
  - apply state_ok_live_usage; [done|apply Hrow].
  - split; simpl; [lia|]. split_and!; [lia|lia|]. exists (set_usage c row u').
    rewrite list_lookup_insert_eq by (by eapply lookup_lt_Some). rewrite Rg, Rs. split_and!; try done.
    by rewrite Hlive.
Qed.

(** The branch of [ReleaseCharge] that succeeds. *)
Lemma ReleaseCharge_inv c d arg d' out :
  ReleaseCharge c d arg = (true, d', out) ->
  exists key charge row u row1,
    arg = Some key /\ ResolveChargeExactLocked c d key = Some charge /\
    charge_state charge = ChargeLive /\
    ResolveDomainExactLocked d (charge_domain charge) = Some row /\
    row_state row <> DomainRetired /\ u = usage c row /\
    row1 = set_usage c row (MkUsage (use_objects u - 1) (use_amount u - charge_amount charge)
                              (use_object_limit u) (use_amount_limit u)) /\
    out = Some (kInvalidChargeKey c) /\
    d' = set_domain
           (set_charges c d
              (<[key_slot key := MkChargeRow ChargeRetired (charge_generation charge)
                                   kInvalidResourceDomainKey 0]> (charges c d)))
           (key_slot (charge_domain charge))
           (if bool_decide (row_state row1 = DomainClosing) && negb (row_charged row1)
            then RetireDomainLocked row1 else row1).
Proof.
  unfold ReleaseCharge. destruct arg as [key|]; [|done].
  destruct (negb (ChargeKeyIsValid c key)); [done|].
  destruct (ResolveChargeExactLocked c d key) as [charge|] eqn:Hc; [|done].
  destruct (_ || _) eqn:Hg1; [done|]. rewrite orb_false_iff, negb_false_iff, bool_decide_eq_true in Hg1.
  destruct (ResolveDomainExactLocked d (charge_domain charge)) as [row|] eqn:Hr; [|done].
  destruct (_ || _ || _) eqn:Hg2; [done|]. rewrite !orb_false_iff, andb_false_iff, !negb_false_iff,
    !bool_decide_eq_true in Hg2. destruct Hg2 as ((Hs & _) & _).
  intros [= <- <-]. eexists key, charge, row, _, _. split_and!; try done; [by destruct Hg1|].
  destruct Hs as [-> | ->]; done.
Qed.

Lemma retire_state_ok row : state_ok (RetireDomainLocked row).
Proof. unfold state_ok, row_charged. done. Qed.

Lemma usage_retire c row :
  row_charged row = false -> usage c (RetireDomainLocked row) = usage c row.
Proof.
  intros Hz. apply (proj1 (RowCharged_false _)) with (c := c) in Hz as [H1 H2].
  unfold RetireDomainLocked, uncharged.
  destruct c; simpl in *; destruct (section_usage row), (channel_usage row); simpl in *; by subst.
Qed.

Lemma ReleaseCharge_ok c d arg ok d' out :
  domains_ok d -> ReleaseCharge c d arg = (ok, d', out) -> domains_ok d'.
Proof.
  intros H Hc. destruct ok.
  2: { revert Hc. unfold ReleaseCharge. intros Hc. repeat (case_match; simplify_eq/=; try done). }
  apply ReleaseCharge_inv in Hc as (key & charge & row & u & row1 & _ & Hres & Hlive & Hdom & Hnr
    & Hu & Hr1 & _ & ->).
  apply (resolve_charge_some _ H) in Hres as (Hcl & Hcg & _).
  apply (resolve_some _ H) in Hdom as (Hl & Hgen & _).
  pose proof (ok_rows _ H _ _ Hl) as Hrow. pose proof (ok_charges _ H _ _ _ Hcl) as [Hcg0 Hch].
  rewrite Hlive in Hch. destruct Hch as (_ & Hpos & _).
  pose proof (row_usage _ _ _ Hrow c) as [E1 E2 E3 E4]. rewrite <- Hu in E1, E2, E3, E4.
  set (k := MkKey (key_slot (charge_domain charge)) (row_generation row)) in *.
  assert (Hk : charge_domain charge = k) by (unfold k; rewrite Hgen; by destruct (charge_domain charge)).
  destruct (row_set_usage c row (MkUsage (use_objects u - 1) (use_amount u - charge_amount charge)
    (use_object_limit u) (use_amount_limit u))) as (Rs & Rg & Ro). rewrite <- Hr1 in Rs, Rg, Ro.
  set (row2 := if _ && _ then _ else _).
  assert (Hrow2 : row_generation row2 = row_generation row /\ (forall c', usage c' row2 = usage c' row1)
    /\ state_ok row2).
  { unfold row2. pose proof (row_state_ok _ _ _ Hrow) as Hst. unfold state_ok in Hst.
    destruct (bool_decide (row_state row1 = DomainClosing)) eqn:Hcl1;
      [apply bool_decide_eq_true in Hcl1|apply bool_decide_eq_false in Hcl1];
      destruct (row_charged row1) eqn:Hch1; simpl;
      (split_and!; [done|intros c'; try done; by apply usage_retire|]);
      try apply retire_state_ok; unfold state_ok; rewrite Rs in *; rewrite Rg, Ro;
      destruct (row_state row); try done; destruct Hst as (? & ? & ?); done. }
  destruct Hrow2 as (G2 & U2 & S2).
  eapply (exchange_ok d H c (key_slot key) charge _ Hcl _ row _ Hl); try done.
  - intros k' Hk'. split; [|by apply is_charge_retired]. apply is_charge_other. by rewrite Hk.
  - intros c' Hc'. rewrite U2, Hr1. by apply usage_set_other.
  - rewrite U2, Hr1, usage_set_same. fold k.
    pose proof (charge_weight_live k charge Hlive Hk) as [W1 W2].
    pose proof (charge_weight_retired k (MkChargeRow ChargeRetired (charge_generation charge)
      kInvalidResourceDomainKey 0) eq_refl) as [W3 W4].
    constructor; simpl; try lia; unfold live_objects, live_amount in *;
      rewrite (sumZ_insert _ _ _ _ _ Hcl), ?W1, ?W2, ?W3, ?W4; lia.
Qed.

Lemma Retain_ok d key ok d' :
  domains_ok d -> ResourceDomainRetain d key = (ok, d') -> domains_ok d'.
Proof.
  intros H. unfold ResourceDomainRetain.
  destruct (ResolveDomainExactLocked d key) as [row|] eqn:Hr; [|by intros [= _ <-]].
  apply (resolve_some _ H) in Hr as (Hl & _ & _).
  destruct (_ || _ || _) eqn:Hg; [by intros [= _ <-]|]. intros [= _ <-].
  rewrite !orb_false_iff, negb_false_iff, bool_decide_eq_true in Hg. destruct Hg as ((Hs & _) & Hmax).
  eapply set_domain_ok; [done|done|done|by intros []|].
  pose proof (row_state_ok _ _ _ (ok_rows _ H _ _ Hl)) as Hst. unfold state_ok in *. simpl.
  rewrite Hs in *. destruct Hst. split; [done|]. unfold_widths. lia.
Qed.

Lemma Release_ok d key ok d' :
  domains_ok d -> ResourceDomainRelease d key = (ok, d') -> domains_ok d'.
Proof.
  intros H. unfold ResourceDomainRelease.
  destruct (ResolveDomainExactLocked d key) as [row|] eqn:Hr; [|by intros [= _ <-]].
  apply (resolve_some _ H) in Hr as (Hl & _ & _).
  destruct (_ || _) eqn:Hg; [by intros [= _ <-]|].
  rewrite orb_false_iff, negb_false_iff, bool_decide_eq_true in Hg. destruct Hg as (Hs & Ho).
  pose proof (row_state_ok _ _ _ (ok_rows _ H _ _ Hl)) as Hst. unfold state_ok in Hst.
  rewrite Hs in Hst. destruct Hst as [Hgen Hown]. simpl.
  destruct (Z.eqb_spec (owner_references row - 1) 0) as [Hz|]; simpl.
  - destruct (row_charged (set_owners row (owner_references row - 1))) eqn:Hc; intros [= _ <-].
    + eapply set_domain_ok; [done|done|done|by intros []|]. unfold state_ok. simpl. done.
    + eapply set_domain_ok; [done|done|done|intros c; by rewrite usage_retire by done; destruct c|].
      apply retire_state_ok.
  - intros [= _ <-]. eapply set_domain_ok; [done|done|done|by intros []|].
    unfold state_ok. simpl. rewrite Hs. split; [done|lia].
Qed.

Lemma boot_ok : domains_ok boot_domains.
Proof.
  constructor.
  - reflexivity.
  - by intros [].
  - intros i row Hi. apply lookup_replicate in Hi as [-> _]. constructor; [done| |done].
    intros c. assert (Hz : live_objects (charges c boot_domains) (MkKey i 0) = 0 /\
                           live_amount (charges c boot_domains) (MkKey i 0) = 0).
    { split; apply sumZ_zero; intros x Hx; destruct c; apply list_elem_of_lookup in Hx as [j Hj];
        apply lookup_replicate in Hj as [-> _]; done. }
    destruct Hz. destruct c; constructor; simpl in *; done.
  - intros c i row Hi. assert (row = zero_charge_row) as ->
      by (destruct c; apply lookup_replicate in Hi as [-> _]; done). done.
Qed.

(** ** Histories *)

Inductive rd_action :=
| DoCreateSandbox (frame_budget_pages : Z) (has_out : bool)
| DoCreateTrusted (has_out : bool)
| DoCreateService (has_out : bool)
| DoCreateBounded (objects pages : Z) (has_out : bool)
| DoRetain (key : ResourceKey)
| DoRelease (key : ResourceKey)
| DoCharge (c : ChargeClass) (domain : ResourceKey) (amount : Z) (has_out : bool)
| DoPay (c : ChargeClass) (key : option ResourceKey).

Inductive rd_event :=
| Created (key : ResourceKey)
| Charged (c : ChargeClass) (key : ResourceKey)
| Paid (c : ChargeClass) (key : ResourceKey).

(** Arguments within their C++ types. *)
Definition action_typed (a : rd_action) : Prop :=
  match a with
  | DoCreateSandbox pages _ => is_u64 pages
  | DoCreateBounded objects pages _ => is_u32 objects /\ is_u32 pages
  | DoCharge c _ amount _ => 0 <= amount <= amount_max c
  | _ => True
  end.

Definition rd_created (r : bool * Domains * option ResourceKey) : bool * Domains * list rd_event :=
  match r with
  | (true, d, Some key) => (true, d, [Created key])
  | (ok, d, _) => (ok, d, [])
  end.

Definition rd_exec (d : Domains) (a : rd_action) : bool * Domains * list rd_event :=
  match a with
  | DoCreateSandbox pages out => rd_created (ResourceDomainCreateSandbox d pages out)
  | DoCreateTrusted out => rd_created (ResourceDomainCreateTrusted d out)
  | DoCreateService out => rd_created (ResourceDomainCreateAuthenticatedService d out)
  | DoCreateBounded objects pages out =>
      rd_created (ResourceDomainCreateBoundedAuthenticatedService d objects pages out)
  | DoRetain key => (ResourceDomainRetain d key, [])
  | DoRelease key => (ResourceDomainRelease d key, [])
  | DoCharge c domain amount out =>
      match TryCharge c d domain amount out with
      | (true, d', Some key, _) => (true, d', [Charged c key])
      | (ok, d', _, _) => (ok, d', [])
      end
  | DoPay c key =>
      match ReleaseCharge c d key, key with
      | (true, d', _), Some k => (true, d', [Paid c k])
      | (ok, d', _), _ => (ok, d', [])
      end
  end.

Fixpoint rd_run (d : Domains) (acts : list rd_action) : Domains * list rd_event :=
  match acts with
  | [] => (d, [])
  | a :: rest =>
      let '(_, d1, e) := rd_exec d a in
      let '(d2, es) := rd_run d1 rest in
      (d2, e ++ es)
  end.

(** Every creation is [CreateDomain] with limits that fit, or a refusal. *)
Lemma create_cases d a ok d' e :
  match a with
  | DoCreateSandbox _ _ | DoCreateTrusted _ | DoCreateService _ | DoCreateBounded _ _ _ => True
  | _ => False
  end ->
  action_typed a -> rd_exec d a = (ok, d', e) ->
  (ok = false /\ d' = d /\ e = []) \/
  exists prof pool ol pl col cbl key, limits_ok ol pl col cbl /\
    CreateDomain d prof pool ol pl col cbl true = (true, d', Some key) /\ ok = true /\ e = [Created key].
Proof.
  assert (Hcase : forall prof pool ol pl col cbl out (post : _ -> bool * Domains * option ResourceKey),
    (post = cleared_first \/ post = id) -> limits_ok ol pl col cbl ->
    rd_created (post (CreateDomain d prof pool ol pl col cbl out)) = (ok, d', e) ->
    (ok = false /\ d' = d /\ e = []) \/
    exists prof pool ol pl col cbl key, limits_ok ol pl col cbl /\
      CreateDomain d prof pool ol pl col cbl true = (true, d', Some key) /\ ok = true /\ e = [Created key]).
  { intros prof pool ol pl col cbl out post Hpost Hlim. unfold CreateDomain at 1.
    destruct (_ || _ || _ || _ || _) eqn:Hg.
    { destruct Hpost as [-> | ->]; simpl; intros [= <- <- <-]; by left. }
    destruct (first_free_domain 0 _) as [[slot row]|] eqn:Hf.
    2: { destruct Hpost as [-> | ->]; simpl; intros [= <- <- <-]; by left. }
    intros Hex. right. exists prof, pool, ol, pl, col, cbl, (MkKey slot (row_generation row + 1)).
    unfold CreateDomain. rewrite Hf. destruct out; [|done]. rewrite Hg.
    destruct Hpost as [-> | ->]; simpl in Hex; injection Hex as <- <- <-; done. }
  intros Ha Ht. destruct a; try done; simpl in *.
  - unfold ResourceDomainCreateSandbox.
    destruct (negb has_out); [intros [= <- <- <-]; by left|].
    destruct (_ =? 0); [intros [= <- <- <-]; by left|].
    apply (Hcase _ _ _ _ _ _ _ cleared_first); [by left|].
    unfold limits_ok, kSandboxSectionObjectLimit, kSandboxChannelObjectLimit, kSandboxChannelByteLimit.
    pose proof (wrap32_range (if frame_budget_pages <? kSandboxSectionPageLimitMaximum
      then frame_budget_pages else kSandboxSectionPageLimitMaximum)). ulia.
  - apply (Hcase _ _ _ _ _ _ _ id); [by right|]. unfold limits_ok. done.
  - unfold ResourceDomainCreateAuthenticatedService, ResourceDomainCreateBoundedAuthenticatedService.
    destruct (negb has_out); [intros [= <- <- <-]; by left|].
    destruct (_ || _ || _ || _); [intros [= <- <- <-]; by left|].
    apply (Hcase _ _ _ _ _ _ _ cleared_first); [by left|done].
  - unfold ResourceDomainCreateBoundedAuthenticatedService.
    destruct (negb has_out); [intros [= <- <- <-]; by left|].
    destruct (_ || _ || _ || _) eqn:Hg; [intros [= <- <- <-]; by left|].
    apply (Hcase _ _ _ _ _ _ _ cleared_first); [by left|].
    unfold limits_ok, kAuthenticatedServiceChannelObjectLimit, kAuthenticatedServiceChannelByteLimit.
    destruct Ht. ulia.
Qed.

Lemma exec_ok d a ok d' e :
  domains_ok d -> action_typed a -> rd_exec d a = (ok, d', e) -> domains_ok d'.
Proof.
  intros H Ht Hex.
  destruct a; try (apply create_cases in Hex as [(_ & -> & _)|(? & ? & ? & ? & ? & ? & ? & Hlim & Hc & _)];
    [done|eapply CreateDomain_ok; [done|exact Hlim|exact Hc]|done|done]); simpl in Hex, Ht.
  - eapply Retain_ok; [done|]. by injection Hex.
  - eapply Release_ok; [done|]. by injection Hex.
  - destruct (TryCharge _ _ _ _ _) as [[[b x] k] p] eqn:Hc.
    eapply TryCharge_ok in Hc; [|done|lia]. by destruct b, k; simplify_eq.
  - destruct (ReleaseCharge _ _ _) as [[b x] k] eqn:Hc.
    eapply ReleaseCharge_ok in Hc; [|done]. by destruct b, key; simplify_eq.
Qed.

Lemma rd_run_ok acts : forall d d' es,
  domains_ok d -> Forall action_typed acts -> rd_run d acts = (d', es) -> domains_ok d'.
Proof.
  induction acts as [|a rest IH]; intros d d' es H Ht Hrun; simpl in Hrun; [by simplify_eq|].
  inversion Ht; subst. destruct (rd_exec d a) as [[ok d1] e] eqn:Hex.
  destruct (rd_run d1 rest) as [d2 es2] eqn:Hr. simplify_eq. eapply IH; [|done|done].
  by eapply exec_ok.
Qed.

Definition charged_key (c : ChargeClass) (e : rd_event) : option ResourceKey :=
  match e with Charged c' k => if decide (c' = c) then Some k else None | _ => None end.
Definition paid_key (c : ChargeClass) (e : rd_event) : option ResourceKey :=
  match e with Paid c' k => if decide (c' = c) then Some k else None | _ => None end.
Definition created_key (e : rd_event) : option ResourceKey :=
  match e with Created k => Some k | _ => None end.

(** What one action does to the charge rows of a class. *)
Inductive charge_step (c : ChargeClass) (d d' : Domains) (e : list rd_event) : Prop :=
| ChargesSame : charges c d' = charges c d -> omap (charged_key c) e = [] ->
    omap (paid_key c) e = [] -> charge_step c d d' e
| ChargesTake slot row row' : charges c d !! slot = Some row -> charge_state row = ChargeRetired ->
    charge_state row' = ChargeLive -> charge_generation row' = charge_generation row + 1 ->
    charges c d' = <[slot := row']> (charges c d) ->
    omap (charged_key c) e = [MkKey slot (charge_generation row')] ->
    omap (paid_key c) e = [] -> charge_step c d d' e
| ChargesPay slot row row' : charges c d !! slot = Some row -> charge_state row = ChargeLive ->
    charge_state row' = ChargeRetired -> charge_generation row' = charge_generation row ->
    charges c d' = <[slot := row']> (charges c d) ->
    omap (charged_key c) e = [] ->
    omap (paid_key c) e = [MkKey slot (charge_generation row)] -> charge_step c d d' e.

Lemma charge_stays c d d' e :
  charges c d' = charges c d -> omap (charged_key c) e = [] -> omap (paid_key c) e = [] ->
  charge_step c d d' e.
Proof. apply ChargesSame. Qed.

Lemma exec_charges c d a ok d' e :
  domains_ok d -> action_typed a -> rd_exec d a = (ok, d', e) -> charge_step c d d' e.
Proof.
  intros H Ht Hex.
  destruct a as [| | | |key|key|c0 k amount out|c0 arg]; try (apply create_cases in Hex as
    [(_ & -> & ->)|(? & ? & ? & ? & ? & ? & ? & Hlim & Hc & _ & ->)]; [by apply charge_stays| |done|done];
    unfold CreateDomain in Hc; apply charge_stays; [|done|done];
    destruct (_ || _ || _ || _ || _); [done|]; destruct (first_free_domain 0 _) as [[? ?]|];
    [|done]; injection Hc as <- _; apply charges_set_domain); simpl in Hex.
  - injection Hex as Hex <-. apply charge_stays; [|done|done]. unfold ResourceDomainRetain in Hex.
    repeat (case_match; simplify_eq/=; try done); by destruct c.
  - injection Hex as Hex <-. apply charge_stays; [|done|done]. unfold ResourceDomainRelease in Hex.
    repeat (case_match; simplify_eq/=; try done); by destruct c.
  - destruct (TryCharge c0 d k amount out) as [[[b x] key] p] eqn:Hc. destruct b.
    2: { assert (x = d) as -> by (revert Hc; unfold TryCharge; intros Hc;
           repeat (case_match; simplify_eq/=; try done)).
         simplify_eq. by apply charge_stays. }
    apply TryCharge_inv in Hc as (row & slot & charge & u & _ & _ & _ & _ & _ & _ & _ & _ & _ & Hf
      & -> & _ & ->). injection Hex as _ <- <-.
    apply first_free_charge_spec in Hf as (_ & Hl & Hret & _). rewrite Nat.sub_0_r in Hl.
    destruct (decide (c0 = c)) as [->|Hne].
    + apply (ChargesTake _ _ _ _ slot charge
        (MkChargeRow ChargeLive (charge_generation charge + 1) k amount)); try done.
      * rewrite charges_set_domain. apply charges_set_same.
      * simpl. by rewrite decide_True.
    + apply charge_stays; [|simpl; by rewrite decide_False|done].
      rewrite charges_set_domain. by apply charges_set_other.
  - destruct (ReleaseCharge c0 d arg) as [[b x] key] eqn:Hc. destruct b.
    2: { assert (x = d) as -> by (revert Hc; unfold ReleaseCharge; intros Hc;
           repeat (case_match; simplify_eq/=; try done)).
         simplify_eq. by apply charge_stays. }
    apply ReleaseCharge_inv in Hc as (k & charge & row & u & row1 & -> & Hres & Hlive & _ & _ & _ & _ & _ & ->).
    injection Hex as _ <- <-. apply (resolve_charge_some _ H) in Hres as (Hl & Hg & _).
    destruct (decide (c0 = c)) as [->|Hne].
    + apply (ChargesPay _ _ _ _ (key_slot k) charge
        (MkChargeRow ChargeRetired (charge_generation charge) kInvalidResourceDomainKey 0)); try done.
      * rewrite charges_set_domain. apply charges_set_same.
      * simpl. rewrite decide_True by done. rewrite Hg. by destruct k.
    + apply charge_stays; [|done|simpl; by rewrite decide_False].
      rewrite charges_set_domain. by apply charges_set_other.
Qed.

(** The keys handed out, paid back, and outstanding. *)
Record charge_history (c : ChargeClass) (d : Domains) (taken paid : list ResourceKey) : Prop := {
  hist_taken : NoDup taken;
  hist_paid : NoDup paid;
  hist_sub : forall k, k ∈ paid -> k ∈ taken;
  hist_slot : forall k, k ∈ taken -> is_Some (charges c d !! key_slot k);
  hist_rows : forall slot row, charges c d !! slot = Some row ->
    (forall g, MkKey slot g ∈ taken -> g <= charge_generation row) /\
    (charge_state row = ChargeLive <->
       MkKey slot (charge_generation row) ∈ taken /\ MkKey slot (charge_generation row) ∉ paid) /\
    (forall g, g < charge_generation row -> MkKey slot g ∈ taken -> MkKey slot g ∈ paid);
}.

Lemma charge_history_step c d d' e taken paid :
  charge_history c d taken paid -> charge_step c d d' e ->
  charge_history c d' (taken ++ omap (charged_key c) e) (paid ++ omap (paid_key c) e).
Proof.
  intros [Ht Hp Hsub Hslot Hrows] [Hc -> ->|slot row row' Hl Hret Hlive Hg Hc -> ->
    |slot row row' Hl Hlive Hret Hg Hc -> ->]; rewrite ?app_nil_r.
  - constructor; rewrite ?Hc; done.
  - destruct (Hrows _ _ Hl) as (R1 & R2 & R3).
    set (k := MkKey slot (charge_generation row')).
    assert (Hfresh : k ∉ taken) by (unfold k; intros Hin; apply R1 in Hin; lia).
    constructor; rewrite ?Hc.
    + apply NoDup_app. split_and!; [done| |apply NoDup_singleton].
      intros x Hx ->%list_elem_of_singleton. done.
    + done.
    + intros x Hx. apply elem_of_app. left. auto.
    + intros x Hx. apply lookup_lt_is_Some. rewrite length_insert. apply lookup_lt_is_Some.
      apply elem_of_app in Hx as [Hx| ->%list_elem_of_singleton]; [by apply Hslot|by eexists].
    + intros s r Hr. apply list_lookup_insert_Some in Hr as [(<- & <- & _)|[Hne Hr]].
      * fold k. split_and!.
        -- intros g Hin. apply elem_of_app in Hin as [Hin|Hin%list_elem_of_singleton].
           ++ apply R1 in Hin. lia.
           ++ injection Hin. lia.
        -- split; [|done]. intros _. split; [apply elem_of_app; right; by apply list_elem_of_singleton|].
           intros Hin. by apply Hfresh, Hsub.
        -- intros g Hlt Hin. apply elem_of_app in Hin as [Hin|Hin%list_elem_of_singleton];
             [|injection Hin; lia].
           destruct (decide (g = charge_generation row)) as [->|]; [|apply R3; [lia|done]].
           destruct (decide (MkKey slot (charge_generation row) ∈ paid)); [done|].
           exfalso. rewrite (proj2 R2) in Hret; done.
      * destruct (Hrows _ _ Hr) as (Q1 & Q2 & Q3).
        assert (Hin : forall g, MkKey s g ∈ taken ++ [k] <-> MkKey s g ∈ taken).
        { intros g. rewrite elem_of_app, list_elem_of_singleton. split; [intros [?|[=]]; done|by left]. }
        split_and!; [intros g; rewrite Hin; apply Q1|by rewrite Hin|intros g; rewrite Hin; apply Q3].
  - destruct (Hrows _ _ Hl) as (R1 & R2 & R3).
    set (k := MkKey slot (charge_generation row)) in *.
    destruct (proj1 R2 Hlive) as [Htk Hpk].
    constructor; rewrite ?Hc.
    + done.
    + apply NoDup_app. split_and!; [done| |apply NoDup_singleton].
      intros x Hx ->%list_elem_of_singleton. done.
    + intros x Hx. apply elem_of_app in Hx as [Hx| ->%list_elem_of_singleton]; [by apply Hsub|done].
    + intros x Hx. apply lookup_lt_is_Some. rewrite length_insert. apply lookup_lt_is_Some.
      by apply Hslot.
    + intros s r Hr. apply list_lookup_insert_Some in Hr as [(<- & <- & _)|[Hne Hr]].
      * rewrite Hg. fold k. split_and!; [done| |].
        -- split; [by rewrite Hret|]. intros [_ Hno]. exfalso. apply Hno, elem_of_app. right.
           by apply list_elem_of_singleton.
        -- intros g Hlt Hin. apply elem_of_app. left. by apply R3.
      * destruct (Hrows _ _ Hr) as (Q1 & Q2 & Q3).
        assert (Hin : forall g, MkKey s g ∈ paid ++ [k] <-> MkKey s g ∈ paid).
        { intros g. rewrite elem_of_app, list_elem_of_singleton. split; [intros [?|[=]]; done|by left]. }
        split_and!; [done|by rewrite Hin|intros g Hlt Hg'; apply Hin; by apply Q3].
Qed.

(** What one action does to the domain rows. *)
Definition rows_kept (rows rows' : list ResourceDomainRow) : Prop :=
  length rows' = length rows /\
  forall slot row row', rows !! slot = Some row -> rows' !! slot = Some row' ->
    row_generation row' = row_generation row /\
    (row_state row = DomainRetired -> row_state row' = DomainRetired).

Inductive domain_step (d d' : Domains) (e : list rd_event) : Prop :=
| DomainsSame : rows_kept (g_resource_domains d) (g_resource_domains d') ->
    omap created_key e = [] -> domain_step d d' e
| DomainsNew slot row row' : g_resource_domains d !! slot = Some row ->
    row_state row = DomainRetired -> row_generation row' = row_generation row + 1 ->
    g_resource_domains d' = <[slot := row']> (g_resource_domains d) ->
    omap created_key e = [MkKey slot (row_generation row')] -> domain_step d d' e.

Lemma rows_kept_refl rows : rows_kept rows rows.
Proof. split; [done|]. intros slot row row' H1 H2. by simplify_eq. Qed.

Lemma rows_kept_insert rows slot row row' :
  rows !! slot = Some row -> row_generation row' = row_generation row ->
  row_state row <> DomainRetired -> rows_kept rows (<[slot := row']> rows).
Proof.
  intros Hl Hg Hs. split; [apply length_insert|]. intros s r r' Hr Hr'.
  apply list_lookup_insert_Some in Hr' as [(-> & <- & _)|[_ Hr']]; by simplify_eq.
Qed.

Lemma create_domain_step d prof pool ol pl col cbl d' key :
  CreateDomain d prof pool ol pl col cbl true = (true, d', Some key) ->
  domain_step d d' [Created key].
Proof.
  unfold CreateDomain. destruct (_ || _ || _ || _ || _); [done|].
  destruct (first_free_domain 0 _) as [[slot row]|] eqn:Hf; [|done]. intros [= <- <-].
  apply first_free_domain_spec in Hf as (_ & Hl & Hret & _). rewrite Nat.sub_0_r in Hl.
  eapply (DomainsNew _ _ _ slot row); [done|done| |reflexivity|reflexivity]. done.
Qed.

Lemma exec_domains d a ok d' e :
  domains_ok d -> action_typed a -> rd_exec d a = (ok, d', e) -> domain_step d d' e.
Proof.
  intros H Ht Hex.
  destruct a as [| | | |key|key|c0 k amount out|c0 arg]; try (apply create_cases in Hex as
    [(_ & -> & ->)|(? & ? & ? & ? & ? & ? & ? & Hlim & Hc & _ & ->)];
    [apply DomainsSame; [apply rows_kept_refl|done]|by eapply create_domain_step|done|done]);
    simpl in Hex.
  - injection Hex as Hex <-. apply DomainsSame; [|done]. unfold ResourceDomainRetain in Hex.
    destruct (ResolveDomainExactLocked d key) as [row|] eqn:Hr; [|simplify_eq; apply rows_kept_refl].
    apply (resolve_some _ H) in Hr as (Hl & _ & _).
    destruct (_ || _ || _) eqn:Hg; [simplify_eq; apply rows_kept_refl|]. simplify_eq.
    rewrite !orb_false_iff, negb_false_iff, bool_decide_eq_true in Hg. destruct Hg as ((Hs & _) & _).
    eapply rows_kept_insert; [done|done|by rewrite Hs].
  - injection Hex as Hex <-. apply DomainsSame; [|done]. unfold ResourceDomainRelease in Hex.
    destruct (ResolveDomainExactLocked d key) as [row|] eqn:Hr; [|simplify_eq; apply rows_kept_refl].
    apply (resolve_some _ H) in Hr as (Hl & _ & _).
    destruct (_ || _) eqn:Hg; [simplify_eq; apply rows_kept_refl|].
    rewrite !orb_false_iff, negb_false_iff, bool_decide_eq_true in Hg. destruct Hg as (Hs & _).
    repeat (case_match; simplify_eq/=); (eapply rows_kept_insert; [done|done|by rewrite Hs]).
  - destruct (TryCharge c0 d k amount out) as [[[b x] key] p] eqn:Hc. destruct b.
    2: { assert (x = d) as -> by (revert Hc; unfold TryCharge; intros Hc;
           repeat (case_match; simplify_eq/=; try done)).
         simplify_eq. apply DomainsSame; [apply rows_kept_refl|done]. }
    apply TryCharge_inv in Hc as (row & slot & charge & u & _ & _ & Hr & Hs & _ & _ & _ & _ & _ & _
      & -> & _ & ->). injection Hex as _ <- <-. apply (resolve_some _ H) in Hr as (Hl & _ & _).
    apply DomainsSame; [|done]. simpl. rewrite domains_set_charges.
    eapply rows_kept_insert; [done|apply row_set_usage|by rewrite Hs].
  - destruct (ReleaseCharge c0 d arg) as [[b x] key] eqn:Hc. destruct b.
    2: { assert (x = d) as -> by (revert Hc; unfold ReleaseCharge; intros Hc;
           repeat (case_match; simplify_eq/=; try done)).
         simplify_eq. apply DomainsSame; [apply rows_kept_refl|done]. }
    apply ReleaseCharge_inv in Hc as (k & charge & row & u & row1 & -> & _ & _ & Hr & Hnr & _ & -> & _ & ->).
    injection Hex as _ <- <-. apply (resolve_some _ H) in Hr as (Hl & _ & _).
    apply DomainsSame; [|done]. simpl. rewrite domains_set_charges.
    eapply rows_kept_insert; [done| |done]. case_match; simpl; apply row_set_usage.
Qed.

Record domain_history (d : Domains) (made : list ResourceKey) : Prop := {
  hist_made : NoDup made;
  hist_made_slot : forall k, k ∈ made -> is_Some (g_resource_domains d !! key_slot k);
  hist_made_gen : forall k row, k ∈ made -> g_resource_domains d !! key_slot k = Some row ->
    key_generation k <= row_generation row;
}.

Lemma domain_history_step d d' e made :
  domain_history d made -> domain_step d d' e -> domain_history d' (made ++ omap created_key e).
Proof.
  intros [Hm Hs Hg] [[Hlen Hkept] -> | slot row row' Hl Hret Hgen Hd ->]; rewrite ?app_nil_r.
  - constructor; [done| |].
    + intros k Hk. apply lookup_lt_is_Some. rewrite Hlen. by apply lookup_lt_is_Some, Hs.
    + intros k row' Hk Hr'. destruct (Hs _ Hk) as [row Hr].
      destruct (Hkept _ _ _ Hr Hr') as [-> _]. by apply Hg.
  - set (k := MkKey slot (row_generation row')).
    assert (Hfresh : k ∉ made).
    { intros Hin. pose proof (Hg k row Hin Hl). simpl in *. lia. }
    constructor; rewrite ?Hd.
    + apply NoDup_app. split_and!; [done| |apply NoDup_singleton].
      intros x Hx ->%list_elem_of_singleton. done.
    + intros x Hx. apply lookup_lt_is_Some. rewrite length_insert. apply lookup_lt_is_Some.
      apply elem_of_app in Hx as [Hx| ->%list_elem_of_singleton]; [by apply Hs|by eexists].
    + intros x r Hx Hr. apply list_lookup_insert_Some in Hr as [(Hxs & <- & _)|[Hne Hr]].
      * apply elem_of_app in Hx as [Hx| ->%list_elem_of_singleton]; [|done].
        rewrite Hxs in Hl. pose proof (Hg x row Hx Hl). lia.
      * apply elem_of_app in Hx as [Hx| ->%list_elem_of_singleton]; [by apply Hg|done].
Qed.

(** A key whose generation has been retired. *)
Definition dead (d : Domains) (k : ResourceKey) : Prop :=
  forall row, g_resource_domains d !! key_slot k = Some row ->
  key_generation k < row_generation row \/
  key_generation k = row_generation row /\ row_state row = DomainRetired.

Lemma dead_step d d' e k : dead d k -> domain_step d d' e -> dead d' k.
Proof.
  intros Hdead [[Hlen Hkept] _ | slot row row' Hl Hret Hgen Hd _] r Hr.
  - destruct (g_resource_domains d !! key_slot k) as [r0|] eqn:Hr0.
    + destruct (Hkept _ _ _ Hr0 Hr) as [-> Hst]. destruct (Hdead _ Hr0) as [|[? ?]]; auto.
    + apply lookup_ge_None in Hr0. apply lookup_lt_Some in Hr. lia.
  - rewrite Hd in Hr. apply list_lookup_insert_Some in Hr as [(Hk & <- & _)|[_ Hr]]; [|by apply Hdead].
    rewrite Hk in Hl. left. destruct (Hdead _ Hl) as [|[? ?]]; lia.
Qed.

Lemma run_history acts : forall d d' es c taken paid made,
  domains_ok d -> Forall action_typed acts -> rd_run d acts = (d', es) ->
  charge_history c d taken paid -> domain_history d made ->
  charge_history c d' (taken ++ omap (charged_key c) es) (paid ++ omap (paid_key c) es) /\
  domain_history d' (made ++ omap created_key es) /\
  (forall k, dead d k -> dead d' k).
Proof.
  induction acts as [|a rest IH]; intros d d' es c taken paid made H Ht Hrun Hc Hd; simpl in Hrun.
  { simplify_eq/=. rewrite !app_nil_r. done. }
  inversion Ht; subst. destruct (rd_exec d a) as [[ok d1] e] eqn:Hex.
  destruct (rd_run d1 rest) as [d2 es2] eqn:Hr. simplify_eq.
  pose proof (exec_charges c _ _ _ _ _ H H2 Hex) as Hcs. pose proof (exec_domains _ _ _ _ _ H H2 Hex) as Hds.
  rewrite !omap_app, !app_assoc.
  destruct (IH _ _ _ c _ _ _ (exec_ok _ _ _ _ _ H H2 Hex) H3 Hr (charge_history_step _ _ _ _ _ _ Hc Hcs)
    (domain_history_step _ _ _ _ Hd Hds)) as (? & ? & Hdead).
  split_and!; [done|done|]. intros k Hk. apply Hdead. by eapply dead_step.
Qed.

Lemma boot_history c : charge_history c boot_domains [] [] /\ domain_history boot_domains [].
Proof.
  split; constructor; try apply NoDup_nil_2; try (intros; by apply elem_of_nil in H || set_solver).
  intros slot row Hl. assert (row = zero_charge_row) as ->
    by (destruct c; apply lookup_replicate in Hl as [-> _]; done).
  split_and!; [set_solver|split; [done|set_solver]|set_solver].
Qed.

(** ** Claims *)

Definition live_charge (c : ChargeClass) (d : Domains) (k : ResourceKey) : Prop :=
  exists row, charges c d !! key_slot k = Some row /\ charge_state row = ChargeLive /\
    charge_generation row = key_generation k.

(** C7: Exact accounting: after any sequence of calls from boot, the
    counters of every domain row are exactly the number and the sum of the
    live charges of that row's generation, and never exceed the domain's
    immutable limits. *)
Theorem resource_accounting_exact acts d es i row c :
  Forall action_typed acts -> rd_run boot_domains acts = (d, es) ->
  g_resource_domains d !! i = Some row ->
  let k := MkKey i (row_generation row) in
  use_objects (usage c row) = live_objects (charges c d) k /\
  use_amount (usage c row) = live_amount (charges c d) k /\
  use_objects (usage c row) <= use_object_limit (usage c row) /\
  use_amount (usage c row) <= use_amount_limit (usage c row).
Proof.
  intros Ht Hrun Hi. pose proof (rd_run_ok _ _ _ _ boot_ok Ht Hrun) as H.
  destruct (row_usage _ _ _ (ok_rows _ H _ _ Hi) c). split_and!; try done; lia.
Qed.

(** Every charge key is handed out once and paid back at most once, and
    the live charge rows are exactly the keys handed out and not yet paid. *)
Theorem resource_charges_paid_once acts d es c :
  Forall action_typed acts -> rd_run boot_domains acts = (d, es) ->
  NoDup (omap (charged_key c) es) /\ NoDup (omap (paid_key c) es) /\
  (forall k, live_charge c d k <->
     k ∈ omap (charged_key c) es /\ k ∉ omap (paid_key c) es).
Proof.
  intros Ht Hrun. destruct (boot_history c) as [Hc Hd].
  destruct (run_history _ _ _ _ c _ _ _ boot_ok Ht Hrun Hc Hd) as ([H1 H2 H3 H4 H5] & _ & _).
  simpl in *. split_and!; [done|done|]. intros [slot g]. split.
  - intros (row & Hl & Hlive & Hg). simpl in *. destruct (H5 _ _ Hl) as (_ & R & _).
    rewrite Hg in R. by apply R.
  - intros [Hin Hout]. destruct (H4 _ Hin) as [row Hl]. simpl in Hl.
    destruct (H5 _ _ Hl) as (R1 & R2 & R3). exists row. simpl.
    assert (Hg : charge_generation row = g).
    { specialize (R1 _ Hin). destruct (decide (g < charge_generation row)) as [Hlt|]; [|lia].
      exfalso. by apply Hout, R3. }
    split_and!; [done| |done]. apply R2. by rewrite Hg.
Qed.


(** A live charge is releasable. *)
Lemma live_release d c k :
  domains_ok d -> live_charge c d k ->
  ChargeKeyIsValid c k = true /\
  exists d', ReleaseCharge c d (Some k) = (true, d', Some (kInvalidChargeKey c)).
Proof.
  intros H (ck & Hl & Hlive & Hg).
  pose proof (ok_charges _ H _ _ _ Hl) as [Hcg Hck]. rewrite Hlive in Hck.
  destruct Hck as (Hg1 & Hpos & Hpin). destruct (resolve_pinned _ H _ Hpin) as (row & Hres & Hnr).
  pose proof Hres as Hres0. apply (resolve_some _ H) in Hres0 as (Hdl & Hdg & _).
  pose proof (row_usage _ _ _ (ok_rows _ H _ _ Hdl) c) as [E1 E2 _ _].
  assert (Hk : charge_domain ck = MkKey (key_slot (charge_domain ck)) (row_generation row))
    by (rewrite Hdg; by destruct (charge_domain ck)).
  assert (Hin : ck ∈ charges c d) by (by eapply list_elem_of_lookup_2).
  pose proof (charge_weight_live _ ck Hlive Hk) as [W1 W2].
  pose proof (sumZ_member (one_if (MkKey (key_slot (charge_domain ck)) (row_generation row))) _ ck
    (fun _ _ => one_if_nonneg _ _) Hin) as M1.
  pose proof (sumZ_member (amount_if (MkKey (key_slot (charge_domain ck)) (row_generation row))) _ ck
    (fun y Hy => amount_if_nonneg _ _ _ (elem_charge_ok _ H _ _ Hy)) Hin) as M2.
  rewrite W1 in M1. rewrite W2 in M2. unfold live_objects, live_amount in E1, E2.
  pose proof (lookup_lt_Some _ _ _ Hl) as Hlt. rewrite (ok_charge_count _ H) in Hlt.
  assert (Hvalid : ChargeKeyIsValid c k = true) by (unfold ChargeKeyIsValid; lia).
  split; [done|]. unfold ReleaseCharge, ResolveChargeExactLocked.
  rewrite Hvalid, Hl, Hg, Z.eqb_refl. simpl. rewrite Hlive, Hres. simpl.
  rewrite (proj2 (Z.eqb_neq (charge_amount ck) 0)) by lia.
  destruct (_ || _ || _) eqn:Hguard; [|by eexists].
  destruct (row_state row); [done| |]; simpl in Hguard; lia.
Qed.

(** ** What a charge and a release do to the live charges *)

Lemma live_charge_insert c d d' slot row row' k :
  charges c d !! slot = Some row -> charges c d' = <[slot := row']> (charges c d) ->
  live_charge c d' k <->
  (key_slot k = slot /\ charge_state row' = ChargeLive /\ charge_generation row' = key_generation k)
  \/ (key_slot k <> slot /\ live_charge c d k).
Proof.
  intros Hl Hd. unfold live_charge. rewrite Hd. destruct (decide (key_slot k = slot)) as [->|Hne].
  - rewrite list_lookup_insert_eq by (by eapply lookup_lt_Some). naive_solver.
  - rewrite list_lookup_insert_ne by done. naive_solver.
Qed.

Lemma charge_grants c d domain amount d' key pool :
  domains_ok d -> 0 <= amount -> TryCharge c d domain amount true = (true, d', key, pool) ->
  domains_ok d' /\ exists k, key = Some k /\ ~ live_charge c d k
    /\ forall k', live_charge c d' k' <-> k' = k \/ live_charge c d k'.
Proof.
  intros H Ha Hc. split; [by eapply TryCharge_ok|].
  apply TryCharge_inv in Hc as (row & slot & ck & u & _ & _ & _ & _ & _ & _ & _ & _ & _ & Hf & -> & _ & ->).
  apply first_free_charge_spec in Hf as (_ & Hl & Hret & _). rewrite Nat.sub_0_r in Hl.
  eexists. split; [done|]. split.
  { intros (r & Hr & Hlive & _). simpl in Hr. congruence. }
  intros [ks kg]. erewrite live_charge_insert; [|exact Hl | by rewrite charges_set_domain, charges_set_same].
  simpl. split.
  - intros [(-> & _ & ->)|[_ ?]]; auto.
  - intros [[= -> ->]|Hlive]; [by left|]. destruct (decide (ks = slot)) as [->|]; [|by right].
    destruct Hlive as (r & Hr & Hs & _). simpl in Hr. congruence.
Qed.

Lemma charge_refused c d domain amount out d' key pool :
  TryCharge c d domain amount out = (false, d', key, pool) -> d' = d.
Proof.
  unfold TryCharge. intros Hc. repeat case_match; by simplify_eq.
Qed.

Lemma release_pays c d k :
  domains_ok d -> live_charge c d k ->
  ChargeKeyIsValid c k = true /\
  exists d', ReleaseCharge c d (Some k) = (true, d', Some (kInvalidChargeKey c)) /\ domains_ok d'
    /\ forall k', live_charge c d' k' <-> live_charge c d k' /\ k' <> k.
Proof.
  intros H Hlive. destruct (live_release d c k H Hlive) as (Hv & d' & Hr). split; [done|].
  exists d'. split; [done|]. split; [by eapply ReleaseCharge_ok|].
  apply ReleaseCharge_inv in Hr as (k0 & ck & row & u & row1 & [= <-] & Hr0 & Hs & _ & _ & _ & _ & _ & ->).
  apply (resolve_charge_some _ H) in Hr0 as (Hl & Hg & _). intros [ks kg].
  erewrite live_charge_insert; [|exact Hl | by rewrite charges_set_domain, charges_set_same]. simpl.
  destruct k as [ks0 kg0]. simpl in *. split.
  - intros [(_ & ? & _)|[Hne ?]]; [done|]. split; [done|]. congruence.
  - intros [Hl' Hne]. right. split; [|done]. intros ->. destruct Hl' as (r & Hr & _ & Hg'). simpl in *. congruence.
Qed.

(** What a successful release leaves behind. *)
Lemma release_effect d c k d' out :
  domains_ok d -> ReleaseCharge c d (Some k) = (true, d', out) ->
  exists ck row row',
    charges c d !! key_slot k = Some ck /\ ResolveDomainExactLocked d (charge_domain ck) = Some row /\
    g_resource_domains d' !! key_slot (charge_domain ck) = Some row' /\
    (row_state row' = row_state row \/
     row_state row = DomainClosing /\ row_state row' = DomainRetired) /\
    ReleaseCharge c d' (Some k) = (false, d', None).
Proof.
  intros H Hrel.
  apply ReleaseCharge_inv in Hrel as (k0 & ck & row & u & row1 & [= <-] & Hr0 & _ & Hd0 & _ & Hu & Hr1 & _ & ->).
  apply (resolve_charge_some _ H) in Hr0 as (Hl & Hg & _). pose proof Hd0 as Hd1.
  apply (resolve_some _ H) in Hd1 as (Hdl & _ & _).
  assert (Rs : row_state row1 = row_state row) by (rewrite Hr1; apply row_set_usage). clear Hr1.
  eexists ck, row, _. split_and!; [done|done| | |].
  - simpl. rewrite domains_set_charges. apply list_lookup_insert_eq. by eapply lookup_lt_Some.
  - destruct (bool_decide (row_state row1 = DomainClosing)) eqn:Hb; [|by left].
    apply bool_decide_eq_true in Hb. destruct (row_charged row1); [by left|]. right. by rewrite <- Rs.
  - unfold ReleaseCharge, ResolveChargeExactLocked. destruct (ChargeKeyIsValid c k); [|done].
    rewrite charges_set_domain, charges_set_same, list_lookup_insert_eq by (by eapply lookup_lt_Some).
    simpl. by rewrite Hg, Z.eqb_refl.
Qed.

Lemma objects_zero_uncharged d i row :
  domains_ok d -> g_resource_domains d !! i = Some row ->
  row_charged row = false <-> forall c, use_objects (usage c row) = 0.
Proof.
  intros H Hl. rewrite RowCharged_false. split; [intros Hz c; apply Hz|].
  intros Hz c. split; [apply Hz|]. destruct (row_usage _ _ _ (ok_rows _ H _ _ Hl) c) as [E1 E2 _ _].
  rewrite E2. apply no_charges. apply live_zero. rewrite <- E1. apply Hz.
Qed.

(** A live charge can always be paid back, even when its domain has lost
    its last owner: the release succeeds, invalidates the caller's key, makes
    the same key useless for a second release, and retires a closing domain
    exactly when that was its last charge. *)
Theorem resource_live_charge_is_releasable acts d es c k :
  Forall action_typed acts -> rd_run boot_domains acts = (d, es) -> live_charge c d k ->
  exists d' ck row row',
    ReleaseCharge c d (Some k) = (true, d', Some (kInvalidChargeKey c)) /\
    ReleaseCharge c d' (Some k) = (false, d', None) /\
    charges c d !! key_slot k = Some ck /\
    ResolveDomainExactLocked d (charge_domain ck) = Some row /\
    g_resource_domains d' !! key_slot (charge_domain ck) = Some row' /\
    (row_state row = DomainLive /\ row_state row' = DomainLive \/
     row_state row = DomainClosing /\ (forall c', use_objects (usage c' row') = 0) /\
       row_state row' = DomainRetired \/
     row_state row = DomainClosing /\ ~ (forall c', use_objects (usage c' row') = 0) /\
       row_state row' = DomainClosing).
Proof.
  intros Ht Hrun Hlive. pose proof (rd_run_ok _ _ _ _ boot_ok Ht Hrun) as H.
  destruct (live_release _ _ _ H Hlive) as [_ [d' Hrel]].
  pose proof (ReleaseCharge_ok _ _ _ _ _ _ H Hrel) as H'.
  destruct (release_effect _ _ _ _ _ H Hrel) as (ck & row & row' & Hl & Hres & Hl' & Hst & Hagain).
  exists d', ck, row, row'. split_and!; try done.
  rewrite <- (objects_zero_uncharged _ _ _ H' Hl').
  pose proof (row_state_ok _ _ _ (ok_rows _ H' _ _ Hl')) as Hs. unfold state_ok in Hs.
  assert (Hnr : row_state row <> DomainRetired).
  { destruct Hlive as (ck' & Hck & Hcl & _). rewrite Hl in Hck. injection Hck as <-.
    pose proof (ok_charges _ H _ _ _ Hl) as [_ Hc]. rewrite Hcl in Hc. destruct Hc as (_ & _ & Hp).
    destruct (resolve_pinned _ H _ Hp) as (r & Hr & ?). by simplify_eq. }
  destruct Hst as [Hst|[Hst1 Hst2]].
  - rewrite Hst in *. destruct (row_state row); [done|by left|]. right. right.
    destruct Hs as (_ & _ & ->). done.
  - rewrite Hst2 in *. right. left. by destruct Hs as [_ ->].
Qed.

(** Domain generations are used once and die for good: no key is ever
    created twice, and once the exact generation is retired no later sequence
    of calls makes it live again, so retaining, releasing or charging it keeps
    failing. *)
Theorem resource_domain_keys_die_once acts1 acts2 d1 d2 es1 es2 k row :
  Forall action_typed (acts1 ++ acts2) ->
  rd_run boot_domains acts1 = (d1, es1) -> rd_run d1 acts2 = (d2, es2) ->
  NoDup (omap created_key (es1 ++ es2)) /\
  (ResolveDomainExactLocked d1 k = Some row -> row_state row = DomainRetired ->
   ResourceDomainRetain d2 k = (false, d2) /\ ResourceDomainRelease d2 k = (false, d2) /\
   (forall c amount out, (TryCharge c d2 k amount out).1.1.1 = false)).
Proof.
  intros [Ht1 Ht2]%Forall_app Hrun1 Hrun2. pose proof (rd_run_ok _ _ _ _ boot_ok Ht1 Hrun1) as H1.
  destruct (boot_history SectionCharge) as [Hc Hd].
  destruct (run_history _ _ _ _ _ _ _ _ boot_ok Ht1 Hrun1 Hc Hd) as (Hc1 & Hd1 & _).
  destruct (run_history _ _ _ _ _ _ _ _ H1 Ht2 Hrun2 Hc1 Hd1) as (_ & [Hnd _ _] & Hdead).
  split; [by rewrite omap_app|]. intros Hres Hret.
  assert (Hk : dead d2 k).
  { apply Hdead. apply (resolve_some _ H1) in Hres as (Hl & Hg & _). intros r Hr. simplify_eq.
    right. done. }
  pose proof (rd_run_ok _ _ _ _ H1 Ht2 Hrun2) as H2.
  assert (Hno : forall r, ResolveDomainExactLocked d2 k = Some r -> row_state r = DomainRetired).
  { intros r Hr. apply (resolve_some _ H2) in Hr as (Hl & Hg & _). destruct (Hk _ Hl) as [|[_ ?]]; [lia|done]. }
  unfold ResourceDomainRetain, ResourceDomainRelease, TryCharge.
  destruct (ResolveDomainExactLocked d2 k) as [r|] eqn:Hr; [rewrite (Hno r eq_refl)|];
    split_and!; try done; intros c amount out; destruct (negb out), (amount =? 0); done.
Qed.

(** The decision of a charge: it succeeds exactly when the domain is the
    exact live generation with an owner, the amount is not zero and fits both
    immutable limits, and a charge row is free; a refused charge changes no
    table and stores the invalid key. *)
Theorem resource_charge_decided acts d es c k amount :
  Forall action_typed acts -> rd_run boot_domains acts = (d, es) -> 0 <= amount <= amount_max c ->
  let '(ok, d', key, _) := TryCharge c d k amount true in
  (ok = true <->
     amount <> 0 /\ is_Some (first_free_charge 0 (charges c d)) /\
     exists row, ResolveDomainExactLocked d k = Some row /\ row_state row = DomainLive /\
       live_objects (charges c d) k + 1 <= use_object_limit (usage c row) /\
       live_amount (charges c d) k + amount <= use_amount_limit (usage c row)) /\
  (ok = false -> d' = d /\ key = Some (kInvalidChargeKey c)).
Proof.
  intros Ht Hrun Ha. pose proof (rd_run_ok _ _ _ _ boot_ok Ht Hrun) as H.
  destruct (TryCharge c d k amount true) as [[[ok d'] key] pool] eqn:Hc. split.
  2: { intros ->. revert Hc. unfold TryCharge. intros Hc. repeat (case_match; simplify_eq/=; try done). }
  assert (Hkey : forall row, ResolveDomainExactLocked d k = Some row ->
    use_objects (usage c row) = live_objects (charges c d) k /\
    use_amount (usage c row) = live_amount (charges c d) k /\
    use_amount (usage c row) <= use_amount_limit (usage c row) /\
    (row_state row = DomainLive -> owner_references row <> 0)).
  { intros row Hr. apply (resolve_some _ H) in Hr as (Hl & Hg & _).
    pose proof (ok_rows _ H _ _ Hl) as [_ Hu Hs]. destruct (Hu c) as [E1 E2 _ E4].
    rewrite Hg in E1, E2. replace (MkKey (key_slot k) (key_generation k)) with k in * by (by destruct k).
    split_and!; try done; [lia|]. intros Hlive. unfold state_ok in Hs. rewrite Hlive in Hs. lia. }
  split.
  - intros ->. apply TryCharge_inv in Hc as (row & slot & charge & u & _ & ? & Hr & Hlive & _ & -> & ? & ? & ? & Hf & _).
    split_and!; [done|by rewrite Hf; eexists|]. exists row. destruct (Hkey _ Hr) as (? & ? & _ & _).
    split_and!; try done; lia.
  - intros (Hnz & [[slot charge] Hf] & row & Hr & Hlive & Hob & Ham). destruct (Hkey _ Hr) as (? & ? & ? & Hown).
    specialize (Hown Hlive). revert Hc. unfold TryCharge. simpl.
    rewrite (proj2 (Z.eqb_neq amount 0)), Hr, Hlive, Hf by done. simpl.
    rewrite (proj2 (Z.eqb_neq (owner_references row) 0)), (proj2 (Z.leb_gt _ _)), !(proj2 (Z.ltb_ge _ _)) by lia.
    simpl. by intros [= <- _ _ _].
Qed.

(** ** Witnesses *)

Definition demo_acts : list rd_action :=
  [DoCreateTrusted true; DoCreateSandbox 3 true; DoCharge SectionCharge (MkKey 0 1) 512 true;
   DoCharge SectionCharge (MkKey 1 1) 2 true; DoCharge ChannelCharge (MkKey 0 1) 8192 true;
   DoPay SectionCharge (Some (MkKey 0 1)); DoRelease (MkKey 1 1)].
Definition demo_domains : Domains := (rd_run boot_domains demo_acts).1.
Definition demo_events : list rd_event := (rd_run boot_domains demo_acts).2.

Lemma demo_acts_typed : Forall action_typed demo_acts.
Proof. repeat constructor; vm_compute; discriminate. Qed.

Lemma demo_acts_run : rd_run boot_domains demo_acts = (demo_domains, demo_events).
Proof. vm_compute. reflexivity. Qed.

Lemma resource_accounting_exact_witness :
  exists row, g_resource_domains demo_domains !! 1%nat = Some row /\
    use_objects (usage SectionCharge row) = 1 /\
    use_objects (usage SectionCharge row) =
      live_objects (charges SectionCharge demo_domains) (MkKey 1 (row_generation row)) /\
    use_amount (usage SectionCharge row) =
      live_amount (charges SectionCharge demo_domains) (MkKey 1 (row_generation row)) /\
    use_objects (usage SectionCharge row) <= use_object_limit (usage SectionCharge row) /\
    use_amount (usage SectionCharge row) <= use_amount_limit (usage SectionCharge row).
Proof.
  eexists. split; [vm_compute; reflexivity|]. split; [reflexivity|].
  apply (resource_accounting_exact demo_acts demo_domains demo_events 1).
  - exact demo_acts_typed.
  - exact demo_acts_run.
  - vm_compute. reflexivity.
Defined.

Lemma resource_charges_paid_once_witness :
  omap (charged_key SectionCharge) demo_events = [MkKey 0 1; MkKey 1 1] /\
  omap (paid_key SectionCharge) demo_events = [MkKey 0 1] /\
  NoDup (omap (charged_key SectionCharge) demo_events) /\
  NoDup (omap (paid_key SectionCharge) demo_events) /\
  (forall k, live_charge SectionCharge demo_domains k <->
     k ∈ omap (charged_key SectionCharge) demo_events /\
     k ∉ omap (paid_key SectionCharge) demo_events).
Proof.
  split; [vm_compute; reflexivity|]. split; [vm_compute; reflexivity|].
  apply (resource_charges_paid_once demo_acts).
  - exact demo_acts_typed.
  - exact demo_acts_run.
Defined.

Lemma demo_live : live_charge SectionCharge demo_domains (MkKey 1 1).
Proof. eexists. split; [vm_compute; reflexivity|]. split; reflexivity. Qed.

Lemma resource_live_charge_is_releasable_witness :
  exists d' ck row row',
    ReleaseCharge SectionCharge demo_domains (Some (MkKey 1 1)) =
      (true, d', Some (kInvalidChargeKey SectionCharge)) /\
    ReleaseCharge SectionCharge d' (Some (MkKey 1 1)) = (false, d', None) /\
    charges SectionCharge demo_domains !! 1%nat = Some ck /\
    ResolveDomainExactLocked demo_domains (charge_domain ck) = Some row /\
    g_resource_domains d' !! key_slot (charge_domain ck) = Some row' /\
    (row_state row = DomainLive /\ row_state row' = DomainLive \/
     row_state row = DomainClosing /\ (forall c', use_objects (usage c' row') = 0) /\
       row_state row' = DomainRetired \/
     row_state row = DomainClosing /\ ~ (forall c', use_objects (usage c' row') = 0) /\
       row_state row' = DomainClosing).
Proof.
  apply (resource_live_charge_is_releasable demo_acts demo_domains demo_events SectionCharge (MkKey 1 1)).
  - exact demo_acts_typed.
  - exact demo_acts_run.
  - exact demo_live.
Defined.

(** The sandbox is closed, drained and recreated in the same slot. *)
Definition demo_last_pay : list rd_action := [DoPay SectionCharge (Some (MkKey 1 1))].
Definition demo_reuse : list rd_action := [DoCreateSandbox 5 true; DoRetain (MkKey 1 2)].
Definition demo_drained : Domains := (rd_run boot_domains (demo_acts ++ demo_last_pay)).1.

Lemma demo_drained_typed : Forall action_typed ((demo_acts ++ demo_last_pay) ++ demo_reuse).
Proof. repeat constructor; vm_compute; discriminate. Qed.

Lemma resource_domain_keys_die_once_witness :
  exists d2 es2 row, rd_run demo_drained demo_reuse = (d2, es2) /\
    ResolveDomainExactLocked demo_drained (MkKey 1 1) = Some row /\
    row_state row = DomainRetired /\
    NoDup (omap created_key ((rd_run boot_domains (demo_acts ++ demo_last_pay)).2 ++ es2)) /\
    (ResolveDomainExactLocked demo_drained (MkKey 1 1) = Some row -> row_state row = DomainRetired ->
     ResourceDomainRetain d2 (MkKey 1 1) = (false, d2) /\
     ResourceDomainRelease d2 (MkKey 1 1) = (false, d2) /\
     (forall c amount out, (TryCharge c d2 (MkKey 1 1) amount out).1.1.1 = false)).
Proof.
  eexists (rd_run demo_drained demo_reuse).1, (rd_run demo_drained demo_reuse).2, _.
  split; [vm_compute; reflexivity|]. split; [vm_compute; reflexivity|]. split; [reflexivity|].
  apply (resource_domain_keys_die_once (demo_acts ++ demo_last_pay) demo_reuse demo_drained).
  - exact demo_drained_typed.
  - vm_compute. reflexivity.
  - vm_compute. reflexivity.
Defined.

Lemma resource_charge_decided_witness :
  (TryCharge ChannelCharge demo_domains (MkKey 0 1) 57344 true).1.1.1 = true /\
  let '(ok, d', key, _) := TryCharge ChannelCharge demo_domains (MkKey 0 1) 57345 true in
  (ok = true <->
     57345 <> 0 /\ is_Some (first_free_charge 0 (charges ChannelCharge demo_domains)) /\
     exists row, ResolveDomainExactLocked demo_domains (MkKey 0 1) = Some row /\
       row_state row = DomainLive /\
       live_objects (charges ChannelCharge demo_domains) (MkKey 0 1) + 1
         <= use_object_limit (usage ChannelCharge row) /\
       live_amount (charges ChannelCharge demo_domains) (MkKey 0 1) + 57345
         <= use_amount_limit (usage ChannelCharge row)) /\
  (ok = false -> d' = demo_domains /\ key = Some (kInvalidChargeKey ChannelCharge)).
Proof.
  split; [vm_compute; reflexivity|].
  apply (resource_charge_decided demo_acts demo_domains demo_events ChannelCharge (MkKey 0 1) 57345).
  - exact demo_acts_typed.
  - exact demo_acts_run.
  - vm_compute. split; discriminate.
Defined.
