(* ===== verification/KObject.v ===== *)
(** * Reference-counted kernel objects

    Model of [kernel/ipc/kobject.h] and [kernel/ipc/kobject.cpp]: the base of
    every object a handle can name.  Kernel memory is a finite map from
    addresses to objects (address 0 is the null pointer); an object whose
    count has reached zero stays in the map, dead.  The type-specific destroy
    callback is not under this file's control: that it runs is reported, and
    what it does is not modelled.  Where the source panics in a debug build
    and logs in a release build, the release build is modelled.  Every operation is one critical section of
    the global object lock. *)

From S2P Require Import Prelude.

Inductive ErrorCode :=
| EOk | EOutOfMemory | EInvalidArgument | ENotFound | EAlreadyExists | EPermissionDenied
| ETimeout | EUnsupported | EBadState | EIoError | ETruncated | EBufferTooSmall | EOverflow
| ECorrupt | ENotReady | EBusy | EDeadlock | ENoDevice | EUnknown.
#[export] Instance ErrorCode_eq_dec : EqDecision ErrorCode.
Proof. solve_decision. Defined.

(** [Result<T>]: an error code or a value. *)
Definition Result (A : Type) : Type := ErrorCode + A.

Inductive KObjectType :=
| TypeInvalid | TypeMutex | TypeEvent | TypeSemaphore | TypeMailbox | TypeWaitable | TypeFile
| TypeIocp | TypeMessagePort | TypeServiceEndpoint | TypeTest.
#[export] Instance KObjectType_eq_dec : EqDecision KObjectType.
Proof. solve_decision. Defined.

Record KObject := MkObject {
  ko_type : KObjectType;
  ko_refcount : Z;
  ko_destroy : bool; (* a destroy callback is set *)
}.

Notation Heap := (gmap Z KObject).

Definition type_of (h : Heap) (obj : Z) : KObjectType :=
  match h !! obj with Some o => ko_type o | None => TypeInvalid end.

(** Saturating increment of [util/nospec.h]. *)
Definition RefcountIncSaturating (count : Z) : bool * Z :=
  if count =? u32_max then (false, count) else (true, count + 1).

Definition KObjectInit (h : Heap) (obj : Z) (type : KObjectType) (destroy : bool) : Heap :=
  if obj =? 0 then h
  else if bool_decide (type = TypeInvalid) then h
  else <[obj := MkObject type 1 destroy]> h.

Definition KObjectAcquire (h : Heap) (obj : Z) : bool * Heap :=
  if obj =? 0 then (false, h)
  else match h !! obj with
       | None => (false, h)
       | Some o =>
           if ko_refcount o =? 0 then (false, h)
           else
             let '(ok, count) := RefcountIncSaturating (ko_refcount o) in
             if negb ok then (false, h)
             else (true, <[obj := MkObject (ko_type o) count (ko_destroy o)]> h)
       end.

(** The tag check before the destroy callback; the enumeration has no
    corrupt values other than [TypeInvalid]. *)
Definition valid_tag (type : KObjectType) : bool := negb (bool_decide (type = TypeInvalid)).

(** [None] is the failed tag assertion; the boolean says that the destroy
    callback runs. *)
Definition KObjectRelease (h : Heap) (obj : Z) : option (Heap * bool) :=
  if obj =? 0 then Some (h, false)
  else match h !! obj with
       | None => Some (h, false)
       | Some o =>
           if ko_refcount o =? 0 then Some (h, false)
           else
             let count := ko_refcount o - 1 in
             let h := <[obj := MkObject (ko_type o) count (ko_destroy o)]> h in
             let reached_zero := count =? 0 in
             if reached_zero && ko_destroy o
             then if negb (valid_tag (ko_type o)) then None else Some (h, true)
             else Some (h, false)
       end.

Definition KObjectRefcount (h : Heap) (obj : Z) : Z :=
  match h !! obj with Some o => if obj =? 0 then 0 else ko_refcount o | None => 0 end.

(** The boot self test; [true] when no check panics. *)
Definition KObjectSelfTest (t saturated : Z) : bool :=
  let h := KObjectInit ∅ t TypeTest true in
  if negb (bool_decide (type_of h t = TypeTest)) || negb (KObjectRefcount h t =? 1) then false
  else
    let '(ok1, h) := KObjectAcquire h t in
    let '(ok2, h) := KObjectAcquire h t in
    if negb ok1 || negb ok2 then false
    else if negb (KObjectRefcount h t =? 3) then false
    else match KObjectRelease h t with
         | None => false
         | Some (h, d1) =>
             match KObjectRelease h t with
             | None => false
             | Some (h, d2) =>
                 if negb (KObjectRefcount h t =? 1) then false
                 else if d1 || d2 then false
                 else match KObjectRelease h t with
                      | None => false
                      | Some (h, d3) =>
                          if negb d3 then false
                          else match KObjectRelease h 0 with
                               | None => false
                               | Some (h, _) =>
                                   let '(ok3, h) := KObjectAcquire h t in
                                   if ok3 then false
                                   else
                                     let h := KObjectInit h saturated TypeTest false in
                                     let h := <[saturated := MkObject TypeTest u32_max false]> h in
                                     let '(ok4, h) := KObjectAcquire h saturated in
                                     if ok4 then false
                                     else KObjectRefcount h saturated =? u32_max
                               end
                      end
             end
         end.

Example kobject_selftest_at_boot : KObjectSelfTest 4096 8192 = true.
Proof. vm_compute. reflexivity. Qed.
