(* ===== verification/HandleTable.v ===== *)
(** * Generation-tagged handle tables

    Model of [kernel/ipc/handle_table.h] and [kernel/ipc/handle_table.cpp]:
    the per-process table of 63 usable rows that owns one object reference
    per live row, with invisible reservations, row pins for lookups that
    retain outside the lock, and a close that waits for the pins.

    A critical section of the table lock is one definition.  [None] is a
    failed [KASSERT] (a kernel panic); otherwise an operation returns its
    [Result] and the table.  Operations that leave the lock in the middle
    (retained lookup, detach, adopt-replace, drain) are split at those
    points, and also given whole, with nothing interleaved. *)

From S2P Require Import Prelude KObject.

Definition kHandleInvalid : Z := 0.
Definition kHandleSlotBits : Z := 12.
Definition kHandleSlotMask : Z := 4095.
Definition kHandleGenerationBits : Z := 19.
Definition kHandleGenerationMax : Z := 524287.
Definition kHandlePositiveMax : Z := 2147483647. (* 0x7FFFFFFF *)
Definition kHandleTableCapacity : Z := 64.

Definition HandleEncode (slot generation : Z) : Z :=
  if (0 <? slot) && (slot <? kHandleTableCapacity) && (0 <? generation)
     && (generation <=? kHandleGenerationMax)
  then Z.lor (wrap32 (Z.shiftl generation kHandleSlotBits)) slot
  else kHandleInvalid.

Record DecodedHandle := MkDecoded { dec_slot : Z; dec_generation : Z }.

Definition HandleDecode (handle : Z) : option DecodedHandle :=
  if (handle =? kHandleInvalid) || (kHandlePositiveMax <? handle) then None
  else
    let slot := Z.land handle kHandleSlotMask in
    let generation := Z.shiftr handle kHandleSlotBits in
    if (slot =? 0) || (kHandleTableCapacity <=? slot) || (generation =? 0)
       || (kHandleGenerationMax <? generation)
    then None
    else Some (MkDecoded slot generation).

Definition HandleSlotIndex (handle : Z) : Z :=
  match HandleDecode handle with Some d => dec_slot d | None => 0 end.

Definition HandleEncodeTagged (handle tag_base : Z) (has_out : bool) : option Z :=
  if negb has_out || (kHandleSlotMask <? tag_base) || (4096 <? wrap32 (tag_base + kHandleTableCapacity))
  then None
  else match HandleDecode handle with
       | None => None
       | Some d => Some (Z.lor (wrap32 (Z.shiftl (dec_generation d) kHandleSlotBits))
                               (wrap32 (tag_base + dec_slot d)))
       end.

Definition HandleDecodeTagged (value tag_base : Z) (has_out : bool) : option Z :=
  if negb has_out || (value =? 0) || (kHandlePositiveMax <? value) || (kHandleSlotMask <? tag_base)
     || (4096 <? wrap32 (tag_base + kHandleTableCapacity))
  then None
  else
    let raw := wrap32 value in
    let low_tag := Z.land raw kHandleSlotMask in
    let generation := Z.shiftr raw kHandleSlotBits in
    if (low_tag <=? tag_base) || (wrap32 (tag_base + kHandleTableCapacity) <=? low_tag)
       || (generation =? 0)
    then None
    else
      let decoded := HandleEncode (low_tag - tag_base) generation in
      if decoded =? kHandleInvalid then None else Some decoded.

Definition kHandleRightRead : Z := 1.
Definition kHandleRightWrite : Z := 2.
Definition kHandleRightDuplicate : Z := 4.
Definition kHandleRightTransfer : Z := 8.
Definition kHandleRightWait : Z := 16.
Definition kHandleRightSignal : Z := 32.
Definition kHandleRightDestroy : Z := 64.
Definition kHandleRightInspect : Z := 128.
Definition kHandleRightAll : Z :=
  Z.lor kHandleRightRead (Z.lor kHandleRightWrite (Z.lor kHandleRightDuplicate
    (Z.lor kHandleRightTransfer (Z.lor kHandleRightWait (Z.lor kHandleRightSignal
      (Z.lor kHandleRightDestroy kHandleRightInspect)))))).

Definition TypeAllowedRights (type : KObjectType) : Z :=
  let kCommon := Z.lor kHandleRightDuplicate (Z.lor kHandleRightTransfer
                   (Z.lor kHandleRightDestroy kHandleRightInspect)) in
  let kEndpointCommon := Z.lor kHandleRightDestroy kHandleRightInspect in
  let traffic := Z.lor kHandleRightRead (Z.lor kHandleRightWrite kHandleRightWait) in
  match type with
  | TypeMutex | TypeEvent | TypeSemaphore =>
      Z.lor kCommon (Z.lor kHandleRightWait kHandleRightSignal)
  | TypeMailbox => Z.lor kCommon traffic
  | TypeMessagePort => Z.lor kCommon traffic
  | TypeServiceEndpoint => Z.lor kEndpointCommon traffic
  | TypeWaitable => Z.lor kCommon kHandleRightWait
  | TypeFile => Z.lor kCommon (Z.lor kHandleRightRead kHandleRightWrite)
  | TypeIocp => Z.lor kCommon traffic
  | TypeTest => kHandleRightAll
  | TypeInvalid => 0
  end.

(** Capabilities of [proc/process.h]: bit [c] of the capability word. *)
Definition kCapNone : Z := 0.
Definition kCapFsRead : Z := 2.
Definition kCapDebug : Z := 3.
Definition kCapFsWrite : Z := 4.
Definition kCapSpawnThread : Z := 5.
Definition kCapCount : Z := 13.
Definition CapSetHas (bits c : Z) : bool :=
  if (c =? kCapNone) || (kCapCount <=? c) then false
  else negb (Z.land bits (Z.shiftl 1 c) =? 0).

Definition HandleRightsForProcess (type : KObjectType) (caps : Z) : Z :=
  let add (b : bool) (right rights : Z) := if b then Z.lor rights right else rights in
  if bool_decide (type = TypeInvalid) then 0
  else
    let rights := kHandleRightDestroy in
    let rights := add (negb (bool_decide (type = TypeServiceEndpoint)))
                    (Z.lor kHandleRightDuplicate kHandleRightTransfer) rights in
    let rights := add (CapSetHas caps kCapDebug) kHandleRightInspect rights in
    let traffic := Z.lor kHandleRightRead (Z.lor kHandleRightWrite kHandleRightWait) in
    let rights :=
      match type with
      | TypeFile =>
          add (CapSetHas caps kCapFsWrite) kHandleRightWrite
            (add (CapSetHas caps kCapFsRead) kHandleRightRead rights)
      | TypeMutex | TypeEvent | TypeSemaphore =>
          add (CapSetHas caps kCapSpawnThread) kHandleRightSignal (Z.lor rights kHandleRightWait)
      | TypeMailbox | TypeMessagePort | TypeServiceEndpoint => Z.lor rights traffic
      | TypeWaitable => Z.lor rights kHandleRightWait
      | TypeIocp =>
          add (CapSetHas caps kCapSpawnThread) kHandleRightWrite
            (Z.lor rights (Z.lor kHandleRightRead kHandleRightWait))
      | TypeTest =>
          add (CapSetHas caps kCapSpawnThread) kHandleRightSignal
            (Z.lor (add (CapSetHas caps kCapFsWrite) kHandleRightWrite
                      (add (CapSetHas caps kCapFsRead) kHandleRightRead rights))
                   kHandleRightWait)
      | TypeInvalid => 0
      end in
    Z.land rights (TypeAllowedRights type).

Inductive HandleSlotState := SlotFree | SlotLive | SlotClosing | SlotRetired | SlotReserved.
Inductive HandleTableState := TableOpen | TableDraining | TableClosed.
#[export] Instance HandleSlotState_eq_dec : EqDecision HandleSlotState.
Proof. solve_decision. Defined.
#[export] Instance HandleTableState_eq_dec : EqDecision HandleTableState.
Proof. solve_decision. Defined.

Record HandleSlot := MkSlot {
  slot_obj : Z;
  slot_rights : Z;
  reservation_nonce : Z;
  slot_generation : Z;
  acquisition_pins : Z;
  reserved_type : KObjectType;
  slot_state : HandleSlotState;
}.

Record HandleTable := MkTable {
  table_slots : list HandleSlot;
  next_free_hint : Z;
  active_operations : Z;
  table_state : HandleTableState;
}.

Definition zero_slot : HandleSlot := MkSlot 0 0 0 0 0 TypeInvalid SlotFree.
Definition zero_table : HandleTable :=
  MkTable (replicate (Z.to_nat kHandleTableCapacity) zero_slot) 0 0 TableOpen.

(** [HandleTableReservation]. *)
Record HandleTableReservation := MkReservation { res_handle : Z; res_nonce : Z }.
Definition kInvalidHandleTableReservation : HandleTableReservation := MkReservation kHandleInvalid 0.
Definition HandleTableReservationIsValid (r : HandleTableReservation) : bool :=
  negb (res_handle r =? kHandleInvalid) && negb (res_nonce r =? 0).

(** ** Field updates *)

Definition with_slot (t : HandleTable) (i : Z) (s : HandleSlot) : HandleTable :=
  MkTable (<[Z.to_nat i := s]> (table_slots t)) (next_free_hint t) (active_operations t)
    (table_state t).
Definition with_slots (t : HandleTable) (l : list HandleSlot) : HandleTable :=
  MkTable l (next_free_hint t) (active_operations t) (table_state t).
Definition with_hint (t : HandleTable) (h : Z) : HandleTable :=
  MkTable (table_slots t) h (active_operations t) (table_state t).
Definition with_active (t : HandleTable) (n : Z) : HandleTable :=
  MkTable (table_slots t) (next_free_hint t) n (table_state t).
Definition with_state (t : HandleTable) (s : HandleTableState) : HandleTable :=
  MkTable (table_slots t) (next_free_hint t) (active_operations t) s.
Definition slot_to (s : HandleSlot) (st : HandleSlotState) : HandleSlot :=
  MkSlot (slot_obj s) (slot_rights s) (reservation_nonce s) (slot_generation s)
    (acquisition_pins s) (reserved_type s) st.
Definition slot_pins (s : HandleSlot) (n : Z) : HandleSlot :=
  MkSlot (slot_obj s) (slot_rights s) (reservation_nonce s) (slot_generation s) n
    (reserved_type s) (slot_state s).

Definition slot_of (t : HandleTable) (i : Z) : option HandleSlot := table_slots t !! Z.to_nat i.

(** ** Helpers of the source *)

Definition MaskedIndex32 (idx bound : Z) : Z :=
  let mask := wrap32 (0 - (if idx <? bound then 1 else 0)) in
  Z.land idx mask.

(** The outer option is the assertion, the inner the boolean result. *)
Definition DecodeHandleNospec (handle : Z) : option (option DecodedHandle) :=
  match HandleDecode handle with
  | None => Some None
  | Some d =>
      let masked_slot := MaskedIndex32 (dec_slot d) kHandleTableCapacity in
      if negb (masked_slot <? kHandleTableCapacity) then None
      else if negb (masked_slot =? dec_slot d) then Some None
      else Some (Some (MkDecoded masked_slot (dec_generation d)))
  end.

Definition SlotMatches (s : HandleSlot) (generation : Z) : bool :=
  bool_decide (slot_state s = SlotLive) && negb (slot_obj s =? 0)
  && (slot_generation s =? generation) && (reservation_nonce s =? 0)
  && bool_decide (reserved_type s = TypeInvalid).

Definition ClosedStateFor (s : HandleSlot) : HandleSlotState :=
  if slot_generation s =? kHandleGenerationMax then SlotRetired else SlotFree.

(** The nonce counter is one word of the boot; the compare-exchange loop
    takes the next value or reports exhaustion as 0. *)
Definition MintHandleReservationNonce (last : Z) : Z * Z :=
  if last =? u64_max then (0, last) else (last + 1, last + 1).

Definition ReservationMatches (s : HandleSlot) (d : DecodedHandle) (r : HandleTableReservation)
    : bool :=
  bool_decide (slot_state s = SlotReserved) && (slot_obj s =? 0)
  && (slot_generation s =? dec_generation d) && (reservation_nonce s =? res_nonce r)
  && negb (bool_decide (reserved_type s = TypeInvalid)) && negb (slot_rights s =? 0).

Definition lacks (have want : Z) : bool := negb (Z.land want (Z.lnot have) =? 0).
Definition covers (have want : Z) : bool := Z.land have want =? want.

(** A row emptied by close, abort or drain. *)
Definition emptied (s : HandleSlot) : HandleSlot :=
  MkSlot 0 0 0 (slot_generation s) (acquisition_pins s) TypeInvalid (ClosedStateFor s).

(** ** Allocating a row *)

Definition slot_is_clear (s : HandleSlot) : bool :=
  (slot_obj s =? 0) && (slot_rights s =? 0) && (reservation_nonce s =? 0)
  && (acquisition_pins s =? 0) && bool_decide (reserved_type s = TypeInvalid).

(** The search loop shared by insert and reserve: [remaining] of its 64 steps
    are left.  [None] is a failed assertion, [Some (t, None)] a full table. *)
Fixpoint scan_free (remaining : nat) (start : Z) (t : HandleTable) : option (HandleTable * option Z) :=
  match remaining with
  | O => Some (t, None)
  | S remaining' =>
      let step := kHandleTableCapacity - Z.of_nat remaining in
      let index := start + step in
      let index := if kHandleTableCapacity <=? index then index - kHandleTableCapacity else index in
      if index =? 0 then scan_free remaining' start t
      else match slot_of t index with
           | None => None
           | Some s =>
               if negb (bool_decide (slot_state s = SlotFree)) then scan_free remaining' start t
               else if negb (slot_is_clear s) then None
               else if slot_generation s =? kHandleGenerationMax
               then scan_free remaining' start (with_slot t index (slot_to s SlotRetired))
               else Some (t, Some index)
           end
  end.

Definition find_free (t : HandleTable) : option (HandleTable * option Z) :=
  scan_free (Z.to_nat kHandleTableCapacity) ((next_free_hint t + 1) mod kHandleTableCapacity) t.

Definition bad_rights (requested : Z) : bool :=
  (requested =? 0) || lacks kHandleRightAll requested.

Definition HandleTableInsert (h : Heap) (t : HandleTable) (obj requested_rights : Z)
    : option (HandleTable * Result Z) :=
  if (obj =? 0) || bool_decide (type_of h obj = TypeInvalid) || bad_rights requested_rights
  then Some (t, inl EInvalidArgument)
  else if lacks (TypeAllowedRights (type_of h obj)) requested_rights
  then Some (t, inl EPermissionDenied)
  else if KObjectRefcount h obj =? 0 then Some (t, inl EBadState)
  else if negb (bool_decide (table_state t = TableOpen)) then Some (t, inl EBadState)
  else if kHandleTableCapacity <=? next_free_hint t then Some (t, inl EBadState)
  else match find_free t with
       | None => None
       | Some (t, None) => Some (t, inl EOutOfMemory)
       | Some (t, Some index) =>
           match slot_of t index with
           | None => None
           | Some s =>
               let generation := wrap32 (slot_generation s + 1) in
               let handle := HandleEncode index generation in
               if handle =? kHandleInvalid then None
               else
                 let s := MkSlot obj requested_rights 0 generation (acquisition_pins s) TypeInvalid
                            SlotLive in
                 Some (with_hint (with_slot t index s) index, inr handle)
           end
       end.

(** The last argument is the boot-wide nonce counter, returned updated. *)
Definition HandleTableReserve (t : HandleTable) (object_type : KObjectType) (requested_rights last : Z)
    : option (HandleTable * Z * Result HandleTableReservation) :=
  if bool_decide (object_type = TypeInvalid) || bad_rights requested_rights
  then Some (t, last, inl EInvalidArgument)
  else if lacks (TypeAllowedRights object_type) requested_rights
  then Some (t, last, inl EPermissionDenied)
  else if negb (bool_decide (table_state t = TableOpen)) then Some (t, last, inl EBadState)
  else if kHandleTableCapacity <=? next_free_hint t then Some (t, last, inl EBadState)
  else match find_free t with
       | None => None
       | Some (t, None) => Some (t, last, inl EOutOfMemory)
       | Some (t, Some index) =>
           match slot_of t index with
           | None => None
           | Some s =>
               let '(nonce, last) := MintHandleReservationNonce last in
               if nonce =? 0 then Some (t, last, inl EOverflow)
               else
                 let generation := wrap32 (slot_generation s + 1) in
                 let handle := HandleEncode index generation in
                 if handle =? kHandleInvalid then None
                 else
                   let s := MkSlot (slot_obj s) requested_rights nonce generation
                              (acquisition_pins s) object_type SlotReserved in
                   Some (with_hint (with_slot t index s) index, last,
                         inr (MkReservation handle nonce))
           end
       end.

Definition HandleTablePublish (h : Heap) (t : HandleTable) (r : HandleTableReservation) (obj : Z)
    : option (HandleTable * Result Z) :=
  if negb (HandleTableReservationIsValid r) then Some (t, inl EInvalidArgument)
  else match DecodeHandleNospec (res_handle r) with
       | None => None
       | Some None => Some (t, inl EInvalidArgument)
       | Some (Some d) =>
           if (obj =? 0) || bool_decide (type_of h obj = TypeInvalid)
           then Some (t, inl EInvalidArgument)
           else if KObjectRefcount h obj =? 0 then Some (t, inl EBadState)
           else if negb (bool_decide (table_state t = TableOpen)) then Some (t, inl EBadState)
           else match slot_of t (dec_slot d) with
                | None => None
                | Some s =>
                    if negb (ReservationMatches s d r) then Some (t, inl EInvalidArgument)
                    else if negb (bool_decide (reserved_type s = type_of h obj))
                    then Some (t, inl EInvalidArgument)
                    else if lacks (TypeAllowedRights (type_of h obj)) (slot_rights s)
                    then Some (t, inl EPermissionDenied)
                    else
                      let s := MkSlot obj (slot_rights s) 0 (slot_generation s)
                                 (acquisition_pins s) TypeInvalid SlotLive in
                      Some (with_slot t (dec_slot d) s, inr (res_handle r))
                end
       end.

Definition HandleTableAbort (t : HandleTable) (r : HandleTableReservation)
    : option (HandleTable * Result unit) :=
  if negb (HandleTableReservationIsValid r) then Some (t, inl EInvalidArgument)
  else match DecodeHandleNospec (res_handle r) with
       | None => None
       | Some None => Some (t, inl EInvalidArgument)
       | Some (Some d) =>
           if negb (bool_decide (table_state t = TableOpen)) then Some (t, inl EBadState)
           else match slot_of t (dec_slot d) with
                | None => None
                | Some s =>
                    if negb (ReservationMatches s d r) then Some (t, inl EInvalidArgument)
                    else
                      let s := MkSlot (slot_obj s) 0 0 (slot_generation s) (acquisition_pins s)
                                 TypeInvalid (ClosedStateFor s) in
                      Some (with_slot t (dec_slot d) s, inr tt)
                end
       end.

(** ** Retained lookup: pin, acquire, unpin *)

Record Pin := MkPin { pin_slot : Z; pin_obj : Z; pin_rights : Z }.

(** The row a lookup, a close or a replacement addresses: decoded, of an open
    table, matching, and of the expected type. *)
Definition live_row (h : Heap) (t : HandleTable) (d : DecodedHandle) (expected : KObjectType)
    : option (Result HandleSlot) :=
  if negb (bool_decide (table_state t = TableOpen)) then Some (inl EBadState)
  else match slot_of t (dec_slot d) with
       | None => None
       | Some s =>
           if negb (SlotMatches s (dec_generation d)) then Some (inl EInvalidArgument)
           else if negb (bool_decide (expected = TypeInvalid))
                   && negb (bool_decide (type_of h (slot_obj s) = expected))
           then Some (inl EInvalidArgument)
           else Some (inr s)
       end.

Definition RetainSnapshotPin (h : Heap) (t : HandleTable) (handle : Z) (expected_type : KObjectType)
    (required_rights : Z) : option (HandleTable * Result Pin) :=
  match DecodeHandleNospec handle with
  | None => None
  | Some None => Some (t, inl EInvalidArgument)
  | Some (Some d) =>
      if lacks kHandleRightAll required_rights then Some (t, inl EInvalidArgument)
      else match live_row h t d expected_type with
           | None => None
           | Some (inl e) => Some (t, inl e)
           | Some (inr s) =>
               if negb (covers (slot_rights s) required_rights) then Some (t, inl EPermissionDenied)
               else if (acquisition_pins s =? u32_max) || (active_operations t =? u32_max)
               then Some (t, inl EOverflow)
               else
                 let t' := with_slot t (dec_slot d) (slot_pins s (acquisition_pins s + 1)) in
                 Some (with_active t' (active_operations t + 1),
                       inr (MkPin (dec_slot d) (slot_obj s) (slot_rights s)))
           end
  end.

Definition RetainSnapshotUnpin (t : HandleTable) (p : Pin) : option HandleTable :=
  match slot_of t (pin_slot p) with
  | None => None
  | Some s =>
      if negb (slot_obj s =? pin_obj p) then None
      else if negb (0 <? acquisition_pins s) then None
      else if negb (0 <? active_operations t) then None
      else
        let t' := with_slot t (pin_slot p) (slot_pins s (acquisition_pins s - 1)) in
        Some (with_active t' (active_operations t - 1))
  end.

Definition RetainSnapshot (h : Heap) (t : HandleTable) (handle : Z) (expected_type : KObjectType)
    (required_rights : Z) : option (Heap * HandleTable * Result (Z * Z)) :=
  match RetainSnapshotPin h t handle expected_type required_rights with
  | None => None
  | Some (t, inl e) => Some (h, t, inl e)
  | Some (t, inr p) =>
      let '(retained, h) := KObjectAcquire h (pin_obj p) in
      match RetainSnapshotUnpin t p with
      | None => None
      | Some t =>
          if negb retained then Some (h, t, inl EOverflow)
          else Some (h, t, inr (pin_obj p, pin_rights p))
      end
  end.

(** The null pointer reports every failure. *)
Definition HandleTableLookupRef (h : Heap) (t : HandleTable) (handle : Z)
    (expected_type : KObjectType) (required_rights : Z) : option (Heap * HandleTable * Z) :=
  match RetainSnapshot h t handle expected_type required_rights with
  | None => None
  | Some (h, t, inl _) => Some (h, t, 0)
  | Some (h, t, inr (obj, _)) => Some (h, t, obj)
  end.

Definition HandleTableRights (t : HandleTable) (handle : Z) : option Z :=
  match DecodeHandleNospec handle with
  | None => None
  | Some None => Some 0
  | Some (Some d) =>
      if negb (bool_decide (table_state t = TableOpen)) then Some 0
      else match slot_of t (dec_slot d) with
           | None => None
           | Some s => Some (if SlotMatches s (dec_generation d) then slot_rights s else 0)
           end
  end.

Definition HandleCheckRight (t : HandleTable) (handle required_rights : Z) : option bool :=
  if bad_rights required_rights then Some false
  else match DecodeHandleNospec handle with
       | None => None
       | Some None => Some false
       | Some (Some d) =>
           if negb (bool_decide (table_state t = TableOpen)) then Some false
           else match slot_of t (dec_slot d) with
                | None => None
                | Some s => Some (SlotMatches s (dec_generation d)
                                  && covers (slot_rights s) required_rights)
                end
       end.

(** ** Detach: mark the row closing, then wait for its pins *)

Definition HandleTableDetachBegin (h : Heap) (t : HandleTable) (handle : Z)
    (expected_type : KObjectType) (required_rights : Z)
    : option (HandleTable * Result DecodedHandle) :=
  match DecodeHandleNospec handle with
  | None => None
  | Some None => Some (t, inl EInvalidArgument)
  | Some (Some d) =>
      if lacks kHandleRightAll required_rights then Some (t, inl EInvalidArgument)
      else match live_row h t d expected_type with
           | None => None
           | Some (inl e) => Some (t, inl e)
           | Some (inr s) =>
               if negb (covers (slot_rights s) required_rights) then Some (t, inl EPermissionDenied)
               else if active_operations t =? u32_max then Some (t, inl EOverflow)
               else Some (with_active (with_slot t (dec_slot d) (slot_to s SlotClosing))
                            (active_operations t + 1), inr d)
           end
  end.

(** One turn of the waiting loop; the object is null while pins remain. *)
Definition HandleTableDetachPoll (t : HandleTable) (d : DecodedHandle) : option (HandleTable * Z) :=
  match slot_of t (dec_slot d) with
  | None => None
  | Some s =>
      if negb (bool_decide (slot_state s = SlotClosing) && (slot_generation s =? dec_generation d))
      then None
      else if negb (acquisition_pins s =? 0) then Some (t, 0)
      else if negb (0 <? active_operations t) then None
      else Some (with_active (with_slot t (dec_slot d) (emptied s)) (active_operations t - 1),
                 slot_obj s)
  end.

(** An uninterrupted run of an operation with a waiting loop: a failed
    assertion, still waiting when the given number of turns is used up, or
    the result. *)
Inductive Outcome (A : Type) := Panic | Waiting | Done (a : A).
Arguments Panic {A}.
Arguments Waiting {A}.
Arguments Done {A}.

Fixpoint DetachLoop (turns : nat) (t : HandleTable) (d : DecodedHandle) : Outcome (HandleTable * Z) :=
  match turns with
  | O => Waiting
  | S turns' =>
      match HandleTableDetachPoll t d with
      | None => Panic
      | Some (t, detached) =>
          if negb (detached =? 0) then Done (t, detached) else DetachLoop turns' t d
      end
  end.

Definition HandleTableDetach (turns : nat) (h : Heap) (t : HandleTable) (handle : Z)
    (expected_type : KObjectType) (required_rights : Z) : Outcome (HandleTable * Result Z) :=
  match HandleTableDetachBegin h t handle expected_type required_rights with
  | None => Panic
  | Some (t, inl e) => Done (t, inl e)
  | Some (t, inr d) =>
      match DetachLoop turns t d with
      | Panic => Panic
      | Waiting => Waiting
      | Done (t, obj) => Done (t, inr obj)
      end
  end.

Definition HandleTableRemove (turns : nat) (h : Heap) (t : HandleTable) (handle : Z)
    : Outcome (Heap * HandleTable * Result unit) :=
  match HandleTableDetach turns h t handle TypeInvalid 0 with
  | Panic => Panic
  | Waiting => Waiting
  | Done (t, inl e) => Done (h, t, inl e)
  | Done (t, inr obj) =>
      match KObjectRelease h obj with
      | None => Panic
      | Some (h, _) => Done (h, t, inr tt)
      end
  end.

(** ** Duplication

    Source and destination may be the same table, so they are two positions
    of one list of tables. *)

Definition HandleTableInsertInto (h : Heap) (ts : list HandleTable) (dst : nat) (obj rights : Z)
    : option (Heap * list HandleTable * Result Z) :=
  match ts !! dst with
  | None => None
  | Some t =>
      match HandleTableInsert h t obj rights with
      | None => None
      | Some (t, inl e) =>
          match KObjectRelease h obj with
          | None => None
          | Some (h, _) => Some (h, <[dst := t]> ts, inl e)
          end
      | Some (t, inr handle) => Some (h, <[dst := t]> ts, inr handle)
      end
  end.

Definition HandleTableDuplicateRights (h : Heap) (ts : list HandleTable) (src dst : nat)
    (handle requested_rights : Z) : option (Heap * list HandleTable * Result Z) :=
  if bad_rights requested_rights then Some (h, ts, inl EInvalidArgument)
  else match ts !! src with
       | None => None
       | Some t =>
           match RetainSnapshot h t handle TypeInvalid kHandleRightDuplicate with
           | None => None
           | Some (h, t, inl e) => Some (h, <[src := t]> ts, inl e)
           | Some (h, t, inr (obj, source_rights)) =>
               let ts := <[src := t]> ts in
               if lacks source_rights requested_rights
               then match KObjectRelease h obj with
                    | None => None
                    | Some (h, _) => Some (h, ts, inl EPermissionDenied)
                    end
               else HandleTableInsertInto h ts dst obj requested_rights
           end
       end.

Definition HandleTableDuplicate (h : Heap) (ts : list HandleTable) (src dst : nat) (handle : Z)
    : option (Heap * list HandleTable * Result Z) :=
  match ts !! src with
  | None => None
  | Some t =>
      match RetainSnapshot h t handle TypeInvalid kHandleRightDuplicate with
      | None => None
      | Some (h, t, inl e) => Some (h, <[src := t]> ts, inl e)
      | Some (h, t, inr (obj, rights)) => HandleTableInsertInto h (<[src := t]> ts) dst obj rights
      end
  end.

(** ** Replacement *)

Definition HandleReplace (t : HandleTable) (src_handle requested_rights : Z)
    : option (HandleTable * Result Z) :=
  match DecodeHandleNospec src_handle with
  | None => None
  | Some None => Some (t, inl EInvalidArgument)
  | Some (Some d) =>
      if bad_rights requested_rights then Some (t, inl EInvalidArgument)
      else if negb (bool_decide (table_state t = TableOpen)) then Some (t, inl EBadState)
      else match slot_of t (dec_slot d) with
           | None => None
           | Some s =>
               if negb (SlotMatches s (dec_generation d)) then Some (t, inl EInvalidArgument)
               else if (Z.land (slot_rights s) kHandleRightDuplicate =? 0)
                       || lacks (slot_rights s) requested_rights
               then Some (t, inl EPermissionDenied)
               else if slot_generation s =? kHandleGenerationMax then Some (t, inl EOverflow)
               else
                 let generation := wrap32 (slot_generation s + 1) in
                 let s := MkSlot (slot_obj s) requested_rights (reservation_nonce s) generation
                            (acquisition_pins s) (reserved_type s) (slot_state s) in
                 let replacement := HandleEncode (dec_slot d) generation in
                 if replacement =? kHandleInvalid then None
                 else Some (with_slot t (dec_slot d) s, inr replacement)
           end
  end.

Definition HandleTableAdoptReplaceBegin (h : Heap) (t : HandleTable) (existing replacement : Z)
    (requested_rights : Z) (expected_type : KObjectType) : option (HandleTable * Result DecodedHandle) :=
  match DecodeHandleNospec existing with
  | None => None
  | Some None => Some (t, inl EInvalidArgument)
  | Some (Some d) =>
      let type := type_of h replacement in
      if (replacement =? 0) || bool_decide (type = TypeInvalid) || bad_rights requested_rights
      then Some (t, inl EInvalidArgument)
      else if negb (bool_decide (expected_type = TypeInvalid)) && negb (bool_decide (type = expected_type))
      then Some (t, inl EInvalidArgument)
      else if lacks (TypeAllowedRights type) requested_rights then Some (t, inl EPermissionDenied)
      else if KObjectRefcount h replacement =? 0 then Some (t, inl EBadState)
      else match live_row h t d expected_type with
           | None => None
           | Some (inl e) => Some (t, inl e)
           | Some (inr s) =>
               if (slot_generation s =? kHandleGenerationMax) || (active_operations t =? u32_max)
               then Some (t, inl EOverflow)
               else Some (with_active (with_slot t (dec_slot d) (slot_to s SlotClosing))
                            (active_operations t + 1), inr d)
           end
  end.

(** The new handle and the displaced object; the object is null while pins
    remain. *)
Definition HandleTableAdoptReplacePoll (t : HandleTable) (d : DecodedHandle)
    (replacement requested_rights : Z) : option (HandleTable * Z * Z) :=
  match slot_of t (dec_slot d) with
  | None => None
  | Some s =>
      if negb (bool_decide (slot_state s = SlotClosing) && (slot_generation s =? dec_generation d))
      then None
      else if negb (acquisition_pins s =? 0) then Some (t, kHandleInvalid, 0)
      else
        let generation := wrap32 (slot_generation s + 1) in
        let replacement_handle := HandleEncode (dec_slot d) generation in
        if replacement_handle =? kHandleInvalid then None
        else if negb (0 <? active_operations t) then None
        else
          let s' := MkSlot replacement requested_rights (reservation_nonce s) generation
                      (acquisition_pins s) (reserved_type s) SlotLive in
          Some (with_active (with_slot t (dec_slot d) s') (active_operations t - 1),
                replacement_handle, slot_obj s)
  end.

Fixpoint AdoptReplaceLoop (turns : nat) (t : HandleTable) (d : DecodedHandle)
    (replacement requested_rights : Z) : Outcome (HandleTable * Z * Z) :=
  match turns with
  | O => Waiting
  | S turns' =>
      match HandleTableAdoptReplacePoll t d replacement requested_rights with
      | None => Panic
      | Some (t, handle, displaced) =>
          if negb (displaced =? 0) then Done (t, handle, displaced)
          else AdoptReplaceLoop turns' t d replacement requested_rights
      end
  end.

Definition HandleTableAdoptReplace (turns : nat) (h : Heap) (t : HandleTable)
    (existing replacement requested_rights : Z) (expected_type : KObjectType)
    : Outcome (HandleTable * Result (Z * Z)) :=
  match HandleTableAdoptReplaceBegin h t existing replacement requested_rights expected_type with
  | None => Panic
  | Some (t, inl e) => Done (t, inl e)
  | Some (t, inr d) =>
      match AdoptReplaceLoop turns t d replacement requested_rights with
      | Panic => Panic
      | Waiting => Waiting
      | Done (t, handle, displaced) => Done (t, inr (handle, displaced))
      end
  end.

(** ** Counting and listing rows *)

Definition is_live (s : HandleSlot) : bool := bool_decide (slot_state s = SlotLive).

Definition HandleTableLiveCount (t : HandleTable) : Z :=
  sumZ (fun s => if is_live s then 1 else 0) (drop 1 (table_slots t)).

Record HandleSnapshotEntry := MkEntry { ent_handle : Z; ent_type : KObjectType; ent_rights : Z }.

Fixpoint snapshot_rows (h : Heap) (rows : list HandleSlot) (i : Z) (has_out : bool)
    (total capacity : Z) : list HandleSnapshotEntry * Z :=
  match rows with
  | [] => ([], total)
  | s :: rows =>
      if negb (is_live s) || (slot_obj s =? 0) then snapshot_rows h rows (i + 1) has_out total capacity
      else
        let '(out, n) := snapshot_rows h rows (i + 1) has_out (total + 1) capacity in
        if has_out && (total <? capacity)
        then (MkEntry (HandleEncode i (slot_generation s)) (type_of h (slot_obj s)) (slot_rights s) :: out, n)
        else (out, n)
  end.

Definition HandleTableSnapshot (h : Heap) (t : HandleTable) (has_out : bool) (capacity : Z)
    : list HandleSnapshotEntry * Z :=
  snapshot_rows h (drop 1 (table_slots t)) 1 has_out 0 capacity.

(** ** Drain *)

(** Entry: [true] when this caller owns the drain. *)
Definition HandleTableDrainEnter (t : HandleTable) : HandleTable * bool :=
  match table_state t with
  | TableClosed => (t, false)
  | TableOpen => (with_state t TableDraining, true)
  | TableDraining => (t, false)
  end.

Definition HandleTableDrainQuiescent (t : HandleTable) : bool := active_operations t =? 0.

Fixpoint drain_rows (rows : list HandleSlot) (victim_count : Z) : option (list HandleSlot * list Z) :=
  match rows with
  | [] => Some ([], [])
  | s :: rows =>
      if negb (negb (bool_decide (slot_state s = SlotClosing)) && (acquisition_pins s =? 0)) then None
      else
        match slot_state s with
        | SlotReserved =>
            if negb ((slot_obj s =? 0) && negb (slot_rights s =? 0)
                     && negb (reservation_nonce s =? 0)
                     && negb (bool_decide (reserved_type s = TypeInvalid)))
            then None
            else match drain_rows rows victim_count with
                 | None => None
                 | Some (rows, victims) =>
                     Some (MkSlot (slot_obj s) 0 0 (slot_generation s) (acquisition_pins s)
                             TypeInvalid (ClosedStateFor s) :: rows, victims)
                 end
        | SlotLive =>
            if negb (negb (slot_obj s =? 0) && (reservation_nonce s =? 0)
                     && bool_decide (reserved_type s = TypeInvalid)
                     && (victim_count <? kHandleTableCapacity))
            then None
            else match drain_rows rows (victim_count + 1) with
                 | None => None
                 | Some (rows, victims) => Some (emptied s :: rows, slot_obj s :: victims)
                 end
        | _ =>
            match drain_rows rows victim_count with
            | None => None
            | Some (rows, victims) => Some (s :: rows, victims)
            end
        end
  end.

Definition HandleTableDrainCollect (t : HandleTable) : option (HandleTable * list Z) :=
  if negb (bool_decide (table_state t = TableDraining)) then None
  else match table_slots t with
       | [] => None
       | s0 :: rows =>
           match drain_rows rows 0 with
           | None => None
           | Some (rows, victims) => Some (with_slots t (s0 :: rows), victims)
           end
       end.

Definition HandleTableDrainFinish (t : HandleTable) : option HandleTable :=
  if negb (bool_decide (table_state t = TableDraining)) then None
  else Some (with_state t TableClosed).

Fixpoint release_all (h : Heap) (victims : list Z) : option Heap :=
  match victims with
  | [] => Some h
  | v :: victims =>
      match KObjectRelease h v with
      | None => None
      | Some (h, _) => release_all h victims
      end
  end.

(** An uninterrupted drain: a caller that is not the owner, or an owner that
    finds operations in flight, waits. *)
Definition HandleTableDrain (h : Heap) (t : HandleTable) : Outcome (Heap * HandleTable) :=
  if bool_decide (table_state t = TableClosed) then Done (h, t)
  else
    let '(t, owner) := HandleTableDrainEnter t in
    if negb owner then Waiting
    else if negb (HandleTableDrainQuiescent t) then Waiting
    else match HandleTableDrainCollect t with
         | None => Panic
         | Some (t, victims) =>
             match release_all h victims, HandleTableDrainFinish t with
             | Some h, Some t => Done (h, t)
             | _, _ => Panic
             end
         end.
