(* ===== verification/HandleTableOps.v ===== *)
(** * Handle tables: codec and per-operation contracts

    The handle codec is a bijection (plain and tagged).  For every critical
    section of the table, under the row invariant [slot_ok], a contract says
    that no assertion fails and gives the exact result and the one row that
    changes.  [HandleTableSpec] builds the concurrent system on these. *)

From S2P Require Import Prelude KObject HandleTable.

Ltac unfold_handle_consts :=
  unfold kHandleInvalid, kHandleSlotBits, kHandleSlotMask, kHandleGenerationBits,
    kHandleGenerationMax, kHandlePositiveMax, kHandleTableCapacity in *.
Ltac hlia := unfold_handle_consts; ulia.

(** ** The codec *)

Lemma pack_handle slot generation :
  0 <= slot < 4096 -> 0 <= generation <= kHandleGenerationMax ->
  Z.lor (wrap32 (Z.shiftl generation kHandleSlotBits)) slot = generation * 4096 + slot.
Proof.
  intros Hs Hg. unfold_handle_consts. by apply (pack_token 12); ulia.
Qed.

Lemma low_bits x : Z.land x kHandleSlotMask = x mod 4096.
Proof. change kHandleSlotMask with (Z.ones 12). by rewrite Z.land_ones by lia. Qed.

Lemma high_bits x : Z.shiftr x kHandleSlotBits = x / 4096.
Proof. unfold kHandleSlotBits. by rewrite Z.shiftr_div_pow2 by lia. Qed.

Lemma encode_value slot generation :
  0 < slot < kHandleTableCapacity -> 0 < generation <= kHandleGenerationMax ->
  HandleEncode slot generation = generation * 4096 + slot.
Proof.
  intros Hs Hg. unfold HandleEncode. unfold kHandleTableCapacity in *.
  rewrite pack_handle by lia.
  replace (0 <? slot) with true by lia. replace (slot <? 64) with true by lia.
  replace (0 <? generation) with true by lia.
  by replace (generation <=? kHandleGenerationMax) with true by lia.
Qed.

Lemma decode_value handle d :
  0 <= handle -> HandleDecode handle = Some d ->
  0 < dec_slot d < kHandleTableCapacity /\ 0 < dec_generation d <= kHandleGenerationMax
  /\ handle = dec_generation d * 4096 + dec_slot d.
Proof.
  unfold HandleDecode. rewrite low_bits, high_bits. intros Hnn H. guards_in H.
  pose proof (Z.mod_pos_bound handle 4096 ltac:(lia)).
  pose proof (Z.div_mod handle 4096 ltac:(lia)).
  pose proof (Z.div_pos handle 4096). hlia.
Qed.

Lemma decode_packed slot generation :
  0 < slot < kHandleTableCapacity -> 0 < generation <= kHandleGenerationMax ->
  HandleDecode (generation * 4096 + slot) = Some (MkDecoded slot generation).
Proof.
  intros Hs Hg. unfold HandleDecode. rewrite low_bits, high_bits. unfold_handle_consts.
  rewrite packed_low, packed_high by lia.
  repeat (case_match; [lia|]). done.
Qed.

Lemma decode_encode slot generation :
  0 < slot < kHandleTableCapacity -> 0 < generation <= kHandleGenerationMax ->
  HandleDecode (HandleEncode slot generation) = Some (MkDecoded slot generation).
Proof. intros. rewrite encode_value by done. by apply decode_packed. Qed.

Lemma encode_nonzero slot generation :
  0 < slot < kHandleTableCapacity -> 0 < generation <= kHandleGenerationMax ->
  HandleEncode slot generation <> kHandleInvalid.
Proof. intros. rewrite encode_value by done. hlia. Qed.

(** The speculation mask is the identity on every decoded row, and the
    assertion behind it always holds. *)
Lemma decode_nospec handle :
  0 <= handle -> DecodeHandleNospec handle = Some (HandleDecode handle).
Proof.
  intros Hnn. unfold DecodeHandleNospec. destruct (HandleDecode handle) as [[slot generation]|] eqn:E; [|done].
  apply decode_value in E as (Hs & Hg & _); [|done]. simpl in *. unfold MaskedIndex32.
  replace (slot <? kHandleTableCapacity) with true by lia.
  change (wrap32 (0 - 1)) with (Z.ones 32). rewrite Z.land_ones, Z.mod_small by hlia.
  replace (slot <? kHandleTableCapacity) with true by lia.
  by rewrite Z.eqb_refl.
Qed.

Lemma encode_in_range slot generation :
  HandleEncode slot generation <> kHandleInvalid ->
  0 < slot < kHandleTableCapacity /\ 0 < generation <= kHandleGenerationMax.
Proof. unfold HandleEncode. guards; lia. Qed.

Lemma decode_tagged_packed slot generation base :
  0 < slot < kHandleTableCapacity -> 0 < generation <= kHandleGenerationMax -> 0 <= base <= 4032 ->
  HandleDecodeTagged (generation * 4096 + (base + slot)) base true
    = Some (generation * 4096 + slot).
Proof.
  intros Hs Hg Hb. unfold HandleDecodeTagged. unfold_handle_consts.
  rewrite (wrap32_small (base + 64)) by ulia.
  rewrite wrap32_small by ulia.
  change 4095 with kHandleSlotMask. change 12 with kHandleSlotBits. rewrite low_bits, high_bits.
  rewrite packed_low, packed_high by lia.
  replace (base + slot - base) with slot by lia. rewrite encode_value by hlia. unfold_handle_consts.
  repeat (case_match; [lia|]). done.
Qed.

Lemma encode_tagged_value handle base v :
  0 <= handle -> is_u32 base -> HandleEncodeTagged handle base true = Some v ->
  exists d, HandleDecode handle = Some d /\ base <= 4032
            /\ v = dec_generation d * 4096 + (base + dec_slot d).
Proof.
  intros Hb Hu H. unfold HandleEncodeTagged in H. guards_in H.
  assert (base <= 4032) as Hle by (rewrite wrap32_small in * by hlia; hlia).
  eexists. split; [done|]. split; [done|].
  destruct (decode_value _ _ Hb Heqo) as (? & ? & _).
  rewrite (wrap32_small (base + _)) by hlia. apply pack_handle; hlia.
Qed.


(** The handle codec.  Packing a row and generation and decoding give
    each other back: a 32-bit value decodes exactly when it is the encoding
    of a row in 1..63 and a generation in 1..2^19-1, handles never set bit
    31, and moving a handle into a type band and back returns it. *)
Theorem handle_codec_roundtrip (handle base : Z) (Hh : is_u32 handle) (Hb : is_u32 base) :
  (forall d, HandleDecode handle = Some d
             <-> handle <> kHandleInvalid /\ HandleEncode (dec_slot d) (dec_generation d) = handle)
  /\ (forall slot generation, HandleEncode slot generation <= kHandlePositiveMax)
  /\ (forall v, HandleEncodeTagged handle base true = Some v ->
        v <= kHandlePositiveMax /\ HandleDecodeTagged v base true = Some handle)
  /\ (forall v, is_u64 v -> HandleDecodeTagged v base true = Some handle ->
        HandleEncodeTagged handle base true = Some v).
Proof.
  split; [|split; [|split]].
  - intros [slot generation]. simpl. split.
    + intros H. apply decode_value in H as (Hs & Hg & ->); [|ulia]. simpl in *.
      rewrite encode_value by done. split; [hlia | done].
    + intros [Hne He]. rewrite <- He in Hne. apply encode_in_range in Hne as [? ?].
      rewrite <- He. by apply decode_encode.
  - intros slot generation. unfold HandleEncode. guards.
    rewrite pack_handle by hlia. hlia.
  - intros v H. apply encode_tagged_value in H as (d & Hd & Hle & ->); [|ulia|done].
    destruct (decode_value _ _ (proj1 Hh) Hd) as (Hs & Hg & Hv). split; [hlia|].
    rewrite decode_tagged_packed by (done || hlia). by rewrite Hv.
  - intros v Hv H. unfold HandleDecodeTagged in H. guards_in H.
    rewrite low_bits, high_bits in *.
    assert (base <= 4032) as Hle by (rewrite wrap32_small in * by hlia; hlia).
    rewrite (wrap32_small v) in * by hlia. rewrite (wrap32_small (base + _)) in * by hlia.
    destruct (encode_in_range (v mod 4096 - base) (v / 4096)) as [Hr Hg];
      [intros He; rewrite He in *; hlia|].
    unfold HandleEncodeTagged. rewrite decode_encode by done. simpl.
    rewrite (wrap32_small (base + kHandleTableCapacity)) by hlia.
    rewrite (wrap32_small (base + _)) by hlia. rewrite pack_handle by hlia.
    repeat (case_match; [hlia|]). f_equal. pose proof (Z.div_mod v 4096 ltac:(lia)). lia.
Qed.

Lemma handle_codec_roundtrip_witness :
  HandleDecode 12293 = Some (MkDecoded 5 3) /\ HandleEncode 5 3 = 12293
  /\ HandleEncodeTagged 12293 512 true = Some 12805.
Proof.
  destruct (handle_codec_roundtrip 12293 512) as (H & _ & _ & Ht); [ulia|ulia|].
  assert (HandleDecode 12293 = Some (MkDecoded 5 3)) as Hd by (vm_compute; reflexivity).
  split; [exact Hd|]. split; [apply (H (MkDecoded 5 3)); exact Hd|].
  apply Ht; [ulia|]. vm_compute. reflexivity.
Defined.

(** ** The row invariant *)

Definition slot_ok (s : HandleSlot) : Prop :=
  0 <= slot_generation s <= kHandleGenerationMax /\ 0 <= acquisition_pins s /\
  match slot_state s with
  | SlotFree => slot_is_clear s = true /\ slot_generation s < kHandleGenerationMax
  | SlotRetired => slot_is_clear s = true /\ slot_generation s = kHandleGenerationMax
  | SlotLive | SlotClosing =>
      slot_obj s <> 0 /\ reservation_nonce s = 0 /\ reserved_type s = TypeInvalid
      /\ 0 < slot_generation s
  | SlotReserved =>
      slot_obj s = 0 /\ slot_rights s <> 0 /\ reservation_nonce s <> 0
      /\ reserved_type s <> TypeInvalid /\ acquisition_pins s = 0 /\ 0 < slot_generation s
  end.

Record rows_ok (t : HandleTable) : Prop := {
  rows_length : length (table_slots t) = 64%nat;
  rows_hint : 0 <= next_free_hint t < kHandleTableCapacity;
  rows_slots : forall i s, table_slots t !! i = Some s -> slot_ok s;
}.

Definition rights_ok (h : Heap) (obj rights : Z) : Prop :=
  rights <> 0 /\ lacks (TypeAllowedRights (type_of h obj)) rights = false.

Lemma slot_clear_fields s :
  slot_is_clear s = true ->
  slot_obj s = 0 /\ slot_rights s = 0 /\ reservation_nonce s = 0 /\ acquisition_pins s = 0
  /\ reserved_type s = TypeInvalid.
Proof. unfold slot_is_clear. rewrite !andb_true_iff, bool_decide_eq_true. intros ((((?%Z.eqb_eq & ?%Z.eqb_eq) & ?%Z.eqb_eq) & ?%Z.eqb_eq) & ?). done. Qed.

Lemma lacks_trans a b c : lacks a b = false -> lacks b c = false -> lacks a c = false.
Proof.
  unfold lacks. rewrite !negb_false_iff, !Z.eqb_eq. intros Hab Hbc. apply Z.bits_inj'.
  intros n Hn. apply (f_equal (fun z => Z.testbit z n)) in Hab, Hbc.
  rewrite !Z.land_spec, !Z.lnot_spec, !Z.bits_0 in * by done.
  destruct (Z.testbit a n), (Z.testbit b n), (Z.testbit c n); done.
Qed.

Lemma lacks_covers a b : lacks a b = false <-> covers a b = true.
Proof.
  unfold lacks, covers. rewrite negb_false_iff, !Z.eqb_eq. split; intros H; apply Z.bits_inj';
    intros n Hn; apply (f_equal (fun z => Z.testbit z n)) in H;
    rewrite ?Z.land_spec, ?Z.lnot_spec, ?Z.bits_0 in * by done;
    destruct (Z.testbit a n), (Z.testbit b n); done.
Qed.

Lemma rows_slot_of t i : rows_ok t -> 0 <= i < kHandleTableCapacity -> exists s, slot_of t i = Some s.
Proof.
  intros Ht Hi. apply lookup_lt_is_Some_2. rewrite (rows_length _ Ht). hlia.
Qed.

Lemma rows_ok_row t i s : rows_ok t -> slot_of t i = Some s -> slot_ok s.
Proof. intros Ht. apply (rows_slots _ Ht). Qed.

Lemma rows_ok_with_slot t i s : rows_ok t -> slot_ok s -> rows_ok (with_slot t i s).
Proof.
  intros [Hl Hh Hr] Hs. split; simpl; [by rewrite length_insert | done |].
  intros j s' Hj. apply list_lookup_insert_Some in Hj as [(_ & <- & _)|[_ Hj]]; [done | by eapply Hr].
Qed.

Lemma emptied_ok s :
  slot_ok s -> acquisition_pins s = 0 -> slot_ok (emptied s) /\ slot_is_clear (emptied s) = true.
Proof.
  intros (Hg & _) Hp. unfold emptied, slot_ok, slot_is_clear, ClosedStateFor. simpl.
  rewrite Hp. destruct (slot_generation s =? kHandleGenerationMax) eqn:E; simpl; hlia.
Qed.

(** ** Finding a free row *)

Definition scan_index (start step : Z) : Z :=
  if kHandleTableCapacity <=? start + step then start + step - kHandleTableCapacity else start + step.

Definition row_free (t : HandleTable) (i : Z) : Prop :=
  exists s, slot_of t i = Some s /\ slot_state s = SlotFree.

Lemma scan_free_spec t start : forall remaining : nat,
  rows_ok t -> 0 <= start < kHandleTableCapacity -> Z.of_nat remaining <= kHandleTableCapacity ->
  exists r, scan_free remaining start t = Some (t, r) /\
    match r with
    | Some i => 0 < i < kHandleTableCapacity /\ row_free t i
    | None => forall step, kHandleTableCapacity - Z.of_nat remaining <= step < kHandleTableCapacity ->
                0 < scan_index start step -> ~ row_free t (scan_index start step)
    end.
Proof.
  intros remaining Ht Hst. induction remaining as [|n IH]; intros Hn.
  { exists None. split; [done|]. intros step Hstep. lia. }
  destruct IH as (r & Hr & Hspec); [lia|]. simpl scan_free.
  fold (scan_index start (kHandleTableCapacity - Z.of_nat (S n))).
  set (idx := scan_index start _).
  assert (0 <= idx < kHandleTableCapacity) as Hidx.
  { unfold idx, scan_index. guard_step; hlia. }
  assert (Hnext : (0 < idx -> ~ row_free t idx) ->
    match r with
    | Some i => 0 < i < kHandleTableCapacity /\ row_free t i
    | None => forall step, kHandleTableCapacity - Z.of_nat (S n) <= step < kHandleTableCapacity ->
                0 < scan_index start step -> ~ row_free t (scan_index start step)
    end).
  { intros Hthis. destruct r as [i|]; [done|]. intros step Hstep Hpos.
    destruct (decide (step = kHandleTableCapacity - Z.of_nat (S n))) as [->|Hne]; [by apply Hthis|].
    apply Hspec; [lia | done]. }
  destruct (idx =? 0) eqn:E0.
  { exists r. split; [done|]. apply Hnext. lia. }
  destruct (rows_slot_of t idx Ht Hidx) as [s Hs]. rewrite Hs.
  pose proof (rows_ok_row _ _ _ Ht Hs) as Hok.
  destruct (decide (slot_state s = SlotFree)) as [Hfree|Hnf].
  - rewrite bool_decide_eq_true_2 by done. simpl. unfold slot_ok in Hok. rewrite Hfree in Hok.
    destruct Hok as (_ & _ & -> & Hgen). simpl.
    replace (slot_generation s =? kHandleGenerationMax) with false by lia.
    exists (Some idx). split; [done|]. split; [lia|]. by exists s.
  - rewrite bool_decide_eq_false_2 by done. simpl. exists r. split; [done|]. apply Hnext.
    intros _ (s' & Hs' & Hf). congruence.
Qed.

Lemma find_free_spec t :
  rows_ok t ->
  exists r, find_free t = Some (t, r) /\
    match r with
    | Some i => 0 < i < kHandleTableCapacity /\ row_free t i
    | None => forall i, 0 < i < kHandleTableCapacity -> ~ row_free t i
    end.
Proof.
  intros Ht. unfold find_free. pose proof (rows_hint _ Ht).
  pose proof (Z.mod_pos_bound (next_free_hint t + 1) kHandleTableCapacity ltac:(hlia)) as Hm.
  destruct (scan_free_spec t _ (Z.to_nat kHandleTableCapacity) Ht Hm ltac:(hlia)) as (r & -> & Hr).
  exists r. split; [done|]. destruct r as [i|]; [done|]. intros i Hi.
  set (start := (next_free_hint t + 1) mod kHandleTableCapacity) in *.
  set (step := if start <=? i then i - start else i + kHandleTableCapacity - start).
  assert (scan_index start step = i) as E.
  { unfold scan_index, step. destruct (start <=? i) eqn:?; guard_step; lia. }
  rewrite <- E. apply Hr; [|lia]. unfold step. guard_step; hlia.
Qed.

(** ** Contracts of the critical sections *)

Lemma free_slot_fields s :
  slot_ok s -> slot_state s = SlotFree ->
  0 <= slot_generation s < kHandleGenerationMax /\ slot_obj s = 0 /\ slot_rights s = 0
  /\ reservation_nonce s = 0 /\ acquisition_pins s = 0 /\ reserved_type s = TypeInvalid.
Proof.
  intros Hok Hf. unfold slot_ok in Hok. rewrite Hf in Hok. destruct Hok as (Hg & _ & Hc & Hlt).
  split; [lia|]. by apply slot_clear_fields.
Qed.

(** Closes the goal of a branch that refuses and leaves the table alone. *)
Ltac refused :=
  repeat lazymatch goal with |- exists _, _ => eexists end;
  split; [reflexivity|]; simpl; first [done | split; done].

(** The row a successful insert or reserve fills. *)
Definition filled (obj rights nonce generation : Z) (type : KObjectType) (st : HandleSlotState)
    : HandleSlot := MkSlot obj rights nonce generation 0 type st.

Lemma bad_rights_false r : bad_rights r = false -> r <> 0.
Proof. unfold bad_rights. lia. Qed.

Ltac facts :=
  unfold rights_ok; repeat match goal with |- _ /\ _ => split end;
  try first [done | by apply bad_rights_false | hlia].

Lemma insert_spec h t obj rights :
  rows_ok t ->
  exists t' r, HandleTableInsert h t obj rights = Some (t', r) /\
    match r with
    | inl e => t' = t /\ (e = EOutOfMemory -> forall i, 0 < i < kHandleTableCapacity -> ~ row_free t i)
    | inr handle =>
        exists i s, 0 < i < kHandleTableCapacity /\ slot_of t i = Some s /\ slot_state s = SlotFree
          /\ slot_ok s /\ table_state t = TableOpen /\ obj <> 0 /\ rights_ok h obj rights
          /\ KObjectRefcount h obj <> 0
          /\ t' = with_hint (with_slot t i
                    (filled obj rights 0 (slot_generation s + 1) TypeInvalid SlotLive)) i
          /\ handle = HandleEncode i (slot_generation s + 1)
    end.
Proof.
  intros Ht. unfold HandleTableInsert.
  destruct (_ || _ || _) eqn:E1; [refused|].
  destruct (lacks _ rights) eqn:E2; [refused|].
  destruct (KObjectRefcount h obj =? 0) eqn:E3; [refused|].
  destruct (negb _) eqn:E4; [refused|].
  destruct (_ <=? _) eqn:E5; [refused|].
  destruct (find_free_spec t Ht) as (r & -> & Hr).
  destruct r as [i|]; [|refused].
  destruct Hr as (Hi & s & Hs & Hf). rewrite Hs.
  pose proof (rows_ok_row _ _ _ Ht Hs) as Hok.
  destruct (free_slot_fields s Hok Hf) as (Hg & Ho & Hrt & Hn & Hp & Hty).
  rewrite wrap32_small by hlia.
  pose proof (encode_nonzero i (slot_generation s + 1) Hi ltac:(lia)) as Hne.
  replace (_ =? kHandleInvalid) with false by lia.
  eexists _, _. split; [done|]. exists i, s. rewrite Hp.
  apply negb_false_iff, bool_decide_eq_true in E4.
  apply orb_false_iff in E1 as [E1 E1b]. apply orb_false_iff in E1 as [E1 E1a].
  facts.
Qed.

Lemma reserve_spec t type rights last :
  rows_ok t -> is_u64 last ->
  exists t' last' r, HandleTableReserve t type rights last = Some (t', last', r) /\
    match r with
    | inl e => t' = t /\ last' = last
    | inr res =>
        exists i s, 0 < i < kHandleTableCapacity /\ slot_of t i = Some s /\ slot_state s = SlotFree
          /\ slot_ok s /\ table_state t = TableOpen /\ rights <> 0
          /\ lacks (TypeAllowedRights type) rights = false /\ type <> TypeInvalid
          /\ last < u64_max /\ last' = last + 1
          /\ t' = with_hint (with_slot t i
                    (filled 0 rights last' (slot_generation s + 1) type SlotReserved)) i
          /\ res = MkReservation (HandleEncode i (slot_generation s + 1)) last'
    end.
Proof.
  intros Ht Hl. unfold HandleTableReserve.
  destruct (_ || _) eqn:E1; [refused|].
  destruct (lacks _ rights) eqn:E2; [refused|].
  destruct (negb _) eqn:E4; [refused|].
  destruct (_ <=? _) eqn:E5; [refused|].
  destruct (find_free_spec t Ht) as (r & -> & Hr).
  destruct r as [i|]; [|refused].
  destruct Hr as (Hi & s & Hs & Hf). rewrite Hs.
  pose proof (rows_ok_row _ _ _ Ht Hs) as Hok.
  destruct (free_slot_fields s Hok Hf) as (Hg & Ho & Hrt & Hn & Hp & Hty).
  unfold MintHandleReservationNonce. destruct (last =? u64_max) eqn:El; [refused|].
  replace (last + 1 =? 0) with false by ulia.
  rewrite wrap32_small by hlia.
  pose proof (encode_nonzero i (slot_generation s + 1) Hi ltac:(lia)) as Hne.
  replace (_ =? kHandleInvalid) with false by lia.
  eexists _, _, _. split; [done|]. exists i, s. rewrite Hp, Ho.
  apply negb_false_iff, bool_decide_eq_true in E4.
  apply orb_false_iff in E1 as [E1%bool_decide_eq_false E1b].
  facts.
Qed.

Lemma reservation_matches_inv s d r :
  ReservationMatches s d r = true ->
  slot_state s = SlotReserved /\ slot_obj s = 0 /\ slot_generation s = dec_generation d
  /\ reservation_nonce s = res_nonce r /\ reserved_type s <> TypeInvalid /\ slot_rights s <> 0.
Proof.
  unfold ReservationMatches. rewrite !andb_true_iff, !negb_true_iff, bool_decide_eq_true,
    bool_decide_eq_false. intros (((((? & ?) & ?) & ?) & ?) & ?). repeat split; (done || lia).
Qed.

Lemma publish_spec h t r obj :
  rows_ok t -> 0 <= res_handle r ->
  exists t' out, HandleTablePublish h t r obj = Some (t', out) /\
    match out with
    | inl e => t' = t
    | inr handle =>
        exists d s, handle = res_handle r /\ HandleDecode handle = Some d
          /\ slot_of t (dec_slot d) = Some s /\ slot_ok s /\ slot_state s = SlotReserved
          /\ slot_generation s = dec_generation d /\ reservation_nonce s = res_nonce r
          /\ table_state t = TableOpen /\ obj <> 0 /\ rights_ok h obj (slot_rights s)
          /\ KObjectRefcount h obj <> 0
          /\ t' = with_slot t (dec_slot d)
                    (filled obj (slot_rights s) 0 (slot_generation s) TypeInvalid SlotLive)
    end.
Proof.
  intros Ht Hnn. unfold HandleTablePublish. rewrite decode_nospec by done.
  destruct (negb _) eqn:E0; [refused|].
  destruct (HandleDecode (res_handle r)) as [d|] eqn:Ed; [|refused].
  destruct (decode_value _ _ Hnn Ed) as (Hsl & Hge & _).
  destruct (_ || _) eqn:E1; [refused|].
  destruct (KObjectRefcount h obj =? 0) eqn:E3; [refused|].
  destruct (negb (bool_decide (table_state t = _))) eqn:E4; [refused|].
  destruct (rows_slot_of t (dec_slot d) Ht ltac:(lia)) as [s Hs]. rewrite Hs.
  pose proof (rows_ok_row _ _ _ Ht Hs) as Hok.
  destruct (ReservationMatches s d r) eqn:Em; simpl; [|refused].
  apply reservation_matches_inv in Em as (Hst & Ho & Hg & Hn & Hty & Hr).
  destruct (negb (bool_decide (reserved_type s = _))) eqn:E5; [refused|].
  destruct (lacks _ _) eqn:E6; [refused|].
  eexists _, _. split; [done|]. exists d, s.
  apply negb_false_iff, bool_decide_eq_true in E4. apply orb_false_iff in E1 as [E1 _].
  pose proof Hok as (_ & _ & Hm). rewrite Hst in Hm. destruct Hm as (_ & _ & _ & _ & Hp & _).
  rewrite Hp. facts.
Qed.

Lemma abort_spec t r :
  rows_ok t -> 0 <= res_handle r ->
  exists t' out, HandleTableAbort t r = Some (t', out) /\
    match out with
    | inl e => t' = t
    | inr _ =>
        exists d s, HandleDecode (res_handle r) = Some d /\ slot_of t (dec_slot d) = Some s
          /\ slot_ok s /\ slot_state s = SlotReserved /\ slot_generation s = dec_generation d
          /\ table_state t = TableOpen
          /\ t' = with_slot t (dec_slot d) (emptied s)
    end.
Proof.
  intros Ht Hnn. unfold HandleTableAbort. rewrite decode_nospec by done.
  destruct (negb _) eqn:E0; [refused|].
  destruct (HandleDecode (res_handle r)) as [d|] eqn:Ed; [|refused].
  destruct (decode_value _ _ Hnn Ed) as (Hsl & Hge & _).
  destruct (negb (bool_decide (table_state t = _))) eqn:E4; [refused|].
  destruct (rows_slot_of t (dec_slot d) Ht ltac:(lia)) as [s Hs]. rewrite Hs.
  pose proof (rows_ok_row _ _ _ Ht Hs) as Hok.
  destruct (ReservationMatches s d r) eqn:Em; simpl; [|refused].
  apply reservation_matches_inv in Em as (Hst & Ho & Hg & Hn & Hty & Hr).
  eexists _, _. split; [done|]. exists d, s. apply negb_false_iff, bool_decide_eq_true in E4.
  facts. unfold emptied. by rewrite Ho.
Qed.

Lemma slot_matches_inv s generation :
  SlotMatches s generation = true ->
  slot_state s = SlotLive /\ slot_obj s <> 0 /\ slot_generation s = generation.
Proof.
  unfold SlotMatches. rewrite !andb_true_iff, !negb_true_iff, !bool_decide_eq_true.
  intros ((((? & ?) & ?) & ?) & ?). repeat split; (done || lia).
Qed.

(** What a successful [live_row] says of the row it found. *)
Definition addressed (t : HandleTable) (d : DecodedHandle) (s : HandleSlot) : Prop :=
  table_state t = TableOpen /\ slot_of t (dec_slot d) = Some s /\ slot_ok s
  /\ slot_state s = SlotLive /\ slot_generation s = dec_generation d
  /\ 0 < dec_slot d < kHandleTableCapacity.

Lemma live_row_spec h t d expected :
  rows_ok t -> 0 < dec_slot d < kHandleTableCapacity ->
  exists r, live_row h t d expected = Some r /\
    match r with
    | inl _ => True
    | inr s => addressed t d s /\ (expected = TypeInvalid \/ type_of h (slot_obj s) = expected)
    end.
Proof.
  intros Ht Hd. unfold live_row.
  destruct (negb (bool_decide (table_state t = _))) eqn:E; [by eexists|].
  apply negb_false_iff, bool_decide_eq_true in E.
  destruct (rows_slot_of t (dec_slot d) Ht ltac:(lia)) as [s Hs]. rewrite Hs.
  destruct (SlotMatches s (dec_generation d)) eqn:Em; simpl; [|by eexists].
  apply slot_matches_inv in Em as (Hst & Ho & Hg).
  destruct (negb (bool_decide (expected = _)) && _) eqn:Ee; [by eexists|].
  eexists. split; [done|]. pose proof (rows_ok_row _ _ _ Ht Hs). split; [by unfold addressed|].
  apply andb_false_iff in Ee as [Ee|Ee]; apply negb_false_iff, bool_decide_eq_true in Ee; auto.
Qed.

Lemma pin_spec h t handle expected required :
  rows_ok t -> 0 <= handle ->
  exists t' r, RetainSnapshotPin h t handle expected required = Some (t', r) /\
    match r with
    | inl e => t' = t
    | inr p =>
        exists d s, HandleDecode handle = Some d /\ addressed t d s
          /\ (expected = TypeInvalid \/ type_of h (slot_obj s) = expected)
          /\ lacks (slot_rights s) required = false
          /\ acquisition_pins s <> u32_max /\ active_operations t <> u32_max
          /\ p = MkPin (dec_slot d) (slot_obj s) (slot_rights s)
          /\ t' = with_active (with_slot t (dec_slot d) (slot_pins s (acquisition_pins s + 1)))
                    (active_operations t + 1)
    end.
Proof.
  intros Ht Hnn. unfold RetainSnapshotPin. rewrite decode_nospec by done.
  destruct (HandleDecode handle) as [d|] eqn:Hd; [|refused].
  destruct (lacks _ _) eqn:E1; [refused|].
  destruct (live_row_spec h t d expected Ht (proj1 (decode_value _ _ Hnn Hd)))
    as ([e|s] & -> & Hr); [refused|]. destruct Hr as [Hs He].
  destruct (covers _ _) eqn:E2; simpl; [|refused]. apply lacks_covers in E2.
  destruct (_ || _) eqn:E3; [refused|].
  eexists _, _. split; [done|]. exists d, s. facts.
Qed.

Lemma unpin_spec t p s :
  slot_of t (pin_slot p) = Some s -> slot_obj s = pin_obj p -> 0 < acquisition_pins s ->
  0 < active_operations t ->
  RetainSnapshotUnpin t p
    = Some (with_active (with_slot t (pin_slot p) (slot_pins s (acquisition_pins s - 1)))
              (active_operations t - 1)).
Proof.
  intros Hs Ho Hp Ha. unfold RetainSnapshotUnpin. rewrite Hs, Ho, Z.eqb_refl. simpl.
  replace (0 <? acquisition_pins s) with true by lia.
  by replace (0 <? active_operations t) with true by lia.
Qed.

Lemma detach_begin_spec h t handle expected required :
  rows_ok t -> 0 <= handle ->
  exists t' r, HandleTableDetachBegin h t handle expected required = Some (t', r) /\
    match r with
    | inl e => t' = t
    | inr d =>
        exists s, HandleDecode handle = Some d /\ addressed t d s
          /\ (expected = TypeInvalid \/ type_of h (slot_obj s) = expected)
          /\ lacks (slot_rights s) required = false /\ active_operations t <> u32_max
          /\ t' = with_active (with_slot t (dec_slot d) (slot_to s SlotClosing))
                    (active_operations t + 1)
    end.
Proof.
  intros Ht Hnn. unfold HandleTableDetachBegin. rewrite decode_nospec by done.
  destruct (HandleDecode handle) as [d|] eqn:Hd; [|refused].
  destruct (lacks _ _) eqn:E1; [refused|].
  destruct (live_row_spec h t d expected Ht (proj1 (decode_value _ _ Hnn Hd)))
    as ([e|s] & -> & Hr); [refused|]. destruct Hr as [Hs He].
  destruct (covers _ _) eqn:E2; simpl; [|refused]. apply lacks_covers in E2.
  destruct (active_operations t =? u32_max) eqn:E3; [refused|].
  eexists _, _. split; [done|]. exists s. facts.
Qed.

Lemma adopt_begin_spec h t existing obj rights expected :
  rows_ok t -> 0 <= existing ->
  exists t' r, HandleTableAdoptReplaceBegin h t existing obj rights expected = Some (t', r) /\
    match r with
    | inl e => t' = t
    | inr d =>
        exists s, HandleDecode existing = Some d /\ addressed t d s
          /\ (expected = TypeInvalid \/ type_of h (slot_obj s) = expected)
          /\ obj <> 0 /\ rights_ok h obj rights /\ KObjectRefcount h obj <> 0
          /\ slot_generation s < kHandleGenerationMax /\ active_operations t <> u32_max
          /\ t' = with_active (with_slot t (dec_slot d) (slot_to s SlotClosing))
                    (active_operations t + 1)
    end.
Proof.
  intros Ht Hnn. unfold HandleTableAdoptReplaceBegin. cbv zeta. rewrite decode_nospec by done.
  destruct (HandleDecode existing) as [d|] eqn:Hd; [|refused].
  destruct (_ || bad_rights rights) eqn:E1; [refused|].
  destruct (negb (bool_decide (expected = _)) && _) eqn:E2; [refused|].
  destruct (lacks _ rights) eqn:E3; [refused|].
  destruct (KObjectRefcount h obj =? 0) eqn:E4; [refused|].
  destruct (live_row_spec h t d expected Ht (proj1 (decode_value _ _ Hnn Hd)))
    as ([e|s] & -> & Hr); [refused|]. destruct Hr as [Hs He].
  destruct (_ || (active_operations t =? _)) eqn:E5; [refused|].
  eexists _, _. split; [done|]. exists s.
  apply orb_false_iff in E1 as [E1 E1b]. apply orb_false_iff in E1 as [E1 _].
  destruct Hs as (? & ? & (Hg & Hrest) & ?). facts.
Qed.

Lemma replace_spec t handle rights :
  rows_ok t -> 0 <= handle ->
  exists t' r, HandleReplace t handle rights = Some (t', r) /\
    match r with
    | inl e => t' = t
    | inr fresh =>
        exists d s, HandleDecode handle = Some d /\ addressed t d s
          /\ rights <> 0 /\ lacks (slot_rights s) rights = false
          /\ slot_generation s < kHandleGenerationMax
          /\ fresh = HandleEncode (dec_slot d) (slot_generation s + 1)
          /\ t' = with_slot t (dec_slot d)
                    (MkSlot (slot_obj s) rights 0 (slot_generation s + 1) (acquisition_pins s)
                       TypeInvalid SlotLive)
    end.
Proof.
  intros Ht Hnn. unfold HandleReplace. rewrite decode_nospec by done.
  destruct (HandleDecode handle) as [d|] eqn:Hd; [|refused].
  destruct (decode_value _ _ Hnn Hd) as (Hsl & Hge & _).
  destruct (bad_rights rights) eqn:E1; [refused|].
  destruct (negb (bool_decide (table_state t = _))) eqn:E; [refused|].
  destruct (rows_slot_of t (dec_slot d) Ht ltac:(lia)) as [s Hs]. rewrite Hs.
  destruct (SlotMatches s (dec_generation d)) eqn:Em; simpl; [|refused].
  apply slot_matches_inv in Em as (Hst & Ho & Hg).
  destruct (_ || _) eqn:E2; [refused|].
  destruct (slot_generation s =? kHandleGenerationMax) eqn:E3; [refused|].
  pose proof (rows_ok_row _ _ _ Ht Hs) as Hok.
  pose proof Hok as (_ & _ & Hm). rewrite Hst in Hm. destruct Hm as (_ & Hn & Hty & _).
  rewrite wrap32_small by hlia.
  pose proof (encode_nonzero (dec_slot d) (slot_generation s + 1) Hsl ltac:(lia)) as Hne.
  replace (_ =? kHandleInvalid) with false by lia.
  eexists _, _. split; [done|]. exists d, s. rewrite Hn, Hty, Hst.
  apply negb_false_iff, bool_decide_eq_true in E. apply orb_false_iff in E2 as [_ E2].
  facts; by unfold addressed.
Qed.

(** The row a close or a replacement in flight is waiting on. *)
Definition closing (t : HandleTable) (d : DecodedHandle) (s : HandleSlot) : Prop :=
  slot_of t (dec_slot d) = Some s /\ slot_state s = SlotClosing /\ slot_generation s = dec_generation d.

Lemma detach_poll_spec t d s :
  closing t d s -> 0 < active_operations t ->
  HandleTableDetachPoll t d
    = Some (if acquisition_pins s =? 0
            then (with_active (with_slot t (dec_slot d) (emptied s)) (active_operations t - 1), slot_obj s)
            else (t, 0)).
Proof.
  intros (Hs & Hst & Hg) Ha. unfold HandleTableDetachPoll. rewrite Hs, Hst, Hg, Z.eqb_refl. simpl.
  destruct (acquisition_pins s =? 0); simpl; [|done].
  by replace (0 <? active_operations t) with true by lia.
Qed.

Lemma adopt_poll_spec t d s obj rights :
  closing t d s -> slot_ok s -> 0 < dec_slot d < kHandleTableCapacity ->
  slot_generation s < kHandleGenerationMax -> 0 < active_operations t ->
  HandleTableAdoptReplacePoll t d obj rights
    = Some (if acquisition_pins s =? 0
            then (with_active (with_slot t (dec_slot d)
                     (filled obj rights 0 (slot_generation s + 1) TypeInvalid SlotLive))
                     (active_operations t - 1),
                  HandleEncode (dec_slot d) (slot_generation s + 1), slot_obj s)
            else (t, kHandleInvalid, 0)).
Proof.
  intros (Hs & Hst & Hg) Hok Hd Hlt Ha. unfold HandleTableAdoptReplacePoll.
  rewrite Hs, Hst, <- Hg, Z.eqb_refl. simpl.
  destruct (acquisition_pins s =? 0) eqn:Hp; simpl; [|done].
  destruct Hok as (Hrange & _ & Hm). rewrite Hst in Hm. destruct Hm as (_ & Hn & Hty & _).
  rewrite wrap32_small by hlia.
  pose proof (encode_nonzero (dec_slot d) (slot_generation s + 1) Hd ltac:(lia)) as Hne.
  replace (_ =? kHandleInvalid) with false by lia.
  replace (0 <? active_operations t) with true by lia. simpl.
  unfold filled. rewrite Hn, Hty. by replace (acquisition_pins s) with 0 by lia.
Qed.

(** ** Draining the rows *)

Definition drained_row (s : HandleSlot) : HandleSlot :=
  match slot_state s with SlotLive | SlotReserved => emptied s | _ => s end.

Definition live_objects (rows : list HandleSlot) : list Z :=
  slot_obj <$> filter (fun s => is_live s = true) rows.

Definition quiet_row (s : HandleSlot) : Prop :=
  slot_ok s /\ slot_state s <> SlotClosing /\ acquisition_pins s = 0.

Lemma live_objects_cons s rows :
  live_objects (s :: rows) = if is_live s then slot_obj s :: live_objects rows else live_objects rows.
Proof. unfold live_objects. rewrite filter_cons. by destruct (is_live s). Qed.

Lemma drain_rows_spec rows : forall count,
  Forall quiet_row rows -> count + Z.of_nat (length rows) <= kHandleTableCapacity ->
  drain_rows rows count = Some (drained_row <$> rows, live_objects rows).
Proof.
  induction rows as [|s rows IH]; intros count Hq Hc; [done|].
  apply Forall_cons in Hq as [((Hg & Hp0 & Hok) & Hnc & Hp) Hq]. simpl drain_rows. simpl length in Hc.
  rewrite bool_decide_eq_false_2, Hp by done. simpl.
  rewrite live_objects_cons.
  unfold is_live, drained_row at 1.
  destruct (slot_state s) eqn:Hst; simpl.
  - by rewrite IH by (done || lia).
  - destruct Hok as (Ho & Hn & Hty & _). rewrite Hn, Hty. replace (slot_obj s =? 0) with false by lia.
    rewrite bool_decide_eq_true_2 by done. replace (count <? kHandleTableCapacity) with true by lia.
    simpl. by rewrite IH by (done || lia).
  - done.
  - by rewrite IH by (done || lia).
  - destruct Hok as (Ho & Hr & Hn & Hty & _). rewrite Ho.
    replace (slot_rights s =? 0) with false by lia.
    replace (reservation_nonce s =? 0) with false by lia.
    rewrite bool_decide_eq_false_2 by done. simpl.
    rewrite IH by (done || lia). unfold emptied. by rewrite ?Ho, ?Hp.
Qed.

Lemma drained_row_ok s : quiet_row s -> slot_ok (drained_row s) /\ slot_is_clear (drained_row s) = true.
Proof.
  intros (Hok & Hnc & Hp). unfold drained_row. destruct (slot_state s) eqn:Hst; try done.
  - split; [done|]. destruct Hok as (_ & _ & Hm). rewrite Hst in Hm. tauto.
  - by apply emptied_ok.
  - split; [done|]. destruct Hok as (_ & _ & Hm). rewrite Hst in Hm. tauto.
  - by apply emptied_ok.
Qed.

Lemma drain_collect_spec t s0 rows :
  rows_ok t -> table_state t = TableDraining -> table_slots t = s0 :: rows -> Forall quiet_row rows ->
  HandleTableDrainCollect t
    = Some (with_slots t (s0 :: (drained_row <$> rows)), live_objects rows).
Proof.
  intros Ht Hst Hs Hq. unfold HandleTableDrainCollect. rewrite Hst, Hs. simpl.
  rewrite drain_rows_spec; [done | done |].
  pose proof (rows_length _ Ht) as Hl. rewrite Hs in Hl. simpl in Hl. hlia.
Qed.
