(* ===== verification/HandleTableSpec.v ===== *)
(** * Handle tables: the concurrent system and its invariant

    Any number of processes, each with a handle table, share the kernel's
    objects.  A step is one critical section: of the object lock, of one
    table lock, or a private transition of a caller.  Operations that leave
    the lock in the middle are flights, advanced one section at a time and
    interleaved freely.  Callers follow the ownership rule of the header
    files: a reference is passed to an operation or released only by a
    caller that holds it.

    The theorems: no assertion of the handle table fails on any
    interleaving; every object's count is exactly the number of references
    in rows, callers' hands and flights, so no row names a dead object and
    each object is destroyed at most once; a token never comes back; rights
    stay within the type's ceiling; every operation in flight can finish; a
    drained table is empty and refuses everything. *)

From S2P Require Import Prelude KObject HandleTable HandleTableOps.

(** ** The system *)

Inductive Flight :=
| FPinned (k : nat) (p : Pin)                 (* lookup: row pinned, not yet retained *)
| FRetained (k : nat) (p : Pin) (ok : bool)   (* lookup: retain tried, row still pinned *)
| FDetaching (k : nat) (d : DecodedHandle)    (* close waiting for the row's pins *)
| FAdopting (k : nat) (d : DecodedHandle) (obj rights : Z)
| FDraining (k : nat)                         (* drain owner waiting for operations *)
| FCollecting (k : nat)                       (* drain owner has seen the table quiescent *)
| FReleasing (k : nat) (victims : list Z).    (* drain owner releasing the detached objects *)

Record World := MkWorld {
  w_heap : Heap;
  w_tables : list HandleTable;
  w_nonce : Z;
  w_flights : list Flight;
  w_held : list Z;              (* references in the hands of callers *)
  w_destroyed : list Z;         (* objects whose destroy callback has run *)
  w_issued : list (nat * Z);    (* tokens handed out, by table *)
}.

Definition boot_world : World := MkWorld ∅ [] 0 [] [] [] [].

Inductive Action :=
| ACreate (obj : Z) (type : KObjectType) (destroy : bool)
| AOpenTable
| AAcquire (held : nat)
| ARelease (held : nat)
| AInsert (k held : nat) (rights : Z)
| AReserve (k : nat) (type : KObjectType) (rights : Z)
| APublish (k : nat) (r : HandleTableReservation) (held : nat)
| AAbort (k : nat) (r : HandleTableReservation)
| ALookup (k : nat) (handle : Z) (expected : KObjectType) (required : Z)
| ADetach (k : nat) (handle : Z) (expected : KObjectType) (required : Z)
| AReplace (k : nat) (handle rights : Z)
| AAdopt (k : nat) (handle : Z) (held : nat) (rights : Z) (expected : KObjectType)
| ADrain (k : nat)
| AStep (n : nat).

Definition set_table (w : World) (k : nat) (t : HandleTable) : World :=
  MkWorld (w_heap w) (<[k := t]> (w_tables w)) (w_nonce w) (w_flights w) (w_held w)
    (w_destroyed w) (w_issued w).
Definition set_flights (w : World) (fl : list Flight) : World :=
  MkWorld (w_heap w) (w_tables w) (w_nonce w) fl (w_held w) (w_destroyed w) (w_issued w).
Definition set_held (w : World) (l : list Z) : World :=
  MkWorld (w_heap w) (w_tables w) (w_nonce w) (w_flights w) l (w_destroyed w) (w_issued w).
Definition set_heap (w : World) (h : Heap) : World :=
  MkWorld h (w_tables w) (w_nonce w) (w_flights w) (w_held w) (w_destroyed w) (w_issued w).
Definition set_nonce (w : World) (n : Z) : World :=
  MkWorld (w_heap w) (w_tables w) n (w_flights w) (w_held w) (w_destroyed w) (w_issued w).
Definition issue (w : World) (k : nat) (handle : Z) : World :=
  MkWorld (w_heap w) (w_tables w) (w_nonce w) (w_flights w) (w_held w) (w_destroyed w)
    ((k, handle) :: w_issued w).

(** Drop one reference to [obj] and log the destroy callback. *)
Definition drop_ref (w : World) (obj : Z) : option World :=
  match KObjectRelease (w_heap w) obj with
  | None => None
  | Some (h, dead) =>
      Some (MkWorld h (w_tables w) (w_nonce w) (w_flights w) (w_held w)
              (if dead then obj :: w_destroyed w else w_destroyed w) (w_issued w))
  end.

(** The next critical section of flight [f], the [n]-th. *)
Definition advance (w : World) (n : nat) (f : Flight) : option World :=
  let rest := delete n (w_flights w) in
  match f with
  | FPinned k p =>
      let '(ok, h) := KObjectAcquire (w_heap w) (pin_obj p) in
      Some (set_flights (set_heap w h) (rest ++ [FRetained k p ok]))
  | FRetained k p ok =>
      match w_tables w !! k with
      | None => None
      | Some t =>
          match RetainSnapshotUnpin t p with
          | None => None
          | Some t =>
              Some (set_held (set_flights (set_table w k t) rest)
                      (if ok then pin_obj p :: w_held w else w_held w))
          end
      end
  | FDetaching k d =>
      match w_tables w !! k with
      | None => None
      | Some t =>
          match HandleTableDetachPoll t d with
          | None => None
          | Some (t, obj) =>
              if obj =? 0 then Some (set_table w k t)
              else Some (set_held (set_flights (set_table w k t) rest) (obj :: w_held w))
          end
      end
  | FAdopting k d obj rights =>
      match w_tables w !! k with
      | None => None
      | Some t =>
          match HandleTableAdoptReplacePoll t d obj rights with
          | None => None
          | Some (t, handle, displaced) =>
              if displaced =? 0 then Some (set_table w k t)
              else Some (issue (set_held (set_flights (set_table w k t) rest)
                                  (displaced :: w_held w)) k handle)
          end
      end
  | FDraining k =>
      match w_tables w !! k with
      | None => None
      | Some t =>
          if HandleTableDrainQuiescent t then Some (set_flights w (rest ++ [FCollecting k]))
          else Some w
      end
  | FCollecting k =>
      match w_tables w !! k with
      | None => None
      | Some t =>
          match HandleTableDrainCollect t with
          | None => None
          | Some (t, victims) =>
              Some (set_flights (set_table w k t) (rest ++ [FReleasing k victims]))
          end
      end
  | FReleasing k (v :: victims) =>
      drop_ref (set_flights w (rest ++ [FReleasing k victims])) v
  | FReleasing k [] =>
      match w_tables w !! k with
      | None => None
      | Some t =>
          match HandleTableDrainFinish t with
          | None => None
          | Some t => Some (set_flights (set_table w k t) rest)
          end
      end
  end.

(** One step.  [None] is a failed assertion.  An action whose caller does not
    hold what it passes, or that names nothing, changes nothing; handles are
    32-bit words. *)
Definition exec (w : World) (a : Action) : option World :=
  match a with
  | ACreate obj type destroy =>
      if bool_decide (obj = 0 \/ type = TypeInvalid \/ is_Some (w_heap w !! obj)) then Some w
      else Some (set_held (set_heap w (KObjectInit (w_heap w) obj type destroy)) (obj :: w_held w))
  | AOpenTable =>
      Some (MkWorld (w_heap w) (w_tables w ++ [zero_table]) (w_nonce w) (w_flights w) (w_held w)
              (w_destroyed w) (w_issued w))
  | AAcquire n =>
      match w_held w !! n with
      | None => Some w
      | Some obj =>
          let '(ok, h) := KObjectAcquire (w_heap w) obj in
          Some (set_held (set_heap w h) (if ok then obj :: w_held w else w_held w))
      end
  | ARelease n =>
      match w_held w !! n with
      | None => Some w
      | Some obj => drop_ref (set_held w (delete n (w_held w))) obj
      end
  | AInsert k n rights =>
      match w_tables w !! k, w_held w !! n with
      | Some t, Some obj =>
          match HandleTableInsert (w_heap w) t obj rights with
          | None => None
          | Some (t, inl _) => Some (set_table w k t)
          | Some (t, inr handle) =>
              Some (issue (set_held (set_table w k t) (delete n (w_held w))) k handle)
          end
      | _, _ => Some w
      end
  | AReserve k type rights =>
      match w_tables w !! k with
      | None => Some w
      | Some t =>
          match HandleTableReserve t type rights (w_nonce w) with
          | None => None
          | Some (t, last, inl _) => Some (set_nonce (set_table w k t) last)
          | Some (t, last, inr r) => Some (issue (set_nonce (set_table w k t) last) k (res_handle r))
          end
      end
  | APublish k r n =>
      match w_tables w !! k, w_held w !! n with
      | Some t, Some obj =>
          if res_handle r <? 0 then Some w
          else match HandleTablePublish (w_heap w) t r obj with
               | None => None
               | Some (t, inl _) => Some (set_table w k t)
               | Some (t, inr _) => Some (set_held (set_table w k t) (delete n (w_held w)))
               end
      | _, _ => Some w
      end
  | AAbort k r =>
      match w_tables w !! k with
      | None => Some w
      | Some t =>
          if res_handle r <? 0 then Some w
          else match HandleTableAbort t r with
               | None => None
               | Some (t, _) => Some (set_table w k t)
               end
      end
  | ALookup k handle expected required =>
      match w_tables w !! k with
      | None => Some w
      | Some t =>
          if handle <? 0 then Some w
          else match RetainSnapshotPin (w_heap w) t handle expected required with
               | None => None
               | Some (t, inl _) => Some (set_table w k t)
               | Some (t, inr p) =>
                   Some (set_flights (set_table w k t) (w_flights w ++ [FPinned k p]))
               end
      end
  | ADetach k handle expected required =>
      match w_tables w !! k with
      | None => Some w
      | Some t =>
          if handle <? 0 then Some w
          else match HandleTableDetachBegin (w_heap w) t handle expected required with
               | None => None
               | Some (t, inl _) => Some (set_table w k t)
               | Some (t, inr d) =>
                   Some (set_flights (set_table w k t) (w_flights w ++ [FDetaching k d]))
               end
      end
  | AReplace k handle rights =>
      match w_tables w !! k with
      | None => Some w
      | Some t =>
          if handle <? 0 then Some w
          else match HandleReplace t handle rights with
               | None => None
               | Some (t, inl _) => Some (set_table w k t)
               | Some (t, inr fresh) => Some (issue (set_table w k t) k fresh)
               end
      end
  | AAdopt k handle n rights expected =>
      match w_tables w !! k, w_held w !! n with
      | Some t, Some obj =>
          if handle <? 0 then Some w
          else match HandleTableAdoptReplaceBegin (w_heap w) t handle obj rights expected with
               | None => None
               | Some (t, inl _) => Some (set_table w k t)
               | Some (t, inr d) =>
                   Some (set_held (set_flights (set_table w k t)
                                     (w_flights w ++ [FAdopting k d obj rights]))
                           (delete n (w_held w)))
               end
      | _, _ => Some w
      end
  | ADrain k =>
      match w_tables w !! k with
      | None => Some w
      | Some t =>
          let '(t, owner) := HandleTableDrainEnter t in
          Some (set_flights (set_table w k t)
                  (if owner then w_flights w ++ [FDraining k] else w_flights w))
      end
  | AStep n =>
      match w_flights w !! n with
      | None => Some w
      | Some f => advance w n f
      end
  end.

Fixpoint run_from (w : World) (acts : list Action) : option World :=
  match acts with
  | [] => Some w
  | a :: acts => match exec w a with Some w => run_from w acts | None => None end
  end.

(** ** Where a flight is, and what it counts for *)

Definition loc (f : Flight) : nat * option nat :=
  match f with
  | FPinned k p | FRetained k p _ => (k, Some (Z.to_nat (pin_slot p)))
  | FDetaching k d | FAdopting k d _ _ => (k, Some (Z.to_nat (dec_slot d)))
  | FDraining k | FCollecting k | FReleasing k _ => (k, None)
  end.

Definition here (f : Flight) (l : nat * option nat) : Z := Z.b2z (bool_decide (loc f = l)).

Definition pin_at (k i : nat) (f : Flight) : Z :=
  match f with FPinned _ _ | FRetained _ _ _ => here f (k, Some i) | _ => 0 end.
Definition close_at (k i : nat) (f : Flight) : Z :=
  match f with FDetaching _ _ | FAdopting _ _ _ _ => here f (k, Some i) | _ => 0 end.
Definition op_at (k : nat) (f : Flight) : Z :=
  match loc f with (k', Some _) => Z.b2z (bool_decide (k' = k)) | _ => 0 end.
Definition drain_at (k : nat) (f : Flight) : Z := here f (k, None).

Definition slot_ref (a : Z) (s : HandleSlot) : Z := one_if a (slot_obj s).
Definition table_refs (a : Z) (t : HandleTable) : Z := sumZ (slot_ref a) (table_slots t).
Definition flight_ref (a : Z) (f : Flight) : Z :=
  match f with
  | FRetained _ p true => one_if a (pin_obj p)
  | FAdopting _ _ obj _ => one_if a obj
  | FReleasing _ victims => sumZ (one_if a) victims
  | _ => 0
  end.

(** All the references to [a] there are. *)
Definition refs (a : Z) (w : World) : Z :=
  sumZ (table_refs a) (w_tables w) + sumZ (one_if a) (w_held w) + sumZ (flight_ref a) (w_flights w).

Definition cnt (h : Heap) (a : Z) : Z := match h !! a with Some o => ko_refcount o | None => 0 end.

(** ** The invariant *)

(** What a flight relies on of the row it is at. *)
Definition fits (f : Flight) (s : HandleSlot) : Prop :=
  match f with
  | FPinned _ p | FRetained _ p _ => slot_obj s = pin_obj p /\ pin_obj p <> 0
  | FDetaching _ d => slot_generation s = dec_generation d
  | FAdopting _ d _ _ => slot_generation s = dec_generation d /\ slot_generation s < kHandleGenerationMax
  | _ => True
  end.

Record row_ok (fl : list Flight) (k i : nat) (s : HandleSlot) : Prop := {
  ro_pins : acquisition_pins s = sumZ (pin_at k i) fl;
  ro_close : sumZ (close_at k i) fl = Z.b2z (bool_decide (slot_state s = SlotClosing));
  ro_fits : forall f, f ∈ fl -> loc f = (k, Some i) -> fits f s;
}.

Definition all_clear (t : HandleTable) : Prop :=
  forall i s, table_slots t !! i = Some s -> slot_is_clear s = true.

(** How far a drain has got. *)
Definition phase_ok (f : Flight) (t : HandleTable) : Prop :=
  match f with
  | FCollecting _ => active_operations t = 0
  | FReleasing _ _ => active_operations t = 0 /\ all_clear t
  | _ => True
  end.

Record table_ok (fl : list Flight) (k : nat) (t : HandleTable) : Prop := {
  tk_rows : rows_ok t;
  tk_zero : table_slots t !! 0%nat = Some zero_slot;
  tk_row : forall i s, (0 < i)%nat -> table_slots t !! i = Some s -> row_ok fl k i s;
  tk_active : active_operations t = sumZ (op_at k) fl;
  tk_drain : sumZ (drain_at k) fl = Z.b2z (bool_decide (table_state t = TableDraining));
  tk_phase : forall f, f ∈ fl -> loc f = (k, None) -> phase_ok f t;
  tk_closed : table_state t = TableClosed -> active_operations t = 0 /\ all_clear t;
}.

(** A flight names a table and a usable row, and carries real objects. *)
Definition placed (tables : nat) (f : Flight) : Prop :=
  ((loc f).1 < tables)%nat /\
  match f with
  | FPinned _ p | FRetained _ p _ => 0 < pin_slot p < kHandleTableCapacity
  | FDetaching _ d => 0 < dec_slot d < kHandleTableCapacity
  | FAdopting _ d obj _ => 0 < dec_slot d < kHandleTableCapacity /\ obj <> 0
  | FReleasing _ victims => Forall (fun v => v <> 0) victims
  | _ => True
  end.

Definition bears_object (s : HandleSlot) : Prop := slot_state s = SlotLive \/ slot_state s = SlotClosing.

(** Every object has a valid type and a 32-bit count. *)
Definition counts_ok (h : Heap) : Prop :=
  forall a o, h !! a = Some o -> is_u32 (ko_refcount o) /\ ko_type o <> TypeInvalid.

Record world_ok (w : World) : Prop := {
  wk_tables : forall k t, w_tables w !! k = Some t -> table_ok (w_flights w) k t;
  wk_placed : Forall (placed (length (w_tables w))) (w_flights w);
  wk_held : Forall (fun a => a <> 0) (w_held w);
  wk_refs : forall a, a <> 0 -> cnt (w_heap w) a = refs a w;
  wk_counts : counts_ok (w_heap w);
  wk_rights : forall k t i s, w_tables w !! k = Some t -> table_slots t !! i = Some s ->
    bears_object s -> rights_ok (w_heap w) (slot_obj s) (slot_rights s);
  wk_adopt : forall k d obj rights, FAdopting k d obj rights ∈ w_flights w ->
    rights_ok (w_heap w) obj rights;
  wk_dead : NoDup (w_destroyed w) /\
    forall a, a ∈ w_destroyed w -> a <> 0 /\ exists o, w_heap w !! a = Some o /\ ko_refcount o = 0;
  wk_nonce : is_u64 (w_nonce w);
  wk_issued : NoDup (w_issued w) /\
    forall k handle, (k, handle) ∈ w_issued w ->
      exists t d s, w_tables w !! k = Some t /\ HandleDecode handle = Some d
        /\ slot_of t (dec_slot d) = Some s /\ dec_generation d <= slot_generation s;
}.

(** The life of a row only moves forward: reserved, live, closing, closed,
    then the next generation. *)
Definition rank (s : HandleSlot) : Z :=
  4 * slot_generation s
  + match slot_state s with SlotReserved => 0 | SlotLive => 1 | SlotClosing => 2 | _ => 3 end.

Definition table_le (t t' : HandleTable) : Prop :=
  forall i s, table_slots t !! i = Some s ->
    exists s', table_slots t' !! i = Some s' /\ rank s <= rank s'.

Definition tables_le (ts ts' : list HandleTable) : Prop :=
  forall k t, ts !! k = Some t -> exists t', ts' !! k = Some t' /\ table_le t t'.

(** ** Changing the flights at one place *)

Notation same_off := (same_off_at loc).

Lemma here_off f l l' : loc f = l -> l <> l' -> here f l' = 0.
Proof. intros Hl Hne. unfold here. rewrite Hl. by rewrite bool_decide_eq_false_2. Qed.

Lemma row_ok_off l fl fl' k i s :
  same_off l fl fl' -> l <> (k, Some i) -> row_ok fl k i s -> row_ok fl' k i s.
Proof.
  intros [Hsum Hin] Hne [Hp Hc Hf]. split.
  - rewrite Hp. symmetry. apply Hsum. intros f Hl. unfold pin_at. destruct f; try done; by eapply here_off.
  - rewrite <- Hc. apply Hsum. intros f Hl. unfold close_at. destruct f; try done; by eapply here_off.
  - intros f Hf' Hl. apply Hf; [|done]. apply Hin; [done|]. congruence.
Qed.

Lemma table_ok_off l fl fl' k t :
  same_off l fl fl' -> l.1 <> k -> table_ok fl k t -> table_ok fl' k t.
Proof.
  intros Hs Hne [Hr Hz Hrow Ha Hd Hph Hcl]. destruct (Hs) as [Hsum Hin]. split; try done.
  - intros i s Hi Hsl. eapply row_ok_off; [done | by intros -> | by apply Hrow].
  - rewrite Ha. symmetry. apply Hsum. intros f <-. unfold op_at.
    destruct (loc f) as [k' [i|]]; [|done]. by rewrite bool_decide_eq_false_2.
  - rewrite <- Hd. apply Hsum. intros f Hl. apply (here_off _ _ _ Hl). by intros ->.
  - intros f Hf Hl. apply Hph; [|done]. apply Hin; [done|]. intros Hl'. rewrite Hl in Hl'. by subst.
Qed.

(** ** Counting flights *)

Lemma here_on f l : loc f = l -> here f l = 1.
Proof. intros Hl. unfold here. by rewrite Hl, bool_decide_eq_true_2. Qed.

Lemma here_nonneg f l : 0 <= here f l.
Proof. unfold here. by case_bool_decide. Qed.

Lemma pin_at_nonneg k i f : 0 <= pin_at k i f.
Proof. destruct f; simpl; done || apply here_nonneg. Qed.
Lemma close_at_nonneg k i f : 0 <= close_at k i f.
Proof. destruct f; simpl; done || apply here_nonneg. Qed.
Lemma op_at_nonneg k f : 0 <= op_at k f.
Proof. unfold op_at. destruct (loc f) as [k' [i|]]; [|done]. by case_bool_decide. Qed.
#[export] Hint Resolve here_nonneg pin_at_nonneg close_at_nonneg op_at_nonneg : duet.

Lemma op_at_on f k i : loc f = (k, Some i) -> op_at k f = 1.
Proof. intros Hl. unfold op_at. by rewrite Hl, bool_decide_eq_true_2. Qed.

(** Every flight at a row is a lookup or a closer. *)
Lemma at_row_counted f k i : loc f = (k, Some i) -> pin_at k i f + close_at k i f = 1.
Proof. intros Hl. destruct f; simpl in *; try done; rewrite here_on by done; lia. Qed.

Lemma row_idle fl k i s f :
  row_ok fl k i s -> acquisition_pins s = 0 -> slot_state s <> SlotClosing ->
  f ∈ fl -> loc f <> (k, Some i).
Proof.
  intros [Hp Hc _] Hz Hnc Hf Hl. rewrite bool_decide_eq_false_2 in Hc by done. simpl in Hc.
  pose proof (sumZ_member _ _ _ (fun y _ => pin_at_nonneg k i y) Hf).
  pose proof (sumZ_member _ _ _ (fun y _ => close_at_nonneg k i y) Hf).
  pose proof (at_row_counted f k i Hl). lia.
Qed.

Lemma open_no_drain fl k t f :
  table_ok fl k t -> table_state t <> TableDraining -> f ∈ fl -> loc f <> (k, None).
Proof.
  intros Ht Hst Hf Hl. pose proof (tk_drain _ _ _ Ht) as Hd.
  rewrite bool_decide_eq_false_2 in Hd by done. simpl in Hd.
  pose proof (sumZ_counted (drain_at k) fl f (fun f => here_nonneg f _) Hf (here_on _ _ Hl)). lia.
Qed.

(** ** Row updates *)

Lemma row_ok_idle fl k i s s' :
  row_ok fl k i s -> acquisition_pins s = 0 -> slot_state s <> SlotClosing ->
  acquisition_pins s' = 0 -> slot_state s' <> SlotClosing -> row_ok fl k i s'.
Proof.
  intros Hr Hp Hst Hp' Hst'. pose proof (row_idle fl k i s) as Hidle. destruct (Hr) as [Hrp Hrc _].
  rewrite bool_decide_eq_false_2 in Hrc by done.
  split; [lia | by rewrite bool_decide_eq_false_2 by done |].
  intros f Hf Hl. by destruct (Hidle f Hr Hp Hst Hf).
Qed.

Lemma row_ok_renamed fl k i s s' :
  row_ok fl k i s -> slot_state s = SlotLive -> slot_state s' = SlotLive ->
  acquisition_pins s' = acquisition_pins s -> slot_obj s' = slot_obj s -> row_ok fl k i s'.
Proof.
  intros [Hp Hc Hf] Hst Hst' Hpp Ho. rewrite Hst in Hc. split; [congruence | by rewrite Hst'|].
  intros f Hin Hl. pose proof (Hf f Hin Hl) as Hfit.
  assert (close_at k i f = 0) as Hz.
  { pose proof (sumZ_member _ _ _ (fun y _ => close_at_nonneg k i y) Hin).
    pose proof (close_at_nonneg k i f). simpl in *. lia. }
  destruct f; simpl in *; rewrite ?Ho; try done; rewrite here_on in Hz by done; lia.
Qed.

Lemma row_ok_pinned fl k i s p :
  row_ok fl k i s -> i = Z.to_nat (pin_slot p) -> slot_obj s = pin_obj p -> pin_obj p <> 0 ->
  row_ok (fl ++ [FPinned k p]) k i (slot_pins s (acquisition_pins s + 1)).
Proof.
  intros [Hp Hc Hf] -> Ho Hne. split; simpl.
  - rewrite sumZ_app, <- Hp. simpl. rewrite here_on by done. lia.
  - rewrite sumZ_app. simpl. lia.
  - intros f [Hin|Hin%list_elem_of_singleton]%elem_of_app Hl; [|by subst].
    specialize (Hf f Hin Hl). by destruct f.
Qed.

Lemma row_ok_unpinned fl k i s n p ok :
  row_ok fl k i s -> i = Z.to_nat (pin_slot p) -> fl !! n = Some (FRetained k p ok) ->
  row_ok (delete n fl) k i (slot_pins s (acquisition_pins s - 1)).
Proof.
  intros [Hp Hc Hf] -> Hn. split; simpl.
  - rewrite (sumZ_delete _ _ _ _ Hn), <- Hp. simpl. rewrite here_on by done. lia.
  - rewrite (sumZ_delete _ _ _ _ Hn). simpl. lia.
  - intros f Hin%elem_of_delete_sub Hl. specialize (Hf f Hin Hl). by destruct f.
Qed.

(** A close begins: the flight [f] is the only closer of the row. *)
Lemma row_ok_closing fl k i s f :
  row_ok fl k i s -> slot_state s = SlotLive -> close_at k i f = 1 -> pin_at k i f = 0 ->
  fits f s -> row_ok (fl ++ [f]) k i (slot_to s SlotClosing).
Proof.
  intros [Hp Hc Hf] Hst Hcl Hpin Hfit. rewrite Hst in Hc. split; simpl.
  - rewrite sumZ_app, <- Hp. simpl. lia.
  - rewrite sumZ_app, Hc. simpl. lia.
  - intros f' [Hin|Hin%list_elem_of_singleton]%elem_of_app Hl.
    + specialize (Hf f' Hin Hl). by destruct f'.
    + subst. by destruct f.
Qed.

(** A close ends: no flight is left at the row. *)
Lemma row_ok_closed fl k i s s' n f :
  row_ok fl k i s -> slot_state s = SlotClosing -> acquisition_pins s = 0 ->
  fl !! n = Some f -> close_at k i f = 1 -> pin_at k i f = 0 ->
  acquisition_pins s' = 0 -> slot_state s' <> SlotClosing -> row_ok (delete n fl) k i s'.
Proof.
  intros [Hp Hc Hf] Hst Hz Hn Hcl Hpin Hz' Hst'.
  apply (row_ok_idle _ _ _ (slot_to s SlotLive)); try done. split; simpl.
  - rewrite (sumZ_delete _ _ _ _ Hn). lia.
  - rewrite (sumZ_delete _ _ _ _ Hn), Hc, Hst. simpl. lia.
  - intros f' Hin%elem_of_delete_sub Hl. specialize (Hf f' Hin Hl). by destruct f'.
Qed.

(** ** Table updates *)

(** The table after one row, the allocation hint and the operation count
    have been changed. *)
Definition row_update (t : HandleTable) (i : nat) (s : HandleSlot) (hint active : Z) : HandleTable :=
  MkTable (<[i := s]> (table_slots t)) hint active (table_state t).

Lemma table_ok_commit fl fl' k t i s s' hint :
  table_ok fl k t -> same_off (k, Some i) fl fl' -> (0 < i)%nat -> table_slots t !! i = Some s ->
  slot_ok s' -> row_ok fl' k i s' -> 0 <= hint < kHandleTableCapacity ->
  table_state t = TableOpen \/ 0 < active_operations t ->
  table_ok fl' k (row_update t i s' hint (sumZ (op_at k) fl')).
Proof.
  intros Ht Hoff Hi Hs Hok Hrow Hhint Hbusy. destruct (Ht) as [Hr Hz Hrows Ha Hd Hph Hcl].
  destruct (Hoff) as [Hsum Hin].
  assert (Hquiet : forall f, f ∈ fl -> loc f = (k, None) -> active_operations t <> 0).
  { intros f Hf Hl. destruct Hbusy as [Ho|]; [|lia].
    destruct (open_no_drain fl k t f Ht); [congruence | done | done]. }
  split; simpl; try done.
  - destruct (rows_ok_with_slot t (Z.of_nat i) s' Hr Hok) as [Hl _ Hsl].
    split; simpl; [by rewrite length_insert, (rows_length _ Hr) | done |].
    intros j sj. by specialize (Hsl j sj); simpl in Hsl; rewrite Nat2Z.id in Hsl.
  - rewrite list_lookup_insert_ne by lia. done.
  - intros j sj Hj. destruct (decide (i = j)) as [<-|Hne].
    + rewrite list_lookup_insert_eq by (by eapply lookup_lt_Some). by intros [= <-].
    + rewrite list_lookup_insert_ne by done. intros Hsj.
      eapply row_ok_off; [done | by intros [= ?] | by apply Hrows].
  - rewrite <- Hd. apply Hsum. intros f Hl. by eapply here_off.
  - intros f Hf Hl. assert (f ∈ fl) as Hf' by (apply Hin; [done | congruence]).
    specialize (Hph f Hf' Hl). specialize (Hquiet f Hf' Hl). destruct f; simpl in *; try done; lia.
  - intros Hc. destruct (Hcl Hc). destruct Hbusy; [congruence | lia].
Qed.

Lemma tables_le_refl ts : tables_le ts ts.
Proof. intros k t Hk. exists t. split; [done|]. intros i s Hs. by exists s. Qed.

Lemma tables_le_trans ts1 ts2 ts3 : tables_le ts1 ts2 -> tables_le ts2 ts3 -> tables_le ts1 ts3.
Proof.
  intros H12 H23 k t Hk. destruct (H12 k t Hk) as (t2 & Hk2 & Hle2).
  destruct (H23 k t2 Hk2) as (t3 & Hk3 & Hle3). exists t3. split; [done|].
  intros i s Hs. destruct (Hle2 i s Hs) as (s2 & Hs2 & ?). destruct (Hle3 i s2 Hs2) as (s3 & Hs3 & ?).
  exists s3. split; [done | lia].
Qed.

Lemma tables_le_insert ts k t t' : ts !! k = Some t -> table_le t t' -> tables_le ts (<[k := t']> ts).
Proof.
  intros Hk Hle j tj Hj. destruct (decide (k = j)) as [<-|Hne].
  - exists t'. rewrite list_lookup_insert_eq by (by eapply lookup_lt_Some). split; [done|].
    by assert (tj = t) as -> by congruence.
  - rewrite list_lookup_insert_ne by done. exists tj. split; [done|]. intros i s Hs. by exists s.
Qed.

Lemma table_le_row t i s s' hint active :
  table_slots t !! i = Some s -> rank s <= rank s' -> table_le t (row_update t i s' hint active).
Proof.
  intros Hs Hr j sj Hj. simpl. destruct (decide (i = j)) as [<-|Hne].
  - exists s'. rewrite list_lookup_insert_eq by (by eapply lookup_lt_Some). split; [done|].
    by assert (sj = s) as -> by congruence.
  - rewrite list_lookup_insert_ne by done. by exists sj.
Qed.

Lemma table_refs_row a t i s s' hint active :
  table_slots t !! i = Some s ->
  table_refs a (row_update t i s' hint active) = table_refs a t - slot_ref a s + slot_ref a s'.
Proof. intros Hs. unfold table_refs. simpl. by rewrite (sumZ_insert _ _ _ _ _ Hs). Qed.

Lemma rank_generation s s' : rank s <= rank s' -> slot_generation s <= slot_generation s'.
Proof. unfold rank. destruct (slot_state s), (slot_state s'); lia. Qed.

Definition issued_ok (ts : list HandleTable) (issued : list (nat * Z)) : Prop :=
  forall k handle, (k, handle) ∈ issued ->
    exists t d s, ts !! k = Some t /\ HandleDecode handle = Some d
      /\ slot_of t (dec_slot d) = Some s /\ dec_generation d <= slot_generation s.

Lemma issued_mono ts ts' issued : tables_le ts ts' -> issued_ok ts issued -> issued_ok ts' issued.
Proof.
  intros Hle H k handle Hin. destruct (H k handle Hin) as (t & d & s & Hk & Hd & Hs & Hg).
  destruct (Hle k t Hk) as (t' & Hk' & Ht). destruct (Ht _ _ Hs) as (s' & Hs' & Hr%rank_generation).
  exists t', d, s'. repeat split; try done. lia.
Qed.

(** The tokens a step adds: none, or the one of the row's new generation. *)
Definition fresh_token (k i : nat) (s s' : HandleSlot) (new : list (nat * Z)) : Prop :=
  new = [] \/ exists handle d, new = [(k, handle)] /\ HandleDecode handle = Some d
    /\ Z.to_nat (dec_slot d) = i /\ dec_generation d = slot_generation s'
    /\ slot_generation s < slot_generation s'.

Definition good_step (w w' : World) : Prop := world_ok w' /\ tables_le (w_tables w) (w_tables w').

Lemma world_commit w k t i s s' hint active fl' held' new nonce :
  world_ok w -> w_tables w !! k = Some t -> (0 < i)%nat -> table_slots t !! i = Some s ->
  same_off (k, Some i) (w_flights w) fl' -> slot_ok s' -> row_ok fl' k i s' ->
  0 <= hint < kHandleTableCapacity -> table_state t = TableOpen \/ 0 < active_operations t ->
  active = sumZ (op_at k) fl' ->
  Forall (placed (length (w_tables w))) fl' -> Forall (fun a => a <> 0) held' ->
  (forall a, a <> 0 -> slot_ref a s' + sumZ (one_if a) held' + sumZ (flight_ref a) fl'
     = slot_ref a s + sumZ (one_if a) (w_held w) + sumZ (flight_ref a) (w_flights w)) ->
  (bears_object s' -> rights_ok (w_heap w) (slot_obj s') (slot_rights s')) ->
  (forall k d obj rights, FAdopting k d obj rights ∈ fl' -> rights_ok (w_heap w) obj rights) ->
  rank s <= rank s' -> fresh_token k i s s' new -> is_u64 nonce ->
  good_step w (MkWorld (w_heap w) (<[k := row_update t i s' hint active]> (w_tables w)) nonce fl' held'
                 (w_destroyed w) (new ++ w_issued w)).
Proof.
  intros Hw Hk Hi Hs Hoff Hok Hrow Hhint Hbusy -> Hpl Hheld Hrefs Hright Hadopt Hrank Hnew Hnonce.
  assert (tables_le (w_tables w)
            (<[k := row_update t i s' hint (sumZ (op_at k) fl')]> (w_tables w))) as Hle.
  { apply (tables_le_insert _ _ t); [done|]. by eapply table_le_row. }
  split; [|done]. destruct (wk_issued _ Hw) as [Hnd Hiss].
  split; simpl; try (by apply Hw); try done.
  - intros j tj. destruct (decide (k = j)) as [<-|Hne].
    + rewrite list_lookup_insert_eq by (by eapply lookup_lt_Some). intros [= <-].
      eapply table_ok_commit; try done. by apply (wk_tables _ Hw).
    + rewrite list_lookup_insert_ne by done. intros Hj.
      eapply table_ok_off; [done | done | by apply (wk_tables _ Hw)].
  - by rewrite length_insert.
  - intros a Ha. rewrite (wk_refs _ Hw a Ha). unfold refs. simpl.
    rewrite (sumZ_insert _ _ _ _ _ Hk), (table_refs_row _ _ _ _ _ _ _ Hs). specialize (Hrefs a Ha). lia.
  - intros j tj ii si Hj Hii Hb. apply list_lookup_insert_Some in Hj as [(<- & <- & _)|[_ Hj]].
    + simpl in Hii. apply list_lookup_insert_Some in Hii as [(<- & <- & _)|[_ Hii]]; [by apply Hright|].
      by eapply (wk_rights _ Hw).
    + by eapply (wk_rights _ Hw).
  - destruct Hnew as [->|(handle & d & -> & Hd & Hdi & Hdg & Hlt)]; simpl.
    { split; [done|]. by eapply issued_mono. }
    split.
    + constructor; [|done]. intros Hin. destruct (Hiss _ _ Hin) as (t0 & d0 & s0 & Hk0 & Hd0 & Hs0 & Hg0).
      unfold slot_of in Hs0. assert (t0 = t) as -> by congruence. assert (d0 = d) as -> by congruence.
      rewrite Hdi in Hs0. assert (s0 = s) as -> by congruence. lia.
    + intros k0 h0 [[= -> ->]|Hin]%elem_of_cons; [|by eapply issued_mono].
      eexists _, d, s'. rewrite list_lookup_insert_eq by (by eapply lookup_lt_Some).
      split; [done|]. split; [done|]. unfold slot_of. simpl. rewrite Hdi.
      rewrite list_lookup_insert_eq by (by eapply lookup_lt_Some). split; [done | lia].
Qed.

(** ** Each action preserves the invariant *)

Lemma good_refl w : world_ok w -> good_step w w.
Proof. intros Hw. split; [done | apply tables_le_refl]. Qed.

Lemma set_table_id w k t : w_tables w !! k = Some t -> set_table w k t = w.
Proof. intros Hk. unfold set_table. rewrite list_insert_id by done. by destruct w. Qed.

Lemma good_refused w k t : world_ok w -> w_tables w !! k = Some t -> good_step w (set_table w k t).
Proof. intros Hw Hk. rewrite set_table_id by done. by apply good_refl. Qed.

Lemma wk_table_rows w k t : world_ok w -> w_tables w !! k = Some t -> rows_ok t.
Proof. intros Hw Hk. by apply (tk_rows _ _ _ (wk_tables _ Hw _ _ Hk)). Qed.

Lemma wk_row w k t i s :
  world_ok w -> w_tables w !! k = Some t -> 0 < i -> slot_of t i = Some s ->
  row_ok (w_flights w) k (Z.to_nat i) s.
Proof. intros Hw Hk Hi Hs. apply (tk_row _ _ _ (wk_tables _ Hw _ _ Hk)); [lia | done]. Qed.

Lemma wk_active w k t :
  world_ok w -> w_tables w !! k = Some t -> active_operations t = sumZ (op_at k) (w_flights w).
Proof. intros Hw Hk. apply (tk_active _ _ _ (wk_tables _ Hw _ _ Hk)). Qed.

Lemma held_nonzero w n obj : world_ok w -> w_held w !! n = Some obj -> obj <> 0.
Proof. intros Hw Hn. eapply Forall_lookup_1 in Hn; [|apply (wk_held _ Hw)]. done. Qed.

#[export] Hint Resolve wk_table_rows wk_row wk_placed wk_held wk_adopt wk_nonce : duet.

Lemma filled_live_ok obj rights generation :
  obj <> 0 -> 0 < generation <= kHandleGenerationMax ->
  slot_ok (filled obj rights 0 generation TypeInvalid SlotLive).
Proof. intros. unfold slot_ok. simpl. repeat split; (done || lia). Qed.

(** The token of the generation a row moves to. *)
Lemma fresh_token_encode k i s s' :
  0 < i < kHandleTableCapacity -> 0 <= slot_generation s ->
  slot_generation s < kHandleGenerationMax -> slot_generation s' = slot_generation s + 1 ->
  fresh_token k (Z.to_nat i) s s' [(k, HandleEncode i (slot_generation s + 1))].
Proof.
  intros Hi Hg Hlt Hs. right. eexists _, (MkDecoded i (slot_generation s + 1)).
  split; [done|]. rewrite decode_encode by lia. simpl. repeat split; lia.
Qed.

Lemma insert_step w k n rights :
  world_ok w -> exists w', exec w (AInsert k n rights) = Some w' /\ good_step w w'.
Proof.
  intros Hw. simpl. destruct (w_tables w !! k) as [t|] eqn:Hk; [|eauto using good_refl].
  destruct (w_held w !! n) as [obj|] eqn:Hn; [|eauto using good_refl].
  destruct (insert_spec (w_heap w) t obj rights) as (t' & [e|handle] & -> & Hr); [eauto with duet| |].
  { destruct Hr as [-> _]. eauto using good_refused. }
  destruct Hr as (i & s & Hi & Hs & Hf & Hok & Ho & Hne & Hright & _ & -> & ->).
  destruct (free_slot_fields s Hok Hf) as (Hg & Hobj & _ & _ & Hp & _).
  eexists. split; [done|].
  apply (world_commit w k t (Z.to_nat i) s
           (filled obj rights 0 (slot_generation s + 1) TypeInvalid SlotLive)
           i (active_operations t) (w_flights w) (delete n (w_held w)) [(k, _)] (w_nonce w));
    eauto with duet; try lia.
  - apply filled_live_ok; [done | lia].
  - apply (row_ok_idle _ _ _ s); try done; [apply (wk_row w k t); (done || lia) | congruence].
  - by apply wk_active.
  - intros a Ha. rewrite (sumZ_delete _ _ _ _ Hn). unfold slot_ref. simpl.
    rewrite Hobj, (one_if_null a Ha). lia.
  - unfold rank. simpl. rewrite Hf. lia.
  - apply fresh_token_encode; simpl; lia.
Qed.

Lemma reserve_step w k type rights :
  world_ok w -> exists w', exec w (AReserve k type rights) = Some w' /\ good_step w w'.
Proof.
  intros Hw. simpl. destruct (w_tables w !! k) as [t|] eqn:Hk; [|eauto using good_refl].
  destruct (reserve_spec t type rights (w_nonce w)) as (t' & last & [e|r] & -> & Hr);
    [eauto with duet | eauto with duet | |].
  { destruct Hr as [-> ->]. eexists. split; [done|]. rewrite set_table_id by done.
    destruct w. by apply good_refl. }
  destruct Hr as (i & s & Hi & Hs & Hf & Hok & Ho & Hne & Hright & Hty & Hlast & -> & -> & ->).
  destruct (free_slot_fields s Hok Hf) as (Hg & Hobj & _ & _ & Hp & _).
  pose proof (wk_nonce _ Hw).
  eexists. split; [done|].
  apply (world_commit w k t (Z.to_nat i) s
           (filled 0 rights (w_nonce w + 1) (slot_generation s + 1) type SlotReserved)
           i (active_operations t) (w_flights w) (w_held w) [(k, _)] (w_nonce w + 1));
    eauto with duet; try lia.
  - unfold slot_ok. simpl. repeat split; (done || ulia).
  - apply (row_ok_idle _ _ _ s); try done; [apply (wk_row w k t); (done || lia) | congruence].
  - by apply wk_active.
  - intros a Ha. unfold slot_ref. simpl. by rewrite Hobj.
  - by intros [?|?].
  - unfold rank. simpl. rewrite Hf. lia.
  - apply fresh_token_encode; simpl; lia.
  - ulia.
Qed.

Lemma handle_publish_step w k r n :
  world_ok w -> exists w', exec w (APublish k r n) = Some w' /\ good_step w w'.
Proof.
  intros Hw. simpl. destruct (w_tables w !! k) as [t|] eqn:Hk; [|eauto using good_refl].
  destruct (w_held w !! n) as [obj|] eqn:Hn; [|eauto using good_refl].
  destruct (res_handle r <? 0) eqn:Hnn; [eauto using good_refl|].
  destruct (publish_spec (w_heap w) t r obj) as (t' & [e|handle] & -> & Hr);
    [eauto with duet | lia | |].
  { subst. eauto using good_refused. }
  destruct Hr as (d & s & -> & Hd & Hs & Hok & Hst & Hg & _ & Ho & Hne & Hright & _ & ->).
  apply decode_value in Hd as (Hsl & Hge & _); [|lia].
  pose proof Hok as (_ & _ & Hm). rewrite Hst in Hm. destruct Hm as (Hobj & _ & _ & _ & Hp & _).
  eexists. split; [done|].
  apply (world_commit w k t (Z.to_nat (dec_slot d)) s
           (filled obj (slot_rights s) 0 (slot_generation s) TypeInvalid SlotLive)
           (next_free_hint t) (active_operations t) (w_flights w) (delete n (w_held w)) [] (w_nonce w));
    eauto with duet; try lia.
  - apply filled_live_ok; [done | lia].
  - apply (row_ok_idle _ _ _ s); try done; [apply (wk_row w k t); (done || lia) | congruence].
  - by apply (rows_hint _ (wk_table_rows w k t Hw Hk)).
  - by apply wk_active.
  - intros a Ha. rewrite (sumZ_delete _ _ _ _ Hn). unfold slot_ref. simpl.
    rewrite Hobj, (one_if_null a Ha). lia.
  - unfold rank. simpl. rewrite Hst. lia.
  - by left.
Qed.

Lemma handle_abort_step w k r :
  world_ok w -> exists w', exec w (AAbort k r) = Some w' /\ good_step w w'.
Proof.
  intros Hw. simpl. destruct (w_tables w !! k) as [t|] eqn:Hk; [|eauto using good_refl].
  destruct (res_handle r <? 0) eqn:Hnn; [eauto using good_refl|].
  destruct (abort_spec t r) as (t' & [e|[]] & -> & Hr); [eauto with duet | lia | |].
  { subst. eauto using good_refused. }
  destruct Hr as (d & s & Hd & Hs & Hok & Hst & Hg & Ho & ->).
  apply decode_value in Hd as (Hsl & Hge & _); [|lia].
  pose proof Hok as (_ & _ & Hm). rewrite Hst in Hm. destruct Hm as (Hobj & _ & _ & _ & Hp & _).
  eexists. split; [done|].
  apply (world_commit w k t (Z.to_nat (dec_slot d)) s (emptied s)
           (next_free_hint t) (active_operations t) (w_flights w) (w_held w) [] (w_nonce w));
    eauto with duet; try lia.
  - by apply emptied_ok.
  - apply (row_ok_idle _ _ _ s); try done; [apply (wk_row w k t); (done || lia) | congruence |].
    simpl. unfold ClosedStateFor. by case_match.
  - by apply (rows_hint _ (wk_table_rows w k t Hw Hk)).
  - by apply wk_active.
  - intros a Ha. unfold slot_ref. simpl. by rewrite Hobj.
  - unfold bears_object. simpl. unfold ClosedStateFor. case_match; intros [?|?]; done.
  - unfold rank. simpl. rewrite Hst. unfold ClosedStateFor. case_match; lia.
  - by left.
Qed.

Lemma replace_step w k handle rights :
  world_ok w -> exists w', exec w (AReplace k handle rights) = Some w' /\ good_step w w'.
Proof.
  intros Hw. simpl. destruct (w_tables w !! k) as [t|] eqn:Hk; [|eauto using good_refl].
  destruct (handle <? 0) eqn:Hnn; [eauto using good_refl|].
  destruct (replace_spec t handle rights) as (t' & [e|fresh] & -> & Hr); [eauto with duet | lia | |].
  { subst. eauto using good_refused. }
  destruct Hr as (d & s & Hd & (Ho & Hs & Hok & Hst & Hg & Hsl) & Hne & Hsub & Hlt & -> & ->).
  pose proof Hok as (Hgr & Hp & Hm). rewrite Hst in Hm. destruct Hm as (Hobj & _).
  eexists. split; [done|].
  apply (world_commit w k t (Z.to_nat (dec_slot d)) s
           (MkSlot (slot_obj s) rights 0 (slot_generation s + 1) (acquisition_pins s) TypeInvalid SlotLive)
           (next_free_hint t) (active_operations t) (w_flights w) (w_held w) [(k, _)] (w_nonce w));
    eauto with duet; try lia.
  - unfold slot_ok. simpl. repeat split; (done || lia).
  - apply (row_ok_renamed _ _ _ s); try done. apply (wk_row w k t); (done || lia).
  - by apply (rows_hint _ (wk_table_rows w k t Hw Hk)).
  - by apply wk_active.
  - simpl. intros _. split; [done|]. eapply lacks_trans; [|done].
    eapply (wk_rights _ Hw); [done | done | by left].
  - unfold rank. simpl. rewrite Hst. lia.
  - apply fresh_token_encode; simpl; lia.
Qed.

Lemma placed_add w f :
  world_ok w -> placed (length (w_tables w)) f ->
  Forall (placed (length (w_tables w))) (w_flights w ++ [f]).
Proof.
  intros Hw Hf. apply Forall_app. split; [by apply wk_placed | by constructor].
Qed.

Lemma active_add k fl f : op_at k f = 1 -> sumZ (op_at k) fl + 1 = sumZ (op_at k) (fl ++ [f]).
Proof. intros Hf. rewrite sumZ_app. simpl. lia. Qed.

Lemma active_del k fl n f : fl !! n = Some f -> op_at k f = 1 ->
  sumZ (op_at k) fl - 1 = sumZ (op_at k) (delete n fl).
Proof. intros Hn Hf. rewrite (sumZ_delete _ _ _ _ Hn). lia. Qed.

Lemma lookup_step w k handle expected required :
  world_ok w -> exists w', exec w (ALookup k handle expected required) = Some w' /\ good_step w w'.
Proof.
  intros Hw. simpl. destruct (w_tables w !! k) as [t|] eqn:Hk; [|eauto using good_refl].
  destruct (handle <? 0) eqn:Hnn; [eauto using good_refl|].
  destruct (pin_spec (w_heap w) t handle expected required) as (t' & [e|p] & -> & Hr);
    [eauto with duet | lia | |].
  { subst. eauto using good_refused. }
  destruct Hr as (d & s & Hd & (Ho & Hs & Hok & Hst & Hg & Hsl) & _ & _ & _ & _ & -> & ->).
  pose proof Hok as (Hgr & Hp & Hm). rewrite Hst in Hm. destruct Hm as (Hobj & Hrest).
  set (f := FPinned k (MkPin (dec_slot d) (slot_obj s) (slot_rights s))).
  eexists. split; [done|].
  apply (world_commit w k t (Z.to_nat (dec_slot d)) s (slot_pins s (acquisition_pins s + 1))
           (next_free_hint t) (active_operations t + 1) (w_flights w ++ [f]) (w_held w) [] (w_nonce w));
    eauto with duet; try lia.
  - unfold slot_ok. simpl. rewrite Hst. split; [done | split; [lia | done]].
  - apply row_ok_pinned; try done. apply (wk_row w k t); (done || lia).
  - by apply (rows_hint _ (wk_table_rows w k t Hw Hk)).
  - rewrite (wk_active w k t) by done. apply active_add. by apply (op_at_on _ _ (Z.to_nat (dec_slot d))).
  - apply placed_add; [done|]. split; [by eapply lookup_lt_Some | done].
  - intros a Ha. rewrite sumZ_app. unfold slot_ref. simpl. lia.
  - simpl. intros _. eapply (wk_rights _ Hw); [done | done | by left].
  - intros k0 d0 o0 r0 [Hin|Hin%list_elem_of_singleton]%elem_of_app; [by eapply (wk_adopt _ Hw) | done].
  - unfold rank. simpl. rewrite Hst. lia.
  - by left.
Qed.

(** A close begins, with the flight [f] and what the caller still holds. *)
Lemma close_begin_step w k t d s f held' :
  world_ok w -> w_tables w !! k = Some t -> addressed t d s ->
  loc f = (k, Some (Z.to_nat (dec_slot d))) -> close_at k (Z.to_nat (dec_slot d)) f = 1 ->
  fits f s -> placed (length (w_tables w)) f -> Forall (fun a => a <> 0) held' ->
  (forall a, a <> 0 -> sumZ (one_if a) held' + flight_ref a f = sumZ (one_if a) (w_held w)) ->
  (forall k d obj rights, f = FAdopting k d obj rights -> rights_ok (w_heap w) obj rights) ->
  good_step w
    (set_held (set_flights
       (set_table w k (with_active (with_slot t (dec_slot d) (slot_to s SlotClosing))
                         (active_operations t + 1)))
       (w_flights w ++ [f])) held').
Proof.
  intros Hw Hk (Ho & Hs & Hok & Hst & Hg & Hsl) Hloc Hcl Hfit Hpl Hheld Hrefs Had.
  pose proof Hok as (Hgr & Hp & Hm). rewrite Hst in Hm. pose proof (at_row_counted _ _ _ Hloc).
  apply (world_commit w k t (Z.to_nat (dec_slot d)) s (slot_to s SlotClosing)
           (next_free_hint t) (active_operations t + 1) (w_flights w ++ [f]) held' [] (w_nonce w));
    eauto with duet; try lia.
  - by unfold slot_ok.
  - apply row_ok_closing; try done; [apply (wk_row w k t); (done || lia) | lia].
  - by apply (rows_hint _ (wk_table_rows w k t Hw Hk)).
  - rewrite (wk_active w k t) by done. apply active_add. by eapply op_at_on.
  - by apply placed_add.
  - intros a Ha. rewrite sumZ_app. specialize (Hrefs a Ha). unfold slot_ref. simpl. lia.
  - simpl. intros _. eapply (wk_rights _ Hw); [done | done | by left].
  - intros k0 d0 o0 r0 [Hin|Hin%list_elem_of_singleton]%elem_of_app;
      [by eapply (wk_adopt _ Hw) | by eapply Had].
  - unfold rank. simpl. rewrite Hst. lia.
  - by left.
Qed.

Lemma detach_step w k handle expected required :
  world_ok w -> exists w', exec w (ADetach k handle expected required) = Some w' /\ good_step w w'.
Proof.
  intros Hw. simpl. destruct (w_tables w !! k) as [t|] eqn:Hk; [|eauto using good_refl].
  destruct (handle <? 0) eqn:Hnn; [eauto using good_refl|].
  destruct (detach_begin_spec (w_heap w) t handle expected required) as (t' & [e|d] & -> & Hr);
    [eauto with duet | lia | |].
  { subst. eauto using good_refused. }
  destruct Hr as (s & Hd & Had & _ & _ & _ & ->).
  eexists. split; [done|].
  apply (close_begin_step w k t d s (FDetaching k d) (w_held w)); try done; try apply Had.
  - simpl. by rewrite here_on.
  - split; [by eapply lookup_lt_Some | apply Had].
  - by apply wk_held.
  - intros a Ha. simpl. lia.
Qed.

Lemma adopt_step w k handle n rights expected :
  world_ok w -> exists w', exec w (AAdopt k handle n rights expected) = Some w' /\ good_step w w'.
Proof.
  intros Hw. simpl. destruct (w_tables w !! k) as [t|] eqn:Hk; [|eauto using good_refl].
  destruct (w_held w !! n) as [obj|] eqn:Hn; [|eauto using good_refl].
  destruct (handle <? 0) eqn:Hnn; [eauto using good_refl|].
  destruct (adopt_begin_spec (w_heap w) t handle obj rights expected) as (t' & [e|d] & -> & Hr);
    [eauto with duet | lia | |].
  { subst. eauto using good_refused. }
  destruct Hr as (s & Hd & Had & _ & Hne & Hright & _ & Hlt & _ & ->).
  eexists. split; [done|].
  apply (close_begin_step w k t d s (FAdopting k d obj rights) (delete n (w_held w))); try done.
  - simpl. by rewrite here_on.
  - split; [apply Had | done].
  - split; [by eapply lookup_lt_Some | split; [apply Had | done]].
  - apply Forall_delete_sub, wk_held, Hw.
  - intros a Ha. rewrite (sumZ_delete _ _ _ _ Hn). simpl. lia.
  - by intros ? ? ? ? [= <- <- <- <-].
Qed.

(** ** Each flight can take its next step *)

Lemma flight_table w n f :
  world_ok w -> w_flights w !! n = Some f ->
  exists t, w_tables w !! (loc f).1 = Some t /\ placed (length (w_tables w)) f.
Proof.
  intros Hw Hn. pose proof (Forall_lookup_1 _ _ _ _ (wk_placed _ Hw) Hn) as Hp.
  destruct (lookup_lt_is_Some_2 _ _ (proj1 Hp)) as [t Ht]. by exists t.
Qed.

Lemma flight_row w n f k t i :
  world_ok w -> w_flights w !! n = Some f -> w_tables w !! k = Some t ->
  loc f = (k, Some (Z.to_nat i)) -> 0 < i < kHandleTableCapacity ->
  exists s, slot_of t i = Some s /\ row_ok (w_flights w) k (Z.to_nat i) s /\ slot_ok s
    /\ fits f s /\ 0 < active_operations t
    /\ (pin_at k (Z.to_nat i) f = 1 -> 0 < acquisition_pins s)
    /\ (close_at k (Z.to_nat i) f = 1 -> slot_state s = SlotClosing).
Proof.
  intros Hw Hn Hk Hl Hi. pose proof (wk_table_rows _ _ _ Hw Hk) as Hrows.
  destruct (rows_slot_of t i Hrows ltac:(lia)) as [s Hs]. exists s.
  pose proof (wk_row w k t i s Hw Hk ltac:(lia) Hs) as Hr.
  pose proof (list_elem_of_lookup_2 _ _ _ Hn) as Hin.
  split; [done|]. split; [done|]. split; [by eapply rows_ok_row|].
  split; [by apply (ro_fits _ _ _ _ Hr)|]. split; [|split].
  - rewrite (wk_active w k t) by done. eapply sumZ_counted; eauto with duet. by eapply op_at_on.
  - intros Hpin. rewrite (ro_pins _ _ _ _ Hr). eapply sumZ_counted; eauto with duet.
  - intros Hcl. pose proof (ro_close _ _ _ _ Hr) as Hc.
    assert (0 < sumZ (close_at k (Z.to_nat i)) (w_flights w)) by (eapply sumZ_counted; eauto with duet).
    case_bool_decide; [done | simpl in Hc; lia].
Qed.

Lemma adopt_sub w n k d obj rights :
  world_ok w -> FAdopting k d obj rights ∈ delete n (w_flights w) -> rights_ok (w_heap w) obj rights.
Proof. intros Hw Hin%elem_of_delete_sub. by eapply (wk_adopt _ Hw). Qed.
#[export] Hint Resolve adopt_sub : duet.

Lemma unpin_step w n k p ok :
  world_ok w -> w_flights w !! n = Some (FRetained k p ok) ->
  exists w', advance w n (FRetained k p ok) = Some w' /\ good_step w w'.
Proof.
  intros Hw Hn. destruct (flight_table w n _ Hw Hn) as (t & Hk & _ & Hsl). simpl in Hk, Hsl.
  destruct (flight_row w n _ k t (pin_slot p) Hw Hn Hk eq_refl Hsl)
    as (s & Hs & Hrow & Hok & [Ho Hne] & Ha & Hp & _).
  simpl in Hp. rewrite here_on in Hp by done. specialize (Hp eq_refl).
  simpl. rewrite Hk. rewrite (unpin_spec t p s) by done. eexists. split; [done|].
  apply (world_commit w k t (Z.to_nat (pin_slot p)) s (slot_pins s (acquisition_pins s - 1))
           (next_free_hint t) (active_operations t - 1) (delete n (w_flights w))
           (if ok then pin_obj p :: w_held w else w_held w) [] (w_nonce w));
    eauto with duet; try lia.
  - destruct Hok as (Hg & _ & Hm). unfold slot_ok. simpl. split; [done|]. split; [lia|].
    destruct (slot_state s); try done; [| |];
      try (destruct Hm as [Hc%slot_clear_fields _]; by destruct Hc as [? _]; congruence).
    destruct Hm as (? & _). congruence.
  - by eapply row_ok_unpinned.
  - by apply (rows_hint _ (wk_table_rows w k t Hw Hk)).
  - rewrite (wk_active w k t) by done. eapply active_del; [done|]. by eapply op_at_on.
  - destruct ok; [constructor; [done|]|]; by apply wk_held.
  - intros a Haa. rewrite (sumZ_delete _ _ _ _ Hn). unfold slot_ref. destruct ok; simpl; lia.
  - intros Hb. by apply (wk_rights _ Hw k t (Z.to_nat (pin_slot p)) s).
  - unfold rank. simpl. lia.
  - by left.
Qed.

(** A close in flight ends once the pins of its row are gone. *)
Lemma close_end_step w n f k t d s s' new :
  world_ok w -> w_flights w !! n = Some f -> w_tables w !! k = Some t -> slot_of t (dec_slot d) = Some s ->
  0 < dec_slot d < kHandleTableCapacity -> loc f = (k, Some (Z.to_nat (dec_slot d))) ->
  close_at k (Z.to_nat (dec_slot d)) f = 1 -> acquisition_pins s = 0 -> slot_state s = SlotClosing ->
  0 < active_operations t -> slot_obj s <> 0 ->
  slot_ok s' -> acquisition_pins s' = 0 -> slot_state s' <> SlotClosing -> rank s <= rank s' ->
  (forall a, a <> 0 -> slot_ref a s' = flight_ref a f) ->
  (bears_object s' -> rights_ok (w_heap w) (slot_obj s') (slot_rights s')) ->
  fresh_token k (Z.to_nat (dec_slot d)) s s' new ->
  good_step w
    (MkWorld (w_heap w)
       (<[k := with_active (with_slot t (dec_slot d) s') (active_operations t - 1)]> (w_tables w))
       (w_nonce w) (delete n (w_flights w)) (slot_obj s :: w_held w) (w_destroyed w) (new ++ w_issued w)).
Proof.
  intros Hw Hn Hk Hs Hsl Hloc Hcl Hp Hst Ha Hobj Hok' Hp' Hst' Hrank Hrefs Hright Hnew.
  pose proof (at_row_counted _ _ _ Hloc).
  apply (world_commit w k t (Z.to_nat (dec_slot d)) s s'
           (next_free_hint t) (active_operations t - 1) (delete n (w_flights w))
           (slot_obj s :: w_held w) new (w_nonce w)); eauto with duet; try lia.
  - eapply row_ok_closed; try done; [apply (wk_row w k t); (done || lia) | lia].
  - by apply (rows_hint _ (wk_table_rows w k t Hw Hk)).
  - rewrite (wk_active w k t) by done. eapply active_del; [done|]. by eapply op_at_on.
  - intros a Haa. rewrite (sumZ_delete _ _ _ _ Hn). simpl. specialize (Hrefs a Haa).
    unfold slot_ref in *. lia.
Qed.

Lemma detaching_step w n k d :
  world_ok w -> w_flights w !! n = Some (FDetaching k d) ->
  exists w', advance w n (FDetaching k d) = Some w' /\ good_step w w'.
Proof.
  intros Hw Hn. destruct (flight_table w n _ Hw Hn) as (t & Hk & _ & Hsl). simpl in Hk, Hsl.
  destruct (flight_row w n _ k t (dec_slot d) Hw Hn Hk eq_refl Hsl)
    as (s & Hs & Hrow & Hok & Hfit & Ha & _ & Hcl).
  assert (close_at k (Z.to_nat (dec_slot d)) (FDetaching k d) = 1) as Hc by (by apply here_on).
  specialize (Hcl Hc). simpl. rewrite Hk, (detach_poll_spec t d s) by done.
  destruct (acquisition_pins s =? 0) eqn:Hp; [|eauto using good_refused].
  pose proof Hok as (_ & _ & Hm). rewrite Hcl in Hm. destruct Hm as (Hobj & _).
  replace (slot_obj s =? 0) with false by lia. eexists. split; [done|].
  destruct (emptied_ok s Hok ltac:(lia)) as [Hok' Hclear].
  apply (close_end_step w n (FDetaching k d) k t d s (emptied s) []); try done; try lia.
  - simpl. lia.
  - simpl. unfold ClosedStateFor. by case_match.
  - unfold rank. simpl. rewrite Hcl. unfold ClosedStateFor. destruct (slot_generation s =? _); lia.
  - intros a Haa. unfold slot_ref. simpl. by apply one_if_null.
  - unfold bears_object. simpl. unfold ClosedStateFor. case_match; intros [?|?]; done.
  - by left.
Qed.

Lemma adopting_step w n k d obj rights :
  world_ok w -> w_flights w !! n = Some (FAdopting k d obj rights) ->
  exists w', advance w n (FAdopting k d obj rights) = Some w' /\ good_step w w'.
Proof.
  intros Hw Hn. destruct (flight_table w n _ Hw Hn) as (t & Hk & _ & Hsl & Hne). simpl in Hk, Hsl.
  destruct (flight_row w n _ k t (dec_slot d) Hw Hn Hk eq_refl Hsl)
    as (s & Hs & Hrow & Hok & [Hg Hlt] & Ha & _ & Hcl).
  assert (close_at k (Z.to_nat (dec_slot d)) (FAdopting k d obj rights) = 1) as Hc by (by apply here_on).
  specialize (Hcl Hc). simpl. rewrite Hk, (adopt_poll_spec t d s) by done.
  destruct (acquisition_pins s =? 0) eqn:Hp; [|eauto using good_refused].
  pose proof Hok as (Hgr & _ & Hm). rewrite Hcl in Hm. destruct Hm as (Hobj & _).
  replace (slot_obj s =? 0) with false by lia. eexists. split; [done|].
  apply (close_end_step w n (FAdopting k d obj rights) k t d s
           (filled obj rights 0 (slot_generation s + 1) TypeInvalid SlotLive) [(k, _)]); try done; try lia.
  - apply filled_live_ok; [done | lia].
  - unfold rank. simpl. rewrite Hcl. lia.
  - intros _. simpl. eapply (wk_adopt _ Hw). by eapply list_elem_of_lookup_2.
  - apply fresh_token_encode; simpl; lia.
Qed.

(** ** Drains *)

(** A whole table moves, with the flights of its drain. *)
Lemma world_drain w k t t' fl' :
  world_ok w -> w_tables w !! k = Some t -> same_off (k, None) (w_flights w) fl' ->
  table_ok fl' k t' -> table_le t t' -> Forall (placed (length (w_tables w))) fl' ->
  (forall a, a <> 0 -> table_refs a t' + sumZ (flight_ref a) fl'
     = table_refs a t + sumZ (flight_ref a) (w_flights w)) ->
  (forall i s', table_slots t' !! i = Some s' -> bears_object s' -> table_slots t !! i = Some s') ->
  good_step w (set_flights (set_table w k t') fl').
Proof.
  intros Hw Hk Hoff Ht' Hle Hpl Hrefs Hbear. pose proof (tables_le_insert _ _ _ _ Hk Hle) as Hles.
  split; [|done]. split; simpl; try (by apply Hw).
  - intros j tj Hj. apply list_lookup_insert_Some in Hj as [(<- & <- & _)|[Hne Hj]]; [done|].
    eapply table_ok_off; [done | done | by apply (wk_tables _ Hw)].
  - by rewrite length_insert.
  - intros a Ha. rewrite (wk_refs _ Hw a Ha). unfold refs. simpl.
    rewrite (sumZ_insert _ _ _ _ _ Hk). specialize (Hrefs a Ha). lia.
  - intros j tj i s Hj Hi Hb. apply list_lookup_insert_Some in Hj as [(<- & <- & _)|[_ Hj]].
    + eapply (wk_rights _ Hw); [done | by apply Hbear | done].
    + by eapply (wk_rights _ Hw).
  - intros k0 d obj rights Hin. eapply (wk_adopt _ Hw k0 d). by apply Hoff.
  - destruct (wk_issued _ Hw) as [Hnd Hiss]. split; [done|]. by eapply issued_mono.
Qed.

Lemma table_le_same t t' : table_slots t' = table_slots t -> table_le t t'.
Proof. intros He i s Hs. exists s. rewrite He. split; [done | lia]. Qed.

Lemma drain_step w k :
  world_ok w -> exists w', exec w (ADrain k) = Some w' /\ good_step w w'.
Proof.
  intros Hw. simpl. destruct (w_tables w !! k) as [t|] eqn:Hk; [|eauto using good_refl].
  pose proof (wk_tables _ Hw _ _ Hk) as Ht. unfold HandleTableDrainEnter.
  destruct (table_state t) eqn:Hst.
  2, 3: rewrite set_table_id by done; destruct w; eauto using good_refl.
  eexists. split; [done|].
  assert (same_off (k, None) (w_flights w) (w_flights w ++ [FDraining k])) as Hoff by auto with duet.
  destruct (Ht) as [Hr Hz Hrow Ha Hd Hph Hcl]. apply (world_drain w k t); try done.
  - split; simpl; try done.
    + by destruct Hr.
    + intros i s Hi Hs. eapply row_ok_off; [done | done | by apply Hrow].
    + rewrite sumZ_app, Ha. simpl. unfold op_at at 3. simpl. lia.
    + rewrite sumZ_app, Hd, Hst. simpl. unfold drain_at. rewrite here_on by done. lia.
    + intros f [Hf|Hf%list_elem_of_singleton]%elem_of_app Hl; [|by subst].
      destruct (open_no_drain _ _ _ f Ht); [congruence | done | done].
  - by apply table_le_same.
  - apply placed_add; [done|]. split; [by eapply lookup_lt_Some | done].
  - intros a Haa. rewrite sumZ_app. unfold table_refs. simpl. lia.
Qed.

(** Replacing a flight by another at the same place that counts the same. *)
Lemma table_ok_replace fl n f f' k t :
  fl !! n = Some f -> loc f' = loc f -> table_ok fl k t ->
  (forall k i, pin_at k i f' = pin_at k i f) -> (forall k i, close_at k i f' = close_at k i f) ->
  (forall s, fits f s -> fits f' s) -> (loc f = (k, None) -> phase_ok f t -> phase_ok f' t) ->
  table_ok (delete n fl ++ [f']) k t.
Proof.
  intros Hn Hl [Hr Hz Hrow Ha Hd Hph Hcl] Hpin Hclose Hfit Hphase.
  assert (Hsum : forall g : Flight -> Z, g f' = g f -> sumZ g (delete n fl ++ [f']) = sumZ g fl).
  { intros g Hg. rewrite sumZ_app, (sumZ_delete _ _ _ _ Hn). simpl. lia. }
  assert (Hin : forall x, x ∈ delete n fl ++ [f'] -> x ∈ fl \/ x = f').
  { intros x [Hx%elem_of_delete_sub|Hx%list_elem_of_singleton]%elem_of_app; auto. }
  pose proof (list_elem_of_lookup_2 _ _ _ Hn) as Hf.
  split; try done.
  - intros i s Hi Hs. destruct (Hrow i s Hi Hs) as [Hp Hc Hfi]. split.
    + by rewrite Hsum.
    + by rewrite Hsum.
    + intros x [Hx| ->]%Hin Hlx; [by apply Hfi|]. apply Hfit, Hfi; [done | congruence].
  - rewrite Hsum; [done|]. unfold op_at. by rewrite Hl.
  - rewrite Hsum; [done|]. unfold drain_at, here. by rewrite Hl.
  - intros x [Hx| ->]%Hin Hlx; [by apply Hph|]. rewrite Hl in Hlx. by apply Hphase; [|apply Hph].
Qed.

Lemma quiesce_step w n k :
  world_ok w -> w_flights w !! n = Some (FDraining k) ->
  exists w', advance w n (FDraining k) = Some w' /\ good_step w w'.
Proof.
  intros Hw Hn. destruct (flight_table w n _ Hw Hn) as (t & Hk & Hlt & _). simpl in Hk, Hlt.
  simpl. rewrite Hk. unfold HandleTableDrainQuiescent.
  destruct (active_operations t =? 0) eqn:Hq; [|eauto using good_refl].
  eexists. split; [done|].
  rewrite <- (set_table_id w k t Hk) at 2. apply (world_drain w k t); try done.
  - by eapply same_off_swap.
  - eapply table_ok_replace; try done; [by apply (wk_tables _ Hw) | simpl; lia].
  - by apply table_le_same.
  - apply Forall_app. split; [apply Forall_delete_sub, wk_placed, Hw | by repeat constructor].
  - intros a Ha. rewrite sumZ_app, (sumZ_delete _ _ _ _ Hn). simpl. lia.
Qed.

Lemma drain_finish_step w n k :
  world_ok w -> w_flights w !! n = Some (FReleasing k []) ->
  exists w', advance w n (FReleasing k []) = Some w' /\ good_step w w'.
Proof.
  intros Hw Hn. destruct (flight_table w n _ Hw Hn) as (t & Hk & Hlt & _). simpl in Hk, Hlt.
  pose proof (wk_tables _ Hw _ _ Hk) as Ht. destruct (Ht) as [Hr Hz Hrow Ha Hd Hph Hcl].
  pose proof (list_elem_of_lookup_2 _ _ _ Hn) as Hin. destruct (Hph _ Hin eq_refl) as [Hact Hclear].
  assert (drain_at k (FReleasing k []) = 1) as Hone by (by apply here_on).
  pose proof (sumZ_counted (drain_at k) _ _ (fun f => here_nonneg f _) Hin Hone) as Hpos.
  assert (table_state t = TableDraining) as Hst.
  { case_bool_decide; [done|]. simpl in Hd. lia. }
  simpl. rewrite Hk. unfold HandleTableDrainFinish. rewrite Hst. simpl. eexists. split; [done|].
  assert (same_off (k, None) (w_flights w) (delete n (w_flights w))) as Hoff by (by eapply same_off_del).
  rewrite Hst in Hd. simpl in Hd.
  assert (sumZ (drain_at k) (delete n (w_flights w)) = 0) as Hgone
    by (rewrite (sumZ_delete _ _ _ _ Hn); lia).
  apply (world_drain w k t); try done.
  - split; simpl; try done.
    + by destruct Hr.
    + intros i s Hi Hs. eapply row_ok_off; [done | done | by apply Hrow].
    + rewrite (sumZ_delete _ _ _ _ Hn), Ha. unfold op_at at 3. simpl. lia.
    + intros f Hf Hl.
      pose proof (sumZ_counted (drain_at k) _ _ (fun f => here_nonneg f _) Hf (here_on _ _ Hl)). lia.
  - by apply table_le_same.
  - apply Forall_delete_sub, wk_placed, Hw.
  - intros a Haa. rewrite (sumZ_delete _ _ _ _ Hn). unfold table_refs. simpl. lia.
Qed.

Lemma quiet_no_flight fl k t i f :
  table_ok fl k t -> active_operations t = 0 -> f ∈ fl -> loc f <> (k, Some i).
Proof.
  intros Ht Hq Hf Hl. rewrite (tk_active _ _ _ Ht) in Hq.
  pose proof (sumZ_counted (op_at k) _ _ (op_at_nonneg k) Hf (op_at_on _ _ _ Hl)). lia.
Qed.

Lemma quiet_table_row fl k t i s :
  table_ok fl k t -> active_operations t = 0 -> (0 < i)%nat -> table_slots t !! i = Some s -> quiet_row s.
Proof.
  intros Ht Hq Hi Hs. pose proof (tk_row _ _ _ Ht i s Hi Hs) as [Hp Hc _].
  assert (Hnone : forall f, f ∈ fl -> pin_at k i f = 0 /\ close_at k i f = 0).
  { intros f Hf. pose proof (quiet_no_flight fl k t i f Ht Hq Hf) as Hl.
    destruct f; simpl; split; try done; by apply (here_off _ _ _ eq_refl). }
  split; [by eapply (rows_slots _ (tk_rows _ _ _ Ht))|]. split.
  - intros Hst. rewrite Hst, sumZ_zero in Hc; [done|]. intros f Hf. by apply Hnone.
  - rewrite Hp. apply sumZ_zero. intros f Hf. by apply Hnone.
Qed.

Lemma drained_refs a rows :
  a <> 0 -> Forall quiet_row rows ->
  sumZ (slot_ref a) (drained_row <$> rows) + sumZ (one_if a) (live_objects rows)
    = sumZ (slot_ref a) rows.
Proof.
  intros Ha. induction rows as [|s rows IH]; intros Hq; [done|].
  apply Forall_cons in Hq as [(Hok & Hnc & _) Hq]. specialize (IH Hq). unfold fmap in IH.
  rewrite live_objects_cons. unfold is_live. simpl.
  destruct Hok as (_ & _ & Hm). unfold drained_row at 1.
  destruct (slot_state s) eqn:Hst; try done; simpl; unfold slot_ref at 1 3; simpl.
  - lia.
  - rewrite (one_if_null a Ha). lia.
  - lia.
  - destruct Hm as (Ho & _). rewrite Ho. lia.
Qed.

Lemma live_objects_nonzero rows : Forall quiet_row rows -> Forall (fun v => v <> 0) (live_objects rows).
Proof.
  intros Hq. unfold live_objects. apply Forall_fmap. rewrite Forall_forall in *.
  intros s [Hl Hs]%list_elem_of_filter. destruct (Hq s Hs) as ((_ & _ & Hm) & _).
  unfold is_live in Hl. apply bool_decide_eq_true in Hl. rewrite Hl in Hm. by destruct Hm.
Qed.

Lemma drained_rank s : rank s <= rank (drained_row s).
Proof.
  unfold drained_row, rank, emptied, ClosedStateFor. destruct (slot_state s) eqn:Hst; rewrite ?Hst; try lia;
    simpl; destruct (slot_generation s =? _); lia.
Qed.

Lemma draining_flight fl k t f :
  table_ok fl k t -> f ∈ fl -> loc f = (k, None) -> table_state t = TableDraining.
Proof.
  intros Ht Hf Hl. destruct (decide (table_state t = TableDraining)) as [|Hne]; [done|].
  by destruct (open_no_drain _ _ _ f Ht Hne Hf).
Qed.

(** The table after the drain owner has emptied its rows. *)
Definition drained_table (t : HandleTable) (rows : list HandleSlot) : HandleTable :=
  with_slots t (zero_slot :: (drained_row <$> rows)).

Lemma drained_lookup t rows i s' :
  table_slots (drained_table t rows) !! i = Some s' -> Forall quiet_row rows ->
  s' = zero_slot \/ exists j s, i = S j /\ rows !! j = Some s /\ s' = drained_row s /\ quiet_row s.
Proof.
  intros Hs Hq. destruct i as [|j]; simpl in Hs; [left; by injection Hs|]. right.
  apply list_lookup_fmap_Some_1 in Hs as (s & -> & Hs). exists j, s. repeat split; try done;
    by apply (Forall_lookup_1 _ _ _ _ Hq Hs).
Qed.

Lemma drained_clear t rows : Forall quiet_row rows -> all_clear (drained_table t rows).
Proof.
  intros Hq i s' Hs. destruct (drained_lookup _ _ _ _ Hs Hq) as [->|(j & s & _ & _ & -> & Hqs)]; [done|].
  by apply drained_row_ok.
Qed.

Lemma zero_slot_ok : slot_ok zero_slot.
Proof. unfold slot_ok. simpl. by repeat split. Qed.

Lemma drained_rows_ok t rows :
  rows_ok t -> table_slots t = zero_slot :: rows -> Forall quiet_row rows ->
  rows_ok (drained_table t rows).
Proof.
  intros Hr Hslots Hq. split; simpl; [| apply Hr |].
  - rewrite length_fmap. pose proof (rows_length _ Hr) as Hl. by rewrite Hslots in Hl.
  - intros i s' Hs.
    destruct (drained_lookup t rows _ _ Hs Hq) as [->|(j & s & _ & _ & -> & Hqs)];
      [apply zero_slot_ok | by apply drained_row_ok].
Qed.

Lemma drained_not_closing s : quiet_row s -> slot_state (drained_row s) <> SlotClosing.
Proof.
  intros (_ & Hnc & _). unfold drained_row. destruct (slot_state s) eqn:E; rewrite ?E; try done;
    simpl; unfold ClosedStateFor; by destruct (slot_generation s =? _).
Qed.

Lemma drained_table_ok fl fl' k t rows :
  table_ok fl k t -> table_slots t = zero_slot :: rows -> Forall quiet_row rows ->
  active_operations t = 0 -> same_off (k, None) fl fl' -> table_state t = TableDraining ->
  sumZ (drain_at k) fl' = sumZ (drain_at k) fl -> table_ok fl' k (drained_table t rows).
Proof.
  intros [Hr Hz Hrow Ha Hd Hph Hcl] Hslots Hq Hact Hoff Hst Hsum.
  pose proof (drained_clear t rows Hq) as Hclear.
  split; [by apply drained_rows_ok | done | | | | | by simpl; rewrite Hst].
  - intros i s' Hi Hs'. eapply row_ok_off; [done | done |].
    destruct (drained_lookup _ _ _ _ Hs' Hq) as [->|(j & s & -> & Hs & -> & Hqs)].
    + destruct i as [|i]; [lia|]. simpl in Hs'.
      apply list_lookup_fmap_Some_1 in Hs' as (s & He & Hs).
      pose proof (Forall_lookup_1 _ _ _ _ Hq Hs) as (_ & Hnc & Hp).
      apply (row_ok_idle _ _ _ s); try done. apply Hrow; [lia | by rewrite Hslots].
    + pose proof Hqs as (_ & Hnc & Hp). pose proof (drained_row_ok s Hqs) as [_ Hc%slot_clear_fields].
      apply (row_ok_idle _ _ _ s); try done; [|tauto | by apply drained_not_closing].
      apply Hrow; [lia | by rewrite Hslots].
  - simpl. rewrite Ha. symmetry. apply Hoff. intros f Hl. unfold op_at. by rewrite Hl.
  - simpl. by rewrite Hsum, Hd.
  - intros f Hf Hl. destruct f; simpl; done.
Qed.

Lemma collect_step w n k :
  world_ok w -> w_flights w !! n = Some (FCollecting k) ->
  exists w', advance w n (FCollecting k) = Some w' /\ good_step w w'.
Proof.
  intros Hw Hn. destruct (flight_table w n _ Hw Hn) as (t & Hk & Hlt & _). simpl in Hk, Hlt.
  pose proof (wk_tables _ Hw _ _ Hk) as Ht. pose proof (list_elem_of_lookup_2 _ _ _ Hn) as Hin.
  pose proof (tk_phase _ _ _ Ht _ Hin eq_refl) as Hact. simpl in Hact.
  pose proof (draining_flight _ _ _ _ Ht Hin eq_refl) as Hst. pose proof (tk_zero _ _ _ Ht) as Hz.
  destruct (table_slots t) as [|s0 rows] eqn:Hslots; [done|]. simpl in Hz. injection Hz as ->.
  assert (Forall quiet_row rows) as Hq.
  { apply Forall_lookup_2. intros i s Hs. apply (quiet_table_row (w_flights w) k t (S i));
      [done | done | lia | by rewrite Hslots]. }
  simpl. rewrite Hk, (drain_collect_spec t zero_slot rows) by (done || apply Ht). eexists.
  split; [done|]. fold (drained_table t rows).
  set (fl' := delete n (w_flights w) ++ [FReleasing k (live_objects rows)]).
  assert (same_off (k, None) (w_flights w) fl') as Hoff by (by eapply same_off_swap).
  apply (world_drain w k t); try done.
  - apply (drained_table_ok (w_flights w)); try done. unfold fl'.
    rewrite sumZ_app, (sumZ_delete _ _ _ _ Hn). unfold drain_at. simpl. rewrite !here_on by done. lia.
  - intros i s Hs. rewrite Hslots in Hs. destruct i as [|i]; simpl in *.
    + injection Hs as <-. by exists zero_slot.
    + exists (drained_row s). rewrite list_lookup_fmap, Hs. split; [done | apply drained_rank].
  - apply Forall_app. split; [apply Forall_delete_sub, wk_placed, Hw|].
    apply Forall_singleton. split; [done|]. by apply live_objects_nonzero.
  - intros a Ha. unfold fl'. rewrite sumZ_app, (sumZ_delete _ _ _ _ Hn). simpl.
    unfold table_refs. simpl. rewrite Hslots. simpl. pose proof (drained_refs a rows Ha Hq). lia.
  - intros i s' Hs' Hb. exfalso.
    pose proof (drained_clear t rows Hq i s' Hs') as [Ho _]%slot_clear_fields.
    destruct (rows_slots _ (drained_rows_ok t rows (tk_rows _ _ _ Ht) Hslots Hq) i s' Hs') as (_ & _ & Hm).
    destruct Hb as [Hb|Hb]; rewrite Hb in Hm; by destruct Hm.
Qed.

(** ** Object lifetimes *)

(** Objects keep their type, stay in memory, and stay dead. *)
Definition heap_le (h h' : Heap) : Prop :=
  forall a o, h !! a = Some o -> exists o', h' !! a = Some o' /\ ko_type o' = ko_type o
    /\ (ko_refcount o = 0 -> ko_refcount o' = 0).

Lemma heap_le_refl h : heap_le h h.
Proof. intros a o Ho. by exists o. Qed.

Lemma rights_ok_alive h obj rights : rights_ok h obj rights -> is_Some (h !! obj).
Proof.
  intros [Hne Hl]. unfold type_of in Hl. destruct (h !! obj); [done|]. exfalso. apply Hne.
  unfold lacks in Hl. apply negb_false_iff, Z.eqb_eq in Hl. change (Z.lnot (TypeAllowedRights TypeInvalid)) with (-1) in Hl.
  by rewrite Z.land_m1_r in Hl.
Qed.

Lemma rights_ok_le h h' obj rights : heap_le h h' -> rights_ok h obj rights -> rights_ok h' obj rights.
Proof.
  intros Hle Hr. destruct (rights_ok_alive _ _ _ Hr) as [o Ho].
  destruct (Hle _ _ Ho) as (o' & Ho' & Ht & _). unfold rights_ok, type_of in *.
  rewrite Ho in Hr. by rewrite Ho', Ht.
Qed.

Lemma heap_set_le h obj o count :
  h !! obj = Some o -> ko_refcount o <> 0 ->
  heap_le h (<[obj := MkObject (ko_type o) count (ko_destroy o)]> h).
Proof.
  intros Ho Hne a oa Ha. destruct (decide (obj = a)) as [<-|Hna].
  - rewrite lookup_insert_eq. eexists. split; [done|]. simplify_eq/=. by split.
  - rewrite lookup_insert_ne by done. by exists oa.
Qed.

Lemma heap_set_counts h obj o :
  counts_ok h -> is_u32 (ko_refcount o) -> ko_type o <> TypeInvalid -> counts_ok (<[obj := o]> h).
Proof. intros Hc Ho Hty a oa [[_ <-]|[_ Ha]]%lookup_insert_Some; [done | by eapply Hc]. Qed.

Lemma cnt_set h obj o a : cnt (<[obj := o]> h) a = if bool_decide (obj = a) then ko_refcount o else cnt h a.
Proof.
  unfold cnt. case_bool_decide as He; [subst; by rewrite lookup_insert_eq | by rewrite lookup_insert_ne].
Qed.

Lemma acquire_heap h obj ok h' :
  counts_ok h -> obj <> 0 -> KObjectAcquire h obj = (ok, h') ->
  heap_le h h' /\ counts_ok h' /\ forall a, cnt h' a = cnt h a + if ok then one_if a obj else 0.
Proof.
  intros Hc Hne. unfold KObjectAcquire, RefcountIncSaturating.
  replace (obj =? 0) with false by lia. intros H.
  destruct (h !! obj) as [o|] eqn:Ho; [|simplify_eq; split; [apply heap_le_refl | split; [done | lia]]].
  destruct (Hc _ _ Ho) as [Hu Hty]. destruct (ko_refcount o =? 0) eqn:E0;
    [simplify_eq; split; [apply heap_le_refl | split; [done | lia]]|].
  destruct (ko_refcount o =? u32_max) eqn:E1; simpl in H; simplify_eq;
    [split; [apply heap_le_refl | split; [done | lia]]|].
  split; [apply heap_set_le; [done | lia]|]. split; [apply heap_set_counts; [done | simpl; ulia | done]|].
  intros a. rewrite cnt_set. unfold one_if, cnt. case_bool_decide as He; simpl.
  - subst. rewrite Ho, Z.eqb_refl. lia.
  - replace (a =? obj) with false by lia. lia.
Qed.

Lemma release_heap h obj :
  counts_ok h -> obj <> 0 -> 0 < cnt h obj ->
  exists h' dead, KObjectRelease h obj = Some (h', dead)
  /\ heap_le h h' /\ counts_ok h' /\ (forall a, cnt h' a = cnt h a - one_if a obj)
  /\ (dead = true -> exists o, h' !! obj = Some o /\ ko_refcount o = 0).
Proof.
  intros Hc Hne Hpos. unfold cnt in Hpos. unfold KObjectRelease.
  replace (obj =? 0) with false by lia.
  destruct (h !! obj) as [o|] eqn:Ho; [|lia]. destruct (Hc _ _ Ho) as [Hu Hty].
  replace (ko_refcount o =? 0) with false by lia.
  exists (<[obj := MkObject (ko_type o) (ko_refcount o - 1) (ko_destroy o)]> h),
    ((ko_refcount o - 1 =? 0) && ko_destroy o).
  split; [unfold valid_tag; rewrite bool_decide_eq_false_2 by done; by destruct (_ && _)|].
  split; [apply heap_set_le; [done | lia]|].
  split; [apply heap_set_counts; [done | simpl; ulia | done]|]. split.
  - intros a. rewrite cnt_set. unfold one_if, cnt. case_bool_decide as He; simpl.
    + subst. rewrite Ho, Z.eqb_refl. lia.
    + replace (a =? obj) with false by lia. lia.
  - intros [Hz _]%andb_true_iff. rewrite lookup_insert_eq. eexists. split; [done|]. simpl. lia.
Qed.

(** The heap, the callers' references and the flights move; rows do not. *)
Lemma world_heap w h' fl' held' destroyed' :
  world_ok w -> heap_le (w_heap w) h' -> counts_ok h' ->
  (forall k t, w_tables w !! k = Some t -> table_ok fl' k t) ->
  Forall (placed (length (w_tables w))) fl' -> Forall (fun a => a <> 0) held' ->
  (forall a, a <> 0 -> cnt h' a - sumZ (one_if a) held' - sumZ (flight_ref a) fl'
     = cnt (w_heap w) a - sumZ (one_if a) (w_held w) - sumZ (flight_ref a) (w_flights w)) ->
  (forall k d obj rights, FAdopting k d obj rights ∈ fl' -> FAdopting k d obj rights ∈ w_flights w) ->
  NoDup destroyed' -> (forall a, a ∈ destroyed' -> a <> 0 /\ exists o, h' !! a = Some o /\ ko_refcount o = 0) ->
  good_step w (MkWorld h' (w_tables w) (w_nonce w) fl' held' destroyed' (w_issued w)).
Proof.
  intros Hw Hle Hc Ht Hpl Hheld Hrefs Had Hnd Hdead. split; [|apply tables_le_refl].
  split; simpl; try (by apply Hw); try done.
  - intros a Ha. specialize (Hrefs a Ha). pose proof (wk_refs _ Hw a Ha) as Hr.
    unfold refs in *. simpl. lia.
  - intros k t i s Hk Hs Hb. eapply rights_ok_le; [done | by eapply (wk_rights _ Hw)].
  - intros k d obj rights Hin. eapply rights_ok_le; [done | by eapply (wk_adopt _ Hw), Had].
Qed.

(** The dead stay dead when the heap moves. *)
Lemma dead_le w h' :
  world_ok w -> heap_le (w_heap w) h' ->
  forall a, a ∈ w_destroyed w -> a <> 0 /\ exists o, h' !! a = Some o /\ ko_refcount o = 0.
Proof.
  intros Hw Hle a Ha. destruct (proj2 (wk_dead _ Hw) a Ha) as (Hne & o & Ho & Hz). split; [done|].
  destruct (Hle _ _ Ho) as (o' & Ho' & _ & Hz'). eauto.
Qed.

Lemma refs_nonneg_parts w a :
  0 <= sumZ (table_refs a) (w_tables w) /\ 0 <= sumZ (one_if a) (w_held w)
  /\ 0 <= sumZ (flight_ref a) (w_flights w).
Proof.
  assert (forall b, 0 <= one_if a b) as H1 by (intros; unfold one_if; by case_match).
  split; [|split]; apply sumZ_nonneg; intros x _; [|done|].
  - apply sumZ_nonneg. intros s _. apply H1.
  - destruct x as [| ? ? []|?|?|?|?|?]; simpl; try done. by apply sumZ_nonneg.
Qed.

Lemma acquired_step w n k p :
  world_ok w -> w_flights w !! n = Some (FPinned k p) ->
  exists w', advance w n (FPinned k p) = Some w' /\ good_step w w'.
Proof.
  intros Hw Hn. destruct (flight_table w n _ Hw Hn) as (t & Hk & Hlt & Hsl). simpl in Hk, Hlt, Hsl.
  destruct (flight_row w n _ k t (pin_slot p) Hw Hn Hk eq_refl Hsl)
    as (s & Hs & Hrow & Hok & [Ho Hne] & _).
  simpl. destruct (KObjectAcquire (w_heap w) (pin_obj p)) as [ok h'] eqn:Hacq.
  destruct (acquire_heap _ _ _ _ (wk_counts _ Hw) Hne Hacq) as (Hle & Hc & Hcnt).
  eexists. split; [done|].
  apply (world_heap w h' (delete n (w_flights w) ++ [FRetained k p ok]) (w_held w) (w_destroyed w));
    try done; try (by apply Hw).
  - intros k' t' Hk'. eapply table_ok_replace; try done. by apply (wk_tables _ Hw).
  - apply Forall_app. split; [apply Forall_delete_sub, wk_placed, Hw | by apply Forall_singleton].
  - intros a Ha. rewrite sumZ_app, (sumZ_delete _ _ _ _ Hn), Hcnt. simpl. destruct ok; lia.
  - intros k0 d0 o0 r0 [Hin%elem_of_delete_sub|Hin%list_elem_of_singleton]%elem_of_app; done.
  - by apply dead_le.
Qed.

Lemma acquire_held_step w n :
  world_ok w -> exists w', exec w (AAcquire n) = Some w' /\ good_step w w'.
Proof.
  intros Hw. simpl. destruct (w_held w !! n) as [obj|] eqn:Hn; [|eauto using good_refl].
  destruct (KObjectAcquire (w_heap w) obj) as [ok h'] eqn:Hacq.
  pose proof (held_nonzero _ _ _ Hw Hn) as Hne.
  destruct (acquire_heap _ _ _ _ (wk_counts _ Hw) Hne Hacq) as (Hle & Hc & Hcnt).
  eexists. split; [done|].
  apply (world_heap w h' (w_flights w) (if ok then obj :: w_held w else w_held w) (w_destroyed w));
    try done; try (by apply Hw).
  - destruct ok; [constructor; [done|]|]; by apply wk_held.
  - intros a Ha. rewrite Hcnt. destruct ok; simpl; lia.
  - by apply dead_le.
Qed.

(** A reference is dropped: [held'] and [fl'] are what is left of it. *)
Lemma drop_step w obj held' fl' :
  world_ok w -> obj <> 0 ->
  (forall a, a <> 0 -> sumZ (one_if a) held' + sumZ (flight_ref a) fl' + one_if a obj
     = sumZ (one_if a) (w_held w) + sumZ (flight_ref a) (w_flights w)) ->
  (forall k t, w_tables w !! k = Some t -> table_ok fl' k t) ->
  Forall (placed (length (w_tables w))) fl' -> Forall (fun a => a <> 0) held' ->
  (forall k d obj rights, FAdopting k d obj rights ∈ fl' -> FAdopting k d obj rights ∈ w_flights w) ->
  exists w', drop_ref (set_held (set_flights w fl') held') obj = Some w' /\ good_step w w'.
Proof.
  intros Hw Hne Hrefs Ht Hpl Hheld Had. unfold drop_ref. simpl.
  assert (0 < cnt (w_heap w) obj) as Hpos.
  { rewrite (wk_refs _ Hw obj Hne). pose proof (refs_nonneg_parts w obj) as (? & ? & ?).
    pose proof (refs_nonneg_parts (set_held (set_flights w fl') held') obj) as (_ & ? & ?). simpl in *.
    specialize (Hrefs obj Hne). unfold one_if at 2 in Hrefs. rewrite Z.eqb_refl in Hrefs. unfold refs. lia. }
  destruct (release_heap _ _ (wk_counts _ Hw) Hne Hpos) as (h' & dead & -> & Hle & Hc & Hcnt & Hdead).
  eexists. split; [done|].
  apply (world_heap w h' fl' held' (if dead then obj :: w_destroyed w else w_destroyed w)); try done.
  - intros a Ha. rewrite Hcnt. specialize (Hrefs a Ha). lia.
  - destruct dead; [|apply Hw]. constructor; [|apply Hw].
    intros (_ & o & Ho & Hz)%(proj2 (wk_dead _ Hw)). unfold cnt in Hpos. rewrite Ho in Hpos. lia.
  - intros a Ha. destruct dead; [|by eapply dead_le].
    apply elem_of_cons in Ha as [->|Ha]; [split; [done | by apply Hdead] | by eapply dead_le].
Qed.

Lemma release_held_step w n :
  world_ok w -> exists w', exec w (ARelease n) = Some w' /\ good_step w w'.
Proof.
  intros Hw. simpl. destruct (w_held w !! n) as [obj|] eqn:Hn; [|eauto using good_refl].
  apply (drop_step w obj (delete n (w_held w)) (w_flights w)); try done;
    try (by apply Hw).
  - by eapply held_nonzero.
  - intros a Ha. rewrite (sumZ_delete _ _ _ _ Hn). lia.
  - apply Forall_delete_sub, wk_held, Hw.
Qed.

Lemma releasing_step w n k v victims :
  world_ok w -> w_flights w !! n = Some (FReleasing k (v :: victims)) ->
  exists w', advance w n (FReleasing k (v :: victims)) = Some w' /\ good_step w w'.
Proof.
  intros Hw Hn. destruct (flight_table w n _ Hw Hn) as (t & Hk & Hlt & Hv). simpl in Hk, Hlt.
  apply Forall_cons in Hv as [Hne Hv].
  set (fl' := delete n (w_flights w) ++ [FReleasing k victims]).
  apply (drop_step w v (w_held w) fl'); try done.
  - intros a Ha. unfold fl'. rewrite sumZ_app, (sumZ_delete _ _ _ _ Hn). simpl. lia.
  - intros k' t' Hk'. eapply table_ok_replace; try done. by apply (wk_tables _ Hw).
  - apply Forall_app. split; [apply Forall_delete_sub, wk_placed, Hw | by apply Forall_singleton].
  - apply wk_held, Hw.
  - intros k0 d0 o0 r0 [Hin%elem_of_delete_sub|Hin%list_elem_of_singleton]%elem_of_app; done.
Qed.

Lemma create_step w obj type destroy :
  world_ok w -> exists w', exec w (ACreate obj type destroy) = Some w' /\ good_step w w'.
Proof.
  intros Hw. simpl. case_bool_decide as Hg; [eauto using good_refl|].
  assert (obj <> 0) as Hne by tauto. assert (type <> TypeInvalid) as Hty by tauto.
  assert (w_heap w !! obj = None) as Hnone by (apply eq_None_not_Some; tauto).
  eexists. split; [done|].
  unfold KObjectInit. replace (obj =? 0) with false by lia. rewrite bool_decide_eq_false_2 by done.
  assert (heap_le (w_heap w) (<[obj := MkObject type 1 destroy]> (w_heap w))) as Hle.
  { intros a o Ho. rewrite lookup_insert_ne by congruence. by exists o. }
  apply (world_heap w _ (w_flights w) (obj :: w_held w) (w_destroyed w)); try done; try (by apply Hw).
  - apply heap_set_counts; [exact (wk_counts _ Hw) | simpl; ulia | done].
  - constructor; [done | apply wk_held, Hw].
  - intros a Ha. simpl. rewrite cnt_set. simpl. unfold one_if at 1, cnt. case_bool_decide as He.
    + subst. rewrite Hnone, Z.eqb_refl. lia.
    + replace (a =? obj) with false by lia. lia.
  - by apply dead_le.
Qed.

Lemma zero_table_ok fl k :
  (forall f, f ∈ fl -> (loc f).1 <> k) -> table_ok fl k zero_table.
Proof.
  intros Hfl.
  assert (Hz : forall l, l.1 = k -> forall f, f ∈ fl -> here f l = 0).
  { intros l Hl f Hf. apply (here_off _ _ _ eq_refl). intros E. by apply (Hfl f Hf); rewrite E. }
  assert (Hzero : forall i s, table_slots zero_table !! i = Some s -> s = zero_slot).
  { intros i s Hs. by apply lookup_replicate in Hs as [-> _]. }
  split; try done.
  - split; [done | done |]. intros i s ->%Hzero. apply zero_slot_ok.
  - intros i s Hi ->%Hzero. split; simpl.
    + rewrite sumZ_zero; [done|]. intros f Hf. pose proof (Hz (k, Some i) eq_refl f Hf). by destruct f.
    + rewrite sumZ_zero; [done|]. intros f Hf. pose proof (Hz (k, Some i) eq_refl f Hf). by destruct f.
    + intros f Hf Hl. by destruct (Hfl f Hf); rewrite Hl.
  - symmetry. apply sumZ_zero. intros f Hf. unfold op_at. specialize (Hfl f Hf).
    destruct (loc f) as [k' [i|]]; [|done]. by rewrite bool_decide_eq_false_2.
  - apply sumZ_zero. intros f Hf. by apply Hz.
  - intros f Hf Hl. by destruct (Hfl f Hf); rewrite Hl.
Qed.

Lemma open_table_step w :
  world_ok w -> exists w', exec w AOpenTable = Some w' /\ good_step w w'.
Proof.
  intros Hw. eexists. split; [done|].
  assert (Hle : tables_le (w_tables w) (w_tables w ++ [zero_table])).
  { intros k t Hk. exists t. split; [by apply lookup_app_l_Some|]. intros i s Hs. by exists s. }
  assert (Hlook : forall k t, (w_tables w ++ [zero_table]) !! k = Some t ->
    w_tables w !! k = Some t \/ k = length (w_tables w) /\ t = zero_table).
  { intros k t [Hk|[Hge Hk]]%lookup_app_Some; [by left|]. right.
    apply list_lookup_singleton_Some in Hk as [Hk <-]. split; [lia | done]. }
  split; [|done]. split; simpl; try (by apply Hw).
  - intros k t [Hk|[-> ->]]%Hlook; [by apply Hw|]. apply zero_table_ok. intros f Hf.
    pose proof (wk_placed _ Hw) as Hp. rewrite Forall_forall in Hp. destruct (Hp f Hf). lia.
  - eapply Forall_impl; [apply (wk_placed _ Hw)|]. intros f [Hl Hf]. split; [|done].
    rewrite length_app. simpl. lia.
  - intros a Ha. rewrite (wk_refs _ Hw a Ha). unfold refs. simpl. rewrite sumZ_app. simpl.
    unfold table_refs at 3. rewrite (sumZ_zero _ (table_slots zero_table)); [lia|].
    intros s Hs. apply elem_of_replicate in Hs as [-> _]. by apply one_if_null.
  - intros k t i s [Hk|[-> ->]]%Hlook Hs Hb; [by eapply (wk_rights _ Hw)|].
    apply lookup_replicate in Hs as [-> _]. by destruct Hb.
  - destruct (wk_issued _ Hw) as [Hnd Hiss]. split; [done|]. by eapply issued_mono.
Qed.

Lemma exec_good w a : world_ok w -> exists w', exec w a = Some w' /\ good_step w w'.
Proof.
  intros Hw. destruct a; eauto using create_step, open_table_step, acquire_held_step,
    release_held_step, insert_step, reserve_step, handle_publish_step, handle_abort_step, lookup_step, detach_step,
    replace_step, adopt_step, drain_step.
  simpl. destruct (w_flights w !! n) as [f|] eqn:Hn; [|eauto using good_refl].
  destruct f as [| | | | | |k []]; eauto using acquired_step, unpin_step, detaching_step, adopting_step,
    quiesce_step, collect_step, drain_finish_step, releasing_step.
Qed.

Lemma run_good acts : forall w, world_ok w -> exists w', run_from w acts = Some w' /\ good_step w w'.
Proof.
  induction acts as [|a acts IH]; intros w Hw; simpl; [eauto using good_refl|].
  destruct (exec_good w a Hw) as (w1 & -> & Hw1 & Hle1).
  destruct (IH w1 Hw1) as (w2 & -> & Hw2 & Hle2). exists w2. split; [done|]. split; [done|].
  by eapply tables_le_trans.
Qed.

Lemma boot_world_ok : world_ok boot_world.
Proof.
  split; simpl; try done; try (by constructor).
  - intros k d obj rights Hin. by apply elem_of_nil in Hin.
  - split; [constructor | intros a Hin; by apply elem_of_nil in Hin].
  - split; [constructor | intros k h Hin; by apply elem_of_nil in Hin].
Qed.

(** ** Refusals of a table that is not open *)

(** What every operation that names table [k] does once the drain has begun. *)
Definition refuses (h : Heap) (t : HandleTable) : Prop :=
  (forall obj rights, exists e, HandleTableInsert h t obj rights = Some (t, inl e))
  /\ (forall type rights last, exists e, HandleTableReserve t type rights last = Some (t, last, inl e))
  /\ (forall r obj, 0 <= res_handle r -> exists e, HandleTablePublish h t r obj = Some (t, inl e))
  /\ (forall r, 0 <= res_handle r -> exists e, HandleTableAbort t r = Some (t, inl e))
  /\ (forall handle expected required, 0 <= handle ->
        HandleTableRights t handle = Some 0
        /\ (exists e, RetainSnapshotPin h t handle expected required = Some (t, inl e))
        /\ (exists e, HandleTableDetachBegin h t handle expected required = Some (t, inl e))
        /\ (exists e, HandleReplace t handle required = Some (t, inl e))
        /\ (forall obj, exists e,
              HandleTableAdoptReplaceBegin h t handle obj required expected = Some (t, inl e))).

Lemma not_open_refuses h t : rows_ok t -> table_state t <> TableOpen -> refuses h t.
Proof.
  intros Ht Hst. unfold refuses. split; [|split; [|split; [|split]]].
  - intros obj rights. destruct (insert_spec h t obj rights Ht) as (t' & [e|x] & -> & Hr).
    + destruct Hr as [-> _]. by exists e.
    + destruct Hr as (i & s & _ & _ & _ & _ & Ho & _). done.
  - intros type rights last. unfold HandleTableReserve. rewrite (bool_decide_eq_false_2 (table_state t = _)) by done.
    simpl. destruct (_ || _); [by eexists|]. destruct (lacks _ _); by eexists.
  - intros r obj Hnn. destruct (publish_spec h t r obj Ht Hnn) as (t' & [e|x] & -> & Hr).
    + subst. by exists e.
    + by destruct Hr as (d & s & _ & _ & _ & _ & _ & _ & _ & Ho & _).
  - intros r Hnn. destruct (abort_spec t r Ht Hnn) as (t' & [e|x] & -> & Hr).
    + subst. by exists e.
    + by destruct Hr as (d & s & _ & _ & _ & _ & _ & Ho & _).
  - intros handle expected required Hnn. split; [|split; [|split; [|split]]].
    + unfold HandleTableRights. rewrite decode_nospec by done.
      destruct (HandleDecode handle); [|done]. by rewrite bool_decide_eq_false_2.
    + destruct (pin_spec h t handle expected required Ht Hnn) as (t' & [e|x] & -> & Hr); [subst; by exists e|].
      by destruct Hr as (d & s & _ & (Ho & _) & _).
    + destruct (detach_begin_spec h t handle expected required Ht Hnn) as (t' & [e|x] & -> & Hr);
        [subst; by exists e|]. by destruct Hr as (s & _ & (Ho & _) & _).
    + destruct (replace_spec t handle required Ht Hnn) as (t' & [e|x] & -> & Hr); [subst; by exists e|].
      by destruct Hr as (d & s & _ & (Ho & _) & _).
    + intros obj. destruct (adopt_begin_spec h t handle obj required expected Ht Hnn)
        as (t' & [e|x] & -> & Hr); [subst; by exists e|]. by destruct Hr as (s & _ & (Ho & _) & _).
Qed.

(** ** Finishing what is in flight *)

(** How many sections a flight can still need: a drain has at most 63
    victims. *)
Definition weight (f : Flight) : Z :=
  match f with
  | FPinned _ _ => 2
  | FRetained _ _ _ | FDetaching _ _ | FAdopting _ _ _ _ => 1
  | FDraining _ => 68
  | FCollecting _ => 67
  | FReleasing _ victims => Z.of_nat (length victims) + 1
  end.

Definition is_lookup (f : Flight) : Prop := match f with FPinned _ _ | FRetained _ _ _ => True | _ => False end.
Definition is_drain (f : Flight) : Prop := (loc f).2 = None.
#[export] Instance is_lookup_dec f : Decision (is_lookup f).
Proof. destruct f; apply _. Defined.
#[export] Instance is_drain_dec f : Decision (is_drain f).
Proof. unfold is_drain. apply _. Defined.

(** The waits between flights: closers wait for lookups, drains for both. *)
Definition unblocked (fl : list Flight) (f : Flight) : Prop :=
  is_lookup f \/ (Forall (fun g => ~ is_lookup g) fl /\ (is_drain f -> Forall is_drain fl)).

Lemma some_unblocked fl : fl <> [] -> exists n f, fl !! n = Some f /\ unblocked fl f.
Proof.
  intros Hne. destruct (decide (Exists is_lookup fl)) as [Hex|Hno].
  { apply Exists_exists in Hex as (f & [n Hn]%list_elem_of_lookup & Hf). exists n, f. by split; [|left]. }
  apply not_Exists_Forall in Hno; [|apply _].
  destruct (decide (Forall is_drain fl)) as [Hd|Hnd].
  - destruct fl as [|f fl]; [done|]. exists 0%nat, f. split; [done|]. right. by split.
  - apply not_Forall_Exists in Hnd; [|apply _].
    apply Exists_exists in Hnd as (f & [n Hn]%list_elem_of_lookup & Hf). exists n, f.
    split; [done|]. right. by split.
Qed.

Lemma no_lookup_no_pins fl k i : Forall (fun g => ~ is_lookup g) fl -> sumZ (pin_at k i) fl = 0.
Proof.
  intros Hno. rewrite Forall_forall in Hno. apply sumZ_zero. intros f Hf. specialize (Hno f Hf).
  by destruct f.
Qed.

Lemma all_drains_quiet fl k : Forall is_drain fl -> sumZ (op_at k) fl = 0.
Proof.
  intros Hd. rewrite Forall_forall in Hd. apply sumZ_zero. intros f Hf. specialize (Hd f Hf).
  unfold is_drain in Hd. unfold op_at. by destruct (loc f) as [? [?|]].
Qed.

Lemma drain_rows_victims rows : forall count rows' victims,
  drain_rows rows count = Some (rows', victims) -> (length victims <= length rows)%nat.
Proof.
  induction rows as [|s rows IH]; intros c rows' victims Hdr; simpl in Hdr; [by simplify_eq/=|].
  destruct (negb _); [done|]. destruct (slot_state s);
    repeat (destruct (negb _); [done|]);
    destruct (drain_rows rows _) as [[rs vs]|] eqn:E; try done; simplify_eq/=; apply IH in E; lia.
Qed.

Lemma weight_swap fl n f f' :
  fl !! n = Some f -> weight f' < weight f -> sumZ weight (delete n fl ++ [f']) < sumZ weight fl.
Proof. intros Hn Hlt. rewrite sumZ_app, (sumZ_delete _ _ _ _ Hn). simpl. lia. Qed.

Lemma weight_gone fl n f : fl !! n = Some f -> sumZ weight (delete n fl) < sumZ weight fl.
Proof.
  intros Hn. rewrite (sumZ_delete _ _ _ _ Hn). assert (0 < weight f) by (destruct f; simpl; lia). lia.
Qed.

(** An unblocked closer finds its row without pins. *)
Lemma closer_ready w n f k d t :
  world_ok w -> w_flights w !! n = Some f -> loc f = (k, Some (Z.to_nat (dec_slot d))) ->
  close_at k (Z.to_nat (dec_slot d)) f = 1 -> 0 < dec_slot d < kHandleTableCapacity ->
  Forall (fun g => ~ is_lookup g) (w_flights w) -> w_tables w !! k = Some t ->
  exists s, slot_of t (dec_slot d) = Some s /\ slot_ok s /\ slot_state s = SlotClosing /\ fits f s
    /\ acquisition_pins s = 0 /\ slot_obj s <> 0 /\ 0 < active_operations t.
Proof.
  intros Hw Hn Hl Hc Hsl Hno Hk.
  destruct (flight_row w n f k t (dec_slot d) Hw Hn Hk Hl Hsl) as (s & Hs & Hrow & Hok & Hfit & Ha & _ & Hcl).
  specialize (Hcl Hc). exists s. split_and!; try done.
  - by rewrite (ro_pins _ _ _ _ Hrow), no_lookup_no_pins.
  - destruct Hok as (_ & _ & Hm). rewrite Hcl in Hm. by destruct Hm.
Qed.

Lemma advance_lighter w n f w' :
  world_ok w -> w_flights w !! n = Some f -> unblocked (w_flights w) f -> advance w n f = Some w' ->
  sumZ weight (w_flights w') < sumZ weight (w_flights w).
Proof.
  intros Hw Hn Hun Hadv. destruct (flight_table w n f Hw Hn) as (t & Hk & Hpl).
  destruct f as [k p|k p ok|k d|k d obj rights|k|k|k [|v vs]]; simpl in Hadv, Hk; try rewrite Hk in Hadv.
  - destruct (KObjectAcquire _ _). simplify_eq/=. by eapply weight_swap.
  - destruct (RetainSnapshotUnpin t p); simplify_eq/=. by eapply weight_gone.
  - destruct Hun as [[]|[Hno _]]. destruct Hpl as [_ Hsl].
    destruct (closer_ready w n _ k d t Hw Hn eq_refl (here_on _ _ eq_refl) Hsl Hno Hk)
      as (s & Hs & Hok & Hst & Hfit & Hp & Hobj & Ha).
    rewrite (detach_poll_spec t d s), Hp in Hadv by done. simpl in Hadv.
    replace (slot_obj s =? 0) with false in Hadv by lia. simplify_eq/=. by eapply weight_gone.
  - destruct Hun as [[]|[Hno _]]. destruct Hpl as [_ [Hsl _]].
    destruct (closer_ready w n _ k d t Hw Hn eq_refl (here_on _ _ eq_refl) Hsl Hno Hk)
      as (s & Hs & Hok & Hst & [Hfit Hlt] & Hp & Hobj & Ha).
    rewrite (adopt_poll_spec t d s), Hp in Hadv by done. simpl in Hadv.
    replace (slot_obj s =? 0) with false in Hadv by lia. simplify_eq/=. by eapply weight_gone.
  - destruct Hun as [[]|[_ Hd]]. unfold HandleTableDrainQuiescent in Hadv.
    rewrite (wk_active w k t), all_drains_quiet in Hadv by (done || by apply Hd).
    simplify_eq/=. by eapply weight_swap.
  - unfold HandleTableDrainCollect in Hadv. pose proof (rows_length _ (wk_table_rows _ _ _ Hw Hk)) as Hlen.
    destruct (negb _); [done|]. destruct (table_slots t) as [|s0 rows]; [done|].
    destruct (drain_rows rows 0) as [[rows' victims]|] eqn:Hdr; simplify_eq/=.
    eapply weight_swap; [done|]. simpl.
    apply drain_rows_victims in Hdr. simpl in Hlen. lia.
  - destruct (HandleTableDrainFinish t); simplify_eq/=. by eapply weight_gone.
  - unfold drop_ref in Hadv. simpl in Hadv. destruct (KObjectRelease _ _) as [[h' dead]|]; simplify_eq/=.
    eapply weight_swap; [done|]. simpl. lia.
Qed.

Lemma flights_finish : forall m w, world_ok w -> sumZ weight (w_flights w) <= Z.of_nat m ->
  exists steps w', run_from w (AStep <$> steps) = Some w' /\ world_ok w' /\ w_flights w' = [].
Proof.
  induction m as [|m IH]; intros w Hw Hm.
  - exists [], w. split; [done|]. split; [done|]. destruct (w_flights w) as [|f fl]; [done|]. exfalso.
    simpl in Hm. assert (0 < weight f) by (destruct f; simpl; lia).
    assert (0 <= sumZ weight fl) by (apply sumZ_nonneg; intros [] _; simpl; lia). lia.
  - destruct (decide (w_flights w = [])) as [|Hne]; [by exists [], w|].
    destruct (some_unblocked _ Hne) as (n & f & Hn & Hun).
    destruct (exec_good w (AStep n) Hw) as (w1 & He & Hw1 & _).
    assert (advance w n f = Some w1) as Hadv by (simpl in He; by rewrite Hn in He).
    pose proof (advance_lighter w n f w1 Hw Hn Hun Hadv).
    destruct (IH w1 Hw1 ltac:(lia)) as (steps & w2 & Hrun & Hw2 & Hdone).
    exists (n :: steps), w2. split; [|done]. rewrite fmap_cons. cbn [run_from]. by rewrite He.
Qed.

(** ** Theorems *)

(** C8: no assertion of the handle table can fail.  Whatever operations any
    number of callers interleave on any number of tables, critical section
    by critical section, the run goes through: a pinned row keeps its
    object until it is unpinned, a closing row keeps its identity, free rows
    are clean, encodings succeed, and a drain finds every row quiescent.  The
    pin count of a row and the operation count of a table are exactly the
    numbers of flights that are there. *)
Theorem handle_table_never_panics (acts : list Action) :
  exists w, run_from boot_world acts = Some w /\
    forall k t, w_tables w !! k = Some t ->
      active_operations t = sumZ (op_at k) (w_flights w) /\
      forall i s, (0 < i)%nat -> table_slots t !! i = Some s ->
        acquisition_pins s = sumZ (pin_at k i) (w_flights w)
        /\ (slot_state s = SlotClosing <-> sumZ (close_at k i) (w_flights w) = 1).
Proof.
  destruct (run_good acts boot_world boot_world_ok) as (w & Hrun & Hw & _). exists w. split; [done|].
  intros k t Hk. pose proof (wk_tables _ Hw _ _ Hk) as Ht. split; [apply Ht|].
  intros i s Hi Hs. destruct (tk_row _ _ _ Ht i s Hi Hs) as [Hp Hc _]. split; [done|].
  rewrite Hc. case_bool_decide; simpl; naive_solver.
Qed.

Lemma refcount_cnt h a : a <> 0 -> KObjectRefcount h a = cnt h a.
Proof.
  intros Ha. unfold KObjectRefcount, cnt. destruct (h !! a); [|done].
  by replace (a =? 0) with false by lia.
Qed.

(** C9: reference counts are exact.  At every point of every interleaving
    the count of an object is the number of references to it in rows, in
    the hands of callers and in flights; so an object a row names is alive,
    and an object whose destroy callback has run has no reference left
    anywhere and is destroyed only once. *)
Theorem handle_references_exact (acts : list Action) :
  exists w, run_from boot_world acts = Some w /\
    (forall a, a <> 0 -> KObjectRefcount (w_heap w) a = refs a w)
    /\ (forall k t i s, w_tables w !! k = Some t -> table_slots t !! i = Some s ->
          slot_obj s <> 0 -> 0 < KObjectRefcount (w_heap w) (slot_obj s))
    /\ NoDup (w_destroyed w)
    /\ (forall a, a ∈ w_destroyed w -> refs a w = 0).
Proof.
  destruct (run_good acts boot_world boot_world_ok) as (w & Hrun & Hw & _). exists w. split; [done|].
  split; [|split; [|split; [apply Hw|]]].
  - intros a Ha. rewrite refcount_cnt by done. by apply wk_refs.
  - intros k t i s Hk Hs Hne. rewrite refcount_cnt, (wk_refs _ Hw) by done.
    destruct (refs_nonneg_parts w (slot_obj s)) as (_ & ? & ?). unfold refs.
    assert (Hrow : forall x, x ∈ table_slots t -> 0 <= slot_ref (slot_obj s) x)
      by (intros; unfold slot_ref, one_if; by case_match).
    pose proof (sumZ_member _ _ _ Hrow (list_elem_of_lookup_2 _ _ _ Hs)) as Hin.
    unfold slot_ref at 1, one_if in Hin. rewrite Z.eqb_refl in Hin.
    assert (Htab : forall x, x ∈ w_tables w -> 0 <= table_refs (slot_obj s) x).
    { intros x _. apply sumZ_nonneg. intros y _. unfold slot_ref, one_if. by case_match. }
    pose proof (sumZ_member _ _ _ Htab (list_elem_of_lookup_2 _ _ _ Hk)) as Hin2.
    unfold table_refs at 1 in Hin2. lia.
  - intros a Ha. destruct (proj2 (wk_dead _ Hw) a Ha) as (Hne & o & Ho & Hz).
    rewrite <- (wk_refs _ Hw a Hne). unfold cnt. by rewrite Ho.
Qed.

(** A token that once named a row and no longer does: the row has moved to a
    later generation, or the token's generation is closing or closed. *)
Definition token_closed (w : World) (k : nat) (handle : Z) : Prop :=
  exists t d s, w_tables w !! k = Some t /\ HandleDecode handle = Some d
    /\ slot_of t (dec_slot d) = Some s
    /\ (dec_generation d < slot_generation s
        \/ slot_generation s = dec_generation d
           /\ slot_state s <> SlotReserved /\ slot_state s <> SlotLive).

Lemma stale_token h t handle d s :
  rows_ok t -> 0 <= handle -> HandleDecode handle = Some d -> slot_of t (dec_slot d) = Some s ->
  4 * dec_generation d + 1 < rank s ->
  HandleTableRights t handle = Some 0
  /\ (forall expected required, exists e,
        RetainSnapshotPin h t handle expected required = Some (t, inl e))
  /\ (forall expected required, exists e,
        HandleTableDetachBegin h t handle expected required = Some (t, inl e)).
Proof.
  intros Ht Hnn Hd Hs Hrank.
  assert (Hno : ~ (slot_state s = SlotLive /\ slot_generation s = dec_generation d)).
  { intros [Hst Hg]. unfold rank in Hrank. rewrite Hst in Hrank. lia. }
  split; [|split].
  - unfold HandleTableRights. rewrite decode_nospec, Hd, Hs by done.
    destruct (negb _); [done|]. destruct (SlotMatches s _) eqn:Hm; [|done].
    by apply slot_matches_inv in Hm as (? & _ & ?); destruct Hno.
  - intros expected required.
    destruct (pin_spec h t handle expected required Ht Hnn) as (t' & [e|p] & -> & Hr); [subst; by exists e|].
    destruct Hr as (d' & s' & Hd' & (_ & Hs' & _ & Hst & Hg & _) & _). simplify_eq. by destruct Hno.
  - intros expected required.
    destruct (detach_begin_spec h t handle expected required Ht Hnn) as (t' & [e|d'] & -> & Hr);
      [subst; by exists e|].
    destruct Hr as (s' & Hd' & (_ & Hs' & _ & Hst & Hg & _) & _). simplify_eq. by destruct Hno.
Qed.

(** C10: tokens never come back.  Every token a table issues is new, and once
    a token has been closed or replaced, nothing any caller does afterwards
    makes it resolve again: it carries no rights, and lookup and close
    refuse it, although its row may have been reused many times. *)
Theorem handle_tokens_never_return (before after : list Action) :
  exists w1 w2, run_from boot_world before = Some w1 /\ run_from w1 after = Some w2
    /\ NoDup (w_issued w2)
    /\ forall k handle t, 0 <= handle -> token_closed w1 k handle -> w_tables w2 !! k = Some t ->
         HandleTableRights t handle = Some 0
         /\ (forall expected required, exists e,
               RetainSnapshotPin (w_heap w2) t handle expected required = Some (t, inl e))
         /\ (forall expected required, exists e,
               HandleTableDetachBegin (w_heap w2) t handle expected required = Some (t, inl e)).
Proof.
  destruct (run_good before boot_world boot_world_ok) as (w1 & Hrun1 & Hw1 & _).
  destruct (run_good after w1 Hw1) as (w2 & Hrun2 & Hw2 & Hle).
  exists w1, w2. split; [done|]. split; [done|]. split; [apply Hw2|].
  intros k handle t Hnn (t1 & d & s & Hk1 & Hd & Hs & Hclosed) Hk2.
  destruct (Hle k t1 Hk1) as (t' & Hk' & Hrows). assert (t' = t) as -> by congruence.
  destruct (Hrows _ _ Hs) as (s' & Hs' & Hrank).
  eapply stale_token; try done; [by eapply wk_table_rows|].
  assert (4 * dec_generation d + 1 < rank s); [|lia].
  unfold rank. destruct Hclosed as [Hlt|(Hg & Hnr & Hnl)]; destruct (slot_state s); try done; lia.
Qed.

Lemma handle_tokens_never_return_witness :
  exists w2 t, run_from boot_world
      [ACreate 4096 TypeMailbox true; AOpenTable; AInsert 0 0 71; AReplace 0 4097 1;
       ALookup 0 8193 TypeMailbox 1] = Some w2
    /\ w_tables w2 !! 0%nat = Some t
    /\ HandleTableRights t 8193 = Some 1 /\ HandleTableRights t 4097 = Some 0.
Proof.
  destruct (handle_tokens_never_return
      [ACreate 4096 TypeMailbox true; AOpenTable; AInsert 0 0 71; AReplace 0 4097 1]
      [ALookup 0 8193 TypeMailbox 1]) as (w1 & w2 & H1 & H2 & _ & H).
  specialize (H 0%nat 4097). vm_compute in H1. injection H1 as <-. vm_compute in H2. injection H2 as <-.
  eexists _, _. split; [vm_compute; reflexivity|]. split; [reflexivity|]. split; [vm_compute; reflexivity|].
  apply H; [lia | | reflexivity].
  eexists _, _, _. split; [reflexivity|]. split; [vm_compute; reflexivity|].
  split; [vm_compute; reflexivity|]. left. vm_compute. reflexivity.
Defined.

(** Authority is bounded.  On every interleaving a row that names an
    object carries at least one right and only rights its object's type
    allows, whatever mixture of insertion, reservation, replacement and
    adoption produced it; in particular no service endpoint can ever be
    duplicated or transferred through a handle. *)
Theorem handle_rights_bounded (acts : list Action) :
  exists w, run_from boot_world acts = Some w /\
    forall k t i s, w_tables w !! k = Some t -> table_slots t !! i = Some s -> slot_obj s <> 0 ->
      slot_rights s <> 0
      /\ covers (TypeAllowedRights (type_of (w_heap w) (slot_obj s))) (slot_rights s) = true
      /\ (type_of (w_heap w) (slot_obj s) = TypeServiceEndpoint ->
            Z.land (slot_rights s) (Z.lor kHandleRightDuplicate kHandleRightTransfer) = 0).
Proof.
  destruct (run_good acts boot_world boot_world_ok) as (w & Hrun & Hw & _). exists w. split; [done|].
  intros k t i s Hk Hs Hne. pose proof (rows_slots _ (wk_table_rows _ _ _ Hw Hk) _ _ Hs) as (_ & _ & Hm).
  assert (bears_object s) as Hb.
  { unfold bears_object. destruct (slot_state s); auto; exfalso; apply Hne.
    - by destruct Hm as [[? _]%slot_clear_fields _].
    - by destruct Hm as [[? _]%slot_clear_fields _].
    - apply Hm. }
  destruct (wk_rights _ Hw k t i s Hk Hs Hb) as [Hr0 Hl]. apply lacks_covers in Hl as Hc.
  split; [done|]. split; [done|]. intros Hty. rewrite Hty in Hc. unfold covers in Hc.
  apply Z.eqb_eq in Hc. rewrite <- Hc, (Z.land_comm _ (slot_rights s)), <- Z.land_assoc.
  by rewrite Z.land_0_r.
Qed.

(** Drain is terminal.  From the moment a drain begins no operation is
    admitted any more, and once it has finished no row holds an object, a
    reservation or a pin, nothing is in progress, and no row is live. *)
Theorem handle_drain_is_terminal (acts : list Action) :
  exists w, run_from boot_world acts = Some w /\
    forall k t, w_tables w !! k = Some t ->
      (table_state t <> TableOpen -> refuses (w_heap w) t)
      /\ (table_state t = TableClosed ->
            active_operations t = 0 /\ HandleTableLiveCount t = 0
            /\ forall i s, table_slots t !! i = Some s -> slot_is_clear s = true).
Proof.
  destruct (run_good acts boot_world boot_world_ok) as (w & Hrun & Hw & _). exists w. split; [done|].
  intros k t Hk. pose proof (wk_table_rows _ _ _ Hw Hk) as Hrows.
  split; [by apply not_open_refuses|]. intros Hst.
  destruct (tk_closed _ _ _ (wk_tables _ Hw _ _ Hk) Hst) as [Ha Hc].
  split; [done|]. split; [|done]. unfold HandleTableLiveCount. apply sumZ_zero. intros s Hs.
  apply list_elem_of_lookup in Hs as [i Hs]. rewrite lookup_drop in Hs.
  unfold is_live. rewrite bool_decide_eq_false_2; [done|]. intros Hl.
  destruct (rows_slots _ Hrows _ _ Hs) as (_ & _ & Hm). rewrite Hl in Hm.
  apply Hc, slot_clear_fields in Hs. tauto.
Qed.

(** C11: nothing waits for ever.  From any point of any interleaving, letting
    the operations already in flight take their next sections finishes all of
    them: lookups never wait, a close or replacement waits only for lookups,
    a drain only for those, so there is no cyclic wait. *)
Theorem handle_operations_finish (acts : list Action) :
  exists w steps w', run_from boot_world acts = Some w
    /\ run_from w (AStep <$> steps) = Some w' /\ w_flights w' = []
    /\ forall k t, w_tables w' !! k = Some t ->
         active_operations t = 0 /\ table_state t <> TableDraining.
Proof.
  destruct (run_good acts boot_world boot_world_ok) as (w & Hrun & Hw & _).
  destruct (flights_finish (Z.to_nat (sumZ weight (w_flights w))) w Hw ltac:(lia))
    as (steps & w' & Hrun' & Hw' & Hdone).
  exists w, steps, w'. split; [done|]. split; [done|]. split; [done|].
  intros k t Hk. pose proof (wk_tables _ Hw' _ _ Hk) as Ht. rewrite Hdone in Ht. split; [apply Ht|].
  pose proof (tk_drain _ _ _ Ht) as Hd. simpl in Hd. intros Hst. by rewrite Hst in Hd.
Qed.
