(* ===== verification/HandleTableSeq.v ===== *)
(** * Handle tables: uninterrupted operations

    What an operation does when it runs to its end without interference:
    insert, look up and close give back what was put in, duplication never
    amplifies rights and keeps the counts balanced on every path, and the
    rights a process starts with follow its capabilities. *)

From S2P Require Import Prelude KObject HandleTable HandleTableOps HandleTableSpec.

(** ** Retained lookup leaves the table as it was *)

Lemma pin_unpin t i s n m :
  slot_of t i = Some s -> slot_pins s n = s -> m = active_operations t ->
  with_active (with_slot t i (slot_pins s n)) m = t.
Proof.
  intros Hs -> ->. unfold with_active, with_slot. simpl. rewrite list_insert_id by done. by destruct t.
Qed.

Lemma slot_pins_id s n : n = acquisition_pins s -> slot_pins s n = s.
Proof. intros ->. by destruct s. Qed.

Lemma retain_spec h t handle expected required :
  rows_ok t -> 0 <= handle -> 0 <= active_operations t ->
  exists h' r, RetainSnapshot h t handle expected required = Some (h', t, r) /\
    match r with
    | inl _ => h' = h
    | inr (obj, rights) =>
        exists d s, HandleDecode handle = Some d /\ addressed t d s /\ obj = slot_obj s
          /\ rights = slot_rights s /\ lacks rights required = false
          /\ KObjectAcquire h obj = (true, h')
          /\ (expected = TypeInvalid \/ type_of h obj = expected)
    end.
Proof.
  intros Ht Hnn Ha. unfold RetainSnapshot.
  destruct (pin_spec h t handle expected required Ht Hnn) as (t' & [e|p] & -> & Hr).
  { subst. by eexists _, _. }
  destruct Hr as (d & s & Hd & Hadd & Hty & Hl & _ & _ & -> & ->).
  pose proof Hadd as (_ & Hs & Hok & Hst & _). destruct Hok as (_ & Hp & _).
  destruct (KObjectAcquire h (slot_obj s)) as [ok h'] eqn:Hacq. simpl pin_obj. rewrite Hacq.
  set (t' := with_active (with_slot t _ _) _).
  assert (slot_of t' (dec_slot d) = Some (slot_pins s (acquisition_pins s + 1))) as Hs'.
  { unfold slot_of, t'. simpl. apply list_lookup_insert_eq. by eapply lookup_lt_Some. }
  rewrite (unpin_spec t' (MkPin (dec_slot d) (slot_obj s) (slot_rights s)) _ Hs')
    by (done || simpl; lia). simpl pin_slot.
  assert (with_active (with_slot t' (dec_slot d)
            (slot_pins (slot_pins s (acquisition_pins s + 1))
               (acquisition_pins (slot_pins s (acquisition_pins s + 1)) - 1)))
            (active_operations t' - 1) = t) as ->.
  { unfold t', with_active, with_slot. simpl. rewrite list_insert_insert_eq.
    apply (pin_unpin t (dec_slot d) s); [done | apply slot_pins_id; lia | lia]. }
  destruct ok; simpl.
  - eexists _, _. split; [done|]. by exists d, s.
  - eexists _, _. split; [done|]. unfold KObjectAcquire in Hacq. by guards_in Hacq.
Qed.

Definition live1 (s : HandleSlot) : Z := if is_live s then 1 else 0.

Lemma live_count_row t i s s' hint active :
  0 < i -> slot_of t i = Some s ->
  HandleTableLiveCount (row_update t (Z.to_nat i) s' hint active)
    = HandleTableLiveCount t - live1 s + live1 s'.
Proof.
  intros Hi Hs. unfold HandleTableLiveCount. fold live1. simpl. unfold slot_of in Hs.
  destruct (Z.to_nat i) as [|j] eqn:E; [lia|].
  destruct (table_slots t) as [|s0 rows]; [done|]. simpl in *. rewrite !drop_0.
  by rewrite (sumZ_insert _ _ _ _ _ Hs).
Qed.

Lemma rights_of_live t handle d s :
  0 <= handle -> HandleDecode handle = Some d -> table_state t = TableOpen ->
  slot_of t (dec_slot d) = Some s -> slot_ok s -> slot_state s = SlotLive ->
  slot_generation s = dec_generation d -> HandleTableRights t handle = Some (slot_rights s).
Proof.
  intros Hnn Hd Ho Hs (_ & _ & Hm) Hst Hg. rewrite Hst in Hm. destruct Hm as (Hobj & Hn & Hty & _).
  unfold HandleTableRights. rewrite decode_nospec, Hd, Hs by done.
  rewrite bool_decide_eq_true_2 by done. simpl. unfold SlotMatches.
  rewrite Hst, Hg, Hn, Hty, Z.eqb_refl. by replace (slot_obj s =? 0) with false by lia.
Qed.

(** The row a successful insert leaves behind. *)
Lemma inserted_row h t obj rights t1 handle :
  rows_ok t -> HandleTableInsert h t obj rights = Some (t1, inr handle) ->
  exists i s g, 0 < i < kHandleTableCapacity /\ slot_of t i = Some s /\ slot_state s = SlotFree
    /\ 0 < g <= kHandleGenerationMax /\ 0 <= handle /\ obj <> 0
    /\ HandleDecode handle = Some (MkDecoded i g)
    /\ slot_of t1 i = Some (filled obj rights 0 g TypeInvalid SlotLive)
    /\ t1 = row_update t (Z.to_nat i) (filled obj rights 0 g TypeInvalid SlotLive) i (active_operations t)
    /\ rows_ok t1 /\ table_state t = TableOpen /\ rights_ok h obj rights.
Proof.
  intros Ht Hins. destruct (insert_spec h t obj rights Ht) as (t' & r & Hins' & Hr).
  rewrite Hins in Hins'. simplify_eq.
  destruct Hr as (i & s & Hi & Hs & Hf & Hok & Ho & Hne & Hro & _ & -> & ->).
  destruct (free_slot_fields s Hok Hf) as (Hg & _).
  exists i, s, (slot_generation s + 1). split_and!; try done; try lia.
  - rewrite encode_value by lia. hlia.
  - apply decode_encode; lia.
  - apply list_lookup_insert_eq. by eapply lookup_lt_Some.
  - destruct (rows_ok_with_slot t i (filled obj rights 0 (slot_generation s + 1) TypeInvalid SlotLive) Ht)
      as [Hl _ Hsl]; [apply filled_live_ok; [done | lia]|]. split; simpl; [done | lia | done].
Qed.

Lemma allowed_within_all type : lacks kHandleRightAll (TypeAllowedRights type) = false.
Proof. by destruct type. Qed.

Lemma live_row_hit h t d s : addressed t d s -> live_row h t d TypeInvalid = Some (inr s).
Proof.
  intros (Ho & Hs & (_ & _ & Hm) & Hst & Hg & _). rewrite Hst in Hm. destruct Hm as (Hobj & Hn & Hty & _).
  unfold live_row. rewrite Ho, Hs. simpl. unfold SlotMatches.
  rewrite Hst, Hg, Hn, Hty, Z.eqb_refl. by replace (slot_obj s =? 0) with false by lia.
Qed.

(** A lookup that asks for no more than the row has succeeds. *)
Lemma retain_hit h t handle d s required o :
  rows_ok t -> 0 <= handle -> HandleDecode handle = Some d -> addressed t d s ->
  lacks kHandleRightAll required = false -> lacks (slot_rights s) required = false ->
  acquisition_pins s = 0 -> 0 <= active_operations t < u32_max ->
  h !! slot_obj s = Some o -> 0 < ko_refcount o < u32_max ->
  RetainSnapshot h t handle TypeInvalid required
    = Some (<[slot_obj s := MkObject (ko_type o) (ko_refcount o + 1) (ko_destroy o)]> h, t,
            inr (slot_obj s, slot_rights s)).
Proof.
  intros Ht Hnn Hd Hadd Hall Hl Hp Ha Ho Hc.
  destruct (retain_spec h t handle TypeInvalid required Ht Hnn ltac:(lia)) as (h' & r & Hret & Hr).
  assert (KObjectAcquire h (slot_obj s)
    = (true, <[slot_obj s := MkObject (ko_type o) (ko_refcount o + 1) (ko_destroy o)]> h)) as Hacq.
  { pose proof Hadd as (_ & _ & (_ & _ & Hm) & Hst & _). rewrite Hst in Hm. destruct Hm as [Hobj _].
    unfold KObjectAcquire, RefcountIncSaturating. rewrite Ho.
    replace (slot_obj s =? 0) with false by lia. replace (ko_refcount o =? 0) with false by lia.
    by replace (ko_refcount o =? u32_max) with false by lia. }
  destruct r as [e|[obj rights]].
  - exfalso. unfold RetainSnapshot, RetainSnapshotPin in Hret.
    rewrite decode_nospec, Hd, Hall, (live_row_hit h t d s Hadd) in Hret by done.
    rewrite (proj1 (lacks_covers _ _) Hl), Hp in Hret. simpl in Hret.
    replace (active_operations t =? u32_max) with false in Hret by lia.
    replace (0 =? u32_max) with false in Hret by done. simpl in Hret. rewrite Hacq in Hret.
    by destruct (RetainSnapshotUnpin _ _).
  - destruct Hr as (d' & s' & Hd' & (_ & Hs' & _) & -> & -> & _ & Hacq' & _).
    destruct Hadd as (_ & Hs & _). rewrite Hd in Hd'. injection Hd' as <-.
    rewrite Hs in Hs'. injection Hs' as <-. rewrite Hacq in Hacq'. injection Hacq' as <-. done.
Qed.

(** A close that asks for no right the row lacks ends at its first turn when
    nothing is pinned. *)
Lemma detach_hit h t handle d s :
  rows_ok t -> 0 <= handle -> HandleDecode handle = Some d -> addressed t d s ->
  acquisition_pins s = 0 -> 0 <= active_operations t < u32_max ->
  HandleTableDetach 1 h t handle TypeInvalid 0
    = Done (row_update t (Z.to_nat (dec_slot d)) (emptied s) (next_free_hint t) (active_operations t),
            inr (slot_obj s)).
Proof.
  intros Ht Hnn Hd Hadd Hp Ha. unfold HandleTableDetach, HandleTableDetachBegin.
  rewrite decode_nospec, Hd by done. change (lacks kHandleRightAll 0) with false. cbv iota.
  rewrite (live_row_hit h t d s Hadd).
  unfold covers. rewrite Z.land_0_r. simpl negb. cbv iota.
  replace (active_operations t =? u32_max) with false by lia.
  pose proof Hadd as (_ & Hs & (_ & _ & Hm) & Hst & Hg & _). rewrite Hst in Hm. destruct Hm as [Hobj _].
  set (t' := with_active _ _). simpl.
  assert (closing t' d (slot_to s SlotClosing)) as Hcl.
  { split; [|done]. apply list_lookup_insert_eq. by eapply lookup_lt_Some. }
  rewrite (detach_poll_spec t' d _ Hcl) by (simpl; lia). simpl. rewrite Hp. simpl.
  replace (slot_obj s =? 0) with false by lia. simpl. do 2 f_equal.
  unfold t', row_update, with_active, with_slot. simpl. rewrite list_insert_insert_eq.
  f_equal. lia.
Qed.

(** Insert, lookup and close give back what was put in.  After an
    insert the token carries exactly the requested rights; a retained lookup
    with them returns the object and takes one reference, leaving the table
    as it was; a close returns the object at its first turn, after which the
    token is dead and the table has as many live rows as before. *)
Theorem handle_insert_lookup_close (h : Heap) (t t1 : HandleTable) (obj rights handle : Z)
    (Ht : rows_ok t) (Ha : 0 <= active_operations t < u32_max)
    (Hc : 0 < KObjectRefcount h obj < u32_max)
    (Hins : HandleTableInsert h t obj rights = Some (t1, inr handle)) :
  HandleTableRights t1 handle = Some rights
  /\ HandleTableLiveCount t1 = HandleTableLiveCount t + 1
  /\ (exists h', RetainSnapshot h t1 handle TypeInvalid rights = Some (h', t1, inr (obj, rights))
        /\ KObjectRefcount h' obj = KObjectRefcount h obj + 1)
  /\ (exists t2, HandleTableDetach 1 h t1 handle TypeInvalid 0 = Done (t2, inr obj)
        /\ HandleTableRights t2 handle = Some 0
        /\ HandleTableLiveCount t2 = HandleTableLiveCount t).
Proof.
  destruct (inserted_row h t obj rights t1 handle Ht Hins)
    as (i & s & g & Hi & Hs & Hf & Hg & Hnn & Hne & Hd & Hs1 & Ht1 & Hrows1 & Ho & Hr0 & Hall).
  set (s1 := filled obj rights 0 g TypeInvalid SlotLive) in *.
  assert (slot_ok s1) as Hok1 by (by apply filled_live_ok).
  assert (active_operations t1 = active_operations t) as Ha1 by (by rewrite Ht1).
  assert (addressed t1 (MkDecoded i g) s1) as Hadd.
  { unfold addressed. simpl. split; [by rewrite Ht1|]. split_and!; (done || lia). }
  assert (HandleTableLiveCount t1 = HandleTableLiveCount t + 1) as Hlive.
  { rewrite Ht1, (live_count_row t i s) by (done || lia). unfold live1, is_live. rewrite Hf. simpl. lia. }
  split; [by apply (rights_of_live t1 handle (MkDecoded i g) s1); try done; apply Hadd|].
  split; [done|]. split.
  - destruct (h !! obj) as [o|] eqn:Hobj; [|unfold KObjectRefcount in Hc; rewrite Hobj in Hc; lia].
    assert (KObjectRefcount h obj = ko_refcount o) as Hco.
    { unfold KObjectRefcount. rewrite Hobj. by replace (obj =? 0) with false by lia. }
    eexists. split.
    { apply (retain_hit h t1 handle (MkDecoded i g) s1 rights o); try done; try lia.
      - eapply lacks_trans; [apply allowed_within_all | done].
      - apply lacks_covers. apply Z.eqb_eq, Z.land_diag. }
    unfold KObjectRefcount at 1. simpl. rewrite lookup_insert_eq. simpl.
    replace (obj =? 0) with false by lia. lia.
  - eexists. split; [by apply (detach_hit h t1 handle (MkDecoded i g) s1); try done; lia|]. split.
    + unfold HandleTableRights. rewrite decode_nospec, Hd by done. destruct (negb _); [done|].
      unfold slot_of. simpl. rewrite list_lookup_insert_eq by (by eapply lookup_lt_Some).
      unfold SlotMatches, emptied, ClosedStateFor. simpl. by destruct (g =? _).
    + rewrite (live_count_row t1 i s1) by (done || lia). unfold live1, is_live, emptied, ClosedStateFor.
      simpl. destruct (g =? _); simpl; lia.
Qed.

Definition demo_heap : Heap := KObjectInit ∅ 4096 TypeMailbox true.

Lemma zero_table_rows : rows_ok zero_table.
Proof. apply (tk_rows [] 0). apply zero_table_ok. intros f Hf. by apply elem_of_nil in Hf. Qed.

Lemma handle_insert_lookup_close_witness :
  exists t1, HandleTableInsert demo_heap zero_table 4096 3 = Some (t1, inr 4097)
    /\ HandleTableRights t1 4097 = Some 3.
Proof.
  eexists. split; [vm_compute; reflexivity|].
  eapply (handle_insert_lookup_close demo_heap zero_table _ 4096 3 4097).
  - apply zero_table_rows.
  - vm_compute. split; [discriminate | reflexivity].
  - vm_compute. split; reflexivity.
  - vm_compute. reflexivity.
Defined.

(** ** Duplication *)

Lemma release_after_acquire h h' obj :
  counts_ok h -> obj <> 0 -> KObjectAcquire h obj = (true, h') ->
  exists h'' dead, KObjectRelease h' obj = Some (h'', dead) /\ forall a, cnt h'' a = cnt h a.
Proof.
  intros Hc Hne Hacq. destruct (acquire_heap h obj true h' Hc Hne Hacq) as (_ & Hc' & Hcnt).
  assert (0 < cnt h' obj) as Hpos.
  { rewrite Hcnt. unfold one_if. rewrite Z.eqb_refl. unfold cnt.
    destruct (h !! obj) eqn:Ho; [|lia]. destruct (Hc _ _ Ho). ulia. }
  destruct (release_heap h' obj Hc' Hne Hpos) as (h'' & dead & Hrel & _ & _ & Hcnt' & _).
  exists h'', dead. split; [done|]. intros a. rewrite Hcnt', Hcnt. lia.
Qed.

Lemma heap_le_type h h' a : heap_le h h' -> 0 < cnt h a -> type_of h' a = type_of h a.
Proof.
  intros Hle Hpos. unfold cnt in Hpos. unfold type_of. destruct (h !! a) as [o|] eqn:Ho; [|lia].
  destruct (Hle a o Ho) as (o' & -> & Ht & _). done.
Qed.

Lemma acquired_counts h obj h' :
  counts_ok h -> obj <> 0 -> KObjectAcquire h obj = (true, h') ->
  0 < cnt h obj /\ type_of h' obj = type_of h obj /\ KObjectRefcount h' obj <> 0 /\ counts_ok h'
  /\ forall a, cnt h' a = cnt h a + one_if a obj.
Proof.
  intros Hc Hne Hacq. destruct (acquire_heap h _ _ _ Hc Hne Hacq) as (Hle & Hc' & Hcnt).
  assert (0 < cnt h obj) as Hpos.
  { unfold KObjectAcquire in Hacq. unfold cnt. destruct (h !! obj) as [o|] eqn:Ho; [|by guards_in Hacq].
    destruct (Hc _ _ Ho) as [Hu _]. destruct (ko_refcount o =? 0) eqn:E; [|ulia].
    by destruct (obj =? 0). }
  split_and!; try done; [by apply heap_le_type|].
  specialize (Hcnt obj). rewrite one_if_same in Hcnt. unfold cnt at 1 in Hcnt. unfold KObjectRefcount.
  destruct (h' !! obj); [|lia]. replace (obj =? 0) with false by lia. lia.
Qed.

(** Whether the tables of a list can take an operation. *)
Definition tables_idle (ts : list HandleTable) : Prop :=
  forall k t, ts !! k = Some t -> rows_ok t /\ 0 <= active_operations t.

(** What duplication promises: on success the new token names the same
    object, with exactly the rights asked for, within those of a source that
    may be duplicated, and one more reference is counted; on failure no
    table, and no count, has changed. *)
Definition duplicated (h h' : Heap) (ts ts' : list HandleTable) (src dst : nat)
    (handle rights : Z) (r : Result Z) : Prop :=
  match r with
  | inl _ => ts' = ts /\ forall a, cnt h' a = cnt h a
  | inr fresh =>
      exists t t' d s d' s', ts !! src = Some t /\ HandleDecode handle = Some d /\ addressed t d s
        /\ covers (slot_rights s) kHandleRightDuplicate = true /\ covers (slot_rights s) rights = true
        /\ ts' !! dst = Some t' /\ HandleDecode fresh = Some d' /\ addressed t' d' s'
        /\ slot_obj s' = slot_obj s /\ slot_rights s' = rights
        /\ forall a, cnt h' a = cnt h a + one_if a (slot_obj s)
  end.

Lemma duplicate_insert h h' ts src dst t handle d s rights :
  counts_ok h -> tables_idle ts -> ts !! src = Some t -> is_Some (ts !! dst) ->
  HandleDecode handle = Some d -> addressed t d s ->
  lacks (slot_rights s) kHandleRightDuplicate = false -> lacks (slot_rights s) rights = false ->
  KObjectAcquire h (slot_obj s) = (true, h') ->
  exists h2 ts2 r, HandleTableInsertInto h' ts dst (slot_obj s) rights = Some (h2, ts2, r)
    /\ duplicated h h2 ts ts2 src dst handle rights r.
Proof.
  intros Hc Hts Hsrc [td Hdst] Hd Hadd Hdup Hsub Hacq. unfold HandleTableInsertInto. rewrite Hdst.
  assert (slot_obj s <> 0) as Hne.
  { destruct Hadd as (_ & _ & (_ & _ & Hm) & Hst & _). rewrite Hst in Hm. by destruct Hm. }
  destruct (Hts _ _ Hdst) as [Hrows Hact].
  destruct (insert_spec h' td (slot_obj s) rights Hrows) as (t' & [e|fresh] & Hins & Hr); rewrite Hins.
  - destruct (release_after_acquire h h' _ Hc Hne Hacq) as (h2 & dead & -> & Hcnt).
    destruct Hr as [-> _]. eexists _, _, _. split; [done|]. simpl. by rewrite list_insert_id by done.
  - eexists _, _, _. split; [done|].
    destruct (inserted_row h' td _ rights t' fresh Hrows Hins)
      as (i & s0 & g & Hi & Hs & _ & Hg & Hnn & _ & Hdf & Hs1 & Ht1 & Hrows1 & Ho & _).
    exists t, t', d, s, (MkDecoded i g), (filled (slot_obj s) rights 0 g TypeInvalid SlotLive).
    destruct (acquire_heap h _ _ _ Hc Hne Hacq) as (_ & _ & Hcnt).
    split_and!; try done; try (by apply lacks_covers).
    + by rewrite list_lookup_insert_eq by (by eapply lookup_lt_Some).
    + unfold addressed. simpl. rewrite Ht1. split; [done|]. rewrite <- Ht1.
      split_and!; try done; try lia. by apply filled_live_ok.
Qed.

(** Duplication never amplifies authority and never leaks a reference.
    Copying a handle from one table to another (or the same), with the
    source's rights or with fewer, succeeds only if the source carries the
    right to duplicate and all rights asked for, counts exactly one more
    reference, and undoes its retained reference on every failure. *)
Theorem handle_duplicate_never_amplifies (h : Heap) (ts : list HandleTable) (src dst : nat)
    (handle requested : Z) (Hc : counts_ok h) (Hts : tables_idle ts) (Hnn : 0 <= handle)
    (Hsrc : is_Some (ts !! src)) (Hdst : is_Some (ts !! dst)) :
  (exists h' ts' r, HandleTableDuplicateRights h ts src dst handle requested = Some (h', ts', r)
     /\ duplicated h h' ts ts' src dst handle requested r)
  /\ (exists h' ts' r rights, HandleTableDuplicate h ts src dst handle = Some (h', ts', r)
       /\ duplicated h h' ts ts' src dst handle rights r
       /\ forall t, ts !! src = Some t -> (exists fresh, r = inr fresh) ->
            HandleTableRights t handle = Some rights).
Proof.
  destruct Hsrc as [t Hsrc]. destruct (Hts _ _ Hsrc) as [Hrows Hact].
  destruct (retain_spec h t handle TypeInvalid kHandleRightDuplicate Hrows Hnn Hact)
    as (h' & r & Hret & Hr).
  unfold HandleTableDuplicateRights, HandleTableDuplicate. rewrite Hsrc, Hret.
  destruct r as [e|[obj rights]].
  { subst h'. rewrite list_insert_id by done. split.
    - destruct (bad_rights requested); eexists _, _, _; by split.
    - eexists _, _, _, 0. split; [done|]. split; [done|]. by intros ? _ [? ?]. }
  destruct Hr as (d & s & Hd & Hadd & -> & -> & Hdup & Hacq & _). rewrite !list_insert_id by done.
  assert (slot_obj s <> 0) as Hne.
  { destruct Hadd as (_ & _ & (_ & _ & Hm) & Hst & _). rewrite Hst in Hm. by destruct Hm. }
  split.
  - destruct (bad_rights requested); [by eexists _, _, _|].
    destruct (lacks (slot_rights s) requested) eqn:Hl; [|by eapply duplicate_insert].
    destruct (release_after_acquire h h' _ Hc Hne Hacq) as (h2 & dead & -> & Hcnt).
    by eexists _, _, _.
  - assert (lacks (slot_rights s) (slot_rights s) = false) as Hself
      by (apply lacks_covers, Z.eqb_eq, Z.land_diag).
    destruct (duplicate_insert h h' ts src dst t handle d s (slot_rights s))
      as (h2 & ts2 & r & Hins & Hdone); try done.
    exists h2, ts2, r, (slot_rights s). split; [done|]. split; [done|]. intros t' Ht' _.
    injection Ht' as <-. destruct Hadd as (Ho & Hs & Hok & Hst & Hg & _).
    by apply (rights_of_live t handle d s).
Qed.

Lemma insert_idle h t obj rights t1 handle :
  rows_ok t -> HandleTableInsert h t obj rights = Some (t1, inr handle) ->
  rows_ok t1 /\ active_operations t1 = active_operations t.
Proof.
  intros Hrows Hins. destruct (inserted_row _ _ _ _ _ _ Hrows Hins)
    as (i & s & g & _ & _ & _ & _ & _ & _ & _ & _ & Ht & Hrows1 & _).
  split; [done|]. by rewrite Ht.
Qed.

Definition demo_table : HandleTable :=
  match HandleTableInsert demo_heap zero_table 4096 7 with Some (t, _) => t | None => zero_table end.

Lemma demo_table_idle : tables_idle [demo_table].
Proof.
  intros k t Hk. apply list_lookup_singleton_Some in Hk as [_ <-].
  assert (HandleTableInsert demo_heap zero_table 4096 7 = Some (demo_table, inr 4097)) as Hins
    by (vm_compute; reflexivity).
  destruct (insert_idle _ _ _ _ _ _ zero_table_rows Hins) as [Hrows Ht]. split; [done|]. by rewrite Ht.
Qed.

Lemma demo_heap_counts : counts_ok demo_heap.
Proof. apply heap_set_counts; [|simpl; ulia | done]. intros a o Ho. by rewrite lookup_empty in Ho. Qed.

Lemma handle_duplicate_never_amplifies_witness :
  exists h' ts' fresh,
    HandleTableDuplicateRights demo_heap [demo_table] 0 0 4097 5 = Some (h', ts', inr fresh)
    /\ duplicated demo_heap h' [demo_table] ts' 0 0 4097 5 (inr fresh).
Proof.
  destruct (handle_duplicate_never_amplifies demo_heap [demo_table] 0 0 4097 5)
    as [(h' & ts' & r & Hd & Hp) _];
    [apply demo_heap_counts | apply demo_table_idle | lia | by eexists | by eexists |].
  destruct r as [e|fresh]; [|by exists h', ts', fresh].
  exfalso. vm_compute in Hd. discriminate Hd.
Defined.

(** ** Initial rights *)

(** The rights a new handle starts with follow the process's
    capabilities.  They never exceed what the object's type allows; reading
    and writing a file follow the two filesystem capabilities separately,
    signalling a lock or event and posting to a completion port follow the
    thread capability, inspection follows the debug capability, message
    traffic needs none, and a service endpoint can be neither duplicated nor
    transferred, whatever the capabilities. *)
Theorem handle_rights_follow_capabilities (type : KObjectType) (caps : Z) :
  let rights := HandleRightsForProcess type caps in
  let has right := negb (Z.land rights right =? 0) in
  covers (TypeAllowedRights type) rights = true
  /\ has kHandleRightInspect = negb (bool_decide (type = TypeInvalid)) && CapSetHas caps kCapDebug
  /\ (type = TypeFile -> has kHandleRightRead = CapSetHas caps kCapFsRead
        /\ has kHandleRightWrite = CapSetHas caps kCapFsWrite)
  /\ (type = TypeMutex \/ type = TypeEvent \/ type = TypeSemaphore ->
        has kHandleRightSignal = CapSetHas caps kCapSpawnThread /\ has kHandleRightWait = true)
  /\ (type = TypeIocp -> has kHandleRightWrite = CapSetHas caps kCapSpawnThread)
  /\ (type = TypeMailbox \/ type = TypeMessagePort \/ type = TypeServiceEndpoint ->
        has kHandleRightRead = true /\ has kHandleRightWrite = true /\ has kHandleRightWait = true)
  /\ has kHandleRightDuplicate
     = negb (bool_decide (type = TypeInvalid)) && negb (bool_decide (type = TypeServiceEndpoint))
  /\ has kHandleRightTransfer = has kHandleRightDuplicate.
Proof.
  unfold HandleRightsForProcess.
  destruct (CapSetHas caps kCapDebug), (CapSetHas caps kCapFsRead), (CapSetHas caps kCapFsWrite),
    (CapSetHas caps kCapSpawnThread), type; vm_compute; intuition discriminate.
Qed.

(** ** A run of the system

    Two lookups race with a close and a drain on one table: the close waits
    for the pinned lookup, the late lookup is refused, and the object dies
    when the last caller lets go. *)
Example handle_system_demo :
  match run_from boot_world
    [ACreate 4096 TypeMailbox true; AOpenTable; AInsert 0 0 71;
     ALookup 0 4097 TypeMailbox 1; ADetach 0 4097 TypeMailbox 64; ALookup 0 4097 TypeMailbox 1;
     ADrain 0; AStep 1; AStep 2] with
  | None => False
  | Some w => length (w_flights w) = 3%nat /\ w_held w = [] /\ w_destroyed w = []
  end.
Proof. vm_compute. auto. Qed.

Example handle_system_demo_finishes :
  match run_from boot_world
    [ACreate 4096 TypeMailbox true; AOpenTable; AInsert 0 0 71;
     ALookup 0 4097 TypeMailbox 1; ADetach 0 4097 TypeMailbox 64; ALookup 0 4097 TypeMailbox 1;
     ADrain 0; AStep 0; AStep 2; AStep 0; AStep 0; AStep 0; AStep 0; AStep 0; ARelease 0; ARelease 0] with
  | None => False
  | Some w => w_flights w = [] /\ w_held w = [] /\ w_destroyed w = [4096]
              /\ (table_state <$> w_tables w) = [TableClosed]
  end.
Proof. vm_compute. auto. Qed.
