(* ===== verification/KMessagePort.v ===== *)
(** * Message ports

    Model of [kernel/ipc/kmessage_port.h] and [kernel/ipc/kmessage_port.cpp]:
    a kernel object that owns one message ring and its storage, a terminal
    close flag and a condition variable on which readers wait.

    The mutex serializes the critical sections, each one definition here
    ([..Locked], or [CloseInternal]); a boolean result says whether the
    section broadcasts the condition variable.  The ring calls a send makes
    before it takes the mutex are those of [MessageRing].  Offsets and sizes
    are those of the production build on x86-64.  Addresses of locals whose
    address the source passes on are arguments. *)

From S2P Require Import Prelude Bytes MessageAbi VersionedPayload MessageRing KObject HandleTable.

Definition kMessagePortStorageBytes : Z := 4096.

(** Layout of the object: base 16, mutex 32, condition variable 16, flag. *)
Definition port_ring_offset : Z := 72.
Definition port_storage_offset : Z := port_ring_offset + sizeof_MessageRing.
Definition sizeof_KMessagePort : Z := port_storage_offset + kMessagePortStorageBytes.
Definition sizeof_KMessagePortSnapshot : Z := 8 + sizeof_MessageRingSnapshot.

Inductive KMessagePortStatus :=
| PortOk | PortInvalidArgument | PortInvalidHandleOrRights | PortClosed | PortCancelled | PortRingFailure.
#[export] Instance KMessagePortStatus_eq_dec : EqDecision KMessagePortStatus.
Proof. solve_decision. Defined.

Inductive PortWaitResult := PortWoken | PortWaitCancelled.

Record KMessagePortSendResult := MkSendResult {
  send_status : KMessagePortStatus;
  send_ring : MessageRingEnqueueResult;
}.

Record KMessagePortReceiveResult := MkReceiveResult {
  recv_status : KMessagePortStatus;
  recv_ring_status : MessageRingStatus;
  recv_sequence : Z;
  recv_frame_size : Z;
  recv_copied_bytes : Z;
}.

Record KMessagePortSnapshot := MkPortSnapshot {
  port_snap_closed : bool;
  port_snap_ring : MessageRingSnapshot;
}.

Record KMessagePort := MkPort {
  port_self : Z;
  port_closed : bool;
  port_ring : MessageRing;
}.

Definition with_port_ring (p : KMessagePort) (ring : option MessageRing) : KMessagePort :=
  MkPort (port_self p) (port_closed p) (default (port_ring p) ring).

(** ** Helpers of the source *)

Definition PointerRangesOverlap (left left_bytes right right_bytes : Z) : bool :=
  let left_end := wrap64 (left + left_bytes) in
  let right_end := wrap64 (right + right_bytes) in
  (left <? right_end) && (right <? left_end).

Definition BufferAliasesPort (p : KMessagePort) (buffer bytes : Z) : bool :=
  PointerRangesOverlap (port_self p) sizeof_KMessagePort buffer bytes.

Definition EmptyEnqueueResult (status : MessageRingStatus) : MessageRingEnqueueResult :=
  MkEnqueueResult status 0 0 MsgOk PayOk.

Definition SendFailure (status : KMessagePortStatus) (ring_status : MessageRingStatus)
    : KMessagePortSendResult := MkSendResult status (EmptyEnqueueResult ring_status).

Definition ReceiveFailure (status : KMessagePortStatus) (ring_status : MessageRingStatus)
    (sequence frame_size : Z) : KMessagePortReceiveResult :=
  MkReceiveResult status ring_status sequence frame_size 0.

Definition CloseInternal (p : KMessagePort) : KMessagePort * bool :=
  if port_closed p then (p, false) else (MkPort (port_self p) true (port_ring p), true).

(** ** Creation and destruction

    [allocation] is what the kernel allocator returned: the address of a
    fresh block, or nothing.  A port's bytes live in the map of ports, its
    object base in the heap of objects. *)

Definition zero_ring (self : Z) : MessageRing :=
  MkRing self 0 [] 0 0 0 0 0 0 0 0 0 0 zero_producer 0 0 0 0 zero_receiver.

Definition zero_storage (self : Z) : Buffer :=
  MkBuffer (self + port_storage_offset) (replicate (Z.to_nat kMessagePortStorageBytes) 0).

Definition KMessagePortCreate (h : Heap) (ports : gmap Z KMessagePort) (allocation : option Z)
    : Heap * gmap Z KMessagePort * Result Z :=
  match allocation with
  | None => (h, ports, inl EOutOfMemory)
  | Some self =>
      match MessageRingInitialize (Some (zero_ring (self + port_ring_offset))) (zero_storage self)
              kMessagePortStorageBytes 1 with
      | (RingOk, Some ring) =>
          (KObjectInit h self TypeMessagePort true, <[self := MkPort self false ring]> ports, inr self)
      | _ => (h, ports, inl EBadState)
      end
  end.

(** The port is closed, and its block freed. *)
Definition KMessagePortDestroy (ports : gmap Z KMessagePort) (object : Z) : gmap Z KMessagePort :=
  delete object (alter (fun port => (CloseInternal port).1) object ports).

Lemma KMessagePortDestroy_delete ports object : KMessagePortDestroy ports object = delete object ports.
Proof. unfold KMessagePortDestroy. apply delete_alter_eq. Qed.

(** ** Send *)

(** The argument checks; [Some] is the early return. *)
Definition SendArguments (port : option KMessagePort) (frame : Buffer) (frame_bytes : Z)
    (payload_rules : RuleTable) (payload_rule_count : Z) : option KMessagePortSendResult :=
  match port with
  | None => Some (SendFailure PortInvalidArgument RingInvalidArgument)
  | Some p =>
      if negb (PointerRangeIsValid (buf_addr frame) frame_bytes) || (frame_bytes =? 0)
      then Some (SendFailure PortInvalidArgument RingInvalidArgument)
      else if BufferAliasesPort p (buf_addr frame) frame_bytes
      then Some (SendFailure PortInvalidArgument AliasedBuffer)
      else if negb (rules_addr payload_rules =? 0) && (payload_rule_count <=? kVersionedPayloadMaxRules)
      then
        let rule_bytes := wrap32 (payload_rule_count * sizeof_PayloadVersionRule) in
        if negb (PointerRangeIsValid (rules_addr payload_rules) rule_bytes)
        then Some (SendFailure PortInvalidArgument InvalidPayloadContract)
        else if BufferAliasesPort p (rules_addr payload_rules) rule_bytes
        then Some (SendFailure PortInvalidArgument AliasedBuffer)
        else None
      else None
  end.

(** The first critical section. *)
Definition SendOpenLocked (p : KMessagePort) : option KMessagePortSendResult :=
  if port_closed p then Some (SendFailure PortClosed ProducerAborted) else None.

Definition with_enqueue (r : MessageRingEnqueueResult) (status : MessageRingStatus) (reservation sequence : Z)
    : MessageRingEnqueueResult :=
  MkEnqueueResult status reservation sequence (enq_message_error r) (enq_payload_error r).

(** The last critical section, with the prepared reservation. *)
Definition SendPublishLocked (p : KMessagePort) (prepared : MessageRingEnqueueResult) (local_sequence : Z)
    : KMessagePort * KMessagePortSendResult * bool :=
  if port_closed p
  then (with_port_ring p (snd (MessageRingAbortEnqueue (Some (port_ring p)) (enq_reservation_id prepared))),
        MkSendResult PortClosed (with_enqueue prepared ProducerAborted 0 (enq_sequence prepared)), false)
  else
    let '(status, ring, stored) :=
      MessageRingPublishEnqueue (Some (port_ring p)) (enq_reservation_id prepared) local_sequence in
    match status with
    | RingOk =>
        (with_port_ring p ring,
         MkSendResult PortOk (with_enqueue prepared RingOk 0 (default 0 stored)), true)
    | _ =>
        (with_port_ring p (snd (MessageRingAbortEnqueue ring (enq_reservation_id prepared))),
         MkSendResult PortRingFailure
           (with_enqueue prepared status (enq_reservation_id prepared) (enq_sequence prepared)), false)
    end.

(** The whole call with nothing interleaved. *)
Definition KMessagePortSend (port : option KMessagePort) (frame : Buffer) (frame_bytes : Z)
    (payload_rules : RuleTable) (payload_rule_count local_view local_sequence : Z)
    : option KMessagePort * KMessagePortSendResult * bool :=
  match port, SendArguments port frame frame_bytes payload_rules payload_rule_count with
  | None, _ => (port, SendFailure PortInvalidArgument RingInvalidArgument, false)
  | _, Some failure => (port, failure, false)
  | Some p, None =>
      match SendOpenLocked p with
      | Some failure => (port, failure, false)
      | None =>
          let '(prepared, ring) :=
            MessageRingPrepareEnqueue (Some (port_ring p)) frame frame_bytes payload_rules
              payload_rule_count local_view in
          match enq_status prepared with
          | RingOk =>
              let '(p, result, woken) := SendPublishLocked (with_port_ring p ring) prepared local_sequence in
              (Some p, result, woken)
          | _ => (Some (with_port_ring p ring), MkSendResult PortRingFailure prepared, false)
          end
      end
  end.

(** ** Receive *)

Definition ReceiveArguments (port : option KMessagePort) (destination destination_bytes : Z)
    : option KMessagePortReceiveResult :=
  match port with
  | None => Some (ReceiveFailure PortInvalidArgument RingInvalidArgument 0 0)
  | Some p =>
      if negb (PointerRangeIsValid destination destination_bytes)
      then Some (ReceiveFailure PortInvalidArgument RingInvalidArgument 0 0)
      else if BufferAliasesPort p destination destination_bytes
      then Some (ReceiveFailure PortInvalidArgument AliasedBuffer 0 0)
      else None
  end.

(** A claim on the head with its pinned spans. *)
Record ReceiveClaim := MkClaim { claim_view : MessageRingPeekView; claim_spans : MessageRingCopySpans }.

Definition cancel_claim (ring : option MessageRing) (view : MessageRingPeekView) : option MessageRing :=
  snd (MessageRingCancelReceive ring (peek_sequence view) (peek_receive_lease_id view)).

(** The section that claims the head and pins its spans. *)
Definition ReceiveBeginLocked (p : KMessagePort) (destination_bytes local_view local_spans : Z)
    : KMessagePort * (KMessagePortReceiveResult + ReceiveClaim) :=
  if port_closed p then (p, inl (ReceiveFailure PortClosed RingEmpty 0 0))
  else
    let '(status, ring, out) := MessageRingPeek (Some (port_ring p)) local_view in
    let view := default zero_peek_view out in
    match status with
    | RingOk =>
        let fail (ring : option MessageRing) (ring_status : MessageRingStatus) :=
          (with_port_ring p (cancel_claim ring view),
           inl (ReceiveFailure PortRingFailure ring_status (peek_sequence view) (peek_frame_size view))) in
        if destination_bytes <? peek_frame_size view then fail ring BufferTooSmall
        else
          let '(status, ring, spans) :=
            MessageRingBeginCopyOut ring (peek_sequence view) (peek_receive_lease_id view) local_spans in
          match status with
          | RingOk => (with_port_ring p ring, inr (MkClaim view (default zero_spans spans)))
          | _ => fail ring status
          end
    | _ => (with_port_ring p ring, inl (ReceiveFailure PortRingFailure status 0 0))
    end.

(** The section after the unlocked copy. *)
Definition ReceiveEndLocked (p : KMessagePort) (c : ReceiveClaim) : KMessagePort * KMessagePortReceiveResult :=
  let view := claim_view c in
  let sequence := peek_sequence view in
  let lease := peek_receive_lease_id view in
  let copy_id := span_copy_id (claim_spans c) in
  let fail (ring : option MessageRing) (status : KMessagePortStatus) (ring_status : MessageRingStatus) :=
    (with_port_ring p (cancel_claim ring view),
     ReceiveFailure status ring_status sequence (peek_frame_size view)) in
  if port_closed p
  then fail (snd (MessageRingEndCopyOut (Some (port_ring p)) sequence lease copy_id false)) PortClosed
         ProducerAborted
  else
    let '(status, ring) := MessageRingEndCopyOut (Some (port_ring p)) sequence lease copy_id true in
    match status with
    | RingOk =>
        let '(status, ring) := MessageRingCommit ring sequence lease in
        match status with
        | RingOk => (with_port_ring p ring,
                     MkReceiveResult PortOk RingOk sequence (peek_frame_size view) (peek_frame_size view))
        | _ => fail ring PortRingFailure status
        end
    | _ => fail ring PortRingFailure status
    end.

(** The whole call with nothing interleaved; the list is the destination. *)
Definition KMessagePortTryReceive (port : option KMessagePort) (destination : Buffer)
    (destination_bytes local_view local_spans : Z)
    : option KMessagePort * KMessagePortReceiveResult * list Z :=
  let dst := buf_bytes destination in
  match port, ReceiveArguments port (buf_addr destination) destination_bytes with
  | None, _ => (port, ReceiveFailure PortInvalidArgument RingInvalidArgument 0 0, dst)
  | _, Some failure => (port, failure, dst)
  | Some p, None =>
      match ReceiveBeginLocked p destination_bytes local_view local_spans with
      | (p, inl failure) => (Some p, failure, dst)
      | (p, inr claim) =>
          let dst := list_inserts 0 (read_spans (port_ring p) (claim_spans claim)) dst in
          let '(p, result) := ReceiveEndLocked p claim in (Some p, result, dst)
      end
  end.

(** ** Waiting *)

(** One turn of the waiting loop: the answer, or [None] to wait. *)
Definition WaitReadableTurn (p : KMessagePort) (local_snapshot : Z) : option KMessagePortStatus :=
  if port_closed p then Some PortClosed
  else match MessageRingInspect (Some (port_ring p)) local_snapshot with
       | (RingOk, snapshot) =>
           if negb (snap_queued_frames (default zero_snapshot snapshot) =? 0) then Some PortOk else None
       | _ => Some PortRingFailure
       end.

(** The loop: [wakes] are the outcomes of the waits with the port each finds;
    [None] when the caller is still waiting after them. *)
Fixpoint wait_readable (p : KMessagePort) (wakes : list (PortWaitResult * KMessagePort)) (local_snapshot : Z)
    : option KMessagePortStatus :=
  match WaitReadableTurn p local_snapshot with
  | Some status => Some status
  | None =>
      match wakes with
      | [] => None
      | (PortWaitCancelled, _) :: _ => Some PortCancelled
      | (PortWoken, p) :: wakes => wait_readable p wakes local_snapshot
      end
  end.

Definition KMessagePortWaitReadable (port : option KMessagePort)
    (wakes : list (PortWaitResult * KMessagePort)) (local_snapshot : Z) : option KMessagePortStatus :=
  match port with None => Some PortInvalidArgument | Some p => wait_readable p wakes local_snapshot end.

Definition KMessagePortClose (port : option KMessagePort) : option KMessagePort * bool :=
  match port with
  | None => (None, false)
  | Some p => let '(p, woken) := CloseInternal p in (Some p, woken)
  end.

(** The snapshot stored through [snapshot_out], when one is stored. *)
Definition KMessagePortInspect (port : option KMessagePort) (snapshot_out : Z)
    : KMessagePortStatus * option KMessagePortSnapshot :=
  let zero := MkPortSnapshot false zero_snapshot in
  if negb (snapshot_out =? 0) && negb (PointerRangeIsValid snapshot_out sizeof_KMessagePortSnapshot)
  then (PortInvalidArgument, None)
  else
    match port with
    | None => (PortInvalidArgument, if snapshot_out =? 0 then None else Some zero)
    | Some p =>
        if negb (snapshot_out =? 0) && BufferAliasesPort p snapshot_out sizeof_KMessagePortSnapshot
        then (PortInvalidArgument, None)
        else if snapshot_out =? 0 then (PortInvalidArgument, None)
        else match MessageRingInspect (Some (port_ring p)) (snapshot_out + 8) with
             | (RingOk, snapshot) =>
                 (PortOk, Some (MkPortSnapshot (port_closed p) (default zero_snapshot snapshot)))
             | _ => (PortRingFailure, Some zero)
             end
    end.

(** ** Entry points through a handle

    [None] is a failed assertion of the handle table or of a release, or a
    handle whose object is not a port of the map. *)

Definition release_port (h : Heap) (ports : gmap Z KMessagePort) (object : Z)
    : option (Heap * gmap Z KMessagePort) :=
  match KObjectRelease h object with
  | None => None
  | Some (h, destroyed) => Some (h, if destroyed then KMessagePortDestroy ports object else ports)
  end.

Definition ResolvePort (h : Heap) (t : HandleTable) (handle required_rights : Z)
    : option (Heap * HandleTable * Z) := HandleTableLookupRef h t handle TypeMessagePort required_rights.

Definition KMessagePortSendHandle (h : Heap) (ports : gmap Z KMessagePort) (t : HandleTable) (handle : Z)
    (frame : Buffer) (frame_bytes : Z) (payload_rules : RuleTable)
    (payload_rule_count local_view local_sequence : Z)
    : option (Heap * gmap Z KMessagePort * HandleTable * KMessagePortSendResult) :=
  match ResolvePort h t handle kHandleRightWrite with
  | None => None
  | Some (h, t, object) =>
      if object =? 0
      then Some (h, ports, t, SendFailure PortInvalidHandleOrRights RingInvalidArgument)
      else match ports !! object with
           | None => None
           | Some p =>
               let '(port, result, _) :=
                 KMessagePortSend (Some p) frame frame_bytes payload_rules payload_rule_count local_view
                   local_sequence in
               match release_port h (<[object := default p port]> ports) object with
               | None => None
               | Some (h, ports) => Some (h, ports, t, result)
               end
           end
  end.

Definition KMessagePortTryReceiveHandle (h : Heap) (ports : gmap Z KMessagePort) (t : HandleTable)
    (handle : Z) (destination : Buffer) (destination_bytes local_view local_spans : Z)
    : option (Heap * gmap Z KMessagePort * HandleTable * KMessagePortReceiveResult * list Z) :=
  match ResolvePort h t handle kHandleRightRead with
  | None => None
  | Some (h, t, object) =>
      if object =? 0
      then Some (h, ports, t, ReceiveFailure PortInvalidHandleOrRights RingInvalidArgument 0 0,
                 buf_bytes destination)
      else match ports !! object with
           | None => None
           | Some p =>
               let '(port, result, bytes) :=
                 KMessagePortTryReceive (Some p) destination destination_bytes local_view local_spans in
               match release_port h (<[object := default p port]> ports) object with
               | None => None
               | Some (h, ports) => Some (h, ports, t, result, bytes)
               end
           end
  end.

(** [None] in the status: still waiting after the given wakes. *)
Definition KMessagePortWaitReadableHandle (h : Heap) (ports : gmap Z KMessagePort) (t : HandleTable)
    (handle : Z) (wakes : list (PortWaitResult * KMessagePort)) (local_snapshot : Z)
    : option (Heap * gmap Z KMessagePort * HandleTable * option KMessagePortStatus) :=
  match ResolvePort h t handle kHandleRightWait with
  | None => None
  | Some (h, t, object) =>
      if object =? 0 then Some (h, ports, t, Some PortInvalidHandleOrRights)
      else match ports !! object with
           | None => None
           | Some p =>
               match KMessagePortWaitReadable (Some p) wakes local_snapshot with
               | None => Some (h, ports, t, None)
               | Some status =>
                   match release_port h ports object with
                   | None => None
                   | Some (h, ports) => Some (h, ports, t, Some status)
                   end
               end
           end
  end.

Definition KMessagePortCloseHandle (turns : nat) (h : Heap) (ports : gmap Z KMessagePort) (t : HandleTable)
    (handle : Z) : Outcome (Heap * gmap Z KMessagePort * HandleTable * KMessagePortStatus) :=
  match HandleTableDetach turns h t handle TypeMessagePort kHandleRightDestroy with
  | Panic => Panic
  | Waiting => Waiting
  | Done (t, inl _) => Done (h, ports, t, PortInvalidHandleOrRights)
  | Done (t, inr object) =>
      match ports !! object with
      | None => Panic
      | Some p =>
          let port := fst (KMessagePortClose (Some p)) in
          match release_port h (<[object := default p port]> ports) object with
          | None => Panic
          | Some (h, ports) => Done (h, ports, t, PortOk)
          end
      end
  end.
