(* ===== verification/KMessagePortSpec.v ===== *)
(** * Message ports: the concurrent system

    One port with any number of senders, receivers, waiters and closers,
    interleaved section by section: a send is in flight from its first
    critical section over the unlocked validation and copy to its last, a
    receive from its claim over the unlocked copy to its commit, a waiter is
    asleep on the condition variable or has been woken and has yet to take
    the mutex.  The ring calls are those of the system of [MessageRingSpec],
    whose invariant carries over; the new parts are the close flag, the
    transactions and the sleepers. *)

From S2P Require Import Prelude Bytes MessageAbi VersionedPayload MessageRing MessageRingRep MessageRingSpec.
From S2P Require Import KObject HandleTable KMessagePort.

Inductive SFlight :=
| SOpened (frame : Buffer) (rules : RuleTable) (count : Z)
| SCopying (f : flight)
| SPrepared (prepared : MessageRingEnqueueResult).

Inductive POutcome :=
| OSend (result : KMessagePortSendResult)
| OReceive (result : KMessagePortReceiveResult) (bytes : list Z)
| OWait (status : KMessagePortStatus).

Record PWorld := MkPWorld {
  pw_port : KMessagePort;
  pw_senders : list SFlight;
  pw_receivers : list (ReceiveClaim * list Z); (* claims with the bytes copied so far *)
  pw_asleep : nat;
  pw_woken : nat;
  pw_frames : gmap Z (list Z);                 (* the frame of each reservation *)
  pw_published : list entry;
  pw_delivered : list entry;
  pw_log : list POutcome;                      (* latest first *)
}.

Inductive PAction :=
| PSend (frame : Buffer) (rules : RuleTable) (count : Z)
| PReserve (n : nat) (local_view : Z)
| PCopy (n k : nat)
| PFinish (n : nat)
| PPublish (n : nat) (local_sequence : Z)
| PReceive (destination destination_bytes local_view local_spans : Z)
| PCopyOut (n k : nat)
| PReceiveEnd (n : nat)
| PWait (local_snapshot : Z)
| PSpurious
| PTurn (local_snapshot : Z)
| PCancelWait
| PClose.

Definition p_log (w : PWorld) (o : POutcome) : PWorld :=
  MkPWorld (pw_port w) (pw_senders w) (pw_receivers w) (pw_asleep w) (pw_woken w) (pw_frames w)
    (pw_published w) (pw_delivered w) (o :: pw_log w).
Definition p_senders (w : PWorld) (l : list SFlight) : PWorld :=
  MkPWorld (pw_port w) l (pw_receivers w) (pw_asleep w) (pw_woken w) (pw_frames w)
    (pw_published w) (pw_delivered w) (pw_log w).
Definition p_receivers (w : PWorld) (l : list (ReceiveClaim * list Z)) : PWorld :=
  MkPWorld (pw_port w) (pw_senders w) l (pw_asleep w) (pw_woken w) (pw_frames w)
    (pw_published w) (pw_delivered w) (pw_log w).
Definition p_port (w : PWorld) (p : KMessagePort) : PWorld :=
  MkPWorld p (pw_senders w) (pw_receivers w) (pw_asleep w) (pw_woken w) (pw_frames w)
    (pw_published w) (pw_delivered w) (pw_log w).
Definition p_waiters (w : PWorld) (asleep woken : nat) : PWorld :=
  MkPWorld (pw_port w) (pw_senders w) (pw_receivers w) asleep woken (pw_frames w)
    (pw_published w) (pw_delivered w) (pw_log w).
Definition p_broadcast (w : PWorld) (broadcast : bool) : PWorld :=
  if broadcast then p_waiters w 0 (pw_woken w + pw_asleep w) else w.

(** A waiter's turn; [woken] is the number left of those woken before. *)
Definition p_turn (w : PWorld) (woken : nat) (local_snapshot : Z) : PWorld :=
  match WaitReadableTurn (pw_port w) local_snapshot with
  | Some status => p_log (p_waiters w (pw_asleep w) woken) (OWait status)
  | None => p_waiters w (S (pw_asleep w)) woken
  end.

Definition frame_size (frame : Buffer) : Z := Z.of_nat (length (buf_bytes frame)).

Definition p_send (w : PWorld) (frame : Buffer) (rules : RuleTable) (count : Z) : PWorld :=
  match SendArguments (Some (pw_port w)) frame (frame_size frame) rules count with
  | Some failure => p_log w (OSend failure)
  | None =>
      match SendOpenLocked (pw_port w) with
      | Some failure => p_log w (OSend failure)
      | None => p_senders w (pw_senders w ++ [SOpened frame rules count])
      end
  end.

Definition ring_failure (e : MessageRingEnqueueResult) : POutcome := OSend (MkSendResult PortRingFailure e).

Definition p_reserve (w : PWorld) (n : nat) (frame : Buffer) (rules : RuleTable) (count local_view : Z)
    : PWorld :=
  let rest := delete n (pw_senders w) in
  let ring := port_ring (pw_port w) in
  match PrepareEnqueue_preflight ring frame (frame_size frame) rules count local_view with
  | Some failure => p_log (p_senders w rest) (ring_failure failure)
  | None =>
      match PrepareEnqueue_reserve ring (frame_size frame) with
      | (inl status, ring) =>
          p_log (p_port (p_senders w rest) (with_port_ring (pw_port w) (Some ring)))
            (ring_failure (EnqueueFailure status MsgOk PayOk))
      | (inr call, ring) =>
          MkPWorld (with_port_ring (pw_port w) (Some ring))
            (rest ++ [SCopying (MkFlight (buf_bytes frame) (call_reservation_id call)
                                  (call_frame_offset call) 0)])
            (pw_receivers w) (pw_asleep w) (pw_woken w)
            (<[call_reservation_id call := buf_bytes frame]> (pw_frames w)) (pw_published w)
            (pw_delivered w) (pw_log w)
      end
  end.

Definition p_copy (w : PWorld) (n k : nat) (f : flight) : PWorld :=
  let ring := port_ring (pw_port w) in
  let piece := take k (drop (fl_done f) (fl_frame f)) in
  let ring := CopyIntoStorage ring
                (AdvanceOffset (fl_offset f) (Z.of_nat (fl_done f)) (capacity_bytes ring)) piece in
  p_port (p_senders w (<[n := SCopying (MkFlight (fl_frame f) (fl_id f) (fl_offset f)
                                          (fl_done f + length piece))]> (pw_senders w)))
    (with_port_ring (pw_port w) (Some ring)).

Definition p_finish (w : PWorld) (n : nat) (f : flight) : PWorld :=
  let '(status, ring) := PrepareEnqueue_finish (port_ring (pw_port w)) (fl_id f) in
  let rest := delete n (pw_senders w) in
  let w := p_port w (with_port_ring (pw_port w) (Some ring)) in
  match status with
  | RingOk => p_senders w (rest ++ [SPrepared (MkEnqueueResult RingOk (fl_id f) 0 MsgOk PayOk)])
  | _ => p_log (p_senders w rest) (ring_failure (EnqueueFailure status MsgOk PayOk))
  end.

Definition p_publish (w : PWorld) (n : nat) (prepared : MessageRingEnqueueResult) (local_sequence : Z)
    : PWorld :=
  let id := enq_reservation_id prepared in
  let sequence := (PublishEnqueue_locked (port_ring (pw_port w)) id).2 in
  let '(p, result, broadcast) := SendPublishLocked (pw_port w) prepared local_sequence in
  let published := if bool_decide (send_status result = PortOk)
                   then [(sequence, default [] (pw_frames w !! id))] else [] in
  p_broadcast (MkPWorld p (delete n (pw_senders w)) (pw_receivers w) (pw_asleep w) (pw_woken w)
                 (pw_frames w) (pw_published w ++ published) (pw_delivered w) (OSend result :: pw_log w))
    broadcast.

Definition p_receive (w : PWorld) (destination destination_bytes local_view local_spans : Z) : PWorld :=
  match ReceiveArguments (Some (pw_port w)) destination destination_bytes with
  | Some failure => p_log w (OReceive failure [])
  | None =>
      match ReceiveBeginLocked (pw_port w) destination_bytes local_view local_spans with
      | (p, inl failure) => p_log (p_port w p) (OReceive failure [])
      | (p, inr claim) => p_receivers (p_port w p) (pw_receivers w ++ [(claim, [])])
      end
  end.

(** The unlocked copy reads the pinned spans a piece at a time. *)
Definition p_copy_out (w : PWorld) (n k : nat) (c : ReceiveClaim) (got : list Z) : PWorld :=
  p_receivers w (<[n := (c, got ++ take k (drop (length got) (read_spans (port_ring (pw_port w))
                                                               (claim_spans c))))]> (pw_receivers w)).

Definition span_bytes (s : MessageRingCopySpans) : nat :=
  (Z.to_nat (span_first_size s) + Z.to_nat (span_second_size s))%nat.

Definition p_receive_end (w : PWorld) (n : nat) (c : ReceiveClaim) (got : list Z) : PWorld :=
  if decide (length got = span_bytes (claim_spans c))
  then
    let '(p, result) := ReceiveEndLocked (pw_port w) c in
    MkPWorld p (pw_senders w) (delete n (pw_receivers w)) (pw_asleep w) (pw_woken w) (pw_frames w)
      (pw_published w)
      (pw_delivered w ++ if bool_decide (recv_status result = PortOk) then [(recv_sequence result, got)] else [])
      (OReceive result got :: pw_log w)
  else w.

Definition p_exec (w : PWorld) (a : PAction) : PWorld :=
  match a with
  | PSend frame rules count => p_send w frame rules count
  | PReserve n local_view =>
      match pw_senders w !! n with
      | Some (SOpened frame rules count) => p_reserve w n frame rules count local_view
      | _ => w
      end
  | PCopy n k => match pw_senders w !! n with Some (SCopying f) => p_copy w n k f | _ => w end
  | PFinish n =>
      match pw_senders w !! n with
      | Some (SCopying f) => if decide (fl_done f = length (fl_frame f)) then p_finish w n f else w
      | _ => w
      end
  | PPublish n local_sequence =>
      match pw_senders w !! n with
      | Some (SPrepared prepared) => p_publish w n prepared local_sequence
      | _ => w
      end
  | PReceive destination destination_bytes local_view local_spans =>
      p_receive w destination destination_bytes local_view local_spans
  | PCopyOut n k => match pw_receivers w !! n with Some (c, got) => p_copy_out w n k c got | None => w end
  | PReceiveEnd n => match pw_receivers w !! n with Some (c, got) => p_receive_end w n c got | None => w end
  | PWait local_snapshot => p_turn w (pw_woken w) local_snapshot
  | PSpurious =>
      match pw_asleep w with O => w | S n => p_waiters w n (S (pw_woken w)) end
  | PTurn local_snapshot =>
      match pw_woken w with O => w | S n => p_turn w n local_snapshot end
  | PCancelWait =>
      match pw_asleep w with O => w | S n => p_log (p_waiters w n (pw_woken w)) (OWait PortCancelled) end
  | PClose =>
      let '(p, broadcast) := CloseInternal (pw_port w) in p_broadcast (p_port w p) broadcast
  end.

Fixpoint p_run (w : PWorld) (acts : list PAction) : PWorld :=
  match acts with [] => w | a :: acts => p_run (p_exec w a) acts end.

(** The system starts with a freshly created port. *)
Definition p_start (p : KMessagePort) : PWorld := MkPWorld p [] [] 0 0 ∅ [] [] [].

(** ** The invariant *)

Definition copying_of (x : SFlight) : option flight := match x with SCopying f => Some f | _ => None end.
Definition copying (l : list SFlight) : list flight := omap copying_of l.
Definition is_active (x : SFlight) : bool := match x with SOpened _ _ _ => false | _ => true end.
Definition active (l : list SFlight) : list SFlight := List.filter is_active l.

(** The port as a state of the ring's system. *)
Definition psys (w : PWorld) (spans : MessageRingCopySpans) (copied : list Z) : ring_sys :=
  MkSys (port_ring (pw_port w)) (copying (pw_senders w)) (pw_frames w) spans copied (pw_published w)
    (pw_delivered w).

(** At most one send holds the ring's reservation, and it is its owner. *)
Definition senders_ok (p : ProducerState) (l : list SFlight) : Prop :=
  match active l with
  | [] => p = zero_producer
  | [SCopying f] =>
      p <> zero_producer /\ fl_id f = producer_reservation_id p /\ producer_copy_active p <> 0
      /\ producer_abort_requested p = 0
  | [SPrepared e] =>
      p <> zero_producer /\ enq_reservation_id e = producer_reservation_id p /\ producer_copy_active p = 0
      /\ enq_status e = RingOk
  | _ => False
  end.

(** At most one receive holds the ring's claim, and what it has copied is a
    prefix of the oldest undelivered frame. *)
Definition claims_ok (v : ReceiverState) (spans : MessageRingCopySpans) (published delivered : list entry)
    (l : list (ReceiveClaim * list Z)) : Prop :=
  match l with
  | [] => v = zero_receiver
  | [(c, got)] =>
      v = MkReceiver (peek_sequence (claim_view c)) (peek_receive_lease_id (claim_view c))
            (peek_frame_size (claim_view c)) (span_copy_id (claim_spans c)) 0
      /\ span_copy_id (claim_spans c) <> 0 /\ spans = claim_spans c
      /\ exists f, published !! length delivered = Some (peek_sequence (claim_view c), f)
           /\ got = take (length got) f /\ peek_frame_size (claim_view c) = Z.of_nat (length f)
           /\ span_bytes spans = length f
  | _ => False
  end.

Definition outcome_ok (o : POutcome) : Prop :=
  match o with
  | OSend r => enq_status (send_ring r) <> RingCorruptState
  | OReceive r _ => recv_ring_status r <> RingCorruptState
  | OWait _ => True
  end.

Record port_ok (first : Z) (w : PWorld) : Prop := {
  pk_sys : exists spans copied, sys_ok first (psys w spans copied)
    /\ claims_ok (receiver (port_ring (pw_port w))) spans (pw_published w) (pw_delivered w) (pw_receivers w);
  pk_senders : senders_ok (producer (port_ring (pw_port w))) (pw_senders w);
  pk_sleep : pw_asleep w <> 0%nat -> port_closed (pw_port w) = false /\ pw_delivered w = pw_published w;
  pk_log : Forall outcome_ok (pw_log w);
}.

(** ** Lists of senders *)

Lemma copying_app l k : copying (l ++ k) = copying l ++ copying k.
Proof. apply omap_app. Qed.

Lemma active_app l k : active (l ++ k) = active l ++ active k.
Proof. apply List.filter_app. Qed.

Lemma opened_gone l n frame rules count :
  l !! n = Some (SOpened frame rules count) ->
  copying (delete n l) = copying l /\ active (delete n l) = active l.
Proof.
  revert n. induction l as [|x l IH]; intros [|n] Hn; simpl in *; [done | done | by simplify_eq |].
  destruct (IH n Hn) as [E1 E2]. unfold copying, active in *. simpl. rewrite E1, E2. done.
Qed.

Lemma active_single l n x : l !! n = Some x -> is_active x = true -> active l = [x] -> active (delete n l) = [].
Proof.
  revert n. induction l as [|y l IH]; intros [|n] Hn Hx Ha; simpl in *; [done | done | |].
  - simplify_eq. rewrite Hx in Ha. by injection Ha.
  - unfold active in *. simpl in *. destruct (is_active y) eqn:Hy; [|by apply IH].
    injection Ha as -> Hnil. exfalso.
    assert (x ∈ List.filter is_active l) as Hin.
    { apply list_elem_of_In, List.filter_In. split; [|done]. apply list_elem_of_In. by eapply list_elem_of_lookup_2. }
    rewrite Hnil in Hin. by apply elem_of_nil in Hin.
Qed.

(** A sender that owns the reservation is the only one. *)
Lemma active_member l n x : l !! n = Some x -> is_active x = true -> x ∈ active l.
Proof.
  intros Hn Hx. apply list_elem_of_In, List.filter_In. split; [|done]. apply list_elem_of_In.
  by eapply list_elem_of_lookup_2.
Qed.

Lemma senders_owner p l n x :
  senders_ok p l -> l !! n = Some x -> is_active x = true -> active l = [x].
Proof.
  intros Hs Hn Hx. pose proof (active_member _ _ _ Hn Hx) as Hin. unfold senders_ok in Hs.
  destruct (active l) as [|y [|z k]]; [by apply elem_of_nil in Hin | |by destruct y].
  by apply list_elem_of_singleton in Hin as ->.
Qed.

Lemma copying_at l n f :
  l !! n = Some (SCopying f) -> exists i, copying l !! i = Some f
    /\ (forall x, copying (<[n := SCopying x]> l) = <[i := x]> (copying l))
    /\ copying (delete n l) = delete i (copying l).
Proof.
  revert n. induction l as [|y l IH]; intros [|n] Hn; simpl in *; [done | done | |].
  - simplify_eq. by exists 0%nat.
  - destruct (IH n Hn) as (i & Hi & Hins & Hdel). unfold copying in *.
    destruct y as [|g|]; simpl; [by exists i | |by exists i].
    exists (S i). split; [done|]. split; [intros x; by rewrite Hins | by rewrite Hdel].
Qed.

Lemma prepared_gone l n e : l !! n = Some (SPrepared e) -> copying (delete n l) = copying l.
Proof.
  revert n. induction l as [|x l IH]; intros [|n] Hn; simpl in *; [done | done | by simplify_eq |].
  unfold copying in *. simpl. by rewrite (IH n Hn).
Qed.

Lemma take_own_length {A} (l : list A) n : take n l = take (length (take n l)) l.
Proof.
  rewrite length_take. destruct (decide (n <= length l)%nat); [by rewrite Nat.min_l|].
  rewrite Nat.min_r by lia. by rewrite !take_ge by lia.
Qed.

Lemma with_port_ring_id p : with_port_ring p (Some (port_ring p)) = p.
Proof. by destruct p. Qed.

Section Steps.
Context (first : Z).

(** ** Frames of reasoning *)

(** Steps of senders: the receive transaction and the deliveries stay. *)
Lemma sender_frame w w' extra :
  port_ok first w ->
  (forall spans copied, sys_ok first (psys w spans copied) -> sys_ok first (psys w' spans copied)) ->
  receiver (port_ring (pw_port w')) = receiver (port_ring (pw_port w)) ->
  pw_receivers w' = pw_receivers w -> pw_delivered w' = pw_delivered w ->
  pw_published w' = pw_published w ++ extra ->
  senders_ok (producer (port_ring (pw_port w'))) (pw_senders w') ->
  (pw_asleep w' <> 0%nat -> extra = [] /\ pw_asleep w <> 0%nat /\ port_closed (pw_port w') = port_closed (pw_port w)) ->
  Forall outcome_ok (pw_log w') -> port_ok first w'.
Proof.
  intros [(spans & copied & Hsys & Hcl) _ Hsl _] Hkeep Hrv Hr Hd Hp Hs Ha Hl. split; [|done| |done].
  - exists spans, copied. split; [by apply Hkeep|]. rewrite Hrv, Hr, Hd, Hp.
    unfold claims_ok in *. destruct (pw_receivers w) as [|[c got] [|]]; [done | |done].
    destruct Hcl as (? & ? & ? & f & Hf & ?). split_and!; try done. exists f. split; [|done].
    rewrite lookup_app_l; [done|]. by eapply lookup_lt_Some.
  - intros Hne. destruct (Ha Hne) as (-> & Hne' & Hc). rewrite app_nil_r in Hp. rewrite Hc, Hd, Hp. by apply Hsl.
Qed.

(** Steps of receivers: the reservation and the publications stay. *)
Lemma receiver_frame w w' :
  port_ok first w ->
  (exists spans copied, sys_ok first (psys w' spans copied)
     /\ claims_ok (receiver (port_ring (pw_port w'))) spans (pw_published w') (pw_delivered w') (pw_receivers w')) ->
  producer (port_ring (pw_port w')) = producer (port_ring (pw_port w)) ->
  pw_senders w' = pw_senders w -> pw_published w' = pw_published w ->
  (exists extra, pw_delivered w' = pw_delivered w ++ extra) ->
  pw_asleep w' = pw_asleep w -> port_closed (pw_port w') = port_closed (pw_port w) ->
  Forall outcome_ok (pw_log w') -> port_ok first w'.
Proof.
  intros [_ Hs Hsl _] Hsys Hp Hse Hpu [extra Hd] Ha Hc Hl. split; [done| | |done].
  - by rewrite Hp, Hse.
  - rewrite Ha, Hc. intros Hne. destruct (Hsl Hne) as [Hcl Hdp]. split; [done|].
    destruct Hsys as (spans & copied & [(q & _ & Hq & _) _ _ _] & _). simpl in Hq. rewrite Hpu in *.
    rewrite Hd, Hdp in *. destruct extra as [|e extra]; [by rewrite app_nil_r|].
    exfalso. apply (f_equal length) in Hq. rewrite !length_app in Hq. simpl in Hq. lia.
Qed.

(** Steps that leave the port and its transactions alone. *)
Lemma quiet_frame w w' :
  port_ok first w -> pw_port w' = pw_port w -> copying (pw_senders w') = copying (pw_senders w) ->
  active (pw_senders w') = active (pw_senders w) -> pw_receivers w' = pw_receivers w ->
  pw_frames w' = pw_frames w -> pw_published w' = pw_published w -> pw_delivered w' = pw_delivered w ->
  (pw_asleep w' <> 0%nat -> pw_asleep w <> 0%nat \/
     port_closed (pw_port w) = false /\ pw_delivered w = pw_published w) ->
  Forall outcome_ok (pw_log w') -> port_ok first w'.
Proof.
  intros [(spans & copied & Hsys & Hcl) Hs Hsl _] Hp Hc Ha Hr Hf Hpu Hd Has Hl. split; [| | |done].
  - exists spans, copied. unfold psys in *. rewrite Hp, Hc, Hf, Hpu, Hd, Hr. done.
  - unfold senders_ok in *. by rewrite Hp, Ha.
  - rewrite Hp, Hd, Hpu. intros Hne. destruct (Has Hne) as [H|H]; [by apply Hsl | done].
Qed.

Lemma send_step w frame rules count : port_ok first w -> port_ok first (p_send w frame rules count).
Proof.
  intros Hw. pose proof (pk_log _ _ Hw) as Hl. unfold p_send.
  destruct (SendArguments _ _ _ _ _) as [failure|] eqn:Ha.
  { apply (quiet_frame w); try done; [by left|]. simpl. constructor; [|done].
    unfold SendArguments in Ha. by guards_in Ha; simplify_eq/=. }
  unfold SendOpenLocked. destruct (port_closed (pw_port w)).
  - apply (quiet_frame w); try done; [by left|]. by constructor.
  - apply (quiet_frame w); try done; [| |by left]; simpl.
    + by rewrite copying_app, app_nil_r.
    + by rewrite active_app, app_nil_r.
Qed.
Lemma preflight_outcome r frame n rules count lv failure :
  PrepareEnqueue_preflight r frame n rules count lv = Some failure -> outcome_ok (ring_failure failure).
Proof. intros Hp. simpl. by eapply preflight_status. Qed.

Lemma reserve_send_step w n lv : port_ok first w -> port_ok first (p_exec w (PReserve n lv)).
Proof.
  intros Hw. simpl. destruct (pw_senders w !! n) as [[frame rules count| |]|] eqn:Hn; try done.
  destruct (opened_gone _ _ _ _ _ Hn) as [Ec Ea]. pose proof (pk_log _ _ Hw) as Hl.
  unfold p_reserve. destruct (PrepareEnqueue_preflight _ _ _ _ _ _) as [failure|] eqn:Hpre.
  { apply (quiet_frame w); try done; [by left|]. constructor; [|done]. by eapply preflight_outcome. }
  destruct (PrepareEnqueue_reserve _ _) as [[status|call] ring] eqn:Hres.
  - pose proof (pk_sys _ _ Hw) as (spans & copied & [(q & Hrep & _) _ _ _] & _).
    destruct (reserve_rep _ _ _ _ _ Hrep (preflight_size _ _ _ _ _ _ Hpre) Hres) as (-> & Hcs & _).
    apply (quiet_frame w); try done; [apply with_port_ring_id | by left|]. by constructor.
  - pose proof (pk_sys _ _ Hw) as (spans & copied & [(q & Hrep & _) _ _ _] & _).
    destruct (reserve_rep _ _ _ _ _ Hrep (preflight_size _ _ _ _ _ _ Hpre) Hres)
      as (Hz & Hrep' & Hsame & Hrv & Hid & Hprod & _).
    apply (sender_frame w _ []); simpl; try done.
    + intros sp cp Hsys. apply (prepare_step first _ frame rules count lv _ None Hsys).
      simpl. unfold frame_size in *. simpl. rewrite Hpre, Hres. unfold psys. simpl.
      by rewrite copying_app, Ec.
    + by rewrite app_nil_r.
    + unfold senders_ok. rewrite active_app, Ea. pose proof (pk_senders _ _ Hw) as Hs. unfold senders_ok in Hs.
      assert (active (pw_senders w) = []) as ->.
      { destruct (active (pw_senders w)) as [|x [|]]; [done | |by destruct x].
        exfalso. destruct x as [| |]; [done | |]; by destruct Hs as [Hs _]. }
      simpl. by rewrite Hprod.
Qed.

Lemma copy_send_step w n k : port_ok first w -> port_ok first (p_exec w (PCopy n k)).
Proof.
  intros Hw. simpl. destruct (pw_senders w !! n) as [[|f|]|] eqn:Hn; try done.
  destruct (copying_at _ _ _ Hn) as (i & Hi & Hins & _). pose proof (pk_senders _ _ Hw) as Hs.
  pose proof (senders_owner _ _ _ _ Hs Hn eq_refl) as Ha.
  apply (sender_frame w _ []); simpl; try done.
  - intros sp cp Hsys. unfold p_copy. apply (copy_step first _ i k _ None Hsys). unfold psys. simpl.
    by rewrite Hi, Hins.
  - by rewrite app_nil_r.
  - unfold senders_ok in *. rewrite Ha in Hs. simpl.
    assert (forall x, active (<[n := SCopying x]> (pw_senders w)) = [SCopying x]) as ->; [|done].
    intros x. clear -Hn Ha. revert n Hn Ha. induction (pw_senders w) as [|y l IH]; intros [|n] Hn Ha; simpl in *; try done.
    + simplify_eq. unfold active in *. simpl in *. by injection Ha as ->.
    + unfold active in *. simpl in *. destruct (is_active y) eqn:Hy; [|by apply IH].
      injection Ha as -> Hnil. exfalso. pose proof (active_member _ _ _ Hn eq_refl) as Hin.
      unfold active in Hin. rewrite Hnil in Hin. by apply elem_of_nil in Hin.
  - apply (pk_log _ _ Hw).
Qed.

(** The sender whose copy is over owns its reservation still. *)
Lemma finish_send_step w n : port_ok first w -> port_ok first (p_exec w (PFinish n)).
Proof.
  intros Hw. simpl. destruct (pw_senders w !! n) as [[|f|]|] eqn:Hn; try done.
  destruct (decide _) as [Hd|]; [|done].
  destruct (copying_at _ _ _ Hn) as (i & Hi & _ & Hdel). pose proof (pk_senders _ _ Hw) as Hs.
  pose proof (senders_owner _ _ _ _ Hs Hn eq_refl) as Ha. unfold senders_ok in Hs. rewrite Ha in Hs.
  destruct Hs as (Hnz & Hid & Hact & Hab).
  pose proof (pk_sys _ _ Hw) as (spans & copied & [(q & Hrep & _) _ _ _] & _). simpl in Hrep.
  destruct (finish_rep _ _ Hrep Hact) as [Hf _]. rewrite Hab in Hf. simpl in Hf.
  unfold p_finish. rewrite Hid, Hf.
  apply (sender_frame w _ []); simpl; try done.
  - intros sp cp Hsys. apply (finish_step first _ i _ (Some RingOk) Hsys). unfold psys. simpl.
    rewrite Hi, decide_True, Hid, Hf by done. by rewrite copying_app, Hdel, app_nil_r.
  - by rewrite app_nil_r.
  - unfold senders_ok. rewrite active_app, (active_single _ _ _ Hn eq_refl Ha). simpl. split; [|done].
    intros E. apply Hnz. destruct (rep_producer _ _ Hrep) as [|(? & _)]; [done|].
    apply (f_equal producer_reservation_id) in E. simpl in E. lia.
  - apply (pk_log _ _ Hw).
Qed.

Lemma abort_owned r q id :
  ring_rep r q -> id = producer_reservation_id (producer r) -> producer r <> zero_producer ->
  producer_copy_active (producer r) = 0 -> MessageRingAbortEnqueue (Some r) id = (RingOk, Some (ClearProducer r)).
Proof.
  intros Hrep -> Hnz Hact. pose proof (producer_nonzero _ _ Hrep Hnz) as Hid.
  unfold MessageRingAbortEnqueue. rewrite (rep_is_ready _ _ Hrep), (StateIsValid_rep _ _ Hrep), Z.eqb_refl, Hact.
  by replace (producer_reservation_id (producer r) =? 0) with false by lia.
Qed.

(** Publishing what one owns fails only without touching the ring, or by
    giving the reservation up. *)
Lemma publish_owned r q id out st ring v :
  ring_rep r q -> id = producer_reservation_id (producer r) -> producer r <> zero_producer ->
  producer_copy_active (producer r) = 0 ->
  MessageRingPublishEnqueue (Some r) id out = (st, ring, v) ->
  exists r', ring = Some r' /\
    (st = RingOk /\ PublishEnqueue_locked r id = (RingOk, r', (PublishEnqueue_locked r id).2)
     \/ st <> RingOk /\ st <> RingCorruptState /\ (r' = r \/ r' = ClearProducer r)).
Proof.
  intros Hrep Hid Hnz Hact. unfold MessageRingPublishEnqueue.
  destruct (_ && _); [intros [= <- <- <-]; eexists; split; [done|]; right; auto|].
  destruct (RangesOverlap _ _ _ _); [intros [= <- <- <-]; eexists; split; [done|]; right; auto|].
  destruct (negb _); [intros [= <- <- <-]; eexists; split; [done|]; right; auto|].
  destruct (RangesOverlap _ _ _ _); [intros [= <- <- <-]; eexists; split; [done|]; right; auto|].
  destruct (id =? 0); [intros [= <- <- <-]; eexists; split; [done|]; right; auto|].
  destruct (PublishEnqueue_locked r id) as [[st' r'] sequence] eqn:Hpub. intros [= <- <- _].
  exists r'. split; [done|]. destruct (decide (sequence_exhausted r = 0)) as [Hse|Hse].
  - left. unfold PublishEnqueue_locked in Hpub. rewrite (StateIsValid_rep _ _ Hrep), Hid, Z.eqb_refl, Hact in Hpub.
    destruct (rep_producer _ _ Hrep) as [|(_ & _ & _ & _ & _ & [[? _]|[_ Hab]])]; [done | lia|].
    rewrite Hab, Hse in Hpub. simpl in Hpub. by simplify_eq.
  - right. destruct (publish_refused _ _ _ _ _ _ Hrep Hpub) as (? & ? & Hr); [auto|].
    split; [done|]. split; [done|]. destruct Hr as [->|[-> _]]; auto.
Qed.

Lemma publish_fields r id r' sequence :
  PublishEnqueue_locked r id = (RingOk, r', sequence) -> receiver r' = receiver r /\ producer r' = zero_producer.
Proof.
  unfold PublishEnqueue_locked. intros Hp. guards_in Hp. by destruct (_ =? kU64Max).
Qed.

(** Giving a prepared reservation up. *)
Lemma give_up_step w n e p result :
  port_ok first w -> pw_senders w !! n = Some (SPrepared e) ->
  p = with_port_ring (pw_port w) (Some (ClearProducer (port_ring (pw_port w)))) ->
  enq_status (send_ring result) <> RingCorruptState ->
  port_ok first (MkPWorld p (delete n (pw_senders w)) (pw_receivers w) (pw_asleep w) (pw_woken w)
    (pw_frames w) (pw_published w ++ []) (pw_delivered w) (OSend result :: pw_log w)).
Proof.
  intros Hw Hn -> Hst. pose proof (pk_senders _ _ Hw) as Hs.
  pose proof (senders_owner _ _ _ _ Hs Hn eq_refl) as Ha. unfold senders_ok in Hs. rewrite Ha in Hs.
  destruct Hs as (Hnz & Hid & Hact & _).
  pose proof (pk_sys _ _ Hw) as (spans & copied & [(q & Hrep & _) _ _ _] & _). simpl in Hrep.
  apply (sender_frame w _ []); simpl; try done.
  - intros sp cp Hsys. rewrite app_nil_r. apply (abort_step first _ (enq_reservation_id e) _ (Some RingOk) Hsys).
    unfold psys. cbn [ring_exec sys_ring]. rewrite (abort_owned _ q) by done. unfold with_ring. simpl.
    by rewrite (prepared_gone _ _ _ Hn).
  - unfold senders_ok. by rewrite (active_single _ _ _ Hn eq_refl Ha).
  - constructor; [done | apply (pk_log _ _ Hw)].
Qed.

Lemma publish_send_step w n out : port_ok first w -> port_ok first (p_exec w (PPublish n out)).
Proof.
  intros Hw. simpl. destruct (pw_senders w !! n) as [[| |e]|] eqn:Hn; try done.
  pose proof (pk_senders _ _ Hw) as Hs. pose proof (senders_owner _ _ _ _ Hs Hn eq_refl) as Ha.
  unfold senders_ok in Hs. rewrite Ha in Hs. destruct Hs as (Hnz & Hid & Hact & Hok).
  pose proof (pk_sys _ _ Hw) as (spans & copied & [(q & Hrep & _) _ _ _] & _). simpl in Hrep.
  unfold p_publish, SendPublishLocked. destruct (port_closed (pw_port w)) eqn:Hc.
  { rewrite (abort_owned _ q) by done. by apply (give_up_step _ _ e). }
  destruct (MessageRingPublishEnqueue _ _ _) as [[st ring] v] eqn:Hpub.
  destruct (publish_owned _ _ _ _ _ _ _ Hrep Hid Hnz Hact Hpub) as (r' & -> & Hcase).
  destruct Hcase as [[-> Hl]|(Hno & Hcs & Hr)].
  - simpl. apply (sender_frame w _ [((PublishEnqueue_locked (port_ring (pw_port w)) (enq_reservation_id e)).2,
                                     default [] (pw_frames w !! enq_reservation_id e))]); simpl; try done.
    + intros sp cp Hsys. apply (publish_step first _ (enq_reservation_id e) out _ (Some RingOk) Hsys).
      unfold psys. cbn [ring_exec sys_ring]. rewrite Hpub. simpl. by rewrite (prepared_gone _ _ _ Hn).
    + by apply publish_fields in Hl as [-> _].
    + unfold senders_ok. rewrite (active_single _ _ _ Hn eq_refl Ha). by apply publish_fields in Hl as [_ ->].
    + constructor; [done | apply (pk_log _ _ Hw)].
  - assert (snd (MessageRingAbortEnqueue (Some r') (enq_reservation_id e)) = Some (ClearProducer (port_ring (pw_port w)))) as Hab.
    { destruct Hr as [->| ->]; [by rewrite (abort_owned _ q)|]. pose proof (producer_nonzero _ _ Hrep Hnz).
      unfold MessageRingAbortEnqueue. rewrite Hid. set (id := producer_reservation_id (producer (port_ring (pw_port w)))) in *.
      replace (id =? 0) with false by lia.
      pose proof (ClearProducer_rep _ _ Hrep) as Hrep'.
      rewrite (rep_is_ready _ _ Hrep'), (StateIsValid_rep _ _ Hrep'). simpl.
      by destruct id. }
    destruct st; try done; rewrite Hab; by apply (give_up_step _ _ e).
Qed.

(** ** Receivers *)

Lemma zero_receiver_copy : receive_copy_id zero_receiver = 0.
Proof. done. Qed.

(** Cancelling a claim one owns clears it. *)
Lemma cancel_owned r q view :
  ring_rep r q -> receive_sequence (receiver r) = peek_sequence view ->
  receive_lease_id (receiver r) = peek_receive_lease_id view -> receive_copy_id (receiver r) = 0 ->
  receiver r <> zero_receiver -> cancel_claim (Some r) view = Some (ClearReceiver r).
Proof.
  intros Hrep Hs Hl Hc Hnz. unfold cancel_claim, MessageRingCancelReceive.
  destruct (decide (receive_sequence (receiver r) = 0)) as [E|Hne];
    [by rewrite (receiver_idle _ _ Hrep E) in Hnz|].
  destruct (receiver_busy _ _ Hrep Hne) as (f & q' & _ & _ & Hlease & _).
  rewrite <- Hs, <- Hl, (rep_is_ready _ _ Hrep), (StateIsValid_rep _ _ Hrep), !Z.eqb_refl, Hc.
  replace (receive_sequence (receiver r) =? 0) with false by lia.
  by replace (receive_lease_id (receiver r) =? 0) with false by lia.
Qed.

Lemma head_spans_bytes r s f q cid :
  ring_rep r ((s, f) :: q) ->
  span_bytes (head_spans (head_offset r) (capacity_bytes r) (Z.of_nat (length f)) cid) = length f.
Proof.
  intros Hrep. pose proof (read_head_spans _ _ _ _ cid Hrep) as [_ Hb]. cbv zeta in Hb.
  pose proof (rep_cap_range _ _ Hrep) as Hcap. pose proof (rep_head _ _ Hrep) as Hh.
  pose proof (rep_fits _ _ Hrep) as Hfit. pose proof (rep_used _ _ Hrep) as Hu.
  rewrite queue_bytes_cons, length_app, length_record_of in Hu. simpl in Hu.
  unfold span_bytes, head_spans in *. simpl in *.
  rewrite AdvanceOffset_mod in * by lia.
  pose proof (Z.mod_pos_bound (head_offset r + 16) (capacity_bytes r) ltac:(lia)) as Hm.
  rewrite (wrap32_small (capacity_bytes r - _)) in * by ulia.
  destruct (Z.ltb_spec (Z.of_nat (length f)) (capacity_bytes r - (head_offset r + 16) mod capacity_bytes r));
    rewrite (wrap32_small (Z.of_nat (length f) - _)) in * by ulia; lia.
Qed.

(** A receive that leaves without a claim. *)
Lemma receive_refused w r' result bytes :
  port_ok first w ->
  (forall spans copied, sys_ok first (psys w spans copied) ->
     sys_ok first (psys (p_port w (with_port_ring (pw_port w) (Some r'))) spans copied)) ->
  producer r' = producer (port_ring (pw_port w)) -> receiver r' = receiver (port_ring (pw_port w)) ->
  recv_ring_status result <> RingCorruptState ->
  port_ok first (p_log (p_port w (with_port_ring (pw_port w) (Some r'))) (OReceive result bytes)).
Proof.
  intros Hw Hsys Hp Hr Hst. apply (receiver_frame w); try done.
  - destruct (pk_sys _ _ Hw) as (spans & copied & Hs & Hc). exists spans, copied.
    split; [by apply Hsys|]. simpl. by rewrite Hr.
  - exists []. by rewrite app_nil_r.
  - constructor; [done | apply (pk_log _ _ Hw)].
Qed.

Lemma claims_idle v spans published delivered l :
  claims_ok v spans published delivered l -> v = zero_receiver -> l = [].
Proof.
  intros Hc ->. destruct l as [|[c got] [|]]; [done | |done]. destruct Hc as (E & Hne & _).
  apply (f_equal receive_copy_id) in E. simpl in E. by destruct Hne.
Qed.

Lemma receive_begin_step w dst n lv ls : port_ok first w -> port_ok first (p_receive w dst n lv ls).
Proof.
  intros Hw. pose proof (pk_log _ _ Hw) as Hl. unfold p_receive.
  destruct (ReceiveArguments _ _ _) as [failure|] eqn:Ha.
  { apply (quiet_frame w); try done; [by left|]. constructor; [|done].
    unfold ReceiveArguments in Ha. by guards_in Ha; simplify_eq/=. }
  pose proof (pk_sys _ _ Hw) as (spans & copied & Hsys & Hc). pose proof Hsys as [(q & Hrep & Hlog & _) _ _ _].
  simpl in Hrep, Hlog. unfold ReceiveBeginLocked. destruct (port_closed (pw_port w)) eqn:Hcl.
  { rewrite <- (with_port_ring_id (pw_port w)) at 1. by apply receive_refused. }
  destruct (MessageRingPeek _ _) as [[st ring] v] eqn:Hpk. pose proof Hpk as Hpk0.
  apply (peek_rep _ _ _ _ _ _ Hrep) in Hpk as (Hcs & r1 & -> & Hrep1 & Hcase).
  destruct Hcase as [[-> Hno]|(-> & Hz & Hsame & Hprod & s & f & q0 & lease & -> & Hlease & Hrc & ->)].
  { destruct st; try done; by apply receive_refused. }
  assert (pw_receivers w = []) as Hnil by (by eapply claims_idle).
  assert (Hsys1 : forall sp cp, sys_ok first (psys w sp cp) ->
            sys_ok first (psys (p_port w (with_port_ring (pw_port w) (Some r1))) sp cp)).
  { intros sp cp Hs. apply (peek_step first _ lv _ (Some RingOk) Hs). unfold psys. cbn [ring_exec sys_ring].
    by rewrite Hpk0. }
  assert (cancel_claim (Some r1) (MkPeekView s lease (Z.of_nat (length f))) = Some (ClearReceiver r1)) as Hcan.
  { apply (cancel_owned _ _ _ Hrep1); rewrite Hrc; try done. intros [=]; lia. }
  assert (Hsysc : forall sp cp, sys_ok first (psys w sp cp) ->
            sys_ok first (psys (p_port w (with_port_ring (pw_port w) (Some (ClearReceiver r1)))) sp cp)).
  { intros sp cp Hs. pose proof Hcan as Hco. unfold cancel_claim in Hco.
    cbn [peek_sequence peek_receive_lease_id] in Hco.
    destruct (MessageRingCancelReceive (Some r1) s lease) as [st2 ring2] eqn:Hcr. simpl in Hco. subst ring2.
    apply (cancel_step first _ s lease _ (Some st2) (Hsys1 _ _ Hs)). unfold psys. cbn [ring_exec sys_ring].
    change (port_ring (pw_port (p_port w (with_port_ring (pw_port w) (Some r1))))) with r1. by rewrite Hcr. }
  set (view := MkPeekView s lease (Z.of_nat (length f))) in *.
  change (default zero_peek_view (Some view)) with view. cbv zeta. rewrite Hcan.
  destruct (n <? _).
  { by apply receive_refused. }
  destruct (MessageRingBeginCopyOut _ _ _ _) as [[st2 ring2] v2] eqn:Hb. pose proof Hb as Hb0.
  apply (begin_rep _ _ _ _ _ _ _ _ Hrep1) in Hb as (Hcs2 & r2 & -> & Hrep2 & Hcase).
  destruct Hcase as [[-> Hno]|(-> & Hsame2 & Hprod2 & f' & q' & cid & Hq & _ & _ & _ & Hcid & Hrc2 & ->)].
  { destruct st2; try done; rewrite ?Hcan; by apply receive_refused. }
  injection Hq as <- <-. simpl default. rewrite Hnil.
  apply (receiver_frame w); try done.
  - exists (head_spans (head_offset r1) (capacity_bytes r1) (Z.of_nat (length f)) cid), copied. split.
    + apply (begin_step first _ s lease ls _ (Some RingOk) (Hsys1 _ _ Hsys)). unfold psys. cbn [ring_exec sys_ring].
      change (port_ring (pw_port (p_port w (with_port_ring (pw_port w) (Some r1))))) with r1.
      cbn [peek_sequence peek_receive_lease_id view] in Hb0. by rewrite Hb0.
    + simpl. rewrite Hrc2. split_and!; try done; [simpl; lia|]. exists f. simpl. split_and!; try done.
      * by rewrite Hlog, lookup_app_r, Nat.sub_diag by done.
      * by eapply head_spans_bytes.
  - simpl. by rewrite Hprod2, Hprod.
  - exists []. by rewrite app_nil_r.
Qed.

Lemma copy_out_step w n k : port_ok first w -> port_ok first (p_exec w (PCopyOut n k)).
Proof.
  intros Hw. simpl. destruct (pw_receivers w !! n) as [[c got]|] eqn:Hn; [|done].
  pose proof (pk_sys _ _ Hw) as (spans & copied & Hsys & Hc).
  apply (receiver_frame w); try done; [|exists []; by rewrite app_nil_r | apply (pk_log _ _ Hw)].
  exists spans, copied. split; [done|]. simpl. unfold claims_ok in Hc.
  destruct (pw_receivers w) as [|[c' got'] [|]] eqn:Hl; [done | |done].
  destruct n; [|done]. injection Hn as -> ->. destruct Hc as (Hv & Hne & Hsp & f & Hf & Hg & Hrest).
  simpl. split_and!; try done. exists f. split; [done|]. split; [|done].
  destruct (spans_read _ _ Hsys) as [_ Hread]; [simpl; rewrite Hv; done|]. simpl in Hread.
  rewrite Hf, Hsp in Hread. injection Hread as _ <-.
  assert (forall (x : list Z) m, got = take (length got) x ->
            got ++ take m (drop (length got) x) = take (length got + m) x) as E.
  { intros x m Hx. rewrite Hx at 1. apply take_take_drop. }
  rewrite (E _ _ Hg). apply take_own_length.
Qed.

(** The end of a receive whose copy is complete: on an open port the frame
    is committed, on a closed one the claim is given back. *)
Section Ending.
Context (w : PWorld) (c : ReceiveClaim) (spans : MessageRingCopySpans) (copied f : list Z).
Let r := port_ring (pw_port w).
Let sequence := peek_sequence (claim_view c).
Let lease := peek_receive_lease_id (claim_view c).
Let cid := span_copy_id (claim_spans c).
Context (Hsys : sys_ok first (psys w spans copied)).
Context (Hrc : receiver r = MkReceiver sequence lease (Z.of_nat (length f)) cid 0) (Hcid : cid <> 0).
Context (Hf : pw_published w !! length (pw_delivered w) = Some (sequence, f)).

Let ended (ok : bool) : MessageRing :=
  set_receiver r (MkReceiver sequence lease (Z.of_nat (length f)) 0 (if ok then cid else 0)).

Lemma ending_queue : exists q, ring_rep r ((sequence, f) :: q) /\ pw_published w = pw_delivered w ++ (sequence, f) :: q.
Proof.
  pose proof Hsys as [(q & Hrep & Hlog & _) _ _ _]. simpl in Hrep, Hlog. pose proof Hf as Hf'.
  rewrite Hlog, lookup_app_r, Nat.sub_diag in Hf' by done. destruct q as [|e q]; [done|].
  injection Hf' as ->. by exists q.
Qed.

Lemma ending_copy ok :
  MessageRingEndCopyOut (Some r) sequence lease cid ok = (RingOk, Some (ended ok))
  /\ sys_ok first (MkSys (ended ok) (copying (pw_senders w)) (pw_frames w) spans f (pw_published w) (pw_delivered w)).
Proof.
  destruct ending_queue as (q & Hrep & _).
  assert (MessageRingEndCopyOut (Some r) sequence lease cid ok = (RingOk, Some (ended ok))) as Hend
    by (by eapply end_owned).
  split; [done|]. destruct (spans_read _ _ Hsys) as [_ Hread]; [simpl; fold r; by rewrite Hrc|].
  simpl in Hread. fold r in Hread. rewrite Hf in Hread. injection Hread as _ Hread.
  destruct (end_step first (psys w spans copied) sequence lease cid ok
    (MkSys (ended ok) (copying (pw_senders w)) (pw_frames w) spans (read_spans r spans) (pw_published w) (pw_delivered w))
    (Some RingOk) Hsys) as [Hs1 _]; [|by rewrite <- Hread in Hs1].
  unfold psys. cbn [ring_exec sys_ring]. fold r. by rewrite Hend.
Qed.

Lemma ending_closed :
  cancel_claim (snd (MessageRingEndCopyOut (Some r) sequence lease cid false)) (claim_view c)
    = Some (ClearReceiver (ended false))
  /\ sys_ok first (MkSys (ClearReceiver (ended false)) (copying (pw_senders w)) (pw_frames w) spans f
                    (pw_published w) (pw_delivered w)).
Proof.
  destruct ending_queue as (q & Hrep & _). destruct (ending_copy false) as [-> Hs1].
  pose proof Hs1 as [(q1 & Hrep1 & _) _ _ _]. simpl in Hrep1.
  assert (1 <= lease) as Hlease.
  { destruct (rep_receiver _ _ Hrep) as [Hz|(_ & _ & _ & _ & Hl & _)]; rewrite Hrc in *; [by injection Hz | done]. }
  assert (cancel_claim (Some (ended false)) (claim_view c) = Some (ClearReceiver (ended false))) as Hcan.
  { apply (cancel_owned _ _ _ Hrep1); try done. simpl. intros [=]. lia. }
  split; [done|]. unfold cancel_claim in Hcan. fold sequence lease in Hcan.
  destruct (MessageRingCancelReceive _ sequence lease) as [st ring] eqn:Hcr. simpl in Hcan. subst ring.
  apply (cancel_step first _ sequence lease _ (Some st) Hs1). cbn [ring_exec sys_ring]. by rewrite Hcr.
Qed.

Lemma ending_open :
  exists r', MessageRingCommit (Some (ended true)) sequence lease = (RingOk, Some r')
    /\ producer r' = producer r /\ receiver r' = zero_receiver
    /\ sys_ok first (MkSys r' (copying (pw_senders w)) (pw_frames w) spans f (pw_published w)
                      (pw_delivered w ++ [(sequence, f)])).
Proof.
  destruct ending_queue as (q & _ & Hlog). destruct (ending_copy true) as [_ Hs1].
  pose proof Hs1 as [(q1 & Hrep1 & Hlog1 & _) _ _ _]. simpl in Hrep1, Hlog1.
  assert (q1 = (sequence, f) :: q) as -> by (rewrite Hlog in Hlog1; by apply app_inv_head in Hlog1).
  destruct (commit_owned _ sequence f q lease cid Hrep1) as (r2 & Hc & _ & Hp2 & Hrc2); [done|done|].
  exists r2. split_and!; try done.
  apply (commit_step first _ sequence lease _ (Some RingOk) Hs1). cbn [ring_exec sys_ring]. by rewrite Hc.
Qed.
End Ending.

Lemma receive_end_step w n : port_ok first w -> port_ok first (p_exec w (PReceiveEnd n)).
Proof.
  intros Hw. simpl. destruct (pw_receivers w !! n) as [[c got]|] eqn:Hn; [|done].
  unfold p_receive_end. destruct (decide _) as [Hlen|]; [|done].
  pose proof (pk_sys _ _ Hw) as (spans & copied & Hsys & Hc). unfold claims_ok in Hc.
  destruct (pw_receivers w) as [|[c' got'] [|]] eqn:Hl; [done | |done].
  destruct n; [|done]. injection Hn as -> ->. destruct Hc as (Hv & Hne & Hsp & f & Hf & Hg & Hfs & Hsb).
  assert (got = f) as -> by (rewrite Hg, Hlen, <- Hsp, Hsb; by apply take_ge).
  rewrite Hfs in Hv. pose proof (pk_log _ _ Hw) as Hlog. unfold ReceiveEndLocked.
  destruct (port_closed (pw_port w)) eqn:Hcl.
  - destruct (ending_closed w c spans copied f Hsys Hv Hne Hf) as [-> Hs1]. simpl.
    apply (receiver_frame w); try done; [|by eexists | by constructor].
    exists spans, f. split; [|done]. simpl. by rewrite app_nil_r.
  - destruct (ending_copy w c spans copied f Hsys Hv Hne Hf true) as [-> _].
    destruct (ending_open w c spans copied f Hsys Hv Hne Hf) as (r' & -> & Hp & Hr & Hs1). simpl.
    apply (receiver_frame w); try done; [|by eexists | by constructor].
    exists spans, f. by split.
Qed.

(** ** Waiters and closers *)

(** A turn waits exactly on an open port with nothing undelivered. *)
Lemma turn_waits w out :
  port_ok first w -> WaitReadableTurn (pw_port w) out = None ->
  port_closed (pw_port w) = false /\ pw_delivered w = pw_published w.
Proof.
  intros Hw. pose proof (pk_sys _ _ Hw) as (spans & copied & [(q & Hrep & Hlog & _) _ _ _] & _).
  simpl in Hrep, Hlog. unfold WaitReadableTurn. destruct (port_closed (pw_port w)); [done|].
  unfold MessageRingInspect. destruct (output_preflight _ _ _ _) as [st|r0] eqn:Hp.
  { apply preflight_inl in Hp as [_ Hno]. by destruct st. }
  apply preflight_inr in Hp as [-> _]. rewrite (StateIsValid_rep _ _ Hrep). simpl.
  rewrite (rep_queued _ _ Hrep). destruct q; [|done]. intros _. by rewrite Hlog, app_nil_r.
Qed.

Lemma turn_step w woken out : port_ok first w -> port_ok first (p_turn w woken out).
Proof.
  intros Hw. unfold p_turn. destruct (WaitReadableTurn _ _) as [st|] eqn:Ht.
  - apply (quiet_frame w); try done; [by left|]. constructor; [done | apply (pk_log _ _ Hw)].
  - apply (quiet_frame w); try done; [intros _; right; by eapply turn_waits | apply (pk_log _ _ Hw)].
Qed.

Lemma close_step w : port_ok first w -> port_ok first (p_exec w PClose).
Proof.
  intros Hw. simpl. unfold CloseInternal. destruct (port_closed (pw_port w)) eqn:Hc; simpl.
  { apply (quiet_frame w); try done; [by left | apply (pk_log _ _ Hw)]. }
  destruct Hw as [(spans & copied & Hsys & Hcl) Hs Hsl Hl]. split; try done. by exists spans, copied.
Qed.

Lemma p_exec_ok w a : port_ok first w -> port_ok first (p_exec w a).
Proof.
  intros Hw. pose proof (pk_log _ _ Hw) as Hl.
  destruct a; eauto using reserve_send_step, copy_send_step, finish_send_step, publish_send_step,
    copy_out_step, receive_end_step, close_step; simpl.
  - by apply send_step.
  - by apply receive_begin_step.
  - by apply turn_step.
  - destruct (pw_asleep w) eqn:Ha; [done|]. apply (quiet_frame w); try done. intros _. left. by rewrite Ha.
  - destruct (pw_woken w); [done|]. by apply turn_step.
  - destruct (pw_asleep w) eqn:Ha; [done|]. apply (quiet_frame w); try done; [|by constructor].
    intros _. left. by rewrite Ha.
Qed.

Lemma p_run_ok acts : forall w, port_ok first w -> port_ok first (p_run w acts).
Proof. induction acts as [|a acts IH]; intros w Hw; simpl; [done|]. by apply IH, p_exec_ok. Qed.
End Steps.

(** The port of a successful creation. *)
Lemma created_ok h ports allocation h' ports' self :
  KMessagePortCreate h ports allocation = (h', ports', inr self) ->
  exists p, ports' !! self = Some p /\ port_closed p = false /\ port_ok 1 (p_start p).
Proof.
  unfold KMessagePortCreate. destruct allocation as [a|]; [|done].
  assert (kMessagePortStorageBytes = Z.of_nat (length (buf_bytes (zero_storage a)))) as Hlen.
  { unfold zero_storage. cbn [buf_bytes]. by rewrite length_replicate. }
  generalize dependent (zero_storage a). intros store Hlen.
  destruct (MessageRingInitialize _ _ _ _) as [st [ring|]] eqn:Hi; [|by destruct st].
  destruct st; try done. intros [= <- <- <-].
  exists (MkPort a false ring). rewrite lookup_insert_eq. split; [done|]. split; [done|].
  destruct (initialize_ok _ _ _ _ _ Hi Hlen) as [_ Hs]; [done | done |].
  assert (producer ring = zero_producer /\ receiver ring = zero_receiver) as [Hp Hr].
  { unfold MessageRingInitialize in Hi. by guards_in Hi. }
  split; simpl; try done. by exists zero_spans, [].
Qed.
