(* ===== verification/KMessagePortProps.v ===== *)
(** * Message ports: what they promise

    The theorems about the system of [KMessagePortSpec]: a port is a FIFO
    channel whose transactions never leak, a close is final, and no waiter
    sleeps through a message or a close; and about the entry points through
    a handle, which check the right the operation needs and give back the
    reference they take. *)

From S2P Require Import Prelude Bytes MessageAbi VersionedPayload MessageRing MessageRingRep MessageRingSpec.
From S2P Require Import KObject HandleTable HandleTableOps HandleTableSpec HandleTableSeq.
From S2P Require Import KMessagePort KMessagePortSpec.

(** What receivers were given, oldest first. *)
Definition given (o : POutcome) : option entry :=
  match o with
  | OReceive result bytes => if bool_decide (recv_status result = PortOk) then Some (recv_sequence result, bytes) else None
  | _ => None
  end.
Definition taken (o : POutcome) : option unit :=
  match o with
  | OSend result => if bool_decide (send_status result = PortOk) then Some tt else None
  | _ => None
  end.
Definition succeeded (o : POutcome) : Prop :=
  match o with
  | OSend result => send_status result = PortOk
  | OReceive result _ => recv_status result = PortOk
  | OWait status => status = PortOk
  end.

Lemma send_publish_status p e out : forall p' result broadcast,
  SendPublishLocked p e out = (p', result, broadcast) ->
  broadcast = bool_decide (send_status result = PortOk) /\ port_closed p' = port_closed p
  /\ (port_closed p = true -> send_status result <> PortOk).
Proof.
  unfold SendPublishLocked. intros p' result broadcast. destruct (port_closed p) eqn:Hc.
  - intros [= <- <- <-]. simpl. by rewrite Hc.
  - destruct (MessageRingPublishEnqueue _ _ _) as [[st ring] v]. destruct st; intros [= <- <- <-]; simpl; by rewrite Hc.
Qed.

Lemma receive_begin_status p n lv ls p' res :
  ReceiveBeginLocked p n lv ls = (p', res) ->
  port_closed p' = port_closed p
  /\ match res with inl failure => recv_status failure <> PortOk | inr _ => port_closed p = false end.
Proof.
  unfold ReceiveBeginLocked. intros H. destruct (port_closed p) eqn:Hc; [by simplify_eq|].
  destruct (MessageRingPeek _ _) as [[st ring] v]. destruct st; simplify_eq/=; try by rewrite Hc.
  destruct (_ <? _); [by simplify_eq/=; rewrite Hc|].
  destruct (MessageRingBeginCopyOut _ _ _ _) as [[st2 ring2] v2]. destruct st2; simplify_eq/=; by rewrite Hc.
Qed.

Lemma receive_end_status p c p' result :
  ReceiveEndLocked p c = (p', result) ->
  port_closed p' = port_closed p /\ (port_closed p = true -> recv_status result <> PortOk).
Proof.
  unfold ReceiveEndLocked. intros H. destruct (port_closed p) eqn:Hc; [by simplify_eq|].
  destruct (MessageRingEndCopyOut _ _ _ _ _) as [st ring]. destruct st; simplify_eq/=; try done.
  destruct (MessageRingCommit _ _ _) as [st2 ring2]. by destruct st2; simplify_eq/=.
Qed.

Lemma send_arguments_status p frame n rules count failure :
  SendArguments (Some p) frame n rules count = Some failure -> send_status failure <> PortOk.
Proof. unfold SendArguments. intros H. by guards_in H; simplify_eq/=. Qed.

Lemma receive_arguments_status p dst n failure :
  ReceiveArguments (Some p) dst n = Some failure -> recv_status failure <> PortOk.
Proof. unfold ReceiveArguments. intros H. by guards_in H; simplify_eq/=. Qed.

(** What one step adds: the outcomes told to callers, with the publications
    and deliveries they stand for; a closed port adds no success. *)
Record effect (w w' : PWorld) (new : list POutcome) : Prop := {
  ef_log : pw_log w' = new ++ pw_log w;
  ef_published : exists p, pw_published w' = pw_published w ++ p /\ length p = length (omap taken new);
  ef_delivered : pw_delivered w' = pw_delivered w ++ reverse (omap given new);
  ef_closed : port_closed (pw_port w) = true ->
    port_closed (pw_port w') = true /\ Forall (fun o => ~ succeeded o) new
    /\ (pw_asleep w = 0%nat -> pw_asleep w' = 0%nat);
}.

Lemma effect_refl w : effect w w [].
Proof. split; simpl; try done; [exists []; by rewrite app_nil_r | by rewrite app_nil_r]. Qed.

Lemma effect_trans w1 w2 w3 new1 new2 :
  effect w1 w2 new1 -> effect w2 w3 new2 -> effect w1 w3 (new2 ++ new1).
Proof.
  intros [L1 (p1 & P1 & N1) D1 C1] [L2 (p2 & P2 & N2) D2 C2]. split.
  - by rewrite L2, L1, app_assoc.
  - exists (p1 ++ p2). rewrite P2, P1, app_assoc, omap_app, !length_app. split; [done | lia].
  - by rewrite D2, D1, omap_app, reverse_app, app_assoc.
  - intros Hc. destruct (C1 Hc) as (Hc2 & F1 & A1). destruct (C2 Hc2) as (? & F2 & A2).
    split; [done|]. split; [by apply Forall_app | auto].
Qed.

(** A step that tells no success. *)
Lemma effect_plain w w' new :
  pw_log w' = new ++ pw_log w -> pw_published w' = pw_published w -> pw_delivered w' = pw_delivered w ->
  Forall (fun o => taken o = None /\ given o = None) new ->
  (port_closed (pw_port w) = true -> port_closed (pw_port w') = true /\ Forall (fun o => ~ succeeded o) new
    /\ (pw_asleep w = 0%nat -> pw_asleep w' = 0%nat)) ->
  effect w w' new.
Proof.
  intros Hl Hp Hd Hn Hc.
  assert (omap taken new = [] /\ omap given new = []) as [Ht Hg].
  { clear -Hn. induction Hn as [|o new [Ho1 Ho2] _ [IH1 IH2]]; [done|]. simpl. by rewrite Ho1, Ho2. }
  split; [done | | |done].
  - exists []. by rewrite app_nil_r, Ht.
  - by rewrite Hg, app_nil_r.
Qed.

Lemma failed_send r : send_status r <> PortOk -> taken (OSend r) = None /\ given (OSend r) = None /\ ~ succeeded (OSend r).
Proof. intros H. simpl. by rewrite bool_decide_eq_false_2. Qed.
Lemma failed_receive r bytes :
  recv_status r <> PortOk ->
  taken (OReceive r bytes) = None /\ given (OReceive r bytes) = None /\ ~ succeeded (OReceive r bytes).
Proof. intros H. simpl. by rewrite bool_decide_eq_false_2. Qed.

Lemma effect_failure w w' o :
  taken o = None /\ given o = None /\ ~ succeeded o ->
  pw_log w' = o :: pw_log w -> pw_published w' = pw_published w -> pw_delivered w' = pw_delivered w ->
  port_closed (pw_port w') = port_closed (pw_port w) -> pw_asleep w' = pw_asleep w -> effect w w' [o].
Proof.
  intros (Ht & Hg & Hs) Hl Hp Hd Hc Ha. apply effect_plain; try done; [by constructor|].
  intros Hcl. rewrite Hc, Ha. split; [done|]. split; [by constructor | done].
Qed.

Lemma effect_silent w w' :
  pw_log w' = pw_log w -> pw_published w' = pw_published w -> pw_delivered w' = pw_delivered w ->
  port_closed (pw_port w') = port_closed (pw_port w) -> pw_asleep w' = pw_asleep w -> effect w w' [].
Proof. intros Hl Hp Hd Hc Ha. apply effect_plain; try done. by rewrite Hc, Ha. Qed.

Ltac fails_send := eapply effect_failure; [|reflexivity|done..]; by apply failed_send.
Ltac fails_receive := eapply effect_failure; [|reflexivity|done..]; by apply failed_receive.

Lemma publish_effect w n e out : exists new, effect w (p_publish w n e out) new.
Proof.
  unfold p_publish. destruct (SendPublishLocked _ _ _) as [[p result] broadcast] eqn:Hs.
  destruct (send_publish_status _ _ _ _ _ _ Hs) as (-> & Hc & Hcl). exists [OSend result].
  case_bool_decide as Hok; simpl.
  - split; simpl; try done.
    + eexists. split; [done|]. simpl. by rewrite bool_decide_eq_true_2.
    + by rewrite app_nil_r.
    + intros Hc'. by destruct (Hcl Hc').
  - apply effect_failure; try done; [by apply failed_send|]. simpl. by rewrite app_nil_r.
Qed.

Lemma receive_end_effect w n c got : exists new, effect w (p_receive_end w n c got) new.
Proof.
  unfold p_receive_end. destruct (decide _); [|exists []; apply effect_refl].
  destruct (ReceiveEndLocked _ _) as [p result] eqn:Hr. destruct (receive_end_status _ _ _ _ Hr) as [Hc Hcl].
  exists [OReceive result got]. case_bool_decide as Hok; simpl.
  - split; simpl; try done.
    + exists []. by rewrite app_nil_r.
    + by rewrite bool_decide_eq_true_2.
    + intros Hc'. by destruct (Hcl Hc').
  - apply effect_failure; try done; [by apply failed_receive|]. simpl. by rewrite app_nil_r.
Qed.

Lemma turn_effect w woken out : exists new, effect w (p_turn w woken out) new.
Proof.
  unfold p_turn. destruct (WaitReadableTurn _ _) as [st|] eqn:Ht.
  - exists [OWait st]. apply effect_plain; try done; [by constructor|]. simpl. intros Hc. split; [done|].
    split; [|done]. constructor; [|done]. unfold WaitReadableTurn in Ht. rewrite Hc in Ht. by injection Ht as <-.
  - exists []. apply effect_plain; try done. intros Hc. unfold WaitReadableTurn in Ht. by rewrite Hc in Ht.
Qed.

Lemma send_effect w frame rules count : exists new, effect w (p_send w frame rules count) new.
Proof.
  unfold p_send. destruct (SendArguments _ _ _ _ _) as [failure|] eqn:Ha.
  { exists [OSend failure]. apply effect_failure; try done. by eapply failed_send, send_arguments_status. }
  unfold SendOpenLocked. destruct (port_closed (pw_port w)) eqn:Hc; eexists.
  - fails_send.
  - by apply effect_silent.
Qed.

Lemma reserve_effect w n frame rules count lv : exists new, effect w (p_reserve w n frame rules count lv) new.
Proof.
  unfold p_reserve. destruct (PrepareEnqueue_preflight _ _ _ _ _ _) as [failure|].
  { eexists. fails_send. }
  destruct (PrepareEnqueue_reserve _ _) as [[st|call] ring]; eexists.
  - fails_send.
  - by apply effect_silent.
Qed.

Lemma finish_effect w n f : exists new, effect w (p_finish w n f) new.
Proof.
  unfold p_finish. destruct (PrepareEnqueue_finish _ _) as [st ring].
  destruct st; eexists; solve [by apply effect_silent | fails_send].
Qed.

Lemma receive_effect w dst n lv ls : exists new, effect w (p_receive w dst n lv ls) new.
Proof.
  unfold p_receive. destruct (ReceiveArguments _ _ _) as [failure|] eqn:Ha.
  { exists [OReceive failure []]. apply effect_failure; try done. by eapply failed_receive, receive_arguments_status. }
  destruct (ReceiveBeginLocked _ _ _ _) as [p [failure|claim]] eqn:Hb;
    destruct (receive_begin_status _ _ _ _ _ _ Hb) as [Hc Hst]; eexists.
  - fails_receive.
  - by apply effect_silent.
Qed.

Lemma exec_effect w a : exists new, effect w (p_exec w a) new.
Proof.
  destruct a; simpl.
  - apply send_effect.
  - destruct (pw_senders w !! n) as [[]|]; eauto using effect_refl, reserve_effect.
  - destruct (pw_senders w !! n) as [[]|]; eauto using effect_refl. eexists. by apply effect_silent.
  - destruct (pw_senders w !! n) as [[]|]; eauto using effect_refl.
    destruct (decide _); eauto using effect_refl, finish_effect.
  - destruct (pw_senders w !! n) as [[]|]; eauto using effect_refl, publish_effect.
  - apply receive_effect.
  - destruct (pw_receivers w !! n) as [[]|]; eauto using effect_refl. eexists. by apply effect_silent.
  - destruct (pw_receivers w !! n) as [[]|]; eauto using effect_refl, receive_end_effect.
  - apply turn_effect.
  - destruct (pw_asleep w) eqn:Ha; eauto using effect_refl. exists []. apply effect_plain; try done.
    intros Hc. by rewrite Ha.
  - destruct (pw_woken w); eauto using effect_refl, turn_effect.
  - destruct (pw_asleep w) eqn:Ha; eauto using effect_refl. exists [OWait PortCancelled].
    apply effect_plain; try done; [by constructor|]. intros Hc. split; [done|]. split; [by constructor|]. by rewrite Ha.
  - unfold CloseInternal. destruct (port_closed (pw_port w)) eqn:Hc; simpl; exists [].
    + by apply effect_silent.
    + by apply effect_plain; rewrite ?Hc.
Qed.

Lemma run_effect acts : forall w, exists new, effect w (p_run w acts) new.
Proof.
  induction acts as [|a acts IH]; intros w; simpl; [eauto using effect_refl|].
  destruct (exec_effect w a) as [new1 E1]. destruct (IH (p_exec w a)) as [new2 E2]. eauto using effect_trans.
Qed.

(** ** Claims *)

Section created.
Context (h h' : Heap) (ports ports' : gmap Z KMessagePort) (allocation : option Z) (self : Z) (p : KMessagePort).
Context (Hcreate : KMessagePortCreate h ports allocation = (h', ports', inr self)).
Context (Hport : ports' !! self = Some p).

Lemma reachable_port acts : port_ok 1 (p_run (p_start p) acts).
Proof.
  destruct (created_ok _ _ _ _ _ _ Hcreate) as (p' & Hp & _ & Hok). simplify_eq. by apply p_run_ok.
Qed.

(** C15: a message port is a FIFO channel, whatever senders, receivers,
    waiters and closers do and however their sections interleave.  What
    receivers were given, in order and byte for byte, followed by what is
    queued, is exactly what was published, numbered from one; every
    publication is one successful send; no call ever reports a corrupt ring;
    and transactions never leak: without a send past its first section the
    ring holds no reservation, without a receive in its copy it holds no
    claim. *)
Theorem message_port_is_fifo acts :
  let w := p_run (p_start p) acts in
  (exists q, pw_published w = reverse (omap given (pw_log w)) ++ q
     /\ queued_frames (port_ring (pw_port w)) = Z.of_nat (length q))
  /\ (forall i e, pw_published w !! i = Some e -> e.1 = 1 + Z.of_nat i)
  /\ length (pw_published w) = length (omap taken (pw_log w))
  /\ Forall outcome_ok (pw_log w)
  /\ (active (pw_senders w) = [] -> producer (port_ring (pw_port w)) = zero_producer)
  /\ (pw_receivers w = [] -> receiver (port_ring (pw_port w)) = zero_receiver).
Proof.
  intros w. pose proof (reachable_port acts) as Hw. fold w in Hw.
  destruct (run_effect acts (p_start p)) as (new & [Hlog (pub & Hpub & Hlen) Hdel _]). fold w in Hlog, Hpub, Hdel.
  simpl in *. rewrite app_nil_r in Hlog. subst new pub.
  pose proof (pk_sys _ _ Hw) as (spans & copied & [(q & Hrep & Hq & _) _ Hnum _] & Hc). simpl in *.
  split; [exists q; rewrite <- Hdel; split; [done | apply (rep_queued _ _ Hrep)]|].
  split; [exact Hnum|]. split; [done|]. split; [apply (pk_log _ _ Hw)|]. split.
  - intros Ha. pose proof (pk_senders _ _ Hw) as Hs. unfold senders_ok in Hs. by rewrite Ha in Hs.
  - intros Hr. by rewrite Hr in Hc.
Qed.

(** C16: closing a port is final.  From the moment of the close on, whatever
    is in flight or arrives later, nothing is published and nothing is
    delivered, no send, receive or wait succeeds, and nobody sleeps on the
    port. *)
Theorem message_port_close_is_final acts acts' :
  let w := p_run (p_start p) acts in
  let w' := p_run (p_exec w PClose) acts' in
  port_closed (pw_port w') = true /\ pw_published w' = pw_published w /\ pw_delivered w' = pw_delivered w
  /\ (exists new, pw_log w' = new ++ pw_log w /\ Forall (fun o => ~ succeeded o) new)
  /\ pw_asleep w' = 0%nat.
Proof.
  intros w w'. pose proof (reachable_port acts) as Hw. fold w in Hw.
  destruct (run_effect acts' (p_exec w PClose)) as (new & [Hlog (pub & Hpub & Hlen) Hdel Hcl]). fold w' in Hlog, Hpub, Hdel, Hcl.
  assert (port_closed (pw_port (p_exec w PClose)) = true /\ pw_published (p_exec w PClose) = pw_published w
          /\ pw_delivered (p_exec w PClose) = pw_delivered w /\ pw_log (p_exec w PClose) = pw_log w
          /\ pw_asleep (p_exec w PClose) = 0%nat) as (Hc & Hp1 & Hd1 & Hl1 & Ha1).
  { simpl. unfold CloseInternal. destruct (port_closed (pw_port w)) eqn:Hc; simpl; [|done].
    split_and!; try done. destruct (pw_asleep w) eqn:Ha; [done|].
    destruct (pk_sleep _ _ Hw) as [? _]; [by rewrite Ha | congruence]. }
  destruct (Hcl Hc) as (Hc' & Hfail & Ha). rewrite Hp1, Hd1, Hl1 in *.
  assert (omap taken new = [] /\ omap given new = []) as [Ht Hg].
  { clear -Hfail. induction Hfail as [|o new Ho _ [IH1 IH2]]; [done|].
    destruct o as [r|r b|st]; simpl in *; rewrite ?bool_decide_eq_false_2 by done; done. }
  rewrite Ht in Hlen. rewrite Hg in Hdel. destruct pub; [|done]. rewrite app_nil_r in Hpub, Hdel.
  split_and!; try done; [by exists new | by apply Ha].
Qed.

(** C17: no wakeup is lost.  Whoever sleeps on the port sleeps because the
    port is open and every published message has been delivered; so a
    message or a close finds nobody left asleep, and the turn of a waiter
    answers at once when the port is closed or a message is waiting, and
    only then. *)
Theorem message_port_no_lost_wakeup acts out :
  let w := p_run (p_start p) acts in
  (pw_asleep w <> 0%nat -> port_closed (pw_port w) = false /\ pw_delivered w = pw_published w)
  /\ (local_ok (port_ring (pw_port w)) out sizeof_MessageRingSnapshot ->
       WaitReadableTurn (pw_port w) out
       = if port_closed (pw_port w) then Some PortClosed
         else if decide (pw_delivered w = pw_published w) then None else Some PortOk).
Proof.
  intros w. pose proof (reachable_port acts) as Hw. fold w in Hw. split; [apply (pk_sleep _ _ Hw)|].
  intros Hl. unfold WaitReadableTurn. destruct (port_closed (pw_port w)); [done|].
  pose proof (pk_sys _ _ Hw) as (spans & copied & [(q & Hrep & Hq & _) _ _ _] & _). simpl in *.
  unfold MessageRingInspect. rewrite (local_preflight _ _ _ (rep_is_ready _ _ Hrep) Hl), (StateIsValid_rep _ _ Hrep).
  simpl. rewrite (rep_queued _ _ Hrep). rewrite Hq. destruct q as [|e q].
  - by rewrite app_nil_r, decide_True.
  - rewrite decide_False; [done|]. intros E. apply (f_equal length) in E. rewrite length_app in E. simpl in E. lia.
Qed.
End created.

(** ** A port in use *)

Definition demo_created : Heap * gmap Z KMessagePort * Result Z := KMessagePortCreate ∅ ∅ (Some 1048576).
Definition demo_port : KMessagePort := default (MkPort 0 true demo_ring) (demo_created.1.2 !! 1048576).

Lemma demo_created_port : KMessagePortCreate ∅ ∅ (Some 1048576) = (demo_created.1.1, demo_created.1.2, inr 1048576).
Proof. vm_compute. reflexivity. Qed.
Lemma demo_port_lookup : demo_created.1.2 !! 1048576 = Some demo_port.
Proof. vm_compute. reflexivity. Qed.

(** A waiter falls asleep, a message is sent and wakes it, and it receives
    the message. *)
Definition demo_send : list PAction :=
  [PWait 20480; PSend (demo_frame 1) no_rules 0; PReserve 0 8192; PCopy 0 20; PCopy 0 40; PFinish 0; PPublish 0 12288].
Definition demo_receive : list PAction :=
  [PTurn 20480; PReceive 16384 100 8192 12288; PCopyOut 0 100; PReceiveEnd 0].

Lemma message_port_is_fifo_witness :
  let w := p_run (p_start demo_port) (demo_send ++ demo_receive) in
  pw_published w = [(1, buf_bytes (demo_frame 1))] /\ length (pw_published w) = length (omap taken (pw_log w))
  /\ exists q, pw_published w = reverse (omap given (pw_log w)) ++ q.
Proof.
  intros w. destruct (message_port_is_fifo _ _ _ _ _ _ _ demo_created_port demo_port_lookup (demo_send ++ demo_receive))
    as ((q & Hq & _) & _ & Hlen & _).
  split; [vm_compute; reflexivity|]. split; [exact Hlen | by exists q].
Defined.

(** The sender is past its first section when the port closes. *)
Lemma message_port_close_is_final_witness :
  let w := p_run (p_start demo_port) (take 4 demo_send) in
  let w' := p_run (p_exec w PClose) (drop 4 demo_send ++ demo_receive) in
  length (pw_log w') = 3%nat /\ pw_published w' = pw_published w.
Proof.
  intros w w'. split; [vm_compute; reflexivity|].
  destruct (message_port_close_is_final _ _ _ _ _ _ _ demo_created_port demo_port_lookup (take 4 demo_send)
              (drop 4 demo_send ++ demo_receive)) as (_ & H & _). exact H.
Defined.

Lemma message_port_no_lost_wakeup_witness :
  let w := p_run (p_start demo_port) (take 1 demo_send) in
  pw_asleep w = 1%nat /\ pw_delivered w = pw_published w
  /\ pw_asleep (p_run (p_start demo_port) demo_send) = 0%nat.
Proof.
  intros w. split; [vm_compute; reflexivity|]. split; [|vm_compute; reflexivity].
  destruct (message_port_no_lost_wakeup _ _ _ _ _ _ _ demo_created_port demo_port_lookup (take 1 demo_send) 20480)
    as [H _]. apply H. by vm_compute.
Defined.

(** ** Calls through a handle *)

(** Live objects of the port type are ports. *)
Definition ports_match (h : Heap) (ports : gmap Z KMessagePort) : Prop :=
  forall a, 0 < cnt h a -> type_of h a = TypeMessagePort -> is_Some (ports !! a).

(** The handle names a live port and carries the right. *)
Definition names_port (h : Heap) (ports : gmap Z KMessagePort) (t : HandleTable) (handle right object : Z)
    (p : KMessagePort) : Prop :=
  exists d s, HandleDecode handle = Some d /\ addressed t d s /\ slot_obj s = object
    /\ type_of h object = TypeMessagePort /\ lacks (slot_rights s) right = false /\ ports !! object = Some p.

Section handle_calls.
Context (h : Heap) (ports : gmap Z KMessagePort) (t : HandleTable) (handle : Z).
Context (Hc : counts_ok h) (Ht : rows_ok t) (Ha : 0 <= active_operations t) (Hn : 0 <= handle).
Context (Hports : ports_match h ports).

(** The lookup finds nothing and takes nothing, or it finds a port and the
    release that follows gives the reference back without destroying it. *)
Lemma resolve_port right :
  ResolvePort h t handle right = Some (h, t, 0)
  \/ exists h1 object p, ResolvePort h t handle right = Some (h1, t, object) /\ object <> 0
       /\ names_port h ports t handle right object p
       /\ forall ports', exists h2, release_port h1 ports' object = Some (h2, ports') /\ forall a, cnt h2 a = cnt h a.
Proof.
  unfold ResolvePort, HandleTableLookupRef.
  destruct (retain_spec h t handle TypeMessagePort right Ht Hn Ha) as (h1 & [e|[obj rights]] & -> & Hr).
  { left. by subst. }
  destruct Hr as (d & s & Hd & Hadd & -> & -> & Hl & Hacq & [?|Hty]); [done|]. right.
  assert (slot_obj s <> 0) as Hne.
  { destruct Hadd as (_ & _ & (_ & _ & Hm) & Hst & _). rewrite Hst in Hm. by destruct Hm. }
  destruct (acquired_counts h _ _ Hc Hne Hacq) as (Hpos & _ & _ & Hc1 & Hcnt).
  destruct (Hports _ Hpos Hty) as [p Hp].
  exists h1, (slot_obj s), p. split; [done|]. split; [done|]. split; [by exists d, s|]. intros ports'.
  destruct (release_heap h1 (slot_obj s) Hc1 Hne) as (h2 & dead & Hrel & _ & _ & Hcnt2 & Hdead).
  { rewrite Hcnt, one_if_same. lia. }
  exists h2. unfold release_port. rewrite Hrel. split; [|intros a; rewrite Hcnt2, Hcnt; lia].
  destruct dead; [|done]. destruct (Hdead eq_refl) as (o & Ho & Hz).
  specialize (Hcnt2 (slot_obj s)). rewrite Hcnt, one_if_same in Hcnt2. unfold cnt at 1 in Hcnt2. rewrite Ho in Hcnt2. lia.
Qed.

(** The calls through a handle are checked and balanced.  A send needs
    the write right and a receive the read right on a live handle of a port;
    without it the call answers that and touches nothing; with it the call
    is exactly the port operation; and either way the reference the lookup
    took is given back, so no count changes. *)
Theorem message_port_handle_calls_checked (frame destination : Buffer) (rules : RuleTable)
    (count local_view local_sequence local_spans : Z) :
  (exists h' ports' result,
     KMessagePortSendHandle h ports t handle frame (frame_size frame) rules count local_view local_sequence
       = Some (h', ports', t, result)
     /\ (forall a, cnt h' a = cnt h a)
     /\ (send_status result = PortInvalidHandleOrRights /\ ports' = ports
         \/ exists object p, names_port h ports t handle kHandleRightWrite object p
              /\ result = (KMessagePortSend (Some p) frame (frame_size frame) rules count local_view local_sequence).1.2
              /\ ports' = <[object := default p (KMessagePortSend (Some p) frame (frame_size frame) rules count
                                                   local_view local_sequence).1.1]> ports))
  /\ (exists h' ports' result bytes,
       KMessagePortTryReceiveHandle h ports t handle destination (frame_size destination) local_view local_spans
         = Some (h', ports', t, result, bytes)
       /\ (forall a, cnt h' a = cnt h a)
       /\ (recv_status result = PortInvalidHandleOrRights /\ ports' = ports /\ bytes = buf_bytes destination
           \/ exists object p, names_port h ports t handle kHandleRightRead object p
                /\ (ports' !! object, result, bytes)
                   = KMessagePortTryReceive (Some p) destination (frame_size destination) local_view local_spans)).
Proof.
  split.
  - unfold KMessagePortSendHandle; destruct (resolve_port kHandleRightWrite)
      as [-> |(h1 & object & p & -> & Hne & Hnames & Hrel)];
      [cbn [Z.eqb]; eexists _, _, _; split; [reflexivity|]; by split; [|left]|].
    replace (object =? 0) with false by lia. pose proof Hnames as (d & s & _ & _ & _ & _ & _ & ->).
    destruct (KMessagePortSend _ _ _ _ _ _ _) as [[port result] woken] eqn:Hr.
    destruct (Hrel (<[object := default p port]> ports)) as (h2 & -> & Hcnt).
    eexists _, _, _. split; [done|]. split; [done|]. right. exists object, p. by rewrite Hr.
  - unfold KMessagePortTryReceiveHandle; destruct (resolve_port kHandleRightRead)
      as [-> |(h1 & object & p & -> & Hne & Hnames & Hrel)];
      [cbn [Z.eqb]; eexists _, _, _, _; split; [reflexivity|]; by split; [|left]|].
    replace (object =? 0) with false by lia. pose proof Hnames as (d & s & _ & _ & _ & _ & _ & ->).
    destruct (KMessagePortTryReceive _ _ _ _ _) as [[port result] bytes] eqn:Hr.
    destruct (Hrel (<[object := default p port]> ports)) as (h2 & -> & Hcnt).
    eexists _, _, _, _. split; [done|]. split; [done|]. right. exists object, p. split; [done|].
    rewrite Hr, lookup_insert_eq. do 2 f_equal. unfold KMessagePortTryReceive in Hr.
    destruct port; [done|]. by guards_in Hr.
Qed.
End handle_calls.

Definition demo_holder : HandleTable :=
  match HandleTableInsert demo_created.1.1 zero_table 1048576 kHandleRightWrite with Some (t, _) => t | None => zero_table end.

Lemma demo_holder_idle : rows_ok demo_holder /\ active_operations demo_holder = 0.
Proof.
  assert (HandleTableInsert demo_created.1.1 zero_table 1048576 kHandleRightWrite = Some (demo_holder, inr 4097)) as Hins
    by (vm_compute; reflexivity).
  exact (insert_idle _ _ _ _ _ _ zero_table_rows Hins).
Qed.

Lemma demo_heap_of_port : demo_created.1.1 = {[1048576 := MkObject TypeMessagePort 1 true]}.
Proof. vm_compute. reflexivity. Qed.

Lemma demo_ports_match : counts_ok demo_created.1.1 /\ ports_match demo_created.1.1 demo_created.1.2.
Proof.
  split; rewrite demo_heap_of_port.
  - intros a o [_ <-]%lookup_singleton_Some. simpl. split; [ulia | done].
  - intros a Hc _. unfold cnt in Hc. destruct (decide (a = 1048576)) as [->|Hne].
    + rewrite demo_port_lookup. by eexists.
    + rewrite lookup_singleton_ne in Hc by done. lia.
Qed.

(** The holder has the write right only: the send goes through, the receive
    is refused. *)
Lemma message_port_handle_calls_checked_witness :
  exists h' ports' result h2 ports2 refused,
    KMessagePortSendHandle demo_created.1.1 demo_created.1.2 demo_holder 4097 (demo_frame 1) 32 no_rules 0 8192 12288
      = Some (h', ports', demo_holder, result)
    /\ send_status result = PortOk /\ (forall a, cnt h' a = cnt demo_created.1.1 a)
    /\ KMessagePortTryReceiveHandle demo_created.1.1 demo_created.1.2 demo_holder 4097 (demo_frame 1) 32 8192 12288
      = Some (h2, ports2, demo_holder, refused, buf_bytes (demo_frame 1))
    /\ recv_status refused = PortInvalidHandleOrRights.
Proof.
  destruct demo_ports_match as [Hc Hm]. destruct demo_holder_idle as [Hrows Hact].
  destruct (message_port_handle_calls_checked demo_created.1.1 demo_created.1.2 demo_holder 4097 Hc Hrows
              ltac:(rewrite Hact; lia) ltac:(lia) Hm (demo_frame 1) (demo_frame 1) no_rules 0 8192 12288 12288)
    as [(h' & ports' & result & Hs & Hcnt & _) (h2 & ports2 & refused & bytes & Hr & _)].
  exists h', ports', result, h2, ports2, refused. split; [exact Hs|].
  split; [vm_compute in Hs; by injection Hs as _ _ <-|]. split; [exact Hcnt|].
  assert (bytes = buf_bytes (demo_frame 1) /\ recv_status refused = PortInvalidHandleOrRights) as [<- Hf].
  { vm_compute in Hr. by injection Hr as _ _ <- <-. }
  split; [exact Hr | exact Hf].
Defined.
