(* ===== verification/ObjectTransfer.v ===== *)
(** * Object transfer tables

    Model of [kernel/ipc/object_transfer.h] and
    [kernel/ipc/object_transfer.cpp]: the endpoint-owned table of 31 usable
    rows through which an object reference is exported once and imported,
    with narrowed rights, any number of times until it is revoked or the
    endpoint closes.

    A critical section of the transfer lock is one definition (names ending
    in [Locked]); the whole operations compose them with the handle-table and
    object operations they call outside the lock, nothing interleaved.
    Statuses are values; where the operation releases an object outside the
    lock, [None] is the failed assertion of that release or of the handle
    table. *)

From S2P Require Import Prelude KObject HandleTable.

Definition kObjectTransferRefInvalid : Z := 0.
Definition kObjectTransferSlotBits : Z := 6.
Definition kObjectTransferSlotMask : Z := 63.
Definition kObjectTransferGenerationBits : Z := 25.
Definition kObjectTransferGenerationMax : Z := 33554431.
Definition kObjectTransferPositiveMax : Z := 2147483647. (* 0x7FFFFFFF *)
Definition kObjectTransferTableCapacity : Z := 32.

Definition ObjectTransferRefEncode (slot generation : Z) : Z :=
  if (0 <? slot) && (slot <? kObjectTransferTableCapacity) && (0 <? generation)
     && (generation <=? kObjectTransferGenerationMax)
  then Z.lor (wrap32 (Z.shiftl generation kObjectTransferSlotBits)) slot
  else kObjectTransferRefInvalid.

Record ObjectTransferDecodedRef := MkDecodedRef { ref_slot : Z; ref_generation : Z }.
Definition kInvalidObjectTransferDecodedRef : ObjectTransferDecodedRef := MkDecodedRef 0 0.

Definition ObjectTransferDecodedRefIsValid (d : ObjectTransferDecodedRef) : bool :=
  (0 <? ref_slot d) && (ref_slot d <? kObjectTransferTableCapacity) && (0 <? ref_generation d)
  && (ref_generation d <=? kObjectTransferGenerationMax).

Definition ObjectTransferRefDecode (reference : Z) : ObjectTransferDecodedRef :=
  if (reference =? kObjectTransferRefInvalid) || (kObjectTransferPositiveMax <? reference)
  then kInvalidObjectTransferDecodedRef
  else
    let slot := Z.land reference kObjectTransferSlotMask in
    let generation := Z.shiftr reference kObjectTransferSlotBits in
    if (slot =? 0) || (kObjectTransferTableCapacity <=? slot) || (generation =? 0)
       || (kObjectTransferGenerationMax <? generation)
    then kInvalidObjectTransferDecodedRef
    else MkDecodedRef slot generation.

Definition kObjectTransferMetadataSealed : Z := 1.
Definition kObjectTransferMetadataKnownFlags : Z := kObjectTransferMetadataSealed.

Record ObjectTransferImmutableMetadata := MkMetadata {
  md_identity : Z;
  md_object_size : Z;
  md_content_hash : list Z; (* 32 bytes *)
  md_flags : Z;
  md_reserved : Z;
}.
Definition zero_metadata : ObjectTransferImmutableMetadata := MkMetadata 0 0 (replicate 32 0) 0 0.

Record ObjectTransferAuthority := MkAuthority {
  au_type : KObjectType;
  au_rights : Z;
  au_metadata : ObjectTransferImmutableMetadata;
}.

Inductive ObjectTransferStatus :=
| XferOk | XferInvalidArgument | XferNotInitialized | XferAlreadyInitialized | XferClosed | XferFull
| XferIdentityExhausted | XferSourceRejected | XferInvalidReference | XferStaleReference
| XferReferenceReplayed | XferRightsDenied | XferTypeMismatch | XferRetainFailed
| XferDestinationRejected | XferOperationOverflow | XferBusy | XferCorruptState.
#[export] Instance ObjectTransferStatus_eq_dec : EqDecision ObjectTransferStatus.
Proof. solve_decision. Defined.

Record ObjectTransferImportResult := MkImportResult {
  im_status : ObjectTransferStatus;
  im_destination_error : ErrorCode;
  im_handle : Z;
  im_authority : ObjectTransferAuthority;
}.

Inductive ObjectTransferSlotState := XferSlotFree | XferSlotLive | XferSlotClosing | XferSlotRetired.
Inductive ObjectTransferTableState := XferUninitialized | XferOpen | XferDraining | XferTableClosed.
#[export] Instance ObjectTransferSlotState_eq_dec : EqDecision ObjectTransferSlotState.
Proof. solve_decision. Defined.
#[export] Instance ObjectTransferTableState_eq_dec : EqDecision ObjectTransferTableState.
Proof. solve_decision. Defined.

Record ObjectTransferSlot := MkXSlot {
  xs_object : Z;
  xs_metadata : ObjectTransferImmutableMetadata;
  xs_rights : Z;
  xs_generation : Z;
  xs_pins : Z;
  xs_type : KObjectType;
  xs_state : ObjectTransferSlotState;
}.

Record ObjectTransferTable := MkXTable {
  xt_slots : list ObjectTransferSlot;
  xt_hint : Z;
  xt_active : Z;
  xt_initialized : Z;
  xt_state : ObjectTransferTableState;
}.

Definition zero_xslot : ObjectTransferSlot := MkXSlot 0 zero_metadata 0 0 0 TypeInvalid XferSlotFree.
Definition zero_xtable : ObjectTransferTable :=
  MkXTable (replicate (Z.to_nat kObjectTransferTableCapacity) zero_xslot) 0 0 0 XferUninitialized.

Definition xslot_at (t : ObjectTransferTable) (i : Z) : option ObjectTransferSlot :=
  xt_slots t !! Z.to_nat i.
Definition with_xslot (t : ObjectTransferTable) (i : Z) (s : ObjectTransferSlot) : ObjectTransferTable :=
  MkXTable (<[Z.to_nat i := s]> (xt_slots t)) (xt_hint t) (xt_active t) (xt_initialized t) (xt_state t).
Definition with_xslots (t : ObjectTransferTable) (l : list ObjectTransferSlot) : ObjectTransferTable :=
  MkXTable l (xt_hint t) (xt_active t) (xt_initialized t) (xt_state t).
Definition with_xhint (t : ObjectTransferTable) (h : Z) : ObjectTransferTable :=
  MkXTable (xt_slots t) h (xt_active t) (xt_initialized t) (xt_state t).
Definition with_xactive (t : ObjectTransferTable) (n : Z) : ObjectTransferTable :=
  MkXTable (xt_slots t) (xt_hint t) n (xt_initialized t) (xt_state t).
Definition with_xstate (t : ObjectTransferTable) (s : ObjectTransferTableState) : ObjectTransferTable :=
  MkXTable (xt_slots t) (xt_hint t) (xt_active t) (xt_initialized t) s.
Definition xslot_to (s : ObjectTransferSlot) (st : ObjectTransferSlotState) : ObjectTransferSlot :=
  MkXSlot (xs_object s) (xs_metadata s) (xs_rights s) (xs_generation s) (xs_pins s) (xs_type s) st.
Definition xslot_pins (s : ObjectTransferSlot) (n : Z) : ObjectTransferSlot :=
  MkXSlot (xs_object s) (xs_metadata s) (xs_rights s) (xs_generation s) n (xs_type s) (xs_state s).

(** ** Helpers of the source *)

Definition DecodeTransferRefNospec (reference : Z) : ObjectTransferDecodedRef :=
  let decoded := ObjectTransferRefDecode reference in
  if negb (ObjectTransferDecodedRefIsValid decoded) then kInvalidObjectTransferDecodedRef
  else
    let masked_slot := MaskedIndex32 (ref_slot decoded) kObjectTransferTableCapacity in
    if negb (masked_slot =? ref_slot decoded) then kInvalidObjectTransferDecodedRef
    else MkDecodedRef masked_slot (ref_generation decoded).

Definition MetadataIsZero (md : ObjectTransferImmutableMetadata) : bool :=
  if negb (md_identity md =? 0) || negb (md_object_size md =? 0) || negb (md_flags md =? 0)
     || negb (md_reserved md =? 0)
  then false
  else forallb (fun b => b =? 0) (md_content_hash md).

Definition xslot_is_zero (s : ObjectTransferSlot) : bool :=
  negb (negb (xs_object s =? 0) || negb (MetadataIsZero (xs_metadata s)) || negb (xs_rights s =? 0)
        || negb (xs_generation s =? 0) || negb (xs_pins s =? 0)
        || negb (bool_decide (xs_type s = TypeInvalid))
        || negb (bool_decide (xs_state s = XferSlotFree))).

Definition TableIsCanonicalUninitialized (t : ObjectTransferTable) : bool :=
  if negb (xt_initialized t =? 0) || negb (bool_decide (xt_state t = XferUninitialized))
     || negb (xt_hint t =? 0) || negb (xt_active t =? 0)
  then false
  else forallb xslot_is_zero (xt_slots t).

Definition MetadataValid (md : ObjectTransferImmutableMetadata) : bool :=
  negb (md_identity md =? 0) && negb (lacks kObjectTransferMetadataKnownFlags (md_flags md))
  && negb (Z.land (md_flags md) kObjectTransferMetadataSealed =? 0) && (md_reserved md =? 0).

Definition AuthorityValid (a : ObjectTransferAuthority) : bool :=
  if bool_decide (au_type a = TypeInvalid) || (au_rights a =? 0) || lacks kHandleRightAll (au_rights a)
  then false
  else negb (lacks (TypeAllowedRights (au_type a)) (au_rights a)) && MetadataValid (au_metadata a).

Definition RequestedRightsValid (expected_type : KObjectType) (requested_rights : Z) : bool :=
  negb (bool_decide (expected_type = TypeInvalid)) && negb (requested_rights =? 0)
  && negb (lacks kHandleRightAll requested_rights)
  && negb (lacks (TypeAllowedRights expected_type) requested_rights).

Definition TransferSlotMatches (s : ObjectTransferSlot) (generation : Z) : bool :=
  bool_decide (xs_state s = XferSlotLive) && negb (xs_object s =? 0) && (xs_generation s =? generation).

Definition ReferenceFailure (s : ObjectTransferSlot) (generation : Z) : ObjectTransferStatus :=
  if negb (xs_generation s =? 0) && (generation <=? xs_generation s)
  then XferReferenceReplayed else XferStaleReference.

Definition TransferClosedStateFor (s : ObjectTransferSlot) : ObjectTransferSlotState :=
  if xs_generation s =? kObjectTransferGenerationMax then XferSlotRetired else XferSlotFree.

Definition TransferClearSlot (s : ObjectTransferSlot) : ObjectTransferSlot :=
  MkXSlot 0 zero_metadata 0 (xs_generation s) 0 TypeInvalid (TransferClosedStateFor s).

Definition EmptyAuthority : ObjectTransferAuthority := MkAuthority TypeInvalid 0 zero_metadata.

Definition ImportFailure (status : ObjectTransferStatus) (destination_error : ErrorCode)
    : ObjectTransferImportResult := MkImportResult status destination_error kHandleInvalid EmptyAuthority.

Definition StateFailure (state : ObjectTransferTableState) : ObjectTransferStatus :=
  match state with
  | XferUninitialized => XferNotInitialized
  | XferDraining | XferTableClosed => XferClosed
  | XferOpen => XferCorruptState
  end.

(** ** Initialization *)

Definition initial_xslot (first_generation : Z) (index : nat) : ObjectTransferSlot :=
  MkXSlot 0 zero_metadata 0 (first_generation - 1) 0 TypeInvalid
    (match index with O => XferSlotRetired | S _ => XferSlotFree end).

Definition ObjectTransferTableInitialize (table : option ObjectTransferTable) (first_generation : Z)
    : ObjectTransferStatus * option ObjectTransferTable :=
  match table with
  | None => (XferInvalidArgument, None)
  | Some t =>
      if (first_generation =? 0) || (kObjectTransferGenerationMax <? first_generation)
      then (XferInvalidArgument, table)
      else if xt_initialized t =? 1 then (XferAlreadyInitialized, table)
      else if negb (TableIsCanonicalUninitialized t) then (XferCorruptState, table)
      else (XferOk, Some (MkXTable (initial_xslot first_generation
                                      <$> seq 0 (Z.to_nat kObjectTransferTableCapacity)) 0 0 1 XferOpen))
  end.

(** ** Export *)

(** The allocation loop, [remaining] of its 32 steps left.  The boolean is
    [future_capacity]. *)
Fixpoint export_scan (remaining : nat) (start : Z) (t : ObjectTransferTable) (retained : Z)
    (a : ObjectTransferAuthority) (future_capacity : bool)
    : ObjectTransferTable * ObjectTransferStatus * Z * bool :=
  match remaining with
  | O => (t, XferFull, kObjectTransferRefInvalid, future_capacity)
  | S remaining' =>
      let step := kObjectTransferTableCapacity - Z.of_nat remaining in
      let index := start + step in
      let index := if kObjectTransferTableCapacity <=? index
                   then index - kObjectTransferTableCapacity else index in
      let continue := fun t future => export_scan remaining' start t retained a future in
      if index =? 0 then continue t future_capacity
      else match xslot_at t index with
           | None => (t, XferCorruptState, kObjectTransferRefInvalid, future_capacity)
           | Some s =>
               if bool_decide (xs_state s = XferSlotRetired) then continue t future_capacity
               else if bool_decide (xs_state s = XferSlotFree)
                       && (xs_generation s =? kObjectTransferGenerationMax)
               then continue (with_xslot t index (xslot_to s XferSlotRetired)) future_capacity
               else if negb (bool_decide (xs_state s = XferSlotFree)) then continue t true
               else if negb (xs_object s =? 0) || negb (xs_rights s =? 0) || negb (xs_pins s =? 0)
                       || negb (bool_decide (xs_type s = TypeInvalid))
               then (t, XferCorruptState, kObjectTransferRefInvalid, true)
               else
                 let generation := wrap32 (xs_generation s + 1) in
                 let reference := ObjectTransferRefEncode index generation in
                 if reference =? kObjectTransferRefInvalid
                 then (with_xslot t index (MkXSlot (xs_object s) (xs_metadata s) (xs_rights s) generation
                                             (xs_pins s) (xs_type s) (xs_state s)),
                       XferCorruptState, kObjectTransferRefInvalid, true)
                 else (with_xhint (with_xslot t index
                         (MkXSlot retained (au_metadata a) (au_rights a) generation (xs_pins s)
                            (au_type a) XferSlotLive)) index,
                       XferOk, reference, true)
           end
  end.

Definition ObjectTransferExportLocked (t : ObjectTransferTable) (retained : Z)
    (a : ObjectTransferAuthority) : ObjectTransferTable * ObjectTransferStatus * Z :=
  if negb (bool_decide (xt_state t = XferOpen))
  then (t, StateFailure (xt_state t), kObjectTransferRefInvalid)
  else
    let start := wrap32 (xt_hint t + 1) mod kObjectTransferTableCapacity in
    let '(t, status, reference, future_capacity) :=
      export_scan (Z.to_nat kObjectTransferTableCapacity) start t retained a false in
    let status := if bool_decide (status = XferFull) && negb future_capacity
                  then XferIdentityExhausted else status in
    (t, status, reference).

(** [ExportFailure] pairs a status with the invalid reference. *)
Definition ObjectTransferExport (h : Heap) (table : option ObjectTransferTable)
    (source : option HandleTable) (source_handle : Z) (authority : ObjectTransferAuthority)
    : option (Heap * option ObjectTransferTable * option HandleTable * ObjectTransferStatus * Z) :=
  let fail status := Some (h, table, source, status, kObjectTransferRefInvalid) in
  match table, source with
  | Some t, Some src =>
      if source_handle =? kHandleInvalid then fail XferInvalidArgument
      else if negb (xt_initialized t =? 1) then fail XferNotInitialized
      else if negb (AuthorityValid authority) then fail XferInvalidArgument
      else
        let required := Z.lor kHandleRightTransfer (Z.lor kHandleRightDuplicate (au_rights authority)) in
        match HandleTableLookupRef h src source_handle (au_type authority) required with
        | None => None
        | Some (h, src, retained) =>
            if retained =? 0
            then Some (h, table, Some src, XferSourceRejected, kObjectTransferRefInvalid)
            else
              let '(t, status, reference) := ObjectTransferExportLocked t retained authority in
              if bool_decide (status = XferOk) then Some (h, Some t, Some src, XferOk, reference)
              else match KObjectRelease h retained with
                   | None => None
                   | Some (h, _) => Some (h, Some t, Some src, status, kObjectTransferRefInvalid)
                   end
        end
  | _, _ => fail XferInvalidArgument
  end.

(** ** Import *)

(** The validating and pinning section: the object and metadata, or the
    status to fail with. *)
Definition ObjectTransferImportPinLocked (object_type : Z -> KObjectType) (t : ObjectTransferTable)
    (d : ObjectTransferDecodedRef) (expected_type : KObjectType) (requested_rights : Z)
    : ObjectTransferTable * (ObjectTransferStatus + Z * ObjectTransferImmutableMetadata) :=
  if negb (bool_decide (xt_state t = XferOpen)) then (t, inl (StateFailure (xt_state t)))
  else match xslot_at t (ref_slot d) with
       | None => (t, inl XferCorruptState)
       | Some s =>
           if negb (TransferSlotMatches s (ref_generation d))
           then (t, inl (if bool_decide (xs_state s = XferSlotClosing)
                            && (xs_generation s =? ref_generation d)
                         then XferBusy else ReferenceFailure s (ref_generation d)))
           else if negb (bool_decide (xs_type s = expected_type))
                   || negb (bool_decide (object_type (xs_object s) = expected_type))
           then (t, inl XferTypeMismatch)
           else if lacks (xs_rights s) requested_rights then (t, inl XferRightsDenied)
           else if (xs_pins s =? u32_max) || (xt_active t =? u32_max)
           then (t, inl XferOperationOverflow)
           else (with_xactive (with_xslot t (ref_slot d) (xslot_pins s (xs_pins s + 1)))
                   (xt_active t + 1),
                 inr (xs_object s, xs_metadata s))
       end.

(** The unpinning section; the boolean is [identity_intact]. *)
Definition ObjectTransferImportUnpinLocked (t : ObjectTransferTable) (d : ObjectTransferDecodedRef)
    (object : Z) : ObjectTransferTable * bool :=
  match xslot_at t (ref_slot d) with
  | None => (t, false)
  | Some s =>
      let identity_intact :=
        (xs_generation s =? ref_generation d) && (xs_object s =? object)
        && (bool_decide (xs_state s = XferSlotLive) || bool_decide (xs_state s = XferSlotClosing))
        && (0 <? xs_pins s) && (0 <? xt_active t) in
      let t' := if 0 <? xs_pins s
                then with_xslot t (ref_slot d) (xslot_pins s (xs_pins s - 1)) else t in
      let t' := if 0 <? xt_active t then with_xactive t' (xt_active t - 1) else t' in
      (t', identity_intact)
  end.

Definition AbortImportReservation (destination : HandleTable) (r : HandleTableReservation)
    (status : ObjectTransferStatus) (destination_error : ErrorCode)
    : option (HandleTable * ObjectTransferImportResult) :=
  match HandleTableAbort destination r with
  | None => None
  | Some (destination, aborted) =>
      Some (destination,
            match aborted with
            | inr _ | inl EBadState => ImportFailure status destination_error
            | inl e => ImportFailure XferCorruptState e
            end)
  end.

(** The end of an import: publish the retained object into the reservation,
    or give everything back. *)
Definition ImportPublish (h : Heap) (destination : HandleTable) (r : HandleTableReservation) (object : Z)
    (expected_type : KObjectType) (requested_rights : Z) (md : ObjectTransferImmutableMetadata)
    : option (Heap * HandleTable * ObjectTransferImportResult) :=
  match HandleTablePublish h destination r object with
  | None => None
  | Some (destination, inr handle) =>
      Some (h, destination,
            MkImportResult XferOk EOk handle (MkAuthority expected_type requested_rights md))
  | Some (destination, inl error) =>
      match KObjectRelease h object with
      | None => None
      | Some (h, _) =>
          match HandleTableAbort destination r with
          | None => None
          | Some (destination, aborted) =>
              let gone := match aborted with inr _ | inl EBadState => true | _ => false end in
              Some (h, destination,
                    if bool_decide (error = EBadState) && gone
                    then ImportFailure XferDestinationRejected error
                    else ImportFailure XferCorruptState
                           (match aborted with inr _ => error | inl e => e end))
          end
      end
  end.

Definition ObjectTransferImport (h : Heap) (table : option ObjectTransferTable) (reference : Z)
    (destination : option HandleTable) (expected_type : KObjectType) (requested_rights last_nonce : Z)
    : option (Heap * option ObjectTransferTable * option HandleTable * Z * ObjectTransferImportResult) :=
  let fail status := Some (h, table, destination, last_nonce, ImportFailure status EOk) in
  match table, destination with
  | Some t, Some dst =>
      if negb (RequestedRightsValid expected_type requested_rights) then fail XferInvalidArgument
      else if negb (xt_initialized t =? 1) then fail XferNotInitialized
      else
        let d := DecodeTransferRefNospec reference in
        if negb (ObjectTransferDecodedRefIsValid d) then fail XferInvalidReference
        else match HandleTableReserve dst expected_type requested_rights last_nonce with
             | None => None
             | Some (dst, nonce, inl e) =>
                 Some (h, table, Some dst, nonce, ImportFailure XferDestinationRejected e)
             | Some (dst, nonce, inr r) =>
                 match ObjectTransferImportPinLocked (type_of h) t d expected_type requested_rights with
                 | (t, inl status) =>
                     match AbortImportReservation dst r status EOk with
                     | None => None
                     | Some (dst, result) => Some (h, Some t, Some dst, nonce, result)
                     end
                 | (t, inr (object, md)) =>
                     let '(retained, h) := KObjectAcquire h object in
                     let '(t, identity_intact) := ObjectTransferImportUnpinLocked t d object in
                     if negb identity_intact
                     then match (if retained then KObjectRelease h object else Some (h, false)),
                                AbortImportReservation dst r XferCorruptState EOk with
                          | Some (h, _), Some (dst, result) => Some (h, Some t, Some dst, nonce, result)
                          | _, _ => None
                          end
                     else if negb retained
                     then match AbortImportReservation dst r XferRetainFailed EOk with
                          | None => None
                          | Some (dst, result) => Some (h, Some t, Some dst, nonce, result)
                          end
                     else match ImportPublish h dst r object expected_type requested_rights md with
                          | None => None
                          | Some (h, dst, result) => Some (h, Some t, Some dst, nonce, result)
                          end
                 end
             end
  | _, _ => fail XferInvalidArgument
  end.

(** ** Revoke *)

(** The status and the detached object (null when nothing was detached). *)
Definition ObjectTransferRevokeLocked (t : ObjectTransferTable) (d : ObjectTransferDecodedRef)
    : ObjectTransferTable * ObjectTransferStatus * Z :=
  if negb (bool_decide (xt_state t = XferOpen)) then (t, StateFailure (xt_state t), 0)
  else match xslot_at t (ref_slot d) with
       | None => (t, XferCorruptState, 0)
       | Some s =>
           let finish (s : ObjectTransferSlot) :=
             if negb (xs_pins s =? 0) then (with_xslot t (ref_slot d) s, XferBusy, 0)
             else (with_xslot t (ref_slot d) (TransferClearSlot s), XferOk, xs_object s) in
           if bool_decide (xs_state s = XferSlotClosing) && (xs_generation s =? ref_generation d)
           then if xs_object s =? 0 then (t, XferCorruptState, 0) else finish s
           else if TransferSlotMatches s (ref_generation d) then finish (xslot_to s XferSlotClosing)
           else (t, ReferenceFailure s (ref_generation d), 0)
       end.

Definition ObjectTransferRevoke (h : Heap) (table : option ObjectTransferTable) (reference : Z)
    : option (Heap * option ObjectTransferTable * ObjectTransferStatus) :=
  match table with
  | None => Some (h, table, XferInvalidArgument)
  | Some t =>
      if negb (xt_initialized t =? 1) then Some (h, table, XferNotInitialized)
      else
        let d := DecodeTransferRefNospec reference in
        if negb (ObjectTransferDecodedRefIsValid d) then Some (h, table, XferInvalidReference)
        else
          let '(t, status, detached) := ObjectTransferRevokeLocked t d in
          if bool_decide (status = XferOk)
          then match KObjectRelease h detached with
               | None => None
               | Some (h, _) => Some (h, Some t, XferOk)
               end
          else Some (h, Some t, status)
  end.

(** ** Close *)

Definition close_row (s : ObjectTransferSlot) : ObjectTransferSlot :=
  if bool_decide (xs_state s = XferSlotLive) then xslot_to s XferSlotClosing else s.

(** The sum of the pins, or [None] when it does not fit 32 bits. *)
Fixpoint observe_pins (rows : list ObjectTransferSlot) (observed : Z) : option Z :=
  match rows with
  | [] => Some observed
  | s :: rows =>
      if u32_max - observed <? xs_pins s then None else observe_pins rows (observed + xs_pins s)
  end.

(** Rows, detached objects and the result after the detaching loop. *)
Fixpoint close_rows (rows : list ObjectTransferSlot)
    : list ObjectTransferSlot * list Z * bool :=
  match rows with
  | [] => ([], [], true)
  | s :: rows =>
      let '(rows, detached, ok) := close_rows rows in
      if negb (xs_object s =? 0)
      then (TransferClearSlot s :: rows, xs_object s :: detached,
            ok && bool_decide (xs_state s = XferSlotClosing))
      else if bool_decide (xs_state s = XferSlotClosing) || bool_decide (xs_state s = XferSlotLive)
      then (TransferClearSlot s :: rows, detached, false)
      else (s :: rows, detached, ok)
  end.

Definition ObjectTransferCloseLocked (t : ObjectTransferTable)
    : ObjectTransferTable * ObjectTransferStatus * list Z :=
  match xt_state t with
  | XferUninitialized => (t, XferNotInitialized, [])
  | XferTableClosed => (t, XferOk, [])
  | XferOpen | XferDraining =>
      let t := if bool_decide (xt_state t = XferOpen)
               then match xt_slots t with
                    | [] => with_xstate t XferDraining
                    | s0 :: rows => with_xstate (with_xslots t (s0 :: (close_row <$> rows))) XferDraining
                    end
               else t in
      match observe_pins (xt_slots t) 0 with
      | None => (t, XferCorruptState, [])
      | Some observed =>
          if negb (observed =? xt_active t) then (t, XferCorruptState, [])
          else if negb (observed =? 0) then (t, XferBusy, [])
          else match xt_slots t with
               | [] => (with_xstate t XferTableClosed, XferOk, [])
               | s0 :: rows =>
                   let '(rows, detached, ok) := close_rows rows in
                   (with_xstate (with_xslots t (s0 :: rows)) XferTableClosed,
                    if ok then XferOk else XferCorruptState, detached)
               end
      end
  end.

Definition ObjectTransferTableClose (h : Heap) (table : option ObjectTransferTable)
    : option (Heap * option ObjectTransferTable * ObjectTransferStatus) :=
  match table with
  | None => Some (h, table, XferInvalidArgument)
  | Some t =>
      if negb (xt_initialized t =? 1) then Some (h, table, XferNotInitialized)
      else
        let '(t, status, detached) := ObjectTransferCloseLocked t in
        match release_all h detached with
        | None => None
        | Some h => Some (h, Some t, status)
        end
  end.

Definition ObjectTransferLiveCount (table : option ObjectTransferTable) : Z :=
  match table with
  | None => 0
  | Some t =>
      if negb (xt_initialized t =? 1) then 0
      else if bool_decide (xt_state t = XferUninitialized) then 0
      else sumZ (fun s => if bool_decide (xs_state s = XferSlotLive) then 1 else 0) (drop 1 (xt_slots t))
  end.
