(* ===== verification/ObjectStore.v ===== *)
(** * The interface between objects and the tables that hold them

    What a table that owns references needs of the kernel's objects: a count
    per object that a successful acquire raises by one and a release lowers
    by one, types that do not change while an object is alive, and releases
    of counted objects that never trip an assertion.  Clients are proved
    against this class; the object base of [KObject] is an instance. *)

From S2P Require Import Prelude KObject HandleTable HandleTableOps HandleTableSpec HandleTableSeq.

Class ObjectStore (S : Type) := {
  os_ok : S -> Prop;
  os_count : S -> Z -> Z;
  os_type : S -> Z -> KObjectType;
  os_acquire : S -> Z -> bool * S;
  os_release : S -> Z -> option (S * bool);
  os_acquire_law : forall s obj ok s',
    os_ok s -> obj <> 0 -> os_acquire s obj = (ok, s') ->
    os_ok s' /\ (forall a, os_count s' a = os_count s a + if ok then one_if a obj else 0)
    /\ (forall a, 0 < os_count s a -> os_type s' a = os_type s a);
  os_release_law : forall s obj,
    os_ok s -> obj <> 0 -> 0 < os_count s obj ->
    exists s' dead, os_release s obj = Some (s', dead) /\ os_ok s'
    /\ (forall a, os_count s' a = os_count s a - one_if a obj)
    /\ (forall a, 0 < os_count s a -> os_type s' a = os_type s a);
}.

#[export] Program Instance heap_store : ObjectStore Heap := {|
  os_ok := counts_ok;
  os_count := cnt;
  os_type := type_of;
  os_acquire := KObjectAcquire;
  os_release := KObjectRelease;
|}.
Next Obligation.
  intros s obj ok s' Hok Hne Hacq. destruct (acquire_heap s obj ok s' Hok Hne Hacq) as (Hle & Hc & Hcnt).
  split; [done|]. split; [done|]. intros a Ha. by apply heap_le_type.
Qed.
Next Obligation.
  intros s obj Hok Hne Hpos. destruct (release_heap s obj Hok Hne Hpos) as (s' & dead & -> & Hle & Hc & Hcnt & _).
  exists s', dead. split; [done|]. split; [done|]. split; [done|]. intros a Ha. by apply heap_le_type.
Qed.
