(* ===== verification/ObjectTransferSpec.v ===== *)
(** * Object transfer: the concurrent system and its invariant

    One transfer table used by any number of exporters, importers, revokers
    and closers, interleaved section by section, over any [ObjectStore].  The
    references in callers' hands include those held by rows of handle tables:
    an exporter arrives with the reference its source lookup retained, and a
    finished import leaves with one.

    The theorems: counts are exact and the table never reports a corrupt
    state; a reference token never comes back; a close succeeds as soon as
    the imports in flight have taken their last section, and gives every
    reference back. *)

From S2P Require Import Prelude KObject HandleTable HandleTableOps ObjectTransfer ObjectStore.

Ltac unfold_xfer_consts :=
  unfold kObjectTransferRefInvalid, kObjectTransferSlotBits, kObjectTransferSlotMask,
    kObjectTransferGenerationBits, kObjectTransferGenerationMax, kObjectTransferPositiveMax,
    kObjectTransferTableCapacity in *.
Ltac tlia := unfold_xfer_consts; ulia.

(** ** References *)

Lemma pack_ref slot generation :
  0 <= slot < 64 -> 0 <= generation <= kObjectTransferGenerationMax ->
  Z.lor (wrap32 (Z.shiftl generation kObjectTransferSlotBits)) slot = generation * 64 + slot.
Proof.
  intros Hs Hg. unfold_xfer_consts. by apply (pack_token 6); ulia.
Qed.

Lemma ref_low_bits x : Z.land x kObjectTransferSlotMask = x mod 64.
Proof. change kObjectTransferSlotMask with (Z.ones 6). by rewrite Z.land_ones by lia. Qed.

Lemma ref_high_bits x : Z.shiftr x kObjectTransferSlotBits = x / 64.
Proof. unfold kObjectTransferSlotBits. by rewrite Z.shiftr_div_pow2 by lia. Qed.

Definition ref_ok (d : ObjectTransferDecodedRef) : Prop :=
  0 < ref_slot d < kObjectTransferTableCapacity /\ 0 < ref_generation d <= kObjectTransferGenerationMax.

Lemma ref_valid_iff d : ObjectTransferDecodedRefIsValid d = true <-> ref_ok d.
Proof. unfold ObjectTransferDecodedRefIsValid, ref_ok. rewrite !andb_true_iff. lia. Qed.

Lemma ref_encode_value d :
  ref_ok d -> ObjectTransferRefEncode (ref_slot d) (ref_generation d) = ref_generation d * 64 + ref_slot d.
Proof.
  intros [Hs Hg]. unfold ObjectTransferRefEncode. unfold kObjectTransferTableCapacity in *.
  rewrite pack_ref by lia. replace (0 <? ref_slot d) with true by lia.
  replace (ref_slot d <? 32) with true by lia. replace (0 <? ref_generation d) with true by lia.
  by replace (ref_generation d <=? kObjectTransferGenerationMax) with true by lia.
Qed.

Lemma ref_decode_encode d :
  ref_ok d -> DecodeTransferRefNospec (ObjectTransferRefEncode (ref_slot d) (ref_generation d)) = d.
Proof.
  intros Hd. rewrite ref_encode_value by done. destruct d as [slot generation]. simpl.
  assert (ObjectTransferRefDecode (generation * 64 + slot) = MkDecodedRef slot generation) as E.
  { destruct Hd as [Hs Hg]. simpl in *. unfold ObjectTransferRefDecode. rewrite ref_low_bits, ref_high_bits.
    unfold_xfer_consts. rewrite packed_low, packed_high by lia. by repeat (guard_step; [lia|]). }
  unfold DecodeTransferRefNospec. rewrite E, (proj2 (ref_valid_iff _) Hd). destruct Hd as [Hs Hg].
  simpl in *. unfold MaskedIndex32. replace (slot <? kObjectTransferTableCapacity) with true by lia.
  change (wrap32 (0 - 1)) with (Z.ones 32). rewrite Z.land_ones, Z.mod_small by tlia.
  by rewrite Z.eqb_refl.
Qed.

Lemma ref_decode_ok reference :
  ObjectTransferDecodedRefIsValid (DecodeTransferRefNospec reference) = true ->
  ref_ok (DecodeTransferRefNospec reference).
Proof. apply ref_valid_iff. Qed.

(** ** The system *)

Inductive TFlight :=
| TPinned (d : ObjectTransferDecodedRef) (obj : Z)               (* row pinned, not yet retained *)
| TRetained (d : ObjectTransferDecodedRef) (obj : Z) (ok : bool). (* retain tried, still pinned *)

Section system.
Context {S : Type} `{ObjectStore S}.

Record TWorld := MkTWorld {
  tw_store : S;
  tw_table : ObjectTransferTable;
  tw_flights : list TFlight;
  tw_held : list Z;                       (* references in callers' hands and handle tables *)
  tw_issued : list Z;                     (* references handed out by export *)
  tw_log : list ObjectTransferStatus;     (* statuses returned, latest first *)
}.

Inductive TAction :=
| TAcquire (n : nat)
| TRelease (n : nat)
| TExport (n : nat) (authority : ObjectTransferAuthority)
| TImport (reference : Z) (expected : KObjectType) (requested : Z)
| TStep (n : nat)
| TRevoke (reference : Z)
| TClose.

Definition t_advance (w : TWorld) (n : nat) (f : TFlight) : TWorld :=
  let rest := delete n (tw_flights w) in
  match f with
  | TPinned d obj =>
      let '(ok, s) := os_acquire (tw_store w) obj in
      MkTWorld s (tw_table w) (rest ++ [TRetained d obj ok]) (tw_held w) (tw_issued w) (tw_log w)
  | TRetained d obj ok =>
      let '(t, intact) := ObjectTransferImportUnpinLocked (tw_table w) d obj in
      MkTWorld (tw_store w) t rest (if ok then obj :: tw_held w else tw_held w) (tw_issued w)
        ((if negb intact then XferCorruptState else if negb ok then XferRetainFailed else XferOk)
         :: tw_log w)
  end.

(** One step; [None] is a failed assertion of a release.  The exporter's
    guards are those of the call: a valid authority whose type is the
    object's, which the typed source lookup has checked. *)
Definition t_exec (w : TWorld) (a : TAction) : option TWorld :=
  match a with
  | TAcquire n =>
      match tw_held w !! n with
      | None => Some w
      | Some obj =>
          let '(ok, s) := os_acquire (tw_store w) obj in
          Some (MkTWorld s (tw_table w) (tw_flights w) (if ok then obj :: tw_held w else tw_held w)
                  (tw_issued w) (tw_log w))
      end
  | TRelease n =>
      match tw_held w !! n with
      | None => Some w
      | Some obj =>
          match os_release (tw_store w) obj with
          | None => None
          | Some (s, _) => Some (MkTWorld s (tw_table w) (tw_flights w) (delete n (tw_held w))
                                   (tw_issued w) (tw_log w))
          end
      end
  | TExport n authority =>
      match tw_held w !! n with
      | None => Some w
      | Some obj =>
          if negb (AuthorityValid authority)
             || negb (bool_decide (os_type (tw_store w) obj = au_type authority)) then Some w
          else
            let '(t, status, reference) := ObjectTransferExportLocked (tw_table w) obj authority in
            if bool_decide (status = XferOk)
            then Some (MkTWorld (tw_store w) t (tw_flights w) (delete n (tw_held w))
                         (reference :: tw_issued w) (status :: tw_log w))
            else Some (MkTWorld (tw_store w) t (tw_flights w) (tw_held w) (tw_issued w)
                         (status :: tw_log w))
      end
  | TImport reference expected requested =>
      let d := DecodeTransferRefNospec reference in
      if negb (RequestedRightsValid expected requested) || negb (ObjectTransferDecodedRefIsValid d)
      then Some w
      else match ObjectTransferImportPinLocked (os_type (tw_store w)) (tw_table w) d expected requested with
           | (t, inl status) =>
               Some (MkTWorld (tw_store w) t (tw_flights w) (tw_held w) (tw_issued w)
                       (status :: tw_log w))
           | (t, inr (obj, _)) =>
               Some (MkTWorld (tw_store w) t (tw_flights w ++ [TPinned d obj]) (tw_held w)
                       (tw_issued w) (tw_log w))
           end
  | TStep n =>
      match tw_flights w !! n with None => Some w | Some f => Some (t_advance w n f) end
  | TRevoke reference =>
      let d := DecodeTransferRefNospec reference in
      if negb (ObjectTransferDecodedRefIsValid d) then Some w
      else
        let '(t, status, detached) := ObjectTransferRevokeLocked (tw_table w) d in
        Some (MkTWorld (tw_store w) t (tw_flights w)
                (if bool_decide (status = XferOk) then detached :: tw_held w else tw_held w)
                (tw_issued w) (status :: tw_log w))
  | TClose =>
      let '(t, status, detached) := ObjectTransferCloseLocked (tw_table w) in
      Some (MkTWorld (tw_store w) t (tw_flights w) (detached ++ tw_held w) (tw_issued w)
              (status :: tw_log w))
  end.

Fixpoint t_run (w : TWorld) (acts : list TAction) : option TWorld :=
  match acts with
  | [] => Some w
  | a :: acts => match t_exec w a with Some w => t_run w acts | None => None end
  end.

(** The system starts with an initialized table and some objects in hand. *)
Definition initial_xtable (first_generation : Z) : ObjectTransferTable :=
  match ObjectTransferTableInitialize (Some zero_xtable) first_generation with
  | (XferOk, Some t) => t
  | _ => zero_xtable
  end.

Definition t_start (s : S) (held : list Z) (first_generation : Z) : TWorld :=
  MkTWorld s (initial_xtable first_generation) [] held [] [].
End system.
Arguments TWorld : clear implicits.

(** ** The table invariant *)

Definition tref (f : TFlight) : ObjectTransferDecodedRef :=
  match f with TPinned d _ | TRetained d _ _ => d end.
Definition tobj (f : TFlight) : Z := match f with TPinned _ obj | TRetained _ obj _ => obj end.
Definition tloc (f : TFlight) : nat := Z.to_nat (ref_slot (tref f)).
Definition tpin (i : nat) (f : TFlight) : Z := Z.b2z (bool_decide (tloc f = i)).

Definition xclear (s : ObjectTransferSlot) : Prop :=
  xs_object s = 0 /\ xs_rights s = 0 /\ xs_pins s = 0 /\ xs_type s = TypeInvalid.

Definition xslot_ok (s : ObjectTransferSlot) : Prop :=
  0 <= xs_generation s <= kObjectTransferGenerationMax /\ 0 <= xs_pins s /\
  match xs_state s with
  | XferSlotFree => xclear s /\ xs_generation s < kObjectTransferGenerationMax
  | XferSlotRetired => xclear s
  | XferSlotLive | XferSlotClosing =>
      xs_object s <> 0 /\ xs_rights s <> 0 /\ xs_type s <> TypeInvalid /\ 0 < xs_generation s
      /\ lacks (TypeAllowedRights (xs_type s)) (xs_rights s) = false
  end.

(** What an import in flight relies on of its row. *)
Definition tfits (f : TFlight) (s : ObjectTransferSlot) : Prop :=
  xs_generation s = ref_generation (tref f) /\ xs_object s = tobj f /\ tobj f <> 0.

Record xrow_ok (fl : list TFlight) (i : nat) (s : ObjectTransferSlot) : Prop := {
  xr_slot : xslot_ok s;
  xr_pins : xs_pins s = sumZ (tpin i) fl;
  xr_fits : forall f, f ∈ fl -> tloc f = i -> tfits f s;
}.

Record xtable_ok (fl : list TFlight) (t : ObjectTransferTable) : Prop := {
  xk_length : length (xt_slots t) = 32%nat;
  xk_hint : 0 <= xt_hint t < kObjectTransferTableCapacity;
  xk_init : xt_initialized t = 1 /\ xt_state t <> XferUninitialized;
  xk_row : forall i s, xt_slots t !! i = Some s -> xrow_ok fl i s;
  xk_zero : forall s, xt_slots t !! 0%nat = Some s -> xs_state s = XferSlotRetired;
  xk_active : xt_active t = Z.of_nat (length fl);
  xk_pins : sumZ xs_pins (xt_slots t) = xt_active t;
  xk_u32 : is_u32 (xt_active t);
  xk_drain : forall i s, xt_state t <> XferOpen -> xt_slots t !! i = Some s -> xs_state s <> XferSlotLive;
  xk_closed : xt_state t = XferTableClosed -> fl = [] /\ forall i s, xt_slots t !! i = Some s -> xclear s;
}.

Definition xrank (s : ObjectTransferSlot) : Z :=
  4 * xs_generation s + match xs_state s with XferSlotLive => 1 | XferSlotClosing => 2 | _ => 3 end.

Definition xtable_le (t t' : ObjectTransferTable) : Prop :=
  forall i s, xt_slots t !! i = Some s -> exists s', xt_slots t' !! i = Some s' /\ xrank s <= xrank s'.

Lemma xtable_le_refl t : xtable_le t t.
Proof. intros i s Hs. by exists s. Qed.

Lemma xtable_le_trans t1 t2 t3 : xtable_le t1 t2 -> xtable_le t2 t3 -> xtable_le t1 t3.
Proof.
  intros H12 H23 i s Hs. destruct (H12 i s Hs) as (s2 & Hs2 & ?). destruct (H23 i s2 Hs2) as (s3 & Hs3 & ?).
  exists s3. split; [done | lia].
Qed.

Definition xrow_update (t : ObjectTransferTable) (i : nat) (s : ObjectTransferSlot) (hint active : Z)
    : ObjectTransferTable :=
  MkXTable (<[i := s]> (xt_slots t)) hint active (xt_initialized t) (xt_state t).

Lemma xtable_le_row t i s s' hint active :
  xt_slots t !! i = Some s -> xrank s <= xrank s' -> xtable_le t (xrow_update t i s' hint active).
Proof.
  intros Hs Hr j sj Hj. simpl. destruct (decide (i = j)) as [<-|Hne].
  - exists s'. rewrite list_lookup_insert_eq by (by eapply lookup_lt_Some). split; [done|].
    by assert (sj = s) as -> by congruence.
  - rewrite list_lookup_insert_ne by done. by exists sj.
Qed.

Lemma tpin_nonneg i f : 0 <= tpin i f.
Proof. unfold tpin. by case_bool_decide. Qed.
#[export] Hint Resolve tpin_nonneg : duet.

Lemma tpin_on f : tpin (tloc f) f = 1.
Proof. unfold tpin. by rewrite bool_decide_eq_true_2. Qed.

Lemma xrow_ok_off l fl fl' i s :
  same_off_at tloc l fl fl' -> l <> i -> xrow_ok fl i s -> xrow_ok fl' i s.
Proof.
  intros [Hsum Hin] Hne [Hok Hp Hf]. split; [done | |].
  - rewrite Hp. symmetry. apply Hsum. intros f Hl. unfold tpin. rewrite bool_decide_eq_false_2 by congruence.
    done.
  - intros f Hf' Hl. apply Hf; [|done]. apply Hin; [done | congruence].
Qed.

(** A row without pins has no import in flight. *)
Lemma xrow_idle fl i s f : xrow_ok fl i s -> xs_pins s = 0 -> f ∈ fl -> tloc f <> i.
Proof.
  intros [_ Hp _] Hz Hf <-.
  pose proof (sumZ_counted (tpin (tloc f)) fl f (tpin_nonneg _) Hf (tpin_on f)). lia.
Qed.

Lemma xrow_ok_idle fl i s s' :
  xrow_ok fl i s -> xs_pins s = 0 -> xslot_ok s' -> xs_pins s' = 0 -> xrow_ok fl i s'.
Proof.
  intros Hr Hp Hok' Hp'. split; [done | by rewrite Hp', <- Hp, (xr_pins _ _ _ Hr) |].
  intros f Hf Hl. by destruct (xrow_idle fl i s f Hr Hp Hf).
Qed.

Lemma xtable_ok_commit fl fl' t i s s' hint active :
  xtable_ok fl t -> same_off_at tloc i fl fl' -> (0 < i)%nat -> xt_slots t !! i = Some s ->
  xrow_ok fl' i s' -> 0 <= hint < kObjectTransferTableCapacity ->
  active = Z.of_nat (length fl') -> xt_active t + xs_pins s' = active + xs_pins s -> is_u32 active ->
  (xt_state t <> XferOpen -> xs_state s' <> XferSlotLive) -> xt_state t <> XferTableClosed ->
  xtable_ok fl' (xrow_update t i s' hint active).
Proof.
  intros [Hl Hh Hi Hr Hz Ha Hp Hu Hd Hc] Hoff Hpos Hs Hrow Hhint Hact Hpins Hu32 Hlive Hncl.
  split; simpl; try done.
  - by rewrite length_insert.
  - intros j sj Hj. apply list_lookup_insert_Some in Hj as [(<- & <- & _)|[Hne Hj]]; [done|].
    eapply xrow_ok_off; [done | done | by apply Hr].
  - rewrite list_lookup_insert_ne by lia. done.
  - rewrite (sumZ_insert _ _ _ _ _ Hs). lia.
  - intros j sj Hst Hj. apply list_lookup_insert_Some in Hj as [(<- & <- & _)|[_ Hj]]; [by apply Hlive|].
    by eapply Hd.
Qed.

(** An import that takes its next section on the same pin. *)
Lemma xtable_ok_swap fl t n f f' :
  xtable_ok fl t -> fl !! n = Some f -> tref f' = tref f -> tobj f' = tobj f ->
  xtable_ok (delete n fl ++ [f']) t.
Proof.
  intros [Hl Hh Hi Hr Hz Ha Hp Hu Hd Hc] Hn Hre Hob. pose proof (list_elem_of_lookup_2 _ _ _ Hn) as Hin.
  assert (length (delete n fl ++ [f']) = length fl) as Hlen.
  { apply lookup_lt_Some in Hn as Hlt. rewrite length_app, length_delete by done. simpl. lia. }
  split; try done.
  - intros i s Hs. destruct (Hr i s Hs) as [Hok Hpin Hf]. split; [done | |].
    + rewrite sumZ_app, (sumZ_delete _ _ _ _ Hn), Hpin. simpl. unfold tpin, tloc. rewrite Hre. lia.
    + intros f0 [H0%elem_of_delete_sub|H0%list_elem_of_singleton]%elem_of_app Hl0; [by apply Hf|subst f0].
      unfold tloc, tfits in *. rewrite Hre, Hob in *. by apply Hf.
  - by rewrite Hlen.
  - intros Hst. destruct (Hc Hst) as [-> _]. by apply elem_of_nil in Hin.
Qed.

Lemma clear_slot_ok s : xslot_ok s -> xslot_ok (TransferClearSlot s).
Proof.
  intros (Hg & _). unfold xslot_ok, TransferClearSlot, TransferClosedStateFor. simpl.
  destruct (xs_generation s =? _) eqn:E; simpl; unfold xclear; simpl; split_and!; try done; lia.
Qed.

(** ** Contracts of the critical sections *)

Lemma xrow_at fl t i :
  xtable_ok fl t -> 0 <= i < kObjectTransferTableCapacity ->
  exists s, xslot_at t i = Some s /\ xrow_ok fl (Z.to_nat i) s.
Proof.
  intros Ht Hi. destruct (lookup_lt_is_Some_2 (xt_slots t) (Z.to_nat i)) as [s Hs].
  { rewrite (xk_length _ _ Ht). tlia. }
  exists s. split; [done|]. by apply (xk_row _ _ Ht).
Qed.

(** The row an export fills. *)
Definition exported (obj : Z) (a : ObjectTransferAuthority) (generation : Z) : ObjectTransferSlot :=
  MkXSlot obj (au_metadata a) (au_rights a) generation 0 (au_type a) XferSlotLive.

Lemma exported_slot_ok obj a g :
  AuthorityValid a = true -> obj <> 0 -> 0 < g <= kObjectTransferGenerationMax ->
  xslot_ok (exported obj a g) /\ au_type a <> TypeInvalid.
Proof.
  intros Ha Hne Hg. unfold AuthorityValid in Ha. destruct (_ || _) eqn:Hv in Ha; [done|].
  apply andb_true_iff in Ha as [Hl%negb_true_iff _].
  apply orb_false_iff in Hv as [Hv _]. apply orb_false_iff in Hv as [Hv1%bool_decide_eq_false Hv2].
  split; [|done]. unfold xslot_ok. simpl. split_and!; (done || lia).
Qed.

Definition export_takes (t t' : ObjectTransferTable) (obj : Z) (a : ObjectTransferAuthority)
    (reference : Z) : Prop :=
  exists i s, 0 < i < kObjectTransferTableCapacity /\ xslot_at t i = Some s
    /\ xs_state s = XferSlotFree
    /\ t' = with_xhint (with_xslot t i (exported obj a (xs_generation s + 1))) i
    /\ reference = ObjectTransferRefEncode i (xs_generation s + 1).

Lemma export_scan_spec fl t start obj a : forall (remaining : nat) future,
  xtable_ok fl t -> 0 <= start < kObjectTransferTableCapacity ->
  Z.of_nat remaining <= kObjectTransferTableCapacity ->
  exists t' status reference future',
    export_scan remaining start t obj a future = (t', status, reference, future')
    /\ (status = XferFull /\ t' = t \/ status = XferOk /\ export_takes t t' obj a reference).
Proof.
  intros remaining future Ht Hst. revert future.
  induction remaining as [|n IH]; intros future Hn; [eexists _, _, _, _; eauto|].
  simpl export_scan. set (index := if _ <=? _ then _ else _).
  assert (0 <= index < kObjectTransferTableCapacity) as Hidx by (unfold index; guard_step; tlia).
  destruct (index =? 0) eqn:E0; [apply IH; lia|].
  destruct (xrow_at fl t index Ht Hidx) as (s & Hs & [Hok _ _]). rewrite Hs.
  case_bool_decide as Hret; [apply IH; lia|].
  destruct (decide (xs_state s = XferSlotFree)) as [Hf|Hnf].
  2: { rewrite !(bool_decide_eq_false_2 (xs_state s = XferSlotFree)) by done. simpl. apply IH. lia. }
  rewrite !bool_decide_eq_true_2 by done. destruct Hok as (Hg & _ & Hm). rewrite Hf in Hm.
  destruct Hm as ((Ho & Hr & Hp & Hty) & Hlt). rewrite Ho, Hr, Hp, Hty. simpl.
  replace (xs_generation s =? kObjectTransferGenerationMax) with false by lia. simpl.
  rewrite wrap32_small by tlia.
  assert (ref_ok (MkDecodedRef index (xs_generation s + 1))) as Hd by (split; simpl; lia).
  pose proof (ref_encode_value _ Hd) as He. simpl in He.
  replace (_ =? kObjectTransferRefInvalid) with false by (rewrite He; tlia).
  eexists _, _, _, _. split; [done|]. right. split; [done|]. exists index, s.
  split; [lia|]. by split_and!.
Qed.

Lemma export_spec fl t obj a :
  xtable_ok fl t ->
  exists t' status reference, ObjectTransferExportLocked t obj a = (t', status, reference)
    /\ status <> XferCorruptState
    /\ (status <> XferOk /\ t' = t
        \/ status = XferOk /\ xt_state t = XferOpen /\ export_takes t t' obj a reference).
Proof.
  intros Ht. unfold ObjectTransferExportLocked. case_bool_decide as Ho; cbn [negb].
  2: { eexists _, _, _. split; [done|]. pose proof (proj2 (xk_init _ _ Ht)).
       destruct (xt_state t); simpl; try done; (split; [done|]; left; done). }
  pose proof (xk_hint _ _ Ht). rewrite wrap32_small by tlia.
  pose proof (Z.mod_pos_bound (xt_hint t + 1) kObjectTransferTableCapacity ltac:(tlia)) as Hm.
  destruct (export_scan_spec fl t _ obj a (Z.to_nat kObjectTransferTableCapacity) false Ht Hm ltac:(tlia))
    as (t' & status & reference & future & E & Hcase). rewrite E.
  eexists _, _, _. split; [done|]. destruct Hcase as [[-> ->]|[-> Htake]].
  - destruct future; simpl; (split; [done|]; left; done).
  - simpl. split; [done|]. right. done.
Qed.

Lemma xslot_matches_inv s generation :
  TransferSlotMatches s generation = true ->
  xs_state s = XferSlotLive /\ xs_object s <> 0 /\ xs_generation s = generation.
Proof.
  unfold TransferSlotMatches. rewrite !andb_true_iff, negb_true_iff, bool_decide_eq_true.
  intros [[? ?] ?]. split_and!; (done || lia).
Qed.

Lemma state_failure t fl :
  xtable_ok fl t -> xt_state t <> XferOpen ->
  StateFailure (xt_state t) <> XferCorruptState /\ StateFailure (xt_state t) <> XferOk
  /\ StateFailure (xt_state t) <> XferBusy.
Proof. intros Ht Hst. pose proof (proj2 (xk_init _ _ Ht)). by destruct (xt_state t). Qed.

Lemma reference_failure s g :
  ReferenceFailure s g <> XferCorruptState /\ ReferenceFailure s g <> XferOk
  /\ ReferenceFailure s g <> XferBusy.
Proof. unfold ReferenceFailure. by guard_step. Qed.

Lemma import_pin_spec fl ty t d expected requested :
  xtable_ok fl t -> ref_ok d ->
  exists t' r, ObjectTransferImportPinLocked ty t d expected requested = (t', r) /\
    match r with
    | inl status => t' = t /\ status <> XferCorruptState /\ status <> XferOk
    | inr (obj, md) =>
        exists s, xt_state t = XferOpen /\ xslot_at t (ref_slot d) = Some s
          /\ xs_state s = XferSlotLive /\ xs_generation s = ref_generation d
          /\ xs_type s = expected /\ ty (xs_object s) = expected
          /\ lacks (xs_rights s) requested = false /\ xt_active t <> u32_max
          /\ obj = xs_object s /\ md = xs_metadata s
          /\ t' = with_xactive (with_xslot t (ref_slot d) (xslot_pins s (xs_pins s + 1)))
                    (xt_active t + 1)
    end.
Proof.
  intros Ht [Hsl Hge]. unfold ObjectTransferImportPinLocked.
  case_bool_decide as Ho; simpl; [|eexists _, _; split; [done|]; pose proof (state_failure t fl Ht Ho); tauto].
  destruct (xrow_at fl t (ref_slot d) Ht ltac:(lia)) as (s & Hs & [Hok _ _]). rewrite Hs.
  destruct (TransferSlotMatches s _) eqn:Hm; simpl.
  2: { eexists _, _. split; [done|]. split; [done|].
       pose proof (reference_failure s (ref_generation d)). destruct (_ && _); [done | tauto]. }
  apply xslot_matches_inv in Hm as (Hst & Hobj & Hg).
  destruct (_ || _) eqn:Et; [by eexists _, _|].
  destruct (lacks _ _) eqn:El; [by eexists _, _|].
  destruct (_ || (xt_active t =? u32_max)) eqn:Ep; [by eexists _, _|].
  eexists _, _. split; [done|]. exists s.
  apply orb_false_iff in Et as [Et1 Et2]. apply negb_false_iff, bool_decide_eq_true in Et1, Et2.
  split_and!; try done. lia.
Qed.

Lemma revoke_spec fl t d :
  xtable_ok fl t -> ref_ok d ->
  exists t' status obj, ObjectTransferRevokeLocked t d = (t', status, obj)
    /\ status <> XferCorruptState
    /\ (status <> XferOk /\ status <> XferBusy /\ t' = t
        \/ exists s, xt_state t = XferOpen /\ xslot_at t (ref_slot d) = Some s
             /\ (xs_state s = XferSlotLive \/ xs_state s = XferSlotClosing)
             /\ xs_generation s = ref_generation d
             /\ (status = XferBusy /\ xs_pins s <> 0
                   /\ t' = with_xslot t (ref_slot d) (xslot_to s XferSlotClosing)
                 \/ status = XferOk /\ xs_pins s = 0 /\ obj = xs_object s
                   /\ t' = with_xslot t (ref_slot d) (TransferClearSlot s))).
Proof.
  intros Ht [Hsl Hge]. unfold ObjectTransferRevokeLocked.
  case_bool_decide as Ho; simpl; [|eexists _, _, _; split; [done|]; pose proof (state_failure t fl Ht Ho); tauto].
  destruct (xrow_at fl t (ref_slot d) Ht ltac:(lia)) as (s & Hs & [Hok _ _]). rewrite Hs.
  destruct (bool_decide (xs_state s = XferSlotClosing) && _) eqn:Hc.
  - apply andb_true_iff in Hc as [Hc%bool_decide_eq_true Hg].
    pose proof Hok as (_ & _ & Hm). rewrite Hc in Hm. destruct Hm as [Hobj _].
    replace (xs_object s =? 0) with false by lia.
    destruct (xs_pins s =? 0) eqn:Hp; simpl; eexists _, _, _; (split; [done|]); (split; [done|]);
      right; exists s; split_and!; auto; try lia; [right | left]; split_and!; try done; try lia.
    rewrite <- Hc. by destruct s.
  - destruct (TransferSlotMatches s _) eqn:Hm.
    2: { eexists _, _, _. split; [done|]. pose proof (reference_failure s (ref_generation d)). tauto. }
    apply xslot_matches_inv in Hm as (Hst & Hobj & Hg). simpl.
    destruct (xs_pins s =? 0) eqn:Hp; simpl; eexists _, _, _; (split; [done|]); (split; [done|]);
      right; exists s; split_and!; auto; [right | left]; split_and!; try done; lia.
Qed.

(** An unpin finds the row as its import left it. *)
Lemma import_unpin_spec fl t n f :
  xtable_ok fl t -> fl !! n = Some f -> ref_ok (tref f) ->
  exists s, xslot_at t (ref_slot (tref f)) = Some s /\ xrow_ok fl (tloc f) s /\ tfits f s
    /\ 0 < xs_pins s /\ (xs_state s = XferSlotLive \/ xs_state s = XferSlotClosing)
    /\ ObjectTransferImportUnpinLocked t (tref f) (tobj f)
       = (with_xactive (with_xslot t (ref_slot (tref f)) (xslot_pins s (xs_pins s - 1))) (xt_active t - 1), true).
Proof.
  intros Ht Hn [Hsl _]. destruct (xrow_at fl t (ref_slot (tref f)) Ht ltac:(lia)) as (s & Hs & Hrow).
  pose proof (list_elem_of_lookup_2 _ _ _ Hn) as Hin. exists s.
  pose proof (xr_fits _ _ _ Hrow f Hin eq_refl) as Hfit. destruct (Hfit) as (Hg & Ho & Hne).
  assert (0 < xs_pins s) as Hp.
  { rewrite (xr_pins _ _ _ Hrow). change (Z.to_nat (ref_slot (tref f))) with (tloc f).
    exact (sumZ_counted (tpin (tloc f)) fl f (tpin_nonneg _) Hin (tpin_on f)). }
  assert (xs_state s = XferSlotLive \/ xs_state s = XferSlotClosing) as Hst.
  { destruct (xr_slot _ _ _ Hrow) as (_ & _ & Hm). unfold xclear in Hm.
    destruct (xs_state s); [lia | by left | by right | lia]. }
  split_and!; try done. unfold ObjectTransferImportUnpinLocked. rewrite Hs.
  assert (0 < xt_active t) as Ha.
  { rewrite (xk_active _ _ Ht). apply lookup_lt_Some in Hn. lia. }
  rewrite Hg, Ho, !Z.eqb_refl. replace (0 <? xs_pins s) with true by lia.
  replace (0 <? xt_active t) with true by lia.
  destruct Hst as [-> | ->]; done.
Qed.

(** ** Closing *)

Lemma observe_pins_spec rows : forall observed,
  (forall s, s ∈ rows -> 0 <= xs_pins s) -> 0 <= observed ->
  observed + sumZ xs_pins rows <= u32_max -> observe_pins rows observed = Some (observed + sumZ xs_pins rows).
Proof.
  induction rows as [|s rows IH]; intros observed Hnn Ho Hle; simpl in *; [f_equal; lia|].
  pose proof (Hnn s (list_elem_of_here _ _)).
  assert (0 <= sumZ xs_pins rows).
  { apply sumZ_nonneg. intros x Hx. apply Hnn. by apply list_elem_of_further. }
  replace (u32_max - observed <? xs_pins s) with false by lia.
  rewrite IH; [f_equal; lia | | lia | lia]. intros x Hx. apply Hnn. by apply list_elem_of_further.
Qed.

(** Rows of a draining table: nothing live, nothing pinned. *)
Definition closable (s : ObjectTransferSlot) : Prop :=
  xslot_ok s /\ xs_state s <> XferSlotLive /\ xs_pins s = 0.

Definition closed_row (s : ObjectTransferSlot) : ObjectTransferSlot :=
  if bool_decide (xs_state s = XferSlotClosing) then TransferClearSlot s else s.

Definition closing_objects (rows : list ObjectTransferSlot) : list Z :=
  xs_object <$> filter (fun s => xs_state s = XferSlotClosing) rows.

Lemma close_rows_spec rows :
  Forall closable rows -> close_rows rows = (closed_row <$> rows, closing_objects rows, true).
Proof.
  unfold closing_objects. induction rows as [|s rows IH]; intros Hc; [done|].
  apply Forall_cons in Hc as [((_ & _ & Hm) & Hnl & _) Hc]. simpl close_rows. rewrite (IH Hc).
  rewrite fmap_cons, filter_cons.
  destruct (decide (xs_state s = XferSlotClosing)) as [Hst|Hst].
  - rewrite Hst in Hm. destruct Hm as [Ho _]. replace (xs_object s =? 0) with false by lia. simpl.
    assert (closed_row s = TransferClearSlot s) as -> by (unfold closed_row; by rewrite Hst).
    by rewrite bool_decide_eq_true_2.
  - assert (closed_row s = s) as -> by (unfold closed_row; by rewrite bool_decide_eq_false_2).
    rewrite !bool_decide_eq_false_2 by done. assert (xs_object s = 0) as ->; [|done].
    destruct (xs_state s); try done; [by destruct Hm as [[? _] _] | by destruct Hm].
Qed.

(** The table once a close has begun, and once it has finished. *)
Definition draining (t : ObjectTransferTable) : ObjectTransferTable :=
  MkXTable (close_row <$> xt_slots t) (xt_hint t) (xt_active t) (xt_initialized t) XferDraining.
Definition closed (t : ObjectTransferTable) : ObjectTransferTable :=
  MkXTable (closed_row <$> (close_row <$> xt_slots t)) (xt_hint t) (xt_active t) (xt_initialized t)
    XferTableClosed.

Lemma close_row_fields s :
  xs_pins (close_row s) = xs_pins s /\ xs_generation (close_row s) = xs_generation s
  /\ xs_object (close_row s) = xs_object s /\ xs_state (close_row s) <> XferSlotLive
  /\ xrank s <= xrank (close_row s).
Proof.
  unfold close_row. case_bool_decide as Hl; simpl; [|by split_and!; try lia].
  split_and!; try done. unfold xrank. simpl. rewrite Hl. lia.
Qed.

Lemma close_row_ok fl i s : xrow_ok fl i s -> xrow_ok fl i (close_row s).
Proof.
  intros [Hok Hp Hf]. destruct (close_row_fields s) as (Ep & Eg & Eo & _). split.
  - unfold close_row. case_bool_decide as Hl; [|done]. unfold xslot_ok in *. simpl. by rewrite Hl in Hok.
  - by rewrite Ep.
  - intros f Hin Hl. destruct (Hf f Hin Hl) as (? & ? & ?). unfold tfits. by rewrite Eg, Eo.
Qed.

Lemma close_row_id s : xs_state s <> XferSlotLive -> close_row s = s.
Proof. intros Hs. unfold close_row. by rewrite bool_decide_eq_false_2. Qed.

Lemma draining_ok fl t : xtable_ok fl t -> xt_state t <> XferTableClosed -> xtable_ok fl (draining t).
Proof.
  intros [Hl Hh Hi Hr Hz Ha Hp Hu Hd Hc] Hncl. split; simpl; try done.
  - by rewrite length_fmap.
  - split; [apply Hi | done].
  - intros i s' (s & -> & Hs)%list_lookup_fmap_Some_1. by apply close_row_ok, Hr.
  - intros s' (s & -> & Hs)%list_lookup_fmap_Some_1. rewrite close_row_id; [by apply Hz|].
    by rewrite (Hz s Hs).
  - rewrite <- Hp. clear. induction (xt_slots t) as [|s l IH]; [done|]. simpl. unfold fmap in IH. rewrite IH.
    by rewrite (proj1 (close_row_fields s)).
  - intros i s' _ (s & -> & Hs)%list_lookup_fmap_Some_1. apply close_row_fields.
Qed.

Lemma draining_closable t : xtable_ok [] t -> Forall closable (close_row <$> xt_slots t).
Proof.
  intros Ht. apply Forall_lookup_2. intros i s' (s & -> & Hs)%list_lookup_fmap_Some_1.
  pose proof (close_row_ok _ _ _ (xk_row _ _ Ht i s Hs)) as [Hok Hp _]. split; [done|].
  split; [apply close_row_fields | done].
Qed.

Lemma closed_row_clear s : closable s -> xslot_ok (closed_row s) /\ xclear (closed_row s).
Proof.
  intros (Hok & Hnl & Hp). unfold closed_row. case_bool_decide as Hc.
  - split; [|by unfold xclear]. by apply clear_slot_ok.
  - split; [done|]. destruct Hok as (_ & _ & Hm). destruct (xs_state s); try done. by destruct Hm.
Qed.

Lemma closed_ok t : xtable_ok [] t -> xtable_ok [] (closed t).
Proof.
  intros Ht. pose proof (draining_closable t Ht) as Hcl. destruct Ht as [Hl Hh Hi Hr Hz Ha Hp Hu Hd Hc].
  assert (Hrow : forall i s', xt_slots (closed t) !! i = Some s' -> xslot_ok s' /\ xclear s').
  { intros i s' (s & -> & Hs)%list_lookup_fmap_Some_1. apply closed_row_clear.
    by eapply Forall_lookup_1. }
  split; simpl; try done.
  - by rewrite !length_fmap.
  - split; [apply Hi | done].
  - intros i s' Hs. destruct (Hrow i s' Hs) as [Hok (_ & _ & Hz' & _)]. split; [done | done |].
    intros f Hf. by apply elem_of_nil in Hf.
  - intros s' (s1 & -> & Hs1)%list_lookup_fmap_Some_1.
    apply list_lookup_fmap_Some_1 in Hs1 as (s & -> & Hs). pose proof (Hz s Hs) as Hst.
    rewrite close_row_id by (by rewrite Hst). unfold closed_row. by rewrite Hst.
  - rewrite Ha. apply sumZ_zero. intros s [i Hs]%list_elem_of_lookup. by destruct (Hrow i s Hs) as [_ (_ & _ & ? & _)].
  - intros i s' _ Hs. destruct (Hrow i s' Hs) as [(_ & _ & Hm) (Ho & _)].
    intros Hst. rewrite Hst in Hm. by destruct Hm.
  - intros _. split; [done|]. intros i s' Hs. by apply (Hrow i s').
Qed.

Lemma close_finish t s0 rows :
  xtable_ok [] t -> xt_slots t = s0 :: rows ->
  close_rows (close_row <$> rows)
    = (closed_row <$> (close_row <$> rows), closing_objects (close_row <$> s0 :: rows), true)
  /\ with_xstate (with_xslots (draining t) (close_row s0 :: (closed_row <$> (close_row <$> rows))))
       XferTableClosed = closed t.
Proof.
  intros Ht Hs. pose proof (draining_closable t Ht) as Hclo. rewrite Hs, fmap_cons in Hclo.
  apply Forall_cons in Hclo as [_ Hclo].
  assert (xs_state s0 = XferSlotRetired) as Hst by (apply (xk_zero _ _ Ht); by rewrite Hs).
  assert (close_row s0 = s0) as E by (apply close_row_id; by rewrite Hst). split.
  - rewrite (close_rows_spec _ Hclo), fmap_cons, E. unfold closing_objects. rewrite filter_cons.
    by rewrite decide_False by (by rewrite Hst).
  - assert (closed_row s0 = s0) as E0 by (unfold closed_row; by rewrite Hst).
    unfold closed. by rewrite Hs, !fmap_cons, E, E0.
Qed.

Lemma close_spec fl t :
  xtable_ok fl t ->
  ObjectTransferCloseLocked t
  = if bool_decide (xt_state t = XferTableClosed) then (t, XferOk, [])
    else match fl with
         | [] => (closed t, XferOk, closing_objects (close_row <$> xt_slots t))
         | _ :: _ => (draining t, XferBusy, [])
         end.
Proof.
  intros Ht. pose proof (proj2 (xk_init _ _ Ht)) as Hinit.
  destruct (decide (xt_state t = XferTableClosed)) as [Hc|Hc].
  { unfold ObjectTransferCloseLocked. by rewrite Hc. }
  rewrite bool_decide_eq_false_2 by done. pose proof (draining_ok fl t Ht Hc) as [Dl Dh Di Dr Dz Da Dp Du Dd Dc].
  assert (Hd : (if bool_decide (xt_state t = XferOpen)
               then match xt_slots t with
                    | [] => with_xstate t XferDraining
                    | s0 :: rows => with_xstate (with_xslots t (s0 :: (close_row <$> rows))) XferDraining
                    end
               else t) = draining t).
  { destruct Ht as [Hl Hh Hi Hr Hz Ha Hp Hu Hdr Hcl]. case_bool_decide as Ho.
    - destruct (xt_slots t) as [|s0 rows] eqn:Hs; [done|]. unfold draining. rewrite Hs, fmap_cons.
      rewrite (close_row_id s0) by (by rewrite (Hz s0 eq_refl)). done.
    - unfold draining. assert (close_row <$> xt_slots t = xt_slots t) as ->.
      { apply list_eq. intros i. rewrite list_lookup_fmap. destruct (xt_slots t !! i) as [s|] eqn:Hs; [|done].
        simpl. by rewrite close_row_id by (by eapply Hdr). }
      destruct t as [? ? ? ? []]; simpl in *; done. }
  unfold ObjectTransferCloseLocked. destruct (xt_state t) eqn:Hst; try done.
  all: rewrite Hd; cbn [xt_slots xt_active draining] in *;
    rewrite observe_pins_spec; [| |lia | rewrite Dp; ulia];
    [|intros s [i Hs]%list_elem_of_lookup; by destruct (Dr i s Hs) as [(_ & ? & _) _ _]];
    rewrite Z.add_0_l, Dp, Z.eqb_refl; cbn [negb]; rewrite Da;
    destruct fl as [|f fl]; [|done];
    destruct (xt_slots t) as [|s0 rows] eqn:Hs; [done|];
    destruct (close_finish t s0 rows Ht Hs) as [E1 E2]; rewrite fmap_cons in *;
    simpl; by rewrite E1, E2.
Qed.

(** ** The system invariant *)

Definition xref (a : Z) (s : ObjectTransferSlot) : Z := one_if a (xs_object s).
Definition tflight_ref (a : Z) (f : TFlight) : Z :=
  match f with TRetained _ obj true => one_if a obj | _ => 0 end.

Definition xissued_ok (t : ObjectTransferTable) (issued : list Z) : Prop :=
  forall r, r ∈ issued -> ref_ok (DecodeTransferRefNospec r) /\
    exists s, xslot_at t (ref_slot (DecodeTransferRefNospec r)) = Some s
      /\ ref_generation (DecodeTransferRefNospec r) <= xs_generation s.

Section invariant.
Context {S : Type} `{ObjectStore S}.

Definition trefs (a : Z) (w : TWorld S) : Z :=
  sumZ (xref a) (xt_slots (tw_table w)) + sumZ (one_if a) (tw_held w)
  + sumZ (tflight_ref a) (tw_flights w).

Record tworld_ok (w : TWorld S) : Prop := {
  tk_store : os_ok (tw_store w);
  tk_table : xtable_ok (tw_flights w) (tw_table w);
  tk_placed : Forall (fun f => ref_ok (tref f)) (tw_flights w);
  tk_held : Forall (fun a => a <> 0) (tw_held w);
  tk_refs : forall a, a <> 0 -> os_count (tw_store w) a = trefs a w;
  tk_types : forall i s, xt_slots (tw_table w) !! i = Some s -> xs_object s <> 0 ->
    os_type (tw_store w) (xs_object s) = xs_type s;
  tk_log : XferCorruptState ∉ tw_log w;
  tk_issued : NoDup (tw_issued w) /\ xissued_ok (tw_table w) (tw_issued w);
}.

Definition t_good (w w' : TWorld S) : Prop := tworld_ok w' /\ xtable_le (tw_table w) (tw_table w').

Lemma t_good_refl w : tworld_ok w -> t_good w w.
Proof. intros Hw. split; [done | apply xtable_le_refl]. Qed.

Lemma trefs_parts (w : TWorld S) a :
  0 <= sumZ (xref a) (xt_slots (tw_table w)) /\ 0 <= sumZ (one_if a) (tw_held w)
  /\ 0 <= sumZ (tflight_ref a) (tw_flights w).
Proof.
  split; [|split]; apply sumZ_nonneg; intros x _; [apply one_if_pos | apply one_if_pos |].
  destruct x as [|? ? []]; simpl; try done. apply one_if_pos.
Qed.

(** An object a row names is counted, so its type stays. *)
Lemma row_counted w i s :
  tworld_ok w -> xt_slots (tw_table w) !! i = Some s -> xs_object s <> 0 ->
  0 < os_count (tw_store w) (xs_object s).
Proof.
  intros Hw Hs Hne. rewrite (tk_refs _ Hw) by done. unfold trefs.
  destruct (trefs_parts w (xs_object s)) as (_ & ? & ?).
  pose proof (sumZ_member (xref (xs_object s)) _ s (fun y _ => one_if_pos _ _)
                (list_elem_of_lookup_2 _ _ _ Hs)) as Hin.
  unfold xref at 1 in Hin. rewrite one_if_same in Hin. lia.
Qed.

Lemma xissued_mono t t' issued : xtable_le t t' -> xissued_ok t issued -> xissued_ok t' issued.
Proof.
  intros Hle Hi r Hr. destruct (Hi r Hr) as (Hok & s & Hs & Hg). split; [done|].
  destruct (Hle _ _ Hs) as (s' & Hs' & Hrank). exists s'. split; [done|].
  unfold xrank in Hrank. destruct (xs_state s), (xs_state s'); lia.
Qed.

(** The store and the lists move; the rows move forward and name no object
    that was not named or held with its type before. *)
Lemma t_world_step w s' t' fl' held' issued' log' :
  tworld_ok w -> os_ok s' -> xtable_ok fl' t' -> xtable_le (tw_table w) t' ->
  Forall (fun f => ref_ok (tref f)) fl' -> Forall (fun a => a <> 0) held' ->
  (forall a, a <> 0 ->
     os_count s' a - sumZ (xref a) (xt_slots t') - sumZ (one_if a) held' - sumZ (tflight_ref a) fl'
     = os_count (tw_store w) a - trefs a w) ->
  (forall i s, xt_slots t' !! i = Some s -> xs_object s <> 0 -> os_type s' (xs_object s) = xs_type s) ->
  XferCorruptState ∉ log' -> NoDup issued' -> xissued_ok t' issued' ->
  t_good w (MkTWorld s' t' fl' held' issued' log').
Proof.
  intros Hw Hs Ht Hle Hpl Hheld Hrefs Hty Hlog Hnd Hiss. split; [|done]. split; simpl; try done.
  intros a Ha. specialize (Hrefs a Ha). pose proof (tk_refs _ Hw a Ha). unfold trefs at 1. simpl. lia.
Qed.

(** A step that changes one row and the flights at it. *)
Lemma t_commit w i s s2 hint active fl' held' issued' log' :
  tworld_ok w -> xt_slots (tw_table w) !! i = Some s -> (0 < i)%nat ->
  same_off_at tloc i (tw_flights w) fl' -> xrow_ok fl' i s2 -> 0 <= hint < kObjectTransferTableCapacity ->
  active = Z.of_nat (length fl') -> xt_active (tw_table w) + xs_pins s2 = active + xs_pins s ->
  is_u32 active ->
  (xt_state (tw_table w) <> XferOpen -> xs_state s2 <> XferSlotLive) ->
  xt_state (tw_table w) <> XferTableClosed ->
  xrank s <= xrank s2 ->
  Forall (fun f => ref_ok (tref f)) fl' -> Forall (fun a => a <> 0) held' ->
  (forall a, a <> 0 -> xref a s2 + sumZ (one_if a) held' + sumZ (tflight_ref a) fl'
     = xref a s + sumZ (one_if a) (tw_held w) + sumZ (tflight_ref a) (tw_flights w)) ->
  (xs_object s2 <> 0 -> os_type (tw_store w) (xs_object s2) = xs_type s2) ->
  XferCorruptState ∉ log' -> NoDup issued' ->
  xissued_ok (xrow_update (tw_table w) i s2 hint active) issued' ->
  t_good w (MkTWorld (tw_store w) (xrow_update (tw_table w) i s2 hint active) fl' held' issued' log').
Proof.
  intros Hw Hs Hi Hoff Hrow Hhint Hact Hpins Hu Hlive Hncl Hrank Hpl Hheld Hrefs Hty Hlog Hnd Hiss.
  apply t_world_step; try done.
  - apply Hw.
  - eapply xtable_ok_commit; try done. apply Hw.
  - by eapply xtable_le_row.
  - intros a Ha. unfold trefs. simpl. rewrite (sumZ_insert _ _ _ _ _ Hs). specialize (Hrefs a Ha). lia.
  - intros j sj Hj Hne. simpl in Hj.
    apply list_lookup_insert_Some in Hj as [(<- & <- & _)|[_ Hj]]; [by apply Hty | by eapply (tk_types _ Hw)].
Qed.

Lemma issued_update w i s2 hint active s :
  tworld_ok w -> xt_slots (tw_table w) !! i = Some s -> xrank s <= xrank s2 ->
  xissued_ok (xrow_update (tw_table w) i s2 hint active) (tw_issued w).
Proof.
  intros Hw Hs Hr. eapply xissued_mono; [by eapply xtable_le_row | apply (tk_issued _ Hw)].
Qed.

Lemma log_cons (w : TWorld S) status :
  tworld_ok w -> status <> XferCorruptState -> XferCorruptState ∉ status :: tw_log w.
Proof. intros Hw Hne [He|Hin]%elem_of_cons; [by subst | by apply (tk_log _ Hw)]. Qed.

Lemma t_refused w status :
  tworld_ok w -> status <> XferCorruptState ->
  t_good w (MkTWorld (tw_store w) (tw_table w) (tw_flights w) (tw_held w) (tw_issued w) (status :: tw_log w)).
Proof.
  intros Hw Hne. apply t_world_step; try apply Hw; try apply xtable_le_refl; [|by apply log_cons].
  intros a Ha. unfold trefs. lia.
Qed.

(** ** Each action preserves the invariant *)

(** The side conditions of a step that the state before it already has. *)
Ltac t_kept Hw :=
  first [ exact (xk_hint _ _ (tk_table _ Hw)) | exact (xk_active _ _ (tk_table _ Hw))
        | exact (xk_u32 _ _ (tk_table _ Hw)) | exact (tk_placed _ Hw) | exact (tk_held _ Hw)
        | exact (tk_log _ Hw) | exact (proj1 (tk_issued _ Hw)) | by apply log_cons
        | by eapply issued_update ].

Lemma store_step w s' fl' held' :
  tworld_ok w -> os_ok s' ->
  (forall a, 0 < os_count (tw_store w) a -> os_type s' a = os_type (tw_store w) a) ->
  xtable_ok fl' (tw_table w) -> Forall (fun f => ref_ok (tref f)) fl' -> Forall (fun a => a <> 0) held' ->
  (forall a, a <> 0 -> os_count s' a - sumZ (one_if a) held' - sumZ (tflight_ref a) fl'
     = os_count (tw_store w) a - sumZ (one_if a) (tw_held w) - sumZ (tflight_ref a) (tw_flights w)) ->
  t_good w (MkTWorld s' (tw_table w) fl' held' (tw_issued w) (tw_log w)).
Proof.
  intros Hw Hs Hty Ht Hpl Hheld Hrefs. apply t_world_step; try done; try apply Hw.
  - apply xtable_le_refl.
  - intros a Ha. specialize (Hrefs a Ha). unfold trefs. lia.
  - intros i s Hi Hne. rewrite Hty by (by eapply row_counted). by eapply (tk_types _ Hw).
Qed.

Lemma t_acquire_step w n :
  tworld_ok w -> exists w', t_exec w (TAcquire n) = Some w' /\ t_good w w'.
Proof.
  intros Hw. simpl. destruct (tw_held w !! n) as [obj|] eqn:Hn; [|eauto using t_good_refl].
  assert (obj <> 0) as Hne by (by apply (Forall_lookup_1 _ _ _ _ (tk_held _ Hw) Hn)).
  destruct (os_acquire (tw_store w) obj) as [ok s'] eqn:Hacq.
  destruct (os_acquire_law _ _ _ _ (tk_store _ Hw) Hne Hacq) as (Hok & Hcnt & Hty).
  eexists. split; [done|]. apply store_step; try done; try apply Hw.
  - destruct ok; [constructor; [done|]|]; apply Hw.
  - intros a Ha. rewrite Hcnt. destruct ok; simpl; lia.
Qed.

Lemma t_release_step w n :
  tworld_ok w -> exists w', t_exec w (TRelease n) = Some w' /\ t_good w w'.
Proof.
  intros Hw. simpl. destruct (tw_held w !! n) as [obj|] eqn:Hn; [|eauto using t_good_refl].
  assert (obj <> 0) as Hne by (by apply (Forall_lookup_1 _ _ _ _ (tk_held _ Hw) Hn)).
  assert (0 < os_count (tw_store w) obj) as Hpos.
  { rewrite (tk_refs _ Hw) by done. unfold trefs. destruct (trefs_parts w obj) as (? & _ & ?).
    pose proof (sumZ_member (one_if obj) _ obj (fun y _ => one_if_pos _ _) (list_elem_of_lookup_2 _ _ _ Hn)) as Hm.
    rewrite one_if_same in Hm. lia. }
  destruct (os_release_law _ _ (tk_store _ Hw) Hne Hpos) as (s' & dead & -> & Hok & Hcnt & Hty).
  eexists. split; [done|]. apply store_step; try done; try apply Hw.
  - apply Forall_delete_sub, Hw.
  - intros a Ha. rewrite Hcnt, (sumZ_delete _ _ _ _ Hn). lia.
Qed.

Lemma t_export_step w n a :
  tworld_ok w -> exists w', t_exec w (TExport n a) = Some w' /\ t_good w w'.
Proof.
  intros Hw. simpl. destruct (tw_held w !! n) as [obj|] eqn:Hn; [|eauto using t_good_refl].
  assert (obj <> 0) as Hne by (by apply (Forall_lookup_1 _ _ _ _ (tk_held _ Hw) Hn)).
  destruct (AuthorityValid a) eqn:Ha; simpl; [|eauto using t_good_refl].
  case_bool_decide as Hty; simpl; [|eauto using t_good_refl].
  pose proof (tk_table _ Hw) as Ht.
  destruct (export_spec _ _ obj a Ht) as (t' & status & reference & -> & Hnc & [[Hno ->]|(-> & Ho & Htake)]).
  { rewrite bool_decide_eq_false_2 by done. eauto using t_refused. }
  destruct Htake as (i & s & Hi & Hs & Hf & -> & ->). simpl. eexists. split; [done|].
  pose proof (xk_row _ _ Ht _ _ Hs) as Hrow. pose proof (xr_slot _ _ _ Hrow) as (Hg & _ & Hm).
  rewrite Hf in Hm. destruct Hm as ((Hobj & _ & Hp & _) & Hlt).
  assert (ref_ok (MkDecodedRef i (xs_generation s + 1))) as Href by (split; simpl; lia).
  assert (xrank s <= xrank (exported obj a (xs_generation s + 1))) as Hrank.
  { unfold xrank. simpl. rewrite Hf. lia. }
  destruct (exported_slot_ok obj a (xs_generation s + 1) Ha Hne ltac:(lia)) as [Hxok _].
  pose proof (tk_issued _ Hw) as [Hnd Hiss].
  apply (t_commit w (Z.to_nat i) s (exported obj a (xs_generation s + 1)) i (xt_active (tw_table w)));
    try done; try lia; auto with duet; try t_kept Hw.
  - by apply (xrow_ok_idle _ _ s).
  - simpl. lia.
  - congruence.
  - apply Forall_delete_sub, Hw.
  - intros x Hx. rewrite (sumZ_delete _ _ _ _ Hn). unfold xref. simpl.
    rewrite Hobj, (one_if_null x Hx). lia.
  - constructor; [|done]. intros Hin. destruct (Hiss _ Hin) as (_ & s0 & Hs0 & Hg0).
    pose proof (ref_decode_encode _ Href) as E. simpl in E. rewrite E in Hs0, Hg0. simpl in *.
    unfold xslot_at in Hs, Hs0. assert (s0 = s) as -> by congruence. lia.
  - intros r [->|Hin]%elem_of_cons; [|by eapply issued_update].
    pose proof (ref_decode_encode _ Href) as E. simpl in E. rewrite E. split; [done|].
    eexists. split; [apply list_lookup_insert_eq; by eapply lookup_lt_Some|]. simpl. lia.
Qed.

Lemma flights_u32 w f :
  tworld_ok w -> xt_active (tw_table w) <> u32_max ->
  xt_active (tw_table w) + 1 = Z.of_nat (length (tw_flights w ++ [f])) /\ is_u32 (xt_active (tw_table w) + 1).
Proof.
  intros Hw Hne. pose proof (xk_active _ _ (tk_table _ Hw)). pose proof (xk_u32 _ _ (tk_table _ Hw)).
  rewrite length_app. simpl. split; ulia.
Qed.

Lemma t_import_step w reference expected requested :
  tworld_ok w -> exists w', t_exec w (TImport reference expected requested) = Some w' /\ t_good w w'.
Proof.
  intros Hw. simpl. set (d := DecodeTransferRefNospec reference).
  destruct (RequestedRightsValid expected requested) eqn:Hreq; simpl; [|eauto using t_good_refl].
  destruct (ObjectTransferDecodedRefIsValid d) eqn:Hv; simpl; [|eauto using t_good_refl].
  apply ref_valid_iff in Hv. pose proof (tk_table _ Hw) as Ht.
  destruct (import_pin_spec _ (os_type (tw_store w)) _ d expected requested Ht Hv) as (t' & [status|[obj md]] & -> & Hr).
  { destruct Hr as (-> & Hnc & _). eauto using t_refused. }
  destruct Hr as (s & Ho & Hs & Hst & Hg & Hty & _ & _ & Hmax & -> & -> & ->).
  pose proof (xk_row _ _ Ht _ _ Hs) as Hrow. destruct (Hrow) as [Hok Hp Hf].
  pose proof Hok as (Hgr & Hpn & Hm). rewrite Hst in Hm. destruct Hm as (Hobj & Hrest).
  eexists. split; [done|]. destruct (flights_u32 w (TPinned d (xs_object s)) Hw Hmax) as [Ha Hu].
  assert (tloc (TPinned d (xs_object s)) = Z.to_nat (ref_slot d)) as Hl by done.
  assert (xrank s <= xrank (xslot_pins s (xs_pins s + 1))) as Hrank by (unfold xrank; simpl; lia).
  apply (t_commit w (Z.to_nat (ref_slot d)) s (xslot_pins s (xs_pins s + 1)) (xt_hint (tw_table w))
           (xt_active (tw_table w) + 1)); try done; auto with duet; try t_kept Hw.
  - destruct Hv. lia.
  - split.
    + unfold xslot_ok. simpl. rewrite Hst. split_and!; (done || lia || apply Hrest).
    + simpl. rewrite sumZ_app, <- Hp. simpl. unfold tpin. rewrite bool_decide_eq_true_2 by done. simpl. lia.
    + intros f [Hin|Hin%list_elem_of_singleton]%elem_of_app Hlf; [by apply Hf | by subst].
  - simpl. lia.
  - congruence.
  - apply Forall_app. split; [apply Hw | by apply Forall_singleton].
  - intros a Haa. rewrite sumZ_app. unfold xref. simpl. lia.
  - intros Hne. apply (tk_types _ Hw _ _ Hs Hne).
Qed.

(** The second section of an import: the retain, outside the lock. *)
Lemma t_pinned_step w n d obj :
  tworld_ok w -> tw_flights w !! n = Some (TPinned d obj) -> t_good w (t_advance w n (TPinned d obj)).
Proof.
  intros Hw Hn. pose proof (tk_placed _ Hw) as Hpl. pose proof (Forall_lookup_1 _ _ _ _ Hpl Hn) as Href.
  destruct (import_unpin_spec _ _ _ _ (tk_table _ Hw) Hn Href) as (s & _ & _ & (_ & _ & Hne) & _).
  simpl in *. destruct (os_acquire (tw_store w) obj) as [ok s'] eqn:Hacq.
  destruct (os_acquire_law _ _ _ _ (tk_store _ Hw) Hne Hacq) as (Hok & Hcnt & Hty).
  apply store_step; try done.
  - eapply xtable_ok_swap; try done. apply Hw.
  - apply Forall_app. split; [by apply Forall_delete_sub | by apply Forall_singleton].
  - apply Hw.
  - intros a Ha. rewrite Hcnt, sumZ_app, (sumZ_delete _ _ _ _ Hn). destruct ok; simpl; lia.
Qed.

(** The third: the row is unpinned and the reference is the caller's. *)
Lemma t_retained_step w n d obj ok :
  tworld_ok w -> tw_flights w !! n = Some (TRetained d obj ok) -> t_good w (t_advance w n (TRetained d obj ok)).
Proof.
  intros Hw Hn. pose proof (tk_placed _ Hw) as Hpl. pose proof (Forall_lookup_1 _ _ _ _ Hpl Hn) as Href.
  pose proof (tk_table _ Hw) as Ht.
  destruct (import_unpin_spec _ _ _ _ Ht Hn Href) as (s & Hs & Hrow & (Hg & Ho & Hne) & Hp & Hst & E).
  cbn [tref tobj t_advance] in *. rewrite E. cbn [negb].
  assert (length (tw_flights w) = (length (delete n (tw_flights w)) + 1)%nat) as Hlen.
  { apply lookup_lt_Some in Hn as Hlt. rewrite length_delete by done. lia. }
  pose proof (xk_active _ _ Ht) as Hact. pose proof (xk_u32 _ _ Ht) as Hu.
  apply (t_commit w (Z.to_nat (ref_slot d)) s (xslot_pins s (xs_pins s - 1)) (xt_hint (tw_table w))
           (xt_active (tw_table w) - 1)); try done; auto with duet; try lia; try ulia; try t_kept Hw.
  - destruct Href as [Hr _]. simpl in Hr. lia.
  - by eapply same_off_del.
  - destruct Hrow as [Hok Hpin Hf]. split.
    + destruct Hok as (? & ? & Hm). unfold xslot_ok. simpl. split_and!; [lia | lia | lia |].
      by destruct Hst as [Hst|Hst]; rewrite Hst in *.
    + simpl. rewrite (sumZ_delete _ _ _ _ Hn), Hpin. unfold tloc in *. simpl. unfold tpin.
      rewrite bool_decide_eq_true_2 by done. simpl. lia.
    + intros f0 H0%elem_of_delete_sub Hl0. by apply Hf.
  - simpl. lia.
  - intros Hno. apply (xk_drain _ _ Ht _ s Hno Hs).
  - intros Hcl. destruct (xk_closed _ _ Ht Hcl) as [E0 _]. by rewrite E0 in Hn.
  - destruct ok; [constructor|]; (done || apply Hw).
  - intros a Ha. rewrite (sumZ_delete _ _ _ _ Hn). unfold xref. destruct ok; simpl; lia.
  - intros Hno. apply (tk_types _ Hw _ _ Hs Hno).
  - destruct ok; by apply log_cons.
Qed.

Lemma t_revoke_step w reference :
  tworld_ok w -> exists w', t_exec w (TRevoke reference) = Some w' /\ t_good w w'.
Proof.
  intros Hw. simpl. set (d := DecodeTransferRefNospec reference).
  destruct (ObjectTransferDecodedRefIsValid d) eqn:Hv; simpl; [|eauto using t_good_refl].
  apply ref_valid_iff in Hv. pose proof (tk_table _ Hw) as Ht.
  destruct (revoke_spec _ _ d Ht Hv) as (t' & status & obj & -> & Hnc & Hcase).
  eexists. split; [done|]. destruct Hcase as [(Hno & _ & ->)|(s & Ho & Hs & Hst & Hg & Hcase)].
  { rewrite bool_decide_eq_false_2 by done. by apply t_refused. }
  assert (0 < Z.to_nat (ref_slot d))%nat as Hpos by (destruct Hv; lia).
  pose proof (xk_row _ _ Ht _ _ Hs) as Hrow.
  destruct (xr_slot _ _ _ Hrow) as (Hgen & Hpin & Hm).
  assert (xs_object s <> 0) as Hobj by (by destruct Hst as [Hst|Hst]; rewrite Hst in Hm; destruct Hm).
  destruct Hcase as [(-> & Hp & ->)|(-> & Hp & -> & ->)].
  - assert (xrank s <= xrank (xslot_to s XferSlotClosing)) as Hrank.
    { unfold xrank. simpl. destruct Hst as [-> | ->]; lia. }
    apply (t_commit w (Z.to_nat (ref_slot d)) s (xslot_to s XferSlotClosing) (xt_hint (tw_table w))
             (xt_active (tw_table w))); try done; auto with duet; try t_kept Hw.
    + destruct Hrow as [Hok Hpi Hf]. split; [|done|done].
      unfold xslot_ok. simpl. destruct Hst as [Hst|Hst]; by rewrite Hst in Hm.
    + congruence.
    + intros Hno. apply (tk_types _ Hw _ _ Hs Hno).
  - assert (xrank s <= xrank (TransferClearSlot s)) as Hrank.
    { unfold xrank. simpl. unfold TransferClosedStateFor. destruct (_ =? _), Hst as [-> | ->]; lia. }
    apply (t_commit w (Z.to_nat (ref_slot d)) s (TransferClearSlot s) (xt_hint (tw_table w))
             (xt_active (tw_table w))); try done; auto with duet; try t_kept Hw.
    + apply (xrow_ok_idle _ _ s); try done. by apply clear_slot_ok.
    + simpl. lia.
    + congruence.
    + constructor; [done | apply Hw].
    + intros a Ha. unfold xref. simpl. rewrite (one_if_null a Ha). lia.
Qed.

Lemma close_row_refs a rows : sumZ (xref a) (close_row <$> rows) = sumZ (xref a) rows.
Proof.
  induction rows as [|s rows IH]; [done|]. rewrite fmap_cons. simpl. rewrite IH. unfold xref at 1 3.
  by destruct (close_row_fields s) as (_ & _ & -> & _).
Qed.

(** What leaves the rows of a closed table is what the closer detaches. *)
Lemma closed_row_refs a rows :
  a <> 0 ->
  sumZ (xref a) (closed_row <$> rows) + sumZ (one_if a) (closing_objects rows) = sumZ (xref a) rows.
Proof.
  intros Ha. unfold closing_objects. induction rows as [|s rows IH]; [done|].
  rewrite fmap_cons, filter_cons. simpl sumZ. unfold closed_row at 1.
  destruct (decide (xs_state s = XferSlotClosing)) as [Hst|Hst].
  - rewrite bool_decide_eq_true_2 by done. rewrite fmap_cons. simpl sumZ.
    unfold xref at 1. simpl. rewrite (one_if_null a Ha). unfold xref in *. lia.
  - rewrite bool_decide_eq_false_2 by done. lia.
Qed.

Lemma closed_row_rank s : xrank s <= xrank (closed_row s).
Proof.
  unfold closed_row. case_bool_decide as Hc; [|done]. unfold xrank, TransferClearSlot, TransferClosedStateFor.
  simpl. rewrite Hc. destruct (_ =? _); lia.
Qed.

Lemma draining_le t : xtable_le t (draining t).
Proof.
  intros i s Hs. exists (close_row s). simpl. rewrite list_lookup_fmap, Hs. split; [done|].
  apply close_row_fields.
Qed.

Lemma closed_le t : xtable_le t (closed t).
Proof.
  apply (xtable_le_trans _ (draining t)); [apply draining_le|].
  intros i s Hs. exists (closed_row s). simpl in *. rewrite list_lookup_fmap, Hs.
  split; [done | apply closed_row_rank].
Qed.

Lemma closing_objects_real rows : Forall xslot_ok rows -> Forall (fun a => a <> 0) (closing_objects rows).
Proof.
  intros Hok. apply Forall_fmap, Forall_forall. intros s [Hst Hin]%list_elem_of_filter.
  rewrite Forall_forall in Hok. destruct (Hok s Hin) as (_ & _ & Hm). rewrite Hst in Hm. by destruct Hm.
Qed.

Lemma t_close_step w : tworld_ok w -> exists w', t_exec w TClose = Some w' /\ t_good w w'.
Proof.
  intros Hw. pose proof (tk_table _ Hw) as Ht. simpl. rewrite (close_spec _ _ Ht).
  case_bool_decide as Hc.
  { eexists. split; [done|]. by apply t_refused. }
  pose proof (tk_issued _ Hw) as [Hnd Hiss].
  destruct (tw_flights w) as [|f fl] eqn:Hfl; eexists; (split; [done|]).
  - apply t_world_step; try done; try t_kept Hw.
    + apply Hw.
    + by apply closed_ok.
    + apply closed_le.
    + apply Forall_app. split; [|apply Hw]. apply closing_objects_real.
      eapply Forall_impl; [by apply draining_closable|]. intros s Hs. apply Hs.
    + intros a Ha. rewrite sumZ_app. unfold trefs. rewrite Hfl. simpl.
      pose proof (closed_row_refs a (close_row <$> xt_slots (tw_table w)) Ha) as E.
      rewrite close_row_refs in E. lia.
    + intros i s Hs Hno. pose proof (xk_closed _ _ (closed_ok _ Ht) eq_refl) as [_ Hcl].
      by destruct (Hcl i s Hs).
    + eapply xissued_mono; [apply closed_le | done].
  - rewrite <- Hfl in *. apply t_world_step; try done; try t_kept Hw.
    + apply Hw.
    + by apply draining_ok.
    + apply draining_le.
    + intros a Ha. unfold trefs. simpl. rewrite close_row_refs. lia.
    + intros i s' (s & -> & Hs)%list_lookup_fmap_Some_1. destruct (close_row_fields s) as (_ & _ & -> & _).
      intros Hno. rewrite (tk_types _ Hw i s Hs Hno). unfold close_row. by case_bool_decide.
    + eapply xissued_mono; [apply draining_le | done].
Qed.

Lemma t_exec_good w a : tworld_ok w -> exists w', t_exec w a = Some w' /\ t_good w w'.
Proof.
  intros Hw. destruct a as [n|n|n a|r e q|n|r|].
  - by apply t_acquire_step.
  - by apply t_release_step.
  - by apply t_export_step.
  - by apply t_import_step.
  - simpl. destruct (tw_flights w !! n) as [[d obj|d obj ok]|] eqn:Hn; eexists; (split; [done|]).
    + by apply t_pinned_step.
    + by apply t_retained_step.
    + by apply t_good_refl.
  - by apply t_revoke_step.
  - by apply t_close_step.
Qed.

Lemma t_run_good acts : forall w, tworld_ok w -> exists w', t_run w acts = Some w' /\ t_good w w'.
Proof.
  induction acts as [|a acts IH]; intros w Hw; [eauto using t_good_refl|].
  destruct (t_exec_good w a Hw) as (w1 & E & Hw1 & Hle). simpl. rewrite E.
  destruct (IH w1 Hw1) as (w2 & -> & Hw2 & Hle2). exists w2. split; [done|]. split; [done|].
  by eapply xtable_le_trans.
Qed.

Lemma t_run_app acts1 acts2 (w : TWorld S) :
  t_run w (acts1 ++ acts2) = match t_run w acts1 with Some w1 => t_run w1 acts2 | None => None end.
Proof. revert w. induction acts1 as [|a acts IH]; intros w; simpl; [done|]. by destruct (t_exec w a). Qed.

(** What the system starts from: live objects whose references are in
    callers' hands, and a generation the table accepts. *)
Record t_start_ok (s : S) (held : list Z) (first_generation : Z) : Prop := {
  ts_store : os_ok s;
  ts_held : Forall (fun a => a <> 0) held;
  ts_refs : forall a, a <> 0 -> os_count s a = sumZ (one_if a) held;
  ts_first : 0 < first_generation <= kObjectTransferGenerationMax;
}.

Lemma initial_xtable_slots g :
  0 < g <= kObjectTransferGenerationMax ->
  initial_xtable g = MkXTable (initial_xslot g <$> seq 0 32) 0 0 1 XferOpen.
Proof.
  intros Hg. unfold initial_xtable, ObjectTransferTableInitialize.
  replace (g =? 0) with false by lia. replace (kObjectTransferGenerationMax <? g) with false by lia. done.
Qed.

Lemma initial_row_ok g i :
  0 < g <= kObjectTransferGenerationMax -> xrow_ok [] i (initial_xslot g i).
Proof.
  intros Hg. split; [|done | by intros f Hf%elem_of_nil].
  unfold xslot_ok, xclear. destruct i; simpl; split_and!; (done || lia).
Qed.

Lemma initial_xtable_row g i x :
  0 < g <= kObjectTransferGenerationMax -> xt_slots (initial_xtable g) !! i = Some x -> x = initial_xslot g i.
Proof.
  intros Hg. rewrite initial_xtable_slots by done. cbn [xt_slots]. intros (j & -> & Hj)%list_lookup_fmap_Some_1.
  apply lookup_seq in Hj as [-> _]. done.
Qed.

Lemma initial_xtable_ok g : 0 < g <= kObjectTransferGenerationMax -> xtable_ok [] (initial_xtable g).
Proof.
  intros Hg. split; try by rewrite initial_xtable_slots by done.
  - intros i x Hx. rewrite (initial_xtable_row _ _ _ Hg Hx). by apply initial_row_ok.
  - intros x Hx. by rewrite (initial_xtable_row _ _ _ Hg Hx).
Qed.

Lemma start_world_ok s held g : t_start_ok s held g -> tworld_ok (t_start s held g).
Proof.
  intros [Hs Hh Hr Hg].
  assert (Hz : forall f : ObjectTransferSlot -> Z, (forall i, f (initial_xslot g i) = 0) ->
            sumZ f (xt_slots (initial_xtable g)) = 0).
  { intros f Hf. apply sumZ_zero. intros x [i Hx]%list_elem_of_lookup. by rewrite (initial_xtable_row _ _ _ Hg Hx). }
  split; simpl; try done.
  - by apply initial_xtable_ok.
  - intros a Ha. rewrite (Hr a Ha). unfold trefs. simpl. rewrite Hz; [lia|]. intros i. by apply one_if_null.
  - intros i x Hx. by rewrite (initial_xtable_row _ _ _ Hg Hx).
  - by intros Hx%elem_of_nil.
  - split; [constructor|]. by intros r Hx%elem_of_nil.
Qed.
End invariant.
