(* ===== verification/ObjectTransferProps.v ===== *)
(** * Object transfer: what the table promises

    The theorems about the system of [ObjectTransferSpec]: exact reference
    counts and no reported corruption on every interleaving, references that
    never come back, and a close that completes once the imports in flight
    have taken their last sections. *)

From S2P Require Import Prelude KObject HandleTable HandleTableOps HandleTableSpec HandleTableSeq.
From S2P Require Import ObjectTransfer ObjectStore ObjectTransferSpec.

Section promises.
Context {S : Type} `{ObjectStore S}.

(** C12: references are counted exactly on every interleaving.  Whatever
    exporters, importers, revokers and closers do, section by section, no
    release trips an assertion, no call reports a corrupt table, every
    object's count is the number of references to it in rows, in callers'
    hands and in imports, and an object an import works on is alive, of the
    type its row records. *)
Theorem object_transfer_references_exact (s : S) (held : list Z) (g : Z) (acts : list TAction)
    (Hs : t_start_ok s held g) :
  exists w, t_run (t_start s held g) acts = Some w
    /\ (forall a, a <> 0 -> os_count (tw_store w) a
          = sumZ (xref a) (xt_slots (tw_table w)) + sumZ (one_if a) (tw_held w)
            + sumZ (tflight_ref a) (tw_flights w))
    /\ XferCorruptState ∉ tw_log w
    /\ (forall f, f ∈ tw_flights w -> exists row,
          xslot_at (tw_table w) (ref_slot (tref f)) = Some row /\ 0 < xs_pins row
          /\ xs_object row = tobj f /\ 0 < os_count (tw_store w) (tobj f)
          /\ os_type (tw_store w) (tobj f) = xs_type row).
Proof.
  destruct (t_run_good acts _ (start_world_ok _ _ _ Hs)) as (w & E & Hw & _).
  exists w. split; [done|]. split; [apply Hw|]. split; [apply Hw|].
  intros f [n Hn]%list_elem_of_lookup.
  pose proof (Forall_lookup_1 _ _ _ _ (tk_placed _ Hw) Hn) as Href.
  destruct (import_unpin_spec _ _ _ _ (tk_table _ Hw) Hn Href) as (row & Hrow & _ & (_ & Ho & Hne) & Hp & _).
  exists row. rewrite <- Ho in *. split_and!; try done.
  - by eapply row_counted.
  - by eapply (tk_types _ Hw).
Qed.

(** A reference that can no longer be imported: its row has moved past the
    live state of its generation. *)
Definition xdead (t : ObjectTransferTable) (r : Z) : Prop :=
  let d := DecodeTransferRefNospec r in
  exists s, xslot_at t (ref_slot d) = Some s /\ 4 * ref_generation d + 1 < xrank s.

Lemma xdead_mono t t' r : xtable_le t t' -> xdead t r -> xdead t' r.
Proof.
  intros Hle (s & Hs & Hr). destruct (Hle _ _ Hs) as (s' & Hs' & Hr'). exists s'. split; [done | lia].
Qed.

Lemma revoked_dead w w' r status :
  tworld_ok w -> t_exec w (TRevoke r) = Some w' -> tw_log w' = status :: tw_log w ->
  status = XferOk \/ (status = XferBusy) -> xdead (tw_table w') r.
Proof.
  intros Hw. unfold xdead. simpl. set (d := DecodeTransferRefNospec r).
  destruct (ObjectTransferDecodedRefIsValid d) eqn:Hv; simpl.
  2: { intros [= <-] Hlog. by apply (f_equal length) in Hlog; simpl in Hlog; lia. }
  apply ref_valid_iff in Hv.
  destruct (revoke_spec _ _ d (tk_table _ Hw) Hv) as (t' & st & obj & -> & _ & Hcase).
  intros [= <-] [= ->] Hst. destruct Hcase as [(Hno & Hnb & _)|(s & _ & Hs & Hlive & Hg & Hcase)];
    [by destruct Hst|].
  destruct Hcase as [(_ & _ & ->)|(_ & _ & _ & ->)]; eexists;
    (split; [apply list_lookup_insert_eq; by eapply lookup_lt_Some|]); rewrite <- Hg; unfold xrank; simpl.
  - lia.
  - unfold TransferClosedStateFor. destruct (_ =? _); lia.
Qed.

Lemma dead_not_pinned w w' r expected requested :
  tworld_ok w -> xdead (tw_table w) r -> t_exec w (TImport r expected requested) = Some w' ->
  tw_flights w' = tw_flights w /\ tw_table w' = tw_table w.
Proof.
  intros Hw (s0 & Hs0 & Hr0). simpl. set (d := DecodeTransferRefNospec r) in *.
  destruct (_ || _) eqn:Ev; [by intros [= <-]|]. apply orb_false_iff in Ev as [_ Hv]. apply negb_false_iff, ref_valid_iff in Hv.
  destruct (import_pin_spec _ (os_type (tw_store w)) _ d expected requested (tk_table _ Hw) Hv)
    as (t' & [status|[obj md]] & -> & Hr); [by destruct Hr as [-> _]; intros [= <-]|].
  destruct Hr as (s & _ & Hs & Hst & Hg & _). rewrite Hs in Hs0. injection Hs0 as <-.
  unfold xrank in Hr0. rewrite Hst, Hg in Hr0. lia.
Qed.

(** C13: references never come back.  Every reference an export hands out is
    new, and from the moment a revoke has answered, with success or with
    busy, no later import pins the row through that reference, whatever
    happens in between. *)
Theorem object_transfer_refs_never_return (s : S) (held : list Z) (g : Z) (acts acts' : list TAction)
    (r : Z) (status : ObjectTransferStatus) (w w1 w2 : TWorld S) (Hs : t_start_ok s held g)
    (Hrun : t_run (t_start s held g) acts = Some w) (Hrev : t_exec w (TRevoke r) = Some w1)
    (Hlog : tw_log w1 = status :: tw_log w) (Hst : status = XferOk \/ status = XferBusy)
    (Hrun' : t_run w1 acts' = Some w2) :
  NoDup (tw_issued w2)
  /\ forall expected requested w3, t_exec w2 (TImport r expected requested) = Some w3 ->
       tw_flights w3 = tw_flights w2 /\ tw_table w3 = tw_table w2.
Proof.
  destruct (t_run_good acts _ (start_world_ok _ _ _ Hs)) as (w' & E & Hw & _). simplify_eq.
  destruct (t_exec_good w (TRevoke r) Hw) as (w1' & E1 & Hw1 & _). simplify_eq.
  destruct (t_run_good acts' w1 Hw1) as (w2' & E2 & Hw2 & Hle). simplify_eq.
  split; [apply (tk_issued _ Hw2)|]. intros expected requested w3.
  apply dead_not_pinned; [done|]. apply (xdead_mono (tw_table w1)); [done|]. exact (revoked_dead w w1 r status Hw Hrev Hlog Hst).
Qed.
(** ** Closing *)

Definition tweight (f : TFlight) : nat := match f with TPinned _ _ => 2 | TRetained _ _ _ => 1 end.
Definition tload (w : TWorld S) : nat := list_sum (tweight <$> tw_flights w).

Lemma tload_zero w : tload w = 0%nat -> tw_flights w = [].
Proof. unfold tload. destruct (tw_flights w) as [|[] fl]; [done | simpl; lia | simpl; lia]. Qed.

Lemma list_sum_delete (l : list TFlight) n f :
  l !! n = Some f -> list_sum (tweight <$> l) = (tweight f + list_sum (tweight <$> delete n l))%nat.
Proof.
  revert n. induction l as [|x l IH]; intros [|n] Hn; simpl in *; [done | done | by simplify_eq |].
  specialize (IH n Hn). unfold fmap in *. simpl. lia.
Qed.

(** Taking a section of an import in flight shortens what is left by one. *)
Lemma step_load w n f : tw_flights w !! n = Some f -> tload w = Datatypes.S (tload (t_advance w n f)).
Proof.
  intros Hn. unfold tload. rewrite (list_sum_delete _ _ _ Hn). destruct f as [d obj|d obj ok]; simpl.
  - destruct (os_acquire _ _) as [ok s']. simpl. rewrite fmap_app, list_sum_app. simpl. lia.
  - destruct (ObjectTransferImportUnpinLocked _ _ _) as [t intact]. done.
Qed.

(** A table that has begun to close pins nothing more. *)
Definition shut (w : TWorld S) : Prop := xt_state (tw_table w) <> XferOpen.

Lemma step_shut w n f : shut w -> shut (t_advance w n f).
Proof.
  unfold shut. intros Hsh. destruct f as [d obj|d obj ok]; simpl.
  - by destruct (os_acquire _ _).
  - destruct (ObjectTransferImportUnpinLocked _ _ _) as [t intact] eqn:E. simpl.
    unfold ObjectTransferImportUnpinLocked in E. destruct (xslot_at _ _); [|by simplify_eq].
    injection E as <- _. by destruct (0 <? _), (0 <? _).
Qed.

Lemma shut_step w a w' :
  tworld_ok w -> shut w -> t_exec w a = Some w' -> shut w' /\ (tload w' <= tload w)%nat.
Proof.
  intros Hw Hsh. pose proof (tk_table _ Hw) as Ht. unfold shut in *. destruct a as [n|n|n a|r e q|n|r|]; simpl.
  - destruct (tw_held w !! n); [|by intros [= <-]]. destruct (os_acquire _ _). by intros [= <-].
  - destruct (tw_held w !! n); [|by intros [= <-]]. destruct (os_release _ _) as [[]|]; [|done]. by intros [= <-].
  - destruct (tw_held w !! n) as [obj|]; [|by intros [= <-]]. destruct (_ || _); [by intros [= <-]|].
    destruct (export_spec _ _ obj a Ht) as (t' & st & ref & -> & _ & [[Hno ->]|(_ & Ho & _)]); [|done].
    rewrite bool_decide_eq_false_2 by done. by intros [= <-].
  - destruct (_ || _) eqn:Hv; [by intros [= <-]|]. apply orb_false_iff in Hv as [_ Hv].
    apply negb_false_iff, ref_valid_iff in Hv.
    destruct (import_pin_spec _ (os_type (tw_store w)) _ _ e q Ht Hv) as (t' & [st|[obj md]] & -> & Hr).
    + destruct Hr as [-> _]. by intros [= <-].
    + destruct Hr as (? & Ho & _). done.
  - destruct (tw_flights w !! n) as [f|] eqn:Hn; [|by intros [= <-]]. intros [= <-].
    split; [by apply step_shut|]. rewrite (step_load _ _ _ Hn). lia.
  - destruct (ObjectTransferDecodedRefIsValid _) eqn:Hv; simpl; [|by intros [= <-]].
    apply ref_valid_iff in Hv.
    destruct (revoke_spec _ _ _ Ht Hv) as (t' & st & obj & -> & _ & [(_ & _ & ->)|(? & Ho & _)]); [|done].
    by intros [= <-].
  - rewrite (close_spec _ _ Ht). case_bool_decide; [by intros [= <-]|].
    unfold tload. destruct (tw_flights w) eqn:Hfl; intros [= <-]; simpl; by rewrite ?Hfl.
Qed.

Lemma shut_run acts : forall w w',
  tworld_ok w -> shut w -> t_run w acts = Some w' -> shut w' /\ (tload w' <= tload w)%nat.
Proof.
  induction acts as [|a acts IH]; intros w w' Hw Hsh; simpl; [by intros [= <-]|].
  destruct (t_exec_good w a Hw) as (w1 & E & Hw1 & _). rewrite E. intros Hrun.
  destruct (shut_step _ _ _ Hw Hsh E) as [Hsh1 Hl1]. destruct (IH _ _ Hw1 Hsh1 Hrun) as [? ?]. split; [done | lia].
Qed.

(** What a close answers, and what it leaves when it succeeds. *)
Lemma close_answer w :
  tworld_ok w -> exists w', t_exec w TClose = Some w' /\ tworld_ok w' /\ shut w' /\
    (tw_flights w = [] /\ tw_log w' = XferOk :: tw_log w /\ tw_flights w' = []
       /\ xt_state (tw_table w') = XferTableClosed
     \/ tw_flights w <> [] /\ tw_log w' = XferBusy :: tw_log w).
Proof.
  intros Hw. destruct (t_exec_good w TClose Hw) as (w' & E & Hw' & _). exists w'. split; [done|].
  split; [done|]. revert E. simpl. rewrite (close_spec _ _ (tk_table _ Hw)). unfold shut. case_bool_decide as Hc.
  - destruct (xk_closed _ _ (tk_table _ Hw) Hc) as [Hfl _]. intros [= <-]. simpl. rewrite Hc, Hfl.
    split; [done|]. by left.
  - destruct (tw_flights w) eqn:Hfl; intros [= <-]; simpl; (split; [done|]); [left | right]; by split_and!.
Qed.

(** A shut table whose last import has finished holds nothing. *)
Lemma closed_counts w a :
  tworld_ok w -> xt_state (tw_table w) = XferTableClosed -> a <> 0 ->
  os_count (tw_store w) a = sumZ (one_if a) (tw_held w).
Proof.
  intros Hw Hc Ha. destruct (xk_closed _ _ (tk_table _ Hw) Hc) as [Hfl Hcl].
  rewrite (tk_refs _ Hw a Ha). unfold trefs. rewrite Hfl. simpl.
  rewrite (sumZ_zero (xref a)); [lia|]. intros s [i Hs]%list_elem_of_lookup.
  destruct (Hcl i s Hs) as (Ho & _). unfold xref. rewrite Ho. by apply one_if_null.
Qed.

Lemma imports_finish k : forall w,
  tworld_ok w -> tload w = k ->
  exists w', t_run w (replicate k (TStep 0)) = Some w' /\ tworld_ok w' /\ tw_flights w' = [].
Proof.
  induction k as [|k IH]; intros w Hw Hk; simpl; [by eauto using tload_zero|].
  destruct (tw_flights w) as [|f fl] eqn:Hfl; [by unfold tload in Hk; rewrite Hfl in Hk|].
  assert (tw_flights w !! 0%nat = Some f) as Hn by (by rewrite Hfl).
  destruct (t_exec_good w (TStep 0) Hw) as (w1 & E & Hw1 & _). simpl in E. rewrite Hn in E. injection E as <-.
  apply IH; [done|]. pose proof (step_load _ _ _ Hn). lia.
Qed.

(** C14: closing terminates.  After a close has begun, no interleaving of
    further calls starts a new import; each section an import in flight
    takes shortens the work left by exactly one, so that many steps empty
    the table of imports; a close answers busy while an import is in flight
    and succeeds as soon as none is, leaving a closed table without objects,
    so that every count is what callers hold. *)
Theorem object_transfer_close_completes (s : S) (held : list Z) (g : Z) (acts acts' : list TAction)
    (w w1 w2 : TWorld S) (Hs : t_start_ok s held g)
    (Hrun : t_run (t_start s held g) acts = Some w) (Hclose : t_exec w TClose = Some w1)
    (Hrun' : t_run w1 acts' = Some w2) :
  (tload w2 <= tload w1)%nat
  /\ (forall n f w3, tw_flights w2 !! n = Some f -> t_exec w2 (TStep n) = Some w3 ->
        tload w2 = Datatypes.S (tload w3))
  /\ (forall w3, t_exec w2 TClose = Some w3 ->
        tw_log w3 = (if decide (tw_flights w2 = []) then XferOk else XferBusy) :: tw_log w2)
  /\ exists w3 w4, t_run w2 (replicate (tload w2) (TStep 0)) = Some w3 /\ t_exec w3 TClose = Some w4
       /\ tw_log w4 = XferOk :: tw_log w3 /\ xt_state (tw_table w4) = XferTableClosed
       /\ forall a, a <> 0 -> os_count (tw_store w4) a = sumZ (one_if a) (tw_held w4).
Proof.
  destruct (t_run_good acts _ (start_world_ok _ _ _ Hs)) as (w' & E & Hw & _). simplify_eq.
  destruct (close_answer w Hw) as (w1' & E1 & Hw1 & Hsh & _). simplify_eq.
  destruct (t_run_good acts' w1 Hw1) as (w2' & E2 & Hw2 & _). simplify_eq.
  split; [by eapply shut_run|]. split; [|split].
  - intros n f w3 Hn. simpl. rewrite Hn. intros [= <-]. by apply step_load.
  - intros w3 E3. destruct (close_answer w2 Hw2) as (w3' & E3' & _ & _ & [(Hf & ? & _)|[Hf ?]]); simplify_eq.
    + by rewrite decide_True.
    + by rewrite decide_False.
  - destruct (imports_finish _ w2 Hw2 eq_refl) as (w3 & E3 & Hw3 & Hf3).
    destruct (close_answer w3 Hw3) as (w4 & E4 & Hw4 & _ & [(_ & Hlog & _ & Hc)|[Hf _]]); [|done].
    exists w3, w4. split_and!; try done. intros a Ha. by apply closed_counts.
Qed.
End promises.

(** ** A concrete system

    One mailbox held by a caller, exported with two rights and imported while
    it is being revoked. *)
Definition demo_authority : ObjectTransferAuthority :=
  MkAuthority TypeMailbox 3 (MkMetadata 7 0 (replicate 32 0) kObjectTransferMetadataSealed 0).
Definition demo_transfer : TWorld Heap := t_start demo_heap [4096] 1.
Definition demo_export : list TAction := [TAcquire 0; TExport 0 demo_authority; TImport 65 TypeMailbox 1].
Definition demo_after (acts : list TAction) : TWorld Heap :=
  match t_run demo_transfer acts with Some w => w | None => demo_transfer end.

Lemma demo_transfer_ok : t_start_ok demo_heap [4096] 1.
Proof.
  split.
  - apply demo_heap_counts.
  - by apply Forall_singleton.
  - intros a Ha. simpl. unfold cnt, one_if.
    change demo_heap with (<[4096 := MkObject TypeMailbox 1 true]> ∅ : Heap). destruct (decide (a = 4096)) as [->|Hne].
    + by vm_compute.
    + replace (a =? 4096) with false by lia. by rewrite lookup_insert_ne, lookup_empty by done.
  - by vm_compute.
Qed.

(** The import sees the reference live; the revoke that comes while it is
    pinned answers busy; the import still finishes, the second revoke
    succeeds and a later import is refused as a replay. *)
Example transfer_demo :
  tw_log (demo_after (demo_export ++ [TRevoke 65; TStep 0; TStep 0; TRevoke 65; TImport 65 TypeMailbox 1]))
  = [XferReferenceReplayed; XferOk; XferOk; XferBusy; XferOk].
Proof. vm_compute. reflexivity. Qed.

Lemma object_transfer_references_exact_witness :
  exists w, t_run demo_transfer demo_export = Some w /\ tw_flights w = [TPinned (MkDecodedRef 1 1) 4096]
    /\ XferCorruptState ∉ tw_log w.
Proof.
  destruct (object_transfer_references_exact demo_heap [4096] 1 demo_export demo_transfer_ok)
    as (w & Hw & _ & Hlog & _).
  exists w. split; [exact Hw|]. split; [|exact Hlog].
  vm_compute in Hw. injection Hw as <-. reflexivity.
Defined.

Lemma object_transfer_refs_never_return_witness :
  exists w2, t_run demo_transfer (demo_export ++ [TRevoke 65; TStep 0]) = Some w2 /\ NoDup (tw_issued w2).
Proof.
  exists (demo_after (demo_export ++ [TRevoke 65; TStep 0])). split; [vm_compute; reflexivity|].
  apply (object_transfer_refs_never_return demo_heap [4096] 1 demo_export [TStep 0] 65 XferBusy
           (demo_after demo_export) (demo_after (demo_export ++ [TRevoke 65]))).
  - exact demo_transfer_ok.
  - vm_compute. reflexivity.
  - vm_compute. reflexivity.
  - vm_compute. reflexivity.
  - right. reflexivity.
  - vm_compute. reflexivity.
Defined.

Lemma object_transfer_close_completes_witness :
  exists w4, t_run (demo_after (demo_export ++ [TClose])) [TStep 0; TStep 0; TClose] = Some w4
    /\ xt_state (tw_table w4) = XferTableClosed.
Proof.
  destruct (object_transfer_close_completes demo_heap [4096] 1 demo_export [] (demo_after demo_export)
    (demo_after (demo_export ++ [TClose])) (demo_after (demo_export ++ [TClose])) demo_transfer_ok)
    as (_ & _ & _ & w3 & w4 & Hrun & Hclose & _ & Hst & _);
    [vm_compute; reflexivity | vm_compute; reflexivity | reflexivity |].
  exists w4. split; [|exact Hst].
  change (replicate (tload (demo_after (demo_export ++ [TClose]))) (TStep 0)) with [TStep 0; TStep 0] in Hrun.
  change [TStep 0; TStep 0; TClose] with ([TStep 0; TStep 0] ++ [TClose]).
  rewrite t_run_app, Hrun. cbn [t_run]. rewrite Hclose. reflexivity.
Defined.
