(* ===== verification/ObjectTransferSeq.v ===== *)
(** * Object transfer: uninterrupted export and import

    What an export followed by an import does when nothing interferes: the
    importer's handle names the exporter's object, with exactly the rights it
    asked for, within the exported ceiling, which is within the exporter's
    own rights; a refused import changes no count and no live handle. *)

From S2P Require Import Prelude KObject HandleTable HandleTableOps HandleTableSpec HandleTableSeq.
From S2P Require Import ObjectTransfer ObjectStore ObjectTransferSpec ObjectTransferProps.

(** ** Reservations that nothing disturbs *)

(** The table after a reservation took row [i]. *)
Definition reserved (t : HandleTable) (i : Z) (s : HandleSlot) : HandleTable :=
  with_hint (with_slot t i s) i.

Lemma reserved_row t i s : is_Some (slot_of t i) -> slot_of (reserved t i s) i = Some s.
Proof. intros [x Hx]. apply list_lookup_insert_eq. by eapply lookup_lt_Some. Qed.

Lemma reserved_then t i s s' : with_slot (reserved t i s) i s' = row_update t (Z.to_nat i) s' i (active_operations t).
Proof. unfold with_slot, reserved, row_update. simpl. by rewrite list_insert_insert_eq. Qed.

Section reservation.
Context (t : HandleTable) (i g nonce rights : Z) (type : KObjectType).
Context (Hi : 0 < i < kHandleTableCapacity) (Hg : 0 < g <= kHandleGenerationMax) (Hn : nonce <> 0).
Context (Hrow : is_Some (slot_of t i)) (Hopen : table_state t = TableOpen).
Context (Hty : type <> TypeInvalid) (Hr0 : rights <> 0).
Context (Hall : lacks (TypeAllowedRights type) rights = false).

Let s := filled 0 rights nonce g type SlotReserved.
Let r := MkReservation (HandleEncode i g) nonce.

Lemma reservation_valid : HandleTableReservationIsValid r = true.
Proof.
  unfold HandleTableReservationIsValid, r. simpl. pose proof (encode_nonzero i g Hi ltac:(lia)).
  rewrite andb_true_iff, !negb_true_iff. lia.
Qed.

Lemma reservation_decodes : DecodeHandleNospec (HandleEncode i g) = Some (Some (MkDecoded i g)).
Proof.
  assert (0 <= HandleEncode i g) by (rewrite encode_value by lia; hlia).
  rewrite decode_nospec by done. by rewrite decode_encode by lia.
Qed.

Lemma reservation_matches : ReservationMatches s (MkDecoded i g) r = true.
Proof.
  unfold ReservationMatches, s, r. simpl. rewrite !Z.eqb_refl.
  rewrite bool_decide_eq_false_2 by done. by replace (rights =? 0) with false by lia.
Qed.

Lemma publish_reserved h obj :
  obj <> 0 -> type_of h obj = type -> KObjectRefcount h obj <> 0 ->
  HandleTablePublish h (reserved t i s) r obj
    = Some (row_update t (Z.to_nat i) (filled obj rights 0 g TypeInvalid SlotLive) i (active_operations t),
            inr (HandleEncode i g)).
Proof.
  intros Ho Hto Hc. unfold HandleTablePublish. rewrite reservation_valid. simpl res_handle.
  rewrite reservation_decodes, Hto. replace (obj =? 0) with false by lia.
  replace (KObjectRefcount h obj =? 0) with false by lia. rewrite bool_decide_eq_false_2 by done.
  simpl table_state. rewrite Hopen. simpl dec_slot. rewrite reserved_row by done.
  rewrite reservation_matches. simpl. rewrite bool_decide_eq_true_2, Hall by done.
  simpl. by rewrite reserved_then.
Qed.

Lemma abort_reserved :
  HandleTableAbort (reserved t i s) r
    = Some (row_update t (Z.to_nat i) (emptied s) i (active_operations t), inr tt).
Proof.
  unfold HandleTableAbort. rewrite reservation_valid. simpl res_handle. rewrite reservation_decodes.
  simpl table_state. rewrite Hopen. simpl dec_slot. rewrite reserved_row by done.
  rewrite reservation_matches. simpl. by rewrite <- reserved_then with (s := s).
Qed.
End reservation.

(** ** Importing from a live row *)

Section live_import.
Context (h : Heap) (t : ObjectTransferTable) (d : ObjectTransferDecodedRef) (row : ObjectTransferSlot).
Context (Ht : xtable_ok [] t) (Hd : ref_ok d) (Hopen : xt_state t = XferOpen).
Context (Hrow : xslot_at t (ref_slot d) = Some row) (Hlive : xs_state row = XferSlotLive).
Context (Hgen : xs_generation row = ref_generation d).
Context (Htype : type_of h (xs_object row) = xs_type row).

Lemma live_row_fields : xs_object row <> 0 /\ xs_pins row = 0 /\ xs_type row <> TypeInvalid /\ xt_active t = 0.
Proof.
  destruct (xk_row _ _ Ht _ _ Hrow) as [(_ & _ & Hm) Hp _]. rewrite Hlive in Hm.
  pose proof (xk_active _ _ Ht). destruct Hm as (? & _ & ? & _). by split_and!.
Qed.

Lemma pin_live expected requested :
  ObjectTransferImportPinLocked (type_of h) t d expected requested
  = if negb (bool_decide (xs_type row = expected)) then (t, inl XferTypeMismatch)
    else if lacks (xs_rights row) requested then (t, inl XferRightsDenied)
    else (with_xactive (with_xslot t (ref_slot d) (xslot_pins row 1)) 1, inr (xs_object row, xs_metadata row)).
Proof.
  destruct live_row_fields as (Ho & Hp & _ & Ha). unfold ObjectTransferImportPinLocked.
  rewrite Hopen, Hrow, Htype. simpl. unfold TransferSlotMatches. rewrite Hlive, Hgen, Z.eqb_refl.
  replace (xs_object row =? 0) with false by lia. simpl. rewrite orb_diag, Hp, Ha. simpl.
  by destruct (bool_decide _), (lacks _ _).
Qed.

Lemma unpin_live :
  ObjectTransferImportUnpinLocked (with_xactive (with_xslot t (ref_slot d) (xslot_pins row 1)) 1) d (xs_object row)
  = (t, true).
Proof.
  destruct live_row_fields as (Ho & Hp & _ & Ha). unfold ObjectTransferImportUnpinLocked, xslot_at. simpl.
  rewrite list_lookup_insert_eq by (by eapply lookup_lt_Some). simpl. rewrite Hgen, Hlive, !Z.eqb_refl. simpl.
  f_equal. unfold with_xactive, with_xslot. simpl. rewrite list_insert_insert_eq.
  assert (xslot_pins row 0 = row) as E by (rewrite <- Hp; by destruct row).
  change (xslot_pins (xslot_pins row 1) (1 - 1)) with (xslot_pins row 0). rewrite E, list_insert_id by done.
  destruct t; simpl in *. by rewrite Ha.
Qed.

(** What the caller is told. *)
Definition import_answer (dst : HandleTable) (expected : KObjectType) (requested nonce : Z)
    : ObjectTransferStatus :=
  if negb (RequestedRightsValid expected requested) then XferInvalidArgument
  else match HandleTableReserve dst expected requested nonce with
       | Some (_, _, inr _) =>
           if negb (bool_decide (xs_type row = expected)) then XferTypeMismatch
           else if lacks (xs_rights row) requested then XferRightsDenied
           else if fst (KObjectAcquire h (xs_object row)) then XferOk else XferRetainFailed
       | _ => XferDestinationRejected
       end.

(** What the import did, given what it answered. *)
Definition imported (h' : Heap) (dst dst' : HandleTable) (expected : KObjectType) (requested : Z)
    (result : ObjectTransferImportResult) : Prop :=
  if bool_decide (im_status result = XferOk)
  then im_authority result = MkAuthority expected requested (xs_metadata row)
       /\ expected = xs_type row /\ lacks (xs_rights row) requested = false
       /\ HandleTableLiveCount dst' = HandleTableLiveCount dst + 1
       /\ (forall a, cnt h' a = cnt h a + one_if a (xs_object row))
       /\ exists d' s', HandleDecode (im_handle result) = Some d' /\ addressed dst' d' s'
            /\ slot_obj s' = xs_object row /\ slot_rights s' = requested
  else h' = h /\ im_handle result = kHandleInvalid /\ HandleTableLiveCount dst' = HandleTableLiveCount dst.

Lemma acquire_fails h' obj : KObjectAcquire h obj = (false, h') -> h' = h.
Proof. unfold KObjectAcquire. intros Hacq. by guards_in Hacq. Qed.

Lemma import_live reference dst expected requested nonce :
  counts_ok h -> rows_ok dst -> is_u64 nonce -> DecodeTransferRefNospec reference = d ->
  exists h' dst' nonce' result,
    ObjectTransferImport h (Some t) reference (Some dst) expected requested nonce
      = Some (h', Some t, Some dst', nonce', result)
    /\ im_status result = import_answer dst expected requested nonce
    /\ imported h' dst dst' expected requested result.
Proof.
  intros Hc Hdst Hu Hdec. unfold ObjectTransferImport, import_answer, imported. rewrite Hdec.
  destruct (RequestedRightsValid expected requested) eqn:Hreq; simpl; [|by eexists _, _, _, _].
  rewrite (proj1 (xk_init _ _ Ht)), (proj2 (ref_valid_iff d) Hd). simpl.
  destruct (reserve_spec dst expected requested nonce Hdst Hu) as (dst1 & n1 & [e|r] & -> & Hr).
  { destruct Hr as [-> ->]. by eexists _, _, _, _. }
  destruct Hr as (i & s & Hi & Hs & Hf & Hok & Ho & Hr0 & Hl & Hty & Hmax & -> & -> & ->).
  destruct (free_slot_fields s Hok Hf) as (Hg & _). destruct live_row_fields as (Hobj & _ & _ & _).
  set (s1 := filled 0 requested (nonce + 1) (slot_generation s + 1) expected SlotReserved).
  set (r := MkReservation (HandleEncode i (slot_generation s + 1)) (nonce + 1)).
  set (dst1 := row_update dst (Z.to_nat i) (emptied s1) i (active_operations dst)).
  assert (HandleTableAbort (reserved dst i s1) r = Some (dst1, inr tt)) as Hab.
  { apply abort_reserved; (done || ulia || by eexists). }
  assert (forall s2, HandleTableLiveCount (row_update dst (Z.to_nat i) s2 i (active_operations dst))
            = HandleTableLiveCount dst + live1 s2) as Hlc.
  { intros s2. rewrite (live_count_row dst i s) by (done || lia). unfold live1 at 1, is_live. rewrite Hf. simpl. lia. }
  assert (HandleTableLiveCount dst1 = HandleTableLiveCount dst) as Hlive1.
  { unfold dst1. rewrite Hlc. unfold live1, is_live, emptied, ClosedStateFor. simpl. destruct (_ =? _); simpl; lia. }
  fold (reserved dst i s1). rewrite pin_live. unfold AbortImportReservation.
  case_bool_decide as Hte; simpl; [|rewrite Hab; by eexists _, _, _, _].
  destruct (lacks (xs_rights row) requested) eqn:Hlr; [rewrite Hab; by eexists _, _, _, _|].
  destruct (KObjectAcquire h (xs_object row)) as [ok h'] eqn:Hacq. rewrite unpin_live. simpl.
  destruct ok; simpl; [|rewrite Hab, (acquire_fails _ _ Hacq); by eexists _, _, _, _].
  destruct (acquired_counts h _ _ Hc Hobj Hacq) as (_ & Hth & Hrc & _ & Hcnt).
  unfold ImportPublish, r, s1. rewrite publish_reserved
    by (done || ulia || (by eexists) || (by rewrite Hth, Htype)).
  eexists _, _, _, _. split; [done|]. split; [done|].
  rewrite bool_decide_eq_true_2 by done. split_and!; try done.
  exists (MkDecoded i (slot_generation s + 1)),
    (filled (xs_object row) requested 0 (slot_generation s + 1) TypeInvalid SlotLive).
  split; [apply decode_encode; lia|]. split; [|done]. unfold addressed. simpl. split; [done|].
  split; [apply list_lookup_insert_eq; by eapply lookup_lt_Some|]. split_and!; try done; try lia.
  apply filled_live_ok; [done | lia].
Qed.
End live_import.

(** ** Exporting from a handle table *)

Lemma export_idle h t src handle a :
  counts_ok h -> xtable_ok [] t -> rows_ok src -> 0 <= active_operations src -> 0 <= handle ->
  exists h1 t1 status reference,
    ObjectTransferExport h (Some t) (Some src) handle a = Some (h1, Some t1, Some src, status, reference)
    /\ counts_ok h1 /\
    (status <> XferOk /\ reference = kObjectTransferRefInvalid /\ t1 = t /\ (forall x, cnt h1 x = cnt h x)
     \/ status = XferOk /\ AuthorityValid a = true /\ exists d s i g,
          HandleDecode handle = Some d /\ addressed src d s
          /\ lacks (slot_rights s) (Z.lor kHandleRightTransfer (Z.lor kHandleRightDuplicate (au_rights a))) = false
          /\ type_of h (slot_obj s) = au_type a /\ type_of h1 (slot_obj s) = au_type a
          /\ (forall x, cnt h1 x = cnt h x + one_if x (slot_obj s))
          /\ ref_ok (MkDecodedRef i g) /\ reference = ObjectTransferRefEncode i g
          /\ xt_state t1 = XferOpen /\ xslot_at t1 i = Some (exported (slot_obj s) a g)
          /\ xtable_ok [] t1).
Proof.
  intros Hc Ht Hsrc Hact Hnn. unfold ObjectTransferExport.
  destruct (handle =? kHandleInvalid); [by eexists _, _, _, _; split; [|split; [|left]]|].
  rewrite (proj1 (xk_init _ _ Ht)). cbn [negb Z.eqb Pos.eqb].
  destruct (AuthorityValid a) eqn:Ha; cbn [negb]; [|by eexists _, _, _, _; split; [|split; [|left]]].
  unfold HandleTableLookupRef.
  destruct (retain_spec h src handle (au_type a) (Z.lor kHandleRightTransfer (Z.lor kHandleRightDuplicate (au_rights a)))
              Hsrc Hnn Hact) as (h1 & [e|[obj rights]] & -> & Hr).
  { subst h1. cbn [Z.eqb]. by eexists _, _, _, _; split; [|split; [|left]]. }
  destruct Hr as (d & s & Hd & Hadd & -> & -> & Hl & Hacq & Hty).
  assert (slot_obj s <> 0) as Hne.
  { destruct Hadd as (_ & _ & (_ & _ & Hm) & Hst & _). rewrite Hst in Hm. by destruct Hm. }
  destruct (acquired_counts h _ _ Hc Hne Hacq) as (Hpos & Hth & _ & Hc1 & Hcnt).
  assert (type_of h (slot_obj s) = au_type a) as Hto.
  { destruct Hty as [Hty|Hty]; [|done]. unfold AuthorityValid in Ha. by rewrite Hty in Ha. }
  replace (slot_obj s =? 0) with false by lia.
  destruct (export_spec _ _ (slot_obj s) a Ht) as (t1 & status & reference & -> & _ & [[Hno ->]|(-> & Ho & Htake)]).
  - rewrite bool_decide_eq_false_2 by done.
    destruct (release_after_acquire h h1 _ Hc Hne Hacq) as (h2 & dead & Hrel & Hcnt2).
    destruct (os_release_law h1 (slot_obj s)) as (h2' & dead' & Hrel' & Hc2 & _); [done | done | |].
    { simpl. rewrite Hcnt, one_if_same. lia. }
    simpl in Hrel'. rewrite Hrel in *. simplify_eq.
    eexists _, _, _, _. split; [done|]. split; [done|]. by left.
  - rewrite bool_decide_eq_true_2 by done. destruct Htake as (i & row & Hi & Hrow & Hf & -> & ->).
    destruct (xk_row _ _ Ht _ _ Hrow) as [(Hg & _ & Hm) _ _]. rewrite Hf in Hm. destruct Hm as [(_ & _ & Hp & _) Hlt].
    eexists _, _, _, _. split; [done|]. split; [done|]. right. split; [done|]. split; [done|].
    destruct (exported_slot_ok (slot_obj s) a (xs_generation row + 1) Ha Hne ltac:(lia)) as [Hxok _].
    exists d, s, i, (xs_generation row + 1).
    assert (ref_ok (MkDecodedRef i (xs_generation row + 1))) as Href by (split; simpl; lia).
    split_and!; try done; [by rewrite Hth | apply list_lookup_insert_eq; by eapply lookup_lt_Some|].
    apply (xtable_ok_commit [] [] t (Z.to_nat i) row); try done; try lia; try (by rewrite Ho); auto with duet;
      [|exact (xk_active _ _ Ht) | simpl; lia | exact (xk_u32 _ _ Ht)].
    apply (xrow_ok_idle _ _ row); try done; by apply (xk_row _ _ Ht).
Qed.

(** An exported object reaches the importer with the exported authority
    and no more.  An export that succeeds came from a live handle to an
    object of the declared type that carries the transfer and duplicate
    rights and every exported right, and counts one reference; otherwise no
    count changes.  An import of the reference then answers exactly as
    [import_answer] says: success gives the destination one new live handle
    to the same object with exactly the requested rights, within the exported
    ceiling, together with the exported metadata, and counts one more
    reference; any other answer leaves the objects, the transfer table and
    the destination's live handles as they were. *)
Theorem object_transfer_end_to_end (h : Heap) (t : ObjectTransferTable) (src dst : HandleTable)
    (handle requested nonce : Z) (a : ObjectTransferAuthority) (expected : KObjectType)
    (Hc : counts_ok h) (Ht : xtable_ok [] t) (Hsrc : rows_ok src) (Hact : 0 <= active_operations src)
    (Hnn : 0 <= handle) (Hdst : rows_ok dst) (Hu : is_u64 nonce) :
  exists h1 t1 status reference,
    ObjectTransferExport h (Some t) (Some src) handle a = Some (h1, Some t1, Some src, status, reference)
    /\ (status <> XferOk -> t1 = t /\ forall x, cnt h1 x = cnt h x)
    /\ (status = XferOk -> exists d s row,
          HandleDecode handle = Some d /\ addressed src d s /\ type_of h (slot_obj s) = au_type a
          /\ lacks (slot_rights s) (Z.lor kHandleRightTransfer (Z.lor kHandleRightDuplicate (au_rights a))) = false
          /\ (forall x, cnt h1 x = cnt h x + one_if x (slot_obj s))
          /\ row = exported (slot_obj s) a (ref_generation (DecodeTransferRefNospec reference))
          /\ exists h2 dst2 nonce2 result,
               ObjectTransferImport h1 (Some t1) reference (Some dst) expected requested nonce
                 = Some (h2, Some t1, Some dst2, nonce2, result)
               /\ im_status result = import_answer h1 row dst expected requested nonce
               /\ imported h1 row h2 dst dst2 expected requested result).
Proof.
  destruct (export_idle h t src handle a Hc Ht Hsrc Hact Hnn)
    as (h1 & t1 & status & reference & E & Hc1 & Hcase).
  exists h1, t1, status, reference. split; [done|].
  destruct Hcase as [(Hno & _ & -> & Hcnt)|(-> & Ha & d & s & i & g & Hd & Hadd & Hl & Hto & Hto1 & Hcnt & Href & -> & Ho & Hrow & Ht1)];
    [by split; [intros _|intros ->]|].
  split; [done|]. intros _. exists d, s, (exported (slot_obj s) a g).
  pose proof (ref_decode_encode _ Href) as Hdec. simpl in Hdec. rewrite Hdec.
  split_and!; try done.
  eapply (import_live h1 t1 (MkDecodedRef i g)); try done.
Qed.

Definition demo_source : HandleTable :=
  match HandleTableInsert demo_heap zero_table 4096 (TypeAllowedRights TypeMailbox) with
  | Some (t, _) => t
  | None => zero_table
  end.

Lemma demo_source_rows : rows_ok demo_source /\ active_operations demo_source = 0.
Proof.
  assert (HandleTableInsert demo_heap zero_table 4096 (TypeAllowedRights TypeMailbox)
          = Some (demo_source, inr 4097)) as Hins by (vm_compute; reflexivity).
  exact (insert_idle _ _ _ _ _ _ zero_table_rows Hins).
Qed.

Lemma object_transfer_end_to_end_witness :
  exists h1 t1 h2 dst2 nonce2 result,
    ObjectTransferExport demo_heap (Some (initial_xtable 1)) (Some demo_source) 4097 demo_authority
      = Some (h1, Some t1, Some demo_source, XferOk, 65)
    /\ ObjectTransferImport h1 (Some t1) 65 (Some zero_table) TypeMailbox 1 0
      = Some (h2, Some t1, Some dst2, nonce2, result)
    /\ im_status result = XferOk /\ HandleTableLiveCount dst2 = 1.
Proof.
  destruct demo_source_rows as [Hrows Hact].
  destruct (object_transfer_end_to_end demo_heap (initial_xtable 1) demo_source zero_table 4097 1 0
              demo_authority TypeMailbox) as (h1 & t1 & status & reference & E & _ & Hok).
  - exact demo_heap_counts.
  - exact (tk_table _ (start_world_ok _ _ _ demo_transfer_ok)).
  - exact Hrows.
  - rewrite Hact. lia.
  - lia.
  - exact zero_table_rows.
  - by vm_compute.
  - assert (status = XferOk /\ reference = 65) as [-> ->].
    { vm_compute in E. injection E as _ _ <- <-. split; reflexivity. }
    destruct (Hok eq_refl) as (d & s & row & _ & _ & _ & _ & _ & _ & h2 & dst2 & nonce2 & result & E2 & _).
    exists h1, t1, h2, dst2, nonce2, result. split; [exact E|]. split; [exact E2|].
    vm_compute in E. injection E as <- <-. vm_compute in E2. injection E2 as _ <- _ <-. split; reflexivity.
Defined.
