(* ===== verification/ChannelCore.v ===== *)
(** * The channel core

    Model of [kernel/ipc/channel_core.h] and [kernel/ipc/channel_core.cpp]:
    the owner of one bidirectional channel, which composes two request
    ledgers, two message ports, two object-transfer tables and one resource
    charge.

    The core lock serializes its critical sections, each one definition here
    ([..Locked], or the whole call where it is one section).  The objects a
    channel owns live in a record [Kernel] of memory and services, threaded
    by a state monad whose failure is a tripped assertion or an access to
    memory that is not allocated; addresses are integers and 0 is null.
    What the allocator returns is an argument.  The lock words, which no
    modelled result depends on, are left out; the fields the canonicality
    check of fresh storage reads are the others. *)

From S2P Require Import Prelude Bytes MessageAbi VersionedPayload MessageRing.
From S2P Require Import KObject HandleTable KMessagePort ObjectTransfer ResourceDomain RequestLedger.

(** ** Data *)

Definition kChannelEpochInvalid : Z := 0.
Definition kChannelEpochMaximum : Z := u64_max.
Definition kChannelCoreDirectionCount : Z := 2.
Definition kChannelCoreOperationCapacity : Z := 32.
Definition kChannelCoreOperationGenerationMaximum : Z := u32_max.
Definition kChannelCoreQueuedBufferBytes : Z := kChannelCoreDirectionCount * kMessagePortStorageBytes.

(** The direction is a byte of the source; [ChannelDirOther] stands for the
    values that name no direction. *)
Inductive ChannelCoreDirection := ChannelForward | ChannelReverse | ChannelDirOther.
#[export] Instance ChannelCoreDirection_eq_dec : EqDecision ChannelCoreDirection.
Proof. solve_decision. Defined.

Definition ChannelCoreDirectionIsValid (d : ChannelCoreDirection) : bool :=
  bool_decide (d = ChannelForward) || bool_decide (d = ChannelReverse).

(** Arrays of two, and the index of a direction in them. *)
Definition Both (A : Type) : Type := (A * A)%type.
Definition ChannelCoreDirectionIndex (d : ChannelCoreDirection) : bool := negb (bool_decide (d = ChannelForward)).
Definition nth_both {A} (b : Both A) (index : bool) : A := if index then b.2 else b.1.
Definition set_both {A} (b : Both A) (index : bool) (x : A) : Both A := if index then (b.1, x) else (x, b.2).

Definition ChannelCoreLedgerDirection (d : ChannelCoreDirection) : EndpointRequestDirection :=
  if bool_decide (d = ChannelForward) then InitiatorToAcceptor else AcceptorToInitiator.

Inductive ChannelCoreState := CoreUninitialized | CoreOpen | CoreDraining | CoreDrained.
#[export] Instance ChannelCoreState_eq_dec : EqDecision ChannelCoreState.
Proof. solve_decision. Defined.

Inductive ChannelCoreStatus :=
| ChOk | ChInvalidArgument | ChNotInitialized | ChAlreadyInitialized | ChCorruptState
| ChResourceChargeFailed | ChAllocationFailed | ChEpochExhausted | ChDraining | ChDrained
| ChResetNotDrained | ChBusy | ChOperationIdentityExhausted | ChStaleOperation | ChStaleEpoch
| ChLedgerFailure | ChTransferCloseFailed | ChInvalidCleanup | ChResourceReleaseFailed.
#[export] Instance ChannelCoreStatus_eq_dec : EqDecision ChannelCoreStatus.
Proof. solve_decision. Defined.

Inductive ChannelCoreOperationSlotState := OpFree | OpLive | OpRetired.
#[export] Instance ChannelCoreOperationSlotState_eq_dec : EqDecision ChannelCoreOperationSlotState.
Proof. solve_decision. Defined.

Definition kInvalidChannelCoreOperationBinding : Z := 0.
Definition ChannelCoreOperationBindingIsValid (binding : Z) : bool :=
  negb (binding =? kInvalidChannelCoreOperationBinding).

Record ChannelCoreOperationPin := MkOpPin {
  pin_epoch : Z;
  pin_slot : Z;
  pin_generation : Z;
  pin_binding : Z;
}.
#[export] Instance ChannelCoreOperationPin_eq_dec : EqDecision ChannelCoreOperationPin.
Proof. solve_decision. Defined.

Definition kInvalidChannelCoreOperationPin : ChannelCoreOperationPin :=
  MkOpPin kChannelEpochInvalid kChannelCoreOperationCapacity 0 kInvalidChannelCoreOperationBinding.

Definition ChannelCoreOperationPinIsValid (pin : ChannelCoreOperationPin) : bool :=
  negb (pin_epoch pin =? kChannelEpochInvalid) && (pin_slot pin <? kChannelCoreOperationCapacity)
  && negb (pin_generation pin =? 0) && ChannelCoreOperationBindingIsValid (pin_binding pin).

Record ChannelCoreOpenResult := MkOpen { open_status : ChannelCoreStatus; open_epoch : Z }.
Record ChannelCorePinResult := MkPinResult { pin_status : ChannelCoreStatus; pin_of : ChannelCoreOperationPin }.

Record ChannelCoreDirectionLease := MkLease {
  lease_status : ChannelCoreStatus;
  lease_port : Z;
  lease_table : Z;
  lease_identity : EndpointRequestLedgerIdentity;
}.

Record ChannelCoreRequestReserveResult := MkReserveResult {
  reserve_status : ChannelCoreStatus;
  reserve_ledger_status : EndpointRequestLedgerStatus;
  reserve_key : EndpointRequestKey;
}.

Record ChannelCoreRequestCommitResult := MkRequestCommit {
  rc_status : ChannelCoreStatus;
  rc_ledger_status : EndpointRequestLedgerStatus;
  rc_authority : EndpointRequestCompletionAuthority;
}.

Record ChannelCoreRequestTransitionResult := MkTransition {
  tr_status : ChannelCoreStatus;
  tr_ledger_status : EndpointRequestLedgerStatus;
}.

Record ChannelCoreDetachedCleanup := MkCleanup {
  cl_epoch : Z;
  cl_ports : Both Z;
  cl_tables : Both Z;
  cl_charge : ResourceKey;
}.
#[export] Instance ChannelCoreDetachedCleanup_eq_dec : EqDecision ChannelCoreDetachedCleanup.
Proof. solve_decision. Defined.

Notation ResourceChannelChargeKeyIsValid := (ChargeKeyIsValid ChannelCharge).
Definition zero_charge_key : ResourceKey := ResourceDomain.MkKey 0 0.
Definition zero_cleanup : ChannelCoreDetachedCleanup := MkCleanup 0 (0, 0) (0, 0) zero_charge_key.

Definition ChannelCoreDetachedCleanupIsEmpty (c : ChannelCoreDetachedCleanup) : bool :=
  (cl_epoch c =? kChannelEpochInvalid) && ((cl_ports c).1 =? 0) && ((cl_ports c).2 =? 0)
  && ((cl_tables c).1 =? 0) && ((cl_tables c).2 =? 0) && negb (ResourceChannelChargeKeyIsValid (cl_charge c)).

Record ChannelCoreDrainResult := MkDrain {
  dr_status : ChannelCoreStatus;
  dr_epoch : Z;
  dr_requests : Both EndpointRequestDrainResult;
  dr_detached : ChannelCoreDetachedCleanup;
}.

Record ChannelCoreSnapshot := MkCoreSnapshot {
  cs_state : ChannelCoreState;
  cs_epoch : Z;
  cs_active_operations : Z;
  cs_active_requests : Both Z;
  cs_identities : Both EndpointRequestLedgerIdentity;
  cs_resources_attached : bool;
  cs_ports_close_notified : bool;
  cs_ledgers_drained : bool;
}.

Record ChannelCoreInspectResult := MkInspect { ins_status : ChannelCoreStatus; ins_snapshot : ChannelCoreSnapshot }.

Record ChannelCoreOperationSlot := MkOpSlot {
  op_generation : Z;
  op_state : ChannelCoreOperationSlotState;
  op_binding : Z;
}.
#[export] Instance ChannelCoreOperationSlot_eq_dec : EqDecision ChannelCoreOperationSlot.
Proof. solve_decision. Defined.

Record ChannelCore := MkCore {
  request_ledgers : Both EndpointRequestLedger;
  core_ports : Both Z;
  core_tables : Both Z;
  core_charge : ResourceKey;
  operation_slots : list ChannelCoreOperationSlot;
  channel_epoch : Z;
  core_operations : Z;
  operation_hint : Z;
  core_initialized : Z;
  drain_driver_active : Z;
  ports_close_notified : Z;
  request_ledgers_drained : Z;
  core_state : ChannelCoreState;
}.

Definition kChannelCoreInitializeUninitialized : Z := 0.
Definition kChannelCoreInitializeInProgress : Z := 1.
Definition kChannelCoreInitializeReady : Z := 2.

Definition zero_op_slot : ChannelCoreOperationSlot := MkOpSlot 0 OpFree 0.
Definition zero_core : ChannelCore :=
  MkCore (zero_ledger, zero_ledger) (0, 0) (0, 0) zero_charge_key
    (replicate (Z.to_nat kChannelCoreOperationCapacity) zero_op_slot) 0 0 0 0 0 0 0 CoreUninitialized.

(** ** Field updates *)

Definition with_initialized (c : ChannelCore) (x : Z) : ChannelCore :=
  MkCore (request_ledgers c) (core_ports c) (core_tables c) (core_charge c) (operation_slots c) (channel_epoch c)
    (core_operations c) (operation_hint c) x (drain_driver_active c) (ports_close_notified c)
    (request_ledgers_drained c) (core_state c).
Definition with_ledgers (c : ChannelCore) (l : Both EndpointRequestLedger) : ChannelCore :=
  MkCore l (core_ports c) (core_tables c) (core_charge c) (operation_slots c) (channel_epoch c)
    (core_operations c) (operation_hint c) (core_initialized c) (drain_driver_active c) (ports_close_notified c)
    (request_ledgers_drained c) (core_state c).
Definition with_operations (c : ChannelCore) (slots : list ChannelCoreOperationSlot) (active hint : Z) : ChannelCore :=
  MkCore (request_ledgers c) (core_ports c) (core_tables c) (core_charge c) slots (channel_epoch c)
    active hint (core_initialized c) (drain_driver_active c) (ports_close_notified c)
    (request_ledgers_drained c) (core_state c).
Definition with_resources (c : ChannelCore) (ports tables : Both Z) (charge : ResourceKey) : ChannelCore :=
  MkCore (request_ledgers c) ports tables charge (operation_slots c) (channel_epoch c)
    (core_operations c) (operation_hint c) (core_initialized c) (drain_driver_active c) (ports_close_notified c)
    (request_ledgers_drained c) (core_state c).
Definition with_phase (c : ChannelCore) (epoch driver notified drained : Z) (s : ChannelCoreState) : ChannelCore :=
  MkCore (request_ledgers c) (core_ports c) (core_tables c) (core_charge c) (operation_slots c) epoch
    (core_operations c) (operation_hint c) (core_initialized c) driver notified drained s.

(** ** Helpers of the source *)

Definition OpenFailure (status : ChannelCoreStatus) : ChannelCoreOpenResult := MkOpen status kChannelEpochInvalid.
Definition PinFailure (status : ChannelCoreStatus) : ChannelCorePinResult :=
  MkPinResult status kInvalidChannelCoreOperationPin.
Definition LeaseFailure (status : ChannelCoreStatus) : ChannelCoreDirectionLease :=
  MkLease status 0 0 kInvalidEndpointRequestLedgerIdentity.
Definition ReserveFailure (status : ChannelCoreStatus) (ledger_status : EndpointRequestLedgerStatus)
    : ChannelCoreRequestReserveResult := MkReserveResult status ledger_status kInvalidEndpointRequestKey.
Definition ChannelCommitFailure (status : ChannelCoreStatus) (ledger_status : EndpointRequestLedgerStatus)
    : ChannelCoreRequestCommitResult :=
  MkRequestCommit status ledger_status kInvalidEndpointRequestCompletionAuthority.
Definition TransitionFailure (status : ChannelCoreStatus) (ledger_status : EndpointRequestLedgerStatus)
    : ChannelCoreRequestTransitionResult := MkTransition status ledger_status.

Definition zero_drain_result : EndpointRequestDrainResult := MkDrainResult Ok [].
Definition ChannelDrainFailure (status : ChannelCoreStatus) : ChannelCoreDrainResult :=
  MkDrain status 0 (zero_drain_result, zero_drain_result) zero_cleanup.

Definition zero_core_snapshot : ChannelCoreSnapshot :=
  MkCoreSnapshot CoreUninitialized 0 0 (0, 0)
    (MkIdentity 0 DirInvalid, MkIdentity 0 DirInvalid) false false false.
Definition InspectFailure (status : ChannelCoreStatus) : ChannelCoreInspectResult :=
  MkInspect status zero_core_snapshot.

Definition ResourceChargeIsCanonicalZero (charge : ResourceKey) : bool :=
  (key_slot charge =? 0)%nat && (key_generation charge =? 0).

Definition op_slot_canonical (s : ChannelCoreOperationSlot) : bool :=
  match op_state s with
  | OpFree => negb ((op_generation s =? kChannelCoreOperationGenerationMaximum)
                    || negb (op_binding s =? kInvalidChannelCoreOperationBinding))
  | OpLive => negb ((op_generation s =? 0) || negb (ChannelCoreOperationBindingIsValid (op_binding s)))
  | OpRetired => negb (negb (op_generation s =? kChannelCoreOperationGenerationMaximum)
                       || negb (op_binding s =? kInvalidChannelCoreOperationBinding))
  end.
Definition op_live (s : ChannelCoreOperationSlot) : Z := if bool_decide (op_state s = OpLive) then 1 else 0.

Definition OperationSlotsAreCanonical (c : ChannelCore) : bool :=
  forallb op_slot_canonical (operation_slots c) && (sumZ op_live (operation_slots c) =? core_operations c).

Definition ledger_matches (c : ChannelCore) (required_state : EndpointRequestLedgerState)
    (d : ChannelCoreDirection) : bool :=
  let l := nth_both (request_ledgers c) (ChannelCoreDirectionIndex d) in
  EndpointRequestLedgerIsCanonical l && (endpoint_epoch (identity l) =? channel_epoch c)
  && bool_decide (direction (identity l) = ChannelCoreLedgerDirection d)
  && (if bool_decide (required_state = LedgerOpen)
      then bool_decide (state l = LedgerOpen) || bool_decide (state l = LedgerSequenceRetired)
      else bool_decide (state l = required_state)).

Definition RequestLedgersMatch (c : ChannelCore) (required_state : EndpointRequestLedgerState) : bool :=
  ledger_matches c required_state ChannelForward && ledger_matches c required_state ChannelReverse.

Definition AttachedResourcesAreCanonical (c : ChannelCore) : bool :=
  negb ((core_ports c).1 =? 0) && negb ((core_ports c).2 =? 0) && negb ((core_ports c).1 =? (core_ports c).2)
  && negb ((core_tables c).1 =? 0) && negb ((core_tables c).2 =? 0)
  && negb ((core_tables c).1 =? (core_tables c).2) && ResourceChannelChargeKeyIsValid (core_charge c).

Definition DetachedResourcesAreCanonical (c : ChannelCore) : bool :=
  ((core_ports c).1 =? 0) && ((core_ports c).2 =? 0) && ((core_tables c).1 =? 0) && ((core_tables c).2 =? 0)
  && negb (ResourceChannelChargeKeyIsValid (core_charge c)).

Definition CoreBodyIsCanonicalUninitialized (c : ChannelCore) : bool :=
  bool_decide (core_state c = CoreUninitialized) && (channel_epoch c =? kChannelEpochInvalid)
  && (core_operations c =? 0) && (operation_hint c =? 0) && (drain_driver_active c =? 0)
  && (ports_close_notified c =? 0) && (request_ledgers_drained c =? 0) && ((core_ports c).1 =? 0)
  && ((core_ports c).2 =? 0) && ((core_tables c).1 =? 0) && ((core_tables c).2 =? 0)
  && ResourceChargeIsCanonicalZero (core_charge c)
  && forallb (fun l => EndpointRequestLedgerIsCanonical l && bool_decide (state l = LedgerUninitialized))
       [(request_ledgers c).1; (request_ledgers c).2]
  && forallb (fun s => bool_decide (s = zero_op_slot)) (operation_slots c).

Definition CoreIsCanonical (c : ChannelCore) : bool :=
  if negb (core_initialized c =? kChannelCoreInitializeReady) || (channel_epoch c =? kChannelEpochInvalid)
     || (kChannelCoreOperationCapacity <=? operation_hint c) || (1 <? drain_driver_active c)
     || (1 <? ports_close_notified c) || (1 <? request_ledgers_drained c) || negb (OperationSlotsAreCanonical c)
  then false
  else
    match core_state c with
    | CoreOpen =>
        AttachedResourcesAreCanonical c && (drain_driver_active c =? 0) && (ports_close_notified c =? 0)
        && (request_ledgers_drained c =? 0) && RequestLedgersMatch c LedgerOpen
    | CoreDraining =>
        if negb (AttachedResourcesAreCanonical c) then false
        else if request_ledgers_drained c =? 0 then RequestLedgersMatch c LedgerOpen
        else (core_operations c =? 0) && RequestLedgersMatch c LedgerDraining
    | CoreDrained =>
        DetachedResourcesAreCanonical c && (core_operations c =? 0) && (drain_driver_active c =? 0)
        && (ports_close_notified c =? 1) && (request_ledgers_drained c =? 1)
        && RequestLedgersMatch c LedgerDraining
    | CoreUninitialized => false
    end.

Definition ReadyStatus (core : option ChannelCore) : ChannelCoreStatus :=
  match core with
  | None => ChInvalidArgument
  | Some c => if core_initialized c =? kChannelCoreInitializeReady then ChOk else ChNotInitialized
  end.

(** The epoch authority: the epoch issued and the next value of
    [g_next_channel_epoch]. *)
Definition AllocateChannelEpoch (next : Z) : Z * Z :=
  if next =? kChannelEpochInvalid then (kChannelEpochInvalid, next)
  else (next, if next =? kChannelEpochMaximum then kChannelEpochInvalid else next + 1).

Definition ValidatePinLocked (c : ChannelCore) (pin : ChannelCoreOperationPin) (allow_draining : bool)
    : ChannelCoreStatus :=
  if negb (ChannelCoreOperationPinIsValid pin) then ChInvalidArgument
  else if negb (pin_epoch pin =? channel_epoch c) then ChStaleEpoch
  else
    match operation_slots c !! Z.to_nat (pin_slot pin) with
    | None => ChCorruptState
    | Some slot =>
        if negb (bool_decide (op_state slot = OpLive)) || negb (op_generation slot =? pin_generation pin)
           || negb (op_binding slot =? pin_binding pin)
        then ChStaleOperation
        else if bool_decide (core_state c = CoreDrained) then ChDrained
        else if negb allow_draining && bool_decide (core_state c = CoreDraining) then ChDraining
        else if bool_decide (core_state c = CoreOpen) || (allow_draining && bool_decide (core_state c = CoreDraining))
        then ChOk
        else ChCorruptState
    end.

(** ** Memory and services

    The memory a channel owns and the services it calls.  [k_ports] and
    [k_tables] hold the allocated ports and transfer tables of the channels. *)

Record Kernel := MkKernel {
  k_heap : Heap;
  k_ports : gmap Z KMessagePort;
  k_tables : gmap Z ObjectTransferTable;
  k_domains : Domains;
  k_next_epoch : Z; (* g_next_channel_epoch *)
}.

(** [None] is a failed assertion or an access to memory that is not
    allocated. *)
Definition kM (A : Type) : Type := Kernel -> option (A * Kernel).
Definition kret {A} (x : A) : kM A := fun k => Some (x, k).
Definition kbind {A B} (m : kM A) (f : A -> kM B) : kM B :=
  fun k => match m k with None => None | Some (x, k) => f x k end.

Declare Scope kernel_scope.
Delimit Scope kernel_scope with K.
Notation "x <- m ;; f" := (kbind m (fun x => f)) (at level 100, m at next level, right associativity) : kernel_scope.
Notation "m ;; f" := (kbind m (fun _ => f)) (at level 100, right associativity) : kernel_scope.
Local Open Scope kernel_scope.

Definition set_ports (k : Kernel) (h : Heap) (ports : gmap Z KMessagePort) : Kernel :=
  MkKernel h ports (k_tables k) (k_domains k) (k_next_epoch k).
Definition set_tables (k : Kernel) (h : Heap) (tables : gmap Z ObjectTransferTable) : Kernel :=
  MkKernel h (k_ports k) tables (k_domains k) (k_next_epoch k).
Definition set_domains (k : Kernel) (d : Domains) : Kernel :=
  MkKernel (k_heap k) (k_ports k) (k_tables k) d (k_next_epoch k).
Definition set_epoch (k : Kernel) (next : Z) : Kernel :=
  MkKernel (k_heap k) (k_ports k) (k_tables k) (k_domains k) next.

Definition port_create (block : option Z) : kM (Result Z) := fun k =>
  let '(h, ports, r) := KMessagePortCreate (k_heap k) (k_ports k) block in Some (r, set_ports k h ports).

Definition port_close (port : Z) : kM unit := fun k =>
  if port =? 0 then Some (tt, k)
  else match k_ports k !! port with
       | None => None
       | Some p => Some (tt, set_ports k (k_heap k) (<[port := default p (KMessagePortClose (Some p)).1]> (k_ports k)))
       end.

Definition port_release (port : Z) : kM unit := fun k =>
  match k_ports k !! port with
  | None => None
  | Some _ =>
      match release_port (k_heap k) (k_ports k) port with
      | None => None
      | Some (h, ports) => Some (tt, set_ports k h ports)
      end
  end.

Definition table_close (table : Z) : kM ObjectTransferStatus := fun k =>
  match k_tables k !! table with
  | None => None
  | Some t =>
      match ObjectTransferTableClose (k_heap k) (Some t) with
      | None => None
      | Some (h, t', status) => Some (status, set_tables k h (<[table := default t t']> (k_tables k)))
      end
  end.

Definition charge_channel (domain : ResourceKey) (bytes : Z) : kM (bool * ResourceKey) := fun k =>
  let '(ok, d, key) := ResourceDomainTryChargeChannel (k_domains k) domain bytes true in
  Some ((ok, default (kInvalidChargeKey ChannelCharge) key), set_domains k d).

(** The caller's copy of the key is not used after the call. *)
Definition release_channel (charge : ResourceKey) : kM bool := fun k =>
  let '(ok, d, _) := ResourceDomainReleaseChannel (k_domains k) (Some charge) in Some (ok, set_domains k d).

Definition AllocateTransferTable (block : option Z) : kM Z := fun k =>
  match block with
  | None => Some (0, k)
  | Some a => Some (a, set_tables k (k_heap k) (<[a := zero_xtable]> (k_tables k)))
  end.

Definition table_initialize (table : Z) : kM ObjectTransferStatus := fun k =>
  match k_tables k !! table with
  | None => None
  | Some t =>
      let '(status, t') := ObjectTransferTableInitialize (Some t) 1 in
      Some (status, set_tables k (k_heap k) (<[table := default t t']> (k_tables k)))
  end.

Definition FreeTransferTable (table : Z) : kM unit := fun k =>
  if table =? 0 then Some (tt, k)
  else match k_tables k !! table with
       | None => None
       | Some _ => Some (tt, set_tables k (k_heap k) (delete table (k_tables k)))
       end.

Definition allocate_epoch : kM Z := fun k =>
  let '(epoch, next) := AllocateChannelEpoch (k_next_epoch k) in Some (epoch, set_epoch k next).

(** ** The private resource graph *)

Record PreparedResources := MkPrepared {
  res_ports : Both Z;
  res_tables : Both Z;
  res_charge : ResourceKey;
}.
Definition zero_prepared : PreparedResources := MkPrepared (0, 0) (0, 0) zero_charge_key.

(** What the allocator returns to the four allocations of one preparation. *)
Record Blocks := MkBlocks { block_ports : Both (option Z); block_tables : Both (option Z) }.

Definition release_prepared_one (port table : Z) : kM unit :=
  (if negb (port =? 0) then port_close port;; port_release port else kret tt);;
  (if negb (table =? 0) then table_close table;; FreeTransferTable table else kret tt).

Definition ReleasePreparedResources (r : PreparedResources) : kM unit :=
  release_prepared_one (res_ports r).1 (res_tables r).1;;
  release_prepared_one (res_ports r).2 (res_tables r).2;;
  (if ResourceChannelChargeKeyIsValid (res_charge r) then release_channel (res_charge r);; kret tt else kret tt).

(** The second loop's body: [None] in the answer is success. *)
Definition prepare_table (block : option Z) : kM (Z * option ChannelCoreStatus) :=
  table <- AllocateTransferTable block;;
  if table =? 0 then kret (table, Some ChAllocationFailed)
  else status <- table_initialize table;;
       kret (table, if bool_decide (status = XferOk) then None else Some ChCorruptState).

Definition fail_prepare (r : PreparedResources) (status : ChannelCoreStatus)
    : kM (ChannelCoreStatus * PreparedResources) :=
  ReleasePreparedResources r;; kret (status, zero_prepared).

(** The loop over the tables. *)
Definition prepare_tables (ports : Both Z) (charge : ResourceKey) (blocks : Both (option Z))
    : kM (ChannelCoreStatus * PreparedResources) :=
  first <- prepare_table blocks.1;;
  match first with
  | (t0, Some status) => fail_prepare (MkPrepared ports (t0, 0) charge) status
  | (t0, None) =>
      second <- prepare_table blocks.2;;
      match second with
      | (t1, Some status) => fail_prepare (MkPrepared ports (t0, t1) charge) status
      | (t1, None) => kret (ChOk, MkPrepared ports (t0, t1) charge)
      end
  end.

Definition PrepareResources (domain : ResourceKey) (b : Blocks) : kM (ChannelCoreStatus * PreparedResources) :=
  charged <- charge_channel domain kChannelCoreQueuedBufferBytes;;
  if negb charged.1 then kret (ChResourceChargeFailed, MkPrepared (0, 0) (0, 0) charged.2)
  else
    first <- port_create (block_ports b).1;;
    match first with
    | inl _ => fail_prepare (MkPrepared (0, 0) (0, 0) charged.2) ChAllocationFailed
    | inr p0 =>
        second <- port_create (block_ports b).2;;
        match second with
        | inl _ => fail_prepare (MkPrepared (p0, 0) (0, 0) charged.2) ChAllocationFailed
        | inr p1 => prepare_tables (p0, p1) charged.2 (block_tables b)
        end
    end.

Definition AdoptResources (c : ChannelCore) (r : PreparedResources) : ChannelCore :=
  with_resources c (res_ports r) (res_tables r) (res_charge r).

(** ** Initialization *)

(** The claim of fresh storage: the argument checks, the compare-exchange
    and the check of the body; [ChOk] leaves the construction in progress. *)
Definition InitializeClaim (core : option ChannelCore) (domain : ResourceKey)
    : ChannelCoreStatus * option ChannelCore :=
  match core with
  | None => (ChInvalidArgument, core)
  | Some c =>
      if negb (ResourceDomainKeyIsValid domain) then (ChInvalidArgument, core)
      else if negb (core_initialized c =? kChannelCoreInitializeUninitialized) then (ChAlreadyInitialized, core)
      else if negb (CoreBodyIsCanonicalUninitialized c)
      then (ChCorruptState, Some (with_initialized c kChannelCoreInitializeUninitialized))
      else (ChOk, Some (with_initialized c kChannelCoreInitializeInProgress))
  end.

Definition identities (epoch : Z) : Both EndpointRequestLedgerIdentity :=
  (MkIdentity epoch (ChannelCoreLedgerDirection ChannelForward),
   MkIdentity epoch (ChannelCoreLedgerDirection ChannelReverse)).

(** The publication; [None] when a private ledger does not initialize. *)
Definition InitializePublish (c : ChannelCore) (r : PreparedResources) (epoch : Z) : option ChannelCore :=
  match EndpointRequestLedgerInitialize (Some zero_ledger) (identities epoch).1 1,
        EndpointRequestLedgerInitialize (Some zero_ledger) (identities epoch).2 1 with
  | (Ok, Some l0), (Ok, Some l1) =>
      let c := AdoptResources (with_ledgers c (l0, l1)) r in
      let c := with_operations c (operation_slots c) 0 0 in
      Some (with_initialized (with_phase c epoch 0 0 0 CoreOpen) kChannelCoreInitializeReady)
  | _, _ => None
  end.

(** The construction after the claim, with the rollbacks. *)
Definition InitializeFinish (c : ChannelCore) (r : PreparedResources) (epoch : Z)
    : kM (ChannelCore * ChannelCoreOpenResult) :=
  let reopened := with_initialized c kChannelCoreInitializeUninitialized in
  if epoch =? kChannelEpochInvalid
  then ReleasePreparedResources r;; kret (reopened, OpenFailure ChEpochExhausted)
  else match InitializePublish c r epoch with
       | None => ReleasePreparedResources r;; kret (reopened, OpenFailure ChCorruptState)
       | Some c => kret (c, MkOpen ChOk epoch)
       end.

Definition ChannelCoreInitialize (core : option ChannelCore) (domain : ResourceKey) (b : Blocks)
    : kM (option ChannelCore * ChannelCoreOpenResult) :=
  match InitializeClaim core domain with
  | (ChOk, Some c) =>
      prepared <- PrepareResources domain b;;
      match prepared with
      | (ChOk, r) =>
          epoch <- allocate_epoch;;
          done <- InitializeFinish c r epoch;;
          kret (Some done.1, done.2)
      | (status, _) =>
          kret (Some (with_initialized c kChannelCoreInitializeUninitialized), OpenFailure status)
      end
  | (status, core) => kret (core, OpenFailure status)
  end.

(** ** Reset *)

(** The first section: the epoch that is to be replaced, or the refusal. *)
Definition ResetBeginLocked (core : option ChannelCore) (domain : ResourceKey) : ChannelCoreStatus + Z :=
  match ReadyStatus core, core with
  | ChOk, Some c =>
      if negb (ResourceDomainKeyIsValid domain) then inl ChInvalidArgument
      else if negb (CoreIsCanonical c) then inl ChCorruptState
      else if negb (bool_decide (core_state c = CoreDrained)) then inl ChResetNotDrained
      else inr (channel_epoch c)
  | status, _ => inl status
  end.

(** The second section; the resources are adopted exactly when the answer
    is [ChOk]. *)
Definition ResetAdoptLocked (c : ChannelCore) (previous_epoch next_epoch : Z) (r : PreparedResources)
    : ChannelCore * ChannelCoreOpenResult :=
  if negb (CoreIsCanonical c) then (c, OpenFailure ChCorruptState)
  else if negb (bool_decide (core_state c = CoreDrained)) || negb (channel_epoch c =? previous_epoch)
  then (c, OpenFailure ChResetNotDrained)
  else
    match EndpointRequestLedgerReset (Some (request_ledgers c).1) (identities next_epoch).1 1,
          EndpointRequestLedgerReset (Some (request_ledgers c).2) (identities next_epoch).2 1 with
    | (Ok, Some l0), (Ok, Some l1) =>
        (with_phase (AdoptResources (with_ledgers c (l0, l1)) r) next_epoch 0 0 0 CoreOpen, MkOpen ChOk next_epoch)
    | _, _ => (c, OpenFailure ChLedgerFailure)
    end.

Definition ResetFinish (c : ChannelCore) (previous_epoch next_epoch : Z) (r : PreparedResources)
    : kM (ChannelCore * ChannelCoreOpenResult) :=
  if next_epoch =? kChannelEpochInvalid
  then ReleasePreparedResources r;; kret (c, OpenFailure ChEpochExhausted)
  else if next_epoch <=? previous_epoch
  then ReleasePreparedResources r;; kret (c, OpenFailure ChStaleEpoch)
  else
    let '(c, result) := ResetAdoptLocked c previous_epoch next_epoch r in
    if bool_decide (open_status result = ChOk) then kret (c, result)
    else ReleasePreparedResources r;; kret (c, result).

Definition ChannelCoreReset (core : option ChannelCore) (domain : ResourceKey) (b : Blocks)
    : kM (option ChannelCore * ChannelCoreOpenResult) :=
  match ResetBeginLocked core domain, core with
  | inr previous_epoch, Some c =>
      prepared <- PrepareResources domain b;;
      match prepared with
      | (ChOk, r) =>
          epoch <- allocate_epoch;;
          done <- ResetFinish c previous_epoch epoch r;;
          kret (Some done.1, done.2)
      | (status, _) => kret (core, OpenFailure status)
      end
  | inl status, _ => kret (core, OpenFailure status)
  | inr _, None => kret (core, OpenFailure ChInvalidArgument)
  end.

(** ** Operation pins *)

(** The scan for a free slot, [remaining] of its 32 steps left: the index
    found, or whether a live slot was seen. *)
Fixpoint acquire_scan (remaining : nat) (offset : Z) (c : ChannelCore) (live_slot_seen : bool)
    : bool + (Z * ChannelCoreOperationSlot) :=
  match remaining with
  | O => inl live_slot_seen
  | S remaining =>
      let index := (operation_hint c + offset) mod kChannelCoreOperationCapacity in
      match operation_slots c !! Z.to_nat index with
      | None => inl live_slot_seen
      | Some slot =>
          if bool_decide (op_state slot = OpLive) then acquire_scan remaining (offset + 1) c true
          else if negb (bool_decide (op_state slot = OpFree))
                  || (op_generation slot =? kChannelCoreOperationGenerationMaximum)
          then acquire_scan remaining (offset + 1) c live_slot_seen
          else inr (index, slot)
      end
  end.

Definition ChannelCoreAcquireOperation (core : option ChannelCore) (expected_epoch binding : Z)
    : option ChannelCore * ChannelCorePinResult :=
  match ReadyStatus core, core with
  | ChOk, Some c =>
      if (expected_epoch =? kChannelEpochInvalid) || negb (ChannelCoreOperationBindingIsValid binding)
      then (core, PinFailure ChInvalidArgument)
      else if negb (CoreIsCanonical c) then (core, PinFailure ChCorruptState)
      else if negb (expected_epoch =? channel_epoch c) then (core, PinFailure ChStaleEpoch)
      else
        match core_state c with
        | CoreDraining => (core, PinFailure ChDraining)
        | CoreDrained => (core, PinFailure ChDrained)
        | CoreUninitialized => (core, PinFailure ChCorruptState)
        | CoreOpen =>
            if core_operations c =? u32_max then (core, PinFailure ChOperationIdentityExhausted)
            else
              match acquire_scan (Z.to_nat kChannelCoreOperationCapacity) 0 c false with
              | inl live_slot_seen =>
                  (core, PinFailure (if live_slot_seen then ChBusy else ChOperationIdentityExhausted))
              | inr (index, slot) =>
                  let generation := op_generation slot + 1 in
                  (Some (with_operations c
                           (<[Z.to_nat index := MkOpSlot generation OpLive binding]> (operation_slots c))
                           (core_operations c + 1) ((index + 1) mod kChannelCoreOperationCapacity)),
                   MkPinResult ChOk (MkOpPin (channel_epoch c) index generation binding))
              end
        end
  | status, _ => (core, PinFailure status)
  end.

Definition ChannelCoreReleaseOperation (core : option ChannelCore) (pin : ChannelCoreOperationPin)
    : option ChannelCore * ChannelCoreStatus :=
  match ReadyStatus core, core with
  | ChOk, Some c =>
      if negb (ChannelCoreOperationPinIsValid pin) then (core, ChInvalidArgument)
      else if negb (CoreIsCanonical c) then (core, ChCorruptState)
      else if negb (pin_epoch pin =? channel_epoch c) then (core, ChStaleEpoch)
      else
        match operation_slots c !! Z.to_nat (pin_slot pin) with
        | None => (core, ChCorruptState)
        | Some slot =>
            if negb (bool_decide (op_state slot = OpLive)) || negb (op_generation slot =? pin_generation pin)
               || negb (op_binding slot =? pin_binding pin)
            then (core, ChStaleOperation)
            else if core_operations c =? 0 then (core, ChCorruptState)
            else
              let state := if op_generation slot =? kChannelCoreOperationGenerationMaximum then OpRetired else OpFree in
              (Some (with_operations c
                       (<[Z.to_nat (pin_slot pin) :=
                            MkOpSlot (op_generation slot) state kInvalidChannelCoreOperationBinding]> (operation_slots c))
                       (core_operations c - 1) (pin_slot pin)),
               ChOk)
        end
  | status, _ => (core, status)
  end.

Definition ChannelCoreBorrowDirection (core : option ChannelCore) (pin : ChannelCoreOperationPin)
    (d : ChannelCoreDirection) : ChannelCoreDirectionLease :=
  match ReadyStatus core, core with
  | ChOk, Some c =>
      if negb (ChannelCoreDirectionIsValid d) then LeaseFailure ChInvalidArgument
      else if negb (CoreIsCanonical c) then LeaseFailure ChCorruptState
      else
        match ValidatePinLocked c pin false with
        | ChOk =>
            let index := ChannelCoreDirectionIndex d in
            MkLease ChOk (nth_both (core_ports c) index) (nth_both (core_tables c) index)
              (identity (nth_both (request_ledgers c) index))
        | status => LeaseFailure status
        end
  | status, _ => LeaseFailure status
  end.

(** ** Requests through a pin *)

Definition set_ledger (c : ChannelCore) (index : bool) (l : option EndpointRequestLedger) : ChannelCore :=
  with_ledgers c (set_both (request_ledgers c) index (default (nth_both (request_ledgers c) index) l)).

Definition ChannelCoreReserveRequest (core : option ChannelCore) (pin : ChannelCoreOperationPin)
    (d : ChannelCoreDirection) (request_id : Z) : option ChannelCore * ChannelCoreRequestReserveResult :=
  match ReadyStatus core, core with
  | ChOk, Some c =>
      if negb (ChannelCoreDirectionIsValid d) || (request_id =? kEndpointRequestIdInvalid)
      then (core, ReserveFailure ChInvalidArgument InvalidArgument)
      else if negb (CoreIsCanonical c) then (core, ReserveFailure ChCorruptState CorruptState)
      else
        match ValidatePinLocked c pin false with
        | ChOk =>
            let index := ChannelCoreDirectionIndex d in
            let l := nth_both (request_ledgers c) index in
            let key := MkKey (identity l) request_id in
            let '(ledger_status, l') := EndpointRequestLedgerReserve (Some l) key in
            (Some (set_ledger c index l'),
             match ledger_status with
             | Ok => MkReserveResult ChOk ledger_status key
             | _ => ReserveFailure ChLedgerFailure ledger_status
             end)
        | status => (core, ReserveFailure status NotInitialized)
        end
  | status, _ => (core, ReserveFailure status NotInitialized)
  end.

Definition ChannelCoreCommitRequest (core : option ChannelCore) (pin : ChannelCoreOperationPin)
    (d : ChannelCoreDirection) (key : EndpointRequestKey) : option ChannelCore * ChannelCoreRequestCommitResult :=
  match ReadyStatus core, core with
  | ChOk, Some c =>
      if negb (ChannelCoreDirectionIsValid d) || negb (EndpointRequestKeyIsValid key)
      then (core, ChannelCommitFailure ChInvalidArgument InvalidArgument)
      else if negb (CoreIsCanonical c) then (core, ChannelCommitFailure ChCorruptState CorruptState)
      else
        match ValidatePinLocked c pin true with
        | ChOk =>
            let index := ChannelCoreDirectionIndex d in
            let '(committed, l') := EndpointRequestLedgerCommit (Some (nth_both (request_ledgers c) index)) key in
            (Some (set_ledger c index l'),
             match commit_status committed with
             | Ok => MkRequestCommit ChOk (commit_status committed) (completion_authority committed)
             | _ => ChannelCommitFailure ChLedgerFailure (commit_status committed)
             end)
        | status => (core, ChannelCommitFailure status NotInitialized)
        end
  | status, _ => (core, ChannelCommitFailure status NotInitialized)
  end.

(** The common tail of cancel and complete. *)
Definition settle_with (c : ChannelCore) (index : bool)
    (answer : EndpointRequestLedgerStatus * option EndpointRequestLedger)
    : option ChannelCore * ChannelCoreRequestTransitionResult :=
  let '(ledger_status, l') := answer in
  (Some (set_ledger c index l'),
   match ledger_status with
   | Ok => MkTransition ChOk ledger_status
   | _ => TransitionFailure ChLedgerFailure ledger_status
   end).

Definition ChannelCoreCancelRequest (core : option ChannelCore) (pin : ChannelCoreOperationPin)
    (d : ChannelCoreDirection) (key : EndpointRequestKey)
    : option ChannelCore * ChannelCoreRequestTransitionResult :=
  match ReadyStatus core, core with
  | ChOk, Some c =>
      if negb (ChannelCoreDirectionIsValid d) || negb (EndpointRequestKeyIsValid key)
      then (core, TransitionFailure ChInvalidArgument InvalidArgument)
      else if negb (CoreIsCanonical c) then (core, TransitionFailure ChCorruptState CorruptState)
      else
        match ValidatePinLocked c pin true with
        | ChOk =>
            let index := ChannelCoreDirectionIndex d in
            settle_with c index (EndpointRequestLedgerCancel (Some (nth_both (request_ledgers c) index)) key)
        | status => (core, TransitionFailure status NotInitialized)
        end
  | status, _ => (core, TransitionFailure status NotInitialized)
  end.

Definition ChannelCoreCompleteRequest (core : option ChannelCore) (pin : ChannelCoreOperationPin)
    (d : ChannelCoreDirection) (authority : EndpointRequestCompletionAuthority)
    : option ChannelCore * ChannelCoreRequestTransitionResult :=
  match ReadyStatus core, core with
  | ChOk, Some c =>
      if negb (ChannelCoreDirectionIsValid d) || negb (EndpointRequestCompletionAuthorityIsValid authority)
      then (core, TransitionFailure ChInvalidArgument InvalidArgument)
      else if negb (CoreIsCanonical c) then (core, TransitionFailure ChCorruptState CorruptState)
      else
        match ValidatePinLocked c pin true with
        | ChOk =>
            let index := ChannelCoreDirectionIndex d in
            settle_with c index (EndpointRequestLedgerComplete (Some (nth_both (request_ledgers c) index)) authority)
        | status => (core, TransitionFailure status NotInitialized)
        end
  | status, _ => (core, TransitionFailure status NotInitialized)
  end.

(** ** Drain *)

(** What the driver carries out of the first section. *)
Record DrainDrive := MkDrive {
  dd_epoch : Z;
  dd_ports : Both Z;
  dd_tables : Both Z;
  dd_finalize : bool;
}.

Definition drain_answer (epoch : Z) (status : ChannelCoreStatus) : ChannelCoreDrainResult :=
  MkDrain status epoch (zero_drain_result, zero_drain_result) zero_cleanup.

Definition with_core_state (c : ChannelCore) (s : ChannelCoreState) : ChannelCore :=
  with_phase c (channel_epoch c) (drain_driver_active c) (ports_close_notified c) (request_ledgers_drained c) s.
Definition with_driver (c : ChannelCore) (driver notified : Z) : ChannelCore :=
  with_phase c (channel_epoch c) driver notified (request_ledgers_drained c) (core_state c).

Definition DrainBeginLocked (c : ChannelCore) (expected_epoch : Z) (enforce_expected_epoch : bool)
    : ChannelCore * (ChannelCoreDrainResult + DrainDrive) :=
  if negb (CoreIsCanonical c) then (c, inl (ChannelDrainFailure ChCorruptState))
  else if enforce_expected_epoch && negb (channel_epoch c =? expected_epoch)
  then (c, inl (ChannelDrainFailure ChStaleEpoch))
  else if bool_decide (core_state c = CoreDrained) then (c, inl (drain_answer (channel_epoch c) ChOk))
  else
    let c := if bool_decide (core_state c = CoreOpen) then with_core_state c CoreDraining else c in
    if negb (bool_decide (core_state c = CoreDraining)) then (c, inl (ChannelDrainFailure ChCorruptState))
    else if negb (drain_driver_active c =? 0) then (c, inl (drain_answer (channel_epoch c) ChBusy))
    else
      let finalize := core_operations c =? 0 in
      (with_driver c 1 (ports_close_notified c),
       inr (MkDrive (channel_epoch c) (core_ports c) (if finalize then core_tables c else (0, 0)) finalize)).

(** The closes outside the lock. *)
Definition DrainClose (d : DrainDrive) : kM (Both ObjectTransferStatus) :=
  port_close (dd_ports d).1;;
  port_close (dd_ports d).2;;
  if dd_finalize d
  then s0 <- table_close (dd_tables d).1;; s1 <- table_close (dd_tables d).2;; kret (s0, s1)
  else kret (XferBusy, XferBusy).

(** The detachment at the end of the second section. *)
Definition DrainDetach (c : ChannelCore) (epoch : Z) (requests : Both EndpointRequestDrainResult)
    : ChannelCore * ChannelCoreDrainResult :=
  (with_core_state (with_resources c (0, 0) (0, 0) (kInvalidChargeKey ChannelCharge)) CoreDrained,
   MkDrain ChOk epoch requests (MkCleanup (channel_epoch c) (core_ports c) (core_tables c) (core_charge c))).

Definition DrainEndLocked (c : ChannelCore) (d : DrainDrive) (transfer_status : Both ObjectTransferStatus)
    : ChannelCore * ChannelCoreDrainResult :=
  if negb (CoreIsCanonical c) then (with_driver c 0 (ports_close_notified c), ChannelDrainFailure ChCorruptState)
  else
    let c := with_driver c 0 1 in
    let answer := drain_answer (dd_epoch d) in
    if negb (core_operations c =? 0) || negb (dd_finalize d) then (c, answer ChBusy)
    else if bool_decide (transfer_status.1 = XferBusy) || bool_decide (transfer_status.2 = XferBusy)
    then (c, answer ChBusy)
    else if negb (bool_decide (transfer_status.1 = XferOk)) || negb (bool_decide (transfer_status.2 = XferOk))
    then (c, answer ChTransferCloseFailed)
    else if request_ledgers_drained c =? 0
    then
      let '(forward, l0) := EndpointRequestLedgerDrain (Some (request_ledgers c).1) in
      let '(reverse, l1) := EndpointRequestLedgerDrain (Some (request_ledgers c).2) in
      match drain_status forward, drain_status reverse, l0, l1 with
      | Ok, Ok, Some l0, Some l1 =>
          let c := with_phase (with_ledgers c (l0, l1)) (channel_epoch c) (drain_driver_active c)
                     (ports_close_notified c) 1 (core_state c) in
          DrainDetach c (dd_epoch d) (forward, reverse)
      | _, _, _, _ => (c, answer ChLedgerFailure)
      end
    else DrainDetach c (dd_epoch d) (zero_drain_result, zero_drain_result).

Definition DrainCore (core : option ChannelCore) (expected_epoch : Z) (enforce_expected_epoch : bool)
    : kM (option ChannelCore * ChannelCoreDrainResult) :=
  match ReadyStatus core, core with
  | ChOk, Some c =>
      match DrainBeginLocked c expected_epoch enforce_expected_epoch with
      | (c, inl result) => kret (Some c, result)
      | (c, inr drive) =>
          statuses <- DrainClose drive;;
          let '(c, result) := DrainEndLocked c drive statuses in
          kret (Some c, result)
      end
  | status, _ => kret (core, ChannelDrainFailure status)
  end.

Definition ChannelCoreDrain (core : option ChannelCore) : kM (option ChannelCore * ChannelCoreDrainResult) :=
  DrainCore core kChannelEpochInvalid false.

Definition ChannelCoreDrainExpected (core : option ChannelCore) (expected_epoch : Z)
    : kM (option ChannelCore * ChannelCoreDrainResult) :=
  if expected_epoch =? kChannelEpochInvalid then kret (core, ChannelDrainFailure ChInvalidArgument)
  else DrainCore core expected_epoch true.

(** ** Detached bundles *)

(** The tables' fields are read through their pointers. *)
Definition table_closed (k : Kernel) (table : Z) : option bool :=
  match k_tables k !! table with
  | None => None
  | Some t => Some ((xt_initialized t =? 1) && bool_decide (xt_state t = XferTableClosed))
  end.

Definition DetachedCleanupIsComplete (c : ChannelCoreDetachedCleanup) : kM bool := fun k =>
  if negb (cl_epoch c =? kChannelEpochInvalid) && negb ((cl_ports c).1 =? 0) && negb ((cl_ports c).2 =? 0)
     && negb ((cl_ports c).1 =? (cl_ports c).2) && negb ((cl_tables c).1 =? 0) && negb ((cl_tables c).2 =? 0)
     && negb ((cl_tables c).1 =? (cl_tables c).2)
  then match table_closed k (cl_tables c).1, table_closed k (cl_tables c).2 with
       | Some b0, Some b1 => Some (b0 && b1 && ResourceChannelChargeKeyIsValid (cl_charge c), k)
       | _, _ => None
       end
  else Some (false, k).

Definition DetachedCleanupIsChargeOnly (c : ChannelCoreDetachedCleanup) : bool :=
  negb (cl_epoch c =? kChannelEpochInvalid) && ((cl_ports c).1 =? 0) && ((cl_ports c).2 =? 0)
  && ((cl_tables c).1 =? 0) && ((cl_tables c).2 =? 0) && ResourceChannelChargeKeyIsValid (cl_charge c).

(** The caller's bundle after the call, and the answer. *)
Definition ChannelCoreReleaseDetachedCleanup (cleanup : option ChannelCoreDetachedCleanup)
    : kM (option ChannelCoreDetachedCleanup * ChannelCoreStatus) :=
  match cleanup with
  | None => kret (None, ChInvalidCleanup)
  | Some c =>
      if DetachedCleanupIsChargeOnly c
      then ok <- release_channel (cl_charge c);;
           if negb ok then kret (cleanup, ChResourceReleaseFailed) else kret (Some zero_cleanup, ChOk)
      else
        complete <- DetachedCleanupIsComplete c;;
        if negb complete then kret (cleanup, ChInvalidCleanup)
        else
          FreeTransferTable (cl_tables c).1;;
          FreeTransferTable (cl_tables c).2;;
          port_release (cl_ports c).1;;
          port_release (cl_ports c).2;;
          ok <- release_channel (cl_charge c);;
          if negb ok
          then kret (Some (MkCleanup (cl_epoch c) (0, 0) (0, 0) (cl_charge c)), ChResourceReleaseFailed)
          else kret (Some zero_cleanup, ChOk)
  end.

Definition ChannelCoreInspect (core : option ChannelCore) : ChannelCoreInspectResult :=
  match ReadyStatus core, core with
  | ChOk, Some c =>
      if negb (CoreIsCanonical c) then InspectFailure ChCorruptState
      else
        let l := request_ledgers c in
        MkInspect ChOk
          (MkCoreSnapshot (core_state c) (channel_epoch c) (core_operations c)
             (active_count l.1, active_count l.2) (identity l.1, identity l.2)
             (negb (bool_decide (core_state c = CoreDrained))) (negb (ports_close_notified c =? 0))
             (negb (request_ledgers_drained c =? 0)))
  | status, _ => InspectFailure status
  end.
