(* ===== verification/ChannelResources.v ===== *)
(** * The resources of a channel

    What the kernel memory and services guarantee to whoever holds the
    resources of channels, and that every step of the construction and the
    release of a channel's resource graph keeps it: allocated ports and
    tables are exactly the held ones, each port has one reference, tables
    are well formed, and held charges are live. *)

From S2P Require Import Prelude Bytes MessageAbi VersionedPayload MessageRing.
From S2P Require Import KObject HandleTable HandleTableOps HandleTableSpec HandleTableSeq KMessagePort ObjectTransfer.
From S2P Require Import ObjectStore ObjectTransferSpec ResourceDomain ResourceDomainSpec RequestLedger ChannelCore.

Local Open Scope kernel_scope.

Notation live_channel k key := (live_charge ChannelCharge (k_domains k) key).

(** A table in memory: well formed, and none of its objects is a channel's
    port. *)
Definition table_fine (ps : list Z) (t : ObjectTransferTable) : Prop :=
  (exists fl, xtable_ok fl t) /\ forall s, s ∈ xt_slots t -> xs_object s ∉ ps.

Definition table_is_closed (t : ObjectTransferTable) : Prop := xt_initialized t = 1 /\ xt_state t = XferTableClosed.

(** [ps], [ts] and [cs] are the ports, tables and charges held, [closed] the
    tables known to be closed, [granted] every charge ever taken. *)
Record kernel_ok (ps ts closed : list Z) (cs granted : list ResourceKey) (k : Kernel) : Prop := {
  kk_counts : counts_ok (k_heap k);
  kk_domains : domains_ok (k_domains k);
  kk_ports : forall a, is_Some (k_ports k !! a) <-> a ∈ ps;
  kk_tables : forall a, is_Some (k_tables k !! a) <-> a ∈ ts;
  kk_nodup : NoDup ps /\ NoDup ts /\ NoDup cs;
  kk_null : 0 ∉ ps /\ 0 ∉ ts;
  kk_object : forall a, a ∈ ps -> k_heap k !! a = Some (MkObject TypeMessagePort 1 true);
  kk_table : forall a t, k_tables k !! a = Some t -> table_fine ps t;
  kk_closed : forall a, a ∈ closed -> exists t, k_tables k !! a = Some t /\ table_is_closed t;
  kk_charge : forall key, key ∈ cs -> live_channel k key;
  kk_granted : forall key, key ∈ granted -> live_channel k key -> key ∈ cs;
}.

#[export] Instance kernel_ok_proper :
  Proper ((≡ₚ) ==> (≡ₚ) ==> (≡ₚ) ==> (≡ₚ) ==> (≡ₚ) ==> eq ==> iff) kernel_ok.
Proof.
  assert (forall ps ps' ts ts' cl cl' cs cs' g g' k,
            ps ≡ₚ ps' -> ts ≡ₚ ts' -> cl ≡ₚ cl' -> cs ≡ₚ cs' -> g ≡ₚ g' ->
            kernel_ok ps ts cl cs g k -> kernel_ok ps' ts' cl' cs' g' k) as H.
  { intros ps ps' ts ts' cl cl' cs cs' g g' k Hp Ht Hcl Hcs Hg [H1 H2 H3 H4 H5 H6 H7 H8 H9 H10 H11].
    split; try done.
    - intros a. by rewrite <- Hp.
    - intros a. by rewrite <- Ht.
    - by rewrite <- Hp, <- Ht, <- Hcs.
    - by rewrite <- Hp, <- Ht.
    - intros a. rewrite <- Hp. apply H7.
    - intros a t Ha. destruct (H8 a t Ha) as [Hx Ho]. split; [done|]. intros s. rewrite <- Hp. apply Ho.
    - intros a. rewrite <- Hcl. apply H9.
    - intros key. rewrite <- Hcs. apply H10.
    - intros key. rewrite <- Hg, <- Hcs. apply H11. }
  intros ps ps' Hp ts ts' Ht cl cl' Hcl cs cs' Hcs g g' Hg k k' <-. split; by apply H.
Qed.

(** A block the allocator may return: not null and not in use. *)
Record fresh_block (k : Kernel) (a : Z) : Prop := {
  fb_null : a <> 0;
  fb_port : k_ports k !! a = None;
  fb_table : k_tables k !! a = None;
  fb_object : cnt (k_heap k) a = 0;
  fb_named : forall b t s, k_tables k !! b = Some t -> s ∈ xt_slots t -> xs_object s <> a;
}.

Definition block_list (b : Blocks) : list Z :=
  omap id [(block_ports b).1; (block_ports b).2; (block_tables b).1; (block_tables b).2].

Definition blocks_fresh (k : Kernel) (b : Blocks) : Prop :=
  NoDup (block_list b) /\ Forall (fresh_block k) (block_list b).

(** ** Releases of objects *)

Lemma release_any h obj :
  counts_ok h -> exists h' dead, KObjectRelease h obj = Some (h', dead) /\ counts_ok h'
    /\ forall a, a <> obj -> h' !! a = h !! a.
Proof.
  intros Hc. unfold KObjectRelease. destruct (obj =? 0); [by eexists _, _|].
  destruct (h !! obj) as [o|] eqn:Ho; [|by eexists _, _]. destruct (Hc _ _ Ho) as [Hu Hty].
  destruct (ko_refcount o =? 0) eqn:E0; [by eexists _, _|].
  assert (valid_tag (ko_type o) = true) as -> by (unfold valid_tag; by rewrite bool_decide_eq_false_2).
  assert (counts_ok (<[obj := MkObject (ko_type o) (ko_refcount o - 1) (ko_destroy o)]> h)) as Hc'.
  { apply heap_set_counts; [done | simpl; ulia | done]. }
  destruct (_ && _); eexists _, _; (split; [done|]); split; try done; intros a Ha; by rewrite lookup_insert_ne.
Qed.

Lemma release_all_any objs : forall h,
  counts_ok h -> exists h', release_all h objs = Some h' /\ counts_ok h'
    /\ forall a, a ∉ objs -> h' !! a = h !! a.
Proof.
  induction objs as [|obj objs IH]; intros h Hc; simpl; [by eexists|].
  destruct (release_any h obj Hc) as (h1 & dead & -> & Hc1 & Hsame).
  destruct (IH h1 Hc1) as (h' & -> & Hc' & Hsame'). exists h'. split; [done|]. split; [done|].
  intros a [Hne Hin]%not_elem_of_cons. by rewrite Hsame', Hsame.
Qed.

(** ** Ports *)

Section steps.
Context (ps ts closed : list Z) (cs granted : list ResourceKey).

Lemma port_create_spec k block :
  exists r k', port_create block k = Some (r, k')
  /\ match r with
     | inl _ => k' = k
     | inr a => block = Some a /\ exists p, k' = set_ports k (KObjectInit (k_heap k) a TypeMessagePort true)
                                             (<[a := p]> (k_ports k))
     end.
Proof.
  unfold port_create, KMessagePortCreate. destruct block as [a|]; [|by destruct k; eexists _, _].
  destruct (MessageRingInitialize _ _ _ _) as [st ring].
  destruct st; try (destruct k; by eexists _, _).
  destruct ring as [ring|]; [|destruct k; by eexists _, _].
  eexists _, _. split; [done|]. split; [done|]. by eexists.
Qed.

Lemma port_create_ok k a p :
  kernel_ok ps ts closed cs granted k -> fresh_block k a ->
  kernel_ok (a :: ps) ts closed cs granted
    (set_ports k (KObjectInit (k_heap k) a TypeMessagePort true) (<[a := p]> (k_ports k))).
Proof.
  intros [H1 H2 H3 H4 (H5a & H5b & H5c) [H6a H6b] H7 H8 H9 H10 H11] [F1 F2 F3 F4 F5].
  unfold KObjectInit. replace (a =? 0) with false by lia. rewrite bool_decide_eq_false_2 by done.
  assert (a ∉ ps) as Hn. { intros Hin%H3. rewrite F2 in Hin. by destruct Hin. }
  split; simpl; try done.
  - by apply heap_set_counts.
  - intros b. rewrite lookup_insert_is_Some', elem_of_cons, H3. naive_solver.
  - split_and!; [by constructor | done | done].
  - split; [|done]. intros [?|?]%elem_of_cons; [congruence | done].
  - intros b [->|Hb]%elem_of_cons; [by rewrite lookup_insert_eq|].
    rewrite lookup_insert_ne by (intros ->; done). by apply H7.
  - intros b t Hb. destruct (H8 b t Hb) as [Hx Ho]. split; [done|].
    intros s Hs [E|?]%elem_of_cons; [by eapply F5 | by eapply Ho].
Qed.

Lemma port_close_ok k a :
  kernel_ok ps ts closed cs granted k -> a ∈ ps ->
  exists p, port_close a k = Some (tt, set_ports k (k_heap k) (<[a := p]> (k_ports k)))
    /\ kernel_ok ps ts closed cs granted (set_ports k (k_heap k) (<[a := p]> (k_ports k))).
Proof.
  intros [H1 H2 H3 H4 H5 H6 H7 H8 H9 H10 H11] Ha. unfold port_close.
  assert (a <> 0) as Hne by (intros ->; by destruct H6). replace (a =? 0) with false by lia.
  destruct (proj2 (H3 a) Ha) as [p Hp]. rewrite Hp. eexists. split; [done|]. split; simpl; try done.
  intros b. rewrite lookup_insert_is_Some', H3. naive_solver.
Qed.
End steps.

Lemma port_release_ok ps ts closed cs granted k a :
  kernel_ok (a :: ps) ts closed cs granted k ->
  exists k', port_release a k = Some (tt, k') /\ kernel_ok ps ts closed cs granted k'
    /\ k_tables k' = k_tables k /\ k_domains k' = k_domains k /\ k_next_epoch k' = k_next_epoch k.
Proof.
  intros [H1 H2 H3 H4 (H5a & H5b & H5c) [H6a H6b] H7 H8 H9 H10 H11].
  apply NoDup_cons in H5a as [Hn H5a]. unfold port_release.
  destruct (proj2 (H3 a) (list_elem_of_here _ _)) as [p ->]. unfold release_port, KObjectRelease.
  assert (a <> 0) by (intros ->; apply H6a; left). replace (a =? 0) with false by lia.
  rewrite (H7 a (list_elem_of_here _ _)). simpl. eexists. split; [done|]. rewrite KMessagePortDestroy_delete. split; [|done].
  split; simpl; try done.
  - by apply heap_set_counts.
  - intros b. rewrite lookup_delete_is_Some, H3, elem_of_cons. split.
    + intros [Hne [->|?]]; done.
    + intros Hb. split; [by intros -> | by right].
  - split; [|done]. intros ?. apply H6a. by right.
  - intros b Hb. rewrite lookup_insert_ne by (by intros ->). apply H7. by right.
  - intros b t Hb. destruct (H8 b t Hb) as [Hx Ho]. split; [done|]. intros s Hs Hin. apply (Ho s Hs). by right.
Qed.

(** ** Tables *)

Lemma insert_table_ok ps ts closed cs granted k a t h t' closed' :
  kernel_ok ps ts closed cs granted k -> k_tables k !! a = Some t -> table_fine ps t' ->
  counts_ok h -> (forall b, b ∈ ps -> h !! b = k_heap k !! b) ->
  (forall b, b ∈ closed' -> b = a /\ table_is_closed t' \/ b <> a /\ b ∈ closed) ->
  kernel_ok ps ts closed' cs granted (set_tables k h (<[a := t']> (k_tables k))).
Proof.
  intros [H1 H2 H3 H4 H5 H6 H7 H8 H9 H10 H11] Ht Hf Hh Hsame Hcl. split; simpl; try done.
  - intros b. rewrite lookup_insert_is_Some', H4. split; [|by auto]. intros [<-|?]; [|done]. apply H4. by eexists.
  - intros b Hb. rewrite Hsame by done. by apply H7.
  - intros b tb [[_ <-]|[_ Hb]]%lookup_insert_Some; [done | by eapply H8].
  - intros b [[-> Hc]|[Hne Hb]]%Hcl; [rewrite lookup_insert_eq; by eexists|].
    rewrite lookup_insert_ne by done. by apply H9.
Qed.

Lemma draining_objects t s : s ∈ xt_slots (draining t) -> exists s0, s0 ∈ xt_slots t /\ xs_object s = xs_object s0.
Proof.
  intros (s0 & -> & Hs)%list_elem_of_fmap. exists s0. split; [done | apply close_row_fields].
Qed.

Lemma closed_objects t s :
  s ∈ xt_slots (ObjectTransferSpec.closed t) ->
  xs_object s = 0 \/ exists s0, s0 ∈ xt_slots t /\ xs_object s = xs_object s0.
Proof.
  intros (s1 & -> & Hs1)%list_elem_of_fmap. apply (draining_objects t) in Hs1 as (s0 & Hs0 & E).
  unfold closed_row. destruct (bool_decide _); [by left|]. right. exists s0. by rewrite E.
Qed.

Lemma detached_objects t a :
  a ∈ closing_objects (close_row <$> xt_slots t) -> exists s0, s0 ∈ xt_slots t /\ a = xs_object s0.
Proof.
  intros (s1 & -> & [_ Hs1]%list_elem_of_filter)%list_elem_of_fmap. by apply draining_objects.
Qed.

Lemma table_close_ok ps ts closed cs granted k a :
  kernel_ok ps ts closed cs granted k -> a ∈ ts ->
  exists status k' t, k_tables k !! a = Some t /\ table_close a k = Some (status, k')
    /\ (status = XferOk /\ kernel_ok ps ts (a :: closed) cs granted k'
        \/ status = XferBusy /\ kernel_ok ps ts closed cs granted k')
    /\ (xtable_ok [] t -> status = XferOk)
    /\ k_domains k' = k_domains k /\ k_next_epoch k' = k_next_epoch k
    /\ forall b, b <> a -> k_tables k' !! b = k_tables k !! b.
Proof.
  intros Hk Ha. destruct (proj2 (kk_tables _ _ _ _ _ _ Hk a) Ha) as [t Ht].
  destruct (kk_table _ _ _ _ _ _ Hk a t Ht) as [[fl Hx] Hobj].
  pose proof (proj1 (kk_null _ _ _ _ _ _ Hk)) as H0. pose proof (kk_counts _ _ _ _ _ _ Hk) as Hc.
  unfold table_close, ObjectTransferTableClose. rewrite Ht, (proj1 (xk_init _ _ Hx)). simpl.
  rewrite (close_spec fl t Hx). destruct (decide (xt_state t = XferTableClosed)) as [Hst|Hst].
  { rewrite bool_decide_eq_true_2 by done. simpl. eexists _, _, t. split; [done|]. split; [done|]. split.
    { left. split; [done|]. eapply insert_table_ok; try done; [split; [by exists fl | done]|].
      assert (table_is_closed t) by (split; [apply (xk_init _ _ Hx) | done]).
      intros b Hb. destruct (decide (b = a)); [by left|]. right. by apply elem_of_cons in Hb as [?|?]. }
    do 3 (split; [done|]). intros b Hb. simpl. by rewrite lookup_insert_ne. }
  rewrite bool_decide_eq_false_2 by done. destruct fl as [|f fl].
  - destruct (release_all_any (closing_objects (close_row <$> xt_slots t)) (k_heap k) Hc) as (h' & -> & Hc' & Hsame).
    eexists _, _, t. split; [done|]. split; [done|]. split.
    { left. split; [done|]. eapply insert_table_ok; try done; simpl.
      - split; [eexists; by apply closed_ok|]. intros s [->|(s0 & Hs0 & ->)]%closed_objects; [done | by apply Hobj].
      - intros b Hb. apply Hsame. intros (s0 & Hs0 & ->)%detached_objects. by eapply Hobj.
      - assert (table_is_closed (ObjectTransferSpec.closed t)) by (split; [apply (xk_init _ _ Hx) | done]).
        intros b Hb. destruct (decide (b = a)); [by left|]. right. by apply elem_of_cons in Hb as [?|?]. }
    do 3 (split; [done|]). intros b Hb. simpl. by rewrite lookup_insert_ne.
  - simpl. eexists _, _, t. split; [done|]. split; [done|]. split.
    { right. split; [done|]. eapply insert_table_ok; try done; simpl.
      - split; [eexists; by apply draining_ok|]. intros s (s0 & Hs0 & ->)%draining_objects. by apply Hobj.
      - intros b Hb. right. split; [|done]. intros ->.
        destruct (kk_closed _ _ _ _ _ _ Hk a Hb) as (t2 & Ht2 & _ & ?). congruence. }
    split; [intros Hx'; pose proof (xk_active _ _ Hx); pose proof (xk_active _ _ Hx'); simpl in *; lia|].
    do 2 (split; [done|]). intros b Hb. simpl. by rewrite lookup_insert_ne.
Qed.

Lemma table_free_ok ps ts closed cs granted k a :
  kernel_ok ps (a :: ts) closed cs granted k -> a ∉ closed ->
  exists k', FreeTransferTable a k = Some (tt, k') /\ kernel_ok ps ts closed cs granted k'
    /\ k_domains k' = k_domains k /\ k_next_epoch k' = k_next_epoch k
    /\ forall b, b <> a -> k_tables k' !! b = k_tables k !! b.
Proof.
  intros [H1 H2 H3 H4 (H5a & H5b & H5c) [H6a H6b] H7 H8 H9 H10 H11] Hncl.
  apply NoDup_cons in H5b as [Hn H5b]. unfold FreeTransferTable.
  assert (a <> 0) by (intros ->; apply H6b; left). replace (a =? 0) with false by lia.
  destruct (proj2 (H4 a) (list_elem_of_here _ _)) as [t ->]. eexists. split; [done|]. split.
  - split; simpl; try done.
    + intros b. rewrite lookup_delete_is_Some, H4, elem_of_cons. split.
      * intros [Hne [->|?]]; done.
      * intros Hb. split; [by intros -> | by right].
    + split; [done|]. intros ?. apply H6b. by right.
    + intros b t' [_ Hb]%lookup_delete_Some. by eapply H8.
    + intros b Hb. rewrite lookup_delete_ne by (by intros ->). by apply H9.
  - do 2 (split; [done|]). intros b Hb. simpl. by rewrite lookup_delete_ne.
Qed.

Lemma prepare_table_ok ps ts closed cs granted k block :
  kernel_ok ps ts closed cs granted k -> (forall a, block = Some a -> fresh_block k a) ->
  match block with
  | None => prepare_table block k = Some ((0, Some ChAllocationFailed), k)
  | Some a =>
      let k' := set_tables k (k_heap k) (<[a := initial_xtable 1]> (k_tables k)) in
      prepare_table block k = Some ((a, None), k') /\ kernel_ok ps (a :: ts) closed cs granted k'
  end.
Proof.
  intros Hk Hf. destruct block as [a|]; [|done]. specialize (Hf a eq_refl). destruct Hf as [F1 F2 F3 F4 F5].
  intros k'. split.
  { unfold prepare_table, kbind, kret, AllocateTransferTable, table_initialize.
    replace (a =? 0) with false by lia. simpl k_tables. rewrite lookup_insert_eq.
    change (ObjectTransferTableInitialize (Some zero_xtable) 1) with (XferOk, Some (initial_xtable 1)).
    cbn -[initial_xtable]. rewrite bool_decide_eq_true_2 by done. unfold k', set_tables. cbn -[initial_xtable].
    by rewrite insert_insert_eq. }
  destruct Hk as [H1 H2 H3 H4 (H5a & H5b & H5c) [H6a H6b] H7 H8 H9 H10 H11].
  assert (0 < 1 <= kObjectTransferGenerationMax) as Hg by (split; [lia | by vm_compute]).
  assert (a ∉ ts) as Hn. { intros Hin%H4. rewrite F3 in Hin. by destruct Hin. }
  split; simpl; try done.
  - intros b. rewrite lookup_insert_is_Some', elem_of_cons, H4. naive_solver.
  - split_and!; [done | by constructor | done].
  - split; [done|]. intros [?|?]%elem_of_cons; [congruence | done].
  - intros b t [[_ <-]|[_ Hb]]%lookup_insert_Some; [|by eapply H8].
    split; [eexists; by apply initial_xtable_ok|]. intros s [i Hs]%list_elem_of_lookup.
    apply initial_xtable_row in Hs as ->; done.
  - intros b Hb. destruct (H9 b Hb) as (t & Ht & Hc). exists t. split; [|done].
    rewrite lookup_insert_ne; [done|]. intros ->. congruence.
Qed.

(** ** Charges *)

Lemma charge_ok ps ts closed cs granted k domain bytes :
  kernel_ok ps ts closed cs granted k -> 0 <= bytes ->
  exists ok key k', charge_channel domain bytes k = Some ((ok, key), k')
    /\ k_heap k' = k_heap k /\ k_ports k' = k_ports k /\ k_tables k' = k_tables k
    /\ k_next_epoch k' = k_next_epoch k
    /\ if ok then kernel_ok ps ts closed (key :: cs) (key :: granted) k' else k' = k.
Proof.
  intros Hk Hb. unfold charge_channel, ResourceDomainTryChargeChannel.
  destruct (TryCharge ChannelCharge (k_domains k) domain bytes true) as [[[ok d'] key] pool] eqn:Hc.
  cbn [fst snd]. eexists ok, _, _. split; [done|]. do 4 (split; [done|]). destruct ok.
  - destruct (charge_grants _ _ _ _ _ _ _ (kk_domains _ _ _ _ _ _ Hk) Hb Hc) as (Hd & key' & -> & Hnew & Hlive).
    destruct Hk as [H1 H2 H3 H4 (H5a & H5b & H5c) H6 H7 H8 H9 H10 H11]. split; simpl; try done.
    + split_and!; try done. constructor; [|done]. by intros ?%H10.
    + intros key [->|Hin]%elem_of_cons; apply Hlive; auto.
    + intros key Hin Hl. apply Hlive in Hl as [->|Hl]; [left|]. apply elem_of_cons in Hin as [->|Hin]; [done|].
      right. by apply H11.
  - apply charge_refused in Hc as ->. by destruct k.
Qed.

Lemma uncharge_ok ps ts closed cs granted k key :
  kernel_ok ps ts closed (key :: cs) granted k ->
  ResourceChannelChargeKeyIsValid key = true
  /\ exists k', release_channel key k = Some (true, k') /\ kernel_ok ps ts closed cs granted k'
    /\ ~ live_channel k' key /\ k_next_epoch k' = k_next_epoch k.
Proof.
  intros [H1 H2 H3 H4 (H5a & H5b & H5c) H6 H7 H8 H9 H10 H11]. apply NoDup_cons in H5c as [Hn H5c].
  destruct (release_pays _ _ _ H2 (H10 _ (list_elem_of_here _ _))) as (Hv & d' & Hr & Hd & Hlive).
  split; [done|]. unfold release_channel, ResourceDomainReleaseChannel. rewrite Hr. eexists. split; [done|].
  split; [|split; [intros Hl; simpl in Hl; by apply Hlive in Hl as [_ ?] | done]]. split; simpl; try done.
  - intros key' Hin. apply Hlive. split; [apply H10; by right | by intros ->].
  - intros key' Hin [Hl Hne]%Hlive. specialize (H11 _ Hin Hl). by apply elem_of_cons in H11 as [?|?].
Qed.

(** ** Rollback *)

(** The held addresses of a pointer that may be null. *)
Definition nonnull (a : Z) : list Z := if a =? 0 then [] else [a].
Definition held_ports (r : PreparedResources) : list Z := nonnull (res_ports r).1 ++ nonnull (res_ports r).2.
Definition held_tables (r : PreparedResources) : list Z := nonnull (res_tables r).1 ++ nonnull (res_tables r).2.

Lemma nonnull_some a : a <> 0 -> nonnull a = [a].
Proof. intros H. unfold nonnull. by replace (a =? 0) with false by lia. Qed.

Lemma kernel_ok_closed ps ts closed closed' cs granted k :
  kernel_ok ps ts closed cs granted k -> (forall a, a ∈ closed' -> a ∈ closed) ->
  kernel_ok ps ts closed' cs granted k.
Proof. intros [H1 H2 H3 H4 H5 H6 H7 H8 H9 H10 H11] Hs. split; try done. intros a Ha. by apply H9, Hs. Qed.

Lemma release_one_ok ps ts closed cs granted k p t :
  kernel_ok (nonnull p ++ ps) (nonnull t ++ ts) closed cs granted k -> (forall a, a ∈ closed -> a ∈ ts) ->
  exists k', release_prepared_one p t k = Some (tt, k') /\ kernel_ok ps ts closed cs granted k'
    /\ k_next_epoch k' = k_next_epoch k.
Proof.
  intros Hk Hcl. unfold release_prepared_one.
  assert (exists k1, (if negb (p =? 0) then port_close p;; port_release p else kret tt) k = Some (tt, k1)
            /\ kernel_ok ps (nonnull t ++ ts) closed cs granted k1 /\ k_next_epoch k1 = k_next_epoch k)
    as (k1 & H1 & Hk1 & He1).
  { unfold nonnull in Hk. destruct (p =? 0) eqn:Ep; simpl in *; [by exists k|].
    destruct (port_close_ok _ _ _ _ _ k p Hk (list_elem_of_here _ _)) as (q & Hc & Hk1).
    destruct (port_release_ok _ _ _ _ _ _ _ Hk1) as (k1 & Hr & Hk2 & _ & _ & He).
    exists k1. unfold kbind. by rewrite Hc. }
  unfold kbind at 1. rewrite H1. clear H1. unfold nonnull in Hk1.
  destruct (t =? 0) eqn:Et; simpl in *; [by exists k1|].
  destruct (table_close_ok _ _ _ _ _ k1 t Hk1 (list_elem_of_here _ _)) as (st & k2 & t0 & _ & Hc & Hcase & _ & _ & He2 & _).
  assert (kernel_ok ps (t :: ts) closed cs granted k2) as Hk2.
  { destruct Hcase as [[_ H]|[_ H]]; [|done]. eapply kernel_ok_closed; [exact H|]. intros a Ha. by right. }
  destruct (table_free_ok _ _ _ _ _ _ _ Hk2) as (k3 & Hf & Hk3 & _ & He3 & _).
  { intros Hin%Hcl. pose proof (proj1 (proj2 (kk_nodup _ _ _ _ _ _ Hk2))) as Hnd. by apply NoDup_cons in Hnd as [? _]. }
  exists k3. unfold kbind. rewrite Hc, Hf. split; [done|]. split; [done|]. congruence.
Qed.

Lemma release_prepared_ok ps ts closed cs granted k r :
  kernel_ok (held_ports r ++ ps) (held_tables r ++ ts) closed (res_charge r :: cs) granted k ->
  (forall a, a ∈ closed -> a ∈ ts) ->
  exists k', ReleasePreparedResources r k = Some (tt, k') /\ kernel_ok ps ts closed cs granted k'
    /\ k_next_epoch k' = k_next_epoch k.
Proof.
  unfold held_ports, held_tables. rewrite <- !app_assoc. intros Hk Hcl. unfold ReleasePreparedResources.
  destruct (release_one_ok _ _ _ _ _ _ _ _ Hk) as (k1 & H1 & Hk1 & He1).
  { intros a Ha. apply elem_of_app. by auto. }
  destruct (release_one_ok _ _ _ _ _ _ _ _ Hk1 Hcl) as (k2 & H2 & Hk2 & He2).
  destruct (uncharge_ok _ _ _ _ _ _ _ Hk2) as (Hv & k3 & H3 & Hk3 & _ & He3).
  exists k3. unfold kbind, kret. rewrite H1, H2, Hv, H3. split; [done|]. split; [done|]. congruence.
Qed.

(** ** Preparation *)

Definition ports_of (r : PreparedResources) : list Z := [(res_ports r).1; (res_ports r).2].
Definition tables_of (r : PreparedResources) : list Z := [(res_tables r).1; (res_tables r).2].

Lemma fresh_mono k k' b :
  fresh_block k b -> k_ports k' !! b = k_ports k !! b -> k_tables k' !! b = k_tables k !! b ->
  cnt (k_heap k') b = cnt (k_heap k) b ->
  (forall c t, k_tables k' !! c = Some t -> k_tables k !! c = Some t \/ forall s, s ∈ xt_slots t -> xs_object s = 0) ->
  fresh_block k' b.
Proof.
  intros [F1 F2 F3 F4 F5] E1 E2 E3 Ht. split; try congruence.
  intros c t s Hc Hs. destruct (Ht c t Hc) as [H|H]; [by eapply F5|]. rewrite (H s Hs). congruence.
Qed.

Lemma fresh_after_port k a p b :
  fresh_block k b -> b <> a ->
  fresh_block (set_ports k (KObjectInit (k_heap k) a TypeMessagePort true) (<[a := p]> (k_ports k))) b.
Proof.
  intros Hf Hne. apply (fresh_mono k); simpl; try done; [by rewrite lookup_insert_ne| |by left].
  unfold KObjectInit, cnt. destruct (a =? 0); [done|]. rewrite bool_decide_eq_false_2 by done.
  by rewrite lookup_insert_ne.
Qed.

Lemma fresh_after_table k a b :
  fresh_block k b -> b <> a -> fresh_block (set_tables k (k_heap k) (<[a := initial_xtable 1]> (k_tables k))) b.
Proof.
  intros Hf Hne. apply (fresh_mono k); try done; [cbn -[initial_xtable]; by rewrite lookup_insert_ne|].
  intros c t Hc. cbn -[initial_xtable] in Hc. apply lookup_insert_Some in Hc as [[_ <-]|[_ Hc]]; [|by left].
  right. intros s [i Hs]%list_elem_of_lookup.
  apply initial_xtable_row in Hs as ->; [done|]. split; [lia | by vm_compute].
Qed.

(** The charge a preparation takes, if it takes one. *)
Definition grants (domain : ResourceKey) (k : Kernel) : list ResourceKey :=
  match charge_channel domain kChannelCoreQueuedBufferBytes k with
  | Some ((true, key), _) => [key]
  | _ => []
  end.

Section prepare.
Context (ps ts closed : list Z) (cs : list ResourceKey) (Hcl : forall a, a ∈ closed -> a ∈ ts).

Lemma fail_prepare_ok granted k r status :
  kernel_ok (held_ports r ++ ps) (held_tables r ++ ts) closed (res_charge r :: cs) granted k ->
  exists k', fail_prepare r status k = Some ((status, zero_prepared), k')
    /\ kernel_ok ps ts closed cs granted k' /\ k_next_epoch k' = k_next_epoch k.
Proof.
  intros Hk. destruct (release_prepared_ok _ _ _ _ _ _ _ Hk Hcl) as (k' & Hr & Hk' & He).
  exists k'. unfold fail_prepare, kbind, kret. by rewrite Hr.
Qed.

Lemma prepare_tables_ok granted k p0 p1 key tb0 tb1 :
  kernel_ok (p0 :: p1 :: ps) ts closed (key :: cs) granted k ->
  (forall a, a ∈ omap id [tb0; tb1] -> fresh_block k a) -> NoDup (omap id [tb0; tb1]) ->
  exists st r k', prepare_tables (p0, p1) key (tb0, tb1) k = Some ((st, r), k') /\ k_next_epoch k' = k_next_epoch k
    /\ (st = ChOk /\ res_ports r = (p0, p1) /\ res_charge r = key /\ Forall (fun a => a <> 0) (tables_of r)
         /\ kernel_ok (p0 :: p1 :: ps) (tables_of r ++ ts) closed (key :: cs) granted k'
        \/ st = ChAllocationFailed /\ kernel_ok ps ts closed cs granted k').
Proof.
  intros Hk Hfr Hnd. unfold prepare_tables. cbn [fst snd].
  assert (p0 <> 0 /\ p1 <> 0) as [Hp0 Hp1].
  { pose proof (proj1 (kk_null _ _ _ _ _ _ Hk)) as H0. rewrite !not_elem_of_cons in H0. naive_solver. }
  pose proof (prepare_table_ok _ _ _ _ _ _ tb0 Hk) as H1. unfold kbind at 1. destruct tb0 as [t0|].
  2: { rewrite H1 by done. destruct (fail_prepare_ok granted k (MkPrepared (p0, p1) (0, 0) key) ChAllocationFailed)
         as (k' & Hf & Hk' & He).
       - unfold held_ports. simpl. by rewrite !nonnull_some.
       - rewrite Hf. eexists _, _, _. split; [done|]. split; [done|]. right. by split. }
  destruct H1 as [H1 Hk1]; [intros a [= <-]; apply Hfr; left|]. rewrite H1. clear H1.
  set (k1 := set_tables _ _ _) in *. assert (fresh_block k t0) as [Ht0 _ _ _ _] by (apply Hfr; left).
  pose proof (prepare_table_ok _ _ _ _ _ _ tb1 Hk1) as H2. unfold kbind at 1. destruct tb1 as [t1|].
  2: { rewrite H2 by done. destruct (fail_prepare_ok granted k1 (MkPrepared (p0, p1) (t0, 0) key) ChAllocationFailed)
         as (k' & Hf & Hk' & He).
       - unfold held_ports, held_tables. simpl. by rewrite (nonnull_some p0), (nonnull_some p1), (nonnull_some t0).
       - rewrite Hf. eexists _, _, _. split; [done|]. split; [done|]. right. by split. }
  apply NoDup_cons in Hnd as [Hne _].
  assert (fresh_block k t1) as Hf1 by (apply Hfr; right; left). destruct H2 as [H2 Hk2].
  { intros a [= <-]. apply fresh_after_table; [done|]. intros ->. apply Hne. left. }
  rewrite H2. eexists _, _, _. split; [done|]. split; [done|]. left. do 3 (split; [done|]). simpl.
  pose proof (fb_null _ _ Hf1). split; [by repeat constructor|].
  rewrite (Permutation_swap t1 t0). exact Hk2.
Qed.

Lemma prepare_ok granted k domain b :
  kernel_ok ps ts closed cs granted k -> blocks_fresh k b ->
  exists st r k', PrepareResources domain b k = Some ((st, r), k') /\ k_next_epoch k' = k_next_epoch k
    /\ (st = ChOk /\ grants domain k = [res_charge r] /\ Forall (fun a => a <> 0) (ports_of r ++ tables_of r)
         /\ kernel_ok (ports_of r ++ ps) (tables_of r ++ ts) closed (res_charge r :: cs)
              (grants domain k ++ granted) k'
        \/ (st = ChResourceChargeFailed \/ st = ChAllocationFailed)
           /\ kernel_ok ps ts closed cs (grants domain k ++ granted) k').
Proof.
  intros Hk [Hnd Hfr]. unfold PrepareResources, grants.
  assert (0 <= kChannelCoreQueuedBufferBytes) as Hbytes by by vm_compute.
  destruct (charge_ok _ _ _ _ _ _ domain _ Hk Hbytes) as (ok & key & k0 & Hc & Eh & Ep & Et & He0 & Hk0).
  unfold kbind at 1. rewrite Hc. destruct ok; cbn [negb fst snd app];
    [|subst; eexists _, _, _; split; [done|]; split; [done|]; right; by split; [left|]].
  assert (forall a, a ∈ block_list b -> fresh_block k0 a) as Hfr0.
  { rewrite Forall_forall in Hfr. intros a Ha. apply (fresh_mono k); rewrite ?Eh, ?Ep, ?Et; auto. }
  destruct b as [[pb0 pb1] [tb0 tb1]]. unfold block_list in *. cbn [block_ports block_tables fst snd] in *.
  rewrite <- He0. clear Hk Hc Eh Ep Et Hbytes Hfr He0.
  destruct (port_create_spec k0 pb0) as (r0 & k1 & H1 & Hr0). unfold kbind at 1. rewrite H1. clear H1.
  destruct r0 as [e|p0].
  { subst k1. destruct (fail_prepare_ok _ k0 (MkPrepared (0, 0) (0, 0) key) ChAllocationFailed Hk0)
      as (k' & -> & Hk' & He). eexists _, _, _. split; [done|]. split; [done|]. right. by split; [right|]. }
  destruct Hr0 as (-> & q0 & ->). assert (fresh_block k0 p0) as Hf0 by (apply Hfr0; left).
  pose proof (port_create_ok _ _ _ _ _ _ _ q0 Hk0 Hf0) as Hk1. set (k1 := set_ports _ _ _) in *.
  apply NoDup_cons in Hnd as [Hn0 Hnd].
  assert (forall a, a ∈ omap id [pb1; tb0; tb1] -> fresh_block k1 a) as Hfr1.
  { intros a Ha. apply fresh_after_port; [apply Hfr0; by right | by intros ->]. }
  destruct (port_create_spec k1 pb1) as (r1 & k2 & H2 & Hr1). unfold kbind at 1. rewrite H2. clear H2.
  pose proof (fb_null _ _ Hf0) as Hp0. destruct r1 as [e|p1].
  { subst k2. destruct (fail_prepare_ok (key :: granted) k1 (MkPrepared (p0, 0) (0, 0) key) ChAllocationFailed)
      as (k' & -> & Hk' & He); [unfold held_ports; simpl; by rewrite (nonnull_some p0)|].
    eexists _, _, _. split; [done|]. split; [done|]. right. by split; [right|]. }
  destruct Hr1 as (-> & q1 & ->). assert (fresh_block k1 p1) as Hf1 by (apply Hfr1; left).
  pose proof (port_create_ok _ _ _ _ _ _ _ q1 Hk1 Hf1) as Hk2. set (k2 := set_ports k1 _ _) in *.
  apply NoDup_cons in Hnd as [Hn1 Hnd]. rewrite (Permutation_swap p0 p1) in Hk2.
  destruct (prepare_tables_ok _ k2 p0 p1 key tb0 tb1 Hk2) as (st & r & k' & -> & He & Hcase); [|done|].
  { intros a Ha. apply fresh_after_port; [apply Hfr1; by right | by intros ->]. }
  eexists _, _, _. split; [done|]. split; [done|].
  destruct Hcase as [(-> & Ep & <- & Hnz & Hk')|[-> Hk']]; [left | right; by split; [right|]].
  split; [done|]. split; [done|]. unfold ports_of in *. rewrite Ep. split; [|done].
  pose proof (fb_null _ _ Hf1). by constructor; [|constructor].
Qed.
End prepare.

(** ** The release of a detached bundle *)

Definition bundle_of (c : ChannelCoreDetachedCleanup) : PreparedResources :=
  MkPrepared (cl_ports c) (cl_tables c) (cl_charge c).

Lemma table_closed_true k a t :
  k_tables k !! a = Some t -> table_is_closed t -> table_closed k a = Some true.
Proof. intros Ht [Hi Hs]. unfold table_closed. by rewrite Ht, Hi, Hs. Qed.

Lemma cleanup_ok ps ts closed cs granted k c :
  let r := bundle_of c in
  kernel_ok (ports_of r ++ ps) (tables_of r ++ ts) (tables_of r ++ closed) (res_charge r :: cs) granted k ->
  (forall a, a ∈ closed -> a ∈ ts) -> cl_epoch c <> 0 ->
  exists k', ChannelCoreReleaseDetachedCleanup (Some c) k = Some ((Some zero_cleanup, ChOk), k')
    /\ kernel_ok ps ts closed cs granted k' /\ ~ live_channel k' (cl_charge c) /\ k_next_epoch k' = k_next_epoch k.
Proof.
  destruct c as [epoch [p0 p1] [t0 t1] key]. unfold bundle_of, ports_of, tables_of. simpl. intros Hk Hcl He.
  pose proof (kk_nodup _ _ _ _ _ _ Hk) as (Hnp & Hnt & _). pose proof (kk_null _ _ _ _ _ _ Hk) as [H0p H0t].
  rewrite !not_elem_of_cons in H0p, H0t. rewrite !NoDup_cons, !not_elem_of_cons in Hnp, Hnt.
  destruct H0p as (Hp0 & Hp1 & _), H0t as (Ht0 & Ht1 & _), Hnp as ([Hpp _] & _), Hnt as ([Htt Hn0] & Hn1 & _).
  destruct (kk_closed _ _ _ _ _ _ Hk t0) as (x0 & Hx0 & Hc0); [left|].
  destruct (kk_closed _ _ _ _ _ _ Hk t1) as (x1 & Hx1 & Hc1); [right; left|].
  assert (kernel_ok (p0 :: p1 :: ps) (t0 :: t1 :: ts) closed (key :: cs) granted k) as Hk0.
  { eapply kernel_ok_closed; [exact Hk|]. intros a Ha. do 2 right. done. }
  destruct (table_free_ok _ _ _ _ _ _ _ Hk0) as (k1 & H1 & Hk1 & _ & He1 & _); [by intros ?%Hcl|].
  destruct (table_free_ok _ _ _ _ _ _ _ Hk1) as (k2 & H2 & Hk2 & _ & He2 & _); [by intros ?%Hcl|].
  destruct (port_release_ok _ _ _ _ _ _ _ Hk2) as (k3 & H3 & Hk3 & _ & _ & He3).
  destruct (port_release_ok _ _ _ _ _ _ _ Hk3) as (k4 & H4 & Hk4 & _ & _ & He4).
  destruct (uncharge_ok _ _ _ _ _ _ _ Hk4) as (Hv & k5 & H5 & Hk5 & Hpaid & He5).
  exists k5. split; [|split; [done|]; split; [done | congruence]].
  unfold ChannelCoreReleaseDetachedCleanup, DetachedCleanupIsChargeOnly. simpl.
  replace (p0 =? 0) with false by lia. rewrite andb_false_r. simpl.
  unfold kbind at 1, DetachedCleanupIsComplete. simpl. unfold kChannelEpochInvalid.
  replace (epoch =? 0) with false by lia. replace (p0 =? 0) with false by lia. replace (p1 =? 0) with false by lia.
  replace (p0 =? p1) with false by lia. replace (t0 =? 0) with false by lia. replace (t1 =? 0) with false by lia.
  replace (t0 =? t1) with false by lia. simpl.
  rewrite (table_closed_true _ _ _ Hx0 Hc0), (table_closed_true _ _ _ Hx1 Hc1), Hv. simpl.
  unfold kbind, kret. by rewrite H1, H2, H3, H4, H5.
Qed.
