(* ===== verification/ChannelCoreInv.v ===== *)
(** * The channel core: invariant of one core

    What holds of a published core between critical sections, that it
    implies the source's own canonicality check, and what each section does
    to a core in such a state. *)

From S2P Require Import Prelude ResourceDomain KMessagePort ObjectTransfer RequestLedger RequestLedgerSpec.
From S2P Require Import ChannelCore.

(** ** Two arrays *)

Lemma nth_set_same {A} (b : Both A) i x : nth_both (set_both b i x) i = x.
Proof. by destruct i. Qed.
Lemma nth_set_other {A} (b : Both A) i j x : j <> i -> nth_both (set_both b i x) j = nth_both b j.
Proof. by destruct i, j. Qed.

(** ** Ledgers *)

Definition direction_of (index : bool) : EndpointRequestDirection :=
  ChannelCoreLedgerDirection (if index then ChannelReverse else ChannelForward).

Definition accepting (l : EndpointRequestLedger) : Prop := state l = LedgerOpen \/ state l = LedgerSequenceRetired.

(** The ledger of one direction of a channel at [epoch]. *)
Record ledger_fine (epoch : Z) (drained : bool) (index : bool) (l : EndpointRequestLedger) : Prop := {
  lf_ok : ledger_ok l;
  lf_identity : identity l = MkIdentity epoch (direction_of index);
  lf_state : if drained then state l = LedgerDraining else accepting l;
}.

Lemma identity_valid epoch index :
  epoch <> 0 -> EndpointRequestLedgerIdentityIsValid (MkIdentity epoch (direction_of index)) = true.
Proof.
  intros He. unfold EndpointRequestLedgerIdentityIsValid, kEndpointRequestEpochInvalid. simpl.
  replace (epoch =? 0) with false by lia. by destruct index.
Qed.

(** Requests leave a ledger accepting under the same identity. *)
Definition is_request (o : lop) : bool :=
  match o with LReserve _ | LCommit _ | LCancel _ | LComplete _ => true | _ => false end.

Lemma abs_accepting l : accepting l <-> match a_phase (abs l) with AOpen _ | ARetired => True | _ => False end.
Proof. unfold accepting, abs. simpl. destruct (state l); naive_solver. Qed.

Lemma request_fine epoch index l o r l' :
  ledger_fine epoch false index l -> is_request o = true -> exec_lop l o = (r, l') ->
  ledger_fine epoch false index l'.
Proof.
  intros [Hok Hid Hst] Ho He.
  destruct (exec_refines l o r l' Hok ltac:(by destruct o) He) as (Hok' & Ha & _). apply a_exec_inv in Ha.
  assert (a_identity (abs l') = a_identity (abs l) /\ accepting l') as [Hid' Hst'].
  { rewrite abs_accepting in *.
    destruct Ha as [| ? ? ? [[-> ?]|(-> & ? & ?)] | ? ? ? [-> | ->] | | | |]; done. }
  split; [done | by rewrite <- Hid | done].
Qed.

Lemma drain_fine epoch index l r l' :
  ledger_fine epoch false index l -> exec_lop l LDrain = (r, l') ->
  res_status r = Ok /\ res_detached r = live_keys (slots l) /\ ledger_fine epoch true index l'.
Proof.
  intros [Hok Hid Hst] He. destruct (drain_refines l r l' Hok He) as [(Hok' & Ha & _) Hd].
  simpl in Ha. unfold a_drain in Ha. apply abs_accepting in Hst.
  assert (res_status r = Ok /\ abs l' = MkA (a_identity (abs l)) ADraining ∅) as [Hs Ha'].
  { destruct (a_phase (abs l)); try done;
      by split; [apply (f_equal fst) in Ha | apply (f_equal snd) in Ha]. }
  split; [done|]. split; [by apply Hd|]. split; [done | |].
  - rewrite <- Hid. change (a_identity (abs l') = a_identity (abs l)). by rewrite Ha'.
  - assert (a_phase (abs l') = ADraining) as Hp by by rewrite Ha'. unfold abs in Hp. simpl in Hp.
    by destruct (state l').
Qed.

Lemma drain_some l r ol : EndpointRequestLedgerDrain (Some l) = (r, ol) -> exists l', ol = Some l'.
Proof.
  unfold EndpointRequestLedgerDrain. intros H. repeat case_match; simplify_eq; by eexists.
Qed.

Lemma initialize_some l id first s ol :
  EndpointRequestLedgerInitialize (Some l) id first = (s, ol) -> exists l', ol = Some l'.
Proof.
  unfold EndpointRequestLedgerInitialize. intros H. repeat case_match; simplify_eq; by eexists.
Qed.

Lemma reset_some l id first s ol :
  EndpointRequestLedgerReset (Some l) id first = (s, ol) -> exists l', ol = Some l'.
Proof.
  unfold EndpointRequestLedgerReset. intros H. repeat case_match; simplify_eq; by eexists.
Qed.

Lemma reset_fine epoch next index l r l' :
  ledger_fine epoch true index l -> 0 < epoch < next -> next <= u64_max ->
  exec_lop l (LReset (MkIdentity next (direction_of index)) 1) = (r, l') ->
  res_status r = Ok /\ ledger_fine next false index l'.
Proof.
  intros [Hok Hid Hst] He Hn Hx. assert (is_u64 1) as H1 by ulia.
  destruct (reset_refines l _ _ _ _ Hok H1 Hx) as (Hok' & _ & _). cbn [exec_lop] in Hx.
  unfold EndpointRequestLedgerReset in Hx. rewrite (ok_canonical l Hok) in Hx. unfold state_is in Hx.
  rewrite Hst, Hid, identity_valid in Hx by lia. cbn in Hx. unfold kEndpointRequestEpochMaximum in Hx.
  rewrite (bool_decide_eq_true_2 (direction_of index = direction_of index)) in Hx by done. simpl in Hx.
  replace (epoch =? u64_max) with false in Hx by lia. replace (next <=? epoch) with false in Hx by lia.
  injection Hx as <- <-. split; [done|]. split; [done | done | by left].
Qed.

Lemma initialize_fine epoch index r l' :
  0 < epoch -> exec_lop zero_ledger (LInitialize (MkIdentity epoch (direction_of index)) 1) = (r, l') ->
  res_status r = Ok /\ ledger_fine epoch false index l'.
Proof.
  intros He Hx. assert (is_u64 1) as H1 by ulia.
  destruct (initialize_refines _ _ _ _ _ zero_ledger_ok H1 Hx) as (Hok' & _ & _). cbn [exec_lop] in Hx.
  unfold EndpointRequestLedgerInitialize in Hx. rewrite (ok_canonical _ zero_ledger_ok) in Hx.
  rewrite identity_valid in Hx by lia. cbn -[zero_ledger] in Hx.
  injection Hx as <- <-. split; [done|]. split; [done | done | by left].
Qed.

(** ** The invariant *)

Definition slot_fine (s : ChannelCoreOperationSlot) : Prop :=
  0 <= op_generation s <= kChannelCoreOperationGenerationMaximum /\
  match op_state s with
  | OpFree => op_generation s < kChannelCoreOperationGenerationMaximum /\ op_binding s = 0
  | OpLive => 0 < op_generation s /\ op_binding s <> 0
  | OpRetired => op_generation s = kChannelCoreOperationGenerationMaximum /\ op_binding s = 0
  end.

Definition phase_fine (c : ChannelCore) : Prop :=
  match core_state c with
  | CoreOpen =>
      drain_driver_active c = 0 /\ ports_close_notified c = 0 /\ request_ledgers_drained c = 0
      /\ AttachedResourcesAreCanonical c = true
  | CoreDraining =>
      0 <= drain_driver_active c <= 1 /\ 0 <= ports_close_notified c <= 1 /\ request_ledgers_drained c = 0
      /\ AttachedResourcesAreCanonical c = true
  | CoreDrained =>
      core_operations c = 0 /\ drain_driver_active c = 0 /\ ports_close_notified c = 1
      /\ request_ledgers_drained c = 1 /\ core_ports c = (0, 0) /\ core_tables c = (0, 0)
      /\ core_charge c = kInvalidChargeKey ChannelCharge
  | CoreUninitialized => False
  end.

Definition is_drained (c : ChannelCore) : bool := bool_decide (core_state c = CoreDrained).

Record ready_ok (c : ChannelCore) : Prop := {
  rk_init : core_initialized c = kChannelCoreInitializeReady;
  rk_epoch : 0 < channel_epoch c <= kChannelEpochMaximum;
  rk_hint : 0 <= operation_hint c < kChannelCoreOperationCapacity;
  rk_length : length (operation_slots c) = 32%nat;
  rk_slots : Forall slot_fine (operation_slots c);
  rk_count : core_operations c = sumZ op_live (operation_slots c);
  rk_ledgers : forall index, ledger_fine (channel_epoch c) (is_drained c) index (nth_both (request_ledgers c) index);
  rk_phase : phase_fine c;
}.

Lemma slot_fine_canonical s : slot_fine s -> op_slot_canonical s = true.
Proof.
  unfold slot_fine, op_slot_canonical, ChannelCoreOperationBindingIsValid, kInvalidChannelCoreOperationBinding.
  intros [Hg Hs]. destruct (op_state s); lia.
Qed.

Lemma ledger_fine_matches c drained d index :
  ledger_fine (channel_epoch c) drained index (nth_both (request_ledgers c) index) ->
  ChannelCoreDirectionIndex d = index -> ChannelCoreLedgerDirection d = direction_of index ->
  ledger_matches c (if drained then LedgerDraining else LedgerOpen) d = true.
Proof.
  intros [Hok Hid Hst] Hi Hd. unfold ledger_matches. rewrite Hi, (ok_canonical _ Hok), Hid. simpl.
  rewrite Z.eqb_refl, bool_decide_eq_true_2 by done. simpl.
  destruct drained; simpl; [by apply bool_decide_eq_true|]. apply orb_true_iff. by rewrite !bool_decide_eq_true.
Qed.

Lemma ready_ledgers c drained :
  (forall index, ledger_fine (channel_epoch c) drained index (nth_both (request_ledgers c) index)) ->
  RequestLedgersMatch c (if drained then LedgerDraining else LedgerOpen) = true.
Proof.
  intros H. unfold RequestLedgersMatch.
  by rewrite (ledger_fine_matches c drained ChannelForward false), (ledger_fine_matches c drained ChannelReverse true).
Qed.

Lemma ready_canonical c : ready_ok c -> CoreIsCanonical c = true.
Proof.
  intros [H1 H2 H3 H4 H5 H6 H7 H8]. unfold CoreIsCanonical.
  assert (OperationSlotsAreCanonical c = true) as ->.
  { unfold OperationSlotsAreCanonical. rewrite <- H6, Z.eqb_refl, andb_true_r. apply forallb_forall.
    intros s Hs%list_elem_of_In. apply slot_fine_canonical. by eapply Forall_forall in H5. }
  apply ready_ledgers in H7. rewrite H1. unfold phase_fine, is_drained in *. unfold kChannelEpochInvalid.
  replace (channel_epoch c =? 0) with false by lia.
  replace (kChannelCoreOperationCapacity <=? operation_hint c) with false by lia.
  destruct (core_state c); simpl in *; try done.
  - destruct H8 as (-> & -> & -> & ->). by rewrite H7.
  - destruct H8 as (Hd & Hn & -> & ->). rewrite H7.
    replace (1 <? drain_driver_active c) with false by lia. by replace (1 <? ports_close_notified c) with false by lia.
  - destruct H8 as (-> & -> & -> & -> & Hp & Ht & Hc). unfold DetachedResourcesAreCanonical.
    rewrite H7, Hp, Ht, Hc. done.
Qed.

Lemma ready_status c : ready_ok c -> ReadyStatus (Some c) = ChOk.
Proof. intros H. simpl. by rewrite (rk_init _ H). Qed.

(** Statuses that mean that the core was found in a state it must not be in. *)
Definition never (s : ChannelCoreStatus) : bool :=
  match s with
  | ChCorruptState | ChLedgerFailure | ChTransferCloseFailed | ChInvalidCleanup | ChResourceReleaseFailed => true
  | _ => false
  end.

(** ** Pins *)

(** The slot a pin names, live and with its generation and binding. *)
Definition pin_live (c : ChannelCore) (p : ChannelCoreOperationPin) : Prop :=
  0 <= pin_slot p < 32 /\ pin_epoch p = channel_epoch c
  /\ operation_slots c !! Z.to_nat (pin_slot p) = Some (MkOpSlot (pin_generation p) OpLive (pin_binding p)).

(** The scan finds a free slot of its own, or reports whether one is live. *)
Lemma acquire_scan_spec c : ready_ok c -> forall remaining offset seen,
  0 <= offset ->
  match acquire_scan remaining offset c seen with
  | inl _ => True
  | inr (index, slot) =>
      0 <= index < 32 /\ operation_slots c !! Z.to_nat index = Some slot /\ op_state slot = OpFree
      /\ op_generation slot < kChannelCoreOperationGenerationMaximum
  end.
Proof.
  intros Hc. induction remaining as [|remaining IH]; intros offset seen Ho; [done|]. cbn [acquire_scan].
  change kChannelCoreOperationCapacity with 32.
  pose proof (Z.mod_pos_bound (operation_hint c + offset) 32 ltac:(lia)) as Hi.
  destruct (operation_slots c !! _) as [slot|] eqn:Hs; [|done].
  destruct (bool_decide (op_state slot = OpLive)); [apply IH; lia|].
  destruct (negb (bool_decide (op_state slot = OpFree))) eqn:Hf; simpl; [apply IH; lia|].
  destruct (op_generation slot =? kChannelCoreOperationGenerationMaximum) eqn:Hg; [apply IH; lia|].
  apply negb_false_iff, bool_decide_eq_true in Hf.
  pose proof (Forall_lookup_1 _ _ _ _ (rk_slots _ Hc) Hs) as [Hr _].
  split_and!; try done; lia.
Qed.

Lemma sum_op_live_nonneg l : 0 <= sumZ op_live l <= Z.of_nat (length l).
Proof.
  induction l as [|s l IH]; simpl; [lia|].
  assert (0 <= op_live s <= 1) by (unfold op_live; destruct (bool_decide _); lia). lia.
Qed.

Lemma operations_range c : ready_ok c -> 0 <= core_operations c <= 32.
Proof.
  intros Hc. rewrite (rk_count _ Hc). pose proof (sum_op_live_nonneg (operation_slots c)) as H.
  rewrite (rk_length _ Hc) in H. lia.
Qed.

(** Changing the operation slots of a core that is not drained. *)
Lemma with_operations_ok c i s s' active hint :
  ready_ok c -> core_state c <> CoreDrained -> operation_slots c !! i = Some s -> slot_fine s' ->
  active = core_operations c - op_live s + op_live s' -> 0 <= hint < 32 ->
  ready_ok (with_operations c (<[i := s']> (operation_slots c)) active hint).
Proof.
  intros [H1 H2 H3 H4 H5 H6 H7 H8] Hnd Hs Hs' -> Hh. split; simpl; try done.
  - by rewrite length_insert.
  - by apply Forall_insert.
  - by rewrite (sumZ_insert _ _ _ _ _ Hs), H6.
  - unfold phase_fine in *. simpl. by destruct (core_state c).
Qed.

Lemma acquire_spec c e b :
  ready_ok c ->
  match ChannelCoreAcquireOperation (Some c) e b with
  | (core', MkPinResult st p) =>
      core' = Some c /\ st <> ChOk /\ never st = false
      \/ st = ChOk /\ core_state c = CoreOpen /\ pin_epoch p = channel_epoch c /\ 0 <= pin_slot p < 32
         /\ exists s hint, operation_slots c !! Z.to_nat (pin_slot p) = Some s /\ op_state s = OpFree
            /\ pin_generation p = op_generation s + 1
            /\ core' = Some (with_operations c
                 (<[Z.to_nat (pin_slot p) := MkOpSlot (pin_generation p) OpLive (pin_binding p)]> (operation_slots c))
                 (core_operations c + 1) hint)
            /\ ready_ok (with_operations c
                 (<[Z.to_nat (pin_slot p) := MkOpSlot (pin_generation p) OpLive (pin_binding p)]> (operation_slots c))
                 (core_operations c + 1) hint)
  end.
Proof.
  intros Hc. unfold ChannelCoreAcquireOperation. rewrite (ready_status _ Hc), (ready_canonical _ Hc). cbn [negb].
  destruct ((e =? kChannelEpochInvalid) || negb (ChannelCoreOperationBindingIsValid b)) eqn:E1; [by left|].
  destruct (e =? channel_epoch c) eqn:E2; cbn [negb]; [|by left].
  destruct (core_state c) eqn:Hst; [pose proof (rk_phase _ Hc) as Hp; unfold phase_fine in Hp; by rewrite Hst in Hp| |by left|by left].
  pose proof (operations_range c Hc) as Hops. replace (core_operations c =? u32_max) with false by ulia.
  pose proof (acquire_scan_spec c Hc (Z.to_nat kChannelCoreOperationCapacity) 0 false ltac:(lia)) as Hscan.
  destruct (acquire_scan _ _ _ _) as [seen|[index s]]; [left; by destruct seen|].
  destruct Hscan as (Hi & Hs & Hf & Hg). right. cbn [pin_epoch pin_slot pin_generation pin_binding].
  do 4 (split; [done|]). eexists s, _. do 4 (split; [done|]).
  apply (with_operations_ok _ _ s); try done; [by rewrite Hst | | |].
  - pose proof (Forall_lookup_1 _ _ _ _ (rk_slots _ Hc) Hs) as [Hr _]. unfold slot_fine. simpl.
    apply orb_false_iff in E1 as [_ E1]. unfold ChannelCoreOperationBindingIsValid, kInvalidChannelCoreOperationBinding in E1.
    split; lia.
  - unfold op_live. rewrite Hf. simpl. lia.
  - change kChannelCoreOperationCapacity with 32. apply Z.mod_pos_bound. lia.
Qed.

Lemma live_not_drained c i s : ready_ok c -> operation_slots c !! i = Some s -> op_state s = OpLive ->
  core_state c <> CoreDrained /\ 0 < core_operations c.
Proof.
  intros Hc Hs Hl. assert (0 < core_operations c) as Hpos.
  { rewrite (rk_count _ Hc). apply list_elem_of_lookup_2 in Hs.
    pose proof (sumZ_member op_live _ s (fun x _ => ltac:(unfold op_live; destruct (bool_decide _); lia)) Hs) as H.
    unfold op_live at 1 in H. rewrite Hl in H. simpl in H. lia. }
  split; [|done]. intros Hd. pose proof (rk_phase _ Hc) as Hp. unfold phase_fine in Hp. rewrite Hd in Hp. lia.
Qed.

(** A slot that matches a pin. *)
Lemma slot_matches s (p : ChannelCoreOperationPin) :
  negb (bool_decide (op_state s = OpLive)) || negb (op_generation s =? pin_generation p)
    || negb (op_binding s =? pin_binding p) = false <->
  s = MkOpSlot (pin_generation p) OpLive (pin_binding p).
Proof.
  destruct s as [g st b]. simpl. rewrite !orb_false_iff, !negb_false_iff, bool_decide_eq_true, !Z.eqb_eq.
  naive_solver.
Qed.

Lemma release_spec c p :
  ready_ok c -> 0 <= pin_slot p ->
  match ChannelCoreReleaseOperation (Some c) p with
  | (core', st) =>
      core' = Some c /\ st <> ChOk /\ never st = false /\ ~ (ChannelCoreOperationPinIsValid p = true /\ pin_live c p)
      \/ st = ChOk /\ pin_live c p /\ exists s', op_state s' <> OpLive /\ op_generation s' = pin_generation p
         /\ core' = Some (with_operations c (<[Z.to_nat (pin_slot p) := s']> (operation_slots c))
                           (core_operations c - 1) (pin_slot p))
         /\ ready_ok (with_operations c (<[Z.to_nat (pin_slot p) := s']> (operation_slots c))
                           (core_operations c - 1) (pin_slot p))
  end.
Proof.
  intros Hc Hp. unfold ChannelCoreReleaseOperation. rewrite (ready_status _ Hc), (ready_canonical _ Hc). simpl.
  destruct (ChannelCoreOperationPinIsValid p) eqn:Hv; simpl; [|left; naive_solver].
  destruct (pin_epoch p =? channel_epoch c) eqn:He; simpl; [|left; split_and!; try done; intros (_ & _ & ? & _); lia].
  assert (0 <= pin_slot p < 32) as Hr.
  { unfold ChannelCoreOperationPinIsValid, kChannelCoreOperationCapacity in Hv. lia. }
  destruct (operation_slots c !! Z.to_nat (pin_slot p)) as [s|] eqn:Hs.
  2: { apply lookup_ge_None in Hs. rewrite (rk_length _ Hc) in Hs. lia. }
  destruct (negb _ || negb _ || negb _) eqn:Hm.
  { left. split_and!; try done. intros (_ & _ & _ & Hs'). rewrite Hs in Hs'. injection Hs' as Hs'.
    apply slot_matches in Hs'. congruence. }
  apply slot_matches in Hm as ->. destruct (live_not_drained c _ _ Hc Hs eq_refl) as [Hnd Hpos].
  replace (core_operations c =? 0) with false by lia. right. split; [done|].
  split; [by split_and!; try done; lia|]. simpl.
  pose proof (Forall_lookup_1 _ _ _ _ (rk_slots _ Hc) Hs) as [Hg _]. simpl in Hg.
  eexists (MkOpSlot (pin_generation p) (if pin_generation p =? kChannelCoreOperationGenerationMaximum then OpRetired else OpFree) 0).
  split; [|split; [done|]; split; [done|]].
  - simpl. by destruct (pin_generation p =? _).
  - eapply with_operations_ok; try done; [|destruct (pin_generation p =? _); unfold op_live; simpl; lia].
    unfold slot_fine. simpl. destruct (pin_generation p =? _) eqn:E; simpl; unfold kInvalidChannelCoreOperationBinding; lia.
Qed.

Lemma validate_spec c p allow :
  ready_ok c -> 0 <= pin_slot p ->
  never (ValidatePinLocked c p allow) = false
  /\ (ValidatePinLocked c p allow = ChOk <->
      ChannelCoreOperationPinIsValid p = true /\ pin_live c p /\ (allow = true \/ core_state c = CoreOpen)).
Proof.
  intros Hc Hp. unfold ValidatePinLocked.
  destruct (ChannelCoreOperationPinIsValid p) eqn:Hv; simpl; [|split; [done|]; naive_solver].
  destruct (pin_epoch p =? channel_epoch c) eqn:He; simpl; [|split; [done|]; split; [done|]; intros (_ & (_ & ? & _) & _); lia].
  assert (0 <= pin_slot p < 32) as Hr.
  { unfold ChannelCoreOperationPinIsValid, kChannelCoreOperationCapacity in Hv. lia. }
  destruct (operation_slots c !! Z.to_nat (pin_slot p)) as [s|] eqn:Hs.
  2: { apply lookup_ge_None in Hs. rewrite (rk_length _ Hc) in Hs. lia. }
  destruct (negb _ || negb _ || negb _) eqn:Hm.
  { split; [done|]. split; [done|]. intros (_ & (_ & _ & Hs') & _). rewrite Hs in Hs'. injection Hs' as Hs'.
    apply slot_matches in Hs'. congruence. }
  apply slot_matches in Hm as ->. destruct (live_not_drained c _ _ Hc Hs eq_refl) as [Hnd Hpos].
  assert (pin_live c p) as Hlive by (split_and!; try done; lia).
  pose proof (rk_phase _ Hc) as Hph. unfold phase_fine in Hph.
  destruct (core_state c), allow; simpl; try done; split; try done; naive_solver.
Qed.

(** ** Requests *)

(** The request calls, uniformly. *)
Inductive Request :=
| QReserve (id : Z) | QCommit (key : EndpointRequestKey) | QCancel (key : EndpointRequestKey)
| QComplete (authority : EndpointRequestCompletionAuthority).

Definition request (core : option ChannelCore) (pin : ChannelCoreOperationPin) (d : ChannelCoreDirection)
    (q : Request) : option ChannelCore * (ChannelCoreStatus * EndpointRequestLedgerStatus) :=
  match q with
  | QReserve id => let '(c, r) := ChannelCoreReserveRequest core pin d id in
                   (c, (reserve_status r, reserve_ledger_status r))
  | QCommit key => let '(c, r) := ChannelCoreCommitRequest core pin d key in (c, (rc_status r, rc_ledger_status r))
  | QCancel key => let '(c, r) := ChannelCoreCancelRequest core pin d key in (c, (tr_status r, tr_ledger_status r))
  | QComplete a => let '(c, r) := ChannelCoreCompleteRequest core pin d a in (c, (tr_status r, tr_ledger_status r))
  end.

Definition is_reserve (q : Request) : bool := match q with QReserve _ => true | _ => false end.

(** The ledger operation a request stands for. *)
Definition lop_of (c : ChannelCore) (index : bool) (q : Request) : lop :=
  match q with
  | QReserve id => LReserve (MkKey (identity (nth_both (request_ledgers c) index)) id)
  | QCommit key => LCommit key
  | QCancel key => LCancel key
  | QComplete a => LComplete a
  end.

Definition put_ledger (c : ChannelCore) (index : bool) (l : EndpointRequestLedger) : ChannelCore :=
  with_ledgers c (set_both (request_ledgers c) index l).

Definition answer (s : EndpointRequestLedgerStatus) : ChannelCoreStatus :=
  match s with Ok => ChOk | _ => ChLedgerFailure end.

Lemma put_ledger_ok c index o r l' :
  ready_ok c -> core_state c <> CoreDrained -> is_request o = true ->
  exec_lop (nth_both (request_ledgers c) index) o = (r, l') -> ready_ok (put_ledger c index l').
Proof.
  intros [H1 H2 H3 H4 H5 H6 H7 H8] Hnd Ho He. split; simpl; try done. intros j.
  unfold is_drained in *. simpl. rewrite bool_decide_eq_false_2 in * by done.
  destruct (decide (j = index)) as [->|Hne].
  - rewrite nth_set_same. by eapply request_fine.
  - by rewrite nth_set_other.
Qed.

(** The end of each case of [request_spec]. *)
Ltac request_tail Hput Hpin El s :=
    right; split; [apply Hpin|]; split; [apply Hpin|]; split; [apply Hpin|];
    eexists _, _; split; [cbn [exec_lop]; rewrite El; reflexivity|];
    split; [reflexivity|]; split;
    [eapply (Hput _ _ Hpin); cbn [exec_lop]; rewrite El; reflexivity|];
    cbn [res_status plain commit_status]; destruct s; cbn; done.

(** What a request call does on a published core: it answers without
    touching anything, or the pin is live and the call is the operation of
    that direction's ledger. *)
Lemma request_spec c p d q :
  ready_ok c -> 0 <= pin_slot p ->
  let index := ChannelCoreDirectionIndex d in
  match request (Some c) p d q with
  | (core', (st, lst)) =>
      core' = Some c /\ st <> ChOk /\ never st = false
      \/ ChannelCoreOperationPinIsValid p = true /\ pin_live c p /\ (is_reserve q = true -> core_state c = CoreOpen)
         /\ exists r l', exec_lop (nth_both (request_ledgers c) index) (lop_of c index q) = (r, l')
            /\ core' = Some (put_ledger c index l') /\ ready_ok (put_ledger c index l')
            /\ lst = res_status r /\ st = answer lst
  end.
Proof.
  intros Hc Hp index.
  assert (forall r l', ChannelCoreOperationPinIsValid p = true /\ pin_live c p /\ (is_reserve q = true -> core_state c = CoreOpen) ->
            exec_lop (nth_both (request_ledgers c) index) (lop_of c index q) = (r, l') ->
            ready_ok (put_ledger c index l')) as Hput.
  { intros r l' (_ & (_ & _ & Hs) & _) He. eapply put_ledger_ok; [done| | |exact He].
    - by eapply live_not_drained.
    - by destruct q. }
  pose proof (validate_spec c p (negb (is_reserve q)) Hc Hp) as [Hnev Hok].
  assert (ValidatePinLocked c p (negb (is_reserve q)) = ChOk ->
          ChannelCoreOperationPinIsValid p = true /\ pin_live c p /\ (is_reserve q = true -> core_state c = CoreOpen)) as Hpin.
  { intros Hv%Hok. destruct q; simpl in *; naive_solver. }
  clear Hok.
  destruct q as [id|key|key|a]; cbn [request lop_of is_reserve negb] in *;
    unfold ChannelCoreReserveRequest, ChannelCoreCommitRequest, ChannelCoreCancelRequest, ChannelCoreCompleteRequest;
    rewrite (ready_status _ Hc), (ready_canonical _ Hc); cbn [negb];
    (destruct (_ || _); [by left|]);
    (destruct (ValidatePinLocked c p _) eqn:Hv; try (left; split_and!; done));
    specialize (Hpin eq_refl); fold index.
  - destruct (EndpointRequestLedgerReserve _ _) as [s l'] eqn:El. request_tail Hput Hpin El s.
  - destruct (EndpointRequestLedgerCommit _ _) as [[s a] l'] eqn:El. request_tail Hput Hpin El s.
  - destruct (EndpointRequestLedgerCancel _ _) as [s l'] eqn:El. request_tail Hput Hpin El s.
  - destruct (EndpointRequestLedgerComplete _ _) as [s l'] eqn:El. request_tail Hput Hpin El s.
Qed.

(** ** Drain *)

Definition begun_drain (c : ChannelCore) : ChannelCore :=
  with_phase c (channel_epoch c) 1 (ports_close_notified c) 0 CoreDraining.

Lemma begun_drain_ok c : ready_ok c -> core_state c <> CoreDrained -> ready_ok (begun_drain c).
Proof.
  intros [H1 H2 H3 H4 H5 H6 H7 H8] Hnd. split; simpl; try done.
  - unfold is_drained in *. by rewrite (bool_decide_eq_false_2 _ Hnd) in H7.
  - unfold phase_fine in *. simpl. destruct (core_state c); try done; split_and!; try lia; by destruct_and!.
Qed.

Lemma drain_begin_spec c e enforce :
  ready_ok c ->
  match DrainBeginLocked c e enforce with
  | (c', inl res) =>
      c' = c /\ dr_detached res = zero_cleanup
      /\ (dr_status res = ChStaleEpoch /\ enforce = true /\ channel_epoch c <> e
          \/ dr_status res = ChOk /\ core_state c = CoreDrained
          \/ dr_status res = ChBusy /\ core_state c = CoreDraining /\ drain_driver_active c = 1)
  | (c', inr d) =>
      c' = begun_drain c /\ ready_ok c' /\ core_state c <> CoreDrained /\ drain_driver_active c = 0
      /\ d = MkDrive (channel_epoch c) (core_ports c) (if core_operations c =? 0 then core_tables c else (0, 0))
               (core_operations c =? 0)
  end.
Proof.
  intros Hc. unfold DrainBeginLocked. rewrite (ready_canonical _ Hc). cbn [negb].
  destruct enforce; simpl; [destruct (channel_epoch c =? e) eqn:He; simpl; [|split_and!; try done; left; split_and!; try done; lia]|].
  all: pose proof (rk_phase _ Hc) as Hp; unfold phase_fine in Hp; destruct (core_state c) eqn:Hst; simpl; try done.
  all: rewrite ?Hst; simpl.
  all: try (split_and!; try done; by right; left).
  all: destruct (drain_driver_active c =? 0) eqn:Hd; simpl.
  all: try (split_and!; try done; right; right; split_and!; try done; lia).
  all: try lia.
  all: match goal with |- ?x = _ /\ _ => assert (x = begun_drain c) as ->
         by (unfold begun_drain, with_driver, with_core_state, with_phase; simpl; rewrite ?Hst; f_equal; lia) end.
  all: split; [done|]; split; [apply begun_drain_ok; [done | by rewrite Hst]|]; split_and!; try done; lia.
Qed.

(** The core a completed drain leaves. *)
Definition drained_core (c : ChannelCore) (l : Both EndpointRequestLedger) : ChannelCore :=
  MkCore l (0, 0) (0, 0) (kInvalidChargeKey ChannelCharge) (operation_slots c) (channel_epoch c)
    (core_operations c) (operation_hint c) (core_initialized c) 0 1 1 CoreDrained.

Definition settled_answer (s : ObjectTransferStatus) : Prop := s = XferOk \/ s = XferBusy.

Lemma drain_end_spec c d s :
  ready_ok c -> core_state c = CoreDraining -> dd_epoch d = channel_epoch c ->
  (dd_finalize d = true -> core_operations c = 0) -> settled_answer s.1 -> settled_answer s.2 ->
  match DrainEndLocked c d s with
  | (c', res) =>
      dr_status res = ChBusy /\ c' = with_driver c 0 1 /\ ready_ok c' /\ dr_detached res = zero_cleanup
        /\ ~ (dd_finalize d = true /\ s = (XferOk, XferOk))
      \/ dd_finalize d = true /\ s = (XferOk, XferOk) /\ core_operations c = 0
         /\ exists r0 l0 r1 l1,
              exec_lop (request_ledgers c).1 LDrain = (r0, l0) /\ exec_lop (request_ledgers c).2 LDrain = (r1, l1)
              /\ res_detached r0 = live_keys (slots (request_ledgers c).1)
              /\ res_detached r1 = live_keys (slots (request_ledgers c).2)
              /\ c' = drained_core c (l0, l1) /\ ready_ok c'
              /\ res = MkDrain ChOk (channel_epoch c) (MkDrainResult Ok (res_detached r0), MkDrainResult Ok (res_detached r1))
                         (MkCleanup (channel_epoch c) (core_ports c) (core_tables c) (core_charge c))
  end.
Proof.
  intros Hc Hst He Hfin Hs0 Hs1. unfold DrainEndLocked. rewrite (ready_canonical _ Hc). cbn [negb].
  pose proof (rk_phase _ Hc) as Hp. unfold phase_fine in Hp. rewrite Hst in Hp. destruct Hp as (Hd & Hn & Hdr & Hat).
  assert (ready_ok (with_driver c 0 1)) as Hbusy.
  { destruct Hc as [H1 H2 H3 H4 H5 H6 H7 H8]. split; simpl; try done. unfold phase_fine. simpl. rewrite Hst.
    split_and!; try done; lia. }
  destruct s as [s0 s1]. cbn [fst snd] in *.
  destruct (dd_finalize d) eqn:Hf; simpl.
  2: { rewrite orb_true_r. left. split_and!; try done. by intros [? _]. }
  rewrite Hfin by done. simpl.
  destruct Hs0 as [-> | ->]; simpl; [|left; split_and!; try done; by intros [_ ?]].
  destruct Hs1 as [-> | ->]; simpl; [|left; split_and!; try done; by intros [_ ?]].
  rewrite Hdr. simpl.
  pose proof (rk_ledgers _ Hc) as Hl. unfold is_drained in Hl. rewrite Hst in Hl. simpl in Hl.
  destruct (exec_lop (request_ledgers c).1 LDrain) as [r0 l0] eqn:E0.
  destruct (exec_lop (request_ledgers c).2 LDrain) as [r1 l1] eqn:E1.
  destruct (drain_fine _ _ _ _ _ (Hl false) E0) as (Hr0 & Hk0 & Hl0).
  destruct (drain_fine _ _ _ _ _ (Hl true) E1) as (Hr1 & Hk1 & Hl1).
  cbn [exec_lop] in E0, E1.
  destruct (EndpointRequestLedgerDrain (Some (request_ledgers c).1)) as [[ds0 dk0] ol0] eqn:D0.
  destruct (EndpointRequestLedgerDrain (Some (request_ledgers c).2)) as [[ds1 dk1] ol1] eqn:D1.
  simpl in E0, E1. simplify_eq. simpl in Hr0, Hr1. subst ds0 ds1.
  assert (exists x0, ol0 = Some x0) as [x0 ->]. { by eapply drain_some. }
  assert (exists x1, ol1 = Some x1) as [x1 ->]. { by eapply drain_some. }
  simpl. right. do 3 (split; [done|]).
  eexists _, _, _, _. do 2 (split; [reflexivity|]). split; [exact Hk0|]. split; [exact Hk1|].
  assert (ready_ok (drained_core c (x0, x1))) as Hdone.
  { destruct Hc as [H1 H2 H3 H4 H5 H6 H7 H8]. split; simpl; try done; [by intros []|].
    unfold phase_fine. simpl. split_and!; try done. by apply Hfin. }
  unfold DrainDetach, drained_core, with_driver, with_phase, with_resources, with_core_state in *. simpl in *.
  rewrite He. split_and!; done.
Qed.

(** ** Opening *)

Definition attached (r : PreparedResources) : Prop :=
  AttachedResourcesAreCanonical (AdoptResources zero_core r) = true.

Definition open_core (c : ChannelCore) (r : PreparedResources) (epoch : Z) (l : Both EndpointRequestLedger)
    : ChannelCore :=
  MkCore l (res_ports r) (res_tables r) (res_charge r) (operation_slots c) epoch
    (core_operations c) (operation_hint c) kChannelCoreInitializeReady 0 0 0 CoreOpen.

Definition claimed_core : ChannelCore := with_initialized zero_core kChannelCoreInitializeInProgress.

Lemma channel_publish_spec r epoch :
  attached r -> 0 < epoch <= kChannelEpochMaximum ->
  exists r0 l0 r1 l1,
    exec_lop zero_ledger (LInitialize (identities epoch).1 1) = (r0, l0)
    /\ exec_lop zero_ledger (LInitialize (identities epoch).2 1) = (r1, l1)
    /\ InitializePublish claimed_core r epoch = Some (open_core zero_core r epoch (l0, l1))
    /\ ready_ok (open_core zero_core r epoch (l0, l1)).
Proof.
  intros Ha He. unfold InitializePublish.
  destruct (exec_lop zero_ledger (LInitialize (identities epoch).1 1)) as [r0 l0] eqn:E0.
  destruct (exec_lop zero_ledger (LInitialize (identities epoch).2 1)) as [r1 l1] eqn:E1.
  destruct (initialize_fine epoch false r0 l0 ltac:(lia) E0) as [Hr0 Hl0].
  destruct (initialize_fine epoch true r1 l1 ltac:(lia) E1) as [Hr1 Hl1].
  cbn [exec_lop] in E0, E1.
  destruct (EndpointRequestLedgerInitialize (Some zero_ledger) (identities epoch).1 1) as [s0 o0] eqn:D0.
  destruct (EndpointRequestLedgerInitialize (Some zero_ledger) (identities epoch).2 1) as [s1 o1] eqn:D1.
  injection E0 as <- <-. injection E1 as <- <-. cbn in Hr0, Hr1. subst s0 s1.
  assert (exists x0, o0 = Some x0) as [x0 ->] by (by eapply initialize_some).
  assert (exists x1, o1 = Some x1) as [x1 ->] by (by eapply initialize_some).
  eexists _, _, _, _. do 2 (split; [reflexivity|]). cbn [default]. split; [done|].
  split; simpl; try done; [by repeat constructor | by intros []].
Qed.

Lemma adopt_spec c previous next r :
  ready_ok c -> attached r -> previous < next <= kChannelEpochMaximum ->
  match ResetAdoptLocked c previous next r with
  | (c', res) =>
      c' = c /\ res = OpenFailure ChResetNotDrained /\ ~ (core_state c = CoreDrained /\ channel_epoch c = previous)
      \/ core_state c = CoreDrained /\ channel_epoch c = previous /\ res = MkOpen ChOk next
         /\ exists r0 l0 r1 l1,
              exec_lop (request_ledgers c).1 (LReset (identities next).1 1) = (r0, l0)
              /\ exec_lop (request_ledgers c).2 (LReset (identities next).2 1) = (r1, l1)
              /\ c' = open_core c r next (l0, l1) /\ ready_ok c'
  end.
Proof.
  intros Hc Ha Hn. unfold ResetAdoptLocked. rewrite (ready_canonical _ Hc). cbn [negb].
  destruct (bool_decide (core_state c = CoreDrained)) eqn:Hst; cbn [negb orb].
  2: { apply bool_decide_eq_false in Hst. left. by split_and!; try done; intros [? _]. }
  apply bool_decide_eq_true in Hst.
  destruct (channel_epoch c =? previous) eqn:He; cbn [negb].
  2: { left. split_and!; try done. intros [_ ?]. lia. }
  pose proof (rk_ledgers _ Hc) as Hl. unfold is_drained in Hl. rewrite Hst in Hl. simpl in Hl.
  pose proof (rk_epoch _ Hc) as Hep.
  destruct (exec_lop (request_ledgers c).1 (LReset (identities next).1 1)) as [r0 l0] eqn:E0.
  destruct (exec_lop (request_ledgers c).2 (LReset (identities next).2 1)) as [r1 l1] eqn:E1.
  destruct (reset_fine _ next false _ r0 l0 (Hl false) ltac:(lia) ltac:(apply Hn) E0) as [Hr0 Hl0].
  destruct (reset_fine _ next true _ r1 l1 (Hl true) ltac:(lia) ltac:(apply Hn) E1) as [Hr1 Hl1].
  cbn [exec_lop] in E0, E1.
  destruct (EndpointRequestLedgerReset (Some (request_ledgers c).1) (identities next).1 1) as [s0 o0] eqn:D0.
  destruct (EndpointRequestLedgerReset (Some (request_ledgers c).2) (identities next).2 1) as [s1 o1] eqn:D1.
  injection E0 as <- <-. injection E1 as <- <-. cbn in Hr0, Hr1. subst s0 s1.
  assert (exists x0, o0 = Some x0) as [x0 ->] by (by eapply reset_some).
  assert (exists x1, o1 = Some x1) as [x1 ->] by (by eapply reset_some).
  right. split; [done|]. split; [lia|]. split; [done|]. eexists _, _, _, _. do 2 (split; [reflexivity|]).
  assert (ready_ok (open_core c r next (x0, x1))) as Hopen.
  { destruct Hc as [H1 H2 H3 H4 H5 H6 H7 H8]. split; simpl; try done; [lia | by intros []]. }
  cbn [default]. unfold open_core in *. rewrite <- (rk_init _ Hc) in *. by split.
Qed.
