(* ===== verification/ChannelCoreSpec.v ===== *)
(** * The channel core: the system of channels

    Any number of channel cores over one kernel, with every call split at
    its critical sections: constructions, resets and drains are in flight
    between sections while other calls run.  Between any two sections the
    rest of the kernel may change whatever the channels do not hold: the
    contents of ports and tables, objects, domains and charges, as long as
    what the channels hold stays allocated, well formed and charged, and
    closed tables stay closed ([held]).  The log records, newest first, what
    the calls answered and what they did to the request ledgers. *)

From stdpp Require Import relations.
From S2P Require Import Prelude KObject HandleTable HandleTableSpec KMessagePort ObjectTransfer ObjectTransferSpec.
From S2P Require Import ResourceDomain ResourceDomainSpec RequestLedger RequestLedgerSpec.
From S2P Require Import ChannelCore ChannelResources ChannelCoreInv.

Inductive Stage :=
| Begun (domain : ResourceKey)
| Prepared (r : PreparedResources)
| Numbered (r : PreparedResources) (epoch : Z).

(** Calls between sections: an initialization ([previous] is [None]) or a
    reset of core [i], or a drain before or after its closes. *)
Inductive Call :=
| COpen (i : nat) (previous : option Z) (stage : Stage)
| CDrain (i : nat) (d : DrainDrive) (closed : option (Both ObjectTransferStatus)).

Inductive CEvent :=
| EvGrant (key : ResourceKey)
| EvOpen (i : nat) (r : ChannelCoreOpenResult)
| EvPin (i : nat) (r : ChannelCorePinResult)
| EvUnpin (i : nat) (p : ChannelCoreOperationPin) (st : ChannelCoreStatus)
| EvRequest (i : nat) (q : Request) (st : ChannelCoreStatus)
| EvLedger (i : nat) (index : bool) (o : lop) (r : lresult)
| EvDrain (i : nat) (r : ChannelCoreDrainResult)
| EvCleanup (st : ChannelCoreStatus).

Record CWorld := MkCWorld {
  cw_k : Kernel;
  cw_cores : list ChannelCore;
  cw_calls : list Call;
  cw_bundles : list ChannelCoreDetachedCleanup;
  cw_log : list CEvent;
}.

Inductive CAction :=
| AInitialize (i : nat) (domain : ResourceKey)
| AReset (i : nat) (domain : ResourceKey)
| APrepare (n : nat) (b : Blocks)
| ANumber (n : nat)
| AFinish (n : nat)
| AAcquire (i : nat) (epoch binding : Z)
| ARelease (i : nat) (p : ChannelCoreOperationPin)
| ARequest (i : nat) (p : ChannelCoreOperationPin) (d : ChannelCoreDirection) (q : Request)
| ADrain (i : nat) (epoch : Z) (enforce : bool)
| AClose (n : nat)
| ADetach (n : nat)
| ACleanup (n : nat).

(** ** One section *)

Definition say (w : CWorld) (e : CEvent) : CWorld :=
  MkCWorld (cw_k w) (cw_cores w) (cw_calls w) (cw_bundles w) (e :: cw_log w).

Definition set_core (w : CWorld) (i : nat) (c : ChannelCore) (events : list CEvent) : CWorld :=
  MkCWorld (cw_k w) (<[i := c]> (cw_cores w)) (cw_calls w) (cw_bundles w) (events ++ cw_log w).

Definition on_core (w : CWorld) (i : nat) (f : ChannelCore -> option CWorld) : option CWorld :=
  match cw_cores w !! i with None => Some w | Some c => f c end.

Definition drop_call (w : CWorld) (n : nat) : CWorld :=
  MkCWorld (cw_k w) (cw_cores w) (delete n (cw_calls w)) (cw_bundles w) (cw_log w).
Definition put_call (w : CWorld) (n : nat) (x : Call) : CWorld :=
  MkCWorld (cw_k w) (cw_cores w) (<[n := x]> (cw_calls w)) (cw_bundles w) (cw_log w).
Definition add_call (w : CWorld) (x : Call) : CWorld :=
  MkCWorld (cw_k w) (cw_cores w) (cw_calls w ++ [x]) (cw_bundles w) (cw_log w).
Definition set_kernel (w : CWorld) (k : Kernel) : CWorld :=
  MkCWorld k (cw_cores w) (cw_calls w) (cw_bundles w) (cw_log w).

Definition do_initialize (w : CWorld) (i : nat) (domain : ResourceKey) (c : ChannelCore) : CWorld :=
  match InitializeClaim (Some c) domain with
  | (ChOk, c') => add_call (set_core w i (default c c') []) (COpen i None (Begun domain))
  | (status, c') => set_core w i (default c c') [EvOpen i (OpenFailure status)]
  end.

Definition do_reset (w : CWorld) (i : nat) (domain : ResourceKey) (c : ChannelCore) : CWorld :=
  match ResetBeginLocked (Some c) domain with
  | inl status => say w (EvOpen i (OpenFailure status))
  | inr previous => add_call w (COpen i (Some previous) (Begun domain))
  end.

Definition do_prepare (w : CWorld) (n i : nat) (previous : option Z) (domain : ResourceKey) (b : Blocks)
    : option CWorld :=
  let log := (EvGrant <$> grants domain (cw_k w)) ++ cw_log w in
  match PrepareResources domain b (cw_k w) with
  | None => None
  | Some ((ChOk, r), k) =>
      Some (MkCWorld k (cw_cores w) (<[n := COpen i previous (Prepared r)]> (cw_calls w)) (cw_bundles w) log)
  | Some ((status, _), k) =>
      let cores := match previous with
                   | None => alter (fun c => with_initialized c kChannelCoreInitializeUninitialized) i (cw_cores w)
                   | Some _ => cw_cores w
                   end in
      Some (MkCWorld k cores (delete n (cw_calls w)) (cw_bundles w) (EvOpen i (OpenFailure status) :: log))
  end.

Definition do_number (w : CWorld) (n i : nat) (previous : option Z) (r : PreparedResources) : option CWorld :=
  match allocate_epoch (cw_k w) with
  | None => None
  | Some (epoch, k) => Some (set_kernel (put_call w n (COpen i previous (Numbered r epoch))) k)
  end.

(** The ledger operations of a successful opening. *)
Definition open_ops (i : nat) (previous : option Z) (c : ChannelCore) (epoch : Z) : list CEvent :=
  match previous with
  | None =>
      [EvLedger i true (LInitialize (identities epoch).2 1) (exec_lop zero_ledger (LInitialize (identities epoch).2 1)).1;
       EvLedger i false (LInitialize (identities epoch).1 1) (exec_lop zero_ledger (LInitialize (identities epoch).1 1)).1]
  | Some _ =>
      [EvLedger i true (LReset (identities epoch).2 1) (exec_lop (request_ledgers c).2 (LReset (identities epoch).2 1)).1;
       EvLedger i false (LReset (identities epoch).1 1) (exec_lop (request_ledgers c).1 (LReset (identities epoch).1 1)).1]
  end.

Definition do_finish (w : CWorld) (n i : nat) (previous : option Z) (r : PreparedResources) (epoch : Z)
    (c : ChannelCore) : option CWorld :=
  match match previous with
        | None => InitializeFinish c r epoch (cw_k w)
        | Some p => ResetFinish c p epoch r (cw_k w)
        end with
  | None => None
  | Some ((c', result), k) =>
      let ops := if bool_decide (open_status result = ChOk) then open_ops i previous c epoch else [] in
      Some (set_core (set_kernel (drop_call w n) k) i c' (EvOpen i result :: ops))
  end.

Definition do_acquire (w : CWorld) (i : nat) (epoch binding : Z) (c : ChannelCore) : CWorld :=
  let '(c', r) := ChannelCoreAcquireOperation (Some c) epoch binding in set_core w i (default c c') [EvPin i r].

Definition do_release (w : CWorld) (i : nat) (p : ChannelCoreOperationPin) (c : ChannelCore) : CWorld :=
  let '(c', st) := ChannelCoreReleaseOperation (Some c) p in set_core w i (default c c') [EvUnpin i p st].

(** A request that reached the ledger says so in its status. *)
Definition reached (st : ChannelCoreStatus) : bool :=
  match st with ChOk | ChLedgerFailure => true | _ => false end.

Definition do_request (w : CWorld) (i : nat) (p : ChannelCoreOperationPin) (d : ChannelCoreDirection) (q : Request)
    (c : ChannelCore) : CWorld :=
  let index := ChannelCoreDirectionIndex d in
  let '(c', (st, _)) := request (Some c) p d q in
  let ops := if reached st
             then [EvLedger i index (lop_of c index q)
                     (exec_lop (nth_both (request_ledgers c) index) (lop_of c index q)).1]
             else [] in
  set_core w i (default c c') (EvRequest i q st :: ops).

Definition do_drain (w : CWorld) (i : nat) (epoch : Z) (enforce : bool) (c : ChannelCore) : CWorld :=
  match ReadyStatus (Some c) with
  | ChOk =>
      match DrainBeginLocked c epoch enforce with
      | (c', inl res) => set_core w i c' [EvDrain i res]
      | (c', inr d) => add_call (set_core w i c' []) (CDrain i d None)
      end
  | status => say w (EvDrain i (ChannelDrainFailure status))
  end.

Definition do_close (w : CWorld) (n i : nat) (d : DrainDrive) : option CWorld :=
  match DrainClose d (cw_k w) with
  | None => None
  | Some (s, k) => Some (set_kernel (put_call w n (CDrain i d (Some s))) k)
  end.

Definition do_detach (w : CWorld) (n i : nat) (d : DrainDrive) (s : Both ObjectTransferStatus) (c : ChannelCore)
    : CWorld :=
  let '(c', res) := DrainEndLocked c d s in
  let ops := if bool_decide (dr_status res = ChOk)
             then [EvLedger i true LDrain (exec_lop (request_ledgers c).2 LDrain).1;
                   EvLedger i false LDrain (exec_lop (request_ledgers c).1 LDrain).1] else [] in
  let w := set_core (drop_call w n) i c' (EvDrain i res :: ops) in
  MkCWorld (cw_k w) (cw_cores w) (cw_calls w)
    (cw_bundles w ++ if bool_decide (dr_status res = ChOk) then [dr_detached res] else []) (cw_log w).

Definition do_cleanup (w : CWorld) (n : nat) (b : ChannelCoreDetachedCleanup) : option CWorld :=
  match ChannelCoreReleaseDetachedCleanup (Some b) (cw_k w) with
  | None => None
  | Some ((b', st), k) =>
      let bundles := if bool_decide (st = ChOk) then delete n (cw_bundles w)
                     else <[n := default b b']> (cw_bundles w) in
      Some (MkCWorld k (cw_cores w) (cw_calls w) bundles (EvCleanup st :: cw_log w))
  end.

(** [None] is a tripped assertion or an access to memory that is not
    allocated. *)
Definition c_exec (w : CWorld) (a : CAction) : option CWorld :=
  match a with
  | AInitialize i domain => on_core w i (fun c => Some (do_initialize w i domain c))
  | AReset i domain => on_core w i (fun c => Some (do_reset w i domain c))
  | APrepare n b =>
      match cw_calls w !! n with
      | Some (COpen i previous (Begun domain)) => do_prepare w n i previous domain b
      | _ => Some w
      end
  | ANumber n =>
      match cw_calls w !! n with
      | Some (COpen i previous (Prepared r)) => do_number w n i previous r
      | _ => Some w
      end
  | AFinish n =>
      match cw_calls w !! n with
      | Some (COpen i previous (Numbered r epoch)) => on_core w i (do_finish w n i previous r epoch)
      | _ => Some w
      end
  | AAcquire i epoch binding => on_core w i (fun c => Some (do_acquire w i epoch binding c))
  | ARelease i p => on_core w i (fun c => Some (do_release w i p c))
  | ARequest i p d q => on_core w i (fun c => Some (do_request w i p d q c))
  | ADrain i epoch enforce => on_core w i (fun c => Some (do_drain w i epoch enforce c))
  | AClose n => match cw_calls w !! n with Some (CDrain i d None) => do_close w n i d | _ => Some w end
  | ADetach n =>
      match cw_calls w !! n with
      | Some (CDrain i d (Some s)) => on_core w i (fun c => Some (do_detach w n i d s c))
      | _ => Some w
      end
  | ACleanup n => match cw_bundles w !! n with Some b => do_cleanup w n b | None => Some w end
  end.

(** ** What the channels hold *)

Definition call_res (x : Call) : list PreparedResources :=
  match x with COpen _ _ (Prepared r) | COpen _ _ (Numbered r _) => [r] | _ => [] end.
Definition core_res (c : ChannelCore) : list PreparedResources :=
  match core_state c with
  | CoreOpen | CoreDraining => [MkPrepared (core_ports c) (core_tables c) (core_charge c)]
  | _ => []
  end.
Definition owned (w : CWorld) : list PreparedResources :=
  (cw_calls w ≫= call_res) ++ (cw_cores w ≫= core_res) ++ (bundle_of <$> cw_bundles w).

(** The tables a finished drain or a drain past its closes has closed. *)
Definition call_closed (x : Call) : list Z :=
  match x with
  | CDrain _ d (Some s) => if dd_finalize d && bool_decide (s = (XferOk, XferOk)) then [(dd_tables d).1; (dd_tables d).2] else []
  | _ => []
  end.
Definition closed_tables (w : CWorld) : list Z :=
  (cw_calls w ≫= call_closed) ++ (cw_bundles w ≫= (fun b => tables_of (bundle_of b))).

Definition held (rs : list PreparedResources) (closed : list Z) (granted : list ResourceKey) (k : Kernel) : Prop :=
  kernel_ok (rs ≫= ports_of) (rs ≫= tables_of) closed (res_charge <$> rs) granted k.

(** ** The log *)

Definition granted_of (e : CEvent) : option ResourceKey := match e with EvGrant key => Some key | _ => None end.
Definition opened_of (e : CEvent) : option (nat * Z) :=
  match e with EvOpen i (MkOpen ChOk epoch) => Some (i, epoch) | _ => None end.
Definition issued_of (e : CEvent) : option (nat * ChannelCoreOperationPin) :=
  match e with EvPin i (MkPinResult ChOk p) => Some (i, p) | _ => None end.
Definition dead_of (e : CEvent) : option (nat * ChannelCoreOperationPin) :=
  match e with EvUnpin i p ChOk => Some (i, p) | _ => None end.
Definition op_of (i : nat) (index : bool) (e : CEvent) : option (lop * lresult) :=
  match e with
  | EvLedger i' index' o r => if decide (i' = i /\ index' = index) then Some (o, r) else None
  | _ => None
  end.

Definition granted (w : CWorld) : list ResourceKey := omap granted_of (cw_log w).
Definition opened (w : CWorld) : list (nat * Z) := omap opened_of (cw_log w).
Definition issued (w : CWorld) : list (nat * ChannelCoreOperationPin) := omap issued_of (cw_log w).
Definition dead_pins (w : CWorld) : list (nat * ChannelCoreOperationPin) := omap dead_of (cw_log w).
(** The operations on one ledger, oldest first. *)
Definition ledger_ops (w : CWorld) (i : nat) (index : bool) : list (lop * lresult) :=
  reverse (omap (op_of i index) (cw_log w)).

(** ** Steps *)

Definition action_ok (w : CWorld) (a : CAction) : Prop :=
  match a with
  | APrepare _ b => blocks_fresh (cw_k w) b
  | ARelease _ p | ARequest _ p _ _ => 0 <= pin_slot p
  | _ => True
  end.

Inductive cstep (w : CWorld) : CWorld -> Prop :=
| step_call a w' : action_ok w a -> c_exec w a = Some w' -> cstep w w'
| step_kernel k : held (owned w) (closed_tables w) (granted w) k -> k_next_epoch k = k_next_epoch (cw_k w) ->
    cstep w (set_kernel w k).

(** Zeroed storage for any number of cores, and a kernel in which channels
    hold nothing yet. *)
Definition c_start (n : nat) (k : Kernel) : CWorld := MkCWorld k (replicate n zero_core) [] [] [].
Definition boot_kernel (k : Kernel) : Prop := held [] [] [] k /\ k_next_epoch k = 1.

Definition reachable (w : CWorld) : Prop := exists n k, boot_kernel k /\ rtc cstep (c_start n k) w.

(** ** The invariant *)

(** The part of a log that concerns core [i]. *)
Definition at_core {A} (i : nat) (l : list (nat * A)) : list A :=
  omap (fun x => if decide (x.1 = i) then Some x.2 else None) l.

Record pins_fine (c : ChannelCore) (all dead : list ChannelCoreOperationPin) : Prop := {
  pf_issued : NoDup all;
  pf_dead : NoDup dead;
  pf_sub : forall p, p ∈ dead -> p ∈ all;
  pf_slot : forall p, p ∈ all -> 0 <= pin_slot p < 32 /\ exists s,
      operation_slots c !! Z.to_nat (pin_slot p) = Some s /\ pin_generation p <= op_generation s;
  pf_live : forall p, p ∈ all -> p ∉ dead -> pin_live c p;
  pf_gone : forall p, p ∈ dead -> ~ pin_live c p;
  pf_known : forall j s, operation_slots c !! j = Some s -> op_state s = OpLive ->
      MkOpPin (channel_epoch c) (Z.of_nat j) (op_generation s) (op_binding s) ∈ all;
  pf_count : core_operations c = Z.of_nat (length all) - Z.of_nat (length dead);
}.

Definition ledger_run (c : ChannelCore) (index : bool) (ops : list (lop * lresult)) : Prop :=
  run_lops zero_ledger ops.*1 = (ops.*2, nth_both (request_ledgers c) index) /\ Forall lop_typed ops.*1.

(** One core with its part of the log. *)
Record ready_in (i : nat) (c : ChannelCore) (w : CWorld) : Prop := {
  ri_ok : ready_ok c;
  ri_epoch : (i, channel_epoch c) ∈ opened w;
  ri_latest : forall e, (i, e) ∈ opened w -> e <= channel_epoch c;
  ri_pins : pins_fine c (at_core i (issued w)) (at_core i (dead_pins w));
  ri_pin_epochs : forall p, p ∈ at_core i (issued w) -> (i, pin_epoch p) ∈ opened w;
  ri_ledgers : forall index, ledger_run c index (ledger_ops w i index);
}.

Definition silent (i : nat) (w : CWorld) : Prop :=
  at_core i (opened w) = [] /\ at_core i (issued w) = [] /\ at_core i (dead_pins w) = []
  /\ forall index, ledger_ops w i index = [].

Definition core_in (i : nat) (c : ChannelCore) (w : CWorld) : Prop :=
  (c = zero_core \/ c = claimed_core) /\ silent i w \/ ready_in i c w.

Record drive_ok (c : ChannelCore) (d : DrainDrive) (s : option (Both ObjectTransferStatus)) : Prop := {
  do_ready : ready_ok c;
  do_state : core_state c = CoreDraining;
  do_active : drain_driver_active c = 1;
  do_epoch : dd_epoch d = channel_epoch c;
  do_ports : dd_ports d = core_ports c;
  do_tables : dd_finalize d = true -> dd_tables d = core_tables c /\ core_operations c = 0;
  do_answer : forall s0, s = Some s0 -> settled_answer s0.1 /\ settled_answer s0.2;
}.

Definition call_in (w : CWorld) (x : Call) : Prop :=
  match x with
  | COpen i None _ => cw_cores w !! i = Some claimed_core
  | COpen i (Some previous) stage =>
      (i, previous) ∈ opened w /\ match stage with Numbered _ e => e = 0 \/ previous < e | _ => True end
  | CDrain i d s => exists c, cw_cores w !! i = Some c /\ drive_ok c d s
  end.

Definition init_of (x : Call) : option nat := match x with COpen i None _ => Some i | _ => None end.
Definition drain_of (x : Call) : option nat := match x with CDrain i _ _ => Some i | _ => None end.

(** The epochs calls in flight hold. *)
Definition numbered (x : Call) : option Z :=
  match x with COpen _ _ (Numbered _ e) => if e =? 0 then None else Some e | _ => None end.

Record epochs_ok (w : CWorld) : Prop := {
  ep_next : 0 <= k_next_epoch (cw_k w) <= kChannelEpochMaximum;
  ep_nodup : NoDup ((opened w).*2 ++ omap numbered (cw_calls w));
  ep_range : forall e, e ∈ (opened w).*2 ++ omap numbered (cw_calls w) ->
      0 < e <= kChannelEpochMaximum /\ (k_next_epoch (cw_k w) <> 0 -> e < k_next_epoch (cw_k w));
}.

Definition event_fine (e : CEvent) : Prop :=
  match e with
  | EvOpen _ (MkOpen st _) | EvPin _ (MkPinResult st _) | EvUnpin _ _ st | EvCleanup st => never st = false
  | EvRequest _ _ st => st <> ChCorruptState
  | EvDrain _ r => never (dr_status r) = false
  | _ => True
  end.

Record channel_ok (w : CWorld) : Prop := {
  ck_cores : forall i c, cw_cores w !! i = Some c -> core_in i c w;
  ck_calls : forall x, x ∈ cw_calls w -> call_in w x;
  ck_inits : NoDup (omap init_of (cw_calls w));
  ck_drains : NoDup (omap drain_of (cw_calls w));
  ck_driver : forall i c, cw_cores w !! i = Some c -> ready_ok c -> drain_driver_active c = 1 ->
      i ∈ omap drain_of (cw_calls w);
  ck_held : held (owned w) (closed_tables w) (granted w) (cw_k w);
  ck_bundles : forall b, b ∈ cw_bundles w -> cl_epoch b <> 0;
  ck_epochs : epochs_ok w;
  ck_opened : forall i e, (i, e) ∈ opened w -> (i < length (cw_cores w))%nat;
  ck_log : Forall event_fine (cw_log w);
}.

(** ** Lists *)

Lemma insert_perm {A} (l : list A) i x y : l !! i = Some x -> <[i := y]> l ≡ₚ y :: delete i l.
Proof.
  intros Hi. rewrite (delete_Permutation (<[i := y]> l) i y) by (apply list_lookup_insert_eq; by eapply lookup_lt_Some).
  f_equiv. revert i Hi. induction l as [|a l IH]; intros [|i] Hi; simplify_eq/=; [done|]. by rewrite IH.
Qed.

Lemma bind_delete {A B} (f : A -> list B) (l : list A) i x : l !! i = Some x -> l ≫= f ≡ₚ f x ++ (delete i l ≫= f).
Proof. intros Hi. exact (bind_Permutation f _ _ (delete_Permutation l i x Hi)). Qed.

Lemma bind_insert {A B} (f : A -> list B) (l : list A) i x y :
  l !! i = Some x -> <[i := y]> l ≫= f ≡ₚ f y ++ (delete i l ≫= f).
Proof. intros Hi. exact (bind_Permutation f _ _ (insert_perm l i x y Hi)). Qed.

Lemma snoc_perm {A} (l : list A) x : l ++ [x] ≡ₚ x :: l.
Proof. by rewrite Permutation_app_comm. Qed.

Lemma elem_delete {A} (l : list A) i x : x ∈ delete i l -> x ∈ l.
Proof.
  revert i. induction l as [|y l IH]; intros [|i] H; try done; simpl in H; [by right|].
  apply elem_of_cons in H as [->|H]; [left | right; by eapply IH].
Qed.

Lemma elem_insert {A} (l : list A) i x y : x ∈ <[i := y]> l -> x = y \/ x ∈ l.
Proof. intros [j Hj]%list_elem_of_lookup. apply list_lookup_insert_Some in Hj as [(_ & -> & _)|[_ Hj]]; [by left|]. right. by eapply list_elem_of_lookup_2. Qed.

Lemma at_core_elem {A} i (l : list (nat * A)) x : x ∈ at_core i l <-> (i, x) ∈ l.
Proof.
  unfold at_core. rewrite list_elem_of_omap. split.
  - intros ([j y] & Hin & Hd). simpl in Hd. destruct (decide (j = i)); by simplify_eq.
  - intros Hin. exists (i, x). split; [done|]. simpl. by rewrite decide_True.
Qed.

Lemma at_core_app {A} i (l l' : list (nat * A)) : at_core i (l ++ l') = at_core i l ++ at_core i l'.
Proof. apply omap_app. Qed.

(** ** Views of the log *)

Record same_view (i : nat) (w w' : CWorld) : Prop := {
  sv_opened : at_core i (opened w') = at_core i (opened w);
  sv_issued : at_core i (issued w') = at_core i (issued w);
  sv_dead : at_core i (dead_pins w') = at_core i (dead_pins w);
  sv_ops : forall index, ledger_ops w' i index = ledger_ops w i index;
}.

Lemma same_log_view i w w' : cw_log w' = cw_log w -> same_view i w w'.
Proof. intros E. split; unfold opened, issued, dead_pins, ledger_ops; by rewrite E. Qed.

Lemma opened_view i w w' : same_view i w w' -> forall e, (i, e) ∈ opened w' <-> (i, e) ∈ opened w.
Proof. intros H e. by rewrite <- !at_core_elem, (sv_opened _ _ _ H). Qed.

Lemma core_in_view i c w w' : same_view i w w' -> core_in i c w -> core_in i c w'.
Proof.
  intros Hv [[Hc (H1 & H2 & H3 & H4)]|[R1 R2 R3 R4 R5 R6]]; pose proof (opened_view _ _ _ Hv) as Ho;
    destruct Hv as [V1 V2 V3 V4].
  - left. split; [done|]. split_and!; rewrite ?V1, ?V2, ?V3; try done. intros index. by rewrite V4.
  - right. split; rewrite ?V2, ?V3; try done.
    + by apply Ho.
    + intros e He%Ho. by apply R3.
    + intros p Hp. by apply Ho, R5.
    + intros index. by rewrite V4.
Qed.

(** Events that only core [i] notices, and that open nothing. *)
Definition about (i : nat) (e : CEvent) : Prop :=
  match e with
  | EvGrant _ => False
  | EvOpen j (MkOpen st _) => j = i /\ st <> ChOk
  | EvPin j _ | EvUnpin j _ _ | EvRequest j _ _ | EvLedger j _ _ _ | EvDrain j _ => j = i
  | EvCleanup _ => True
  end.

Definition logged (w : CWorld) (evs : list CEvent) : CWorld :=
  MkCWorld (cw_k w) (cw_cores w) (cw_calls w) (cw_bundles w) (evs ++ cw_log w).

Lemma about_views i evs w w' :
  Forall (about i) evs -> cw_log w' = evs ++ cw_log w ->
  granted w' = granted w /\ opened w' = opened w /\ forall j, j <> i -> same_view j w w'.
Proof.
  intros Hab Hlog.
  assert (omap granted_of evs = [] /\ omap opened_of evs = []
          /\ (forall j, j <> i -> at_core j (omap issued_of evs) = [] /\ at_core j (omap dead_of evs) = []
              /\ forall index, omap (op_of j index) evs = [])) as (E1 & E2 & E3).
  { clear Hlog. induction Hab as [|e evs He _ (IH1 & IH2 & IH3)]; [done|].
    split_and!.
    - by destruct e.
    - destruct e as [|j [st ?]| | | | | |]; try done. destruct He as [_ Hst]. simpl. by destruct st.
    - intros j Hj. destruct (IH3 j Hj) as (I1 & I2 & I3). split_and!.
      + destruct e as [| |j' [st p]| | | | |]; try done. simpl in He. subst j'. simpl.
        destruct st; try done. unfold at_core in *. simpl. by rewrite decide_False.
      + destruct e as [| | |j' p st| | | |]; try done. simpl in He. subst j'. simpl.
        destruct st; try done. unfold at_core in *. simpl. by rewrite decide_False.
      + intros index. destruct e as [| | | | |j' index' o r| |]; try by simpl. simpl in *. subst j'.
        rewrite decide_False by naive_solver. apply I3. }
  unfold granted, opened, issued, dead_pins, ledger_ops. rewrite Hlog. rewrite !omap_app, E1, E2. simpl.
  split; [done|]. split; [done|]. intros j Hj. destruct (E3 j Hj) as (I1 & I2 & I3).
  split; unfold opened, issued, dead_pins, ledger_ops; rewrite ?Hlog, ?omap_app.
  - by rewrite E2.
  - by rewrite at_core_app, I1.
  - by rewrite at_core_app, I2.
  - intros index. by rewrite omap_app, I3.
Qed.

#[export] Instance held_proper : Proper ((≡ₚ) ==> (≡ₚ) ==> (≡ₚ) ==> eq ==> iff) held.
Proof. intros rs rs' Hr cl cl' Hc g g' Hg k k' <-. unfold held. by rewrite Hr, Hc, Hg. Qed.

(** ** Steps of one core *)

(** What a drain in flight relies on of its core. *)
Definition drive_kept (c c' : ChannelCore) : Prop :=
  core_state c' = core_state c /\ drain_driver_active c' = drain_driver_active c
  /\ channel_epoch c' = channel_epoch c /\ core_ports c' = core_ports c /\ core_tables c' = core_tables c
  /\ (core_state c = CoreDraining -> core_operations c = 0 -> core_operations c' = 0).

Lemma drive_ok_kept c c' d s : ready_ok c' -> drive_kept c c' -> drive_ok c d s -> drive_ok c' d s.
Proof.
  intros Hr (K1 & K2 & K3 & K4 & K5 & K6) [D1 D2 D3 D4 D5 D6 D7]. split; try congruence; try done.
  intros Hf. destruct (D6 Hf) as [E1 E2]. split; [congruence | auto].
Qed.

Lemma bind_same {A B} (f : A -> list B) (l : list A) i x y :
  l !! i = Some x -> f y ≡ₚ f x -> (<[i := y]> l) ≫= f ≡ₚ l ≫= f.
Proof. intros Hi Hf. by rewrite (bind_insert f l i x y Hi), (bind_delete f l i x Hi), Hf. Qed.

Lemma claimed_not_ready : ~ ready_ok claimed_core.
Proof. intros [H _ _ _ _ _ _ _]. done. Qed.
Lemma zero_not_claimed : zero_core <> claimed_core.
Proof. intros H. by apply (f_equal core_initialized) in H. Qed.
Lemma zero_not_ready : ~ ready_ok zero_core.
Proof. intros [H _ _ _ _ _ _ _]. done. Qed.

Lemma ready_core w i c : channel_ok w -> cw_cores w !! i = Some c -> ready_ok c -> ready_in i c w.
Proof.
  intros Hw Hc Hr. destruct (ck_cores _ Hw i c Hc) as [[[-> | ->] _]|H]; [| |done].
  - by apply zero_not_ready in Hr.
  - by apply claimed_not_ready in Hr.
Qed.

Lemma epochs_same w w' :
  epochs_ok w -> k_next_epoch (cw_k w') = k_next_epoch (cw_k w) -> opened w' = opened w ->
  omap numbered (cw_calls w') ≡ₚ omap numbered (cw_calls w) -> epochs_ok w'.
Proof.
  intros [H1 H2 H3] E1 E2 E3. split.
  - by rewrite E1.
  - by rewrite E2, E3.
  - intros e. rewrite E1, E2, E3. apply H3.
Qed.

(** A published core changes, and the log with it. *)
Lemma step_core w i c c' evs :
  channel_ok w -> cw_cores w !! i = Some c -> ready_ok c ->
  ready_in i c' (set_core w i c' evs) -> core_res c' = core_res c -> drive_kept c c' ->
  Forall (about i) evs -> Forall event_fine evs -> channel_ok (set_core w i c' evs).
Proof.
  intros Hw Hc Hr Hr' Hres Hk Hab Hfine.
  destruct (about_views i evs w (set_core w i c' evs) Hab eq_refl) as (Eg & Eo & Ev).
  pose proof Hw as [H1 H2 H3 H4 H5 H6 H7 H8 H9 H10].
  assert (length (<[i := c']> (cw_cores w)) = length (cw_cores w)) as Hlen by apply length_insert.
  split; simpl; try done.
  - intros j cj [(<- & -> & _)|[Hne Hj]]%list_lookup_insert_Some; [by right|].
    eapply core_in_view; [|by apply H1]. apply Ev. congruence.
  - intros x Hx. specialize (H2 x Hx). destruct x as [j [previous|] stage|j d s]; simpl in *.
    + by rewrite Eo.
    + rewrite list_lookup_insert_ne; [done|]. intros ->. rewrite Hc in H2. injection H2 as ->.
      by apply claimed_not_ready in Hr.
    + destruct H2 as (cj & Hj & Hd). destruct (decide (i = j)) as [<-|Hne].
      * exists c'. split; [apply list_lookup_insert_eq; by eapply lookup_lt_Some|].
        rewrite Hc in Hj. injection Hj as <-. eapply drive_ok_kept; [apply Hr' | done | done].
      * exists cj. by rewrite list_lookup_insert_ne.
  - intros j cj [(<- & -> & _)|[Hne Hj]]%list_lookup_insert_Some Hrj Hact; [|by eapply H5].
    apply (H5 i c Hc Hr). destruct Hk as (_ & <- & _). done.
  - rewrite Eg. unfold owned, closed_tables in *. simpl. rewrite (bind_same core_res _ i c c' Hc) by by rewrite Hres. done.
  - by apply (epochs_same w).
  - intros j e. rewrite Eo, Hlen. apply H9.
  - by apply Forall_app.
Qed.

(** A call that changes nothing but the log. *)
Lemma step_say w i e :
  channel_ok w -> about i e -> event_fine e -> issued_of e = None -> dead_of e = None ->
  (forall j index, op_of j index e = None) -> channel_ok (say w e).
Proof.
  intros Hw Hab Hf Hi Hd Ho.
  assert (Forall (about i) [e]) as Hab' by by constructor.
  destruct (about_views i [e] w (say w e) Hab' eq_refl) as (Eg & Eo & Ev).
  assert (forall j, same_view j w (say w e)) as Hv.
  { intros j. split; unfold opened, issued, dead_pins, ledger_ops in *; simpl in *.
    - by rewrite Eo.
    - by rewrite Hi.
    - by rewrite Hd.
    - intros index. by rewrite Ho. }
  destruct Hw as [H1 H2 H3 H4 H5 H6 H7 H8 H9 H10]. split; simpl; try done.
  - intros j c Hc. eapply core_in_view; [apply Hv | by apply H1].
  - intros x Hx. specialize (H2 x Hx). destruct x as [j [previous|] stage|j d s]; simpl in *; try done. by rewrite Eo.
  - by rewrite Eg.
  - by apply (epochs_same w).
  - intros j e'. rewrite Eo. apply H9.
  - by constructor.
Qed.

(** ** Pins *)

Lemma pin_live_other c j s' active hint p :
  Z.to_nat (pin_slot p) <> j ->
  pin_live (with_operations c (<[j := s']> (operation_slots c)) active hint) p <-> pin_live c p.
Proof. intros Hne. unfold pin_live. simpl. by rewrite list_lookup_insert_ne by congruence. Qed.

Lemma pins_same c c' all dead :
  operation_slots c' = operation_slots c -> channel_epoch c' = channel_epoch c ->
  core_operations c' = core_operations c -> pins_fine c all dead -> pins_fine c' all dead.
Proof.
  intros E1 E2 E3 [P1 P2 P3 P4 P5 P6 P7 P8].
  split; unfold pin_live in *; rewrite ?E1, ?E2, ?E3; try done; intros *; rewrite ?E1, ?E2; eauto.
Qed.

Lemma pins_acquire c all dead s p hint :
  pins_fine c all dead -> 0 <= pin_slot p < 32 -> pin_epoch p = channel_epoch c ->
  operation_slots c !! Z.to_nat (pin_slot p) = Some s -> op_state s = OpFree ->
  pin_generation p = op_generation s + 1 ->
  pins_fine (with_operations c
    (<[Z.to_nat (pin_slot p) := MkOpSlot (pin_generation p) OpLive (pin_binding p)]> (operation_slots c))
    (core_operations c + 1) hint) (p :: all) dead.
Proof.
  intros [P1 P2 P3 P4 P5 P6 P7 P8] Hr He Hs Hf Hg. pose proof (lookup_lt_Some _ _ _ Hs) as Hlt.
  assert (forall q, q ∈ all -> Z.to_nat (pin_slot q) = Z.to_nat (pin_slot p) -> pin_generation q < pin_generation p) as Hold.
  { intros q Hq E. destruct (P4 q Hq) as (_ & sq & Hsq & Hgq). rewrite E, Hs in Hsq. injection Hsq as <-. lia. }
  assert (p ∉ all) as Hnew. { intros Hin. specialize (Hold p Hin eq_refl). lia. }
  split; try done.
  - by constructor.
  - intros q Hq. right. by apply P3.
  - intros q [->|Hq]%elem_of_cons.
    + split; [done|]. eexists. simpl. rewrite list_lookup_insert_eq by done. by split; [|simpl].
    + destruct (P4 q Hq) as (Hrq & sq & Hsq & Hgq). split; [done|]. simpl.
      destruct (decide (Z.to_nat (pin_slot q) = Z.to_nat (pin_slot p))) as [E|E].
      * specialize (Hold q Hq E). rewrite E, list_lookup_insert_eq by done. eexists. split; [done|]. simpl. lia.
      * rewrite list_lookup_insert_ne by congruence. by exists sq.
  - intros q [->|Hq]%elem_of_cons Hd.
    + split_and!; try done; try lia. simpl. by rewrite list_lookup_insert_eq.
    + pose proof (P5 q Hq Hd) as Hl. apply pin_live_other; [|done]. intros E.
      destruct Hl as (_ & _ & Hl). rewrite E, Hs in Hl. injection Hl as ->. done.
  - intros q Hq Hl. specialize (P6 q Hq). destruct (decide (Z.to_nat (pin_slot q) = Z.to_nat (pin_slot p))) as [E|E].
    + destruct Hl as (_ & _ & Hl). simpl in Hl. rewrite E, list_lookup_insert_eq in Hl by done.
      injection Hl as Hgen _. specialize (Hold q (P3 q Hq) E). lia.
    + apply pin_live_other in Hl; done.
  - intros j sj Hj Hlive. simpl in Hj. apply list_lookup_insert_Some in Hj as [(<- & <- & _)|[Hne Hj]].
    + simpl. rewrite Z2Nat.id by lia. rewrite <- He. destruct p. left.
    + right. by apply P7.
  - simpl. lia.
Qed.

Lemma pins_release c all dead p s' hint :
  pins_fine c all dead -> pin_live c p -> op_state s' <> OpLive -> op_generation s' = pin_generation p ->
  pins_fine (with_operations c (<[Z.to_nat (pin_slot p) := s']> (operation_slots c)) (core_operations c - 1) hint)
    all (p :: dead).
Proof.
  intros [P1 P2 P3 P4 P5 P6 P7 P8] Hlive Hs' Hg. pose proof Hlive as (Hr & He & Hs).
  pose proof (lookup_lt_Some _ _ _ Hs) as Hlt.
  assert (p ∈ all) as Hin.
  { specialize (P7 _ _ Hs eq_refl). simpl in P7. rewrite Z2Nat.id, <- He in P7 by lia. by destruct p. }
  assert (forall q, ~ (Z.to_nat (pin_slot q) = Z.to_nat (pin_slot p)
            /\ pin_live (with_operations c (<[Z.to_nat (pin_slot p) := s']> (operation_slots c)) (core_operations c - 1) hint) q))
    as Hnone.
  { intros q [E (_ & _ & Hq)]. simpl in Hq. rewrite E, list_lookup_insert_eq in Hq by done. by injection Hq as ->. }
  split; try done.
  - constructor; [|done]. intros Hd. by apply (P6 p Hd).
  - intros q [->|Hq]%elem_of_cons; [done | by apply P3].
  - intros q Hq. destruct (P4 q Hq) as (Hrq & sq & Hsq & Hgq). split; [done|]. simpl.
    destruct (decide (Z.to_nat (pin_slot q) = Z.to_nat (pin_slot p))) as [E|E].
    + rewrite E, Hs in Hsq. injection Hsq as <-. simpl in Hgq. rewrite E, list_lookup_insert_eq by done.
      eexists. split; [done|]. lia.
    + rewrite list_lookup_insert_ne by congruence. by exists sq.
  - intros q Hq [Hne Hd]%not_elem_of_cons. pose proof (P5 q Hq Hd) as Hl. apply pin_live_other; [|done]. intros E.
    apply Hne. destruct Hl as (Hrq & Heq & Hl). rewrite E, Hs in Hl. injection Hl as E1 E2. destruct p, q. simpl in *.
    f_equal; lia.
  - intros q Hq Hl. destruct (decide (Z.to_nat (pin_slot q) = Z.to_nat (pin_slot p))) as [E|E]; [by eapply Hnone|].
    apply pin_live_other in Hl; [|done]. apply elem_of_cons in Hq as [->|Hq]; [done | by apply (P6 q)].
  - intros j sj Hj Hl. simpl in Hj. apply list_lookup_insert_Some in Hj as [(<- & <- & _)|[Hne Hj]]; [done|].
    simpl. by apply P7.
  - simpl. lia.
Qed.

(** ** Sections on a published core *)

Lemma set_core_same w i c e : cw_cores w !! i = Some c -> set_core w i c [e] = say w e.
Proof. intros Hc. unfold set_core, say. by rewrite list_insert_id. Qed.

(** A core is published, or every call on it is refused. *)
Lemma core_cases w i c :
  channel_ok w -> cw_cores w !! i = Some c -> ready_in i c w \/ ReadyStatus (Some c) = ChNotInitialized.
Proof.
  intros Hw Hc. destruct (ck_cores _ Hw i c Hc) as [[[-> | ->] _]|H]; [by right.. | by left].
Qed.

Lemma quiet_say w i e :
  channel_ok w -> about i e -> event_fine e ->
  match e with EvPin _ (MkPinResult st _) | EvUnpin _ _ st => st <> ChOk | EvLedger _ _ _ _ => False | _ => True end ->
  channel_ok (say w e).
Proof.
  intros Hw Ha Hf Hq. apply (step_say w i); try done.
  - destruct e as [| |j [st p]| | | | |]; try done. by destruct st.
  - destruct e as [| | |j p st| | | |]; try done. by destruct st.
  - intros j index. by destruct e.
Qed.

Lemma acquire_step w i epoch binding c :
  channel_ok w -> cw_cores w !! i = Some c -> channel_ok (do_acquire w i epoch binding c).
Proof.
  intros Hw Hc. unfold do_acquire. destruct (core_cases w i c Hw Hc) as [Hin|Hst].
  2: { unfold ChannelCoreAcquireOperation. rewrite Hst. simpl. rewrite set_core_same by done. by apply (quiet_say w i). }
  pose proof (acquire_spec c epoch binding (ri_ok _ _ _ Hin)) as Hspec.
  destruct (ChannelCoreAcquireOperation (Some c) epoch binding) as [c' [st p]].
  destruct Hspec as [(-> & Hno & Hnev)|(-> & Hopen & He & Hr & s & hint & Hs & Hf & Hg & -> & Hok)]; simpl.
  { rewrite set_core_same by done. by apply (quiet_say w i). }
  eapply step_core; try done; [apply Hin | | |by constructor | by constructor].
  - destruct Hin as [R1 R2 R3 R4 R5 R6]. split; try done.
    + unfold issued, dead_pins. simpl. rewrite decide_True by done. by eapply pins_acquire.
    + intros q. unfold issued, opened in *. simpl. rewrite decide_True by done.
      intros [->|Hq]%elem_of_cons; [by rewrite He | by apply R5].
  - split_and!; try done. by rewrite Hopen.
Qed.

Lemma release_step w i p c :
  channel_ok w -> cw_cores w !! i = Some c -> 0 <= pin_slot p -> channel_ok (do_release w i p c).
Proof.
  intros Hw Hc Hp. unfold do_release. destruct (core_cases w i c Hw Hc) as [Hin|Hst].
  2: { unfold ChannelCoreReleaseOperation. rewrite Hst. simpl. rewrite set_core_same by done. by apply (quiet_say w i). }
  pose proof (release_spec c p (ri_ok _ _ _ Hin) Hp) as Hspec.
  destruct (ChannelCoreReleaseOperation (Some c) p) as [c' st].
  destruct Hspec as [(-> & Hno & Hnev & _)|(-> & Hlive & s' & Hs' & Hg & -> & Hok)]; simpl.
  { rewrite set_core_same by done. by apply (quiet_say w i). }
  eapply step_core; try done; [apply Hin | | |by constructor | by constructor].
  - destruct Hin as [R1 R2 R3 R4 R5 R6]. split; try done.
    unfold issued, dead_pins. simpl. rewrite decide_True by done. by apply pins_release.
  - split_and!; try done. intros _ E. destruct Hlive as (_ & _ & Hs).
    destruct (live_not_drained c _ _ (ri_ok _ _ _ Hin) Hs eq_refl). lia.
Qed.

(** ** Requests *)

Lemma run_lops_snoc os o : forall l rs l1 r l2,
  run_lops l os = (rs, l1) -> exec_lop l1 o = (r, l2) -> run_lops l (os ++ [o]) = (rs ++ [r], l2).
Proof.
  induction os as [|o' os IH]; intros l rs l1 r l2 Hr He; cbn [run_lops app] in *.
  { injection Hr as <- <-. by rewrite He. }
  destruct (exec_lop l o') as [r' l'] eqn:E. destruct (run_lops l' os) as [rs' l''] eqn:E2.
  injection Hr as <- <-. by rewrite (IH _ _ _ _ _ E2 He).
Qed.

Lemma ledger_run_snoc c c' index ops o r :
  ledger_run c index ops -> lop_typed o ->
  exec_lop (nth_both (request_ledgers c) index) o = (r, nth_both (request_ledgers c') index) ->
  ledger_run c' index (ops ++ [(o, r)]).
Proof.
  intros [Hr Ht] Ho He. unfold ledger_run. rewrite !fmap_app. split.
  - by eapply run_lops_snoc.
  - apply Forall_app. by repeat constructor.
Qed.

Lemma request_step w i p d q c :
  channel_ok w -> cw_cores w !! i = Some c -> 0 <= pin_slot p -> channel_ok (do_request w i p d q c).
Proof.
  intros Hw Hc Hp. unfold do_request. destruct (core_cases w i c Hw Hc) as [Hin|Hst].
  2: { replace (request (Some c) p d q) with (Some c, (ChNotInitialized, NotInitialized)).
       - simpl. rewrite set_core_same by done. by apply (quiet_say w i).
       - destruct q; simpl; unfold ChannelCoreReserveRequest, ChannelCoreCommitRequest, ChannelCoreCancelRequest,
           ChannelCoreCompleteRequest; by rewrite Hst. }
  pose proof (request_spec c p d q (ri_ok _ _ _ Hin) Hp) as Hspec. set (index := ChannelCoreDirectionIndex d) in *.
  destruct (request (Some c) p d q) as [c' [st lst]].
  destruct Hspec as [(-> & Hno & Hnev)|(_ & _ & _ & r & l' & He & -> & Hok & -> & ->)]; cbn [default].
  { replace (reached st) with false by (by destruct st). rewrite set_core_same by done.
    apply (quiet_say w i); try done. by destruct st. }
  replace (reached (answer (res_status r))) with true by (by destruct (res_status r)). rewrite He. cbn [fst].
  eapply step_core; try done; [apply Hin | |by rewrite !Forall_cons|].
  - destruct Hin as [R1 R2 R3 R4 R5 R6]. split; try done; [by apply (pins_same c)|]. intros j. unfold ledger_ops. simpl.
    destruct (decide (i = i /\ index = j)) as [[_ <-]|Hne].
    + rewrite reverse_cons. eapply ledger_run_snoc; [apply R6 | by destruct q|]. by rewrite He; simpl; rewrite nth_set_same.
    + specialize (R6 j). unfold ledger_run, ledger_ops in *. simpl. by rewrite nth_set_other by naive_solver.
  - constructor; [|by constructor]. by destruct (res_status r).
Qed.

(** ** Calls in flight *)

(** At most one call of a kind per core. *)
Lemma only_call {A B} (f : A -> option B) (l : list A) n x y b :
  NoDup (omap f l) -> l !! n = Some x -> f x = Some b -> y ∈ delete n l -> f y <> Some b.
Proof.
  intros Hnd Hn Hx Hy Hf. rewrite (delete_Permutation l n x Hn) in Hnd. simpl in Hnd. rewrite Hx in Hnd.
  apply NoDup_cons in Hnd as [Hnot _]. apply Hnot. apply list_elem_of_omap. by exists y.
Qed.

Lemma omap_delete_nodup {A B} (f : A -> option B) (l : list A) n : NoDup (omap f l) -> NoDup (omap f (delete n l)).
Proof.
  intros Hnd. destruct (l !! n) as [x|] eqn:Hn.
  - rewrite (delete_Permutation l n x Hn) in Hnd. simpl in Hnd. destruct (f x); [by apply NoDup_cons in Hnd as [_ ?] | done].
  - replace (delete n l) with l; [done|]. clear Hnd. revert n Hn.
    induction l as [|a l IH]; intros [|n] Hn; try done. simpl in *. by rewrite <- (IH n Hn).
Qed.

Lemma omap_insert_same {A B} (f : A -> option B) (l : list A) n x y :
  l !! n = Some x -> f y = f x -> omap f (<[n := y]> l) = omap f l.
Proof.
  revert n. induction l as [|a l IH]; intros [|n] Hn Hf; simplify_eq/=; [by rewrite Hf|].
  by rewrite (IH n Hn Hf).
Qed.

Lemma grants_silent {B} (f : CEvent -> option B) (gs : list ResourceKey) :
  (forall g, f (EvGrant g) = None) -> omap f (EvGrant <$> gs) = [].
Proof. intros Hf. induction gs as [|g gs IH]; [done|]. rewrite fmap_cons. cbn. rewrite Hf. exact IH. Qed.

Lemma grants_all (gs : list ResourceKey) : omap granted_of (EvGrant <$> gs) = gs.
Proof. induction gs as [|g gs IH]; [done|]. rewrite fmap_cons. cbn. f_equal. exact IH. Qed.

(** A call moves on to its next section without touching a core. *)
Lemma replace_call w n x x' k' gs :
  let w' := MkCWorld k' (cw_cores w) (<[n := x']> (cw_calls w)) (cw_bundles w) ((EvGrant <$> gs) ++ cw_log w) in
  channel_ok w -> cw_calls w !! n = Some x -> init_of x' = init_of x -> drain_of x' = drain_of x -> call_in w x' ->
  held (owned w') (closed_tables w') (gs ++ granted w) k' -> epochs_ok w' -> channel_ok w'.
Proof.
  intros w' [H1 H2 H3 H4 H5 H6 H7 H8 H9 H10] Hn Hi Hd Hx Hheld Hep.
  assert (granted w' = gs ++ granted w /\ opened w' = opened w /\ forall j, same_view j w w') as (Eg & Eo & Ev).
  { unfold w', granted, opened. simpl. rewrite !omap_app.
    split; [by rewrite grants_all|]. split; [by rewrite grants_silent|].
    intros j. split; unfold opened, issued, dead_pins, ledger_ops; simpl; intros; by rewrite omap_app, grants_silent. }
  assert (forall y, call_in w y -> call_in w' y) as Hc.
  { intros [j [previous|] stage|j d s]; simpl; [by rewrite Eo | done | done]. }
  split; try done.
  - intros j c Hj. eapply core_in_view; [apply Ev | by apply H1].
  - intros y [->|Hy]%elem_insert; apply Hc; [done | by apply H2].
  - simpl. by rewrite (omap_insert_same _ _ _ x).
  - simpl. by rewrite (omap_insert_same _ _ _ x).
  - intros j c Hj Hr Ha. simpl. rewrite (omap_insert_same _ _ _ x) by done. by eapply H5.
  - by rewrite Eg.
  - intros j e. rewrite Eo. apply H9.
  - simpl. apply Forall_app. split; [|done]. by apply Forall_fmap, Forall_true.
Qed.

(** A call ends with a section on its core. *)
Lemma finish_call w n x i c c' k' bundles evs :
  let w' := MkCWorld k' (<[i := c']> (cw_cores w)) (delete n (cw_calls w)) bundles (evs ++ cw_log w) in
  channel_ok w -> cw_calls w !! n = Some x -> cw_cores w !! i = Some c ->
  core_in i c' w' -> (forall j, j <> i -> same_view j w w') ->
  (forall e, (i, e) ∈ opened w -> (i, e) ∈ opened w') ->
  (forall stage, COpen i None stage ∈ delete n (cw_calls w) -> False) ->
  (forall d s, CDrain i d s ∈ delete n (cw_calls w) -> drive_ok c' d s) ->
  (ready_ok c' -> drain_driver_active c' = 1 -> i ∈ omap drain_of (delete n (cw_calls w))) ->
  (drain_of x = None \/ drain_of x = Some i) ->
  held (owned w') (closed_tables w') (granted w') k' -> (forall b, b ∈ bundles -> cl_epoch b <> 0) ->
  epochs_ok w' -> Forall event_fine evs -> channel_ok w'.
Proof.
  intros w' [H1 H2 H3 H4 H5 H6 H7 H8 H9 H10] Hn Hc Hin Hv Hop Hni Hnd Hdrv Hdx Hheld Hb Hep Hf.
  assert (forall j e, (j, e) ∈ opened w -> (j, e) ∈ opened w') as Hmono.
  { intros j e He. destruct (decide (j = i)) as [->|Hne]; [by apply Hop|]. by apply (opened_view _ _ _ (Hv j Hne)). }
  split; simpl; try done.
  - intros j cj [(<- & -> & _)|[Hne Hj]]%list_lookup_insert_Some; [done|].
    eapply core_in_view; [apply Hv; congruence | by apply H1].
  - intros y Hy. pose proof (H2 y (elem_delete _ _ _ Hy)) as Hcy.
    destruct y as [j [previous|] stage|j d s]; simpl in *.
    + destruct Hcy as [Ho Hs]. by split; [apply Hmono|].
    + destruct (decide (i = j)) as [<-|Hne]; [by apply Hni in Hy|]. by rewrite list_lookup_insert_ne.
    + destruct (decide (i = j)) as [<-|Hne].
      * exists c'. split; [apply list_lookup_insert_eq; by eapply lookup_lt_Some | by apply Hnd].
      * destruct Hcy as (cj & Hj & Hd). exists cj. by rewrite list_lookup_insert_ne.
  - by apply omap_delete_nodup.
  - by apply omap_delete_nodup.
  - intros j cj [(<- & -> & _)|[Hne Hj]]%list_lookup_insert_Some Hr Ha; [by apply Hdrv|].
    specialize (H5 j cj Hj Hr Ha). apply list_elem_of_omap in H5 as (y & Hy & Hdy).
    rewrite (delete_Permutation _ n x Hn) in Hy. apply elem_of_cons in Hy as [->|Hy].
    + destruct Hdx as [E|E]; rewrite E in Hdy; [done|]. by injection Hdy as ->.
    + apply list_elem_of_omap. by exists y.
  - intros j e He. rewrite length_insert. destruct (decide (j = i)) as [->|Hne]; [by eapply lookup_lt_Some|].
    eapply H9. by apply (opened_view _ _ _ (Hv j Hne)).
  - by apply Forall_app.
Qed.

(** A new call begins, with the section on its core that begins it. *)
Lemma begin_call w x i c c' :
  let w' := MkCWorld (cw_k w) (<[i := c']> (cw_cores w)) (cw_calls w ++ [x]) (cw_bundles w) (cw_log w) in
  channel_ok w -> cw_cores w !! i = Some c ->
  core_in i c' w -> core_res c' = core_res c -> call_res x = [] -> call_closed x = [] -> numbered x = None ->
  call_in w' x -> (forall stage, COpen i None stage ∈ cw_calls w -> c' = claimed_core) ->
  (forall d s, CDrain i d s ∈ cw_calls w -> drive_ok c' d s) ->
  (forall j, init_of x = Some j -> j ∉ omap init_of (cw_calls w)) ->
  (forall j, drain_of x = Some j -> j ∉ omap drain_of (cw_calls w)) ->
  (ready_ok c' -> drain_driver_active c' = 1 -> i ∈ omap drain_of (cw_calls w ++ [x])) -> channel_ok w'.
Proof.
  intros w' [H1 H2 H3 H4 H5 H6 H7 H8 H9 H10] Hc Hin Hres Hcr Hcc Hnum Hx Hni Hnd Hi Hd Hdrv.
  assert (forall j, same_view j w w') as Hv by (intros j; by apply same_log_view).
  assert (forall B (f : Call -> option B), (forall b, f x = Some b -> b ∉ omap f (cw_calls w)) -> NoDup (omap f (cw_calls w)) ->
            NoDup (omap f (cw_calls w ++ [x]))) as Hsnoc.
  { intros B f Hf Hn. rewrite omap_app. simpl. destruct (f x) as [b|]; [|by rewrite app_nil_r].
    apply NoDup_app. split_and!; [done| |apply NoDup_singleton]. intros y Hy ->%list_elem_of_singleton. by apply (Hf b). }
  split; simpl; try done.
  - intros j cj [(<- & -> & _)|[Hne Hj]]%list_lookup_insert_Some; eapply core_in_view; try apply Hv; [done | by apply H1].
  - intros y [Hy| ->%list_elem_of_singleton]%elem_of_app; [|done]. pose proof (H2 y Hy) as Hcy.
    destruct y as [j [previous|] stage|j d s]; simpl in *; [done| |].
    + destruct (decide (i = j)) as [<-|Hne]; [|by rewrite list_lookup_insert_ne].
      rewrite list_lookup_insert_eq by (by eapply lookup_lt_Some). by rewrite (Hni _ Hy).
    + destruct (decide (i = j)) as [<-|Hne].
      * exists c'. split; [apply list_lookup_insert_eq; by eapply lookup_lt_Some | by apply Hnd].
      * destruct Hcy as (cj & Hj & Hdj). exists cj. by rewrite list_lookup_insert_ne.
  - by apply Hsnoc.
  - by apply Hsnoc.
  - intros j cj [(<- & -> & _)|[Hne Hj]]%list_lookup_insert_Some Hr Ha; [by apply Hdrv|].
    rewrite omap_app. apply elem_of_app. left. by eapply H5.
  - unfold owned, closed_tables in *. simpl. rewrite !bind_app. simpl. rewrite Hcr, Hcc, !app_nil_r.
    rewrite (bind_same core_res _ i c c' Hc) by by rewrite Hres. done.
  - apply (epochs_same w); try done. simpl. rewrite omap_app. simpl. by rewrite Hnum, app_nil_r.
  - intros j e He. rewrite length_insert. by eapply H9.
Qed.

(** ** What is held *)

Lemma held_closed rs cl g k : held rs cl g k -> forall a, a ∈ cl -> a ∈ rs ≫= tables_of.
Proof.
  intros Hk a Ha. destruct (kk_closed _ _ _ _ _ _ Hk a Ha) as (t & Ht & _).
  apply (kk_tables _ _ _ _ _ _ Hk). by eexists.
Qed.

Lemma held_nonnull r rs cl g k :
  held (r :: rs) cl g k ->
  ((res_ports r).1 <> 0 /\ (res_ports r).2 <> 0 /\ (res_ports r).1 <> (res_ports r).2)
  /\ ((res_tables r).1 <> 0 /\ (res_tables r).2 <> 0 /\ (res_tables r).1 <> (res_tables r).2).
Proof.
  intros Hk. pose proof (kk_nodup _ _ _ _ _ _ Hk) as (Hnp & Hnt & _). pose proof (kk_null _ _ _ _ _ _ Hk) as [H0p H0t].
  simpl in *. rewrite !not_elem_of_cons in H0p, H0t. rewrite !NoDup_cons, !not_elem_of_cons in Hnp, Hnt. naive_solver.
Qed.

Lemma held_attached r rs cl g k : held (r :: rs) cl g k -> attached r.
Proof.
  intros Hk. destruct (held_nonnull _ _ _ _ _ Hk) as [(P1 & P2 & P3) (T1 & T2 & T3)].
  destruct (uncharge_ok _ _ _ _ _ _ _ Hk) as [Hv _].
  unfold attached, AttachedResourcesAreCanonical. simpl. rewrite Hv. lia.
Qed.

Lemma held_release r rs cl g k :
  held (r :: rs) cl g k -> (forall a, a ∈ cl -> a ∈ rs ≫= tables_of) ->
  exists k', ReleasePreparedResources r k = Some (tt, k') /\ held rs cl g k' /\ k_next_epoch k' = k_next_epoch k.
Proof.
  intros Hk Hcl. destruct (held_nonnull _ _ _ _ _ Hk) as [(P1 & P2 & P3) (T1 & T2 & T3)].
  apply release_prepared_ok; [|done]. unfold held_ports, held_tables. rewrite !nonnull_some by done. exact Hk.
Qed.

Lemma held_set_epoch rs cl g k x : held rs cl g k -> held rs cl g (set_epoch k x).
Proof. intros [H1 H2 H3 H4 H5 H6 H7 H8 H9 H10 H11]. by split. Qed.

(** Closed tables belong to cores being drained and to detached bundles. *)
Lemma closed_owner w bundles :
  channel_ok w -> forall a, a ∈ (cw_calls w ≫= call_closed) ++ (bundles ≫= (fun b => tables_of (bundle_of b))) ->
  a ∈ ((cw_cores w ≫= core_res) ++ (bundle_of <$> bundles)) ≫= tables_of.
Proof.
  intros Hw a [Ha|Ha]%elem_of_app; rewrite bind_app; apply elem_of_app.
  - left. apply list_elem_of_bind in Ha as (x & Ha & Hx). pose proof (ck_calls _ Hw x Hx) as Hin.
    destruct x as [|i d [s|]]; simpl in Ha; try by apply elem_of_nil in Ha.
    destruct Hin as (c & Hc & [D1 D2 D3 D4 D5 D6 D7]).
    destruct (dd_finalize d) eqn:Hf; [|by apply elem_of_nil in Ha]. destruct (D6 eq_refl) as [E _].
    simpl in Ha. destruct (bool_decide _); [|by apply elem_of_nil in Ha]. rewrite E in Ha.
    apply list_elem_of_bind. exists (MkPrepared (core_ports c) (core_tables c) (core_charge c)). split; [done|].
    apply list_elem_of_bind. exists c. split; [|by eapply list_elem_of_lookup_2]. unfold core_res. rewrite D2. left.
  - right. apply list_elem_of_bind in Ha as (b & Ha & Hb). apply list_elem_of_bind. exists (bundle_of b).
    split; [done|]. by apply list_elem_of_fmap_2.
Qed.

(** What is left when the resources of a call in flight are set apart. *)
Lemma owned_call w n x r :
  cw_calls w !! n = Some x -> call_res x = [r] ->
  owned w ≡ₚ r :: (delete n (cw_calls w) ≫= call_res) ++ (cw_cores w ≫= core_res) ++ (bundle_of <$> cw_bundles w).
Proof. intros Hn Hr. unfold owned. rewrite (bind_delete call_res _ n x Hn), Hr. done. Qed.

Lemma closed_rest w n :
  channel_ok w -> forall a, a ∈ closed_tables w ->
  a ∈ ((delete n (cw_calls w) ≫= call_res) ++ (cw_cores w ≫= core_res) ++ (bundle_of <$> cw_bundles w)) ≫= tables_of.
Proof. intros Hw a Ha. rewrite bind_app. apply elem_of_app. right. by apply closed_owner. Qed.

(** ** Construction and reset *)

Lemma initialize_step w i domain c :
  channel_ok w -> cw_cores w !! i = Some c -> channel_ok (do_initialize w i domain c).
Proof.
  intros Hw Hc. unfold do_initialize, InitializeClaim.
  destruct (ResourceDomainKeyIsValid domain); cbn [negb];
    [|simpl; rewrite set_core_same by done; by apply (quiet_say w i)].
  destruct (ck_cores _ Hw i c Hc) as [[[-> | ->] Hs]|Hin].
  - change (CoreBodyIsCanonicalUninitialized zero_core) with true. cbn [negb].
    change (core_initialized zero_core =? kChannelCoreInitializeUninitialized) with true. cbn [negb default].
    apply (begin_call w _ i zero_core claimed_core); try done.
    + left. by split; [right|].
    + simpl. apply list_lookup_insert_eq. by eapply lookup_lt_Some.
    + intros d s Hx. destruct (ck_calls _ Hw _ Hx) as (c' & Hc' & [D1 _ _ _ _ _ _]). rewrite Hc in Hc'.
      injection Hc' as <-. by apply zero_not_ready in D1.
    + intros j [= <-] (x & Hx & Hi)%list_elem_of_omap. destruct x as [j' [|] st|]; try done. injection Hi as ->.
      pose proof (ck_calls _ Hw _ Hx) as E. simpl in E. rewrite Hc in E. apply (inj Some) in E. by apply zero_not_claimed in E.
  - simpl. rewrite set_core_same by done. by apply (quiet_say w i).
  - rewrite (rk_init _ (ri_ok _ _ _ Hin)). simpl. rewrite set_core_same by done. by apply (quiet_say w i).
Qed.

Lemma reset_begin_step w i domain c :
  channel_ok w -> cw_cores w !! i = Some c -> channel_ok (do_reset w i domain c).
Proof.
  intros Hw Hc. unfold do_reset, ResetBeginLocked. destruct (core_cases w i c Hw Hc) as [Hin|Hst].
  2: { rewrite Hst. by apply (quiet_say w i). }
  pose proof (ri_ok _ _ _ Hin) as Hr. rewrite (ready_status _ Hr), (ready_canonical _ Hr).
  destruct (ResourceDomainKeyIsValid domain); cbn [negb]; [|by apply (quiet_say w i)].
  destruct (bool_decide (core_state c = CoreDrained)); cbn [negb]; [|by apply (quiet_say w i)].
  unfold add_call. rewrite <- (list_insert_id (cw_cores w) i c Hc) at 1.
  apply (begin_call w _ i c c); try done.
  - by right.
  - split; [|done]. apply (ri_epoch _ _ _ Hin).
  - intros stage Hx. pose proof (ck_calls _ Hw _ Hx) as E. simpl in E. congruence.
  - intros d s Hx. destruct (ck_calls _ Hw _ Hx) as (c' & Hc' & Hd). by simplify_eq.
  - intros _ Ha. rewrite omap_app. apply elem_of_app. left. by eapply (ck_driver _ Hw).
Qed.

Lemma numbered_delete (l : list Call) n e : e ∈ omap numbered (delete n l) -> e ∈ omap numbered l.
Proof.
  intros (x & Hx & Hnum)%list_elem_of_omap. apply list_elem_of_omap. exists x. split; [by eapply elem_delete | done].
Qed.

Lemma epochs_fewer w w' n :
  epochs_ok w -> k_next_epoch (cw_k w') = k_next_epoch (cw_k w) -> opened w' = opened w ->
  cw_calls w' = delete n (cw_calls w) -> epochs_ok w'.
Proof.
  intros [E1 E2 E3] He Eo Ec. apply NoDup_app in E2 as (E2a & E2b & E2c). split.
  - by rewrite He.
  - rewrite Eo, Ec. apply NoDup_app. split_and!; [done | | by apply omap_delete_nodup].
    intros e H1 H2%numbered_delete. by apply (E2b e H1).
  - intros e. rewrite He, Eo, Ec. intros Hin. apply E3.
    apply elem_of_app in Hin as [?|Hin%numbered_delete]; apply elem_of_app; auto.
Qed.

(** A construction that is given up: the core of an initialization is
    storage again, the core of a reset is as it was. *)
Lemma abandon_step w n i previous stage k' gs status :
  channel_ok w -> cw_calls w !! n = Some (COpen i previous stage) -> never status = false -> status <> ChOk ->
  held ((delete n (cw_calls w) ≫= call_res) ++ (cw_cores w ≫= core_res) ++ (bundle_of <$> cw_bundles w))
    (closed_tables w) (gs ++ granted w) k' -> k_next_epoch k' = k_next_epoch (cw_k w) ->
  exists c, cw_cores w !! i = Some c /\ channel_ok
    (MkCWorld k' (<[i := match previous with None => zero_core | Some _ => c end]> (cw_cores w))
       (delete n (cw_calls w)) (cw_bundles w)
       ((EvOpen i (OpenFailure status) :: (EvGrant <$> gs)) ++ cw_log w)).
Proof.
  intros Hw Hn Hnev Hno Hk He. pose proof (ck_calls _ Hw _ (list_elem_of_lookup_2 _ _ _ Hn)) as Hcall.
  assert (exists c, cw_cores w !! i = Some c /\ (previous = None -> c = claimed_core)
            /\ (previous <> None -> ready_in i c w)) as (c & Hc & Hci & Hcr).
  { destruct previous as [p|]; simpl in Hcall; [|by exists claimed_core].
    destruct Hcall as [Ho _]. pose proof (ck_opened _ Hw i p Ho) as Hlt. apply lookup_lt_is_Some in Hlt as [c Hc].
    exists c. split; [done|]. split; [done|]. intros _. destruct (ck_cores _ Hw i c Hc) as [[_ (Hs & _)]|]; [|done].
    apply at_core_elem in Ho. rewrite Hs in Ho. by apply elem_of_nil in Ho. }
  exists c. split; [done|]. set (c' := match previous with None => zero_core | Some _ => c end).
  set (evs := EvOpen i (OpenFailure status) :: (EvGrant <$> gs)).
  set (w' := MkCWorld _ _ _ _ _).
  assert (granted w' = gs ++ granted w /\ opened w' = opened w /\ forall j, same_view j w w') as (Eg & Eo & Ev).
  { unfold w', evs, granted, opened. simpl. rewrite !omap_app.
    assert (forall st e, st <> ChOk -> opened_of (EvOpen i (MkOpen st e)) = None) as Hoe by (by intros [] e).
    simpl. split; [by rewrite grants_all|]. split; [by rewrite grants_silent; destruct status|].
    intros j. split; unfold opened, issued, dead_pins, ledger_ops; simpl; intros;
      rewrite omap_app, grants_silent by done; by destruct status. }
  assert (core_res c' = core_res c) as Hres by (destruct previous; [done | by rewrite (Hci eq_refl)]).
  change (channel_ok (MkCWorld k' (<[i := c']> (cw_cores w)) (delete n (cw_calls w)) (cw_bundles w) (evs ++ cw_log w))).
  apply (finish_call w n (COpen i previous stage) i c c' k' (cw_bundles w) evs); fold w'; try done.
  - eapply core_in_view; [apply Ev|]. destruct previous as [p|]; [right; by apply Hcr|].
    left. split; [by left|]. destruct (ck_cores _ Hw i c Hc) as [[_ ?]|Hr]; [done|].
    rewrite (Hci eq_refl) in Hr. by apply ri_ok, claimed_not_ready in Hr.
  - intros e. by rewrite Eo.
  - intros st Hx. destruct previous as [p|].
    + pose proof (ck_calls _ Hw _ (elem_delete _ _ _ Hx)) as E. simpl in E. rewrite Hc in E. apply (inj Some) in E.
      destruct (Hcr ltac:(done)) as [Hr _ _ _ _ _]. rewrite E in Hr. by apply claimed_not_ready in Hr.
    + by eapply (only_call init_of _ n _ _ i (ck_inits _ Hw) Hn eq_refl Hx).
  - intros d s Hx. destruct (ck_calls _ Hw _ (elem_delete _ _ _ Hx)) as (c2 & Hc2 & Hd). rewrite Hc in Hc2.
    apply (inj Some) in Hc2 as <-. destruct previous as [p|]; [done|]. destruct Hd as [Hr _ _ _ _ _ _].
    rewrite (Hci eq_refl) in Hr. by apply claimed_not_ready in Hr.
  - intros Hr Ha. destruct previous as [p|]; [|by apply zero_not_ready in Hr].
    pose proof (ck_driver _ Hw i c Hc Hr Ha) as Hin. rewrite (delete_Permutation _ n _ Hn) in Hin. done.
  - by left.
  - rewrite Eg. unfold w', owned, closed_tables. simpl.
    rewrite (bind_same core_res _ i c c' Hc) by by rewrite Hres.
    unfold closed_tables in Hk. by rewrite (bind_delete call_closed _ n _ Hn) in Hk.
  - apply (ck_bundles _ Hw).
  - by apply (epochs_fewer w _ n (ck_epochs _ Hw)).
  - constructor; [done|]. by apply Forall_fmap, Forall_true.
Qed.

Lemma owned_idle w n x : cw_calls w !! n = Some x -> call_res x = [] ->
  owned w ≡ₚ (delete n (cw_calls w) ≫= call_res) ++ (cw_cores w ≫= core_res) ++ (bundle_of <$> cw_bundles w).
Proof. intros Hn Hx. unfold owned. by rewrite (bind_delete call_res _ n x Hn), Hx. Qed.

Lemma alter_claimed w i c :
  cw_cores w !! i = Some c -> c = claimed_core ->
  alter (fun c => with_initialized c kChannelCoreInitializeUninitialized) i (cw_cores w) = <[i := zero_core]> (cw_cores w).
Proof.
  intros Hc ->. apply list_eq. intros j. destruct (decide (i = j)) as [<-|Hne].
  - rewrite list_lookup_alter_eq, Hc, list_lookup_insert_eq by (by eapply lookup_lt_Some). done.
  - by rewrite list_lookup_alter_ne, list_lookup_insert_ne.
Qed.

Lemma channel_prepare_step w n i previous domain b :
  channel_ok w -> cw_calls w !! n = Some (COpen i previous (Begun domain)) -> blocks_fresh (cw_k w) b ->
  exists w', do_prepare w n i previous domain b = Some w' /\ channel_ok w'.
Proof.
  intros Hw Hn Hb. unfold do_prepare. pose proof (ck_held _ Hw) as Hk.
  destruct (prepare_ok _ _ _ _ (held_closed _ _ _ _ Hk) _ _ domain b Hk Hb) as (st & r & k' & -> & He & Hcase).
  destruct Hcase as [(-> & Hg & _ & Hk')|(Hst & Hk')].
  - eexists. split; [done|]. apply (replace_call w n (COpen i previous (Begun domain))); try done.
    + pose proof (ck_calls _ Hw _ (list_elem_of_lookup_2 _ _ _ Hn)) as Hin. by destruct previous.
    + unfold owned, closed_tables. simpl. rewrite (bind_insert call_res _ n _ _ Hn), (bind_same call_closed _ n _ _ Hn) by done.
      simpl. change (held (r :: (delete n (cw_calls w) ≫= call_res) ++ (cw_cores w ≫= core_res) ++ (bundle_of <$> cw_bundles w))
        (closed_tables w) (grants domain (cw_k w) ++ granted w) k').
      rewrite <- (owned_idle w n _ Hn eq_refl). exact Hk'.
    + apply (epochs_same w); try done; [apply (ck_epochs _ Hw) | |].
      * unfold opened. simpl. by rewrite omap_app, grants_silent.
      * simpl. by rewrite (omap_insert_same _ _ _ (COpen i previous (Begun domain))).
  - assert (held (owned w) (closed_tables w) (grants domain (cw_k w) ++ granted w) k') as Hk2 by exact Hk'.
    rewrite (owned_idle w n _ Hn eq_refl) in Hk2.
    destruct (abandon_step w n i previous (Begun domain) k' (grants domain (cw_k w)) st Hw Hn) as (c & Hc & Hok); try done.
    1,2: by destruct Hst as [-> | ->].
    pose proof (ck_calls _ Hw _ (list_elem_of_lookup_2 _ _ _ Hn)) as Hin.
    destruct Hst as [-> | ->]; eexists; (split; [done|]); destruct previous; simpl in Hin |- *;
      rewrite ?(list_insert_id _ _ _ Hc) in Hok; try exact Hok; rewrite (alter_claimed w i c Hc) by congruence; exact Hok.
Qed.

Lemma number_step w n i previous r :
  channel_ok w -> cw_calls w !! n = Some (COpen i previous (Prepared r)) ->
  exists w', do_number w n i previous r = Some w' /\ channel_ok w'.
Proof.
  intros Hw Hn. unfold do_number, allocate_epoch, AllocateChannelEpoch.
  destruct (ck_epochs _ Hw) as [E1 E2 E3]. set (next := k_next_epoch (cw_k w)) in *.
  pose proof (ck_calls _ Hw _ (list_elem_of_lookup_2 _ _ _ Hn)) as Hin.
  assert (forall e x, (e = 0 /\ x = next \/ next <> 0 /\ e = next /\ x = if next =? u64_max then 0 else next + 1) ->
    channel_ok (set_kernel (put_call w n (COpen i previous (Numbered r e))) (set_epoch (cw_k w) x))) as Hstep.
  { intros e x Hex. apply (replace_call w n (COpen i previous (Prepared r)) _ (set_epoch (cw_k w) x) []); try done.
    - destruct previous as [p|]; [|done]. destruct Hin as [Ho _]. split; [done|].
      destruct Hex as [[-> _]|(Hnz & -> & _)]; [by left|]. right.
      apply E3; [|done]. apply elem_of_app. left. apply list_elem_of_fmap. by exists (i, p).
    - apply held_set_epoch. simpl. unfold owned, closed_tables. simpl.
      rewrite (bind_same call_res _ n _ _ Hn), (bind_same call_closed _ n _ _ Hn) by done. apply (ck_held _ Hw).
    - assert (omap numbered (<[n := COpen i previous (Numbered r e)]> (cw_calls w))
              ≡ₚ (if e =? 0 then [] else [e]) ++ omap numbered (cw_calls w)) as Hp.
      { rewrite (insert_perm _ _ _ _ Hn). simpl.
        rewrite (omap_Permutation numbered _ _ (delete_Permutation _ n _ Hn)). simpl. by destruct (e =? 0). }
      split; simpl; unfold kChannelEpochMaximum in *.
      + destruct Hex as [[_ ->]|(Hnz & _ & ->)]; [done|]. destruct (next =? u64_max) eqn:E; ulia.
      + rewrite Hp. destruct Hex as [[-> _]|(Hnz & -> & _)]; [done|]. replace (next =? 0) with false by lia. simpl.
        rewrite <- Permutation_middle. constructor; [|done]. intros Hin'%E3. lia.
      + intros e'. rewrite Hp. rewrite !elem_of_app. intros Hin'.
        assert (e' = e /\ e <> 0 \/ e' ∈ (opened w).*2 ++ omap numbered (cw_calls w)) as [[-> Hne]|Hold].
        { rewrite elem_of_app. destruct (e =? 0) eqn:Ee.
          - destruct Hin' as [?|[?%elem_of_nil|?]]; naive_solver.
          - destruct Hin' as [?|[?%list_elem_of_singleton|?]]; [naive_solver| |naive_solver]. left. split; [done | lia]. }
        * destruct Hex as [[-> _]|(Hnz & -> & ->)]; [done|]. split; [lia|]. destruct (next =? u64_max); lia.
        * destruct (E3 e' Hold) as [Hr Hlt]. split; [done|].
          destruct Hex as [[_ ->]|(Hnz & _ & ->)]; [done|]. specialize (Hlt Hnz). destruct (next =? u64_max); lia. }
  unfold kChannelEpochInvalid, kChannelEpochMaximum. fold next. destruct (next =? 0) eqn:E.
  - eexists. split; [done|]. apply Hstep. left. split; [lia | done].
  - eexists. split; [done|]. apply Hstep. right. split; [lia | done].
Qed.

Lemma pins_reopen c c' all dead :
  ready_ok c -> core_operations c = 0 -> operation_slots c' = operation_slots c ->
  core_operations c' = core_operations c -> pins_fine c all dead -> pins_fine c' all dead.
Proof.
  intros Hr H0 E1 E2 [P1 P2 P3 P4 P5 P6 P7 P8].
  assert (forall j s, operation_slots c !! j = Some s -> op_state s = OpLive -> False) as Hnone.
  { intros j s Hs Hl. destruct (live_not_drained c j s Hr Hs Hl). lia. }
  split; try done; rewrite ?E1, ?E2; try done.
  - intros p Hp Hd. exfalso. destruct (P5 p Hp Hd) as (_ & _ & Hs). by eapply Hnone.
  - intros p Hp (_ & _ & Hs). rewrite E1 in Hs. by eapply Hnone.
  - intros j s Hs Hl. exfalso. by eapply Hnone.
Qed.

(** A section that makes one operation on each ledger, as the ledgers see
    it. *)
Lemma both_ops w i j index e (ops : bool -> lop * lresult) k cores calls bundles :
  op_of j index e = None ->
  ledger_ops (MkCWorld k cores calls bundles
    ((e
      :: [EvLedger i true (ops true).1 (ops true).2; EvLedger i false (ops false).1 (ops false).2]) ++ cw_log w)) j index
  = ledger_ops w j index ++ (if decide (j = i) then [ops index] else []).
Proof.
  intros He. unfold ledger_ops. cbn [cw_log]. rewrite omap_app, reverse_app. f_equal. cbn [omap list_omap]. rewrite He.
  cbn [op_of].
  destruct (decide (j = i)) as [->|Hne].
  - destruct index.
    + rewrite decide_True by done. rewrite decide_False by (intros [_ ?]; done). by destruct (ops true).
    + rewrite decide_False by (intros [_ ?]; done). rewrite decide_True by done. by destruct (ops false).
  - rewrite !decide_False by (intros [-> _]; done). done.
Qed.

Lemma open_step w n i previous r epoch c l ops :
  let c' := open_core c r epoch l in
  let w' := MkCWorld (cw_k w) (<[i := c']> (cw_cores w)) (delete n (cw_calls w)) (cw_bundles w)
              ((EvOpen i (MkOpen ChOk epoch)
                :: [EvLedger i true (ops true).1 (ops true).2; EvLedger i false (ops false).1 (ops false).2]) ++ cw_log w) in
  channel_ok w -> cw_calls w !! n = Some (COpen i previous (Numbered r epoch)) -> cw_cores w !! i = Some c ->
  epoch <> 0 -> core_res c = [] -> (ready_ok c -> core_state c <> CoreDraining) ->
  (c = claimed_core -> previous = None) -> ready_ok c' ->
  pins_fine c' (at_core i (issued w)) (at_core i (dead_pins w)) ->
  (forall e, (i, e) ∈ opened w -> e <= epoch) ->
  (forall p, p ∈ at_core i (issued w) -> (i, pin_epoch p) ∈ opened w) ->
  (forall index, ledger_run c' index (ledger_ops w i index ++ [ops index])) -> channel_ok w'.
Proof.
  intros c' w' Hw Hn Hc He Hres Hnd Hcl Hr Hp Hlat Hpe Hled.
  assert (granted w' = granted w /\ opened w' = (i, epoch) :: opened w) as [Eg Eo] by done.
  apply (finish_call w n (COpen i previous (Numbered r epoch)) i c c' (cw_k w) (cw_bundles w)); fold w'; try done.
  - right. split; try done.
    + rewrite Eo. left.
    + intros e. rewrite Eo. intros [[= ->]|Hin]%elem_of_cons; [done|]. by apply Hlat.
    + intros p Hin. rewrite Eo. right. by apply Hpe.
    + intros index. specialize (Hled index). unfold w'. rewrite both_ops, decide_True by done. exact Hled.
  - intros j Hj. split.
    + rewrite Eo. unfold at_core. cbn. by rewrite decide_False by congruence.
    + done.
    + done.
    + intros index. unfold w'. by rewrite both_ops, decide_False, app_nil_r.
  - intros e He'. rewrite Eo. by right.
  - intros stage Hx. pose proof (ck_calls _ Hw _ (elem_delete _ _ _ Hx)) as E. simpl in E. rewrite Hc in E.
    apply (inj Some) in E. specialize (Hcl E). subst previous.
    by apply (only_call init_of _ n _ _ i (ck_inits _ Hw) Hn eq_refl Hx).
  - intros d s Hx. destruct (ck_calls _ Hw _ (elem_delete _ _ _ Hx)) as (c2 & Hc2 & [D1 D2 _ _ _ _ _]).
    rewrite Hc in Hc2. apply (inj Some) in Hc2 as <-. by apply Hnd in D1.
  - by left.
  - rewrite Eg. unfold w', owned, closed_tables. simpl. rewrite (bind_insert core_res _ i c c' Hc).
    replace (core_res c') with [r] by (by destruct r). pose proof (ck_held _ Hw) as Hk. unfold owned, closed_tables in Hk.
    rewrite (bind_delete call_res _ n _ Hn), (bind_delete call_closed _ n _ Hn), (bind_delete core_res _ i c Hc), Hres in Hk.
    simpl in *. rewrite <- Permutation_middle. exact Hk.
  - apply (ck_bundles _ Hw).
  - destruct (ck_epochs _ Hw) as [E1 E2 E3].
    assert ((opened w').*2 ++ omap numbered (cw_calls w') ≡ₚ (opened w).*2 ++ omap numbered (cw_calls w)) as Hperm.
    { rewrite Eo. simpl. rewrite (omap_Permutation numbered _ _ (delete_Permutation _ n _ Hn)). simpl.
      replace (epoch =? 0) with false by lia. by rewrite <- Permutation_middle. }
    split; [done | by rewrite Hperm|]. intros e. rewrite Hperm. apply E3.
  - by rewrite !Forall_cons.
Qed.
