(* ===== verification/ChannelCoreSteps.v ===== *)
(** * The channel core: every section keeps the system well formed

    The last sections of constructions, resets and drains, the release of
    detached bundles and the steps of the rest of the kernel, then the
    invariant of every reachable system. *)

From stdpp Require Import relations.
From S2P Require Import Prelude KObject HandleTable HandleTableSpec KMessagePort ObjectTransfer ObjectTransferSpec.
From S2P Require Import ResourceDomain ResourceDomainSpec RequestLedger RequestLedgerSpec.
From S2P Require Import ChannelCore ChannelResources ChannelCoreInv ChannelCoreSpec.

(** ** The end of a construction *)

(** The rollback of a construction that got its resources. *)
Lemma channel_give_up_step w n i previous r epoch c status :
  channel_ok w -> cw_calls w !! n = Some (COpen i previous (Numbered r epoch)) -> cw_cores w !! i = Some c ->
  never status = false -> status <> ChOk ->
  exists k', ReleasePreparedResources r (cw_k w) = Some (tt, k')
    /\ channel_ok (set_core (set_kernel (drop_call w n) k') i (match previous with None => zero_core | Some _ => c end)
                     [EvOpen i (OpenFailure status)]).
Proof.
  intros Hw Hn Hc Hnev Hno. pose proof (ck_held _ Hw) as Hk. rewrite (owned_call w n _ r Hn eq_refl) in Hk.
  destruct (held_release _ _ _ _ _ Hk (closed_rest w n Hw)) as (k' & Hrel & Hk' & He).
  exists k'. split; [done|].
  destruct (abandon_step w n i previous (Numbered r epoch) k' [] status Hw Hn) as (c2 & Hc2 & Hok); try done.
  rewrite Hc in Hc2. by injection Hc2 as <-.
Qed.

Lemma call_attached w n i previous r epoch :
  channel_ok w -> cw_calls w !! n = Some (COpen i previous (Numbered r epoch)) -> attached r.
Proof.
  intros Hw Hn. pose proof (ck_held _ Hw) as Hk. rewrite (owned_call w n _ r Hn eq_refl) in Hk.
  by eapply held_attached.
Qed.

Lemma call_epoch w n i previous r epoch :
  channel_ok w -> cw_calls w !! n = Some (COpen i previous (Numbered r epoch)) -> epoch <> 0 ->
  0 < epoch <= kChannelEpochMaximum.
Proof.
  intros Hw Hn He. destruct (ck_epochs _ Hw) as [_ _ E3]. apply E3, elem_of_app. right.
  apply list_elem_of_omap. exists (COpen i previous (Numbered r epoch)). split; [by eapply list_elem_of_lookup_2|].
  simpl. by replace (epoch =? 0) with false by lia.
Qed.

Lemma ledger_run_first w i index o r l :
  ledger_ops w i index = [] -> lop_typed o -> exec_lop zero_ledger o = (r, nth_both (request_ledgers l) index) ->
  ledger_run l index (ledger_ops w i index ++ [(o, r)]).
Proof.
  intros -> Ho He. split; [|by repeat constructor]. cbn [app fmap list_fmap run_lops fst snd]. by rewrite He.
Qed.

Lemma pins_none c : ready_ok c -> core_operations c = 0 -> pins_fine c [] [].
Proof.
  intros Hr H0. split; try done; try apply NoDup_nil_2; try by intros p ?%elem_of_nil.
  intros j s Hs Hl. exfalso. destruct (live_not_drained c j s Hr Hs Hl). lia.
Qed.

Lemma initialize_finish_step w n i r epoch :
  channel_ok w -> cw_calls w !! n = Some (COpen i None (Numbered r epoch)) ->
  exists w', do_finish w n i None r epoch claimed_core = Some w' /\ channel_ok w'.
Proof.
  intros Hw Hn. pose proof (ck_calls _ Hw _ (list_elem_of_lookup_2 _ _ _ Hn)) as Hc. simpl in Hc.
  unfold do_finish, InitializeFinish. destruct (epoch =? kChannelEpochInvalid) eqn:He.
  { destruct (channel_give_up_step w n i None r epoch claimed_core ChEpochExhausted Hw Hn Hc) as (k' & Hrel & Hok); try done.
    unfold kbind, kret. rewrite Hrel. eexists. split; [done | exact Hok]. }
  assert (epoch <> 0) as Hne by (unfold kChannelEpochInvalid in He; lia).
  pose proof (call_epoch _ _ _ _ _ _ Hw Hn Hne) as Hr.
  destruct (channel_publish_spec r epoch (call_attached _ _ _ _ _ _ Hw Hn) Hr) as (r0 & l0 & r1 & l1 & E0 & E1 & -> & Hok).
  assert (silent i w) as (S1 & S2 & S3 & S4).
  { destruct (ck_cores _ Hw i _ Hc) as [[_ Hs]|Hin]; [done|]. by apply ri_ok, claimed_not_ready in Hin. }
  unfold kret, open_ops. rewrite E0, E1. eexists. split; [done|].
  apply (open_step w n i None r epoch claimed_core (l0, l1)
    (fun b => if b then (LInitialize (identities epoch).2 1, r1) else (LInitialize (identities epoch).1 1, r0))); try done.
  - rewrite S2, S3. by apply pins_none.
  - intros e. rewrite <- at_core_elem, S1. by intros ?%elem_of_nil.
  - intros p. rewrite S2. by intros ?%elem_of_nil.
  - intros [|]; by apply ledger_run_first.
Qed.

Lemma reset_core w n i previous r epoch c :
  channel_ok w -> cw_calls w !! n = Some (COpen i (Some previous) (Numbered r epoch)) -> cw_cores w !! i = Some c ->
  ready_in i c w /\ (epoch <> 0 -> previous < epoch).
Proof.
  intros Hw Hn Hc. pose proof (ck_calls _ Hw _ (list_elem_of_lookup_2 _ _ _ Hn)) as [Ho Hlt].
  split; [|by destruct Hlt]. destruct (ck_cores _ Hw i c Hc) as [[_ (Hs & _)]|]; [|done].
  apply at_core_elem in Ho. rewrite Hs in Ho. by apply elem_of_nil in Ho.
Qed.

Lemma reset_finish_step w n i previous r epoch c :
  channel_ok w -> cw_calls w !! n = Some (COpen i (Some previous) (Numbered r epoch)) -> cw_cores w !! i = Some c ->
  exists w', do_finish w n i (Some previous) r epoch c = Some w' /\ channel_ok w'.
Proof.
  intros Hw Hn Hc. destruct (reset_core _ _ _ _ _ _ _ Hw Hn Hc) as [Hin Hlt].
  assert (forall status, never status = false -> status <> ChOk ->
    exists k', ReleasePreparedResources r (cw_k w) = Some (tt, k')
      /\ channel_ok (set_core (set_kernel (drop_call w n) k') i c [EvOpen i (OpenFailure status)])) as Hgive.
  { intros status. by apply (channel_give_up_step w n i (Some previous) r epoch). }
  unfold do_finish, ResetFinish. destruct (epoch =? kChannelEpochInvalid) eqn:He.
  { destruct (Hgive ChEpochExhausted) as (k' & Hrel & Hok); try done.
    unfold kbind, kret. rewrite Hrel. eexists. split; [done | exact Hok]. }
  assert (epoch <> 0) as Hne by (unfold kChannelEpochInvalid in He; lia). specialize (Hlt Hne).
  pose proof (call_epoch _ _ _ _ _ _ Hw Hn Hne) as Hr. replace (epoch <=? previous) with false by lia.
  pose proof (adopt_spec c previous epoch r (ri_ok _ _ _ Hin) (call_attached _ _ _ _ _ _ Hw Hn) ltac:(lia)) as Hspec.
  destruct (ResetAdoptLocked c previous epoch r) as [c' res].
  destruct Hspec as [(-> & -> & _)|(Hst & Hep & -> & r0 & l0 & r1 & l1 & E0 & E1 & -> & Hok)].
  { destruct (Hgive ChResetNotDrained) as (k' & Hrel & Hok); try done.
    rewrite bool_decide_eq_false_2 by done. unfold kbind, kret. rewrite Hrel. eexists. split; [done | exact Hok]. }
  unfold kret, open_ops. rewrite E0, E1. eexists. split; [done|].
  pose proof (rk_phase _ (ri_ok _ _ _ Hin)) as Hp. unfold phase_fine in Hp. rewrite Hst in Hp. destruct Hp as (H0 & _).
  apply (open_step w n i (Some previous) r epoch c (l0, l1)
    (fun b => if b then (LReset (identities epoch).2 1, r1) else (LReset (identities epoch).1 1, r0))); try done.
  - unfold core_res. by rewrite Hst.
  - by rewrite Hst.
  - intros E. pose proof (ri_ok _ _ _ Hin) as Hbad. rewrite E in Hbad. by apply claimed_not_ready in Hbad.
  - by apply (pins_reopen c); [apply Hin | | | | apply Hin].
  - intros e Ho. pose proof (ri_latest _ _ _ Hin e Ho). lia.
  - apply Hin.
  - intros [|]; apply (ledger_run_snoc c); try done; apply (ri_ledgers _ _ _ Hin).
Qed.

Lemma channel_finish_step w n i previous r epoch c :
  channel_ok w -> cw_calls w !! n = Some (COpen i previous (Numbered r epoch)) -> cw_cores w !! i = Some c ->
  exists w', do_finish w n i previous r epoch c = Some w' /\ channel_ok w'.
Proof.
  intros Hw Hn Hc. destruct previous as [previous|]; [by apply reset_finish_step|].
  pose proof (ck_calls _ Hw _ (list_elem_of_lookup_2 _ _ _ Hn)) as Hc2. simpl in Hc2. rewrite Hc in Hc2.
  injection Hc2 as ->. by apply initialize_finish_step.
Qed.

(** ** Drain *)

Lemma no_construction w i c stage :
  channel_ok w -> cw_cores w !! i = Some c -> ready_ok c -> COpen i None stage ∈ cw_calls w -> False.
Proof.
  intros Hw Hc Hr Hx. pose proof (ck_calls _ Hw _ Hx) as E. simpl in E. rewrite Hc in E. injection E as ->.
  by apply claimed_not_ready in Hr.
Qed.

(** Only a core with an active driver has a drain in flight. *)
Lemma drain_active w i c d s :
  channel_ok w -> cw_cores w !! i = Some c -> CDrain i d s ∈ cw_calls w -> drain_driver_active c = 1.
Proof.
  intros Hw Hc Hx. destruct (ck_calls _ Hw _ Hx) as (c' & Hc' & Hd). rewrite Hc in Hc'. injection Hc' as <-.
  apply Hd.
Qed.

Lemma core_res_attached c :
  ready_ok c -> core_state c <> CoreDrained -> core_res c = [MkPrepared (core_ports c) (core_tables c) (core_charge c)].
Proof.
  intros Hr Hnd. pose proof (rk_phase _ Hr) as Hp. unfold phase_fine in Hp. unfold core_res. by destruct (core_state c).
Qed.

(** A core that changes its phase only. *)
Lemma ready_in_phase i c c' w :
  ready_in i c w -> ready_ok c' -> operation_slots c' = operation_slots c -> channel_epoch c' = channel_epoch c ->
  core_operations c' = core_operations c -> request_ledgers c' = request_ledgers c -> ready_in i c' w.
Proof.
  intros [R1 R2 R3 R4 R5 R6] Hr E1 E2 E3 E4. split; rewrite ?E2; try done; [by apply (pins_same c)|].
  intros index. unfold ledger_run. rewrite E4. apply R6.
Qed.

Lemma channel_drain_step w i epoch enforce c :
  channel_ok w -> cw_cores w !! i = Some c -> channel_ok (do_drain w i epoch enforce c).
Proof.
  intros Hw Hc. unfold do_drain. destruct (core_cases w i c Hw Hc) as [Hin|Hst].
  2: { rewrite Hst. by apply (quiet_say w i). }
  pose proof (ri_ok _ _ _ Hin) as Hr. rewrite (ready_status _ Hr).
  pose proof (drain_begin_spec c epoch enforce Hr) as Hspec.
  destruct (DrainBeginLocked c epoch enforce) as [c' [res|d]].
  { destruct Hspec as (-> & _ & Hst). rewrite set_core_same by done. apply (quiet_say w i); try done.
    unfold event_fine. by destruct Hst as [(-> & _)|[(-> & _)|(-> & _)]]. }
  destruct Hspec as (-> & Hr' & Hnd & H0 & Hd).
  assert (forall d s, CDrain i d s ∈ cw_calls w -> False) as Hno.
  { intros d0 s0 Hx. pose proof (drain_active _ _ _ _ _ Hw Hc Hx). lia. }
  apply (begin_call w _ i c (begun_drain c)); try done.
  - right. by apply (ready_in_phase i c).
  - by rewrite !core_res_attached.
  - exists (begun_drain c). split; [apply list_lookup_insert_eq; by eapply lookup_lt_Some|]. subst d. split; try done.
    simpl. intros E. rewrite E. split; [done|]. lia.
  - intros stage Hx. by eapply no_construction in Hx.
  - intros d0 s0 Hx. by apply Hno in Hx.
  - intros j [= <-] (x & Hx & Hdx)%list_elem_of_omap. destruct x as [|j d0 s0]; [done|]. injection Hdx as ->. by apply Hno in Hx.
  - intros _ _. rewrite omap_app. apply elem_of_app. right. left.
Qed.

(** A table that no import uses. *)
Definition table_idle (k : Kernel) (a : Z) : Prop := forall t, k_tables k !! a = Some t -> xt_active t = 0.

Lemma idle_ok ps ts cl cs g k a t :
  kernel_ok ps ts cl cs g k -> table_idle k a -> k_tables k !! a = Some t -> xtable_ok [] t.
Proof.
  intros Hk Hi Ht. destruct (kk_table _ _ _ _ _ _ Hk a t Ht) as [[fl Hx] _]. pose proof (xk_active _ _ Hx) as Ha.
  rewrite (Hi t Ht) in Ha. by destruct fl.
Qed.

(** The closes, on what the channels hold. *)
Lemma drain_close_ok rs r cl g k d :
  held rs cl g k -> r ∈ rs -> dd_ports d = res_ports r -> (dd_finalize d = true -> dd_tables d = res_tables r) ->
  exists s k', DrainClose d k = Some (s, k') /\ k_next_epoch k' = k_next_epoch k
    /\ settled_answer s.1 /\ settled_answer s.2
    /\ held rs ((if dd_finalize d && bool_decide (s = (XferOk, XferOk)) then [(dd_tables d).1; (dd_tables d).2] else []) ++ cl) g k'
    /\ (dd_finalize d = true -> (dd_tables d).1 <> (dd_tables d).2 -> table_idle k (dd_tables d).1 ->
        table_idle k (dd_tables d).2 -> s = (XferOk, XferOk)).
Proof.
  intros Hk Hr Hp Ht. unfold DrainClose.
  assert (forall a, a ∈ ports_of r -> a ∈ rs ≫= ports_of) as Hin by (intros a Ha; apply list_elem_of_bind; eauto).
  assert (forall a, a ∈ tables_of r -> a ∈ rs ≫= tables_of) as Htin by (intros a Ha; apply list_elem_of_bind; eauto).
  destruct (port_close_ok _ _ _ _ _ _ (dd_ports d).1 Hk) as (p0 & E0 & Hk0); [apply Hin; rewrite Hp; left|].
  destruct (port_close_ok _ _ _ _ _ _ (dd_ports d).2 Hk0) as (p1 & E1 & Hk1); [apply Hin; rewrite Hp; right; left|].
  unfold kbind at 1. rewrite E0. unfold kbind at 1. rewrite E1. destruct (dd_finalize d).
  2: { eexists _, _. split; [done|]. split; [done|]. split; [by right|]. split; [by right|]. split; [exact Hk1 | done]. }
  specialize (Ht eq_refl).
  destruct (table_close_ok _ _ _ _ _ _ (dd_tables d).1 Hk1) as (s0 & k2 & t0 & Ht0 & T0 & Hs0 & Hok0 & _ & Ep2 & Hsame);
    [apply Htin; rewrite Ht; left|].
  assert (exists cl', (cl' = cl \/ cl' = (dd_tables d).1 :: cl) /\ (s0 = XferOk -> cl' = (dd_tables d).1 :: cl) /\
    kernel_ok (rs ≫= ports_of) (rs ≫= tables_of) cl' (res_charge <$> rs) g k2) as (cl' & Hcl & Hcl2 & Hk2).
  { destruct Hs0 as [[-> ?]|[-> ?]]; [eexists _; split_and!; [right|..]; done | exists cl; split_and!; [left|..]; done]. }
  destruct (table_close_ok _ _ _ _ _ _ (dd_tables d).2 Hk2) as (s1 & k3 & t1 & Ht1 & T1 & Hs1 & Hok1 & _ & Ep3 & _);
    [apply Htin; rewrite Ht; right; left|].
  exists (s0, s1), k3. unfold kbind, kret. rewrite T0, T1. split; [done|]. split; [by rewrite Ep3, Ep2|].
  split; [destruct Hs0 as [[? _]|[? _]]; [by left | by right]|].
  split; [destruct Hs1 as [[? _]|[? _]]; [by left | by right]|]. simpl. split.
  2: { intros _ Hne Hi0 Hi1. rewrite Hsame in Ht1 by congruence.
       rewrite (Hok0 (idle_ok _ _ _ _ _ _ _ _ Hk Hi0 Ht0)).
       by rewrite (Hok1 (idle_ok _ _ _ _ _ _ _ _ Hk Hi1 Ht1)). }
  case_bool_decide as Heq.
  - injection Heq as -> ->. destruct Hs1 as [[_ Hk3]|[? _]]; [|done]. rewrite Hcl2 in Hk3 by done.
    unfold held. simpl. eapply kernel_ok_closed; [exact Hk3|]. set_solver.
  - destruct Hs1 as [[_ Hk3]|[_ Hk3]]; (eapply kernel_ok_closed; [exact Hk3|]); simpl; intros a Ha;
      destruct Hcl as [-> | ->]; set_solver.
Qed.

Lemma core_owned w i c :
  cw_cores w !! i = Some c -> ready_ok c -> core_state c <> CoreDrained ->
  MkPrepared (core_ports c) (core_tables c) (core_charge c) ∈ owned w.
Proof.
  intros Hc Hr Hnd. unfold owned. apply elem_of_app. right. apply elem_of_app. left. apply list_elem_of_bind.
  exists c. rewrite (core_res_attached c Hr Hnd). split; [left | by eapply list_elem_of_lookup_2].
Qed.

Lemma channel_close_step w n i d :
  channel_ok w -> cw_calls w !! n = Some (CDrain i d None) ->
  exists w', do_close w n i d = Some w' /\ channel_ok w'.
Proof.
  intros Hw Hn. pose proof (ck_calls _ Hw _ (list_elem_of_lookup_2 _ _ _ Hn)) as (c & Hc & Hd).
  pose proof Hd as [D1 D2 D3 D4 D5 D6 D7].
  assert (core_state c <> CoreDrained) as Hnd by by rewrite D2.
  destruct (drain_close_ok _ _ _ _ _ d (ck_held _ Hw) (core_owned w i c Hc D1 Hnd) D5) as (s & k' & Hcl & He & Hs0 & Hs1 & Hk' & _).
  { intros Hf. apply (D6 Hf). }
  unfold do_close. rewrite Hcl. eexists. split; [done|].
  apply (replace_call w n (CDrain i d None) _ k' []); try done.
  - exists c. split; [done|]. split; try done. by intros s0 [= <-].
  - unfold owned, closed_tables in *. simpl. rewrite (bind_insert call_closed _ n _ _ Hn).
    rewrite (bind_same call_res _ n _ _ Hn) by done. rewrite (bind_delete call_closed _ n _ Hn) in Hk'. simpl in *.
    rewrite <- app_assoc. exact Hk'.
  - apply (epochs_same w); try done; [apply (ck_epochs _ Hw)|]. simpl. by rewrite (omap_insert_same _ _ _ (CDrain i d None)).
Qed.

Lemma drain_others w n i c d s :
  channel_ok w -> cw_calls w !! n = Some (CDrain i d s) -> cw_cores w !! i = Some c -> ready_ok c ->
  (forall stage, COpen i None stage ∈ delete n (cw_calls w) -> False)
  /\ (forall d' s', CDrain i d' s' ∈ delete n (cw_calls w) -> False).
Proof.
  intros Hw Hn Hc Hr. split.
  - intros stage Hx%elem_delete. by eapply no_construction in Hx.
  - intros d' s' Hx. by apply (only_call drain_of _ n _ _ i (ck_drains _ Hw) Hn eq_refl Hx).
Qed.

Lemma channel_detach_step w n i d s c :
  channel_ok w -> cw_calls w !! n = Some (CDrain i d (Some s)) -> cw_cores w !! i = Some c ->
  channel_ok (do_detach w n i d s c).
Proof.
  intros Hw Hn Hc. pose proof (ck_calls _ Hw _ (list_elem_of_lookup_2 _ _ _ Hn)) as (c2 & Hc2 & Hd).
  rewrite Hc in Hc2. injection Hc2 as <-. destruct Hd as [D1 D2 D3 D4 D5 D6 D7].
  destruct (D7 s eq_refl) as [Hs0 Hs1]. pose proof (ready_core w i c Hw Hc D1) as Hin.
  assert (core_state c <> CoreDrained) as Hnd by by rewrite D2.
  pose proof (drain_end_spec c d s D1 D2 D4 (fun H => proj2 (D6 H)) Hs0 Hs1) as Hspec.
  destruct (drain_others _ _ _ _ _ _ Hw Hn Hc D1) as [Hni Hnod]. pose proof (ck_held _ Hw) as Hk.
  unfold do_detach. destruct (DrainEndLocked c d s) as [c' res].
  destruct Hspec as [(Hst & -> & Hr' & _ & Hnot)|(Hf & -> & H0 & r0 & l0 & r1 & l1 & E0 & E1 & _ & _ & -> & Hr' & ->)].
  - rewrite Hst. simpl. rewrite app_nil_r.
    destruct (about_views i [EvDrain i res] w (set_core (drop_call w n) i (with_driver c 0 1) [EvDrain i res])) as (Eg & Eo & Ev);
      [by constructor | done|].
    apply (finish_call w n (CDrain i d (Some s)) i c (with_driver c 0 1) (cw_k w) (cw_bundles w) [EvDrain i res]); try done.
    + right. apply (ready_in_phase i c); try done. by destruct Hin as [R1 R2 R3 R4 R5 R6].
    + intros d' s' Hx. by apply Hnod in Hx.
    + by right.
    + unfold owned, closed_tables in *. simpl.
      rewrite (bind_same core_res _ i c _ Hc) by by rewrite !core_res_attached.
      rewrite (bind_delete call_res _ n _ Hn), (bind_delete call_closed _ n _ Hn) in Hk. simpl in Hk.
      replace (dd_finalize d && bool_decide (s = (XferOk, XferOk))) with false in Hk; [exact Hk|].
      symmetry. apply andb_false_iff. destruct (dd_finalize d); [right | by left].
      apply bool_decide_eq_false_2. intros ->. by apply Hnot.
    + apply (ck_bundles _ Hw).
    + by apply (epochs_fewer w _ n (ck_epochs _ Hw)).
    + constructor; [|done]. unfold event_fine. by rewrite Hst.
  - destruct (D6 Hf) as [Ht _]. cbn [dr_status dr_detached]. rewrite bool_decide_eq_true_2 by done. rewrite E0, E1. cbn [fst].
    set (res := MkDrain _ _ _ _). set (b := MkCleanup _ _ _ _).
    set (evs := [EvDrain i res; EvLedger i true LDrain r1; EvLedger i false LDrain r0]).
    set (w' := MkCWorld (cw_k w) (<[i := drained_core c (l0, l1)]> (cw_cores w)) (delete n (cw_calls w))
                 (cw_bundles w ++ [b]) (evs ++ cw_log w)).
    destruct (about_views i evs w w') as (Eg & Eo & Ev); [by unfold evs; rewrite !Forall_cons | done|].
    apply (finish_call w n (CDrain i d (Some (XferOk, XferOk))) i c (drained_core c (l0, l1)) (cw_k w)
             (cw_bundles w ++ [b]) evs); fold w'; try done.
    + right. destruct Hin as [R1 R2 R3 R4 R5 R6]. split; try done; [by apply (pins_same c)|].
      intros index. unfold w', evs.
      rewrite (both_ops w i i index (EvDrain i res) (fun b => (LDrain, if b then r1 else r0))), decide_True by done.
      apply (ledger_run_snoc c); [apply R6 | done | by destruct index].
    + intros d' s' Hx. by apply Hnod in Hx.
    + by right.
    + rewrite Eg. unfold w', owned, closed_tables in *. simpl.
      rewrite (bind_insert core_res _ i c _ Hc), fmap_app, bind_app. simpl.
      rewrite (bind_delete call_res _ n _ Hn), (bind_delete call_closed _ n _ Hn), (bind_delete core_res _ i c Hc) in Hk.
      rewrite (core_res_attached c D1 Hnd) in Hk. simpl in Hk. rewrite Hf, Ht in Hk. simpl in Hk.
      change (bundle_of b) with (MkPrepared (core_ports c) (core_tables c) (core_charge c)).
      revert Hk. set (r := MkPrepared _ _ _). intros Hk.
      rewrite !app_assoc, snoc_perm, <- !app_assoc. rewrite (app_assoc _ _ (tables_of r)), (Permutation_app_comm _ (tables_of r)).
      rewrite <- Permutation_middle in Hk. exact Hk.
    + intros b' [Hb| ->%list_elem_of_singleton]%elem_of_app; [by apply (ck_bundles _ Hw)|]. simpl.
      pose proof (rk_epoch _ D1). lia.
    + by apply (epochs_fewer w _ n (ck_epochs _ Hw)).
    + by unfold evs; rewrite !Forall_cons.
Qed.

(** ** Bundles and the rest of the kernel *)

Lemma kernel_step w k' bundles :
  channel_ok w -> held (owned (MkCWorld k' (cw_cores w) (cw_calls w) bundles (cw_log w)))
                    (closed_tables (MkCWorld k' (cw_cores w) (cw_calls w) bundles (cw_log w))) (granted w) k' ->
  k_next_epoch k' = k_next_epoch (cw_k w) -> (forall b, b ∈ bundles -> b ∈ cw_bundles w) ->
  channel_ok (MkCWorld k' (cw_cores w) (cw_calls w) bundles (cw_log w)).
Proof.
  intros [H1 H2 H3 H4 H5 H6 H7 H8 H9 H10] Hk He Hb. split; try done.
  - intros j c Hj. eapply core_in_view; [by apply (same_log_view j w) | by apply H1].
  - intros b Hin. by apply H7, Hb.
  - by apply (epochs_same w).
Qed.

Lemma cleanup_step w n b :
  channel_ok w -> cw_bundles w !! n = Some b -> exists w', do_cleanup w n b = Some w' /\ channel_ok w'
    /\ w' = MkCWorld (cw_k w') (cw_cores w) (cw_calls w) (delete n (cw_bundles w)) (EvCleanup ChOk :: cw_log w).
Proof.
  intros Hw Hn. pose proof (ck_held _ Hw) as Hk. unfold owned, closed_tables in Hk.
  rewrite (fmap_Permutation bundle_of _ _ (delete_Permutation _ n b Hn)), (bind_delete _ (cw_bundles w) n b Hn) in Hk.
  rewrite fmap_cons in Hk.
  set (rest := (cw_calls w ≫= call_res) ++ (cw_cores w ≫= core_res) ++ (bundle_of <$> delete n (cw_bundles w))).
  set (cl := (cw_calls w ≫= call_closed) ++ (delete n (cw_bundles w) ≫= (fun b => tables_of (bundle_of b)))).
  assert (held (bundle_of b :: rest) (tables_of (bundle_of b) ++ cl) (granted w) (cw_k w)) as Hk'.
  { unfold rest, cl. rewrite (app_assoc (tables_of _)), (Permutation_app_comm (tables_of _)), <- app_assoc.
    rewrite !Permutation_middle. exact Hk. }
  destruct (cleanup_ok (rest ≫= ports_of) (rest ≫= tables_of) cl (res_charge <$> rest) (granted w) (cw_k w) b)
    as (k' & Hcl & Hok & _ & He).
  - exact Hk'.
  - intros a Ha. unfold rest. rewrite bind_app. apply elem_of_app. right. by apply closed_owner.
  - apply (ck_bundles _ Hw). by eapply list_elem_of_lookup_2.
  - unfold do_cleanup. rewrite Hcl. eexists. split; [done|]. split; [|done].
    assert (channel_ok (say w (EvCleanup ChOk))) as Hsay by by apply (quiet_say w 0).
    apply (kernel_step (say w (EvCleanup ChOk)) k' (delete n (cw_bundles w))); try done.
    intros b'. apply elem_delete.
Qed.

(** ** Every step *)

Theorem channel_exec_ok w a :
  channel_ok w -> action_ok w a -> exists w', c_exec w a = Some w' /\ channel_ok w'.
Proof.
  intros Hw Ha. destruct a as [i domain|i domain|n b|n|n|i epoch binding|i p|i p d q|i epoch enforce|n|n|n]; simpl in *;
    unfold on_core.
  - destruct (cw_cores w !! i) as [c|] eqn:Hc; [|eauto]. eexists. split; [done | by apply initialize_step].
  - destruct (cw_cores w !! i) as [c|] eqn:Hc; [|eauto]. eexists. split; [done | by apply reset_begin_step].
  - destruct (cw_calls w !! n) as [[i previous [domain| |]|]|] eqn:Hn; eauto. by apply channel_prepare_step.
  - destruct (cw_calls w !! n) as [[i previous [|r|]|]|] eqn:Hn; eauto. by apply number_step.
  - destruct (cw_calls w !! n) as [[i previous [| |r epoch]|]|] eqn:Hn; eauto.
    destruct (cw_cores w !! i) as [c|] eqn:Hc; [|eauto]. by apply channel_finish_step.
  - destruct (cw_cores w !! i) as [c|] eqn:Hc; [|eauto]. eexists. split; [done | by apply acquire_step].
  - destruct (cw_cores w !! i) as [c|] eqn:Hc; [|eauto]. eexists. split; [done | by apply release_step].
  - destruct (cw_cores w !! i) as [c|] eqn:Hc; [|eauto]. eexists. split; [done | by apply request_step].
  - destruct (cw_cores w !! i) as [c|] eqn:Hc; [|eauto]. eexists. split; [done | by apply channel_drain_step].
  - destruct (cw_calls w !! n) as [[|i d [s|]]|] eqn:Hn; eauto. by apply channel_close_step.
  - destruct (cw_calls w !! n) as [[|i d [s|]]|] eqn:Hn; eauto.
    destruct (cw_cores w !! i) as [c|] eqn:Hc; [|eauto]. eexists. split; [done | by apply channel_detach_step].
  - destruct (cw_bundles w !! n) as [b|] eqn:Hn; [|eauto]. destruct (cleanup_step w n b Hw Hn) as (w' & H1 & H2 & _). eauto.
Qed.

Lemma start_ok n k : boot_kernel k -> channel_ok (c_start n k).
Proof.
  intros [Hk He]. unfold c_start. split; simpl; try done; try apply NoDup_nil_2; try by intros x ?%elem_of_nil.
  - intros i c [-> _]%lookup_replicate. left. by split; [left|].
  - intros i c [-> _]%lookup_replicate Hr. by apply zero_not_ready in Hr.
  - unfold owned, closed_tables. simpl. rewrite app_nil_r.
    replace (replicate n zero_core ≫= core_res) with (@nil PreparedResources) by (by induction n). done.
  - split; simpl; [rewrite He; by unfold kChannelEpochMaximum | apply NoDup_nil_2 | by intros e ?%elem_of_nil].
  - by intros i e ?%elem_of_nil.
Qed.

Lemma cstep_ok w w' : channel_ok w -> cstep w w' -> channel_ok w'.
Proof.
  intros Hw [a w2 Ha He|k Hk He].
  - destruct (channel_exec_ok w a Hw Ha) as (w3 & He3 & Hok). rewrite He in He3. by injection He3 as ->.
  - by apply (kernel_step w k (cw_bundles w)).
Qed.

Lemma cstar_ok w w' : channel_ok w -> rtc cstep w w' -> channel_ok w'.
Proof. intros Hw Hr. induction Hr as [|w w1 w2 H1 _ IH]; [done|]. by eapply IH, cstep_ok. Qed.

Lemma channel_reachable_ok w : reachable w -> channel_ok w.
Proof. intros (n & k & Hk & Hr). eapply cstar_ok; [by apply start_ok | done]. Qed.
