(* ===== verification/ChannelCoreProps.v ===== *)
(** * The channel core: what the system guarantees

    Properties of every reachable system of channels, whatever constructions,
    resets, drains, pins and requests run and however their critical
    sections interleave with each other and with the rest of the kernel. *)

From stdpp Require Import relations.
From S2P Require Import Prelude KObject HandleTable HandleTableSpec KMessagePort ObjectTransfer ObjectTransferSpec.
From S2P Require Import ResourceDomain ResourceDomainSpec RequestLedger RequestLedgerSpec.
From S2P Require Import ChannelCore ChannelResources ChannelCoreInv ChannelCoreSpec ChannelCoreSteps.

(** ** Published cores *)

Lemma published w i c :
  channel_ok w -> cw_cores w !! i = Some c -> ReadyStatus (Some c) = ChOk -> ready_in i c w.
Proof. intros Hw Hc Hr. destruct (core_cases w i c Hw Hc) as [?|E]; [done|]. by rewrite Hr in E. Qed.

(** C18: No assertion trips, no freed or null memory is touched and no call
    reports a corrupt core, a failed close or a failed release; every
    published core passes its own check, and its operation count is exactly
    the number of pins handed out and not yet released. *)
Theorem channel_never_corrupt w a :
  reachable w -> action_ok w a ->
  exists w', c_exec w a = Some w' /\ Forall event_fine (cw_log w') /\
    forall i c, cw_cores w' !! i = Some c -> ReadyStatus (Some c) = ChOk ->
      CoreIsCanonical c = true
      /\ core_operations c = Z.of_nat (length (at_core i (issued w'))) - Z.of_nat (length (at_core i (dead_pins w'))).
Proof.
  intros Hw%channel_reachable_ok Ha. destruct (channel_exec_ok w a Hw Ha) as (w' & He & Hw'). exists w'.
  split; [done|]. split; [apply (ck_log _ Hw')|]. intros i c Hc Hr. pose proof (published _ _ _ Hw' Hc Hr) as Hin.
  split; [apply ready_canonical, Hin | apply (ri_pins _ _ _ Hin)].
Qed.

(** ** Resources *)

(** A core that holds no resources of its own. *)
Definition unattached (c : ChannelCore) : Prop := core_state c = CoreUninitialized \/ core_state c = CoreDrained.

Lemma nothing_owned w :
  cw_calls w = [] -> cw_bundles w = [] -> Forall unattached (cw_cores w) -> owned w = [].
Proof.
  intros E1 E2 H. unfold owned. rewrite E1, E2. simpl. rewrite app_nil_r.
  induction H as [|c l Hc _ IH]; [done|]. cbn [mbind list_bind]. rewrite IH. unfold core_res.
  by destruct Hc as [-> | ->].
Qed.

(** C19: Exact ownership: the ports and tables in memory are exactly those of
    the constructions in flight, the attached cores and the detached bundles,
    each owned once, and a charge the channels took is live exactly while one
    of them owns it.  With no construction in flight, every core drained or
    never opened and every bundle released, nothing is left allocated or
    charged. *)
Theorem channel_resources_exact w :
  reachable w ->
  let k := cw_k w in
  ((forall a, is_Some (k_ports k !! a) <-> a ∈ owned w ≫= ports_of)
   /\ (forall a, is_Some (k_tables k !! a) <-> a ∈ owned w ≫= tables_of)
   /\ (forall key, key ∈ granted w -> live_channel k key <-> key ∈ res_charge <$> owned w)
   /\ NoDup (owned w ≫= ports_of) /\ NoDup (owned w ≫= tables_of) /\ NoDup (res_charge <$> owned w))
  /\ (cw_calls w = [] -> cw_bundles w = [] -> Forall unattached (cw_cores w) ->
      (forall a, k_ports k !! a = None /\ k_tables k !! a = None)
      /\ forall key, key ∈ granted w -> ~ live_channel k key).
Proof.
  intros Hw%channel_reachable_ok k. pose proof (ck_held _ Hw) as [_ _ H3 H4 (N1 & N2 & N3) _ _ _ _ H10 H11]. fold k in H3, H4, H10, H11.
  split; [by split_and!; try done; intros key Hg; split; auto|].
  intros E1 E2 Hu. rewrite (nothing_owned w E1 E2 Hu) in H3, H4, H11. split.
  - intros a. split; apply eq_None_not_Some; [intros ?%H3 | intros ?%H4]; by apply elem_of_nil in H.
  - intros key Hg Hl. specialize (H11 key Hg Hl). by apply elem_of_nil in H11.
Qed.

(** ** Authority *)

Lemma exec_log w a w' : c_exec w a = Some w' -> exists evs, cw_log w' = evs ++ cw_log w.
Proof.
  assert (exists evs, cw_log w = evs ++ cw_log w) as Hnil by (by exists []).
  assert (forall e, exists evs, e :: cw_log w = evs ++ cw_log w) as Hone by (intros e; by exists [e]).
  intros He. destruct a; simpl in He; unfold on_core in He;
    repeat match type of He with
           | context [match ?l !! ?i with _ => _ end] => destruct (l !! i) eqn:?
           | context [match ?x with COpen _ _ _ => _ | CDrain _ _ _ => _ end] => destruct x
           | context [match ?x with Begun _ => _ | Prepared _ => _ | Numbered _ _ => _ end] => destruct x
           | context [match ?x : option (Both ObjectTransferStatus) with Some _ => _ | None => _ end] => destruct x
           end; simplify_eq/=; eauto.
  - unfold do_initialize. destruct (InitializeClaim _ _) as [[] ?]; simpl; eauto.
  - unfold do_reset. destruct (ResetBeginLocked _ _); simpl; eauto.
  - unfold do_prepare in He. destruct (PrepareResources _ _ _) as [[[st r] k]|]; [|done].
    destruct st; simplify_eq/=; rewrite ?app_comm_cons; eauto.
  - unfold do_number in He. destruct (allocate_epoch _) as [[e k]|]; simplify_eq/=; eauto.
  - unfold do_finish in He. destruct (match previous with None => _ | Some _ => _ end) as [[[c' r'] k]|]; simplify_eq/=.
    rewrite app_comm_cons. eauto.
  - unfold do_acquire. destruct (ChannelCoreAcquireOperation _ _ _) as [? ?]; simpl; eauto.
  - unfold do_release. destruct (ChannelCoreReleaseOperation _ _) as [? ?]; simpl; eauto.
  - unfold do_request. destruct (request _ _ _ _) as [? [? ?]]. simpl. rewrite app_comm_cons. eauto.
  - unfold do_drain. destruct (ReadyStatus _); simpl; eauto.
    destruct (DrainBeginLocked _ _ _) as [? [?|?]]; simpl; eauto.
  - unfold do_close in He. destruct (DrainClose _ _) as [[? ?]|]; simplify_eq/=; eauto.
  - unfold do_detach. destruct (DrainEndLocked _ _ _) as [? ?]. simpl. rewrite app_comm_cons. eauto.
  - unfold do_cleanup in He. destruct (ChannelCoreReleaseDetachedCleanup _ _) as [[[? ?] ?]|]; simplify_eq/=; eauto.
Qed.

Lemma cstar_log w w' : rtc cstep w w' -> exists evs, cw_log w' = evs ++ cw_log w.
Proof.
  induction 1 as [w|w w1 w2 H1 _ [evs IH]]; [by exists []|]. destruct H1 as [a w1 _ He|k _ _].
  - destruct (exec_log w a w1 He) as [evs' E]. exists (evs ++ evs'). by rewrite IH, E, app_assoc.
  - by exists evs.
Qed.

(** A pin that is not live is refused, and refusals change nothing. *)
Definition refused (c : ChannelCore) (p : ChannelCoreOperationPin) : Prop :=
  (exists st, ChannelCoreReleaseOperation (Some c) p = (Some c, st) /\ st <> ChOk)
  /\ (forall d, lease_status (ChannelCoreBorrowDirection (Some c) p d) <> ChOk)
  /\ (forall d q, exists st lst, request (Some c) p d q = (Some c, (st, lst)) /\ st <> ChOk).

Lemma dead_refused c p : ready_ok c -> 0 <= pin_slot p -> ~ pin_live c p -> refused c p.
Proof.
  intros Hr Hp Hd. split_and!.
  - pose proof (release_spec c p Hr Hp) as Hs. destruct (ChannelCoreReleaseOperation _ _) as [c' st].
    destruct Hs as [(-> & Hst & _)|(_ & Hl & _)]; [by exists st | done].
  - intros d. unfold ChannelCoreBorrowDirection. rewrite (ready_status _ Hr), (ready_canonical _ Hr).
    destruct (ChannelCoreDirectionIsValid d); [|done]. cbn [negb].
    destruct (ValidatePinLocked c p false) eqn:Hv; try done. exfalso. apply Hd.
    by apply (proj2 (validate_spec c p false Hr Hp)) in Hv as (_ & ? & _).
  - intros d q. pose proof (request_spec c p d q Hr Hp) as Hs. destruct (request _ _ _ _) as [c' [st lst]].
    destruct Hs as [(-> & Hst & _)|(_ & Hl & _)]; [by exists st, lst | done].
Qed.

(** C20: Authority never returns: an epoch is opened once in the life of the
    kernel, a pin is handed out once in the life of its core, and a pin that
    was released is refused by every call forever after, across drains,
    resets and new epochs. *)
Theorem channel_authority_never_returns w w' i p c :
  reachable w -> (i, p) ∈ dead_pins w -> rtc cstep w w' -> cw_cores w' !! i = Some c ->
  NoDup ((opened w').*2) /\ NoDup (at_core i (issued w')) /\ refused c p.
Proof.
  intros Hw Hp Hs Hc. apply channel_reachable_ok in Hw. pose proof (cstar_ok _ _ Hw Hs) as Hw'.
  destruct (cstar_log _ _ Hs) as [evs Hlog].
  assert (p ∈ at_core i (dead_pins w')) as Hp'.
  { apply at_core_elem. unfold dead_pins in *. rewrite Hlog, omap_app. apply elem_of_app. by right. }
  destruct (ck_cores _ Hw' i c Hc) as [[_ (_ & _ & E & _)]|Hin]; [rewrite E in Hp'; by apply elem_of_nil in Hp'|].
  destruct (ri_pins _ _ _ Hin) as [P1 P2 P3 P4 P5 P6 P7 P8]. destruct (ck_epochs _ Hw') as [_ E2 _].
  split; [by apply NoDup_app in E2 as [? _]|]. split; [done|].
  apply dead_refused; [apply Hin | by apply P4, P3 | by apply P6].
Qed.

(** ** Requests *)

Lemma drained_no_keys c index :
  ready_ok c -> core_state c = CoreDrained -> live_keys (slots (nth_both (request_ledgers c) index)) = [].
Proof.
  intros Hr Hst. destruct (rk_ledgers _ Hr index) as [Hok _ Hs]. unfold is_drained in Hs. rewrite Hst in Hs. simpl in Hs.
  unfold live_keys. destruct (live_slots _) as [|s l] eqn:E; [done|].
  destruct (live_row _ s Hok) as [? _]; [rewrite E; left | done].
Qed.

(** C21: Every request ends once: in each direction of every channel, over all
    its epochs, no request is admitted twice, the admitted requests are the
    settled ones and those outstanding, at most one completion succeeds per
    request and only with its own authority, and once the channel is drained
    every admitted request has been settled. *)
Theorem channel_requests_settled_once w i c index :
  reachable w -> cw_cores w !! i = Some c -> ReadyStatus (Some c) = ChOk ->
  let ops := ledger_ops w i index in
  let l := nth_both (request_ledgers c) index in
  NoDup (collect admitted ops.*1 ops.*2)
  /\ collect admitted ops.*1 ops.*2 ≡ₚ collect settled ops.*1 ops.*2 ++ live_keys (slots l)
  /\ NoDup (collect completed ops.*1 ops.*2)
  /\ collect completed ops.*1 ops.*2 ⊆ collect committed ops.*1 ops.*2
  /\ (core_state c = CoreDrained -> collect admitted ops.*1 ops.*2 ≡ₚ collect settled ops.*1 ops.*2).
Proof.
  intros Hw%channel_reachable_ok Hc Hr ops l. pose proof (published _ _ _ Hw Hc Hr) as Hin.
  destruct (ri_ledgers _ _ _ Hin index) as [Hrun Ht].
  destruct (run_from_zero _ _ _ Ht Hrun) as (_ & _ & [Hnd Hcons _ _ _ _ _] & Hcc).
  split_and!; try done.
  - pose proof Hnd as Hnd2. rewrite Hcons in Hnd2. apply NoDup_app in Hnd2 as [Hset _].
    exact (sublist_NoDup _ _ Hset (completed_settled _ _)).
  - intros Hst. unfold ops. rewrite Hcons. rewrite (drained_no_keys c index (ri_ok _ _ _ Hin) Hst). by rewrite app_nil_r.
Qed.

(** ** The drain *)

Lemma owned_core w i c :
  cw_cores w !! i = Some c -> ready_ok c -> core_state c <> CoreDrained ->
  exists rest, owned w ≡ₚ MkPrepared (core_ports c) (core_tables c) (core_charge c) :: rest.
Proof.
  intros Hc Hr Hnd. eexists. unfold owned. rewrite (bind_delete core_res _ i c Hc), (core_res_attached c Hr Hnd).
  cbn [app]. rewrite <- Permutation_middle. reflexivity.
Qed.

(** The requests a drain hands back to its caller. *)
Definition handed_back (res : ChannelCoreDrainResult) (c : ChannelCore) : Prop :=
  drain_status (dr_requests res).1 = Ok /\ drain_status (dr_requests res).2 = Ok
  /\ detached_keys (dr_requests res).1 = live_keys (slots (request_ledgers c).1)
  /\ detached_keys (dr_requests res).2 = live_keys (slots (request_ledgers c).2).

(** C22: A drain completes: on a channel with no operation in progress, no other
    driver and no import using its tables, the drain answers [ChOk], hands
    back exactly the outstanding requests and detaches a bundle; releasing
    the bundle answers [ChOk], frees both ports and both tables, pays the
    charge back and touches no other channel's ports and tables. *)
Theorem channel_drain_completes w i c :
  reachable w -> cw_cores w !! i = Some c -> ReadyStatus (Some c) = ChOk -> core_state c <> CoreDrained ->
  core_operations c = 0 -> drain_driver_active c = 0 ->
  table_idle (cw_k w) (core_tables c).1 -> table_idle (cw_k w) (core_tables c).2 ->
  exists c' res k' k'',
    ChannelCoreDrain (Some c) (cw_k w) = Some ((Some c', res), k')
    /\ dr_status res = ChOk /\ core_state c' = CoreDrained /\ handed_back res c
    /\ ChannelCoreReleaseDetachedCleanup (Some (dr_detached res)) k' = Some ((Some zero_cleanup, ChOk), k'')
    /\ ~ live_channel k'' (core_charge c)
    /\ (forall a, is_Some (k_ports k'' !! a) <->
          is_Some (k_ports (cw_k w) !! a) /\ a <> (core_ports c).1 /\ a <> (core_ports c).2)
    /\ (forall a, is_Some (k_tables k'' !! a) <->
          is_Some (k_tables (cw_k w) !! a) /\ a <> (core_tables c).1 /\ a <> (core_tables c).2).
Proof.
  intros Hw%channel_reachable_ok Hc Hready Hnd H0 Hdrv Hi0 Hi1.
  pose proof (published _ _ _ Hw Hc Hready) as Hin. pose proof (ri_ok _ _ _ Hin) as Hr.
  unfold ChannelCoreDrain, DrainCore. rewrite Hready.
  pose proof (drain_begin_spec c kChannelEpochInvalid false Hr) as Hb.
  destruct (DrainBeginLocked c kChannelEpochInvalid false) as [c1 [res|d]].
  { destruct Hb as (_ & _ & [(_ & ? & _)|[(_ & ?)|(_ & _ & ?)]]); [done | done | lia]. }
  destruct Hb as (-> & Hr1 & _ & _ & Hd). rewrite H0 in Hd. simpl in Hd.
  destruct (owned_core w i c Hc Hr Hnd) as [rest Hown]. pose proof (ck_held _ Hw) as Hk.
  rewrite Hown in Hk. destruct (held_nonnull _ _ _ _ _ Hk) as [_ (_ & _ & Hne)].
  destruct (drain_close_ok _ _ _ _ _ d Hk (list_elem_of_here _ _)) as (s & k' & Hclose & He & Hs0 & Hs1 & Hk' & Hs);
    [by rewrite Hd | by rewrite Hd|].
  unfold kbind at 1. rewrite Hclose. clear Hclose.
  subst d. specialize (Hs eq_refl Hne Hi0 Hi1). subst s.
  set (d := MkDrive _ _ _ _) in *.
  pose proof (drain_end_spec (begun_drain c) d (XferOk, XferOk) Hr1 eq_refl eq_refl (fun _ => H0) Hs0 Hs1) as Hspec.
  destruct (DrainEndLocked _ _ _) as [c' res] eqn:E.
  destruct Hspec as [(_ & _ & _ & _ & Hnot)|(_ & _ & _ & r0 & l0 & r1 & l1 & _ & _ & K0 & K1 & -> & Hr' & ->)]; [by destruct Hnot|].
  set (b := MkCleanup (channel_epoch (begun_drain c)) (core_ports (begun_drain c)) (core_tables (begun_drain c))
              (core_charge (begun_drain c))) in *.
  assert (held (bundle_of b :: rest) (tables_of (bundle_of b) ++ []) (granted w) k') as Hk2.
  { eapply kernel_ok_closed; [exact Hk'|]. simpl. set_solver. }
  destruct (cleanup_ok (rest ≫= ports_of) (rest ≫= tables_of) [] (res_charge <$> rest) (granted w) k' b)
    as (k'' & Hcl & Hok & Hpaid & _); [exact Hk2 | by intros a ?%elem_of_nil | simpl; pose proof (rk_epoch _ Hr); lia|].
  pose proof (kk_nodup _ _ _ _ _ _ Hk) as (Np & Nt & _). simpl in Np, Nt.
  rewrite !NoDup_cons, !not_elem_of_cons in Np, Nt.
  eexists _, _, k', k''. split; [reflexivity|]. split; [done|]. split; [done|].
  split; [split_and!; [done | done | exact K0 | exact K1]|]. split; [exact Hcl|]. split; [exact Hpaid|].
  split; intros a.
  - rewrite (kk_ports _ _ _ _ _ _ Hok), (kk_ports _ _ _ _ _ _ Hk). simpl. rewrite !elem_of_cons.
    destruct Np as ((_ & N1) & N2 & _). split; [|naive_solver]. intros Ha. split; [by auto|]. split; by intros ->.
  - rewrite (kk_tables _ _ _ _ _ _ Hok), (kk_tables _ _ _ _ _ _ Hk). simpl. rewrite !elem_of_cons.
    destruct Nt as ((_ & N1) & N2 & _). split; [|naive_solver]. intros Ha. split; [by auto|]. split; by intros ->.
Qed.

(** ** A channel in use *)

Definition demo_kernel : Kernel := MkKernel ∅ ∅ ∅ (rd_run boot_domains [DoCreateTrusted true]).1 1.
Definition demo_blocks : Blocks := MkBlocks (Some 4096, Some 8192) (Some 12288, Some 16384).
Definition demo_start : CWorld := c_start 1 demo_kernel.

(** Runs of calls other than preparations, with pins of unsigned slots. *)
Fixpoint c_run (w : CWorld) (acts : list CAction) : option CWorld :=
  match acts with [] => Some w | a :: acts => match c_exec w a with Some w => c_run w acts | None => None end end.

Definition plain_action (a : CAction) : bool :=
  match a with APrepare _ _ => false | ARelease _ p | ARequest _ p _ _ => 0 <=? pin_slot p | _ => true end.

Lemma c_run_steps acts : forall w w', forallb plain_action acts = true -> c_run w acts = Some w' -> rtc cstep w w'.
Proof.
  induction acts as [|a acts IH]; intros w w' Hp Hr; simpl in *; [injection Hr as ->; by constructor|].
  apply andb_true_iff in Hp as [Ha Hp]. destruct (c_exec w a) as [w1|] eqn:E; [|done].
  eapply rtc_l; [|by apply IH]. apply (step_call w a); [|done]. destruct a; simpl in *; try done; lia.
Qed.

Lemma demo_boot : boot_kernel demo_kernel.
Proof.
  assert (forall A, @NoDup A []) as Hnd by (intros A; apply NoDup_nil_2).
  split; [|done]. split; cbn [mbind list_bind fmap list_fmap]; try done; try by intros a Ha%elem_of_nil.
  - eapply (rd_run_ok [DoCreateTrusted true] _ _ _ boot_ok); [by repeat constructor | apply surjective_pairing].
  - intros a. cbn. rewrite lookup_empty. split; [by intros [] | by intros ?%elem_of_nil].
  - intros a. cbn. rewrite lookup_empty. split; [by intros [] | by intros ?%elem_of_nil].
  - split; by intros ?%elem_of_nil.
Qed.

Definition demo_key : ResourceKey := ResourceDomain.MkKey 0 1.
Definition demo_pin : ChannelCoreOperationPin := MkOpPin 1 0 1 7.
Definition demo_after (w : CWorld) (acts : list CAction) : CWorld := default w (c_run w acts).

Definition demo_prepared : CWorld := demo_after demo_start [AInitialize 0 demo_key; APrepare 0 demo_blocks].
(** Open, with one request outstanding and its pin held. *)
Definition demo_open : CWorld :=
  demo_after demo_prepared
    [ANumber 0; AFinish 0; AAcquire 0 1 7; ARequest 0 demo_pin ChannelForward (QReserve 1)].
(** The pin released, then drained and cleaned up. *)
Definition demo_idle : CWorld := demo_after demo_open [ARelease 0 demo_pin].
Definition demo_closed : CWorld := demo_after demo_idle [ADrain 0 1 true; AClose 0; ADetach 0; ACleanup 0].

Lemma demo_after_steps w acts :
  forallb plain_action acts = true -> match c_run w acts with Some _ => true | None => false end = true ->
  rtc cstep w (demo_after w acts).
Proof.
  intros Hp Hr. unfold demo_after. destruct (c_run w acts) as [w'|] eqn:E; [|done]. by eapply c_run_steps.
Qed.

Lemma demo_prepared_reachable : reachable demo_prepared.
Proof.
  exists 1%nat, demo_kernel. split; [exact demo_boot|].
  assert (exists w1, c_exec demo_start (AInitialize 0 demo_key) = Some w1 /\ cw_k w1 = demo_kernel
            /\ c_exec w1 (APrepare 0 demo_blocks) = Some demo_prepared) as (w1 & E1 & Ek & E2).
  { eexists. split; [vm_compute; reflexivity|]. split; vm_compute; reflexivity. }
  eapply rtc_l; [by apply (step_call _ (AInitialize 0 demo_key))|]. apply rtc_once.
  apply (step_call _ (APrepare 0 demo_blocks)); [|done]. cbn [action_ok]. rewrite Ek. split.
  - by apply (bool_decide_unpack _), I.
  - unfold block_list, demo_blocks. cbn. rewrite !Forall_cons. split_and!; try done.
    all: split; try done; intros b t s Hb; by rewrite lookup_empty in Hb.
Qed.

Lemma reachable_star w w' : reachable w -> rtc cstep w w' -> reachable w'.
Proof. intros (n & k & Hk & Hr) Hs. exists n, k. split; [done | by etrans]. Qed.

Lemma demo_open_reachable : reachable demo_open.
Proof. eapply reachable_star; [exact demo_prepared_reachable|]. apply demo_after_steps; vm_compute; reflexivity. Qed.
Lemma demo_idle_reachable : reachable demo_idle.
Proof. eapply reachable_star; [exact demo_open_reachable|]. apply demo_after_steps; vm_compute; reflexivity. Qed.
Lemma demo_closed_reachable : rtc cstep demo_idle demo_closed /\ reachable demo_closed.
Proof.
  assert (rtc cstep demo_idle demo_closed) as H by (apply demo_after_steps; vm_compute; reflexivity).
  split; [done|]. by eapply reachable_star; [exact demo_idle_reachable|].
Qed.

Definition demo_core (w : CWorld) : ChannelCore := default zero_core (cw_cores w !! 0%nat).

Lemma channel_never_corrupt_witness :
  action_ok demo_open (ADrain 0 1 true) /\
  exists w', c_exec demo_open (ADrain 0 1 true) = Some w' /\ Forall event_fine (cw_log w') /\
    forall i c, cw_cores w' !! i = Some c -> ReadyStatus (Some c) = ChOk ->
      CoreIsCanonical c = true
      /\ core_operations c = Z.of_nat (length (at_core i (issued w'))) - Z.of_nat (length (at_core i (dead_pins w'))).
Proof. split; [exact I|]. apply channel_never_corrupt; [exact demo_open_reachable | exact I]. Defined.

Lemma unattached_all (l : list ChannelCore) :
  forallb (fun c => match core_state c with CoreUninitialized | CoreDrained => true | _ => false end) l = true ->
  Forall unattached l.
Proof.
  rewrite forallb_forall. intros H. apply Forall_forall. intros c Hc%list_elem_of_In%H. unfold unattached.
  destruct (core_state c); auto; done.
Qed.

Lemma demo_closed_unattached : Forall unattached (cw_cores demo_closed).
Proof. apply unattached_all. vm_compute. reflexivity. Qed.

Lemma channel_resources_exact_witness :
  let k := cw_k demo_closed in
  granted demo_closed = [demo_key] /\ (forall a, k_ports k !! a = None /\ k_tables k !! a = None)
  /\ forall key, key ∈ granted demo_closed -> ~ live_channel k key.
Proof.
  split; [vm_compute; reflexivity|].
  apply (channel_resources_exact demo_closed); [apply demo_closed_reachable | vm_compute; reflexivity..|].
  exact demo_closed_unattached.
Defined.

Lemma channel_authority_never_returns_witness :
  dead_pins demo_idle = [(0%nat, demo_pin)] /\ opened demo_closed = [(0%nat, 1)]
  /\ refused (demo_core demo_closed) demo_pin.
Proof.
  split; [vm_compute; reflexivity|]. split; [vm_compute; reflexivity|].
  apply (channel_authority_never_returns demo_idle demo_closed 0 demo_pin (demo_core demo_closed)).
  - exact demo_idle_reachable.
  - replace (dead_pins demo_idle) with [(0%nat, demo_pin)] by (vm_compute; reflexivity). left.
  - apply demo_closed_reachable.
  - vm_compute. reflexivity.
Defined.

Lemma channel_requests_settled_once_witness :
  let ops := ledger_ops demo_closed 0 false in
  length (collect admitted ops.*1 ops.*2) = 1%nat
  /\ (core_state (demo_core demo_closed) = CoreDrained ->
      collect admitted ops.*1 ops.*2 ≡ₚ collect settled ops.*1 ops.*2).
Proof.
  split; [vm_compute; reflexivity|].
  apply (channel_requests_settled_once demo_closed 0 (demo_core demo_closed) false).
  - apply demo_closed_reachable.
  - vm_compute. reflexivity.
  - vm_compute. reflexivity.
Defined.

Lemma demo_tables_idle a t : k_tables (cw_k demo_idle) !! a = Some t -> xt_active t = 0 -> table_idle (cw_k demo_idle) a.
Proof. intros Ht Ha t' Ht'. rewrite Ht in Ht'. by injection Ht' as <-. Qed.

Lemma channel_drain_completes_witness :
  exists c' res k' k'',
    ChannelCoreDrain (Some (demo_core demo_idle)) (cw_k demo_idle) = Some ((Some c', res), k')
    /\ dr_status res = ChOk /\ core_state c' = CoreDrained /\ handed_back res (demo_core demo_idle)
    /\ ChannelCoreReleaseDetachedCleanup (Some (dr_detached res)) k' = Some ((Some zero_cleanup, ChOk), k'')
    /\ ~ live_channel k'' demo_key.
Proof.
  assert (forall a, a = 12288 \/ a = 16384 -> table_idle (cw_k demo_idle) a) as Hidle.
  { intros a [-> | ->]; (eapply demo_tables_idle; [vm_compute; reflexivity | reflexivity]). }
  destruct (channel_drain_completes demo_idle 0 (demo_core demo_idle)) as (c' & res & k' & k'' & H1 & H2 & H3 & H4 & H5 & H6 & _).
  - exact demo_idle_reachable.
  - vm_compute. reflexivity.
  - vm_compute. reflexivity.
  - vm_compute. discriminate.
  - vm_compute. reflexivity.
  - vm_compute. reflexivity.
  - apply Hidle. left. vm_compute. reflexivity.
  - apply Hidle. right. vm_compute. reflexivity.
  - exists c', res, k', k''. replace demo_key with (core_charge (demo_core demo_idle)) by (vm_compute; reflexivity).
    exact (conj H1 (conj H2 (conj H3 (conj H4 (conj H5 H6))))).
Defined.
