(* ===== verification/Checksum.v ===== *)
(** * Checksums

    Model of [kernel/util/crc32.cpp] and of [kernel/util/adler32.h] and
    [kernel/util/adler32.cpp].  A buffer is the list of its bytes.  The
    table of the CRC is lazily filled global state, threaded explicitly. *)

From S2P Require Import Prelude Bytes.

(** ** CRC-32 *)

Module Crc.

(** [g_crc_table] and [g_crc_table_ready]. *)
Record CrcTable := MkCrcTable { g_crc_table : list Z; g_crc_table_ready : bool }.

Definition boot_table : CrcTable := MkCrcTable (replicate 256 0) false.

(** One round of the inner loop of [Crc32TableInit]. *)
Definition crc_round (c : Z) : Z :=
  if negb (Z.land c 1 =? 0) then Z.lxor 0xEDB88320 (Z.shiftr c 1) else Z.shiftr c 1.

Definition crc_entry (i : nat) : Z := Nat.iter 8 crc_round (Z.of_nat i).

Definition Crc32TableInit (t : CrcTable) : CrcTable :=
  if g_crc_table_ready t then t else MkCrcTable (crc_entry <$> seq 0 256) true.

Definition crc_byte (table : list Z) (c d : Z) : Z :=
  Z.lxor (nth (Z.to_nat (Z.land (Z.lxor c d) 255)) table 0) (Z.shiftr c 8).

Definition Crc32 (t : CrcTable) (data : list Z) : Z * CrcTable :=
  let t := Crc32TableInit t in
  (Z.lxor (foldl (crc_byte (g_crc_table t)) 0xFFFFFFFF data) 0xFFFFFFFF, t).

(** The four vectors of [Crc32SelfTest], each with the table the one before
    left. *)
Definition Crc32SelfTest (t : CrcTable) : bool :=
  let '(c1, t) := Crc32 t [49; 50; 51; 52; 53; 54; 55; 56; 57] in
  let '(c2, t) := Crc32 t [] in
  let '(c3, t) := Crc32 t [0] in
  let '(c4, t) := Crc32 t [255] in
  (c1 =? 0xCBF43926) && (c2 =? 0) && (c3 =? 0xD202EF8D) && (c4 =? 0xFF000000).

(** The bit-serial definition: each byte is added at the low end of the
    register, which is then divided eight times. *)
Definition serial_byte (c d : Z) : Z := Nat.iter 8 crc_round (Z.lxor c d).
Definition serial_crc (data : list Z) : Z := Z.lxor (foldl serial_byte 0xFFFFFFFF data) 0xFFFFFFFF.

(** The table is not ready, or right. *)
Definition table_fine (t : CrcTable) : Prop :=
  g_crc_table_ready t = true -> g_crc_table t = crc_entry <$> seq 0 256.

(** *** The round *)

Lemma land_1 c : negb (Z.land c 1 =? 0) = Z.odd c.
Proof. change 1 with (Z.ones 1). rewrite Z.land_ones by lia. rewrite Zmod_odd. by destruct (Z.odd c). Qed.

Lemma round_odd c : crc_round c = if Z.odd c then Z.lxor 0xEDB88320 (Z.shiftr c 1) else Z.shiftr c 1.
Proof. unfold crc_round. by rewrite land_1. Qed.

Lemma lxor_odd a b : Z.odd (Z.lxor a b) = xorb (Z.odd a) (Z.odd b).
Proof. by rewrite <- !Z.bit0_odd, Z.lxor_spec. Qed.

(** An even addend goes through a round halved. *)
Lemma round_add_even a q : crc_round (Z.lxor a (Z.shiftl q 1)) = Z.lxor (crc_round a) q.
Proof.
  rewrite !round_odd, lxor_odd, Z.shiftr_lxor, (Z.shiftr_shiftl_l q 1 1), Z.shiftl_0_r by lia.
  replace (Z.odd (Z.shiftl q 1)) with false.
  - rewrite xorb_false_r. destruct (Z.odd a); [by rewrite Z.lxor_assoc | done].
  - rewrite <- Z.bit0_odd, Z.shiftl_spec_low by lia. done.
Qed.

Lemma rounds_add n a q : Nat.iter n crc_round (Z.lxor a (Z.shiftl q (Z.of_nat n))) = Z.lxor (Nat.iter n crc_round a) q.
Proof.
  revert a q. induction n as [|n IH]; intros a q; [by rewrite Z.shiftl_0_r|].
  rewrite !Nat.iter_succ_r. replace (Z.of_nat (S n)) with (Z.of_nat n + 1) by lia.
  rewrite <- Z.shiftl_shiftl by lia. by rewrite round_add_even, IH.
Qed.

Lemma low_high c : c = Z.lxor (Z.land c 255) (Z.shiftl (Z.shiftr c 8) 8).
Proof.
  apply Z.bits_inj'. intros i Hi. rewrite Z.lxor_spec, Z.land_spec, Z.shiftl_spec by lia.
  destruct (Z.lt_ge_cases i 8) as [Hlt|Hge].
  - rewrite (Z.testbit_neg_r _ (i - 8)), xorb_false_r by lia. change 255 with (Z.ones 8).
    rewrite Z.ones_spec_low by lia. by rewrite andb_true_r.
  - change 255 with (Z.ones 8). rewrite Z.ones_spec_high, andb_false_r, Z.shiftr_spec by lia. simpl. f_equal. lia.
Qed.

(** A table lookup is eight rounds. *)
Lemma lookup_rounds c d : is_u8 d -> crc_byte (crc_entry <$> seq 0 256) c d = serial_byte c d.
Proof.
  intros Hd. unfold crc_byte, serial_byte. set (x := Z.lxor c d).
  assert (0 <= Z.land x 255 < 256) as Hlow. { rewrite land_255. by apply Z.mod_pos_bound. }
  assert (nth (Z.to_nat (Z.land x 255)) (crc_entry <$> seq 0 256) 0 = Nat.iter 8 crc_round (Z.land x 255)) as ->.
  { rewrite (nth_lookup_Some _ _ _ (Nat.iter 8 crc_round (Z.land x 255))); [done|].
    rewrite list_lookup_fmap, lookup_seq_lt by lia. simpl. unfold crc_entry. by rewrite Z2Nat.id by lia. }
  rewrite (low_high x) at 2. change 8 with (Z.of_nat 8) at 3. rewrite rounds_add. f_equal.
  unfold x. rewrite Z.shiftr_lxor, (Z.shiftr_div_pow2 d), Z.div_small by ulia. by rewrite Z.lxor_0_r.
Qed.

Lemma foldl_ext_bytes (f g : Z -> Z -> Z) data :
  bytes_ok data -> (forall c d, is_u8 d -> f c d = g c d) -> forall c, foldl f c data = foldl g c data.
Proof. intros Hd Hfg. induction Hd as [|d data Hb _ IH]; intros c; simpl; [done|]. by rewrite Hfg, IH. Qed.

Lemma init_fine t : table_fine t -> g_crc_table (Crc32TableInit t) = crc_entry <$> seq 0 256 /\ table_fine (Crc32TableInit t).
Proof. intros Ht. unfold Crc32TableInit. destruct (g_crc_table_ready t) eqn:E; [split; auto | done]. Qed.

Lemma crc_serial t data : table_fine t -> bytes_ok data -> (Crc32 t data).1 = serial_crc data /\ table_fine (Crc32 t data).2.
Proof.
  intros Ht Hd. destruct (init_fine t Ht) as [E Hf]. unfold Crc32. simpl. rewrite E. split; [|done].
  unfold serial_crc. f_equal. apply foldl_ext_bytes; [done|]. intros c d. apply lookup_rounds.
Qed.

(** *** Injectivity *)

Definition is_w32 (c : Z) : Prop := 0 <= c < 2 ^ 32.

Lemma w32_bits c : 0 <= c -> (forall i, 32 <= i -> Z.testbit c i = false) -> is_w32 c.
Proof.
  intros H0 Hb. split; [done|]. destruct (Z.eq_dec c 0) as [->|Hne]; [lia|].
  apply Z.log2_lt_pow2; [lia|]. destruct (Z.lt_ge_cases (Z.log2 c) 32) as [|Hge]; [done|].
  specialize (Hb _ Hge). rewrite Z.bit_log2 in Hb by lia. done.
Qed.

Lemma w32_high c i : is_w32 c -> 32 <= i -> Z.testbit c i = false.
Proof. intros Hc Hi. rewrite <- (Z.mod_small c (2 ^ 32)) by done. by rewrite Z.mod_pow2_bits_high by lia. Qed.

Lemma w32_lxor a b : is_w32 a -> is_w32 b -> is_w32 (Z.lxor a b).
Proof.
  intros Ha Hb. apply w32_bits; [apply Z.lxor_nonneg; split; intros; [apply Hb | apply Ha]|].
  intros i Hi. by rewrite Z.lxor_spec, !w32_high.
Qed.

Lemma w32_shiftr c : is_w32 c -> is_w32 (Z.shiftr c 1) /\ Z.testbit (Z.shiftr c 1) 31 = false.
Proof.
  intros Hc. split.
  - rewrite Z.shiftr_div_pow2 by lia. unfold is_w32 in *. change (2 ^ 1) with 2.
    split; [apply Z.div_pos; lia | apply Z.div_lt_upper_bound; lia].
  - rewrite Z.shiftr_spec by lia. by apply w32_high.
Qed.

Lemma round_w32 c : is_w32 c -> is_w32 (crc_round c).
Proof.
  intros Hc. rewrite round_odd. destruct (w32_shiftr c Hc) as [Hs _].
  destruct (Z.odd c); [apply w32_lxor; [by unfold is_w32 | done] | done].
Qed.

(** The low bit of the register can be read off the high bit of the result,
    because the polynomial has its top bit set. *)
Lemma round_inj c c' : is_w32 c -> is_w32 c' -> crc_round c = crc_round c' -> c = c'.
Proof.
  intros Hc Hc' E. destruct (w32_shiftr c Hc) as [_ Hs], (w32_shiftr c' Hc') as [_ Hs'].
  rewrite !round_odd in E.
  assert (Z.odd c = Z.odd c') as Ho.
  { apply (f_equal (fun x => Z.testbit x 31)) in E.
    destruct (Z.odd c), (Z.odd c'); try done; rewrite ?Z.lxor_spec, Hs, Hs' in E; by vm_compute in E. }
  assert (Z.shiftr c 1 = Z.shiftr c' 1) as Eh.
  { rewrite Ho in E. destruct (Z.odd c'); [|done].
    apply (f_equal (Z.lxor 0xEDB88320)) in E. by rewrite <- !Z.lxor_assoc, !Z.lxor_nilpotent, !Z.lxor_0_l in E. }
  rewrite !Z.shiftr_div_pow2 in Eh by lia. change (2 ^ 1) with 2 in Eh.
  rewrite (Z.div_mod c 2), (Z.div_mod c' 2), !Zmod_odd, Eh, Ho by lia. done.
Qed.

Lemma rounds_w32 n c : is_w32 c -> is_w32 (Nat.iter n crc_round c).
Proof. intros Hc. induction n as [|n IH]; [done|]. by apply round_w32. Qed.

Lemma rounds_inj n c c' : is_w32 c -> is_w32 c' -> Nat.iter n crc_round c = Nat.iter n crc_round c' -> c = c'.
Proof.
  intros Hc Hc'. induction n as [|n IH]; [done|]. intros E. apply IH. by apply round_inj; try apply rounds_w32.
Qed.

Lemma byte_w32 d : is_u8 d -> is_w32 d.
Proof. unfold is_w32. ulia. Qed.

Lemma serial_w32 data : bytes_ok data -> forall c, is_w32 c -> is_w32 (foldl serial_byte c data).
Proof.
  induction 1 as [|d data Hd _ IH]; intros c Hc; [done|]. simpl. apply IH, rounds_w32, w32_lxor; [done | by apply byte_w32].
Qed.

Lemma serial_inj data : bytes_ok data -> forall c c', is_w32 c -> is_w32 c' ->
  foldl serial_byte c data = foldl serial_byte c' data -> c = c'.
Proof.
  induction 1 as [|d data Hd _ IH]; intros c c' Hc Hc' E; [done|]. simpl in E. pose proof (byte_w32 d Hd).
  apply IH in E; try by apply rounds_w32, w32_lxor.
  apply rounds_inj in E; try by apply w32_lxor.
  apply (f_equal (Z.lxor d)) in E. rewrite !(Z.lxor_comm d), !Z.lxor_assoc, Z.lxor_nilpotent, !Z.lxor_0_r in E. done.
Qed.

(** Up to four bytes enter the register as one word. *)
Fixpoint word_of (data : list Z) : Z :=
  match data with [] => 0 | d :: data => Z.lxor d (Z.shiftl (word_of data) 8) end.

Lemma serial_word data : forall c,
  foldl serial_byte c data = Nat.iter (8 * length data) crc_round (Z.lxor c (word_of data)).
Proof.
  induction data as [|d data IH]; intros c; cbn [foldl length word_of]; [by rewrite Z.lxor_0_r|].
  rewrite IH. unfold serial_byte. rewrite <- Z.lxor_assoc.
  rewrite <- (rounds_add 8). change (Z.of_nat 8) with 8.
  replace (8 * S (length data))%nat with (8 * length data + 8)%nat by lia.
  by rewrite Nat.iter_add.
Qed.

Lemma word_bits data : bytes_ok data -> 0 <= word_of data /\
  forall i, 8 * Z.of_nat (length data) <= i -> Z.testbit (word_of data) i = false.
Proof.
  induction 1 as [|d data Hd _ [IH0 IH]]; cbn [word_of length].
  - split; [lia|]. intros i _. apply Z.bits_0.
  - split; [apply Z.lxor_nonneg; rewrite Z.shiftl_nonneg; ulia|]. intros i Hi.
    rewrite Z.lxor_spec, Z.shiftl_spec, IH, xorb_false_r by lia.
    rewrite <- (Z.mod_small d (2 ^ 8)) by ulia. by rewrite Z.mod_pow2_bits_high by lia.
Qed.

Lemma word_inj xs : forall ys, bytes_ok xs -> bytes_ok ys -> length xs = length ys -> word_of xs = word_of ys -> xs = ys.
Proof.
  induction xs as [|x xs IH]; intros [|y ys] Hx Hy Hl E; try done.
  apply Forall_cons in Hx as [Hx Hxs], Hy as [Hy Hys]. cbn [word_of] in E. injection Hl as Hl.
  assert (forall d w, is_u8 d -> Z.shiftr (Z.lxor d (Z.shiftl w 8)) 8 = w) as Hhigh.
  { intros d w Hd. rewrite Z.shiftr_lxor, (Z.shiftr_div_pow2 d), Z.div_small by ulia.
    by rewrite Z.lxor_0_l, Z.shiftr_shiftl_l, Z.shiftl_0_r by lia. }
  assert (word_of xs = word_of ys) as Ew. { rewrite <- (Hhigh x (word_of xs) Hx), <- (Hhigh y (word_of ys) Hy). by rewrite E. }
  f_equal; [|by apply IH]. rewrite Ew in E. apply (f_equal (fun z => Z.lxor z (Z.shiftl (word_of ys) 8))) in E.
  by rewrite !Z.lxor_assoc, Z.lxor_nilpotent, !Z.lxor_0_r in E.
Qed.

(** The table-driven checksum is the bit-serial one, whatever calls filled
    the table before. *)
Theorem crc32_is_bit_serial (history : list (list Z)) (data : list Z) :
  Forall bytes_ok history -> bytes_ok data ->
  (Crc32 (foldl (fun t d => (Crc32 t d).2) boot_table history) data).1 = serial_crc data.
Proof.
  intros Hh Hd. assert (table_fine (foldl (fun t d => (Crc32 t d).2) boot_table history)) as Ht.
  { assert (table_fine boot_table) as H0 by done. revert H0. generalize boot_table.
    induction Hh as [|d history Hb _ IH]; intros t Ht; [done|]. cbn [foldl]. apply IH. exact (proj2 (crc_serial t d Ht Hb)). }
  exact (proj1 (crc_serial _ _ Ht Hd)).
Qed.

(** The checksum detects every error confined to four consecutive bytes:
    two messages that differ there have different checksums. *)
Theorem crc32_detects_bursts t (pre xs ys post : list Z) :
  table_fine t -> bytes_ok (pre ++ xs ++ post) -> bytes_ok ys -> length xs = length ys -> (length xs <= 4)%nat ->
  xs <> ys -> (Crc32 t (pre ++ xs ++ post)).1 <> (Crc32 t (pre ++ ys ++ post)).1.
Proof.
  intros Ht Hall Hys Hlen H4 Hne E. unfold bytes_ok in *. rewrite !Forall_app in Hall. destruct Hall as (Hpre & Hxs & Hpost).
  assert (bytes_ok (pre ++ xs ++ post) /\ bytes_ok (pre ++ ys ++ post)) as [B1 B2].
  { unfold bytes_ok. by rewrite !Forall_app. }
  rewrite (proj1 (crc_serial t _ Ht B1)), (proj1 (crc_serial t _ Ht B2)) in E. unfold serial_crc in E.
  apply (f_equal (fun z => Z.lxor z 0xFFFFFFFF)) in E. rewrite !Z.lxor_assoc, Z.lxor_nilpotent, !Z.lxor_0_r in E.
  rewrite !foldl_app in E. set (c := foldl serial_byte 4294967295 pre) in E.
  assert (is_w32 c) as Hc. { apply serial_w32; [done | by unfold is_w32]. }
  assert (forall zs, bytes_ok zs -> (length zs <= 4)%nat -> is_w32 (word_of zs)) as Hw.
  { intros zs Hz Hl. destruct (word_bits zs Hz) as [Hz0 Hb]. apply w32_bits; [done|]. intros i Hi. apply Hb. lia. }
  apply serial_inj in E; [|done|by apply serial_w32..].
  rewrite !serial_word, Hlen in E. apply rounds_inj in E; try (apply w32_lxor; [done | apply Hw; [done | lia]]).
  apply (f_equal (Z.lxor c)) in E. rewrite <- !Z.lxor_assoc, Z.lxor_nilpotent, !Z.lxor_0_l in E.
  by apply Hne, word_inj.
Qed.

Lemma crc_selftest_passes : Crc32SelfTest boot_table = true.
Proof. vm_compute. reflexivity. Qed.

Lemma crc32_is_bit_serial_witness :
  (Crc32 (foldl (fun t d => (Crc32 t d).2) boot_table [[1; 2]; []]) [49; 50; 51]).1 = serial_crc [49; 50; 51].
Proof. apply crc32_is_bit_serial; repeat (constructor; [repeat constructor; vm_compute; discriminate|]); constructor. Defined.

Lemma crc32_detects_bursts_witness :
  (Crc32 boot_table ([1] ++ [2; 3] ++ [4])).1 <> (Crc32 boot_table ([1] ++ [2; 7] ++ [4])).1.
Proof.
  apply crc32_detects_bursts; try done; try (repeat constructor; vm_compute; discriminate); try (simpl; lia).
Defined.
End Crc.

(** ** Adler-32 *)

Module Adler.

Definition kAdler32Base : Z := 65521.
Definition kAdler32MaxRunBytes : nat := Z.to_nat 5552.

(** The inner loop's body, on 32-bit sums. *)
Definition sum_byte (s : Z * Z) (v : Z) : Z * Z :=
  let a := wrap32 (s.1 + v) in (a, wrap32 (s.2 + a)).

(** The outer loop; each turn takes at least one byte, so the length of the
    buffer is enough fuel. *)
Fixpoint sum_runs (fuel : nat) (s : Z * Z) (data : list Z) : Z * Z :=
  match fuel, data with
  | S fuel, _ :: _ =>
      let s := foldl sum_byte s (take kAdler32MaxRunBytes data) in
      sum_runs fuel (s.1 mod kAdler32Base, s.2 mod kAdler32Base) (drop kAdler32MaxRunBytes data)
  | _, _ => s
  end.

Definition Adler32Update (prev : Z) (data : list Z) : Z :=
  let s := sum_runs (length data) (Z.land prev 0xFFFF, Z.land (Z.shiftr prev 16) 0xFFFF) data in
  Z.lor (wrap32 (Z.shiftl s.2 16)) s.1.

Definition Adler32 (data : list Z) : Z := Adler32Update 1 data.

Definition Adler32SelfTest : bool :=
  let s := [87; 105; 107; 105; 112; 101; 100; 105; 97] in
  (Adler32 s =? 0x11E60398) && (Adler32 [] =? 1) && (Adler32 [97] =? 0x00620062)
  && (Adler32Update (Adler32 (take 4 s)) (drop 4 s) =? 0x11E60398) && (Adler32 (replicate 6000 0) =? 0x17700001).

(** The defining recurrence, reduced at every byte. *)
Definition ref_byte (s : Z * Z) (v : Z) : Z * Z :=
  let a := (s.1 + v) mod kAdler32Base in (a, (s.2 + a) mod kAdler32Base).

Definition pack (s : Z * Z) : Z := s.2 * 65536 + s.1.

(** *** No sum overflows within a run *)

(** Sums after [i] bytes of a run that began with 16-bit halves. *)
Definition within (i : Z) (s : Z * Z) : Prop :=
  0 <= s.1 <= 65535 + 255 * i /\ 0 <= s.2 /\ 2 * s.2 <= 2 * 65535 * (i + 1) + 255 * i * (i + 1).

Definition exact_byte (s : Z * Z) (v : Z) : Z * Z := (s.1 + v, s.2 + (s.1 + v)).

Lemma within_step i s v : 0 <= i < 5552 -> within i s -> is_u8 v ->
  sum_byte s v = exact_byte s v /\ within (i + 1) (exact_byte s v).
Proof.
  intros Hi (Ha & Hb & Hs) Hv. unfold sum_byte, exact_byte, within. cbn [fst snd].
  assert (2 * (s.2 + (s.1 + v)) <= 2 * 65535 * (i + 1 + 1) + 255 * (i + 1) * (i + 1 + 1)) as Hn by (unfold_widths; nia).
  assert (255 * (i + 1) * (i + 1 + 1) <= 255 * 5552 * 5553) by nia.
  rewrite (wrap32_small (s.1 + v)) by (unfold_widths; lia). rewrite wrap32_small by (unfold_widths; lia).
  split; [done|]. split_and!; unfold_widths; lia.
Qed.

Lemma run_exact data : forall i s, 0 <= i -> i + Z.of_nat (length data) <= 5552 -> within i s -> bytes_ok data ->
  foldl sum_byte s data = foldl exact_byte s data.
Proof.
  induction data as [|v data IH]; intros i s Hi Hl Hw Hd; [done|]. apply Forall_cons in Hd as [Hv Hd].
  cbn [foldl length] in *. destruct (within_step i s v ltac:(lia) Hw Hv) as [-> Hw'].
  apply (IH (i + 1)); try done; lia.
Qed.

(** *** Reduction commutes with the sums *)

Definition same_mod (s s' : Z * Z) : Prop :=
  s.1 mod kAdler32Base = s'.1 mod kAdler32Base /\ s.2 mod kAdler32Base = s'.2 mod kAdler32Base.

Lemma same_mod_step s s' v : same_mod s s' -> same_mod (exact_byte s v) (ref_byte s' v).
Proof.
  intros [H1 H2]. unfold same_mod, exact_byte, ref_byte. cbn [fst snd].
  assert ((s.1 + v) mod kAdler32Base = (s'.1 + v) mod kAdler32Base) as E.
  { by rewrite Z.add_mod, H1, <- Z.add_mod by done. }
  rewrite !Z.mod_mod by done. split; [done|].
  by rewrite Z.add_mod_idemp_r, Z.add_mod, H2, E, <- Z.add_mod by done.
Qed.

Lemma same_mod_run data : forall s s', same_mod s s' -> same_mod (foldl exact_byte s data) (foldl ref_byte s' data).
Proof. induction data as [|v data IH]; intros s s' Hs; [done|]. simpl. by apply IH, same_mod_step. Qed.

Definition reduced (s : Z * Z) : Prop := 0 <= s.1 < kAdler32Base /\ 0 <= s.2 < kAdler32Base.
Definition halves (s : Z * Z) : Prop := 0 <= s.1 <= 65535 /\ 0 <= s.2 <= 65535.

Lemma ref_reduced data s : data <> [] -> reduced (foldl ref_byte s data).
Proof.
  intros Hne. destruct data as [|v data _] using rev_ind; [done|]. rewrite foldl_snoc. unfold reduced, ref_byte. simpl.
  split; by apply Z.mod_pos_bound.
Qed.

Lemma reduced_halves s : reduced s -> halves s.
Proof. unfold reduced, halves, kAdler32Base. lia. Qed.

(** A run: as the recurrence over its bytes. *)
Lemma run_ref data s : halves s -> bytes_ok data -> (length data <= kAdler32MaxRunBytes)%nat -> data <> [] ->
  let s' := foldl sum_byte s data in (s'.1 mod kAdler32Base, s'.2 mod kAdler32Base) = foldl ref_byte s data.
Proof.
  intros [Ha Hb] Hd Hl Hne. cbn zeta.
  assert (within 0 s) as Hw by (unfold within; lia).
  rewrite (run_exact data 0 s) by (unfold kAdler32MaxRunBytes in *; try done; lia).
  destruct (same_mod_run data s s ltac:(done)) as [E1 E2]. destruct (ref_reduced data s Hne) as [R1 R2].
  rewrite E1, E2, !Z.mod_small by done. by destruct (foldl ref_byte s data).
Qed.

Lemma runs_ref fuel : forall data s, halves s -> bytes_ok data -> (length data <= fuel)%nat ->
  sum_runs fuel s data = foldl ref_byte s data.
Proof.
  induction fuel as [|fuel IH]; intros data s Hs Hd Hf; [by destruct data; simpl in Hf; [|lia]|].
  destruct data as [|v data]; [done|]. cbn [sum_runs].
  set (l := v :: data) in *. set (n := kAdler32MaxRunBytes).
  assert (bytes_ok (take n l) /\ bytes_ok (drop n l)) as [Ht Hdr] by by split; [apply Forall_take | apply Forall_drop].
  assert (take n l <> []) as Hne by done.
  rewrite (run_ref (take n l) s Hs Ht) by (try done; rewrite length_take; unfold n; lia).
  rewrite IH.
  - by rewrite <- foldl_app, take_drop.
  - by apply reduced_halves, ref_reduced.
  - done.
  - rewrite length_drop. unfold n, l, kAdler32MaxRunBytes in *. simpl in *. lia.
Qed.

(** *** The packed form *)

Definition unpack (x : Z) : Z * Z := (x mod 65536, (x / 65536) mod 65536).

Lemma update_unpack prev data : bytes_ok data ->
  Adler32Update prev data = pack (foldl ref_byte (unpack prev) data) /\ halves (foldl ref_byte (unpack prev) data).
Proof.
  intros Hd. unfold Adler32Update. change 65535 with (Z.ones 16). rewrite !Z.land_ones, Z.shiftr_div_pow2 by lia.
  change (2 ^ 16) with 65536. change (prev mod 65536, (prev / 65536) mod 65536) with (unpack prev).
  assert (halves (unpack prev)) as Hh.
  { unfold unpack, halves. simpl. pose proof (Z.mod_pos_bound prev 65536 ltac:(lia)).
    pose proof (Z.mod_pos_bound (prev / 65536) 65536 ltac:(lia)). lia. }
  rewrite runs_ref by done. set (s := foldl ref_byte (unpack prev) data).
  assert (halves s) as Hs. { unfold s. destruct data as [|v data]; [done|]. by apply reduced_halves, ref_reduced. }
  split; [|done]. destruct Hs as [H1 H2]. rewrite wrap32_small by (rewrite Z.shiftl_mul_pow2 by lia; change (2 ^ 16) with 65536; ulia).
  rewrite Z.lor_comm, lor_shift_add by (change (2 ^ 16) with 65536; lia). unfold pack. change (2 ^ 16) with 65536. lia.
Qed.

Lemma unpack_pack s : halves s -> unpack (pack s) = s.
Proof.
  intros [H1 H2]. unfold unpack, pack. rewrite packed_low, packed_high by lia. rewrite Z.mod_small by lia. by destruct s.
Qed.

(** The block-amortized sums never overflow 32 bits and equal the recurrence
    that reduces at every byte, for every starting value; and checksums
    stream: extending a checksum by a continuation is the checksum of the
    whole. *)
Theorem adler32_blocks_are_exact prev (data more : list Z) :
  bytes_ok data -> bytes_ok more ->
  Adler32Update prev data = pack (foldl ref_byte (unpack prev) data)
  /\ Adler32Update (Adler32Update prev data) more = Adler32Update prev (data ++ more)
  /\ is_u32 (Adler32Update prev data).
Proof.
  intros Hd Hm. destruct (update_unpack prev data Hd) as [E Hh]. split; [done|].
  assert (bytes_ok (data ++ more)) as Ha by by apply Forall_app.
  rewrite (proj1 (update_unpack prev _ Ha)), (proj1 (update_unpack _ more Hm)), E, unpack_pack, foldl_app by done.
  split; [done|]. destruct Hh as [H1 H2]. unfold pack. ulia.
Qed.

Lemma adler_selftest_passes : Adler32SelfTest = true.
Proof. vm_compute. reflexivity. Qed.

Lemma adler32_blocks_are_exact_witness :
  Adler32Update (Adler32Update 0xFFFFFFFF [1; 2]) [3] = Adler32Update 0xFFFFFFFF ([1; 2] ++ [3]).
Proof.
  apply (adler32_blocks_are_exact 0xFFFFFFFF [1; 2] [3]); repeat constructor; vm_compute; discriminate.
Defined.
End Adler.
