(* ===== verification/Base64.v ===== *)
(** * Base64

    Model of [kernel/util/base64.h] and [kernel/util/base64.cpp].  Characters
    are their codes.  A null pointer is [None] for the input and [false] for
    the output; both functions write their output buffer from the front, so
    what they wrote is returned as the list of bytes written.  The decode
    table is lazily filled global state, threaded explicitly. *)

From Stdlib Require Import Ascii String.
From S2P Require Import Prelude Bytes KObject.

Definition codes (s : string) : list Z := (fun c => Z.of_nat (nat_of_ascii c)) <$> list_ascii_of_string s.

Definition k_alphabet : list Z := codes "ABCDEFGHIJKLMNOPQRSTUVWXYZabcdefghijklmnopqrstuvwxyz0123456789+/".
Definition kPad : Z := 0xFE.
Definition kWs : Z := 0xFD.
Definition kBad : Z := 0xFF.
Definition pad_char : Z := 61.

Definition Base64EncodedLen (input_len : Z) : Z := wrap32 (wrap32 (input_len + 2) / 3 * 4).
Definition Base64DecodedMaxLen (encoded_len : Z) : Z := wrap32 (encoded_len / 4 * 3).

(** ** Encoding *)

(** [k_alphabet[(v >> shift) & 0x3F]]. *)
Definition sextet (v shift : Z) : Z := nth (Z.to_nat (Z.land (Z.shiftr v shift) 63)) k_alphabet 0.

Definition triple (a b c : Z) : Z := Z.lor (Z.lor (Z.shiftl a 16) (Z.shiftl b 8)) c.

Fixpoint encode_loop (data : list Z) : list Z :=
  match data with
  | a :: b :: c :: rest =>
      let v := triple a b c in sextet v 18 :: sextet v 12 :: sextet v 6 :: sextet v 0 :: encode_loop rest
  | [a; b] => let v := Z.lor (Z.shiftl a 16) (Z.shiftl b 8) in [sextet v 18; sextet v 12; sextet v 6; pad_char]
  | [a] => let v := Z.shiftl a 16 in [sextet v 18; sextet v 12; pad_char; pad_char]
  | [] => []
  end.

(** The count and the characters written. *)
Definition Base64Encode (data : option (list Z)) (has_out : bool) : Z * list Z :=
  match data with
  | Some data => if has_out then let out := encode_loop data in (wrap32 (Z.of_nat (length out)), out) else (0, [])
  | None => (0, [])
  end.

(** ** Decoding *)

Record DecodeTable := MkDecodeTable { g_decode_table : list Z; g_decode_ready : bool }.
Definition boot_decode : DecodeTable := MkDecodeTable (replicate 256 0) false.

Definition store (t : list Z) (entry : Z * Z) : list Z := <[Z.to_nat entry.1 := entry.2]> t.

Definition filled_table : list Z :=
  let t := foldl store (replicate 256 kBad) (imap (fun i c => (c, Z.of_nat i)) k_alphabet) in
  foldl store t [(pad_char, kPad); (32, kWs); (9, kWs); (13, kWs); (10, kWs)].

Definition InitDecodeTable (t : DecodeTable) : DecodeTable :=
  if g_decode_ready t then t else MkDecodeTable filled_table true.

(** The locals of the loop: the group being filled, what was written, and the
    padding seen. *)
Record DecodeState := MkDecode { quad : list Z; written : list Z; pad_seen : Z; past_pad : bool }.

Definition put (capacity : Z) (out : list Z) (byte : Z) : Result (list Z) :=
  if capacity <=? Z.of_nat (length out) then inl EBufferTooSmall else inr (out ++ [byte]).

(** A full group: the bytes written with it, and whether it was padded. *)
Definition resolve (capacity : Z) (out : list Z) (a b c d : Z) : (ErrorCode * list Z) + (list Z * bool) :=
  if (a =? kPad) || (b =? kPad) then inl (ECorrupt, out)
  else if (c =? kPad) && negb (d =? kPad) then inl (ECorrupt, out)
  else
    let val := Z.lor (Z.lor (Z.lor (Z.shiftl a 18) (Z.shiftl b 12)) (Z.shiftl (if c =? kPad then 0 else c) 6))
                 (if d =? kPad then 0 else d) in
    match put capacity out (Z.land (Z.shiftr val 16) 255) with
    | inl e => inl (e, out)
    | inr out =>
        match (if negb (c =? kPad) then put capacity out (Z.land (Z.shiftr val 8) 255) else inr out) with
        | inl e => inl (e, out)
        | inr out =>
            match (if negb (d =? kPad) then put capacity out (Z.land val 255) else inr out) with
            | inl e => inl (e, out)
            | inr out => inr (out, (c =? kPad) || (d =? kPad))
            end
        end
    end.

(** One turn of the loop. *)
Definition decode_char (table : list Z) (capacity : Z) (s : DecodeState) (ch : Z) : (ErrorCode * list Z) + DecodeState :=
  let v := nth (Z.to_nat ch) table 0 in
  if v =? kWs then inr s
  else if v =? kBad then inl (ECorrupt, written s)
  else if past_pad s && negb (v =? kWs) then inl (ECorrupt, written s)
  else if (v =? kPad) && (2 <? pad_seen s + 1) then inl (ECorrupt, written s)
  else if negb (v =? kPad) && negb (pad_seen s =? 0) then inl (ECorrupt, written s)
  else
    let pads := if v =? kPad then pad_seen s + 1 else pad_seen s in
    match quad s ++ [v] with
    | [a; b; c; d] =>
        match resolve capacity (written s) a b c d with
        | inl e => inl e
        | inr (out, padded) => inr (MkDecode [] out pads (past_pad s || padded))
        end
    | q => inr (MkDecode q (written s) pads (past_pad s))
    end.

Fixpoint decode_loop (table : list Z) (capacity : Z) (s : DecodeState) (chars : list Z) : (ErrorCode * list Z) + DecodeState :=
  match chars with
  | [] => inr s
  | ch :: chars =>
      match decode_char table capacity s ch with
      | inl e => inl e
      | inr s => decode_loop table capacity s chars
      end
  end.

(** The result, the bytes written and the table. *)
Definition Base64Decode (t : DecodeTable) (chars : option (list Z)) (has_out : bool) (capacity : Z)
    : Result Z * list Z * DecodeTable :=
  match chars with
  | Some chars =>
      if has_out
      then
        let t := InitDecodeTable t in
        match decode_loop (g_decode_table t) capacity (MkDecode [] [] 0 false) chars with
        | inl (e, out) => (inl e, out, t)
        | inr s => if negb (length (quad s) =? 0)%nat then (inl ECorrupt, written s, t)
                   else (inr (Z.of_nat (length (written s))), written s, t)
        end
      else (inl EInvalidArgument, [], t)
  | None => (inl EInvalidArgument, [], t)
  end.

(** ** The boot self test *)

Definition same_bytes (x y : list Z) : bool := bool_decide (x = y).

Definition vector_passes (t : DecodeTable) (raw encoded : string) : bool :=
  let '(n, out) := Base64Encode (Some (codes raw)) true in
  let '(r, dec, _) := Base64Decode t (Some (codes encoded)) true 16 in
  (n =? Z.of_nat (length (codes encoded))) && same_bytes out (codes encoded)
  && bool_decide (r = inr (Z.of_nat (length (codes raw)))) && same_bytes dec (codes raw).

Definition refuses (t : DecodeTable) (encoded : string) (capacity : Z) : bool :=
  match Base64Decode t (Some (codes encoded)) true capacity with (inl _, _, _) => true | _ => false end.

Definition Base64SelfTest (t : DecodeTable) : bool :=
  let t := InitDecodeTable t in
  forallb (fun v => vector_passes t v.1 v.2)
    [(""%string, ""%string); ("f", "Zg=="); ("fo", "Zm8="); ("foo", "Zm9v"); ("foob", "Zm9vYg==");
     ("fooba", "Zm9vYmE="); ("foobar", "Zm9vYmFy")]%string
  && (let '(r, dec, _) := Base64Decode t (Some (codes "Zm9v" ++ [13; 10] ++ codes "YmFy")) true 8 in
      bool_decide (r = inr 6) && same_bytes dec (codes "foobar"))
  && refuses t "Zm$v" 8 && refuses t "Zm9" 8 && refuses t "Z=9v" 8 && refuses t "Zm9vYmFy" 1.

Lemma base64_selftest_passes : Base64SelfTest boot_decode = true.
Proof. vm_compute. reflexivity. Qed.

(** ** The table *)

Definition decode_fine (t : DecodeTable) : Prop := g_decode_ready t = true -> g_decode_table t = filled_table.

Definition char_of (q : Z) : Z := nth (Z.to_nat q) k_alphabet 0.
Definition value_of (ch : Z) : Z := nth (Z.to_nat ch) filled_table 0.
Definition is_ws (ch : Z) : bool := value_of ch =? kWs.

Lemma value_char q : 0 <= q < 64 -> value_of (char_of q) = q.
Proof.
  intros Hq. unfold value_of, char_of.
  pose proof (small_nat (fun n => nth (Z.to_nat (nth n k_alphabet 0)) filled_table 0 =? Z.of_nat n) 64) as H.
  specialize (H ltac:(vm_compute; reflexivity) q Hq). cbv beta in H. apply Z.eqb_eq in H. by rewrite H, Z2Nat.id by lia.
Qed.

Lemma value_pad : value_of pad_char = kPad.
Proof. reflexivity. Qed.

(** ** One character *)

Lemma step_alpha cap s q : 0 <= q < 64 -> past_pad s = false -> pad_seen s = 0 ->
  decode_char filled_table cap s (char_of q) =
  match quad s ++ [q] with
  | [a; b; c; d] =>
      match resolve cap (written s) a b c d with
      | inl e => inl e
      | inr (out, padded) => inr (MkDecode [] out 0 padded)
      end
  | qs => inr (MkDecode qs (written s) 0 false)
  end.
Proof.
  intros Hq Hp Hs. unfold decode_char. change (nth (Z.to_nat (char_of q)) filled_table 0) with (value_of (char_of q)).
  rewrite value_char, Hp, Hs by done. unfold kWs, kBad, kPad.
  replace (q =? 253) with false by lia. replace (q =? 255) with false by lia. replace (q =? 254) with false by lia. done.
Qed.

Lemma step_pad cap s : past_pad s = false -> pad_seen s < 2 ->
  decode_char filled_table cap s pad_char =
  match quad s ++ [kPad] with
  | [a; b; c; d] =>
      match resolve cap (written s) a b c d with
      | inl e => inl e
      | inr (out, padded) => inr (MkDecode [] out (pad_seen s + 1) padded)
      end
  | qs => inr (MkDecode qs (written s) (pad_seen s + 1) false)
  end.
Proof.
  intros Hp Hs. unfold decode_char. change (nth (Z.to_nat pad_char) filled_table 0) with kPad. rewrite Hp.
  simpl. replace (2 <? pad_seen s + 1) with false by lia. done.
Qed.

(** ** Groups *)

Lemma sextet_digit v k : sextet v k = char_of (Z.land (Z.shiftr v k) 63).
Proof. done. Qed.

Lemma digit_range x : 0 <= Z.land x 63 < 64.
Proof. change 63 with (Z.ones 6). rewrite Z.land_ones by lia. by apply Z.mod_pos_bound. Qed.

Lemma digit_arith v k : 0 <= k -> Z.land (Z.shiftr v k) 63 = (v / 2 ^ k) mod 64.
Proof. intros Hk. change 63 with (Z.ones 6). by rewrite Z.land_ones, Z.shiftr_div_pow2 by lia. Qed.

Lemma triple_arith a b c : is_u8 a -> is_u8 b -> is_u8 c -> triple a b c = a * 65536 + b * 256 + c.
Proof.
  intros Ha Hb Hc. unfold triple. rewrite <- Z.lor_assoc, (shift_lor b c 8), shift_lor by ulia. ulia.
Qed.

(** The word of four sextets. *)
Lemma group_word a b c d : 0 <= a < 64 -> 0 <= b < 64 -> 0 <= c < 64 -> 0 <= d < 64 ->
  Z.lor (Z.lor (Z.lor (Z.shiftl a 18) (Z.shiftl b 12)) (Z.shiftl c 6)) d = a * 262144 + b * 4096 + c * 64 + d.
Proof.
  intros Ha Hb Hc Hd. rewrite <- !Z.lor_assoc, (shift_lor c d 6), (shift_lor b _ 12), (shift_lor a _ 18) by lia. lia.
Qed.

Lemma put_room cap out x : Z.of_nat (length out) < cap -> put cap out x = inr (out ++ [x]).
Proof. intros H. unfold put. by replace (cap <=? Z.of_nat (length out)) with false by lia. Qed.

Lemma not_pad q : 0 <= q < 64 -> (q =? kPad) = false.
Proof. unfold kPad. lia. Qed.

(** The bytes of a group: [bytes] of them, the rest being padding. *)
Lemma resolve_full cap out a b c d :
  0 <= a < 64 -> 0 <= b < 64 -> 0 <= c < 64 -> 0 <= d < 64 -> Z.of_nat (length out) + 3 <= cap ->
  let val := a * 262144 + b * 4096 + c * 64 + d in
  resolve cap out a b c d = inr (out ++ [(val / 65536) mod 256; (val / 256) mod 256; val mod 256], false).
Proof.
  intros Ha Hb Hc Hd Hcap val. unfold resolve. rewrite !not_pad by done. cbn [orb andb negb].
  rewrite group_word by done. fold val. rewrite !land_255, !Z.shiftr_div_pow2 by lia.
  change (2 ^ 16) with 65536. change (2 ^ 8) with 256.
  rewrite put_room by lia. rewrite put_room by (rewrite length_app; simpl; lia).
  rewrite put_room by (rewrite !length_app; simpl; lia). by rewrite <- !app_assoc.
Qed.

Lemma resolve_two cap out a b c :
  0 <= a < 64 -> 0 <= b < 64 -> 0 <= c < 64 -> Z.of_nat (length out) + 2 <= cap ->
  let val := a * 262144 + b * 4096 + c * 64 in
  resolve cap out a b c kPad = inr (out ++ [(val / 65536) mod 256; (val / 256) mod 256], true).
Proof.
  intros Ha Hb Hc Hcap val. unfold resolve. rewrite !not_pad by done. change (kPad =? kPad) with true. cbn [orb andb negb].
  rewrite group_word by lia. replace (a * 262144 + b * 4096 + c * 64 + 0) with val by lia.
  rewrite !land_255, !Z.shiftr_div_pow2 by lia. change (2 ^ 16) with 65536. change (2 ^ 8) with 256.
  rewrite put_room by lia. rewrite put_room by (rewrite length_app; simpl; lia). by rewrite <- !app_assoc.
Qed.

Lemma resolve_one cap out a b :
  0 <= a < 64 -> 0 <= b < 64 -> Z.of_nat (length out) + 1 <= cap ->
  resolve cap out a b kPad kPad = inr (out ++ [((a * 262144 + b * 4096) / 65536) mod 256], true).
Proof.
  intros Ha Hb Hcap. unfold resolve. rewrite !not_pad by done. change (kPad =? kPad) with true. cbn [orb andb negb].
  rewrite group_word by lia. replace (a * 262144 + b * 4096 + 0 * 64 + 0) with (a * 262144 + b * 4096) by lia.
  rewrite !land_255, !Z.shiftr_div_pow2 by lia. change (2 ^ 16) with 65536. by rewrite put_room by lia.
Qed.

Lemma loop_group cap out a b c rest : is_u8 a -> is_u8 b -> is_u8 c -> Z.of_nat (length out) + 3 <= cap ->
  let v := triple a b c in
  decode_loop filled_table cap (MkDecode [] out 0 false) (sextet v 18 :: sextet v 12 :: sextet v 6 :: sextet v 0 :: rest)
  = decode_loop filled_table cap (MkDecode [] (out ++ [a; b; c]) 0 false) rest.
Proof.
  intros Ha Hb Hc Hcap v. rewrite !sextet_digit. cbn [decode_loop].
  do 4 (rewrite step_alpha by (done || apply digit_range); cbn [quad written app]).
  rewrite resolve_full by (done || apply digit_range). rewrite !digit_arith by lia. unfold v. rewrite triple_arith by done.
  change (2 ^ 18) with 262144. change (2 ^ 12) with 4096. change (2 ^ 6) with 64. change (2 ^ 0) with 1.
  do 2 f_equal. f_equal. unfold_widths. repeat f_equal; Z.to_euclidean_division_equations; lia.
Qed.

Lemma loop_two cap out a b : is_u8 a -> is_u8 b -> Z.of_nat (length out) + 2 <= cap ->
  decode_loop filled_table cap (MkDecode [] out 0 false) (encode_loop [a; b]) = inr (MkDecode [] (out ++ [a; b]) 1 true).
Proof.
  intros Ha Hb Hcap. cbn [encode_loop]. rewrite !sextet_digit. cbn [decode_loop].
  do 3 (rewrite step_alpha by (done || apply digit_range); cbn [quad written app]).
  rewrite step_pad by done. cbn [quad written app pad_seen].
  rewrite resolve_two by (done || apply digit_range). rewrite !digit_arith by lia.
  rewrite shift_lor by (rewrite ?Z.shiftl_mul_pow2; ulia). rewrite Z.shiftl_mul_pow2 by lia.
  change (2 ^ 18) with 262144. change (2 ^ 16) with 65536. change (2 ^ 12) with 4096. change (2 ^ 8) with 256. change (2 ^ 6) with 64.
  do 3 f_equal. unfold_widths. repeat f_equal; Z.to_euclidean_division_equations; lia.
Qed.

Lemma loop_one cap out a : is_u8 a -> Z.of_nat (length out) + 1 <= cap ->
  decode_loop filled_table cap (MkDecode [] out 0 false) (encode_loop [a]) = inr (MkDecode [] (out ++ [a]) 2 true).
Proof.
  intros Ha Hcap. cbn [encode_loop]. rewrite !sextet_digit. cbn [decode_loop].
  do 2 (rewrite step_alpha by (done || apply digit_range); cbn [quad written app]).
  do 2 (rewrite step_pad by done; cbn [quad written app pad_seen]).
  rewrite resolve_one by (done || apply digit_range). rewrite !digit_arith, Z.shiftl_mul_pow2 by lia.
  change (2 ^ 18) with 262144. change (2 ^ 16) with 65536. change (2 ^ 12) with 4096.
  do 3 f_equal. unfold_widths. repeat f_equal; Z.to_euclidean_division_equations; lia.
Qed.

Lemma loop_roundtrip cap : forall n data out, (length data <= n)%nat -> bytes_ok data ->
  Z.of_nat (length out) + Z.of_nat (length data) <= cap ->
  exists pads past, decode_loop filled_table cap (MkDecode [] out 0 false) (encode_loop data)
    = inr (MkDecode [] (out ++ data) pads past).
Proof.
  induction n as [|n IH]; intros data out Hn Hd Hcap.
  { destruct data; [|simpl in Hn; lia]. rewrite app_nil_r. by eexists _, _. }
  destruct data as [|a [|b [|c rest]]].
  - rewrite app_nil_r. by eexists _, _.
  - rewrite loop_one; [by eexists _, _ | by apply Forall_cons in Hd as [? _] | simpl in Hcap; lia].
  - unfold bytes_ok in Hd. rewrite !Forall_cons in Hd. destruct Hd as (Ha & Hb & _). rewrite loop_two; [by eexists _, _ | done..|simpl in Hcap; lia].
  - unfold bytes_ok in Hd. rewrite !Forall_cons in Hd. destruct Hd as (Ha & Hb & Hc & Hd). cbn [encode_loop length] in *.
    rewrite loop_group by (done || lia).
    destruct (IH rest (out ++ [a; b; c])) as (pads & past & E); [lia | done | rewrite length_app; simpl; lia|].
    exists pads, past. by rewrite E, <- app_assoc.
Qed.

(** ** Whitespace *)

Lemma loop_filter cap chars : forall s,
  decode_loop filled_table cap s chars = decode_loop filled_table cap s (filter (fun ch => is_ws ch = false) chars).
Proof.
  induction chars as [|ch chars IH]; intros s; [done|]. cbn [decode_loop]. rewrite filter_cons.
  destruct (decide (is_ws ch = false)) as [Hw|Hw].
  - cbn [decode_loop]. destruct (decode_char filled_table cap s ch); [done | apply IH].
  - apply not_false_iff_true in Hw. unfold decode_char. change (nth (Z.to_nat ch) filled_table 0) with (value_of ch).
    unfold is_ws in Hw. rewrite Hw. apply IH.
Qed.

(** Encoded text has no whitespace. *)
Lemma sextet_not_ws v k : is_ws (sextet v k) = false.
Proof. rewrite sextet_digit. unfold is_ws. rewrite value_char by apply digit_range. pose proof (digit_range (Z.shiftr v k)). unfold kWs. lia. Qed.

Lemma encode_no_ws : forall n data, (length data <= n)%nat -> filter (fun ch => is_ws ch = false) (encode_loop data) = encode_loop data.
Proof.
  induction n as [|n IH]; intros data Hn; [by destruct data; [|simpl in Hn; lia]|].
  destruct data as [|a [|b [|c rest]]]; cbn [encode_loop length] in *; rewrite ?filter_cons, ?filter_nil.
  - done.
  - rewrite !decide_True by (apply sextet_not_ws || done). done.
  - rewrite !decide_True by (apply sextet_not_ws || done). done.
  - rewrite !decide_True by apply sextet_not_ws. by rewrite IH by lia.
Qed.

(** ** Lengths *)

Lemma encode_length : forall n data, (length data <= n)%nat ->
  Z.of_nat (length (encode_loop data)) = (Z.of_nat (length data) + 2) / 3 * 4.
Proof.
  induction n as [|n IH]; intros data Hn; [by destruct data; [|simpl in Hn; lia]|].
  destruct data as [|a [|b [|c rest]]]; [done..|]. cbn [encode_loop length] in *.
  specialize (IH rest ltac:(lia)). Z.to_euclidean_division_equations. lia.
Qed.

(** Every four characters that count give at most three bytes, within the
    capacity. *)
Definition progress (cap : Z) (n : Z) (s : DecodeState) : Prop :=
  Z.of_nat (length (quad s)) < 4 /\ Z.of_nat (length (written s)) <= Z.max 0 cap
  /\ (exists groups, Z.of_nat (length (written s)) <= 3 * groups /\ 4 * groups + Z.of_nat (length (quad s)) <= n)
  /\ (length (quad s) <= 3)%nat.

Lemma put_spec cap out x out' : put cap out x = inr out' -> Z.of_nat (length out') <= Z.max 0 cap /\ length out' = S (length out).
Proof. unfold put. destruct (cap <=? _) eqn:E; [done|]. intros [= <-]. rewrite length_app. simpl. lia. Qed.

Lemma resolve_length cap out a b c d out' padded :
  resolve cap out a b c d = inr (out', padded) -> Z.of_nat (length out) <= Z.max 0 cap ->
  Z.of_nat (length out') <= Z.max 0 cap /\ (length out' <= length out + 3)%nat.
Proof.
  unfold resolve. intros H Hc. repeat (case_match; try done); simplify_eq;
    repeat match goal with H : put _ _ _ = inr _ |- _ => apply put_spec in H as [? ?] end; lia.
Qed.

Lemma char_progress table cap n s ch s' :
  decode_char table cap s ch = inr s' -> progress cap n s -> progress cap (n + 1) s'.
Proof.
  intros H (P1 & P2 & (g & G1 & G2) & P4). unfold decode_char in H. revert H. generalize (nth (Z.to_nat ch) table 0). intros v H.
  destruct (v =? kWs); [injection H as <-; unfold progress; split_and!; try lia; exists g; lia|]. destruct (v =? kBad); [done|].
  destruct (past_pad s && negb false); [done|]. destruct ((v =? kPad) && _); [done|].
  destruct (negb (v =? kPad) && _); [done|]. cbv zeta in H. revert H.
  generalize (if v =? kPad then pad_seen s + 1 else pad_seen s). intros pads H. unfold progress.
  destruct (quad s) as [|a [|b [|c [|d q]]]]; cbn [length app] in *; try lia.
  1-3: injection H as <-; cbn [length written quad] in *; split_and!; try lia; exists g; lia.
  destruct (resolve cap (written s) a b c v) as [e|[out padded]] eqn:E; [done|]. injection H as <-.
  apply resolve_length in E as [? ?]; [|done]. cbn [length written quad] in *. split_and!; try lia. exists (g + 1). lia.
Qed.

Lemma loop_progress table cap chars : forall n s s',
  decode_loop table cap s chars = inr s' -> progress cap n s -> progress cap (n + Z.of_nat (length chars)) s'.
Proof.
  induction chars as [|ch chars IH]; intros n s s' H Hp; cbn [decode_loop length] in *.
  - injection H as ->. by rewrite Z.add_0_r.
  - destruct (decode_char table cap s ch) as [e|s1] eqn:E; [done|].
    replace (n + Z.of_nat (S (length chars))) with (n + 1 + Z.of_nat (length chars)) by lia.
    eapply IH; [done|]. by eapply char_progress.
Qed.

(** ** What the codec promises *)

Lemma decode_table t : decode_fine t -> g_decode_table (InitDecodeTable t) = filled_table.
Proof. intros Ht. unfold InitDecodeTable. destruct (g_decode_ready t) eqn:E; [by apply Ht | done]. Qed.

(** Round trip: the encoder writes exactly [Base64EncodedLen] characters, and
    the decoder gives back the bytes and their number from that text with any
    whitespace inserted, whatever calls filled the table before, as long as
    the output has room and the encoded length fits 32 bits. *)
Theorem base64_roundtrip t (data text : list Z) cap :
  decode_fine t -> bytes_ok data -> Z.of_nat (length data) <= cap ->
  (Z.of_nat (length data) + 2) / 3 * 4 <= u32_max ->
  filter (fun ch => is_ws ch = false) text = (Base64Encode (Some data) true).2 ->
  (Base64Encode (Some data) true).1 = Base64EncodedLen (Z.of_nat (length data))
  /\ (Base64Decode t (Some text) true cap).1 = (inr (Z.of_nat (length data)), data).
Proof.
  intros Ht Hd Hcap Hlen Htext. cbn [Base64Encode fst snd] in *. split.
  - rewrite (encode_length _ data (Nat.le_refl _)). unfold Base64EncodedLen.
    pose proof (Z.div_pos (Z.of_nat (length data) + 2) 3 ltac:(lia) ltac:(lia)).
    assert (Z.of_nat (length data) + 2 <= u32_max) by (unfold_widths; Z.to_euclidean_division_equations; lia).
    by rewrite (wrap32_small (_ + 2)) by ulia.
  - unfold Base64Decode. rewrite (decode_table t Ht), loop_filter, Htext.
    destruct (loop_roundtrip cap _ data [] (Nat.le_refl _) Hd ltac:(simpl; lia)) as (pads & past & ->). done.
Qed.

(** Bounds: a decode that succeeds reports exactly what it wrote, which fits
    the capacity and the advertised maximum for the length of the text. *)
Theorem base64_decode_bounded t (chars : list Z) cap n out t' :
  is_u32 (Z.of_nat (length chars)) -> 0 <= cap ->
  Base64Decode t (Some chars) true cap = (inr n, out, t') ->
  n = Z.of_nat (length out) /\ n <= cap /\ n <= Base64DecodedMaxLen (Z.of_nat (length chars)).
Proof.
  intros Hl Hcap H. unfold Base64Decode in H.
  destruct (decode_loop _ cap _ chars) as [[e o]|s] eqn:E; [done|].
  apply (loop_progress _ _ _ 0) in E as (_ & P2 & (g & G1 & G2) & _); [|unfold progress; simpl; split_and!; try lia; exists 0; lia].
  destruct (length (quad s)) as [|k] eqn:Hq; simpl in H; [|done]. injection H as <- <- _.
  split; [done|]. split; [lia|]. unfold Base64DecodedMaxLen.
  rewrite wrap32_small by (unfold_widths; Z.to_euclidean_division_equations; lia).
  Z.to_euclidean_division_equations. lia.
Qed.

Lemma base64_roundtrip_witness :
  (Base64Decode boot_decode (Some (codes "Zm9v" ++ [13; 10] ++ codes "Yg==")) true 4).1 = (inr 4, codes "foob").
Proof.
  apply (base64_roundtrip boot_decode (codes "foob") (codes "Zm9v" ++ [13; 10] ++ codes "Yg==") 4).
  - discriminate.
  - repeat constructor; vm_compute; discriminate.
  - vm_compute. discriminate.
  - vm_compute. discriminate.
  - vm_compute. reflexivity.
Defined.

Lemma base64_decode_bounded_witness :
  exists n out t', Base64Decode boot_decode (Some (codes "Zm8=")) true 2 = (inr n, out, t')
    /\ n = Z.of_nat (length out) /\ n <= 2 /\ n <= Base64DecodedMaxLen 4.
Proof.
  eexists _, _, _. split; [vm_compute; reflexivity|].
  apply (base64_decode_bounded boot_decode (codes "Zm8=") 2 2 (codes "fo") (MkDecodeTable filled_table true)).
  - split; vm_compute; discriminate.
  - lia.
  - vm_compute. reflexivity.
Defined.
