(* ===== verification/Unicode.v ===== *)
(** * UTF-8 and UTF-16

    Model of [kernel/util/unicode.h] and [kernel/util/unicode.cpp].  An
    encoder returns what it wrote, nothing for its error value 0; a decoder
    returns the units consumed and the code point, or [None] for 0, when it
    leaves the output reference alone. *)

From S2P Require Import Prelude Bytes.

Definition kUtf8MaxBytes : Z := 4.
Definition kUtf16MaxUnits : Z := 2.
Definition kUnicodeMaxCodepoint : Z := 0x10FFFF.
Definition kUtf16SurrogateLo : Z := 0xD800.
Definition kUtf16SurrogateHi : Z := 0xDFFF.
Definition kUnicodeReplacement : Z := 0xFFFD.

Definition IsSurrogate (cp : Z) : bool := (kUtf16SurrogateLo <=? cp) && (cp <=? kUtf16SurrogateHi).
Definition IsHighSurrogate (unit : Z) : bool := (0xD800 <=? unit) && (unit <=? 0xDBFF).
Definition IsLowSurrogate (unit : Z) : bool := (0xDC00 <=? unit) && (unit <=? 0xDFFF).

(** ** UTF-8 *)

Definition Utf8Encode (cp : Z) : list Z :=
  if (kUnicodeMaxCodepoint <? cp) || IsSurrogate cp then []
  else if cp <? 0x80 then [wrap8 cp]
  else if cp <? 0x800 then [wrap8 (Z.lor 0xC0 (Z.shiftr cp 6)); wrap8 (Z.lor 0x80 (Z.land cp 0x3F))]
  else if cp <? 0x10000
  then [wrap8 (Z.lor 0xE0 (Z.shiftr cp 12)); wrap8 (Z.lor 0x80 (Z.land (Z.shiftr cp 6) 0x3F));
        wrap8 (Z.lor 0x80 (Z.land cp 0x3F))]
  else [wrap8 (Z.lor 0xF0 (Z.shiftr cp 18)); wrap8 (Z.lor 0x80 (Z.land (Z.shiftr cp 12) 0x3F));
        wrap8 (Z.lor 0x80 (Z.land (Z.shiftr cp 6) 0x3F)); wrap8 (Z.lor 0x80 (Z.land cp 0x3F))].

(** The loop over the continuation bytes. *)
Fixpoint continuation (value : Z) (bytes : list Z) : option Z :=
  match bytes with
  | [] => Some value
  | cb :: bytes =>
      if negb (Z.land cb 0xC0 =? 0x80) then None
      else continuation (Z.lor (wrap32 (Z.shiftl value 6)) (Z.land cb 0x3F)) bytes
  end.

(** The lead byte: the length of the sequence, its first bits, and the least
    code point of that length. *)
Definition lead (b0 : Z) : option (nat * Z * Z) :=
  if Z.land b0 0xE0 =? 0xC0 then Some (2%nat, Z.land b0 0x1F, 0x80)
  else if Z.land b0 0xF0 =? 0xE0 then Some (3%nat, Z.land b0 0x0F, 0x800)
  else if Z.land b0 0xF8 =? 0xF0 then Some (4%nat, Z.land b0 0x07, 0x10000)
  else None.

Definition Utf8Decode (input : list Z) : option (nat * Z) :=
  match input with
  | [] => None
  | b0 :: rest =>
      if b0 <? 0x80 then Some (1%nat, b0)
      else
        match lead b0 with
        | None => None
        | Some (needed, value, min_value) =>
            if (length input <? needed)%nat then None
            else
              match continuation value (take (needed - 1) rest) with
              | None => None
              | Some value =>
                  if value <? min_value then None
                  else if kUnicodeMaxCodepoint <? value then None
                  else if IsSurrogate value then None
                  else Some (needed, value)
              end
        end
  end.

(** ** UTF-16 *)

Definition Utf16Encode (cp : Z) : list Z :=
  if (kUnicodeMaxCodepoint <? cp) || IsSurrogate cp then []
  else if cp <? 0x10000 then [wrap16 cp]
  else
    let v := cp - 0x10000 in
    [wrap16 (Z.lor 0xD800 (Z.shiftr v 10)); wrap16 (Z.lor 0xDC00 (Z.land v 0x3FF))].

Definition Utf16Decode (input : list Z) : option (nat * Z) :=
  match input with
  | [] => None
  | u0 :: rest =>
      if IsLowSurrogate u0 then None
      else if negb (IsHighSurrogate u0) then Some (1%nat, u0)
      else
        match rest with
        | [] => None
        | u1 :: _ =>
            if negb (IsLowSurrogate u1) then None
            else Some (2%nat, wrap32 (0x10000 + Z.lor (wrap32 (Z.shiftl (u0 - 0xD800) 10)) (u1 - 0xDC00)))
        end
  end.

(** ** File names *)

Definition question : Z := 63.

Definition Utf16CpToSafeAscii (cp : Z) : Z :=
  if cp =? 0 then 0 else if (0x20 <=? cp) && (cp <? 0x7F) then cp else question.

(** The code unit at index [i] of little-endian bytes. *)
Definition unit_at (bytes : list Z) (i : nat) : Z :=
  Z.lor (byte_at bytes (i * 2)) (wrap16 (Z.shiftl (byte_at bytes (i * 2 + 1)) 8)).

(** The loop; every turn consumes a unit, so the number of units is enough
    fuel. *)
Fixpoint ascii_loop (fuel : nat) (bytes : list Z) (units : nat) (cap : Z) (i : nat) (written : list Z) : list Z :=
  match fuel with
  | O => written
  | S fuel =>
      if (i <? units)%nat && (Z.of_nat (length written) + 1 <? cap)
      then
        let u0 := unit_at bytes i in
        let decoded := if IsHighSurrogate u0 && (i + 1 <? units)%nat
                       then Utf16Decode [u0; unit_at bytes (i + 1)] else Utf16Decode [u0] in
        let '(consumed, cp) := default (1%nat, kUnicodeReplacement) decoded in
        if cp =? 0 then written
        else ascii_loop fuel bytes units cap (i + consumed) (written ++ [Utf16CpToSafeAscii cp])
      else written
  end.

(** The count, and what is written to the buffer from its front. *)
Definition Utf16LeBufferToSafeAscii (bytes : list Z) (out_cap : Z) : Z * list Z :=
  if out_cap =? 0 then (0, [])
  else if out_cap =? 1 then (0, [0])
  else
    let units := (length bytes / 2)%nat in
    let out := ascii_loop units bytes units out_cap 0 [] in
    (Z.of_nat (length out), out ++ [0]).

(** ** The boot self test *)

Definition UnicodeSelfTest : bool :=
  bool_decide (Utf8Encode 0x41 = [0x41]) && bool_decide (Utf8Encode 0xE9 = [0xC3; 0xA9])
  && bool_decide (Utf8Encode 0x20AC = [0xE2; 0x82; 0xAC]) && bool_decide (Utf8Encode 0x1F600 = [0xF0; 0x9F; 0x98; 0x80])
  && bool_decide (Utf8Decode [0x41] = Some (1%nat, 0x41)) && bool_decide (Utf8Decode [0xC3; 0xA9] = Some (2%nat, 0xE9))
  && bool_decide (Utf8Decode [0xE2; 0x82; 0xAC] = Some (3%nat, 0x20AC))
  && bool_decide (Utf8Decode [0xF0; 0x9F; 0x98; 0x80] = Some (4%nat, 0x1F600))
  && forallb (fun s => bool_decide (Utf8Decode s = None))
       [[0xC0; 0xAF]; [0xE2; 0x82]; [0xED; 0xA0; 0x80]; [0x80]; [0xF4; 0x90; 0x80; 0x80]]
  && bool_decide (Utf16Encode 0x1F600 = [0xD83D; 0xDE00]) && bool_decide (Utf16Decode [0xD83D; 0xDE00] = Some (2%nat, 0x1F600))
  && bool_decide (Utf16Encode 0x20AC = [0x20AC]) && bool_decide (Utf16Decode [0x20AC] = Some (1%nat, 0x20AC))
  && forallb (fun s => bool_decide (Utf16Decode s = None)) [[0xDC00]; [0xD800]; [0xD800; 0x41]]
  && bool_decide (Utf16Encode 0xD800 = [])
  && bool_decide (Utf16LeBufferToSafeAscii
       [0x48; 0; 0x65; 0; 0xAC; 0x20; 0x72; 0; 0x3C; 0xD8; 0x83; 0xDF; 0; 0; 0x58; 0] 16
       = (5, [72; 101; 63; 114; 63; 0])).

Lemma unicode_selftest_passes : UnicodeSelfTest = true.
Proof. vm_compute. reflexivity. Qed.

(** ** Bytes as arithmetic *)

Definition valid (cp : Z) : Prop := 0 <= cp <= kUnicodeMaxCodepoint /\ ~ (kUtf16SurrogateLo <= cp <= kUtf16SurrogateHi).

Lemma byte_check (P : Z -> bool) : forallb (fun n => P (Z.of_nat n)) (seq 0 256) = true -> forall b, is_u8 b -> P b = true.
Proof. intros H b Hb. pose proof (small_nat _ 256 H b ltac:(ulia)) as E. cbv beta in E. by rewrite Z2Nat.id in E by ulia. Qed.

Definition lead_range (b : Z) : option (nat * Z * Z) :=
  if (192 <=? b) && (b <? 224) then Some (2%nat, b - 192, 0x80)
  else if (224 <=? b) && (b <? 240) then Some (3%nat, b - 224, 0x800)
  else if (240 <=? b) && (b <? 248) then Some (4%nat, b - 240, 0x10000) else None.

Definition lead_agrees (b : Z) : bool := bool_decide (lead b = lead_range b).

Lemma lead_arith b : is_u8 b -> lead b = lead_range b.
Proof.
  intros Hb. assert (lead_agrees b = true) as H by (apply byte_check; [vm_compute; reflexivity | done]).
  by apply bool_decide_eq_true in H.
Qed.

Lemma cont_arith b : is_u8 b ->
  (Z.land b 0xC0 =? 0x80) = (128 <=? b) && (b <? 192) /\ (128 <= b < 192 -> Z.land b 0x3F = b - 128).
Proof.
  intros Hb. pose proof (byte_check (fun b => Bool.eqb (Z.land b 0xC0 =? 0x80) ((128 <=? b) && (b <? 192))
    && (negb ((128 <=? b) && (b <? 192)) || (Z.land b 0x3F =? b - 128))) ltac:(vm_compute; reflexivity) b Hb) as H.
  apply andb_true_iff in H as [H1 H2]. apply eqb_prop in H1. split; [done|]. intros Hr.
  apply orb_true_iff in H2 as [H2|H2]; lia.
Qed.

Lemma shift6 value x : 0 <= value < 67108864 -> 0 <= x < 64 -> Z.lor (wrap32 (Z.shiftl value 6)) x = value * 64 + x.
Proof.
  intros Hv Hx. rewrite wrap32_small by (rewrite Z.shiftl_mul_pow2 by lia; change (2 ^ 6) with 64; ulia).
  by rewrite shift_lor by lia.
Qed.

Lemma continuation_cons value b rest : is_u8 b -> 0 <= value < 67108864 ->
  continuation value (b :: rest) =
  if (128 <=? b) && (b <? 192) then continuation (value * 64 + (b - 128)) rest else None.
Proof.
  intros Hb Hv. cbn [continuation]. destruct (cont_arith b Hb) as [-> Hl].
  destruct ((128 <=? b) && (b <? 192)) eqn:E; [|done]. cbn [negb]. rewrite Hl by lia. by rewrite shift6 by lia.
Qed.

Lemma low6 y : 0 <= y -> wrap8 (Z.lor 0x80 (Z.land y 0x3F)) = 128 + y mod 64.
Proof.
  intros Hy. change 0x3F with (Z.ones 6). rewrite Z.land_ones by lia. change (2 ^ 6) with 64.
  pose proof (Z.mod_pos_bound y 64 ltac:(lia)). change 0x80 with (Z.shiftl 2 6). rewrite shift_lor by lia.
  unfold wrap8. rewrite Z.mod_small by lia. done.
Qed.

Lemma lead_lor p n base x : 0 <= n <= 8 -> Z.shiftl p n = base -> 0 <= x < 2 ^ n -> 0 <= base -> base + x < 256 ->
  wrap8 (Z.lor base x) = base + x.
Proof.
  intros Hn <- Hx H0 Hb. rewrite shift_lor by lia. rewrite Z.shiftl_mul_pow2 in * by lia. unfold wrap8. rewrite Z.mod_small by lia. done.
Qed.

Lemma utf8_arith cp : valid cp -> Utf8Encode cp =
  if cp <? 128 then [cp]
  else if cp <? 2048 then [192 + cp / 64; 128 + cp mod 64]
  else if cp <? 65536 then [224 + cp / 4096; 128 + (cp / 64) mod 64; 128 + cp mod 64]
  else [240 + cp / 262144; 128 + (cp / 4096) mod 64; 128 + (cp / 64) mod 64; 128 + cp mod 64].
Proof.
  intros [Hr Hs]. unfold Utf8Encode, IsSurrogate, kUnicodeMaxCodepoint, kUtf16SurrogateLo, kUtf16SurrogateHi in *.
  replace ((1114111 <? cp) || _) with false by lia.
  destruct (cp <? 128) eqn:E1; [unfold wrap8; by rewrite Z.mod_small by lia|].
  destruct (cp <? 2048) eqn:E2; [|destruct (cp <? 65536) eqn:E3]; rewrite !Z.shiftr_div_pow2, !low6 by (lia || apply Z.div_pos; lia);
    change (2 ^ 6) with 64; change (2 ^ 12) with 4096; change (2 ^ 18) with 262144; f_equal.
  - apply (lead_lor 6 5); try lia; [done| |]; change (2 ^ 5) with 32; Z.to_euclidean_division_equations; lia.
  - apply (lead_lor 14 4); try lia; [done| |]; change (2 ^ 4) with 16; Z.to_euclidean_division_equations; lia.
  - apply (lead_lor 30 3); try lia; [done| |]; change (2 ^ 3) with 8; Z.to_euclidean_division_equations; lia.
Qed.

(** ** UTF-8 is a bijection *)

(** The checks after the continuation bytes. *)
Lemma finish_valid cp min : valid cp -> min <= cp ->
  (cp <? min) = false /\ (kUnicodeMaxCodepoint <? cp) = false /\ IsSurrogate cp = false.
Proof. intros [Hr Hs] Hm. unfold IsSurrogate, kUnicodeMaxCodepoint, kUtf16SurrogateLo, kUtf16SurrogateHi in *. lia. Qed.

Lemma decode_lead b0 rest needed value min : is_u8 b0 -> 128 <= b0 -> lead_range b0 = Some (needed, value, min) ->
  (needed <= S (length rest))%nat ->
  Utf8Decode (b0 :: rest) =
  match continuation value (take (needed - 1) rest) with
  | None => None
  | Some value => if value <? min then None else if kUnicodeMaxCodepoint <? value then None
                  else if IsSurrogate value then None else Some (needed, value)
  end.
Proof.
  intros Hb Hge Hl Hlen. cbn [Utf8Decode length]. replace (b0 <? 128) with false by lia. rewrite lead_arith, Hl by done.
  by replace (S (length rest) <? needed)%nat with false by lia.
Qed.

(** A continuation byte that is accepted, in the goal and in a hypothesis. *)
Ltac cont_step := rewrite continuation_cons by ulia;
  match goal with |- context [(128 <=? ?b) && _] => replace ((128 <=? b) && _) with true by lia end.
Ltac cont_case Ec := rewrite continuation_cons in Ec by ulia;
  match type of Ec with (if ?b then _ else _) = _ => destruct b eqn:?; [|done] end.

Lemma utf8_decode_encode cp rest : valid cp ->
  Utf8Decode (Utf8Encode cp ++ rest) = Some (length (Utf8Encode cp), cp) /\ bytes_ok (Utf8Encode cp).
Proof.
  intros Hv. rewrite utf8_arith by done. pose proof Hv as [Hr _]. unfold kUnicodeMaxCodepoint in Hr.
  destruct (cp <? 128) eqn:E1.
  { simpl. rewrite E1. split; [done|]. repeat constructor; ulia. }
  pose proof (Z.mod_pos_bound cp 64 ltac:(lia)) as M0. pose proof (Z.mod_pos_bound (cp / 64) 64 ltac:(lia)) as M1.
  pose proof (Z.mod_pos_bound (cp / 4096) 64 ltac:(lia)) as M2.
  destruct (cp <? 2048) eqn:E2; [|destruct (cp <? 65536) eqn:E3].
  - assert (2 <= cp / 64 < 32) as Q by (Z.to_euclidean_division_equations; lia).
    split; [|repeat constructor; ulia]. cbn [app]. rewrite (decode_lead _ _ 2 (192 + cp / 64 - 192) 0x80); [|ulia|lia| |simpl; lia].
    2: { unfold lead_range. replace ((192 <=? 192 + cp / 64) && _) with true by lia. reflexivity. }
    cbn [take Nat.sub]. cont_step.
    cbn [continuation]. replace ((192 + cp / 64 - 192) * 64 + (128 + cp mod 64 - 128)) with cp by (Z.to_euclidean_division_equations; lia).
    rewrite take_0. cbn [continuation]. by destruct (finish_valid cp 0x80 Hv ltac:(lia)) as (-> & -> & ->).
  - assert (0 <= cp / 4096 < 16) as Q by (Z.to_euclidean_division_equations; lia).
    split; [|repeat constructor; ulia]. cbn [app]. rewrite (decode_lead _ _ 3 (224 + cp / 4096 - 224) 0x800); [|ulia|lia| |simpl; lia].
    2: { unfold lead_range. replace ((192 <=? 224 + cp / 4096) && _) with false by lia.
         replace ((224 <=? 224 + cp / 4096) && _) with true by lia. reflexivity. }
    cbn [take Nat.sub]. cont_step. cont_step.
    cbn [continuation].
    replace (((224 + cp / 4096 - 224) * 64 + (128 + (cp / 64) mod 64 - 128)) * 64 + (128 + cp mod 64 - 128)) with cp
      by (Z.to_euclidean_division_equations; lia).
    rewrite take_0. cbn [continuation]. by destruct (finish_valid cp 0x800 Hv ltac:(lia)) as (-> & -> & ->).
  - assert (0 <= cp / 262144 < 5) as Q by (Z.to_euclidean_division_equations; lia).
    split; [|repeat constructor; ulia]. cbn [app]. rewrite (decode_lead _ _ 4 (240 + cp / 262144 - 240) 0x10000); [|ulia|lia| |simpl; lia].
    2: { unfold lead_range. replace ((192 <=? 240 + cp / 262144) && _) with false by lia.
         replace ((224 <=? 240 + cp / 262144) && _) with false by lia.
         replace ((240 <=? 240 + cp / 262144) && _) with true by lia. reflexivity. }
    cbn [take Nat.sub]. cont_step. cont_step. cont_step.
    cbn [continuation].
    replace ((((240 + cp / 262144 - 240) * 64 + (128 + (cp / 4096) mod 64 - 128)) * 64 + (128 + (cp / 64) mod 64 - 128)) * 64
             + (128 + cp mod 64 - 128)) with cp by (Z.to_euclidean_division_equations; lia).
    rewrite take_0. cbn [continuation]. by destruct (finish_valid cp 0x10000 Hv ltac:(lia)) as (-> & -> & ->).
Qed.

(** What is accepted: the bytes are the encoding of the code point. *)
Lemma utf8_encode_decode input n cp : bytes_ok input -> Utf8Decode input = Some (n, cp) ->
  valid cp /\ take n input = Utf8Encode cp.
Proof.
  intros Hb H. destruct input as [|b0 rest]; [done|]. apply Forall_cons in Hb as [Hb0 Hb]. cbn [Utf8Decode] in H.
  destruct (b0 <? 128) eqn:E0.
  { injection H as <- <-. assert (valid b0) as Hv by (unfold valid, kUnicodeMaxCodepoint, kUtf16SurrogateLo, kUtf16SurrogateHi; ulia).
    split; [done|]. by rewrite utf8_arith, E0. }
  rewrite lead_arith in H by done. destruct (lead_range b0) as [[[needed value] min]|] eqn:El; [|done].
  destruct (length (b0 :: rest) <? needed)%nat eqn:Elen; [done|].
  destruct (continuation value (take (needed - 1) rest)) as [v|] eqn:Ec; [|done].
  destruct (v <? min) eqn:Em; [done|]. destruct (kUnicodeMaxCodepoint <? v) eqn:Ex; [done|].
  destruct (IsSurrogate v) eqn:Es; [done|]. injection H as <- <-.
  assert (valid v) as Hv.
  { unfold valid, IsSurrogate, lead_range, kUnicodeMaxCodepoint, kUtf16SurrogateLo, kUtf16SurrogateHi in *.
    repeat (case_match; try done); simplify_eq; lia. }
  split; [done|]. rewrite utf8_arith by done. unfold lead_range in El.
  destruct ((192 <=? b0) && (b0 <? 224)) eqn:L1; [|destruct ((224 <=? b0) && (b0 <? 240)) eqn:L2;
    [|destruct ((240 <=? b0) && (b0 <? 248)) eqn:L3; [|done]]]; injection El as <- <- <-.
  - destruct rest as [|b1 rest]; [done|]. apply Forall_cons in Hb as [Hb1 _]. cbn [take Nat.sub] in *.
    cont_case Ec.
    injection Ec as <-. replace (_ <? 128) with false by lia. replace (_ <? 2048) with true by lia.
    repeat f_equal; Z.to_euclidean_division_equations; lia.
  - destruct rest as [|b1 [|b2 rest]]; [done..|]. apply Forall_cons in Hb as [Hb1 [Hb2 _]%Forall_cons]. cbn [take Nat.sub] in *.
    cont_case Ec. cont_case Ec.
    injection Ec as <-. replace (_ <? 128) with false by lia. replace (_ <? 2048) with false by lia.
    replace (_ <? 65536) with true by lia. repeat f_equal; Z.to_euclidean_division_equations; lia.
  - destruct rest as [|b1 [|b2 [|b3 rest]]]; [done..|].
    apply Forall_cons in Hb as [Hb1 [Hb2 [Hb3 _]%Forall_cons]%Forall_cons]. cbn [take Nat.sub] in *.
    cont_case Ec. cont_case Ec. cont_case Ec.
    injection Ec as <-. replace (_ <? 128) with false by lia. replace (_ <? 2048) with false by lia.
    replace (_ <? 65536) with false by lia. repeat f_equal; Z.to_euclidean_division_equations; lia.
Qed.

(** UTF-8 is a bijection between code points and the byte strings the decoder
    accepts: every code point that is not a surrogate decodes from its
    encoding, whatever follows, and whatever the decoder accepts is the
    encoding of the code point it returns.  So overlong forms, surrogates and
    values above U+10FFFF are refused. *)
Theorem utf8_bijection (cp : Z) (input rest : list Z) (n : nat) :
  bytes_ok input ->
  (valid cp -> Utf8Decode (Utf8Encode cp ++ rest) = Some (length (Utf8Encode cp), cp))
  /\ (0 <= cp -> ~ valid cp -> Utf8Encode cp = [])
  /\ (Utf8Decode input = Some (n, cp) -> valid cp /\ take n input = Utf8Encode cp).
Proof.
  intros Hb. split_and!.
  - intros Hv. by apply utf8_decode_encode.
  - intros H0 Hv. unfold valid, Utf8Encode, IsSurrogate, kUnicodeMaxCodepoint, kUtf16SurrogateLo, kUtf16SurrogateHi in *.
    by replace ((1114111 <? cp) || _) with true by lia.
  - by apply utf8_encode_decode.
Qed.

(** ** UTF-16 *)

Definition units_ok (l : list Z) : Prop := Forall is_u16 l.

Lemma utf16_arith cp : valid cp -> Utf16Encode cp =
  if cp <? 65536 then [cp] else [55296 + (cp - 65536) / 1024; 56320 + (cp - 65536) mod 1024].
Proof.
  intros [Hr Hs]. unfold Utf16Encode, IsSurrogate, kUnicodeMaxCodepoint, kUtf16SurrogateLo, kUtf16SurrogateHi in *.
  replace ((1114111 <? cp) || _) with false by lia.
  destruct (cp <? 65536) eqn:E; [unfold wrap16; by rewrite Z.mod_small by lia|]. cbv zeta.
  change 1023 with (Z.ones 10). rewrite Z.land_ones, Z.shiftr_div_pow2 by lia. change (2 ^ 10) with 1024.
  pose proof (Z.mod_pos_bound (cp - 65536) 1024 ltac:(lia)).
  assert (0 <= (cp - 65536) / 1024 < 1024) by (Z.to_euclidean_division_equations; lia).
  change 0xD800 with (Z.shiftl 54 10). change 0xDC00 with (Z.shiftl 55 10). rewrite !shift_lor by lia.
  change (2 ^ 10) with 1024. unfold wrap16. rewrite !Z.mod_small by lia. repeat f_equal; lia.
Qed.

Lemma pair_arith u0 u1 : 55296 <= u0 < 56320 -> 56320 <= u1 < 57344 ->
  wrap32 (0x10000 + Z.lor (wrap32 (Z.shiftl (u0 - 0xD800) 10)) (u1 - 0xDC00)) = 65536 + (u0 - 55296) * 1024 + (u1 - 56320).
Proof.
  intros H0 H1. rewrite (wrap32_small (Z.shiftl _ _)) by (rewrite Z.shiftl_mul_pow2 by lia; change (2 ^ 10) with 1024; ulia).
  rewrite shift_lor by (change (2 ^ 10) with 1024; lia). change (2 ^ 10) with 1024. rewrite wrap32_small by ulia. lia.
Qed.

Lemma utf16_decode_encode cp rest : valid cp ->
  Utf16Decode (Utf16Encode cp ++ rest) = Some (length (Utf16Encode cp), cp).
Proof.
  intros Hv. rewrite utf16_arith by done. destruct Hv as [Hr Hs]. unfold kUnicodeMaxCodepoint, kUtf16SurrogateLo, kUtf16SurrogateHi in *.
  destruct (cp <? 65536) eqn:E; cbn [app Utf16Decode]; unfold IsLowSurrogate, IsHighSurrogate.
  - replace ((56320 <=? cp) && _) with false by lia. by replace ((55296 <=? cp) && _) with false by lia.
  - pose proof (Z.mod_pos_bound (cp - 65536) 1024 ltac:(lia)).
    assert (0 <= (cp - 65536) / 1024 < 1024) by (Z.to_euclidean_division_equations; lia).
    rewrite pair_arith by lia.
    replace ((56320 <=? 55296 + _) && _) with false by lia. replace ((55296 <=? 55296 + _) && _) with true by lia.
    replace ((56320 <=? 56320 + _) && _) with true by lia. cbn [negb length]. do 2 f_equal.
    Z.to_euclidean_division_equations. lia.
Qed.

Lemma utf16_encode_decode input n cp : units_ok input -> Utf16Decode input = Some (n, cp) ->
  valid cp /\ take n input = Utf16Encode cp.
Proof.
  intros Hu H. destruct input as [|u0 rest]; [done|]. apply Forall_cons in Hu as [Hu0 Hu]. cbn [Utf16Decode] in H.
  destruct (IsLowSurrogate u0) eqn:E0; [done|]. destruct (IsHighSurrogate u0) eqn:E1; cbn [negb] in H.
  - destruct rest as [|u1 rest]; [done|]. destruct (IsLowSurrogate u1) eqn:E2; [|done]. cbn [negb] in H.
    unfold IsLowSurrogate, IsHighSurrogate in *. rewrite pair_arith in H by lia. injection H as <- <-.
    assert (valid (65536 + (u0 - 55296) * 1024 + (u1 - 56320))) as Hv.
    { unfold valid, kUnicodeMaxCodepoint, kUtf16SurrogateLo, kUtf16SurrogateHi. lia. }
    split; [done|]. rewrite utf16_arith by done. replace (_ <? 65536) with false by lia. cbn [take].
    repeat f_equal; Z.to_euclidean_division_equations; lia.
  - injection H as <- <-. unfold IsLowSurrogate, IsHighSurrogate in *.
    assert (valid u0) as Hv by (unfold valid, kUnicodeMaxCodepoint, kUtf16SurrogateLo, kUtf16SurrogateHi; ulia).
    split; [done|]. rewrite utf16_arith by done. replace (u0 <? 65536) with true by ulia. done.
Qed.

(** UTF-16 is a bijection between code points and the unit strings the
    decoder accepts. *)
Theorem utf16_bijection (cp : Z) (input rest : list Z) (n : nat) :
  units_ok input ->
  (valid cp -> Utf16Decode (Utf16Encode cp ++ rest) = Some (length (Utf16Encode cp), cp))
  /\ (Utf16Decode input = Some (n, cp) -> valid cp /\ take n input = Utf16Encode cp).
Proof.
  intros Hu. split; [by apply utf16_decode_encode | by apply utf16_encode_decode].
Qed.

(** ** File names *)

(** The code points of a unit string, each unit that is not part of a pair
    replaced. *)
Fixpoint code_points (units : list Z) : list Z :=
  match units with
  | [] => []
  | u0 :: rest =>
      let single := if IsSurrogate u0 then kUnicodeReplacement else u0 in
      match rest with
      | u1 :: rest' =>
          if IsHighSurrogate u0 && IsLowSurrogate u1
          then 65536 + (u0 - 55296) * 1024 + (u1 - 56320) :: code_points rest'
          else single :: code_points rest
      | [] => [single]
      end
  end.

Fixpoint until_nul (cps : list Z) : list Z :=
  match cps with [] => [] | cp :: cps => if cp =? 0 then [] else cp :: until_nul cps end.

Definition units_of (bytes : list Z) : list Z := unit_at bytes <$> seq 0 (length bytes / 2).

(** One turn of the loop: what it takes off the units. *)
Lemma first_point u0 rest :
  let decoded := if IsHighSurrogate u0 && (0 <? length rest)%nat then Utf16Decode [u0; hd 0 rest] else Utf16Decode [u0] in
  let '(consumed, cp) := default (1%nat, kUnicodeReplacement) decoded in
  (1 <= consumed)%nat /\ code_points (u0 :: rest) = cp :: code_points (drop consumed (u0 :: rest)).
Proof.
  cbn zeta. unfold IsHighSurrogate, IsLowSurrogate.
  assert (IsSurrogate u0 = (55296 <=? u0) && (u0 <=? 57343)) as Es by done.
  destruct ((55296 <=? u0) && (u0 <=? 56319)) eqn:Eh; cbn [andb].
  - assert (IsLowSurrogate u0 = false) as El by (unfold IsLowSurrogate; lia).
    assert (IsSurrogate u0 = true) as Es1 by (rewrite Es; lia).
    destruct rest as [|u1 rest]; cbn [length Nat.ltb Nat.leb hd Utf16Decode]; rewrite El; unfold IsHighSurrogate; rewrite Eh; cbn [negb].
    + cbn [default code_points drop]. rewrite Es1. split; [lia | done].
    + destruct (IsLowSurrogate u1) eqn:E1; cbn [negb default].
      * unfold IsLowSurrogate in E1. rewrite pair_arith by lia. cbn [code_points drop]. unfold IsHighSurrogate, IsLowSurrogate.
        rewrite Eh, E1. split; [lia | done].
      * cbn [code_points drop]. unfold IsHighSurrogate. rewrite Eh, E1, Es1. split; [lia | done].
  - cbn [Utf16Decode]. destruct (IsLowSurrogate u0) eqn:El; [|unfold IsHighSurrogate; rewrite Eh]; cbn [negb default].
    + assert (IsSurrogate u0 = true) as Es1 by (rewrite Es; unfold IsLowSurrogate in El; lia).
      split; [lia|]. destruct rest as [|u1 rest]; cbn [code_points drop]; unfold IsHighSurrogate; rewrite ?Eh, Es1; done.
    + assert (IsSurrogate u0 = false) as Es1 by (rewrite Es; unfold IsLowSurrogate in El; lia).
      split; [lia|]. destruct rest as [|u1 rest]; cbn [code_points drop]; unfold IsHighSurrogate; rewrite ?Eh, Es1; done.
Qed.

Lemma units_drop bytes units i : (i < units)%nat ->
  drop i (unit_at bytes <$> seq 0 units) = unit_at bytes i :: drop (S i) (unit_at bytes <$> seq 0 units).
Proof.
  intros Hi. apply drop_S. rewrite list_lookup_fmap, lookup_seq_lt by done. done.
Qed.

Lemma ascii_loop_spec bytes units cap fuel : forall i written,
  (units - i <= fuel)%nat -> Z.of_nat (length written) + 1 <= cap ->
  ascii_loop fuel bytes units cap i written =
  written ++ take (Z.to_nat cap - 1 - length written)
               (Utf16CpToSafeAscii <$> until_nul (code_points (drop i (unit_at bytes <$> seq 0 units)))).
Proof.
  induction fuel as [|fuel IH]; intros i written Hf Hc; cbn [ascii_loop].
  { rewrite drop_ge by (rewrite length_fmap, length_seq; lia). simpl. by rewrite take_nil, app_nil_r. }
  destruct (i <? units)%nat eqn:Ei; cbn [andb].
  2: { rewrite drop_ge by (rewrite length_fmap, length_seq; lia). simpl. by rewrite take_nil, app_nil_r. }
  destruct (Z.of_nat (length written) + 1 <? cap) eqn:Ec.
  2: { replace (Z.to_nat cap - 1 - length written)%nat with 0%nat by lia. by rewrite take_0, app_nil_r. }
  rewrite units_drop by lia. pose proof (first_point (unit_at bytes i) (drop (S i) (unit_at bytes <$> seq 0 units))) as Hp.
  cbn zeta in Hp.
  assert ((0 <? length (drop (S i) (unit_at bytes <$> seq 0 units)))%nat = (i + 1 <? units)%nat) as El.
  { rewrite length_drop, length_fmap, length_seq. lia. }
  rewrite El in Hp. cbn zeta.
  assert ((if IsHighSurrogate (unit_at bytes i) && (i + 1 <? units)%nat
           then Utf16Decode [unit_at bytes i; unit_at bytes (i + 1)] else Utf16Decode [unit_at bytes i])
        = (if IsHighSurrogate (unit_at bytes i) && (i + 1 <? units)%nat
           then Utf16Decode [unit_at bytes i; hd 0 (drop (S i) (unit_at bytes <$> seq 0 units))] else Utf16Decode [unit_at bytes i])) as Eh.
  { destruct (i + 1 <? units)%nat eqn:E1; [|by rewrite andb_false_r]. rewrite (units_drop bytes units (S i)) by lia.
    cbn [hd]. by replace (i + 1)%nat with (S i) by lia. }
  rewrite Eh. destruct (default _ _) as [consumed cp]. destruct Hp as [Hge ->]. cbn [until_nul].
  destruct (cp =? 0); [by rewrite fmap_nil, take_nil, app_nil_r|].
  rewrite IH by (rewrite ?length_app; simpl; lia). rewrite <- app_assoc. f_equal. rewrite fmap_cons.
  rewrite length_app. cbn [length]. replace (Z.to_nat cap - 1 - length written)%nat with (S (Z.to_nat cap - 1 - (length written + 1))) by lia.
  destruct consumed as [|k]; [lia|]. rewrite skipn_cons, drop_drop. by replace (S i + k)%nat with (i + S k)%nat by lia.
Qed.

(** File names: the buffer always ends in NUL within its capacity, and holds
    the safe ASCII image of the name's code points up to the first NUL, cut to
    the room there is; every character is printable. *)
Theorem utf16_names_are_safe (bytes : list Z) (cap : Z) :
  2 <= cap ->
  let name := Utf16CpToSafeAscii <$> until_nul (code_points (units_of bytes)) in
  let out := take (Z.to_nat cap - 1) name in
  Utf16LeBufferToSafeAscii bytes cap = (Z.of_nat (length out), out ++ [0])
  /\ Z.of_nat (length out) + 1 <= cap /\ Forall (fun ch => 0x20 <= ch < 0x7F) out.
Proof.
  intros Hc name out. unfold Utf16LeBufferToSafeAscii. replace (cap =? 0) with false by lia. replace (cap =? 1) with false by lia.
  rewrite ascii_loop_spec by (simpl; lia). cbn [length app]. rewrite Nat.sub_0_r, drop_0. split; [done|].
  split; [unfold out; rewrite length_take; lia|]. apply Forall_take. unfold name.
  generalize (code_points (units_of bytes)). intros l. induction l as [|cp l IH]; cbn [until_nul]; [constructor|].
  destruct (cp =? 0) eqn:E; [constructor|]. rewrite fmap_cons. constructor; [|done].
  unfold Utf16CpToSafeAscii, question. rewrite E. destruct ((32 <=? cp) && (cp <? 127)) eqn:E2; lia.
Qed.

Lemma utf8_bijection_witness :
  valid 0x20AC /\ Utf8Decode ([0xE2; 0x82; 0xAC] ++ [1]) = Some (3%nat, 0x20AC)
  /\ take 3 [0xE2; 0x82; 0xAC; 1] = Utf8Encode 0x20AC.
Proof.
  assert (valid 0x20AC) as Hv by (split; [|intros [H _]]; vm_compute in *; intuition discriminate).
  assert (bytes_ok [0xE2; 0x82; 0xAC; 1]) as Hb by (repeat constructor; vm_compute; discriminate).
  destruct (utf8_bijection 0x20AC [0xE2; 0x82; 0xAC; 1] [1] 3 Hb) as (H1 & _ & H3).
  exact (conj Hv (conj (H1 Hv) (proj2 (H3 (H1 Hv))))).
Defined.

Lemma utf16_bijection_witness :
  Utf16Decode ([0xD83D; 0xDE00] ++ []) = Some (2%nat, 0x1F600) /\ take 2 [0xD83D; 0xDE00] = Utf16Encode 0x1F600.
Proof.
  assert (valid 0x1F600) as Hv by (split; [|intros [_ H]]; vm_compute in *; intuition discriminate).
  assert (units_ok [0xD83D; 0xDE00]) as Hb by (repeat constructor; vm_compute; discriminate).
  destruct (utf16_bijection 0x1F600 [0xD83D; 0xDE00] [] 2 Hb) as (H1 & H3).
  exact (conj (H1 Hv) (proj2 (H3 (H1 Hv)))).
Defined.

Lemma utf16_names_are_safe_witness :
  Utf16LeBufferToSafeAscii [0x48; 0; 0xAC; 0x20; 0x3C; 0xD8] 3 = (2, [72; 63] ++ [0]).
Proof.
  destruct (utf16_names_are_safe [0x48; 0; 0xAC; 0x20; 0x3C; 0xD8] 3 ltac:(lia)) as [H _].
  replace (2, [72; 63] ++ [0]) with
    (Z.of_nat (length (take (Z.to_nat 3 - 1) (Utf16CpToSafeAscii <$> until_nul (code_points (units_of [0x48; 0; 0xAC; 0x20; 0x3C; 0xD8]))))),
     take (Z.to_nat 3 - 1) (Utf16CpToSafeAscii <$> until_nul (code_points (units_of [0x48; 0; 0xAC; 0x20; 0x3C; 0xD8]))) ++ [0])
    by (vm_compute; reflexivity).
  exact H.
Defined.
