(* ===== verification/DateTime.v ===== *)
(** * Calendar dates and ISO 8601 text

    Model of [kernel/util/datetime.h] and [kernel/util/datetime.cpp].  Signed
    division and remainder truncate as in C++ ([Z.quot], [Z.rem]); conversions
    between integer types are written out.  A reference parameter the code
    writes is returned; text is the list of its character codes. *)

From Stdlib Require Import String.
From S2P Require Import Prelude Bytes KObject Base64.

Definition kJulianDayInvalid : Z := u64_max.
Definition kJulianDayUnixEpoch : Z := 2440588.

Record DateTime := MkDateTime {
  dt_year : Z; dt_month : Z; dt_day : Z; dt_hour : Z; dt_minute : Z; dt_second : Z
}.
Definition zero_datetime : DateTime := MkDateTime 0 0 0 0 0 0.

Record IsoWeekDate := MkIsoWeek { iso_year : Z; iso_week : Z; iso_dow : Z }.

#[export] Instance DateTime_eq_dec : EqDecision DateTime.
Proof. solve_decision. Defined.
#[export] Instance IsoWeekDate_eq_dec : EqDecision IsoWeekDate.
Proof. solve_decision. Defined.

(** Conversions to signed types, modulo the width. *)
Definition to_i32 (x : Z) : Z := (x + 2147483648) mod 4294967296 - 2147483648.
Definition to_i64 (x : Z) : Z := (x + 9223372036854775808) mod 18446744073709551616 - 9223372036854775808.
Definition is_i32 (x : Z) : Prop := -2147483648 <= x <= 2147483647.

(** ** Validity *)

Definition IsLeapYear (y : Z) : bool :=
  if negb (Z.rem y 4 =? 0) then false else if negb (Z.rem y 100 =? 0) then true else Z.rem y 400 =? 0.

Definition kTable : list Z := [31; 28; 31; 30; 31; 30; 31; 31; 30; 31; 30; 31].

Definition DaysInMonth (y m : Z) : Z :=
  if (m <? 1) || (12 <? m) then 0
  else if (m =? 2) && IsLeapYear y then 29
  else nth (Z.to_nat (m - 1)) kTable 0.

Definition DateValid (y m d : Z) : bool :=
  if (m <? 1) || (12 <? m) then false else if d <? 1 then false else d <=? DaysInMonth y m.

Definition TimeValid (hh mm ss : Z) : bool := (hh <? 24) && (mm <? 60) && (ss <=? 60).

(** ** Day numbers *)

(** The number of a day, on 64-bit signed integers. *)
Definition day_number (year month day : Z) : Z :=
  let a := Z.quot (14 - month) 12 in
  let y := year + 4800 - a in
  let m := month + 12 * a - 3 in
  day + Z.quot (153 * m + 2) 5 + 365 * y + Z.quot y 4 - Z.quot y 100 + Z.quot y 400 - 32045.

Definition JulianDayFromYmd (year month day : Z) : Z :=
  if negb (DateValid year month day) then kJulianDayInvalid
  else
    let jdn := day_number year month day in
    if jdn <? 0 then kJulianDayInvalid else wrap64 jdn.

(** The date of a day number, before the fields are narrowed. *)
Definition day_date (jdn : Z) : Z * Z * Z :=
  let j := jdn + 32044 in
  let g := Z.quot j 146097 in
  let dg := Z.rem j 146097 in
  let c := Z.quot ((Z.quot dg 36524 + 1) * 3) 4 in
  let dc := dg - c * 36524 in
  let b := Z.quot dc 1461 in
  let db := Z.rem dc 1461 in
  let a := Z.quot ((Z.quot db 365 + 1) * 3) 4 in
  let da := db - a * 365 in
  let y := g * 400 + c * 100 + b * 4 + a in
  let m := Z.quot (da * 5 + 308) 153 - 2 in
  let d := da - Z.quot ((m + 4) * 153) 5 + 122 in
  (y - 4800 + Z.quot (m + 2) 12, Z.rem (m + 2) 12 + 1, d + 1).

Definition YmdFromJulianDay (jdn : Z) : Z * Z * Z :=
  let '(y, m, d) := day_date (to_i64 jdn) in (to_i32 y, wrap8 m, wrap8 d).

Definition DayOfWeekFromYmd (year month day : Z) : Z :=
  let jdn := JulianDayFromYmd year month day in
  if jdn =? kJulianDayInvalid then 7 else wrap8 (wrap64 (jdn + 1) mod 7).

Definition IsoYearWeek (year month day : Z) : IsoWeekDate :=
  if negb (DateValid year month day) then MkIsoWeek 0 0 0
  else
    let jdn := JulianDayFromYmd year month day in
    let dow := wrap8 (jdn mod 7 + 1) in
    let jdn_thu := wrap64 (wrap64 (jdn + 4) - dow) in
    let '(thu_y, _, _) := YmdFromJulianDay jdn_thu in
    let jan1_thu_year := JulianDayFromYmd thu_y 1 1 in
    let ordinal := wrap64 (wrap64 (jdn_thu - jan1_thu_year) + 1) in
    MkIsoWeek thu_y (wrap8 (wrap64 (ordinal - 1) / 7 + 1)) dow.

(** ** Unix time *)

Definition UnixSecsFromDateTime (dt : DateTime) : Z :=
  let jdn := JulianDayFromYmd (dt_year dt) (dt_month dt) (dt_day dt) in
  if jdn =? kJulianDayInvalid then kJulianDayInvalid
  else if jdn <? kJulianDayUnixEpoch then kJulianDayInvalid
  else if negb (TimeValid (dt_hour dt) (dt_minute dt) (dt_second dt)) then kJulianDayInvalid
  else
    let days := jdn - kJulianDayUnixEpoch in
    wrap64 (days * 86400 + dt_hour dt * 3600 + dt_minute dt * 60 + dt_second dt).

Definition DateTimeFromUnixSecs (secs : Z) : DateTime :=
  let day := secs / 86400 in
  let sec_in_day := secs mod 86400 in
  let jdn := wrap64 (kJulianDayUnixEpoch + day) in
  let '(y, m, d) := YmdFromJulianDay jdn in
  MkDateTime y m d (wrap8 (sec_in_day / 3600)) (wrap8 ((sec_in_day / 60) mod 60)) (wrap8 (sec_in_day mod 60)).

(** ** Text *)

Definition ch_0 : Z := 48.
Definition ch_9 : Z := 57.
Definition ch_minus : Z := 45.
Definition ch_plus : Z := 43.
Definition ch_colon : Z := 58.
Definition ch_dot : Z := 46.
Definition ch_space : Z := 32.
Definition ch_T : Z := 84.
Definition ch_Z : Z := 90.

Definition put2 (v : Z) : list Z := [ch_0 + (v / 10) mod 10; ch_0 + v mod 10].
Definition put4 (v : Z) : list Z :=
  let v := if v <? 0 then 0 else v in
  [ch_0 + (v / 1000) mod 10; ch_0 + (v / 100) mod 10; ch_0 + (v / 10) mod 10; ch_0 + v mod 10].

(** The count, and what is written from the front of the buffer. *)
Definition FormatIso8601 (dt : DateTime) (out_cap : Z) : Z * list Z :=
  if out_cap <? 21 then (0, if 0 <? out_cap then [0] else [])
  else
    (20, put4 (dt_year dt) ++ [ch_minus] ++ put2 (dt_month dt) ++ [ch_minus] ++ put2 (dt_day dt) ++ [ch_T]
         ++ put2 (dt_hour dt) ++ [ch_colon] ++ put2 (dt_minute dt) ++ [ch_colon] ++ put2 (dt_second dt) ++ [ch_Z; 0]).

Definition DigitVal (c : Z) : Result Z :=
  if (c <? ch_0) || (ch_9 <? c) then inl EInvalidArgument else inr (c - ch_0).

(** [n] digits at index [at]; the value is an unsigned 32-bit integer. *)
Fixpoint read_digits (s : list Z) (at_ n : nat) (v : Z) : Result Z :=
  match n with
  | O => inr v
  | S n =>
      match DigitVal (byte_at s at_) with
      | inl e => inl e
      | inr d => read_digits s (S at_) n (wrap32 (v * 10 + d))
      end
  end.
Definition ReadFixedDigits (s : list Z) (at_ n : nat) : Result Z := read_digits s at_ n 0.

Definition AddSecondsToDateTime (dt : DateTime) (delta_secs : Z) : Result unit * DateTime :=
  let jdn_u := JulianDayFromYmd (dt_year dt) (dt_month dt) (dt_day dt) in
  if jdn_u =? kJulianDayInvalid then (inl EInvalidArgument, dt)
  else
    let total := dt_hour dt * 3600 + dt_minute dt * 60 + dt_second dt + delta_secs in
    let day_delta := Z.quot total 86400 in
    let sec_in_day := Z.rem total 86400 in
    let '(day_delta, sec_in_day) :=
      if sec_in_day <? 0 then (day_delta - 1, sec_in_day + 86400) else (day_delta, sec_in_day) in
    let jdn := to_i64 jdn_u + day_delta in
    if jdn <? 0 then (inl EInvalidArgument, dt)
    else
      let '(y, m, d) := YmdFromJulianDay (wrap64 jdn) in
      (inr tt, MkDateTime y m d (wrap8 (Z.quot sec_in_day 3600)) (wrap8 (Z.rem (Z.quot sec_in_day 60) 60))
                 (wrap8 (Z.rem sec_in_day 60))).

Definition ParseTimezoneOffsetSeconds (s : list Z) (i : nat) : Result Z :=
  if (length s <=? i)%nat then inl EInvalidArgument
  else if byte_at s i =? ch_Z then (if (i + 1 =? length s)%nat then inr 0 else inl EInvalidArgument)
  else if negb (byte_at s i =? ch_plus) && negb (byte_at s i =? ch_minus) then inl EInvalidArgument
  else
    let sign := if byte_at s i =? ch_plus then 1 else -1 in
    if negb (i + 6 =? length s)%nat then inl EInvalidArgument
    else
      match ReadFixedDigits s (i + 1) 2 with
      | inl e => inl e
      | inr off_hh =>
          if negb (byte_at s (i + 3) =? ch_colon) then inl EInvalidArgument
          else
            match ReadFixedDigits s (i + 4) 2 with
            | inl e => inl e
            | inr off_mm =>
                if (23 <? off_hh) || (59 <? off_mm) then inl EInvalidArgument
                else inr (sign * (off_hh * 3600 + off_mm * 60))
            end
      end.

(** The digits of a fraction from index [i] on: the index after them. *)
Fixpoint skip_digits (fuel : nat) (s : list Z) (i : nat) : nat :=
  match fuel with
  | O => i
  | S fuel =>
      if (i <? length s)%nat && (ch_0 <=? byte_at s i) && (byte_at s i <=? ch_9) then skip_digits fuel s (S i) else i
  end.

(** The date part; the second component is the output parameter. *)
Definition parse_date (s : list Z) : Result unit * DateTime :=
  match ReadFixedDigits s 0 4 with
  | inl _ => (inl EInvalidArgument, zero_datetime)
  | inr yyyy =>
      if negb (byte_at s 4 =? ch_minus) then (inl EInvalidArgument, zero_datetime)
      else
        match ReadFixedDigits s 5 2 with
        | inl _ => (inl EInvalidArgument, zero_datetime)
        | inr mo =>
            if negb (byte_at s 7 =? ch_minus) then (inl EInvalidArgument, zero_datetime)
            else
              match ReadFixedDigits s 8 2 with
              | inl _ => (inl EInvalidArgument, zero_datetime)
              | inr dd =>
                  let out := MkDateTime (to_i32 yyyy) (wrap8 mo) (wrap8 dd) 0 0 0 in
                  if negb (DateValid (dt_year out) (dt_month out) (dt_day out)) then (inl EInvalidArgument, out)
                  else (inr tt, out)
              end
        end
  end.

Definition parse_time (s : list Z) : Result (Z * Z * Z) :=
  if negb (byte_at s 10 =? ch_T) && negb (byte_at s 10 =? ch_space) then inl EInvalidArgument
  else
    match ReadFixedDigits s 11 2 with
    | inl _ => inl EInvalidArgument
    | inr hh =>
        if negb (byte_at s 13 =? ch_colon) then inl EInvalidArgument
        else
          match ReadFixedDigits s 14 2 with
          | inl _ => inl EInvalidArgument
          | inr mm =>
              if negb (byte_at s 16 =? ch_colon) then inl EInvalidArgument
              else
                match ReadFixedDigits s 17 2 with
                | inl _ => inl EInvalidArgument
                | inr ss =>
                    if negb (TimeValid (wrap8 hh) (wrap8 mm) (wrap8 ss)) then inl EInvalidArgument
                    else inr (wrap8 hh, wrap8 mm, wrap8 ss)
                end
          end
    end.

(** The suffix after the seconds. *)
Definition parse_suffix (s : list Z) (out : DateTime) : Result unit * DateTime :=
  let i := 19%nat in
  let after := if byte_at s i =? ch_dot
               then let j := skip_digits (length s) s (S i) in if (j =? S i)%nat then None else Some j
               else Some i in
  match after with
  | None => (inl EInvalidArgument, out)
  | Some i =>
      if (i =? length s)%nat then (inr tt, out)
      else
        match ParseTimezoneOffsetSeconds s i with
        | inl e => (inl e, out)
        | inr offset_secs =>
            if offset_secs =? 0 then (inr tt, out) else AddSecondsToDateTime out (- offset_secs)
        end
  end.

Definition ParseIso8601 (s : list Z) : Result unit * DateTime :=
  if (length s <? 10)%nat then (inl EInvalidArgument, zero_datetime)
  else
    match parse_date s with
    | (inl e, out) => (inl e, out)
    | (inr _, out) =>
        if (length s =? 10)%nat then (inr tt, out)
        else if (length s <? 19)%nat then (inl EInvalidArgument, out)
        else
          match parse_time s with
          | inl e => (inl e, out)
          | inr (hh, mm, ss) =>
              let out := MkDateTime (dt_year out) (dt_month out) (dt_day out) hh mm ss in
              if (length s =? 19)%nat then (inr tt, out) else parse_suffix s out
          end
    end.

(** ** The self-test *)

(** The leading fields of a date and time, in the order of the structure. *)
Definition fields_are (dt : DateTime) (l : list Z) : bool :=
  same_bytes (firstn (length l) [dt_year dt; dt_month dt; dt_day dt; dt_hour dt; dt_minute dt; dt_second dt]) l.
Definition parsed (s : list Z) (check : DateTime -> bool) : bool :=
  match ParseIso8601 s with (inr _, out) => check out | _ => false end.
Definition rejects (s : string) : bool :=
  match ParseIso8601 (codes s) with (inl _, _) => true | _ => false end.
Definition iso_week_is (w : IsoWeekDate) (y n d : Z) : bool := bool_decide (w = MkIsoWeek y n d).

Definition DateTimeSelfTest : bool :=
  let today := MkDateTime 2026 5 3 14 7 30 in
  let '(n, buf) := FormatIso8601 today 24 in
  (JulianDayFromYmd 2000 1 1 =? 2451545) && (JulianDayFromYmd 1970 1 1 =? 2440588)
  && (JulianDayFromYmd 2026 5 3 =? 2461164) && (JulianDayFromYmd 2024 2 29 =? 2460370)
  && bool_decide (YmdFromJulianDay 2451545 = (2000, 1, 1)) && bool_decide (YmdFromJulianDay 2440588 = (1970, 1, 1))
  && bool_decide (YmdFromJulianDay 2460370 = (2024, 2, 29))
  && (DayOfWeekFromYmd 2000 1 1 =? 6) && (DayOfWeekFromYmd 2026 5 3 =? 0) && (DayOfWeekFromYmd 2024 2 29 =? 4)
  && (DayOfWeekFromYmd 2026 13 1 =? 7)
  && iso_week_is (IsoYearWeek 2026 5 3) 2026 18 7 && iso_week_is (IsoYearWeek 2021 1 1) 2020 53 5
  && iso_week_is (IsoYearWeek 2026 12 31) 2026 53 4
  && (n =? 20) && same_bytes buf (codes "2026-05-03T14:07:30Z" ++ [0])
  && parsed (firstn (Z.to_nat n) buf) (fun out => fields_are out [2026; 5; 3; 14; 7; 30])
  && parsed (codes "2026-01-15") (fun out => fields_are out [2026; 1; 15; 0])
  && parsed (codes "2026-05-03T14:07:30") (fun _ => true)
  && parsed (codes "2026-05-03T14:07:30.123Z") (fun out => dt_second out =? 30)
  && parsed (codes "2026-05-03T14:07:30+02:30") (fun out => fields_are out [2026; 5; 3; 11; 37; 30])
  && parsed (codes "2026-05-03T23:30:00-02:00") (fun out => fields_are out [2026; 5; 4; 1; 30; 0])
  && parsed (codes "2026-01-01T00:15:00+01:00") (fun out => fields_are out [2025; 12; 31; 23; 15])
  && (UnixSecsFromDateTime (MkDateTime 1970 1 1 0 0 0) =? 0)
  && fields_are (DateTimeFromUnixSecs 0) [1970; 1; 1; 0; 0; 0]
  && (UnixSecsFromDateTime (MkDateTime 2000 1 1 12 0 0) =? 946728000)
  && fields_are (DateTimeFromUnixSecs 946728000) [2000; 1; 1; 12]
  && fields_are (DateTimeFromUnixSecs (UnixSecsFromDateTime today)) [2026; 5; 3; 14; 7; 30]
  && (UnixSecsFromDateTime (MkDateTime 1969 12 31 23 59 59) =? kJulianDayInvalid)
  && rejects "2026-13-01" && rejects "2025-02-29" && rejects "2026/05/03" && rejects "2026-05-03T14:07:30+24:00"
  && rejects "2026-05-03T14:07:30+02" && rejects "2026-05-03T14:07:30.Z".

(** ** The calendar's structure *)

(** The year counted from March, as the algorithm does. *)
Definition march_year (year month : Z) : Z := year + 4800 - Z.quot (14 - month) 12.

(** The day of a year that begins in March, from 0, and back: the month, the
    day and whether the calendar year has turned. *)
Definition march_day (month day : Z) : Z :=
  let a := Z.quot (14 - month) 12 in day - 1 + Z.quot (153 * (month + 12 * a - 3) + 2) 5.
Definition march_date (da : Z) : Z * Z * Z :=
  let m := Z.quot (da * 5 + 308) 153 - 2 in
  (Z.quot (m + 2) 12, Z.rem (m + 2) 12 + 1, da - Z.quot ((m + 4) * 153) 5 + 122 + 1).

Lemma quot_div x n : 0 <= x -> 0 < n -> Z.quot x n = x / n.
Proof. intros. by apply Z.quot_div_nonneg. Qed.
Lemma rem_mod x n : 0 <= x -> 0 < n -> Z.rem x n = x mod n.
Proof. intros. by apply Z.rem_mod_nonneg. Qed.

(** Cycles of 400 years, centuries, four-year groups and years. *)
Record parts (y g c b a : Z) : Prop := {
  pt_sum : y = 400 * g + 100 * c + 4 * b + a;
  pt_range : 0 <= g /\ 0 <= c <= 3 /\ 0 <= b <= 24 /\ 0 <= a <= 3;
}.

Lemma parts_of y : 0 <= y -> exists g c b a, parts y g c b a.
Proof.
  intros Hy. exists (y / 400), ((y mod 400) / 100), ((y mod 100) / 4), (y mod 4).
  split; Z.to_euclidean_division_equations; lia.
Qed.

Definition days_before (g c b a : Z) : Z := 146097 * g + 36524 * c + 1461 * b + 365 * a.

Lemma day_number_parts year month day g c b a :
  parts (march_year year month) g c b a ->
  day_number year month day = days_before g c b a + march_day month day - 32044.
Proof.
  intros [Hs (Hg & Hc & Hb & Ha)]. unfold day_number, march_day, march_year, days_before in *. cbv zeta.
  set (q := Z.quot (14 - month) 12) in *. set (y := year + 4800 - q) in *.
  rewrite !(quot_div y) by lia.
  assert (y / 4 = 100 * g + 25 * c + b) by (Z.to_euclidean_division_equations; lia).
  assert (y / 100 = 4 * g + c) by (Z.to_euclidean_division_equations; lia).
  assert (y / 400 = g) by (Z.to_euclidean_division_equations; lia). lia.
Qed.

(** The last day of a leap year is day 365. *)
Definition leap_day_ok (c b a da : Z) : Prop := da = 365 -> a = 3 /\ (b = 24 -> c = 3).

Lemma day_date_parts y g c b a da :
  parts y g c b a -> 0 <= da <= 365 -> leap_day_ok c b a da ->
  day_date (days_before g c b a + da - 32044) = let '(dy, m, d) := march_date da in (y - 4800 + dy, m, d).
Proof.
  intros [Hs (Hg & Hc & Hb & Ha)] Hda Hl. unfold day_date, march_date, leap_day_ok, days_before in *. cbv zeta.
  set (dg := 36524 * c + 1461 * b + 365 * a + da).
  replace (146097 * g + 36524 * c + 1461 * b + 365 * a + da - 32044 + 32044) with (dg + g * 146097) by lia.
  assert (0 <= dg < 146097) as Hdg by lia.
  rewrite quot_div, rem_mod, Z.div_add, Z.mod_add, (Z.div_small dg), (Z.mod_small dg), (quot_div dg) by lia.
  assert (dg / 36524 = c \/ c = 3 /\ dg / 36524 = 4) as Hc4 by (Z.to_euclidean_division_equations; lia).
  replace (Z.quot ((dg / 36524 + 1) * 3) 4) with c by (rewrite quot_div; Z.to_euclidean_division_equations; lia).
  replace (dg - c * 36524) with (1461 * b + 365 * a + da) by lia.
  rewrite (quot_div (1461 * b + 365 * a + da)), (rem_mod (1461 * b + 365 * a + da)) by lia.
  replace ((1461 * b + 365 * a + da) / 1461) with b by (Z.to_euclidean_division_equations; lia).
  replace ((1461 * b + 365 * a + da) mod 1461) with (365 * a + da) by (Z.to_euclidean_division_equations; lia).
  rewrite (quot_div (365 * a + da)) by lia.
  assert ((365 * a + da) / 365 = a \/ a = 3 /\ (365 * a + da) / 365 = 4) as Ha4 by (Z.to_euclidean_division_equations; lia).
  replace (Z.quot (((365 * a + da) / 365 + 1) * 3) 4) with a by (rewrite quot_div; Z.to_euclidean_division_equations; lia).
  replace (365 * a + da - a * 365) with da by lia. replace ((0 + g) * 400 + c * 100 + b * 4 + a) with y by lia. done.
Qed.

(** *** Leap years *)

Lemma rem_zero y n : 0 < n -> (Z.rem y n =? 0) = (y mod n =? 0).
Proof.
  intros Hn. apply eq_true_iff_eq. rewrite !Z.eqb_eq, Z.rem_divide, Z.mod_divide by lia. done.
Qed.

Lemma leap_parts y g c b a :
  parts y g c b a -> IsLeapYear (y - 4800 + 1) = true <-> a = 3 /\ (b = 24 -> c = 3).
Proof.
  intros [Hs (Hg & Hc & Hb & Ha)]. unfold IsLeapYear. rewrite !rem_zero by lia.
  destruct ((y - 4800 + 1) mod 4 =? 0) eqn:E4; cbn [negb].
  - assert (a = 3) by (Z.to_euclidean_division_equations; lia).
    destruct ((y - 4800 + 1) mod 100 =? 0) eqn:E100; cbn [negb]; rewrite ?Z.eqb_eq.
    + assert (b = 24) by (Z.to_euclidean_division_equations; lia).
      replace (y - 4800 + 1) with (100 * (c + 1) + (g - 12) * 400) by lia. rewrite Z.mod_add by lia.
      assert (c = 0 \/ c = 1 \/ c = 2 \/ c = 3) as [-> | [-> | [-> | ->]]] by lia; simpl; intuition (discriminate || lia).
    + assert (b <> 24) by (intros ->; Z.to_euclidean_division_equations; lia). split; [|done]. by intros _.
  - split; [done|]. intros [-> _]. Z.to_euclidean_division_equations. lia.
Qed.

(** *** Months, by enumeration *)

Definition table_days (m : Z) : Z := nth (Z.to_nat (m - 1)) kTable 0.

(** Every day of a year from March on is one date, and back. *)
Definition check_march_day (da : Z) : bool :=
  let '(dy, m, d) := march_date da in
  (1 <=? m) && (m <=? 12) && (1 <=? d) && (d <=? (if da =? 365 then 29 else table_days m))
  && (Z.quot (14 - m) 12 =? dy) && (march_day m d =? da) && (negb (da =? 365) || (m =? 2) && (d =? 29) && (dy =? 1))
  && (0 <=? dy) && (dy <=? 1).
Definition check_month (m : Z) : bool :=
  forallb (fun n => let d := Z.of_nat n in
    negb ((d <=? table_days m) || (m =? 2) && (d =? 29))
    || (0 <=? march_day m d) && (march_day m d <=? 365) && (bool_decide (march_date (march_day m d) = (Z.quot (14 - m) 12, m, d)))
       && Bool.eqb (march_day m d =? 365) ((m =? 2) && (d =? 29))) (seq 1 31).

Lemma march_days_check : forallb (fun n => check_march_day (Z.of_nat n)) (seq 0 366) = true.
Proof. vm_compute. reflexivity. Qed.
Lemma months_check : forallb (fun n => check_month (Z.of_nat n)) (seq 1 12) = true.
Proof. vm_compute. reflexivity. Qed.

Lemma forallb_range (f : Z -> bool) lo n x :
  forallb (fun k => f (Z.of_nat k)) (seq lo n) = true -> Z.of_nat lo <= x < Z.of_nat lo + Z.of_nat n -> f x = true.
Proof.
  intros H Hx. rewrite forallb_forall in H. specialize (H (Z.to_nat x)).
  rewrite Z2Nat.id in H by lia. apply H, in_seq. lia.
Qed.

(** What the code accepts as a date, without its tests. *)
Definition valid_date (y m d : Z) : Prop :=
  1 <= m <= 12 /\ 1 <= d /\ (d <= table_days m \/ m = 2 /\ d = 29 /\ IsLeapYear y = true).

Lemma table_days_max m : 1 <= m <= 12 -> table_days m <= 31 /\ (m = 2 -> table_days m = 28).
Proof.
  intros Hm. assert (Hc : forallb (fun k => table_days (Z.of_nat k) <=? 31) (seq 1 12) = true) by (by vm_compute).
  split; [|by intros ->]. apply Z.leb_le. by apply (forallb_range (fun m => table_days m <=? 31) 1 12); [|lia].
Qed.

Lemma DateValid_spec y m d : DateValid y m d = true <-> valid_date y m d.
Proof.
  unfold DateValid, DaysInMonth, valid_date. destruct (m <? 1) eqn:E1; cbn [orb]; [lia|].
  destruct (12 <? m) eqn:E2; [lia|]. destruct (d <? 1) eqn:E3; [lia|].
  destruct (table_days_max m ltac:(lia)) as [_ H2]. fold (table_days m). destruct (m =? 2) eqn:E4; cbn [andb].
  - apply Z.eqb_eq in E4. destruct (IsLeapYear y); rewrite Z.leb_le; specialize (H2 E4); intuition (lia || done).
  - rewrite Z.leb_le. lia.
Qed.

Lemma march_day_facts m d :
  1 <= m <= 12 -> 1 <= d -> (d <= table_days m \/ m = 2 /\ d = 29) ->
  0 <= march_day m d <= 365 /\ march_date (march_day m d) = (Z.quot (14 - m) 12, m, d)
  /\ (march_day m d = 365 -> m = 2 /\ d = 29).
Proof.
  intros Hm Hd Ht. destruct (table_days_max m Hm) as [H31 _].
  pose proof (forallb_range check_month 1 12 m months_check ltac:(lia)) as H.
  unfold check_month in H.
  pose proof (forallb_range (fun d => negb ((d <=? table_days m) || (m =? 2) && (d =? 29))
    || (0 <=? march_day m d) && (march_day m d <=? 365) && (bool_decide (march_date (march_day m d) = (Z.quot (14 - m) 12, m, d)))
       && Bool.eqb (march_day m d =? 365) ((m =? 2) && (d =? 29))) 1 31 d H ltac:(lia)) as Hx. clear H. simpl in Hx.
  assert ((d <=? table_days m) || (m =? 2) && (d =? 29) = true) as Hy by lia. rewrite Hy in Hx. cbn [negb orb] in Hx.
  rewrite !andb_true_iff, bool_decide_eq_true, Bool.eqb_true_iff in Hx. destruct Hx as [[[H0 H1] Hdate] H365].
  split; [lia|]. split; [done|]. intros E. rewrite (proj2 (Z.eqb_eq _ _) E) in H365. lia.
Qed.

(** *** Dates and day numbers *)

Lemma march_year_dy y m : march_year y m - 4800 + Z.quot (14 - m) 12 = y.
Proof. unfold march_year. lia. Qed.

Lemma valid_march y m d :
  valid_date y m d -> 0 <= march_day m d <= 365 /\ march_date (march_day m d) = (Z.quot (14 - m) 12, m, d)
  /\ (march_day m d = 365 -> m = 2 /\ IsLeapYear y = true).
Proof.
  intros (Hm & Hd & Ht). destruct (march_day_facts m d Hm Hd) as (H1 & H2 & H3); [tauto|].
  split_and!; try tauto; try lia. intros E. destruct (H3 E) as [-> ->].
  destruct Ht as [Ht | (_ & _ & Hl)]; [|done].
  destruct (table_days_max 2 ltac:(lia)) as [_ H28]. specialize (H28 eq_refl). lia.
Qed.

Lemma valid_leap_ok y m d g c b a :
  valid_date y m d -> parts (march_year y m) g c b a -> leap_day_ok c b a (march_day m d).
Proof.
  intros Hv Hp E. destruct (valid_march y m d Hv) as (_ & _ & H3). destruct (H3 E) as [-> Hl].
  apply (leap_parts _ _ _ _ _ Hp). replace (march_year y 2 - 4800 + 1) with y; [done|]. unfold march_year.
  change (Z.quot (14 - 2) 12) with 1. lia.
Qed.

Lemma day_number_pos y m d : valid_date y m d -> 0 <= day_number y m d -> 0 <= march_year y m.
Proof.
  intros Hv H. destruct (valid_march y m d Hv) as (Hd & _). unfold day_number, march_day, march_year in *. cbv zeta in *.
  set (q := Z.quot (14 - m) 12) in *. set (yy := y + 4800 - q) in *. clearbody yy.
  set (w := Z.quot (153 * (m + 12 * q - 3) + 2) 5) in *. clearbody w. clear Hv.
  destruct (Z_lt_le_dec yy 0); [|done]. exfalso. Z.to_euclidean_division_equations. lia.
Qed.

Lemma day_date_number y m d :
  valid_date y m d -> 0 <= day_number y m d -> day_date (day_number y m d) = (y, m, d).
Proof.
  intros Hv H. pose proof (day_number_pos y m d Hv H) as Hy. destruct (parts_of _ Hy) as (g & c & b & a & Hp).
  destruct (valid_march y m d Hv) as (Hr & Hm & _). rewrite (day_number_parts _ _ _ _ _ _ _ Hp).
  rewrite (day_date_parts _ _ _ _ _ _ Hp Hr (valid_leap_ok _ _ _ _ _ _ _ Hv Hp)), Hm. by rewrite march_year_dy.
Qed.

Lemma split_days j :
  0 <= j -> exists g c b a da, j = days_before g c b a + da /\ parts (400 * g + 100 * c + 4 * b + a) g c b a
                               /\ 0 <= da <= 365 /\ leap_day_ok c b a da.
Proof.
  intros Hj. pose proof (Z.div_mod j 146097 ltac:(lia)) as Eg. pose proof (Z.mod_pos_bound j 146097 ltac:(lia)) as Bg.
  pose proof (Z.div_pos j 146097 Hj ltac:(lia)) as Pg.
  set (g := j / 146097) in *. set (r := j mod 146097) in *. clearbody g r.
  assert (exists c r2, r = 36524 * c + r2 /\ 0 <= c <= 3 /\ 0 <= r2 <= 36524 /\ (r2 = 36524 -> c = 3)) as (c & r2 & Er & Hc & H2 & L2).
  { exists (Z.min 3 (r / 36524)), (r - 36524 * Z.min 3 (r / 36524)). Z.to_euclidean_division_equations. lia. }
  assert (exists b r3, r2 = 1461 * b + r3 /\ 0 <= b <= 24 /\ 0 <= r3 <= 1460) as (b & r3 & Er2 & Hb & H3).
  { exists (r2 / 1461), (r2 mod 1461). clear - H2. Z.to_euclidean_division_equations. lia. }
  assert (exists a da, r3 = 365 * a + da /\ 0 <= a <= 3 /\ 0 <= da <= 365 /\ (da = 365 -> a = 3)) as (a & da & Er3 & Ha & H4 & L4).
  { exists (Z.min 3 (r3 / 365)), (r3 - 365 * Z.min 3 (r3 / 365)). clear - H3. Z.to_euclidean_division_equations. lia. }
  exists g, c, b, a, da. split_and!; [unfold days_before; lia | split; lia | lia | lia |].
  intros E. split; [by apply L4|]. intros ->. specialize (L4 E). lia.
Qed.

Lemma march_date_facts da :
  0 <= da <= 365 -> exists dy m d, march_date da = (dy, m, d) /\ 1 <= m <= 12 /\ 1 <= d /\ Z.quot (14 - m) 12 = dy
    /\ march_day m d = da /\ (da <> 365 -> d <= table_days m) /\ (da = 365 -> m = 2 /\ d = 29 /\ dy = 1) /\ 0 <= dy <= 1.
Proof.
  intros Hda. pose proof (forallb_range check_march_day 0 366 da march_days_check ltac:(lia)) as H.
  unfold check_march_day in H. destruct (march_date da) as [[dy m] d] eqn:E. exists dy, m, d.
  destruct (da =? 365) eqn:E3; cbn [negb orb] in H; split_and!; try done; lia.
Qed.

(** Every day number from 0 on is the number of the date computed for it. *)
Lemma day_number_date j :
  0 <= j -> exists y m d, day_date j = (y, m, d) /\ valid_date y m d /\ day_number y m d = j.
Proof.
  intros Hj. destruct (split_days (j + 32044) ltac:(lia)) as (g & c & b & a & da & Ej & Hp & Hda & Hl).
  destruct (march_date_facts da Hda) as (dy & m & d & Em & Hm & Hd & Hq & Hmd & Ht & H365 & Hdy).
  set (y := 400 * g + 100 * c + 4 * b + a) in *. exists (y - 4800 + dy), m, d.
  assert (march_year (y - 4800 + dy) m = y) as Hy by (unfold march_year; lia). split_and!; [| |].
  - replace j with (days_before g c b a + da - 32044) by lia. by rewrite (day_date_parts _ _ _ _ _ _ Hp Hda Hl), Em.
  - split_and!; try lia. destruct (decide (da = 365)) as [E|E]; [right|left; auto].
    destruct (H365 E) as (-> & -> & ->). split_and!; try done. apply (leap_parts _ _ _ _ _ Hp), Hl, E.
  - rewrite (day_number_parts _ _ _ g c b a) by (by rewrite Hy). rewrite Hmd. lia.
Qed.

(** The days whose year is a 32-bit integer. *)
Definition last_day : Z := day_number 2147483647 12 31.

Lemma last_day_value : last_day = 784354017364.
Proof. reflexivity. Qed.

Lemma valid_quot y m d : valid_date y m d -> 0 <= Z.quot (14 - m) 12 <= 1
  /\ (Z.quot (14 - m) 12 = 1 -> 306 <= march_day m d) /\ (Z.quot (14 - m) 12 = 0 -> march_day m d <= 305).
Proof.
  intros (Hm & Hd & Ht). destruct (table_days_max m Hm) as [H31 _]. set (t := table_days m) in *. clearbody t. unfold march_day. cbv zeta. rewrite (quot_div (14 - m)) by lia. rewrite quot_div by (Z.to_euclidean_division_equations; lia).
  Z.to_euclidean_division_equations. lia.
Qed.

Lemma year_is_i32 y m d :
  valid_date y m d -> 0 <= day_number y m d <= last_day -> is_i32 y.
Proof.
  intros Hv [H0 H1]. pose proof (day_number_pos y m d Hv H0) as Hy. rewrite last_day_value in H1.
  destruct (parts_of _ Hy) as (g & c & b & a & Hp). destruct (valid_march y m d Hv) as (Hr & _).
  destruct (valid_quot y m d Hv) as (Hq & H306 & H305). rewrite (day_number_parts _ _ _ _ _ _ _ Hp) in H0, H1.
  destruct Hp as [Hs (Hg & Hc & Hb & Ha)]. unfold days_before, march_year, is_i32 in *.
  split; [lia|]. destruct (Z_le_gt_dec y 2147483647); [done|]. exfalso. lia.
Qed.

Lemma wrap_small8 x : 0 <= x < 256 -> wrap8 x = x.
Proof. intros. by apply Z.mod_small. Qed.

Lemma to_i64_small x : 0 <= x <= last_day -> to_i64 x = x.
Proof. rewrite last_day_value. unfold to_i64. intros. rewrite Z.mod_small; lia. Qed.

Lemma to_i32_small x : is_i32 x -> to_i32 x = x.
Proof. unfold to_i32, is_i32. intros. rewrite Z.mod_small; lia. Qed.

Lemma valid_bytes y m d : valid_date y m d -> 0 <= m < 256 /\ 0 <= d < 256.
Proof. intros (Hm & Hd & Ht). pose proof (table_days_max m Hm). lia. Qed.

Lemma julian_of_valid y m d :
  valid_date y m d -> 0 <= day_number y m d <= last_day -> JulianDayFromYmd y m d = day_number y m d.
Proof.
  intros Hv H. unfold JulianDayFromYmd. rewrite (proj2 (DateValid_spec y m d) Hv). cbn [negb]. cbv zeta.
  rewrite (proj2 (Z.ltb_ge _ _)) by lia. apply Z.mod_small. rewrite last_day_value in H. lia.
Qed.

(** Both directions at once: what the two conversions compute on a day. *)
Lemma ymd_spec j :
  0 <= j <= last_day -> exists y m d, YmdFromJulianDay j = (y, m, d) /\ valid_date y m d /\ is_i32 y
                                      /\ day_number y m d = j /\ JulianDayFromYmd y m d = j.
Proof.
  intros Hj. destruct (day_number_date j ltac:(lia)) as (y & m & d & E & Hv & En). exists y, m, d.
  assert (is_i32 y) as Hy by (apply (year_is_i32 y m d Hv); by rewrite En). destruct (valid_bytes y m d Hv).
  split_and!; try done; [|by rewrite julian_of_valid by (by rewrite ?En)].
  unfold YmdFromJulianDay. rewrite to_i64_small, E by done. by rewrite to_i32_small, !wrap_small8.
Qed.

Lemma last_date y m d : valid_date y m d -> is_i32 y -> day_number y m d <= last_day.
Proof.
  intros Hv [Hlo Hhi]. destruct (Z_lt_le_dec (day_number y m d) 0) as [|H0]; [rewrite last_day_value; lia|].
  pose proof (day_number_pos y m d Hv H0) as Hy. rewrite last_day_value.
  destruct (parts_of _ Hy) as (g & c & b & a & Hp). pose proof (valid_leap_ok _ _ _ _ _ _ _ Hv Hp) as Hl.
  destruct (valid_march y m d Hv) as (Hr & _).
  destruct (valid_quot y m d Hv) as (Hq & H306 & H305). rewrite (day_number_parts _ _ _ _ _ _ _ Hp).
  destruct Hp as [Hs (Hg & Hc & Hb & Ha)]. unfold days_before, march_year, leap_day_ok in *. lia.
Qed.

Lemma julian_valid y m d :
  is_i32 y -> JulianDayFromYmd y m d <> kJulianDayInvalid ->
  valid_date y m d /\ JulianDayFromYmd y m d = day_number y m d /\ 0 <= day_number y m d <= last_day.
Proof.
  intros Hy Hj. unfold JulianDayFromYmd in Hj. destruct (DateValid y m d) eqn:E; [|done].
  apply DateValid_spec in E. cbn [negb] in Hj. cbv zeta in Hj. destruct (day_number y m d <? 0) eqn:H0; [done|].
  assert (0 <= day_number y m d <= last_day) as Hr by (split; [lia | by apply last_date]).
  split_and!; try done; [by apply julian_of_valid | lia | lia].
Qed.

Lemma ymd_of_julian y m d :
  is_i32 y -> JulianDayFromYmd y m d <> kJulianDayInvalid -> YmdFromJulianDay (JulianDayFromYmd y m d) = (y, m, d).
Proof.
  intros Hy Hj. destruct (julian_valid y m d Hy Hj) as (Hv & -> & Hr). destruct (valid_bytes y m d Hv).
  unfold YmdFromJulianDay. rewrite to_i64_small, (day_date_number y m d Hv) by (lia || done).
  by rewrite to_i32_small, !wrap_small8.
Qed.

(** *** The day after *)

(** The calendar's own step from a date to the next one. *)
Definition next_date (y m d : Z) : Z * Z * Z :=
  if d <? DaysInMonth y m then (y, m, d + 1) else if m <? 12 then (y, m + 1, 1) else (y + 1, 1, 1).

(** From the end of a month to the next: the month table against the formula. *)
Definition check_month_end (m : Z) : bool :=
  (m =? 2) || (march_day (m mod 12 + 1) 1 =? march_day m (table_days m) + 1).
Lemma month_ends_check : forallb (fun n => check_month_end (Z.of_nat n)) (seq 1 12) = true.
Proof. vm_compute. reflexivity. Qed.

Lemma div_step y n : 0 < n -> y / n - (y - 1) / n = if y mod n =? 0 then 1 else 0.
Proof.
  intros Hn. pose proof (Z.div_mod y n ltac:(lia)). pose proof (Z.mod_pos_bound y n Hn).
  destruct (Z.eqb_spec (y mod n) 0) as [E|E].
  - rewrite <- (Z.div_unique (y - 1) n (y / n - 1) (n - 1)); lia.
  - rewrite <- (Z.div_unique (y - 1) n (y / n) (y mod n - 1)); lia.
Qed.

Lemma february_days y :
  DaysInMonth y 2 = 28 + (if y mod 4 =? 0 then if y mod 100 =? 0 then if y mod 400 =? 0 then 1 else 0 else 1 else 0).
Proof.
  transitivity (if IsLeapYear y then 29 else 28); [done|]. unfold IsLeapYear. rewrite !rem_zero by lia.
  by destruct (y mod 4 =? 0), (y mod 100 =? 0), (y mod 400 =? 0).
Qed.

(** March begins a day after February's last day. *)
Lemma march_follows y :
  0 <= march_year y 2 -> day_number y 3 1 = day_number y 2 (DaysInMonth y 2) + 1.
Proof.
  unfold march_year. change (Z.quot (14 - 2) 12) with 1. intros Hy.
  unfold day_number. cbv zeta. change (Z.quot (14 - 2) 12) with 1. change (Z.quot (14 - 3) 12) with 0.
  change (Z.quot (153 * (3 + 12 * 0 - 3) + 2) 5) with 0. change (Z.quot (153 * (2 + 12 * 1 - 3) + 2) 5) with 337.
  replace (y + 4800 - 0) with (y + 4800) by lia. rewrite !quot_div by lia.
  pose proof (div_step (y + 4800) 4 ltac:(lia)) as H4. pose proof (div_step (y + 4800) 100 ltac:(lia)) as H100.
  pose proof (div_step (y + 4800) 400 ltac:(lia)) as H400.
  change 4800 with (1200 * 4) in H4 at 3. rewrite Z.mod_add in H4 by lia.
  change 4800 with (48 * 100) in H100 at 3. rewrite Z.mod_add in H100 by lia.
  change 4800 with (12 * 400) in H400 at 3. rewrite Z.mod_add in H400 by lia.
  rewrite february_days. destruct (y mod 4 =? 0) eqn:E4.
  - destruct (y mod 100 =? 0) eqn:E100; [destruct (y mod 400 =? 0) eqn:E400; lia|].
    assert (y mod 400 =? 0 = false) as E by (clear - E100; Z.to_euclidean_division_equations; lia).
    rewrite E in H400. lia.
  - assert (y mod 100 =? 0 = false) as E by (clear - E4; Z.to_euclidean_division_equations; lia). rewrite E in H100.
    assert (y mod 400 =? 0 = false) as E' by (clear - E4; Z.to_euclidean_division_equations; lia).
    rewrite E' in H400. lia.
Qed.

Lemma day_number_march y m d y' m' d' :
  march_year y m = march_year y' m' -> day_number y m d + march_day m' d' = day_number y' m' d' + march_day m d.
Proof. unfold day_number, march_year, march_day. cbv zeta. intros H. rewrite H. lia. Qed.

Lemma days_in_month_table y m : 1 <= m <= 12 -> m <> 2 -> DaysInMonth y m = table_days m.
Proof.
  intros Hm H2. unfold DaysInMonth. rewrite (proj2 (Z.ltb_ge m 1)), (proj2 (Z.ltb_ge 12 m)), (proj2 (Z.eqb_neq m 2)) by lia.
  done.
Qed.

Lemma next_date_number y m d :
  valid_date y m d -> 0 <= march_year y m ->
  let '(y', m', d') := next_date y m d in day_number y' m' d' = day_number y m d + 1 /\ valid_date y' m' d'.
Proof.
  intros Hv Hy. pose proof (proj2 (DateValid_spec y m d) Hv) as Hdv. destruct Hv as (Hm & Hd & Ht). unfold next_date.
  assert (d <= DaysInMonth y m) as Hle.
  { unfold DateValid in Hdv. destruct ((m <? 1) || (12 <? m)); [done|]. destruct (d <? 1); [done|]. lia. }
  destruct (Z.ltb_spec d (DaysInMonth y m)) as [Hlt|Hge].
  - split; [unfold day_number; cbv zeta; lia|]. apply DateValid_spec. unfold DateValid.
    rewrite (proj2 (Z.ltb_ge m 1)), (proj2 (Z.ltb_ge 12 m)), (proj2 (Z.ltb_ge (d + 1) 1)) by lia. cbn. lia.
  - assert (d = DaysInMonth y m) as -> by lia. pose proof (forallb_range check_month_end 1 12 m month_ends_check ltac:(lia)) as Hc.
    unfold check_month_end in Hc. destruct (Z.eqb_spec m 2) as [->|H2].
    + change (2 <? 12) with true. cbv iota beta. split; [by apply march_follows|]. split_and!; try lia. left. by vm_compute.
    + cbn [orb] in Hc. apply Z.eqb_eq in Hc. rewrite (days_in_month_table y m) in * by lia.
      destruct (Z.ltb_spec m 12).
      * rewrite (Z.mod_small m 12) in Hc by lia.
        pose proof (day_number_march y (m + 1) 1 y m (table_days m)) as Hs.
        split; [|split_and!; try lia; left; pose proof (forallb_range (fun m => 1 <=? table_days m) 1 12 (m + 1) eq_refl ltac:(lia)); lia].
        assert (march_year y (m + 1) = march_year y m) by (unfold march_year; clear - Hm H2 H; Z.to_euclidean_division_equations; lia). lia.
      * assert (m = 12) as -> by lia. split; [|split_and!; try lia; left; by vm_compute].
        pose proof (day_number_march (y + 1) 1 1 y 12 (table_days 12)) as Hs.
        assert (march_year (y + 1) 1 = march_year y 12) as He.
        { unfold march_year. change (Z.quot (14 - 1) 12) with 1. change (Z.quot (14 - 12) 12) with 0. lia. }
        specialize (Hs He). change (12 mod 12 + 1) with 1 in Hc. lia.
Qed.

(** ** The claims *)

(** The Julian day number is the calendar's own day count.  From every date
    the code gives a number to, decoding the number gives the date back; every
    number from 0 to the last day of the last 32-bit year decodes to a valid
    date with that number; and the date that follows in the calendar (the next
    day of the month, the first of the next month, the first of January) has
    the next number. *)
Theorem julian_days_are_the_calendar :
  (forall y m d, is_i32 y -> JulianDayFromYmd y m d <> kJulianDayInvalid ->
     DateValid y m d = true /\ YmdFromJulianDay (JulianDayFromYmd y m d) = (y, m, d)
     /\ (JulianDayFromYmd y m d < last_day ->
         let '(y', m', d') := next_date y m d in JulianDayFromYmd y' m' d' = JulianDayFromYmd y m d + 1))
  /\ (forall jdn, 0 <= jdn <= last_day ->
        let '(y, m, d) := YmdFromJulianDay jdn in
        is_i32 y /\ DateValid y m d = true /\ JulianDayFromYmd y m d = jdn).
Proof.
  split.
  - intros y m d Hy Hj. destruct (julian_valid y m d Hy Hj) as (Hv & E & Hr). split_and!.
    + by apply DateValid_spec.
    + by apply ymd_of_julian.
    + rewrite E. intros Hlt. pose proof (next_date_number y m d Hv (day_number_pos y m d Hv ltac:(lia))) as Hn.
      destruct (next_date y m d) as [[y' m'] d']. destruct Hn as [Hn Hv']. rewrite julian_of_valid by (done || lia). done.
  - intros j Hj. destruct (ymd_spec j Hj) as (y & m & d & -> & Hv & Hy & _ & E). split_and!; try done. by apply DateValid_spec.
Qed.

Lemma julian_not_invalid j : 0 <= j <= last_day -> j <> kJulianDayInvalid.
Proof. rewrite last_day_value. unfold kJulianDayInvalid, u64_max. lia. Qed.

(** The last second before the calendar leaves 32-bit years. *)
Definition last_second : Z := (last_day - kJulianDayUnixEpoch) * 86400 + 86399.

Lemma time_fields s :
  0 <= s < 86400 ->
  TimeValid (wrap8 (s / 3600)) (wrap8 ((s / 60) mod 60)) (wrap8 (s mod 60)) = true
  /\ wrap8 (s / 3600) * 3600 + wrap8 ((s / 60) mod 60) * 60 + wrap8 (s mod 60) = s /\ wrap8 (s mod 60) < 60.
Proof.
  intros Hs. rewrite !wrap_small8 by (Z.to_euclidean_division_equations; lia).
  assert (s / 60 / 60 = s / 3600) as E by (rewrite Z.div_div by lia; done).
  pose proof (Z.div_mod (s / 60) 60 ltac:(lia)) as H1. pose proof (Z.div_mod s 60 ltac:(lia)) as H2.
  pose proof (Z.mod_pos_bound (s / 60) 60 ltac:(lia)). pose proof (Z.mod_pos_bound s 60 ltac:(lia)).
  rewrite E in H1. unfold TimeValid. assert (s / 3600 < 24) by (apply Z.div_lt_upper_bound; lia). lia.
Qed.

Lemma fields_of_time hh mm ss :
  0 <= hh -> 0 <= mm -> 0 <= ss < 60 -> TimeValid hh mm ss = true -> let s := hh * 3600 + mm * 60 + ss in
  0 <= s < 86400 /\ wrap8 (s / 3600) = hh /\ wrap8 ((s / 60) mod 60) = mm /\ wrap8 (s mod 60) = ss.
Proof.
  intros Hh Hm Hs Ht. unfold TimeValid in Ht. cbv zeta.
  assert ((hh * 3600 + mm * 60 + ss) / 3600 = hh) as -> by (symmetry; apply (Z.div_unique _ _ _ (mm * 60 + ss)); lia).
  assert ((hh * 3600 + mm * 60 + ss) / 60 = hh * 60 + mm) as -> by (symmetry; apply (Z.div_unique _ _ _ ss); lia).
  assert ((hh * 3600 + mm * 60 + ss) mod 60 = ss) as -> by (symmetry; apply (Z.mod_unique _ _ (hh * 60 + mm)); lia).
  assert ((hh * 60 + mm) mod 60 = mm) as -> by (symmetry; apply (Z.mod_unique _ _ hh); lia).
  rewrite !wrap_small8 by lia. lia.
Qed.

(** The fields a [DateTime] has by their types: an [i32] and five bytes. *)
Record typed_datetime (dt : DateTime) : Prop := {
  ty_year : is_i32 (dt_year dt);
  ty_fields : 0 <= dt_hour dt < 256 /\ 0 <= dt_minute dt < 256 /\ 0 <= dt_second dt < 256;
}.

Lemma unix_of_secs secs : 0 <= secs <= last_second -> UnixSecsFromDateTime (DateTimeFromUnixSecs secs) = secs.
Proof.
  rename secs into s. intros Hs. unfold last_second in Hs. pose proof last_day_value as HL. unfold DateTimeFromUnixSecs. cbv zeta.
  pose proof (Z.div_mod s 86400 ltac:(lia)) as Es. pose proof (Z.mod_pos_bound s 86400 ltac:(lia)) as Bs.
  assert (0 <= s / 86400) by (apply Z.div_pos; lia). unfold kJulianDayUnixEpoch in *.
  assert (0 <= 2440588 + s / 86400 <= last_day) as Hj by lia.
  replace (wrap64 (2440588 + s / 86400)) with (2440588 + s / 86400) by (symmetry; apply Z.mod_small; lia).
  destruct (ymd_spec _ Hj) as (y & m & d & -> & Hv & Hy & _ & E).
  destruct (time_fields _ Bs) as (Ht & Hsum & _). unfold UnixSecsFromDateTime. cbn [dt_year dt_month dt_day dt_hour dt_minute dt_second].
  rewrite E, Ht. unfold kJulianDayInvalid, u64_max, kJulianDayUnixEpoch. cbn [negb].
  rewrite (proj2 (Z.eqb_neq _ _)), (proj2 (Z.ltb_ge _ _)) by lia. unfold wrap64. rewrite Z.mod_small; lia.
Qed.

Lemma secs_of_unix dt :
  typed_datetime dt -> UnixSecsFromDateTime dt <> kJulianDayInvalid -> dt_second dt < 60 ->
  DateTimeFromUnixSecs (UnixSecsFromDateTime dt) = dt.
Proof.
  destruct dt as [y m d hh mm ss]. intros [Hy (Hh & Hm & Hs)] Hu H60. cbn [dt_year dt_month dt_day dt_hour dt_minute dt_second] in *. unfold UnixSecsFromDateTime in *. cbn [dt_year dt_month dt_day dt_hour dt_minute dt_second] in *.
  destruct (JulianDayFromYmd y m d =? kJulianDayInvalid) eqn:E1; [done|].
  destruct (JulianDayFromYmd y m d <? kJulianDayUnixEpoch) eqn:E2; [done|].
  destruct (TimeValid hh mm ss) eqn:E3; [|done]. cbn [negb] in *. clear Hu.
  apply Z.eqb_neq in E1. destruct (julian_valid y m d Hy E1) as (Hv & Ej & Hr). pose proof last_day_value as HL.
  pose proof (ymd_of_julian y m d Hy E1) as Hback.
  set (j := JulianDayFromYmd y m d) in *. rewrite <- Ej in Hr. clearbody j. unfold kJulianDayUnixEpoch in *.
  destruct (fields_of_time hh mm ss ltac:(lia) ltac:(lia) ltac:(lia) E3) as (B & F1 & F2 & F3).
  rewrite <- !Z.add_assoc, (Z.add_assoc (hh * 3600)). unfold wrap64 at 1. rewrite Z.mod_small by lia.
  set (s := hh * 3600 + mm * 60 + ss) in *. unfold DateTimeFromUnixSecs. cbv zeta.
  assert (((j - 2440588) * 86400 + s) / 86400 = j - 2440588) as -> by (symmetry; apply (Z.div_unique _ _ _ s); lia).
  assert (((j - 2440588) * 86400 + s) mod 86400 = s) as -> by (symmetry; apply (Z.mod_unique _ _ (j - 2440588)); lia).
  replace (wrap64 (kJulianDayUnixEpoch + (j - 2440588))) with j by (unfold kJulianDayUnixEpoch, wrap64; rewrite Z.mod_small; lia).
  by rewrite Hback, F1, F2, F3.
Qed.

(** Unix time converts both ways without loss.  Every second from the epoch
    to the end of the last 32-bit year is converted to a valid date and time
    whose own Unix time is that second; and every date and time the code gives
    a Unix time to comes back from it unchanged, unless its second is 60, the
    leap second the code accepts. *)
Theorem unix_seconds_roundtrip :
  (forall secs, 0 <= secs <= last_second -> UnixSecsFromDateTime (DateTimeFromUnixSecs secs) = secs)
  /\ (forall dt, typed_datetime dt -> UnixSecsFromDateTime dt <> kJulianDayInvalid -> dt_second dt < 60 ->
        DateTimeFromUnixSecs (UnixSecsFromDateTime dt) = dt).
Proof. split; [exact unix_of_secs | exact secs_of_unix]. Qed.

(** *** Years and weeks *)

Lemma january_first y : 0 <= march_year y 1 ->
  day_number y 1 1 = 365 * (y + 4799) + (y + 4799) / 4 - (y + 4799) / 100 + (y + 4799) / 400 + 306 - 32044.
Proof.
  unfold march_year, day_number. change (Z.quot (14 - 1) 12) with 1. intros Hy. cbv zeta. rewrite !(quot_div (y + 4800 - 1)) by lia.
  replace (y + 4800 - 1) with (y + 4799) by lia. change (Z.quot (153 * (1 + 12 * 1 - 3) + 2) 5) with 306. lia.
Qed.

Lemma years_apart y y' : 0 <= march_year y 1 -> y <= y' -> day_number y 1 1 + 365 * (y' - y) <= day_number y' 1 1.
Proof.
  intros Hy Hle. rewrite !january_first by (unfold march_year in *; change (Z.quot (14 - 1) 12) with 1 in *; lia).
  assert ((y' + 4799) / 100 - (y + 4799) / 100 <= (y' + 4799) / 4 - (y + 4799) / 4).
  { pose proof (Z.div_le_mono (y + 4799) (y' + 4799) 4 ltac:(lia) ltac:(lia)).
    change 100 with (4 * 25). rewrite <- !Z.div_div by lia. generalize dependent ((y' + 4799) / 4). intros q Hq.
    generalize dependent ((y + 4799) / 4). intros p Hp. clear - Hp. Z.to_euclidean_division_equations. lia. }
  pose proof (Z.div_le_mono (y + 4799) (y' + 4799) 400 ltac:(lia) ltac:(lia)). lia.
Qed.

(** A date lies between the first of January of its year and of the next. *)
Lemma year_holds y m d :
  valid_date y m d -> 0 <= march_year y 1 -> day_number y 1 1 <= day_number y m d < day_number (y + 1) 1 1.
Proof.
  intros Hv Hy. destruct (valid_march y m d Hv) as (Hr & _). destruct (valid_quot y m d Hv) as (Hq & H306 & H305).
  assert (march_year (y + 1) 1 = y + 4800) as E1 by (unfold march_year; change (Z.quot (14 - 1) 12) with 1; lia).
  assert (march_year y 1 = y + 4799) as E2 by (unfold march_year; change (Z.quot (14 - 1) 12) with 1; lia).
  assert (march_day 1 1 = 306) as E3 by done. assert (march_day 3 1 = 0) as E4 by done.
  assert (Z.quot (14 - m) 12 = 0 \/ Z.quot (14 - m) 12 = 1) as [Eq|Eq] by lia.
  - pose proof (day_number_march y m d (y + 1) 1 1) as Hnext. pose proof (day_number_march y m d y 3 1) as Hmar.
    pose proof (march_follows y Hy) as Hf. pose proof (day_number_march y 2 (DaysInMonth y 2) y 1 1 eq_refl) as Hfeb.
    assert (march_day 2 (DaysInMonth y 2) = DaysInMonth y 2 + 336) as E5.
    { unfold march_day. change (Z.quot (14 - 2) 12) with 1. cbv zeta.
      change (Z.quot (153 * (2 + 12 * 1 - 3) + 2) 5) with 337. lia. }
    pose proof (february_days y) as H28.
    assert (0 <= (if y mod 4 =? 0 then if y mod 100 =? 0 then if y mod 400 =? 0 then 1 else 0 else 1 else 0)) by (by repeat case_match).
    assert (march_year y m = y + 4800) as E6 by (unfold march_year; lia).
    rewrite E6, E1 in Hnext. rewrite E6 in Hmar. specialize (Hnext eq_refl). 
    specialize (Hmar ltac:(unfold march_year; change (Z.quot (14 - 3) 12) with 0; lia)). lia.
  - pose proof (day_number_march y m d y 1 1) as Hjan. pose proof (years_apart y (y + 1) Hy ltac:(lia)).
    assert (march_year y m = y + 4799) as E6 by (unfold march_year; lia). rewrite E6, E2 in Hjan. lia.
Qed.

(** The Monday of the first week of a year: the week of the fourth of January. *)
Definition week_one (y : Z) : Z := let jan4 := JulianDayFromYmd y 1 4 in jan4 - jan4 mod 7.

Lemma week_arith j jan thu :
  thu = j - j mod 7 + 3 -> jan <= thu <= jan + 365 ->
  let w := (thu - jan) / 7 + 1 in
  1 <= w <= 53 /\ j = (jan + 3) - (jan + 3) mod 7 + 7 * (w - 1) + j mod 7.
Proof.
  intros Ht Hb. cbv zeta. split; [Z.to_euclidean_division_equations; lia|].
  assert ((thu - jan) / 7 = (thu - 3 - (jan + 3 - (jan + 3) mod 7)) / 7) as ->.
  { pose proof (Z.mod_pos_bound (jan + 3) 7 ltac:(lia)). pose proof (Z.div_mod (jan + 3) 7 ltac:(lia)).
    pose proof (Z.div_mod j 7 ltac:(lia)).
    transitivity (j / 7 - (jan + 3) / 7); [symmetry; apply (Z.div_unique _ _ _ (6 - (jan + 3) mod 7)) | apply (Z.div_unique _ _ _ 0)]; lia. }
  pose proof (Z.div_mod (jan + 3) 7 ltac:(lia)). pose proof (Z.div_mod j 7 ltac:(lia)).
  replace (thu - 3 - (jan + 3 - (jan + 3) mod 7)) with ((j / 7 - (jan + 3) / 7) * 7) by lia. rewrite Z.div_mul by lia. lia.
Qed.

Lemma julian_january y d :
  1 <= d <= 4 -> -4712 <= y <= 2147483647 ->
  JulianDayFromYmd y 1 d = day_number y 1 1 + (d - 1) /\ 0 <= day_number y 1 1 <= last_day.
Proof.
  intros Hd Hy. assert (valid_date y 1 d) as Hv by (split_and!; try lia; left; change (table_days 1) with 31; lia).
  assert (0 <= march_year (-4712) 1) as Hm by (by vm_compute).
  pose proof (years_apart (-4712) y Hm ltac:(lia)) as Ha. assert (day_number (-4712) 1 1 = 38) as E by (by vm_compute).
  assert (day_number y 1 d = day_number y 1 1 + (d - 1)) as En by (unfold day_number; cbv zeta; lia).
  assert (day_number y 1 d <= last_day) by (apply last_date; [done|unfold is_i32; lia]).
  rewrite julian_of_valid; [lia | done | lia].
Qed.

Lemma old_years y m d : valid_date y m d -> 0 <= day_number y m d -> y <= -4713 -> day_number y m d < 100.
Proof.
  intros Hv H0 Hy. destruct (parts_of _ (day_number_pos y m d Hv H0)) as (g & c & b & a & Hp).
  destruct (valid_march y m d Hv) as (Hr & _). destruct (valid_quot y m d Hv) as (Hq & _).
  rewrite (day_number_parts _ _ _ _ _ _ _ Hp). destruct Hp as [Hs Hb]. unfold march_year, days_before in *. lia.
Qed.

(** The Thursday of a day's week, and the year that holds it. *)
Lemma thursday_year y m d :
  -4711 <= y <= 2147483645 -> valid_date y m d ->
  let j := day_number y m d in let thu := j - j mod 7 + 3 in
  exists ty tm td, YmdFromJulianDay thu = (ty, tm, td) /\ -4712 <= ty <= 2147483646
                   /\ day_number ty 1 1 <= thu < day_number (ty + 1) 1 1 /\ 3 <= j <= last_day - 3.
Proof.
  intros Hy Hv. cbv zeta. set (j := day_number y m d).
  assert (forall z, -4799 <= z -> 0 <= march_year z 1) as Hm by (intros; unfold march_year; change (Z.quot (14 - 1) 12) with 1; lia).
  pose proof (year_holds y m d Hv (Hm y ltac:(lia))) as Hin. fold j in Hin.
  pose proof (years_apart (-4712) y (Hm (-4712) ltac:(lia)) ltac:(lia)) as H1. change (day_number (-4712) 1 1) with 38 in H1.
  pose proof (years_apart (y + 1) (y + 2) (Hm (y + 1) ltac:(lia)) ltac:(lia)) as H2.
  destruct (julian_january (y + 2) 1 ltac:(lia) ltac:(lia)) as [_ H3]. pose proof (Z.mod_pos_bound j 7 ltac:(lia)) as H7.
  set (thu := j - j mod 7 + 3) in *. assert (j - 3 <= thu <= j + 3) as Hthu by lia. clearbody thu.
  destruct (ymd_spec thu ltac:(lia)) as (ty & tm & td & E & Hvt & Hi & En & _). exists ty, tm, td.
  assert (-4712 <= ty) as Hlo.
  { destruct (Z_lt_le_dec ty (-4712)); [|done]. pose proof (old_years ty tm td Hvt ltac:(lia) ltac:(lia)). lia. }
  pose proof (year_holds ty tm td Hvt (Hm ty ltac:(lia))) as Ht.
  assert (ty <= 2147483646) as Hhi.
  { destruct (Z_le_gt_dec ty 2147483646); [done|]. pose proof (years_apart (y + 1) ty (Hm (y + 1) ltac:(lia)) ltac:(lia)). lia. }
  split_and!; try done; lia.
Qed.

Lemma year_length y : -4712 <= y -> day_number (y + 1) 1 1 <= day_number y 1 1 + 366.
Proof.
  intros Hy. rewrite !january_first by (unfold march_year; change (Z.quot (14 - 1) 12) with 1; lia).
  replace (y + 1 + 4799) with (y + 4800) by lia. replace (y + 4799) with (y + 4800 - 1) by lia.
  pose proof (div_step (y + 4800) 4 ltac:(lia)). pose proof (div_step (y + 4800) 100 ltac:(lia)).
  assert ((y + 4800) / 400 - (y + 4800 - 1) / 400 <= (y + 4800) / 100 - (y + 4800 - 1) / 100).
  { pose proof (Z.div_le_mono (y + 4800 - 1) (y + 4800) 100 ltac:(lia) ltac:(lia)) as Hq. change 400 with (100 * 4).
    rewrite <- !Z.div_div by lia. generalize dependent ((y + 4800) / 100). intros q _ Hq.
    generalize dependent ((y + 4800 - 1) / 100). intros p Hp. clear - Hp. Z.to_euclidean_division_equations. lia. }
  repeat case_match; lia.
Qed.

Lemma wrap_up_down x : 0 <= x <= last_day -> wrap64 (wrap64 (wrap64 x + 1) - 1) = x.
Proof.
  rewrite last_day_value. intros Hx. unfold wrap64.
  rewrite (Z.mod_small x), (Z.mod_small (x + 1)), Z.mod_small by lia. lia.
Qed.

(** The ISO week date names the day.  For a valid date of the years -4711 to
    2147483645, week and weekday are in range, the day is the one the ISO
    rule puts there (weeks counted from the Monday of the week that holds the
    fourth of January of the week year), and it comes before the first week of
    the following week year. *)
Theorem iso_week_names_the_day y m d :
  -4711 <= y <= 2147483645 -> DateValid y m d = true ->
  let w := IsoYearWeek y m d in
  1 <= iso_week w <= 53 /\ 1 <= iso_dow w <= 7
  /\ JulianDayFromYmd y m d = week_one (iso_year w) + 7 * (iso_week w - 1) + (iso_dow w - 1)
  /\ JulianDayFromYmd y m d < week_one (iso_year w + 1).
Proof.
  intros Hy Hdv. pose proof (proj1 (DateValid_spec y m d) Hdv) as Hv. cbv zeta. unfold IsoYearWeek. rewrite Hdv. cbn [negb]. cbv zeta.
  destruct (thursday_year y m d Hy Hv) as (ty & tm & td & E & Hty & Hin & Hj). rewrite (julian_of_valid y m d Hv) by lia.
  set (j := day_number y m d) in *. pose proof (Z.mod_pos_bound j 7 ltac:(lia)) as H7. pose proof last_day_value as HL.
  rewrite (wrap_small8 (j mod 7 + 1)) by lia.
  replace (wrap64 (wrap64 (j + 4) - (j mod 7 + 1))) with (j - j mod 7 + 3) 
    by (unfold wrap64; rewrite (Z.mod_small (j + 4)), (Z.mod_small (j + 4 - (j mod 7 + 1))); lia).
  rewrite E. cbn [iso_year iso_week iso_dow]. destruct (julian_january ty 1 ltac:(lia) ltac:(lia)) as [-> H1].
  unfold week_one. destruct (julian_january (ty + 1) 4 ltac:(lia) ltac:(lia)) as [-> H4].
  destruct (julian_january ty 4 ltac:(lia) ltac:(lia)) as [-> _]. cbv zeta.
  pose proof (year_length ty ltac:(lia)) as Hlen. change (1 - 1) with 0. change (4 - 1) with 3. rewrite Z.add_0_r.
  set (jan := day_number ty 1 1) in *. set (jan' := day_number (ty + 1) 1 1) in *.
  destruct (week_arith j jan _ eq_refl ltac:(lia)) as [Hw Ej]. cbv zeta in Hw, Ej. clearbody jan jan' j.
  rewrite (wrap_up_down (j - j mod 7 + 3 - jan)) by lia.
  rewrite (wrap_small8 ((j - j mod 7 + 3 - jan) / 7 + 1)) by lia. split_and!; try lia.
  pose proof (Z.div_mod (jan' + 3) 7 ltac:(lia)). pose proof (Z.mod_pos_bound (jan' + 3) 7 ltac:(lia)).
  pose proof (Z.div_mod j 7 ltac:(lia)). clear - H H0 H2 H7 Hin. lia.
Qed.

(** *** Printing and parsing *)

Lemma DigitVal_put v : DigitVal (ch_0 + v mod 10) = inr (v mod 10).
Proof.
  pose proof (Z.mod_pos_bound v 10 ltac:(lia)). unfold DigitVal, ch_0, ch_9.
  rewrite (proj2 (Z.ltb_ge _ 48)), (proj2 (Z.ltb_ge 57 _)) by lia. cbn [orb]. f_equal. lia.
Qed.

Lemma read_step s i n v x :
  0 <= v < 100000000 -> byte_at s i = ch_0 + x mod 10 -> read_digits s i (S n) v = read_digits s (S i) n (v * 10 + x mod 10).
Proof.
  intros Hv E. cbn [read_digits]. rewrite E, DigitVal_put. f_equal. apply Z.mod_small.
  pose proof (Z.mod_pos_bound x 10 ltac:(lia)). lia.
Qed.

Lemma ten_split v : v / 10 * 10 + v mod 10 = v.
Proof. pose proof (Z.div_mod v 10 ltac:(lia)). lia. Qed.

Lemma read2 s i v :
  0 <= v < 100 -> byte_at s i = ch_0 + (v / 10) mod 10 -> byte_at s (S i) = ch_0 + v mod 10 -> ReadFixedDigits s i 2 = inr v.
Proof.
  intros Hv E1 E2. unfold ReadFixedDigits. assert (0 <= v / 10 < 10) by (split; [apply Z.div_pos | apply Z.div_lt_upper_bound]; lia).
  rewrite (read_step s i _ _ (v / 10)), (read_step s (S i) _ _ v) by (done || rewrite ?Z.mod_small; lia).
  rewrite (Z.mod_small (v / 10)) by lia. cbn [read_digits]. by rewrite Z.mul_0_l, Z.add_0_l, ten_split.
Qed.

Lemma read4 s i v :
  0 <= v < 10000 -> byte_at s i = ch_0 + (v / 1000) mod 10 -> byte_at s (S i) = ch_0 + (v / 100) mod 10 ->
  byte_at s (S (S i)) = ch_0 + (v / 10) mod 10 -> byte_at s (S (S (S i))) = ch_0 + v mod 10 -> ReadFixedDigits s i 4 = inr v.
Proof.
  intros Hv. replace (v / 1000) with (v / 10 / 10 / 10) by (rewrite !Z.div_div by lia; done).
  replace (v / 100) with (v / 10 / 10) by (rewrite !Z.div_div by lia; done). intros E1 E2 E3 E4.
  assert (0 <= v / 10 < 1000) by (split; [apply Z.div_pos | apply Z.div_lt_upper_bound]; lia).
  assert (0 <= v / 10 / 10 < 100) by (split; [apply Z.div_pos | apply Z.div_lt_upper_bound]; lia).
  assert (0 <= v / 10 / 10 / 10 < 10) by (split; [apply Z.div_pos | apply Z.div_lt_upper_bound]; lia).
  unfold ReadFixedDigits. rewrite (read_step s i _ _ (v / 10 / 10 / 10)) by (done || lia).
  rewrite (Z.mod_small (v / 10 / 10 / 10)), Z.mul_0_l, Z.add_0_l by lia.
  rewrite (read_step s (S i) _ _ (v / 10 / 10)), ten_split by (done || lia).
  rewrite (read_step s (S (S i)) _ _ (v / 10)), ten_split by (done || lia).
  rewrite (read_step s (S (S (S i))) _ _ v), ten_split by (done || lia). done.
Qed.

(** The text the printer writes, without its terminator. *)
Definition iso_text (dt : DateTime) (cap : Z) : list Z := firstn (Z.to_nat (FormatIso8601 dt cap).1) (FormatIso8601 dt cap).2.

Definition printable (dt : DateTime) : Prop :=
  0 <= dt_year dt <= 9999 /\ DateValid (dt_year dt) (dt_month dt) (dt_day dt) = true
  /\ 0 <= dt_hour dt /\ 0 <= dt_minute dt /\ 0 <= dt_second dt /\ TimeValid (dt_hour dt) (dt_minute dt) (dt_second dt) = true.

Lemma iso_roundtrip dt cap : printable dt -> 21 <= cap -> ParseIso8601 (iso_text dt cap) = (inr tt, dt).
Proof.
  destruct dt as [y m d hh mm ss]. intros (Hy & Hd & Hh & Hm & Hs & Ht) Hc. cbn [dt_year dt_month dt_day dt_hour dt_minute dt_second] in *.
  pose proof (proj1 (DateValid_spec y m d) Hd) as (Hmo & Hda & Htab). destruct (table_days_max m Hmo) as [H31 _].
  assert (0 <= m < 100 /\ 0 <= d < 100) as [Hm100 Hd100] by lia.
  assert (hh < 24 /\ mm < 60 /\ ss <= 60) as (Hhb & Hmb & Hsb) by (unfold TimeValid in Ht; lia).
  unfold iso_text, FormatIso8601. rewrite (proj2 (Z.ltb_ge cap 21)) by lia. unfold put4.
  cbn [dt_year dt_month dt_day dt_hour dt_minute dt_second]. rewrite (proj2 (Z.ltb_ge y 0)) by lia. cbn [fst snd put2 app]. change (Z.to_nat 20) with 20%nat. cbn [firstn].
  match goal with |- ParseIso8601 ?s = _ => set (text := s) end.
  unfold ParseIso8601, parse_date, parse_time. change (length text) with 20%nat. cbn [Nat.ltb Nat.leb Nat.eqb].
  rewrite (read4 text 0 y), (read2 text 5 m), (read2 text 8 d), (read2 text 11 hh), (read2 text 14 mm), (read2 text 17 ss) by (done || lia).
  cbn [dt_year dt_month dt_day]. rewrite to_i32_small, !wrap_small8, Hd, Ht by (unfold is_i32; lia). reflexivity.
Qed.

(** *** What the parser accepts *)

Definition well_formed (dt : DateTime) : Prop :=
  DateValid (dt_year dt) (dt_month dt) (dt_day dt) = true /\ 0 <= dt_hour dt /\ 0 <= dt_minute dt /\ 0 <= dt_second dt
  /\ TimeValid (dt_hour dt) (dt_minute dt) (dt_second dt) = true.

(** The instant of a date and time, in seconds from day 0. *)
Definition instant (dt : DateTime) : Z :=
  JulianDayFromYmd (dt_year dt) (dt_month dt) (dt_day dt) * 86400 + dt_hour dt * 3600 + dt_minute dt * 60 + dt_second dt.

Lemma read_digits_bound s i n v r :
  0 <= v -> read_digits s i n v = inr r -> 0 <= r < (v + 1) * 10 ^ Z.of_nat n.
Proof.
  revert i v. induction n as [|n IH]; intros i v Hv; cbn [read_digits].
  - intros [= <-]. change (10 ^ Z.of_nat 0) with 1. lia.
  - unfold DigitVal. destruct ((byte_at s i <? ch_0) || (ch_9 <? byte_at s i)) eqn:E; [done|]. intros H. unfold ch_0, ch_9 in *.
    assert (0 <= wrap32 (v * 10 + (byte_at s i - 48)) <= v * 10 + 9) as Hw.
    { split; [apply Z.mod_pos_bound; lia|]. transitivity (v * 10 + (byte_at s i - 48)); [apply Z.mod_le|]; lia. }
    apply IH in H; [|lia]. rewrite Nat2Z.inj_succ, Z.pow_succ_r by lia.
    assert (0 < 10 ^ Z.of_nat n) by (apply Z.pow_pos_nonneg; lia). nia.
Qed.

Lemma read_digits_ext s s' i n v :
  (forall k, (i <= k < i + n)%nat -> byte_at s k = byte_at s' k) -> read_digits s i n v = read_digits s' i n v.
Proof.
  revert i v. induction n as [|n IH]; intros i v H; cbn [read_digits]; [done|]. rewrite (H i) by lia.
  destruct (DigitVal (byte_at s' i)); [done|]. apply IH. intros. apply H. lia.
Qed.

Lemma byte_at_firstn (s : list Z) n k : (k < n)%nat -> byte_at (firstn n s) k = byte_at s k.
Proof. intros. unfold byte_at. revert n k H. induction s as [|x s IH]; intros [|n] [|k] H; try done; try lia. apply IH. lia. Qed.

Lemma fixed_digits_firstn s n i k :
  (i + k <= n)%nat -> ReadFixedDigits (firstn n s) i k = ReadFixedDigits s i k.
Proof. intros. apply read_digits_ext. intros. apply byte_at_firstn. lia. Qed.

Lemma parse_firstn s :
  (19 <= length s)%nat -> parse_date (firstn 19 s) = parse_date s /\ parse_time (firstn 19 s) = parse_time s
                          /\ length (firstn 19 s) = 19%nat.
Proof.
  intros H. unfold parse_date, parse_time. rewrite !fixed_digits_firstn, !byte_at_firstn by lia.
  split_and!; try done. rewrite length_firstn. lia.
Qed.

Lemma parse_date_valid s out :
  parse_date s = (inr tt, out) -> 0 <= dt_year out <= 9999 /\ DateValid (dt_year out) (dt_month out) (dt_day out) = true
  /\ dt_hour out = 0 /\ dt_minute out = 0 /\ dt_second out = 0.
Proof.
  unfold parse_date. destruct (ReadFixedDigits s 0 4) as [|y] eqn:E4; [done|]. apply read_digits_bound in E4; [|lia].
  change ((0 + 1) * 10 ^ Z.of_nat 4) with 10000 in E4.
  destruct (negb _); [done|]. destruct (ReadFixedDigits s 5 2) as [|m]; [done|]. destruct (negb _); [done|].
  destruct (ReadFixedDigits s 8 2) as [|d]; [done|]. cbn [dt_year dt_month dt_day].
  destruct (DateValid (to_i32 y) (wrap8 m) (wrap8 d)) eqn:E; [|done]. intros [= <-]. cbn.
  rewrite to_i32_small in * by (unfold is_i32; lia). split_and!; (done || lia).
Qed.

Lemma parse_time_valid s hh mm ss :
  parse_time s = inr (hh, mm, ss) -> 0 <= hh /\ 0 <= mm /\ 0 <= ss /\ TimeValid hh mm ss = true.
Proof.
  unfold parse_time. destruct (_ && _); [done|]. destruct (ReadFixedDigits s 11 2) as [|a]; [done|].
  destruct (negb _); [done|]. destruct (ReadFixedDigits s 14 2) as [|b]; [done|]. destruct (negb _); [done|].
  destruct (ReadFixedDigits s 17 2) as [|c]; [done|]. destruct (TimeValid _ _ _) eqn:E; [|done]. intros [= <- <- <-].
  split_and!; try done; apply Z.mod_pos_bound; lia.
Qed.

Lemma julian_four_digit y m d :
  0 <= y <= 9999 -> DateValid y m d = true -> JulianDayFromYmd y m d = day_number y m d /\ 1721060 <= day_number y m d < 5373485.
Proof.
  intros Hy Hd. apply DateValid_spec in Hd.
  assert (forall z, 0 <= z -> 0 <= march_year z 1) as Hm by (intros; unfold march_year; change (Z.quot (14 - 1) 12) with 1; lia).
  pose proof (year_holds y m d Hd (Hm y ltac:(lia))). pose proof (years_apart 0 y (Hm 0 ltac:(lia)) ltac:(lia)) as H0.
  pose proof (years_apart (y + 1) 10000 (Hm (y + 1) ltac:(lia)) ltac:(lia)) as H1.
  change (day_number 0 1 1) with 1721060 in H0. change (day_number 10000 1 1) with 5373485 in H1.
  assert (1721060 <= day_number y m d < 5373485) as Hr by lia. split; [|done].
  apply julian_of_valid; [done|]. rewrite last_day_value. lia.
Qed.

(** Truncated division with the correction for a negative remainder is floor division. *)
Lemma floor_by_quot t n :
  0 < n -> (if Z.rem t n <? 0 then (Z.quot t n - 1, Z.rem t n + n) else (Z.quot t n, Z.rem t n)) = (t / n, t mod n).
Proof.
  intros Hn. pose proof (Z.quot_rem' t n) as Hqr. destruct (Z_lt_le_dec t 0) as [Hneg|Hpos].
  - pose proof (Z.rem_opp_l t n ltac:(lia)) as Ho. pose proof (Z.rem_bound_pos (- t) n ltac:(lia) Hn) as Hr. destruct (Z.ltb_spec (Z.rem t n) 0) as [Hlt|Hge].
    + rewrite <- (Z.div_unique t n (Z.quot t n - 1) (Z.rem t n + n)), <- (Z.mod_unique t n (Z.quot t n - 1) (Z.rem t n + n)) by lia. done.
    + rewrite <- (Z.div_unique t n (Z.quot t n) (Z.rem t n)), <- (Z.mod_unique t n (Z.quot t n) (Z.rem t n)) by lia. done.
  - rewrite quot_div, rem_mod by lia. rewrite (proj2 (Z.ltb_ge _ 0)); [done|]. apply Z.mod_pos_bound. lia.
Qed.

Lemma add_seconds_spec dt delta :
  well_formed dt -> 0 <= dt_year dt <= 9999 -> -86400 < delta < 86400 ->
  exists dt', AddSecondsToDateTime dt delta = (inr tt, dt') /\ well_formed dt' /\ instant dt' = instant dt + delta.
Proof.
  intros (Hd & Hh & Hm & Hs & Ht) Hy Hdel. destruct (julian_four_digit _ _ _ Hy Hd) as [Ej Hj].
  unfold AddSecondsToDateTime. cbv zeta. unfold instant at 2. rewrite Ej. set (j := day_number _ _ _) in *.
  rewrite (proj2 (Z.eqb_neq _ _)) by (unfold kJulianDayInvalid, u64_max; lia). rewrite floor_by_quot by lia.
  set (total := dt_hour dt * 3600 + dt_minute dt * 60 + dt_second dt + delta).
  assert (-86400 < total < 172801) as Htot by (unfold TimeValid in Ht; unfold total; lia).
  pose proof (Z.div_mod total 86400 ltac:(lia)) as Edm. pose proof (Z.mod_pos_bound total 86400 ltac:(lia)) as Hmod.
  rewrite to_i64_small by (rewrite last_day_value; lia).
  assert (0 <= j + total / 86400 <= last_day) as Hjd by (rewrite last_day_value; clear - Edm Hmod Htot Hj; lia).
  rewrite (proj2 (Z.ltb_ge _ 0)) by lia. rewrite (wrap64_small (j + total / 86400)) by (rewrite last_day_value in Hjd; ulia).
  destruct (ymd_spec _ Hjd) as (y & m & d & -> & Hv & _ & _ & E). destruct (time_fields _ Hmod) as (Ht' & Hsum & _).
  rewrite !quot_div, !rem_mod by (apply Z.div_pos || idtac; lia). eexists. split; [done|]. unfold well_formed, instant.
  cbn [dt_year dt_month dt_day dt_hour dt_minute dt_second]. rewrite E. split; [|unfold total in *; lia].
  split_and!; [by apply DateValid_spec | apply Z.mod_pos_bound; lia .. | done].
Qed.

Lemma offset_bound s i off : ParseTimezoneOffsetSeconds s i = inr off -> -86400 < off < 86400.
Proof.
  unfold ParseTimezoneOffsetSeconds. destruct (_ <=? _)%nat; [done|]. destruct (byte_at s i =? ch_Z).
  { destruct (_ =? _)%nat; [intros [= <-]; lia | done]. }
  destruct (_ && _); [done|]. destruct (negb _); [done|]. destruct (ReadFixedDigits s (i + 1) 2) as [|hh] eqn:E1; [done|].
  destruct (negb _); [done|]. destruct (ReadFixedDigits s (i + 4) 2) as [|mm] eqn:E2; [done|].
  apply read_digits_bound in E1, E2; try lia. destruct ((23 <? hh) || (59 <? mm)) eqn:E; [done|].
  intros [= <-]. destruct (_ =? ch_plus); lia.
Qed.

Lemma skip_digits_ge fuel s i : (i <= skip_digits fuel s i)%nat.
Proof. revert i. induction fuel as [|fuel IH]; intros i; simpl; [done|]. destruct (_ && _); [|done]. pose proof (IH (S i)). lia. Qed.

(** The fuel is enough: the scan ends at the end of the text or at the first
    character that is no digit. *)
Lemma skip_digits_stops fuel s i :
  (length s <= i + fuel)%nat -> let j := skip_digits fuel s i in
  (length s <= j)%nat \/ ~ (ch_0 <= byte_at s j <= ch_9).
Proof.
  revert i. induction fuel as [|fuel IH]; intros i Hf; cbv zeta; simpl; [left; lia|].
  destruct (_ && _) eqn:E; [apply IH; lia|]. destruct (i <? length s)%nat eqn:El; cbn [andb] in E; [right | left; lia].
  destruct (ch_0 <=? byte_at s i) eqn:E1; cbn [andb] in E; lia.
Qed.

(** A full text: the local fields, then nothing, or an offset that is subtracted. *)
Lemma parse_full s dt :
  (19 <= length s)%nat -> ParseIso8601 s = (inr tt, dt) ->
  exists local, ParseIso8601 (firstn 19 s) = (inr tt, local) /\ well_formed local /\ 0 <= dt_year local <= 9999
    /\ (dt = local \/ exists i off, (19 <= i)%nat /\ ParseTimezoneOffsetSeconds s i = inr off /\ well_formed dt
                                  /\ instant dt = instant local - off).
Proof.
  intros Hl. destruct (parse_firstn s Hl) as (Ed & Et & E19). unfold ParseIso8601. rewrite Ed, Et, E19.
  rewrite (proj2 (Nat.ltb_ge (length s) 10)), (proj2 (Nat.eqb_neq (length s) 10)), (proj2 (Nat.ltb_ge (length s) 19)) by lia.
  cbn [Nat.ltb Nat.leb Nat.eqb]. destruct (parse_date s) as [[|[]] out] eqn:Ep; [done|].
  destruct (parse_date_valid _ _ Ep) as (Hy & Hd & _). destruct (parse_time s) as [|[[hh mm] ss]] eqn:Eq; [done|].
  pose proof (parse_time_valid _ _ _ _ Eq) as Ht. set (local := MkDateTime (dt_year out) (dt_month out) (dt_day out) hh mm ss).
  assert (well_formed local) as Hw by (unfold well_formed, local; cbn; tauto). intros H. exists local.
  split; [done|]. split; [done|]. split; [exact Hy|].
  destruct (length s =? 19)%nat; [left; congruence|]. unfold parse_suffix in H. cbv zeta in H.
  destruct (if byte_at s 19 =? ch_dot then _ else _) as [i|] eqn:Ei; [|done].
  destruct (i =? length s)%nat; [left; congruence|]. destruct (ParseTimezoneOffsetSeconds s i) as [|off] eqn:Eo; [done|].
  destruct (Z.eqb_spec off 0); [left; congruence|]. right. exists i, off.
  pose proof (offset_bound _ _ _ Eo). destruct (add_seconds_spec local (- off) Hw Hy ltac:(lia)) as (dt' & Ea & Hw' & Hi).
  rewrite Ea in H. injection H as <-. split; [|split_and!; (done || lia)].
  destruct (byte_at s 19 =? ch_dot); [|injection Ei as <-; lia].
  destruct (skip_digits (length s) s 20 =? 20)%nat; [done|]. injection Ei as <-. pose proof (skip_digits_ge (length s) s 20). lia.
Qed.

(** ISO 8601 text.  The printer's text of a date and time of the years 0 to
    9999 is 20 characters and parses back to the same fields; a short buffer
    gets an empty string.  What the parser accepts is always a valid date and
    time: a text of 10 characters a date at midnight, a longer one the fields
    of its first 19 characters or, with a UTC offset after them, the date and
    time of the instant that many seconds earlier. *)
Theorem iso8601_text_is_the_instant :
  (forall dt cap, printable dt -> 21 <= cap ->
     (FormatIso8601 dt cap).1 = 20 /\ length (iso_text dt cap) = 20%nat /\ ParseIso8601 (iso_text dt cap) = (inr tt, dt))
  /\ (forall dt cap, 0 < cap < 21 -> FormatIso8601 dt cap = (0, [0]))
  /\ (forall s dt, ParseIso8601 s = (inr tt, dt) ->
        well_formed dt
        /\ ((length s = 10%nat /\ dt_hour dt = 0 /\ dt_minute dt = 0 /\ dt_second dt = 0)
            \/ (19 <= length s)%nat /\ exists local, ParseIso8601 (firstn 19 s) = (inr tt, local)
                 /\ (dt = local \/ exists i off, (19 <= i)%nat /\ ParseTimezoneOffsetSeconds s i = inr off
                                             /\ instant dt = instant local - off))).
Proof.
  split_and!.
  - intros dt cap Hp Hc. split_and!; [| |by apply iso_roundtrip]; unfold iso_text, FormatIso8601;
      rewrite (proj2 (Z.ltb_ge cap 21)) by lia; done.
  - intros dt cap Hc. unfold FormatIso8601. rewrite (proj2 (Z.ltb_lt cap 21)), (proj2 (Z.ltb_lt 0 cap)) by lia. done.
  - intros s dt H. destruct (Nat.le_gt_cases 19 (length s)) as [Hl|Hl].
    + destruct (parse_full s dt Hl H) as (local & E & Hw & _ & [-> | (i & off & Hi & Ho & Hw' & Hin)]).
      * split; [done|]. right. split; [done|]. exists local. tauto.
      * split; [done|]. right. split; [done|]. exists local. split; [done|]. right. by exists i, off.
    + unfold ParseIso8601 in H. destruct (_ <? 10)%nat eqn:E10; [done|]. destruct (parse_date s) as [[|[]] out] eqn:Ep; [done|].
      rewrite (proj2 (Nat.ltb_lt _ 19) Hl) in H. destruct (Nat.eqb_spec (length s) 10); [|done]. injection H as <-.
      destruct (parse_date_valid _ _ Ep) as (Hy & Hd & H1 & H2 & H3). split; [|by left].
      unfold well_formed. rewrite H1, H2, H3. split_and!; try done; lia.
Qed.

Lemma datetime_selftest_passes : DateTimeSelfTest = true.
Proof. vm_compute. reflexivity. Qed.

Lemma iso_week_names_the_day_witness :
  IsoYearWeek 2021 1 1 = MkIsoWeek 2020 53 5 /\ 2459216 = week_one 2020 + 7 * (53 - 1) + (5 - 1) /\ 2459216 < week_one 2021.
Proof.
  split; [by vm_compute|]. destruct (iso_week_names_the_day 2021 1 1 ltac:(lia) eq_refl) as (_ & _ & H1 & H2).
  change (iso_year (IsoYearWeek 2021 1 1)) with 2020 in *. change (iso_week (IsoYearWeek 2021 1 1)) with 53 in *.
  change (iso_dow (IsoYearWeek 2021 1 1)) with 5 in *. change (JulianDayFromYmd 2021 1 1) with 2459216 in *. split; [exact H1 | exact H2].
Defined.

(** Before day 0 the week date is no guide: dates without a day number, which
    the day-of-week function refuses, are all given the same week, and day 0
    itself a week of January. *)
Lemma iso_week_before_day_zero :
  IsoYearWeek (-5000) 1 1 = MkIsoWeek (-4713) 1 2 /\ IsoYearWeek (-4713) 11 23 = MkIsoWeek (-4713) 1 2
  /\ IsoYearWeek (-4713) 11 24 = MkIsoWeek (-4713) 1 1 /\ DayOfWeekFromYmd (-5000) 1 1 = 7.
Proof. by vm_compute. Qed.
