(* ===== verification/Authorization.v ===== *)
(** * Authorization contexts

    Model of [kernel/proc/authorization_context.h] and
    [kernel/proc/authorization_context.cpp].  Every operation is one critical
    section of the registry lock, so an operation is a function from the
    registry to its result and the registry after it.  [x & ~y] of the source
    is [Z.ldiff x y]; the groups of fields of a row that the code updates
    together are sub-records.  An output pointer is a flag that says whether
    it is null, and what it points to afterwards is returned. *)

From S2P Require Import Prelude KObject HandleTable.

Definition kAuthorizationContextCapacity : nat := 64.
Definition kAuthorizationCapabilityStorageCount : nat := 64.
Definition kAuthorizationGenerationMaximum : Z := 2 ^ 51 - 1.
Definition kAuthorizationLeaseGenerationMaximum : Z := 2 ^ 51 - 1.
Definition kAuthorizationDenialThreshold : Z := 100.
Definition kAuthorizationFsWriteWindowCount : nat := 3.
Definition kAuthorizationNoFsWriteWindow : Z := u32_max.
Definition kAuthorizationFsWriteWindowTicks : list Z := [100; 100 * 60 * 5; 100 * 60 * 60].
Definition kAuthorizationFsWriteWindowByteCaps : list Z :=
  [16 * 1024 * 1024; 256 * 1024 * 1024; 2 * 1024 * 1024 * 1024].

(** ** Data *)

Record AuthorizationContextKey := MkAuthKey { ak_slot : Z; ak_generation : Z }.

Definition kInvalidAuthorizationContextKey : AuthorizationContextKey :=
  MkAuthKey (Z.of_nat kAuthorizationContextCapacity) 0.

Definition AuthorizationContextKeyIsValid (key : AuthorizationContextKey) : bool :=
  (ak_slot key <? Z.of_nat kAuthorizationContextCapacity) && negb (ak_generation key =? 0)
  && (ak_generation key <=? kAuthorizationGenerationMaximum).

Inductive AuthorizationContextState := CtxRetired | CtxLive.
Inductive AuthorizationLaunchProfile := ProfileInvalid | ProfileTrusted | ProfileSandbox.
Inductive AuthorizationAction := ActionNone | TickBudgetExceeded | DenialThresholdExceeded | FsWriteRateExceeded.

#[export] Instance AuthKey_eq_dec : EqDecision AuthorizationContextKey.
Proof. solve_decision. Defined.
#[export] Instance AuthKey_countable : Countable AuthorizationContextKey.
Proof.
  apply (inj_countable' (fun k => (ak_slot k, ak_generation k)) (fun p => MkAuthKey p.1 p.2)). by intros [].
Defined.
#[export] Instance AuthState_eq_dec : EqDecision AuthorizationContextState.
Proof. solve_decision. Defined.
#[export] Instance AuthProfile_eq_dec : EqDecision AuthorizationLaunchProfile.
Proof. solve_decision. Defined.
#[export] Instance AuthAction_eq_dec : EqDecision AuthorizationAction.
Proof. solve_decision. Defined.

Record AuthorizationActionResult := MkActionResult {
  ar_resolved : bool; ar_arithmetic_overflow : bool; ar_time_regression : bool;
  ar_action : AuthorizationAction; ar_fs_write_window : Z; ar_value : Z
}.

(** The capability fields of a row. *)
Record Authority := MkAuthority {
  durable_bits : Z; ceiling_bits : Z; lease_bits : Z;
  lease_deadline_ns : list Z; lease_generation : list Z;
  last_lease_time_ns : Z; lease_time_regressed : bool
}.
Record TickMeter := MkTicks { tick_budget : Z; ticks_used : Z; tick_threshold_latched : bool }.
Record DenialMeter := MkDenials { denial_count : Z; denial_threshold_latched : bool }.
Record FsWriteMeter := MkFsWrites {
  fs_write_bytes_total : Z; fs_write_window_bytes : list Z; fs_write_window_start_tick : list Z;
  fs_write_window_initialized : list bool; last_fs_write_tick : Z; fs_write_clock_initialized : bool;
  fs_write_time_regressed : bool; fs_write_threshold_latched : bool
}.

Record AuthorizationRow := MkAuthRow {
  ar_state : AuthorizationContextState; ar_provenance : AuthorizationLaunchProfile;
  ar_generation : Z; ar_owner_references : Z;
  ar_authority : Authority; ar_ticks : TickMeter; ar_denials : DenialMeter; ar_fs_writes : FsWriteMeter
}.

Record AuthorizationContextSnapshot := MkAuthSnapshot {
  as_state : AuthorizationContextState; as_provenance : AuthorizationLaunchProfile; as_owner_references : Z;
  as_authority : Authority; as_effective_bits : Z;
  as_ticks : TickMeter; as_denials : DenialMeter; as_fs_writes : FsWriteMeter
}.

Definition no_capabilities : list Z := replicate kAuthorizationCapabilityStorageCount 0.
Definition fresh_authority (durable ceiling now : Z) : Authority :=
  MkAuthority durable ceiling 0 no_capabilities no_capabilities now false.
Definition fresh_ticks (budget : Z) : TickMeter := MkTicks budget 0 false.
Definition fresh_denials : DenialMeter := MkDenials 0 false.
Definition fresh_fs_writes : FsWriteMeter :=
  MkFsWrites 0 (replicate kAuthorizationFsWriteWindowCount 0) (replicate kAuthorizationFsWriteWindowCount 0)
    (replicate kAuthorizationFsWriteWindowCount false) 0 false false false.

Definition zero_row : AuthorizationRow :=
  MkAuthRow CtxRetired ProfileInvalid 0 0 (fresh_authority 0 0 0) (fresh_ticks 0) fresh_denials fresh_fs_writes.
Definition zero_snapshot : AuthorizationContextSnapshot :=
  MkAuthSnapshot CtxRetired ProfileInvalid 0 (fresh_authority 0 0 0) 0 (fresh_ticks 0) fresh_denials fresh_fs_writes.

Notation Registry := (list AuthorizationRow) (only parsing).
Definition g_authorizations : Registry := replicate kAuthorizationContextCapacity zero_row.

(** ** Capabilities *)

Definition CapabilityBit (cap : Z) : Z := Z.shiftl 1 cap.

(** The defined capabilities: [1 .. kCapCount). *)
Definition cap_indices : list Z := Z.of_nat <$> seq 1 (Z.to_nat kCapCount - 1).

Definition CapSetTrusted : Z := foldl (fun bits c => Z.lor bits (CapabilityBit c)) 0 cap_indices.
Definition KnownCapabilityMask : Z := CapSetTrusted.

Definition CapabilityMaskIsCanonical (bits : Z) : bool := Z.ldiff bits KnownCapabilityMask =? 0.
Definition CapabilityIsDefined (cap : Z) : bool := negb (cap =? kCapNone) && (cap <? kCapCount).
Definition ProfileIsValid (profile : AuthorizationLaunchProfile) : bool :=
  bool_decide (profile = ProfileTrusted) || bool_decide (profile = ProfileSandbox).

(** ** Rows *)

Definition ResolveExactLocked (reg : Registry) (key : AuthorizationContextKey) : option AuthorizationRow :=
  if negb (AuthorizationContextKeyIsValid key) then None
  else
    match reg !! Z.to_nat (ak_slot key) with
    | Some row => if ar_generation row =? ak_generation key then Some row else None
    | None => None
    end.

(** A row is updated in place. *)
Definition update_row (reg : Registry) (key : AuthorizationContextKey) (row : AuthorizationRow) : Registry :=
  <[Z.to_nat (ak_slot key) := row]> reg.

(** The test nearly every operation makes first. *)
Definition ResolveLive (reg : Registry) (key : AuthorizationContextKey) : option AuthorizationRow :=
  match ResolveExactLocked reg key with
  | Some row => if negb (bool_decide (ar_state row = CtxLive)) || (ar_owner_references row =? 0) then None else Some row
  | None => None
  end.

Definition set_authority (row : AuthorizationRow) (a : Authority) : AuthorizationRow :=
  MkAuthRow (ar_state row) (ar_provenance row) (ar_generation row) (ar_owner_references row) a
    (ar_ticks row) (ar_denials row) (ar_fs_writes row).
Definition set_owners (row : AuthorizationRow) (state : AuthorizationContextState) (n : Z) : AuthorizationRow :=
  MkAuthRow state (ar_provenance row) (ar_generation row) n (ar_authority row)
    (ar_ticks row) (ar_denials row) (ar_fs_writes row).
Definition set_meters (row : AuthorizationRow) (t : TickMeter) (d : DenialMeter) (f : FsWriteMeter) : AuthorizationRow :=
  MkAuthRow (ar_state row) (ar_provenance row) (ar_generation row) (ar_owner_references row) (ar_authority row) t d f.

Definition ClearActiveLeasesLocked (a : Authority) : Authority :=
  MkAuthority (durable_bits a) (ceiling_bits a) 0 no_capabilities (lease_generation a)
    (last_lease_time_ns a) (lease_time_regressed a).

(** The active lease at [cap] ends. *)
Definition clear_lease (a : Authority) (cap : Z) : Authority :=
  MkAuthority (durable_bits a) (ceiling_bits a) (Z.ldiff (lease_bits a) (CapabilityBit cap))
    (<[Z.to_nat cap := 0]> (lease_deadline_ns a)) (lease_generation a) (last_lease_time_ns a) (lease_time_regressed a).

(** One turn of the expiry loop, over the row and the local [active]. *)
Definition expire_one (now_ns : Z) (s : Authority * Z) (index : Z) : Authority * Z :=
  let '(a, active) := s in
  let bit := CapabilityBit index in
  if Z.land active bit =? 0 then (a, active)
  else
    let deadline := nth (Z.to_nat index) (lease_deadline_ns a) 0 in
    if (deadline =? 0) || (deadline <=? now_ns) then (clear_lease a index, Z.ldiff active bit) else (a, active).

Definition ObserveLeaseTimeLocked (a : Authority) (now_ns : Z) : bool * Authority :=
  if (now_ns =? 0) || (negb (last_lease_time_ns a =? 0) && (now_ns <? last_lease_time_ns a))
  then
    let a := ClearActiveLeasesLocked a in
    (false, MkAuthority (durable_bits a) (ceiling_bits a) (lease_bits a) (lease_deadline_ns a) (lease_generation a)
              (last_lease_time_ns a) true)
  else
    let a := MkAuthority (durable_bits a) (ceiling_bits a) (lease_bits a) (lease_deadline_ns a) (lease_generation a)
               (if last_lease_time_ns a <? now_ns then now_ns else last_lease_time_ns a) (lease_time_regressed a) in
    (true, (foldl (expire_one now_ns) (a, lease_bits a) cap_indices).1).

Definition EffectiveBitsLocked (a : Authority) : Z :=
  Z.land (Z.lor (durable_bits a) (lease_bits a)) (ceiling_bits a).

(** The first reusable row from slot [slot] on. *)
Fixpoint allocate_scan (rows : Registry) (slot : nat) : option (nat * AuthorizationRow) :=
  match rows with
  | [] => None
  | row :: rows =>
      if negb (bool_decide (ar_state row = CtxRetired)) || (kAuthorizationGenerationMaximum <=? ar_generation row)
      then allocate_scan rows (S slot) else Some (slot, row)
  end.

Definition AllocateLocked (reg : Registry) (provenance : AuthorizationLaunchProfile) (durable ceiling budget time : Z)
    : AuthorizationContextKey * Registry :=
  match allocate_scan reg 0 with
  | None => (kInvalidAuthorizationContextKey, reg)
  | Some (slot, row) =>
      let next_generation := ar_generation row + 1 in
      (MkAuthKey (Z.of_nat slot) next_generation,
       <[slot := MkAuthRow CtxLive provenance next_generation 1 (fresh_authority durable ceiling time)
                   (fresh_ticks budget) fresh_denials fresh_fs_writes]> reg)
  end.

Definition AddSaturating (current increment : Z) : bool * Z :=
  if u64_max - current <? increment then (false, u64_max) else (true, current + increment).

Definition UnresolvedActionResult : AuthorizationActionResult :=
  MkActionResult false false false ActionNone kAuthorizationNoFsWriteWindow 0.
Definition ResolvedActionResult (value : Z) : AuthorizationActionResult :=
  MkActionResult true false false ActionNone kAuthorizationNoFsWriteWindow value.

Definition CopySnapshotLocked (row : AuthorizationRow) : AuthorizationContextSnapshot :=
  MkAuthSnapshot (ar_state row) (ar_provenance row) (ar_owner_references row) (ar_authority row)
    (EffectiveBitsLocked (ar_authority row)) (ar_ticks row) (ar_denials row) (ar_fs_writes row).

(** ** Construction *)

Definition CreateContext (reg : Registry) (provenance : AuthorizationLaunchProfile) (durable ceiling budget : Z)
    (has_out : bool) : bool * AuthorizationContextKey * Registry :=
  if negb has_out then (false, kInvalidAuthorizationContextKey, reg)
  else if negb (ProfileIsValid provenance) || (budget =? 0) || negb (CapabilityMaskIsCanonical durable)
          || negb (CapabilityMaskIsCanonical ceiling) || negb (Z.ldiff durable ceiling =? 0)
  then (false, kInvalidAuthorizationContextKey, reg)
  else
    let '(created, reg) := AllocateLocked reg provenance durable ceiling budget 0 in
    (AuthorizationContextKeyIsValid created, created, reg).

Definition AuthorizationCreateTrusted (reg : Registry) (durable ceiling budget : Z) (has_out : bool) :=
  CreateContext reg ProfileTrusted durable ceiling budget has_out.
Definition AuthorizationCreateSandbox (reg : Registry) (durable ceiling budget : Z) (has_out : bool) :=
  CreateContext reg ProfileSandbox durable ceiling budget has_out.

Definition AuthorizationDeriveForSpawn (reg : Registry) (parent : AuthorizationContextKey)
    (now_ns required_mask child_durable child_ceiling child_budget : Z) (profile : AuthorizationLaunchProfile)
    (has_out : bool) : bool * AuthorizationContextKey * Registry :=
  if negb has_out then (false, kInvalidAuthorizationContextKey, reg)
  else if negb (ProfileIsValid profile) || (child_budget =? 0) || negb (CapabilityMaskIsCanonical required_mask)
          || negb (CapabilityMaskIsCanonical child_durable) || negb (CapabilityMaskIsCanonical child_ceiling)
          || negb (Z.ldiff child_durable child_ceiling =? 0)
  then (false, kInvalidAuthorizationContextKey, reg)
  else
    match ResolveLive reg parent with
    | None => (false, kInvalidAuthorizationContextKey, reg)
    | Some row =>
        let '(lease_time_valid, a) := ObserveLeaseTimeLocked (ar_authority row) now_ns in
        let reg := update_row reg parent (set_authority row a) in
        if negb (Z.ldiff required_mask (EffectiveBitsLocked a) =? 0)
           || negb (Z.ldiff child_durable (durable_bits a) =? 0)
           || negb (Z.ldiff child_ceiling (ceiling_bits a) =? 0)
           || bool_decide (ar_provenance row = ProfileSandbox) && negb (bool_decide (profile = ProfileSandbox))
        then (false, kInvalidAuthorizationContextKey, reg)
        else
          let '(created, reg) :=
            AllocateLocked reg profile child_durable child_ceiling child_budget (if lease_time_valid then now_ns else 0) in
          (AuthorizationContextKeyIsValid created, created, reg)
    end.

(** ** References *)

Definition AuthorizationRetain (reg : Registry) (key : AuthorizationContextKey) : bool * Registry :=
  match ResolveLive reg key with
  | None => (false, reg)
  | Some row =>
      if ar_owner_references row =? u32_max then (false, reg)
      else (true, update_row reg key (set_owners row (ar_state row) (ar_owner_references row + 1)))
  end.

Definition AuthorizationRelease (reg : Registry) (key : option AuthorizationContextKey)
    : bool * option AuthorizationContextKey * Registry :=
  match key with
  | None => (false, None, reg)
  | Some k =>
      if negb (AuthorizationContextKeyIsValid k) then (false, key, reg)
      else
        match ResolveLive reg k with
        | None => (false, key, reg)
        | Some row =>
            let left := ar_owner_references row - 1 in
            let row := if left =? 0
                       then set_owners (set_authority row (ClearActiveLeasesLocked (ar_authority row))) CtxRetired left
                       else set_owners row (ar_state row) left in
            (true, Some kInvalidAuthorizationContextKey, update_row reg k row)
        end
  end.

(** ** Queries *)

Definition AuthorizationSnapshot (reg : Registry) (key : AuthorizationContextKey) (now_ns : Z) (has_out : bool)
    : bool * AuthorizationContextSnapshot * Registry :=
  if negb has_out then (false, zero_snapshot, reg)
  else
    match ResolveExactLocked reg key with
    | None => (false, zero_snapshot, reg)
    | Some row =>
        let row := if bool_decide (ar_state row = CtxLive)
                   then set_authority row (ObserveLeaseTimeLocked (ar_authority row) now_ns).2 else row in
        (true, CopySnapshotLocked row, update_row reg key row)
    end.

Definition AuthorizationTrySnapshotNoExpire (reg : Registry) (key : AuthorizationContextKey) (has_out lock_free : bool)
    : bool * AuthorizationContextSnapshot :=
  if negb has_out then (false, zero_snapshot)
  else if negb lock_free then (false, zero_snapshot)
  else
    match ResolveLive reg key with
    | None => (false, zero_snapshot)
    | Some row => (true, CopySnapshotLocked row)
    end.

Definition AuthorizationHas (reg : Registry) (key : AuthorizationContextKey) (cap now_ns : Z) : bool * Registry :=
  if negb (CapabilityIsDefined cap) then (false, reg)
  else
    match ResolveLive reg key with
    | None => (false, reg)
    | Some row =>
        let a := (ObserveLeaseTimeLocked (ar_authority row) now_ns).2 in
        (negb (Z.land (EffectiveBitsLocked a) (CapabilityBit cap) =? 0), update_row reg key (set_authority row a))
    end.

(** ** Changing authority *)

Definition AuthorizationGrantDurable (reg : Registry) (key : AuthorizationContextKey) (cap : Z) : bool * Registry :=
  if negb (CapabilityIsDefined cap) then (false, reg)
  else
    match ResolveLive reg key with
    | None => (false, reg)
    | Some row =>
        let a := ar_authority row in
        if Z.land (ceiling_bits a) (CapabilityBit cap) =? 0 then (false, reg)
        else
          (true, update_row reg key (set_authority row
                   (MkAuthority (Z.lor (durable_bits a) (CapabilityBit cap)) (ceiling_bits a) (lease_bits a)
                      (lease_deadline_ns a) (lease_generation a) (last_lease_time_ns a) (lease_time_regressed a))))
    end.

(** The loop that zeroes the deadlines of a mask. *)
Definition clear_deadlines (mask : Z) (deadlines : list Z) : list Z :=
  foldl (fun ds index => if negb (Z.land mask (CapabilityBit index) =? 0) then <[Z.to_nat index := 0]> ds else ds)
    deadlines cap_indices.

Definition disable_bits (a : Authority) (mask : Z) : Authority :=
  MkAuthority (Z.ldiff (durable_bits a) mask) (ceiling_bits a) (Z.ldiff (lease_bits a) mask)
    (clear_deadlines mask (lease_deadline_ns a)) (lease_generation a) (last_lease_time_ns a) (lease_time_regressed a).
Definition drop_bits (a : Authority) (mask : Z) : Authority :=
  MkAuthority (Z.ldiff (durable_bits a) mask) (Z.ldiff (ceiling_bits a) mask) (Z.ldiff (lease_bits a) mask)
    (clear_deadlines mask (lease_deadline_ns a)) (lease_generation a) (last_lease_time_ns a) (lease_time_regressed a).

(** The number is what the optional output receives. *)
Definition AuthorizationDisableMask (reg : Registry) (key : AuthorizationContextKey) (now_ns disable_mask : Z)
    : bool * Z * Registry :=
  if negb (CapabilityMaskIsCanonical disable_mask) then (false, 0, reg)
  else
    match ResolveLive reg key with
    | None => (false, 0, reg)
    | Some row =>
        let a := (ObserveLeaseTimeLocked (ar_authority row) now_ns).2 in
        (true, EffectiveBitsLocked a, update_row reg key (set_authority row (disable_bits a disable_mask)))
    end.

Definition AuthorizationDropIrreversibly (reg : Registry) (key : AuthorizationContextKey) (drop_mask : Z)
    : bool * Registry :=
  if negb (CapabilityMaskIsCanonical drop_mask) then (false, reg)
  else
    match ResolveLive reg key with
    | None => (false, reg)
    | Some row => (true, update_row reg key (set_authority row (drop_bits (ar_authority row) drop_mask)))
    end.

Definition AuthorizationDropIrreversiblyWithPrevious (reg : Registry) (key : AuthorizationContextKey)
    (now_ns drop_mask : Z) (has_out : bool) : bool * Z * Registry :=
  if negb has_out then (false, 0, reg)
  else if negb (CapabilityMaskIsCanonical drop_mask) then (false, 0, reg)
  else
    match ResolveLive reg key with
    | None => (false, 0, reg)
    | Some row =>
        let a := (ObserveLeaseTimeLocked (ar_authority row) now_ns).2 in
        (true, EffectiveBitsLocked a, update_row reg key (set_authority row (drop_bits a drop_mask)))
    end.

Definition AuthorizationGrantLease (reg : Registry) (key : AuthorizationContextKey) (cap now_ns deadline_ns generation : Z)
    : bool * Registry :=
  if negb (CapabilityIsDefined cap) || (deadline_ns =? 0) || (generation =? 0)
     || (kAuthorizationLeaseGenerationMaximum <? generation)
  then (false, reg)
  else
    match ResolveLive reg key with
    | None => (false, reg)
    | Some row =>
        let '(valid, a) := ObserveLeaseTimeLocked (ar_authority row) now_ns in
        let observed := update_row reg key (set_authority row a) in
        if negb valid || (deadline_ns <=? now_ns) then (false, observed)
        else
          let index := Z.to_nat cap in
          if (Z.land (ceiling_bits a) (CapabilityBit cap) =? 0) || (generation <=? nth index (lease_generation a) 0)
          then (false, observed)
          else
            (true, update_row reg key (set_authority row
                     (MkAuthority (durable_bits a) (ceiling_bits a) (Z.lor (lease_bits a) (CapabilityBit cap))
                        (<[index := deadline_ns]> (lease_deadline_ns a)) (<[index := generation]> (lease_generation a))
                        (last_lease_time_ns a) (lease_time_regressed a))))
    end.

Definition AuthorizationRevokeLease (reg : Registry) (key : AuthorizationContextKey) (cap expected_generation : Z)
    : bool * Registry :=
  if negb (CapabilityIsDefined cap) || (expected_generation =? 0)
     || (kAuthorizationLeaseGenerationMaximum <? expected_generation)
  then (false, reg)
  else
    match ResolveLive reg key with
    | None => (false, reg)
    | Some row =>
        let a := ar_authority row in
        if (Z.land (lease_bits a) (CapabilityBit cap) =? 0)
           || negb (nth (Z.to_nat cap) (lease_generation a) 0 =? expected_generation)
        then (false, reg)
        else (true, update_row reg key (set_authority row (clear_lease a cap)))
    end.

(** ** Enforcement *)

(** Ticks against their meter. *)
Definition charge_ticks (t : TickMeter) (ticks : Z) : AuthorizationActionResult * TickMeter :=
  if ticks =? 0 then (ResolvedActionResult (ticks_used t), t)
  else
    let '(added, charged) := AddSaturating (ticks_used t) ticks in
    let overflow := negb added in
    let fire := negb (tick_threshold_latched t) && (overflow || (tick_budget t <=? charged)) in
    (MkActionResult true overflow false (if fire then TickBudgetExceeded else ActionNone)
       kAuthorizationNoFsWriteWindow charged,
     MkTicks (tick_budget t) charged (tick_threshold_latched t || fire)).

Definition AuthorizationChargeTick (reg : Registry) (key : AuthorizationContextKey) (ticks : Z)
    : AuthorizationActionResult * Registry :=
  match ResolveLive reg key with
  | None => (UnresolvedActionResult, reg)
  | Some row =>
      let '(result, t) := charge_ticks (ar_ticks row) ticks in
      (result, update_row reg key (set_meters row t (ar_denials row) (ar_fs_writes row)))
  end.

(** A denial against its meter. *)
Definition count_denial (d : DenialMeter) : AuthorizationActionResult * DenialMeter :=
  let '(added, count) := AddSaturating (denial_count d) 1 in
  let overflow := negb added in
  let fire := negb (denial_threshold_latched d) && (overflow || (kAuthorizationDenialThreshold <=? count)) in
  (MkActionResult true overflow false (if fire then DenialThresholdExceeded else ActionNone)
     kAuthorizationNoFsWriteWindow count,
   MkDenials count (denial_threshold_latched d || fire)).

Definition AuthorizationRecordDenial (reg : Registry) (key : AuthorizationContextKey)
    : AuthorizationActionResult * Registry :=
  match ResolveLive reg key with
  | None => (UnresolvedActionResult, reg)
  | Some row =>
      let '(result, d) := count_denial (ar_denials row) in
      (result, update_row reg key (set_meters row (ar_ticks row) d (ar_fs_writes row)))
  end.

(** One window of a write: the meter, the overflow flag and the first window
    above its cap. *)
Definition fs_window (now_tick bytes : Z) (s : FsWriteMeter * bool * Z) (level : nat) : FsWriteMeter * bool * Z :=
  let '(f, overflow, window) := s in
  let restart := negb (nth level (fs_write_window_initialized f) false)
                 || (nth level kAuthorizationFsWriteWindowTicks 0
                     <=? wrap64 (now_tick - nth level (fs_write_window_start_tick f) 0)) in
  let '(added, window_bytes) := if restart then (true, bytes) else AddSaturating (nth level (fs_write_window_bytes f) 0) bytes in
  (MkFsWrites (fs_write_bytes_total f) (<[level := window_bytes]> (fs_write_window_bytes f))
     (if restart then <[level := now_tick]> (fs_write_window_start_tick f) else fs_write_window_start_tick f)
     (if restart then <[level := true]> (fs_write_window_initialized f) else fs_write_window_initialized f)
     (last_fs_write_tick f) (fs_write_clock_initialized f) (fs_write_time_regressed f) (fs_write_threshold_latched f),
   negb added || overflow,
   if (window =? kAuthorizationNoFsWriteWindow) && (nth level kAuthorizationFsWriteWindowByteCaps 0 <? window_bytes)
   then Z.of_nat level else window).

(** A write against the meter: the meter, whether a counter overflowed, whether
    time ran backwards, the window above its cap and the lifetime count. *)
Definition fs_meter (f : FsWriteMeter) (now_tick bytes : Z) : FsWriteMeter * bool * bool * Z * Z :=
  let '(added, lifetime) := AddSaturating (fs_write_bytes_total f) bytes in
  if fs_write_clock_initialized f && (now_tick <? last_fs_write_tick f)
  then (MkFsWrites lifetime (fs_write_window_bytes f) (fs_write_window_start_tick f) (fs_write_window_initialized f)
          (last_fs_write_tick f) (fs_write_clock_initialized f) true (fs_write_threshold_latched f),
        negb added, true, kAuthorizationNoFsWriteWindow, lifetime)
  else
    let f := MkFsWrites lifetime (fs_write_window_bytes f) (fs_write_window_start_tick f) (fs_write_window_initialized f)
               now_tick true (fs_write_time_regressed f) (fs_write_threshold_latched f) in
    let '(f, overflow, window) :=
      foldl (fs_window now_tick bytes) (f, negb added, kAuthorizationNoFsWriteWindow) (seq 0 kAuthorizationFsWriteWindowCount) in
    (f, overflow, false, window, lifetime).

Definition count_write (f : FsWriteMeter) (now_tick bytes : Z) : AuthorizationActionResult * FsWriteMeter :=
  if bytes =? 0 then (ResolvedActionResult (fs_write_bytes_total f), f)
  else
    let '(f, overflow, regression, window, lifetime) := fs_meter f now_tick bytes in
    let fire := negb (fs_write_threshold_latched f)
                && (overflow || regression || negb (window =? kAuthorizationNoFsWriteWindow)) in
    (MkActionResult true overflow regression (if fire then FsWriteRateExceeded else ActionNone) window lifetime,
     MkFsWrites (fs_write_bytes_total f) (fs_write_window_bytes f) (fs_write_window_start_tick f)
       (fs_write_window_initialized f) (last_fs_write_tick f) (fs_write_clock_initialized f)
       (fs_write_time_regressed f) (fs_write_threshold_latched f || fire)).

Definition AuthorizationRecordFsWrite (reg : Registry) (key : AuthorizationContextKey) (now_tick bytes : Z)
    : AuthorizationActionResult * Registry :=
  match ResolveLive reg key with
  | None => (UnresolvedActionResult, reg)
  | Some row =>
      let '(result, f) := count_write (ar_fs_writes row) now_tick bytes in
      (result, update_row reg key (set_meters row (ar_ticks row) (ar_denials row) f))
  end.

(** ** The boot self test *)

Definition kCapNet : Z := 6.

Fixpoint record_denials (n : nat) (reg : Registry) (key : AuthorizationContextKey) (actions : Z) : Z * Registry :=
  match n with
  | O => (actions, reg)
  | S n =>
      let '(r, reg) := AuthorizationRecordDenial reg key in
      record_denials n reg key (if bool_decide (ar_action r = DenialThresholdExceeded) then actions + 1 else actions)
  end.

Definition AuthorizationSelfTest (reg : Registry) : bool * Registry :=
  let durable := CapabilityBit kCapFsRead in
  let ceiling := Z.lor durable (CapabilityBit kCapNet) in
  let '(ok, parent, reg) := AuthorizationCreateTrusted reg durable ceiling 2 true in
  if negb (AuthorizationContextKeyIsValid parent) then (ok, reg)
  else
    let '(o1, reg) := AuthorizationGrantLease reg parent kCapNet 10 20 1 in
    let '(o2, reg) := AuthorizationHas reg parent kCapNet 11 in
    let '(o3, child, reg) := AuthorizationDeriveForSpawn reg parent 12 (CapabilityBit kCapNet) durable ceiling 8 ProfileSandbox true in
    let '(o4, reg) :=
      if AuthorizationContextKeyIsValid child
      then
        let '(h1, reg) := AuthorizationHas reg child kCapFsRead 12 in
        let '(h2, reg) := if h1 then AuthorizationHas reg child kCapNet 12 else (false, reg) in
        let '(r, _, reg) := AuthorizationRelease reg (Some child) in (h1 && negb h2 && r, reg)
      else (true, reg) in
    let '(o5, reg) := AuthorizationRevokeLease reg parent kCapNet 1 in
    let '(o6, reg) := if o5 then AuthorizationGrantLease reg parent kCapNet 13 30 1 else (false, reg) in
    let '(o7, reg) := AuthorizationDropIrreversibly reg parent (CapabilityBit kCapNet) in
    let '(o8, reg) := if o7 then AuthorizationGrantDurable reg parent kCapNet else (false, reg) in
    let '(tick, reg) := AuthorizationChargeTick reg parent 2 in
    let '(denial_actions, reg) := record_denials (Z.to_nat kAuthorizationDenialThreshold) reg parent 0 in
    let '(write, reg) := AuthorizationRecordFsWrite reg parent 1 (nth 0 kAuthorizationFsWriteWindowByteCaps 0 + 1) in
    let '(o9, _, reg) := AuthorizationRelease reg (Some parent) in
    (ok && o1 && o2 && o3 && o4 && (o5 && negb o6) && (o7 && negb o8)
     && (ar_resolved tick && bool_decide (ar_action tick = TickBudgetExceeded)) && (denial_actions =? 1)
     && (ar_resolved write && bool_decide (ar_action write = FsWriteRateExceeded) && (ar_fs_write_window write =? 0))
     && o9, reg).

Lemma authorization_selftest_passes : (AuthorizationSelfTest g_authorizations).1 = true.
Proof. vm_compute. reflexivity. Qed.
