(* ===== verification/AuthorizationSpec.v ===== *)
(** * What authorization contexts promise

    The contract of the registry: a finite map of live contexts, each with
    sets of capabilities and a finite map of leases, and the keys ever issued.
    The registry refines it; the theorems about whole runs (confinement,
    leases, enforcement) are proved with it. *)

From S2P Require Import Prelude KObject HandleTable Authorization.

(** ** Bits as sets *)

Lemma cap_indices_spec c : c ∈ cap_indices <-> 1 <= c <= 12.
Proof.
  unfold cap_indices. rewrite list_elem_of_fmap. split.
  - intros (n & -> & Hn). apply elem_of_seq in Hn. change (Z.to_nat kCapCount - 1)%nat with 12%nat in Hn. lia.
  - intros H. exists (Z.to_nat c). split; [lia|]. apply elem_of_seq. change (Z.to_nat kCapCount - 1)%nat with 12%nat. lia.
Qed.

Lemma cap_indices_nodup : NoDup cap_indices.
Proof. apply NoDup_fmap_2; [intros x y; lia | apply NoDup_seq]. Qed.

Lemma testbit_bit c i : 0 <= c -> Z.testbit (CapabilityBit c) i = (i =? c).
Proof.
  intros Hc. unfold CapabilityBit. rewrite Z.shiftl_1_l. destruct (Z.eqb_spec i c) as [->|Hn].
  - by apply Z.pow2_bits_true.
  - by apply Z.pow2_bits_false.
Qed.

Lemma cap_land_bit x c : 0 <= c -> (Z.land x (CapabilityBit c) =? 0) = negb (Z.testbit x c).
Proof.
  intros Hc. destruct (Z.testbit x c) eqn:E; simpl.
  - apply Z.eqb_neq. intros H. apply (f_equal (fun z => Z.testbit z c)) in H.
    rewrite Z.land_spec, testbit_bit, E, Z.bits_0, Z.eqb_refl in H by lia. done.
  - apply Z.eqb_eq, Z.bits_inj'. intros i Hi. rewrite Z.land_spec, testbit_bit, Z.bits_0 by lia.
    destruct (Z.eqb_spec i c) as [->|]; [by rewrite E | by rewrite andb_false_r].
Qed.

Definition bits_within (x y : Z) : Prop := forall i, Z.testbit x i = true -> Z.testbit y i = true.

Lemma ldiff_zero x y : Z.ldiff x y =? 0 = true <-> bits_within x y.
Proof.
  rewrite Z.eqb_eq. split.
  - intros H i Hx. apply (f_equal (fun z => Z.testbit z i)) in H. rewrite Z.ldiff_spec, Hx, Z.bits_0 in H.
    by destruct (Z.testbit y i).
  - intros H. apply Z.bits_inj'. intros i _. rewrite Z.ldiff_spec, Z.bits_0.
    destruct (Z.testbit x i) eqn:E; [|done]. by rewrite (H i E).
Qed.

Lemma known_bits c : Z.testbit KnownCapabilityMask c = true <-> 1 <= c <= 12.
Proof.
  change KnownCapabilityMask with 8190. split.
  - intros H. destruct (Z_lt_le_dec c 0); [by rewrite Z.testbit_neg_r in H|].
    destruct (Z_lt_le_dec 12 c); [by rewrite (Z.bits_above_log2 8190 c) in H by (simpl; lia)|].
    assert (c <> 0) by (by intros ->). lia.
  - intros H. assert (Forall (fun c => Z.testbit 8190 c = true) cap_indices) as Hf by (vm_compute; repeat constructor).
    rewrite Forall_forall in Hf. by apply Hf, cap_indices_spec.
Qed.

Lemma canonical_within bits : CapabilityMaskIsCanonical bits = true <-> bits_within bits KnownCapabilityMask.
Proof. apply ldiff_zero. Qed.

Lemma canonical_bit bits c : CapabilityMaskIsCanonical bits = true -> Z.testbit bits c = true -> 1 <= c <= 12.
Proof. intros H Hb. apply known_bits. by apply (proj1 (canonical_within bits) H). Qed.

Lemma defined_spec c : 0 <= c -> CapabilityIsDefined c = true <-> 1 <= c <= 12.
Proof. unfold CapabilityIsDefined, kCapNone, kCapCount. lia. Qed.

(** The capabilities of a mask. *)
Definition caps_of (bits : Z) : gset Z := list_to_set (filter (fun c => Z.testbit bits c = true) cap_indices).

Lemma elem_of_caps bits c : c ∈ caps_of bits <-> Z.testbit bits c = true /\ 1 <= c <= 12.
Proof. unfold caps_of. by rewrite elem_of_list_to_set, list_elem_of_filter, cap_indices_spec. Qed.

(** A finite map over the capabilities, from what it holds at each. *)
Definition build (f : Z -> option Z) : gmap Z Z :=
  foldr (fun c m => match f c with Some v => <[c := v]> m | None => m end) ∅ cap_indices.

Lemma lookup_build f c : build f !! c = if decide (1 <= c <= 12) then f c else None.
Proof.
  unfold build. assert (forall l : list Z, NoDup l ->
    (foldr (fun c m => match f c with Some v => <[c := v]> m | None => m end) ∅ l : gmap Z Z) !! c
    = if decide (c ∈ l) then f c else None) as H.
  { induction l as [|x l IH]; intros Hn; cbn [foldr]; [by rewrite decide_False by set_solver|].
    apply NoDup_cons in Hn as [Hx Hn]. specialize (IH Hn). destruct (decide (c = x)) as [->|Hne].
    - rewrite decide_True by set_solver. destruct (f x) eqn:E; [by rewrite lookup_insert_eq|].
      rewrite IH. by rewrite decide_False.
    - assert ((if decide (c ∈ x :: l) then f c else None) = if decide (c ∈ l) then f c else None) as ->
        by (destruct (decide (c ∈ l)), (decide (c ∈ x :: l)); set_solver).
      destruct (f x); [by rewrite lookup_insert_ne|done]. }
  rewrite H by apply cap_indices_nodup. destruct (decide (c ∈ cap_indices)) as [Hc|Hc]; rewrite cap_indices_spec in Hc;
    [by rewrite decide_True | by rewrite decide_False].
Qed.

(** ** The contract *)

Record Ctx := MkCtx {
  cx_profile : AuthorizationLaunchProfile; cx_owners : Z;
  cx_durable : gset Z; cx_ceiling : gset Z;
  cx_leases : gmap Z Z;  (** the deadline of each active lease *)
  cx_marks : gmap Z Z;   (** the last lease generation accepted *)
  cx_clock : Z;
  cx_ticks : TickMeter; cx_denials : DenialMeter; cx_fs_writes : FsWriteMeter
}.

Definition effective (x : Ctx) : gset Z := cx_durable x ∪ dom (cx_leases x).

Definition with_leases (x : Ctx) (leases : gmap Z Z) (clock : Z) : Ctx :=
  MkCtx (cx_profile x) (cx_owners x) (cx_durable x) (cx_ceiling x) leases (cx_marks x) clock
    (cx_ticks x) (cx_denials x) (cx_fs_writes x).
Definition with_sets (x : Ctx) (durable ceiling : gset Z) (leases : gmap Z Z) : Ctx :=
  MkCtx (cx_profile x) (cx_owners x) durable ceiling leases (cx_marks x) (cx_clock x)
    (cx_ticks x) (cx_denials x) (cx_fs_writes x).

Definition with_owners (x : Ctx) (n : Z) : Ctx :=
  MkCtx (cx_profile x) n (cx_durable x) (cx_ceiling x) (cx_leases x) (cx_marks x) (cx_clock x)
    (cx_ticks x) (cx_denials x) (cx_fs_writes x).
Definition with_meters (x : Ctx) (t : TickMeter) (d : DenialMeter) (f : FsWriteMeter) : Ctx :=
  MkCtx (cx_profile x) (cx_owners x) (cx_durable x) (cx_ceiling x) (cx_leases x) (cx_marks x) (cx_clock x) t d f.

(** Time passes: a clock that stops or runs backwards ends every lease. *)
Definition observe (x : Ctx) (now : Z) : bool * Ctx :=
  if (now =? 0) || (now <? cx_clock x) then (false, with_leases x ∅ (cx_clock x))
  else (true, with_leases x (filter (fun p => now < p.2) (cx_leases x)) now).

Definition take_away (x : Ctx) (mask : gset Z) : Ctx :=
  with_sets x (cx_durable x ∖ mask) (cx_ceiling x) (filter (fun p => p.1 ∉ mask) (cx_leases x)).
Definition take_away_forever (x : Ctx) (mask : gset Z) : Ctx :=
  with_sets x (cx_durable x ∖ mask) (cx_ceiling x ∖ mask) (filter (fun p => p.1 ∉ mask) (cx_leases x)).

Definition new_ctx (profile : AuthorizationLaunchProfile) (durable ceiling : gset Z) (budget clock : Z) : Ctx :=
  MkCtx profile 1 durable ceiling ∅ ∅ clock (fresh_ticks budget) fresh_denials fresh_fs_writes.

Record Contract := MkContract { co_live : gmap AuthorizationContextKey Ctx; co_used : gset AuthorizationContextKey }.
Definition empty_contract : Contract := MkContract ∅ ∅.

Definition set_live (c : Contract) (k : AuthorizationContextKey) (x : Ctx) : Contract :=
  MkContract (<[k := x]> (co_live c)) (co_used c).

Inductive Call :=
| CallCreate (sandbox : bool) (durable ceiling budget : Z)
| CallDerive (parent : AuthorizationContextKey) (now required durable ceiling budget : Z) (profile : AuthorizationLaunchProfile)
| CallRetain (k : AuthorizationContextKey)
| CallRelease (k : AuthorizationContextKey)
| CallSnapshot (k : AuthorizationContextKey) (now : Z)
| CallPeek (k : AuthorizationContextKey) (lock_free : bool)
| CallHas (k : AuthorizationContextKey) (cap now : Z)
| CallGrant (k : AuthorizationContextKey) (cap : Z)
| CallDisable (k : AuthorizationContextKey) (now bits : Z)
| CallDrop (k : AuthorizationContextKey) (bits : Z)
| CallDropPrevious (k : AuthorizationContextKey) (now bits : Z)
| CallLease (k : AuthorizationContextKey) (cap now deadline generation : Z)
| CallRevoke (k : AuthorizationContextKey) (cap generation : Z)
| CallTick (k : AuthorizationContextKey) (ticks : Z)
| CallDenial (k : AuthorizationContextKey)
| CallFsWrite (k : AuthorizationContextKey) (now bytes : Z).

Inductive Answer :=
| AnsBool (b : bool)
| AnsKey (k : option AuthorizationContextKey)
| AnsBits (b : bool) (bits : gset Z)
| AnsAction (r : AuthorizationActionResult)
| AnsCtx (x : option Ctx).

Definition admit_ctx (c : Contract) (fresh : option AuthorizationContextKey) (x : Ctx) : Answer * Contract :=
  match fresh with
  | Some k => (AnsKey (Some k), MkContract (<[k := x]> (co_live c)) ({[k]} ∪ co_used c))
  | None => (AnsKey None, c)
  end.

(** A request for these capabilities makes sense. *)
Definition request_ok (durable ceiling budget : Z) : bool :=
  negb (budget =? 0) && CapabilityMaskIsCanonical durable && CapabilityMaskIsCanonical ceiling
  && bool_decide (caps_of durable ⊆ caps_of ceiling).

(** The context a call is about, and its answer when that is not live. *)
Definition call_key (call : Call) : option AuthorizationContextKey :=
  match call with
  | CallCreate _ _ _ _ => None
  | CallDerive k _ _ _ _ _ _ | CallRetain k | CallRelease k | CallSnapshot k _ | CallPeek k _ | CallHas k _ _
  | CallGrant k _ | CallDisable k _ _ | CallDrop k _ | CallDropPrevious k _ _ | CallLease k _ _ _ _
  | CallRevoke k _ _ | CallTick k _ | CallDenial k | CallFsWrite k _ _ => Some k
  end.
Definition refused (call : Call) : Answer :=
  match call with
  | CallCreate _ _ _ _ | CallDerive _ _ _ _ _ _ _ => AnsKey None
  | CallSnapshot _ _ | CallPeek _ _ => AnsCtx None
  | CallDisable _ _ _ | CallDropPrevious _ _ _ => AnsBits false ∅
  | CallTick _ _ | CallDenial _ | CallFsWrite _ _ _ => AnsAction UnresolvedActionResult
  | _ => AnsBool false
  end.

(** What a call answers about a live context and what it leaves of it; [None]
    retires it. *)
Definition ctx_call (call : Call) (x : Ctx) : Answer * option Ctx :=
  let no := (refused call, Some x) in
  match call with
  | CallCreate _ _ _ _ | CallDerive _ _ _ _ _ _ _ => no
  | CallRetain _ => if cx_owners x =? u32_max then no else (AnsBool true, Some (with_owners x (cx_owners x + 1)))
  | CallRelease _ => (AnsBool true, if cx_owners x =? 1 then None else Some (with_owners x (cx_owners x - 1)))
  | CallSnapshot _ now => let x := (observe x now).2 in (AnsCtx (Some x), Some x)
  | CallPeek _ lock_free => if lock_free then (AnsCtx (Some x), Some x) else no
  | CallHas _ cap now =>
      if negb (CapabilityIsDefined cap) then no
      else let x := (observe x now).2 in (AnsBool (bool_decide (cap ∈ effective x)), Some x)
  | CallGrant _ cap =>
      if CapabilityIsDefined cap && bool_decide (cap ∈ cx_ceiling x)
      then (AnsBool true, Some (with_sets x ({[cap]} ∪ cx_durable x) (cx_ceiling x) (cx_leases x)))
      else no
  | CallDisable _ now bits =>
      if negb (CapabilityMaskIsCanonical bits) then no
      else let x := (observe x now).2 in (AnsBits true (effective x), Some (take_away x (caps_of bits)))
  | CallDrop _ bits =>
      if negb (CapabilityMaskIsCanonical bits) then no else (AnsBool true, Some (take_away_forever x (caps_of bits)))
  | CallDropPrevious _ now bits =>
      if negb (CapabilityMaskIsCanonical bits) then no
      else let x := (observe x now).2 in (AnsBits true (effective x), Some (take_away_forever x (caps_of bits)))
  | CallLease _ cap now deadline generation =>
      if negb (CapabilityIsDefined cap) || (deadline =? 0) || (generation =? 0)
         || (kAuthorizationLeaseGenerationMaximum <? generation)
      then no
      else
        let '(valid, x) := observe x now in
        if negb valid || (deadline <=? now) || negb (bool_decide (cap ∈ cx_ceiling x))
           || (generation <=? default 0 (cx_marks x !! cap))
        then (AnsBool false, Some x)
        else (AnsBool true, Some (MkCtx (cx_profile x) (cx_owners x) (cx_durable x) (cx_ceiling x)
               (<[cap := deadline]> (cx_leases x)) (<[cap := generation]> (cx_marks x)) (cx_clock x)
               (cx_ticks x) (cx_denials x) (cx_fs_writes x)))
  | CallRevoke _ cap generation =>
      if negb (CapabilityIsDefined cap) || (generation =? 0) || (kAuthorizationLeaseGenerationMaximum <? generation) then no
      else if bool_decide (is_Some (cx_leases x !! cap)) && (default 0 (cx_marks x !! cap) =? generation)
      then (AnsBool true, Some (with_leases x (delete cap (cx_leases x)) (cx_clock x)))
      else no
  | CallTick _ ticks =>
      let '(r, t) := charge_ticks (cx_ticks x) ticks in (AnsAction r, Some (with_meters x t (cx_denials x) (cx_fs_writes x)))
  | CallDenial _ =>
      let '(r, d) := count_denial (cx_denials x) in (AnsAction r, Some (with_meters x (cx_ticks x) d (cx_fs_writes x)))
  | CallFsWrite _ now bytes =>
      let '(r, f) := count_write (cx_fs_writes x) now bytes in
      (AnsAction r, Some (with_meters x (cx_ticks x) (cx_denials x) f))
  end.

(** What a parent at its clock lets a child have. *)
Definition may_derive (x : Ctx) (required durable ceiling : Z) (profile : AuthorizationLaunchProfile) : bool :=
  bool_decide (caps_of required ⊆ effective x) && bool_decide (caps_of durable ⊆ cx_durable x)
  && bool_decide (caps_of ceiling ⊆ cx_ceiling x)
  && (bool_decide (cx_profile x <> ProfileSandbox) || bool_decide (profile = ProfileSandbox)).

(** The whole call, with the key a construction chooses. *)
Definition contract_call (c : Contract) (fresh : option AuthorizationContextKey) (call : Call) : Answer * Contract :=
  match call with
  | CallCreate sandbox durable ceiling budget =>
      if request_ok durable ceiling budget
      then admit_ctx c fresh (new_ctx (if sandbox then ProfileSandbox else ProfileTrusted)
                                (caps_of durable) (caps_of ceiling) budget 0)
      else (AnsKey None, c)
  | CallDerive parent now required durable ceiling budget profile =>
      match co_live c !! parent with
      | Some x =>
          if ProfileIsValid profile && CapabilityMaskIsCanonical required && request_ok durable ceiling budget
          then
            let '(valid, x) := observe x now in
            let c := set_live c parent x in
            if may_derive x required durable ceiling profile
            then admit_ctx c fresh (new_ctx profile (caps_of durable) (caps_of ceiling) budget (if valid then now else 0))
            else (AnsKey None, c)
          else (AnsKey None, c)
      | None => (AnsKey None, c)
      end
  | _ =>
      match call_key call with
      | Some k =>
          match co_live c !! k with
          | Some x =>
              let '(a, after) := ctx_call call x in
              (a, match after with Some x => set_live c k x | None => MkContract (delete k (co_live c)) (co_used c) end)
          | None => (refused call, c)
          end
      | None => (refused call, c)
      end
  end.

(** The same call on the registry. *)
Definition ctx_of (profile : AuthorizationLaunchProfile) (owners : Z) (a : Authority) (t : TickMeter) (d : DenialMeter)
    (f : FsWriteMeter) : Ctx :=
  MkCtx profile owners (caps_of (durable_bits a)) (caps_of (ceiling_bits a))
    (build (fun c => if Z.testbit (lease_bits a) c then Some (nth (Z.to_nat c) (lease_deadline_ns a) 0) else None))
    (build (fun c => let g := nth (Z.to_nat c) (lease_generation a) 0 in if g =? 0 then None else Some g))
    (last_lease_time_ns a) t d f.
Definition row_ctx (row : AuthorizationRow) : Ctx :=
  ctx_of (ar_provenance row) (ar_owner_references row) (ar_authority row) (ar_ticks row) (ar_denials row) (ar_fs_writes row).
Definition snapshot_ctx (s : AuthorizationContextSnapshot) : option Ctx :=
  if bool_decide (as_state s = CtxLive)
  then Some (ctx_of (as_provenance s) (as_owner_references s) (as_authority s) (as_ticks s) (as_denials s) (as_fs_writes s))
  else None.

Definition do_call (reg : Registry) (call : Call) : Answer * Registry :=
  match call with
  | CallCreate sandbox durable ceiling budget =>
      let '(ok, k, reg) := if sandbox then AuthorizationCreateSandbox reg durable ceiling budget true
                           else AuthorizationCreateTrusted reg durable ceiling budget true in
      (AnsKey (if ok then Some k else None), reg)
  | CallDerive parent now required durable ceiling budget profile =>
      let '(ok, k, reg) := AuthorizationDeriveForSpawn reg parent now required durable ceiling budget profile true in
      (AnsKey (if ok then Some k else None), reg)
  | CallRetain k => let '(b, reg) := AuthorizationRetain reg k in (AnsBool b, reg)
  | CallRelease k => let '(b, _, reg) := AuthorizationRelease reg (Some k) in (AnsBool b, reg)
  | CallSnapshot k now => let '(b, s, reg) := AuthorizationSnapshot reg k now true in (AnsCtx (snapshot_ctx s), reg)
  | CallPeek k lock_free => (AnsCtx (snapshot_ctx (AuthorizationTrySnapshotNoExpire reg k true lock_free).2), reg)
  | CallHas k cap now => let '(b, reg) := AuthorizationHas reg k cap now in (AnsBool b, reg)
  | CallGrant k cap => let '(b, reg) := AuthorizationGrantDurable reg k cap in (AnsBool b, reg)
  | CallDisable k now mask =>
      let '(b, bits, reg) := AuthorizationDisableMask reg k now mask in (AnsBits b (caps_of bits), reg)
  | CallDrop k mask => let '(b, reg) := AuthorizationDropIrreversibly reg k mask in (AnsBool b, reg)
  | CallDropPrevious k now mask =>
      let '(b, bits, reg) := AuthorizationDropIrreversiblyWithPrevious reg k now mask true in (AnsBits b (caps_of bits), reg)
  | CallLease k cap now deadline generation =>
      let '(b, reg) := AuthorizationGrantLease reg k cap now deadline generation in (AnsBool b, reg)
  | CallRevoke k cap generation => let '(b, reg) := AuthorizationRevokeLease reg k cap generation in (AnsBool b, reg)
  | CallTick k ticks => let '(r, reg) := AuthorizationChargeTick reg k ticks in (AnsAction r, reg)
  | CallDenial k => let '(r, reg) := AuthorizationRecordDenial reg k in (AnsAction r, reg)
  | CallFsWrite k now bytes => let '(r, reg) := AuthorizationRecordFsWrite reg k now bytes in (AnsAction r, reg)
  end.

(** ** Rows and contexts *)

Record authority_ok (a : Authority) : Prop := {
  ao_ceiling : bits_within (ceiling_bits a) KnownCapabilityMask;
  ao_durable : bits_within (durable_bits a) (ceiling_bits a);
  ao_lease : bits_within (lease_bits a) (ceiling_bits a);
  ao_deadlines : length (lease_deadline_ns a) = kAuthorizationCapabilityStorageCount;
  ao_generations : length (lease_generation a) = kAuthorizationCapabilityStorageCount;
  ao_clock : 0 <= last_lease_time_ns a;
}.

Lemma lease_index a c : authority_ok a -> Z.testbit (lease_bits a) c = true -> 1 <= c <= 12.
Proof. intros [H1 _ H3 _ _ _] H. by apply known_bits, H1, H3. Qed.

Lemma elem_dom_build f c : c ∈ dom (build f) <-> 1 <= c <= 12 /\ is_Some (f c).
Proof. rewrite elem_of_dom, lookup_build. case_decide; split; [tauto..| |]; [intros [? [=]] | tauto]. Qed.

Lemma effective_caps p o a t d f : authority_ok a -> caps_of (EffectiveBitsLocked a) = effective (ctx_of p o a t d f).
Proof.
  intros Ha. apply set_eq. intros c. unfold effective, ctx_of, EffectiveBitsLocked. cbn [cx_durable cx_leases].
  rewrite elem_of_union, elem_dom_build, !elem_of_caps, Z.land_spec, Z.lor_spec.
  pose proof (ao_durable a Ha c). pose proof (ao_lease a Ha c).
  destruct (Z.testbit (durable_bits a) c), (Z.testbit (lease_bits a) c), (Z.testbit (ceiling_bits a) c); simpl;
    intuition (done || eauto || by destruct_or?); naive_solver.
Qed.

(** *** Expiry *)

Definition expired (now : Z) (a : Authority) (c : Z) : bool :=
  let deadline := nth (Z.to_nat c) (lease_deadline_ns a) 0 in (deadline =? 0) || (deadline <=? now).

(** What two rows share when only their leases differ. *)
Definition same_but_leases (a a' : Authority) : Prop :=
  durable_bits a' = durable_bits a /\ ceiling_bits a' = ceiling_bits a /\ lease_generation a' = lease_generation a
  /\ last_lease_time_ns a' = last_lease_time_ns a /\ lease_time_regressed a' = lease_time_regressed a
  /\ length (lease_deadline_ns a') = length (lease_deadline_ns a).

Lemma clear_lease_same a c : same_but_leases a (clear_lease a c).
Proof. unfold same_but_leases, clear_lease. simpl. by rewrite length_insert. Qed.

Lemma nth_insert_ne {A} (l : list A) i j x d : i <> j -> nth j (<[i := x]> l) d = nth j l d.
Proof. intros. rewrite !nth_lookup. by rewrite list_lookup_insert_ne. Qed.
Lemma nth_insert_eq {A} (l : list A) i x d : (i < length l)%nat -> nth i (<[i := x]> l) d = x.
Proof. intros. rewrite nth_lookup, list_lookup_insert_eq by done. done. Qed.

Lemma clear_lease_bit a c j : 0 <= c -> Z.testbit (lease_bits (clear_lease a c)) j = Z.testbit (lease_bits a) j && negb (j =? c).
Proof. intros Hc. unfold clear_lease. simpl. by rewrite Z.ldiff_spec, testbit_bit. Qed.

Lemma expire_step now a active c :
  0 <= c -> Z.testbit active c = Z.testbit (lease_bits a) c ->
  expire_one now (a, active) c =
  if Z.testbit (lease_bits a) c && expired now a c then (clear_lease a c, Z.ldiff active (CapabilityBit c)) else (a, active).
Proof.
  intros Hc Hact. unfold expire_one, expired. rewrite cap_land_bit, Hact by done.
  by destruct (Z.testbit (lease_bits a) c); cbn [negb andb].
Qed.

Lemma expire_loop now l a active :
  NoDup l -> (forall c, c ∈ l -> 0 <= c) -> (forall c, c ∈ l -> Z.testbit active c = Z.testbit (lease_bits a) c) ->
  let r := (foldl (expire_one now) (a, active) l).1 in
  same_but_leases a r
  /\ forall j, 0 <= j ->
       Z.testbit (lease_bits r) j = Z.testbit (lease_bits a) j && negb (bool_decide (j ∈ l) && expired now a j)
       /\ (Z.testbit (lease_bits r) j = true -> nth (Z.to_nat j) (lease_deadline_ns r) 0 = nth (Z.to_nat j) (lease_deadline_ns a) 0).
Proof.
  revert a active. induction l as [|c l IH]; intros a active Hn Hpos Hact; cbn [foldl].
  { split; [by unfold same_but_leases|]. intros j _. split; [|done]. rewrite bool_decide_eq_false_2 by set_solver. by rewrite andb_true_r. }
  apply NoDup_cons in Hn as [Hc Hn]. assert (0 <= c) as Hc0 by (apply Hpos; set_solver).
  assert (forall j, bool_decide (j ∈ c :: l) = (j =? c) || bool_decide (j ∈ l)) as Hmem.
  { intros j. apply eq_true_iff_eq. rewrite orb_true_iff, !bool_decide_eq_true, Z.eqb_eq. set_solver. }
  rewrite expire_step by (done || apply Hact; set_solver). destruct (Z.testbit (lease_bits a) c && expired now a c) eqn:Ec.
  - apply andb_true_iff in Ec as [Eb Ee]. destruct (IH (clear_lease a c) (Z.ldiff active (CapabilityBit c)) Hn) as (I1 & I2).
    { intros x Hx. apply Hpos. set_solver. }
    { intros x Hx. rewrite clear_lease_bit, Z.ldiff_spec, testbit_bit, Hact by (done || set_solver). done. }
    split; [pose proof (clear_lease_same a c); unfold same_but_leases in *; intuition congruence|].
    intros j Hj. destruct (I2 j Hj) as [I3 I4]. rewrite I3, clear_lease_bit, Hmem by done.
    destruct (Z.eqb_spec j c) as [->|Hjc]; simpl; [rewrite Ee, !andb_false_r; done|]. rewrite andb_true_r.
    assert (nth (Z.to_nat j) (lease_deadline_ns (clear_lease a c)) 0 = nth (Z.to_nat j) (lease_deadline_ns a) 0) as En
      by (apply nth_insert_ne; lia).
    assert (expired now (clear_lease a c) j = expired now a j) as Ex by (unfold expired; by rewrite En).
    rewrite Ex. split; [done|]. intros Hb. rewrite <- En. apply I4. rewrite I3, clear_lease_bit, Ex by done.
    by rewrite (proj2 (Z.eqb_neq j c) Hjc), andb_true_r.
  - destruct (IH a active Hn) as (I1 & I2); [intros x Hx; apply Hpos; set_solver | intros x Hx; apply Hact; set_solver|].
    split; [done|]. intros j Hj. destruct (I2 j Hj) as [I3 I4]. rewrite I3, Hmem. destruct (Z.eqb_spec j c) as [->|Hjc]; simpl.
    + rewrite bool_decide_eq_false_2 by done. rewrite I3, bool_decide_eq_false_2 in I4 by done. simpl in *.
      destruct (Z.testbit (lease_bits a) c); [|done]. simpl in Ec. rewrite Ec. split; [done|]. intros _. by apply I4.
    + split; [done|]. by rewrite <- I3.
Qed.

Lemma observe_sim p o a t d f now :
  authority_ok a -> 0 <= now ->
  let '(valid, a') := ObserveLeaseTimeLocked a now in
  observe (ctx_of p o a t d f) now = (valid, ctx_of p o a' t d f) /\ authority_ok a'
  /\ durable_bits a' = durable_bits a /\ ceiling_bits a' = ceiling_bits a.
Proof.
  intros Ha Hnow. unfold ObserveLeaseTimeLocked, observe. cbn [cx_clock ctx_of].
  assert (((now =? 0) || negb (last_lease_time_ns a =? 0) && (now <? last_lease_time_ns a)) = ((now =? 0) || (now <? last_lease_time_ns a))) as ->.
  { pose proof (ao_clock a Ha). destruct (Z.eqb_spec now 0), (Z.eqb_spec (last_lease_time_ns a) 0), (Z.ltb_spec now (last_lease_time_ns a)); simpl; try done; lia. }
  destruct ((now =? 0) || (now <? last_lease_time_ns a)) eqn:Et.
  - split_and!; [|destruct Ha as [H1 H2 H3 H4 H5 H6]; split; try done; intros i Hi; by rewrite Z.bits_0 in Hi|done..].
    unfold with_leases, ctx_of. cbn. by f_equal.
  - cbv zeta. set (a0 := MkAuthority (durable_bits a) (ceiling_bits a) (lease_bits a) (lease_deadline_ns a) (lease_generation a)
                 (if last_lease_time_ns a <? now then now else last_lease_time_ns a) (lease_time_regressed a)).
    destruct (expire_loop now cap_indices a0 (lease_bits a0) cap_indices_nodup) as [Hs Hj]; [intros c Hc%cap_indices_spec; lia | done|].
    cbv zeta in *. set (r := (foldl (expire_one now) (a0, lease_bits a0) cap_indices).1) in *. clearbody r.
    destruct Hs as (S1 & S2 & S3 & S4 & S5 & S6).
    assert (last_lease_time_ns r = now) as Hclock by (rewrite S4; unfold a0; cbn; destruct (Z.ltb_spec (last_lease_time_ns a) now); lia).
    split_and!; [|destruct Ha as [H1 H2 H3 H4 H5 H6]; split; rewrite ?S1, ?S2, ?S3, ?Hclock, ?S6; try done|by rewrite S1|by rewrite S2].
    + unfold with_leases, ctx_of. cbn. rewrite S1, S2, S3, Hclock. f_equal. f_equal. apply map_eq. intros c.
      rewrite map_lookup_filter, !lookup_build. case_decide as Hc; [|done]. destruct (Hj c ltac:(lia)) as [J1 J2].
      rewrite bool_decide_eq_true_2 in J1 by (by apply cap_indices_spec). cbn [andb] in J1. rewrite J1.
      unfold a0 in *. cbn [lease_bits lease_deadline_ns] in *. destruct (Z.testbit (lease_bits a) c); [|done]. cbn [andb] in *.
      unfold expired in *. cbn [lease_deadline_ns] in *. set (dl := nth (Z.to_nat c) (lease_deadline_ns a) 0) in *. simpl.
      destruct (Z.eqb_spec dl 0), (Z.leb_spec dl now); simpl in *; rewrite ?J2 by done; simpl;
        first [lia | by rewrite option_guard_True by lia | by rewrite option_guard_False by lia].
    + intros i Hi. destruct (Z_lt_le_dec i 0); [by rewrite Z.testbit_neg_r in Hi|]. destruct (Hj i ltac:(done)) as [J1 _].
      rewrite J1 in Hi. apply andb_true_iff in Hi as [Hi _]. by apply H3.
Qed.

(** *** Taking capabilities away *)

Lemma clear_deadlines_spec mask ds :
  length (clear_deadlines mask ds) = length ds
  /\ forall j, 0 <= j -> Z.testbit mask j = false -> nth (Z.to_nat j) (clear_deadlines mask ds) 0 = nth (Z.to_nat j) ds 0.
Proof.
  unfold clear_deadlines. assert (forall c, c ∈ cap_indices -> 0 <= c) as Hpos by (intros c Hc%cap_indices_spec; lia).
  revert ds Hpos. induction cap_indices as [|c l IH]; intros ds Hpos; cbn [foldl]; [done|].
  rewrite cap_land_bit, negb_involutive by (apply Hpos; set_solver).
  destruct (IH (if Z.testbit mask c then <[Z.to_nat c := 0]> ds else ds)) as [I1 I2]; [intros x Hx; apply Hpos; set_solver|].
  rewrite I1. split; [destruct (Z.testbit mask c); [by rewrite length_insert|done]|].
  intros j Hj Hm. rewrite I2 by done. destruct (Z.testbit mask c) eqn:E; [|done]. apply nth_insert_ne.
  assert (0 <= c) by (apply Hpos; set_solver). assert (c <> j) by congruence. lia.
Qed.

Lemma caps_of_ldiff x y : caps_of (Z.ldiff x y) = caps_of x ∖ caps_of y.
Proof.
  apply set_eq. intros c. rewrite elem_of_difference, !elem_of_caps, Z.ldiff_spec.
  destruct (Z.testbit x c), (Z.testbit y c); simpl; intuition (done || lia).
Qed.

Lemma caps_of_lor x c : 1 <= c <= 12 -> caps_of (Z.lor x (CapabilityBit c)) = {[c]} ∪ caps_of x.
Proof.
  intros Hc. apply set_eq. intros i. rewrite elem_of_union, elem_of_singleton, !elem_of_caps, Z.lor_spec, testbit_bit by lia.
  destruct (Z.testbit x i), (Z.eqb_spec i c); simpl; intuition (done || lia).
Qed.

Lemma leases_taken a mask :
  build (fun c => if Z.testbit (Z.ldiff (lease_bits a) mask) c
                  then Some (nth (Z.to_nat c) (clear_deadlines mask (lease_deadline_ns a)) 0) else None)
  = filter (fun p => p.1 ∉ caps_of mask)
      (build (fun c => if Z.testbit (lease_bits a) c then Some (nth (Z.to_nat c) (lease_deadline_ns a) 0) else None)).
Proof.
  destruct (clear_deadlines_spec mask (lease_deadline_ns a)) as [_ Hn].
  apply map_eq. intros c. rewrite map_lookup_filter, !lookup_build. case_decide as Hc; [|done]. rewrite Z.ldiff_spec.
  destruct (Z.testbit (lease_bits a) c); [|done]. simpl. destruct (Z.testbit mask c) eqn:E; simpl.
  - rewrite option_guard_False; [done|]. intros H. apply H, elem_of_caps. done.
  - rewrite option_guard_True; [by rewrite Hn by lia|]. rewrite elem_of_caps. intros [? _]. congruence.
Qed.

Lemma bits_within_ldiff x y z : bits_within x y -> bits_within (Z.ldiff x z) (Z.ldiff y z).
Proof. intros H i. rewrite !Z.ldiff_spec, !andb_true_iff. intuition. Qed.
Lemma bits_within_ldiff_l x y z : bits_within x y -> bits_within (Z.ldiff x z) y.
Proof. intros H i. rewrite Z.ldiff_spec, andb_true_iff. intuition. Qed.

Lemma disable_sim p o a t d f mask :
  authority_ok a ->
  ctx_of p o (disable_bits a mask) t d f = take_away (ctx_of p o a t d f) (caps_of mask) /\ authority_ok (disable_bits a mask).
Proof.
  intros [H1 H2 H3 H4 H5 H6]. destruct (clear_deadlines_spec mask (lease_deadline_ns a)) as [Hl _]. split.
  - unfold take_away, with_sets, ctx_of, disable_bits. cbn. by rewrite leases_taken, caps_of_ldiff.
  - split; cbn; rewrite ?Hl; try done; by apply bits_within_ldiff_l.
Qed.

Lemma drop_sim p o a t d f mask :
  authority_ok a ->
  ctx_of p o (drop_bits a mask) t d f = take_away_forever (ctx_of p o a t d f) (caps_of mask) /\ authority_ok (drop_bits a mask).
Proof.
  intros [H1 H2 H3 H4 H5 H6]. destruct (clear_deadlines_spec mask (lease_deadline_ns a)) as [Hl _]. split.
  - unfold take_away_forever, with_sets, ctx_of, drop_bits. cbn. by rewrite leases_taken, !caps_of_ldiff.
  - split; cbn; rewrite ?Hl; try done; first [by apply bits_within_ldiff_l | by apply bits_within_ldiff].
Qed.

(** *** Granting *)

Lemma bits_within_lor x y c : 0 <= c -> bits_within x y -> Z.testbit y c = true -> bits_within (Z.lor x (CapabilityBit c)) y.
Proof.
  intros Hc H Hy i. rewrite Z.lor_spec, testbit_bit by done. destruct (Z.eqb_spec i c) as [->|]; [done|]. rewrite orb_false_r. apply H.
Qed.

Definition grant_bits (a : Authority) (cap : Z) : Authority :=
  MkAuthority (Z.lor (durable_bits a) (CapabilityBit cap)) (ceiling_bits a) (lease_bits a)
    (lease_deadline_ns a) (lease_generation a) (last_lease_time_ns a) (lease_time_regressed a).
Definition lease_grant (a : Authority) (cap deadline generation : Z) : Authority :=
  MkAuthority (durable_bits a) (ceiling_bits a) (Z.lor (lease_bits a) (CapabilityBit cap))
    (<[Z.to_nat cap := deadline]> (lease_deadline_ns a)) (<[Z.to_nat cap := generation]> (lease_generation a))
    (last_lease_time_ns a) (lease_time_regressed a).

Lemma grant_sim p o a t d f cap :
  authority_ok a -> 1 <= cap <= 12 -> Z.testbit (ceiling_bits a) cap = true ->
  let x := ctx_of p o a t d f in
  ctx_of p o (grant_bits a cap) t d f = with_sets x ({[cap]} ∪ cx_durable x) (cx_ceiling x) (cx_leases x)
  /\ authority_ok (grant_bits a cap).
Proof.
  intros [H1 H2 H3 H4 H5 H6] Hc Hb. split.
  - unfold with_sets, ctx_of, grant_bits. cbn. by rewrite caps_of_lor.
  - split; cbn; try done. apply bits_within_lor; [lia|done..].
Qed.

Lemma mark_of p o a t d f cap : 1 <= cap <= 12 ->
  default 0 (cx_marks (ctx_of p o a t d f) !! cap) = nth (Z.to_nat cap) (lease_generation a) 0.
Proof.
  intros Hc. cbn. rewrite lookup_build, decide_True by done.
  destruct (Z.eqb_spec (nth (Z.to_nat cap) (lease_generation a) 0) 0); [by rewrite e|done].
Qed.

Lemma lease_sim p o a t d f cap deadline generation :
  authority_ok a -> 1 <= cap <= 12 -> Z.testbit (ceiling_bits a) cap = true -> generation <> 0 ->
  let x := ctx_of p o a t d f in
  ctx_of p o (lease_grant a cap deadline generation) t d f
  = MkCtx p o (cx_durable x) (cx_ceiling x) (<[cap := deadline]> (cx_leases x)) (<[cap := generation]> (cx_marks x)) (cx_clock x) t d f
  /\ authority_ok (lease_grant a cap deadline generation).
Proof.
  intros [H1 H2 H3 H4 H5 H6] Hc Hb Hg. split.
  - unfold ctx_of, lease_grant. cbn. f_equal; apply map_eq; intros i; rewrite lookup_build; destruct (decide (i = cap)) as [->|Hne].
    + rewrite decide_True, Z.lor_spec, testbit_bit, Z.eqb_refl, orb_true_r, lookup_insert_eq, nth_insert_eq by (done || lia || (rewrite H4; unfold kAuthorizationCapabilityStorageCount; lia)). done.
    + rewrite lookup_insert_ne, lookup_build by done. case_decide; [|done].
      rewrite Z.lor_spec, testbit_bit, (proj2 (Z.eqb_neq i cap) Hne), orb_false_r, nth_insert_ne by lia. done.
    + rewrite decide_True, lookup_insert_eq, nth_insert_eq by (done || (rewrite H5; unfold kAuthorizationCapabilityStorageCount; lia)).
      by rewrite (proj2 (Z.eqb_neq _ _) Hg).
    + rewrite lookup_insert_ne, lookup_build by done. case_decide; [|done]. by rewrite nth_insert_ne by lia.
  - split; cbn; rewrite ?length_insert; try done. apply bits_within_lor; [lia|done..].
Qed.

Lemma revoke_sim p o a t d f cap :
  authority_ok a -> 1 <= cap <= 12 ->
  let x := ctx_of p o a t d f in
  ctx_of p o (clear_lease a cap) t d f = with_leases x (delete cap (cx_leases x)) (cx_clock x) /\ authority_ok (clear_lease a cap).
Proof.
  intros [H1 H2 H3 H4 H5 H6] Hc. split.
  - unfold ctx_of, with_leases. cbn. f_equal. apply map_eq. intros i. rewrite lookup_build, Z.ldiff_spec, testbit_bit by lia.
    destruct (decide (i = cap)) as [->|Hne].
    + rewrite lookup_delete_eq, Z.eqb_refl, andb_false_r. by case_decide.
    + rewrite lookup_delete_ne, lookup_build by done. case_decide; [|done].
      by rewrite (proj2 (Z.eqb_neq i cap) Hne), andb_true_r, nth_insert_ne by lia.
  - split; cbn; rewrite ?length_insert; try done. by apply bits_within_ldiff_l.
Qed.

Lemma fresh_sim p durable ceiling budget now :
  CapabilityMaskIsCanonical ceiling = true -> bits_within durable ceiling -> 0 <= now ->
  ctx_of p 1 (fresh_authority durable ceiling now) (fresh_ticks budget) fresh_denials fresh_fs_writes
  = new_ctx p (caps_of durable) (caps_of ceiling) budget now
  /\ authority_ok (fresh_authority durable ceiling now).
Proof.
  intros Hc Hd Hn. split; [done|]. split; try done; [by apply canonical_within|]. intros i Hi. by rewrite Z.bits_0 in Hi.
Qed.

(** ** The registry *)

Record row_ok (row : AuthorizationRow) : Prop := {
  ro_generation : 0 <= ar_generation row <= kAuthorizationGenerationMaximum;
  ro_owners : 0 <= ar_owner_references row <= u32_max;
  ro_live : ar_state row = CtxLive -> ar_owner_references row <> 0 /\ 1 <= ar_generation row;
  ro_authority : authority_ok (ar_authority row);
}.

Definition reg_ok (reg : Registry) : Prop := length reg = kAuthorizationContextCapacity /\ Forall row_ok reg.

Definition typed_key (k : AuthorizationContextKey) : Prop := 0 <= ak_slot k.

(** The row of a slot has had this generation. *)
Definition issued (reg : Registry) (k : AuthorizationContextKey) : Prop :=
  exists row, reg !! Z.to_nat (ak_slot k) = Some row /\ 1 <= ak_generation k <= ar_generation row.

Definition live_row (row : AuthorizationRow) : bool := bool_decide (ar_state row = CtxLive).

Lemma resolve_live_spec reg k row :
  reg_ok reg -> typed_key k ->
  ResolveLive reg k = Some row <->
  reg !! Z.to_nat (ak_slot k) = Some row /\ ak_generation k = ar_generation row /\ 1 <= ar_generation row /\ ar_state row = CtxLive.
Proof.
  intros [Hl Hr] Hk. unfold ResolveLive, ResolveExactLocked, AuthorizationContextKeyIsValid, typed_key in *. split.
  - intros H. destruct (_ && _) eqn:Ev; [|done]. cbn [negb] in H. destruct (reg !! _) as [r|] eqn:E; [|done].
    destruct (Z.eqb_spec (ar_generation r) (ak_generation k)) as [Eg|]; [|done].
    destruct (_ || _) eqn:Eo; [done|]. injection H as <-. pose proof (Forall_lookup_1 _ _ _ _ Hr E) as [B _ _ _].
    apply orb_false_iff in Eo as [Es _]. case_bool_decide; [|done]. split_and!; try done. lia.
  - intros (E & Eg & Hg & Es). pose proof (Forall_lookup_1 _ _ _ _ Hr E) as [B Bo Bl _]. apply lookup_lt_Some in E as Hlt.
    rewrite Hl in Hlt. rewrite E, Eg.
    replace ((ak_slot k <? Z.of_nat kAuthorizationContextCapacity) && negb (ar_generation row =? 0)
             && (ar_generation row <=? kAuthorizationGenerationMaximum)) with true by lia. cbn [negb].
    rewrite Z.eqb_refl. destruct (Bl Es) as [Bl' _]. rewrite Es. rewrite bool_decide_eq_true_2 by done. cbn [negb orb].
    by rewrite (proj2 (Z.eqb_neq _ _) Bl').
Qed.

Lemma reg_row_ok reg k row : reg_ok reg -> typed_key k -> ResolveLive reg k = Some row -> row_ok row.
Proof. intros Ho Hk H. apply (resolve_live_spec _ _ _ Ho Hk) in H as (E & _). destruct Ho as [_ Hr]. by eapply Forall_lookup_1. Qed.

Lemma update_reg_ok reg k row' : reg_ok reg -> row_ok row' -> reg_ok (update_row reg k row').
Proof. intros [Hl Hr] Hn. split; [by unfold update_row; rewrite length_insert|]. by apply Forall_insert. Qed.

(** A row is replaced by another of the same generation. *)
Lemma update_resolve reg k row row' k' :
  reg_ok reg -> typed_key k -> typed_key k' -> ResolveLive reg k = Some row -> row_ok row' -> ar_generation row' = ar_generation row ->
  ResolveLive (update_row reg k row') k' =
  if decide (k' = k) then (if live_row row' then Some row' else None) else ResolveLive reg k'.
Proof.
  intros Ho Hk Hk' Hr Hn Hg. pose proof (update_reg_ok reg k row' Ho Hn) as Ho'.
  apply (resolve_live_spec _ _ _ Ho Hk) in Hr as (E & Eg & H1 & _). apply lookup_lt_Some in E as Hlt.
  apply option_eq. intros r. rewrite (resolve_live_spec _ _ _ Ho' Hk'). unfold update_row. case_decide as Hd.
  - subst k'. rewrite list_lookup_insert_eq by done. unfold live_row. split.
    + intros ([= <-] & _ & _ & Hs). by rewrite bool_decide_eq_true_2.
    + case_bool_decide; [|done]. intros [= <-]. split_and!; try done; congruence.
  - rewrite (resolve_live_spec _ _ _ Ho Hk'). destruct (decide (Z.to_nat (ak_slot k') = Z.to_nat (ak_slot k))) as [Es|Es].
    + rewrite Es, list_lookup_insert_eq by done. assert (ak_generation k' <> ar_generation row) as Hne.
      { intros Eg'. apply Hd. destruct k, k'. unfold typed_key in *. simpl in *. f_equal; [lia|congruence]. }
      split; intros (E1 & E2 & _); simplify_eq; congruence.
    + by rewrite list_lookup_insert_ne.
Qed.

Lemma update_issued reg k row row' k' :
  reg !! Z.to_nat (ak_slot k) = Some row -> ar_generation row' = ar_generation row -> issued (update_row reg k row') k' <-> issued reg k'.
Proof.
  intros E Hg. unfold issued, update_row. destruct (decide (Z.to_nat (ak_slot k') = Z.to_nat (ak_slot k))) as [Es|Es].
  - rewrite Es, list_lookup_insert_eq, E by (by apply lookup_lt_Some in E).
    split; intros (r & [= <-] & H); [rewrite Hg in H|]; eexists; (split; [done|]); lia.
  - by rewrite list_lookup_insert_ne.
Qed.

(** *** Abstraction *)

Definition abstracts (reg : Registry) (c : Contract) : Prop :=
  (forall k, typed_key k -> co_live c !! k = row_ctx <$> ResolveLive reg k)
  /\ (forall k, typed_key k -> k ∈ co_used c <-> issued reg k).

Lemma abstracts_update reg c k row row' x :
  reg_ok reg -> typed_key k -> abstracts reg c -> ResolveLive reg k = Some row ->
  row_ok row' -> ar_generation row' = ar_generation row -> ar_state row' = CtxLive -> row_ctx row' = x ->
  reg_ok (update_row reg k row') /\ abstracts (update_row reg k row') (set_live c k x).
Proof.
  intros Ho Hk [Ha Hu] Hr Hn Hg Hs Hx. split; [by apply update_reg_ok|]. pose proof Hr as Hr'.
  apply (resolve_live_spec _ _ _ Ho Hk) in Hr' as (E & _). split; intros k' Hk'; unfold set_live; cbn.
  - rewrite (update_resolve reg k row row' k') by done. unfold live_row. rewrite bool_decide_eq_true_2 by done.
    case_decide as Hd; [subst k'; by rewrite lookup_insert_eq, <- Hx|]. rewrite lookup_insert_ne by done. by apply Ha.
  - rewrite Hu by done. by rewrite (update_issued reg k row row').
Qed.

(** *** New contexts *)

(** A construction may choose any key never issued; it may fail only when every
    slot holds a live context or has spent its generations. *)
Definition choice_ok (c : Contract) (fresh : option AuthorizationContextKey) : Prop :=
  match fresh with
  | Some k => typed_key k /\ AuthorizationContextKeyIsValid k = true /\ k ∉ co_used c
  | None => forall slot, 0 <= slot < Z.of_nat kAuthorizationContextCapacity ->
              (exists k, ak_slot k = slot /\ is_Some (co_live c !! k)) \/ MkAuthKey slot kAuthorizationGenerationMaximum ∈ co_used c
  end.

Lemma allocate_scan_spec rows base :
  match allocate_scan rows base with
  | Some (slot, row) => (base <= slot)%nat /\ rows !! (slot - base)%nat = Some row /\ ar_state row = CtxRetired
                        /\ ar_generation row < kAuthorizationGenerationMaximum
  | None => Forall (fun row => ar_state row = CtxLive \/ kAuthorizationGenerationMaximum <= ar_generation row) rows
  end.
Proof.
  revert base. induction rows as [|row rows IH]; intros base; cbn [allocate_scan]; [constructor|].
  destruct (negb _ || _) eqn:E.
  - specialize (IH (S base)). destruct (allocate_scan rows (S base)) as [[slot r]|].
    + destruct IH as (H1 & H2 & H3 & H4). replace (slot - base)%nat with (S (slot - S base)) by lia. split_and!; (done || lia).
    + constructor; [|done]. apply orb_true_iff in E as [E|E]; [left; by destruct (ar_state row) | right; lia].
  - apply orb_false_iff in E as [E1 E2]. rewrite Nat.sub_diag. split_and!; try done; [by destruct (ar_state row) | lia].
Qed.

Lemma allocate_sim reg c p durable ceiling budget now :
  reg_ok reg -> abstracts reg c -> CapabilityMaskIsCanonical ceiling = true -> bits_within durable ceiling -> 0 <= now ->
  let '(k, reg') := AllocateLocked reg p durable ceiling budget now in
  let x := new_ctx p (caps_of durable) (caps_of ceiling) budget now in
  exists fresh, choice_ok c fresh /\ fresh = (if AuthorizationContextKeyIsValid k then Some k else None)
    /\ reg_ok reg' /\ abstracts reg' (admit_ctx c fresh x).2.
Proof.
  intros Ho [Ha Hu] Hc Hd Hn. pose proof Ho as [Hl Hf]. unfold AllocateLocked. pose proof (allocate_scan_spec reg 0) as Hs.
  destruct (allocate_scan reg 0) as [[slot row]|]; cbv zeta.
  - destruct Hs as (_ & E & Es & Hg). rewrite Nat.sub_0_r in E. pose proof (Forall_lookup_1 _ _ _ _ Hf E) as [B _ _ _].
    apply lookup_lt_Some in E as Hlt. set (k := MkAuthKey (Z.of_nat slot) (ar_generation row + 1)).
    set (row' := MkAuthRow _ _ _ _ _ _ _ _). destruct (fresh_sim p durable ceiling budget now Hc Hd Hn) as [Ex Hok].
    assert (AuthorizationContextKeyIsValid k = true) as Hv.
    { unfold AuthorizationContextKeyIsValid, k. cbn [ak_slot ak_generation]. rewrite Hl in Hlt. lia. }
    rewrite Hv. assert (typed_key k) as Hk by (unfold typed_key, k; simpl; lia).
    assert (Z.to_nat (ak_slot k) = slot) as Eslot by (unfold k; simpl; lia).
    assert (k ∉ co_used c) as Hnew.
    { rewrite Hu by done. intros (r & Er & H). rewrite Eslot, E in Er. simplify_eq. unfold k in H. simpl in H. lia. }
    assert (row_ok row') as Hrow by (split; simpl; try done; unfold u32_max; try lia; intros _; lia).
    exists (Some k). split; [done|]. split; [done|].
    assert (reg_ok (<[slot := row']> reg)) as Ho' by (split; [by rewrite length_insert | by apply Forall_insert]). split; [done|].
    split; intros k' Hk'; cbn.
    + destruct (decide (k' = k)) as [->|Hne].
      * rewrite lookup_insert_eq. symmetry. apply fmap_Some. exists row'. split; [|by unfold row_ctx; rewrite <- Ex].
        apply resolve_live_spec; [done..|]. rewrite Eslot, list_lookup_insert_eq by done. split_and!; try done. simpl. lia.
      * rewrite lookup_insert_ne, Ha by done. f_equal. apply option_eq. intros r.
        rewrite (resolve_live_spec _ _ _ Ho Hk'), (resolve_live_spec _ _ _ Ho' Hk').
        destruct (decide (Z.to_nat (ak_slot k') = slot)) as [Eq|Eq]; [|by rewrite list_lookup_insert_ne].
        rewrite Eq, E, list_lookup_insert_eq by done. split; intros (E1 & E2 & _ & E4); simplify_eq; [congruence|].
        exfalso. apply Hne. destruct k'. unfold k, typed_key in *. simpl in *. f_equal; lia.
    + rewrite elem_of_union, elem_of_singleton, Hu by done. unfold issued.
      destruct (decide (Z.to_nat (ak_slot k') = slot)) as [Eq|Eq].
      * rewrite Eq, E, list_lookup_insert_eq by done. split.
        -- intros [->|(r & [= <-] & H)]; eexists; (split; [done|]); unfold row'; simpl; lia.
        -- intros (r & [= <-] & H). unfold row' in H. cbn [ar_generation] in H.
           destruct (decide (ak_generation k' = ar_generation row + 1)) as [Eg|]; [left|right; exists row; split; [done|lia]].
           destruct k'. unfold k, typed_key in *. simpl in *. f_equal; lia.
      * rewrite list_lookup_insert_ne by done. split; [intros [->|]; [by rewrite Eslot in Eq|done] | by right].
  - exists None. split; [|done]. intros slot Hslot.
    destruct (lookup_lt_is_Some_2 reg (Z.to_nat slot)) as [row E]; [rewrite Hl; lia|].
    pose proof (Forall_lookup_1 _ _ _ _ Hf E) as [B _ Bl _]. pose proof (Forall_lookup_1 _ _ _ _ Hs E) as [Hlv|Hmax]; [left|right].
    + exists (MkAuthKey slot (ar_generation row)). split; [done|]. rewrite Ha by (unfold typed_key; simpl; lia).
      apply fmap_is_Some. exists row. apply resolve_live_spec; [done|unfold typed_key; simpl; lia|]. simpl. split_and!; try done. by apply Bl.
    + apply Hu; [unfold typed_key; simpl; lia|]. exists row. simpl. split; [done|]. unfold kAuthorizationGenerationMaximum in *. lia.
Qed.

(** ** The registry refines the contract *)

Definition simulates (r : Answer * Registry) (s : Answer * Contract) : Prop :=
  r.1 = s.1 /\ reg_ok r.2 /\ abstracts r.2 s.2.

Section Simulation.
Context (reg : Registry) (c : Contract) (Hok : reg_ok reg) (Habs : abstracts reg c).

Lemma simulates_same a : simulates (a, reg) (a, c).
Proof. done. Qed.

Lemma simulates_live k row a : typed_key k -> ResolveLive reg k = Some row -> simulates (a, reg) (a, set_live c k (row_ctx row)).
Proof.
  intros Hk Hr. destruct Habs as [Ha Hu]. split; [done|]. split; [done|]. cbn. unfold set_live.
  rewrite insert_id by (by rewrite Ha, Hr). by destruct c.
Qed.

Lemma live_cases k : typed_key k ->
  (ResolveLive reg k = None /\ co_live c !! k = None)
  \/ exists row, ResolveLive reg k = Some row /\ co_live c !! k = Some (row_ctx row) /\ row_ok row /\ ar_state row = CtxLive.
Proof.
  intros Hk. destruct Habs as [Ha _]. rewrite (Ha k Hk). destruct (ResolveLive reg k) as [row|] eqn:E; [right|by left].
  exists row. split_and!; try done; [by apply (reg_row_ok reg k)|]. by apply (resolve_live_spec _ _ _ Hok Hk) in E as (_ & _ & _ & ?).
Qed.

Lemma sim_authority k row a' ans x :
  typed_key k -> ResolveLive reg k = Some row -> authority_ok a' -> row_ok row -> ar_state row = CtxLive ->
  ctx_of (ar_provenance row) (ar_owner_references row) a' (ar_ticks row) (ar_denials row) (ar_fs_writes row) = x ->
  simulates (ans, update_row reg k (set_authority row a')) (ans, set_live c k x).
Proof.
  intros Hk Hr Ha [R1 R2 R3 R4] Hs Hx. split; [done|]. by apply (abstracts_update reg c k row (set_authority row a') x).
Qed.

Lemma sim_observed k row now :
  typed_key k -> row_ok row -> 0 <= now ->
  let '(valid, a) := ObserveLeaseTimeLocked (ar_authority row) now in
  observe (row_ctx row) now = (valid, row_ctx (set_authority row a)) /\ authority_ok a
  /\ durable_bits a = durable_bits (ar_authority row) /\ ceiling_bits a = ceiling_bits (ar_authority row).
Proof. intros Hk [R1 R2 R3 R4] Hn. by apply observe_sim. Qed.

Lemma sim_meters k row t d f ans :
  typed_key k -> ResolveLive reg k = Some row -> row_ok row -> ar_state row = CtxLive ->
  simulates (ans, update_row reg k (set_meters row t d f)) (ans, set_live c k (with_meters (row_ctx row) t d f)).
Proof.
  intros Hk Hr [R1 R2 R3 R4] Hs. split; [done|]. by apply (abstracts_update reg c k row (set_meters row t d f)).
Qed.

(** Retain and release. *)
Lemma sim_owners k row n ans :
  typed_key k -> ResolveLive reg k = Some row -> row_ok row -> ar_state row = CtxLive -> 1 <= n <= u32_max ->
  simulates (ans, update_row reg k (set_owners row (ar_state row) n)) (ans, set_live c k (with_owners (row_ctx row) n)).
Proof.
  intros Hk Hr [R1 R2 R3 R4] Hs Hn. split; [done|]. apply (abstracts_update reg c k row); try done.
  split; simpl; try done; [lia|]. intros _. split; [lia|by apply R3].
Qed.

Lemma sim_retire k row ans :
  typed_key k -> ResolveLive reg k = Some row -> row_ok row ->
  let row' := set_owners (set_authority row (ClearActiveLeasesLocked (ar_authority row))) CtxRetired 0 in
  simulates (ans, update_row reg k row') (ans, MkContract (delete k (co_live c)) (co_used c)).
Proof.
  intros Hk Hr [R1 R2 R3 R4] row'. destruct Habs as [Ha Hu].
  assert (row_ok row') as Hrow.
  { destruct R4 as [H1 H2 H3 H4 H5 H6]. split; simpl; try done.
    split; simpl; try done. intros i Hi. by rewrite Z.bits_0 in Hi. }
  split; [done|]. split; [by apply update_reg_ok|]. pose proof Hr as Hr'.
  apply (resolve_live_spec _ _ _ Hok Hk) in Hr' as (E & _). split; intros k' Hk'; cbn.
  - rewrite (update_resolve reg k row row' k') by done. case_decide as Hd; [subst k'; by rewrite lookup_delete_eq|].
    rewrite lookup_delete_ne by done. by apply Ha.
  - rewrite Hu by done. by rewrite (update_issued reg k row row').
Qed.
End Simulation.

(** The arguments have their types. *)
Definition call_ok (call : Call) : Prop :=
  match call with
  | CallCreate _ _ _ budget => is_u64 budget
  | CallDerive k now _ _ _ budget _ => typed_key k /\ 0 <= now /\ is_u64 budget
  | CallRetain k | CallRelease k | CallPeek k _ | CallDrop k _ | CallDenial k | CallFsWrite k _ _ => typed_key k
  | CallTick k ticks => typed_key k /\ is_u64 ticks
  | CallSnapshot k now | CallDisable k now _ | CallDropPrevious k now _ => typed_key k /\ 0 <= now
  | CallHas k cap now | CallLease k cap now _ _ => typed_key k /\ 0 <= cap /\ 0 <= now
  | CallGrant k cap | CallRevoke k cap _ => typed_key k /\ 0 <= cap
  end.

Lemma in_caps bits cap : 1 <= cap <= 12 -> bool_decide (cap ∈ caps_of bits) = Z.testbit bits cap.
Proof.
  intros Hc. apply eq_true_iff_eq. rewrite bool_decide_eq_true, elem_of_caps. tauto.
Qed.

(** Cases on whether the context of a call is live; a call that leaves the
    registry alone; the clock. *)
Ltac live_split Hok Habs Hk :=
  match type of Hk with
  | typed_key ?k =>
      let Er := fresh "Er" in let Ec := fresh "Ec" in let row := fresh "row" in let Rok := fresh "Rok" in let Rs := fresh "Rs" in
      destruct (live_cases _ _ Hok Habs k Hk) as [(Er & Ec)|(row & Er & Ec & Rok & Rs)]; rewrite ?Er, ?Ec;
      [by repeat case_match; simplify_eq; apply simulates_same|]
  end.
Ltac unchanged := by first [apply simulates_live | apply simulates_same].
Ltac observed Hk Rok Hn :=
  let H := fresh "Ho" in
  match type of Rok with
  | row_ok ?row =>
      pose proof (sim_observed _ row _ Hk Rok Hn) as H;
      destruct (ObserveLeaseTimeLocked (ar_authority row) _) as [valid a] eqn:?; cbn [fst snd] in *;
      destruct H as (Hobs & Hauth & Hdur & Hceil); rewrite ?Hobs; cbn [fst snd]
  end.

(** A snapshot of a key that is not live changes nothing and shows no live
    context. *)
Lemma snapshot_dead reg k now :
  reg_ok reg -> ResolveLive reg k = None ->
  (let '(b, s, reg) := AuthorizationSnapshot reg k now true in (AnsCtx (snapshot_ctx s), reg)) = (AnsCtx None, reg).
Proof.
  intros [Hl Hf] Er. unfold AuthorizationSnapshot. cbn [negb].
  unfold ResolveLive in Er. destruct (ResolveExactLocked reg k) as [row|] eqn:E; [|done].
  unfold ResolveExactLocked in E. destruct (negb (AuthorizationContextKeyIsValid k)); [done|].
  destruct (reg !! Z.to_nat (ak_slot k)) as [r|] eqn:El; [|done]. destruct (_ =? _); [|done]. injection E as ->.
  pose proof (Forall_lookup_1 _ _ _ _ Hf El) as [_ _ Rl _].
  destruct (bool_decide (ar_state row = CtxLive)) eqn:Es; cbn [negb orb] in Er.
  { apply bool_decide_eq_true in Es. destruct (Rl Es) as [Rl' _]. by rewrite (proj2 (Z.eqb_neq _ _) Rl') in Er. }
  unfold snapshot_ctx. cbn [as_state CopySnapshotLocked]. rewrite Es. unfold update_row. by rewrite list_insert_id.
Qed.

Lemma query_sim reg c fresh call :
  reg_ok reg -> abstracts reg c -> call_ok call ->
  match call with
  | CallRetain _ | CallRelease _ | CallSnapshot _ _ | CallPeek _ _ | CallHas _ _ _ | CallTick _ _ | CallDenial _ | CallFsWrite _ _ _ =>
      simulates (do_call reg call) (contract_call c fresh call)
  | _ => True
  end.
Proof.
  intros Hok Habs Hcall. destruct call; simpl in Hcall; try done; cbn [do_call contract_call call_key ctx_call refused].
  - unfold AuthorizationRetain. live_split Hok Habs Hcall. pose proof Rok as [_ R2 R3 _]. cbn [cx_owners row_ctx ctx_of].
    destruct (Z.eqb_spec (ar_owner_references row) u32_max); [unchanged|]. apply sim_owners; try done. destruct (R3 Rs). lia.
  - unfold AuthorizationRelease. destruct (AuthorizationContextKeyIsValid k) eqn:Ev; cbn [negb].
    + live_split Hok Habs Hcall. pose proof Rok as [_ R2 R3 _]. cbn [cx_owners row_ctx ctx_of]. destruct (R3 Rs).
      destruct (Z.eqb_spec (ar_owner_references row) 1) as [E1|E1].
      * rewrite E1. change (1 - 1 =? 0) with true. cbv iota. by apply sim_retire.
      * rewrite (proj2 (Z.eqb_neq (ar_owner_references row - 1) 0)) by lia. apply sim_owners; (done || lia).
    + destruct Habs as [Ha Hu]. rewrite (Ha k Hcall). unfold ResolveLive, ResolveExactLocked. rewrite Ev. unchanged.
  - destruct Hcall as [Hk Hn]. 
    destruct (live_cases _ _ Hok Habs k Hk) as [(Er & Ec)|(row & Er & Ec & Rok & Rs)]; rewrite Ec.
    + rewrite (snapshot_dead reg k now Hok Er). unchanged.
    + assert (ResolveExactLocked reg k = Some row) as E.
      { unfold ResolveLive in Er. destruct (ResolveExactLocked reg k); [|done]. destruct (_ || _); [done|]. by simplify_eq. }
      unfold AuthorizationSnapshot. rewrite E, bool_decide_eq_true_2 by done. observed Hk Rok Hn. cbn. unfold snapshot_ctx. cbn. rewrite Rs, bool_decide_eq_true_2 by done.
      by apply sim_authority.
  - unfold AuthorizationTrySnapshotNoExpire. cbn [negb]. destruct lock_free; cbn [negb]; live_split Hok Habs Hcall; [|unchanged].
    unfold snapshot_ctx. cbn. rewrite Rs, bool_decide_eq_true_2 by done. unchanged.
  - destruct Hcall as (Hk & Hc & Hn). unfold AuthorizationHas. destruct (CapabilityIsDefined cap) eqn:Ed; cbn [negb]; live_split Hok Habs Hk; [|unchanged].
    apply defined_spec in Ed; [|done]. observed Hk Rok Hn.
    rewrite cap_land_bit, negb_involutive, <- (in_caps (EffectiveBitsLocked a)) by lia.
    rewrite (effective_caps (ar_provenance row) (ar_owner_references row) a (ar_ticks row) (ar_denials row) (ar_fs_writes row)) by done.
    by apply sim_authority.
  - destruct Hcall as [Hk _]. unfold AuthorizationChargeTick. live_split Hok Habs Hk. cbn [cx_ticks row_ctx ctx_of].
    destruct (charge_ticks _ _). by apply sim_meters.
  - unfold AuthorizationRecordDenial. live_split Hok Habs Hcall. cbn [cx_denials row_ctx ctx_of].
    destruct (count_denial _). by apply sim_meters.
  - unfold AuthorizationRecordFsWrite. live_split Hok Habs Hcall. cbn [cx_fs_writes row_ctx ctx_of].
    destruct (count_write _ _ _). by apply sim_meters.
Qed.

Lemma mark_row row cap : 1 <= cap <= 12 ->
  default 0 (cx_marks (row_ctx row) !! cap) = nth (Z.to_nat cap) (lease_generation (ar_authority row)) 0.
Proof. apply mark_of. Qed.

Lemma authority_sim reg c fresh call :
  reg_ok reg -> abstracts reg c -> call_ok call ->
  match call with
  | CallGrant _ _ | CallDisable _ _ _ | CallDrop _ _ | CallDropPrevious _ _ _ | CallLease _ _ _ _ _ | CallRevoke _ _ _ =>
      simulates (do_call reg call) (contract_call c fresh call)
  | _ => True
  end.
Proof.
  intros Hok Habs Hcall. destruct call; simpl in Hcall; try done; cbn [do_call contract_call call_key ctx_call refused].
  - destruct Hcall as (Hk & Hc). unfold AuthorizationGrantDurable. destruct (CapabilityIsDefined cap) eqn:Ed; cbn [negb andb]; live_split Hok Habs Hk; [|unchanged].
    apply defined_spec in Ed; [|done]. rewrite cap_land_bit by lia. cbn [cx_ceiling row_ctx ctx_of].
    rewrite in_caps by done. destruct (Z.testbit (ceiling_bits (ar_authority row)) cap) eqn:Eb; cbn [negb]; [|unchanged].
    pose proof Rok as [_ _ _ Ra].
    destruct (grant_sim (ar_provenance row) (ar_owner_references row) (ar_authority row) (ar_ticks row) (ar_denials row) (ar_fs_writes row) cap Ra Ed Eb).
    by apply sim_authority.
  - destruct Hcall as (Hk & Hn). unfold AuthorizationDisableMask. destruct (CapabilityMaskIsCanonical bits); cbn [negb]; live_split Hok Habs Hk; [|unchanged].
    observed Hk Rok Hn.
    rewrite (effective_caps (ar_provenance row) (ar_owner_references row) a (ar_ticks row) (ar_denials row) (ar_fs_writes row)) by done.
    destruct (disable_sim (ar_provenance row) (ar_owner_references row) a (ar_ticks row) (ar_denials row) (ar_fs_writes row) bits Hauth).
    by apply sim_authority.
  - unfold AuthorizationDropIrreversibly. destruct (CapabilityMaskIsCanonical bits); cbn [negb]; live_split Hok Habs Hcall; [|unchanged].
    pose proof Rok as [_ _ _ Ra].
    destruct (drop_sim (ar_provenance row) (ar_owner_references row) (ar_authority row) (ar_ticks row) (ar_denials row) (ar_fs_writes row) bits Ra).
    by apply sim_authority.
  - destruct Hcall as (Hk & Hn). unfold AuthorizationDropIrreversiblyWithPrevious. destruct (CapabilityMaskIsCanonical bits); cbn [negb]; live_split Hok Habs Hk; [|unchanged].
    observed Hk Rok Hn.
    rewrite (effective_caps (ar_provenance row) (ar_owner_references row) a (ar_ticks row) (ar_denials row) (ar_fs_writes row)) by done.
    destruct (drop_sim (ar_provenance row) (ar_owner_references row) a (ar_ticks row) (ar_denials row) (ar_fs_writes row) bits Hauth).
    by apply sim_authority.
  - destruct Hcall as (Hk & Hc & Hn). unfold AuthorizationGrantLease.
    destruct (negb (CapabilityIsDefined cap) || (deadline =? 0) || (generation =? 0) || (kAuthorizationLeaseGenerationMaximum <? generation)) eqn:Eg;
      live_split Hok Habs Hk; [unchanged|].
    assert (1 <= cap <= 12 /\ generation <> 0) as [Hcap Hgen] by (rewrite <- (defined_spec cap) by done; split; [destruct (CapabilityIsDefined cap); [done|done] | lia]).
    observed Hk Rok Hn.
    destruct (negb valid || (deadline <=? now)) eqn:Ev; cbn [orb]; [by apply sim_authority|].
    rewrite cap_land_bit by lia. change (cx_ceiling (row_ctx (set_authority row a))) with (caps_of (ceiling_bits a)). rewrite in_caps by done.
    rewrite mark_row by done. cbn [ar_authority set_authority].
    destruct (negb (Z.testbit (ceiling_bits a) cap) || (generation <=? nth (Z.to_nat cap) (lease_generation a) 0)) eqn:Er2; [by apply sim_authority|].
    apply orb_false_iff in Er2 as [Eb _]. apply negb_false_iff in Eb.
    destruct (lease_sim (ar_provenance row) (ar_owner_references row) a (ar_ticks row) (ar_denials row) (ar_fs_writes row) cap deadline generation Hauth Hcap Eb Hgen).
    by apply sim_authority.
  - destruct Hcall as (Hk & Hc). unfold AuthorizationRevokeLease.
    destruct (negb (CapabilityIsDefined cap) || (generation =? 0) || (kAuthorizationLeaseGenerationMaximum <? generation)) eqn:Eg; live_split Hok Habs Hk; [unchanged|].
    assert (1 <= cap <= 12) as Hcap by (rewrite <- (defined_spec cap) by done; by destruct (CapabilityIsDefined cap)).
    pose proof Rok as [_ _ _ Ra]. rewrite cap_land_bit by lia. rewrite mark_row by done.
    assert (bool_decide (is_Some (cx_leases (row_ctx row) !! cap)) = Z.testbit (lease_bits (ar_authority row)) cap) as ->.
    { cbn. rewrite lookup_build, decide_True by done. destruct (Z.testbit _ cap); [by rewrite bool_decide_eq_true_2 by eauto|].
      rewrite bool_decide_eq_false_2; [done|]. by intros [? [=]]. }
    destruct (Z.testbit (lease_bits (ar_authority row)) cap); cbn [negb orb andb]; [|unchanged].
    destruct (nth (Z.to_nat cap) (lease_generation (ar_authority row)) 0 =? generation); cbn [negb]; [|unchanged].
    destruct (revoke_sim (ar_provenance row) (ar_owner_references row) (ar_authority row) (ar_ticks row) (ar_denials row) (ar_fs_writes row) cap Ra Hcap).
    by apply sim_authority.
Qed.

Lemma caps_subset x y : CapabilityMaskIsCanonical x = true -> bool_decide (caps_of x ⊆ caps_of y) = (Z.ldiff x y =? 0).
Proof.
  intros Hx. apply eq_true_iff_eq. rewrite bool_decide_eq_true, ldiff_zero. split.
  - intros H i Hi. pose proof (canonical_bit x i Hx Hi). by apply (elem_of_caps y i), H, elem_of_caps.
  - intros H i. rewrite !elem_of_caps. intros [Hi Hr]. split; [by apply H|done].
Qed.

Lemma request_ok_spec durable ceiling budget :
  request_ok durable ceiling budget =
  negb ((budget =? 0) || negb (CapabilityMaskIsCanonical durable) || negb (CapabilityMaskIsCanonical ceiling)
        || negb (Z.ldiff durable ceiling =? 0)).
Proof.
  unfold request_ok. destruct (CapabilityMaskIsCanonical durable) eqn:E; [|by rewrite andb_false_r, !orb_true_r].
  rewrite caps_subset by done. by destruct (budget =? 0), (CapabilityMaskIsCanonical ceiling), (Z.ldiff durable ceiling =? 0).
Qed.

(** The set of choices is the same after the parent's clock is observed. *)
Lemma choice_ok_set_live c k x fresh : is_Some (co_live c !! k) -> choice_ok (set_live c k x) fresh -> choice_ok c fresh.
Proof.
  intros Hk. unfold choice_ok, set_live. destruct fresh; [done|]. intros H slot Hs. destruct (H slot Hs) as [(k' & E & Hl)|]; [left|by right].
  exists k'. split; [done|]. cbn in Hl. destruct (decide (k' = k)) as [->|]; [done|]. by rewrite lookup_insert_ne in Hl.
Qed.

Lemma choice_exists reg c : reg_ok reg -> abstracts reg c -> exists fresh, choice_ok c fresh.
Proof.
  intros Ho Ha. pose proof (allocate_sim reg c ProfileTrusted 0 0 1 0 Ho Ha eq_refl (fun i H => H) ltac:(lia)) as H.
  destruct (AllocateLocked _ _ _ _ _ _) as [k reg']. destruct H as (fresh & H & _). by exists fresh.
Qed.

Lemma admit_sim reg c p durable ceiling budget now :
  reg_ok reg -> abstracts reg c -> CapabilityMaskIsCanonical ceiling = true -> bits_within durable ceiling -> 0 <= now ->
  let '(k, reg') := AllocateLocked reg p durable ceiling budget now in
  exists fresh, choice_ok c fresh
    /\ simulates (AnsKey (if AuthorizationContextKeyIsValid k then Some k else None), reg')
         (admit_ctx c fresh (new_ctx p (caps_of durable) (caps_of ceiling) budget now)).
Proof.
  intros Ho Ha Hc Hd Hn. pose proof (allocate_sim reg c p durable ceiling budget now Ho Ha Hc Hd Hn) as H.
  destruct (AllocateLocked _ _ _ _ _ _) as [k reg']. cbv zeta in H. destruct H as (fresh & H1 & H2 & H3 & H4). exists fresh.
  split; [done|]. split; [|done]. rewrite H2. by destruct (AuthorizationContextKeyIsValid k).
Qed.

Lemma create_sim reg c sandbox durable ceiling budget :
  reg_ok reg -> abstracts reg c ->
  let call := CallCreate sandbox durable ceiling budget in
  exists fresh, choice_ok c fresh /\ simulates (do_call reg call) (contract_call c fresh call).
Proof.
  intros Ho Ha. cbv zeta. cbn [do_call contract_call]. rewrite request_ok_spec.
  set (p := if sandbox then ProfileSandbox else ProfileTrusted).
  replace (if sandbox then AuthorizationCreateSandbox reg durable ceiling budget true else AuthorizationCreateTrusted reg durable ceiling budget true)
    with (CreateContext reg p durable ceiling budget true) by (by destruct sandbox).
  unfold CreateContext. cbn [negb]. replace (ProfileIsValid p) with true by (by destruct sandbox). cbn [negb orb].
  destruct (_ || _ || _ || _) eqn:Eg; cbn [negb].
  - destruct (choice_exists reg c Ho Ha) as [fresh Hf]. exists fresh. split; [done|]. by apply simulates_same.
  - assert (CapabilityMaskIsCanonical ceiling = true /\ bits_within durable ceiling) as [Hc Hd].
    { rewrite !orb_false_iff, !negb_false_iff in Eg. split; [apply Eg | apply ldiff_zero, Eg]. }
    pose proof (admit_sim reg c p durable ceiling budget 0 Ho Ha Hc Hd ltac:(lia)) as H.
    by destruct (AllocateLocked _ _ _ _ _ _) as [k reg'].
Qed.

Lemma derive_sim reg c parent now required durable ceiling budget profile :
  reg_ok reg -> abstracts reg c -> typed_key parent -> 0 <= now ->
  let call := CallDerive parent now required durable ceiling budget profile in
  exists fresh, choice_ok c fresh /\ simulates (do_call reg call) (contract_call c fresh call).
Proof.
  intros Hok Habs Hk Hn. cbv zeta. cbn [do_call contract_call]. rewrite request_ok_spec.
  destruct (choice_exists reg c Hok Habs) as [any Hany]. unfold AuthorizationDeriveForSpawn. cbn [negb].
  assert (forall b1 b2 b3 b4 b5 b6 : bool, b1 || b2 || b3 || b4 || b5 || b6 = negb (negb b1 && negb b3 && negb (b2 || b4 || b5 || b6))) as Hb
    by (by intros [] [] [] [] [] []).
  rewrite Hb, !negb_involutive. clear Hb. destruct (_ && _ && negb _) eqn:Eg; cbn [negb]; [|exists any; split; [done|by case_match; apply simulates_same]].
  rewrite !andb_true_iff, negb_true_iff, !orb_false_iff, !negb_false_iff in Eg. destruct Eg as [[_ Ereq] [[[_ Edc] Ecc] Edd]].
  destruct (live_cases _ _ Hok Habs parent Hk) as [(Er & Ec)|(row & Er & Ec & Rok & Rs)]; rewrite Er, Ec;
    [exists any; split; [done|by apply simulates_same]|].
  observed Hk Rok Hn.
  assert (simulates (AnsKey None, update_row reg parent (set_authority row a)) (AnsKey None, set_live c parent (row_ctx (set_authority row a))))
    as Hsim by (by apply sim_authority).
  unfold may_derive. change (cx_durable (row_ctx (set_authority row a))) with (caps_of (durable_bits a)).
  change (cx_ceiling (row_ctx (set_authority row a))) with (caps_of (ceiling_bits a)).
  change (cx_profile (row_ctx (set_authority row a))) with (ar_provenance row).
  replace (effective (row_ctx (set_authority row a))) with (caps_of (EffectiveBitsLocked a)) by (by apply effective_caps).
  rewrite !caps_subset by done. cbn [ar_authority set_authority].
  assert (forall b1 b2 b3 b4 b5 : bool, negb b1 || negb b2 || negb b3 || b4 && negb b5 = negb (b1 && b2 && b3 && (negb b4 || b5))) as Hb
    by (by intros [] [] [] [] []).
  rewrite Hb, <- bool_decide_not. clear Hb. destruct (_ && _ && _ && _) eqn:Eg2; cbn [negb]; [|exists any; by split].
  destruct Hsim as (_ & Ho' & Ha').
  pose proof (admit_sim _ _ profile durable ceiling budget (if valid then now else 0) Ho' Ha' Ecc (proj1 (ldiff_zero _ _) Edd) ltac:(destruct valid; lia)) as H.
  destruct (AllocateLocked _ _ _ _ _ _) as [k reg']. destruct H as (fresh & H1 & H2). exists fresh. split; [|done].
  by apply (choice_ok_set_live c parent (row_ctx (set_authority row a))).
Qed.

Lemma step_sim reg c call :
  reg_ok reg -> abstracts reg c -> call_ok call ->
  exists fresh, choice_ok c fresh /\ simulates (do_call reg call) (contract_call c fresh call).
Proof.
  intros Ho Ha Hc. destruct (choice_exists reg c Ho Ha) as [any Hany].
  pose proof (query_sim reg c any call Ho Ha Hc) as Hq. pose proof (authority_sim reg c any call Ho Ha Hc) as Hs.
  destruct call; try (by exists any); [by apply create_sim|]. destruct Hc as (? & ? & _). by apply derive_sim.
Qed.

(** ** Runs *)

Fixpoint run (reg : Registry) (calls : list Call) : list Answer * Registry :=
  match calls with
  | [] => ([], reg)
  | call :: calls => let '(a, reg) := do_call reg call in let '(l, reg) := run reg calls in (a :: l, reg)
  end.

(** What happened, call by call, on the contract. *)
Inductive history (c0 : Contract) : list (Call * Answer) -> Contract -> Prop :=
| history_start : history c0 [] c0
| history_call tr c fresh call a c' :
    history c0 tr c -> choice_ok c fresh -> contract_call c fresh call = (a, c') -> history c0 (tr ++ [(call, a)]) c'.

Lemma registry_boot_ok : reg_ok g_authorizations /\ abstracts g_authorizations empty_contract.
Proof.
  assert (reg_ok g_authorizations) as Ho.
  { split; [done|]. apply Forall_replicate. split; simpl; try done.
    split; simpl; try done; intros i Hi; simpl in Hi; by rewrite Z.bits_0 in Hi. }
  assert (forall n row, g_authorizations !! n = Some row -> row = zero_row) as Hz.
  { intros n row H. by apply lookup_replicate in H as [-> _]. }
  split; [done|]. split; intros k Hk; unfold empty_contract; cbn [co_live co_used].
  - rewrite lookup_empty. destruct (ResolveLive g_authorizations k) as [row|] eqn:E; [|done].
    apply (resolve_live_spec _ _ _ Ho Hk) in E as (E & _ & _ & Hs). by rewrite (Hz _ _ E) in Hs.
  - split; [set_solver|]. intros (row & E & H). rewrite (Hz _ _ E) in H. simpl in H. lia.
Qed.

Lemma history_cons c0 fresh call a c1 tr c :
  choice_ok c0 fresh -> contract_call c0 fresh call = (a, c1) -> history c1 tr c -> history c0 ((call, a) :: tr) c.
Proof.
  intros Hf Hc. induction 1 as [|tr c fresh' call' a' c' Hh IH Hf' Hc'].
  - by apply (history_call c0 [] c0 fresh); [constructor|..].
  - rewrite app_comm_cons. by eapply history_call.
Qed.

(** Every run of the registry is a history of the contract. *)
Lemma registry_run_history reg c calls :
  reg_ok reg -> abstracts reg c -> Forall call_ok calls ->
  exists c', history c (zip calls (run reg calls).1) c' /\ reg_ok (run reg calls).2 /\ abstracts (run reg calls).2 c'.
Proof.
  revert reg c. induction calls as [|call calls IH]; intros reg c Ho Ha Hc; cbn [run].
  { exists c. split; [constructor|done]. }
  apply Forall_cons in Hc as [Hc Hcs]. destruct (step_sim reg c call Ho Ha Hc) as (fresh & Hf & H1 & H2 & H3).
  destruct (do_call reg call) as [a reg']. destruct (contract_call c fresh call) as [a' c1] eqn:E. cbn in H1, H2, H3. subst a'.
  destruct (IH reg' c1 H2 H3 Hcs) as (c' & Hh & Ho' & Ha'). destruct (run reg' calls) as [l reg'']. cbn [fst snd] in *.
  exists c'. split; [|done]. cbn. by eapply history_cons.
Qed.
