(* ===== verification/AuthorizationProps.v ===== *)
(** * Theorems about authorization contexts

    What holds along every sequence of calls on the registry: it refines its
    contract, capabilities once out of reach stay out of reach of a context
    and of everything derived from it, leases are never replayed and never
    outlive their deadline, and each enforcement threshold fires once. *)

From S2P Require Import Prelude KObject HandleTable Authorization AuthorizationSpec.

(** ** What one call does to one context *)

(** The clock a call shows to its context. *)
Definition shown_time (call : Call) : option Z :=
  match call with
  | CallDerive _ now required durable ceiling budget profile =>
      if ProfileIsValid profile && CapabilityMaskIsCanonical required && request_ok durable ceiling budget then Some now else None
  | CallSnapshot _ now => Some now
  | CallHas _ cap now => if CapabilityIsDefined cap then Some now else None
  | CallDisable _ now bits | CallDropPrevious _ now bits => if CapabilityMaskIsCanonical bits then Some now else None
  | CallLease _ cap now deadline generation =>
      if negb (CapabilityIsDefined cap) || (deadline =? 0) || (generation =? 0) || (kAuthorizationLeaseGenerationMaximum <? generation)
      then None else Some now
  | _ => None
  end.

Definition created (c : Contract) (call : Call) (x' : Ctx) : Prop :=
  match call with
  | CallCreate sandbox durable ceiling budget =>
      request_ok durable ceiling budget = true
      /\ x' = new_ctx (if sandbox then ProfileSandbox else ProfileTrusted) (caps_of durable) (caps_of ceiling) budget 0
  | CallDerive parent now required durable ceiling budget profile =>
      exists x, co_live c !! parent = Some x /\ may_derive (observe x now).2 required durable ceiling profile = true
        /\ request_ok durable ceiling budget = true
        /\ x' = new_ctx profile (caps_of durable) (caps_of ceiling) budget (if (observe x now).1 then now else 0)
  | _ => False
  end.

Definition derives (call : Call) : bool := match call with CallDerive _ _ _ _ _ _ _ => true | _ => false end.

Inductive effect (c : Contract) (call : Call) (a : Answer) (k : AuthorizationContextKey) (x' : Ctx) : Prop :=
| effect_new : k ∉ co_used c -> a = AnsKey (Some k) -> created c call x' -> effect c call a k x'
| effect_other : co_live c !! k = Some x' -> call_key call <> Some k -> effect c call a k x'
| effect_call x :
    co_live c !! k = Some x -> call_key call = Some k -> derives call = false -> ctx_call call x = (a, Some x') -> effect c call a k x'
| effect_derive x now required durable ceiling budget profile :
    co_live c !! k = Some x -> call = CallDerive k now required durable ceiling budget profile ->
    (shown_time call = None /\ x' = x \/ shown_time call = Some now /\ x' = (observe x now).2) -> effect c call a k x'.

Definition live_used (c : Contract) : Prop := forall k, is_Some (co_live c !! k) -> k ∈ co_used c.

Lemma admit_effect c fresh x a c' k x' :
  choice_ok c fresh -> admit_ctx c fresh x = (a, c') -> co_live c' !! k = Some x' ->
  (k ∉ co_used c /\ a = AnsKey (Some k) /\ x' = x) \/ co_live c !! k = Some x'.
Proof.
  intros Hf H Hl. unfold admit_ctx in H. destruct fresh as [k0|]; simplify_eq; [|by right]. cbn in Hl.
  destruct (decide (k = k0)) as [->|Hne]; [|rewrite lookup_insert_ne in Hl by done; by right].
  rewrite lookup_insert_eq in Hl. simplify_eq. left. by destruct Hf as (_ & _ & ?).
Qed.

(** Every live context after a call is new, untouched, or the one called. *)
Lemma call_effect c fresh call a c' k x' :
  choice_ok c fresh -> contract_call c fresh call = (a, c') -> co_live c' !! k = Some x' -> effect c call a k x'.
Proof.
  intros Hf H Hl.
  assert (forall k0, call_key call = Some k0 -> derives call = false ->
    (match co_live c !! k0 with
     | Some x => let '(a, after) := ctx_call call x in
                 (a, match after with Some x => set_live c k0 x | None => MkContract (delete k0 (co_live c)) (co_used c) end)
     | None => (refused call, c) end) = (a, c') -> effect c call a k x') as Hgen.
  { intros k0 Hk0 Hd H0. destruct (co_live c !! k0) as [x|] eqn:E0; [destruct (ctx_call call x) as [a0 after] eqn:Ec|].
    - injection H0 as -> <-. destruct (decide (k = k0)) as [->|Hne].
      + destruct after as [y|]; cbn in Hl; [rewrite lookup_insert_eq in Hl; simplify_eq; by eapply effect_call | by rewrite lookup_delete_eq in Hl].
      + apply effect_other; [|congruence]. destruct after; cbn in Hl; [by rewrite lookup_insert_ne in Hl | by rewrite lookup_delete_ne in Hl].
    - injection H0 as <- <-. apply effect_other; [done|]. intros E. rewrite Hk0 in E. simplify_eq. }
  destruct call; cbn [contract_call call_key] in H; try (by eapply Hgen).
  - destruct (request_ok durable ceiling budget) eqn:Eg.
    + destruct (admit_effect _ _ _ _ _ _ _ Hf H Hl) as [(H1 & H2 & ->)|H1]; [by apply effect_new | by apply effect_other].
    + injection H as <- <-. by apply effect_other.
  - destruct (co_live c !! parent) as [x|] eqn:Ep.
    + destruct (ProfileIsValid profile && CapabilityMaskIsCanonical required && request_ok durable ceiling budget) eqn:Eg.
      2: { injection H as <- <-. destruct (decide (k = parent)) as [->|Hne]; [|apply effect_other; [done|cbn; congruence]].
           eapply effect_derive; [done..|]. left. cbn. rewrite Eg. split; [done|congruence]. }
      destruct (observe x now) as [valid x1] eqn:Eo.
      assert (co_live (set_live c parent x1) !! k = Some x' -> effect c (CallDerive parent now required durable ceiling budget profile) a k x') as Hobs.
      { cbn. intros Hx. destruct (decide (k = parent)) as [->|Hne].
        - rewrite lookup_insert_eq in Hx. injection Hx as <-. eapply effect_derive; [done..|]. right. cbn. by rewrite Eg, Eo.
        - rewrite lookup_insert_ne in Hx by done. apply effect_other; [done|cbn; congruence]. }
      destruct (may_derive x1 required durable ceiling profile) eqn:Em; [|injection H as <- <-; by apply Hobs].
      assert (choice_ok (set_live c parent x1) fresh) as Hf'.
      { unfold choice_ok, set_live in *. destruct fresh; [done|]. intros slot Hs. destruct (Hf slot Hs) as [(k1 & E1 & Hs1)|]; [left|by right].
        exists k1. split; [done|]. cbn. destruct (decide (k1 = parent)) as [->|]; [by rewrite lookup_insert_eq; eauto | by rewrite lookup_insert_ne]. }
      destruct (admit_effect _ _ _ _ _ _ _ Hf' H Hl) as [(H1 & H2 & ->)|H1]; [|by apply Hobs].
      apply effect_new; [done..|]. cbn. exists x. rewrite Eo. apply andb_true_iff in Eg as [_ Eg]. by split_and!.
    + injection H as <- <-. apply effect_other; [done|]. cbn. intros [= ->]. congruence.
Qed.

(** Used keys stay used, and live contexts have used keys. *)
Lemma admit_used c fresh x a c' :
  live_used c -> admit_ctx c fresh x = (a, c') -> live_used c' /\ co_used c ⊆ co_used c'.
Proof.
  intros Hu H. unfold admit_ctx in H. destruct fresh as [k|]; simplify_eq; [|done]. split; [|cbn; set_solver].
  intros k' Hk'. cbn in *. destruct (decide (k' = k)) as [->|Hne]; [set_solver|]. rewrite lookup_insert_ne in Hk' by done.
  apply elem_of_union. right. by apply Hu.
Qed.

Lemma set_live_used c k x : live_used c -> is_Some (co_live c !! k) -> live_used (set_live c k x).
Proof. intros Hu Hk k' Hk'. cbn in *. destruct (decide (k' = k)) as [->|]; [by apply Hu|]. rewrite lookup_insert_ne in Hk' by done. by apply Hu. Qed.

Lemma call_used c fresh call a c' :
  live_used c -> contract_call c fresh call = (a, c') -> live_used c' /\ co_used c ⊆ co_used c'.
Proof.
  intros Hu H.
  assert (forall k0, (match co_live c !! k0 with
     | Some x => let '(a, after) := ctx_call call x in
                 (a, match after with Some x => set_live c k0 x | None => MkContract (delete k0 (co_live c)) (co_used c) end)
     | None => (refused call, c) end) = (a, c') -> live_used c' /\ co_used c ⊆ co_used c') as Hgen.
  { intros k0 H0. destruct (co_live c !! k0) as [x|] eqn:E0; [destruct (ctx_call call x) as [a0 [y|]]|]; injection H0 as <- <-; split; try done.
    - apply set_live_used; [done|by eexists].
    - intros k' [z Hz]. cbn in Hz. apply lookup_delete_Some in Hz as [_ Hz]. apply Hu. by eexists. }
  destruct call; cbn [contract_call call_key] in H; try (by eapply Hgen).
  - destruct (request_ok durable ceiling budget); [by eapply admit_used | by injection H as <- <-].
  - destruct (co_live c !! parent) as [x|] eqn:Ep; [|by injection H as <- <-]. destruct (_ && _ && _); [|by injection H as <- <-].
    destruct (observe x now) as [valid x1]. assert (live_used (set_live c parent x1)) as Hu' by (apply set_live_used; [done|by eexists]).
    destruct (may_derive _ _ _ _ _); [by apply (admit_used _ _ _ _ _ Hu') in H | by injection H as <- <-].
Qed.

(** ** Evolution of a context *)

Lemma observe_keeps x now :
  let y := (observe x now).2 in
  cx_profile y = cx_profile x /\ cx_owners y = cx_owners x /\ cx_durable y = cx_durable x /\ cx_ceiling y = cx_ceiling x
  /\ cx_marks y = cx_marks x /\ cx_ticks y = cx_ticks x /\ cx_denials y = cx_denials x /\ cx_fs_writes y = cx_fs_writes x
  /\ (forall cap d, cx_leases y !! cap = Some d -> cx_leases x !! cap = Some d /\ now <> 0 /\ cx_clock x <= now < d).
Proof.
  unfold observe. destruct ((now =? 0) || (now <? cx_clock x)) eqn:E; unfold with_leases;
    cbn [snd cx_profile cx_owners cx_durable cx_ceiling cx_marks cx_ticks cx_denials cx_fs_writes cx_leases];
    split_and!; try done; intros cap d H.
  apply map_lookup_filter_Some in H as [H1 H2]. simpl in H2. split; [done|]. lia.
Qed.

(** What no call raises: the profile stays and the ceiling only shrinks. *)
Lemma ctx_call_ceiling call x a x' :
  ctx_call call x = (a, Some x') -> cx_profile x' = cx_profile x /\ cx_ceiling x' ⊆ cx_ceiling x.
Proof.
  intros H. destruct call; cbn [ctx_call] in H;
    try (match type of H with context [observe x ?n] =>
           pose proof (observe_keeps x n) as K; destruct (observe x n) as [v y]; cbn [fst snd] in K; destruct K as (K1 & _ & K3 & K4 & _) end);
    repeat case_match; simplify_eq/=; rewrite ?K1, ?K4; split; (done || set_solver).
Qed.

(** ** Confinement *)

(** The contexts derived from [known], in the order of the calls. *)
Definition heir_step (known : gset AuthorizationContextKey) (p : Call * Answer) : gset AuthorizationContextKey :=
  match p with
  | (CallDerive parent _ _ _ _ _ _, AnsKey (Some k)) => if decide (parent ∈ known) then {[k]} ∪ known else known
  | _ => known
  end.
Definition heirs (known : gset AuthorizationContextKey) (tr : list (Call * Answer)) : gset AuthorizationContextKey :=
  foldl heir_step known tr.

Definition confined (cap : Z) (sandbox : bool) (known : gset AuthorizationContextKey) (c : Contract) : Prop :=
  forall k, k ∈ known -> k ∈ co_used c
    /\ forall x, co_live c !! k = Some x -> cap ∉ cx_ceiling x /\ (sandbox = true -> cx_profile x = ProfileSandbox).

Lemma confined_call cap sandbox known c fresh call a c' :
  live_used c -> choice_ok c fresh -> contract_call c fresh call = (a, c') ->
  confined cap sandbox known c -> confined cap sandbox (heir_step known (call, a)) c'.
Proof.
  intros Hu Hf Hc Hconf. destruct (call_used _ _ _ _ _ Hu Hc) as [Hu' Hmono].
  assert (forall k, k ∈ known -> forall x, co_live c' !! k = Some x -> cap ∉ cx_ceiling x /\ (sandbox = true -> cx_profile x = ProfileSandbox)) as Hold.
  { intros k Hk x' Hx'. destruct (Hconf k Hk) as [Huk Hx].
    destruct (call_effect _ _ _ _ _ _ _ Hf Hc Hx') as [Hn _ _|Hl _|x Hl _ _ He|x now r d e b p Hl _ He]; [done|by apply Hx| |].
    - destruct (Hx x Hl) as [H1 H2]. destruct (ctx_call_ceiling _ _ _ _ He) as [E1 E2]. split; [set_solver|]. by rewrite E1.
    - destruct (Hx x Hl) as [H1 H2]. destruct He as [[_ ->]|[_ ->]]; [done|].
      destruct (observe_keeps x now) as (E1 & _ & _ & E4 & _). by rewrite E1, E4. }
  assert (confined cap sandbox known c') as Hsame by (intros k Hk; split; [by apply Hmono, Hconf | by apply Hold]).
  unfold heir_step. destruct call; try done. destruct a as [|[k0|]| | |]; try done. case_decide as Hp; [|done].
  intros k Hk. destruct (decide (k ∈ known)) as [|Hnew]; [by apply Hsame|]. assert (k = k0) as -> by set_solver.
  cbn [contract_call] in Hc. destruct (co_live c !! parent) as [x|] eqn:Ep; [|done]. destruct (_ && _ && _); [|done].
  destruct (observe x now) as [valid x1] eqn:Eo. destruct (may_derive x1 required durable ceiling profile) eqn:Em; [|done].
  unfold admit_ctx in Hc. destruct fresh as [k1|]; simplify_eq. split; [cbn; set_solver|]. intros y Hy. cbn in Hy.
  rewrite lookup_insert_eq in Hy. simplify_eq. cbn. destruct (Hconf parent Hp) as [_ Hx]. destruct (Hx x Ep) as [H1 H2].
  pose proof (observe_keeps x now) as (E1 & _ & _ & E4 & _). rewrite Eo in E1, E4. cbn in E1, E4.
  unfold may_derive in Em. rewrite !andb_true_iff, orb_true_iff, !bool_decide_eq_true in Em. destruct Em as [[[_ _] Hceil] Hprof].
  split; [rewrite E4 in Hceil; set_solver|]. intros Hs. specialize (H2 Hs). rewrite E1 in Hprof. tauto.
Qed.

Lemma confined_history cap sandbox known c tr c' :
  live_used c -> confined cap sandbox known c -> history c tr c' -> live_used c' /\ confined cap sandbox (heirs known tr) c'.
Proof.
  intros Hu Hc. induction 1 as [|tr c1 fresh call a c2 Hh [IH1 IH2] Hf Hcall]; [done|].
  split; [by eapply call_used|]. unfold heirs in *. rewrite foldl_app. cbn. by eapply confined_call.
Qed.

Lemma history_used tr c : history empty_contract tr c -> live_used c.
Proof.
  induction 1 as [|tr c1 fresh call a c2 Hh IH Hf Hcall]; [intros k [x Hx]; unfold empty_contract in Hx; cbn [co_live] in Hx; by rewrite lookup_empty in Hx|]. by eapply call_used.
Qed.

(** ** Leases *)

(** An accepted lease grant. *)
Definition lease_granted (k : AuthorizationContextKey) (cap generation : Z) (p : Call * Answer) : Prop :=
  exists now deadline, p = (CallLease k cap now deadline generation, AnsBool true).

(** A call that ends the lease of [cap] with this generation and deadline. *)
Definition ends_lease (k : AuthorizationContextKey) (cap deadline generation : Z) (p : Call * Answer) : Prop :=
  call_key p.1 = Some k
  /\ (p = (CallRevoke k cap generation, AnsBool true)
      \/ (exists now bits before, (p = (CallDisable k now bits, AnsBits true before) \/ p = (CallDropPrevious k now bits, AnsBits true before))
                                  /\ cap ∈ caps_of bits)
      \/ (exists bits, p = (CallDrop k bits, AnsBool true) /\ cap ∈ caps_of bits)
      \/ (exists now, shown_time p.1 = Some now /\ (now = 0 \/ deadline <= now))).

(** A call on a context: what becomes of one lease, and of the marks. *)
Ltac split_call H x :=
  try (match type of H with context [observe x ?n] =>
         let K := fresh "K" in pose proof (observe_keeps x n) as K; destruct (observe x n) as [v y] eqn:Eo; cbn [fst snd] in *;
         destruct K as (_ & _ & _ & _ & K5 & _ & _ & _ & K9) end);
  repeat case_match; simplify_eq;
  cbn [cx_leases cx_marks with_owners with_meters with_leases with_sets take_away take_away_forever] in *.
(** Refutes an end or a grant that the call at hand is not. *)
Ltac no_end := intros ? ? (_ & [?|[(? & ? & ? & [?|?] & ?)|[(? & ? & ?)|(? & ? & ?)]]]); simplify_eq/=.
Ltac no_grant := intros ? (? & ? & ?); simplify_eq/=.

Lemma ctx_call_lease call x a x' k cap d :
  call_key call = Some k -> derives call = false -> ctx_call call x = (a, Some x') -> cx_leases x' !! cap = Some d ->
  (exists now g, call = CallLease k cap now d g /\ a = AnsBool true /\ now < d /\ cx_marks x' !! cap = Some g)
  \/ (cx_leases x !! cap = Some d /\ cx_marks x' !! cap = cx_marks x !! cap
      /\ (forall g, default 0 (cx_marks x !! cap) = g -> ~ ends_lease k cap d g (call, a)) /\ forall g, ~ lease_granted k cap g (call, a)).
Proof.
  intros Hk Hd H Hl. destruct call; try done; cbn [ctx_call] in H; cbn [call_key] in Hk; injection Hk as ->; split_call H x.
  all: try (apply map_lookup_filter_Some in Hl as [Hl Hout]; cbn [fst] in Hout).
  all: try (destruct (K9 _ _ Hl) as (Hx & Hn0 & Hn1)).
  all: try (right; split_and!; [done|done || by rewrite K5|no_end; repeat case_match; simplify_eq/=; (done || lia)|by no_grant]).
  - destruct (decide (cap = cap0)) as [->|Hne].
    + rewrite lookup_insert_eq in *. left. exists now, generation. split_and!; try congruence. injection Hl as ->. lia.
    + rewrite lookup_insert_ne in * by done. destruct (K9 _ _ Hl) as (Hx & Hn0 & Hn1). right.
      split_and!; [done|by rewrite K5|no_end; repeat case_match; simplify_eq/=; (done || lia)|by no_grant].
  - apply lookup_delete_Some in Hl as [Hne Hl]. right. split_and!; try done; [by no_end|by no_grant].
Qed.

Lemma ctx_call_mark call x a x' k cap :
  call_key call = Some k -> derives call = false -> ctx_call call x = (a, Some x') ->
  default 0 (cx_marks x !! cap) <= default 0 (cx_marks x' !! cap)
  /\ forall g, lease_granted k cap g (call, a) -> default 0 (cx_marks x !! cap) < g /\ g <= default 0 (cx_marks x' !! cap).
Proof.
  intros Hk Hd H. destruct call; try done; cbn [ctx_call] in H; cbn [call_key] in Hk; injection Hk as ->; split_call H x.
  all: try (split; [first [done | by rewrite K5]|by no_grant]).
  destruct (decide (cap = cap0)) as [->|Hne].
  - rewrite lookup_insert_eq. rewrite K5 in *. cbn [default from_option id]. split; [lia|]. intros g (? & ? & ?). simplify_eq. lia.
  - rewrite lookup_insert_ne, K5 by done. split; [done|]. intros g (? & ? & ?). by simplify_eq.
Qed.

(** What the history says about leases. *)
Record lease_inv (tr : list (Call * Answer)) (c : Contract) : Prop := {
  li_used : live_used c;
  li_backed : forall k x cap d, co_live c !! k = Some x -> cx_leases x !! cap = Some d ->
    exists pre now g post, tr = pre ++ (CallLease k cap now d g, AnsBool true) :: post /\ cx_marks x !! cap = Some g /\ now < d
      /\ Forall (fun p => ~ ends_lease k cap d g p /\ forall g', ~ lease_granted k cap g' p) post;
  li_marks : forall p k cap g, p ∈ tr -> lease_granted k cap g p ->
    k ∈ co_used c /\ forall x, co_live c !! k = Some x -> g <= default 0 (cx_marks x !! cap);
  li_order : forall pre p post k cap g g' p', tr = pre ++ p :: post -> p' ∈ pre ->
    lease_granted k cap g' p' -> lease_granted k cap g p -> g' < g;
}.

(** A call that grants a lease names a live context. *)
Lemma granted_live c fresh call a c' k cap g :
  contract_call c fresh call = (a, c') -> lease_granted k cap g (call, a) ->
  exists x x', co_live c !! k = Some x /\ ctx_call call x = (a, Some x') /\ co_live c' !! k = Some x' /\ call_key call = Some k /\ derives call = false.
Proof.
  intros H (now & d & E). injection E as -> ->. cbn [contract_call call_key] in H. destruct (co_live c !! k) as [x|] eqn:El; [|done].
  destruct (ctx_call _ x) as [a [x'|]] eqn:Ec.
  - injection H as -> <-. exists x, x'. split_and!; try done. cbn. by rewrite lookup_insert_eq.
  - injection H as -> <-. cbn [ctx_call] in Ec. repeat case_match; simplify_eq.
Qed.

Lemma lease_inv_call tr c fresh call a c' :
  choice_ok c fresh -> contract_call c fresh call = (a, c') -> lease_inv tr c -> lease_inv (tr ++ [(call, a)]) c'.
Proof.
  intros Hf Hc [H1 H2 H3 H4]. destruct (call_used _ _ _ _ _ H1 Hc) as [Hu Hmono]. split; [done| | |].
  - intros k x' cap d Hx Hl.
    assert (forall x, co_live c !! k = Some x -> cx_leases x !! cap = Some d -> cx_marks x' !! cap = cx_marks x !! cap ->
      (forall g, default 0 (cx_marks x !! cap) = g -> ~ ends_lease k cap d g (call, a)) -> (forall g, ~ lease_granted k cap g (call, a)) ->
      exists pre now g post, tr ++ [(call, a)] = pre ++ (CallLease k cap now d g, AnsBool true) :: post /\ cx_marks x' !! cap = Some g /\ now < d
      /\ Forall (fun p => ~ ends_lease k cap d g p /\ forall g', ~ lease_granted k cap g' p) post) as Hkeep.
    { intros x Hx0 Hl0 Hm He Hg. destruct (H2 k x cap d Hx0 Hl0) as (pre & now & g & post & -> & E2 & E3 & E4).
      exists pre, now, g, (post ++ [(call, a)]). rewrite <- app_assoc. split_and!; try done; [by rewrite Hm|].
      apply Forall_app. split; [done|]. constructor; [|done]. split; [apply He; by rewrite E2|done]. }
    destruct (call_effect _ _ _ _ _ _ _ Hf Hc Hx) as [_ _ Hn|Hl0 Hk|x Hl0 Hk Hd He|x now r dd e b p Hl0 Hk He].
    + exfalso. destruct call; try done; cbn in Hn; [destruct Hn as (_ & Hn)|destruct Hn as (? & _ & _ & _ & Hn)]; rewrite Hn in Hl; unfold new_ctx in Hl; cbn [cx_leases] in Hl; by rewrite lookup_empty in Hl.
    + apply (Hkeep x'); try done; [by intros g _ (Hk' & _)|]. intros g (n & dl & E). by simplify_eq/=.
    + destruct (ctx_call_lease _ _ _ _ _ _ _ Hk Hd He Hl) as [(n & g & -> & -> & E1 & E2)|(E1 & E2 & E3 & E4)]; [|by apply (Hkeep x)].
      exists tr, n, g, []. by split_and!.
    + destruct (observe_keeps x now) as (_ & _ & _ & _ & K5 & _ & _ & _ & K9). destruct He as [[Et ->]|[Et ->]].
      * apply (Hkeep x); try done; subst call; [|by no_grant]. by no_end.
      * destruct (K9 _ _ Hl) as (Hx0 & Hn0 & Hn1). apply (Hkeep x); try done; [by rewrite K5| |subst call; by no_grant].
        subst call. no_end. repeat case_match; simplify_eq; lia.
  - intros p k cap g Hp Hg. apply elem_of_app in Hp as [Hp|Hp%list_elem_of_singleton].
    + destruct (H3 p k cap g Hp Hg) as [Hk Hm]. split; [by apply Hmono|]. intros x' Hx.
      destruct (call_effect _ _ _ _ _ _ _ Hf Hc Hx) as [Hn _ _|Hl0 _|x Hl0 Hkk Hd He|x now r dd e b q Hl0 _ He]; [done|by apply Hm| |].
      * destruct (ctx_call_mark _ _ _ _ _ cap Hkk Hd He) as [E _]. specialize (Hm x Hl0). lia.
      * specialize (Hm x Hl0). destruct (observe_keeps x now) as (_ & _ & _ & _ & K5 & _). destruct He as [[_ ->]|[_ ->]]; [done|by rewrite K5].
    + subst p. destruct (granted_live _ _ _ _ _ _ _ _ Hc Hg) as (x & x' & El & Ec & El' & Ek & Ed). split; [apply Hmono, H1; by eexists|].
      intros x0 Hx0. rewrite El' in Hx0. injection Hx0 as <-. by apply (ctx_call_mark _ _ _ _ _ cap Ek Ed Ec).
  - intros pre p post k cap g g' p' E Hp' Hg' Hg. destruct post as [|q post _] using rev_ind.
    + apply app_inj_tail in E as [<- <-]. destruct (granted_live _ _ _ _ _ _ _ _ Hc Hg) as (x & x' & El & Ec & El' & Ek & Ed).
      destruct (H3 p' k cap g' Hp' Hg') as [_ Hm]. specialize (Hm x El).
      destruct (ctx_call_mark _ _ _ _ _ cap Ek Ed Ec) as [_ Hlt]. destruct (Hlt g Hg). lia.
    + rewrite app_comm_cons, app_assoc in E. apply app_inj_tail in E as [E _]. by eapply H4.
Qed.

Lemma lease_inv_history tr c : history empty_contract tr c -> lease_inv tr c.
Proof.
  induction 1 as [|tr c1 fresh call a c2 Hh IH Hf Hcall]; [|by eapply lease_inv_call].
  split; [by apply (history_used []); constructor| | |].
  - intros k x cap d Hx. unfold empty_contract in Hx. cbn [co_live] in Hx. by rewrite lookup_empty in Hx.
  - intros p k cap g Hp. set_solver.
  - intros pre p post k cap g g' p' E. by destruct pre.
Qed.

(** ** Enforcement *)

(** What a call counted against a context, and the actions it ordered. *)
Definition ticks_for (k : AuthorizationContextKey) (p : Call * Answer) : Z :=
  match p with
  | (CallTick k' n, AnsAction r) => if bool_decide (k' = k) && ar_resolved r then n else 0
  | _ => 0
  end.
Definition denials_for (k : AuthorizationContextKey) (p : Call * Answer) : Z :=
  match p with
  | (CallDenial k', AnsAction r) => if bool_decide (k' = k) && ar_resolved r then 1 else 0
  | _ => 0
  end.
Definition ordered (act : AuthorizationAction) (k : AuthorizationContextKey) (p : Call * Answer) : Z :=
  match p.2 with
  | AnsAction r => if bool_decide (call_key p.1 = Some k) && bool_decide (ar_action r = act) then 1 else 0
  | _ => 0
  end.

Definition charged k tr : Z := sumZ (ticks_for k) tr.
Definition denied k tr : Z := sumZ (denials_for k) tr.
Definition orders act k tr : Z := sumZ (ordered act k) tr.

(** A threshold at [limit] against the total [n], its flag and its orders. *)
Definition fired (limit n : Z) (latched : bool) (count : Z) : Prop :=
  latched = (limit <=? n) /\ count = if limit <=? n then 1 else 0.

Lemma charge_ticks_spec t n total count r t' :
  is_u64 n -> 1 <= tick_budget t <= u64_max -> 0 <= total -> ticks_used t = Z.min u64_max total ->
  fired (tick_budget t) total (tick_threshold_latched t) count -> charge_ticks t n = (r, t') ->
  tick_budget t' = tick_budget t /\ ticks_used t' = Z.min u64_max (total + n) /\ ar_resolved r = true
  /\ fired (tick_budget t) (total + n) (tick_threshold_latched t') (count + if bool_decide (ar_action r = TickBudgetExceeded) then 1 else 0)
  /\ ar_action r <> DenialThresholdExceeded /\ ar_action r <> FsWriteRateExceeded.
Proof.
  intros Hn Hb Ht Hu [Hl Hc] H. unfold charge_ticks, AddSaturating in H. unfold fired. destruct (Z.eqb_spec n 0) as [->|Hn0].
  - injection H as <- <-. rewrite Z.add_0_r. cbn. rewrite Z.add_0_r. done.
  - assert (is_u64 n) by done. unfold is_u64 in *. destruct (Z.ltb_spec (u64_max - ticks_used t) n); injection H as <- <-; cbn;
      rewrite Hl; destruct (Z.leb_spec (tick_budget t) total), (Z.leb_spec (tick_budget t) (total + n)); cbn;
      try (destruct (Z.leb_spec (tick_budget t) (ticks_used t + n))); cbn; split_and!; try done; try lia; case_bool_decide; (done || lia).
Qed.

Lemma count_denial_spec d total count r d' :
  0 <= total -> denial_count d = Z.min u64_max total ->
  fired kAuthorizationDenialThreshold total (denial_threshold_latched d) count -> count_denial d = (r, d') ->
  denial_count d' = Z.min u64_max (total + 1) /\ ar_resolved r = true
  /\ fired kAuthorizationDenialThreshold (total + 1) (denial_threshold_latched d')
       (count + if bool_decide (ar_action r = DenialThresholdExceeded) then 1 else 0)
  /\ ar_action r <> TickBudgetExceeded /\ ar_action r <> FsWriteRateExceeded.
Proof.
  intros Ht Hu [Hl Hc] H. unfold count_denial, AddSaturating in H. unfold fired, kAuthorizationDenialThreshold in *.
  assert (u64_max = 18446744073709551615) as Hm by done.
  destruct (Z.ltb_spec (u64_max - denial_count d) 1); injection H as <- <-; cbn;
    rewrite Hl; destruct (Z.leb_spec 100 total), (Z.leb_spec 100 (total + 1)); cbn;
    try (destruct (Z.leb_spec 100 (denial_count d + 1))); cbn; split_and!; try done; try lia; case_bool_decide; (done || lia).
Qed.

Lemma fs_meter_latched f now bytes : let '(f', _, _, _, _) := fs_meter f now bytes in fs_write_threshold_latched f' = fs_write_threshold_latched f.
Proof.
  unfold fs_meter. destruct (AddSaturating _ _) as [added lifetime]. destruct (_ && _); [done|].
  cbn [seq kAuthorizationFsWriteWindowCount foldl]. unfold fs_window. by repeat case_match; simplify_eq/=.
Qed.

Lemma count_write_spec f now bytes count r f' :
  count = (if fs_write_threshold_latched f then 1 else 0) -> count_write f now bytes = (r, f') ->
  ar_resolved r = true
  /\ count + (if bool_decide (ar_action r = FsWriteRateExceeded) then 1 else 0) = (if fs_write_threshold_latched f' then 1 else 0)
  /\ (ar_arithmetic_overflow r || ar_time_regression r || negb (ar_fs_write_window r =? kAuthorizationNoFsWriteWindow) = true ->
      fs_write_threshold_latched f' = true)
  /\ ar_action r <> TickBudgetExceeded /\ ar_action r <> DenialThresholdExceeded.
Proof.
  intros Hc H. unfold count_write in H. destruct (bytes =? 0).
  - injection H as <- <-. cbn. rewrite Z.add_0_r. done.
  - pose proof (fs_meter_latched f now bytes) as Hf. destruct (fs_meter f now bytes) as [[[[f1 o] g] w] l]. injection H as <- <-. cbn.
    rewrite Hf, Hc. destruct (fs_write_threshold_latched f), (o || g || negb (w =? kAuthorizationNoFsWriteWindow)); cbn; split_and!; done.
Qed.

Record meter_ok (k : AuthorizationContextKey) (tr : list (Call * Answer)) (x : Ctx) : Prop := {
  mo_budget : 1 <= tick_budget (cx_ticks x) <= u64_max;
  mo_ticks : ticks_used (cx_ticks x) = Z.min u64_max (charged k tr);
  mo_tick_fired : fired (tick_budget (cx_ticks x)) (charged k tr) (tick_threshold_latched (cx_ticks x)) (orders TickBudgetExceeded k tr);
  mo_denials : denial_count (cx_denials x) = Z.min u64_max (denied k tr);
  mo_denial_fired : fired kAuthorizationDenialThreshold (denied k tr) (denial_threshold_latched (cx_denials x)) (orders DenialThresholdExceeded k tr);
  mo_fs_fired : orders FsWriteRateExceeded k tr = if fs_write_threshold_latched (cx_fs_writes x) then 1 else 0;
}.

Record meter_inv (tr : list (Call * Answer)) (c : Contract) : Prop := {
  mi_used : live_used c;
  mi_counted : forall p k, p ∈ tr -> k ∉ co_used c -> ticks_for k p = 0 /\ denials_for k p = 0 /\ forall act, act <> ActionNone -> ordered act k p = 0;
  mi_meters : forall k x, co_live c !! k = Some x -> meter_ok k tr x;
}.

Lemma counts_nonneg k tr : Forall (fun p => call_ok p.1) tr -> 0 <= charged k tr /\ 0 <= denied k tr.
Proof.
  intros Hok. rewrite Forall_forall in Hok. split; apply sumZ_nonneg; intros [call a] Hp; specialize (Hok _ Hp);
    destruct call, a; cbn in *; try done; case_match; try done; unfold is_u64 in *; lia.
Qed.

(** A call that is not about [k], or orders nothing. *)
Lemma not_counted call a k :
  (match a with AnsAction r => call_key call <> Some k \/ ar_resolved r = false /\ ar_action r = ActionNone | _ => True end) ->
  ticks_for k (call, a) = 0 /\ denials_for k (call, a) = 0 /\ forall act, act <> ActionNone -> ordered act k (call, a) = 0.
Proof.
  intros H. destruct a as [| | |r|]; try (by destruct call). destruct H as [Hk|[Hr Ha]]; unfold ordered; cbn [fst snd].
  - split_and!; [by destruct call; cbn in *; rewrite ?bool_decide_eq_false_2 by congruence..|].
    intros act _. by rewrite (bool_decide_eq_false_2 (call_key call = Some k)).
  - split_and!; [by destruct call; cbn; rewrite ?Hr, ?andb_false_r..|].
    intros act Hne. rewrite Ha, (bool_decide_eq_false_2 (ActionNone = act)), andb_false_r by congruence. done.
Qed.

Lemma meter_ok_snoc k tr x p :
  ticks_for k p = 0 -> denials_for k p = 0 -> (forall act, act <> ActionNone -> ordered act k p = 0) ->
  forall y, cx_ticks y = cx_ticks x -> cx_denials y = cx_denials x -> cx_fs_writes y = cx_fs_writes x ->
  meter_ok k tr x -> meter_ok k (tr ++ [p]) y.
Proof.
  intros H1 H2 H3 y E1 E2 E3 [M1 M2 M3 M4 M5 M6].
  assert (charged k (tr ++ [p]) = charged k tr) as Ec by (unfold charged; rewrite sumZ_app; cbn; lia).
  assert (denied k (tr ++ [p]) = denied k tr) as Ed by (unfold denied; rewrite sumZ_app; cbn; lia).
  assert (forall act, act <> ActionNone -> orders act k (tr ++ [p]) = orders act k tr) as Eo
    by (intros act Ha; unfold orders; rewrite sumZ_app; cbn; rewrite (H3 act Ha); lia).
  split; rewrite ?E1, ?E2, ?E3, ?Ec, ?Ed, ?Eo by done; done.
Qed.

Lemma refused_call c fresh call a c' k :
  call_key call = Some k -> co_live c !! k = None -> contract_call c fresh call = (a, c') -> a = refused call /\ c' = c.
Proof. intros Hk Hl H. destruct call; cbn in Hk, H; simplify_eq; rewrite Hl in H; by injection H as <- <-. Qed.

Definition metered (call : Call) : bool :=
  match call with CallTick _ _ | CallDenial _ | CallFsWrite _ _ _ => true | _ => false end.

Lemma ctx_call_meters call x a x' :
  metered call = false -> ctx_call call x = (a, Some x') ->
  cx_ticks x' = cx_ticks x /\ cx_denials x' = cx_denials x /\ cx_fs_writes x' = cx_fs_writes x
  /\ match a with AnsAction _ => False | _ => True end.
Proof.
  intros Hm H. destruct call; try done; cbn [ctx_call] in H;
    try (match type of H with context [observe x ?n] =>
           pose proof (observe_keeps x n) as K; destruct (observe x n) as [v y]; cbn [fst snd] in K;
           destruct K as (_ & _ & _ & _ & _ & K6 & K7 & K8 & _) end);
    repeat case_match; simplify_eq/=; done.
Qed.

(** A metered call on a live context. *)
Lemma metered_call call x a x' k tr :
  call_key call = Some k -> metered call = true -> ctx_call call x = (a, Some x') -> call_ok call ->
  0 <= charged k tr /\ 0 <= denied k tr -> meter_ok k tr x -> meter_ok k (tr ++ [(call, a)]) x'.
Proof.
  intros Hk Hm H Hok [Hc Hd] [M1 M2 M3 M4 M5 M6].
  assert (forall f : Call * Answer -> Z, sumZ f (tr ++ [(call, a)]) = sumZ f tr + f (call, a)) as Hs
    by (intros f; rewrite sumZ_app; cbn; lia).
  unfold charged, denied, orders in *. destruct call; try done; cbn [ctx_call call_key] in *; injection Hk as ->.
  - destruct (charge_ticks (cx_ticks x) ticks) as [r t] eqn:Et. injection H as <- <-. destruct Hok as [_ Hn].
    destruct (charge_ticks_spec _ _ _ _ _ _ Hn M1 Hc M2 M3 Et) as (E1 & E2 & E3 & E4 & E5 & E6).
    split; cbn [cx_ticks cx_denials cx_fs_writes with_meters]; unfold charged, denied, orders; rewrite ?E1, ?Hs;
      cbn [ticks_for denials_for ordered fst snd call_key]; rewrite ?bool_decide_eq_true_2 by done;
      rewrite ?E3; cbn; rewrite ?(bool_decide_eq_false_2 _ E5), ?(bool_decide_eq_false_2 _ E6), ?Z.add_0_r; done.
  - destruct (count_denial (cx_denials x)) as [r d] eqn:Et. injection H as <- <-.
    destruct (count_denial_spec _ _ _ _ _ Hd M4 M5 Et) as (E1 & E2 & E3 & E5 & E6).
    split; cbn [cx_ticks cx_denials cx_fs_writes with_meters]; unfold charged, denied, orders; rewrite ?E1, ?Hs;
      cbn [ticks_for denials_for ordered fst snd call_key]; rewrite ?bool_decide_eq_true_2 by done;
      rewrite ?E2; cbn; rewrite ?(bool_decide_eq_false_2 _ E5), ?(bool_decide_eq_false_2 _ E6), ?Z.add_0_r; done.
  - destruct (count_write (cx_fs_writes x) now bytes) as [r f] eqn:Et. injection H as <- <-.
    destruct (count_write_spec _ _ _ _ _ _ M6 Et) as (E1 & E2 & _ & E5 & E6).
    split; cbn [cx_ticks cx_denials cx_fs_writes with_meters]; unfold charged, denied, orders; rewrite ?Hs;
      cbn [ticks_for denials_for ordered fst snd call_key]; rewrite ?bool_decide_eq_true_2 by done;
      cbn; rewrite ?(bool_decide_eq_false_2 _ E5), ?(bool_decide_eq_false_2 _ E6), ?Z.add_0_r; done.
Qed.

Lemma meter_inv_call tr c fresh call a c' :
  Forall (fun p => call_ok p.1) (tr ++ [(call, a)]) ->
  choice_ok c fresh -> contract_call c fresh call = (a, c') -> meter_inv tr c -> meter_inv (tr ++ [(call, a)]) c'.
Proof.
  intros Hok Hf Hc [H1 H2 H3]. apply Forall_app in Hok as [Hok Hcall]. apply Forall_cons in Hcall as [Hcall _]. cbn in Hcall.
  destruct (call_used _ _ _ _ _ H1 Hc) as [Hu Hmono]. split; [done| |].
  - intros p k Hp Hk. apply elem_of_app in Hp as [Hp|Hp%list_elem_of_singleton]; [apply H2; [done|set_solver]|]. subst p.
    apply not_counted. destruct a as [| | |r|]; try done. destruct (decide (call_key call = Some k)) as [Ek|]; [right|by left].
    assert (co_live c !! k = None) as Hn. { destruct (co_live c !! k) eqn:E; [|done]. destruct Hk. apply Hmono, H1. by eexists. }
    destruct (refused_call _ _ _ _ _ _ Ek Hn Hc) as [E _]. destruct call; cbn in E; by simplify_eq.
  - intros k x' Hx.
    destruct (call_effect _ _ _ _ _ _ _ Hf Hc Hx) as [Hn -> He|Hl Hk|x Hl Hk Hd He|x now r d e b p Hl -> He].
    + assert (charged k tr = 0 /\ denied k tr = 0 /\ forall act, act <> ActionNone -> orders act k tr = 0) as (Z1 & Z2 & Z3).
      { split_and!; [| |intros act Ha]; apply sumZ_zero; intros p Hp; destruct (H2 p k Hp Hn) as (? & ? & Ho); [done..|by apply Ho]. }
      assert (exists p d e b t, x' = new_ctx p d e b t /\ 1 <= b <= u64_max) as (p & d & e & b & t & -> & Hb).
      { assert (forall d e b, request_ok d e b = true -> is_u64 b -> 1 <= b <= u64_max) as Hreq.
        { intros d e b Hr Hb. unfold request_ok in Hr. unfold is_u64 in Hb. destruct (Z.eqb_spec b 0); [done|]. lia. }
        destruct call; cbn in He, Hcall; try done.
        - destruct He as [Hr ->]. eexists _, _, _, budget, _. split; [reflexivity|]. exact (Hreq _ _ _ Hr Hcall).
        - destruct He as (y & _ & _ & Hr & ->). eexists _, _, _, budget, _. split; [reflexivity|].
          exact (Hreq _ _ _ Hr (proj2 (proj2 Hcall))). }
      destruct (not_counted call (AnsKey (Some k)) k) as (N1 & N2 & N3); [done|].
      apply (meter_ok_snoc k tr (new_ctx p d e b t)); try done.
      split; cbn; rewrite ?Z1, ?Z2, ?Z3; try done; split; rewrite ?Z3; try done; rewrite (proj2 (Z.leb_gt b 0)); (done || lia).
    + pose proof (not_counted call a k) as N. destruct N as (N1 & N2 & N3); [destruct a; auto|].
      apply (meter_ok_snoc k tr x'); try done. by apply H3.
    + destruct (metered call) eqn:Em; [by eapply metered_call; try done; [by apply counts_nonneg|by apply H3]|].
      destruct (ctx_call_meters _ _ _ _ Em He) as (E1 & E2 & E3 & E4).
      destruct (not_counted call a k) as (N1 & N2 & N3); [by destruct a|]. apply (meter_ok_snoc k tr x); try done. by apply H3.
    + assert (exists ok, a = AnsKey ok) as [ok ->].
      { cbn [contract_call] in Hc. unfold admit_ctx in Hc. repeat case_match; simplify_eq; by eexists. }
      destruct (observe_keeps x now) as (_ & _ & _ & _ & _ & K6 & K7 & K8 & _).
      apply (meter_ok_snoc k tr x); [done..| | | |by apply H3]; destruct He as [[_ ->]|[_ ->]]; done.
Qed.

Lemma meter_inv_history tr c : Forall (fun p => call_ok p.1) tr -> history empty_contract tr c -> meter_inv tr c.
Proof.
  intros Hok Hh. induction Hh as [|tr c1 fresh call a c2 Hh IH Hf Hcall].
  - split; [by apply (history_used []); constructor|intros p k Hp; set_solver|].
    intros k x Hx. unfold empty_contract in Hx. cbn [co_live] in Hx. by rewrite lookup_empty in Hx.
  - eapply meter_inv_call; try done. apply IH. by apply Forall_app in Hok as [? _].
Qed.

(** ** The claims *)

(** C23: Refinement.  Whatever the calls, the registry of 64 rows answers as its
    contract: a finite map of live contexts with sets of capabilities, leases
    that end at their deadline or when the clock stops or runs backwards, and
    keys that are never issued twice; a construction fails only when every
    slot is live or has spent its generations. *)
Theorem authorization_refines_contract (calls : list Call) :
  Forall call_ok calls ->
  exists c, history empty_contract (zip calls (run g_authorizations calls).1) c
            /\ abstracts (run g_authorizations calls).2 c /\ reg_ok (run g_authorizations calls).2.
Proof.
  intros Hok. destruct registry_boot_ok as [Ho Ha]. destruct (registry_run_history _ _ calls Ho Ha Hok) as (c & H1 & H2 & H3). by exists c.
Qed.

(** C24: Confinement.  A capability outside the ceiling of a live context (never
    granted, or dropped) is never again had by that context or by any context
    derived from it, directly or through others, whatever calls follow; and
    whatever is derived from a sandbox is a sandbox. *)
Theorem authority_never_amplified (before after : list Call) k k' cap now row :
  Forall call_ok (before ++ after) -> typed_key k -> typed_key k' -> 0 <= cap -> 0 <= now ->
  let reg := (run g_authorizations before).2 in
  let answers := (run reg after).1 in
  let reg' := (run reg after).2 in
  ResolveLive reg k = Some row -> Z.testbit (ceiling_bits (ar_authority row)) cap = false ->
  k' ∈ heirs {[k]} (zip after answers) ->
  (AuthorizationHas reg' k' cap now).1 = false
  /\ (ar_provenance row = ProfileSandbox -> forall row', ResolveLive reg' k' = Some row' -> ar_provenance row' = ProfileSandbox).
Proof.
  intros Hok Hk Hk' Hcap Hnow reg. apply Forall_app in Hok as [Hb Ha]. destruct registry_boot_ok as [Ho0 Ha0].
  destruct (registry_run_history _ _ before Ho0 Ha0 Hb) as (c & Hh & Ho & Habs). fold reg in Ho, Habs.
  destruct (registry_run_history _ _ after Ho Habs Ha) as (c' & Hh' & Ho' & Habs'). intros answers reg' Hr Hbit Hheir.
  fold answers reg' in Hh', Ho', Habs'.
  assert (confined cap (bool_decide (ar_provenance row = ProfileSandbox)) {[k]} c) as Hconf.
  { intros k0 ->%elem_of_singleton. destruct Habs as [Hl _]. rewrite (Hl k Hk), Hr. split; [apply (history_used _ _ Hh); rewrite (Hl k Hk), Hr; by eexists|].
    intros x [= <-]. cbn. rewrite elem_of_caps, bool_decide_eq_true. split; [by rewrite Hbit; intros [? _]|done]. }
  destruct (confined_history _ _ _ _ _ _ (history_used _ _ Hh) Hconf Hh') as [_ Hend]. destruct (Hend k' Hheir) as [_ Hx].
  destruct Habs' as [Hl' _]. split.
  - unfold AuthorizationHas. destruct (CapabilityIsDefined cap) eqn:Ed; [|done]. cbn [negb]. apply defined_spec in Ed; [|done].
    destruct (ResolveLive reg' k') as [row'|] eqn:Er; [|done]. destruct (Hx (row_ctx row')) as [Hc _]; [by rewrite (Hl' k' Hk'), Er|].
    pose proof (sim_observed k' row' now Hk' (reg_row_ok _ _ _ Ho' Hk' Er) Hnow) as Hs.
    destruct (ObserveLeaseTimeLocked _ _) as [v a]. destruct Hs as (_ & _ & _ & Hceil). cbn [fst snd]. rewrite cap_land_bit, negb_involutive by done.
    unfold EffectiveBitsLocked. rewrite Z.land_spec, Hceil. apply andb_false_iff. right. apply not_true_iff_false. intros H. apply Hc.
    cbn. by apply elem_of_caps.
  - intros Hs row' Er. destruct (Hx (row_ctx row')) as [_ Hp]; [by rewrite (Hl' k' Hk'), Er|]. apply Hp. by apply bool_decide_eq_true.
Qed.

(** C25: Leases.  The generations of the leases a context accepts for a capability
    strictly increase, so none is accepted twice; and a capability the context
    does not hold durably is had only through the last lease accepted for it,
    before its deadline, when no revocation, disabling or drop of it and no
    clock at zero or past the deadline has come since. *)
Theorem leases_end_and_never_replay (calls : list Call) k cap now :
  Forall call_ok calls -> typed_key k -> 0 <= cap -> 0 <= now ->
  let reg := (run g_authorizations calls).2 in
  let tr := zip calls (run g_authorizations calls).1 in
  (forall pre p post p' g g', tr = pre ++ p :: post -> p' ∈ pre -> lease_granted k cap g' p' -> lease_granted k cap g p -> g' < g)
  /\ (forall row, ResolveLive reg k = Some row -> Z.testbit (durable_bits (ar_authority row)) cap = false ->
        (AuthorizationHas reg k cap now).1 = true ->
        exists pre t deadline g post, tr = pre ++ (CallLease k cap t deadline g, AnsBool true) :: post /\ t < deadline /\ now < deadline
          /\ Forall (fun p => ~ ends_lease k cap deadline g p /\ forall g', ~ lease_granted k cap g' p) post).
Proof.
  intros Hok Hk Hcap Hnow. destruct registry_boot_ok as [Ho0 Ha0]. destruct (registry_run_history _ _ calls Ho0 Ha0 Hok) as (c & Hh & Ho & Habs).
  intros reg tr. fold reg in Ho, Habs. fold tr in Hh. destruct (lease_inv_history _ _ Hh) as [_ L2 _ L4].
  split; [intros; by eapply L4|]. intros row Hr Hbit Hhas.
  pose proof (query_sim reg c None (CallHas k cap now) Ho Habs ltac:(done)) as (Hans & _). cbn [do_call contract_call call_key] in Hans.
  destruct (AuthorizationHas reg k cap now) as [b reg']. cbn in Hhas. subst b. cbn [fst] in Hans.
  assert (co_live c !! k = Some (row_ctx row)) as Hl by (destruct Habs as [Hl _]; by rewrite (Hl k Hk), Hr).
  rewrite Hl in Hans. cbn [ctx_call] in Hans. destruct (negb (CapabilityIsDefined cap)); [done|]. cbn [fst] in Hans.
  injection Hans as Hin. symmetry in Hin. apply bool_decide_eq_true in Hin.
  destruct (observe_keeps (row_ctx row) now) as (_ & _ & K3 & _ & _ & _ & _ & _ & K9). unfold effective in Hin. rewrite K3 in Hin.
  apply elem_of_union in Hin as [Hin|Hin]; [cbn in Hin; rewrite elem_of_caps, Hbit in Hin; by destruct Hin|].
  apply elem_of_dom in Hin as [d Hd]. destruct (K9 cap d Hd) as (Hx & Hn0 & Hn1).
  destruct (L2 k (row_ctx row) cap d Hl Hx) as (pre & t & g & post & E & _ & Ht & Hp). exists pre, t, d, g, post. split_and!; try done. lia.
Qed.

(** Enforcement.  For a live context, the ticks used are the sum of the ticks
    charged to it, saturated at the largest 64-bit value, and the order to act
    on its tick budget has been given exactly once if that sum has reached the
    budget and never before; likewise for the hundredth denial; the order on
    file-system writes is given at most once, exactly when its flag is set. *)
Theorem thresholds_fire_exactly_once (calls : list Call) k row :
  Forall call_ok calls -> typed_key k ->
  let reg := (run g_authorizations calls).2 in
  let tr := zip calls (run g_authorizations calls).1 in
  ResolveLive reg k = Some row ->
  ticks_used (ar_ticks row) = Z.min u64_max (charged k tr)
  /\ orders TickBudgetExceeded k tr = (if tick_budget (ar_ticks row) <=? charged k tr then 1 else 0)
  /\ denial_count (ar_denials row) = Z.min u64_max (denied k tr)
  /\ orders DenialThresholdExceeded k tr = (if kAuthorizationDenialThreshold <=? denied k tr then 1 else 0)
  /\ orders FsWriteRateExceeded k tr = (if fs_write_threshold_latched (ar_fs_writes row) then 1 else 0).
Proof.
  intros Hok Hk. destruct registry_boot_ok as [Ho0 Ha0]. destruct (registry_run_history _ _ calls Ho0 Ha0 Hok) as (c & Hh & Ho & Habs).
  intros reg tr Hr. fold reg in Ho, Habs. fold tr in Hh. assert (Forall (fun p => call_ok p.1) tr) as Hok'.
  { apply Forall_forall. intros [call a] Hp%elem_of_zip_l. exact (proj1 (Forall_forall _ _) Hok call Hp). }
  destruct (meter_inv_history _ _ Hok' Hh) as [_ _ M]. destruct Habs as [Hl _].
  destruct (M k (row_ctx row)) as [M1 M2 [_ M3] M4 [_ M5] M6]; [by rewrite (Hl k Hk), Hr|]. by split_and!.
Qed.

(** A parent with a durable and a leased capability, a sandboxed child, an
    expired lease, a drop, and both thresholds of a small budget. *)
Definition sample_key : AuthorizationContextKey := MkAuthKey 0 1.
Definition sample_child : AuthorizationContextKey := MkAuthKey 1 1.
Definition sample_before : list Call :=
  [CallCreate false 4 68 5; CallLease sample_key 6 10 20 1; CallHas sample_key 6 11].
Definition sample_after : list Call :=
  [CallDerive sample_key 12 64 4 4 8 ProfileSandbox; CallTick sample_key 3; CallTick sample_key 4; CallDenial sample_child].

Lemma sample_ok : Forall call_ok (sample_before ++ sample_after).
Proof. repeat constructor; vm_compute; try done; try (by split). Qed.

Lemma authorization_refines_contract_witness :
  exists c, history empty_contract (zip sample_before (run g_authorizations sample_before).1) c
            /\ abstracts (run g_authorizations sample_before).2 c /\ reg_ok (run g_authorizations sample_before).2.
Proof.
  apply authorization_refines_contract. exact (proj1 (proj1 (Forall_app _ _ _) sample_ok)).
Defined.

Definition sample_mid : Registry := (run g_authorizations sample_before).2.
Definition sample_end : Registry := (run sample_mid sample_after).2.

Lemma sample_row reg k : ResolveLive reg k <> None -> ResolveLive reg k = Some (default zero_row (ResolveLive reg k)).
Proof. by destruct (ResolveLive reg k). Qed.

Lemma authority_never_amplified_witness :
  (run sample_mid sample_after).1 !! 0%nat = Some (AnsKey (Some sample_child)) /\ (AuthorizationHas sample_end sample_child 3 13).1 = false.
Proof.
  split; [by vm_compute|].
  refine (proj1 (authority_never_amplified sample_before sample_after sample_key sample_child 3 13
            (default zero_row (ResolveLive sample_mid sample_key)) sample_ok _ _ _ _ _ _ _)); try (vm_compute; discriminate).
  - apply sample_row. by vm_compute.
  - by vm_compute.
  - by vm_compute.
Defined.

Lemma leases_end_and_never_replay_witness :
  exists pre t deadline g post,
    zip sample_before (run g_authorizations sample_before).1 = pre ++ (CallLease sample_key 6 t deadline g, AnsBool true) :: post
    /\ t < deadline /\ 15 < deadline
    /\ Forall (fun p => ~ ends_lease sample_key 6 deadline g p /\ forall g', ~ lease_granted sample_key 6 g' p) post.
Proof.
  assert (typed_key sample_key) as Hk by (vm_compute; discriminate).
  assert (Forall call_ok sample_before) as Hok by (exact (proj1 (proj1 (Forall_app _ _ _) sample_ok))).
  assert (ResolveLive (run g_authorizations sample_before).2 sample_key
          = Some (default zero_row (ResolveLive (run g_authorizations sample_before).2 sample_key))) as Hr by (apply sample_row; by vm_compute).
  pose proof (leases_end_and_never_replay sample_before sample_key 6 15 Hok Hk ltac:(lia) ltac:(lia)) as H. cbv zeta in H.
  destruct H as [_ H]. apply (H _ Hr); by vm_compute.
Defined.

Definition sample_all : list Call := sample_before ++ sample_after.

Lemma thresholds_fire_exactly_once_witness :
  let tr := zip sample_all (run g_authorizations sample_all).1 in
  charged sample_key tr = 7 /\ orders TickBudgetExceeded sample_key tr = 1.
Proof.
  intros tr. split; [by vm_compute|]. assert (typed_key sample_key) as Hk by (vm_compute; discriminate).
  assert (ResolveLive (run g_authorizations sample_all).2 sample_key
          = Some (default zero_row (ResolveLive (run g_authorizations sample_all).2 sample_key))) as Hr by (apply sample_row; by vm_compute).
  pose proof (thresholds_fire_exactly_once sample_all sample_key _ sample_ok Hk Hr) as H. cbv zeta in H.
  destruct H as (_ & H & _). unfold tr. rewrite H. by vm_compute.
Defined.
