(* ===== verification/Credentials.v ===== *)
(** * Credentials

    Model of [kernel/proc/credentials.h] and [kernel/proc/credentials.cpp]:
    the fixed pool of immutable identities.  Every operation is one critical
    section of the pool lock, a function from the pool to its result and the
    pool after it.  An output pointer is a flag that says whether it is null;
    what it points to afterwards is returned. *)

From S2P Require Import Prelude.

Definition kCredentialCapacity : nat := 64.
Definition kCredentialSupplementalGroupCapacity : nat := 16.
Definition kCredentialGenerationMaximum : Z := 2 ^ 51 - 1.
Definition kCredentialInvalidId : Z := u32_max.
Definition kCredentialNobodyId : Z := 65534.
Definition kCredentialCapabilityKnownMask : Z := 2 ^ 41 - 1.

(** ** Data *)

Record CredentialKey := MkCredentialKey {
  ck_slot : Z;
  ck_generation : Z;
}.
#[export] Instance CredentialKey_eq_dec : EqDecision CredentialKey.
Proof. solve_decision. Defined.
#[export] Instance CredentialKey_countable : Countable CredentialKey.
Proof.
  apply (inj_countable' (fun k => (ck_slot k, ck_generation k)) (fun p => MkCredentialKey p.1 p.2)). by intros [].
Defined.

Definition kInvalidCredentialKey : CredentialKey := MkCredentialKey (Z.of_nat kCredentialCapacity) 0.

Definition CredentialKeyIsValid (key : CredentialKey) : bool :=
  (ck_slot key <? Z.of_nat kCredentialCapacity) && negb (ck_generation key =? 0)
  && (ck_generation key <=? kCredentialGenerationMaximum).

Inductive CredentialState := CredRetired | CredLive.
#[export] Instance CredentialState_eq_dec : EqDecision CredentialState.
Proof. solve_decision. Defined.

Inductive Win32IntegrityLevel :=
| IntegrityInvalid | IntegrityUntrusted | IntegrityLow | IntegrityMedium | IntegrityHigh | IntegritySystem.
#[export] Instance Win32IntegrityLevel_eq_dec : EqDecision Win32IntegrityLevel.
Proof. solve_decision. Defined.
Definition integrity_value (i : Win32IntegrityLevel) : Z :=
  match i with
  | IntegrityInvalid => 0 | IntegrityUntrusted => 1 | IntegrityLow => 2 | IntegrityMedium => 3 | IntegrityHigh => 4
  | IntegritySystem => 5
  end.

Record CredentialSecurityContext := MkSecurity {
  real_uid : Z;
  effective_uid : Z;
  saved_uid : Z;
  fs_uid : Z;
  real_gid : Z;
  effective_gid : Z;
  saved_gid : Z;
  fs_gid : Z;
  supplemental_group_count : Z;
  supplemental_groups : list Z;
  capability_effective : Z;
  capability_permitted : Z;
  capability_inheritable : Z;
  capability_bounding : Z;
  win32_integrity : Win32IntegrityLevel;
}.
#[export] Instance CredentialSecurityContext_eq_dec : EqDecision CredentialSecurityContext.
Proof. solve_decision. Defined.

Definition zero_security : CredentialSecurityContext :=
  MkSecurity 0 0 0 0 0 0 0 0 0 (replicate kCredentialSupplementalGroupCapacity 0) 0 0 0 0 IntegrityInvalid.

Record CredentialSandboxIdentity := MkSandboxIdentity {
  sandbox_uid : Z;
  sandbox_gid : Z;
  sandbox_group_count : Z;
  sandbox_groups : list Z;
}.

Record CredentialSnapshot := MkCredentialSnapshot {
  csn_state : CredentialState;
  csn_owner_references : Z;
  csn_security : CredentialSecurityContext;
}.
Definition zero_credential_snapshot : CredentialSnapshot := MkCredentialSnapshot CredRetired 0 zero_security.

Record CredentialRow := MkCredentialRow {
  cr_state : CredentialState;
  cr_generation : Z;
  cr_owner_references : Z;
  cr_security : CredentialSecurityContext;
}.
Definition zero_credential_row : CredentialRow := MkCredentialRow CredRetired 0 0 zero_security.

(** The pool [g_credentials]. *)
Notation Pool := (list CredentialRow).
Definition boot_pool : Pool := replicate kCredentialCapacity zero_credential_row.

(** ** Checks *)

Definition IdIsStored (id : Z) : bool := negb (id =? kCredentialInvalidId).

Definition IntegrityIsValid (integrity : Win32IntegrityLevel) : bool :=
  (integrity_value IntegrityUntrusted <=? integrity_value integrity)
  && (integrity_value integrity <=? integrity_value IntegritySystem).

Definition group_at (groups : list Z) (i : nat) : Z := nth i groups 0.

Definition GroupsAreCanonical (count : Z) (groups : list Z) (reject_root : bool) : bool :=
  if Z.of_nat kCredentialSupplementalGroupCapacity <? count then false
  else
    forallb (fun i =>
      negb (negb (IdIsStored (group_at groups i)) || (reject_root && (group_at groups i =? 0))
            || (negb (Nat.eqb i 0) && (group_at groups i <=? group_at groups (i - 1)))))
      (seq 0 (Z.to_nat count))
    && forallb (fun i => group_at groups i =? 0)
         (seq (Z.to_nat count) (kCredentialSupplementalGroupCapacity - Z.to_nat count)).

(** [x & ~y] of the source is [Z.ldiff x y]. *)
Definition CapabilityMaskIsCanonical (mask : Z) : bool := Z.ldiff mask kCredentialCapabilityKnownMask =? 0.
Definition MaskIsSubset (child parent : Z) : bool := Z.ldiff child parent =? 0.

Definition CredentialSecurityContextIsCanonical (c : CredentialSecurityContext) : bool :=
  negb (negb (IdIsStored (real_uid c)) || negb (IdIsStored (effective_uid c)) || negb (IdIsStored (saved_uid c))
        || negb (IdIsStored (fs_uid c)) || negb (IdIsStored (real_gid c)) || negb (IdIsStored (effective_gid c))
        || negb (IdIsStored (saved_gid c)) || negb (IdIsStored (fs_gid c))
        || negb (GroupsAreCanonical (supplemental_group_count c) (supplemental_groups c) false)
        || negb (CapabilityMaskIsCanonical (capability_effective c))
        || negb (CapabilityMaskIsCanonical (capability_permitted c))
        || negb (CapabilityMaskIsCanonical (capability_inheritable c))
        || negb (CapabilityMaskIsCanonical (capability_bounding c))
        || negb (MaskIsSubset (capability_effective c) (capability_permitted c))
        || negb (MaskIsSubset (capability_permitted c) (capability_bounding c))
        || negb (MaskIsSubset (capability_inheritable c) (capability_bounding c))
        || negb (IntegrityIsValid (win32_integrity c))).

Definition credential_at (pool : Pool) (slot : nat) : CredentialRow := nth slot pool zero_credential_row.

Definition ResolveExactLocked (pool : Pool) (key : CredentialKey) : option CredentialRow :=
  if negb (CredentialKeyIsValid key) then None
  else
    let row := credential_at pool (Z.to_nat (ck_slot key)) in
    if cr_generation row =? ck_generation key then Some row else None.

Definition row_is_free (row : CredentialRow) : bool :=
  negb (negb (bool_decide (cr_state row = CredRetired)) || (kCredentialGenerationMaximum <=? cr_generation row)).

Definition AllocateLocked (pool : Pool) (security : CredentialSecurityContext) : CredentialKey * Pool :=
  match find (fun slot => row_is_free (credential_at pool slot)) (seq 0 kCredentialCapacity) with
  | Some slot =>
      let generation := cr_generation (credential_at pool slot) + 1 in
      (MkCredentialKey (Z.of_nat slot) generation, <[slot := MkCredentialRow CredLive generation 1 security]> pool)
  | None => (kInvalidCredentialKey, pool)
  end.

Definition IdComesFromParent (id first second third fourth : Z) : bool :=
  (id =? first) || (id =? second) || (id =? third) || (id =? fourth).

Definition UidsAreRestricted (parent child : CredentialSecurityContext) : bool :=
  let from id := IdComesFromParent id (real_uid parent) (effective_uid parent) (saved_uid parent) (fs_uid parent) in
  from (real_uid child) && from (effective_uid child) && from (saved_uid child) && from (fs_uid child).

Definition GidsAreRestricted (parent child : CredentialSecurityContext) : bool :=
  let from id := IdComesFromParent id (real_gid parent) (effective_gid parent) (saved_gid parent) (fs_gid parent) in
  from (real_gid child) && from (effective_gid child) && from (saved_gid child) && from (fs_gid child).

(** The inner loop: the first index from [index] on whose group is not below
    [wanted], at most [todo] further. *)
Fixpoint skip_below (todo : nat) (groups : list Z) (wanted : Z) (index : nat) : nat :=
  match todo with
  | O => index
  | S todo => if group_at groups index <? wanted then skip_below todo groups wanted (S index) else index
  end.

(** The outer loop over the child's groups, with the parent's cursor. *)
Fixpoint subset_scan (wanted : list Z) (groups : list Z) (count parent_index : nat) : bool :=
  match wanted with
  | [] => true
  | w :: wanted =>
      let parent_index := skip_below (count - parent_index) groups w parent_index in
      if Nat.eqb parent_index count || negb (group_at groups parent_index =? w) then false
      else subset_scan wanted groups count (S parent_index)
  end.

Definition GroupsAreSubset (parent child : CredentialSecurityContext) : bool :=
  subset_scan (map (group_at (supplemental_groups child)) (seq 0 (Z.to_nat (supplemental_group_count child))))
    (supplemental_groups parent) (Z.to_nat (supplemental_group_count parent)) 0.

Definition IsRestrictedFrom (parent child : CredentialSecurityContext) : bool :=
  UidsAreRestricted parent child && GidsAreRestricted parent child && GroupsAreSubset parent child
  && MaskIsSubset (capability_effective child) (capability_effective parent)
  && MaskIsSubset (capability_permitted child) (capability_permitted parent)
  && MaskIsSubset (capability_inheritable child) (capability_inheritable parent)
  && MaskIsSubset (capability_bounding child) (capability_bounding parent)
  && (integrity_value (win32_integrity child) <=? integrity_value (win32_integrity parent)).

Definition TrustedRootContext : CredentialSecurityContext :=
  let all := kCredentialCapabilityKnownMask in
  MkSecurity 0 0 0 0 0 0 0 0 0 (replicate kCredentialSupplementalGroupCapacity 0) all all all all IntegritySystem.

Definition SandboxContext (identity : CredentialSandboxIdentity) : CredentialSecurityContext :=
  let uid := sandbox_uid identity in
  let gid := sandbox_gid identity in
  MkSecurity uid uid uid uid gid gid gid gid (sandbox_group_count identity)
    (map (group_at (sandbox_groups identity)) (seq 0 kCredentialSupplementalGroupCapacity)) 0 0 0 0 IntegrityLow.

Definition ContextsEqual (lhs rhs : CredentialSecurityContext) : bool :=
  negb (negb (real_uid lhs =? real_uid rhs) || negb (effective_uid lhs =? effective_uid rhs)
        || negb (saved_uid lhs =? saved_uid rhs) || negb (fs_uid lhs =? fs_uid rhs)
        || negb (real_gid lhs =? real_gid rhs) || negb (effective_gid lhs =? effective_gid rhs)
        || negb (saved_gid lhs =? saved_gid rhs) || negb (fs_gid lhs =? fs_gid rhs)
        || negb (supplemental_group_count lhs =? supplemental_group_count rhs)
        || negb (capability_effective lhs =? capability_effective rhs)
        || negb (capability_permitted lhs =? capability_permitted rhs)
        || negb (capability_inheritable lhs =? capability_inheritable rhs)
        || negb (capability_bounding lhs =? capability_bounding rhs)
        || negb (bool_decide (win32_integrity lhs = win32_integrity rhs)))
  && forallb (fun i => group_at (supplemental_groups lhs) i =? group_at (supplemental_groups rhs) i)
       (seq 0 kCredentialSupplementalGroupCapacity).

(** ** Operations *)

(** The result, the pool and the key written, if there is somewhere to write it. *)
Definition CredentialAuthorityCreateTrusted (pool : Pool) (initial : CredentialSecurityContext) (has_out : bool)
    : bool * Pool * option CredentialKey :=
  if negb has_out then (false, pool, None)
  else if negb (CredentialSecurityContextIsCanonical initial) then (false, pool, Some kInvalidCredentialKey)
  else
    let '(created, pool) := AllocateLocked pool initial in
    (CredentialKeyIsValid created, pool, Some created).

Definition CredentialAuthorityCreateTrustedRoot (pool : Pool) (has_out : bool) : bool * Pool * option CredentialKey :=
  CredentialAuthorityCreateTrusted pool TrustedRootContext has_out.

Definition CredentialAuthorityCreateSandbox (pool : Pool) (identity : CredentialSandboxIdentity) (has_out : bool)
    : bool * Pool * option CredentialKey :=
  if negb has_out then (false, pool, None)
  else if (sandbox_uid identity =? 0) || (sandbox_gid identity =? 0) || negb (IdIsStored (sandbox_uid identity))
          || negb (IdIsStored (sandbox_gid identity))
          || negb (GroupsAreCanonical (sandbox_group_count identity) (sandbox_groups identity) true)
  then (false, pool, Some kInvalidCredentialKey)
  else CredentialAuthorityCreateTrusted pool (SandboxContext identity) has_out.

Definition nobody_identity : CredentialSandboxIdentity :=
  MkSandboxIdentity kCredentialNobodyId kCredentialNobodyId 0 (replicate kCredentialSupplementalGroupCapacity 0).

Definition CredentialAuthorityCreateNobodySandbox (pool : Pool) (has_out : bool) : bool * Pool * option CredentialKey :=
  CredentialAuthorityCreateSandbox pool nobody_identity has_out.

Definition set_credential (pool : Pool) (key : CredentialKey) (row : CredentialRow) : Pool :=
  <[Z.to_nat (ck_slot key) := row]> pool.

Definition CredentialRetain (pool : Pool) (key : CredentialKey) : bool * Pool :=
  match ResolveExactLocked pool key with
  | None => (false, pool)
  | Some row =>
      if negb (bool_decide (cr_state row = CredLive)) || (cr_owner_references row =? 0)
         || (cr_owner_references row =? u32_max)
      then (false, pool)
      else (true, set_credential pool key
                    (MkCredentialRow (cr_state row) (cr_generation row) (cr_owner_references row + 1) (cr_security row)))
  end.

(** A null key pointer is [None]; the key after the call is returned. *)
Definition CredentialRelease (pool : Pool) (key : option CredentialKey) : bool * Pool * option CredentialKey :=
  match key with
  | None => (false, pool, None)
  | Some k =>
      if negb (CredentialKeyIsValid k) then (false, pool, key)
      else
        match ResolveExactLocked pool k with
        | None => (false, pool, key)
        | Some row =>
            if negb (bool_decide (cr_state row = CredLive)) || (cr_owner_references row =? 0) then (false, pool, key)
            else
              let left := cr_owner_references row - 1 in
              (true, set_credential pool k
                       (MkCredentialRow (if left =? 0 then CredRetired else cr_state row) (cr_generation row) left
                          (cr_security row)),
               Some kInvalidCredentialKey)
        end
  end.

Definition CredentialDeriveRestricted (pool : Pool) (parent : CredentialKey) (restricted : CredentialSecurityContext)
    (has_out : bool) : bool * Pool * option CredentialKey :=
  if negb has_out then (false, pool, None)
  else if negb (CredentialSecurityContextIsCanonical restricted) then (false, pool, Some kInvalidCredentialKey)
  else
    match ResolveExactLocked pool parent with
    | None => (false, pool, Some kInvalidCredentialKey)
    | Some row =>
        if negb (bool_decide (cr_state row = CredLive)) || (cr_owner_references row =? 0)
           || negb (IsRestrictedFrom (cr_security row) restricted)
        then (false, pool, Some kInvalidCredentialKey)
        else
          let '(created, pool) := AllocateLocked pool restricted in
          (CredentialKeyIsValid created, pool, Some created)
    end.

Definition CredentialInspectExact (pool : Pool) (key : CredentialKey) (has_out : bool) : bool * option CredentialSnapshot :=
  if negb has_out then (false, None)
  else
    match ResolveExactLocked pool key with
    | None => (false, Some zero_credential_snapshot)
    | Some row => (true, Some (MkCredentialSnapshot (cr_state row) (cr_owner_references row) (cr_security row)))
    end.

(** ** The boot self test *)

Definition out_key (key : option CredentialKey) : CredentialKey := default kInvalidCredentialKey key.
Definition out_snapshot (snapshot : option CredentialSnapshot) : CredentialSnapshot :=
  default zero_credential_snapshot snapshot.

(** The part of the test on a child of [trusted]: the test's verdict, the pool
    and the child's key afterwards. *)
Definition self_test_child (pool : Pool) (child : CredentialKey) (ok : bool) : bool * Pool * CredentialKey :=
  if CredentialKeyIsValid child
  then
    let '(refused_ok, pool, refused) := CredentialDeriveRestricted pool child TrustedRootContext true in
    let ok := negb refused_ok && bool_decide (out_key refused = kInvalidCredentialKey) && ok in
    let '(retained_ok, pool) := CredentialRetain pool child in
    let ok := retained_ok && ok in
    let '(ok, pool) :=
      if retained_ok
      then let '(r, pool, retained) := CredentialRelease pool (Some child) in
           (r && bool_decide (out_key retained = kInvalidCredentialKey) && ok, pool)
      else (ok, pool) in
    let replay := child in
    let '(r, pool, child) := CredentialRelease pool (Some child) in
    let ok := r && bool_decide (out_key child = kInvalidCredentialKey) && ok in
    let '(r, pool, _) := CredentialRelease pool (Some replay) in
    (negb r && ok, pool, out_key child)
  else (ok, pool, child).

Definition self_test_trusted (pool : Pool) (trusted : CredentialKey) (ok : bool) : bool * Pool * CredentialKey :=
  if CredentialKeyIsValid trusted
  then
    let '(r, before) := CredentialInspectExact pool trusted true in
    let before := out_snapshot before in
    let ok := r && bool_decide (csn_state before = CredLive) && (csn_owner_references before =? 1)
              && ContextsEqual (csn_security before) TrustedRootContext && ok in
    let restricted := MkSecurity 0 0 0 0 0 0 0 0 0 (replicate kCredentialSupplementalGroupCapacity 0) 0 0 0 0 IntegrityLow in
    let '(r, pool, child) := CredentialDeriveRestricted pool trusted restricted true in
    let ok := r && ok in
    let '(r, after) := CredentialInspectExact pool trusted true in
    let after := out_snapshot after in
    let ok := r && bool_decide (csn_state after = csn_state before)
              && (csn_owner_references after =? csn_owner_references before)
              && ContextsEqual (csn_security after) (csn_security before) && ok in
    self_test_child pool (out_key child) ok
  else (ok, pool, kInvalidCredentialKey).

Definition CredentialSelfTest (pool : Pool) : bool * Pool :=
  let '(r, pool, trusted) := CredentialAuthorityCreateTrusted pool TrustedRootContext true in
  let trusted := out_key trusted in
  let '(ok, pool, child) := self_test_trusted pool trusted r in
  let '(r, pool, sandbox) := CredentialAuthorityCreateSandbox pool nobody_identity true in
  let sandbox := out_key sandbox in
  let ok := r && ok in
  let '(ok, pool) :=
    if CredentialKeyIsValid sandbox
    then
      let '(r, snapshot) := CredentialInspectExact pool sandbox true in
      let security := csn_security (out_snapshot snapshot) in
      let ok := r && (real_uid security =? kCredentialNobodyId) && (capability_bounding security =? 0)
                && bool_decide (win32_integrity security = IntegrityLow) && ok in
      let '(r, pool, _) := CredentialRelease pool (Some sandbox) in (r && ok, pool)
    else (ok, pool) in
  let '(ok, pool) :=
    if CredentialKeyIsValid child
    then let '(r, pool, _) := CredentialRelease pool (Some child) in (r && ok, pool) else (ok, pool) in
  if CredentialKeyIsValid trusted
  then let '(r, pool, _) := CredentialRelease pool (Some trusted) in (r && ok, pool) else (ok, pool).

Example self_test_passes : (CredentialSelfTest boot_pool).1 = true.
Proof. by vm_compute. Qed.

(** ** The ledger of identities *)

(** What a context may be used as. *)
Definition uids (c : CredentialSecurityContext) : gset Z := {[real_uid c; effective_uid c; saved_uid c; fs_uid c]}.
Definition gids (c : CredentialSecurityContext) : gset Z := {[real_gid c; effective_gid c; saved_gid c; fs_gid c]}.
Definition used_groups (c : CredentialSecurityContext) : list Z :=
  map (group_at (supplemental_groups c)) (seq 0 (Z.to_nat (supplemental_group_count c))).
Definition has_capability (mask n : Z) : Prop := Z.testbit mask n = true.

(** [child] is no more than [parent]. *)
Record within (child parent : CredentialSecurityContext) : Prop := {
  wi_uids : uids child ⊆ uids parent;
  wi_gids : gids child ⊆ gids parent;
  wi_groups : forall g, g ∈ used_groups child -> g ∈ used_groups parent;
  wi_effective : forall n, 0 <= n -> has_capability (capability_effective child) n -> has_capability (capability_effective parent) n;
  wi_permitted : forall n, 0 <= n -> has_capability (capability_permitted child) n -> has_capability (capability_permitted parent) n;
  wi_inheritable : forall n, 0 <= n -> has_capability (capability_inheritable child) n -> has_capability (capability_inheritable parent) n;
  wi_bounding : forall n, 0 <= n -> has_capability (capability_bounding child) n -> has_capability (capability_bounding parent) n;
  wi_integrity : integrity_value (win32_integrity child) <= integrity_value (win32_integrity parent);
}.

#[export] Instance within_preorder : PreOrder within.
Proof.
  split.
  - intros c. split; try done; lia.
  - intros x y z [] []. split; [by etrans|by etrans|auto|auto|auto|auto|auto|lia].
Qed.

Lemma MaskIsSubset_spec child parent :
  MaskIsSubset child parent = true <-> forall n, 0 <= n -> has_capability child n -> has_capability parent n.
Proof.
  unfold MaskIsSubset, has_capability. rewrite Z.eqb_eq. split.
  - intros H n Hn Hc. destruct (Z.testbit parent n) eqn:Hp; [done|].
    assert (Z.testbit (Z.ldiff child parent) n = true) as Hb by (by rewrite Z.ldiff_spec, Hc, Hp).
    by rewrite H, Z.bits_0 in Hb.
  - intros H. apply Z.bits_inj'. intros n Hn. rewrite Z.ldiff_spec, Z.bits_0. specialize (H n Hn).
    destruct (Z.testbit child n); [|done]. by rewrite H.
Qed.

Lemma IdComesFromParent_spec id a b c d : IdComesFromParent id a b c d = true <-> id ∈ ({[a; b; c; d]} : gset Z).
Proof. unfold IdComesFromParent. rewrite !orb_true_iff, !Z.eqb_eq. set_solver. Qed.

(** *** The merge scan decides inclusion *)

Definition increasing (groups : list Z) (count : nat) : Prop :=
  forall i j, (i < j < count)%nat -> group_at groups i < group_at groups j.

Lemma skip_below_spec todo groups wanted : forall index,
  (index <= skip_below todo groups wanted index <= index + todo)%nat /\
  (forall i, (index <= i < skip_below todo groups wanted index)%nat -> group_at groups i < wanted) /\
  ((skip_below todo groups wanted index < index + todo)%nat -> wanted <= group_at groups (skip_below todo groups wanted index)).
Proof.
  induction todo as [|todo IH]; intros index; cbn [skip_below]; [split_and!; intros; lia|].
  destruct (Z.ltb_spec (group_at groups index) wanted) as [Hlt|Hge]; [|split_and!; intros; lia].
  destruct (IH (S index)) as (H1 & H2 & H3). split_and!; [lia|lia| |intros; apply H3; lia].
  intros i Hi. destruct (decide (i = index)) as [->|]; [done|]. apply H2. lia.
Qed.

Lemma subset_scan_spec groups count : increasing groups count -> forall wanted index,
  (index <= count)%nat -> StronglySorted Z.lt wanted ->
  subset_scan wanted groups count index = true <->
  forall w, w ∈ wanted -> exists i, (index <= i < count)%nat /\ group_at groups i = w.
Proof.
  intros Hinc. induction wanted as [|w wanted IH]; intros index Hi Hs; cbn [subset_scan]; [set_solver|].
  apply StronglySorted_inv in Hs as [Hs Hlt]. rewrite Forall_forall in Hlt.
  destruct (skip_below_spec (count - index) groups w index) as (H1 & H2 & H3).
  set (p := skip_below _ _ _ _) in *. destruct (Nat.eqb_spec p count) as [Hp|Hp]; cbn [orb].
  { split; [done|]. intros H. destruct (H w) as (i & Hii & He); [set_solver|]. specialize (H2 i). lia. }
  destruct (Z.eqb_spec (group_at groups p) w) as [He|He]; cbn [negb].
  - rewrite IH by (done || lia). split.
    + intros H x [->|Hx]%elem_of_cons; [exists p; split; [lia|done]|]. destruct (H x Hx) as (i & ? & ?). exists i. split; [lia|done].
    + intros H x Hx. destruct (H x) as (i & Hii & Hg); [set_solver|]. exists i. split; [|done].
      destruct (decide (i <= p)%nat) as [Hle|]; [|lia]. specialize (Hlt x Hx).
      destruct (decide (i = p)) as [->|]; [lia|]. specialize (Hinc i p). lia.
  - split; [done|]. intros H. destruct (H w) as (i & Hii & Hg); [set_solver|].
    destruct (decide (i < p)%nat); [specialize (H2 i); lia|]. assert (Hge : w <= group_at groups p) by (apply H3; lia).
    destruct (decide (i = p)) as [->|]; [done|]. specialize (Hinc p i). lia.
Qed.

Lemma canonical_groups count groups root : GroupsAreCanonical count groups root = true -> increasing groups (Z.to_nat count).
Proof.
  unfold GroupsAreCanonical. destruct (_ <? count); [done|]. intros [H _]%andb_true_iff. rewrite forallb_forall in H.
  assert (forall i, (S i < Z.to_nat count)%nat -> group_at groups i < group_at groups (S i)) as Hstep.
  { intros i Hi. specialize (H (S i)). rewrite in_seq in H. specialize (H ltac:(lia)).
    apply negb_true_iff, orb_false_iff in H as [_ [Hz|Hz]%andb_false_iff]; [done|].
    replace (S i - 1)%nat with i in Hz by lia. lia. }
  intros i j Hij. induction j as [|j IH]; [lia|]. destruct (decide (i = j)) as [->|]; [apply Hstep; lia|].
  specialize (Hstep j). lia.
Qed.

Lemma used_groups_elem c g : g ∈ used_groups c <->
  exists i, (0 <= i < Z.to_nat (supplemental_group_count c))%nat /\ group_at (supplemental_groups c) i = g.
Proof.
  unfold used_groups. rewrite list_elem_of_fmap. setoid_rewrite elem_of_seq. naive_solver.
Qed.

Lemma increasing_sorted groups n k : increasing groups (k + n) -> StronglySorted Z.lt (map (group_at groups) (seq k n)).
Proof.
  revert k. induction n as [|n IH]; intros k H; cbn; constructor.
  - apply IH. intros i j Hij. apply H. lia.
  - apply Forall_forall. intros x (i & -> & Hi%elem_of_seq)%list_elem_of_fmap. apply H. lia.
Qed.

Lemma IsRestrictedFrom_within parent child : CredentialSecurityContextIsCanonical parent = true ->
  CredentialSecurityContextIsCanonical child = true -> IsRestrictedFrom parent child = true <-> within child parent.
Proof.
  assert (forall c, CredentialSecurityContextIsCanonical c = true ->
    increasing (supplemental_groups c) (Z.to_nat (supplemental_group_count c))) as Hg.
  { intros c H. unfold CredentialSecurityContextIsCanonical in H. rewrite negb_true_iff, !orb_false_iff, !negb_false_iff in H.
    destruct_and!. by eapply canonical_groups. }
  intros Hp%Hg Hc%Hg. unfold IsRestrictedFrom, UidsAreRestricted, GidsAreRestricted, GroupsAreSubset. cbv zeta.
  rewrite !andb_true_iff, !IdComesFromParent_spec, !MaskIsSubset_spec, Z.leb_le.
  rewrite subset_scan_spec by (try done; try lia; by apply (increasing_sorted _ _ 0)).
  assert ((forall w, w ∈ map (group_at (supplemental_groups child)) (seq 0 (Z.to_nat (supplemental_group_count child))) ->
    exists i, (0 <= i < Z.to_nat (supplemental_group_count parent))%nat /\ group_at (supplemental_groups parent) i = w) <->
    forall g, g ∈ used_groups child -> g ∈ used_groups parent) as ->.
  { setoid_rewrite (used_groups_elem parent). done. }
  change ({[real_uid parent; effective_uid parent; saved_uid parent; fs_uid parent]}) with (uids parent).
  change ({[real_gid parent; effective_gid parent; saved_gid parent; fs_gid parent]}) with (gids parent).
  assert (forall (a b c d : Z) (X : gset Z), {[a; b; c; d]} ⊆ X <-> ((a ∈ X /\ b ∈ X) /\ c ∈ X) /\ d ∈ X) as Hsub
    by (intros; set_solver).
  rewrite <- !Hsub. split; [intros; destruct_and!; by split|intros []; by split_and!].
Qed.
