(* ===== verification/CredentialsProps.v ===== *)
(** * The ledger of identities

    The contract of the credential pool, without slots, rows or reference
    counters of 32 bits: a ledger of every identity ever issued, each with its
    context, which never changes, and its number of owners.  Any run of calls
    on the pool is a run of the ledger, and what is derived never exceeds what
    it was derived from. *)

From S2P Require Import Prelude Credentials.

Record entry := MkEntry {
  e_context : CredentialSecurityContext;
  e_owners : Z;
}.
Notation ledger := (gmap CredentialKey entry).

Inductive cred_call :=
| CrTrusted (context : CredentialSecurityContext)
| CrRoot
| CrSandbox (identity : CredentialSandboxIdentity)
| CrNobody
| CrDerive (parent : CredentialKey) (context : CredentialSecurityContext)
| CrRetain (key : CredentialKey)
| CrRelease (key : CredentialKey)
| CrInspect (key : CredentialKey).

Inductive cred_answer :=
| CrKey (key : option CredentialKey)
| CrDone (ok : bool)
| CrSeen (snapshot : option CredentialSnapshot).

(** A call on the pool, with somewhere to write its result. *)
Definition cred_exec (pool : Pool) (c : cred_call) : cred_answer * Pool :=
  let mint (x : bool * Pool * option CredentialKey) :=
    let '(ok, pool, key) := x in (CrKey (if ok : bool then key else None), pool) in
  match c with
  | CrTrusted context => mint (CredentialAuthorityCreateTrusted pool context true)
  | CrRoot => mint (CredentialAuthorityCreateTrustedRoot pool true)
  | CrSandbox identity => mint (CredentialAuthorityCreateSandbox pool identity true)
  | CrNobody => mint (CredentialAuthorityCreateNobodySandbox pool true)
  | CrDerive parent context => mint (CredentialDeriveRestricted pool parent context true)
  | CrRetain key => let '(ok, pool) := CredentialRetain pool key in (CrDone ok, pool)
  | CrRelease key => let '(ok, pool, _) := CredentialRelease pool (Some key) in (CrDone ok, pool)
  | CrInspect key => let '(ok, s) := CredentialInspectExact pool key true in (CrSeen (if ok then s else None), pool)
  end.

(** ** The contract *)

Definition sandbox_allowed (i : CredentialSandboxIdentity) : bool :=
  negb ((sandbox_uid i =? 0) || (sandbox_gid i =? 0) || negb (IdIsStored (sandbox_uid i))
        || negb (IdIsStored (sandbox_gid i)) || negb (GroupsAreCanonical (sandbox_group_count i) (sandbox_groups i) true)).

(** The call asks for [context] and may have it. *)
Definition may_mint (l : ledger) (c : cred_call) (context : CredentialSecurityContext) : Prop :=
  CredentialSecurityContextIsCanonical context = true /\
  match c with
  | CrTrusted x => context = x
  | CrRoot => context = TrustedRootContext
  | CrSandbox i => context = SandboxContext i /\ sandbox_allowed i = true
  | CrNobody => context = SandboxContext nobody_identity
  | CrDerive p x => context = x /\ exists e, l !! p = Some e /\ 0 < e_owners e /\ within x (e_context e)
  | _ => False
  end.

Definition mints (c : cred_call) : bool :=
  match c with CrTrusted _ | CrRoot | CrSandbox _ | CrNobody | CrDerive _ _ => true | _ => false end.

(** Every slot is owned or has spent its generations. *)
Definition pool_full (l : ledger) : Prop :=
  forall slot, 0 <= slot < 64 -> exists g e, l !! MkCredentialKey slot g = Some e /\ (0 < e_owners e \/ g = kCredentialGenerationMaximum).

Inductive allows (l : ledger) : cred_call -> cred_answer -> ledger -> Prop :=
| allow_mint c context k :
    may_mint l c context -> CredentialKeyIsValid k = true -> l !! k = None ->
    allows l c (CrKey (Some k)) (<[k := MkEntry context 1]> l)
| allow_no_mint c : mints c = true -> (forall context, ~ may_mint l c context) \/ pool_full l -> allows l c (CrKey None) l
| allow_retain k e : l !! k = Some e -> 0 < e_owners e < u32_max ->
    allows l (CrRetain k) (CrDone true) (<[k := MkEntry (e_context e) (e_owners e + 1)]> l)
| allow_no_retain k : (forall e, l !! k = Some e -> ~ 0 < e_owners e < u32_max) -> allows l (CrRetain k) (CrDone false) l
| allow_release k e : l !! k = Some e -> 0 < e_owners e ->
    allows l (CrRelease k) (CrDone true) (<[k := MkEntry (e_context e) (e_owners e - 1)]> l)
| allow_no_release k : (forall e, l !! k = Some e -> e_owners e = 0) -> allows l (CrRelease k) (CrDone false) l
| allow_inspect k e : l !! k = Some e ->
    allows l (CrInspect k) (CrSeen (Some (MkCredentialSnapshot (if e_owners e =? 0 then CredRetired else CredLive)
                                            (e_owners e) (e_context e)))) l
| allow_no_inspect k : (forall e, l !! k = Some e -> e_owners e = 0) -> allows l (CrInspect k) (CrSeen None) l.

Inductive ledger_run (l : ledger) : list (cred_call * cred_answer) -> ledger -> Prop :=
| run_done : ledger_run l [] l
| run_call c a l' h l'' : allows l c a l' -> ledger_run l' h l'' -> ledger_run l ((c, a) :: h) l''.

(** ** The pool shows the ledger *)

Record row_shows (l : ledger) (slot : nat) (row : CredentialRow) : Prop := {
  rs_generation : 0 <= cr_generation row <= kCredentialGenerationMaximum;
  rs_references : 0 <= cr_owner_references row <= u32_max;
  rs_state : cr_state row = if cr_owner_references row =? 0 then CredRetired else CredLive;
  rs_fresh : cr_generation row = 0 -> cr_owner_references row = 0;
  rs_entry : 0 < cr_generation row ->
    l !! MkCredentialKey (Z.of_nat slot) (cr_generation row) = Some (MkEntry (cr_security row) (cr_owner_references row));
}.

Record pool_shows (pool : Pool) (l : ledger) : Prop := {
  ps_length : length pool = kCredentialCapacity;
  ps_rows : forall slot row, pool !! slot = Some row -> row_shows l slot row;
  ps_entries : forall k e, l !! k = Some e ->
    CredentialKeyIsValid k = true /\ 0 <= ck_slot k /\ 0 < ck_generation k /\
    CredentialSecurityContextIsCanonical (e_context e) = true /\
    exists row, pool !! Z.to_nat (ck_slot k) = Some row /\ ck_generation k <= cr_generation row /\
      (ck_generation k < cr_generation row -> e_owners e = 0);
}.

Lemma boot_shows : pool_shows boot_pool ∅.
Proof.
  split.
  - apply length_replicate.
  - intros slot row [-> _]%lookup_replicate. split; cbn; try done; lia.
  - by intros k e ?%lookup_empty_Some.
Qed.

(** Keys of their native type. *)
Definition key_typed (k : CredentialKey) : Prop := is_u32 (ck_slot k) /\ is_u64 (ck_generation k).
Definition call_typed (c : cred_call) : Prop :=
  match c with CrDerive k _ | CrRetain k | CrRelease k | CrInspect k => key_typed k | _ => True end.

Section shown.
Context (pool : Pool) (l : ledger) (Hs : pool_shows pool l).

Lemma credential_lookup slot : (slot < kCredentialCapacity)%nat -> pool !! slot = Some (credential_at pool slot).
Proof.
  intros H. rewrite <- (ps_length _ _ Hs) in H. destruct (lookup_lt_is_Some_2 pool slot H) as [row Hr].
  unfold credential_at. by rewrite nth_lookup, Hr.
Qed.

(** Resolving a key finds its entry, unless the slot was used again. *)
Lemma resolve_shows k : key_typed k ->
  match ResolveExactLocked pool k with
  | Some row => pool !! Z.to_nat (ck_slot k) = Some row /\ cr_generation row = ck_generation k /\ 0 < ck_generation k /\
      row_shows l (Z.to_nat (ck_slot k)) row /\ l !! k = Some (MkEntry (cr_security row) (cr_owner_references row))
  | None => forall e, l !! k = Some e -> e_owners e = 0
  end.
Proof.
  intros [Hk Hg]. unfold ResolveExactLocked. destruct (CredentialKeyIsValid k) eqn:Hv; cbn [negb].
  2: { intros e He. destruct (ps_entries _ _ Hs k e He) as [? _]. congruence. }
  unfold CredentialKeyIsValid in Hv. rewrite !andb_true_iff, negb_true_iff, Z.eqb_neq in Hv. destruct Hv as ((H1 & H2) & H3).
  assert (pool !! Z.to_nat (ck_slot k) = Some (credential_at pool (Z.to_nat (ck_slot k)))) as Hl
    by (apply credential_lookup; unfold kCredentialCapacity in *; ulia).
  pose proof (ps_rows _ _ Hs _ _ Hl) as Hrow.
  destruct (Z.eqb_spec (cr_generation (credential_at pool (Z.to_nat (ck_slot k)))) (ck_generation k)) as [He|Hne].
  - split_and!; try done; [ulia|]. pose proof (rs_entry _ _ _ Hrow) as Hent. rewrite He, Z2Nat.id in Hent by ulia.
    destruct k as [s g]. apply Hent. cbn in *. ulia.
  - intros e Hent. destruct (ps_entries _ _ Hs k e Hent) as (_ & _ & _ & _ & row & Hrow' & Hle & Hlt).
    rewrite Hl in Hrow'. injection Hrow' as <-. apply Hlt. lia.
Qed.

(** Changing the row of a resolved key to another number of owners. *)
Lemma set_owners_shows k row n : key_typed k -> ResolveExactLocked pool k = Some row -> 0 <= n <= u32_max ->
  pool_shows (set_credential pool k (MkCredentialRow (if n =? 0 then CredRetired else CredLive) (cr_generation row) n (cr_security row)))
    (<[k := MkEntry (cr_security row) n]> l).
Proof.
  intros Hk Hr Hn. pose proof (resolve_shows k Hk) as Hx. rewrite Hr in Hx. destruct Hx as (Hl & Hg & Hg0 & Hrow & Hent).
  unfold set_credential. split.
  - by rewrite length_insert, (ps_length _ _ Hs).
  - intros slot r Hlook. destruct (decide (slot = Z.to_nat (ck_slot k))) as [->|Hne].
    + rewrite list_lookup_insert_eq in Hlook by (by eapply lookup_lt_Some). injection Hlook as <-. destruct Hrow.
      split; cbn; try done; [lia|]. intros _. rewrite Hg, Z2Nat.id by (destruct Hk; ulia). destruct k. apply lookup_insert_eq.
    + rewrite list_lookup_insert_ne in Hlook by done. destruct (ps_rows _ _ Hs _ _ Hlook). split; try done.
      intros H0. rewrite lookup_insert_ne; [by apply rs_entry0|]. intros ->. cbn in Hne. lia.
  - intros k' e He. apply lookup_insert_Some in He as [[<- <-]|[Hne He]].
    + destruct (ps_entries _ _ Hs k _ Hent) as (? & ? & ? & ? & row' & Hl' & ? & ?). rewrite Hl in Hl'. injection Hl' as <-.
      split_and!; try done. eexists. split; [by rewrite list_lookup_insert_eq by (by eapply lookup_lt_Some)|]. cbn. lia.
    + destruct (ps_entries _ _ Hs k' _ He) as (? & ? & ? & ? & row' & Hl' & ? & ?). split_and!; try done.
      destruct (decide (Z.to_nat (ck_slot k') = Z.to_nat (ck_slot k))) as [Heq|Hneq].
      * rewrite Heq in *. rewrite Hl in Hl'. injection Hl' as <-. eexists.
        split; [by rewrite list_lookup_insert_eq by (by eapply lookup_lt_Some)|]. done.
      * exists row'. by rewrite list_lookup_insert_ne.
Qed.

(** Allocation issues a new key, or every slot is taken. *)
Lemma allocate_shows context : CredentialSecurityContextIsCanonical context = true ->
  let '(k, pool') := AllocateLocked pool context in
  (CredentialKeyIsValid k = true /\ l !! k = None /\ pool_shows pool' (<[k := MkEntry context 1]> l)) \/
  (CredentialKeyIsValid k = false /\ pool' = pool /\ pool_full l).
Proof.
  intros Hc. unfold AllocateLocked. destruct (find _ _) as [slot|] eqn:Hf.
  - left. apply find_some in Hf as [Hin%in_seq Hfree]. assert (Hlt : (slot < kCredentialCapacity)%nat) by lia.
    pose proof (credential_lookup slot Hlt) as Hl. set (row := credential_at pool slot) in *.
    pose proof (ps_rows _ _ Hs _ _ Hl) as Hrow. unfold row_is_free in Hfree.
    rewrite negb_true_iff, orb_false_iff, negb_false_iff, bool_decide_eq_true in Hfree. destruct Hfree as [Hst Hmax].
    pose proof (rs_generation _ _ _ Hrow) as Hgen.
    assert (cr_owner_references row = 0) as Hz.
    { pose proof (rs_state _ _ _ Hrow) as E. rewrite Hst in E. destruct (Z.eqb_spec (cr_owner_references row) 0); [done|discriminate]. }
    set (k := MkCredentialKey (Z.of_nat slot) (cr_generation row + 1)).
    assert (CredentialKeyIsValid k = true) as Hv.
    { unfold CredentialKeyIsValid, k. cbn [ck_slot ck_generation]. unfold kCredentialCapacity in *.
      rewrite !andb_true_iff, negb_true_iff, Z.eqb_neq. lia. }
    assert (l !! k = None) as Hnone.
    { destruct (l !! k) as [e|] eqn:He; [|done]. destruct (ps_entries _ _ Hs k e He) as (_ & _ & _ & _ & r & Hr & Hle & _).
      cbn in Hr, Hle. rewrite Nat2Z.id, Hl in Hr. injection Hr as <-. lia. }
    split_and!; try done. split.
    + by rewrite length_insert, (ps_length _ _ Hs).
    + intros slot' r Hlook. destruct (decide (slot' = slot)) as [->|Hne].
      * rewrite list_lookup_insert_eq in Hlook by (by eapply lookup_lt_Some). injection Hlook as <-.
        split; cbn; try done; try (unfold kCredentialGenerationMaximum in *; ulia). intros _. apply lookup_insert_eq.
      * rewrite list_lookup_insert_ne in Hlook by done. destruct (ps_rows _ _ Hs _ _ Hlook). split; try done.
        intros H0. rewrite lookup_insert_ne; [by apply rs_entry0|]. intros [= E _]. lia.
    + intros k' e He. apply lookup_insert_Some in He as [[<- <-]|[Hne He]].
      * split_and!; try done; [cbn; lia|cbn; lia|]. eexists. cbn. rewrite Nat2Z.id.
        split; [by rewrite list_lookup_insert_eq by (by eapply lookup_lt_Some)|]. cbn. lia.
      * destruct (ps_entries _ _ Hs k' _ He) as (? & ? & ? & ? & row' & Hl' & ? & Ho). split_and!; try done.
        destruct (decide (Z.to_nat (ck_slot k') = slot)) as [Heq|Hneq]; [|exists row'; by rewrite list_lookup_insert_ne].
        rewrite Heq, Hl in Hl'. injection Hl' as <-. eexists. rewrite Heq.
        split; [by rewrite list_lookup_insert_eq by (by eapply lookup_lt_Some)|]. cbn. split; [lia|]. intros _.
        destruct (decide (ck_generation k' < cr_generation row)); [by apply Ho|].
        assert (ck_generation k' = cr_generation row) as Hge by lia.
        pose proof (rs_entry _ _ _ Hrow ltac:(lia)) as Hent. destruct k' as [s g]. cbn in *. subst g.
        replace s with (Z.of_nat slot) in He by lia. rewrite Hent in He. injection He as <-. done.
  - right. split_and!; try done. intros slot Hslot.
    assert (Hlt : (Z.to_nat slot < kCredentialCapacity)%nat) by (unfold kCredentialCapacity; lia).
    pose proof (find_none _ _ Hf (Z.to_nat slot) ltac:(apply in_seq; lia)) as Hnf. cbn in Hnf.
    pose proof (ps_rows _ _ Hs _ _ (credential_lookup _ Hlt)) as Hrow. set (row := credential_at pool (Z.to_nat slot)) in *.
    unfold row_is_free in Hnf. rewrite negb_false_iff, orb_true_iff, negb_true_iff, bool_decide_eq_false in Hnf.
    pose proof (rs_entry _ _ _ Hrow) as Hent. rewrite Z2Nat.id in Hent by lia. destruct Hrow as [Hg Hr Hst Hfr _].
    destruct Hnf as [Hnf|Hnf].
    + destruct (Z.eqb_spec (cr_owner_references row) 0) as [|Hne]; [done|].
      destruct (Z.eqb_spec (cr_generation row) 0) as [E|]; [specialize (Hfr E); lia|].
      do 2 eexists. split; [apply Hent; lia|]. cbn. lia.
    + unfold kCredentialGenerationMaximum in *. do 2 eexists. split; [apply Hent; lia|]. cbn. lia.
Qed.

(** A mint of a context the call may have. *)
Lemma mint_shows c context : may_mint l c context -> mints c = true ->
  let '(k, pool') := AllocateLocked pool context in
  exists l', allows l c (CrKey (if CredentialKeyIsValid k then Some k else None)) l' /\ pool_shows pool' l'.
Proof.
  intros Hm Hc. pose proof (allocate_shows context (proj1 Hm)) as Ha. destruct (AllocateLocked pool context) as [k pool'].
  destruct Ha as [(Hv & Hn & Hs')|(Hv & -> & Hf)]; rewrite Hv.
  - eexists. split; [|done]. by constructor.
  - exists l. split; [|done]. apply allow_no_mint; auto.
Qed.

Lemma refused_mint c : mints c = true -> (forall context, ~ may_mint l c context) ->
  exists l', allows l c (CrKey None) l' /\ pool_shows pool l'.
Proof. intros Hc Hn. exists l. split; [|done]. apply allow_no_mint; auto. Qed.

Lemma trusted_shows c context : mints c = true ->
  (forall x, may_mint l c x <-> CredentialSecurityContextIsCanonical x = true /\ x = context) ->
  let '(ok, pool', key) := CredentialAuthorityCreateTrusted pool context true in
  exists l', allows l c (CrKey (if ok then key else None)) l' /\ pool_shows pool' l'.
Proof.
  intros Hc Hm. unfold CredentialAuthorityCreateTrusted. cbn [negb].
  destruct (CredentialSecurityContextIsCanonical context) eqn:Hk; cbn [negb].
  - pose proof (mint_shows c context (proj2 (Hm context) (conj Hk eq_refl)) Hc) as H. by destruct (AllocateLocked pool context).
  - apply refused_mint; [done|]. intros x [Hx ->]%Hm. congruence.
Qed.

Lemma sandbox_shows c i : mints c = true ->
  (forall x, may_mint l c x <-> CredentialSecurityContextIsCanonical x = true /\ x = SandboxContext i /\ sandbox_allowed i = true) ->
  let '(ok, pool', key) := CredentialAuthorityCreateSandbox pool i true in
  exists l', allows l c (CrKey (if ok then key else None)) l' /\ pool_shows pool' l'.
Proof.
  intros Hc Hm. unfold CredentialAuthorityCreateSandbox. cbn [negb].
  match goal with |- context [if ?x then _ else _] => destruct x eqn:Hb end.
  - apply refused_mint; [done|]. intros x (_ & _ & Ha)%Hm. unfold sandbox_allowed in Ha. by rewrite Hb in Ha.
  - apply trusted_shows; [done|]. intros x. rewrite Hm. unfold sandbox_allowed. rewrite Hb. naive_solver.
Qed.

Lemma derive_shows p x : key_typed p ->
  let '(ok, pool', key) := CredentialDeriveRestricted pool p x true in
  exists l', allows l (CrDerive p x) (CrKey (if ok then key else None)) l' /\ pool_shows pool' l'.
Proof.
  intros Hp. unfold CredentialDeriveRestricted. cbn [negb].
  destruct (CredentialSecurityContextIsCanonical x) eqn:Hk; cbn [negb].
  2: { apply refused_mint; [done|]. intros y [Hy [-> _]]. congruence. }
  pose proof (resolve_shows p Hp) as Hr. destruct (ResolveExactLocked pool p) as [row|].
  2: { apply refused_mint; [done|]. intros y (_ & -> & e & He & Ho & _). specialize (Hr e He). lia. }
  destruct Hr as (_ & _ & _ & Hrow & Hent). pose proof (rs_state _ _ _ Hrow) as Hst. pose proof (rs_references _ _ _ Hrow) as Href.
  destruct (ps_entries _ _ Hs p _ Hent) as (_ & _ & _ & Hpc & _). cbn [e_context] in Hpc.
  assert (negb (bool_decide (cr_state row = CredLive)) || (cr_owner_references row =? 0) = (cr_owner_references row =? 0)) as ->.
  { rewrite Hst. by destruct (Z.eqb_spec (cr_owner_references row) 0). }
  pose proof (IsRestrictedFrom_within _ x Hpc Hk) as Hw.
  destruct (Z.eqb_spec (cr_owner_references row) 0) as [Hz|Hz]; cbn [orb].
  { apply refused_mint; [done|]. intros y (_ & -> & e & He & Ho & _). rewrite Hent in He. injection He as <-. cbn in Ho. lia. }
  destruct (IsRestrictedFrom (cr_security row) x); cbn [negb].
  - assert (may_mint l (CrDerive p x) x) as Hm.
    { split; [done|]. split; [done|]. eexists. split; [exact Hent|]. cbn. split; [lia|]. by apply Hw. }
    pose proof (mint_shows _ _ Hm eq_refl) as H. by destruct (AllocateLocked pool x).
  - apply refused_mint; [done|]. intros y (_ & -> & e & He & _ & Hin). rewrite Hent in He. injection He as <-.
    apply Hw in Hin. done.
Qed.

Lemma retain_shows k : key_typed k ->
  let '(ok, pool') := CredentialRetain pool k in exists l', allows l (CrRetain k) (CrDone ok) l' /\ pool_shows pool' l'.
Proof.
  intros Hk. pose proof (resolve_shows k Hk) as Hr. pose proof (set_owners_shows k) as Hset. unfold CredentialRetain.
  destruct (ResolveExactLocked pool k) as [row|].
  2: { exists l. split; [|done]. constructor. intros e He. specialize (Hr e He). lia. }
  destruct Hr as (_ & _ & _ & Hrow & Hent). pose proof (rs_state _ _ _ Hrow) as Hst. pose proof (rs_references _ _ _ Hrow) as Href.
  rewrite Hst. destruct (Z.eqb_spec (cr_owner_references row) 0) as [Hz|Hz]; cbn [orb negb].
  { rewrite orb_true_r. exists l. split; [|done]. constructor. intros e He. rewrite Hent in He. injection He as <-. cbn. lia. }
  rewrite bool_decide_true by done. cbn [negb orb]. destruct (Z.eqb_spec (cr_owner_references row) u32_max) as [Hm|Hm].
  { exists l. split; [|done]. constructor. intros e He. rewrite Hent in He. injection He as <-. cbn. lia. }
  eexists. split; [apply (allow_retain l k _ Hent); cbn; lia|]. cbn [e_context e_owners].
  specialize (Hset row (cr_owner_references row + 1) Hk eq_refl ltac:(lia)).
  by rewrite (proj2 (Z.eqb_neq _ _)) in Hset by lia.
Qed.

Lemma release_shows k : key_typed k ->
  let '(ok, pool', _) := CredentialRelease pool (Some k) in
  exists l', allows l (CrRelease k) (CrDone ok) l' /\ pool_shows pool' l'.
Proof.
  intros Hk. pose proof (resolve_shows k Hk) as Hr. pose proof (set_owners_shows k) as Hset. unfold CredentialRelease.
  destruct (CredentialKeyIsValid k) eqn:Hv; cbn [negb].
  2: { exists l. split; [|done]. constructor. intros e He. destruct (ps_entries _ _ Hs k e He) as [? _]. congruence. }
  destruct (ResolveExactLocked pool k) as [row|].
  2: { exists l. split; [|done]. by constructor. }
  destruct Hr as (_ & _ & _ & Hrow & Hent). pose proof (rs_state _ _ _ Hrow) as Hst. pose proof (rs_references _ _ _ Hrow) as Href.
  rewrite Hst. destruct (Z.eqb_spec (cr_owner_references row) 0) as [Hz|Hz]; cbn [orb negb].
  { rewrite orb_true_r. exists l. split; [|done]. constructor. intros e He. rewrite Hent in He. by injection He as <-. }
  rewrite bool_decide_true by done. cbn [negb orb]. eexists. split; [apply (allow_release l k _ Hent); cbn; lia|].
  cbn [e_context e_owners]. apply (Hset row (cr_owner_references row - 1) Hk eq_refl). lia.
Qed.

Lemma cred_exec_shows c : call_typed c ->
  let '(a, pool') := cred_exec pool c in exists l', allows l c a l' /\ pool_shows pool' l'.
Proof.
  intros Ht. destruct c; cbn [cred_exec call_typed] in *.
  - pose proof (trusted_shows (CrTrusted context) context eq_refl) as H.
    destruct (CredentialAuthorityCreateTrusted _ _ _) as [[ok pool'] key]. apply H. unfold may_mint. naive_solver.
  - pose proof (trusted_shows CrRoot TrustedRootContext eq_refl) as H. unfold CredentialAuthorityCreateTrustedRoot.
    destruct (CredentialAuthorityCreateTrusted _ _ _) as [[ok pool'] key]. apply H. unfold may_mint. naive_solver.
  - pose proof (sandbox_shows (CrSandbox identity) identity eq_refl) as H.
    destruct (CredentialAuthorityCreateSandbox _ _ _) as [[ok pool'] key]. apply H. unfold may_mint. naive_solver.
  - pose proof (sandbox_shows CrNobody nobody_identity eq_refl) as H. unfold CredentialAuthorityCreateNobodySandbox.
    destruct (CredentialAuthorityCreateSandbox _ _ _) as [[ok pool'] key]. apply H. unfold may_mint.
    assert (sandbox_allowed nobody_identity = true) by done. naive_solver.
  - pose proof (derive_shows parent context Ht) as H. by destruct (CredentialDeriveRestricted _ _ _ _) as [[ok pool'] key].
  - pose proof (retain_shows key Ht) as H. by destruct (CredentialRetain _ _).
  - pose proof (release_shows key Ht) as H. by destruct (CredentialRelease _ _) as [[ok pool'] key'].
  - pose proof (resolve_shows key Ht) as Hr. unfold CredentialInspectExact. cbn [negb].
    destruct (ResolveExactLocked pool key) as [row|]; exists l; (split; [|done]); [|by constructor].
    destruct Hr as (_ & _ & _ & Hrow & Hent). rewrite (rs_state _ _ _ Hrow). exact (allow_inspect l key _ Hent).
Qed.

End shown.

(** ** Runs *)

Fixpoint cred_run (pool : Pool) (cs : list cred_call) : list cred_answer * Pool :=
  match cs with
  | [] => ([], pool)
  | c :: cs =>
      let '(a, pool) := cred_exec pool c in
      let '(answers, pool) := cred_run pool cs in
      (a :: answers, pool)
  end.

Lemma cred_run_shows cs : forall pool l, pool_shows pool l -> Forall call_typed cs ->
  let '(answers, pool') := cred_run pool cs in exists l', ledger_run l (zip cs answers) l' /\ pool_shows pool' l'.
Proof.
  induction cs as [|c cs IH]; intros pool l Hs Ht; cbn [cred_run]; [exists l; split; [constructor|done]|].
  apply Forall_cons in Ht as [Hc Ht]. pose proof (cred_exec_shows pool l Hs c Hc) as Hx.
  destruct (cred_exec pool c) as [a pool1]. destruct Hx as (l1 & Ha & Hs1). specialize (IH pool1 l1 Hs1 Ht).
  destruct (cred_run pool1 cs) as [answers pool2]. destruct IH as (l2 & Hr & Hs2). exists l2. split; [|done].
  cbn [zip_with]. by econstructor.
Qed.

(** Contexts never change, and what was derived is within its parent. *)
Definition derived_in (h : list (cred_call * cred_answer)) (child parent : CredentialKey) : Prop :=
  exists x, (CrDerive parent x, CrKey (Some child)) ∈ h.

Lemma allows_keeps l c a l' k e : allows l c a l' -> l !! k = Some e -> exists e', l' !! k = Some e' /\ e_context e' = e_context e.
Proof.
  destruct 1; intros He; eauto; destruct (decide (k = k0)) as [->|]; rewrite ?lookup_insert_eq, ?lookup_insert_ne by done; eauto;
    try congruence; simplify_eq; eauto.
Qed.

Lemma run_keeps l h l' : ledger_run l h l' -> forall k e, l !! k = Some e ->
  exists e', l' !! k = Some e' /\ e_context e' = e_context e.
Proof.
  induction 1 as [|l c a l1 h l2 Ha _ IH]; intros k e He; [eauto|].
  destruct (allows_keeps _ _ _ _ k e Ha He) as (e1 & H1 & <-). by apply IH.
Qed.

Lemma run_derived l h l' : ledger_run l h l' -> forall child parent, derived_in h child parent ->
  exists ec ep, l' !! child = Some ec /\ l' !! parent = Some ep /\ within (e_context ec) (e_context ep).
Proof.
  induction 1 as [|l c a l1 h l2 Ha Hr IH]; intros child parent [x Hx]; [set_solver|].
  apply elem_of_cons in Hx as [[= <- <-]|Hx]; [|by apply IH; exists x].
  inversion Ha as [c0 ctx k Hm Hv Hn| | | | | | |]; subst. destruct Hm as (_ & -> & ep & Hp & _ & Hw).
  assert (parent <> child) by (intros ->; congruence).
  destruct (run_keeps _ _ _ Hr child (MkEntry x 1)) as (ec & Hc & Hec); [by rewrite lookup_insert_eq|].
  destruct (run_keeps _ _ _ Hr parent ep) as (ep' & Hp' & Hep); [by rewrite lookup_insert_ne|].
  exists ec, ep'. by rewrite Hec, Hep.
Qed.

Lemma run_seen l h l' : ledger_run l h l' -> forall k s, (CrInspect k, CrSeen (Some s)) ∈ h ->
  exists e, l' !! k = Some e /\ e_context e = csn_security s.
Proof.
  induction 1 as [|l c a l1 h l2 Ha Hr IH]; intros k s Hx; [set_solver|].
  apply elem_of_cons in Hx as [[= <- <-]|Hx]; [|by apply IH]. inversion Ha; subst. by eapply run_keeps.
Qed.

(** C35: The credential pool is the ledger of identities.  Any calls on the pool
    from boot, with keys of their native width, are answered as the ledger
    allows: an identity is created exactly when the context is canonical, the
    caller may have it and a slot is left, under a key never issued before; a
    child is derived exactly when its parent is owned and every user, group,
    capability and the integrity of the child are within the parent's; owners
    are counted exactly; and a key resolves to its own context or, once
    nobody owns it, to nothing. *)
Theorem credentials_refine_ledger cs : Forall call_typed cs ->
  let '(answers, pool) := cred_run boot_pool cs in exists l, ledger_run ∅ (zip cs answers) l /\ pool_shows pool l.
Proof. intros Ht. exact (cred_run_shows cs boot_pool ∅ boot_shows Ht). Qed.

(** C36: Derivation never amplifies.  In any run from boot, whatever is derived
    from an identity, through any number of derivations and whoever still owns
    the identities between, is seen with no user, group, capability or
    integrity its ancestor was not seen with. *)
Theorem credentials_never_amplified cs child ancestor s s' : Forall call_typed cs ->
  let h := zip cs (cred_run boot_pool cs).1 in
  rtc (derived_in h) child ancestor ->
  (CrInspect child, CrSeen (Some s)) ∈ h -> (CrInspect ancestor, CrSeen (Some s')) ∈ h ->
  within (csn_security s) (csn_security s').
Proof.
  intros Ht. pose proof (cred_run_shows cs boot_pool ∅ boot_shows Ht) as Hr.
  destruct (cred_run boot_pool cs) as [answers pool]. destruct Hr as (l & Hr & _). cbn [fst]. cbv zeta.
  intros Hd Hs Hs'. destruct (run_seen _ _ _ Hr _ _ Hs) as (e & He & <-). destruct (run_seen _ _ _ Hr _ _ Hs') as (e' & He' & <-).
  clear Hs Hs'. revert e He. induction Hd as [k|k k1 k2 Hk _ IH]; intros e He; [rewrite He in He'; injection He' as <-; done|].
  destruct (run_derived _ _ _ Hr _ _ Hk) as (ec & ep & Hc & Hp & Hw). rewrite He in Hc. injection Hc as <-.
  etrans; [exact Hw|]. by apply IH.
Qed.

(** ** Concrete instances *)

Definition demo_plain (bounding : Z) : CredentialSecurityContext :=
  MkSecurity 0 0 0 0 0 0 0 0 0 (replicate 16 0) 0 0 0 bounding IntegrityLow.

(** Root, a child of it with three capabilities in its bounding set, and a
    grandchild with one. *)
Definition demo_derivations : list cred_call :=
  [CrRoot; CrDerive (MkCredentialKey 0 1) (demo_plain 7); CrDerive (MkCredentialKey 1 1) (demo_plain 2);
   CrDerive (MkCredentialKey 2 1) (demo_plain 4); CrRelease (MkCredentialKey 1 1); CrRelease (MkCredentialKey 1 1);
   CrInspect (MkCredentialKey 2 1); CrInspect (MkCredentialKey 0 1)].

Lemma demo_derivations_typed : Forall call_typed demo_derivations.
Proof. repeat (apply Forall_cons; split; [cbn; unfold key_typed; cbn; ulia || done|]). by apply Forall_nil. Qed.

Example demo_derivations_answers : (cred_run boot_pool demo_derivations).1 =
  [CrKey (Some (MkCredentialKey 0 1)); CrKey (Some (MkCredentialKey 1 1)); CrKey (Some (MkCredentialKey 2 1)); CrKey None;
   CrDone true; CrDone false; CrSeen (Some (MkCredentialSnapshot CredLive 1 (demo_plain 2)));
   CrSeen (Some (MkCredentialSnapshot CredLive 1 TrustedRootContext))].
Proof. by vm_compute. Qed.

Lemma credentials_refine_ledger_witness : Forall call_typed demo_derivations /\
  exists l, ledger_run ∅ (zip demo_derivations (cred_run boot_pool demo_derivations).1) l.
Proof.
  split; [exact demo_derivations_typed|]. pose proof (credentials_refine_ledger demo_derivations demo_derivations_typed) as T.
  destruct (cred_run boot_pool demo_derivations) as [answers pool]. destruct T as (l & Hl & _). exists l. exact Hl.
Defined.

(** Membership in an explicit list. *)
Ltac listed := repeat first [apply list_elem_of_here | apply list_elem_of_further].

Lemma credentials_never_amplified_witness : within (demo_plain 2) TrustedRootContext.
Proof.
  apply (credentials_never_amplified demo_derivations (MkCredentialKey 2 1) (MkCredentialKey 0 1)
    (MkCredentialSnapshot CredLive 1 (demo_plain 2)) (MkCredentialSnapshot CredLive 1 TrustedRootContext) demo_derivations_typed);
    rewrite demo_derivations_answers; unfold demo_derivations, derived_in.
  - apply (rtc_l _ _ (MkCredentialKey 1 1)); [eexists; cbn; listed|].
    apply (rtc_l _ _ (MkCredentialKey 0 1)); [eexists; cbn; listed|]. apply rtc_refl.
  - cbn. listed.
  - cbn. listed.
Defined.
