(* ===== verification/Sha256.v ===== *)
(** * SHA-256

    Model of [kernel/crypto/sha256.h] and [kernel/crypto/sha256.cpp]: the
    compression function, the buffering of [Sha256Update] and the padding of
    [Sha256Final].  A byte is a [Z]; [data] is the bytes the call may read,
    [None] for the null pointer.  The index arithmetic of [Sha256Update] is
    32-bit and wraps as in the source, so its block loop is bounded by fuel
    and returns [None] when the loop does not stop.

    The theorem compares the streamed digest with the one defined directly on
    the padded message: however a message is cut into updates, the digest is
    that of the whole message. *)

From S2P Require Import Prelude Bytes.

Definition kSha256DigestBytes : Z := 32.
Definition kSha256BlockBytes : nat := 64.

Record Sha256Ctx := MkSha256 {
  sha_state : list Z;
  sha_length_bits : Z;
  sha_buffered_bytes : nat;
  sha_block : list Z;
}.

Definition k_round : list Z :=
  [0x428A2F98; 0x71374491; 0xB5C0FBCF; 0xE9B5DBA5; 0x3956C25B; 0x59F111F1; 0x923F82A4; 0xAB1C5ED5;
   0xD807AA98; 0x12835B01; 0x243185BE; 0x550C7DC3; 0x72BE5D74; 0x80DEB1FE; 0x9BDC06A7; 0xC19BF174;
   0xE49B69C1; 0xEFBE4786; 0x0FC19DC6; 0x240CA1CC; 0x2DE92C6F; 0x4A7484AA; 0x5CB0A9DC; 0x76F988DA;
   0x983E5152; 0xA831C66D; 0xB00327C8; 0xBF597FC7; 0xC6E00BF3; 0xD5A79147; 0x06CA6351; 0x14292967;
   0x27B70A85; 0x2E1B2138; 0x4D2C6DFC; 0x53380D13; 0x650A7354; 0x766A0ABB; 0x81C2C92E; 0x92722C85;
   0xA2BFE8A1; 0xA81A664B; 0xC24B8B70; 0xC76C51A3; 0xD192E819; 0xD6990624; 0xF40E3585; 0x106AA070;
   0x19A4C116; 0x1E376C08; 0x2748774C; 0x34B0BCB5; 0x391C0CB3; 0x4ED8AA4A; 0x5B9CCA4F; 0x682E6FF3;
   0x748F82EE; 0x78A5636F; 0x84C87814; 0x8CC70208; 0x90BEFFFA; 0xA4506CEB; 0xBEF9A3F7; 0xC67178F2].

Definition RotR (v n : Z) : Z := Z.lor (Z.shiftr v n) (wrap32 (Z.shiftl v (32 - n))).

(** The first sixteen words of the schedule are the block, big-endian. *)
Definition load_word (block : list Z) (i : nat) : Z :=
  Z.lor (Z.lor (Z.lor (Z.shiftl (byte_at block (i * 4)) 24) (Z.shiftl (byte_at block (i * 4 + 1)) 16))
               (Z.shiftl (byte_at block (i * 4 + 2)) 8))
        (byte_at block (i * 4 + 3)).

Definition extend_schedule (w : list Z) (i : nat) : list Z :=
  let w15 := nth (i - 15) w 0 in
  let w2 := nth (i - 2) w 0 in
  let s0 := Z.lxor (Z.lxor (RotR w15 7) (RotR w15 18)) (Z.shiftr w15 3) in
  let s1 := Z.lxor (Z.lxor (RotR w2 17) (RotR w2 19)) (Z.shiftr w2 10) in
  w ++ [wrap32 (nth (i - 16) w 0 + s0 + nth (i - 7) w 0 + s1)].

Definition schedule (block : list Z) : list Z :=
  fold_left extend_schedule (seq 16 48) (map (load_word block) (seq 0 16)).

Record working := MkWorking {
  wa : Z; wb : Z; wc : Z; wd : Z; we : Z; wf : Z; wg : Z; wh : Z
}.

Definition round (w : list Z) (s : working) (i : nat) : working :=
  let e := we s in
  let a := wa s in
  let S1 := Z.lxor (Z.lxor (RotR e 6) (RotR e 11)) (RotR e 25) in
  let ch := Z.lxor (Z.land e (wf s)) (Z.land (wrap32 (Z.lnot e)) (wg s)) in
  let t1 := wrap32 (wh s + S1 + ch + nth i k_round 0 + nth i w 0) in
  let S0 := Z.lxor (Z.lxor (RotR a 2) (RotR a 13)) (RotR a 22) in
  let mj := Z.lxor (Z.lxor (Z.land a (wb s)) (Z.land a (wc s))) (Z.land (wb s) (wc s)) in
  let t2 := wrap32 (S0 + mj) in
  MkWorking (wrap32 (t1 + t2)) a (wb s) (wc s) (wrap32 (wd s + t1)) e (wf s) (wg s).

(** The eight state words after one block. *)
Definition compress (st block : list Z) : list Z :=
  let w := schedule block in
  let at_ i := nth i st 0 in
  let s := fold_left (round w) (seq 0 64)
             (MkWorking (at_ 0%nat) (at_ 1%nat) (at_ 2%nat) (at_ 3%nat) (at_ 4%nat) (at_ 5%nat) (at_ 6%nat) (at_ 7%nat)) in
  [wrap32 (at_ 0%nat + wa s); wrap32 (at_ 1%nat + wb s); wrap32 (at_ 2%nat + wc s);
   wrap32 (at_ 3%nat + wd s); wrap32 (at_ 4%nat + we s); wrap32 (at_ 5%nat + wf s);
   wrap32 (at_ 6%nat + wg s); wrap32 (at_ 7%nat + wh s)].

Definition Sha256ProcessBlock (ctx : Sha256Ctx) (block : list Z) : Sha256Ctx :=
  MkSha256 (compress (sha_state ctx) block) (sha_length_bits ctx) (sha_buffered_bytes ctx) (sha_block ctx).

Definition Sha256Init : Sha256Ctx :=
  MkSha256 [0x6A09E667; 0xBB67AE85; 0x3C6EF372; 0xA54FF53A; 0x510E527F; 0x9B05688C; 0x1F83D9AB; 0x5BE0CD19]
    0 0 (replicate kSha256BlockBytes 0).

(** [ctx.block[off + k] = bytes[k]] for each of [bytes], with the new count. *)
Definition store_bytes (ctx : Sha256Ctx) (off : nat) (bytes : list Z) : Sha256Ctx :=
  MkSha256 (sha_state ctx) (sha_length_bits ctx) (off + length bytes)
    (list_inserts off bytes (sha_block ctx)).

Definition set_buffered (ctx : Sha256Ctx) (n : nat) : Sha256Ctx :=
  MkSha256 (sha_state ctx) (sha_length_bits ctx) n (sha_block ctx).

(** The partial-block prefix of [Sha256Update]: the context and [i]. *)
Definition fill_buffer (ctx : Sha256Ctx) (data : list Z) : Sha256Ctx * Z :=
  if Nat.eqb (sha_buffered_bytes ctx) 0 then (ctx, 0)
  else
    let want := (kSha256BlockBytes - sha_buffered_bytes ctx)%nat in
    let n := Nat.min (length data) want in
    let ctx := store_bytes ctx (sha_buffered_bytes ctx) (take n data) in
    let ctx := if Nat.eqb (sha_buffered_bytes ctx) kSha256BlockBytes
               then set_buffered (Sha256ProcessBlock ctx (sha_block ctx)) 0 else ctx in
    (ctx, Z.of_nat n).

(** [while (i + 64 <= length)], on 32-bit [i]. *)
Fixpoint absorb_blocks (fuel : nat) (ctx : Sha256Ctx) (data : list Z) (i : Z) : option (Sha256Ctx * Z) :=
  match fuel with
  | O => None
  | S fuel =>
      if wrap32 (i + Z.of_nat kSha256BlockBytes) <=? Z.of_nat (length data)
      then absorb_blocks fuel (Sha256ProcessBlock ctx (take kSha256BlockBytes (drop (Z.to_nat i) data))) data
             (wrap32 (i + Z.of_nat kSha256BlockBytes))
      else Some (ctx, i)
  end.

Definition add_length (ctx : Sha256Ctx) (n : nat) : Sha256Ctx :=
  MkSha256 (sha_state ctx) (wrap64 (sha_length_bits ctx + Z.of_nat n * 8)) (sha_buffered_bytes ctx) (sha_block ctx).

Definition Sha256Update (ctx : Sha256Ctx) (data : option (list Z)) : option Sha256Ctx :=
  match data with
  | None | Some [] => Some ctx
  | Some data =>
      let '(ctx, i) := fill_buffer (add_length ctx (length data)) data in
      match absorb_blocks (S (length data)) ctx data i with
      | Some (ctx, i) => Some (store_bytes ctx (sha_buffered_bytes ctx) (drop (Z.to_nat i) data))
      | None => None
      end
  end.

(** A word's bytes, most significant first. *)
Definition be_bytes (n : nat) (v : Z) : list Z :=
  map (fun i => Z.land (Z.shiftr v (Z.of_nat ((n - 1 - i) * 8))) 255) (seq 0 n).

Definition Sha256Final (ctx : Sha256Ctx) : list Z :=
  let ctx := store_bytes ctx (sha_buffered_bytes ctx) [128] in
  let ctx :=
    if Nat.ltb (kSha256BlockBytes - 8) (sha_buffered_bytes ctx)
    then
      let ctx := store_bytes ctx (sha_buffered_bytes ctx)
                   (replicate (kSha256BlockBytes - sha_buffered_bytes ctx) 0) in
      set_buffered (Sha256ProcessBlock ctx (sha_block ctx)) 0
    else ctx in
  let ctx := store_bytes ctx (sha_buffered_bytes ctx)
               (replicate (kSha256BlockBytes - 8 - sha_buffered_bytes ctx) 0) in
  let ctx := store_bytes ctx (sha_buffered_bytes ctx) (be_bytes 8 (sha_length_bits ctx)) in
  let ctx := Sha256ProcessBlock ctx (sha_block ctx) in
  flat_map (be_bytes 4) (sha_state ctx).

Definition Sha256Hash (data : option (list Z)) : option (list Z) :=
  match Sha256Update Sha256Init data with Some ctx => Some (Sha256Final ctx) | None => None end.

(** ** The digest of a whole message *)

(** The state after the first [k] blocks of [m]. *)
Definition state_after (m : list Z) (k : nat) : list Z :=
  fold_left (fun st j => compress st (take 64 (drop (64 * j) m))) (seq 0 k) (sha_state Sha256Init).

Definition padded (m : list Z) : list Z :=
  m ++ [128] ++ replicate ((64 - (length m + 9) mod 64) mod 64) 0 ++ be_bytes 8 (wrap64 (Z.of_nat (length m) * 8)).

Definition sha256_of (m : list Z) : list Z :=
  flat_map (be_bytes 4) (state_after (padded m) (length (padded m) / 64)).

(** The updates of a list of pieces, one after the other. *)
Definition updates (ctx : Sha256Ctx) (pieces : list (list Z)) : option Sha256Ctx :=
  fold_left (fun c piece => match c with Some ctx => Sha256Update ctx (Some piece) | None => None end) pieces (Some ctx).

(** ** Contexts and the message they have absorbed *)

#[local] Arguments Nat.div : simpl never.
#[local] Arguments Nat.modulo : simpl never.
#[local] Arguments Nat.mul : simpl never.
#[local] Arguments compress : simpl never.
#[local] Arguments be_bytes : simpl never.

Record absorbed (ctx : Sha256Ctx) (m : list Z) : Prop := {
  abs_state : sha_state ctx = state_after m (length m / 64);
  abs_bits : sha_length_bits ctx = wrap64 (Z.of_nat (length m) * 8);
  abs_count : sha_buffered_bytes ctx = (length m mod 64)%nat;
  abs_block : length (sha_block ctx) = 64%nat;
  abs_tail : take (length m mod 64) (sha_block ctx) = drop (64 * (length m / 64)) m;
}.

Lemma inserts_split {A} (bytes l : list A) off :
  (off + length bytes <= length l)%nat ->
  list_inserts off bytes l = take off l ++ bytes ++ drop (off + length bytes) l.
Proof.
  revert off. induction bytes as [|b bytes IH]; intros off Hl; simpl in *.
  - rewrite Nat.add_0_r. by rewrite take_drop.
  - rewrite IH by lia. rewrite insert_take_drop.
    2:{ rewrite length_app, length_take, length_app, length_drop. lia. }
    rewrite !take_app, !drop_app, !take_take, !drop_drop, !length_take.
    rewrite !Nat.min_l by lia.
    replace (off - S off)%nat with 0%nat by lia. replace (S off - S off)%nat with 0%nat by lia.
    rewrite take_0, app_nil_r. rewrite (drop_ge (take (S off) l)) by (rewrite length_take; lia).
    simpl. rewrite drop_0. do 4 f_equal. lia.
Qed.

Lemma state_after_S m k :
  state_after m (S k) = compress (state_after m k) (take 64 (drop (64 * k) m)).
Proof. unfold state_after. by rewrite seq_S, fold_left_app. Qed.

(** Blocks already complete do not depend on what follows. *)
Lemma state_after_app m d k : (64 * k <= length m)%nat -> state_after (m ++ d) k = state_after m k.
Proof.
  induction k as [|k IH]; intros Hk; [done|]. rewrite !state_after_S, IH by lia. f_equal.
  rewrite drop_app_le by lia. rewrite take_app_le; [done|]. rewrite length_drop. lia.
Qed.

Lemma store_bytes_block ctx off bytes :
  (off + length bytes <= length (sha_block ctx))%nat ->
  length (sha_block (store_bytes ctx off bytes)) = length (sha_block ctx) /\
  take (off + length bytes) (sha_block (store_bytes ctx off bytes)) = take off (sha_block ctx) ++ bytes.
Proof.
  intros Hl. unfold store_bytes. simpl. rewrite length_inserts, inserts_split by done.
  split; [done|]. rewrite app_assoc. apply take_app_length'. rewrite length_app, length_take. lia.
Qed.

Lemma absorbed_init : absorbed Sha256Init [].
Proof. by split. Qed.

(** The buffer prefix: either all of [data] is buffered, or the blocks of
    [m ++ data] up to the index are processed and the buffer is empty. *)
Lemma fill_buffer_spec ctx m data :
  absorbed ctx m -> data <> [] ->
  let '(ctx', i) := fill_buffer (add_length ctx (length data)) data in
  exists n, i = Z.of_nat n /\ (n <= length data)%nat /\
    sha_length_bits ctx' = wrap64 (Z.of_nat (length (m ++ data)) * 8) /\
    length (sha_block ctx') = 64%nat /\
    ((n = length data /\ absorbed ctx' (m ++ data)) \/
     (((length m + n) mod 64 = 0)%nat /\ sha_buffered_bytes ctx' = 0%nat /\
      sha_state ctx' = state_after (m ++ data) ((length m + n) / 64))).
Proof.
  intros [Hs Hb Hc Hl Ht] Hne. unfold fill_buffer.
  assert (Hbits : sha_length_bits (add_length ctx (length data)) = wrap64 (Z.of_nat (length (m ++ data)) * 8)).
  { simpl. rewrite Hb, length_app. unfold wrap64. rewrite Zplus_mod_idemp_l. f_equal. lia. }
  change (sha_buffered_bytes (add_length ctx (length data))) with (sha_buffered_bytes ctx). rewrite Hc.
  pose proof (Nat.mod_upper_bound (length m) 64 ltac:(done)) as Hm.
  pose proof (Nat.div_mod_eq (length m) 64) as Hq.
  destruct (Nat.eqb_spec (length m mod 64) 0) as [E|E].
  - exists 0%nat. rewrite Nat.add_0_r. split_and!; [done|lia|done|done|]. right. split_and!; [done|by rewrite <- E|].
    simpl. rewrite Hs, state_after_app by lia. done.
  - set (b := (length m mod 64)%nat) in *. set (n := Nat.min (length data) (kSha256BlockBytes - b)).
    set (ctx1 := store_bytes (add_length ctx (length data)) b (take n data)).
    assert (Hn : length (take n data) = n) by (rewrite length_take; unfold n, kSha256BlockBytes; lia).
    assert (Hnd : (n <= length data)%nat) by (unfold n; lia).
    assert (Hcount : sha_buffered_bytes ctx1 = (b + n)%nat) by (unfold ctx1, store_bytes; simpl; lia).
    assert (Hbn : (b + n <= 64)%nat) by (unfold n, kSha256BlockBytes; lia).
    destruct (store_bytes_block (add_length ctx (length data)) b (take n data)) as [Hl1 Ht1].
    { simpl. rewrite Hl, Hn. lia. }
    fold ctx1 in Hl1, Ht1. change (length (sha_block ctx1) = length (sha_block ctx)) in Hl1.
    rewrite Hl in Hl1. rewrite Hn in Ht1.
    assert (Htail : take (b + n) (sha_block ctx1) = drop (64 * (length m / 64)) m ++ take n data) by (by rewrite Ht1, <- Ht).
    exists n. rewrite Hcount. destruct (Nat.eqb_spec (b + n) kSha256BlockBytes) as [F|F]; unfold kSha256BlockBytes in F.
    + split_and!; [done|done|done|done|]. right.
      assert (Hdiv : ((length m + n) = 64 * (length m / 64 + 1))%nat) by lia.
      split_and!; [rewrite Hdiv, Nat.mul_comm; apply Nat.Div0.mod_mul|done|].
      rewrite Hdiv, Nat.mul_comm, Nat.div_mul, Nat.add_1_r, state_after_S by done.
      change (compress (sha_state ctx) (sha_block ctx1) =
              compress (state_after (m ++ data) (length m / 64)) (take 64 (drop (64 * (length m / 64)) (m ++ data)))).
      rewrite Hs, state_after_app by lia. f_equal.
      rewrite F, take_ge in Htail by lia. rewrite Htail, drop_app_le by lia.
      rewrite take_app, length_drop. rewrite (take_ge (drop _ m)) by (rewrite length_drop; lia).
      do 2 f_equal. lia.
    + assert (n = length data) as Hall by (unfold n, kSha256BlockBytes in *; lia).
      split_and!; [done|done|done|done|]. left. split; [done|].
      assert (Hdiv : (length (m ++ data) = (b + n) + (length m / 64) * 64)%nat) by (rewrite length_app; lia).
      assert (Hq2 : (length (m ++ data) / 64 = length m / 64)%nat).
      { rewrite Hdiv, Nat.div_add, Nat.div_small by lia. lia. }
      assert (Hm2 : (length (m ++ data) mod 64 = b + n)%nat).
      { rewrite Hdiv, Nat.Div0.mod_add. apply Nat.mod_small. lia. }
      split; rewrite ?Hq2, ?Hm2; [|done|done|done|].
      * simpl. rewrite Hs, state_after_app by lia. done.
      * rewrite Htail, drop_app_le by lia. by rewrite take_ge by lia.
Qed.

(** The loop processes every whole block that is left. *)
Lemma absorb_blocks_spec m data : Z.of_nat (length data) < 4294967296 - 64 ->
  forall fuel ctx n,
  (n <= length data)%nat -> (length data - n < fuel)%nat -> ((length m + n) mod 64 = 0)%nat ->
  sha_state ctx = state_after (m ++ data) ((length m + n) / 64) ->
  exists ctx' n', absorb_blocks fuel ctx data (Z.of_nat n) = Some (ctx', Z.of_nat n') /\
    (n' <= length data)%nat /\ (length data - n' < 64)%nat /\ ((length m + n') mod 64 = 0)%nat /\
    sha_state ctx' = state_after (m ++ data) ((length m + n') / 64) /\
    sha_length_bits ctx' = sha_length_bits ctx /\ sha_buffered_bytes ctx' = sha_buffered_bytes ctx /\
    sha_block ctx' = sha_block ctx.
Proof.
  intros Hlen. induction fuel as [|fuel IH]; intros ctx n Hn Hf Hm Hs; [lia|]. simpl.
  rewrite wrap32_small by (unfold kSha256BlockBytes; ulia). unfold kSha256BlockBytes.
  change (Z.of_nat 64) with 64. destruct (Z.leb_spec (Z.of_nat n + 64) (Z.of_nat (length data))) as [Hle|Hgt].
  - replace (Z.of_nat n + 64) with (Z.of_nat (n + 64)) by lia. rewrite Nat2Z.id.
    pose proof (Nat.div_mod_eq (length m + n) 64) as Hq.
    assert (Hnext : (length m + (n + 64) = ((length m + n) / 64 + 1) * 64)%nat) by lia.
    destruct (IH (Sha256ProcessBlock ctx (take 64 (drop n data))) (n + 64)%nat) as (ctx' & n' & R).
    { lia. }
    { lia. }
    { rewrite Hnext. apply Nat.Div0.mod_mul. }
    { rewrite Hnext, Nat.div_mul, Nat.add_1_r, state_after_S by done. simpl. rewrite Hs. do 2 f_equal.
      replace (64 * ((length m + n) / 64))%nat with (length m + n)%nat by lia.
      rewrite drop_app, Nat.add_comm, Nat.add_sub, (drop_ge m) by lia. done. }
    exists ctx', n'. simpl in R. exact R.
  - exists ctx, n. split_and!; try done. lia.
Qed.

Lemma absorbed_store ctx m data n :
  (n <= length data)%nat -> (length data - n < 64)%nat -> ((length m + n) mod 64 = 0)%nat ->
  sha_state ctx = state_after (m ++ data) ((length m + n) / 64) ->
  sha_length_bits ctx = wrap64 (Z.of_nat (length (m ++ data)) * 8) ->
  sha_buffered_bytes ctx = 0%nat -> length (sha_block ctx) = 64%nat ->
  absorbed (store_bytes ctx 0 (drop n data)) (m ++ data).
Proof.
  intros Hn Hr Hm Hs Hb Hc Hl. pose proof (Nat.div_mod_eq (length m + n) 64) as Hq.
  assert (Hlen : (length (m ++ data) = (length data - n) + ((length m + n) / 64) * 64)%nat) by (rewrite length_app; lia).
  assert (Hq2 : (length (m ++ data) / 64 = (length m + n) / 64)%nat).
  { rewrite Hlen, Nat.div_add, Nat.div_small by lia. lia. }
  assert (Hm2 : (length (m ++ data) mod 64 = length data - n)%nat).
  { rewrite Hlen, Nat.Div0.mod_add. apply Nat.mod_small. lia. }
  destruct (store_bytes_block ctx 0 (drop n data)) as [Hl1 Ht1]; [rewrite length_drop; lia|].
  rewrite length_drop in Ht1. split; rewrite ?Hq2, ?Hm2.
  - done.
  - done.
  - simpl. by rewrite length_drop.
  - by rewrite Hl1.
  - rewrite Nat.add_0_l, take_0 in Ht1. rewrite Ht1. replace (64 * ((length m + n) / 64))%nat with (length m + n)%nat by lia.
    rewrite drop_app, Nat.add_comm, Nat.add_sub, (drop_ge m) by lia. done.
Qed.

Lemma Sha256Update_absorbs ctx m data :
  absorbed ctx m -> Z.of_nat (length data) < 4294967296 - 64 ->
  exists ctx', Sha256Update ctx (Some data) = Some ctx' /\ absorbed ctx' (m ++ data).
Proof.
  intros Ha Hlen. destruct (decide (data = [])) as [->|Hne]; [exists ctx; by rewrite app_nil_r|].
  assert (Hu : Sha256Update ctx (Some data) =
    let '(ctx, i) := fill_buffer (add_length ctx (length data)) data in
    match absorb_blocks (S (length data)) ctx data i with
    | Some (ctx, i) => Some (store_bytes ctx (sha_buffered_bytes ctx) (drop (Z.to_nat i) data))
    | None => None
    end) by (clear - Hne; by destruct data).
  rewrite Hu. pose proof (fill_buffer_spec ctx m data Ha Hne) as Hfill.
  destruct (fill_buffer (add_length ctx (length data)) data) as [ctx1 i].
  destruct Hfill as (n & -> & Hn & Hb & Hl & [[-> Hall]|(Hm & Hz & Hs)]).
  - assert (Hstop : absorb_blocks (S (length data)) ctx1 data (Z.of_nat (length data)) = Some (ctx1, Z.of_nat (length data))).
    { cbn -[kSha256BlockBytes]. rewrite wrap32_small by (unfold kSha256BlockBytes; ulia).
      by destruct (Z.leb_spec (Z.of_nat (length data) + Z.of_nat kSha256BlockBytes) (Z.of_nat (length data))) as [Hbad|_];
        [unfold kSha256BlockBytes in Hbad; lia|]. }
    rewrite Hstop, Nat2Z.id, drop_all. exists (store_bytes ctx1 (sha_buffered_bytes ctx1) []). split; [done|].
    destruct Hall as [h1 h2 h3 h4 h5]. split; try done. simpl. lia.
  - destruct (absorb_blocks_spec m data Hlen (S (length data)) ctx1 n) as
      (ctx' & n' & -> & Hn' & Hr & Hm' & Hs' & Hb' & Hc' & Hk'); [lia|lia|done|done|].
    rewrite Nat2Z.id. exists (store_bytes ctx' (sha_buffered_bytes ctx') (drop n' data)). split; [done|].
    rewrite Hc', Hz. apply absorbed_store; try done; by rewrite ?Hb', ?Hc', ?Hk'.
Qed.

Lemma updates_absorb pieces : forall ctx m,
  absorbed ctx m -> Forall (fun p => Z.of_nat (length p) < 4294967296 - 64) pieces ->
  exists ctx', updates ctx pieces = Some ctx' /\ absorbed ctx' (m ++ concat pieces).
Proof.
  induction pieces as [|p pieces IH]; intros ctx m Ha Hp; [exists ctx; by rewrite app_nil_r|].
  apply Forall_cons in Hp as [Hp Hps].
  destruct (Sha256Update_absorbs ctx m p Ha Hp) as (c & Hu & Hc).
  destruct (IH c (m ++ p) Hc Hps) as (c' & Hu' & Hc'). exists c'. unfold updates in *. cbn [fold_left]. rewrite Hu.
  split; [done|]. cbn [concat]. by rewrite app_assoc.
Qed.

(** ** Padding *)

Lemma length_be_bytes n v : length (be_bytes n v) = n.
Proof. unfold be_bytes. by rewrite length_map, length_seq. Qed.

Lemma state_after_last m k :
  length m = (64 * S k)%nat -> state_after m (length m / 64) = compress (state_after m k) (drop (64 * k) m).
Proof.
  intros Hl. rewrite Hl, Nat.mul_comm, Nat.div_mul, state_after_S by done. f_equal.
  rewrite take_ge; [done|]. rewrite length_drop. lia.
Qed.

(** A context whose buffer holds the last bytes of [m] and whose state covers
    the rest. *)
Record holds (ctx : Sha256Ctx) (m : list Z) (k : nat) : Prop := {
  hold_state : sha_state ctx = state_after m k;
  hold_count : (64 * k + sha_buffered_bytes ctx = length m)%nat;
  hold_block : length (sha_block ctx) = 64%nat;
  hold_tail : take (sha_buffered_bytes ctx) (sha_block ctx) = drop (64 * k) m;
}.

Lemma holds_store ctx m k bytes :
  holds ctx m k -> (sha_buffered_bytes ctx + length bytes <= 64)%nat ->
  holds (store_bytes ctx (sha_buffered_bytes ctx) bytes) (m ++ bytes) k.
Proof.
  intros [Hs Hc Hb Ht] Hl.
  destruct (store_bytes_block ctx (sha_buffered_bytes ctx) bytes) as [Hl1 Ht1]; [lia|].
  split; [|simpl; rewrite length_app; lia|by rewrite Hl1|].
  - simpl. rewrite state_after_app by lia. done.
  - change (sha_buffered_bytes (store_bytes ctx (sha_buffered_bytes ctx) bytes))
      with (sha_buffered_bytes ctx + length bytes)%nat.
    rewrite Ht1, Ht, drop_app_le by lia. done.
Qed.

Lemma holds_process ctx m k :
  holds ctx m k -> sha_buffered_bytes ctx = 64%nat ->
  holds (set_buffered (Sha256ProcessBlock ctx (sha_block ctx)) 0) m (S k).
Proof.
  intros [Hs Hc Hb Ht] H64. rewrite H64, take_ge in Ht by lia. split; simpl; [|lia|done|].
  - rewrite state_after_S, Hs. f_equal. rewrite take_ge; [done|]. rewrite length_drop. lia.
  - rewrite drop_ge by lia. done.
Qed.

(** The zeros of the padding, whichever side of the block boundary the
    terminator falls on. *)
Lemma padding_zeros r : (r < 64)%nat ->
  ((64 - (r + 9) mod 64) mod 64 = if Nat.ltb 56 (r + 1) then (64 - (r + 1)) + 56 else 56 - (r + 1))%nat.
Proof.
  intros Hr. apply Nat.eqb_eq.
  apply (fun H => proj1 (forallb_forall (fun r => Nat.eqb ((64 - (r + 9) mod 64) mod 64)
    (if Nat.ltb 56 (r + 1) then (64 - (r + 1)) + 56 else 56 - (r + 1))) (seq 0 64)) H r); [done|].
  apply in_seq. lia.
Qed.

(** The last block: 56 bytes in the buffer and the eight length bytes. *)
Lemma finish_block c p j m :
  holds c p j -> sha_buffered_bytes c = 56%nat ->
  sha_length_bits c = wrap64 (Z.of_nat (length m) * 8) ->
  p ++ be_bytes 8 (wrap64 (Z.of_nat (length m) * 8)) = padded m ->
  let c' := store_bytes c (sha_buffered_bytes c) (be_bytes 8 (sha_length_bits c)) in
  flat_map (be_bytes 4) (sha_state (Sha256ProcessBlock c' (sha_block c'))) = sha256_of m.
Proof.
  intros Hh H56 Hbits Hp. cbv zeta. rewrite Hbits. unfold sha256_of. rewrite <- Hp.
  set (bytes := be_bytes 8 _) in *. assert (Hlen : length bytes = 8%nat) by apply length_be_bytes. clearbody bytes.
  pose proof (holds_store c p j bytes Hh ltac:(lia)) as Hh'.
  set (c1 := store_bytes c _ bytes) in *.
  assert (N1 : sha_buffered_bytes c1 = 64%nat) by (unfold c1, store_bytes; simpl; lia). clearbody c1.
  destruct Hh' as [s1 s2 s3 s4]. rewrite N1 in s2, s4. rewrite take_ge in s4 by lia.
  rewrite (state_after_last _ j) by (rewrite <- s2; lia).
  change (sha_state (Sha256ProcessBlock c1 (sha_block c1))) with (compress (sha_state c1) (sha_block c1)).
  by rewrite s1, s4.
Qed.

Lemma Sha256Final_pads ctx m : absorbed ctx m -> Sha256Final ctx = sha256_of m.
Proof.
  intros [Hs Hb Hc Hl Ht]. set (k := (length m / 64)%nat) in *.
  pose proof (Nat.mod_upper_bound (length m) 64 ltac:(done)) as Hm.
  pose proof (Nat.div_mod_eq (length m) 64) as Hq. fold k in Hq.
  assert (H0 : holds ctx m k) by (split; [done|lia|done|by rewrite Hc]).
  unfold Sha256Final. set (c1 := store_bytes ctx _ [128]).
  assert (H1 : holds c1 (m ++ [128]) k) by (apply holds_store; [done|simpl; lia]).
  assert (N1 : sha_buffered_bytes c1 = (length m mod 64 + 1)%nat) by (unfold c1; simpl; lia).
  assert (L1 : sha_length_bits c1 = wrap64 (Z.of_nat (length m) * 8)) by done.
  clearbody c1. unfold kSha256BlockBytes. rewrite N1.
  pose proof (padding_zeros (length m mod 64) Hm) as Hz.
  rewrite Nat.Div0.add_mod_idemp_l in Hz. change (64 - 8)%nat with 56%nat.
  destruct (Nat.ltb 56 (length m mod 64 + 1)) eqn:Hside.
  - apply Nat.ltb_lt in Hside.
    set (c2 := store_bytes c1 _ _).
    assert (H2 : holds c2 ((m ++ [128]) ++ replicate (64 - (length m mod 64 + 1)) 0) k)
      by (unfold c2; rewrite <- N1; apply holds_store; [done|rewrite length_replicate; lia]).
    assert (N2 : sha_buffered_bytes c2 = 64%nat) by (unfold c2; simpl; rewrite length_replicate; lia).
    assert (L2 : sha_length_bits c2 = wrap64 (Z.of_nat (length m) * 8)) by done. clearbody c2.
    pose proof (holds_process c2 _ k H2 N2) as H3.
    set (c3 := set_buffered _ 0) in *.
    assert (N3 : sha_buffered_bytes c3 = 0%nat) by done.
    assert (L3 : sha_length_bits c3 = wrap64 (Z.of_nat (length m) * 8)) by done. clearbody c3.
    pose proof (holds_store c3 _ _ (replicate (56 - sha_buffered_bytes c3) 0) H3) as H4.
    rewrite length_replicate in H4. specialize (H4 ltac:(lia)).
    eapply finish_block; [exact H4|simpl; rewrite length_replicate; lia|done|].
    unfold padded. rewrite Hz, replicate_add, N3, Nat.sub_0_r, <- !app_assoc. done.
  - apply Nat.ltb_ge in Hside.
    pose proof (holds_store c1 _ _ (replicate (56 - sha_buffered_bytes c1) 0) H1) as H4.
    rewrite length_replicate in H4. specialize (H4 ltac:(lia)).
    eapply finish_block; [exact H4|simpl; rewrite length_replicate; lia|done|].
    unfold padded. rewrite Hz, N1, <- !app_assoc. done.
Qed.

(** Above 2{^32} - 65 bytes the 32-bit index wraps: at the index 2{^32} - 64
    the loop condition holds again and the index returns to zero. *)
Lemma Sha256Update_wraps (data : list Z) :
  4294967296 - 64 <= Z.of_nat (length data) ->
  let i := 4294967296 - 64 in
  (wrap32 (i + Z.of_nat kSha256BlockBytes) <=? Z.of_nat (length data)) = true /\
  wrap32 (i + Z.of_nat kSha256BlockBytes) = 0.
Proof.
  intros H i. assert (E : wrap32 (i + Z.of_nat kSha256BlockBytes) = 0) by done. rewrite E.
  split; [apply Z.leb_le; lia|done].
Qed.

(** ** The streamed digest is the digest of the message *)

Lemma updates_exact pieces :
  Forall (fun p => Z.of_nat (length p) < 4294967296 - 64) pieces ->
  exists ctx, updates Sha256Init pieces = Some ctx /\ Sha256Final ctx = sha256_of (concat pieces).
Proof.
  intros Hp. destruct (updates_absorb pieces Sha256Init [] absorbed_init Hp) as (ctx & Hu & Ha).
  exists ctx. split; [done|]. by apply Sha256Final_pads.
Qed.

(** However a message is cut into updates, each shorter than 2{^32} - 64
    bytes, every update returns and the final digest is the digest of the
    whole message padded by the standard's rule: buffering across block
    boundaries, the two-block padding case and stale bytes of the buffer
    never show. *)
Theorem sha256_streaming_exact pieces :
  Forall (fun p => Z.of_nat (length p) < 4294967296 - 64) pieces ->
  exists ctx, updates Sha256Init pieces = Some ctx /\ Sha256Final ctx = sha256_of (concat pieces).
Proof. apply updates_exact. Qed.

Lemma Sha256Hash_exact m :
  Z.of_nat (length m) < 4294967296 - 64 -> Sha256Hash (Some m) = Some (sha256_of m).
Proof.
  intros Hm. destruct (Sha256Update_absorbs Sha256Init [] m absorbed_init Hm) as (ctx & Hu & Ha).
  unfold Sha256Hash. rewrite Hu. f_equal. by apply Sha256Final_pads.
Qed.

Lemma length_sha256_of m : length (sha256_of m) = 32%nat.
Proof.
  assert (H : forall k, length (state_after (padded m) k) = 8%nat).
  { destruct k; [done|]. by rewrite state_after_S. }
  unfold sha256_of. specialize (H (length (padded m) / 64)%nat). revert H.
  generalize (state_after (padded m) (length (padded m) / 64)). intros st Hst.
  assert (forall l, length (flat_map (be_bytes 4) l) = (4 * length l)%nat) as Hl.
  { induction l as [|w l IH]; [done|]. cbn [flat_map length]. rewrite length_app, length_be_bytes, IH. lia. }
  by rewrite Hl, Hst.
Qed.

(** The two known-answer tests of [Sha256SelfTest]. *)
Example sha256_kat_abc : Sha256Hash (Some [97; 98; 99]) =
  Some [0xBA; 0x78; 0x16; 0xBF; 0x8F; 0x01; 0xCF; 0xEA; 0x41; 0x41; 0x40; 0xDE; 0x5D; 0xAE; 0x22; 0x23;
        0xB0; 0x03; 0x61; 0xA3; 0x96; 0x17; 0x7A; 0x9C; 0xB4; 0x10; 0xFF; 0x61; 0xF2; 0x00; 0x15; 0xAD].
Proof. vm_compute. reflexivity. Qed.

Example sha256_kat_empty : Sha256Hash None =
  Some [0xE3; 0xB0; 0xC4; 0x42; 0x98; 0xFC; 0x1C; 0x14; 0x9A; 0xFB; 0xF4; 0xC8; 0x99; 0x6F; 0xB9; 0x24;
        0x27; 0xAE; 0x41; 0xE4; 0x64; 0x9B; 0x93; 0x4C; 0xA4; 0x95; 0x99; 0x1B; 0x78; 0x52; 0xB8; 0x55].
Proof. vm_compute. reflexivity. Qed.

Lemma sha256_streaming_exact_witness :
  exists ctx, updates Sha256Init [[97]; []; [98; 99]] = Some ctx /\ Sha256Final ctx = sha256_of [97; 98; 99].
Proof. apply (sha256_streaming_exact [[97]; []; [98; 99]]). repeat constructor; simpl; lia. Defined.
