(* ===== verification/ServiceManifest.v ===== *)
(** * Service manifest

    Model of [kernel/core/service_manifest.h] and
    [kernel/core/service_manifest.cpp]: the canonical little-endian document
    that names the managed services, what each of them asks for and what it
    depends on; its validation against a retained authority snapshot; the
    dependency graph's deterministic start order; the encoder, the hash of the
    encoding and the validator of sealed bytes.

    Arrays are lists of the array's length ([document_shape]); enumerations
    decoded from a byte are the byte; an optional pointer is an [option] and an
    address where the code tests ranges.  [ServiceManifestValidateV1] returns
    [None] for an output it leaves untouched. *)

From S2P Require Import Prelude Bytes Sha256.

Definition kServiceManifestVersion1 : Z := 1.
Definition kServiceManifestV1HeaderBytes : Z := 64.
Definition kServiceManifestV1ServiceBytes : Z := 256.
Definition kServiceManifestV1DependencyBytes : Z := 16.
Definition kServiceManifestMaximumServices : Z := 64.
Definition kServiceManifestMaximumDependenciesPerService : Z := 8.
Definition kServiceManifestMaximumDependencies : Z := 256.
Definition kServiceManifestServiceNameCapacity : Z := 32.
Definition kServiceManifestExecutablePathCapacity : Z := 128.
Definition kServiceManifestMaximumBytes : Z :=
  kServiceManifestV1HeaderBytes + kServiceManifestMaximumServices * kServiceManifestV1ServiceBytes +
  kServiceManifestMaximumDependencies * kServiceManifestV1DependencyBytes.
Definition kServiceManifestV1KnownFlags : Z := 0.
Definition kServiceManifestAuthoritySealed : Z := 1.
Definition kServiceManifestCapabilityMaskV1 : Z := 0x1FFE.
Definition kServiceManifestFrameBudgetMaximum : Z := 8192.
Definition kServiceManifestTickBudgetMaximum : Z := Z.shiftl 1 40.
Definition kServiceManifestSectionObjectMaximum : Z := 4.
Definition kServiceManifestSectionPageMaximum : Z := 2048.
Definition kServiceManifestPositiveTransferRefMaximum : Z := 0x7FFFFFFF.

(** Budgets and limits from [mm/address_space.h], [proc/process.h] and
    [proc/resource_domain.h]. *)
Definition kFrameBudgetSandbox : Z := 8.
Definition kTickBudgetSandbox : Z := 1000.
Definition kSandboxSectionObjectLimit : Z := 2.
Definition kSandboxSectionPageLimitMaximum : Z := 8.
Definition kTrustedSectionObjectLimit : Z := 2.
Definition kTrustedSectionPageLimit : Z := 1024.
Definition kAuthenticatedServiceSectionObjectLimit : Z := 4.
Definition kAuthenticatedServiceSectionPageLimit : Z := 2048.

Definition KindInvalid : Z := 0.
Definition KindNative : Z := 1.
Definition KindWin32 : Z := 2.
Definition KindLinux : Z := 3.
Definition KindBroker : Z := 4.
Definition kServiceManifestKnownKindMask : Z :=
  Z.lor (Z.lor (Z.lor (Z.shiftl 1 KindNative) (Z.shiftl 1 KindWin32)) (Z.shiftl 1 KindLinux)) (Z.shiftl 1 KindBroker).
Definition RestartNever : Z := 0.
Definition RestartAlways : Z := 1.
Definition RestartOnFailure : Z := 2.
Definition ProfileSandbox : Z := 0.
Definition ProfileTrusted : Z := 1.
Definition ProfileAuthenticatedService : Z := 2.
Definition kServiceManifestKnownResourceProfileMask : Z :=
  Z.lor (Z.lor (Z.shiftl 1 ProfileSandbox) (Z.shiftl 1 ProfileTrusted)) (Z.shiftl 1 ProfileAuthenticatedService).

Record ServiceManifestDependencyV1 := MkDependency {
  owner_service_identity : Z;
  dependency_service_identity : Z;
}.
Definition zero_dependency : ServiceManifestDependencyV1 := MkDependency 0 0.

Record ServiceManifestServiceV1 := MkService {
  svc_identity : Z;
  executable_transfer_ref : Z;
  immutable_policy_selector : Z;
  executable_content_hash : list Z;
  requested_capability_ceiling : Z;
  requested_frame_budget_pages : Z;
  requested_tick_budget : Z;
  requested_section_objects : Z;
  requested_section_pages : Z;
  dependency_first : Z;
  svc_dependency_count : Z;
  name_length : Z;
  executable_path_length : Z;
  svc_kind : Z;
  restart_policy : Z;
  autostart : Z;
  resource_profile : Z;
  svc_flags : Z;
  svc_reserved : Z;
  svc_name : list Z;
  executable_path : list Z;
}.
Definition zero_hash : list Z := replicate 32 0.
Definition zero_service : ServiceManifestServiceV1 :=
  MkService 0 0 0 zero_hash 0 0 0 0 0 0 0 0 0 0 0 0 0 0 0 (replicate 32 0) (replicate 128 0).

Record ServiceManifestDocumentV1 := MkDocument {
  manifest_identity : Z;
  signer_identity : Z;
  profile_identity : Z;
  service_count : Z;
  dependency_count : Z;
  doc_flags : Z;
  doc_reserved : Z;
  services : list ServiceManifestServiceV1;
  dependencies : list ServiceManifestDependencyV1;
}.
Definition zero_document : ServiceManifestDocumentV1 :=
  MkDocument 0 0 0 0 0 0 0 (replicate 64 zero_service) (replicate 256 zero_dependency).

Record ServiceManifestAuthoritySnapshotV1 := MkAuthority {
  authority_identity : Z;
  auth_manifest_identity : Z;
  auth_signer_identity : Z;
  auth_profile_identity : Z;
  sealed_object_hash : list Z;
  sealed_object_extent : Z;
  allowed_capabilities : Z;
  allowed_immutable_policies : Z;
  maximum_frame_budget_pages : Z;
  maximum_tick_budget : Z;
  allowed_service_kinds : Z;
  allowed_resource_profiles : Z;
  maximum_section_objects : Z;
  maximum_section_pages : Z;
  maximum_services : Z;
  maximum_dependencies : Z;
  auth_flags : Z;
  auth_reserved : Z;
}.

Record ServiceManifestPlanV1 := MkPlan {
  plan_document : ServiceManifestDocumentV1;
  plan_authority_identity : Z;
  plan_sealed_object_hash : list Z;
  plan_sealed_object_extent : Z;
  topological_count : Z;
  plan_reserved16 : Z;
  plan_reserved32 : Z;
  topological_identities : list Z;
}.
Definition zero_plan : ServiceManifestPlanV1 := MkPlan zero_document 0 zero_hash 0 0 0 0 (replicate 64 0).

Inductive ServiceManifestError :=
| ManifestOk | ManifestNullArgument | InvalidPointerRange | AliasedOutput | DefinitionAliasesOutput
| SnapshotFromWire | AuthorityMalformed | HeaderTruncated | ManifestTooLarge | OutputTooSmall
| SizeOverflow | ManifestSizeMismatch | ManifestUnsupportedVersion | HeaderSizeMismatch | RecordSizeMismatch
| InvalidOffsets | UnknownFlags | ReservedNonZero | InvalidManifestIdentity | SignerMismatch
| ProfileMismatch | ObjectExtentMismatch | ObjectHashMismatch | NoServices | TooManyServices
| TooManyDependencies | ServiceCountDenied | DependencyCountDenied | InvalidServiceIdentity
| DuplicateServiceIdentity | InvalidServiceName | DuplicateServiceName | InvalidExecutablePath
| InvalidTransferReference | MissingExecutableHash | InvalidImmutablePolicy | ImmutablePolicyDenied
| InvalidServiceKind | ServiceKindDenied | InvalidRestartPolicy | InvalidAutostart | InvalidCapabilities
| CapabilityDenied | InvalidResourceProfile | ResourceProfileDenied | InvalidResourceCeiling
| ResourceCeilingDenied | InvalidFrameBudget | FrameBudgetDenied | InvalidTickBudget | TickBudgetDenied
| InvalidDependencyRange | InvalidDependency | MissingDependency | DuplicateDependency | DependencyCycle
| NonCanonicalUnusedStorage | DuplicateTransferReference.
#[export] Instance ServiceManifestError_eq_dec : EqDecision ServiceManifestError.
Proof. solve_decision. Defined.

Definition ServiceManifestEncodedSizeV1 (sc dc : Z) : Z :=
  if (kServiceManifestMaximumServices <? sc) || (kServiceManifestMaximumDependencies <? dc) then 0
  else kServiceManifestV1HeaderBytes + sc * kServiceManifestV1ServiceBytes + dc * kServiceManifestV1DependencyBytes.

(** ** Field checks *)

Definition kIdentityReservedScope : Z := u64_max.

Definition IdentityIsValid (identity : Z) : bool :=
  negb (identity =? 0) && negb (identity =? kIdentityReservedScope).

(** The accumulating comparisons of [AllZero], [HashIsZero] and [HashEquals]. *)
Definition AllZero (bytes : list Z) : bool := fold_left (fun any b => Z.lor any b) bytes 0 =? 0.

Definition HashIsZero (hash : list Z) : bool := AllZero (take 32 hash).

Definition HashEquals (left right : list Z) : bool :=
  fold_left (fun difference i => Z.lor difference (Z.lxor (byte_at left i) (byte_at right i))) (seq 0 32) 0 =? 0.

Definition lowercase (v : Z) : bool := (97 <=? v) && (v <=? 122).
Definition digit (v : Z) : bool := (48 <=? v) && (v <=? 57).

Definition NameCharacterIsCanonical (value : Z) (first : bool) : bool :=
  if first then lowercase value
  else lowercase value || digit value || (value =? 45) || (value =? 95) || (value =? 46).

Definition NameIsCanonical (service : ServiceManifestServiceV1) : bool :=
  if (name_length service =? 0) || (kServiceManifestServiceNameCapacity <? name_length service) then false
  else
    forallb (fun i => NameCharacterIsCanonical (byte_at (svc_name service) i) (Nat.eqb i 0))
      (seq 0 (Z.to_nat (name_length service))) &&
    AllZero (take (32 - Z.to_nat (name_length service)) (drop (Z.to_nat (name_length service)) (svc_name service))).

Definition PathCharacterIsCanonical (value : Z) : bool :=
  lowercase value || digit value || (value =? 45) || (value =? 95) || (value =? 46) || (value =? 47).

(** The component scan: [index] from 1 to [length], inclusive. *)
Fixpoint path_scan (todo : nat) (path : list Z) (len component_start index : nat) : bool :=
  match todo with
  | O => true
  | S todo =>
      if Nat.ltb index len && negb (PathCharacterIsCanonical (byte_at path index)) then false
      else if negb (Nat.eqb index len) && negb (byte_at path index =? 47)
      then path_scan todo path len component_start (S index)
      else
        let component_length := (index - component_start)%nat in
        if Nat.eqb component_length 0
           || (Nat.eqb component_length 1 && (byte_at path component_start =? 46))
           || (Nat.eqb component_length 2 && (byte_at path component_start =? 46)
               && (byte_at path (component_start + 1) =? 46))
        then false
        else path_scan todo path len (S index) (S index)
  end.

Definition PathIsCanonical (service : ServiceManifestServiceV1) : bool :=
  let len := Z.to_nat (executable_path_length service) in
  let path := executable_path service in
  if (executable_path_length service <? 2)
     || (kServiceManifestExecutablePathCapacity <? executable_path_length service)
     || negb (byte_at path 0 =? 47) || (byte_at path (len - 1) =? 47)
  then false
  else path_scan len path len 1 1 && AllZero (take (128 - len) (drop len path)).

Definition NamesEqual (left right : ServiceManifestServiceV1) : bool :=
  if negb (name_length left =? name_length right) then false
  else fold_left (fun difference i => Z.lor difference (Z.lxor (byte_at (svc_name left) i) (byte_at (svc_name right) i)))
         (seq 0 (Z.to_nat (name_length left))) 0 =? 0.

Definition KindIsValid (kind : Z) : bool :=
  (kind =? KindNative) || (kind =? KindWin32) || (kind =? KindLinux) || (kind =? KindBroker).
Definition RestartIsValid (policy : Z) : bool :=
  (policy =? RestartNever) || (policy =? RestartAlways) || (policy =? RestartOnFailure).
Definition ResourceProfileIsValid (profile : Z) : bool :=
  (profile =? ProfileSandbox) || (profile =? ProfileTrusted) || (profile =? ProfileAuthenticatedService).

Definition KindMask (kind : Z) : Z := if KindIsValid kind then Z.shiftl 1 kind else 0.
Definition ResourceProfileMask (profile : Z) : Z := if ResourceProfileIsValid profile then Z.shiftl 1 profile else 0.

Definition ResourceObjectMaximum (profile : Z) : Z :=
  if profile =? ProfileSandbox then kSandboxSectionObjectLimit
  else if profile =? ProfileTrusted then kTrustedSectionObjectLimit
  else if profile =? ProfileAuthenticatedService then kAuthenticatedServiceSectionObjectLimit else 0.
Definition ResourcePageMaximum (profile : Z) : Z :=
  if profile =? ProfileSandbox then kSandboxSectionPageLimitMaximum
  else if profile =? ProfileTrusted then kTrustedSectionPageLimit
  else if profile =? ProfileAuthenticatedService then kAuthenticatedServiceSectionPageLimit else 0.
Definition FrameMaximum (profile : Z) : Z :=
  if profile =? ProfileSandbox then kFrameBudgetSandbox else kServiceManifestFrameBudgetMaximum.
Definition TickMaximum (profile : Z) : Z :=
  if profile =? ProfileSandbox then kTickBudgetSandbox else kServiceManifestTickBudgetMaximum.

Definition ServiceIsZero (s : ServiceManifestServiceV1) : bool :=
  (svc_identity s =? 0) && (executable_transfer_ref s =? 0) && (immutable_policy_selector s =? 0) &&
  HashIsZero (executable_content_hash s) && (requested_capability_ceiling s =? 0) &&
  (requested_frame_budget_pages s =? 0) && (requested_tick_budget s =? 0) &&
  (requested_section_objects s =? 0) && (requested_section_pages s =? 0) && (dependency_first s =? 0) &&
  (svc_dependency_count s =? 0) && (name_length s =? 0) && (executable_path_length s =? 0) &&
  (svc_kind s =? KindInvalid) && (restart_policy s =? RestartNever) && (autostart s =? 0) &&
  (resource_profile s =? ProfileSandbox) && (svc_flags s =? 0) && (svc_reserved s =? 0) &&
  AllZero (take 32 (svc_name s)) && AllZero (take 128 (executable_path s)).

(** [authority != nullptr && denied]. *)
Definition denies (authority : option ServiceManifestAuthoritySnapshotV1)
    (denied : ServiceManifestAuthoritySnapshotV1 -> bool) : bool :=
  match authority with Some a => denied a | None => false end.

Definition ValidateService (s : ServiceManifestServiceV1)
    (authority : option ServiceManifestAuthoritySnapshotV1) : ServiceManifestError :=
  if negb (IdentityIsValid (svc_identity s)) then InvalidServiceIdentity
  else if negb (svc_flags s =? kServiceManifestV1KnownFlags) then UnknownFlags
  else if negb (svc_reserved s =? 0) then ReservedNonZero
  else if negb (NameIsCanonical s) then InvalidServiceName
  else if negb (PathIsCanonical s) then InvalidExecutablePath
  else if (executable_transfer_ref s =? 0) || (kServiceManifestPositiveTransferRefMaximum <? executable_transfer_ref s)
  then InvalidTransferReference
  else if HashIsZero (executable_content_hash s) then MissingExecutableHash
  else if (immutable_policy_selector s =? 0) || (64 <=? immutable_policy_selector s) then InvalidImmutablePolicy
  else if denies authority (fun a => Z.land (allowed_immutable_policies a) (Z.shiftl 1 (immutable_policy_selector s)) =? 0)
  then ImmutablePolicyDenied
  else if negb (KindIsValid (svc_kind s)) then InvalidServiceKind
  else if denies authority (fun a => Z.land (allowed_service_kinds a) (KindMask (svc_kind s)) =? 0) then ServiceKindDenied
  else if negb (RestartIsValid (restart_policy s)) then InvalidRestartPolicy
  else if 1 <? autostart s then InvalidAutostart
  else if negb (Z.land (requested_capability_ceiling s) (Z.lnot kServiceManifestCapabilityMaskV1) =? 0)
  then InvalidCapabilities
  else if denies authority (fun a => negb (Z.land (requested_capability_ceiling s) (Z.lnot (allowed_capabilities a)) =? 0))
  then CapabilityDenied
  else if negb (ResourceProfileIsValid (resource_profile s)) then InvalidResourceProfile
  else if denies authority (fun a => Z.land (allowed_resource_profiles a) (ResourceProfileMask (resource_profile s)) =? 0)
  then ResourceProfileDenied
  else if (requested_section_objects s =? 0) || (requested_section_pages s =? 0)
          || (ResourceObjectMaximum (resource_profile s) <? requested_section_objects s)
          || (ResourcePageMaximum (resource_profile s) <? requested_section_pages s)
  then InvalidResourceCeiling
  else if denies authority (fun a => (maximum_section_objects a <? requested_section_objects s)
                                     || (maximum_section_pages a <? requested_section_pages s))
  then ResourceCeilingDenied
  else if (requested_frame_budget_pages s =? 0) || (FrameMaximum (resource_profile s) <? requested_frame_budget_pages s)
  then InvalidFrameBudget
  else if denies authority (fun a => maximum_frame_budget_pages a <? requested_frame_budget_pages s) then FrameBudgetDenied
  else if (requested_tick_budget s =? 0) || (TickMaximum (resource_profile s) <? requested_tick_budget s)
  then InvalidTickBudget
  else if denies authority (fun a => maximum_tick_budget a <? requested_tick_budget s) then TickBudgetDenied
  else if kServiceManifestMaximumDependenciesPerService <? svc_dependency_count s then InvalidDependencyRange
  else ManifestOk.

(** ** Lookup by identity *)

(** The binary search shared by [FindService], [FindDocumentIndex] and
    [FindBrokerIndex]: the first index in [low, high) whose key is not below
    [identity]. *)
Fixpoint lower_bound (fuel : nat) (key : nat -> Z) (identity : Z) (low high : nat) : nat :=
  match fuel with
  | O => low
  | S fuel =>
      if Nat.ltb low high
      then
        let middle := (low + (high - low) / 2)%nat in
        if key middle <? identity then lower_bound fuel key identity (S middle) high
        else lower_bound fuel key identity low middle
      else low
  end.

Definition service_at (d : ServiceManifestDocumentV1) (i : nat) : ServiceManifestServiceV1 :=
  nth i (services d) zero_service.
Definition dependency_at (d : ServiceManifestDocumentV1) (i : nat) : ServiceManifestDependencyV1 :=
  nth i (dependencies d) zero_dependency.
Definition identity_at (d : ServiceManifestDocumentV1) (i : nat) : Z := svc_identity (service_at d i).
Definition services_used (d : ServiceManifestDocumentV1) : nat := Z.to_nat (service_count d).
Definition dependencies_used (d : ServiceManifestDocumentV1) : nat := Z.to_nat (dependency_count d).

Definition FindService (d : ServiceManifestDocumentV1) (identity : Z) : Z :=
  let low := lower_bound (S (services_used d)) (identity_at d) identity 0 (services_used d) in
  if Nat.ltb low (services_used d) && (identity_at d low =? identity) then Z.of_nat low
  else kServiceManifestMaximumServices.

(** ** The dependency graph *)

(** The edges of row [i]: [dependency_first] up to, not including,
    [dependency_first + dependency_count]. *)
Definition edges_of (d : ServiceManifestDocumentV1) (i : nat) : list ServiceManifestDependencyV1 :=
  map (dependency_at d)
    (seq (Z.to_nat (dependency_first (service_at d i))) (Z.to_nat (svc_dependency_count (service_at d i)))).

Definition targets (d : ServiceManifestDocumentV1) (i : nat) : list Z :=
  map dependency_service_identity (edges_of d i).

(** One dependent after [resolved] is emitted. *)
Definition settle_dependent (d : ServiceManifestDocumentV1) (emitted : list bool) (resolved : Z)
    (dependent : nat) (degree : Z) : Z :=
  if Nat.leb (services_used d) dependent || nth dependent emitted false || (degree =? 0) then degree
  else if existsb (fun t => t =? resolved) (targets d dependent) then wrap16 (degree - 1) else degree.

Fixpoint graph_loop (todo : nat) (d : ServiceManifestDocumentV1) (indegree : list Z) (emitted : list bool)
    (out : list Z) : ServiceManifestError * list Z :=
  match todo with
  | O => (ManifestOk, out)
  | S todo =>
      match find (fun c => negb (nth c emitted false) && (nth c indegree 0 =? 0)) (seq 0 (services_used d)) with
      | None => (DependencyCycle, out)
      | Some selected =>
          let emitted := <[selected := true]> emitted in
          let resolved := identity_at d selected in
          graph_loop todo d (imap (settle_dependent d emitted resolved) indegree) emitted (out ++ [resolved])
      end
  end.

Definition initial_indegree (d : ServiceManifestDocumentV1) : list Z :=
  map (fun i => if Nat.ltb i (services_used d) then svc_dependency_count (service_at d i) else 0) (seq 0 64).

Definition ValidateGraph (d : ServiceManifestDocumentV1) : ServiceManifestError * list Z :=
  graph_loop (services_used d) d (initial_indegree d) (replicate 64 false) [].

(** ** Documents *)

(** The edges of one row: owner, identity, strictly increasing targets. *)
Fixpoint check_edges (identity : Z) (edges : list ServiceManifestDependencyV1) (previous : Z) : ServiceManifestError :=
  match edges with
  | [] => ManifestOk
  | edge :: edges =>
      let target := dependency_service_identity edge in
      if negb (owner_service_identity edge =? identity) || negb (IdentityIsValid target) || (target =? identity)
      then InvalidDependency
      else if target <=? previous then (if target =? previous then DuplicateDependency else InvalidDependency)
      else check_edges identity edges target
  end.

(** The rows before [index]: unique names and unique transfer references. *)
Fixpoint check_previous (previous : list ServiceManifestServiceV1) (s : ServiceManifestServiceV1) : ServiceManifestError :=
  match previous with
  | [] => ManifestOk
  | p :: previous =>
      if NamesEqual p s then DuplicateServiceName
      else if executable_transfer_ref p =? executable_transfer_ref s then DuplicateTransferReference
      else check_previous previous s
  end.

(** The row loop, with the dependency cursor: the error, or the final cursor. *)
Fixpoint check_rows (todo : nat) (d : ServiceManifestDocumentV1)
    (authority : option ServiceManifestAuthoritySnapshotV1) (index : nat) (cursor : Z) : ServiceManifestError + Z :=
  match todo with
  | O => inr cursor
  | S todo =>
      let s := service_at d index in
      match ValidateService s authority with
      | ManifestOk =>
          let before := svc_identity (service_at d (index - 1)) in
          if negb (Nat.eqb index 0) && (svc_identity s <=? before)
          then inl (if before =? svc_identity s then DuplicateServiceIdentity else InvalidServiceIdentity)
          else
            match check_previous (take index (services d)) s with
            | ManifestOk =>
                if negb (dependency_first s =? cursor) || (wrap32 (dependency_count d - cursor) <? svc_dependency_count s)
                then inl InvalidDependencyRange
                else
                  match check_edges (svc_identity s)
                          (map (dependency_at d) (seq (Z.to_nat cursor) (Z.to_nat (svc_dependency_count s)))) 0 with
                  | ManifestOk => check_rows todo d authority (S index) (cursor + svc_dependency_count s)
                  | e => inl e
                  end
            | e => inl e
            end
      | e => inl e
      end
  end.

Definition ValidateDocumentInternal (d : ServiceManifestDocumentV1)
    (authority : option ServiceManifestAuthoritySnapshotV1) : ServiceManifestError * list Z :=
  if negb (IdentityIsValid (manifest_identity d)) || negb (IdentityIsValid (signer_identity d))
     || negb (IdentityIsValid (profile_identity d))
  then (InvalidManifestIdentity, [])
  else if negb (doc_flags d =? kServiceManifestV1KnownFlags) then (UnknownFlags, [])
  else if negb (doc_reserved d =? 0) then (ReservedNonZero, [])
  else if service_count d =? 0 then (NoServices, [])
  else if kServiceManifestMaximumServices <? service_count d then (TooManyServices, [])
  else if kServiceManifestMaximumDependencies <? dependency_count d then (TooManyDependencies, [])
  else if denies authority (fun a => maximum_services a <? service_count d) then (ServiceCountDenied, [])
  else if denies authority (fun a => maximum_dependencies a <? dependency_count d) then (DependencyCountDenied, [])
  else
    match check_rows (services_used d) d authority 0 0 with
    | inl e => (e, [])
    | inr cursor =>
        if negb (cursor =? dependency_count d) then (InvalidDependencyRange, [])
        else if existsb (fun i => FindService d (dependency_service_identity (dependency_at d i)) =? kServiceManifestMaximumServices)
                  (seq 0 (dependencies_used d))
        then (MissingDependency, [])
        else if negb (forallb ServiceIsZero (drop (services_used d) (take 64 (services d)))) then (NonCanonicalUnusedStorage, [])
        else if negb (forallb (fun e => (owner_service_identity e =? 0) && (dependency_service_identity e =? 0))
                        (drop (dependencies_used d) (take 256 (dependencies d))))
        then (NonCanonicalUnusedStorage, [])
        else ValidateGraph d
    end.

Definition ServiceManifestAuthoritySnapshotIsCanonicalV1 (a : ServiceManifestAuthoritySnapshotV1) : bool :=
  IdentityIsValid (authority_identity a) && IdentityIsValid (auth_manifest_identity a) &&
  IdentityIsValid (auth_signer_identity a) && IdentityIsValid (auth_profile_identity a) &&
  negb (HashIsZero (sealed_object_hash a)) &&
  (kServiceManifestV1HeaderBytes + kServiceManifestV1ServiceBytes <=? sealed_object_extent a) &&
  (sealed_object_extent a <=? kServiceManifestMaximumBytes) &&
  (Z.land (allowed_capabilities a) (Z.lnot kServiceManifestCapabilityMaskV1) =? 0) &&
  negb (allowed_immutable_policies a =? 0) && (Z.land (allowed_immutable_policies a) 1 =? 0) &&
  negb (maximum_frame_budget_pages a =? 0) && (maximum_frame_budget_pages a <=? kServiceManifestFrameBudgetMaximum) &&
  negb (maximum_tick_budget a =? 0) && (maximum_tick_budget a <=? kServiceManifestTickBudgetMaximum) &&
  negb (allowed_service_kinds a =? 0) &&
  (Z.land (allowed_service_kinds a) (Z.lnot kServiceManifestKnownKindMask) =? 0) &&
  negb (allowed_resource_profiles a =? 0) &&
  (Z.land (allowed_resource_profiles a) (Z.lnot kServiceManifestKnownResourceProfileMask) =? 0) &&
  negb (maximum_section_objects a =? 0) && (maximum_section_objects a <=? kServiceManifestSectionObjectMaximum) &&
  negb (maximum_section_pages a =? 0) && (maximum_section_pages a <=? kServiceManifestSectionPageMaximum) &&
  negb (maximum_services a =? 0) && (maximum_services a <=? kServiceManifestMaximumServices) &&
  (maximum_dependencies a <=? kServiceManifestMaximumDependencies) &&
  (auth_flags a =? kServiceManifestAuthoritySealed) && (auth_reserved a =? 0).

Definition ServiceManifestDocumentValidateV1 (d : ServiceManifestDocumentV1) : ServiceManifestError :=
  fst (ValidateDocumentInternal d None).

Definition ServiceManifestDocumentValidateAgainstAuthorityV1 (d : ServiceManifestDocumentV1)
    (a : ServiceManifestAuthoritySnapshotV1) : ServiceManifestError :=
  if negb (ServiceManifestAuthoritySnapshotIsCanonicalV1 a) then AuthorityMalformed
  else if negb (IdentityIsValid (manifest_identity d)) || negb (manifest_identity d =? auth_manifest_identity a)
  then InvalidManifestIdentity
  else if negb (signer_identity d =? auth_signer_identity a) then SignerMismatch
  else if negb (profile_identity d =? auth_profile_identity a) then ProfileMismatch
  else fst (ValidateDocumentInternal d (Some a)).

(** ** Encoding *)

Definition kHeaderTotalSizeOffset : nat := 0.
Definition kHeaderVersionOffset : nat := 4.
Definition kHeaderBytesOffset : nat := 6.
Definition kHeaderServiceBytesOffset : nat := 8.
Definition kHeaderDependencyBytesOffset : nat := 10.
Definition kHeaderServiceCountOffset : nat := 12.
Definition kHeaderDependencyCountOffset : nat := 14.
Definition kHeaderFlagsOffset : nat := 16.
Definition kHeaderReserved32Offset : nat := 20.
Definition kHeaderManifestIdentityOffset : nat := 24.
Definition kHeaderSignerIdentityOffset : nat := 32.
Definition kHeaderProfileIdentityOffset : nat := 40.
Definition kHeaderServicesOffset : nat := 48.
Definition kHeaderDependenciesOffset : nat := 52.
Definition kHeaderReserved64Offset : nat := 56.

Definition kServiceIdentityOffset : nat := 0.
Definition kServiceTransferRefOffset : nat := 8.
Definition kServicePolicySelectorOffset : nat := 12.
Definition kServiceContentHashOffset : nat := 16.
Definition kServiceCapabilitiesOffset : nat := 48.
Definition kServiceFrameBudgetOffset : nat := 56.
Definition kServiceTickBudgetOffset : nat := 64.
Definition kServiceSectionObjectsOffset : nat := 72.
Definition kServiceSectionPagesOffset : nat := 76.
Definition kServiceDependencyFirstOffset : nat := 80.
Definition kServiceDependencyCountOffset : nat := 82.
Definition kServiceNameLengthOffset : nat := 84.
Definition kServicePathLengthOffset : nat := 85.
Definition kServiceKindOffset : nat := 86.
Definition kServiceRestartOffset : nat := 87.
Definition kServiceAutostartOffset : nat := 88.
Definition kServiceResourceProfileOffset : nat := 89.
Definition kServiceFlagsOffset : nat := 90.
Definition kServiceReservedOffset : nat := 92.
Definition kServiceNameOffset : nat := 96.
Definition kServicePathOffset : nat := 128.

Definition kDependencyOwnerOffset : nat := 0.
Definition kDependencyTargetOffset : nat := 8.

Definition CopyBytes (destination : list Z) (off : nat) (source : list Z) (byte_count : nat) : list Z :=
  list_inserts off (take byte_count source) destination.

Definition EncodedDependenciesOffset (d : ServiceManifestDocumentV1) : Z :=
  kServiceManifestV1HeaderBytes + service_count d * kServiceManifestV1ServiceBytes.

(** The writers take the buffer and the offset of the record in it. *)
Definition EncodeHeader (bytes : list Z) (d : ServiceManifestDocumentV1) (encoded_size : Z) : list Z :=
  let bytes := WriteLe32 bytes kHeaderTotalSizeOffset encoded_size in
  let bytes := WriteLe16 bytes kHeaderVersionOffset kServiceManifestVersion1 in
  let bytes := WriteLe16 bytes kHeaderBytesOffset kServiceManifestV1HeaderBytes in
  let bytes := WriteLe16 bytes kHeaderServiceBytesOffset kServiceManifestV1ServiceBytes in
  let bytes := WriteLe16 bytes kHeaderDependencyBytesOffset kServiceManifestV1DependencyBytes in
  let bytes := WriteLe16 bytes kHeaderServiceCountOffset (service_count d) in
  let bytes := WriteLe16 bytes kHeaderDependencyCountOffset (dependency_count d) in
  let bytes := WriteLe32 bytes kHeaderFlagsOffset (doc_flags d) in
  let bytes := WriteLe64 bytes kHeaderManifestIdentityOffset (manifest_identity d) in
  let bytes := WriteLe64 bytes kHeaderSignerIdentityOffset (signer_identity d) in
  let bytes := WriteLe64 bytes kHeaderProfileIdentityOffset (profile_identity d) in
  let bytes := WriteLe32 bytes kHeaderServicesOffset kServiceManifestV1HeaderBytes in
  WriteLe32 bytes kHeaderDependenciesOffset (EncodedDependenciesOffset d).

Definition EncodeService (bytes : list Z) (at_ : nat) (s : ServiceManifestServiceV1) : list Z :=
  let bytes := WriteLe64 bytes (at_ + kServiceIdentityOffset) (svc_identity s) in
  let bytes := WriteLe32 bytes (at_ + kServiceTransferRefOffset) (executable_transfer_ref s) in
  let bytes := WriteLe32 bytes (at_ + kServicePolicySelectorOffset) (immutable_policy_selector s) in
  let bytes := CopyBytes bytes (at_ + kServiceContentHashOffset) (executable_content_hash s) 32 in
  let bytes := WriteLe64 bytes (at_ + kServiceCapabilitiesOffset) (requested_capability_ceiling s) in
  let bytes := WriteLe64 bytes (at_ + kServiceFrameBudgetOffset) (requested_frame_budget_pages s) in
  let bytes := WriteLe64 bytes (at_ + kServiceTickBudgetOffset) (requested_tick_budget s) in
  let bytes := WriteLe32 bytes (at_ + kServiceSectionObjectsOffset) (requested_section_objects s) in
  let bytes := WriteLe32 bytes (at_ + kServiceSectionPagesOffset) (requested_section_pages s) in
  let bytes := WriteLe16 bytes (at_ + kServiceDependencyFirstOffset) (dependency_first s) in
  let bytes := WriteLe16 bytes (at_ + kServiceDependencyCountOffset) (svc_dependency_count s) in
  let bytes := <[(at_ + kServiceNameLengthOffset)%nat := name_length s]> bytes in
  let bytes := <[(at_ + kServicePathLengthOffset)%nat := executable_path_length s]> bytes in
  let bytes := <[(at_ + kServiceKindOffset)%nat := svc_kind s]> bytes in
  let bytes := <[(at_ + kServiceRestartOffset)%nat := restart_policy s]> bytes in
  let bytes := <[(at_ + kServiceAutostartOffset)%nat := autostart s]> bytes in
  let bytes := <[(at_ + kServiceResourceProfileOffset)%nat := resource_profile s]> bytes in
  let bytes := WriteLe16 bytes (at_ + kServiceFlagsOffset) (svc_flags s) in
  let bytes := WriteLe32 bytes (at_ + kServiceReservedOffset) (svc_reserved s) in
  let bytes := CopyBytes bytes (at_ + kServiceNameOffset) (svc_name s) 32 in
  CopyBytes bytes (at_ + kServicePathOffset) (executable_path s) 128.

Definition EncodeDependency (bytes : list Z) (at_ : nat) (e : ServiceManifestDependencyV1) : list Z :=
  let bytes := WriteLe64 bytes (at_ + kDependencyOwnerOffset) (owner_service_identity e) in
  WriteLe64 bytes (at_ + kDependencyTargetOffset) (dependency_service_identity e).

Definition DecodeService (bytes : list Z) (at_ : nat) : ServiceManifestServiceV1 :=
  MkService
    (ReadLe64 bytes (at_ + kServiceIdentityOffset))
    (ReadLe32 bytes (at_ + kServiceTransferRefOffset))
    (ReadLe32 bytes (at_ + kServicePolicySelectorOffset))
    (take 32 (drop (at_ + kServiceContentHashOffset) bytes))
    (ReadLe64 bytes (at_ + kServiceCapabilitiesOffset))
    (ReadLe64 bytes (at_ + kServiceFrameBudgetOffset))
    (ReadLe64 bytes (at_ + kServiceTickBudgetOffset))
    (ReadLe32 bytes (at_ + kServiceSectionObjectsOffset))
    (ReadLe32 bytes (at_ + kServiceSectionPagesOffset))
    (ReadLe16 bytes (at_ + kServiceDependencyFirstOffset))
    (ReadLe16 bytes (at_ + kServiceDependencyCountOffset))
    (byte_at bytes (at_ + kServiceNameLengthOffset))
    (byte_at bytes (at_ + kServicePathLengthOffset))
    (byte_at bytes (at_ + kServiceKindOffset))
    (byte_at bytes (at_ + kServiceRestartOffset))
    (byte_at bytes (at_ + kServiceAutostartOffset))
    (byte_at bytes (at_ + kServiceResourceProfileOffset))
    (ReadLe16 bytes (at_ + kServiceFlagsOffset))
    (ReadLe32 bytes (at_ + kServiceReservedOffset))
    (take 32 (drop (at_ + kServiceNameOffset) bytes))
    (take 128 (drop (at_ + kServicePathOffset) bytes)).

Definition PointerRangeIsValid (pointer byte_count : Z) : bool :=
  if (pointer =? 0) || (byte_count =? 0) then false else byte_count <=? u64_max - pointer.

Definition PointerRangesOverlap (left left_bytes right right_bytes : Z) : bool :=
  (left <? wrap64 (right + right_bytes)) && (right <? wrap64 (left + left_bytes)).

(** [sizeof] of the native structures under the x86-64 ABI. *)
Definition sizeof_Document : Z := 20520.
Definition sizeof_Plan : Z := 21088.
Definition sizeof_Authority : Z := 136.
Definition sizeof_Hash256 : Z := 32.

(** The pieces hashed: the header, each row, each edge, from a scratch row. *)
Definition hash_pieces (d : ServiceManifestDocumentV1) (encoded_size : Z) : list (list Z) :=
  take 64 (EncodeHeader (replicate 256 0) d encoded_size) ::
  map (fun i => EncodeService (replicate 256 0) 0 (service_at d i)) (seq 0 (services_used d)) ++
  map (fun i => take 16 (EncodeDependency (replicate 16 0) 0 (dependency_at d i))) (seq 0 (dependencies_used d)).

(** The error and the output hash; no hash when it is left untouched, and no
    result at all if an update does not return. *)
Definition ServiceManifestDocumentHashV1 (document_addr : Z) (d : ServiceManifestDocumentV1) (hash_out : Z)
    : option (ServiceManifestError * option (list Z)) :=
  if hash_out =? 0 then Some (ManifestNullArgument, None)
  else if negb (PointerRangeIsValid hash_out sizeof_Hash256) then Some (InvalidPointerRange, None)
  else if PointerRangesOverlap hash_out sizeof_Hash256 document_addr sizeof_Document
  then Some (DefinitionAliasesOutput, None)
  else
    match ServiceManifestDocumentValidateV1 d with
    | ManifestOk =>
        let encoded_size := ServiceManifestEncodedSizeV1 (service_count d) (dependency_count d) in
        if encoded_size =? 0 then Some (SizeOverflow, Some zero_hash)
        else
          match updates Sha256Init (hash_pieces d encoded_size) with
          | Some ctx => Some (ManifestOk, Some (Sha256Final ctx))
          | None => None
          end
    | e => Some (e, Some zero_hash)
    end.

Definition encode_services (d : ServiceManifestDocumentV1) (bytes : list Z) : list Z :=
  fold_left (fun bytes i => EncodeService bytes (64 + i * 256) (service_at d i)) (seq 0 (services_used d)) bytes.
Definition encode_dependencies (d : ServiceManifestDocumentV1) (bytes : list Z) : list Z :=
  fold_left (fun bytes i => EncodeDependency bytes (Z.to_nat (EncodedDependenciesOffset d) + i * 16) (dependency_at d i))
    (seq 0 (dependencies_used d)) bytes.

(** The error, the bytes written and the output buffer. *)
Definition ServiceManifestEncodeV1 (output : Buffer) (output_capacity : Z) (document_addr : Z)
    (d : ServiceManifestDocumentV1) : ServiceManifestError * Z * list Z :=
  let bytes := buf_bytes output in
  if buf_addr output =? 0 then (ManifestNullArgument, 0, bytes)
  else
    match ServiceManifestDocumentValidateV1 d with
    | ManifestOk =>
        let encoded_size := ServiceManifestEncodedSizeV1 (service_count d) (dependency_count d) in
        if encoded_size =? 0 then (SizeOverflow, 0, bytes)
        else if output_capacity <? encoded_size then (OutputTooSmall, 0, bytes)
        else if negb (PointerRangeIsValid (buf_addr output) encoded_size) then (InvalidPointerRange, 0, bytes)
        else if PointerRangesOverlap (buf_addr output) encoded_size document_addr sizeof_Document
        then (DefinitionAliasesOutput, 0, bytes)
        else
          let bytes := list_inserts 0 (replicate (Z.to_nat encoded_size) 0) bytes in
          let bytes := EncodeHeader bytes d encoded_size in
          let bytes := encode_services d bytes in
          let bytes := encode_dependencies d bytes in
          (ManifestOk, encoded_size, bytes)
    | e => (e, 0, bytes)
    end.

(** ** Sealed bytes *)

Definition decode_document (bytes : list Z) (sc dc services_offset dependencies_offset : Z)
    (mi si pi flags : Z) : ServiceManifestDocumentV1 :=
  let svc i := if Nat.ltb i (Z.to_nat sc) then DecodeService bytes (Z.to_nat services_offset + i * 256) else zero_service in
  let dep i :=
    if Nat.ltb i (Z.to_nat dc)
    then MkDependency (ReadLe64 bytes (Z.to_nat dependencies_offset + i * 16 + kDependencyOwnerOffset))
                      (ReadLe64 bytes (Z.to_nat dependencies_offset + i * 16 + kDependencyTargetOffset))
    else zero_dependency in
  MkDocument mi si pi sc dc flags 0 (map svc (seq 0 64)) (map dep (seq 0 256)).

(** The body after the pointer tests: the authority is a copy and the plan is
    cleared. *)
Definition validate_sealed (bytes : list Z) (byte_count : Z) (a : ServiceManifestAuthoritySnapshotV1)
    : option (ServiceManifestError * ServiceManifestPlanV1) :=
  if kServiceManifestMaximumBytes <? byte_count then Some (ManifestTooLarge, zero_plan)
  else if byte_count =? 0 then Some (HeaderTruncated, zero_plan)
  else if negb (ServiceManifestAuthoritySnapshotIsCanonicalV1 a) then Some (AuthorityMalformed, zero_plan)
  else if byte_count <? kServiceManifestV1HeaderBytes then Some (HeaderTruncated, zero_plan)
  else if negb (sealed_object_extent a =? byte_count) then Some (ObjectExtentMismatch, zero_plan)
  else
    match Sha256Hash (Some (take (Z.to_nat byte_count) bytes)) with
    | None => None
    | Some computed_hash =>
      if negb (HashEquals computed_hash (sealed_object_hash a)) then Some (ObjectHashMismatch, zero_plan)
      else
        let encoded_size := ReadLe32 bytes kHeaderTotalSizeOffset in
        let sc := ReadLe16 bytes kHeaderServiceCountOffset in
        let dc := ReadLe16 bytes kHeaderDependencyCountOffset in
        let mi := ReadLe64 bytes kHeaderManifestIdentityOffset in
        let si := ReadLe64 bytes kHeaderSignerIdentityOffset in
        let pi := ReadLe64 bytes kHeaderProfileIdentityOffset in
        let services_offset := ReadLe32 bytes kHeaderServicesOffset in
        let dependencies_offset := ReadLe32 bytes kHeaderDependenciesOffset in
        let flags := ReadLe32 bytes kHeaderFlagsOffset in
        let expected_size := ServiceManifestEncodedSizeV1 sc dc in
        if negb (encoded_size =? byte_count) then Some (ManifestSizeMismatch, zero_plan)
        else if negb (ReadLe16 bytes kHeaderVersionOffset =? kServiceManifestVersion1)
        then Some (ManifestUnsupportedVersion, zero_plan)
        else if negb (ReadLe16 bytes kHeaderBytesOffset =? kServiceManifestV1HeaderBytes)
        then Some (HeaderSizeMismatch, zero_plan)
        else if negb (ReadLe16 bytes kHeaderServiceBytesOffset =? kServiceManifestV1ServiceBytes)
                || negb (ReadLe16 bytes kHeaderDependencyBytesOffset =? kServiceManifestV1DependencyBytes)
        then Some (RecordSizeMismatch, zero_plan)
        else if sc =? 0 then Some (NoServices, zero_plan)
        else if kServiceManifestMaximumServices <? sc then Some (TooManyServices, zero_plan)
        else if kServiceManifestMaximumDependencies <? dc then Some (TooManyDependencies, zero_plan)
        else if expected_size =? 0 then Some (SizeOverflow, zero_plan)
        else if negb (expected_size =? encoded_size) then Some (ManifestSizeMismatch, zero_plan)
        else if negb (services_offset =? kServiceManifestV1HeaderBytes)
                || negb (dependencies_offset =? kServiceManifestV1HeaderBytes + sc * kServiceManifestV1ServiceBytes)
        then Some (InvalidOffsets, zero_plan)
        else if negb (flags =? kServiceManifestV1KnownFlags) then Some (UnknownFlags, zero_plan)
        else if negb (ReadLe32 bytes kHeaderReserved32Offset =? 0) || negb (ReadLe64 bytes kHeaderReserved64Offset =? 0)
        then Some (ReservedNonZero, zero_plan)
        else if negb (IdentityIsValid mi) || negb (mi =? auth_manifest_identity a)
        then Some (InvalidManifestIdentity, zero_plan)
        else if negb (si =? auth_signer_identity a) then Some (SignerMismatch, zero_plan)
        else if negb (pi =? auth_profile_identity a) then Some (ProfileMismatch, zero_plan)
        else if maximum_services a <? sc then Some (ServiceCountDenied, zero_plan)
        else if maximum_dependencies a <? dc then Some (DependencyCountDenied, zero_plan)
        else
          let d := decode_document bytes sc dc services_offset dependencies_offset mi si pi flags in
          match ValidateDocumentInternal d (Some a) with
          | (ManifestOk, order) =>
              Some (ManifestOk,
                    MkPlan d (authority_identity a) (sealed_object_hash a) (sealed_object_extent a) sc 0 0
                      (order ++ replicate (64 - length order) 0))
          | (e, _) => Some (e, zero_plan)
          end
    end.

(** [authority_addr] and [plan_out] are addresses, 0 for null. *)
Definition ServiceManifestValidateV1 (bytes : Buffer) (byte_count : Z) (authority_addr : Z)
    (authority : ServiceManifestAuthoritySnapshotV1) (plan_out : Z)
    : option (ServiceManifestError * option ServiceManifestPlanV1) :=
  let has_authority := negb (authority_addr =? 0) in
  let has_bytes := negb (buf_addr bytes =? 0) && negb (byte_count =? 0) in
  if plan_out =? 0 then Some (ManifestNullArgument, None)
  else if negb (PointerRangeIsValid plan_out sizeof_Plan) then Some (InvalidPointerRange, None)
  else if has_authority && negb (PointerRangeIsValid authority_addr sizeof_Authority) then Some (InvalidPointerRange, None)
  else if has_bytes && negb (PointerRangeIsValid (buf_addr bytes) byte_count) then Some (InvalidPointerRange, None)
  else if has_authority && PointerRangesOverlap plan_out sizeof_Plan authority_addr sizeof_Authority
  then Some (AliasedOutput, None)
  else if has_bytes && PointerRangesOverlap plan_out sizeof_Plan (buf_addr bytes) byte_count then Some (AliasedOutput, None)
  else if has_authority && has_bytes && PointerRangesOverlap authority_addr sizeof_Authority (buf_addr bytes) byte_count
  then Some (SnapshotFromWire, None)
  else if (buf_addr bytes =? 0) || negb has_authority then Some (ManifestNullArgument, Some zero_plan)
  else
    match validate_sealed (buf_bytes bytes) byte_count authority with
    | Some (e, plan) => Some (e, Some plan)
    | None => None
    end.
