(* ===== verification/ServiceManifestGraph.v ===== *)
(** * Start order of a service manifest

    What an accepted document guarantees, row by row, and the dependency
    graph.  The emitted order is compared with a reference that repeatedly
    picks the first row all of whose targets are already emitted: it is a
    linear order of all services in which every service follows its
    dependencies, the least one by identity, and a cycle is reported exactly
    when there is no such order. *)

From S2P Require Import Prelude Bytes Sha256 ServiceManifest.

(** ** Widths and array lengths of the native structures *)

Record service_shape (s : ServiceManifestServiceV1) : Prop := {
  ss_identity : is_u64 (svc_identity s);
  ss_ref : is_u32 (executable_transfer_ref s);
  ss_policy : is_u32 (immutable_policy_selector s);
  ss_hash : length (executable_content_hash s) = 32%nat /\ bytes_ok (executable_content_hash s);
  ss_caps : is_u64 (requested_capability_ceiling s);
  ss_frames : is_u64 (requested_frame_budget_pages s);
  ss_ticks : is_u64 (requested_tick_budget s);
  ss_objects : is_u32 (requested_section_objects s);
  ss_pages : is_u32 (requested_section_pages s);
  ss_first : is_u16 (dependency_first s);
  ss_count : is_u16 (svc_dependency_count s);
  ss_name_length : is_u8 (name_length s);
  ss_path_length : is_u8 (executable_path_length s);
  ss_kind : is_u8 (svc_kind s);
  ss_restart : is_u8 (restart_policy s);
  ss_autostart : is_u8 (autostart s);
  ss_profile : is_u8 (resource_profile s);
  ss_flags : is_u16 (svc_flags s);
  ss_reserved : is_u32 (svc_reserved s);
  ss_name : length (svc_name s) = 32%nat /\ bytes_ok (svc_name s);
  ss_path : length (executable_path s) = 128%nat /\ bytes_ok (executable_path s);
}.

Definition dependency_shape (e : ServiceManifestDependencyV1) : Prop :=
  is_u64 (owner_service_identity e) /\ is_u64 (dependency_service_identity e).

Record document_shape (d : ServiceManifestDocumentV1) : Prop := {
  ds_manifest : is_u64 (manifest_identity d);
  ds_signer : is_u64 (signer_identity d);
  ds_profile : is_u64 (profile_identity d);
  ds_services : is_u16 (service_count d);
  ds_dependencies : is_u16 (dependency_count d);
  ds_flags : is_u32 (doc_flags d);
  ds_reserved : is_u64 (doc_reserved d);
  ds_rows : length (services d) = 64%nat /\ Forall service_shape (services d);
  ds_edges : length (dependencies d) = 256%nat /\ Forall dependency_shape (dependencies d);
}.

Lemma zero_service_shape : service_shape zero_service.
Proof.
  assert (forall n, bytes_ok (replicate n 0)) as Hz.
  { intros n. apply Forall_replicate. ulia. }
  split; cbn -[replicate]; try ulia; (split; [done|apply Hz]).
Qed.

Lemma service_at_shape d i : document_shape d -> service_shape (service_at d i).
Proof.
  intros [_ _ _ _ _ _ _ [_ H] _]. unfold service_at. destruct (nth_in_or_default i (services d) zero_service) as [Hin| ->].
  - rewrite Forall_forall in H. apply H. by apply list_elem_of_In.
  - apply zero_service_shape.
Qed.

Lemma dependency_at_shape d i : document_shape d -> dependency_shape (dependency_at d i).
Proof.
  intros [_ _ _ _ _ _ _ _ [_ H]]. unfold dependency_at.
  destruct (nth_in_or_default i (dependencies d) zero_dependency) as [Hin| ->].
  - rewrite Forall_forall in H. apply H. by apply list_elem_of_In.
  - split; simpl; ulia.
Qed.

(** ** What each accepted row satisfies *)

Record row_accepted (d : ServiceManifestDocumentV1) (authority : option ServiceManifestAuthoritySnapshotV1) (i : nat) : Prop := {
  ra_service : ValidateService (service_at d i) authority = ManifestOk;
  ra_sorted : (i <> 0)%nat -> svc_identity (service_at d (i - 1)) < svc_identity (service_at d i);
  ra_unique : check_previous (take i (services d)) (service_at d i) = ManifestOk;
  ra_first : 0 <= dependency_first (service_at d i);
  ra_range : dependency_first (service_at d i) + svc_dependency_count (service_at d i) <= dependency_count d;
  ra_edges : check_edges (svc_identity (service_at d i)) (edges_of d i) 0 = ManifestOk;
}.

(** [peel H] walks a chain of early returns that ended in success. *)
Ltac peel H :=
  lazymatch type of H with
  | (if ?c then _ else _) = _ =>
      let E := fresh "E" in destruct c eqn:E; [discriminate H|peel H]
  | _ => idtac
  end.

(** What a row requests, and that the authority allows it. *)
Record service_within (s : ServiceManifestServiceV1) (a : ServiceManifestAuthoritySnapshotV1) : Prop := {
  sw_policy : Z.testbit (allowed_immutable_policies a) (immutable_policy_selector s) = true;
  sw_kind : Z.testbit (allowed_service_kinds a) (svc_kind s) = true;
  sw_caps : forall b, Z.testbit (requested_capability_ceiling s) b = true -> Z.testbit (allowed_capabilities a) b = true;
  sw_profile : Z.testbit (allowed_resource_profiles a) (resource_profile s) = true;
  sw_objects : requested_section_objects s <= maximum_section_objects a;
  sw_pages : requested_section_pages s <= maximum_section_pages a;
  sw_frames : requested_frame_budget_pages s <= maximum_frame_budget_pages a;
  sw_ticks : requested_tick_budget s <= maximum_tick_budget a;
}.

Lemma land_bit x k : 0 <= k -> negb (Z.land x (Z.shiftl 1 k) =? 0) = Z.testbit x k.
Proof.
  intros Hk. rewrite Z.shiftl_1_l. destruct (Z.testbit x k) eqn:Hb.
  - apply negb_true_iff, Z.eqb_neq. intros H0.
    assert (Z.testbit (Z.land x (2 ^ k)) k = true) as H1 by (by rewrite Z.land_spec, Hb, Z.pow2_bits_true).
    by rewrite H0, Z.bits_0 in H1.
  - apply negb_false_iff, Z.eqb_eq. apply Z.bits_inj'. intros m Hm. rewrite Z.land_spec, Z.bits_0.
    destruct (decide (m = k)) as [->|Hne]; [by rewrite Hb|]. by rewrite Z.pow2_bits_false, andb_false_r by done.
Qed.

Lemma land_lnot_sub x y : Z.land x (Z.lnot y) = 0 -> forall b, Z.testbit x b = true -> Z.testbit y b = true.
Proof.
  intros H b Hb. destruct (Z.neg_nonneg_cases b) as [Hn|Hn]; [by rewrite Z.testbit_neg_r in Hb|].
  assert (Z.testbit (Z.land x (Z.lnot y)) b = false) as H1 by (by rewrite H, Z.bits_0).
  rewrite Z.land_spec, Hb, Z.lnot_spec in H1 by done. by destruct (Z.testbit y b).
Qed.

Lemma ValidateService_inv s authority :
  ValidateService s authority = ManifestOk ->
  IdentityIsValid (svc_identity s) = true /\ HashIsZero (executable_content_hash s) = false /\
  (svc_dependency_count s <= 8) /\
  (forall a, authority = Some a -> service_shape s -> service_within s a).
Proof.
  intros H. unfold ValidateService in H. peel H. clear H.
  rewrite !negb_false_iff in *. split_and!; [done|done|by apply Z.ltb_ge in E22|].
  intros a -> Hs. simpl denies in *. split.
  - rewrite <- land_bit by (pose proof (ss_policy s Hs); ulia). by rewrite E7.
  - unfold KindMask in E9. rewrite E8 in E9. rewrite <- land_bit by (pose proof (ss_kind s Hs); ulia). by rewrite E9.
  - apply negb_false_iff, Z.eqb_eq in E13. by apply land_lnot_sub.
  - unfold ResourceProfileMask in E15. rewrite E14 in E15.
    rewrite <- land_bit by (pose proof (ss_profile s Hs); ulia). by rewrite E15.
  - apply orb_false_iff in E17 as [? _]. by apply Z.ltb_ge.
  - apply orb_false_iff in E17 as [_ ?]. by apply Z.ltb_ge.
  - by apply Z.ltb_ge.
  - by apply Z.ltb_ge.
Qed.

Lemma check_rows_inv d authority : document_shape d -> forall todo index cursor cursor',
  0 <= cursor <= dependency_count d ->
  check_rows todo d authority index cursor = inr cursor' ->
  forall i, (index <= i < index + todo)%nat -> row_accepted d authority i.
Proof.
  intros Hd. induction todo as [|todo IH]; intros index cursor cursor' Hc H i Hi; [lia|].
  cbn [check_rows] in H. cbv zeta in H.
  destruct (ValidateService (service_at d index) authority) eqn:Hv; try discriminate H.
  destruct (negb (Nat.eqb index 0) && _) eqn:Hs; [done|].
  destruct (check_previous _ _) eqn:Hp; try discriminate H.
  destruct (negb (dependency_first _ =? cursor) || _) eqn:Hr; [done|].
  destruct (check_edges _ _ _) eqn:He; try discriminate H.
  pose proof (ss_count _ (service_at_shape d index Hd)) as Hcount.
  pose proof (ds_dependencies _ Hd) as Hdep.
  apply orb_false_iff in Hr as [Hf Hw]. rewrite negb_false_iff, Z.eqb_eq in Hf.
  rewrite wrap32_small in Hw by ulia. apply Z.ltb_ge in Hw.
  destruct (decide (i = index)) as [->|Hne].
  - split; [done| |done|lia|lia|].
    + intros Hnz. destruct (Nat.eqb_spec index 0); [done|]. simpl in Hs. apply Z.leb_gt in Hs. lia.
    + unfold edges_of. by rewrite Hf.
  - apply (IH (S index) (cursor + svc_dependency_count (service_at d index)) cursor'); [unfold_widths; lia|done|lia].
Qed.

(** Everything an accepted document satisfies. *)
Record document_accepted (d : ServiceManifestDocumentV1) (authority : option ServiceManifestAuthoritySnapshotV1) : Prop := {
  da_manifest : IdentityIsValid (manifest_identity d) = true;
  da_signer : IdentityIsValid (signer_identity d) = true;
  da_profile : IdentityIsValid (profile_identity d) = true;
  da_flags : doc_flags d = 0;
  da_reserved : doc_reserved d = 0;
  da_count : 0 < service_count d <= 64;
  da_dependencies : dependency_count d <= 256;
  da_denied : denies authority (fun a => maximum_services a <? service_count d) = false;
  da_denied_dependencies : denies authority (fun a => maximum_dependencies a <? dependency_count d) = false;
  da_cursor : check_rows (services_used d) d authority 0 0 = inr (dependency_count d);
  da_rows : forall i, (i < services_used d)%nat -> row_accepted d authority i;
  da_targets : forall k, (k < dependencies_used d)%nat ->
    FindService d (dependency_service_identity (dependency_at d k)) <> kServiceManifestMaximumServices;
  da_unused : forallb ServiceIsZero (drop (services_used d) (take 64 (services d))) = true;
  da_unused_edges : forallb (fun e => (owner_service_identity e =? 0) && (dependency_service_identity e =? 0))
                      (drop (dependencies_used d) (take 256 (dependencies d))) = true;
}.

(** A document either reaches the graph with every check passed, or is
    rejected before with an error that is neither success nor a cycle. *)
Lemma check_edges_error identity edges : forall previous,
  check_edges identity edges previous <> DependencyCycle.
Proof. induction edges as [|e edges IH]; intros previous; simpl; [done|]. repeat case_match; done || apply IH. Qed.

Lemma check_previous_error previous s : check_previous previous s <> DependencyCycle.
Proof. induction previous as [|p previous IH]; simpl; [done|]. by repeat case_match. Qed.

Lemma ValidateService_error s authority : ValidateService s authority <> DependencyCycle.
Proof. unfold ValidateService. by repeat case_match. Qed.

Lemma check_rows_error d authority : forall todo index cursor e,
  check_rows todo d authority index cursor = inl e -> e <> ManifestOk /\ e <> DependencyCycle.
Proof.
  induction todo as [|todo IH]; intros index cursor e H; [done|]. cbn [check_rows] in H. cbv zeta in H.
  destruct (ValidateService (service_at d index) authority) eqn:Hv;
    try (injection H as <-; split; [done|intros E; eapply ValidateService_error; rewrite Hv; exact E]).
  destruct (negb (Nat.eqb index 0) && _); [simplify_eq; by case_match|].
  destruct (check_previous _ _) eqn:Hp; try (injection H as <-; split; [done|intros E; eapply check_previous_error; rewrite Hp; exact E]).
  destruct (negb (dependency_first _ =? cursor) || _); [by simplify_eq|].
  destruct (check_edges _ _ _) eqn:He; try (injection H as <-; split; [done|intros E; eapply check_edges_error; rewrite He; exact E]).
  by apply IH in H.
Qed.

Lemma document_outcome d authority e order :
  document_shape d -> ValidateDocumentInternal d authority = (e, order) ->
  (e <> ManifestOk /\ e <> DependencyCycle) \/
  (document_accepted d authority /\ ValidateGraph d = (e, order)).
Proof.
  intros Hd H. unfold ValidateDocumentInternal in H.
  destruct (negb (IdentityIsValid (manifest_identity d)) || _ || _) eqn:H1; [by simplify_eq; left|].
  destruct (negb (doc_flags d =? _)) eqn:H2; [by simplify_eq; left|].
  destruct (negb (doc_reserved d =? 0)) eqn:H3; [by simplify_eq; left|].
  destruct (service_count d =? 0) eqn:H4; [by simplify_eq; left|].
  destruct (_ <? service_count d) eqn:H5; [by simplify_eq; left|].
  destruct (_ <? dependency_count d) eqn:H6; [by simplify_eq; left|].
  destruct (denies authority (fun a => maximum_services a <? _)) eqn:H7; [by simplify_eq; left|].
  destruct (denies authority (fun a => maximum_dependencies a <? _)) eqn:H8; [by simplify_eq; left|].
  destruct (check_rows _ _ _ _ _) as [e'|cursor] eqn:H9.
  { simplify_eq. left. by eapply check_rows_error. }
  destruct (negb (cursor =? _)) eqn:H10; [by simplify_eq; left|].
  destruct (existsb _ _) eqn:H11; [by simplify_eq; left|].
  destruct (negb (forallb ServiceIsZero _)) eqn:H12; [by simplify_eq; left|].
  destruct (negb (forallb _ (drop (dependencies_used d) _))) eqn:H13; [by simplify_eq; left|].
  right. split; [|done].
  pose proof (ds_services _ Hd) as Hsc. pose proof (ds_dependencies _ Hd) as Hdc.
  rewrite !orb_false_iff, !negb_false_iff in H1. destruct H1 as [[? ?] ?].
  rewrite negb_false_iff, Z.eqb_eq in H2, H3, H10. apply Z.eqb_neq in H4. apply Z.ltb_ge in H5, H6.
  apply negb_false_iff in H12, H13. unfold kServiceManifestMaximumServices, kServiceManifestMaximumDependencies in *.
  split; try done; try ulia.
  - by rewrite <- H10.
  - intros i Hi. eapply (check_rows_inv d authority Hd _ 0 0 cursor); [ulia|done|lia].
  - intros k Hk Hf. assert (existsb (fun i => FindService d (dependency_service_identity (dependency_at d i)) =? 64)
      (seq 0 (dependencies_used d)) = true) as Ht; [|congruence].
    apply existsb_exists. exists k. rewrite in_seq. split; [lia|]. by apply Z.eqb_eq.
Qed.

(** ** Binary search *)

(** On keys that increase below [n] the search returns the first index whose
    key is not below the identity. *)
Lemma lower_bound_spec key identity n :
  (forall i j, (i < j < n)%nat -> key i < key j) ->
  forall fuel low high, (high - low < fuel)%nat -> (low <= high <= n)%nat ->
  (forall i, (i < low)%nat -> key i < identity) ->
  (forall i, (high <= i < n)%nat -> identity <= key i) ->
  let r := lower_bound fuel key identity low high in
  (r <= n)%nat /\ (forall i, (i < r)%nat -> key i < identity) /\ (forall i, (r <= i < n)%nat -> identity <= key i).
Proof.
  intros Hsort. induction fuel as [|fuel IH]; intros low high Hf Hb Hl Hh; [lia|]. cbn [lower_bound]. cbv zeta.
  destruct (Nat.ltb_spec low high) as [Hlt|Hge].
  - set (middle := (low + (high - low) / 2)%nat).
    assert (Hmid : (low <= middle < high)%nat).
    { unfold middle. pose proof (Nat.div_lt (high - low) 2 ltac:(lia) ltac:(lia)). lia. }
    clearbody middle. destruct (Z.ltb_spec (key middle) identity) as [Hk|Hk].
    + apply IH; [lia|lia| |done]. intros i Hi. destruct (decide (i = middle)) as [->|]; [done|].
      specialize (Hsort i middle). lia.
    + apply IH; [lia|lia|done|]. intros i Hi. destruct (decide (i = middle)) as [->|]; [done|].
      specialize (Hsort middle i). lia.
  - split_and!; [lia|done|]. intros i Hi. apply Hh. lia.
Qed.

Section sorted_keys.
Context (key : nat -> Z) (n : nat) (Hsort : forall i j, (i < j < n)%nat -> key i < key j).

Definition search (identity : Z) : nat := lower_bound (S n) key identity 0 n.

Lemma key_inj i j : (i < n)%nat -> (j < n)%nat -> key i = key j -> i = j.
Proof.
  intros Hi Hj He. destruct (Nat.lt_trichotomy i j) as [H|[H|H]]; [|done|].
  - specialize (Hsort i j). lia.
  - specialize (Hsort j i). lia.
Qed.

Lemma search_found i : (i < n)%nat -> search (key i) = i.
Proof.
  intros Hi. destruct (lower_bound_spec key (key i) n Hsort (S n) 0 n) as (Hr & Hl & Hh); [lia|lia|lia|lia|].
  fold (search (key i)) in *. destruct (Nat.lt_trichotomy (search (key i)) i) as [H|[H|H]]; [|done|].
  - specialize (Hh (search (key i))). specialize (Hsort (search (key i)) i). lia.
  - specialize (Hl i H). lia.
Qed.

Lemma search_hit identity :
  (Nat.ltb (search identity) n && (key (search identity) =? identity)) = true <->
  exists i, (i < n)%nat /\ key i = identity.
Proof.
  rewrite andb_true_iff, Nat.ltb_lt, Z.eqb_eq. split; [eauto|]. intros (i & Hi & <-). by rewrite search_found.
Qed.

End sorted_keys.

Section accepted.
Context (d : ServiceManifestDocumentV1) (authority : option ServiceManifestAuthoritySnapshotV1).
Context (Hshape : document_shape d) (Hacc : document_accepted d authority).

Notation n := (services_used d).
Notation ids := (identity_at d).

Lemma identities_increase i j : (i < j < n)%nat -> ids i < ids j.
Proof.
  intros [Hij Hj]. induction j as [|j IH]; [lia|].
  pose proof (ra_sorted _ _ _ (da_rows _ _ Hacc (S j) Hj) ltac:(done)) as Hs.
  rewrite Nat.sub_succ, Nat.sub_0_r in Hs. change (ids j < ids (S j)) in Hs. destruct (decide (i = j)) as [->|Hne]; [done|].
  specialize (IH ltac:(lia) ltac:(lia)). lia.
Qed.

Lemma FindService_found i : (i < n)%nat -> FindService d (ids i) = Z.of_nat i.
Proof.
  intros Hi. unfold FindService. cbv zeta. change (lower_bound (S n) ids (ids i) 0 n) with (search ids n (ids i)).
  rewrite (search_found ids n identities_increase i Hi).
  by rewrite (proj2 (Nat.ltb_lt i n) Hi), Z.eqb_refl.
Qed.

Lemma services_used_bound : (0 < n <= 64)%nat.
Proof. pose proof (da_count _ _ Hacc). unfold services_used. lia. Qed.

Lemma FindService_spec identity :
  (exists i, (i < n)%nat /\ FindService d identity = Z.of_nat i /\ ids i = identity) \/
  (FindService d identity = 64 /\ forall i, (i < n)%nat -> ids i <> identity).
Proof.
  unfold FindService. cbv zeta. change (lower_bound (S n) ids identity 0 n) with (search ids n identity).
  pose proof (search_hit ids n identities_increase identity) as Hhit.
  destruct (Nat.ltb (search ids n identity) n && _) eqn:E.
  - left. destruct (proj1 Hhit eq_refl) as (i & Hi & Hid). exists i.
    split_and!; [done| |done]. f_equal. subst identity. by apply search_found; [apply identities_increase|].
  - right. split; [done|]. intros i Hi Hid. by assert (false = true) by (apply Hhit; eauto).
Qed.

(** Targets of a row: strictly increasing, never itself, and services. *)
Lemma check_edges_sorted identity edges : forall previous,
  check_edges identity edges previous = ManifestOk ->
  Forall (fun e => owner_service_identity e = identity /\ previous < dependency_service_identity e /\
                   dependency_service_identity e <> identity /\ IdentityIsValid (dependency_service_identity e) = true) edges /\
  NoDup (map dependency_service_identity edges).
Proof.
  induction edges as [|e edges IH]; intros previous H; [by split; constructor|]. simpl in H.
  destruct (negb (owner_service_identity e =? identity) || _ || _) eqn:H1; [done|].
  destruct (_ <=? previous) eqn:H2; [by case_match|].
  apply IH in H as [Hall Hnd]. rewrite !orb_false_iff, !negb_false_iff, Z.eqb_eq, Z.eqb_neq in H1.
  destruct H1 as [[? ?] ?]. apply Z.leb_gt in H2. split.
  - constructor; [done|]. eapply Forall_impl; [done|]. intros x (? & ? & ? & ?). split_and!; try done. lia.
  - simpl. constructor; [|done]. intros Hin. apply list_elem_of_fmap in Hin as (x & Hx & Hin).
    rewrite Forall_forall in Hall. apply Hall in Hin. lia.
Qed.

Lemma targets_nodup i : (i < n)%nat -> NoDup (targets d i).
Proof. intros Hi. apply (check_edges_sorted _ _ 0 (ra_edges _ _ _ (da_rows _ _ Hacc i Hi))). Qed.

Lemma targets_length i : (i < n)%nat -> Z.of_nat (length (targets d i)) = svc_dependency_count (service_at d i).
Proof.
  intros Hi. unfold targets, edges_of. rewrite !length_map, length_seq.
  pose proof (ss_count _ (service_at_shape d i Hshape)). ulia.
Qed.

Lemma targets_services i t : (i < n)%nat -> t ∈ targets d i -> exists j, (j < n)%nat /\ ids j = t /\ j <> i.
Proof.
  intros Hi Ht. pose proof (da_rows _ _ Hacc i Hi) as Hrow.
  apply list_elem_of_fmap in Ht as (e & -> & He).
  pose proof (proj1 (check_edges_sorted _ _ 0 (ra_edges _ _ _ Hrow))) as Hall.
  pose proof (proj1 (Forall_forall _ _) Hall e He) as (_ & _ & Hne & _).
  apply list_elem_of_fmap in He as (k & -> & Hk). apply elem_of_seq in Hk.
  pose proof (ra_range _ _ _ Hrow). pose proof (ra_first _ _ _ Hrow).
  pose proof (ss_count _ (service_at_shape d i Hshape)).
  pose proof (da_targets _ _ Hacc k ltac:(unfold dependencies_used; ulia)) as Hf.
  destruct (FindService_spec (dependency_service_identity (dependency_at d k))) as [(j & Hj & _ & Hid)|[Hnone _]]; [|done].
  exists j. split_and!; [done|done|]. intros ->. unfold identity_at in Hid. congruence.
Qed.

Lemma dependency_count_bound i : (i < n)%nat -> 0 <= svc_dependency_count (service_at d i) <= 8.
Proof.
  intros Hi. pose proof (ra_service _ _ _ (da_rows _ _ Hacc i Hi)) as Hv.
  pose proof (ss_count _ (service_at_shape d i Hshape)) as Hu.
  apply ValidateService_inv in Hv as (_ & _ & Hle & _). ulia.
Qed.

End accepted.

(** ** The reference order *)

(** Row [c] may start once every target is among [past]. *)
Definition ready (d : ServiceManifestDocumentV1) (past : list Z) (c : nat) : bool :=
  forallb (fun t => bool_decide (t ∈ past)) (targets d c).

Definition next_start (d : ServiceManifestDocumentV1) (past : list Z) : option nat :=
  find (fun c => negb (bool_decide (identity_at d c ∈ past)) && ready d past c) (seq 0 (services_used d)).

Fixpoint order_from (todo : nat) (d : ServiceManifestDocumentV1) (past : list Z) : option (list Z) :=
  match todo with
  | O => Some past
  | S todo =>
      match next_start d past with
      | Some c => order_from todo d (past ++ [identity_at d c])
      | None => None
      end
  end.

(** An order of all services in which each follows its targets. *)
Definition start_order (d : ServiceManifestDocumentV1) (order : list Z) : Prop :=
  Permutation order (map (identity_at d) (seq 0 (services_used d))) /\
  forall before x after c, order = before ++ x :: after -> (c < services_used d)%nat -> identity_at d c = x ->
    forall t, t ∈ targets d c -> t ∈ before.

(** At each place every smaller service not yet started is blocked. *)
Definition least_order (d : ServiceManifestDocumentV1) (order : list Z) : Prop :=
  forall before x after c, order = before ++ x :: after -> (c < services_used d)%nat ->
    identity_at d c < x -> identity_at d c ∉ before -> exists t, t ∈ targets d c /\ t ∉ before.

Lemma find_seq (p : nat -> bool) n c :
  find p (seq 0 n) = Some c -> (c < n)%nat /\ p c = true /\ forall i, (i < c)%nat -> p i = false.
Proof.
  assert (forall m k, find p (seq k m) = Some c ->
    (k <= c < k + m)%nat /\ p c = true /\ forall i, (k <= i < c)%nat -> p i = false) as H.
  { induction m as [|m IH]; intros k Hf; [done|]. simpl in Hf. destruct (p k) eqn:Hk.
    - simplify_eq. split_and!; [lia|lia|done|lia].
    - apply IH in Hf as (? & ? & Hlt). split_and!; [lia|lia|done|]. intros i Hi.
      destruct (decide (i = k)) as [->|]; [done|]. apply Hlt. lia. }
  intros Hf. apply H in Hf as (? & ? & Hlt). split_and!; [lia|done|]. intros i Hi. apply Hlt. lia.
Qed.

Lemma find_seq_none (p : nat -> bool) n : find p (seq 0 n) = None -> forall i, (i < n)%nat -> p i = false.
Proof. intros H i Hi. apply (find_none p (seq 0 n) H). apply in_seq. lia. Qed.

Section order.
Context (d : ServiceManifestDocumentV1) (authority : option ServiceManifestAuthoritySnapshotV1).
Context (Hshape : document_shape d) (Hacc : document_accepted d authority).

Notation n := (services_used d).
Notation ids := (identity_at d).

Lemma ready_spec past c : ready d past c = true <-> forall t, t ∈ targets d c -> t ∈ past.
Proof.
  unfold ready. rewrite forallb_forall. split; intros H t Ht.
  - specialize (H t (proj1 (list_elem_of_In _ _) Ht)). by apply bool_decide_eq_true in H.
  - apply bool_decide_eq_true. apply H. by apply list_elem_of_In.
Qed.

Lemma next_start_spec past c :
  next_start d past = Some c ->
  (c < n)%nat /\ ids c ∉ past /\ (forall t, t ∈ targets d c -> t ∈ past) /\
  (forall i, (i < c)%nat -> ids i ∉ past -> exists t, t ∈ targets d i /\ t ∉ past).
Proof.
  intros H. apply find_seq in H as (Hc & Hp & Hlt). apply andb_true_iff in Hp as [Hn Hr].
  apply negb_true_iff, bool_decide_eq_false in Hn. split_and!; [done|done|by apply ready_spec|].
  intros i Hi Hnot. specialize (Hlt i Hi). apply andb_false_iff in Hlt as [Hlt|Hlt].
  - apply negb_false_iff, bool_decide_eq_true in Hlt. done.
  - unfold ready in Hlt. apply not_true_iff_false in Hlt. rewrite forallb_forall in Hlt.
    destruct (decide (Exists (fun t => t ∉ past) (targets d i))) as [He|He].
    + apply Exists_exists in He as (t & ? & ?). eauto.
    + exfalso. apply Hlt. intros t Ht. apply bool_decide_eq_true.
      apply dec_stable. intros Hnt. apply He. apply Exists_exists. exists t. split; [by apply list_elem_of_In|done].
Qed.

(** [past] is a prefix built by the reference. *)
Record started (past : list Z) : Prop := {
  st_nodup : NoDup past;
  st_ids : forall x, x ∈ past -> exists c, (c < n)%nat /\ ids c = x;
  st_after : forall before x after c, past = before ++ x :: after -> (c < n)%nat -> ids c = x ->
    forall t, t ∈ targets d c -> t ∈ before;
  st_least : least_order d past;
}.

Lemma snoc_split {A} (l : list A) y before x after :
  l ++ [y] = before ++ x :: after ->
  (before = l /\ x = y /\ after = []) \/ (exists after', after = after' ++ [y] /\ l = before ++ x :: after').
Proof.
  destruct (list_eq_nil_dec after) as [->|Hne].
  - intros H. apply app_inj_tail in H as [-> ->]. by left.
  - intros H. destruct (exists_last Hne) as (after' & z & ->). right. exists after'.
    rewrite app_comm_cons, app_assoc in H. by apply app_inj_tail in H as [-> ->].
Qed.

Lemma started_next past c : started past -> next_start d past = Some c -> started (past ++ [ids c]).
Proof.
  intros [Hnd Hids Haft Hleast] H. apply next_start_spec in H as (Hc & Hnot & Ht & Hblk). split.
  - apply NoDup_app. split_and!; [done| |by apply NoDup_singleton]. intros x Hx Hx'.
    apply list_elem_of_singleton in Hx' as ->. done.
  - intros x Hx. apply elem_of_app in Hx as [Hx|Hx]; [by apply Hids|].
    apply list_elem_of_singleton in Hx as ->. eauto.
  - intros before x after c' Hs Hc' Hx t Ht'. apply snoc_split in Hs as [(-> & -> & ->)|(after' & -> & Hs)].
    + apply Ht. by rewrite <- (key_inj ids n (identities_increase d authority Hacc) c' c Hc' Hc Hx).
    + by eapply Haft.
  - intros before x after c' Hs Hc' Hx Hnb. apply snoc_split in Hs as [(-> & -> & ->)|(after' & -> & Hs)].
    + apply Hblk; [|done]. destruct (Nat.lt_trichotomy c' c) as [?|[->|Hgt]]; [done|lia|].
      pose proof (identities_increase d authority Hacc c c' ltac:(lia)). lia.
    + by eapply Hleast.
Qed.

Lemma started_nil : started [].
Proof. split; try done; try constructor; try (intros [|? ?] ? ? ? ?; done). by intros x Hx%not_elem_of_nil. Qed.

Lemma order_from_started todo : forall past order,
  started past -> order_from todo d past = Some order -> started order /\ length order = (length past + todo)%nat.
Proof.
  induction todo as [|todo IH]; intros past order Hs H; simpl in H; [simplify_eq; split; [done|lia]|].
  destruct (next_start d past) as [c|] eqn:Hn; [|done].
  apply IH in H as [? Hl]; [|by apply started_next]. split; [done|]. rewrite length_app in Hl. simpl in Hl. lia.
Qed.

Lemma ids_nodup : NoDup (map ids (seq 0 n)).
Proof.
  apply NoDup_fmap_2_strong; [|apply NoDup_seq]. intros i j Hi Hj He. apply elem_of_seq in Hi, Hj.
  apply (key_inj ids n (identities_increase d authority Hacc)); [lia|lia|done].
Qed.

Lemma full_order order : started order -> length order = n -> start_order d order.
Proof.
  intros Hs Hl. split; [|apply (st_after _ Hs)].
  apply submseteq_length_Permutation.
  - apply NoDup_submseteq; [apply (st_nodup _ Hs)|]. intros x Hx. apply (st_ids _ Hs) in Hx as (c & Hc & <-).
    apply list_elem_of_fmap. exists c. split; [done|]. apply elem_of_seq. lia.
  - by rewrite length_map, length_seq, Hl.
Qed.

(** A stuck reference means there is no order at all. *)
Lemma stuck_no_order past : started past -> (length past < n)%nat -> next_start d past = None ->
  forall order, ~ start_order d order.
Proof.
  intros Hs Hl Hn order [Hperm Hord].
  assert (Hmissing : exists before x after, order = before ++ x :: after /\ x ∉ past /\ forall y, y ∈ before -> y ∈ past).
  { assert (Hex : ~ (forall x, x ∈ order -> x ∈ past)).
    { intros Hall. assert (length order <= length past)%nat as Hle.
      { apply submseteq_length, NoDup_submseteq; [|done]. rewrite Hperm. apply ids_nodup. }
      rewrite (Permutation_length Hperm), length_map, length_seq in Hle. lia. }
    clear Hperm Hord. induction order as [|x order IH]; [exfalso; apply Hex; by intros x Hx%not_elem_of_nil|].
    destruct (decide (x ∈ past)) as [Hx|Hx].
    - destruct IH as (before & y & after & -> & Hy & Hb).
      { intros Hall. apply Hex. intros y Hy. apply elem_of_cons in Hy as [->|Hy]; [done|by apply Hall]. }
      exists (x :: before), y, after. split_and!; [done|done|]. intros z Hz.
      apply elem_of_cons in Hz as [->|Hz]; [done|by apply Hb].
    - exists [], x, order. split_and!; [done|done|]. by intros y Hy%not_elem_of_nil. }
  destruct Hmissing as (before & x & after & -> & Hx & Hb).
  assert (exists c, (c < n)%nat /\ ids c = x) as (c & Hc & Hcx).
  { assert (x ∈ map ids (seq 0 n)) as Hin by (rewrite <- Hperm; set_solver).
    apply list_elem_of_fmap in Hin as (c & -> & Hc). apply elem_of_seq in Hc. exists c. split; [lia|done]. }
  pose proof (find_seq_none _ _ Hn c Hc) as Hf. apply andb_false_iff in Hf as [Hf|Hf].
  - apply negb_false_iff, bool_decide_eq_true in Hf. congruence.
  - apply not_true_iff_false in Hf. apply Hf, ready_spec. intros t Ht. apply Hb. by eapply Hord.
Qed.

Lemma order_from_none todo : forall past, started past -> (length past + todo = n)%nat ->
  order_from todo d past = None -> forall order, ~ start_order d order.
Proof.
  induction todo as [|todo IH]; intros past Hs Hl H; simpl in H; [done|].
  destruct (next_start d past) as [c|] eqn:Hn.
  - eapply IH; [by apply started_next| |done]. rewrite length_app. simpl. lia.
  - eapply stuck_no_order; [done|lia|done].
Qed.

(** ** The indegree loop follows the reference *)

Definition pending (past : list Z) (c : nat) : nat := length (filter (fun t => t ∉ past) (targets d c)).

Record graph_inv (past : list Z) (indegree : list Z) (emitted : list bool) : Prop := {
  gi_degrees : length indegree = 64%nat;
  gi_flags : length emitted = 64%nat;
  gi_degree : forall c, (c < n)%nat -> nth c indegree 0 = Z.of_nat (pending past c);
  gi_emitted : forall c, (c < n)%nat -> nth c emitted false = bool_decide (ids c ∈ past);
}.

Lemma pending_zero past c : (Z.of_nat (pending past c) =? 0) = ready d past c.
Proof.
  apply eq_iff_eq_true. rewrite Z.eqb_eq, ready_spec. unfold pending. split.
  - intros H t Ht. apply dec_stable. intros Hnt.
    assert (t ∈ filter (fun t => t ∉ past) (targets d c)) as Hin by (by apply list_elem_of_filter).
    apply list_elem_of_lookup in Hin as (k & Hk). apply lookup_lt_Some in Hk. lia.
  - intros H. destruct (filter _ _) as [|t l] eqn:Hf; [done|].
    assert (t ∈ filter (fun t => t ∉ past) (targets d c)) as Hin by (rewrite Hf; set_solver).
    apply list_elem_of_filter in Hin as [Hnt Ht]. by apply H in Ht.
Qed.

Lemma pending_snoc past x c :
  (c < n)%nat -> x ∉ past ->
  pending past c = (pending (past ++ [x]) c + (if bool_decide (x ∈ targets d c) then 1 else 0))%nat.
Proof.
  intros Hc Hx. unfold pending. pose proof (targets_nodup d authority Hacc c Hc) as Hnd. revert Hnd.
  induction (targets d c) as [|t l IH]; intros Hnd; [done|]. apply NoDup_cons in Hnd as [Ht Hnd].
  specialize (IH Hnd). rewrite !filter_cons. destruct (decide (t = x)) as [->|Hne].
  - rewrite decide_True by done. rewrite decide_False by set_solver.
    rewrite bool_decide_eq_false_2 in IH by done. rewrite bool_decide_eq_true_2 by set_solver. simpl. lia.
  - assert ((t ∉ past ++ [x]) <-> t ∉ past) as Heq by set_solver.
    destruct (decide (t ∉ past)) as [Hp|Hp]; [rewrite decide_True by tauto|rewrite decide_False by tauto]; simpl;
      rewrite IH; do 2 case_bool_decide; set_solver || lia.
Qed.

Lemma graph_select past indegree emitted :
  graph_inv past indegree emitted ->
  find (fun c => negb (nth c emitted false) && (nth c indegree 0 =? 0)) (seq 0 n) = next_start d past.
Proof.
  intros [_ _ Hdeg Hem]. unfold next_start. 
  assert (forall m k, (k + m <= n)%nat -> find (fun c => negb (nth c emitted false) && (nth c indegree 0 =? 0)) (seq k m) =
    find (fun c => negb (bool_decide (ids c ∈ past)) && ready d past c) (seq k m)) as H.
  { induction m as [|m IH]; intros k Hk; [done|]. simpl. rewrite (Hdeg k), (Hem k), pending_zero, IH by lia. done. }
  apply H. lia.
Qed.

Lemma graph_inv_next past indegree emitted c :
  started past -> graph_inv past indegree emitted -> next_start d past = Some c ->
  graph_inv (past ++ [ids c]) (imap (settle_dependent d (<[c := true]> emitted) (ids c)) indegree) (<[c := true]> emitted).
Proof.
  intros Hst [Hdl Hfl Hdeg Hem] H. apply next_start_spec in H as (Hc & Hnot & Hr & _).
  pose proof (services_used_bound d authority Hacc) as Hn.
  assert (Hem' : forall k, (k < n)%nat -> nth k (<[c := true]> emitted) false = bool_decide (ids k ∈ past ++ [ids c])).
  { intros k Hk. destruct (decide (k = c)) as [->|Hne].
    - rewrite (nth_lookup_Some _ _ _ true) by (apply list_lookup_insert_eq; lia).
      rewrite bool_decide_eq_true_2 by set_solver. done.
    - rewrite nth_lookup, list_lookup_insert_ne, <- nth_lookup, Hem by done.
      apply bool_decide_ext. rewrite elem_of_app, list_elem_of_singleton. split; [by left|].
      intros [?|He]; [done|]. by apply (key_inj ids n (identities_increase d authority Hacc)) in He. }
  split; [by rewrite length_imap|by rewrite length_insert| |done].
  intros k Hk. rewrite nth_lookup, list_lookup_imap.
  destruct (lookup_lt_is_Some_2 indegree k) as (degree & Hd); [lia|].
  pose proof (Hdeg k Hk) as Hdk. rewrite (nth_lookup_Some _ _ _ _ Hd) in Hdk. rewrite Hd. simpl.
  unfold settle_dependent. rewrite (proj2 (Nat.leb_gt n k) Hk), Hem', Hdk by done. simpl.
  rewrite (pending_snoc past (ids c) k Hk Hnot).
  assert (Hex : existsb (fun t => t =? ids c) (targets d k) = bool_decide (ids c ∈ targets d k)).
  { apply eq_iff_eq_true. rewrite existsb_exists, bool_decide_eq_true. split.
    - intros (t & Ht & ->%Z.eqb_eq). by apply list_elem_of_In.
    - intros Ht. exists (ids c). split; [by apply list_elem_of_In|apply Z.eqb_refl]. }
  rewrite Hex. destruct (bool_decide (ids k ∈ past ++ [ids c])) eqn:Hin1.
  - (* already started: nothing was pending before *)
    apply bool_decide_eq_true in Hin1.
    assert (Hz : ready d past k = true).
    { apply ready_spec. apply elem_of_app in Hin1 as [Hin1|Hin1].
      - intros t Ht. apply list_elem_of_split in Hin1 as (before & after & ->).
        pose proof (st_after _ Hst before (ids k) after k eq_refl Hk eq_refl t Ht). set_solver.
      - apply list_elem_of_singleton in Hin1.
        apply (key_inj ids n (identities_increase d authority Hacc)) in Hin1; [subst k; done|done|done]. }
    rewrite <- pending_zero in Hz. apply Z.eqb_eq in Hz. rewrite (pending_snoc past (ids c) k Hk Hnot) in Hz.
    simpl. lia.
  - simpl. destruct (_ =? 0) eqn:Hz; [apply Z.eqb_eq in Hz; lia|].
    assert (pending past k <= 8)%nat as Hb.
    { unfold pending. etransitivity; [apply length_filter|]. 
      pose proof (targets_length d Hshape k Hk).
      pose proof (dependency_count_bound d authority Hshape Hacc k Hk). lia. }
    rewrite (pending_snoc past (ids c) k Hk Hnot) in Hb.
    case_bool_decide; [|lia]. unfold wrap16. rewrite Z.mod_small; lia.
Qed.

Lemma graph_loop_order todo : forall past indegree emitted,
  started past -> graph_inv past indegree emitted ->
  match order_from todo d past with
  | Some order => graph_loop todo d indegree emitted past = (ManifestOk, order)
  | None => fst (graph_loop todo d indegree emitted past) = DependencyCycle
  end.
Proof.
  induction todo as [|todo IH]; intros past indegree emitted Hs Hi; [done|]. cbn [order_from graph_loop]. cbv zeta.
  rewrite (graph_select past) by done. destruct (next_start d past) as [c|] eqn:Hn; [|done].
  apply IH; [by apply started_next|by apply graph_inv_next].
Qed.

Lemma initial_graph_inv : graph_inv [] (initial_indegree d) (replicate 64 false).
Proof.
  pose proof (services_used_bound d authority Hacc) as Hn.
  split; [by unfold initial_indegree; rewrite length_map, length_seq|by rewrite length_replicate| |].
  - intros c Hc. unfold initial_indegree.
    rewrite (nth_indep _ 0 ((fun i => if Nat.ltb i n then svc_dependency_count (service_at d i) else 0) 0%nat))
      by (rewrite length_map, length_seq; lia).
    rewrite (map_nth (fun i => if Nat.ltb i n then svc_dependency_count (service_at d i) else 0)).
    rewrite seq_nth by lia. rewrite Nat.add_0_l. rewrite (proj2 (Nat.ltb_lt c n) Hc).
    rewrite <- (targets_length d Hshape c Hc). unfold pending. f_equal.
    induction (targets d c) as [|t l IH]; [done|]. rewrite filter_cons_True by apply not_elem_of_nil.
    simpl. by rewrite IH.
  - intros c Hc. rewrite (nth_lookup_Some _ _ _ false) by (apply lookup_replicate_2; lia).
    by rewrite bool_decide_eq_false_2 by apply not_elem_of_nil.
Qed.

Lemma ValidateGraph_order :
  match order_from n d [] with
  | Some order => ValidateGraph d = (ManifestOk, order)
  | None => fst (ValidateGraph d) = DependencyCycle
  end.
Proof. apply graph_loop_order; [apply started_nil|apply initial_graph_inv]. Qed.

Lemma ValidateGraph_ok order :
  ValidateGraph d = (ManifestOk, order) ->
  order_from n d [] = Some order /\ start_order d order /\ least_order d order /\ length order = n.
Proof.
  intros H. pose proof ValidateGraph_order as Ho. rewrite H in Ho. destruct (order_from n d []) as [o|] eqn:Hf; [|done].
  simplify_eq. apply order_from_started in Hf as [Hs Hl]; [|apply started_nil]. simpl in Hl.
  split_and!; [done|by apply full_order|apply (st_least _ Hs)|done].
Qed.

Lemma ValidateGraph_cycle order :
  ValidateGraph d = (DependencyCycle, order) -> forall order', ~ start_order d order'.
Proof.
  intros H. pose proof ValidateGraph_order as Ho. rewrite H in Ho. destruct (order_from n d []) as [o|] eqn:Hf; [done|].
  eapply order_from_none; [apply started_nil| |done]. done.
Qed.

End order.
