(* ===== verification/ServiceManifestCodec.v ===== *)
(** * Encoding of a service manifest

    The writers of [kernel/core/service_manifest.cpp] fill one contiguous
    buffer: their result is the concatenation of the fields, the decoder reads
    the fields back, and re-encoding what was decoded gives the bytes that
    were read.  The piecewise hash of a document is the hash of its encoding. *)

From S2P Require Import Prelude Bytes Sha256 ServiceManifest ServiceManifestGraph.

#[local] Open Scope nat_scope.

(** ** Fields as byte lists *)

Definition le16 (v : Z) : list Z := [Z.land v 255; Z.land (Z.shiftr v 8) 255].
Definition le32 (v : Z) : list Z :=
  [Z.land v 255; Z.land (Z.shiftr v 8) 255; Z.land (Z.shiftr v 16) 255; Z.land (Z.shiftr v 24) 255].
Definition le64 (v : Z) : list Z := le32 (Z.land v 4294967295) ++ le32 (Z.shiftr v 32).

Lemma write16_inserts bytes off v : WriteLe16 bytes off v = list_inserts off (le16 v) bytes.
Proof. unfold WriteLe16, le16. simpl. rewrite Nat.add_1_r. rewrite list_insert_insert_ne by lia. done. Qed.

Lemma write32_inserts bytes off v : WriteLe32 bytes off v = list_inserts off (le32 v) bytes.
Proof.
  unfold WriteLe32, le32. simpl. replace (off + 1) with (S off) by lia. replace (off + 2) with (S (S off)) by lia.
  replace (off + 3) with (S (S (S off))) by lia.
  rewrite (list_insert_insert_ne _ (S (S (S off))) (S (S off))) by lia.
  rewrite (list_insert_insert_ne _ (S (S (S off))) (S off)) by lia.
  rewrite (list_insert_insert_ne _ (S (S (S off))) off) by lia.
  rewrite (list_insert_insert_ne _ (S (S off)) (S off)) by lia.
  rewrite (list_insert_insert_ne _ (S (S off)) off) by lia.
  rewrite (list_insert_insert_ne _ (S off) off) by lia. done.
Qed.

Lemma inserts_join {A} i j (l1 l2 l : list A) :
  j = i + length l1 -> list_inserts j l2 (list_inserts i l1 l) = list_inserts i (l1 ++ l2) l.
Proof. intros ->. by rewrite list_inserts_app_l, Nat.add_comm. Qed.

Lemma write64_inserts bytes off v : WriteLe64 bytes off v = list_inserts off (le64 v) bytes.
Proof. unfold WriteLe64, le64. rewrite !write32_inserts. by apply inserts_join. Qed.

Lemma insert_inserts {A} (l : list A) i x : <[i := x]> l = list_inserts i [x] l.
Proof. done. Qed.

(** Overwriting the middle of a list. *)
Lemma inserts_mid {A} (pre b z post : list A) :
  length z = length b -> list_inserts (length pre) b (pre ++ z ++ post) = pre ++ b ++ post.
Proof.
  intros Hl. rewrite inserts_split by (rewrite !length_app; lia).
  rewrite take_app_length. f_equal. f_equal. rewrite app_assoc. apply drop_app_length'. rewrite length_app. lia.
Qed.

Definition header_bytes (d : ServiceManifestDocumentV1) (encoded_size : Z) : list Z :=
  le32 encoded_size ++ le16 1 ++ le16 64 ++ le16 256 ++ le16 16 ++ le16 (service_count d) ++
  le16 (dependency_count d) ++ le32 (doc_flags d) ++ replicate 4 0%Z ++ le64 (manifest_identity d) ++
  le64 (signer_identity d) ++ le64 (profile_identity d) ++ le32 64 ++ le32 (EncodedDependenciesOffset d) ++ replicate 8 0%Z.

Definition service_bytes (s : ServiceManifestServiceV1) : list Z :=
  le64 (svc_identity s) ++ le32 (executable_transfer_ref s) ++ le32 (immutable_policy_selector s) ++
  take 32 (executable_content_hash s) ++ le64 (requested_capability_ceiling s) ++
  le64 (requested_frame_budget_pages s) ++ le64 (requested_tick_budget s) ++ le32 (requested_section_objects s) ++
  le32 (requested_section_pages s) ++ le16 (dependency_first s) ++ le16 (svc_dependency_count s) ++
  [name_length s] ++ [executable_path_length s] ++ [svc_kind s] ++ [restart_policy s] ++ [autostart s] ++
  [resource_profile s] ++ le16 (svc_flags s) ++ le32 (svc_reserved s) ++ take 32 (svc_name s) ++
  take 128 (executable_path s).

Definition dependency_bytes (e : ServiceManifestDependencyV1) : list Z :=
  le64 (owner_service_identity e) ++ le64 (dependency_service_identity e).

(** The encoding of a document. *)
Definition encoding (d : ServiceManifestDocumentV1) : list Z :=
  header_bytes d (ServiceManifestEncodedSizeV1 (service_count d) (dependency_count d)) ++
  flat_map (fun i => service_bytes (service_at d i)) (seq 0 (services_used d)) ++
  flat_map (fun i => dependency_bytes (dependency_at d i)) (seq 0 (dependencies_used d)).

Lemma EncodeHeader_bytes d size rest :
  EncodeHeader (replicate 64 0%Z ++ rest) d size = header_bytes d size ++ rest.
Proof. reflexivity. Qed.

Lemma EncodeService_inserts bytes off s :
  service_shape s -> EncodeService bytes off s = list_inserts off (service_bytes s) bytes.
Proof.
  intros Hs. destruct (ss_hash s Hs) as [Hh _]. destruct (ss_name s Hs) as [Hn _]. 
  unfold EncodeService, CopyBytes. cbv zeta. rewrite !write64_inserts, !write32_inserts, !write16_inserts.
  rewrite !insert_inserts.
  unfold kServiceIdentityOffset, kServiceTransferRefOffset, kServicePolicySelectorOffset, kServiceContentHashOffset,
    kServiceCapabilitiesOffset, kServiceFrameBudgetOffset, kServiceTickBudgetOffset, kServiceSectionObjectsOffset,
    kServiceSectionPagesOffset, kServiceDependencyFirstOffset, kServiceDependencyCountOffset, kServiceNameLengthOffset,
    kServicePathLengthOffset, kServiceKindOffset, kServiceRestartOffset, kServiceAutostartOffset,
    kServiceResourceProfileOffset, kServiceFlagsOffset, kServiceReservedOffset, kServiceNameOffset, kServicePathOffset.
  repeat (rewrite inserts_join by (rewrite ?length_take, ?Hh, ?Hn; simpl; lia)).
  by rewrite Nat.add_0_r.
Qed.

Lemma length_service_bytes s : service_shape s -> length (service_bytes s) = 256.
Proof.
  intros Hs. destruct (ss_hash s Hs) as [Hh _]. destruct (ss_name s Hs) as [Hn _]. destruct (ss_path s Hs) as [Hp _].
  unfold service_bytes. rewrite !length_app, !length_take, Hh, Hn, Hp. reflexivity.
Qed.

Lemma EncodeDependency_inserts bytes off e :
  EncodeDependency bytes off e = list_inserts off (dependency_bytes e) bytes.
Proof.
  unfold EncodeDependency, kDependencyOwnerOffset, kDependencyTargetOffset. rewrite !write64_inserts.
  rewrite inserts_join by (simpl; lia). by rewrite Nat.add_0_r.
Qed.

(** Consecutive records written over zeros. *)
Lemma fold_records (write : list Z -> nat -> list Z) (rec : nat -> list Z) (size : nat) base (pre post : list Z) k :
  (forall bytes i, write bytes i = list_inserts (base + i * size) (rec i) bytes) ->
  (forall i, i < k -> length (rec i) = size) -> length pre = base ->
  forall j, j <= k ->
  fold_left write (seq 0 j) (pre ++ replicate (k * size) 0%Z ++ post) =
  pre ++ flat_map rec (seq 0 j) ++ replicate ((k - j) * size) 0%Z ++ post.
Proof.
  intros Hw Hl Hb. induction j as [|j IH]; intros Hj; [by rewrite Nat.sub_0_r|].
  rewrite seq_S, fold_left_app, IH by lia. simpl. rewrite Hw.
  assert (Hlen : length (flat_map rec (seq 0 j)) = j * size).
  { clear IH. induction j as [|j IHj]; [done|]. rewrite seq_S, flat_map_app, length_app, IHj by lia. simpl.
    rewrite app_nil_r, Hl by lia. lia. }
  replace (base + j * size) with (length (pre ++ flat_map rec (seq 0 j))) by (rewrite length_app; lia).
  replace ((k - j) * size) with (size + (k - S j) * size) by nia. rewrite replicate_add.
  rewrite (app_assoc pre), <- (app_assoc (replicate size 0%Z)).
  rewrite (inserts_mid (pre ++ flat_map rec (seq 0 j)) (rec j) (replicate size 0%Z)).
  2:{ rewrite length_replicate, Hl by lia. done. }
  rewrite flat_map_app. simpl. rewrite app_nil_r, <- !app_assoc. done.
Qed.

Lemma length_header_bytes d size : length (header_bytes d size) = 64.
Proof. reflexivity. Qed.

Lemma encoded_size_nat d :
  document_shape d -> (service_count d <= 64)%Z -> (dependency_count d <= 256)%Z ->
  Z.to_nat (ServiceManifestEncodedSizeV1 (service_count d) (dependency_count d)) =
  64 + services_used d * 256 + dependencies_used d * 16 /\
  ServiceManifestEncodedSizeV1 (service_count d) (dependency_count d) =
  (64 + service_count d * 256 + dependency_count d * 16)%Z.
Proof.
  intros Hd Hs Hc. pose proof (ds_services d Hd). pose proof (ds_dependencies d Hd).
  unfold ServiceManifestEncodedSizeV1, services_used, dependencies_used, kServiceManifestMaximumServices,
    kServiceManifestMaximumDependencies, kServiceManifestV1HeaderBytes, kServiceManifestV1ServiceBytes,
    kServiceManifestV1DependencyBytes.
  destruct (Z.ltb_spec 64 (service_count d)); [lia|]. destruct (Z.ltb_spec 256 (dependency_count d)); [lia|].
  simpl orb. cbv iota. unfold_widths. split; [|done]. lia.
Qed.

Lemma length_encoding d : document_shape d ->
  length (encoding d) = 64 + services_used d * 256 + dependencies_used d * 16.
Proof.
  intros Hd. unfold encoding. rewrite !length_app, length_header_bytes.
  assert (H1 : forall j, length (flat_map (fun i => service_bytes (service_at d i)) (seq 0 j)) = j * 256).
  { induction j as [|j IH]; [done|]. rewrite seq_S, flat_map_app, length_app, IH. cbn [flat_map].
    rewrite app_nil_r, length_service_bytes by (by apply service_at_shape). lia. }
  assert (H2 : forall j, length (flat_map (fun i => dependency_bytes (dependency_at d i)) (seq 0 j)) = j * 16).
  { induction j as [|j IH]; [done|]. rewrite seq_S, flat_map_app, length_app, IH. cbn [flat_map].
    rewrite app_nil_r. change (length (dependency_bytes (dependency_at d (0 + j)))) with 16. lia. }
  rewrite H1, H2. lia.
Qed.

(** ** What the encoder writes *)

Lemma encode_writes d tail :
  document_shape d -> (service_count d <= 64)%Z -> (dependency_count d <= 256)%Z ->
  let size := ServiceManifestEncodedSizeV1 (service_count d) (dependency_count d) in
  encode_dependencies d (encode_services d (EncodeHeader (replicate (Z.to_nat size) 0%Z ++ tail) d size)) =
  encoding d ++ tail.
Proof.
  intros Hd Hs Hc. cbv zeta. destruct (encoded_size_nat d Hd Hs Hc) as [Hn _]. rewrite Hn.
  set (size := ServiceManifestEncodedSizeV1 _ _). rewrite !replicate_add, <- !app_assoc, EncodeHeader_bytes.
  unfold encode_services.
  rewrite (fold_records _ (fun i => service_bytes (service_at d i)) 256 64 (header_bytes d size)
    (replicate (dependencies_used d * 16) 0%Z ++ tail) (services_used d)); try done.
  2:{ intros bytes i. apply EncodeService_inserts. by apply service_at_shape. }
  2:{ intros i _. apply length_service_bytes. by apply service_at_shape. }
  rewrite Nat.sub_diag. cbn [Nat.mul replicate app]. unfold encode_dependencies. rewrite app_assoc.
  set (pre := header_bytes d size ++ _).
  assert (Hpre : length pre = 64 + services_used d * 256).
  { unfold pre. rewrite length_app, length_header_bytes. f_equal. generalize (services_used d). intros j.
    induction j as [|j IH]; [done|]. rewrite seq_S, flat_map_app, length_app, IH. cbn [flat_map].
    rewrite app_nil_r, length_service_bytes by (by apply service_at_shape). lia. }
  rewrite (fold_records _ (fun i => dependency_bytes (dependency_at d i)) 16 (64 + services_used d * 256) pre
    tail (dependencies_used d)); try done.
  2:{ intros bytes i. rewrite EncodeDependency_inserts. f_equal.
      unfold EncodedDependenciesOffset, services_used, kServiceManifestV1HeaderBytes, kServiceManifestV1ServiceBytes.
      pose proof (ds_services d Hd). unfold_widths. lia. }
  rewrite Nat.sub_diag. cbn [Nat.mul replicate app]. unfold pre, encoding. fold size. by rewrite <- !app_assoc.
Qed.

(** The pieces hashed are the encoding. *)
Lemma hash_pieces_encoding d :
  document_shape d ->
  concat (hash_pieces d (ServiceManifestEncodedSizeV1 (service_count d) (dependency_count d))) = encoding d.
Proof.
  intros Hd. unfold hash_pieces, encoding. cbn [concat]. f_equal.
  rewrite concat_app, !flat_map_concat_map. f_equal.
  - f_equal. apply map_ext. intros i. rewrite EncodeService_inserts by (by apply service_at_shape).
    rewrite inserts_split by (by rewrite length_service_bytes by (by apply service_at_shape)).
    rewrite length_service_bytes by (by apply service_at_shape). by rewrite app_nil_r.
Qed.

Lemma hash_pieces_small d size : document_shape d ->
  Forall (fun p => (Z.of_nat (length p) < 4294967296 - 64)%Z) (hash_pieces d size).
Proof.
  intros Hd. unfold hash_pieces. constructor; [by rewrite length_take; lia|]. apply Forall_app. split.
  - apply Forall_forall. intros p Hp. apply list_elem_of_fmap in Hp as (i & -> & _).
    rewrite EncodeService_inserts by (by apply service_at_shape). rewrite length_inserts. simpl. lia.
  - apply Forall_forall. intros p Hp. apply list_elem_of_fmap in Hp as (i & -> & _). rewrite length_take. lia.
Qed.

(** ** Reading fields *)

Lemma byte_at_skip f r k : length f <= k -> byte_at (f ++ r) k = byte_at r (k - length f).
Proof. intros H. unfold byte_at. by rewrite app_nth2 by lia. Qed.

Lemma read16_skip f r k : length f <= k -> ReadLe16 (f ++ r) k = ReadLe16 r (k - length f).
Proof.
  intros H. unfold ReadLe16. rewrite !byte_at_skip by lia. by replace (k + 1 - length f) with (k - length f + 1) by lia.
Qed.

Lemma read32_skip f r k : length f <= k -> ReadLe32 (f ++ r) k = ReadLe32 r (k - length f).
Proof.
  intros H. unfold ReadLe32. rewrite !byte_at_skip by lia. replace (k + 1 - length f) with (k - length f + 1) by lia.
  replace (k + 2 - length f) with (k - length f + 2) by lia. by replace (k + 3 - length f) with (k - length f + 3) by lia.
Qed.

Lemma read64_skip f r k : length f <= k -> ReadLe64 (f ++ r) k = ReadLe64 r (k - length f).
Proof.
  intros H. unfold ReadLe64. rewrite !read32_skip by lia. by replace (k + 4 - length f) with (k - length f + 4) by lia.
Qed.

Lemma take_skip (f r : list Z) m k : length f <= k -> take m (drop k (f ++ r)) = take m (drop (k - length f) r).
Proof. intros H. by rewrite drop_app_ge by lia. Qed.

Lemma read16_head v r : is_u16 v -> ReadLe16 (le16 v ++ r) 0 = v.
Proof. apply read_write16. Qed.

Lemma read32_head v r : is_u32 v -> ReadLe32 (le32 v ++ r) 0 = v.
Proof. apply read_write32. Qed.

Lemma read64_head v r : is_u64 v -> ReadLe64 (le64 v ++ r) 0 = v.
Proof.
  intros Hv. destruct (split64 v Hv) as (Hlo & Hhi & He). unfold ReadLe64, le64. rewrite <- app_assoc.
  rewrite read32_head, (read32_skip (le32 _)) by (done || (simpl; lia)). simpl Nat.sub. by rewrite read32_head.
Qed.

Lemma byte_head v r : byte_at ([v] ++ r) 0 = v.
Proof. done. Qed.

Lemma take_head (f r : list Z) m : length f = m -> take m (drop 0 (f ++ r)) = f.
Proof. intros <-. rewrite drop_0. apply take_app_length. Qed.

Lemma length_le16 v : length (le16 v) = 2.
Proof. done. Qed.
Lemma length_le32 v : length (le32 v) = 4.
Proof. done. Qed.
Lemma length_le64 v : length (le64 v) = 8.
Proof. done. Qed.
Lemma length_byte (v : Z) : length [v] = 1.
Proof. done. Qed.

(** [field] reads one field of a concatenation of fields: it skips the ones
    before, whose lengths are [lens] and hypotheses. *)
Ltac field_lengths :=
  repeat match goal with
    | |- context [length (le16 ?v)] => rewrite (length_le16 v)
    | |- context [length (le32 ?v)] => rewrite (length_le32 v)
    | |- context [length (le64 ?v)] => rewrite (length_le64 v)
    | |- context [length [?v]] => rewrite (length_byte v)
    | |- context [length (replicate ?k ?v)] => rewrite (length_replicate k v)
    | H : length ?l = ?k |- context [length ?l] => rewrite H
    end.
Ltac skip_field lem := rewrite lem by (field_lengths; lia); field_lengths; cbn [Nat.sub].
Ltac field :=
  repeat first [skip_field read64_skip | skip_field read32_skip | skip_field read16_skip
               | skip_field byte_at_skip | skip_field take_skip];
  first [apply read64_head | apply read32_head | apply read16_head | apply byte_head | apply take_head]; done.

Lemma service_eta s : s = (MkService (svc_identity s) (executable_transfer_ref s) (immutable_policy_selector s)
    (executable_content_hash s) (requested_capability_ceiling s) (requested_frame_budget_pages s) (requested_tick_budget s)
    (requested_section_objects s) (requested_section_pages s) (dependency_first s) (svc_dependency_count s) (name_length s)
    (executable_path_length s) (svc_kind s) (restart_policy s) (autostart s) (resource_profile s) (svc_flags s)
    (svc_reserved s) (svc_name s) (executable_path s)).
Proof. by destruct s. Qed.

Lemma DecodeService_at pre s post :
  service_shape s -> DecodeService (pre ++ service_bytes s ++ post) (length pre) = s.
Proof.
  intros Hs. destruct (ss_hash s Hs) as [Hh _]. destruct (ss_name s Hs) as [Hn _]. destruct (ss_path s Hs) as [Hp _].
  pose proof Hs as [? ? ? _ ? ? ? ? ? ? ? ? ? ? ? ? ? ? ? _ _].
  unfold DecodeService, kServiceIdentityOffset, kServiceTransferRefOffset, kServicePolicySelectorOffset, kServiceContentHashOffset,
    kServiceCapabilitiesOffset, kServiceFrameBudgetOffset, kServiceTickBudgetOffset, kServiceSectionObjectsOffset,
    kServiceSectionPagesOffset, kServiceDependencyFirstOffset, kServiceDependencyCountOffset, kServiceNameLengthOffset,
    kServicePathLengthOffset, kServiceKindOffset, kServiceRestartOffset, kServiceAutostartOffset,
    kServiceResourceProfileOffset, kServiceFlagsOffset, kServiceReservedOffset, kServiceNameOffset, kServicePathOffset.
  rewrite !(read64_skip pre), !(read32_skip pre), !(read16_skip pre), !(byte_at_skip pre), !(take_skip pre) by lia.
  rewrite !(Nat.add_comm (length pre)), !Nat.add_sub. unfold service_bytes. rewrite <- !app_assoc.
  rewrite (take_ge (executable_content_hash s)), (take_ge (svc_name s)), (take_ge (executable_path s)) by lia.
  etransitivity; [|symmetry; apply service_eta]. f_equal; field.
Qed.

(** ** Unused storage is zero *)

Lemma lor_fold_zero l : forall acc, (fold_left (fun any b => Z.lor any b) l acc = 0 <-> acc = 0 /\ Forall (fun b => b = 0) l)%Z.
Proof.
  induction l as [|b l IH]; intros acc; simpl.
  - split; [by intros|by intros [? _]].
  - rewrite IH, Z.lor_eq_0_iff, Forall_cons. tauto.
Qed.

Lemma AllZero_spec l : AllZero l = true <-> l = replicate (length l) 0%Z.
Proof.
  unfold AllZero. rewrite Z.eqb_eq, lor_fold_zero. split.
  - intros [_ H]. symmetry. apply replicate_as_Forall. split; [done|]. eapply Forall_impl; [done|]. by intros x ->.
  - intros H. split; [done|]. rewrite H. by apply Forall_replicate.
Qed.

Lemma ServiceIsZero_eq s : service_shape s -> ServiceIsZero s = true -> s = zero_service.
Proof.
  intros Hs H. unfold ServiceIsZero in H. rewrite !andb_true_iff in H. destruct_and!.
  destruct (ss_hash s Hs) as [Hh _]. destruct (ss_name s Hs) as [Hn _]. destruct (ss_path s Hs) as [Hp _]. clear Hs.
  unfold HashIsZero in *. rewrite (take_ge (executable_content_hash s)), (take_ge (svc_name s)), (take_ge (executable_path s)) in * by lia.
  rewrite AllZero_spec, ?Hh, ?Hn, ?Hp in *. rewrite !Z.eqb_eq in *.
  rewrite (service_eta s). unfold zero_service, zero_hash. f_equal; assumption.
Qed.

Lemma unused_services d i : document_shape d ->
  forallb ServiceIsZero (drop (services_used d) (take 64 (services d))) = true ->
  services_used d <= i < 64 -> service_at d i = zero_service.
Proof.
  intros Hd H Hi. destruct (ds_rows d Hd) as [Hl Hs]. rewrite take_ge in H by lia.
  apply ServiceIsZero_eq; [by apply service_at_shape|].
  rewrite forallb_forall in H. apply H. unfold service_at.
  replace (nth i (services d) zero_service) with (nth (i - services_used d) (drop (services_used d) (services d)) zero_service).
  - apply nth_In. rewrite length_drop. lia.
  - rewrite nth_lookup, lookup_drop, <- nth_lookup. f_equal. lia.
Qed.

Lemma unused_dependencies d i : document_shape d ->
  forallb (fun e => (owner_service_identity e =? 0)%Z && (dependency_service_identity e =? 0)%Z)
    (drop (dependencies_used d) (take 256 (dependencies d))) = true ->
  dependencies_used d <= i < 256 -> dependency_at d i = zero_dependency.
Proof.
  intros Hd H Hi. destruct (ds_edges d Hd) as [Hl _]. rewrite take_ge in H by lia.
  rewrite forallb_forall in H. unfold dependency_at.
  assert (Hin : In (nth i (dependencies d) zero_dependency) (drop (dependencies_used d) (dependencies d))).
  { replace (nth i (dependencies d) zero_dependency)
      with (nth (i - dependencies_used d) (drop (dependencies_used d) (dependencies d)) zero_dependency).
    - apply nth_In. rewrite length_drop. lia.
    - rewrite nth_lookup, lookup_drop, <- nth_lookup. f_equal. lia. }
  apply H, andb_true_iff in Hin as [H1 H2]. apply Z.eqb_eq in H1, H2.
  destruct (nth i (dependencies d) zero_dependency) as [o t]. simpl in *. by rewrite H1, H2.
Qed.

(** ** Decoding the encoding *)

Lemma flat_map_split {A} (f : nat -> list A) j k : j < k ->
  flat_map f (seq 0 k) = flat_map f (seq 0 j) ++ f j ++ flat_map f (seq (S j) (k - S j)).
Proof.
  intros H. replace k with (j + S (k - S j)) at 1 by lia. by rewrite seq_app, flat_map_app.
Qed.

Lemma length_flat_map (f : nat -> list Z) m j : (forall i, length (f i) = m) -> length (flat_map f (seq 0 j)) = j * m.
Proof.
  intros H. induction j as [|j IH]; [done|]. rewrite seq_S, flat_map_app, length_app, IH. cbn [flat_map].
  rewrite app_nil_r, H. lia.
Qed.

Lemma decode_service_at d tail i :
  document_shape d -> i < services_used d ->
  DecodeService (encoding d ++ tail) (64 + i * 256) = service_at d i.
Proof.
  intros Hd Hi. unfold encoding.
  rewrite (flat_map_split (fun i => service_bytes (service_at d i)) i) by done. rewrite <- !app_assoc.
  rewrite (app_assoc (header_bytes d _)).
  replace (64 + i * 256) with (length (header_bytes d (ServiceManifestEncodedSizeV1 (service_count d) (dependency_count d)) ++
    flat_map (fun i => service_bytes (service_at d i)) (seq 0 i))).
  - apply DecodeService_at. by apply service_at_shape.
  - rewrite length_app, length_header_bytes, (length_flat_map _ 256); [done|].
    intros k. apply length_service_bytes. by apply service_at_shape.
Qed.

Lemma decode_dependency_at d tail i :
  document_shape d -> i < dependencies_used d ->
  MkDependency (ReadLe64 (encoding d ++ tail) (64 + services_used d * 256 + i * 16 + kDependencyOwnerOffset))
    (ReadLe64 (encoding d ++ tail) (64 + services_used d * 256 + i * 16 + kDependencyTargetOffset)) = dependency_at d i.
Proof.
  intros Hd Hi. unfold encoding.
  rewrite (flat_map_split (fun i => dependency_bytes (dependency_at d i)) i) by done. rewrite <- !app_assoc.
  rewrite (app_assoc (header_bytes d _)), (app_assoc (header_bytes d _ ++ _)).
  set (pre := (header_bytes d _ ++ _) ++ _).
  assert (Hpre : length pre = 64 + services_used d * 256 + i * 16).
  { unfold pre. rewrite !length_app, length_header_bytes, (length_flat_map _ 256), (length_flat_map _ 16); [done|done|].
    intros k. apply length_service_bytes. by apply service_at_shape. }
  rewrite <- Hpre. clearbody pre. unfold kDependencyOwnerOffset, kDependencyTargetOffset.
  rewrite !(read64_skip pre) by lia. rewrite !(Nat.add_comm (length pre)), !Nat.add_sub.
  destruct (dependency_at_shape d i Hd) as [Ho Ht]. unfold dependency_bytes. rewrite <- !app_assoc.
  destruct (dependency_at d i) as [o t]. simpl in Ho, Ht. cbn [owner_service_identity dependency_service_identity].
  f_equal; field.
Qed.

Lemma decode_encoding d tail :
  document_shape d -> document_accepted d None ->
  decode_document (encoding d ++ tail) (service_count d) (dependency_count d) 64 (EncodedDependenciesOffset d)
    (manifest_identity d) (signer_identity d) (profile_identity d) (doc_flags d) = d.
Proof.
  intros Hd Ha. destruct (ds_rows d Hd) as [Hl _]. destruct (ds_edges d Hd) as [He _].
  pose proof (ds_services d Hd) as Hsc.
  assert (Hoff : Z.to_nat (EncodedDependenciesOffset d) = 64 + services_used d * 256).
  { unfold EncodedDependenciesOffset, services_used, kServiceManifestV1HeaderBytes, kServiceManifestV1ServiceBytes.
    unfold_widths. lia. }
  unfold decode_document. rewrite Hoff.
  transitivity (MkDocument (manifest_identity d) (signer_identity d) (profile_identity d) (service_count d)
    (dependency_count d) (doc_flags d) (doc_reserved d) (services d) (dependencies d)); [|by destruct d].
  f_equal.
  - by rewrite (da_reserved d None Ha).
  - rewrite <- (map_nth_seq (services d) zero_service) at 1. rewrite Hl. apply map_ext_in. intros i Hi. apply in_seq in Hi.
    fold (services_used d). destruct (Nat.ltb_spec i (services_used d)) as [Hlt|Hge].
    + by apply decode_service_at.
    + symmetry. apply unused_services; [done|apply (da_unused d None Ha)|lia].
  - rewrite <- (map_nth_seq (dependencies d) zero_dependency) at 1. rewrite He. apply map_ext_in. intros i Hi. apply in_seq in Hi.
    fold (dependencies_used d). destruct (Nat.ltb_spec i (dependencies_used d)) as [Hlt|Hge].
    + by apply decode_dependency_at.
    + symmetry. apply unused_dependencies; [done|apply (da_unused_edges d None Ha)|lia].
Qed.

(** ** The header of an encoding *)

Record header_read (bytes : list Z) (size sc dc flags mi si pi deps : Z) : Prop := {
  hr_size : ReadLe32 bytes kHeaderTotalSizeOffset = size;
  hr_version : ReadLe16 bytes kHeaderVersionOffset = 1%Z;
  hr_header : ReadLe16 bytes kHeaderBytesOffset = 64%Z;
  hr_service : ReadLe16 bytes kHeaderServiceBytesOffset = 256%Z;
  hr_dependency : ReadLe16 bytes kHeaderDependencyBytesOffset = 16%Z;
  hr_services : ReadLe16 bytes kHeaderServiceCountOffset = sc;
  hr_dependencies : ReadLe16 bytes kHeaderDependencyCountOffset = dc;
  hr_flags : ReadLe32 bytes kHeaderFlagsOffset = flags;
  hr_reserved32 : ReadLe32 bytes kHeaderReserved32Offset = 0%Z;
  hr_manifest : ReadLe64 bytes kHeaderManifestIdentityOffset = mi;
  hr_signer : ReadLe64 bytes kHeaderSignerIdentityOffset = si;
  hr_profile : ReadLe64 bytes kHeaderProfileIdentityOffset = pi;
  hr_services_offset : ReadLe32 bytes kHeaderServicesOffset = 64%Z;
  hr_dependencies_offset : ReadLe32 bytes kHeaderDependenciesOffset = deps;
  hr_reserved64 : ReadLe64 bytes kHeaderReserved64Offset = 0%Z;
}.

Lemma encoding_header d tail :
  document_shape d -> (service_count d <= 64)%Z -> (dependency_count d <= 256)%Z ->
  header_read (encoding d ++ tail) (ServiceManifestEncodedSizeV1 (service_count d) (dependency_count d))
    (service_count d) (dependency_count d) (doc_flags d) (manifest_identity d) (signer_identity d) (profile_identity d)
    (EncodedDependenciesOffset d).
Proof.
  intros Hd Hs Hc. destruct (encoded_size_nat d Hd Hs Hc) as [_ Hsize].
  pose proof (ds_services d Hd) as Hsc. pose proof (ds_dependencies d Hd) as Hdc. pose proof (ds_flags d Hd).
  pose proof (ds_manifest d Hd). pose proof (ds_signer d Hd). pose proof (ds_profile d Hd).
  assert (Hs32 : is_u32 (ServiceManifestEncodedSizeV1 (service_count d) (dependency_count d))) by (rewrite Hsize; ulia).
  assert (Hd32 : is_u32 (EncodedDependenciesOffset d)).
  { unfold EncodedDependenciesOffset, kServiceManifestV1HeaderBytes, kServiceManifestV1ServiceBytes. ulia. }
  change (replicate 4 0%Z) with (le32 0) in *. unfold encoding, header_bytes.
  change (replicate 4 0%Z) with (le32 0). change (replicate 8 0%Z) with (le64 0). rewrite <- !app_assoc.
  assert (is_u16 1 /\ is_u16 64 /\ is_u16 256 /\ is_u16 16 /\ is_u32 64 /\ is_u32 0 /\ is_u64 0) by (split_and!; ulia).
  destruct_and!.
  split; unfold kHeaderTotalSizeOffset, kHeaderVersionOffset, kHeaderBytesOffset, kHeaderServiceBytesOffset,
    kHeaderDependencyBytesOffset, kHeaderServiceCountOffset, kHeaderDependencyCountOffset, kHeaderFlagsOffset,
    kHeaderReserved32Offset, kHeaderManifestIdentityOffset, kHeaderSignerIdentityOffset, kHeaderProfileIdentityOffset,
    kHeaderServicesOffset, kHeaderDependenciesOffset, kHeaderReserved64Offset; field.
Qed.

(** ** Acceptance without the authority *)

Lemma ValidateService_weaken s a : ValidateService s (Some a) = ManifestOk -> ValidateService s None = ManifestOk.
Proof.
  intros H. unfold ValidateService in *. cbn [denies] in *.
  repeat (match type of H with
          | (if ?c then _ else _) = _ => destruct c; [discriminate H|]
          end). done.
Qed.

Lemma check_rows_weaken d a : forall todo index cursor cursor',
  check_rows todo d (Some a) index cursor = inr cursor' -> check_rows todo d None index cursor = inr cursor'.
Proof.
  induction todo as [|todo IH]; intros index cursor cursor' H; [done|]. cbn [check_rows] in *. cbv zeta in *.
  destruct (ValidateService (service_at d index) (Some a)) eqn:Hv; try discriminate H.
  rewrite (ValidateService_weaken _ _ Hv).
  destruct (negb (Nat.eqb index 0) && _); [done|]. destruct (check_previous _ _); try discriminate H.
  destruct (negb (dependency_first _ =? cursor)%Z || _); [done|]. destruct (check_edges _ _ _); try discriminate H.
  by apply IH.
Qed.

Lemma accepted_validates d authority :
  document_accepted d authority -> ValidateDocumentInternal d authority = ValidateGraph d.
Proof.
  intros Ha. unfold ValidateDocumentInternal.
  rewrite (da_manifest _ _ Ha), (da_signer _ _ Ha), (da_profile _ _ Ha), (da_flags _ _ Ha), (da_reserved _ _ Ha).
  pose proof (da_count _ _ Ha) as Hc. pose proof (da_dependencies _ _ Ha) as Hdc.
  unfold kServiceManifestMaximumServices, kServiceManifestMaximumDependencies.
  destruct (Z.eqb_spec (service_count d) 0); [lia|]. destruct (Z.ltb_spec 64 (service_count d)); [lia|].
  destruct (Z.ltb_spec 256 (dependency_count d)); [lia|].
  rewrite (da_denied _ _ Ha), (da_denied_dependencies _ _ Ha), (da_cursor _ _ Ha),
    !Z.eqb_refl, (da_unused _ _ Ha), (da_unused_edges _ _ Ha). simpl negb. cbn [orb].
  destruct (existsb _ _) eqn:Hex; [|done]. apply existsb_exists in Hex as (k & Hk & Hf). apply in_seq in Hk.
  apply Z.eqb_eq in Hf. by destruct (da_targets _ _ Ha k ltac:(lia)).
Qed.

Lemma accepted_weaken d a :
  document_shape d -> document_accepted d (Some a) -> document_accepted d None.
Proof.
  intros Hd [h1 h2 h3 h4 h5 h6 h7 h8 h9 h10 h11 h12 h13 h14].
  pose proof (check_rows_weaken d a _ _ _ _ h10) as Hc.
  split; try done. intros i Hi. pose proof (ds_dependencies d Hd).
  apply (check_rows_inv d None Hd (services_used d) 0 0 (dependency_count d)); [unfold_widths; lia|exact Hc|lia].
Qed.

(** ** Encoding what was decoded *)

Lemma take_byte (l : list Z) k m : k < length l -> take (S m) (drop k l) = byte_at l k :: take m (drop (S k) l).
Proof.
  intros Hk. destruct (lookup_lt_is_Some_2 l k Hk) as [b Hb]. rewrite (drop_S l b k Hb). simpl.
  unfold byte_at. by rewrite (nth_lookup_Some _ _ _ _ Hb).
Qed.

Lemma le16_read l k : bytes_ok l -> k + 2 <= length l -> le16 (ReadLe16 l k) = take 2 (drop k l).
Proof.
  intros Hl Hk. rewrite !take_byte, take_0 by lia. unfold le16, ReadLe16. rewrite Nat.add_1_r.
  destruct (write_read16 (byte_at l k) (byte_at l (S k))) as [-> ->]; auto with duet.
Qed.

Lemma le32_read l k : bytes_ok l -> k + 4 <= length l -> le32 (ReadLe32 l k) = take 4 (drop k l).
Proof.
  intros Hl Hk. rewrite !take_byte, take_0 by lia. unfold le32, ReadLe32.
  replace (k + 1) with (S k) by lia. replace (k + 2) with (S (S k)) by lia. replace (k + 3) with (S (S (S k))) by lia.
  destruct (write_read32 (byte_at l k) (byte_at l (S k)) (byte_at l (S (S k))) (byte_at l (S (S (S k))))) as (-> & -> & -> & ->);
    auto with duet.
Qed.

Lemma take_drop_join {A} (l : list A) a b k j : j = k + a -> take a (drop k l) ++ take b (drop j l) = take (a + b) (drop k l).
Proof. intros ->. by rewrite <- drop_drop, take_take_drop. Qed.

Lemma read32_u32 l k : bytes_ok l -> is_u32 (ReadLe32 l k).
Proof. intros Hl. apply read32_range; auto with duet. Qed.

Lemma le64_read l k : bytes_ok l -> k + 8 <= length l -> le64 (ReadLe64 l k) = take 8 (drop k l).
Proof.
  intros Hl Hk. unfold le64, ReadLe64.
  destruct (join64 (ReadLe32 l k) (ReadLe32 l (k + 4))) as (_ & -> & ->); [by apply read32_u32..|].
  rewrite !le32_read by (done || lia). by rewrite take_drop_join.
Qed.

Lemma byte_read (l : list Z) k : k < length l -> [byte_at l k] = take 1 (drop k l).
Proof. intros Hk. by rewrite take_byte, take_0 by lia. Qed.

Lemma service_bytes_decode bytes off :
  bytes_ok bytes -> off + 256 <= length bytes ->
  service_bytes (DecodeService bytes off) = take 256 (drop off bytes).
Proof.
  intros Hb Hl. unfold service_bytes, DecodeService.
  cbn [svc_identity executable_transfer_ref immutable_policy_selector executable_content_hash requested_capability_ceiling
    requested_frame_budget_pages requested_tick_budget requested_section_objects requested_section_pages dependency_first
    svc_dependency_count name_length executable_path_length svc_kind restart_policy autostart resource_profile svc_flags
    svc_reserved svc_name executable_path].
  unfold kServiceIdentityOffset, kServiceTransferRefOffset, kServicePolicySelectorOffset, kServiceContentHashOffset,
    kServiceCapabilitiesOffset, kServiceFrameBudgetOffset, kServiceTickBudgetOffset, kServiceSectionObjectsOffset,
    kServiceSectionPagesOffset, kServiceDependencyFirstOffset, kServiceDependencyCountOffset, kServiceNameLengthOffset,
    kServicePathLengthOffset, kServiceKindOffset, kServiceRestartOffset, kServiceAutostartOffset,
    kServiceResourceProfileOffset, kServiceFlagsOffset, kServiceReservedOffset, kServiceNameOffset, kServicePathOffset.
  rewrite !le64_read, !le32_read, !le16_read, !byte_read, !take_take by (done || lia).
  rewrite !Nat.min_id, Nat.add_0_r.
  repeat (rewrite take_drop_join by lia). done.
Qed.

Lemma dependency_bytes_decode bytes off :
  bytes_ok bytes -> off + 16 <= length bytes ->
  dependency_bytes (MkDependency (ReadLe64 bytes (off + kDependencyOwnerOffset)) (ReadLe64 bytes (off + kDependencyTargetOffset))) =
  take 16 (drop off bytes).
Proof.
  intros Hb Hl. unfold dependency_bytes, kDependencyOwnerOffset, kDependencyTargetOffset.
  cbn [owner_service_identity dependency_service_identity].
  rewrite !le64_read by (done || lia). rewrite Nat.add_0_r. by rewrite take_drop_join by lia.
Qed.

Lemma flat_map_records (l : list Z) base size k :
  base + k * size <= length l ->
  flat_map (fun i => take size (drop (base + i * size) l)) (seq 0 k) = take (k * size) (drop base l).
Proof.
  induction k as [|k IH]; intros Hk; [done|]. rewrite seq_S, flat_map_app, IH by lia. cbn [flat_map].
  rewrite app_nil_r, take_drop_join by lia. f_equal. lia.
Qed.

Lemma read64_u64 l k : bytes_ok l -> is_u64 (ReadLe64 l k).
Proof. intros Hl. apply join64; by apply read32_u32. Qed.

Lemma read16_u16 l k : is_u16 (ReadLe16 l k).
Proof. apply wrap16_range. Qed.

#[local] Hint Resolve read32_u32 read64_u64 read16_u16 byte_at_ok : duet.

Lemma DecodeService_shape bytes off : bytes_ok bytes -> off + 256 <= length bytes -> service_shape (DecodeService bytes off).
Proof.
  intros Hb Hl. split; unfold DecodeService;
    cbn [svc_identity executable_transfer_ref immutable_policy_selector executable_content_hash requested_capability_ceiling
      requested_frame_budget_pages requested_tick_budget requested_section_objects requested_section_pages dependency_first
      svc_dependency_count name_length executable_path_length svc_kind restart_policy autostart resource_profile svc_flags
      svc_reserved svc_name executable_path]; auto with duet.
  all: split; [rewrite length_take, length_drop; unfold kServiceContentHashOffset, kServiceNameOffset, kServicePathOffset; lia|].
  all: by apply Forall_take, Forall_drop.
Qed.
