(* ===== verification/ServiceManifestProps.v ===== *)
(** * Theorems about service manifests

    The validator of sealed bytes accepts exactly one encoding per document,
    the encoder and the hash agree with it, an accepted plan stays inside the
    authority snapshot and its start order respects the dependencies. *)

From S2P Require Import Prelude Bytes Sha256 ServiceManifest ServiceManifestGraph ServiceManifestCodec.

(** ** The pointer tests *)

Definition manifest_pointers_ok (bytes : Buffer) (byte_count authority_addr plan_out : Z) : bool :=
  negb (plan_out =? 0) && PointerRangeIsValid plan_out sizeof_Plan &&
  negb (authority_addr =? 0) && PointerRangeIsValid authority_addr sizeof_Authority &&
  negb (buf_addr bytes =? 0) &&
  negb (negb (byte_count =? 0) &&
        (negb (PointerRangeIsValid (buf_addr bytes) byte_count)
         || PointerRangesOverlap plan_out sizeof_Plan (buf_addr bytes) byte_count
         || PointerRangesOverlap authority_addr sizeof_Authority (buf_addr bytes) byte_count)) &&
  negb (PointerRangesOverlap plan_out sizeof_Plan authority_addr sizeof_Authority).

Lemma validate_pointers bytes byte_count authority_addr a plan_out :
  ServiceManifestValidateV1 bytes byte_count authority_addr a plan_out =
  if manifest_pointers_ok bytes byte_count authority_addr plan_out
  then match validate_sealed (buf_bytes bytes) byte_count a with Some (e, plan) => Some (e, Some plan) | None => None end
  else ServiceManifestValidateV1 bytes byte_count authority_addr a plan_out.
Proof.
  destruct (manifest_pointers_ok _ _ _ _) eqn:H; [|done]. unfold manifest_pointers_ok in H.
  rewrite !andb_true_iff, !negb_true_iff in H. destruct H as [[[[[[H1 H2] H3] H4] H5] H6] H7].
  unfold ServiceManifestValidateV1. rewrite H1, H2, H3, H4, H5, H7. cbn [negb andb].
  destruct (byte_count =? 0); cbn [negb andb]; [done|].
  cbn [negb andb] in H6. rewrite !orb_false_iff, negb_false_iff in H6. destruct H6 as [[-> ->] ->]. done.
Qed.

(** ** Hashes *)

(** Compared by unfolding, never by computing the 32 comparisons. *)
#[local] Strategy expand [HashEquals].

Lemma xor_fold_zero (left right : list Z) ks : forall acc,
  fold_left (fun difference i => Z.lor difference (Z.lxor (byte_at left i) (byte_at right i))) ks acc = 0 <->
  acc = 0 /\ Forall (fun i => byte_at left i = byte_at right i) ks.
Proof.
  induction ks as [|k ks IH]; intros acc; simpl.
  - split; [by intros|by intros [? _]].
  - rewrite IH, Z.lor_eq_0_iff, Z.lxor_eq_0_iff, Forall_cons. tauto.
Qed.

Lemma HashEquals_refl h : HashEquals h h = true.
Proof.
  unfold HashEquals. rewrite Z.eqb_eq, xor_fold_zero. split; [done|]. by apply Forall_forall.
Qed.

Lemma xor_fold_eq n left right :
  length left = n -> length right = n ->
  fold_left (fun difference i => Z.lor difference (Z.lxor (byte_at left i) (byte_at right i))) (seq 0 n) 0 = 0 ->
  left = right.
Proof.
  intros Hl Hr H. apply xor_fold_zero in H as [_ H]. rewrite Forall_forall in H.
  apply list_eq. intros i. destruct (decide (i < n)%nat) as [Hi|Hi].
  - specialize (H i (proj2 (elem_of_seq 0 n i) (conj (Nat.le_0_l i) Hi))). unfold byte_at in H.
    destruct (lookup_lt_is_Some_2 left i) as [x Hx]; [lia|]. destruct (lookup_lt_is_Some_2 right i) as [y Hy]; [lia|].
    rewrite (nth_lookup_Some _ _ _ _ Hx), (nth_lookup_Some _ _ _ _ Hy) in H. congruence.
  - rewrite !lookup_ge_None_2 by lia. done.
Qed.

Lemma HashEquals_eq left right :
  length left = 32%nat -> length right = 32%nat -> HashEquals left right = true -> left = right.
Proof. intros Hl Hr H. apply (xor_fold_eq 32 left right Hl Hr). exact (proj1 (Z.eqb_eq _ _) H). Qed.

(** ** The decoded document *)

Section decoded.
Context (bytes : list Z) (sc dc mi si pi : Z).
Context (Hbytes : bytes_ok bytes) (Hsc : is_u16 sc) (Hdc : is_u16 dc) (Hmi : is_u64 mi) (Hsi : is_u64 si) (Hpi : is_u64 pi).
Context (Hsc' : sc <= 64) (Hdc' : dc <= 256) (Hlen : (Z.to_nat (64 + sc * 256 + dc * 16) <= length bytes)%nat).

Let d := decode_document bytes sc dc 64 (64 + sc * 256) mi si pi 0.

Lemma decoded_service i : (i < Z.to_nat sc)%nat -> service_at d i = DecodeService bytes (64 + i * 256).
Proof.
  intros Hi. unfold d, service_at, decode_document. cbn [services].
  set (svc := fun i => _). rewrite (nth_indep _ zero_service (svc 0%nat)) by (rewrite length_map, length_seq; ulia).
  rewrite map_nth, seq_nth by ulia. unfold svc. rewrite Nat.add_0_l.
  by rewrite (proj2 (Nat.ltb_lt i (Z.to_nat sc)) Hi).
Qed.

Lemma decoded_dependency i : (i < Z.to_nat dc)%nat ->
  dependency_at d i =
  MkDependency (ReadLe64 bytes (64 + Z.to_nat sc * 256 + i * 16 + kDependencyOwnerOffset))
    (ReadLe64 bytes (64 + Z.to_nat sc * 256 + i * 16 + kDependencyTargetOffset)).
Proof.
  intros Hi. unfold d, dependency_at, decode_document. cbn [dependencies].
  set (dep := fun i => _). rewrite (nth_indep _ zero_dependency (dep 0%nat)) by (rewrite length_map, length_seq; ulia).
  rewrite map_nth, seq_nth by ulia. unfold dep. rewrite Nat.add_0_l.
  rewrite (proj2 (Nat.ltb_lt i (Z.to_nat dc)) Hi).
  by replace (Z.to_nat (64 + sc * 256)) with (64 + Z.to_nat sc * 256)%nat by ulia.
Qed.

Lemma decoded_shape : document_shape d.
Proof.
  split; [exact Hmi|exact Hsi|exact Hpi|exact Hsc|exact Hdc|change (is_u32 0); ulia|change (is_u64 0); ulia| |].
  - split; [unfold d, decode_document; cbn [services]; by rewrite length_map, length_seq|]. apply Forall_forall. intros s Hs.
    unfold d, decode_document in Hs. cbn [services] in Hs. apply list_elem_of_fmap in Hs as (i & -> & Hi).
    destruct (Nat.ltb_spec i (Z.to_nat sc)); [|apply zero_service_shape]. apply DecodeService_shape; [done|]. ulia.
  - split; [unfold d, decode_document; cbn [dependencies]; by rewrite length_map, length_seq|]. apply Forall_forall. intros e He.
    unfold d, decode_document in He. cbn [dependencies] in He. apply list_elem_of_fmap in He as (i & -> & Hi).
    destruct (Nat.ltb i (Z.to_nat dc)); split; simpl; try ulia; by apply read64_u64.
Qed.

End decoded.

Lemma encoding_decoded bytes sc dc mi si pi :
  bytes_ok bytes -> is_u16 sc -> is_u16 dc -> is_u64 mi -> is_u64 si -> is_u64 pi -> sc <= 64 -> dc <= 256 ->
  (Z.to_nat (64 + sc * 256 + dc * 16) <= length bytes)%nat ->
  header_read bytes (64 + sc * 256 + dc * 16) sc dc 0 mi si pi (64 + sc * 256) ->
  encoding (decode_document bytes sc dc 64 (64 + sc * 256) mi si pi 0) = take (Z.to_nat (64 + sc * 256 + dc * 16)) bytes.
Proof.
  intros Hb Hsc Hdc Hmi Hsi Hpi Hs Hd Hlen Hr. set (d := decode_document _ _ _ _ _ _ _ _ _).
  assert (Hshape : document_shape d) by (by apply decoded_shape).
  destruct (encoded_size_nat d Hshape) as [_ Hsize]; [done|done|].
  unfold encoding. rewrite Hsize. change (service_count d) with sc in *. change (dependency_count d) with dc in *.
  change (services_used d) with (Z.to_nat sc). change (dependencies_used d) with (Z.to_nat dc).
  assert (H1 : flat_map (fun i => service_bytes (service_at d i)) (seq 0 (Z.to_nat sc)) =
               take (Z.to_nat sc * 256) (drop 64 bytes)).
  { rewrite <- (flat_map_records bytes 64 256) by ulia. rewrite !flat_map_concat_map. f_equal. apply map_ext_in.
    intros i Hi. apply in_seq in Hi. unfold d. rewrite decoded_service by (done || lia).
    apply service_bytes_decode; [done|ulia]. }
  assert (H2 : flat_map (fun i => dependency_bytes (dependency_at d i)) (seq 0 (Z.to_nat dc)) =
               take (Z.to_nat dc * 16) (drop (64 + Z.to_nat sc * 256) bytes)).
  { rewrite <- (flat_map_records bytes (64 + Z.to_nat sc * 256) 16) by ulia. rewrite !flat_map_concat_map. f_equal.
    apply map_ext_in. intros i Hi. apply in_seq in Hi. unfold d.
    rewrite decoded_dependency by (done || lia). apply dependency_bytes_decode; [done|ulia]. }
  rewrite H1, H2, (take_drop_join bytes (Z.to_nat sc * 256) (Z.to_nat dc * 16) 64) by done.
  assert (H3 : header_bytes d (64 + sc * 256 + dc * 16) = take 64 (drop 0 bytes)).
  { unfold header_bytes. change (replicate 4 0) with (le32 0). change (replicate 8 0) with (le64 0).
    change (EncodedDependenciesOffset d) with (64 + sc * 256). change (doc_flags d) with 0.
    change (manifest_identity d) with mi. change (signer_identity d) with si. change (profile_identity d) with pi.
    change (service_count d) with sc. change (dependency_count d) with dc.
    assert (R32 : forall off v, ReadLe32 bytes off = v -> (off + 4 <= 64)%nat -> le32 v = take 4 (drop off bytes))
      by (intros off v <- ?; apply le32_read; [done|ulia]).
    assert (R16 : forall off v, ReadLe16 bytes off = v -> (off + 2 <= 64)%nat -> le16 v = take 2 (drop off bytes))
      by (intros off v <- ?; apply le16_read; [done|ulia]).
    assert (R64 : forall off v, ReadLe64 bytes off = v -> (off + 8 <= 64)%nat -> le64 v = take 8 (drop off bytes))
      by (intros off v <- ?; apply le64_read; [done|ulia]).
    destruct Hr as [r1 r2 r3 r4 r5 r6 r7 r8 r9 r10 r11 r12 r13 r14 r15].
    unfold kHeaderTotalSizeOffset, kHeaderVersionOffset, kHeaderBytesOffset, kHeaderServiceBytesOffset,
      kHeaderDependencyBytesOffset, kHeaderServiceCountOffset, kHeaderDependencyCountOffset, kHeaderFlagsOffset,
      kHeaderReserved32Offset, kHeaderManifestIdentityOffset, kHeaderSignerIdentityOffset, kHeaderProfileIdentityOffset,
      kHeaderServicesOffset, kHeaderDependenciesOffset, kHeaderReserved64Offset in *.
    transitivity (take 4 (drop 0 bytes) ++ take 2 (drop 4 bytes) ++ take 2 (drop 6 bytes) ++ take 2 (drop 8 bytes) ++
      take 2 (drop 10 bytes) ++ take 2 (drop 12 bytes) ++ take 2 (drop 14 bytes) ++ take 4 (drop 16 bytes) ++
      take 4 (drop 20 bytes) ++ take 8 (drop 24 bytes) ++ take 8 (drop 32 bytes) ++ take 8 (drop 40 bytes) ++
      take 4 (drop 48 bytes) ++ take 4 (drop 52 bytes) ++ take 8 (drop 56 bytes)).
    - repeat (apply (f_equal2 app); [first [apply R64|apply R32|apply R16]; [done|lia]|]). apply R64; [done|lia].
    - repeat (rewrite take_drop_join by lia). done. }

  rewrite H3, take_drop_join by done. rewrite drop_0. f_equal. ulia.
Qed.

(** ** What acceptance of sealed bytes means *)

Record plan_accepted (bytes : list Z) (byte_count : Z) (a : ServiceManifestAuthoritySnapshotV1)
    (plan : ServiceManifestPlanV1) (order : list Z) : Prop := {
  pa_authority : ServiceManifestAuthoritySnapshotIsCanonicalV1 a = true;
  pa_extent : sealed_object_extent a = byte_count;
  pa_hash : exists h, Sha256Hash (Some (take (Z.to_nat byte_count) bytes)) = Some h /\ HashEquals h (sealed_object_hash a) = true;
  pa_shape : document_shape (plan_document plan);
  pa_document : document_accepted (plan_document plan) (Some a);
  pa_graph : ValidateGraph (plan_document plan) = (ManifestOk, order);
  pa_manifest : manifest_identity (plan_document plan) = auth_manifest_identity a;
  pa_signer : signer_identity (plan_document plan) = auth_signer_identity a;
  pa_profile : profile_identity (plan_document plan) = auth_profile_identity a;
  pa_bytes : encoding (plan_document plan) = take (Z.to_nat byte_count) bytes;
  pa_plan : plan = MkPlan (plan_document plan) (authority_identity a) (sealed_object_hash a) byte_count
                     (service_count (plan_document plan)) 0 0 (order ++ replicate (64 - length order) 0);
}.

Lemma validate_sealed_ok bytes byte_count a plan :
  bytes_ok bytes -> 0 <= byte_count <= Z.of_nat (length bytes) ->
  validate_sealed bytes byte_count a = Some (ManifestOk, plan) ->
  exists order, plan_accepted bytes byte_count a plan order.
Proof.
  intros Hb Hlen H. unfold validate_sealed in H. peel H.
  destruct (Sha256Hash _) as [h|] eqn:Hh; [|discriminate H]. cbv zeta in H. peel H.
  rewrite !orb_false_iff, ?negb_false_iff, ?Z.eqb_eq, ?Z.ltb_ge in *. destruct_and!.
  unfold kServiceManifestVersion1, kServiceManifestV1HeaderBytes, kServiceManifestV1ServiceBytes,
    kServiceManifestV1DependencyBytes, kServiceManifestMaximumServices, kServiceManifestMaximumDependencies,
    kServiceManifestV1KnownFlags in *.
  set (sc := ReadLe16 bytes kHeaderServiceCountOffset) in *. set (dc := ReadLe16 bytes kHeaderDependencyCountOffset) in *.
  set (mi := ReadLe64 bytes kHeaderManifestIdentityOffset) in *. set (si := ReadLe64 bytes kHeaderSignerIdentityOffset) in *.
  set (pi := ReadLe64 bytes kHeaderProfileIdentityOffset) in *.
  repeat match goal with E : ReadLe32 bytes ?o = _ |- _ => rewrite E in H end.
  set (d := decode_document bytes sc dc 64 (64 + sc * 256) mi si pi 0) in *.
  destruct (ValidateDocumentInternal d (Some a)) as [e order] eqn:Hv.
  destruct e; try discriminate H. injection H as <-. exists order.
  assert (Hsize : ServiceManifestEncodedSizeV1 sc dc = 64 + sc * 256 + dc * 16).
  { unfold ServiceManifestEncodedSizeV1, kServiceManifestMaximumServices, kServiceManifestMaximumDependencies.
    by rewrite (proj2 (Z.ltb_ge 64 sc) E10), (proj2 (Z.ltb_ge 256 dc) E11). }
  assert (Hcount : byte_count = 64 + sc * 256 + dc * 16) by congruence.
  assert (Hl : (Z.to_nat (64 + sc * 256 + dc * 16) <= length bytes)%nat) by (rewrite <- Hcount; lia).
  assert (Hshape : document_shape d).
  { apply decoded_shape; try done; unfold sc, dc, mi, si, pi; auto using read16_u16, read64_u64. }
  destruct (document_outcome d (Some a) ManifestOk order Hshape Hv) as [[? _]|[Hacc Hgraph]]; [done|].
  split; cbn [plan_document]; try done; [eauto| |by rewrite E3].
  rewrite Hcount. apply encoding_decoded; try done; unfold sc, dc, mi, si, pi; auto using read16_u16, read64_u64.
  fold sc dc mi si pi. rewrite <- Hcount. by split.
Qed.

Lemma validate_ok bytes byte_count authority_addr a plan_out plan :
  bytes_ok (buf_bytes bytes) -> 0 <= byte_count <= Z.of_nat (length (buf_bytes bytes)) ->
  ServiceManifestValidateV1 bytes byte_count authority_addr a plan_out = Some (ManifestOk, plan) ->
  exists p order, plan = Some p /\ plan_accepted (buf_bytes bytes) byte_count a p order.
Proof.
  intros Hb Hl H. unfold ServiceManifestValidateV1 in H. cbv zeta in H. peel H.
  destruct (validate_sealed _ _ _) as [[e p]|] eqn:Hs; [|discriminate H]. injection H as -> <-.
  destruct (validate_sealed_ok _ _ _ _ Hb Hl Hs) as (order & ?). eauto.
Qed.

(** One encoding per document: accepted bytes are the encoding of the
    document in the plan, so two accepted byte strings with the same plan are
    the same bytes, and the authority's hash is the SHA-256 of that encoding. *)
Theorem manifest_bytes_are_canonical bytes byte_count authority_addr a plan_out plan :
  bytes_ok (buf_bytes bytes) -> 0 <= byte_count <= Z.of_nat (length (buf_bytes bytes)) ->
  length (sealed_object_hash a) = 32%nat ->
  ServiceManifestValidateV1 bytes byte_count authority_addr a plan_out = Some (ManifestOk, Some plan) ->
  take (Z.to_nat byte_count) (buf_bytes bytes) = encoding (plan_document plan) /\
  sealed_object_hash a = sha256_of (encoding (plan_document plan)).
Proof.
  intros Hb Hl Hh H. destruct (validate_ok _ _ _ _ _ _ Hb Hl H) as (p & order & Hp & Ha). simplify_eq.
  pose proof (pa_bytes _ _ _ _ _ Ha) as He. split; [done|]. destruct (pa_hash _ _ _ _ _ Ha) as (h & Hs & Heq).
  rewrite He. pose proof (pa_authority _ _ _ _ _ Ha) as Hc.
  unfold ServiceManifestAuthoritySnapshotIsCanonicalV1 in Hc. rewrite !andb_true_iff, !Z.leb_le in Hc. destruct_and!.
  rewrite Sha256Hash_exact in Hs.
  - simplify_eq. symmetry. apply HashEquals_eq; [apply length_sha256_of|done|done].
  - rewrite length_take. pose proof (pa_extent _ _ _ _ _ Ha). change kServiceManifestMaximumBytes with 20544 in *. lia.
Qed.

(** C26: Whatever bytes the validator accepts, the plan it returns is the
    document those bytes encode, field by field in the layout of the format,
    and the bytes are the sealed ones: the authority's hash is their SHA-256.
    That plan can only narrow the retained authority: the identities are the
    authority's, every service's policy, kind, capabilities, resource profile,
    section and frame and tick budgets are inside it, the counts are at most
    the authority's, and the plan's order starts all services, each after its
    dependencies, the least such order by identity. *)
Theorem manifest_plan_within_authority bytes byte_count authority_addr a plan_out plan :
  bytes_ok (buf_bytes bytes) -> 0 <= byte_count <= Z.of_nat (length (buf_bytes bytes)) ->
  length (sealed_object_hash a) = 32%nat ->
  ServiceManifestValidateV1 bytes byte_count authority_addr a plan_out = Some (ManifestOk, Some plan) ->
  let d := plan_document plan in
  (take (Z.to_nat byte_count) (buf_bytes bytes) = encoding d /\ sealed_object_hash a = sha256_of (encoding d)) /\
  (manifest_identity d = auth_manifest_identity a /\ signer_identity d = auth_signer_identity a /\
   profile_identity d = auth_profile_identity a) /\
  (service_count d <= maximum_services a /\ dependency_count d <= maximum_dependencies a) /\
  (forall i, (i < services_used d)%nat -> service_within (service_at d i) a) /\
  exists order, topological_identities plan = order ++ replicate (64 - length order) 0 /\
    length order = services_used d /\ start_order d order /\ least_order d order.
Proof.
  intros Hb Hl Hh H. pose proof (manifest_bytes_are_canonical _ _ _ _ _ _ Hb Hl Hh H) as Hbytes.
  destruct (validate_ok _ _ _ _ _ _ Hb Hl H) as (p & order & Hp & Ha). simplify_eq. cbv zeta.
  pose proof (pa_document _ _ _ _ _ Ha) as Hd. pose proof (pa_shape _ _ _ _ _ Ha) as Hs.
  split; [exact Hbytes|]. split; [by split_and!; apply Ha|]. split.
  { pose proof (da_denied _ _ Hd) as H1. pose proof (da_denied_dependencies _ _ Hd) as H2. simpl in H1, H2.
    split; by apply Z.ltb_ge. }
  split.
  { intros i Hi. apply (ValidateService_inv _ (Some a)); [by apply (ra_service _ _ _ (da_rows _ _ Hd i Hi))|done|].
    by apply service_at_shape. }
  destruct (ValidateGraph_ok _ _ Hs Hd _ (pa_graph _ _ _ _ _ Ha)) as (_ & Ho & Hle & Hlen).
  exists order. split_and!; [|done|done|done]. by rewrite (pa_plan _ _ _ _ _ Ha) at 1.
Qed.


(** ** Round trip *)

Lemma against_authority_ok d a :
  document_shape d -> ServiceManifestDocumentValidateAgainstAuthorityV1 d a = ManifestOk ->
  ServiceManifestAuthoritySnapshotIsCanonicalV1 a = true /\ manifest_identity d = auth_manifest_identity a /\
  signer_identity d = auth_signer_identity a /\ profile_identity d = auth_profile_identity a /\
  document_accepted d (Some a) /\ exists order, ValidateGraph d = (ManifestOk, order).
Proof.
  intros Hd H. unfold ServiceManifestDocumentValidateAgainstAuthorityV1 in H. peel H.
  rewrite !orb_false_iff, !negb_false_iff, !Z.eqb_eq in *. destruct_and!.
  destruct (ValidateDocumentInternal d (Some a)) as [e order] eqn:Hv. simpl in H. subst e.
  destruct (document_outcome d (Some a) ManifestOk order Hd Hv) as [[? _]|[? ?]]; [done|]. split_and!; eauto.
Qed.

(** The body of the validator on an encoding. *)
Lemma validate_sealed_encoding d a tail :
  document_shape d -> ServiceManifestDocumentValidateAgainstAuthorityV1 d a = ManifestOk ->
  sealed_object_hash a = sha256_of (encoding d) ->
  sealed_object_extent a = ServiceManifestEncodedSizeV1 (service_count d) (dependency_count d) ->
  exists order, validate_sealed (encoding d ++ tail) (sealed_object_extent a) a =
    Some (ManifestOk, MkPlan d (authority_identity a) (sealed_object_hash a) (sealed_object_extent a) (service_count d) 0 0
                        (order ++ replicate (64 - length order) 0)).
Proof.
  intros Hd Hv Hh He. destruct (against_authority_ok d a Hd Hv) as (Hc & Hm & Hsi & Hp & Ha & order & Hg).
  pose proof (da_count _ _ Ha) as Hcount. pose proof (da_dependencies _ _ Ha) as Hdeps.
  pose proof (ds_dependencies d Hd) as Hdc.
  destruct (encoded_size_nat d Hd) as [Hn Hsize]; [lia|done|].
  destruct (encoding_header d tail Hd) as [r1 r2 r3 r4 r5 r6 r7 r8 r9 r10 r11 r12 r13 r14 r15]; [lia|done|].
  exists order. rewrite He. unfold validate_sealed.
  change kServiceManifestMaximumBytes with 20544. rewrite Hc, He, Z.eqb_refl. 
  rewrite r1, r2, r3, r4, r5, r6, r7, r8, r9, r10, r11, r12, r13, r14, r15. rewrite !Z.eqb_refl.
  rewrite Hn, <- (length_encoding d Hd), take_app_length.
  rewrite Sha256Hash_exact by (rewrite length_encoding by done; unfold_widths; unfold services_used, dependencies_used; lia).
  rewrite Hh, HashEquals_refl. rewrite Hm, Hsi, Hp, !Z.eqb_refl, <- Hm, <- Hsi, <- Hp, (da_manifest _ _ Ha).
  unfold kServiceManifestV1HeaderBytes, kServiceManifestMaximumServices, kServiceManifestMaximumDependencies.
  pose proof (da_denied _ _ Ha) as Hda. pose proof (da_denied_dependencies _ _ Ha) as Hdd. simpl in Hda, Hdd.
  rewrite (da_flags _ _ Ha), Hda, Hdd. 
  destruct (Z.ltb_spec 20544 (ServiceManifestEncodedSizeV1 (service_count d) (dependency_count d))); [lia|].
  destruct (Z.eqb_spec (ServiceManifestEncodedSizeV1 (service_count d) (dependency_count d)) 0); [lia|].
  destruct (Z.ltb_spec (ServiceManifestEncodedSizeV1 (service_count d) (dependency_count d)) 64); [ulia|].
  destruct (Z.eqb_spec (service_count d) 0); [lia|].
  destruct (Z.ltb_spec 64 (service_count d)); [lia|]. destruct (Z.ltb_spec 256 (dependency_count d)); [lia|].
  cbn [negb orb]. 
  change (64 + service_count d * kServiceManifestV1ServiceBytes) with (EncodedDependenciesOffset d).
  rewrite Z.eqb_refl. cbn [negb orb].
  pose proof (decode_encoding d tail Hd (accepted_weaken d a Hd Ha)) as Hdec. rewrite (da_flags _ _ Ha) in Hdec.
  by rewrite Hdec, (accepted_validates d (Some a) Ha), Hg.
Qed.

Lemma document_valid_ok d : document_shape d -> ServiceManifestDocumentValidateV1 d = ManifestOk -> document_accepted d None.
Proof.
  intros Hd H. unfold ServiceManifestDocumentValidateV1 in H.
  destruct (ValidateDocumentInternal d None) as [e order] eqn:Hv. simpl in H. subst e.
  by destruct (document_outcome d None ManifestOk order Hd Hv) as [[? _]|[? _]].
Qed.

(** The hash of a document is the hash of its encoding. *)
Lemma document_hash_encoding daddr d hash_out hash :
  document_shape d -> ServiceManifestDocumentHashV1 daddr d hash_out = Some (ManifestOk, Some hash) ->
  hash = sha256_of (encoding d).
Proof.
  intros Hd H. unfold ServiceManifestDocumentHashV1 in H.
  destruct (hash_out =? 0); [discriminate H|]. destruct (negb _); [discriminate H|].
  destruct (PointerRangesOverlap _ _ _ _); [discriminate H|].
  destruct (ServiceManifestDocumentValidateV1 d) eqn:Hv; try discriminate H. cbv zeta in H.
  destruct (_ =? 0); [discriminate H|].
  destruct (updates_exact (hash_pieces d (ServiceManifestEncodedSizeV1 (service_count d) (dependency_count d)))
    (hash_pieces_small d _ Hd)) as (ctx & Hu & Hc).
  rewrite Hu in H. injection H as <-. by rewrite Hc, <- (hash_pieces_encoding d Hd).
Qed.

(** The encoder writes the encoding and leaves the rest of the buffer. *)
Lemma encode_ok output cap daddr d size written :
  document_shape d -> ServiceManifestEncodeV1 output cap daddr d = (ManifestOk, size, written) ->
  cap <= Z.of_nat (length (buf_bytes output)) ->
  size = ServiceManifestEncodedSizeV1 (service_count d) (dependency_count d) /\ size <= cap /\
  written = encoding d ++ drop (Z.to_nat size) (buf_bytes output).
Proof.
  intros Hd H Hcap. unfold ServiceManifestEncodeV1 in H. destruct (buf_addr output =? 0); [discriminate H|].
  destruct (ServiceManifestDocumentValidateV1 d) eqn:Hv; try discriminate H. cbv zeta in H.
  destruct (_ =? 0); [discriminate H|]. destruct (cap <? _) eqn:Hc; [discriminate H|].
  destruct (negb _); [discriminate H|]. destruct (PointerRangesOverlap _ _ _ _); [discriminate H|].
  apply Z.ltb_ge in Hc. injection H as <- <-. pose proof (document_valid_ok d Hd Hv) as Ha.
  pose proof (da_count _ _ Ha). pose proof (da_dependencies _ _ Ha).
  split_and!; [done|lia|]. rewrite <- (encode_writes d) by (done || lia). do 3 f_equal.
  rewrite inserts_split by (rewrite length_replicate; lia). by rewrite length_replicate.
Qed.

(** C28: Encoding a document, hashing it piecewise and validating the written
    bytes against an authority that carries that hash and size gives back the
    document, in a plan for that authority. *)
Theorem manifest_encode_hash_validate output cap daddr d size written hash_out hash a aaddr plan_out :
  document_shape d -> cap <= Z.of_nat (length (buf_bytes output)) ->
  ServiceManifestEncodeV1 output cap daddr d = (ManifestOk, size, written) ->
  ServiceManifestDocumentHashV1 daddr d hash_out = Some (ManifestOk, Some hash) ->
  sealed_object_hash a = hash -> sealed_object_extent a = size ->
  ServiceManifestDocumentValidateAgainstAuthorityV1 d a = ManifestOk ->
  manifest_pointers_ok (MkBuffer (buf_addr output) written) size aaddr plan_out = true ->
  exists plan, ServiceManifestValidateV1 (MkBuffer (buf_addr output) written) size aaddr a plan_out = Some (ManifestOk, Some plan) /\
    plan_document plan = d /\ plan_sealed_object_hash plan = hash /\
    drop (Z.to_nat size) written = drop (Z.to_nat size) (buf_bytes output).
Proof.
  intros Hd Hcap He Hh Ha Hx Hv Hp. subst size. destruct (encode_ok _ _ _ _ _ _ Hd He Hcap) as (Hsize & _ & Hw).
  pose proof (document_hash_encoding _ _ _ _ Hd Hh) as Hhash.
  destruct (validate_sealed_encoding d a (drop (Z.to_nat (sealed_object_extent a)) (buf_bytes output)) Hd Hv) as (order & Hr); [congruence|congruence|].
  rewrite validate_pointers, Hp. cbn [buf_bytes]. rewrite Hw, Hr. eexists. split; [done|]. split_and!; [done|done|].
  destruct (against_authority_ok d a Hd Hv) as (_ & _ & _ & _ & Hacc & _).
  pose proof (da_count _ _ Hacc). pose proof (da_dependencies _ _ Hacc).
  destruct (encoded_size_nat d Hd) as [Hn _]; [lia|done|].
  apply drop_app_length'. by rewrite length_encoding, Hsize, Hn.
Qed.

(** ** Concrete instances *)

Definition pad (n : nat) (l : list Z) : list Z := l ++ replicate (n - length l) 0.

Definition demo_row (identity ref first count : Z) (letter : Z) : ServiceManifestServiceV1 :=
  MkService identity ref 1 (pad 32 [1]) 2 8 1000 1 1 first count 1 2 KindNative RestartAlways 1 ProfileSandbox 0 0
    (pad 32 [letter]) (pad 128 [47; letter]).

(** Service 7 depends on service 9. *)
Definition demo_document : ServiceManifestDocumentV1 :=
  MkDocument 100 200 300 2 1 0 0
    ([demo_row 7 1 0 1 97; demo_row 9 2 1 0 98] ++ replicate 62 zero_service)
    ([MkDependency 7 9] ++ replicate 255 zero_dependency).


Definition demo_authority : ServiceManifestAuthoritySnapshotV1 :=
  MkAuthority 400 100 200 300 (sha256_of (encoding demo_document)) 592 2 2 8 1000 2 1 1 1 2 1 1 0.

(** The demonstration's hash is only computed where its value matters. *)
#[local] Strategy 1000 [sha256_of].

Definition demo_output : Buffer := MkBuffer 4096 (replicate 600 255).
Definition demo_bytes : Buffer := MkBuffer 4096 (encoding demo_document ++ replicate 8 255).

Lemma pad_ok n l : bytes_ok l -> (length l <= n)%nat -> length (pad n l) = n /\ bytes_ok (pad n l).
Proof.
  intros Hl Hn. unfold pad. rewrite length_app, length_replicate. split; [lia|].
  apply Forall_app. split; [done|]. apply Forall_replicate. ulia.
Qed.

Lemma demo_row_shape identity ref first count letter :
  is_u64 identity -> is_u32 ref -> is_u16 first -> is_u16 count -> is_u8 letter ->
  service_shape (demo_row identity ref first count letter).
Proof.
  intros H1 H2 H3 H4 H5. split; cbn -[pad]; try done; try ulia; apply pad_ok; repeat constructor; ulia.
Qed.

Lemma demo_shape : document_shape demo_document.
Proof.
  split; cbn -[replicate app demo_row]; try ulia.
  - split; [done|]. apply Forall_app. split; [|apply Forall_replicate, zero_service_shape].
    apply Forall_cons; split; [apply demo_row_shape; ulia|]. apply Forall_cons; split; [apply demo_row_shape; ulia|done].
  - split; [done|]. apply Forall_app. split; [|apply Forall_replicate; split; simpl; ulia].
    repeat (apply Forall_cons; split; [split; simpl; ulia|]). done.
Qed.


Lemma demo_against_authority : ServiceManifestDocumentValidateAgainstAuthorityV1 demo_document demo_authority = ManifestOk.
Proof. vm_compute. reflexivity. Qed.

Lemma demo_accepted : exists plan,
  ServiceManifestValidateV1 demo_bytes 592 262144 demo_authority 524288 = Some (ManifestOk, Some plan) /\
  plan_document plan = demo_document.
Proof.
  destruct (validate_sealed_encoding demo_document demo_authority (replicate 8 255) demo_shape demo_against_authority
    eq_refl eq_refl) as (order & H).
  rewrite validate_pointers. change (manifest_pointers_ok demo_bytes 592 262144 524288) with true. cbv iota.
  change 592 with (sealed_object_extent demo_authority).
  change (buf_bytes demo_bytes) with (encoding demo_document ++ replicate 8 255). rewrite H. eauto.
Qed.

Lemma demo_bytes_ok : bytes_ok (buf_bytes demo_bytes) /\ 0 <= 592 <= Z.of_nat (length (buf_bytes demo_bytes)).
Proof.
  split; [|split; vm_compute; discriminate].
  apply (Forall_impl (fun b => ((0 <=? b) && (b <=? 255)) = true)).
  - apply Forall_forall. intros x Hx. apply list_elem_of_In in Hx.
    assert (forallb (fun b => (0 <=? b) && (b <=? 255)) (buf_bytes demo_bytes) = true) as Hall by reflexivity.
    rewrite forallb_forall in Hall. by apply Hall.
  - intros b Hb. apply andb_true_iff in Hb as [?%Z.leb_le ?%Z.leb_le]. ulia.
Qed.

Lemma manifest_plan_within_authority_witness : exists plan,
  ServiceManifestValidateV1 demo_bytes 592 262144 demo_authority 524288 = Some (ManifestOk, Some plan) /\
  service_within (service_at (plan_document plan) 0) demo_authority.
Proof.
  destruct demo_accepted as (plan & H & Hd). exists plan. split; [done|].
  destruct demo_bytes_ok as [Hb Hl].
  pose proof (manifest_plan_within_authority demo_bytes 592 262144 demo_authority 524288 plan Hb Hl (length_sha256_of _) H) as T.
  cbv zeta in T. destruct T as (_ & _ & _ & T & _). apply T. rewrite Hd. apply Nat.ltb_lt. reflexivity.
Defined.


Lemma manifest_bytes_are_canonical_witness : exists plan,
  ServiceManifestValidateV1 demo_bytes 592 262144 demo_authority 524288 = Some (ManifestOk, Some plan) /\
  take 592 (buf_bytes demo_bytes) = encoding (plan_document plan).
Proof.
  destruct demo_accepted as (plan & H & Hd). exists plan. split; [done|].
  destruct demo_bytes_ok as [Hb Hl].
  apply (manifest_bytes_are_canonical demo_bytes 592 262144 demo_authority 524288 plan Hb Hl
    (length_sha256_of _) H).
Defined.

Lemma manifest_encode_hash_validate_witness : exists plan,
  ServiceManifestValidateV1 (MkBuffer 4096 (encoding demo_document ++ replicate 8 255)) 592 262144 demo_authority 524288 =
    Some (ManifestOk, Some plan) /\ plan_document plan = demo_document.
Proof.
  assert (He : ServiceManifestEncodeV1 demo_output 600 65536 demo_document = (ManifestOk, 592, encoding demo_document ++ replicate 8 255))
    by (vm_compute; reflexivity).
  assert (Hh : ServiceManifestDocumentHashV1 65536 demo_document 131072 = Some (ManifestOk, Some (sha256_of (encoding demo_document)))).
  { destruct (updates_exact (hash_pieces demo_document 592)) as (ctx & Hu & Hf); [by apply hash_pieces_small, demo_shape|].
    unfold ServiceManifestDocumentHashV1. change (131072 =? 0) with false. cbv iota.
    change (PointerRangeIsValid 131072 sizeof_Hash256) with true.
    change (PointerRangesOverlap 131072 sizeof_Hash256 65536 sizeof_Document) with false. cbn [negb]. cbv iota.
    change (ServiceManifestDocumentValidateV1 demo_document) with ManifestOk. cbv iota zeta.
    change (ServiceManifestEncodedSizeV1 (service_count demo_document) (dependency_count demo_document)) with 592.
    change (592 =? 0) with false. cbv iota. rewrite Hu, Hf.
    by rewrite <- (hash_pieces_encoding demo_document demo_shape). }
  destruct (manifest_encode_hash_validate demo_output 600 65536 demo_document 592 _ 131072 _ demo_authority 262144 524288
    demo_shape ltac:(vm_compute; discriminate) He Hh eq_refl eq_refl demo_against_authority eq_refl) as (plan & Hv & Hd & _).
  exists plan. split; [exact Hv|exact Hd].
Defined.
