(* ===== verification/ServiceLifecycleBroker.v ===== *)
(** * Service lifecycle broker

    Model of [kernel/core/service_lifecycle_broker.h] and
    [kernel/core/service_lifecycle_broker.cpp]: the table of managed services
    built from a validated manifest plan, the start tickets, instance tokens,
    builder pins and readiness bits it hands out, and its terminal drain.
    Every operation after initialization is one critical section of the
    broker lock.  A pointer is an address with the object it points at.  The
    service directory is reached through the class [DirectoryPeer]. *)

From S2P Require Import Prelude.
From S2P Require Import ServiceTransition.
From S2P Require Import Bytes.
From S2P Require Import Sha256.
From S2P Require Import ServiceManifest.

Definition kServiceLifecycleCapacity : Z := kServiceManifestMaximumServices.
Definition kServiceLifecycleInvalidBrokerEpoch : Z := 0.

Record ServiceLifecycleStartTicket := MkStart {
  start_epoch : Z;
  start_transition : ServiceStartTicket;
}.
#[export] Instance ServiceLifecycleStartTicket_eq_dec : EqDecision ServiceLifecycleStartTicket.
Proof. solve_decision. Defined.

Definition kInvalidServiceLifecycleStartTicket : ServiceLifecycleStartTicket :=
  MkStart kServiceLifecycleInvalidBrokerEpoch kInvalidServiceStartTicket.

Definition ServiceLifecycleStartTicketIsValid (ticket : ServiceLifecycleStartTicket) : bool :=
  negb (start_epoch ticket =? kServiceLifecycleInvalidBrokerEpoch)
  && ServiceStartTicketIsValid (start_transition ticket).

Record ServiceLifecycleInstanceToken := MkInstance {
  inst_start : ServiceLifecycleStartTicket;
  inst_process : ServiceInstanceKey;
}.
#[export] Instance ServiceLifecycleInstanceToken_eq_dec : EqDecision ServiceLifecycleInstanceToken.
Proof. solve_decision. Defined.

Definition kInvalidServiceLifecycleInstanceToken : ServiceLifecycleInstanceToken :=
  MkInstance kInvalidServiceLifecycleStartTicket kInvalidServiceInstanceKey.

Definition ServiceLifecycleInstanceTokenIsValid (token : ServiceLifecycleInstanceToken) : bool :=
  ServiceLifecycleStartTicketIsValid (inst_start token) && ServiceInstanceKeyIsValid (inst_process token).

Inductive ServiceLifecycleBrokerState := BrokerUninitialized | BrokerOpen | BrokerDraining | BrokerClosed.
#[export] Instance ServiceLifecycleBrokerState_eq_dec : EqDecision ServiceLifecycleBrokerState.
Proof. solve_decision. Defined.
Definition broker_state_eqb (a b : ServiceLifecycleBrokerState) : bool := bool_decide (a = b).

Inductive ServiceLifecycleStatus :=
| LcOk | LcNullArgument | LcAliasedOutput | LcInvalidManifestPlan | LcInvalidBrokerEpoch | LcAlreadyInitialized
| LcNotInitialized | LcClosed | LcDraining | LcCorruptState | LcNotFound | LcStaleGeneration | LcStaleBrokerEpoch
| LcInvalidTimestamp | LcAlreadyRequested | LcStopInProgress | LcGenerationExhausted | LcTransitionRejected
| LcAlreadyStopped | LcStartCancelled | LcKillRequired | LcAlreadyStopping | LcStartRetirementPending
| LcDependencyNotReady | LcBusy.
#[export] Instance ServiceLifecycleStatus_eq_dec : EqDecision ServiceLifecycleStatus.
Proof. solve_decision. Defined.

Inductive ServiceLifecycleBuilderState := BuilderNone | BuilderConstructing | BuilderCancelledAwaitingRetirement.
#[export] Instance ServiceLifecycleBuilderState_eq_dec : EqDecision ServiceLifecycleBuilderState.
Proof. solve_decision. Defined.
Definition builder_eqb (a b : ServiceLifecycleBuilderState) : bool := bool_decide (a = b).

Record ServiceLifecycleRow := MkLifecycleRow {
  lr_transition : ServiceTransitionState;
  lr_dependency_mask : Z;
  lr_last_transition_ns : Z;
  lr_successful_publications : Z;
  lr_spawn_failures : Z;
  lr_observed_exits : Z;
  lr_failed_exits : Z;
  lr_builder_state : ServiceLifecycleBuilderState;
  lr_ready : bool;
  lr_reserved8 : Z;
  lr_reserved16 : Z;
  lr_reserved32 : Z;
}.

Record ServiceLifecycleBroker := MkBroker {
  lb_state : ServiceLifecycleBrokerState;
  lb_initialized : Z;
  lb_service_count : Z;
  lb_dependency_count : Z;
  lb_reserved16 : Z;
  lb_epoch : Z;
  lb_manifest_identity : Z;
  lb_manifest_authority_identity : Z;
  lb_manifest_object_hash : list Z;
  lb_manifest_object_extent : Z;
  lb_rows : list ServiceLifecycleRow;
}.

Definition set_rows (b : ServiceLifecycleBroker) (rows : list ServiceLifecycleRow) : ServiceLifecycleBroker :=
  MkBroker (lb_state b) (lb_initialized b) (lb_service_count b) (lb_dependency_count b) (lb_reserved16 b)
    (lb_epoch b) (lb_manifest_identity b) (lb_manifest_authority_identity b) (lb_manifest_object_hash b)
    (lb_manifest_object_extent b) rows.
Definition set_broker_state (b : ServiceLifecycleBroker) (state : ServiceLifecycleBrokerState) : ServiceLifecycleBroker :=
  MkBroker state (lb_initialized b) (lb_service_count b) (lb_dependency_count b) (lb_reserved16 b)
    (lb_epoch b) (lb_manifest_identity b) (lb_manifest_authority_identity b) (lb_manifest_object_hash b)
    (lb_manifest_object_extent b) (lb_rows b).

(** [sizeof] of the native structures under the x86-64 ABI. *)
Definition sizeof_Broker : Z := 6232.
Definition sizeof_BrokerEpoch : Z := 8.
Definition sizeof_DrainPlan : Z := 4104.

(** ** The directory as the broker sees it *)

Definition kServiceDirectoryCapacity : Z := kServiceManifestMaximumServices.
Definition kServiceKeyGenerationMaximum : Z := 2 ^ 51 - 1.

Record ServiceKey := MkServiceKey {
  key_slot : Z;
  key_generation : Z;
}.

Definition kInvalidServiceKey : ServiceKey := MkServiceKey kServiceDirectoryCapacity 0.

Definition ServiceKeyIsValid (key : ServiceKey) : bool :=
  (key_slot key <? kServiceDirectoryCapacity) && negb (key_generation key =? 0)
  && (key_generation key <=? kServiceKeyGenerationMaximum).

Record ServiceRegistrationReservation := MkReservation {
  reservation_service : ServiceKey;
  reservation_authority : Z;
}.

Definition kInvalidServiceRegistrationReservation : ServiceRegistrationReservation :=
  MkReservation kInvalidServiceKey 0.

Definition ServiceRegistrationReservationIsValid (reservation : ServiceRegistrationReservation) : bool :=
  ServiceKeyIsValid (reservation_service reservation) && negb (reservation_authority reservation =? 0)
  && (reservation_authority reservation =? key_generation (reservation_service reservation)).

Inductive ServiceDirectoryStatus :=
| DirOk | DirInvalidArgument | DirNotInitialized | DirAlreadyInitialized | DirCorruptState | DirNameConflict
| DirServiceConflict | DirCapacityExhausted | DirGenerationExhausted | DirNotFound | DirStaleKey | DirOwnerMismatch
| DirCredentialMismatch | DirProtocolMismatch | DirNotReady | DirClosing | DirReservationConsumed | DirBusy
| DirOperationIdentityExhausted | DirStaleOperation | DirQueueFull | DirQueueEmpty | DirAcceptedCapacityExhausted
| DirStaleAcceptedChannel | DirEndpointCreateFailed | DirEndpointActivationFailed | DirEndpointReleaseFailed
| DirHandleReserveFailed | DirHandlePublishFailed | DirHandleRollbackFailed.
#[export] Instance ServiceDirectoryStatus_eq_dec : EqDecision ServiceDirectoryStatus.
Proof. solve_decision. Defined.

(** What the broker asks of the service directory while it holds its own
    lock: to publish a reserved registration, and to admit a published service
    jointly with the broker's readiness bit, which the directory writes only
    when it succeeds. *)
Class DirectoryPeer (D : Type) := {
  peer_publish : D -> ServiceRegistrationReservation -> ServiceInstanceToken ->
    ServiceDirectoryStatus * D * ServiceRegistrationReservation;
  peer_joint_ready : D -> ServiceKey -> ServiceInstanceToken -> bool -> ServiceDirectoryStatus * D * bool;
  peer_ready_written d key owner bit status d' bit' :
    peer_joint_ready d key owner bit = (status, d', bit') ->
    bit' = if decide (status = DirOk) then true else bit;
}.

(** ** Checks *)

Definition RangeIsValid (pointer bytes : Z) : bool :=
  if (pointer =? 0) || (bytes =? 0) then false else bytes <=? u64_max - pointer.

Definition RangesOverlap (left left_bytes right right_bytes : Z) : bool :=
  (left <? wrap64 (right + right_bytes)) && (right <? wrap64 (left + left_bytes)).

(** [ServiceLifecycleRow{}]: every byte zero. *)
Definition zero_lifecycle_row : ServiceLifecycleRow :=
  MkLifecycleRow (MkTransition 0 Stopped 0 kInvalidServiceInstanceKey false false) 0 0 0 0 0 0 BuilderNone false 0 0 0.

Definition ClearBroker : ServiceLifecycleBroker :=
  MkBroker BrokerUninitialized 0 0 0 0 kServiceLifecycleInvalidBrokerEpoch 0 0 zero_hash 0
    (replicate 64 zero_lifecycle_row).

Definition HashIsNonZero (hash : list Z) : bool := negb (AllZero (take 32 hash)).

Definition row_at (b : ServiceLifecycleBroker) (i : nat) : ServiceLifecycleRow := nth i (lb_rows b) zero_lifecycle_row.
Definition rows_used (b : ServiceLifecycleBroker) : nat := Z.to_nat (lb_service_count b).
Definition row_identity (r : ServiceLifecycleRow) : Z := service_identity (lr_transition r).
Definition row_phase (r : ServiceLifecycleRow) : ServiceTransitionPhase := phase (lr_transition r).
Definition row_generation (r : ServiceLifecycleRow) : Z := generation (lr_transition r).

Definition FindDocumentIndex (d : ServiceManifestDocumentV1) (identity : Z) : Z :=
  let low := lower_bound (S (services_used d)) (identity_at d) identity 0 (services_used d) in
  if Nat.ltb low (services_used d) && (identity_at d low =? identity) then Z.of_nat low
  else kServiceLifecycleCapacity.

Definition BuilderStateIsCanonical (r : ServiceLifecycleRow) : bool :=
  match lr_builder_state r with
  | BuilderNone => negb (phase_eqb (row_phase r) Starting)
  | BuilderConstructing => phase_eqb (row_phase r) Starting
  | BuilderCancelledAwaitingRetirement =>
      negb (row_generation r =? 0)
      && (phase_eqb (row_phase r) Stopped || phase_eqb (row_phase r) GenerationExhausted)
  end.

Definition BrokerHeaderIsCanonical (b : ServiceLifecycleBroker) : bool :=
  if negb (lb_initialized b =? 1) || (lb_service_count b =? 0) || (kServiceLifecycleCapacity <? lb_service_count b)
     || (kServiceManifestMaximumDependencies <? lb_dependency_count b) || negb (lb_reserved16 b =? 0)
     || (lb_epoch b =? kServiceLifecycleInvalidBrokerEpoch) || (lb_manifest_identity b =? 0)
     || (lb_manifest_authority_identity b =? 0) || negb (HashIsNonZero (lb_manifest_object_hash b))
     || negb (lb_manifest_object_extent b =? ServiceManifestEncodedSizeV1 (lb_service_count b) (lb_dependency_count b))
  then false
  else broker_state_eqb (lb_state b) BrokerOpen || broker_state_eqb (lb_state b) BrokerDraining
       || broker_state_eqb (lb_state b) BrokerClosed.

Definition all_rows_mask (count : Z) : Z := if count =? 64 then u64_max else Z.shiftl 1 count - 1.

(** The body of the row loop. *)
Definition RowIsCanonical (state : ServiceLifecycleBrokerState) (valid_mask : Z) (index : nat) (previous_identity : Z)
    (r : ServiceLifecycleRow) : bool :=
  if negb (ServiceTransitionIsCanonical (lr_transition r)) || (row_identity r <=? previous_identity)
     || negb (BuilderStateIsCanonical r) || negb (lr_reserved8 r =? 0) || negb (lr_reserved16 r =? 0)
     || negb (lr_reserved32 r =? 0) || negb (Z.land (lr_dependency_mask r) (Z.lnot valid_mask) =? 0)
     || negb (Z.land (lr_dependency_mask r) (Z.shiftl 1 (Z.of_nat index)) =? 0)
     || (lr_observed_exits r <? lr_failed_exits r) || (lr_successful_publications r <? lr_observed_exits r)
     || (row_generation r <? lr_successful_publications r) || (row_generation r <? lr_spawn_failures r)
     || (row_generation r <? lr_successful_publications r + lr_spawn_failures r)
  then false
  else if lr_ready r
          && (negb (phase_eqb (row_phase r) Running) || negb (ServiceInstanceKeyIsValid (instance (lr_transition r)))
              || negb (builder_eqb (lr_builder_state r) BuilderNone))
  then false
  else if negb (broker_state_eqb state BrokerOpen)
          && (phase_eqb (row_phase r) Starting || phase_eqb (row_phase r) Running)
  then false
  else negb (broker_state_eqb state BrokerClosed
             && (phase_eqb (row_phase r) Stopping || negb (builder_eqb (lr_builder_state r) BuilderNone))).

Fixpoint rows_canonical (state : ServiceLifecycleBrokerState) (valid_mask : Z) (index : nat) (previous_identity : Z)
    (rows : list ServiceLifecycleRow) : bool :=
  match rows with
  | [] => true
  | r :: rows =>
      RowIsCanonical state valid_mask index previous_identity r
      && rows_canonical state valid_mask (S index) (row_identity r) rows
  end.

Definition BrokerRowsAreCanonical (b : ServiceLifecycleBroker) : bool :=
  rows_canonical (lb_state b) (all_rows_mask (lb_service_count b)) 0 0 (take (rows_used b) (lb_rows b)).

Definition DependencyIsRunning (dependency : ServiceLifecycleRow) : bool :=
  phase_eqb (row_phase dependency) Running && ServiceInstanceKeyIsValid (instance (lr_transition dependency))
  && builder_eqb (lr_builder_state dependency) BuilderNone && lr_ready dependency.

Definition DependenciesAreRunningLocked (b : ServiceLifecycleBroker) (r : ServiceLifecycleRow) : bool :=
  forallb (fun i => (Z.land (lr_dependency_mask r) (Z.shiftl 1 (Z.of_nat i)) =? 0) || DependencyIsRunning (row_at b i))
    (seq 0 (rows_used b)).

Definition BrokerIsCanonical (b : ServiceLifecycleBroker) : bool :=
  BrokerHeaderIsCanonical b && BrokerRowsAreCanonical b.

Definition FindBrokerIndex (b : ServiceLifecycleBroker) (identity : Z) : Z :=
  let key i := row_identity (row_at b i) in
  let low := lower_bound (S (rows_used b)) key identity 0 (rows_used b) in
  if Nat.ltb low (rows_used b) && (key low =? identity) then Z.of_nat low else kServiceLifecycleCapacity.

(** The row an operation works on: the search and its bounds test. *)
Definition find_row (b : ServiceLifecycleBroker) (identity : Z) : option nat :=
  let index := FindBrokerIndex b identity in
  if lb_service_count b <=? index then None else Some (Z.to_nat index).

Definition put_row (b : ServiceLifecycleBroker) (i : nat) (r : ServiceLifecycleRow) : ServiceLifecycleBroker :=
  set_rows b (<[i := r]> (lb_rows b)).

Definition IncrementSaturating (value : Z) : Z := if value =? u32_max then value else wrap32 (value + 1).

Definition ValidateTicketEpoch (b : ServiceLifecycleBroker) (ticket : ServiceLifecycleStartTicket) : ServiceLifecycleStatus :=
  if negb (ServiceLifecycleStartTicketIsValid ticket) then LcTransitionRejected
  else if start_epoch ticket =? lb_epoch b then LcOk else LcStaleBrokerEpoch.

Definition ValidateTokenEpoch (b : ServiceLifecycleBroker) (token : ServiceLifecycleInstanceToken) : ServiceLifecycleStatus :=
  if negb (ServiceLifecycleInstanceTokenIsValid token) then LcTransitionRejected
  else if start_epoch (inst_start token) =? lb_epoch b then LcOk else LcStaleBrokerEpoch.

Definition ReadyBroker (addr : Z) (b : ServiceLifecycleBroker) : ServiceLifecycleStatus :=
  if negb (RangeIsValid addr sizeof_Broker) then LcNullArgument
  else if negb (lb_initialized b =? 1) then LcNotInitialized
  else LcOk.

(** ** Starting *)

Definition ServiceLifecycleStartResult : Type := ServiceLifecycleStatus * ServiceLifecycleStartTicket.
Definition StartFailure (status : ServiceLifecycleStatus) : ServiceLifecycleStartResult :=
  (status, kInvalidServiceLifecycleStartTicket).

Definition ReserveStartLocked (b : ServiceLifecycleBroker) (identity expected_generation now_ns : Z)
    (require_dependencies : bool) : ServiceLifecycleStartResult * ServiceLifecycleBroker :=
  if negb (BrokerIsCanonical b) then (StartFailure LcCorruptState, b)
  else if broker_state_eqb (lb_state b) BrokerClosed then (StartFailure LcClosed, b)
  else if broker_state_eqb (lb_state b) BrokerDraining then (StartFailure LcDraining, b)
  else
    match find_row b identity with
    | None => (StartFailure LcNotFound, b)
    | Some i =>
        let row := row_at b i in
        if negb (row_generation row =? expected_generation) then (StartFailure LcStaleGeneration, b)
        else if now_ns <? lr_last_transition_ns row then (StartFailure LcInvalidTimestamp, b)
        else if builder_eqb (lr_builder_state row) BuilderCancelledAwaitingRetirement
        then (StartFailure LcStartRetirementPending, b)
        else if require_dependencies && negb (DependenciesAreRunningLocked b row)
        then (StartFailure LcDependencyNotReady, b)
        else
          let with_transition t ns builder ready :=
            MkLifecycleRow t (lr_dependency_mask row) ns (lr_successful_publications row) (lr_spawn_failures row)
              (lr_observed_exits row) (lr_failed_exits row) builder ready
              (lr_reserved8 row) (lr_reserved16 row) (lr_reserved32 row) in
          let keep t := with_transition t (lr_last_transition_ns row) (lr_builder_state row) (lr_ready row) in
          match ServiceTransitionReserveStart (Some (lr_transition row)) (Some kInvalidServiceStartTicket) with
          | (result, Some t, Some ticket) =>
              match result with
              | Reserved =>
                  ((LcOk, MkStart (lb_epoch b) ticket),
                   put_row b i (with_transition t now_ns BuilderConstructing false))
              | AlreadyRequested => (StartFailure LcAlreadyRequested, put_row b i (keep t))
              | StopInProgress => (StartFailure LcStopInProgress, put_row b i (keep t))
              | ReserveGenerationExhausted =>
                  (StartFailure LcGenerationExhausted,
                   put_row b i
                     (if negb (phase_eqb (row_phase row) GenerationExhausted)
                      then with_transition t now_ns (lr_builder_state row) (lr_ready row) else keep t))
              | ReserveRejected => (StartFailure LcTransitionRejected, put_row b i (keep t))
              end
          | _ => (StartFailure LcCorruptState, b)
          end
    end.

Definition ServiceLifecycleBrokerReserveStart (addr : Z) (b : ServiceLifecycleBroker) (identity expected_generation now_ns : Z)
    : ServiceLifecycleStartResult * ServiceLifecycleBroker :=
  match ReadyBroker addr b with
  | LcOk => ReserveStartLocked b identity expected_generation now_ns false
  | ready => (StartFailure ready, b)
  end.

Definition ServiceLifecycleBrokerReserveStartWithDependencies (addr : Z) (b : ServiceLifecycleBroker)
    (identity expected_generation now_ns : Z) : ServiceLifecycleStartResult * ServiceLifecycleBroker :=
  match ReadyBroker addr b with
  | LcOk => ReserveStartLocked b identity expected_generation now_ns true
  | ready => (StartFailure ready, b)
  end.

Definition ServiceLifecycleBrokerRecordSpawnFailure (addr : Z) (b : ServiceLifecycleBroker)
    (ticket : ServiceLifecycleStartTicket) (now_ns : Z) : ServiceLifecycleStatus * ServiceLifecycleBroker :=
  match ReadyBroker addr b with
  | LcOk =>
      if negb (BrokerIsCanonical b) then (LcCorruptState, b)
      else
        match ValidateTicketEpoch b ticket with
        | LcOk =>
            if broker_state_eqb (lb_state b) BrokerClosed then (LcClosed, b)
            else
              match find_row b (ticket_service_identity (start_transition ticket)) with
              | None => (LcNotFound, b)
              | Some i =>
                  let row := row_at b i in
                  if negb (row_generation row =? ticket_generation (start_transition ticket)) then (LcStaleGeneration, b)
                  else if now_ns <? lr_last_transition_ns row then (LcInvalidTimestamp, b)
                  else if builder_eqb (lr_builder_state row) BuilderCancelledAwaitingRetirement
                  then (LcStartRetirementPending, b)
                  else if negb (builder_eqb (lr_builder_state row) BuilderConstructing) then (LcTransitionRejected, b)
                  else
                    match ServiceTransitionRecordSpawnFailure (Some (lr_transition row)) (start_transition ticket) with
                    | (SpawnFailureApplied, Some t) =>
                        (LcOk,
                         put_row b i
                           (MkLifecycleRow t (lr_dependency_mask row) now_ns (lr_successful_publications row)
                              (IncrementSaturating (lr_spawn_failures row)) (lr_observed_exits row) (lr_failed_exits row)
                              BuilderNone false (lr_reserved8 row) (lr_reserved16 row) (lr_reserved32 row)))
                    | _ => (LcTransitionRejected, b)
                    end
              end
        | ticket_status => (ticket_status, b)
        end
  | ready => (ready, b)
  end.

Definition ServiceLifecycleBrokerAcknowledgeCancelledStart (addr : Z) (b : ServiceLifecycleBroker)
    (ticket : ServiceLifecycleStartTicket) (now_ns : Z) : ServiceLifecycleStatus * ServiceLifecycleBroker :=
  match ReadyBroker addr b with
  | LcOk =>
      if negb (BrokerIsCanonical b) then (LcCorruptState, b)
      else
        match ValidateTicketEpoch b ticket with
        | LcOk =>
            if broker_state_eqb (lb_state b) BrokerClosed then (LcClosed, b)
            else
              match find_row b (ticket_service_identity (start_transition ticket)) with
              | None => (LcNotFound, b)
              | Some i =>
                  let row := row_at b i in
                  if negb (row_generation row =? ticket_generation (start_transition ticket)) then (LcStaleGeneration, b)
                  else if now_ns <? lr_last_transition_ns row then (LcInvalidTimestamp, b)
                  else if negb (builder_eqb (lr_builder_state row) BuilderCancelledAwaitingRetirement)
                  then (LcTransitionRejected, b)
                  else
                    (LcOk,
                     put_row b i
                       (MkLifecycleRow (lr_transition row) (lr_dependency_mask row) now_ns (lr_successful_publications row)
                          (lr_spawn_failures row) (lr_observed_exits row) (lr_failed_exits row)
                          BuilderNone false (lr_reserved8 row) (lr_reserved16 row) (lr_reserved32 row)))
              end
        | ticket_status => (ticket_status, b)
        end
  | ready => (ready, b)
  end.

(** ** Publication *)

Definition ServiceLifecyclePublicationResult : Type := ServiceLifecycleStatus * ServiceLifecycleInstanceToken.
Definition PublicationFailure (status : ServiceLifecycleStatus) : ServiceLifecyclePublicationResult :=
  (status, kInvalidServiceLifecycleInstanceToken).

(** The row after its transition published an instance. *)
Definition published_row (row : ServiceLifecycleRow) (t : ServiceTransitionState) (now_ns : Z) : ServiceLifecycleRow :=
  MkLifecycleRow t (lr_dependency_mask row) now_ns (IncrementSaturating (lr_successful_publications row))
    (lr_spawn_failures row) (lr_observed_exits row) (lr_failed_exits row)
    BuilderNone false (lr_reserved8 row) (lr_reserved16 row) (lr_reserved32 row).

Definition ServiceLifecycleBrokerCommitPublication (addr : Z) (b : ServiceLifecycleBroker)
    (ticket : ServiceLifecycleStartTicket) (inst : ServiceInstanceKey) (now_ns : Z)
    : ServiceLifecyclePublicationResult * ServiceLifecycleBroker :=
  match ReadyBroker addr b with
  | LcOk =>
      if negb (BrokerIsCanonical b) then (PublicationFailure LcCorruptState, b)
      else
        match ValidateTicketEpoch b ticket with
        | LcOk =>
            if broker_state_eqb (lb_state b) BrokerClosed then (PublicationFailure LcClosed, b)
            else if broker_state_eqb (lb_state b) BrokerDraining then (PublicationFailure LcDraining, b)
            else
              match find_row b (ticket_service_identity (start_transition ticket)) with
              | None => (PublicationFailure LcNotFound, b)
              | Some i =>
                  let row := row_at b i in
                  if negb (row_generation row =? ticket_generation (start_transition ticket))
                  then (PublicationFailure LcStaleGeneration, b)
                  else if now_ns <? lr_last_transition_ns row then (PublicationFailure LcInvalidTimestamp, b)
                  else if negb (builder_eqb (lr_builder_state row) BuilderConstructing)
                  then (PublicationFailure LcTransitionRejected, b)
                  else
                    match ServiceTransitionCommitAtSchedulerPublication (Some (lr_transition row))
                            (start_transition ticket) inst with
                    | (Published, Some t) =>
                        ((LcOk, MkInstance ticket inst), put_row b i (published_row row t now_ns))
                    | _ => (PublicationFailure LcTransitionRejected, b)
                    end
              end
        | ticket_status => (PublicationFailure ticket_status, b)
        end
  | ready => (PublicationFailure ready, b)
  end.

Record UnpublishedPublicationRollbackToken := MkRollback {
  rb_epoch : Z;
  rb_row_index : nat;
  rb_ticket : ServiceLifecycleStartTicket;
  rb_instance : ServiceInstanceKey;
  rb_prior_row : ServiceLifecycleRow;
  rb_valid : bool;
}.

Definition RollbackUnpublishedPublicationLocked (b : ServiceLifecycleBroker)
    (rollback : UnpublishedPublicationRollbackToken) : ServiceLifecycleStatus * ServiceLifecycleBroker :=
  if negb (rb_valid rollback) || negb (rb_epoch rollback =? lb_epoch b)
     || (lb_service_count b <=? Z.of_nat (rb_row_index rollback))
     || negb (ServiceLifecycleStartTicketIsValid (rb_ticket rollback))
     || negb (ServiceInstanceKeyIsValid (rb_instance rollback))
  then (LcTransitionRejected, b)
  else
    let row := row_at b (rb_row_index rollback) in
    let prior := rb_prior_row rollback in
    let ticket := start_transition (rb_ticket rollback) in
    let expected_publications :=
      if lr_successful_publications prior =? u32_max then u32_max else wrap32 (lr_successful_publications prior + 1) in
    if negb (row_identity row =? ticket_service_identity ticket) || negb (row_generation row =? ticket_generation ticket)
       || negb (builder_eqb (lr_builder_state row) BuilderNone)
       || negb (ServiceTransitionIsCurrentRunning (lr_transition row) (MkToken ticket (rb_instance rollback)))
       || negb (lr_successful_publications row =? expected_publications)
       || negb (ServiceTransitionIsCurrentStart (lr_transition prior) ticket)
       || negb (builder_eqb (lr_builder_state prior) BuilderConstructing)
    then (LcTransitionRejected, b)
    else (LcOk, put_row b (rb_row_index rollback) prior).

Section directory.
Context {D : Type} `{DirectoryPeer D}.

Record ServiceLifecycleDirectoryPublicationResult := MkDirectoryPublication {
  dp_lifecycle_status : ServiceLifecycleStatus;
  dp_directory_status : ServiceDirectoryStatus;
  dp_instance : ServiceLifecycleInstanceToken;
}.
Definition DirectoryPublicationFailure (status : ServiceLifecycleStatus) (directory_status : ServiceDirectoryStatus)
    : ServiceLifecycleDirectoryPublicationResult :=
  MkDirectoryPublication status directory_status kInvalidServiceLifecycleInstanceToken.

(** The publication and the directory's, under the broker lock: the row is
    published, the directory asked, and on its refusal the row put back. *)
Definition publish_jointly (b : ServiceLifecycleBroker) (i : nat) (ticket : ServiceLifecycleStartTicket)
    (inst : ServiceInstanceKey) (now_ns : Z) (directory : D) (reservation : ServiceRegistrationReservation)
    : ServiceLifecycleDirectoryPublicationResult * ServiceLifecycleBroker * D * ServiceRegistrationReservation :=
  let row := row_at b i in
  let rollback := MkRollback (lb_epoch b) i ticket inst row true in
  match ServiceTransitionCommitAtSchedulerPublication (Some (lr_transition row)) (start_transition ticket) inst with
  | (Published, Some t) =>
      let b := put_row b i (published_row row t now_ns) in
      let '(directory_status, directory, reservation) :=
        peer_publish directory reservation (MkToken (start_transition ticket) inst) in
      if decide (directory_status = DirOk)
      then (MkDirectoryPublication LcOk DirOk (MkInstance ticket inst), b, directory, reservation)
      else
        let '(rollback_status, b) := RollbackUnpublishedPublicationLocked b rollback in
        (DirectoryPublicationFailure rollback_status directory_status, b, directory, reservation)
  | _ => (DirectoryPublicationFailure LcTransitionRejected DirOk, b, directory, reservation)
  end.

(** A null directory or reservation is [None]. *)
Definition ServiceLifecycleBrokerCommitDirectoryPublication (addr : Z) (b : ServiceLifecycleBroker)
    (ticket : ServiceLifecycleStartTicket) (inst : ServiceInstanceKey) (now_ns : Z)
    (directory : option D) (reservation : option ServiceRegistrationReservation)
    : ServiceLifecycleDirectoryPublicationResult * ServiceLifecycleBroker * option D
      * option ServiceRegistrationReservation :=
  let fail status := (DirectoryPublicationFailure status DirOk, b, directory, reservation) in
  match directory, reservation with
  | Some dir, Some held =>
      if negb (ServiceRegistrationReservationIsValid held) then fail LcNullArgument
      else
        match ReadyBroker addr b with
        | LcOk =>
            if negb (BrokerIsCanonical b) then fail LcCorruptState
            else
              match ValidateTicketEpoch b ticket with
              | LcOk =>
                  if broker_state_eqb (lb_state b) BrokerClosed then fail LcClosed
                  else if broker_state_eqb (lb_state b) BrokerDraining then fail LcDraining
                  else
                    match find_row b (ticket_service_identity (start_transition ticket)) with
                    | None => fail LcNotFound
                    | Some i =>
                        let row := row_at b i in
                        if negb (row_generation row =? ticket_generation (start_transition ticket))
                        then fail LcStaleGeneration
                        else if now_ns <? lr_last_transition_ns row then fail LcInvalidTimestamp
                        else if negb (builder_eqb (lr_builder_state row) BuilderConstructing)
                                || negb (ServiceTransitionIsCurrentStart (lr_transition row) (start_transition ticket))
                        then fail LcTransitionRejected
                        else
                          let '(result, b, dir, held) := publish_jointly b i ticket inst now_ns dir held in
                          (result, b, Some dir, Some held)
                    end
              | ticket_status => fail ticket_status
              end
        | ready => fail ready
        end
  | _, _ => fail LcNullArgument
  end.

Definition ServiceLifecycleDirectoryReadyResult : Type := ServiceLifecycleStatus * ServiceDirectoryStatus.

Definition ServiceLifecycleBrokerMarkReady (addr : Z) (b : ServiceLifecycleBroker)
    (token : ServiceLifecycleInstanceToken) (directory : option D) (service : ServiceKey)
    : ServiceLifecycleDirectoryReadyResult * ServiceLifecycleBroker * option D :=
  let fail status := ((status, DirOk), b, directory) in
  match directory with
  | None => fail LcNullArgument
  | Some dir =>
      match ReadyBroker addr b with
      | LcOk =>
          if negb (BrokerIsCanonical b) then fail LcCorruptState
          else
            match ValidateTokenEpoch b token with
            | LcOk =>
                if broker_state_eqb (lb_state b) BrokerClosed then fail LcClosed
                else if broker_state_eqb (lb_state b) BrokerDraining then fail LcDraining
                else
                  let ticket := start_transition (inst_start token) in
                  match find_row b (ticket_service_identity ticket) with
                  | None => fail LcNotFound
                  | Some i =>
                      let row := row_at b i in
                      let owner := MkToken ticket (inst_process token) in
                      if negb (row_generation row =? ticket_generation ticket) then fail LcStaleGeneration
                      else if negb (builder_eqb (lr_builder_state row) BuilderNone)
                              || negb (ServiceTransitionIsCurrentRunning (lr_transition row) owner)
                      then fail LcTransitionRejected
                      else
                        let '(directory_status, dir, ready) := peer_joint_ready dir service owner (lr_ready row) in
                        ((LcOk, directory_status),
                         put_row b i
                           (MkLifecycleRow (lr_transition row) (lr_dependency_mask row) (lr_last_transition_ns row)
                              (lr_successful_publications row) (lr_spawn_failures row) (lr_observed_exits row)
                              (lr_failed_exits row) (lr_builder_state row) ready
                              (lr_reserved8 row) (lr_reserved16 row) (lr_reserved32 row)),
                         Some dir)
                  end
            | token_status => fail token_status
            end
      | ready => fail ready
      end
  end.

End directory.

(** ** Stopping *)

Record ServiceLifecycleStopResult := MkStop {
  stop_status : ServiceLifecycleStatus;
  instance_to_kill : ServiceLifecycleInstanceToken;
  start_to_cancel : ServiceLifecycleStartTicket;
}.
Definition StopFailure (status : ServiceLifecycleStatus) : ServiceLifecycleStopResult :=
  MkStop status kInvalidServiceLifecycleInstanceToken kInvalidServiceLifecycleStartTicket.

(** The row after its transition was stopped. *)
Definition stopped_row (row : ServiceLifecycleRow) (t : ServiceTransitionState) (now_ns : Z)
    (builder : ServiceLifecycleBuilderState) : ServiceLifecycleRow :=
  MkLifecycleRow t (lr_dependency_mask row) now_ns (lr_successful_publications row) (lr_spawn_failures row)
    (lr_observed_exits row) (lr_failed_exits row) builder false
    (lr_reserved8 row) (lr_reserved16 row) (lr_reserved32 row).

Definition kill_token (b : ServiceLifecycleBroker) (token : ServiceInstanceToken) : ServiceLifecycleInstanceToken :=
  MkInstance (MkStart (lb_epoch b) (token_start token)) (token_process token).
Definition cancel_ticket (b : ServiceLifecycleBroker) (t : ServiceTransitionState) : ServiceLifecycleStartTicket :=
  MkStart (lb_epoch b) (MkTicket (service_identity t) (generation t)).

Definition ServiceLifecycleBrokerRequestStop (addr : Z) (b : ServiceLifecycleBroker)
    (identity expected_generation now_ns : Z) : ServiceLifecycleStopResult * ServiceLifecycleBroker :=
  match ReadyBroker addr b with
  | LcOk =>
      if negb (BrokerIsCanonical b) then (StopFailure LcCorruptState, b)
      else if broker_state_eqb (lb_state b) BrokerClosed then (StopFailure LcClosed, b)
      else
        match find_row b identity with
        | None => (StopFailure LcNotFound, b)
        | Some i =>
            let row := row_at b i in
            if negb (row_generation row =? expected_generation) then (StopFailure LcStaleGeneration, b)
            else if now_ns <? lr_last_transition_ns row then (StopFailure LcInvalidTimestamp, b)
            else if builder_eqb (lr_builder_state row) BuilderCancelledAwaitingRetirement
            then (StopFailure LcStartRetirementPending, b)
            else
              match ServiceTransitionStop (Some (lr_transition row)) (Some kInvalidServiceInstanceToken) with
              | (StartCancelled, Some t, _) =>
                  (MkStop LcStartCancelled kInvalidServiceLifecycleInstanceToken (cancel_ticket b t),
                   put_row b i (stopped_row row t now_ns BuilderCancelledAwaitingRetirement))
              | (KillRequired, Some t, Some token) =>
                  (MkStop LcKillRequired (kill_token b token) kInvalidServiceLifecycleStartTicket,
                   put_row b i (stopped_row row t now_ns (lr_builder_state row)))
              | (AlreadyStopped, _, _) => (StopFailure LcAlreadyStopped, b)
              | (AlreadyStopping, _, _) => (StopFailure LcAlreadyStopping, b)
              | (StopRejected, _, _) => (StopFailure LcTransitionRejected, b)
              | _ => (StopFailure LcCorruptState, b)
              end
        end
  | ready => (StopFailure ready, b)
  end.

Definition ServiceLifecycleBrokerObserveExit (addr : Z) (b : ServiceLifecycleBroker)
    (token : ServiceLifecycleInstanceToken) (now_ns : Z) (failed : bool)
    : ServiceLifecycleStatus * ServiceLifecycleBroker :=
  match ReadyBroker addr b with
  | LcOk =>
      if negb (BrokerIsCanonical b) then (LcCorruptState, b)
      else
        match ValidateTokenEpoch b token with
        | LcOk =>
            if broker_state_eqb (lb_state b) BrokerClosed then (LcClosed, b)
            else
              let ticket := start_transition (inst_start token) in
              match find_row b (ticket_service_identity ticket) with
              | None => (LcNotFound, b)
              | Some i =>
                  let row := row_at b i in
                  if negb (row_generation row =? ticket_generation ticket) then (LcStaleGeneration, b)
                  else if now_ns <? lr_last_transition_ns row then (LcInvalidTimestamp, b)
                  else
                    match ServiceTransitionObserveExit (Some (lr_transition row)) (MkToken ticket (inst_process token)) with
                    | (ExitApplied, Some t) =>
                        (LcOk,
                         put_row b i
                           (MkLifecycleRow t (lr_dependency_mask row) now_ns (lr_successful_publications row)
                              (lr_spawn_failures row) (IncrementSaturating (lr_observed_exits row))
                              (if failed then IncrementSaturating (lr_failed_exits row) else lr_failed_exits row)
                              (lr_builder_state row) false (lr_reserved8 row) (lr_reserved16 row) (lr_reserved32 row)))
                    | _ => (LcTransitionRejected, b)
                    end
              end
        | token_status => (token_status, b)
        end
  | ready => (ready, b)
  end.

(** ** Drain *)

(** The used prefixes of the two arrays of a drain plan; the counts are their
    lengths. *)
Record ServiceLifecycleDrainPlan := MkDrainPlan {
  plan_instances : list ServiceLifecycleInstanceToken;
  plan_cancelled_starts : list ServiceLifecycleStartTicket;
}.
Definition empty_drain_plan : ServiceLifecycleDrainPlan := MkDrainPlan [] [].

Fixpoint drain_rows (indices : list nat) (b : ServiceLifecycleBroker) (now_ns : Z) (plan : ServiceLifecycleDrainPlan)
    : ServiceLifecycleStatus * ServiceLifecycleBroker * ServiceLifecycleDrainPlan :=
  match indices with
  | [] => (LcOk, b, plan)
  | i :: indices =>
      let row := row_at b i in
      if negb (phase_eqb (row_phase row) Starting) && negb (phase_eqb (row_phase row) Running)
      then drain_rows indices b now_ns plan
      else
        match ServiceTransitionStop (Some (lr_transition row)) (Some kInvalidServiceInstanceToken) with
        | (KillRequired, Some t, Some token) =>
            drain_rows indices (put_row b i (stopped_row row t now_ns (lr_builder_state row))) now_ns
              (MkDrainPlan (plan_instances plan ++ [kill_token b token]) (plan_cancelled_starts plan))
        | (StartCancelled, Some t, _) =>
            drain_rows indices (put_row b i (stopped_row row t now_ns BuilderCancelledAwaitingRetirement)) now_ns
              (MkDrainPlan (plan_instances plan) (plan_cancelled_starts plan ++ [cancel_ticket b t]))
        | _ => (LcCorruptState, b, plan)
        end
  end.

(** The status, the broker and the plan; no plan when it is left untouched. *)
Definition ServiceLifecycleBrokerBeginDrain (addr : Z) (b : ServiceLifecycleBroker) (now_ns plan_out : Z)
    : ServiceLifecycleStatus * ServiceLifecycleBroker * option ServiceLifecycleDrainPlan :=
  if negb (RangeIsValid plan_out sizeof_DrainPlan) then (LcNullArgument, b, None)
  else if RangeIsValid addr sizeof_Broker && RangesOverlap addr sizeof_Broker plan_out sizeof_DrainPlan
  then (LcAliasedOutput, b, None)
  else
    match ReadyBroker addr b with
    | LcOk =>
        if negb (BrokerIsCanonical b) then (LcCorruptState, b, Some empty_drain_plan)
        else if broker_state_eqb (lb_state b) BrokerClosed then (LcClosed, b, Some empty_drain_plan)
        else if broker_state_eqb (lb_state b) BrokerDraining then (LcDraining, b, Some empty_drain_plan)
        else if existsb (fun i => now_ns <? lr_last_transition_ns (row_at b i)) (seq 0 (rows_used b))
        then (LcInvalidTimestamp, b, Some empty_drain_plan)
        else
          let '(status, b, plan) :=
            drain_rows (seq 0 (rows_used b)) (set_broker_state b BrokerDraining) now_ns empty_drain_plan in
          (status, b, Some plan)
    | ready => (ready, b, Some empty_drain_plan)
    end.

Definition row_is_busy (r : ServiceLifecycleRow) : bool :=
  negb (builder_eqb (lr_builder_state r) BuilderNone)
  || (phase_eqb (row_phase r) Starting || phase_eqb (row_phase r) Running || phase_eqb (row_phase r) Stopping).

Definition ServiceLifecycleBrokerFinishDrain (addr : Z) (b : ServiceLifecycleBroker)
    : ServiceLifecycleStatus * ServiceLifecycleBroker :=
  match ReadyBroker addr b with
  | LcOk =>
      if negb (BrokerIsCanonical b) then (LcCorruptState, b)
      else if broker_state_eqb (lb_state b) BrokerClosed then (LcClosed, b)
      else if negb (broker_state_eqb (lb_state b) BrokerDraining) then (LcBusy, b)
      else if existsb (fun i => row_is_busy (row_at b i)) (seq 0 (rows_used b)) then (LcBusy, b)
      else (LcOk, set_broker_state b BrokerClosed)
  | ready => (ready, b)
  end.

(** ** Inspection *)

Record ServiceLifecycleSnapshot := MkLifecycleSnapshot {
  ls_service_identity : Z;
  ls_phase : ServiceTransitionPhase;
  ls_generation : Z;
  ls_instance : ServiceInstanceKey;
  ls_dependency_mask : Z;
  ls_last_transition_ns : Z;
  ls_successful_publications : Z;
  ls_spawn_failures : Z;
  ls_observed_exits : Z;
  ls_failed_exits : Z;
  ls_builder_state : ServiceLifecycleBuilderState;
  ls_ready : bool;
}.

Record ServiceLifecycleBrokerSnapshot := MkBrokerSnapshot {
  bs_state : ServiceLifecycleBrokerState;
  bs_service_count : Z;
  bs_dependency_count : Z;
  bs_epoch : Z;
  bs_manifest_identity : Z;
  bs_manifest_authority_identity : Z;
  bs_manifest_object_hash : list Z;
  bs_manifest_object_extent : Z;
}.

Definition SnapshotRow (r : ServiceLifecycleRow) : ServiceLifecycleSnapshot :=
  MkLifecycleSnapshot (row_identity r) (row_phase r) (row_generation r) (instance (lr_transition r))
    (lr_dependency_mask r) (lr_last_transition_ns r) (lr_successful_publications r) (lr_spawn_failures r)
    (lr_observed_exits r) (lr_failed_exits r) (lr_builder_state r) (lr_ready r).

Definition SnapshotBroker (b : ServiceLifecycleBroker) : ServiceLifecycleBrokerSnapshot :=
  MkBrokerSnapshot (lb_state b) (lb_service_count b) (lb_dependency_count b) (lb_epoch b) (lb_manifest_identity b)
    (lb_manifest_authority_identity b) (lb_manifest_object_hash b) (lb_manifest_object_extent b).

(** A failed inspection carries a zeroed snapshot, here [None]. *)
Definition ServiceLifecycleBrokerDescribe (addr : Z) (b : ServiceLifecycleBroker)
    : ServiceLifecycleStatus * option ServiceLifecycleBrokerSnapshot :=
  match ReadyBroker addr b with
  | LcOk => if negb (BrokerIsCanonical b) then (LcCorruptState, None) else (LcOk, Some (SnapshotBroker b))
  | ready => (ready, None)
  end.

Definition ServiceLifecycleBrokerInspect (addr : Z) (b : ServiceLifecycleBroker) (identity : Z)
    : ServiceLifecycleStatus * option ServiceLifecycleSnapshot :=
  match ReadyBroker addr b with
  | LcOk =>
      if negb (BrokerIsCanonical b) then (LcCorruptState, None)
      else match find_row b identity with
           | Some i => (LcOk, Some (SnapshotRow (row_at b i)))
           | None => (LcNotFound, None)
           end
  | ready => (ready, None)
  end.

Definition ServiceLifecycleBrokerInspectAt (addr : Z) (b : ServiceLifecycleBroker) (index : Z)
    : ServiceLifecycleStatus * option ServiceLifecycleSnapshot :=
  match ReadyBroker addr b with
  | LcOk =>
      if negb (BrokerIsCanonical b) then (LcCorruptState, None)
      else if index <? lb_service_count b then (LcOk, Some (SnapshotRow (row_at b (Z.to_nat index))))
      else (LcNotFound, None)
  | ready => (ready, None)
  end.

(** ** Construction *)

(** One turn of the mint's compare-exchange loop on the global counter [g]:
    either the epoch the call returns or the value it retries with.  A weak
    exchange may fail for no reason. *)
Definition mint_turn (g current : Z) (spurious : bool) : Z * (Z + Z) :=
  if current =? u64_max then (g, inl kServiceLifecycleInvalidBrokerEpoch)
  else if (g =? current) && negb spurious then (wrap64 (current + 1), inl current)
  else (g, inr g).

(** The services a visited mask leaves: the first unvisited row all of whose
    dependencies are visited. *)
Definition visited_ready (d : ServiceManifestDocumentV1) (visited : Z) (candidate : nat) : bool :=
  (Z.land visited (Z.shiftl 1 (Z.of_nat candidate)) =? 0)
  && forallb (fun t =>
       let required := FindDocumentIndex d t in
       negb ((service_count d <=? required) || (Z.land visited (Z.shiftl 1 required) =? 0))) (targets d candidate).

Fixpoint visit_order (todo : nat) (d : ServiceManifestDocumentV1) (order : list Z) (visited : Z) : option Z :=
  match todo with
  | O => Some visited
  | S todo =>
      match find (visited_ready d visited) (seq 0 (services_used d)) with
      | Some selected =>
          if hd 0 order =? identity_at d selected
          then visit_order todo d (tl order) (Z.lor visited (Z.shiftl 1 (Z.of_nat selected)))
          else None
      | None => None
      end
  end.

(** [hash_addr] is the address of the local the document's hash is written to;
    no result if the hash does not return. *)
Definition ManifestPlanIsCanonical (plan_addr : Z) (plan : ServiceManifestPlanV1)
    (authority : ServiceManifestAuthoritySnapshotV1) (hash_addr : Z) : option bool :=
  let d := plan_document plan in
  if negb (bool_decide (ServiceManifestDocumentValidateAgainstAuthorityV1 d authority = ManifestOk))
     || negb (plan_authority_identity plan =? authority_identity authority)
     || negb (topological_count plan =? service_count d)
     || negb (plan_reserved16 plan =? 0) || negb (plan_reserved32 plan =? 0)
     || negb (plan_sealed_object_extent plan =? sealed_object_extent authority)
     || negb (plan_sealed_object_extent plan =? ServiceManifestEncodedSizeV1 (service_count d) (dependency_count d))
     || negb (HashEquals (plan_sealed_object_hash plan) (sealed_object_hash authority))
     || negb (HashIsNonZero (plan_sealed_object_hash plan))
  then Some false
  else
    match ServiceManifestDocumentHashV1 plan_addr d hash_addr with
    | None => None
    | Some (e, document_hash) =>
        if negb (bool_decide (e = ManifestOk))
           || negb (HashEquals (default zero_hash document_hash) (plan_sealed_object_hash plan))
        then Some false
        else
          match visit_order (Z.to_nat (topological_count plan)) d (topological_identities plan) 0 with
          | None => Some false
          | Some visited =>
              if negb (forallb (fun identity => identity =? 0)
                         (drop (Z.to_nat (topological_count plan)) (topological_identities plan)))
              then Some false
              else Some (visited =? all_rows_mask (service_count d))
          end
    end.

Definition add_dependency (d : ServiceManifestDocumentV1) (mask : option Z) (t : Z) : option Z :=
  match mask with
  | None => None
  | Some mask =>
      let required := FindDocumentIndex d t in
      if service_count d <=? required then None else Some (Z.lor mask (Z.shiftl 1 required))
  end.
Definition dependency_mask_of (d : ServiceManifestDocumentV1) (ts : list Z) : option Z :=
  fold_left (add_dependency d) ts (Some 0).

(** The row loop of the initialization; [None] when it gives up. *)
Fixpoint initialize_rows (indices : list nat) (d : ServiceManifestDocumentV1) (rows : list ServiceLifecycleRow)
    : option (list ServiceLifecycleRow) :=
  match indices with
  | [] => Some rows
  | i :: indices =>
      match ServiceTransitionInitialize (identity_at d i) (Some (lr_transition zero_lifecycle_row)) with
      | (true, Some t) =>
          match dependency_mask_of d (targets d i) with
          | Some mask =>
              initialize_rows indices d
                (<[i := MkLifecycleRow t mask 0 0 0 0 0 BuilderNone false 0 0 0]> rows)
          | None => None
          end
      | _ => None
      end
  end.

(** The status, the broker and the epoch token's value. *)
Definition ServiceLifecycleBrokerInitialize (addr : Z) (b : ServiceLifecycleBroker) (plan_addr : Z)
    (plan : ServiceManifestPlanV1) (authority_addr : Z) (authority : ServiceManifestAuthoritySnapshotV1)
    (epoch_addr epoch hash_addr : Z) : option (ServiceLifecycleStatus * ServiceLifecycleBroker * Z) :=
  if negb (RangeIsValid addr sizeof_Broker) || negb (RangeIsValid plan_addr sizeof_Plan)
     || negb (RangeIsValid authority_addr sizeof_Authority) || negb (RangeIsValid epoch_addr sizeof_BrokerEpoch)
  then Some (LcNullArgument, b, epoch)
  else if RangesOverlap addr sizeof_Broker plan_addr sizeof_Plan
          || RangesOverlap addr sizeof_Broker authority_addr sizeof_Authority
          || RangesOverlap addr sizeof_Broker epoch_addr sizeof_BrokerEpoch
  then Some (LcAliasedOutput, b, epoch)
  else if RangesOverlap plan_addr sizeof_Plan authority_addr sizeof_Authority
          || RangesOverlap plan_addr sizeof_Plan epoch_addr sizeof_BrokerEpoch
          || RangesOverlap authority_addr sizeof_Authority epoch_addr sizeof_BrokerEpoch
  then Some (LcInvalidManifestPlan, b, epoch)
  else if negb (lb_initialized b =? 0) then Some (LcAlreadyInitialized, b, epoch)
  else if epoch =? kServiceLifecycleInvalidBrokerEpoch then Some (LcInvalidBrokerEpoch, b, epoch)
  else
    match ManifestPlanIsCanonical plan_addr plan authority hash_addr with
    | None => None
    | Some false => Some (LcInvalidManifestPlan, b, epoch)
    | Some true =>
        let d := plan_document plan in
        match initialize_rows (seq 0 (services_used d)) d (replicate 64 zero_lifecycle_row) with
        | None => Some (LcInvalidManifestPlan, ClearBroker, epoch)
        | Some rows =>
            let b := MkBroker BrokerOpen 1 (service_count d) (dependency_count d) 0 epoch (manifest_identity d)
                       (plan_authority_identity plan) (plan_sealed_object_hash plan) (plan_sealed_object_extent plan) rows in
            if negb (BrokerIsCanonical b) then Some (LcInvalidManifestPlan, ClearBroker, epoch)
            else Some (LcOk, b, kServiceLifecycleInvalidBrokerEpoch)
        end
    end.
