(* ===== verification/ServiceDirectory.v ===== *)
(** * The service directory

    Model of [kernel/core/service_directory.h] and
    [kernel/core/service_directory.cpp].  A critical section of the directory
    lock is one definition.  Registration, lookup, inspection and deferral are
    single sections; connect, accept, release and close leave the lock to call
    handle tables and endpoints and are given by their sections, with the
    answers of those calls as arguments.  Addresses are numbers, 0 for null.
    Counters the capacities bound are not wrapped; the number of external
    publishers is.  Lock words and padding bytes are left out. *)

From S2P Require Import Prelude ServiceTransition Bytes KObject HandleTable ChannelCore Credentials.
From S2P Require Import Sha256 ServiceManifest ServiceManifestGraph ServiceLifecycleBroker.

Definition kServiceDirectoryNameCapacity : Z := kServiceManifestServiceNameCapacity.
Definition kServiceDirectoryAcceptCapacity : Z := 8.
Definition kServiceDirectoryAcceptedCapacity : Z := 8.
Definition kServiceDirectoryProcessTeardownBatchCapacity : Z := 4.
Definition kServiceDirectoryDeferredAcceptedCapacity : Z := kServiceDirectoryCapacity * kServiceDirectoryAcceptedCapacity.
Definition kServiceDirectoryCloseBatchCapacity : Z := kServiceDirectoryAcceptCapacity + kServiceDirectoryAcceptedCapacity.
Definition kServiceDirectoryOperationCapacity : Z := 8.
Definition kServiceDirectoryOperationGenerationMaximum : Z := u32_max.
Definition kServiceDirectoryAcceptedGenerationMaximum : Z := u32_max.
Definition kServiceEndpointOwnerCapacity : Z := 32.
Definition kServiceEndpointGenerationMaximum : Z := 2 ^ 51 - 1.

#[export] Instance ServiceKey_eq_dec : EqDecision ServiceKey.
Proof. solve_decision. Defined.

(** ** What the directory knows of endpoints *)

Record ServiceEndpointChannelKey := MkChannelKey {
  ch_slot : Z;
  ch_generation : Z;
  ch_epoch : Z;
}.
#[export] Instance ServiceEndpointChannelKey_eq_dec : EqDecision ServiceEndpointChannelKey.
Proof. solve_decision. Defined.
Definition zero_channel_key : ServiceEndpointChannelKey := MkChannelKey 0 0 0.
Definition kInvalidServiceEndpointChannelKey : ServiceEndpointChannelKey :=
  MkChannelKey kServiceEndpointOwnerCapacity 0 kChannelEpochInvalid.

Definition ServiceEndpointChannelKeyIsValid (key : ServiceEndpointChannelKey) : bool :=
  (ch_slot key <? kServiceEndpointOwnerCapacity) && negb (ch_generation key =? 0)
  && (ch_generation key <=? kServiceEndpointGenerationMaximum) && negb (ch_epoch key =? kChannelEpochInvalid).

Record ServiceEndpointOwnerReceipt := MkReceipt {
  rc_owner : Z;
  rc_channel : ServiceEndpointChannelKey;
}.
#[export] Instance ServiceEndpointOwnerReceipt_eq_dec : EqDecision ServiceEndpointOwnerReceipt.
Proof. solve_decision. Defined.
Definition zero_receipt : ServiceEndpointOwnerReceipt := MkReceipt 0 zero_channel_key.

Definition ServiceEndpointOwnerReceiptIsValid (receipt : ServiceEndpointOwnerReceipt) : bool :=
  negb (rc_owner receipt =? 0) && ServiceEndpointChannelKeyIsValid (rc_channel receipt).

Record ServiceEndpointCredentialSnapshot := MkEndpointCredential {
  ec_key : CredentialKey;
  ec_security : CredentialSecurityContext;
}.
#[export] Instance ServiceEndpointCredentialSnapshot_eq_dec : EqDecision ServiceEndpointCredentialSnapshot.
Proof. solve_decision. Defined.
Definition zero_endpoint_credential : ServiceEndpointCredentialSnapshot :=
  MkEndpointCredential (MkCredentialKey 0 0) zero_security.

Definition ServiceEndpointCredentialSnapshotIsCanonical (s : ServiceEndpointCredentialSnapshot) : bool :=
  CredentialKeyIsValid (ec_key s) && CredentialSecurityContextIsCanonical (ec_security s).

(** The endpoint comparison of contexts, which is the credential pool's
    [ContextsEqual] again. *)
Definition CredentialsEqual (lhs rhs : ServiceEndpointCredentialSnapshot) : bool :=
  bool_decide (ec_key lhs = ec_key rhs) && ContextsEqual (ec_security lhs) (ec_security rhs).

Inductive ServiceEndpointStatus :=
| EpOk | EpInvalidArgument | EpNotInitialized | EpAlreadyInitialized | EpCorruptState | EpCapacityExhausted
| EpGenerationExhausted | EpChannelCreateFailed | EpNotPublished | EpAlreadyPublished | EpClosing | EpDrained
| EpStaleIdentity | EpStaleActivation | EpStaleOwner | EpBusy | EpInvalidCleanup | EpResourceReleaseFailed
| EpRequestRejected.
#[export] Instance ServiceEndpointStatus_eq_dec : EqDecision ServiceEndpointStatus.
Proof. solve_decision. Defined.

Record ProcessKey := MkProcessKey {
  pk_identity : Z;
  pk_pid : Z;
}.
#[export] Instance ProcessKey_eq_dec : EqDecision ProcessKey.
Proof. solve_decision. Defined.
Definition ProcessKeyIsValid (key : ProcessKey) : bool := negb (pk_identity key =? 0) && negb (pk_pid key =? 0).

(** ** Data *)

Record ServiceDirectoryName := MkDirectoryName {
  dn_length : Z;
  dn_bytes : list Z;
}.
#[export] Instance ServiceDirectoryName_eq_dec : EqDecision ServiceDirectoryName.
Proof. solve_decision. Defined.
Definition zero_name : ServiceDirectoryName := MkDirectoryName 0 (replicate 32 0).

Record ServiceDirectoryOperationPin := MkOperationPin {
  op_service : ServiceKey;
  op_slot : Z;
  op_pin_generation : Z;
}.
Definition kInvalidServiceDirectoryOperationPin : ServiceDirectoryOperationPin :=
  MkOperationPin kInvalidServiceKey kServiceDirectoryOperationCapacity 0.
Definition ServiceDirectoryOperationPinIsValid (pin : ServiceDirectoryOperationPin) : bool :=
  ServiceKeyIsValid (op_service pin) && (op_slot pin <? kServiceDirectoryOperationCapacity)
  && negb (op_pin_generation pin =? 0).

Inductive ServiceDirectoryState := DirectoryUninitialized | DirectoryOpen.
#[export] Instance ServiceDirectoryState_eq_dec : EqDecision ServiceDirectoryState.
Proof. solve_decision. Defined.
Inductive ServiceDirectoryEntryState := EntryEmpty | EntryReserved | EntryActive | EntryClosing | EntryRetired.
#[export] Instance ServiceDirectoryEntryState_eq_dec : EqDecision ServiceDirectoryEntryState.
Proof. solve_decision. Defined.
Inductive ServiceDirectoryCloseReason := CloseNone | CloseRegistrationAbort | CloseUnregister | CloseOwnerCrash.
#[export] Instance ServiceDirectoryCloseReason_eq_dec : EqDecision ServiceDirectoryCloseReason.
Proof. solve_decision. Defined.
Inductive ServiceDirectoryOperationSlotState := OperationFree | OperationLive | OperationRetired.
#[export] Instance ServiceDirectoryOperationSlotState_eq_dec : EqDecision ServiceDirectoryOperationSlotState.
Proof. solve_decision. Defined.

Record ServiceDirectoryOperationSlot := MkOperationSlot {
  os_generation : Z;
  os_state : ServiceDirectoryOperationSlotState;
}.
#[export] Instance ServiceDirectoryOperationSlot_eq_dec : EqDecision ServiceDirectoryOperationSlot.
Proof. solve_decision. Defined.
Definition zero_operation_slot : ServiceDirectoryOperationSlot := MkOperationSlot 0 OperationFree.

Record ServiceDirectoryOwnedChannel := MkOwned {
  ow_owner : ServiceEndpointOwnerReceipt;
  ow_acceptor : Z;
  ow_release_driver_active : bool;
}.
#[export] Instance ServiceDirectoryOwnedChannel_eq_dec : EqDecision ServiceDirectoryOwnedChannel.
Proof. solve_decision. Defined.
Definition zero_owned : ServiceDirectoryOwnedChannel := MkOwned zero_receipt 0 false.

Definition ServiceDirectoryOwnedChannelIsEmpty (c : ServiceDirectoryOwnedChannel) : bool :=
  negb (ServiceEndpointOwnerReceiptIsValid (ow_owner c)) && (ow_acceptor c =? 0) && negb (ow_release_driver_active c).

Inductive ServiceDirectoryQueuedChannelState := QueuedEmpty | QueuedPendingClientPublish | QueuedReady.
#[export] Instance ServiceDirectoryQueuedChannelState_eq_dec : EqDecision ServiceDirectoryQueuedChannelState.
Proof. solve_decision. Defined.
Record ServiceDirectoryQueuedChannel := MkQueued {
  qu_owned : ServiceDirectoryOwnedChannel;
  qu_channel : ServiceEndpointChannelKey;
  qu_state : ServiceDirectoryQueuedChannelState;
}.
#[export] Instance ServiceDirectoryQueuedChannel_eq_dec : EqDecision ServiceDirectoryQueuedChannel.
Proof. solve_decision. Defined.
Definition zero_queued : ServiceDirectoryQueuedChannel := MkQueued zero_owned zero_channel_key QueuedEmpty.

Record ServiceDirectoryAcceptedChannelKey := MkAcceptedKey {
  ak_service : ServiceKey;
  ak_slot : Z;
  ak_generation : Z;
  ak_channel : ServiceEndpointChannelKey;
}.
#[export] Instance ServiceDirectoryAcceptedChannelKey_eq_dec : EqDecision ServiceDirectoryAcceptedChannelKey.
Proof. solve_decision. Defined.
Definition zero_accepted_key : ServiceDirectoryAcceptedChannelKey := MkAcceptedKey (MkServiceKey 0 0) 0 0 zero_channel_key.
Definition kInvalidServiceDirectoryAcceptedChannelKey : ServiceDirectoryAcceptedChannelKey :=
  MkAcceptedKey kInvalidServiceKey kServiceDirectoryAcceptedCapacity 0 kInvalidServiceEndpointChannelKey.
Definition ServiceDirectoryAcceptedChannelKeyIsValid (key : ServiceDirectoryAcceptedChannelKey) : bool :=
  ServiceKeyIsValid (ak_service key) && (ak_slot key <? kServiceDirectoryAcceptedCapacity)
  && negb (ak_generation key =? 0) && ServiceEndpointChannelKeyIsValid (ak_channel key).

Inductive ServiceDirectoryAcceptedChannelState :=
| AcceptedFree | AcceptedPublishing | AcceptedPublished | AcceptedReleasing | AcceptedRetired.
#[export] Instance ServiceDirectoryAcceptedChannelState_eq_dec : EqDecision ServiceDirectoryAcceptedChannelState.
Proof. solve_decision. Defined.
Record ServiceDirectoryAcceptedChannel := MkAccepted {
  ac_key : ServiceDirectoryAcceptedChannelKey;
  ac_owner : ServiceEndpointOwnerReceipt;
  ac_server_process : ProcessKey;
  ac_server_handle : Z;
  ac_process_teardown_deferred : bool;
  ac_release_driver_active : bool;
  ac_state : ServiceDirectoryAcceptedChannelState;
}.
#[export] Instance ServiceDirectoryAcceptedChannel_eq_dec : EqDecision ServiceDirectoryAcceptedChannel.
Proof. solve_decision. Defined.
Definition zero_accepted : ServiceDirectoryAcceptedChannel :=
  MkAccepted zero_accepted_key zero_receipt (MkProcessKey 0 0) kHandleInvalid false false AcceptedFree.

Record ServiceDirectoryRow := MkDirectoryRow {
  dr_name : ServiceDirectoryName;
  dr_owner : ServiceInstanceToken;
  dr_owner_credential : ServiceEndpointCredentialSnapshot;
  dr_key : ServiceKey;
  dr_reservation_authority : Z;
  dr_manifest_slot : Z;
  dr_active_operations : Z;
  dr_next_operation_hint : Z;
  dr_operation_slots : list ServiceDirectoryOperationSlot;
  dr_accept_queue : list ServiceDirectoryQueuedChannel;
  dr_accept_head : Z;
  dr_accept_count : Z;
  dr_accepted_channels : list ServiceDirectoryAcceptedChannel;
  dr_accepted_count : Z;
  dr_next_accepted_hint : Z;
  dr_external_publishers : Z;
  dr_closing_channels : list ServiceDirectoryOwnedChannel;
  dr_closing_count : Z;
  dr_close_batch_outstanding : Z;
  dr_close_driver_active : Z;
  dr_ready : bool;
  dr_state : ServiceDirectoryEntryState;
  dr_close_reason : ServiceDirectoryCloseReason;
}.

Definition zero_instance_token : ServiceInstanceToken := MkToken (MkTicket 0 0) (MkInstanceKey 0 0).
Definition zero_directory_row (state : ServiceDirectoryEntryState) : ServiceDirectoryRow :=
  MkDirectoryRow zero_name zero_instance_token zero_endpoint_credential (MkServiceKey 0 0) 0 0 0 0
    (replicate 8 zero_operation_slot) (replicate 8 zero_queued) 0 0 (replicate 8 zero_accepted) 0 0 0
    (replicate 16 zero_owned) 0 0 0 false state CloseNone.

(** The groups of fields the code updates together. *)
Definition with_life (r : ServiceDirectoryRow) (authority : Z) (ready : bool) (state : ServiceDirectoryEntryState)
    (reason : ServiceDirectoryCloseReason) : ServiceDirectoryRow :=
  MkDirectoryRow (dr_name r) (dr_owner r) (dr_owner_credential r) (dr_key r) authority (dr_manifest_slot r)
    (dr_active_operations r) (dr_next_operation_hint r) (dr_operation_slots r) (dr_accept_queue r) (dr_accept_head r)
    (dr_accept_count r) (dr_accepted_channels r) (dr_accepted_count r) (dr_next_accepted_hint r)
    (dr_external_publishers r) (dr_closing_channels r) (dr_closing_count r) (dr_close_batch_outstanding r)
    (dr_close_driver_active r) ready state reason.
Definition with_operations (r : ServiceDirectoryRow) (slots : list ServiceDirectoryOperationSlot) (active hint : Z)
    : ServiceDirectoryRow :=
  MkDirectoryRow (dr_name r) (dr_owner r) (dr_owner_credential r) (dr_key r) (dr_reservation_authority r)
    (dr_manifest_slot r) active hint slots (dr_accept_queue r) (dr_accept_head r) (dr_accept_count r)
    (dr_accepted_channels r) (dr_accepted_count r) (dr_next_accepted_hint r) (dr_external_publishers r)
    (dr_closing_channels r) (dr_closing_count r) (dr_close_batch_outstanding r) (dr_close_driver_active r)
    (dr_ready r) (dr_state r) (dr_close_reason r).
Definition with_queue (r : ServiceDirectoryRow) (queue : list ServiceDirectoryQueuedChannel) (head count : Z)
    : ServiceDirectoryRow :=
  MkDirectoryRow (dr_name r) (dr_owner r) (dr_owner_credential r) (dr_key r) (dr_reservation_authority r)
    (dr_manifest_slot r) (dr_active_operations r) (dr_next_operation_hint r) (dr_operation_slots r) queue head count
    (dr_accepted_channels r) (dr_accepted_count r) (dr_next_accepted_hint r) (dr_external_publishers r)
    (dr_closing_channels r) (dr_closing_count r) (dr_close_batch_outstanding r) (dr_close_driver_active r)
    (dr_ready r) (dr_state r) (dr_close_reason r).
Definition with_accepted (r : ServiceDirectoryRow) (channels : list ServiceDirectoryAcceptedChannel) (count hint : Z)
    : ServiceDirectoryRow :=
  MkDirectoryRow (dr_name r) (dr_owner r) (dr_owner_credential r) (dr_key r) (dr_reservation_authority r)
    (dr_manifest_slot r) (dr_active_operations r) (dr_next_operation_hint r) (dr_operation_slots r) (dr_accept_queue r)
    (dr_accept_head r) (dr_accept_count r) channels count hint (dr_external_publishers r) (dr_closing_channels r)
    (dr_closing_count r) (dr_close_batch_outstanding r) (dr_close_driver_active r) (dr_ready r) (dr_state r)
    (dr_close_reason r).
Definition with_publishers (r : ServiceDirectoryRow) (publishers : Z) : ServiceDirectoryRow :=
  MkDirectoryRow (dr_name r) (dr_owner r) (dr_owner_credential r) (dr_key r) (dr_reservation_authority r)
    (dr_manifest_slot r) (dr_active_operations r) (dr_next_operation_hint r) (dr_operation_slots r) (dr_accept_queue r)
    (dr_accept_head r) (dr_accept_count r) (dr_accepted_channels r) (dr_accepted_count r) (dr_next_accepted_hint r)
    publishers (dr_closing_channels r) (dr_closing_count r) (dr_close_batch_outstanding r) (dr_close_driver_active r)
    (dr_ready r) (dr_state r) (dr_close_reason r).
Definition with_closing (r : ServiceDirectoryRow) (channels : list ServiceDirectoryOwnedChannel)
    (count outstanding driver : Z) : ServiceDirectoryRow :=
  MkDirectoryRow (dr_name r) (dr_owner r) (dr_owner_credential r) (dr_key r) (dr_reservation_authority r)
    (dr_manifest_slot r) (dr_active_operations r) (dr_next_operation_hint r) (dr_operation_slots r) (dr_accept_queue r)
    (dr_accept_head r) (dr_accept_count r) (dr_accepted_channels r) (dr_accepted_count r) (dr_next_accepted_hint r)
    (dr_external_publishers r) channels count outstanding driver (dr_ready r) (dr_state r) (dr_close_reason r).

Record ServiceDirectory := MkDirectory {
  sd_initialized : Z;
  sd_state : ServiceDirectoryState;
  sd_endpoint_owner : Z;
  sd_deferred_scan_hint : Z;
  sd_rows : list ServiceDirectoryRow;
}.
Definition directory_row (d : ServiceDirectory) (slot : nat) : ServiceDirectoryRow :=
  nth slot (sd_rows d) (zero_directory_row EntryEmpty).
Definition with_row (d : ServiceDirectory) (slot : nat) (row : ServiceDirectoryRow) : ServiceDirectory :=
  MkDirectory (sd_initialized d) (sd_state d) (sd_endpoint_owner d) (sd_deferred_scan_hint d) (<[slot := row]> (sd_rows d)).
Definition with_scan_hint (d : ServiceDirectory) (hint : Z) : ServiceDirectory :=
  MkDirectory (sd_initialized d) (sd_state d) (sd_endpoint_owner d) hint (sd_rows d).

(** ** Checks *)

Definition ServiceDirectoryNameIsCanonical (name : ServiceDirectoryName) : bool :=
  if (dn_length name =? 0) || (kServiceDirectoryNameCapacity <? dn_length name) then false
  else
    let len := Z.to_nat (dn_length name) in
    forallb (fun i => NameCharacterIsCanonical (nth i (dn_bytes name) 0) (Nat.eqb i 0)) (seq 0 len)
    && forallb (fun i => nth i (dn_bytes name) 0 =? 0) (seq len (Z.to_nat kServiceDirectoryNameCapacity - len)).

Definition NameEquals (lhs rhs : ServiceDirectoryName) : bool :=
  if negb (dn_length lhs =? dn_length rhs) then false
  else fold_left (fun difference i => Z.lor difference (Z.lxor (nth i (dn_bytes lhs) 0) (nth i (dn_bytes rhs) 0)))
         (seq 0 (Z.to_nat (dn_length lhs))) 0 =? 0.

Definition NameIsZero (name : ServiceDirectoryName) : bool :=
  (dn_length name =? 0)
  && forallb (fun i => nth i (dn_bytes name) 0 =? 0) (seq 0 (Z.to_nat kServiceDirectoryNameCapacity)).

Definition InstanceIsZero (owner : ServiceInstanceToken) : bool :=
  (ticket_service_identity (token_start owner) =? 0) && (ticket_generation (token_start owner) =? 0)
  && (process_identity (token_process owner) =? 0) && (pid (token_process owner) =? 0).

Definition CredentialIsZero (credential : ServiceEndpointCredentialSnapshot) : bool :=
  bool_decide (credential = zero_endpoint_credential).

Definition KeyIsZero (key : ServiceKey) : bool := (key_slot key =? 0) && (key_generation key =? 0).

Definition AcceptedKeyIsInactive (key : ServiceDirectoryAcceptedChannelKey) : bool :=
  negb (ServiceKeyIsValid (ak_service key)) && negb (ServiceEndpointChannelKeyIsValid (ak_channel key)).

Definition ProcessKeyFromInstance (inst : ServiceInstanceKey) : ProcessKey := MkProcessKey (process_identity inst) (pid inst).

Definition operation_is_live (slot : ServiceDirectoryOperationSlot) : bool := bool_decide (os_state slot = OperationLive).
Definition operation_slot_ok (slot : ServiceDirectoryOperationSlot) : bool :=
  match os_state slot with
  | OperationFree => negb (os_generation slot =? kServiceDirectoryOperationGenerationMaximum)
  | OperationLive => negb (os_generation slot =? 0)
  | OperationRetired => os_generation slot =? kServiceDirectoryOperationGenerationMaximum
  end.

Definition OperationSlotsAreCanonical (row : ServiceDirectoryRow) : bool :=
  forallb operation_slot_ok (dr_operation_slots row)
  && (Z.of_nat (length (List.filter operation_is_live (dr_operation_slots row))) =? dr_active_operations row)
  && (dr_next_operation_hint row <? kServiceDirectoryOperationCapacity).

Definition QueuedChannelIsCanonical (queued : ServiceDirectoryQueuedChannel) : bool :=
  match qu_state queued with
  | QueuedEmpty => ServiceDirectoryOwnedChannelIsEmpty (qu_owned queued) && negb (ServiceEndpointChannelKeyIsValid (qu_channel queued))
  | _ =>
      ServiceEndpointOwnerReceiptIsValid (ow_owner (qu_owned queued)) && negb (ow_acceptor (qu_owned queued) =? 0)
      && negb (ow_release_driver_active (qu_owned queued))
      && bool_decide (qu_channel queued = rc_channel (ow_owner (qu_owned queued)))
  end.

(** The slot of the [offset]-th record of the accept queue. *)
Definition queue_slot (row : ServiceDirectoryRow) (offset : Z) : nat :=
  Z.to_nat ((dr_accept_head row + offset) mod kServiceDirectoryAcceptCapacity).
Definition queued_at (row : ServiceDirectoryRow) (slot : nat) : ServiceDirectoryQueuedChannel :=
  nth slot (dr_accept_queue row) zero_queued.

Definition QueueSlotIsOccupied (row : ServiceDirectoryRow) (slot : nat) : bool :=
  existsb (fun offset => Nat.eqb (queue_slot row (Z.of_nat offset)) slot) (seq 0 (Z.to_nat (dr_accept_count row))).

Definition AcceptQueueIsCanonical (row : ServiceDirectoryRow) : bool :=
  if (kServiceDirectoryAcceptCapacity <=? dr_accept_head row) || (kServiceDirectoryAcceptCapacity <? dr_accept_count row)
  then false
  else forallb (fun i =>
         if QueueSlotIsOccupied row i
         then QueuedChannelIsCanonical (queued_at row i) && negb (bool_decide (qu_state (queued_at row i) = QueuedEmpty))
         else QueuedChannelIsCanonical (queued_at row i)) (seq 0 (Z.to_nat kServiceDirectoryAcceptCapacity)).

Definition accepted_at (row : ServiceDirectoryRow) (i : nat) : ServiceDirectoryAcceptedChannel :=
  nth i (dr_accepted_channels row) zero_accepted.
Definition accepted_in_use (a : ServiceDirectoryAcceptedChannel) : bool :=
  match ac_state a with AcceptedFree | AcceptedRetired => false | _ => true end.

(** The check of one accepted record. *)
Definition accepted_ok (key : ServiceKey) (i : nat) (a : ServiceDirectoryAcceptedChannel) : bool :=
  if negb (accepted_in_use a)
  then AcceptedKeyIsInactive (ac_key a) && negb (ServiceEndpointOwnerReceiptIsValid (ac_owner a))
       && negb (ProcessKeyIsValid (ac_server_process a)) && (ac_server_handle a =? kHandleInvalid)
       && negb (ac_process_teardown_deferred a) && negb (ac_release_driver_active a)
       && match ac_state a with
          | AcceptedRetired => ak_generation (ac_key a) =? kServiceDirectoryAcceptedGenerationMaximum
          | _ => negb (ak_generation (ac_key a) =? kServiceDirectoryAcceptedGenerationMaximum)
          end
  else ServiceDirectoryAcceptedChannelKeyIsValid (ac_key a) && bool_decide (ak_service (ac_key a) = key)
       && (ak_slot (ac_key a) =? Z.of_nat i) && ServiceEndpointOwnerReceiptIsValid (ac_owner a)
       && bool_decide (rc_channel (ac_owner a) = ak_channel (ac_key a)) && ProcessKeyIsValid (ac_server_process a)
       && match ac_state a with
          | AcceptedPublishing => (ac_server_handle a =? kHandleInvalid) && negb (ac_release_driver_active a)
          | AcceptedPublished => negb (ac_server_handle a =? kHandleInvalid) && negb (ac_release_driver_active a)
          | AcceptedReleasing => negb (ac_server_handle a =? kHandleInvalid)
          | _ => false
          end.

Definition AcceptedChannelsAreCanonical (row : ServiceDirectoryRow) : bool :=
  if (kServiceDirectoryAcceptedCapacity <? dr_accepted_count row)
     || (kServiceDirectoryAcceptedCapacity <=? dr_next_accepted_hint row)
  then false
  else forallb (fun i => accepted_ok (dr_key row) i (accepted_at row i)) (seq 0 (Z.to_nat kServiceDirectoryAcceptedCapacity))
       && (Z.of_nat (length (List.filter accepted_in_use (dr_accepted_channels row))) =? dr_accepted_count row).

Definition OwnedChannelIsCanonical (channel : ServiceDirectoryOwnedChannel) : bool :=
  if ServiceDirectoryOwnedChannelIsEmpty channel then true
  else ServiceEndpointOwnerReceiptIsValid (ow_owner channel) && negb (ow_release_driver_active channel).

Definition closing_at (row : ServiceDirectoryRow) (i : nat) : ServiceDirectoryOwnedChannel :=
  nth i (dr_closing_channels row) zero_owned.

Definition ClosingChannelsAreCanonical (row : ServiceDirectoryRow) : bool :=
  if (kServiceDirectoryCloseBatchCapacity <? dr_closing_count row)
     || (kServiceDirectoryCloseBatchCapacity <? dr_close_batch_outstanding row) || (1 <? dr_close_driver_active row)
  then false
  else forallb (fun i =>
         if Z.of_nat i <? dr_closing_count row
         then OwnedChannelIsCanonical (closing_at row i) && negb (ServiceDirectoryOwnedChannelIsEmpty (closing_at row i))
         else ServiceDirectoryOwnedChannelIsEmpty (closing_at row i)) (seq 0 (Z.to_nat kServiceDirectoryCloseBatchCapacity))
       && (if negb (dr_close_driver_active row =? 0)
           then negb (dr_close_batch_outstanding row =? 0) && (dr_closing_count row =? 0)
           else dr_close_batch_outstanding row =? 0).

Definition RowIsZeroExceptState (row : ServiceDirectoryRow) : bool :=
  NameIsZero (dr_name row) && InstanceIsZero (dr_owner row) && CredentialIsZero (dr_owner_credential row)
  && KeyIsZero (dr_key row) && (dr_reservation_authority row =? 0) && (dr_manifest_slot row =? 0)
  && (dr_active_operations row =? 0) && (dr_next_operation_hint row =? 0) && (dr_accept_head row =? 0)
  && (dr_accept_count row =? 0) && (dr_accepted_count row =? 0) && (dr_next_accepted_hint row =? 0)
  && (dr_external_publishers row =? 0) && (dr_closing_count row =? 0) && (dr_close_batch_outstanding row =? 0)
  && (dr_close_driver_active row =? 0) && negb (dr_ready row) && bool_decide (dr_close_reason row = CloseNone)
  && forallb (fun s => bool_decide (s = zero_operation_slot)) (dr_operation_slots row)
  && forallb (fun q => bool_decide (q = zero_queued)) (dr_accept_queue row)
  && forallb (fun a => bool_decide (a = zero_accepted)) (dr_accepted_channels row)
  && forallb ServiceDirectoryOwnedChannelIsEmpty (dr_closing_channels row).

(** The part of the row check that depends on its state. *)
Definition life_ok (row : ServiceDirectoryRow) : bool :=
  match dr_state row with
  | EntryReserved =>
      (dr_reservation_authority row =? key_generation (dr_key row)) && (dr_active_operations row =? 0)
      && (dr_accept_count row =? 0) && (dr_accepted_count row =? 0) && (dr_external_publishers row =? 0)
      && (dr_closing_count row =? 0) && (dr_close_batch_outstanding row =? 0) && (dr_close_driver_active row =? 0)
      && negb (dr_ready row) && bool_decide (dr_close_reason row = CloseNone)
  | EntryActive =>
      (dr_reservation_authority row =? 0) && (dr_closing_count row =? 0) && (dr_close_batch_outstanding row =? 0)
      && (dr_close_driver_active row =? 0) && bool_decide (dr_close_reason row = CloseNone)
  | EntryClosing =>
      ((dr_reservation_authority row =? 0) || (dr_reservation_authority row =? key_generation (dr_key row)))
      && negb (dr_ready row) && negb (bool_decide (dr_close_reason row = CloseNone))
  | EntryEmpty | EntryRetired => false
  end.

Definition entry_in_use (row : ServiceDirectoryRow) : bool :=
  match dr_state row with EntryEmpty | EntryRetired => false | _ => true end.

Definition RowIsCanonical (row : ServiceDirectoryRow) : bool :=
  if negb (entry_in_use row) then RowIsZeroExceptState row
  else ServiceDirectoryNameIsCanonical (dr_name row) && ServiceInstanceTokenIsValid (dr_owner row)
       && ServiceEndpointCredentialSnapshotIsCanonical (dr_owner_credential row) && ServiceKeyIsValid (dr_key row)
       && (key_slot (dr_key row) <? kServiceDirectoryCapacity) && (dr_manifest_slot row <? kServiceDirectoryCapacity)
       && OperationSlotsAreCanonical row && AcceptQueueIsCanonical row && AcceptedChannelsAreCanonical row
       && ClosingChannelsAreCanonical row && life_ok row.

Definition DirectoryBodyIsCanonicalZero (d : ServiceDirectory) : bool :=
  bool_decide (sd_state d = DirectoryUninitialized) && (sd_endpoint_owner d =? 0) && (sd_deferred_scan_hint d =? 0)
  && forallb (fun i => bool_decide (dr_state (directory_row d i) = EntryEmpty) && RowIsZeroExceptState (directory_row d i))
       (seq 0 (Z.to_nat kServiceDirectoryCapacity)).

Definition DirectoryIsCanonicalLocked (d : ServiceDirectory) : bool :=
  bool_decide (sd_state d = DirectoryOpen) && negb (sd_endpoint_owner d =? 0)
  && (sd_deferred_scan_hint d <? kServiceDirectoryDeferredAcceptedCapacity)
  && forallb (fun i =>
       RowIsCanonical (directory_row d i)
       && negb (entry_in_use (directory_row d i) && negb (key_slot (dr_key (directory_row d i)) =? Z.of_nat i)))
       (seq 0 (Z.to_nat kServiceDirectoryCapacity)).

(** ** Rows *)

Definition kDirectoryInitializeUninitialized : Z := 0.
Definition kDirectoryInitializeReady : Z := 2.

(** [addr] is the address of the directory, 0 for null. *)
Definition ReadyStatus (addr : Z) (d : ServiceDirectory) : ServiceDirectoryStatus :=
  if addr =? 0 then DirInvalidArgument
  else if sd_initialized d =? kDirectoryInitializeReady then DirOk else DirNotInitialized.

(** The exchange loop on the slot's counter, which ends with the next
    generation or, when they are spent, with 0. *)
Definition AllocateServiceGeneration (generations : list Z) (slot : nat) : Z * list Z :=
  let current := nth slot generations 0 in
  if current <? kServiceKeyGenerationMaximum then (current + 1, <[slot := current + 1]> generations) else (0, generations).

Definition ResolveExactLocked (d : ServiceDirectory) (key : ServiceKey) : option ServiceDirectoryRow :=
  if negb (ServiceKeyIsValid key) then None
  else
    let row := directory_row d (Z.to_nat (key_slot key)) in
    if negb (entry_in_use row) || negb (bool_decide (dr_key row = key)) then None else Some row.

(** Writing a resolved row back. *)
Definition put_entry (d : ServiceDirectory) (key : ServiceKey) (row : ServiceDirectoryRow) : ServiceDirectory :=
  with_row d (Z.to_nat (key_slot key)) row.

Definition ClearRowLocked (terminal : bool) : ServiceDirectoryRow :=
  zero_directory_row (if terminal then EntryRetired else EntryEmpty).

Definition TryRecycleLocked (row : ServiceDirectoryRow) : bool * ServiceDirectoryRow :=
  if negb (bool_decide (dr_state row = EntryClosing)) || negb (dr_reservation_authority row =? 0)
     || negb (dr_active_operations row =? 0) || negb (dr_accept_count row =? 0) || negb (dr_accepted_count row =? 0)
     || negb (dr_external_publishers row =? 0) || negb (dr_closing_count row =? 0)
     || negb (dr_close_batch_outstanding row =? 0) || negb (dr_close_driver_active row =? 0)
  then (false, row)
  else (true, ClearRowLocked (key_generation (dr_key row) =? kServiceKeyGenerationMaximum)).

Definition operation_at (row : ServiceDirectoryRow) (slot : nat) : ServiceDirectoryOperationSlot :=
  nth slot (dr_operation_slots row) zero_operation_slot.

Definition ValidateOperationLocked (row : ServiceDirectoryRow) (pin : ServiceDirectoryOperationPin) : ServiceDirectoryStatus :=
  if negb (bool_decide (dr_key row = op_service pin)) then DirStaleKey
  else if (kServiceDirectoryOperationCapacity <=? op_slot pin) || (op_pin_generation pin =? 0) then DirInvalidArgument
  else
    let slot := operation_at row (Z.to_nat (op_slot pin)) in
    if negb (operation_is_live slot) || negb (os_generation slot =? op_pin_generation pin) then DirStaleOperation
    else DirOk.

(** ** The accept queue *)

Definition EnqueueTailLocked (row : ServiceDirectoryRow) (queued : ServiceDirectoryQueuedChannel) : ServiceDirectoryRow :=
  with_queue row (<[queue_slot row (dr_accept_count row) := queued]> (dr_accept_queue row)) (dr_accept_head row)
    (dr_accept_count row + 1).

Definition EnqueueFrontLocked (row : ServiceDirectoryRow) (queued : ServiceDirectoryQueuedChannel) : ServiceDirectoryRow :=
  let head := (dr_accept_head row + kServiceDirectoryAcceptCapacity - 1) mod kServiceDirectoryAcceptCapacity in
  with_queue row (<[Z.to_nat head := queued]> (dr_accept_queue row)) head (dr_accept_count row + 1).

Definition DequeueLocked (row : ServiceDirectoryRow) : ServiceDirectoryQueuedChannel * ServiceDirectoryRow :=
  let slot := Z.to_nat (dr_accept_head row) in
  let count := dr_accept_count row - 1 in
  (queued_at row slot,
   with_queue row (<[slot := zero_queued]> (dr_accept_queue row))
     (if count =? 0 then 0 else (dr_accept_head row + 1) mod kServiceDirectoryAcceptCapacity) count).

(** The shift loop of a removal, from [offset] on. *)
Fixpoint shift_queue (todo : nat) (row : ServiceDirectoryRow) (queue : list ServiceDirectoryQueuedChannel) (shift : Z)
    : list ServiceDirectoryQueuedChannel :=
  match todo with
  | O => queue
  | S todo =>
      shift_queue todo row (<[queue_slot row shift := nth (queue_slot row (shift + 1)) queue zero_queued]> queue) (shift + 1)
  end.

Definition remove_at (row : ServiceDirectoryRow) (offset : Z) : ServiceDirectoryRow :=
  let queue := shift_queue (Z.to_nat (dr_accept_count row - 1 - offset)) row (dr_accept_queue row) offset in
  let count := dr_accept_count row - 1 in
  with_queue row (<[queue_slot row count := zero_queued]> queue) (if count =? 0 then 0 else dr_accept_head row) count.

Fixpoint remove_scan (todo : nat) (row : ServiceDirectoryRow) (channel : ServiceEndpointChannelKey) (offset : Z)
    : option (ServiceDirectoryQueuedChannel * ServiceDirectoryRow) :=
  match todo with
  | O => None
  | S todo =>
      let queued := queued_at row (queue_slot row offset) in
      if negb (bool_decide (qu_channel queued = channel)) then remove_scan todo row channel (offset + 1)
      else Some (queued, remove_at row offset)
  end.

Definition RemoveQueuedLocked (row : ServiceDirectoryRow) (channel : ServiceEndpointChannelKey)
    : option (ServiceDirectoryQueuedChannel * ServiceDirectoryRow) :=
  remove_scan (Z.to_nat (dr_accept_count row)) row channel 0.

(** The first pending record of [channel] becomes ready. *)
Fixpoint ready_scan (todo : nat) (row : ServiceDirectoryRow) (channel : ServiceEndpointChannelKey) (offset : Z)
    : option ServiceDirectoryRow :=
  match todo with
  | O => None
  | S todo =>
      let slot := queue_slot row offset in
      let queued := queued_at row slot in
      if bool_decide (qu_channel queued = channel) && bool_decide (qu_state queued = QueuedPendingClientPublish)
      then Some (with_queue row (<[slot := MkQueued (qu_owned queued) (qu_channel queued) QueuedReady]> (dr_accept_queue row))
                   (dr_accept_head row) (dr_accept_count row))
      else ready_scan todo row channel (offset + 1)
  end.

(** ** Accepted channels *)

Definition ClearAcceptedLocked (a : ServiceDirectoryAcceptedChannel) : ServiceDirectoryAcceptedChannel :=
  let generation := ak_generation (ac_key a) in
  MkAccepted (MkAcceptedKey (MkServiceKey 0 0) 0 generation zero_channel_key) zero_receipt (MkProcessKey 0 0) kHandleInvalid
    false false (if generation =? kServiceDirectoryAcceptedGenerationMaximum then AcceptedRetired else AcceptedFree).

Definition put_accepted (row : ServiceDirectoryRow) (i : nat) (a : ServiceDirectoryAcceptedChannel) (count : Z)
    : ServiceDirectoryRow :=
  with_accepted row (<[i := a]> (dr_accepted_channels row)) count (dr_next_accepted_hint row).

(** The first free record from the hint on, with a record of the new channel;
    the caller writes the receipt. *)
Definition AllocateAcceptedLocked (row : ServiceDirectoryRow) (channel : ServiceEndpointChannelKey) (server_process : ProcessKey)
    : option (nat * ServiceDirectoryAcceptedChannel * ServiceDirectoryRow) :=
  match find (fun i =>
          let a := accepted_at row i in
          bool_decide (ac_state a = AcceptedFree) && negb (ak_generation (ac_key a) =? kServiceDirectoryAcceptedGenerationMaximum))
          (map (fun offset => Z.to_nat ((dr_next_accepted_hint row + Z.of_nat offset) mod kServiceDirectoryAcceptedCapacity))
             (seq 0 (Z.to_nat kServiceDirectoryAcceptedCapacity))) with
  | None => None
  | Some i =>
      let generation := ak_generation (ac_key (accepted_at row i)) + 1 in
      let a := MkAccepted (MkAcceptedKey (dr_key row) (Z.of_nat i) generation channel) zero_receipt server_process
                 kHandleInvalid false false AcceptedPublishing in
      Some (i, a, with_accepted row (<[i := a]> (dr_accepted_channels row)) (dr_accepted_count row + 1)
                    ((Z.of_nat i + 1) mod kServiceDirectoryAcceptedCapacity))
  end.

Definition ResolveAcceptedLocked (row : ServiceDirectoryRow) (key : ServiceDirectoryAcceptedChannelKey)
    : option ServiceDirectoryAcceptedChannel :=
  if negb (ServiceDirectoryAcceptedChannelKeyIsValid key) || negb (bool_decide (ak_service key = dr_key row)) then None
  else
    let a := accepted_at row (Z.to_nat (ak_slot key)) in
    if negb (accepted_in_use a) || negb (bool_decide (ac_key a = key)) then None else Some a.

Definition HasAcceptedReleaseDriverLocked (row : ServiceDirectoryRow) : bool :=
  existsb (fun i => ac_release_driver_active (accepted_at row i)) (seq 0 (Z.to_nat kServiceDirectoryAcceptedCapacity)).

(** ** One critical section *)

Section locked.
Context {A : Type} (addr : Z) (d : ServiceDirectory) (fail : ServiceDirectoryStatus -> A).

(** A section that first checks the whole directory. *)
Definition guarded (body : A * ServiceDirectory) : A * ServiceDirectory :=
  if negb (DirectoryIsCanonicalLocked d) then (fail DirCorruptState, d) else body.

(** The first section of a call, after the test that the directory is open. *)
Definition locked (body : A * ServiceDirectory) : A * ServiceDirectory :=
  match ReadyStatus addr d with
  | DirOk => guarded body
  | ready => (fail ready, d)
  end.

End locked.

(** ** Registration *)

Definition ServiceDirectoryInitialize (addr : Z) (d : ServiceDirectory) (endpoint_owner : Z) (owner_is_ready : bool)
    : ServiceDirectoryStatus * ServiceDirectory :=
  if (addr =? 0) || (endpoint_owner =? 0) then (DirInvalidArgument, d)
  else if negb owner_is_ready then (DirNotInitialized, d)
  else if negb (sd_initialized d =? kDirectoryInitializeUninitialized) then (DirAlreadyInitialized, d)
  else if negb (DirectoryBodyIsCanonicalZero d) then (DirCorruptState, d)
  else (DirOk, MkDirectory kDirectoryInitializeReady DirectoryOpen endpoint_owner (sd_deferred_scan_hint d) (sd_rows d)).

Definition ServiceDirectoryValidateRuntimeOwner (addr : Z) (d : ServiceDirectory) (expected_endpoint_owner : Z)
    : ServiceDirectoryStatus :=
  if expected_endpoint_owner =? 0 then DirInvalidArgument
  else (locked addr d id (if sd_endpoint_owner d =? expected_endpoint_owner then DirOk else DirCorruptState, d)).1.

(** The conflicts of a name or a service with the rows in use, in row order. *)
Fixpoint conflict (rows : list ServiceDirectoryRow) (name : ServiceDirectoryName) (owner : ServiceInstanceToken)
    : ServiceDirectoryStatus :=
  match rows with
  | [] => DirOk
  | row :: rows =>
      if negb (entry_in_use row) then conflict rows name owner
      else if NameEquals (dr_name row) name then DirNameConflict
      else if ticket_service_identity (token_start (dr_owner row)) =? ticket_service_identity (token_start owner)
      then DirServiceConflict
      else conflict rows name owner
  end.

(** An empty row as it is reserved: the fields the loop writes. *)
Definition reserved_row (row : ServiceDirectoryRow) (name : ServiceDirectoryName) (manifest_slot : Z)
    (owner : ServiceInstanceToken) (credential : ServiceEndpointCredentialSnapshot) (key : ServiceKey) : ServiceDirectoryRow :=
  MkDirectoryRow name owner credential key (key_generation key) manifest_slot (dr_active_operations row)
    (dr_next_operation_hint row) (dr_operation_slots row) (dr_accept_queue row) (dr_accept_head row) (dr_accept_count row)
    (dr_accepted_channels row) (dr_accepted_count row) (dr_next_accepted_hint row) (dr_external_publishers row)
    (dr_closing_channels row) (dr_closing_count row) (dr_close_batch_outstanding row) (dr_close_driver_active row)
    (dr_ready row) EntryReserved (dr_close_reason row).

Definition ServiceDirectoryReserveResult : Type := ServiceDirectoryStatus * ServiceRegistrationReservation.
Definition ReserveFailure (status : ServiceDirectoryStatus) : ServiceDirectoryReserveResult :=
  (status, kInvalidServiceRegistrationReservation).

(** The slot loop: an empty row whose generations are spent is retired and
    passed over. *)
Fixpoint reserve_scan (todo : nat) (slot : nat) (d : ServiceDirectory) (generations : list Z) (exhausted : bool)
    (fill : ServiceDirectoryRow -> ServiceKey -> ServiceDirectoryRow)
    : ServiceDirectoryReserveResult * ServiceDirectory * list Z :=
  match todo with
  | O => (ReserveFailure (if exhausted then DirGenerationExhausted else DirCapacityExhausted), d, generations)
  | S todo =>
      let row := directory_row d slot in
      if negb (bool_decide (dr_state row = EntryEmpty)) then reserve_scan todo (S slot) d generations exhausted fill
      else
        let '(generation, generations) := AllocateServiceGeneration generations slot in
        if generation =? 0
        then reserve_scan todo (S slot) (with_row d slot (ClearRowLocked true)) generations true fill
        else
          let key := MkServiceKey (Z.of_nat slot) generation in
          ((DirOk, MkReservation key generation), with_row d slot (fill row key), generations)
  end.

(** A null name or credential is [None]. *)
Definition ServiceDirectoryReserveRegistration (addr : Z) (d : ServiceDirectory) (generations : list Z)
    (name : option ServiceDirectoryName) (manifest_slot : Z) (owner : ServiceInstanceToken)
    (owner_credential : option ServiceEndpointCredentialSnapshot)
    : ServiceDirectoryReserveResult * ServiceDirectory * list Z :=
  match name, owner_credential with
  | Some name, Some credential =>
      if negb (ServiceDirectoryNameIsCanonical name) || (kServiceDirectoryCapacity <=? manifest_slot)
         || negb (ServiceInstanceTokenIsValid owner) || negb (ServiceEndpointCredentialSnapshotIsCanonical credential)
      then (ReserveFailure DirInvalidArgument, d, generations)
      else
        match ReadyStatus addr d with
        | DirOk =>
            if negb (DirectoryIsCanonicalLocked d) then (ReserveFailure DirCorruptState, d, generations)
            else
              match conflict (sd_rows d) name owner with
              | DirOk =>
                  reserve_scan (Z.to_nat kServiceDirectoryCapacity) 0 d generations false
                    (fun row key => reserved_row row name manifest_slot owner credential key)
              | status => (ReserveFailure status, d, generations)
              end
        | ready => (ReserveFailure ready, d, generations)
        end
  | _, _ => (ReserveFailure DirInvalidArgument, d, generations)
  end.

Definition ServiceDirectoryPublishRegistration (addr : Z) (d : ServiceDirectory)
    (reservation : option ServiceRegistrationReservation) (owner : ServiceInstanceToken)
    : ServiceDirectoryStatus * ServiceDirectory * option ServiceRegistrationReservation :=
  match reservation with
  | None => (DirInvalidArgument, d, None)
  | Some supplied =>
      if negb (ServiceRegistrationReservationIsValid supplied) || negb (ServiceInstanceTokenIsValid owner)
      then (DirInvalidArgument, d, reservation)
      else
        let '(status, d) :=
          locked addr d id
            (match ResolveExactLocked d (reservation_service supplied) with
             | None => (DirStaleKey, d)
             | Some row =>
                 if negb (bool_decide (dr_owner row = owner)) then (DirOwnerMismatch, d)
                 else if bool_decide (dr_state row = EntryClosing) then (DirClosing, d)
                 else if negb (bool_decide (dr_state row = EntryReserved))
                         || negb (dr_reservation_authority row =? reservation_authority supplied)
                 then (DirReservationConsumed, d)
                 else (DirOk, put_entry d (reservation_service supplied) (with_life row 0 false EntryActive (dr_close_reason row)))
             end) in
        (status, d, if decide (status = DirOk) then Some kInvalidServiceRegistrationReservation else reservation)
  end.

(** [lifecycle_ready] is the flag of the broker row, written with the
    directory's. *)
Definition ServiceDirectoryCommitJointReady (addr : Z) (d : ServiceDirectory) (service : ServiceKey)
    (owner : ServiceInstanceToken) (lifecycle_ready : option bool) : ServiceDirectoryStatus * ServiceDirectory * option bool :=
  match lifecycle_ready with
  | None => (DirInvalidArgument, d, None)
  | Some _ =>
      if negb (ServiceKeyIsValid service) || negb (ServiceInstanceTokenIsValid owner)
      then (DirInvalidArgument, d, lifecycle_ready)
      else
        let '(status, d) :=
          locked addr d id
            (match ResolveExactLocked d service with
             | None => (DirStaleKey, d)
             | Some row =>
                 if negb (bool_decide (dr_owner row = owner)) then (DirOwnerMismatch, d)
                 else if bool_decide (dr_state row = EntryClosing) then (DirClosing, d)
                 else if negb (bool_decide (dr_state row = EntryActive)) then (DirNotReady, d)
                 else (DirOk, put_entry d service
                                (with_life row (dr_reservation_authority row) true (dr_state row) (dr_close_reason row)))
             end) in
        (status, d, if decide (status = DirOk) then Some true else lifecycle_ready)
  end.

Definition ServiceDirectoryAbortRegistration (addr : Z) (d : ServiceDirectory)
    (reservation : option ServiceRegistrationReservation) (owner : ServiceInstanceToken)
    : ServiceDirectoryStatus * ServiceDirectory * option ServiceRegistrationReservation :=
  match reservation with
  | None => (DirInvalidArgument, d, None)
  | Some supplied =>
      if negb (ServiceRegistrationReservationIsValid supplied) || negb (ServiceInstanceTokenIsValid owner)
      then (DirInvalidArgument, d, reservation)
      else
        let '(status, d) :=
          locked addr d id
            (match ResolveExactLocked d (reservation_service supplied) with
             | None => (DirStaleKey, d)
             | Some row =>
                 if negb (bool_decide (dr_owner row = owner)) then (DirOwnerMismatch, d)
                 else if (negb (bool_decide (dr_state row = EntryReserved)) && negb (bool_decide (dr_state row = EntryClosing)))
                         || negb (dr_reservation_authority row =? reservation_authority supplied)
                 then (DirReservationConsumed, d)
                 else
                   let row :=
                     if bool_decide (dr_state row = EntryReserved)
                     then with_life row 0 false EntryClosing CloseRegistrationAbort
                     else with_life row 0 (dr_ready row) (dr_state row) (dr_close_reason row) in
                   (DirOk, put_entry d (reservation_service supplied) (TryRecycleLocked row).2)
             end) in
        (status, d, if decide (status = DirOk) then Some kInvalidServiceRegistrationReservation else reservation)
  end.

(** ** Lookup *)

Definition ServiceDirectoryLookupResult : Type := ServiceDirectoryStatus * ServiceDirectoryOperationPin.
Definition LookupFailure (status : ServiceDirectoryStatus) : ServiceDirectoryLookupResult :=
  (status, kInvalidServiceDirectoryOperationPin).

(** The operation slots from the hint on. *)
Definition free_operation (row : ServiceDirectoryRow) : option nat :=
  find (fun i =>
    let slot := operation_at row i in
    bool_decide (os_state slot = OperationFree) && negb (os_generation slot =? kServiceDirectoryOperationGenerationMaximum))
    (map (fun offset => Z.to_nat ((dr_next_operation_hint row + Z.of_nat offset) mod kServiceDirectoryOperationCapacity))
       (seq 0 (Z.to_nat kServiceDirectoryOperationCapacity))).

(** The row in use of that name: its slot. *)
Definition find_name (d : ServiceDirectory) (name : ServiceDirectoryName) : option nat :=
  find (fun i => entry_in_use (directory_row d i) && NameEquals (dr_name (directory_row d i)) name)
    (seq 0 (Z.to_nat kServiceDirectoryCapacity)).

Definition ServiceDirectoryLookup (addr : Z) (d : ServiceDirectory) (name : option ServiceDirectoryName)
    : ServiceDirectoryLookupResult * ServiceDirectory :=
  match name with
  | None => (LookupFailure DirInvalidArgument, d)
  | Some supplied =>
      if negb (ServiceDirectoryNameIsCanonical supplied) then (LookupFailure DirInvalidArgument, d)
      else
        locked addr d LookupFailure
          (match find_name d supplied with
           | None => (LookupFailure DirNotFound, d)
           | Some i =>
               let row := directory_row d i in
               match dr_state row with
               | EntryReserved => (LookupFailure DirNotReady, d)
               | EntryClosing => (LookupFailure DirClosing, d)
               | EntryActive =>
                   match free_operation row with
                   | None => (LookupFailure DirOperationIdentityExhausted, d)
                   | Some slot =>
                       let generation := os_generation (operation_at row slot) + 1 in
                       ((DirOk, MkOperationPin (dr_key row) (Z.of_nat slot) generation),
                        with_row d i
                          (with_operations row (<[slot := MkOperationSlot generation OperationLive]> (dr_operation_slots row))
                             (dr_active_operations row + 1)
                             ((Z.of_nat slot + 1) mod kServiceDirectoryOperationCapacity)))
                   end
               | _ => (LookupFailure DirCorruptState, d)
               end
           end)
  end.

Definition released_operation (row : ServiceDirectoryRow) (slot : nat) : ServiceDirectoryRow :=
  let generation := os_generation (operation_at row slot) in
  with_operations row
    (<[slot := MkOperationSlot generation
                 (if generation =? kServiceDirectoryOperationGenerationMaximum then OperationRetired else OperationFree)]>
       (dr_operation_slots row))
    (dr_active_operations row - 1) (dr_next_operation_hint row).

Definition ServiceDirectoryReleaseOperation (addr : Z) (d : ServiceDirectory) (pin : option ServiceDirectoryOperationPin)
    : ServiceDirectoryStatus * ServiceDirectory * option ServiceDirectoryOperationPin :=
  match pin with
  | None => (DirInvalidArgument, d, None)
  | Some supplied =>
      if negb (ServiceDirectoryOperationPinIsValid supplied) then (DirInvalidArgument, d, pin)
      else
        let '(status, d) :=
          locked addr d id
            (match ResolveExactLocked d (op_service supplied) with
             | None => (DirStaleKey, d)
             | Some row =>
                 match ValidateOperationLocked row supplied with
                 | DirOk =>
                     (DirOk, put_entry d (op_service supplied)
                               (TryRecycleLocked (released_operation row (Z.to_nat (op_slot supplied)))).2)
                 | validation => (validation, d)
                 end
             end) in
        (status, d, if decide (status = DirOk) then Some kInvalidServiceDirectoryOperationPin else pin)
  end.

(** ** Connecting

    A connect checks the service, reserves a client handle and has an endpoint
    pair created outside the lock, queues the pair, publishes the client's end
    and activates the pair outside the lock, and then makes the record ready
    or takes it back. *)

Inductive ServiceEndpointRole := RoleInitiator | RoleAcceptor.
Record ServiceEndpointIdentity := MkIdentity {
  id_channel : ServiceEndpointChannelKey;
  id_role : ServiceEndpointRole;
}.
Definition kInvalidServiceEndpointIdentity : ServiceEndpointIdentity := MkIdentity kInvalidServiceEndpointChannelKey RoleInitiator.

Record ServiceEndpointPeerSnapshot := MkPeer {
  peer_process : ProcessKey;
  peer_credential : ServiceEndpointCredentialSnapshot;
}.

Record ServiceEndpointActivationTicket := MkActivation {
  at_owner : Z;
  at_channel : ServiceEndpointChannelKey;
  at_nonce : Z;
}.

(** A new pair: the outer receipt, the ticket that activates it, and the
    objects and identities of its two ends. *)
Record ServiceEndpointPair := MkPair {
  pr_owner : ServiceEndpointOwnerReceipt;
  pr_activation : ServiceEndpointActivationTicket;
  pr_initiator : Z;
  pr_acceptor : Z;
  pr_initiator_identity : ServiceEndpointIdentity;
  pr_acceptor_identity : ServiceEndpointIdentity;
}.

Record ServiceEndpointProtocolAuthority := MkProtocol {
  pa_authority_identity : Z;
  pa_protocol_identity : Z;
  pa_service_identity : Z;
  pa_allowed_methods : Z;
  pa_protocol_version : Z;
  pa_flags : Z;
  pa_wire_service_id : Z;
  pa_reserved32 : Z;
}.
Definition kServiceEndpointProtocolVersionMaximum : Z := 65535.
Definition ServiceEndpointProtocolAuthorityIsCanonical (a : ServiceEndpointProtocolAuthority) : bool :=
  negb (pa_authority_identity a =? 0) && negb (pa_protocol_identity a =? 0) && negb (pa_service_identity a =? 0)
  && negb (pa_allowed_methods a =? 0) && negb (pa_protocol_version a =? 0)
  && (pa_protocol_version a <=? kServiceEndpointProtocolVersionMaximum) && (pa_flags a =? 0)
  && negb (pa_wire_service_id a =? 0) && (pa_reserved32 a =? 0).

Record ServiceDirectoryConnectResult := MkConnectResult {
  cn_status : ServiceDirectoryStatus;
  cn_endpoint_status : ServiceEndpointStatus;
  cn_handle_status : ErrorCode;
  cn_client_handle : Z;
  cn_endpoint : ServiceEndpointIdentity;
  cn_rollback : ServiceDirectoryOwnedChannel;
}.
Definition ConnectFailure (status : ServiceDirectoryStatus) (endpoint_status : ServiceEndpointStatus)
    (handle_status : ErrorCode) (rollback : ServiceDirectoryOwnedChannel) : ServiceDirectoryConnectResult :=
  MkConnectResult status endpoint_status handle_status kHandleInvalid kInvalidServiceEndpointIdentity rollback.
Definition ConnectRefused (status : ServiceDirectoryStatus) : ServiceDirectoryConnectResult :=
  ConnectFailure status EpOk EOk zero_owned.

(** The tests of a service a client would connect to, with the answer of the
    protocol test last. *)
Definition connect_status (row : ServiceDirectoryRow) (pin : ServiceDirectoryOperationPin) : ServiceDirectoryStatus :=
  match dr_state row with
  | EntryClosing => DirClosing
  | EntryActive => if negb (dr_ready row) then DirNotReady else ValidateOperationLocked row pin
  | _ => DirNotReady
  end.

(** The arguments and the first section: the peer the pair is made for. *)
Definition ConnectCheckLocked (addr : Z) (d : ServiceDirectory) (pin : ServiceDirectoryOperationPin) (resource_domain_ok : bool)
    (client_handles : Z) (client_process : ProcessKey) (client_credential : option ServiceEndpointCredentialSnapshot)
    (protocol : option ServiceEndpointProtocolAuthority) (client_handle_rights : Z) (cleanup_sink_ok : bool)
    : ServiceDirectoryConnectResult + ServiceEndpointPeerSnapshot * Z :=
  match client_credential, protocol with
  | Some credential, Some protocol =>
      if negb (ServiceDirectoryOperationPinIsValid pin) || negb resource_domain_ok || (client_handles =? 0)
         || negb (ProcessKeyIsValid client_process) || negb (ServiceEndpointCredentialSnapshotIsCanonical credential)
         || negb (ServiceEndpointProtocolAuthorityIsCanonical protocol) || (client_handle_rights =? 0) || negb cleanup_sink_ok
      then inl (ConnectRefused DirInvalidArgument)
      else
        (locked addr d (inl ∘ ConnectRefused)
          (match ResolveExactLocked d (op_service pin) with
           | None => inl (ConnectRefused DirStaleKey)
           | Some row =>
               match connect_status row pin with
               | DirOk =>
                   if negb (pa_service_identity protocol =? ticket_service_identity (token_start (dr_owner row)))
                   then inl (ConnectRefused DirProtocolMismatch)
                   else inr (MkPeer (ProcessKeyFromInstance (token_process (dr_owner row))) (dr_owner_credential row),
                             sd_endpoint_owner d)
               | status => inl (ConnectRefused status)
               end
           end, d)).1
  | _, _ => inl (ConnectRefused DirInvalidArgument)
  end.

(** The section that queues the pair. *)
Definition ConnectEnqueueLocked (d : ServiceDirectory) (pin : ServiceDirectoryOperationPin) (pair : ServiceEndpointPair)
    : ServiceDirectoryStatus * ServiceDirectory :=
  guarded d id
    (match ResolveExactLocked d (op_service pin) with
     | None => (DirStaleKey, d)
     | Some row =>
         match connect_status row pin with
         | DirOk =>
             if dr_accept_count row =? kServiceDirectoryAcceptCapacity then (DirQueueFull, d)
             else
               let queued := MkQueued (MkOwned (pr_owner pair) (pr_acceptor pair) false) (rc_channel (pr_owner pair))
                               QueuedPendingClientPublish in
               let row := EnqueueTailLocked row queued in
               (DirOk, put_entry d (op_service pin) (with_publishers row (wrap32 (dr_external_publishers row + 1))))
         | status => (status, d)
         end
     end).

(** The section after the client's handle could not be published: whether the
    row was found corrupt, and the record it took back. *)
Definition ConnectUnpublishLocked (d : ServiceDirectory) (service : ServiceKey) (channel : ServiceEndpointChannelKey)
    : bool * option ServiceDirectoryQueuedChannel * ServiceDirectory :=
  match ResolveExactLocked d service with
  | None => (false, None, d)
  | Some row =>
      let '(removed, row) :=
        match RemoveQueuedLocked row channel with Some (q, row) => (Some q, row) | None => (None, row) end in
      if dr_external_publishers row =? 0 then (true, removed, put_entry d service row)
      else
        (false, removed,
         put_entry d service (TryRecycleLocked (with_publishers row (wrap32 (dr_external_publishers row - 1)))).2)
  end.

Record connect_outcome := MkConnectOutcome {
  co_corrupt : bool;
  co_ready_committed : bool;
  co_closing_observed : bool;
  co_removed : option ServiceDirectoryQueuedChannel;
}.

(** The section after the client's handle is published and the pair was or was
    not activated. *)
Definition ConnectFinishLocked (d : ServiceDirectory) (service : ServiceKey) (channel : ServiceEndpointChannelKey)
    (activation_status : ServiceEndpointStatus) : connect_outcome * ServiceDirectory :=
  match ResolveExactLocked d service with
  | None => (MkConnectOutcome false false false None, d)
  | Some row =>
      let closing_observed := bool_decide (dr_state row = EntryClosing) in
      let committed :=
        if bool_decide (activation_status = EpOk) && bool_decide (dr_state row = EntryActive)
        then ready_scan (Z.to_nat (dr_accept_count row)) row channel 0 else None in
      let '(ready_committed, removed, row) :=
        match committed with
        | Some row => (true, None, row)
        | None =>
            match (if bool_decide (dr_state row = EntryActive) then RemoveQueuedLocked row channel else None) with
            | Some (q, row) => (false, Some q, row)
            | None => (false, None, row)
            end
        end in
      if dr_external_publishers row =? 0
      then (MkConnectOutcome true ready_committed closing_observed removed, put_entry d service row)
      else
        (MkConnectOutcome false ready_committed closing_observed removed,
         put_entry d service (TryRecycleLocked (with_publishers row (wrap32 (dr_external_publishers row - 1)))).2)
  end.

(** Releasing an owned channel outside every lock: the endpoint's answer, what
    is left of the channel, and the object reference to drop. *)
Definition ServiceDirectoryDrainOwnedChannel (channel : ServiceDirectoryOwnedChannel) (released : ServiceEndpointStatus)
    : ServiceEndpointStatus * ServiceDirectoryOwnedChannel * Z :=
  if ServiceDirectoryOwnedChannelIsEmpty channel || negb (ServiceEndpointOwnerReceiptIsValid (ow_owner channel))
  then (EpInvalidArgument, channel, 0)
  else if ow_release_driver_active channel then (EpBusy, channel, 0)
  else
    (released, if bool_decide (released = EpOk) then zero_owned else MkOwned (ow_owner channel) 0 false, ow_acceptor channel).

(** The result of a connect whose pair was not queued: the pair is released
    and the reservation given up. *)
Definition connect_unqueued (enqueue_status : ServiceDirectoryStatus) (pair : ServiceEndpointPair)
    (released : ServiceEndpointStatus) (aborted : bool) : ServiceDirectoryConnectResult :=
  let '(endpoint_status, rollback, _) :=
    ServiceDirectoryDrainOwnedChannel (MkOwned (pr_owner pair) (pr_acceptor pair) false) released in
  let handle_status := if aborted then EOk else EBadState in
  if negb (bool_decide (endpoint_status = EpOk)) then ConnectFailure DirEndpointReleaseFailed endpoint_status handle_status rollback
  else ConnectFailure (if aborted then enqueue_status else DirHandleRollbackFailed) EpOk handle_status zero_owned.

(** The result of a connect whose handle was not published. *)
Definition connect_unpublished (corrupt : bool) (removed : option ServiceDirectoryQueuedChannel) (publish_error : ErrorCode)
    (released : ServiceEndpointStatus) (aborted : bool) : ServiceDirectoryConnectResult :=
  let failed := ConnectFailure (if aborted then DirHandlePublishFailed else DirHandleRollbackFailed) EpOk publish_error zero_owned in
  if corrupt then ConnectRefused DirCorruptState
  else
    match removed with
    | Some q =>
        let '(cleanup, owned, _) := ServiceDirectoryDrainOwnedChannel (qu_owned q) released in
        if negb (bool_decide (cleanup = EpOk)) then ConnectFailure DirEndpointReleaseFailed cleanup publish_error owned
        else failed
    | None => failed
    end.

(** The result of a connect whose handle was published: the client's handle,
    or its rollback. *)
Definition connect_published (o : connect_outcome) (activation_status : ServiceEndpointStatus) (client_handle : Z)
    (identity : ServiceEndpointIdentity) (released : ServiceEndpointStatus) (handle_rollback : bool)
    : ServiceDirectoryConnectResult :=
  let failed :=
    if negb handle_rollback then ConnectFailure DirHandleRollbackFailed activation_status EBadState zero_owned
    else ConnectFailure (if co_closing_observed o || bool_decide (activation_status = EpOk) then DirClosing
                         else DirEndpointActivationFailed) activation_status EOk zero_owned in
  if co_corrupt o then ConnectRefused DirCorruptState
  else if co_ready_committed o then MkConnectResult DirOk EpOk EOk client_handle identity zero_owned
  else
    match co_removed o with
    | Some q =>
        let '(cleanup, owned, _) := ServiceDirectoryDrainOwnedChannel (qu_owned q) released in
        if negb (bool_decide (cleanup = EpOk))
        then ConnectFailure DirEndpointReleaseFailed cleanup (if handle_rollback then EOk else EBadState) owned
        else failed
    | None => failed
    end.

(** ** Accepting

    An accept checks the queue, reserves a server handle outside the lock,
    claims the first record, publishes the server's end outside the lock, and
    commits the accepted record, or puts the channel back at the front. *)

Record ServiceDirectoryAcceptResult := MkAcceptResult {
  at_status : ServiceDirectoryStatus;
  at_endpoint_status : ServiceEndpointStatus;
  at_handle_status : ErrorCode;
  at_server_handle : Z;
  at_endpoint : ServiceEndpointIdentity;
  at_accepted : ServiceDirectoryAcceptedChannelKey;
}.
Definition AcceptFailure (status : ServiceDirectoryStatus) (endpoint_status : ServiceEndpointStatus) (handle_status : ErrorCode)
    : ServiceDirectoryAcceptResult :=
  MkAcceptResult status endpoint_status handle_status kHandleInvalid kInvalidServiceEndpointIdentity
    kInvalidServiceDirectoryAcceptedChannelKey.

(** The server that may accept from the row. *)
Definition accept_identity (row : ServiceDirectoryRow) (owner : ServiceInstanceToken) (server_process : ProcessKey)
    (credential : ServiceEndpointCredentialSnapshot) : ServiceDirectoryStatus :=
  if negb (bool_decide (dr_owner row = owner)) then DirOwnerMismatch
  else if negb (bool_decide (ProcessKeyFromInstance (token_process (dr_owner row)) = server_process)) then DirOwnerMismatch
  else if negb (CredentialsEqual (dr_owner_credential row) credential) then DirCredentialMismatch
  else if bool_decide (dr_state row = EntryClosing) then DirClosing
  else DirOk.

Definition head_is_ready (row : ServiceDirectoryRow) : bool :=
  bool_decide (qu_state (queued_at row (Z.to_nat (dr_accept_head row))) = QueuedReady).

(** The arguments and the first section, which only looks. *)
Definition AcceptCheckLocked (addr : Z) (d : ServiceDirectory) (service : ServiceKey) (owner : ServiceInstanceToken)
    (server_handles : Z) (server_process : ProcessKey) (server_credential : option ServiceEndpointCredentialSnapshot)
    (server_handle_rights : Z) : ServiceDirectoryStatus :=
  match server_credential with
  | None => DirInvalidArgument
  | Some credential =>
      if negb (ServiceKeyIsValid service) || negb (ServiceInstanceTokenIsValid owner) || (server_handles =? 0)
         || negb (ProcessKeyIsValid server_process) || negb (ServiceEndpointCredentialSnapshotIsCanonical credential)
         || (server_handle_rights =? 0)
      then DirInvalidArgument
      else
        (locked addr d id
          (match ResolveExactLocked d service with
           | None => DirStaleKey
           | Some row =>
               match accept_identity row owner server_process credential with
               | DirOk =>
                   if negb (bool_decide (dr_state row = EntryActive)) then DirNotReady
                   else if dr_accept_count row =? 0 then DirQueueEmpty
                   else if negb (head_is_ready row) then DirNotReady
                   else if negb (existsb (fun i => bool_decide (ac_state (accepted_at row i) = AcceptedFree))
                                   (seq 0 (Z.to_nat kServiceDirectoryAcceptedCapacity)))
                   then DirAcceptedCapacityExhausted
                   else DirOk
               | status => status
               end
           end, d)).1
  end.

(** The section that claims the first record: the accepted key and the object
    to publish. *)
Definition AcceptClaimLocked (d : ServiceDirectory) (service : ServiceKey) (owner : ServiceInstanceToken)
    (server_process : ProcessKey) (credential : ServiceEndpointCredentialSnapshot)
    : (ServiceDirectoryStatus + ServiceDirectoryAcceptedChannelKey * Z) * ServiceDirectory :=
  guarded d inl
    (match ResolveExactLocked d service with
     | None => (inl DirStaleKey, d)
     | Some row =>
         match accept_identity row owner server_process credential with
         | DirOk =>
             if negb (bool_decide (dr_state row = EntryActive)) || (dr_accept_count row =? 0) || negb (head_is_ready row)
             then (inl DirNotReady, d)
             else
               let '(queued, row) := DequeueLocked row in
               match AllocateAcceptedLocked row (qu_channel queued) server_process with
               | None => (inl DirAcceptedCapacityExhausted, put_entry d service (EnqueueFrontLocked row queued))
               | Some (i, a, row) =>
                   let a := MkAccepted (ac_key a) (ow_owner (qu_owned queued)) (ac_server_process a) (ac_server_handle a)
                              (ac_process_teardown_deferred a) (ac_release_driver_active a) (ac_state a) in
                   let row := put_accepted row i a (dr_accepted_count row) in
                   (inr (ac_key a, ow_acceptor (qu_owned queued)),
                    put_entry d service (with_publishers row (wrap32 (dr_external_publishers row + 1))))
               end
         | status => (inl status, d)
         end
     end).

Definition published_accepted (a : ServiceDirectoryAcceptedChannel) (server_handle : Z) : ServiceDirectoryAcceptedChannel :=
  MkAccepted (ac_key a) (ac_owner a) (ac_server_process a) server_handle (ac_process_teardown_deferred a)
    (ac_release_driver_active a) AcceptedPublished.

Record accept_outcome := MkAcceptOutcome {
  ao_corrupt : bool;
  ao_committed : bool;
  ao_restored : bool;
}.

(** The row and the outcome of the last section; [published] is the handle the
    table gave, and [acceptor_object] the object otherwise. *)
Definition accept_commit (row : ServiceDirectoryRow) (accepted_key : ServiceDirectoryAcceptedChannelKey)
    (acceptor_object : Z) (published : option Z) : bool * bool * ServiceDirectoryRow :=
  let slot := Z.to_nat (ak_slot accepted_key) in
  match ResolveAcceptedLocked row accepted_key with
  | None => (false, false, row)
  | Some a =>
      let publishing := bool_decide (dr_state row = EntryActive) && bool_decide (ac_state a = AcceptedPublishing) in
      match published with
      | Some handle => (publishing, false, put_accepted row slot (published_accepted a handle) (dr_accepted_count row))
      | None =>
          if publishing
          then
            let row := EnqueueFrontLocked row (MkQueued (MkOwned (ac_owner a) acceptor_object false) (ak_channel (ac_key a)) QueuedReady) in
            (false, true, put_accepted row slot (ClearAcceptedLocked a) (dr_accepted_count row - 1))
          else (false, false, row)
      end
  end.

Definition AcceptFinishLocked (d : ServiceDirectory) (service : ServiceKey) (accepted_key : ServiceDirectoryAcceptedChannelKey)
    (acceptor_object : Z) (published : option Z) : accept_outcome * ServiceDirectory :=
  match ResolveExactLocked d service with
  | None => (MkAcceptOutcome false false false, d)
  | Some row =>
      let '(committed, restored, row) := accept_commit row accepted_key acceptor_object published in
      if dr_external_publishers row =? 0 then (MkAcceptOutcome true committed restored, put_entry d service row)
      else
        (MkAcceptOutcome false committed restored,
         put_entry d service (TryRecycleLocked (with_publishers row (wrap32 (dr_external_publishers row - 1)))).2)
  end.

(** The results of an accept that claimed nothing, and of one that did. *)
Definition accept_unclaimed (claim_status : ServiceDirectoryStatus) (aborted : bool) : ServiceDirectoryAcceptResult :=
  AcceptFailure (if aborted then claim_status else DirHandleRollbackFailed) EpOk (if aborted then EOk else EBadState).

Definition accept_finished (o : accept_outcome) (accepted_key : ServiceDirectoryAcceptedChannelKey) (published : ErrorCode + Z)
    (aborted detached : bool) : ServiceDirectoryAcceptResult :=
  if ao_corrupt o then AcceptFailure DirCorruptState EpOk EOk
  else
    match published with
    | inr handle =>
        if ao_committed o
        then MkAcceptResult DirOk EpOk EOk handle (MkIdentity (ak_channel accepted_key) RoleAcceptor) accepted_key
        else AcceptFailure (if detached then DirClosing else DirHandleRollbackFailed) EpOk (if detached then EOk else EBadState)
    | inl error =>
        AcceptFailure (if aborted then if ao_restored o then DirHandlePublishFailed else DirClosing else DirHandleRollbackFailed)
          EpOk error
    end.

(** ** Releasing accepted channels *)

Definition ServiceDirectoryReleaseAcceptedResult : Type := ServiceDirectoryStatus * ServiceEndpointStatus.

Definition releasing_accepted (a : ServiceDirectoryAcceptedChannel) (driver : bool) : ServiceDirectoryAcceptedChannel :=
  MkAccepted (ac_key a) (ac_owner a) (ac_server_process a) (ac_server_handle a) (ac_process_teardown_deferred a)
    driver AcceptedReleasing.

(** The first section: the receipt the caller has the endpoint release. *)
Definition ReleaseAcceptedBeginLocked (addr : Z) (d : ServiceDirectory) (accepted_key : option ServiceDirectoryAcceptedChannelKey)
    : (ServiceDirectoryReleaseAcceptedResult + ServiceEndpointOwnerReceipt) * ServiceDirectory :=
  match accepted_key with
  | None => (inl (DirInvalidArgument, EpOk), d)
  | Some supplied =>
      if negb (ServiceDirectoryAcceptedChannelKeyIsValid supplied) then (inl (DirInvalidArgument, EpOk), d)
      else
        locked addr d (fun status => inl (status, EpOk))
          (match ResolveExactLocked d (ak_service supplied) with
           | None => (inl (DirStaleKey, EpOk), d)
           | Some row =>
               match ResolveAcceptedLocked row supplied with
               | None => (inl (DirStaleAcceptedChannel, EpOk), d)
               | Some a =>
                   if bool_decide (ac_state a = AcceptedPublishing) || ac_release_driver_active a
                   then (inl (DirBusy, EpBusy), d)
                   else if negb (bool_decide (ac_state a = AcceptedPublished))
                           && negb (bool_decide (ac_state a = AcceptedReleasing))
                   then (inl (DirStaleAcceptedChannel, EpOk), d)
                   else (inr (ac_owner a),
                         put_entry d (ak_service supplied)
                           (put_accepted row (Z.to_nat (ak_slot supplied)) (releasing_accepted a true) (dr_accepted_count row)))
               end
           end)
  end.

(** The section after the endpoint answered; the caller's key is
    invalidated when the channel was consumed. *)
Definition ReleaseAcceptedFinishLocked (d : ServiceDirectory) (supplied : ServiceDirectoryAcceptedChannelKey)
    (endpoint_status : ServiceEndpointStatus)
    : ServiceDirectoryReleaseAcceptedResult * ServiceDirectory * ServiceDirectoryAcceptedChannelKey :=
  let corrupt := (DirCorruptState, endpoint_status) in
  let '(result, d) :=
    guarded d (fun _ => corrupt)
      (match ResolveExactLocked d (ak_service supplied) with
       | None => (corrupt, d)
       | Some row =>
           match ResolveAcceptedLocked row supplied with
           | None => (corrupt, d)
           | Some a =>
               if negb (bool_decide (ac_state a = AcceptedReleasing)) || negb (ac_release_driver_active a) then (corrupt, d)
               else
                 let slot := Z.to_nat (ak_slot supplied) in
                 if bool_decide (endpoint_status = EpOk)
                 then ((DirOk, EpOk),
                       put_entry d (ak_service supplied)
                         (TryRecycleLocked (put_accepted row slot (ClearAcceptedLocked a) (dr_accepted_count row - 1))).2)
                 else ((if bool_decide (endpoint_status = EpBusy) then DirBusy else DirEndpointReleaseFailed, endpoint_status),
                       put_entry d (ak_service supplied)
                         (put_accepted row slot (releasing_accepted a false) (dr_accepted_count row)))
           end
       end) in
  (result, d, if bool_decide (result.1 = DirOk) then kInvalidServiceDirectoryAcceptedChannelKey else supplied).

(** The accepted records of the rows in use, in row order. *)
Definition accepted_records (d : ServiceDirectory) : list ServiceDirectoryAcceptedChannel :=
  flat_map (fun i =>
    if entry_in_use (directory_row d i)
    then map (accepted_at (directory_row d i)) (seq 0 (Z.to_nat kServiceDirectoryAcceptedCapacity)) else [])
    (seq 0 (Z.to_nat kServiceDirectoryCapacity)).

(** Finding the accepted channel behind a handle; two are corrupt. *)
Fixpoint handle_scan (records : list ServiceDirectoryAcceptedChannel) (server_process : ProcessKey) (server_handle : Z)
    (found : ServiceDirectoryAcceptedChannelKey) : ServiceDirectoryStatus + ServiceDirectoryAcceptedChannelKey :=
  match records with
  | [] => if negb (ServiceDirectoryAcceptedChannelKeyIsValid found) then inl DirNotFound else inr found
  | a :: records =>
      if negb (bool_decide (ac_state a = AcceptedPublished)) && negb (bool_decide (ac_state a = AcceptedReleasing))
      then handle_scan records server_process server_handle found
      else if negb (bool_decide (ac_server_process a = server_process)) || negb (ac_server_handle a =? server_handle)
      then handle_scan records server_process server_handle found
      else if ServiceDirectoryAcceptedChannelKeyIsValid found then inl DirCorruptState
      else handle_scan records server_process server_handle (ac_key a)
  end.

(** The part of a release by handle before the release by key. *)
Definition ServiceDirectoryReleaseAcceptedHandle (addr : Z) (d : ServiceDirectory) (server_process : ProcessKey)
    (server_handle : Z) : ServiceDirectoryStatus + ServiceDirectoryAcceptedChannelKey :=
  match HandleDecode server_handle with
  | None => inl DirInvalidArgument
  | Some _ =>
      if negb (ProcessKeyIsValid server_process) then inl DirInvalidArgument
      else (locked addr d inl
              (handle_scan (accepted_records d) server_process server_handle kInvalidServiceDirectoryAcceptedChannelKey, d)).1
  end.

(** ** Process teardown *)

Definition belongs_to (server_process : ProcessKey) (a : ServiceDirectoryAcceptedChannel) : bool :=
  accepted_in_use a && bool_decide (ac_server_process a = server_process).
Definition deferred_accepted (a : ServiceDirectoryAcceptedChannel) : ServiceDirectoryAcceptedChannel :=
  MkAccepted (ac_key a) (ac_owner a) (ac_server_process a) (ac_server_handle a) true (ac_release_driver_active a) (ac_state a).
Definition defer_row (server_process : ProcessKey) (row : ServiceDirectoryRow) : ServiceDirectoryRow :=
  if negb (entry_in_use row) then row
  else with_accepted row
         (map (fun a => if belongs_to server_process a then deferred_accepted a else a) (dr_accepted_channels row))
         (dr_accepted_count row) (dr_next_accepted_hint row).

Record ServiceDirectoryDeferAcceptedProcessResult := MkDeferResult {
  df_status : ServiceDirectoryStatus;
  df_newly_deferred_channels : Z;
  df_deferred_channels : Z;
}.
Definition DeferAcceptedProcessFailure (status : ServiceDirectoryStatus) (newly deferred : Z)
    : ServiceDirectoryDeferAcceptedProcessResult := MkDeferResult status newly deferred.

Definition count_records (p : ServiceDirectoryAcceptedChannel -> bool) (d : ServiceDirectory) : Z :=
  Z.of_nat (length (List.filter p (accepted_records d))).

Definition ServiceDirectoryDeferAcceptedProcess (addr : Z) (d : ServiceDirectory) (server_process : ProcessKey)
    : ServiceDirectoryDeferAcceptedProcessResult * ServiceDirectory :=
  let fail status := DeferAcceptedProcessFailure status 0 0 in
  if negb (ProcessKeyIsValid server_process) then (fail DirInvalidArgument, d)
  else
    locked addr d fail
      (DeferAcceptedProcessFailure DirOk
         (count_records (fun a => belongs_to server_process a && negb (ac_process_teardown_deferred a)) d)
         (count_records (belongs_to server_process) d),
       MkDirectory (sd_initialized d) (sd_state d) (sd_endpoint_owner d) (sd_deferred_scan_hint d)
         (map (defer_row server_process) (sd_rows d))).

Definition is_deferred (a : ServiceDirectoryAcceptedChannel) : bool := accepted_in_use a && ac_process_teardown_deferred a.

(** The bounded scan for deferred records: at most [todo] looked at, at most
    four taken; the keys and how many records were looked at. *)
Fixpoint deferred_scan (todo : nat) (d : ServiceDirectory) (flattened : Z) (room : nat)
    : list ServiceDirectoryAcceptedChannelKey * Z :=
  match todo, room with
  | O, _ | _, O => ([], 0)
  | S todo, S room' =>
      let at_ := flattened mod kServiceDirectoryDeferredAcceptedCapacity in
      let row := directory_row d (Z.to_nat (at_ / kServiceDirectoryAcceptedCapacity)) in
      let a := accepted_at row (Z.to_nat (at_ mod kServiceDirectoryAcceptedCapacity)) in
      if negb (entry_in_use row) || negb (is_deferred a)
      then let '(keys, scanned) := deferred_scan todo d (flattened + 1) room in (keys, scanned + 1)
      else let '(keys, scanned) := deferred_scan todo d (flattened + 1) room' in (ac_key a :: keys, scanned + 1)
  end.

(** The first section of a maintenance pass: the keys to release. *)
Definition DriveDeferredScanLocked (addr : Z) (d : ServiceDirectory)
    : (ServiceDirectoryStatus + list ServiceDirectoryAcceptedChannelKey) * ServiceDirectory :=
  locked addr d inl
    (let '(keys, scanned) :=
       deferred_scan (Z.to_nat kServiceDirectoryDeferredAcceptedCapacity) d (sd_deferred_scan_hint d)
         (Z.to_nat kServiceDirectoryProcessTeardownBatchCapacity) in
     (inr keys, with_scan_hint d ((sd_deferred_scan_hint d + scanned) mod kServiceDirectoryDeferredAcceptedCapacity))).

(** The loop over the answers of the releases: how many were released, and the
    failure it stopped at. *)
Fixpoint drive_results (results : list ServiceDirectoryReleaseAcceptedResult) (released : Z) (endpoint_status : ServiceEndpointStatus)
    : Z * ServiceDirectoryStatus * ServiceEndpointStatus :=
  match results with
  | [] => (released, DirOk, endpoint_status)
  | (status, failure) :: results =>
      match status with
      | DirOk => drive_results results (released + 1) endpoint_status
      | DirBusy => drive_results results released EpBusy
      | DirStaleKey | DirStaleAcceptedChannel | DirNotFound => drive_results results released endpoint_status
      | _ => (released, status, failure)
      end
  end.

Record ServiceDirectoryDriveDeferredAcceptedResult := MkDriveResult {
  dv_status : ServiceDirectoryStatus;
  dv_endpoint_status : ServiceEndpointStatus;
  dv_released_channels : Z;
  dv_pending_channels : Z;
}.

(** The last section of a pass, which counts what is still deferred. *)
Definition DriveDeferredPendingLocked (d : ServiceDirectory) (results : list ServiceDirectoryReleaseAcceptedResult)
    : ServiceDirectoryDriveDeferredAcceptedResult :=
  let '(released, failure_status, endpoint_status) := drive_results results 0 EpOk in
  if negb (DirectoryIsCanonicalLocked d) then MkDriveResult DirCorruptState endpoint_status released 0
  else
    let pending := count_records is_deferred d in
    if negb (bool_decide (failure_status = DirOk)) then MkDriveResult failure_status endpoint_status released pending
    else if negb (pending =? 0) then MkDriveResult DirBusy endpoint_status released pending
    else MkDriveResult DirOk EpOk released 0.

(** ** Closing

    A close marks the row, detaches its channels into a batch, releases them
    outside the lock, and stores those that failed for the next close. *)

Record ServiceDirectoryCloseResult := MkCloseResult {
  cl_status : ServiceDirectoryStatus;
  cl_endpoint_status : ServiceEndpointStatus;
  cl_drained_channels : Z;
}.
Definition CloseFailure (status : ServiceDirectoryStatus) (endpoint_status : ServiceEndpointStatus) (drained : Z)
    : ServiceDirectoryCloseResult := MkCloseResult status endpoint_status drained.

(** Emptying the accept queue, first record first. *)
Fixpoint detach_queue (todo : nat) (row : ServiceDirectoryRow) : list ServiceDirectoryOwnedChannel * ServiceDirectoryRow :=
  match todo with
  | O => ([], row)
  | S todo =>
      let '(queued, row) := DequeueLocked row in
      let '(batch, row) := detach_queue todo row in
      (qu_owned queued :: batch, row)
  end.

(** The accepted records a close takes: those in use and not deferred. *)
Definition close_takes (a : ServiceDirectoryAcceptedChannel) : bool :=
  accepted_in_use a && negb (ac_process_teardown_deferred a).
Definition detach_accepted (row : ServiceDirectoryRow) : list ServiceDirectoryOwnedChannel * ServiceDirectoryRow :=
  let taken := List.filter close_takes (dr_accepted_channels row) in
  (map (fun a => MkOwned (ac_owner a) 0 false) taken,
   with_accepted row (map (fun a => if close_takes a then ClearAcceptedLocked a else a) (dr_accepted_channels row))
     (dr_accepted_count row - Z.of_nat (length taken)) (dr_next_accepted_hint row)).

(** The batch: the channels of the last close, or else the queued and the
    accepted ones. *)
Definition detach_channels (row : ServiceDirectoryRow) : list ServiceDirectoryOwnedChannel * ServiceDirectoryRow :=
  if negb (dr_closing_count row =? 0)
  then
    let count := Z.to_nat (dr_closing_count row) in
    (take count (dr_closing_channels row),
     with_closing row (replicate count zero_owned ++ drop count (dr_closing_channels row)) 0
       (dr_close_batch_outstanding row) (dr_close_driver_active row))
  else
    let '(queued, row) := detach_queue (Z.to_nat (dr_accept_count row)) row in
    let '(accepted, row) := detach_accepted row in
    (queued ++ accepted, row).

Definition CloseBeginLocked (addr : Z) (d : ServiceDirectory) (service : ServiceKey) (owner : ServiceInstanceToken)
    (reason : ServiceDirectoryCloseReason)
    : (ServiceDirectoryCloseResult + list ServiceDirectoryOwnedChannel) * ServiceDirectory :=
  let fail status := inl (CloseFailure status EpOk 0) in
  if negb (ServiceKeyIsValid service) || negb (ServiceInstanceTokenIsValid owner) || bool_decide (reason = CloseNone)
     || bool_decide (reason = CloseRegistrationAbort)
  then (fail DirInvalidArgument, d)
  else
    locked addr d fail
      (match ResolveExactLocked d service with
       | None => (fail DirStaleKey, d)
       | Some row =>
           if negb (bool_decide (dr_owner row = owner)) then (fail DirOwnerMismatch, d)
           else
             let row :=
               if bool_decide (dr_state row = EntryReserved) || bool_decide (dr_state row = EntryActive)
               then with_life row (dr_reservation_authority row) false EntryClosing reason else row in
             if negb (bool_decide (dr_state row = EntryClosing)) then (fail DirStaleKey, d)
             else if negb (dr_close_driver_active row =? 0) || HasAcceptedReleaseDriverLocked row
             then (fail DirBusy, put_entry d service row)
             else
               let '(batch, row) := detach_channels row in
               match batch with
               | [] =>
                   let '(recycled, row) := TryRecycleLocked row in
                   (fail (if recycled : bool then DirOk else DirBusy), put_entry d service row)
               | _ =>
                   (inr batch,
                    put_entry d service
                      (with_closing row (dr_closing_channels row) (dr_closing_count row) (Z.of_nat (length batch)) 1))
               end
       end).

(** The release loop, with the endpoints' answers: how many were drained, what
    is left of the others, and the first failure. *)
Fixpoint drain_batch (batch : list ServiceDirectoryOwnedChannel) (answers : list ServiceEndpointStatus) (drained : Z)
    (first_failure : ServiceEndpointStatus) : Z * list ServiceDirectoryOwnedChannel * ServiceEndpointStatus :=
  match batch with
  | [] => (drained, [], first_failure)
  | channel :: batch =>
      let '(status, rest, _) := ServiceDirectoryDrainOwnedChannel channel (hd EpCorruptState answers) in
      if bool_decide (status = EpOk) then drain_batch batch (tl answers) (drained + 1) first_failure
      else
        let '(drained, failed, first_failure) :=
          drain_batch batch (tl answers) drained (if bool_decide (first_failure = EpOk) then status else first_failure) in
        (drained, rest :: failed, first_failure)
  end.

(** The last section: [batch] is the size of the batch and [failed] what the
    loop left. *)
Definition CloseFinishLocked (d : ServiceDirectory) (service : ServiceKey) (owner : ServiceInstanceToken) (batch drained : Z)
    (failed : list ServiceDirectoryOwnedChannel) (first_failure : ServiceEndpointStatus)
    : ServiceDirectoryCloseResult * ServiceDirectory :=
  let corrupt := CloseFailure DirCorruptState first_failure drained in
  guarded d (fun _ => corrupt)
    (match ResolveExactLocked d service with
     | None => (corrupt, d)
     | Some row =>
         if negb (bool_decide (dr_owner row = owner)) || negb (bool_decide (dr_state row = EntryClosing))
            || negb (dr_close_driver_active row =? 1) || negb (dr_close_batch_outstanding row =? batch)
         then (corrupt, d)
         else
           let count := length failed in
           let '(recycled, row) :=
             TryRecycleLocked (with_closing row (failed ++ drop count (dr_closing_channels row)) (Z.of_nat count) 0 0) in
           (match failed with
            | [] => CloseFailure (if recycled : bool then DirOk else DirBusy) EpOk drained
            | _ => CloseFailure DirEndpointReleaseFailed first_failure drained
            end, put_entry d service row)
     end).

(** ** Inspection *)

Record ServiceDirectoryEntrySnapshot := MkEntrySnapshot {
  es_key : ServiceKey;
  es_name : ServiceDirectoryName;
  es_owner : ServiceInstanceToken;
  es_owner_credential : ServiceEndpointCredentialSnapshot;
  es_manifest_slot : Z;
  es_active_operations : Z;
  es_queued_channels : Z;
  es_accepted_channels : Z;
  es_closing_channels : Z;
  es_external_publishers : Z;
  es_reservation_live : bool;
  es_ready : bool;
  es_state : ServiceDirectoryEntryState;
  es_close_reason : ServiceDirectoryCloseReason;
}.

Definition ServiceDirectoryInspectExact (addr : Z) (d : ServiceDirectory) (service : ServiceKey)
    : ServiceDirectoryStatus + ServiceDirectoryEntrySnapshot :=
  if negb (ServiceKeyIsValid service) then inl DirInvalidArgument
  else
    (locked addr d inl
      (match ResolveExactLocked d service with
       | None => inl DirStaleKey
       | Some row =>
           inr (MkEntrySnapshot (dr_key row) (dr_name row) (dr_owner row) (dr_owner_credential row) (dr_manifest_slot row)
                  (dr_active_operations row) (dr_accept_count row) (dr_accepted_count row)
                  (dr_closing_count row + dr_close_batch_outstanding row) (dr_external_publishers row)
                  (negb (dr_reservation_authority row =? 0)) (dr_ready row) (dr_state row) (dr_close_reason row))
       end, d)).1.

(** The directory discharges what the broker asks of it. *)
Section peer.
Context (addr : Z).

Definition directory_publish (d : ServiceDirectory) (reservation : ServiceRegistrationReservation) (owner : ServiceInstanceToken)
    : ServiceDirectoryStatus * ServiceDirectory * ServiceRegistrationReservation :=
  let '(status, d, held) := ServiceDirectoryPublishRegistration addr d (Some reservation) owner in
  (status, d, default reservation held).
Definition directory_joint_ready (d : ServiceDirectory) (key : ServiceKey) (owner : ServiceInstanceToken) (bit : bool)
    : ServiceDirectoryStatus * ServiceDirectory * bool :=
  let '(status, d, held) := ServiceDirectoryCommitJointReady addr d key owner (Some bit) in
  (status, d, default bit held).

Lemma directory_ready_written d key owner bit status d' bit' :
  directory_joint_ready d key owner bit = (status, d', bit') -> bit' = if decide (status = DirOk) then true else bit.
Proof.
  unfold directory_joint_ready, ServiceDirectoryCommitJointReady.
  destruct (_ || _); [intros [= <- <- <-]; done|]. destruct (locked _ _ _ _) as [s d1]. intros [= <- <- <-].
  by destruct (decide (s = DirOk)).
Qed.

Definition directory_peer : DirectoryPeer ServiceDirectory := {|
  peer_publish := directory_publish;
  peer_joint_ready := directory_joint_ready;
  peer_ready_written := directory_ready_written;
|}.

End peer.
