(* ===== verification/ServiceDirectoryRows.v ===== *)
(** * Rows of the service directory

    The well-formedness of a row and what each change of a row does to it: the
    accept queue as a list, the tables of operations, accepted and closing
    channels as counted arrays, and the receipts a row owns. *)

From S2P Require Import Prelude ServiceTransition Bytes KObject HandleTable ChannelCore Credentials.
From S2P Require Import Sha256 ServiceManifest ServiceManifestGraph ServiceLifecycleBroker ServiceDirectory.

Implicit Types (r : ServiceDirectoryRow) (q : ServiceDirectoryQueuedChannel) (a : ServiceDirectoryAcceptedChannel).

(** ** Counting and indexing *)

#[local] Arguments sumZ : simpl never.

Definition flag (b : bool) : Z := if b then 1 else 0.

Lemma filter_count {A} (p : A -> bool) (l : list A) : Z.of_nat (length (List.filter p l)) = sumZ (fun x => flag (p x)) l.
Proof.
  unfold sumZ. induction l as [|x l IH]; [done|]. cbn [List.filter foldr]. destruct (p x); cbn [flag length]; lia.
Qed.

Lemma forallb_seq {A} (P : nat -> A -> bool) (l : list A) z n : length l = n ->
  forallb (fun i => P i (nth i l z)) (seq 0 n) = true <-> forall i x, l !! i = Some x -> P i x = true.
Proof.
  intros Hl. rewrite forallb_forall. split.
  - intros H i x Hx. specialize (H i). rewrite nth_lookup, Hx in H. apply H. apply in_seq.
    apply lookup_lt_Some in Hx. lia.
  - intros H i Hi%in_seq. apply H. rewrite nth_lookup. destruct (l !! i) eqn:E; [done|]. apply lookup_ge_None in E. lia.
Qed.

Lemma nth_some {A} (l : list A) z i n : length l = n -> (i < n)%nat -> l !! i = Some (nth i l z).
Proof.
  intros Hl Hi. rewrite nth_lookup. destruct (l !! i) eqn:E; [done|]. apply lookup_ge_None in E. lia.
Qed.

Lemma lookup_insert_cases {A} (l : list A) i j x y : <[i := x]> l !! j = Some y -> (j = i /\ y = x) \/ (j <> i /\ l !! j = Some y).
Proof. intros [(-> & -> & _)|(? & ?)]%list_lookup_insert_Some; [by left|right]. auto. Qed.

Lemma small_eight x : 0 <= x < 8 -> x = 0 \/ x = 1 \/ x = 2 \/ x = 3 \/ x = 4 \/ x = 5 \/ x = 6 \/ x = 7.
Proof. lia. Qed.
Ltac small_cases H := apply small_eight in H; destruct H as [->|[->|[->|[->|[->|[->|[->| ->]]]]]]].

(** ** The accept queue as a list *)

Definition queue_list r : list ServiceDirectoryQueuedChannel :=
  map (fun offset => queued_at r (queue_slot r (Z.of_nat offset))) (seq 0 (Z.to_nat (dr_accept_count r))).

Record queue_shape r : Prop := {
  qs_length : length (dr_accept_queue r) = 8%nat;
  qs_head : 0 <= dr_accept_head r < 8;
  qs_count : 0 <= dr_accept_count r <= 8;
}.

Ltac open_queue r H :=
  destruct H as [Hlen Hhead Hcount];
  destruct r as [? ? ? ? ? ? ? ? ? queue head count ? ? ? ? ? ? ? ? ? ? ?]; cbn in Hlen, Hhead, Hcount;
  do 8 (destruct queue as [|? queue]; [discriminate Hlen|]); destruct queue; [clear Hlen|discriminate Hlen].

Lemma length_queue_list r : length (queue_list r) = Z.to_nat (dr_accept_count r).
Proof. unfold queue_list. by rewrite length_map, length_seq. Qed.

Lemma queue_tail r q : queue_shape r -> dr_accept_count r < 8 ->
  queue_shape (EnqueueTailLocked r q) /\ queue_list (EnqueueTailLocked r q) = queue_list r ++ [q].
Proof.
  intros H Hlt. split.
  - destruct H. split; cbn; [by rewrite length_insert|done|lia].
  - open_queue r H. cbn in Hlt. assert (0 <= count < 8) as Hc by lia. clear Hcount Hlt. small_cases Hhead; small_cases Hc; reflexivity.
Qed.

Lemma queue_front r q : queue_shape r -> dr_accept_count r < 8 ->
  queue_shape (EnqueueFrontLocked r q) /\ queue_list (EnqueueFrontLocked r q) = q :: queue_list r.
Proof.
  intros H Hlt. split.
  - destruct H. split; cbn; [by rewrite length_insert|unfold kServiceDirectoryAcceptCapacity; apply Z.mod_pos_bound; lia|lia].
  - open_queue r H. cbn in Hlt. assert (0 <= count < 8) as Hc by lia. clear Hcount Hlt. small_cases Hhead; small_cases Hc; reflexivity.
Qed.

Lemma queue_dequeue r : queue_shape r -> 0 < dr_accept_count r ->
  queue_shape (DequeueLocked r).2 /\ queue_list r = (DequeueLocked r).1 :: queue_list (DequeueLocked r).2.
Proof.
  intros H Hlt. split.
  - destruct H. split; cbn; [by rewrite length_insert|destruct (_ =? _); [lia|apply Z.mod_pos_bound; unfold kServiceDirectoryAcceptCapacity; lia]|lia].
  - open_queue r H. cbn in Hlt. assert (exists c, count = c + 1 /\ 0 <= c < 8) as (c & -> & Hc) by (exists (count - 1); lia).
    clear Hcount Hlt. small_cases Hhead; small_cases Hc; reflexivity.
Qed.

Lemma length_shift n r : forall l o, length (shift_queue n r l o) = length l.
Proof. induction n as [|n IH]; intros l o; cbn [shift_queue]; [reflexivity|]. by rewrite IH, length_insert. Qed.

Lemma queue_remove_at r offset : queue_shape r -> 0 <= offset < dr_accept_count r ->
  queue_shape (remove_at r offset) /\ queue_list (remove_at r offset) = delete (Z.to_nat offset) (queue_list r).
Proof.
  intros H Ho. split.
  - destruct H as [Hl Hh Hc]. split; cbn.
    + by rewrite length_insert, length_shift.
    + destruct (_ =? _); lia.
    + lia.
  - open_queue r H. cbn in Ho. assert (exists c, count = c + 1 /\ 0 <= c < 8) as (c & -> & Hc) by (exists (count - 1); lia).
    assert (0 <= offset < 8) as Ho' by lia. clear Hcount.
    small_cases Hhead; small_cases Hc; small_cases Ho'; first [lia|reflexivity].
Qed.

Lemma queue_at r offset : 0 <= offset < dr_accept_count r ->
  queue_list r !! Z.to_nat offset = Some (queued_at r (queue_slot r offset)).
Proof.
  intros Ho. unfold queue_list. rewrite list_lookup_fmap, lookup_seq_lt by lia. cbn. by rewrite Z2Nat.id by lia.
Qed.

Lemma queue_change r offset q : queue_shape r -> 0 <= offset < dr_accept_count r ->
  let r' := with_queue r (<[queue_slot r offset := q]> (dr_accept_queue r)) (dr_accept_head r) (dr_accept_count r) in
  queue_shape r' /\ queue_list r' = <[Z.to_nat offset := q]> (queue_list r).
Proof.
  intros H Ho. split.
  - destruct H. split; cbn; [by rewrite length_insert|done|lia].
  - open_queue r H. cbn in Ho. assert (exists c, count = c + 1 /\ 0 <= c < 8) as (c & -> & Hc) by (exists (count - 1); lia).
    assert (0 <= offset < 8) as Ho' by lia. clear Hcount.
    small_cases Hhead; small_cases Hc; small_cases Ho'; first [lia|reflexivity].
Qed.

(** Every slot is well formed and every record of the queue is one. *)
Record queue_fine r : Prop := {
  qf_shape : queue_shape r;
  qf_slots : Forall (fun q => QueuedChannelIsCanonical q = true) (dr_accept_queue r);
  qf_list : Forall (fun q => qu_state q <> QueuedEmpty) (queue_list r);
}.

Lemma queue_slot_lt r o : (queue_slot r o < 8)%nat.
Proof.
  unfold queue_slot, kServiceDirectoryAcceptCapacity.
  pose proof (Z.mod_pos_bound (dr_accept_head r + o) 8 ltac:(lia)). lia.
Qed.

Lemma queue_canonical r : queue_shape r -> AcceptQueueIsCanonical r = true <-> queue_fine r.
Proof.
  intros Hs. pose proof Hs as [Hl Hh Hc]. unfold AcceptQueueIsCanonical, kServiceDirectoryAcceptCapacity.
  rewrite (proj2 (Z.leb_gt 8 (dr_accept_head r))) by lia. rewrite (proj2 (Z.ltb_ge 8 (dr_accept_count r))) by lia. cbn [orb].
  unfold queued_at. etransitivity.
  { exact (forallb_seq (fun i q => if QueueSlotIsOccupied r i then QueuedChannelIsCanonical q
      && negb (bool_decide (qu_state q = QueuedEmpty)) else QueuedChannelIsCanonical q) (dr_accept_queue r) zero_queued 8 Hl). }
  split.
  - intros H. split; [done| |].
    + apply Forall_lookup. intros i q Hq. specialize (H i q Hq). destruct (QueueSlotIsOccupied r i); [|done].
      by apply andb_true_iff in H as [H _].
    + unfold queue_list. apply Forall_fmap, Forall_forall. intros o Ho%elem_of_seq. cbn.
      specialize (H (queue_slot r (Z.of_nat o)) _ (nth_some _ zero_queued _ _ Hl (queue_slot_lt r (Z.of_nat o)))).
      replace (QueueSlotIsOccupied r (queue_slot r (Z.of_nat o))) with true in H.
      * by apply andb_true_iff in H as [_ H%negb_true_iff%bool_decide_eq_false].
      * symmetry. apply existsb_exists. exists o. split; [apply in_seq; lia|apply Nat.eqb_refl].
  - intros [_ Hq Hn] i q Hi. pose proof (proj1 (Forall_lookup _ _) Hq i q Hi) as Hcan.
    destruct (QueueSlotIsOccupied r i) eqn:E; [|done]. apply andb_true_iff. split; [done|].
    apply negb_true_iff, bool_decide_eq_false. unfold QueueSlotIsOccupied in E.
    apply existsb_exists in E as (o & Ho%in_seq & <-%Nat.eqb_eq). apply (proj1 (Forall_forall _ _) Hn).
    unfold queue_list. apply list_elem_of_fmap. exists o. split; [|apply elem_of_seq; lia]. unfold queued_at. by rewrite nth_lookup, Hi.
Qed.

Lemma zero_queued_canonical : QueuedChannelIsCanonical zero_queued = true.
Proof. reflexivity. Qed.

Lemma queue_member_canonical r q : queue_fine r -> q ∈ queue_list r -> QueuedChannelIsCanonical q = true.
Proof.
  intros [[Hl _ _] Hs _] Hq. unfold queue_list in Hq. apply list_elem_of_fmap in Hq as (o & -> & _).
  exact (proj1 (Forall_lookup _ _) Hs _ _ (nth_some _ zero_queued _ _ Hl (queue_slot_lt r (Z.of_nat o)))).
Qed.

Lemma queue_fine_tail r q : queue_fine r -> dr_accept_count r < 8 -> QueuedChannelIsCanonical q = true -> qu_state q <> QueuedEmpty ->
  queue_fine (EnqueueTailLocked r q) /\ queue_list (EnqueueTailLocked r q) = queue_list r ++ [q].
Proof.
  intros [Hs Hq Hn] Hlt Hc He. destruct (queue_tail r q Hs Hlt) as [Hs' Hl]. split; [|done]. split; [done| |].
  - by apply Forall_insert.
  - rewrite Hl. apply Forall_app. auto.
Qed.

Lemma queue_fine_front r q : queue_fine r -> dr_accept_count r < 8 -> QueuedChannelIsCanonical q = true -> qu_state q <> QueuedEmpty ->
  queue_fine (EnqueueFrontLocked r q) /\ queue_list (EnqueueFrontLocked r q) = q :: queue_list r.
Proof.
  intros [Hs Hq Hn] Hlt Hc He. destruct (queue_front r q Hs Hlt) as [Hs' Hl]. split; [|done]. split; [done| |].
  - by apply Forall_insert.
  - rewrite Hl. by constructor.
Qed.

Lemma queue_fine_dequeue r : queue_fine r -> 0 < dr_accept_count r ->
  queue_fine (DequeueLocked r).2 /\ queue_list r = (DequeueLocked r).1 :: queue_list (DequeueLocked r).2.
Proof.
  intros [Hs Hq Hn] Hlt. destruct (queue_dequeue r Hs Hlt) as [Hs' Hl]. split; [|done]. split; [done| |].
  - by apply Forall_insert.
  - rewrite Hl in Hn. by apply Forall_cons in Hn as [_ Hn].
Qed.

Lemma shift_canonical n r : forall l o, length l = 8%nat -> Forall (fun q => QueuedChannelIsCanonical q = true) l ->
  Forall (fun q => QueuedChannelIsCanonical q = true) (shift_queue n r l o).
Proof.
  induction n as [|n IH]; intros l o Hl H; cbn [shift_queue]; [done|]. apply IH; [by rewrite length_insert|].
  apply Forall_insert; [done|]. exact (proj1 (Forall_lookup _ _) H _ _ (nth_some _ zero_queued _ _ Hl (queue_slot_lt r (o + 1)))).
Qed.

Lemma queue_fine_remove_at r o : queue_fine r -> 0 <= o < dr_accept_count r ->
  queue_fine (remove_at r o) /\ queue_list (remove_at r o) = delete (Z.to_nat o) (queue_list r).
Proof.
  intros [Hs Hq Hn] Ho. destruct (queue_remove_at r o Hs Ho) as [Hs' Hl]. split; [|done]. split; [done| |].
  - cbn. apply Forall_insert; [|done]. apply shift_canonical; [apply Hs|done].
  - rewrite Hl. by apply Forall_delete_sub.
Qed.

(** A scan from [o] on, with [n] records left, in terms of the list. *)
Lemma drop_queue r o n : 0 <= o -> o + Z.of_nat (S n) = dr_accept_count r ->
  drop (Z.to_nat o) (queue_list r) = queued_at r (queue_slot r o) :: drop (Z.to_nat (o + 1)) (queue_list r).
Proof.
  intros Ho Hn. replace (Z.to_nat (o + 1)) with (S (Z.to_nat o)) by lia. apply drop_S. apply queue_at. lia.
Qed.

Definition removed_from r (channel : ServiceEndpointChannelKey) (q : ServiceDirectoryQueuedChannel) r' : Prop :=
  qu_channel q = channel /\ queue_fine r' /\ (exists queue head count, r' = with_queue r queue head count) /\
  exists l1 l2, queue_list r = l1 ++ q :: l2 /\ queue_list r' = l1 ++ l2.

Lemma remove_queued r channel : queue_fine r ->
  match RemoveQueuedLocked r channel with
  | Some (q, r') => removed_from r channel q r'
  | None => Forall (fun q => qu_channel q <> channel) (queue_list r)
  end.
Proof.
  intros Hf. unfold RemoveQueuedLocked. pose proof (qs_count _ (qf_shape _ Hf)) as Hc.
  enough (forall n o, 0 <= o -> o + Z.of_nat n = dr_accept_count r ->
    match remove_scan n r channel o with
    | Some (q, r') => removed_from r channel q r'
    | None => Forall (fun q => qu_channel q <> channel) (drop (Z.to_nat o) (queue_list r))
    end) as Hscan by (apply (Hscan (Z.to_nat (dr_accept_count r)) 0); lia).
  induction n as [|n IH]; intros o H0 Hn; cbn [remove_scan].
  - rewrite drop_ge; [constructor|]. rewrite length_queue_list. lia.
  - pose proof (drop_queue r o n H0 Hn) as Hd. case_bool_decide as He; cbn [negb].
    + destruct (queue_fine_remove_at r o Hf ltac:(lia)) as [Hf' Hl]. split_and!; [done|done|by do 3 eexists|].
      exists (take (Z.to_nat o) (queue_list r)), (drop (Z.to_nat (o + 1)) (queue_list r)).
      split; [by rewrite <- Hd, take_drop|]. rewrite Hl, delete_take_drop. by replace (Z.to_nat (o + 1)) with (S (Z.to_nat o)) by lia.
    + specialize (IH (o + 1) ltac:(lia) ltac:(lia)). destruct (remove_scan n r channel (o + 1)) as [[q r']|]; [done|].
      rewrite Hd. by constructor.
Qed.

Definition made_ready q : ServiceDirectoryQueuedChannel := MkQueued (qu_owned q) (qu_channel q) QueuedReady.

Lemma ready_queued r channel : queue_fine r ->
  match ready_scan (Z.to_nat (dr_accept_count r)) r channel 0 with
  | Some r' =>
      queue_fine r' /\ (exists queue, r' = with_queue r queue (dr_accept_head r) (dr_accept_count r)) /\
      exists l1 q l2, queue_list r = l1 ++ q :: l2 /\ queue_list r' = l1 ++ made_ready q :: l2 /\
        qu_channel q = channel /\ qu_state q = QueuedPendingClientPublish
  | None => Forall (fun q => qu_channel q = channel -> qu_state q <> QueuedPendingClientPublish) (queue_list r)
  end.
Proof.
  intros Hf. pose proof (qs_count _ (qf_shape _ Hf)) as Hc.
  enough (forall n o, 0 <= o -> o + Z.of_nat n = dr_accept_count r ->
    match ready_scan n r channel o with
    | Some r' =>
        queue_fine r' /\ (exists queue, r' = with_queue r queue (dr_accept_head r) (dr_accept_count r)) /\
        exists l1 q l2, queue_list r = l1 ++ q :: l2 /\ queue_list r' = l1 ++ made_ready q :: l2 /\
          qu_channel q = channel /\ qu_state q = QueuedPendingClientPublish
    | None => Forall (fun q => qu_channel q = channel -> qu_state q <> QueuedPendingClientPublish)
          (drop (Z.to_nat o) (queue_list r))
    end) as Hscan
    by (apply (Hscan (Z.to_nat (dr_accept_count r)) 0); lia).
  induction n as [|n IH]; intros o H0 Hn; cbn [ready_scan].
  - rewrite drop_ge; [constructor|]. rewrite length_queue_list. lia.
  - pose proof (drop_queue r o n H0 Hn) as Hd. set (q := queued_at r (queue_slot r o)) in *.
    destruct (bool_decide (qu_channel q = channel) && bool_decide (qu_state q = QueuedPendingClientPublish)) eqn:E.
    + change (MkQueued (qu_owned q) (qu_channel q) QueuedReady) with (made_ready q).
      apply andb_true_iff in E as [Ec%bool_decide_eq_true Es%bool_decide_eq_true].
      destruct (queue_change r o (made_ready q) (qf_shape _ Hf) ltac:(lia)) as [Hs Hl].
      assert (q ∈ queue_list r) as Hin by (eapply list_elem_of_lookup_2, (queue_at r o); lia).
      assert (QueuedChannelIsCanonical (made_ready q) = true) as Hcan.
      { pose proof (queue_member_canonical r q Hf Hin) as H. unfold QueuedChannelIsCanonical in *. by rewrite Es in H. }
      assert (queue_list r = take (Z.to_nat o) (queue_list r) ++ q :: drop (Z.to_nat (o + 1)) (queue_list r)) as Hsplit
        by (by rewrite <- Hd, take_drop).
      split_and!; [split; [done|apply Forall_insert; [apply Hf|done]|]|by eexists|].
      * rewrite Hl. apply Forall_insert; [apply Hf|done].
      * do 3 eexists. split_and!; [exact Hsplit| |done|done]. rewrite Hl, insert_take_drop by (rewrite length_queue_list; lia).
        by replace (Z.to_nat (o + 1)) with (S (Z.to_nat o)) by lia.
    + specialize (IH (o + 1) ltac:(lia) ltac:(lia)). destruct (ready_scan n r channel (o + 1)) as [r'|]; [done|].
      rewrite Hd. constructor; [|done]. intros Hch Hst. rewrite !bool_decide_true in E by done. done.
Qed.

Lemma detach_queue_fine n : forall r, queue_fine r -> Z.to_nat (dr_accept_count r) = n ->
  (detach_queue n r).1 = map qu_owned (queue_list r) /\ queue_fine (detach_queue n r).2 /\ dr_accept_count (detach_queue n r).2 = 0 /\
  exists queue head, (detach_queue n r).2 = with_queue r queue head 0.
Proof.
  induction n as [|n IH]; intros r Hf Hn; cbn [detach_queue].
  - pose proof (qs_count _ (qf_shape _ Hf)). assert (dr_accept_count r = 0) as H0 by lia. split_and!; [|done|done|].
    + unfold queue_list. by rewrite Hn.
    + exists (dr_accept_queue r), (dr_accept_head r). rewrite <- H0. by destruct r.
  - destruct (queue_fine_dequeue r Hf ltac:(lia)) as [Hf' Hl]. destruct (DequeueLocked r) as [q r1] eqn:E. cbn [fst snd] in *.
    assert (exists queue head, r1 = with_queue r queue head (dr_accept_count r - 1)) as (qu & hd & Hr1)
      by (unfold DequeueLocked in E; injection E as <- <-; by do 2 eexists).
    destruct (IH r1 Hf') as (Hb & Hf2 & H0 & qu2 & hd2 & Hr2); [rewrite Hr1; cbn; lia|].
    destruct (detach_queue n r1) as [batch r2]. cbn [fst snd] in *. split_and!; [by rewrite Hl, Hb|done|done|].
    exists qu2, hd2. by rewrite Hr2, Hr1.
Qed.

(** ** Operations *)

Record ops_fine r : Prop := {
  of_length : length (dr_operation_slots r) = 8%nat;
  of_slots : Forall (fun s => operation_slot_ok s = true /\ is_u32 (os_generation s)) (dr_operation_slots r);
  of_active : dr_active_operations r = sumZ (fun s => flag (operation_is_live s)) (dr_operation_slots r);
  of_hint : 0 <= dr_next_operation_hint r < 8;
}.

Lemma ops_canonical r : ops_fine r -> OperationSlotsAreCanonical r = true.
Proof.
  intros [_ Hs Ha Hh]. unfold OperationSlotsAreCanonical, kServiceDirectoryOperationCapacity.
  rewrite filter_count, Ha, Z.eqb_refl, (proj2 (Z.ltb_lt _ 8)) by lia. rewrite !andb_true_r.
  apply forallb_forall. intros s Hin%list_elem_of_In. exact (proj1 (proj1 (Forall_forall _ _) Hs s Hin)).
Qed.

Lemma hint_slot x : (Z.to_nat (x mod 8) < 8)%nat.
Proof. pose proof (Z.mod_pos_bound x 8 ltac:(lia)). lia. Qed.

Lemma hint_next i : 0 <= (Z.of_nat i + 1) mod 8 < 8.
Proof. apply Z.mod_pos_bound. lia. Qed.

Lemma ops_insert r i s s' hint : ops_fine r -> dr_operation_slots r !! i = Some s -> operation_slot_ok s' = true ->
  is_u32 (os_generation s') -> 0 <= hint < 8 ->
  ops_fine (with_operations r (<[i := s']> (dr_operation_slots r))
    (dr_active_operations r - flag (operation_is_live s) + flag (operation_is_live s')) hint).
Proof.
  intros [Hl Hs Ha Hh] Hi Hok Hty Hhint. split; cbn.
  - by rewrite length_insert.
  - by apply Forall_insert.
  - rewrite Ha. rewrite (sumZ_insert _ _ i s s' Hi). lia.
  - done.
Qed.

Lemma free_operation_spec r i : ops_fine r -> free_operation r = Some i ->
  dr_operation_slots r !! i = Some (operation_at r i) /\ os_state (operation_at r i) = OperationFree /\
  os_generation (operation_at r i) < u32_max.
Proof.
  intros Hf H. apply find_some in H as [Hin Hp]. apply in_map_iff in Hin as (o & <- & Ho%in_seq).
  assert (dr_operation_slots r !! Z.to_nat ((dr_next_operation_hint r + Z.of_nat o) mod kServiceDirectoryOperationCapacity)
          = Some (operation_at r (Z.to_nat ((dr_next_operation_hint r + Z.of_nat o) mod kServiceDirectoryOperationCapacity)))) as Hl
    by (apply (nth_some _ _ _ 8); [apply Hf|exact (hint_slot _)]).
  split; [done|]. apply andb_true_iff in Hp as [Hst%bool_decide_eq_true Hg%negb_true_iff%Z.eqb_neq]. split; [done|].
  destruct (proj1 (Forall_lookup _ _) (of_slots _ Hf) _ _ Hl) as [_ Hu].
  unfold kServiceDirectoryOperationGenerationMaximum in Hg. ulia.
Qed.

(** ** Accepted channels *)

Record accepted_fine r : Prop := {
  af_length : length (dr_accepted_channels r) = 8%nat;
  af_slots : forall i a, dr_accepted_channels r !! i = Some a -> accepted_ok (dr_key r) i a = true /\ is_u32 (ak_generation (ac_key a));
  af_count : dr_accepted_count r = sumZ (fun a => flag (accepted_in_use a)) (dr_accepted_channels r);
  af_hint : 0 <= dr_next_accepted_hint r < 8;
}.

Lemma sumZ_flag_le {A} (p : A -> bool) (l : list A) : 0 <= sumZ (fun x => flag (p x)) l <= Z.of_nat (length l).
Proof. rewrite <- filter_count. pose proof (List.filter_length_le p l). lia. Qed.

Lemma in_use_counted r j a : accepted_fine r -> dr_accepted_channels r !! j = Some a -> accepted_in_use a = true -> 0 < dr_accepted_count r.
Proof.
  intros Hf Ha Hu. rewrite (af_count _ Hf). change 0 with (0 + 0). apply Z.lt_le_trans with (flag (accepted_in_use a)); [by rewrite Hu|].
  apply (sumZ_member (fun a => flag (accepted_in_use a))); [|by eapply list_elem_of_lookup_2].
  intros x _. destruct (accepted_in_use x); cbn; lia.
Qed.

Lemma accepted_canonical r : accepted_fine r -> AcceptedChannelsAreCanonical r = true.
Proof.
  intros [Hl Hs Hc Hh]. unfold AcceptedChannelsAreCanonical, kServiceDirectoryAcceptedCapacity.
  pose proof (sumZ_flag_le accepted_in_use (dr_accepted_channels r)) as Hb.
  rewrite (proj2 (Z.ltb_ge 8 _)) by lia. rewrite (proj2 (Z.leb_gt 8 _)) by lia. cbn [orb].
  rewrite filter_count, Hc, Z.eqb_refl, andb_true_r. unfold accepted_at.
  apply (forallb_seq (fun i a => accepted_ok (dr_key r) i a) _ zero_accepted 8 Hl). intros i a Ha. exact (proj1 (Hs i a Ha)).
Qed.

Lemma accepted_insert r i a a' count hint : accepted_fine r -> dr_accepted_channels r !! i = Some a ->
  accepted_ok (dr_key r) i a' = true -> is_u32 (ak_generation (ac_key a')) -> 0 <= hint < 8 ->
  count = dr_accepted_count r - flag (accepted_in_use a) + flag (accepted_in_use a') ->
  accepted_fine (with_accepted r (<[i := a']> (dr_accepted_channels r)) count hint).
Proof.
  intros [Hl Hs Hc Hh] Hi Hok Hty Hhint ->. split; cbn.
  - by rewrite length_insert.
  - intros j b [[-> ->]|[_ Hj]]%lookup_insert_cases; [done|by apply Hs].
  - rewrite Hc. rewrite (sumZ_insert _ _ i a a' Hi). lia.
  - done.
Qed.

Lemma accepted_map r f count : accepted_fine r ->
  (forall i a, dr_accepted_channels r !! i = Some a -> accepted_ok (dr_key r) i (f a) = true /\ is_u32 (ak_generation (ac_key (f a)))) ->
  count = sumZ (fun a => flag (accepted_in_use (f a))) (dr_accepted_channels r) ->
  accepted_fine (with_accepted r (map f (dr_accepted_channels r)) count (dr_next_accepted_hint r)).
Proof.
  intros [Hl Hs Hc Hh] Hf ->. split; cbn.
  - by rewrite length_map.
  - intros i a Ha. rewrite list_lookup_fmap in Ha. destruct (dr_accepted_channels r !! i) as [b|] eqn:E; [|done].
    injection Ha as <-. by apply Hf.
  - clear. induction (dr_accepted_channels r) as [|a l IH]; [done|]. unfold sumZ in *. cbn. by rewrite IH.
  - done.
Qed.

(** A cleared record is free or retired, and keeps its generation. *)
Lemma clear_ok key i a : accepted_ok key i (ClearAcceptedLocked a) = true.
Proof.
  unfold accepted_ok, ClearAcceptedLocked, accepted_in_use. cbn [ac_state ac_key ac_owner ac_server_process ac_server_handle
    ac_process_teardown_deferred ac_release_driver_active ak_generation ak_service ak_channel].
  unfold AcceptedKeyIsInactive. cbn [ak_service ak_channel].
  destruct (ak_generation (ac_key a) =? kServiceDirectoryAcceptedGenerationMaximum) eqn:E; cbn; by rewrite ?E.
Qed.

Lemma clear_not_in_use a : accepted_in_use (ClearAcceptedLocked a) = false.
Proof. unfold accepted_in_use, ClearAcceptedLocked. cbn. by destruct (_ =? _). Qed.

Lemma clear_generation a : ak_generation (ac_key (ClearAcceptedLocked a)) = ak_generation (ac_key a).
Proof. done. Qed.

(** What the check says of a record in use. *)
Record in_use_ok (key : ServiceKey) (i : nat) a : Prop := {
  iu_key : ServiceDirectoryAcceptedChannelKeyIsValid (ac_key a) = true;
  iu_service : ak_service (ac_key a) = key;
  iu_slot : ak_slot (ac_key a) = Z.of_nat i;
  iu_owner : ServiceEndpointOwnerReceiptIsValid (ac_owner a) = true;
  iu_channel : rc_channel (ac_owner a) = ak_channel (ac_key a);
  iu_process : ProcessKeyIsValid (ac_server_process a) = true;
  iu_state : match ac_state a with
             | AcceptedPublishing => ac_server_handle a = kHandleInvalid /\ ac_release_driver_active a = false
             | AcceptedPublished => ac_server_handle a <> kHandleInvalid /\ ac_release_driver_active a = false
             | AcceptedReleasing => ac_server_handle a <> kHandleInvalid
             | _ => False
             end;
}.

Lemma in_use_accepted key i a : accepted_in_use a = true -> accepted_ok key i a = true <-> in_use_ok key i a.
Proof.
  intros Hu. unfold accepted_ok. rewrite Hu. cbn [negb]. rewrite !andb_true_iff, !bool_decide_eq_true, Z.eqb_eq. split.
  - intros ((((((? & ?) & ?) & ?) & ?) & ?) & Hst). split; try done.
    destruct (ac_state a); rewrite ?andb_true_iff, ?negb_true_iff, ?Z.eqb_eq, ?Z.eqb_neq in Hst; try done.
  - intros [? ? ? ? ? ? Hst]. split_and!; try done.
    destruct (ac_state a); rewrite ?andb_true_iff, ?negb_true_iff, ?Z.eqb_eq, ?Z.eqb_neq; try done.
Qed.

(** Resolving an accepted key. *)
Lemma resolve_accepted r key a : accepted_fine r -> 0 <= ak_slot key -> ResolveAcceptedLocked r key = Some a ->
  dr_accepted_channels r !! Z.to_nat (ak_slot key) = Some a /\ accepted_in_use a = true /\ ac_key a = key /\
  in_use_ok (dr_key r) (Z.to_nat (ak_slot key)) a.
Proof.
  intros Hf H0. unfold ResolveAcceptedLocked.
  destruct (ServiceDirectoryAcceptedChannelKeyIsValid key) eqn:Hv; [|done]. cbn [negb orb].
  case_bool_decide as Hs; [|done]. cbn [negb]. destruct (accepted_in_use _) eqn:Hu; [|done]. cbn [negb orb].
  case_bool_decide as Hk; [|done]. intros [= <-].
  assert (Z.to_nat (ak_slot key) < 8)%nat as Hlt.
  { unfold ServiceDirectoryAcceptedChannelKeyIsValid, kServiceDirectoryAcceptedCapacity in Hv.
    rewrite !andb_true_iff, Z.ltb_lt in Hv. lia. }
  assert (dr_accepted_channels r !! Z.to_nat (ak_slot key) = Some (accepted_at r (Z.to_nat (ak_slot key)))) as Hl
    by (apply (nth_some _ _ _ 8); [apply Hf|done]).
  split_and!; try done. apply in_use_accepted; [done|]. exact (proj1 (af_slots _ Hf _ _ Hl)).
Qed.

Lemma resolve_accepted_in_use r i a : accepted_fine r -> dr_accepted_channels r !! i = Some a -> accepted_in_use a = true ->
  ResolveAcceptedLocked r (ac_key a) = Some a.
Proof.
  intros Hf Hi Hu. destruct (proj1 (in_use_accepted _ _ _ Hu) (proj1 (af_slots _ Hf _ _ Hi))) as [Hv Hs Hsl _ _ _ _].
  unfold ResolveAcceptedLocked. rewrite Hv, Hs, Hsl, bool_decide_true by done. cbn [negb orb]. rewrite Nat2Z.id.
  assert (accepted_at r i = a) as -> by (unfold accepted_at; by rewrite nth_lookup, Hi). rewrite Hu, bool_decide_true by done. done.
Qed.

Lemma allocate_accepted r channel process : accepted_fine r ->
  match AllocateAcceptedLocked r channel process with
  | Some (i, a, r') =>
      exists old, dr_accepted_channels r !! i = Some old /\ accepted_in_use old = false /\ ak_generation (ac_key old) < u32_max /\
        a = MkAccepted (MkAcceptedKey (dr_key r) (Z.of_nat i) (ak_generation (ac_key old) + 1) channel) zero_receipt process
              kHandleInvalid false false AcceptedPublishing /\
        r' = with_accepted r (<[i := a]> (dr_accepted_channels r)) (dr_accepted_count r + 1) ((Z.of_nat i + 1) mod 8)
  | None => True
  end.
Proof.
  intros Hf. unfold AllocateAcceptedLocked. destruct (find _ _) as [i|] eqn:E; [|done].
  apply find_some in E as [Hin Hp]. apply in_map_iff in Hin as (o & Hi & _).
  assert (dr_accepted_channels r !! i = Some (accepted_at r i)) as Hl
    by (apply (nth_some _ _ _ 8); [apply Hf|rewrite <- Hi; exact (hint_slot _)]).
  apply andb_true_iff in Hp as [Hst%bool_decide_eq_true Hg%negb_true_iff%Z.eqb_neq].
  exists (accepted_at r i). split_and!; try done.
  - unfold accepted_in_use. by rewrite Hst.
  - destruct (af_slots _ Hf _ _ Hl) as [_ Hu]. unfold kServiceDirectoryAcceptedGenerationMaximum in Hg. ulia.
Qed.

(** ** Closing channels *)

Definition owned_held (c : ServiceDirectoryOwnedChannel) : Prop :=
  ServiceEndpointOwnerReceiptIsValid (ow_owner c) = true /\ ow_release_driver_active c = false.

Lemma owned_held_canonical c :
  OwnedChannelIsCanonical c && negb (ServiceDirectoryOwnedChannelIsEmpty c) = true <-> owned_held c.
Proof.
  unfold OwnedChannelIsCanonical, ServiceDirectoryOwnedChannelIsEmpty, owned_held.
  destruct (ServiceEndpointOwnerReceiptIsValid (ow_owner c)), (ow_release_driver_active c), (ow_acceptor c =? 0); cbn; naive_solver.
Qed.

Record closing_fine r : Prop := {
  cf_length : length (dr_closing_channels r) = 16%nat;
  cf_count : 0 <= dr_closing_count r <= 16;
  cf_outstanding : 0 <= dr_close_batch_outstanding r <= 16;
  cf_held : Forall owned_held (take (Z.to_nat (dr_closing_count r)) (dr_closing_channels r));
  cf_empty : Forall (fun c => ServiceDirectoryOwnedChannelIsEmpty c = true) (drop (Z.to_nat (dr_closing_count r)) (dr_closing_channels r));
  cf_driver : (dr_close_driver_active r = 0 /\ dr_close_batch_outstanding r = 0) \/
              (dr_close_driver_active r = 1 /\ 0 < dr_close_batch_outstanding r /\ dr_closing_count r = 0);
}.

Lemma closing_canonical r : closing_fine r -> ClosingChannelsAreCanonical r = true.
Proof.
  intros [Hl Hc Ho Hh He Hd]. unfold ClosingChannelsAreCanonical, kServiceDirectoryCloseBatchCapacity, kServiceDirectoryAcceptCapacity,
    kServiceDirectoryAcceptedCapacity.
  rewrite (proj2 (Z.ltb_ge _ (dr_closing_count r))), (proj2 (Z.ltb_ge _ (dr_close_batch_outstanding r))),
    (proj2 (Z.ltb_ge 1 _)) by lia. cbn [orb]. apply andb_true_iff. split.
  - unfold closing_at. change (Z.to_nat (8 + 8)) with 16%nat.
    apply (forallb_seq (fun i c => if Z.of_nat i <? dr_closing_count r then OwnedChannelIsCanonical c
      && negb (ServiceDirectoryOwnedChannelIsEmpty c) else ServiceDirectoryOwnedChannelIsEmpty c) _ zero_owned 16 Hl).
    intros i c Hi. destruct (Z.ltb_spec (Z.of_nat i) (dr_closing_count r)) as [Hlt|Hge].
    + apply owned_held_canonical. apply (proj1 (Forall_lookup _ _) Hh i c). rewrite lookup_take_lt; [done|lia].
    + apply (proj1 (Forall_lookup _ _) He (i - Z.to_nat (dr_closing_count r))%nat c). rewrite lookup_drop.
      by replace (Z.to_nat (dr_closing_count r) + (i - Z.to_nat (dr_closing_count r)))%nat with i by lia.
  - destruct Hd as [[-> ->]|(-> & H & ->)]; cbn; [done|]. by rewrite (proj2 (Z.eqb_neq _ _)) by lia.
Qed.

(** ** Rows *)

Definition static_ok r : bool :=
  ServiceDirectoryNameIsCanonical (dr_name r) && ServiceInstanceTokenIsValid (dr_owner r)
  && ServiceEndpointCredentialSnapshotIsCanonical (dr_owner_credential r) && ServiceKeyIsValid (dr_key r)
  && (key_slot (dr_key r) <? kServiceDirectoryCapacity) && (dr_manifest_slot r <? kServiceDirectoryCapacity).

(** A row in use. *)
Record row_fine (i : nat) r : Prop := {
  rf_in_use : entry_in_use r = true;
  rf_static : static_ok r = true;
  rf_slot : key_slot (dr_key r) = Z.of_nat i;
  rf_ops : ops_fine r;
  rf_queue : queue_fine r;
  rf_accepted : accepted_fine r;
  rf_closing : closing_fine r;
  rf_life : life_ok r = true;
  rf_publishers : is_u32 (dr_external_publishers r);
}.

(** Any row: in use and well formed, or zero. *)
Definition row_ok (i : nat) r : Prop := row_fine i r \/ r = ClearRowLocked false \/ r = ClearRowLocked true.

Lemma row_fine_canonical i r : row_fine i r -> RowIsCanonical r = true.
Proof.
  intros [Hu Hs _ Ho Hq Ha Hc Hl _]. unfold RowIsCanonical. rewrite Hu. cbn [negb]. fold (static_ok r).
  by rewrite Hs, (ops_canonical r Ho), (proj2 (queue_canonical r (qf_shape r Hq)) Hq), (accepted_canonical r Ha),
    (closing_canonical r Hc), Hl.
Qed.

Lemma row_ok_canonical i r : row_ok i r ->
  RowIsCanonical r && negb (entry_in_use r && negb (key_slot (dr_key r) =? Z.of_nat i)) = true.
Proof.
  intros [H|[->| ->]]; [|vm_compute; done..]. rewrite (row_fine_canonical i r H), (rf_slot _ _ H), Z.eqb_refl. cbn.
  by rewrite andb_false_r.
Qed.

(** The receipts of endpoint channels a row owns. *)
Definition row_receipts r : list ServiceEndpointOwnerReceipt :=
  map (fun q => ow_owner (qu_owned q)) (queue_list r)
  ++ map ac_owner (List.filter accepted_in_use (dr_accepted_channels r))
  ++ map ow_owner (take (Z.to_nat (dr_closing_count r)) (dr_closing_channels r)).

Lemma clear_row_receipts terminal : row_receipts (ClearRowLocked terminal) = [].
Proof. by destruct terminal. Qed.

Lemma filter_insert_perm {A B} (p : A -> bool) (f : A -> B) (l : list A) : forall i x y, l !! i = Some x ->
  map f (List.filter p (<[i := y]> l)) ++ (if p x then [f x] else []) ≡ₚ map f (List.filter p l) ++ (if p y then [f y] else []).
Proof.
  induction l as [|b l IH]; intros i x y Hi; [done|]. destruct i as [|i]; cbn in Hi |- *.
  - injection Hi as ->. destruct (p x), (p y); cbn; rewrite ?app_nil_r; try done.
    + rewrite <- !Permutation_cons_append. apply Permutation_swap.
    + by rewrite <- Permutation_cons_append.
    + by rewrite <- Permutation_cons_append.
  - specialize (IH i x y Hi). destruct (p b); cbn; [|done]. by rewrite IH.
Qed.

(** A row whose counts are zero owns no channel. *)
Lemma no_receipts r : accepted_fine r -> dr_accept_count r = 0 -> dr_accepted_count r = 0 -> dr_closing_count r = 0 -> row_receipts r = [].
Proof.
  intros Hf Hq Ha Hc. unfold row_receipts, queue_list. rewrite Hq, Hc. cbn [Z.to_nat seq map take app]. rewrite app_nil_r.
  enough (List.filter accepted_in_use (dr_accepted_channels r) = []) as -> by done.
  apply length_zero_iff_nil. pose proof (filter_count accepted_in_use (dr_accepted_channels r)). pose proof (af_count _ Hf). lia.
Qed.

(** What recycling needs of a row, and leaves. *)
Lemma try_recycle i r : row_fine i r ->
  let '(recycled, r') := TryRecycleLocked r in
  if recycled
  then r' = ClearRowLocked (key_generation (dr_key r) =? kServiceKeyGenerationMaximum) /\ row_receipts r = [] /\
       dr_state r = EntryClosing /\ dr_reservation_authority r = 0 /\ dr_active_operations r = 0 /\ dr_accepted_count r = 0 /\
       dr_external_publishers r = 0 /\ dr_close_driver_active r = 0
  else r' = r.
Proof.
  intros H. unfold TryRecycleLocked. destruct (_ || _) eqn:E; [done|].
  rewrite !orb_false_iff, !negb_false_iff, bool_decide_eq_true, !Z.eqb_eq in E.
  destruct E as ((((((((? & ?) & ?) & Hq) & Ha) & ?) & Hc) & ?) & ?). split_and!; try done.
  by apply no_receipts; [apply H|..].
Qed.

(** The server handles a row has published, each with its process. *)
Definition has_handle a : bool := bool_decide (ac_state a = AcceptedPublished) || bool_decide (ac_state a = AcceptedReleasing).
Definition record_handle a : list (ProcessKey * Z) := if has_handle a then [(ac_server_process a, ac_server_handle a)] else [].
Definition accepted_handles (l : list ServiceDirectoryAcceptedChannel) : list (ProcessKey * Z) := flat_map record_handle l.
Definition row_handles r : list (ProcessKey * Z) := if entry_in_use r then accepted_handles (dr_accepted_channels r) else [].
Definition directory_handles (d : ServiceDirectory) : list (ProcessKey * Z) := flat_map row_handles (sd_rows d).
