(* ===== verification/ServiceDirectoryInv.v ===== *)
(** * A directory row and the calls on it

    Connects, accepts, releases and closes leave the directory lock between
    their sections.  The calls under way on a row are its tasks; this file
    states what ties a row to its tasks and shows that every section of every
    operation keeps it, with the receipts the row and its tasks hold
    accounted for. *)

From S2P Require Import Prelude ServiceTransition Bytes KObject HandleTable ChannelCore Credentials.
From S2P Require Import Sha256 ServiceManifest ServiceManifestGraph ServiceLifecycleBroker ServiceDirectory ServiceDirectoryRows.

Implicit Types (r : ServiceDirectoryRow) (q : ServiceDirectoryQueuedChannel) (a : ServiceDirectoryAcceptedChannel).

#[local] Arguments sumZ : simpl never.

(** Permutations of receipts from permutations of receipts, by counting. *)
Ltac permute :=
  let dec := constr:(ServiceEndpointOwnerReceipt_eq_dec) in
  repeat match goal with H : @Permutation ServiceEndpointOwnerReceipt _ _ |- _ => rewrite (Permutation_count_occ dec) in H end;
  apply (Permutation_count_occ dec); let x := fresh in intros x;
  repeat match goal with H : forall y : ServiceEndpointOwnerReceipt, count_occ _ _ y = _ |- _ => specialize (H x) end;
  repeat rewrite count_occ_app in *; cbn [count_occ app] in *; lia.

(** ** Calls between their sections *)

Inductive dtask :=
| TConnect (service : ServiceKey) (channel : ServiceEndpointChannelKey)
| TAccept (key : ServiceDirectoryAcceptedChannelKey) (acceptor_object : Z)
| TRelease (key : ServiceDirectoryAcceptedChannelKey) (receipt : ServiceEndpointOwnerReceipt)
| TClose (service : ServiceKey) (owner : ServiceInstanceToken) (batch : list ServiceDirectoryOwnedChannel).
Implicit Types (t : dtask) (ts : list dtask).

Definition task_service t : ServiceKey :=
  match t with TConnect k _ | TClose k _ _ => k | TAccept k _ | TRelease k _ => ak_service k end.

Definition publishes t : Z := match t with TConnect _ _ | TAccept _ _ => 1 | _ => 0 end.
Definition closes t : Z := match t with TClose _ _ _ => 1 | _ => 0 end.
Definition releases (key : ServiceDirectoryAcceptedChannelKey) t : Z :=
  match t with TRelease k _ => flag (bool_decide (k = key)) | _ => 0 end.
Definition connects t : option ServiceEndpointChannelKey := match t with TConnect _ ch => Some ch | _ => None end.
Definition accepts t : option ServiceDirectoryAcceptedChannelKey := match t with TAccept k _ => Some k | _ => None end.
Definition task_receipts t : list ServiceEndpointOwnerReceipt :=
  match t with TClose _ _ batch => map ow_owner batch | _ => [] end.

(** The queue has a record of the channel that waits for its client. *)
Definition pending r (channel : ServiceEndpointChannelKey) : Prop :=
  exists q, q ∈ queue_list r /\ qu_channel q = channel /\ qu_state q = QueuedPendingClientPublish.

(** What a row keeps for each of its tasks. *)
Definition task_fits r t : Prop :=
  task_service t = dr_key r /\
  match t with
  | TConnect _ ch => dr_state r = EntryActive -> pending r ch
  | TAccept key obj =>
      obj <> 0 /\ 0 <= ak_slot key < 8 /\ ServiceDirectoryAcceptedChannelKeyIsValid key = true /\
      exists a, dr_accepted_channels r !! Z.to_nat (ak_slot key) = Some a /\ ak_generation key <= ak_generation (ac_key a) /\
        (accepted_in_use a = true -> ac_key a = key -> ac_state a = AcceptedPublishing) /\
        (dr_state r = EntryActive -> accepted_in_use a = true /\ ac_key a = key)
  | TRelease key receipt =>
      exists i a, dr_accepted_channels r !! i = Some a /\ ac_key a = key /\ ac_state a = AcceptedReleasing /\
        ac_release_driver_active a = true /\ ac_owner a = receipt
  | TClose _ owner batch =>
      dr_owner r = owner /\ dr_state r = EntryClosing /\ dr_close_batch_outstanding r = Z.of_nat (length batch) /\
      Forall owned_held batch
  end.

Record row_tasks r ts : Prop := {
  rt_publishers : dr_external_publishers r = sumZ publishes ts;
  rt_closes : dr_close_driver_active r = sumZ closes ts;
  rt_releases : forall i a, dr_accepted_channels r !! i = Some a -> accepted_in_use a = true ->
    flag (ac_release_driver_active a) = sumZ (releases (ac_key a)) ts;
  rt_fits : forall t, t ∈ ts -> task_fits r t;
  rt_connects : NoDup (omap connects ts);
  rt_accepts : NoDup (omap accepts ts);
}.

Record row_inv (i : nat) r ts : Prop := {
  ri_fine : row_fine i r;
  ri_tasks : row_tasks r ts;
  ri_few : Z.of_nat (length ts) < u32_max;
}.

(** A row in use with its tasks, or a zero row without any. *)
Definition row_state (i : nat) r ts : Prop :=
  row_inv i r ts \/ ((r = ClearRowLocked false \/ r = ClearRowLocked true) /\ ts = []).

(** The receipts a row and its tasks hold. *)
Definition held r ts : list ServiceEndpointOwnerReceipt := row_receipts r ++ flat_map task_receipts ts.

Lemma publishes_nonneg ts : 0 <= sumZ publishes ts.
Proof. apply sumZ_nonneg. intros [] _; cbn; lia. Qed.

Lemma no_tasks r ts : row_tasks r ts -> dr_external_publishers r = 0 -> dr_close_driver_active r = 0 ->
  (forall i a, dr_accepted_channels r !! i = Some a -> accepted_in_use a = false) -> ts = [].
Proof.
  intros [Hp Hc Hr Hf _ _] H0 H1 Ha. destruct ts as [|t ts]; [done|]. exfalso.
  assert (publishes t <= 0) as Hpt.
  { rewrite <- H0, Hp. apply sumZ_member; [|apply list_elem_of_here]. intros [] _; cbn; lia. }
  assert (closes t <= 0) as Hct.
  { rewrite <- H1, Hc. apply sumZ_member; [|apply list_elem_of_here]. intros [] _; cbn; lia. }
  destruct (Hf t (list_elem_of_here _ _)) as [_ Ht]. destruct t; cbn in *; try lia.
  destruct Ht as (i & a & Hi & _ & Hs & _). specialize (Ha i a Hi). unfold accepted_in_use in Ha. by rewrite Hs in Ha.
Qed.

(** Recycling, with what is held untouched. *)
Lemma recycle_state i r ts : row_inv i r ts ->
  row_state i (TryRecycleLocked r).2 ts /\ held (TryRecycleLocked r).2 ts = held r ts.
Proof.
  intros [Hf Ht Hn]. pose proof (try_recycle i r Hf) as H. destruct (TryRecycleLocked r) as [recycled r']. cbn [snd].
  destruct recycled; [|subst r'; split; [by left|done]]. destruct H as (-> & Hr & _ & _ & _ & Hacc & Hp & Hc).
  assert (ts = []) as ->.
  { apply (no_tasks r ts Ht Hp Hc). intros j a Hj. destruct (accepted_in_use a) eqn:E; [|done]. exfalso.
    pose proof (in_use_counted r j a (rf_accepted _ _ Hf) Hj E). lia. }
  split; [right; split; [|done]; destruct (_ =? _); auto|]. unfold held. by rewrite clear_row_receipts, Hr.
Qed.

(** ** Changes that leave the channels alone *)

(** What the tie between a row and its tasks looks at. *)
Record same_channels r r' : Prop := {
  sc_key : dr_key r' = dr_key r;
  sc_owner : dr_owner r' = dr_owner r;
  sc_queue : queue_list r' = queue_list r;
  sc_accepted : dr_accepted_channels r' = dr_accepted_channels r;
  sc_closing : dr_closing_channels r' = dr_closing_channels r;
  sc_closing_count : dr_closing_count r' = dr_closing_count r;
  sc_publishers : dr_external_publishers r' = dr_external_publishers r;
  sc_outstanding : dr_close_batch_outstanding r' = dr_close_batch_outstanding r;
  sc_driver : dr_close_driver_active r' = dr_close_driver_active r;
}.

Lemma same_channels_tasks r r' ts : same_channels r r' -> dr_state r' = dr_state r \/ dr_state r' = EntryClosing ->
  row_tasks r ts -> row_tasks r' ts.
Proof.
  intros [Hk Ho Hq Ha _ _ Hp Hout Hd] Hs [Rp Rc Rr Rf R1 R2]. split.
  - by rewrite Hp.
  - by rewrite Hd.
  - by rewrite Ha.
  - intros t Hin. destruct (Rf t Hin) as [E Ht]. split; [by rewrite Hk|]. destruct t; cbn in *.
    + unfold pending. intros Hact. rewrite Hq. apply Ht. destruct Hs as [<-|Hs]; [done|congruence].
    + destruct Ht as (H1 & H2 & H3 & a & H4 & H5 & H6 & H7). rewrite Ha. refine (conj H1 (conj H2 (conj H3 _))). exists a. split_and!; try done.
      intros Hact. apply H7. destruct Hs as [<-|Hs]; [done|congruence].
    + by rewrite Ha.
    + destruct Ht as (H1 & H2 & H3 & H4). rewrite Ho, Hout. split_and!; try done. destruct Hs as [->|]; done.
  - done.
  - done.
Qed.

Lemma same_channels_held r r' ts : same_channels r r' -> held r' ts = held r ts.
Proof. intros [_ _ Hq Ha Hc Hcc _ _ _]. unfold held, row_receipts. by rewrite Hq, Ha, Hc, Hcc. Qed.

Lemma with_life_same r authority ready state reason : same_channels r (with_life r authority ready state reason).
Proof. by split. Qed.
Lemma with_operations_same r slots active hint : same_channels r (with_operations r slots active hint).
Proof. by split. Qed.

(** A reserved row has no tasks. *)
Lemma reserved_idle i r ts : row_inv i r ts -> dr_state r = EntryReserved -> ts = [].
Proof.
  intros [Hf Ht _] Hs. pose proof (rf_life _ _ Hf) as Hl. unfold life_ok in Hl. rewrite Hs in Hl.
  rewrite !andb_true_iff, !Z.eqb_eq in Hl. destruct Hl as (((((((((_ & _) & _) & Ha) & Hp) & _) & _) & Hd) & _) & _).
  apply (no_tasks r ts Ht Hp Hd). intros j a Hj. destruct (accepted_in_use a) eqn:E; [|done]. exfalso.
  pose proof (in_use_counted r j a (rf_accepted _ _ Hf) Hj E). lia.
Qed.

(** Rebuilding the well-formedness of a row from its parts. *)
Lemma with_life_fine i r authority ready state reason : row_fine i r ->
  life_ok (with_life r authority ready state reason) = true -> row_fine i (with_life r authority ready state reason).
Proof.
  intros [Hu Hs Hk Ho Hq Ha Hc _ Hp] Hl. split; try done.
  - unfold entry_in_use. unfold life_ok in Hl. cbn in *. by destruct state.
  - by destruct Ho.
  - destruct Hq as [[] ? ?]. by split.
  - by destruct Ha.
  - by destruct Hc.
Qed.

Lemma with_operations_fine i r slots active hint : row_fine i r -> dr_state r <> EntryReserved ->
  ops_fine (with_operations r slots active hint) -> row_fine i (with_operations r slots active hint).
Proof.
  intros [Hu Hs Hk _ Hq Ha Hc Hl Hp] Hst Ho. split; try done.
  - destruct Hq as [[] ? ?]. by split.
  - by destruct Ha.
  - by destruct Hc.
  - unfold life_ok in *. cbn. by destruct (dr_state r).
Qed.

(** A life change: the state stays, or the row starts closing, or a reserved
    row becomes active. *)
Lemma life_step i r ts authority ready state reason : row_inv i r ts ->
  life_ok (with_life r authority ready state reason) = true ->
  state = dr_state r \/ state = EntryClosing \/ dr_state r = EntryReserved ->
  row_inv i (with_life r authority ready state reason) ts /\ held (with_life r authority ready state reason) ts = held r ts.
Proof.
  intros H Hl Hs. split; [|apply same_channels_held, with_life_same]. destruct H as [Hf Ht Hn]. split; [by apply with_life_fine| |done].
  destruct Hs as [->|[->|Hs]].
  - eapply same_channels_tasks; [apply with_life_same|by left|done].
  - eapply same_channels_tasks; [apply with_life_same|by right|done].
  - assert (ts = []) as -> by (eapply reserved_idle; [|done]; by split). destruct Ht. split; try done. intros t Hin. by apply elem_of_nil in Hin.
Qed.

Lemma operations_step i r ts slots active hint : row_inv i r ts -> dr_state r <> EntryReserved ->
  ops_fine (with_operations r slots active hint) ->
  row_inv i (with_operations r slots active hint) ts /\ held (with_operations r slots active hint) ts = held r ts.
Proof.
  intros [Hf Ht Hn] Hst Ho. split; [|apply same_channels_held, with_operations_same]. split; [by apply with_operations_fine| |done].
  eapply same_channels_tasks; [apply with_operations_same|by left|done].
Qed.

Lemma lookup_pins_row i r ts slot : row_inv i r ts -> dr_state r = EntryActive -> free_operation r = Some slot ->
  let r' := with_operations r (<[slot := MkOperationSlot (os_generation (operation_at r slot) + 1) OperationLive]> (dr_operation_slots r))
              (dr_active_operations r + 1) ((Z.of_nat slot + 1) mod kServiceDirectoryOperationCapacity) in
  row_inv i r' ts /\ held r' ts = held r ts.
Proof.
  intros H Hst Hfree. destruct (free_operation_spec r slot (rf_ops _ _ (ri_fine _ _ _ H)) Hfree) as (Hl & Hs & Hg).
  pose proof (proj1 (Forall_lookup _ _) (of_slots _ (rf_ops _ _ (ri_fine _ _ _ H))) _ _ Hl) as [_ Hu].
  apply operations_step; [done|congruence|].
  pose proof (ops_insert r slot _ (MkOperationSlot (os_generation (operation_at r slot) + 1) OperationLive)
    ((Z.of_nat slot + 1) mod 8) (rf_ops _ _ (ri_fine _ _ _ H)) Hl) as Hx.
  unfold operation_is_live at 1 in Hx. rewrite Hs in Hx. cbn in Hx. rewrite Z.sub_0_r in Hx. apply Hx.
  - unfold operation_slot_ok. cbn. rewrite negb_true_iff, Z.eqb_neq. ulia.
  - ulia.
  - apply hint_next.
Qed.

Lemma unpin_row i r ts slot : row_inv i r ts -> dr_state r <> EntryReserved -> (slot < 8)%nat ->
  operation_is_live (operation_at r slot) = true ->
  row_inv i (released_operation r slot) ts /\ held (released_operation r slot) ts = held r ts.
Proof.
  intros H Hst Hlt Hlive. pose proof (rf_ops _ _ (ri_fine _ _ _ H)) as Ho.
  assert (dr_operation_slots r !! slot = Some (operation_at r slot)) as Hl by (apply (nth_some _ _ _ 8); [apply Ho|done]).
  pose proof (proj1 (Forall_lookup _ _) (of_slots _ Ho) _ _ Hl) as [_ Hu]. apply operations_step; [done|done|].
  set (s' := MkOperationSlot _ _).
  pose proof (ops_insert r slot _ s' (dr_next_operation_hint r) Ho Hl) as Hx. rewrite Hlive in Hx.
  assert (operation_is_live s' = false) as E by (subst s'; unfold operation_is_live; cbn; by destruct (_ =? _)).
  rewrite E in Hx. cbn [flag] in Hx. rewrite Z.add_0_r in Hx. apply Hx; [|done|apply Ho].
  subst s'. unfold operation_slot_ok. cbn. destruct (_ =? _) eqn:Eq; by rewrite ?Eq.
Qed.

(** ** Changes of the channels *)

Definition rechannel r queue head count accepted accepted_count hint publishers : ServiceDirectoryRow :=
  with_publishers (with_accepted (with_queue r queue head count) accepted accepted_count hint) publishers.

Lemma rechannel_inv i r ts ts' queue head count accepted accepted_count hint publishers :
  let r' := rechannel r queue head count accepted accepted_count hint publishers in
  row_inv i r ts -> dr_state r <> EntryReserved -> queue_fine r' -> accepted_fine r' -> is_u32 publishers ->
  publishers = sumZ publishes ts' -> sumZ closes ts' = sumZ closes ts ->
  (forall j a, accepted !! j = Some a -> accepted_in_use a = true ->
     flag (ac_release_driver_active a) = sumZ (releases (ac_key a)) ts') ->
  (forall t, t ∈ ts' -> task_fits r' t) -> NoDup (omap connects ts') -> NoDup (omap accepts ts') ->
  Z.of_nat (length ts') < u32_max -> row_inv i r' ts'.
Proof.
  intros r' [[Hu Hs Hk Ho _ _ Hc Hl _] [_ Rc _ _ _ _] _] Hst Hq Ha Hp Hpub Hcl Hrel Hfits H1 H2 Hn. split; [|split|]; try done.
  - split; try done.
    + by destruct Ho.
    + by destruct Hc.
    + unfold life_ok in *. cbn. by destruct (dr_state r).
  - cbn. by rewrite Rc, Hcl.
Qed.

(** The record of an accepted channel was not changed under its task. *)
Record slot_kept r (key : ServiceDirectoryAcceptedChannelKey) a a' : Prop := {
  sk_generation : ak_generation (ac_key a) <= ak_generation (ac_key a');
  sk_old : accepted_in_use a' = true -> ac_key a' = key -> accepted_in_use a = true /\ ac_key a = key /\ ac_state a' = ac_state a;
  sk_new : dr_state r = EntryActive -> accepted_in_use a = true -> ac_key a = key -> accepted_in_use a' = true /\ ac_key a' = key;
}.

Lemma slot_kept_refl r key a : slot_kept r key a a.
Proof. by split. Qed.

(** A task fits a changed row when its record is still there. *)
Lemma fits_rechannel r queue head count accepted accepted_count hint publishers t :
  let r' := rechannel r queue head count accepted accepted_count hint publishers in
  task_fits r t ->
  (forall ch, connects t = Some ch -> dr_state r = EntryActive -> pending r ch -> pending r' ch) ->
  (forall key obj a, t = TAccept key obj -> dr_accepted_channels r !! Z.to_nat (ak_slot key) = Some a ->
     exists a', accepted !! Z.to_nat (ak_slot key) = Some a' /\ slot_kept r key a a') ->
  (forall j a receipt, t = TRelease (ac_key a) receipt -> dr_accepted_channels r !! j = Some a -> ac_release_driver_active a = true ->
     accepted !! j = Some a) ->
  task_fits r' t.
Proof.
  intros r' [E Ht] Hcon Hacc Hrel. split; [done|]. destruct t as [k ch|key obj|key receipt|k o batch]; cbn in *.
  - intros Hact. by apply (Hcon ch eq_refl Hact), Ht.
  - destruct Ht as (H1 & H2 & H3 & a & Ha & Hg & Hp & Hu). refine (conj H1 (conj H2 (conj H3 _))).
    destruct (Hacc _ _ _ eq_refl Ha) as (a' & Ha' & [Hk1 Hk2 Hk3]). exists a'. split_and!; [done|lia| |].
    + intros Hin Hkey. destruct (Hk2 Hin Hkey) as (? & ? & ->). by apply Hp.
    + intros Hact. destruct (Hu Hact). by apply Hk3.
  - destruct Ht as (j & a & Ha & <- & Hs & Hd & Ho). exists j, a. by rewrite (Hrel j a receipt eq_refl Ha Hd).
  - done.
Qed.

Lemma publishes_le ts : sumZ publishes ts <= Z.of_nat (length ts).
Proof. unfold sumZ. induction ts as [|[] ts IH]; cbn [foldr publishes length]; lia. Qed.

Lemma publishers_bound i r ts : row_inv i r ts -> 0 <= dr_external_publishers r <= Z.of_nat (length ts).
Proof. intros [_ [Hp _ _ _ _ _] _]. rewrite Hp. split; [apply publishes_nonneg|apply publishes_le]. Qed.

Lemma omap_app_one {A B} (f : A -> option B) l x : omap f (l ++ [x]) = omap f l ++ match f x with Some y => [y] | None => [] end.
Proof. rewrite omap_app. cbn. by destruct (f x). Qed.

Lemma held_add r ts t : held r (ts ++ [t]) = held r ts ++ task_receipts t.
Proof. unfold held. by rewrite flat_map_app, app_assoc; cbn; rewrite app_nil_r. Qed.

(** Receipts of a row whose queue changed only. *)
Lemma receipts_queue r r' : dr_accepted_channels r' = dr_accepted_channels r -> dr_closing_channels r' = dr_closing_channels r ->
  dr_closing_count r' = dr_closing_count r -> forall gone come,
  map (fun q => ow_owner (qu_owned q)) (queue_list r') ++ gone ≡ₚ map (fun q => ow_owner (qu_owned q)) (queue_list r) ++ come ->
  row_receipts r' ++ gone ≡ₚ row_receipts r ++ come.
Proof.
  intros Ha Hc Hn gone come H. unfold row_receipts. rewrite Ha, Hc, Hn. set (rest := map ac_owner _ ++ _).
  rewrite <- !app_assoc, (Permutation_app_comm rest gone), (Permutation_app_comm rest come), !app_assoc. by rewrite H.
Qed.

Section connect.
Context (i : nat) (r : ServiceDirectoryRow) (ts : list dtask) (Hinv : row_inv i r ts).

(** The pair joins the queue. *)
Lemma enqueue_step owner acceptor : dr_state r = EntryActive -> dr_accept_count r <> 8 ->
  ServiceEndpointOwnerReceiptIsValid owner = true -> acceptor <> 0 -> rc_channel owner ∉ omap connects ts ->
  Z.of_nat (length ts) + 1 < u32_max ->
  let r1 := EnqueueTailLocked r (MkQueued (MkOwned owner acceptor false) (rc_channel owner) QueuedPendingClientPublish) in
  let r' := with_publishers r1 (wrap32 (dr_external_publishers r1 + 1)) in
  let ts' := ts ++ [TConnect (dr_key r) (rc_channel owner)] in
  row_inv i r' ts' /\ held r' ts' ≡ₚ held r ts ++ [owner].
Proof.
  intros Hact Hroom Hv Hacc Hfresh Hn. cbv zeta. set (q := MkQueued _ _ _). set (ts' := ts ++ _).
  pose proof (publishers_bound _ _ _ Hinv) as Hp. destruct Hinv as [Hf Ht Hfew].
  assert (QueuedChannelIsCanonical q = true) as Hcan.
  { unfold QueuedChannelIsCanonical. cbn. rewrite Hv, bool_decide_true, (proj2 (Z.eqb_neq _ _)) by done. done. }
  pose proof (qs_count _ (qf_shape _ (rf_queue _ _ Hf))) as Hcount.
  destruct (queue_fine_tail r q (rf_queue _ _ Hf) ltac:(lia) Hcan ltac:(done)) as [Hq Hl].
  assert (dr_external_publishers (EnqueueTailLocked r q) = dr_external_publishers r) as -> by done.
  rewrite wrap32_small by ulia. set (r' := with_publishers _ _).
  assert (r' = rechannel r (dr_accept_queue (EnqueueTailLocked r q)) (dr_accept_head r) (dr_accept_count r + 1)
                 (dr_accepted_channels r) (dr_accepted_count r) (dr_next_accepted_hint r) (dr_external_publishers r + 1)) as Er
    by (by destruct r).
  assert (queue_list r' = queue_list r ++ [q]) as Hl' by exact Hl.
  split.
  - rewrite Er. apply (rechannel_inv i r ts); try rewrite <- Er.
    + by split.
    + congruence.
    + destruct Hq as [[] ? ?]. by split.
    + destruct (rf_accepted _ _ Hf). by split.
    + ulia.
    + subst ts'. rewrite sumZ_app, (rt_publishers _ _ Ht). done.
    + subst ts'. rewrite sumZ_app. unfold sumZ at 2. cbn. lia.
    + intros j a Hj Hu. rewrite (rt_releases _ _ Ht j a Hj Hu). subst ts'. rewrite sumZ_app. unfold sumZ at 3. cbn. lia.
    + intros t [Hin|Hin%list_elem_of_singleton]%elem_of_app.
      * rewrite Er. apply fits_rechannel; [by apply (rt_fits _ _ Ht)| | |].
        -- intros ch _ _ (x & Hx & H1 & H2). rewrite <- Er. exists x. rewrite Hl'. set_solver.
        -- intros key obj a _ Ha. exists a. split; [done|apply slot_kept_refl].
        -- done.
      * subst t. split; [done|]. intros _. exists q. rewrite Hl'. split; [set_solver|done].
    + subst ts'. rewrite omap_app_one. cbn. apply NoDup_app. split_and!; [apply Ht| |apply NoDup_singleton].
      intros ch Hch ->%list_elem_of_singleton. done.
    + subst ts'. rewrite omap_app_one. cbn. rewrite app_nil_r. apply Ht.
    + subst ts'. rewrite length_app. cbn. lia.
  - subst ts'. rewrite held_add. cbn [task_receipts]. rewrite app_nil_r. unfold held.
    rewrite <- app_assoc, (Permutation_app_comm (flat_map _ _) [owner]), !app_assoc.
    apply Permutation_app_tail. rewrite <- (app_nil_r (row_receipts r')). apply receipts_queue; try done.
    rewrite Hl', map_app. cbn. by rewrite app_nil_r.
Qed.

(** A connect that ends: its task goes, and its record with it, or the record
    becomes ready. *)
Context (l1 l2 : list dtask) (k : ServiceKey) (ch : ServiceEndpointChannelKey) (Ets : ts = l1 ++ TConnect k ch :: l2).

Lemma connect_task : task_fits r (TConnect k ch).
Proof. apply (rt_fits _ _ (ri_tasks _ _ _ Hinv)). rewrite Ets. set_solver. Qed.

Lemma connect_not_reserved : dr_state r <> EntryReserved.
Proof. intros Hr%(reserved_idle i r ts Hinv). rewrite Ets in Hr. by destruct l1. Qed.

Lemma connect_publishers : 0 < dr_external_publishers r <= u32_max.
Proof.
  pose proof (publishers_bound _ _ _ Hinv). pose proof (ri_few _ _ _ Hinv). rewrite (rt_publishers _ _ (ri_tasks _ _ _ Hinv)) in *.
  rewrite Ets in *. rewrite sumZ_app in *. pose proof (publishes_nonneg l1). pose proof (publishes_nonneg l2).
  unfold sumZ in *. cbn [foldr publishes] in *. lia.
Qed.

Lemma connect_others : ch ∉ omap connects (l1 ++ l2) /\ NoDup (omap connects (l1 ++ l2)) /\ NoDup (omap accepts (l1 ++ l2)).
Proof.
  pose proof (rt_connects _ _ (ri_tasks _ _ _ Hinv)) as H1. pose proof (rt_accepts _ _ (ri_tasks _ _ _ Hinv)) as H2.
  rewrite Ets, omap_app in H1. rewrite Ets, omap_app in H2. cbn in H1, H2. rewrite !omap_app. split; [|split; [|done]].
  - apply NoDup_app in H1 as (_ & Hd & [Hn _]%NoDup_cons). intros [Hin|Hin]%elem_of_app; [|done]. apply (Hd ch Hin). set_solver.
  - by rewrite <- Permutation_middle, NoDup_cons in H1; destruct H1.
Qed.

Lemma settle_connect queue head count : queue_fine (with_queue r queue head count) ->
  (forall x, x <> ch -> pending r x -> pending (with_queue r queue head count) x) ->
  row_inv i (with_publishers (with_queue r queue head count) (wrap32 (dr_external_publishers r - 1))) (l1 ++ l2).
Proof.
  intros Hq Hpend. pose proof connect_publishers as Hp. rewrite wrap32_small by ulia.
  destruct connect_others as (Hch & H1 & H2). pose proof connect_not_reserved as Hst. destruct Hinv as [Hf Ht Hfew].
  set (r' := with_publishers _ _).
  assert (r' = rechannel r queue head count (dr_accepted_channels r) (dr_accepted_count r) (dr_next_accepted_hint r)
                 (dr_external_publishers r - 1)) as Er by (by destruct r).
  assert (forall g : dtask -> Z, sumZ g ts = sumZ g (l1 ++ l2) + g (TConnect k ch)) as Hsum.
  { intros g. rewrite Ets, !sumZ_app. unfold sumZ. cbn [foldr]. lia. }
  rewrite Er. apply (rechannel_inv i r ts); try rewrite <- Er; try done.
  - destruct Hq as [[] ? ?]. by split.
  - destruct (rf_accepted _ _ Hf). by split.
  - ulia.
  - rewrite (rt_publishers _ _ Ht), Hsum. cbn. lia.
  - rewrite Hsum. cbn. lia.
  - intros j a Hj Hu. rewrite (rt_releases _ _ Ht j a Hj Hu), Hsum. cbn. lia.
  - intros t Hin. rewrite Er. apply fits_rechannel.
    + apply (rt_fits _ _ Ht). rewrite Ets. set_solver.
    + intros x Hx _ Hpx. rewrite <- Er. apply Hpend; [|done]. intros ->. apply Hch. apply list_elem_of_omap. eauto.
    + intros key obj a _ Ha. exists a. split; [done|apply slot_kept_refl].
    + done.
  - rewrite Ets, length_app in Hfew. rewrite length_app. cbn in Hfew. lia.
Qed.

Lemma pending_removed q r1 x : removed_from r ch q r1 -> x <> ch -> pending r x -> pending r1 x.
Proof.
  intros (Hq & _ & _ & m1 & m2 & Hl & Hl') Hne (y & Hy & Hc & Hs). exists y. rewrite Hl' in *. rewrite Hl in Hy.
  assert (y <> q) by congruence. set_solver.
Qed.

Lemma held_settled r' gone : row_receipts r' ++ gone ≡ₚ row_receipts r -> held r' (l1 ++ l2) ++ gone ≡ₚ held r ts.
Proof.
  intros H. unfold held. rewrite Ets, !flat_map_app. cbn. rewrite <- !app_assoc, (Permutation_app_comm _ gone), !app_assoc.
  rewrite <- H. rewrite <- !app_assoc. apply Permutation_app_head. by rewrite !app_assoc, (Permutation_app_comm gone), <- !app_assoc.
Qed.

Lemma unpublish_step :
  let '(removed, r1) := match RemoveQueuedLocked r ch with Some (q, r1) => (Some q, r1) | None => (None, r) end in
  let r' := with_publishers r1 (wrap32 (dr_external_publishers r1 - 1)) in
  dr_external_publishers r1 <> 0 /\ row_inv i r' (l1 ++ l2) /\ (dr_state r = EntryActive -> removed <> None) /\
  held r' (l1 ++ l2) ++ match removed with Some q => [ow_owner (qu_owned q)] | None => [] end ≡ₚ held r ts.
Proof.
  pose proof connect_publishers as Hp. pose proof (remove_queued r ch (rf_queue _ _ (ri_fine _ _ _ Hinv))) as Hr.
  destruct (RemoveQueuedLocked r ch) as [[q r1]|].
  - pose proof (fun x => pending_removed q r1 x Hr) as Hpend. destruct Hr as (Hq & Hf & (qu & hd & n & ->) & m1 & m2 & Hl & Hl').
    split_and!; [cbn; lia|by apply settle_connect|done|]. apply held_settled. rewrite <- (app_nil_r (row_receipts r)).
    apply receipts_queue; try done. change (queue_list (with_publishers ?x _)) with (queue_list x). rewrite Hl, Hl', !map_app, app_nil_r. cbn.
    by rewrite <- Permutation_cons_append, Permutation_middle.
  - split_and!; [lia| | |].
    + assert (r = with_queue r (dr_accept_queue r) (dr_accept_head r) (dr_accept_count r)) as Er by (by destruct r).
      rewrite Er at 1. apply settle_connect; rewrite <- Er; [apply Hinv|done].
    + intros Hact _. destruct connect_task as [_ Hc]. destruct (Hc Hact) as (y & Hy & Hy' & _).
      by apply (proj1 (Forall_forall _ _) Hr y Hy).
    + apply held_settled. by rewrite app_nil_r.
Qed.

(** The row after the last section of a connect, before its publisher is
    counted out. *)
Definition connect_row (activation_status : ServiceEndpointStatus)
    : bool * option ServiceDirectoryQueuedChannel * ServiceDirectoryRow :=
  match (if bool_decide (activation_status = EpOk) && bool_decide (dr_state r = EntryActive)
         then ready_scan (Z.to_nat (dr_accept_count r)) r ch 0 else None) with
  | Some r1 => (true, None, r1)
  | None =>
      match (if bool_decide (dr_state r = EntryActive) then RemoveQueuedLocked r ch else None) with
      | Some (q, r1) => (false, Some q, r1)
      | None => (false, None, r)
      end
  end.

Lemma connect_finish_step activation_status :
  let '(ready_committed, removed, r1) := connect_row activation_status in
  let r' := with_publishers r1 (wrap32 (dr_external_publishers r1 - 1)) in
  dr_external_publishers r1 <> 0 /\ row_inv i r' (l1 ++ l2) /\
  (dr_state r = EntryActive -> ready_committed = bool_decide (activation_status = EpOk)) /\
  (ready_committed = true -> dr_state r = EntryActive) /\
  (dr_state r = EntryActive -> ready_committed = false -> removed <> None) /\
  held r' (l1 ++ l2) ++ match removed with Some q => [ow_owner (qu_owned q)] | None => [] end ≡ₚ held r ts.
Proof.
  pose proof connect_publishers as Hp. pose proof unpublish_step as Hun. unfold connect_row.
  pose proof (ready_queued r ch (rf_queue _ _ (ri_fine _ _ _ Hinv))) as Hr. destruct connect_task as [_ Hc].
  destruct (decide (dr_state r = EntryActive)) as [Hact|Hact].
  - rewrite (bool_decide_true (dr_state r = EntryActive)) by done. rewrite andb_true_r.
    destruct (bool_decide (activation_status = EpOk)) eqn:Ea.
    + destruct (ready_scan _ r ch 0) as [r1|].
      2: { exfalso. destruct (Hc Hact) as (y & Hy & Hy1 & Hy2). by apply (proj1 (Forall_forall _ _) Hr y Hy). }
      destruct Hr as (Hf & (qu & ->) & m1 & q & m2 & Hl & Hl' & Hq1 & Hq2).
      split_and!; try done; [cbn; lia| |].
      * apply settle_connect; [done|]. intros x Hne (y & Hy & Hy1 & Hy2). exists y. rewrite Hl'. rewrite Hl in Hy.
        assert (y <> q) by congruence. set_solver.
      * apply held_settled. rewrite app_nil_r. rewrite <- (app_nil_r (row_receipts _)), <- (app_nil_r (row_receipts r)).
        apply receipts_queue; try done. change (queue_list (with_publishers ?x _)) with (queue_list x). by rewrite Hl, Hl', !map_app.
    + destruct (RemoveQueuedLocked r ch) as [[q r1]|]; destruct Hun as (H1 & H2 & H3 & H4); split_and!; try done; naive_solver.
  - rewrite (bool_decide_false (dr_state r = EntryActive)) by done. rewrite andb_false_r.
    split_and!; try done; [lia| |].
    + assert (r = with_queue r (dr_accept_queue r) (dr_accept_head r) (dr_accept_count r)) as Er by (by destruct r).
      rewrite Er at 1. apply settle_connect; rewrite <- Er; [apply Hinv|done].
    + apply held_settled. by rewrite app_nil_r.
Qed.

End connect.

(** ** Accepting *)

Lemma requeue_inv i r ts queue head count : row_inv i r ts -> dr_state r <> EntryReserved ->
  queue_fine (with_queue r queue head count) -> queue_list (with_queue r queue head count) = queue_list r ->
  row_inv i (with_queue r queue head count) ts /\ held (with_queue r queue head count) ts = held r ts.
Proof.
  intros [Hf Ht Hn] Hst Hq Hl. assert (same_channels r (with_queue r queue head count)) as Hs by (by split).
  split; [|by apply same_channels_held]. split; [|by eapply same_channels_tasks; [|left|]|done].
  destruct Hf as [? ? ? Ho _ Ha Hc Hlife ?]. split; try done.
  - by destruct Ho.
  - by destruct Ha.
  - by destruct Hc.
  - unfold life_ok in *. cbn. by destruct (dr_state r).
Qed.

Lemma dequeue_parts r : exists queue head, (DequeueLocked r).2 = with_queue r queue head (dr_accept_count r - 1).
Proof. by do 2 eexists. Qed.

(** A task of the row still fits when the accepted record [j] and the queue
    change. *)
Definition fits_still r r' j a a' t : Prop :=
  match t with
  | TConnect _ ch => dr_state r = EntryActive -> pending r ch -> pending r' ch
  | TAccept key _ => Z.to_nat (ak_slot key) = j -> slot_kept r key a a'
  | TRelease key _ => key <> ac_key a
  | TClose _ _ _ => True
  end.

Lemma key_of_other_slot i r ts j l a b : row_inv i r ts -> dr_accepted_channels r !! j = Some a -> dr_accepted_channels r !! l = Some b ->
  j <> l -> accepted_in_use b = true -> ac_key b <> ac_key a.
Proof.
  intros Hinv Ha Hb Hne Hub E. pose proof (rf_accepted _ _ (ri_fine _ _ _ Hinv)) as Hf.
  destruct (af_slots _ Hf l b Hb) as [Hokb _]. apply (in_use_accepted _ _ _ Hub) in Hokb. destruct (af_slots _ Hf j a Ha) as [Hoka _].
  destruct (accepted_in_use a) eqn:Hua.
  - apply (in_use_accepted _ _ _ Hua) in Hoka. pose proof (iu_slot _ _ _ Hoka). pose proof (iu_slot _ _ _ Hokb). rewrite E in *. lia.
  - pose proof (iu_key _ _ _ Hokb) as Hv. rewrite E in Hv. unfold accepted_ok in Hoka. rewrite Hua in Hoka. cbn [negb] in Hoka.
    rewrite !andb_true_iff in Hoka. destruct Hoka as ((((((Hin & _) & _) & _) & _) & _) & _). unfold AcceptedKeyIsInactive in Hin.
    unfold ServiceDirectoryAcceptedChannelKeyIsValid in Hv. rewrite !andb_true_iff in Hv. destruct Hv as (((Hv & _) & _) & _).
    by rewrite Hv in Hin.
Qed.

Lemma reaccept_inv i r ts ts' j a a' queue head count accepted_count hint publishers :
  let r' := rechannel r queue head count (<[j := a']> (dr_accepted_channels r)) accepted_count hint publishers in
  row_inv i r ts -> dr_state r <> EntryReserved -> dr_accepted_channels r !! j = Some a -> queue_fine r' ->
  accepted_ok (dr_key r) j a' = true -> is_u32 (ak_generation (ac_key a')) -> 0 <= hint < 8 ->
  accepted_count = dr_accepted_count r - flag (accepted_in_use a) + flag (accepted_in_use a') ->
  is_u32 publishers -> publishers = sumZ publishes ts' -> sumZ closes ts' = sumZ closes ts ->
  (accepted_in_use a' = true -> flag (ac_release_driver_active a') = sumZ (releases (ac_key a')) ts') ->
  (forall key, key <> ac_key a -> accepted_in_use a' = false \/ key <> ac_key a' -> sumZ (releases key) ts' = sumZ (releases key) ts) ->
  (forall t, t ∈ ts' -> (t ∈ ts /\ fits_still r r' j a a' t) \/ task_fits r' t) ->
  NoDup (omap connects ts') -> NoDup (omap accepts ts') -> Z.of_nat (length ts') < u32_max -> row_inv i r' ts'.
Proof.
  intros r' Hinv Hst Ha Hq Hok Hu Hh Hn Hp Hpub Hcl Hmine Hothers Hfits H1 H2 Hfew. pose proof (ri_fine _ _ _ Hinv) as Hf.
  pose proof (ri_tasks _ _ _ Hinv) as Ht.
  assert (accepted_fine r') as Hacc by (destruct (accepted_insert r j a a' accepted_count hint (rf_accepted _ _ Hf) Ha Hok Hu Hh Hn); by split).
  apply (rechannel_inv i r ts); try done.
  - intros l b Hl Hub. apply lookup_insert_cases in Hl as [[-> ->]|[Hne Hb]]; [by apply Hmine|].
    rewrite Hothers; [by apply (rt_releases _ _ Ht l)|by eapply (key_of_other_slot i r ts j l)|].
    destruct (accepted_in_use a') eqn:Hua; [right|by left]. intros E. pose proof (af_slots _ Hacc j a') as [Hokj _].
    { subst r'. cbn. by rewrite list_lookup_insert_eq by (by eapply lookup_lt_Some). }
    apply (in_use_accepted _ _ _ Hua) in Hokj. pose proof (iu_slot _ _ _ Hokj) as Hsj. rewrite <- E in Hsj.
    destruct (af_slots _ (rf_accepted _ _ Hf) l b Hb) as [Hokb _]. apply (in_use_accepted _ _ _ Hub) in Hokb.
    pose proof (iu_slot _ _ _ Hokb). lia.
  - intros t Hin. destruct (Hfits t Hin) as [[Hold Hstill]|Hnew]; [|done]. apply fits_rechannel; [by apply (rt_fits _ _ Ht)| | |].
    + intros ch Hc. destruct t; try done. injection Hc as ->. by apply Hstill.
    + intros key obj b -> Hb. destruct (decide (Z.to_nat (ak_slot key) = j)) as [Ej|Hne].
      * rewrite Ej, Ha in Hb. injection Hb as <-. exists a'. rewrite Ej, list_lookup_insert_eq by (by eapply lookup_lt_Some). split; [done|by apply Hstill].
      * exists b. rewrite list_lookup_insert_ne by done. split; [done|apply slot_kept_refl].
    + intros l b receipt -> Hb _. rewrite list_lookup_insert_ne; [done|]. intros <-. rewrite Ha in Hb. injection Hb as <-. by cbn in Hstill.
Qed.

(** Receipts of a row whose accepted record [j] changed, and maybe its queue. *)
Lemma receipts_accepted r r' j a a' gone come : dr_closing_channels r' = dr_closing_channels r ->
  dr_closing_count r' = dr_closing_count r -> dr_accepted_channels r !! j = Some a ->
  dr_accepted_channels r' = <[j := a']> (dr_accepted_channels r) ->
  map (fun q => ow_owner (qu_owned q)) (queue_list r') ++ (if accepted_in_use a' then [ac_owner a'] else []) ++ gone ≡ₚ
  map (fun q => ow_owner (qu_owned q)) (queue_list r) ++ (if accepted_in_use a then [ac_owner a] else []) ++ come ->
  row_receipts r' ++ gone ≡ₚ row_receipts r ++ come.
Proof.
  intros Hc Hn Hj Ha H. unfold row_receipts. rewrite Ha, Hc, Hn.
  pose proof (filter_insert_perm accepted_in_use ac_owner _ j a a' Hj) as Hp.
  set (rest := map ow_owner _). set (mine := if accepted_in_use a then _ else _) in *. set (new := if accepted_in_use a' then _ else _) in *.
  set (qs := map _ (queue_list r)) in *. set (qs' := map _ (queue_list r')) in *.
  set (l := map ac_owner (List.filter _ (dr_accepted_channels r))) in *. set (l' := map ac_owner _) in *.
  permute.
Qed.

Section accept.
Context (i : nat) (r : ServiceDirectoryRow) (ts : list dtask) (Hinv : row_inv i r ts).

Lemma accept_task_slot key obj : TAccept key obj ∈ ts ->
  exists a, dr_accepted_channels r !! Z.to_nat (ak_slot key) = Some a /\ ak_generation key <= ak_generation (ac_key a) /\ 0 <= ak_slot key < 8.
Proof.
  intros Hin. destruct (rt_fits _ _ (ri_tasks _ _ _ Hinv) _ Hin) as [_ (_ & Hs & _ & a & Ha & Hg & _)]. by exists a.
Qed.

Lemma release_task_slot key receipt : TRelease key receipt ∈ ts ->
  exists a, dr_accepted_channels r !! Z.to_nat (ak_slot key) = Some a /\ ac_key a = key /\ ac_state a = AcceptedReleasing /\
    ac_release_driver_active a = true /\ ac_owner a = receipt /\ in_use_ok (dr_key r) (Z.to_nat (ak_slot key)) a.
Proof.
  intros Hin. destruct (rt_fits _ _ (ri_tasks _ _ _ Hinv) _ Hin) as [_ (j & a & Ha & Hk & Hs & Hd & Ho)].
  pose proof (af_slots _ (rf_accepted _ _ (ri_fine _ _ _ Hinv)) j a Ha) as [Hok _].
  assert (accepted_in_use a = true) as Hu by (unfold accepted_in_use; by rewrite Hs).
  apply (in_use_accepted _ _ _ Hu) in Hok. pose proof (iu_slot _ _ _ Hok) as Hslot. rewrite Hk in Hslot.
  exists a. rewrite Hslot, Nat2Z.id. done.
Qed.

(** A record without a release driver has no release under way. *)
Lemma not_released j a : dr_accepted_channels r !! j = Some a -> ac_release_driver_active a = false ->
  forall receipt, TRelease (ac_key a) receipt ∉ ts.
Proof.
  intros Ha Hd receipt Hin. destruct (release_task_slot _ _ Hin) as (c & Hc & Hk & Hs & Hdc & _).
  assert (accepted_in_use c = true) as Hu by (unfold accepted_in_use; by rewrite Hs).
  destruct (decide (j = Z.to_nat (ak_slot (ac_key a)))) as [->|Hne]; [|by apply (key_of_other_slot i r ts j _ a c Hinv Ha Hc)].
  rewrite Ha in Hc. injection Hc as <-. congruence.
Qed.

Lemma releases_none key : (forall receipt, TRelease key receipt ∉ ts) -> sumZ (releases key) ts = 0.
Proof.
  intros H. apply sumZ_zero. intros t Ht. destruct t; cbn; try done. rewrite bool_decide_false; [done|]. intros ->. by eapply H.
Qed.

Lemma free_slot_idle j a : dr_accepted_channels r !! j = Some a -> accepted_in_use a = false -> ac_release_driver_active a = false.
Proof.
  intros Ha Hu. destruct (af_slots _ (rf_accepted _ _ (ri_fine _ _ _ Hinv)) j a Ha) as [Hok _]. unfold accepted_ok in Hok.
  rewrite Hu in Hok. cbn [negb] in Hok. rewrite !andb_true_iff, !negb_true_iff in Hok. tauto.
Qed.

(** A key of a later generation than its record's is of no task. *)
Lemma later_key_unused key j a : dr_accepted_channels r !! j = Some a -> ak_slot key = Z.of_nat j ->
  ak_generation (ac_key a) < ak_generation key ->
  (forall obj, TAccept key obj ∉ ts) /\ (forall receipt, TRelease key receipt ∉ ts).
Proof.
  intros Ha Hs Hg. split.
  - intros obj Hin. destruct (accept_task_slot key obj Hin) as (b & Hb & Hle & _). rewrite Hs, Nat2Z.id, Ha in Hb.
    injection Hb as <-. lia.
  - intros receipt Hin. destruct (release_task_slot key receipt Hin) as (b & Hb & Hk & _). rewrite Hs, Nat2Z.id, Ha in Hb.
    injection Hb as <-. rewrite Hk in Hg. lia.
Qed.

Lemma accept_key_valid slot generation channel : (slot < 8)%nat -> 0 < generation ->
  ServiceEndpointChannelKeyIsValid channel = true ->
  ServiceDirectoryAcceptedChannelKeyIsValid (MkAcceptedKey (dr_key r) (Z.of_nat slot) generation channel) = true.
Proof.
  intros Hs Hg Hc. unfold ServiceDirectoryAcceptedChannelKeyIsValid, kServiceDirectoryAcceptedCapacity. cbn.
  pose proof (rf_static _ _ (ri_fine _ _ _ Hinv)) as Hst. unfold static_ok in Hst. rewrite !andb_true_iff in Hst.
  destruct Hst as (((_ & Hk) & _) & _). rewrite Hk, Hc, (proj2 (Z.eqb_neq _ _)) by lia.
  rewrite (proj2 (Z.ltb_lt _ _)) by lia. done.
Qed.

(** What a queued record that is not empty has. *)
Lemma queued_parts q : q ∈ queue_list r ->
  ServiceEndpointOwnerReceiptIsValid (ow_owner (qu_owned q)) = true /\ ow_acceptor (qu_owned q) <> 0 /\
  ow_release_driver_active (qu_owned q) = false /\ qu_channel q = rc_channel (ow_owner (qu_owned q)) /\
  ServiceEndpointChannelKeyIsValid (qu_channel q) = true.
Proof.
  intros Hin. pose proof (rf_queue _ _ (ri_fine _ _ _ Hinv)) as Hq. pose proof (queue_member_canonical r q Hq Hin) as Hc.
  pose proof (proj1 (Forall_forall _ _) (qf_list _ Hq) q Hin) as Hne. unfold QueuedChannelIsCanonical in Hc.
  assert (ServiceEndpointOwnerReceiptIsValid (ow_owner (qu_owned q)) && negb (ow_acceptor (qu_owned q) =? 0)
    && negb (ow_release_driver_active (qu_owned q)) && bool_decide (qu_channel q = rc_channel (ow_owner (qu_owned q))) = true) as H
    by (cbn beta in Hne; revert Hc Hne; destruct (qu_state q); done).
  rewrite !andb_true_iff, !negb_true_iff, Z.eqb_neq, bool_decide_eq_true in H. destruct H as (((H1 & H2) & H3) & H4).
  split_and!; try done. rewrite H4. unfold ServiceEndpointOwnerReceiptIsValid in H1. by apply andb_true_iff in H1 as [_ H1].
Qed.

(** The first record [q] of the queue becomes the accepted record [j]. *)
Definition claimed_key q (j : nat) (old : ServiceDirectoryAcceptedChannel) : ServiceDirectoryAcceptedChannelKey :=
  MkAcceptedKey (dr_key r) (Z.of_nat j) (ak_generation (ac_key old) + 1) (qu_channel q).
Definition claimed q j old process : ServiceDirectoryAcceptedChannel :=
  MkAccepted (claimed_key q j old) (ow_owner (qu_owned q)) process kHandleInvalid false false AcceptedPublishing.

Section claim.
Context (q : ServiceDirectoryQueuedChannel) (queue : list ServiceDirectoryQueuedChannel) (head : Z) (j : nat)
  (old : ServiceDirectoryAcceptedChannel) (process : ProcessKey).
Let count := dr_accept_count r - 1.
Let key := claimed_key q j old.
Let a' := claimed q j old process.
Let r' := rechannel r queue head count (<[j := a']> (dr_accepted_channels r)) (dr_accepted_count r + 1)
            ((Z.of_nat j + 1) mod 8) (dr_external_publishers r + 1).
Let ts' := ts ++ [TAccept key (ow_acceptor (qu_owned q))].
Context (Hact : dr_state r = EntryActive) (Hl : queue_list r = q :: queue_list r') (Hq : queue_fine r')
  (Hready : qu_state q = QueuedReady) (Hold : dr_accepted_channels r !! j = Some old) (Hfree : accepted_in_use old = false)
  (Hgen : ak_generation (ac_key old) < u32_max) (Hproc : ProcessKeyIsValid process = true)
  (Hfew : Z.of_nat (length ts) + 1 < u32_max).

Lemma claim_record : (j < 8)%nat /\ is_u32 (ak_generation key) /\ in_use_ok (dr_key r) j a'.
Proof.
  destruct (queued_parts q) as (Hv & Hobj & _ & Hqc & Hch); [rewrite Hl; apply list_elem_of_here|].
  destruct (af_slots _ (rf_accepted _ _ (ri_fine _ _ _ Hinv)) j old Hold) as [_ Hu].
  assert (j < 8)%nat as Hj by (rewrite <- (af_length _ (rf_accepted _ _ (ri_fine _ _ _ Hinv))); by eapply lookup_lt_Some).
  split_and!; [done|cbn; ulia|]. split; try done. apply accept_key_valid; [done|ulia|done].
Qed.

Lemma claim_fits t : t ∈ ts' -> (t ∈ ts /\ fits_still r r' j old a' t) \/ task_fits r' t.
Proof.
  destruct claim_record as (Hj & Hu & Hiu). destruct (later_key_unused key j old Hold eq_refl ltac:(cbn; lia)) as [Hnoacc _].
  intros [Hin|Hin%list_elem_of_singleton]%elem_of_app; [left; split; [done|]|right].
  - destruct t as [? ch|key' obj|key' receipt|]; cbn; try done.
    + intros _ (x & Hx & H1 & H2). exists x. rewrite Hl in Hx. assert (x <> q) by congruence. set_solver.
    + intros Ej. split; [cbn; lia| |congruence]. intros _ E. exfalso. change (key = key') in E. subst key'. by apply (Hnoacc obj).
    + intros ->. by apply (not_released j old Hold (free_slot_idle j old Hold Hfree) receipt).
  - subst t. split; [done|]. destruct (queued_parts q) as (_ & Hobj & _); [rewrite Hl; apply list_elem_of_here|].
    refine (conj Hobj (conj (conj (Zle_0_nat j) _) (conj (iu_key _ _ _ Hiu) (ex_intro _ a' _)))); [cbn; lia|].
    change (ak_slot key) with (Z.of_nat j). rewrite Nat2Z.id. change (dr_accepted_channels r') with (<[j := a']> (dr_accepted_channels r)).
    rewrite list_lookup_insert_eq by (by eapply lookup_lt_Some). by split_and!.
Qed.

Lemma claim_inv : row_inv i r' ts' /\ held r' ts' ≡ₚ held r ts.
Proof.
  destruct claim_record as (Hj & Hu & Hiu). pose proof (publishers_bound _ _ _ Hinv) as Hp. pose proof (ri_tasks _ _ _ Hinv) as Ht.
  destruct (later_key_unused key j old Hold eq_refl ltac:(cbn; lia)) as [Hnoacc Hnorel].
  assert (forall g : dtask -> Z, sumZ g ts' = sumZ g ts + g (TAccept key (ow_acceptor (qu_owned q)))) as Hsum.
  { intros g. unfold ts'. rewrite sumZ_app. unfold sumZ at 2. cbn. lia. }
  split.
  - apply (reaccept_inv i r ts ts' j old a'); try done.
    + congruence.
    + by apply in_use_accepted.
    + apply hint_next.
    + rewrite Hfree. cbn. lia.
    + ulia.
    + rewrite (rt_publishers _ _ Ht), Hsum. done.
    + rewrite Hsum. cbn. lia.
    + rewrite Hsum. cbn. by rewrite releases_none.
    + intros x _ _. rewrite Hsum. cbn. lia.
    + exact claim_fits.
    + unfold ts'. rewrite omap_app_one. cbn. rewrite app_nil_r. apply Ht.
    + unfold ts'. rewrite omap_app_one. cbn. apply NoDup_app. split_and!; [apply Ht| |apply NoDup_singleton].
      intros x Hx ->%list_elem_of_singleton. apply list_elem_of_omap in Hx as ([] & Htin & Hacc); try done.
      injection Hacc as ->. by eapply Hnoacc.
    + unfold ts'. rewrite length_app. cbn. lia.
  - unfold ts'. rewrite held_add. cbn [task_receipts]. rewrite app_nil_r. unfold held. apply Permutation_app_tail.
    rewrite <- (app_nil_r (row_receipts r')), <- (app_nil_r (row_receipts r)).
    eapply (receipts_accepted r r' j old a'); try done. rewrite Hl, Hfree. cbn. rewrite !app_nil_r. by rewrite <- Permutation_cons_append.
Qed.

End claim.

Lemma claim_step process :
  dr_state r = EntryActive -> 0 < dr_accept_count r -> head_is_ready r = true -> ProcessKeyIsValid process = true ->
  Z.of_nat (length ts) + 1 < u32_max ->
  let '(q, r1) := DequeueLocked r in
  match AllocateAcceptedLocked r1 (qu_channel q) process with
  | None => row_inv i (EnqueueFrontLocked r1 q) ts /\ held (EnqueueFrontLocked r1 q) ts = held r ts
  | Some (j, a, r2) =>
      let a' := MkAccepted (ac_key a) (ow_owner (qu_owned q)) (ac_server_process a) (ac_server_handle a)
                  (ac_process_teardown_deferred a) (ac_release_driver_active a) (ac_state a) in
      let r3 := put_accepted r2 j a' (dr_accepted_count r2) in
      let r' := with_publishers r3 (wrap32 (dr_external_publishers r3 + 1)) in
      let ts' := ts ++ [TAccept (ac_key a') (ow_acceptor (qu_owned q))] in
      row_inv i r' ts' /\ held r' ts' ≡ₚ held r ts /\ ak_service (ac_key a') = dr_key r
  end.
Proof.
  intros Hact Hcount Hhead Hproc Hn. pose proof (publishers_bound _ _ _ Hinv) as Hp. pose proof (ri_fine _ _ _ Hinv) as Hf.
  destruct (queue_fine_dequeue r (rf_queue _ _ Hf) Hcount) as [Hq Hl]. destruct (dequeue_parts r) as (queue & head & Er1).
  assert ((DequeueLocked r).1 = queued_at r (Z.to_nat (dr_accept_head r))) as Eq by done.
  destruct (DequeueLocked r) as [q r1]. cbn [fst snd] in *. subst r1.
  pose proof (qs_count _ (qf_shape _ (rf_queue _ _ Hf))) as Hcb. set (r1 := with_queue r queue head (dr_accept_count r - 1)) in *.
  assert (qu_state q = QueuedReady) as Hready
    by (unfold head_is_ready in Hhead; rewrite <- Eq in Hhead; by apply bool_decide_eq_true in Hhead).
  pose proof (allocate_accepted r1 (qu_channel q) process ltac:(destruct (rf_accepted _ _ Hf); by split)) as Hall.
  destruct (AllocateAcceptedLocked r1 (qu_channel q) process) as [[[j a] r2]|].
  - destruct Hall as (old & Hold & Hfree & Hgen & -> & ->).
    destruct (claim_inv q queue head j old process Hact Hl) as [Hi Hh]; try done; [destruct Hq as [[] ? ?]; by split|].
    cbv zeta. cbn [ac_key ac_owner ac_server_process ac_server_handle ac_process_teardown_deferred ac_release_driver_active ac_state].
    set (r3 := put_accepted _ _ _ _). assert (dr_external_publishers r3 = dr_external_publishers r) as -> by done.
    rewrite wrap32_small by ulia. unfold r3, put_accepted. cbn [dr_accepted_channels with_accepted dr_next_accepted_hint].
    rewrite list_insert_insert_eq. by split_and!.
  - destruct (queue_fine_front r1 q Hq ltac:(cbn; lia)) as [Hqf Hlf]; [|congruence|].
    { apply (queue_member_canonical r q (rf_queue _ _ Hf)). rewrite Hl. apply list_elem_of_here. }
    unfold EnqueueFrontLocked in *. subst r1. cbn in Hqf, Hlf |- *. apply (requeue_inv i r ts _ _ _ Hinv); [congruence|done|by rewrite Hl].
Qed.

End accept.

(** ** The end of an accept *)

Lemma sumZ_without (g : dtask -> Z) l1 t l2 : sumZ g (l1 ++ t :: l2) = sumZ g (l1 ++ l2) + g t.
Proof. rewrite !sumZ_app. unfold sumZ. cbn [foldr]. lia. Qed.

Lemma omap_without {B} (g : dtask -> option B) l1 t l2 : NoDup (omap g (l1 ++ t :: l2)) ->
  NoDup (omap g (l1 ++ l2)) /\ forall x, g t = Some x -> x ∉ omap g (l1 ++ l2).
Proof.
  rewrite !omap_app. cbn. destruct (g t) as [x|]; [|by intros H; split]. rewrite <- Permutation_middle, NoDup_cons. intros [Hx H].
  split; [done|]. by intros y [= <-].
Qed.

Lemma held_without r r' l1 t l2 gone come : task_receipts t = [] -> row_receipts r' ++ gone ≡ₚ row_receipts r ++ come ->
  held r' (l1 ++ l2) ++ gone ≡ₚ held r (l1 ++ t :: l2) ++ come.
Proof. intros Ht H. unfold held. rewrite !flat_map_app. cbn. rewrite Ht. permute. Qed.

Section accept_end.
Context (i : nat) (r : ServiceDirectoryRow) (l1 l2 : list dtask) (key : ServiceDirectoryAcceptedChannelKey) (obj : Z).
Context (Hinv : row_inv i r (l1 ++ TAccept key obj :: l2)).

Let ts := l1 ++ TAccept key obj :: l2.
Let Ht := ri_tasks _ _ _ Hinv.

Lemma accept_end_member t : t ∈ l1 ++ l2 -> t ∈ ts.
Proof. unfold ts. set_solver. Qed.

Lemma accept_end_fits : task_fits r (TAccept key obj).
Proof. apply (rt_fits _ _ Ht). set_solver. Qed.

Lemma accept_end_publishers : 0 < dr_external_publishers r <= u32_max /\ dr_external_publishers r - 1 = sumZ publishes (l1 ++ l2).
Proof.
  pose proof (publishers_bound _ _ _ Hinv). pose proof (ri_few _ _ _ Hinv). pose proof (publishes_nonneg (l1 ++ l2)).
  rewrite (rt_publishers _ _ Ht), sumZ_without in *. cbn in *. lia.
Qed.

Lemma accept_end_state : dr_state r <> EntryReserved.
Proof. intros Hr%(reserved_idle i r _ Hinv). by destruct l1. Qed.

Lemma accept_end_few : Z.of_nat (length (l1 ++ l2)) < u32_max.
Proof. pose proof (ri_few _ _ _ Hinv) as H. rewrite length_app in *. cbn in H. lia. Qed.

(** The task ends and the row keeps its channels. *)
Lemma accept_end_same : row_inv i (with_publishers r (wrap32 (dr_external_publishers r - 1))) (l1 ++ l2).
Proof.
  destruct accept_end_publishers as [Hp Hpub]. rewrite wrap32_small by ulia. set (r' := with_publishers _ _).
  assert (r' = rechannel r (dr_accept_queue r) (dr_accept_head r) (dr_accept_count r) (dr_accepted_channels r) (dr_accepted_count r)
                 (dr_next_accepted_hint r) (dr_external_publishers r - 1)) as Er by (clear Hinv Ht ts; by destruct r).
  destruct (omap_without connects _ _ _ (rt_connects _ _ Ht)) as [H1 _]. destruct (omap_without accepts _ _ _ (rt_accepts _ _ Ht)) as [H2 _].
  rewrite Er. apply (rechannel_inv i r ts); try rewrite <- Er; try done.
  - exact accept_end_state.
  - destruct (rf_queue _ _ (ri_fine _ _ _ Hinv)) as [[] ? ?]. by split.
  - destruct (rf_accepted _ _ (ri_fine _ _ _ Hinv)). by split.
  - ulia.
  - unfold ts. rewrite sumZ_without. cbn. lia.
  - intros j a Hj Hu. rewrite (rt_releases _ _ Ht j a Hj Hu), sumZ_without. cbn. lia.
  - intros t Hin. rewrite Er. apply fits_rechannel; [apply (rt_fits _ _ Ht); by apply accept_end_member| | |done].
    + intros ch _ _ Hpe. exact Hpe.
    + intros key' obj' a _ Ha. exists a. split; [done|apply slot_kept_refl].
  - exact accept_end_few.
Qed.

(** The task ends with its record changed to [a'], which no other task is
    about, and maybe a record put in the queue. *)
Lemma accept_end_change j a a' queue head count acount : dr_accepted_channels r !! j = Some a ->
  accepted_in_use a = true -> ac_key a = key -> ac_release_driver_active a = false -> ac_release_driver_active a' = false ->
  accepted_ok (dr_key r) j a' = true -> ak_generation (ac_key a') = ak_generation key -> (accepted_in_use a' = true -> ac_key a' = key) ->
  acount = dr_accepted_count r - 1 + flag (accepted_in_use a') ->
  let r' := with_publishers (with_accepted (with_queue r queue head count) (<[j := a']> (dr_accepted_channels r)) acount
              (dr_next_accepted_hint r)) (wrap32 (dr_external_publishers r - 1)) in
  queue_fine r' -> (forall ch, pending r ch -> pending r' ch) -> row_inv i r' (l1 ++ l2).
Proof.
  intros Ha Hu Hk Hd Hd' Hok Hgen Hkey Hcount r' Hq Hpend. unfold r' in *. destruct accept_end_publishers as [Hp Hpub].
  rewrite wrap32_small in * by ulia. destruct (omap_without connects _ _ _ (rt_connects _ _ Ht)) as [H1 _].
  destruct (omap_without accepts _ _ _ (rt_accepts _ _ Ht)) as [H2 Hno]. specialize (Hno key eq_refl).
  destruct (af_slots _ (rf_accepted _ _ (ri_fine _ _ _ Hinv)) j a Ha) as [Hoka Hu32].
  assert (forall x, sumZ (releases x) (l1 ++ l2) = sumZ (releases x) ts) as Hrel by (intros x; unfold ts; rewrite sumZ_without; cbn; lia).
  apply (reaccept_inv i r ts (l1 ++ l2) j a a'); try done.
  - exact accept_end_state.
  - by rewrite Hgen, <- Hk.
  - apply (rf_accepted _ _ (ri_fine _ _ _ Hinv)).
  - rewrite Hu. cbn. lia.
  - ulia.
  - unfold ts. rewrite sumZ_without. cbn. lia.
  - intros Hu'. rewrite Hd', (Hkey Hu'), Hrel, <- Hk. unfold ts. rewrite <- (rt_releases _ _ Ht j a Ha Hu). by rewrite Hd.
  - intros t Hin. left. split; [by apply accept_end_member|]. destruct t as [? ch|key' obj'|key' receipt|]; cbn; try done.
    + intros _. apply Hpend.
    + intros Ej. assert (key' <> key) as Hne by (intros ->; apply Hno, list_elem_of_omap; by exists (TAccept key obj')).
      split; [by rewrite Hgen, Hk| |congruence]. intros Hu' E. exfalso. apply Hne. rewrite <- E. by apply Hkey.
    + intros ->. by apply (not_released i r ts Hinv j a Ha Hd receipt), accept_end_member.
  - exact accept_end_few.
Qed.

Lemma accept_finish_step published :
  (forall handle, published = Some handle -> handle <> kHandleInvalid) ->
  (published = None -> dr_state r = EntryActive -> dr_accept_count r < 8) ->
  let '(committed, restored, r1) := accept_commit r key obj published in
  let r' := with_publishers r1 (wrap32 (dr_external_publishers r1 - 1)) in
  dr_external_publishers r1 <> 0 /\ row_inv i r' (l1 ++ l2) /\ held r' (l1 ++ l2) ≡ₚ held r ts /\
  (dr_state r = EntryActive -> committed = bool_decide (is_Some published) /\ restored = negb committed) /\
  (committed = true \/ restored = true -> dr_state r = EntryActive).
Proof.
  intros Hhandle Hroom. destruct accept_end_publishers as [Hp Hpub]. destruct accept_end_fits as [_ (Hobj & Hslot & Hkv & b & Hb & _ & Hpb & Hab)].
  pose proof (rf_accepted _ _ (ri_fine _ _ _ Hinv)) as Hacc. pose proof (resolve_accepted r key) as Hres. unfold accept_commit.
  assert (forall r', row_receipts r' ≡ₚ row_receipts r -> held r' (l1 ++ l2) ≡ₚ held r ts) as Hheld.
  { intros r' Hr. pose proof (held_without r r' l1 (TAccept key obj) l2 [] [] eq_refl) as H. rewrite !app_nil_r in H. by apply H. }
  destruct (ResolveAcceptedLocked r key) as [a|] eqn:Hra.
  2: { split_and!; [lia|exact accept_end_same|by apply Hheld| |naive_solver]. intros Hact. destruct (Hab Hact) as [Hub Hkb]. exfalso.
       rewrite <- Hkb in Hra. by rewrite (resolve_accepted_in_use r _ b Hacc Hb Hub) in Hra. }
  destruct (Hres a Hacc ltac:(lia) eq_refl) as (Ha & Hu & Hk & Hiu). rewrite Hb in Ha. injection Ha as ->.
  pose proof (Hpb Hu Hk) as Hst. pose proof (iu_state _ _ _ Hiu) as Hiust. rewrite Hst in Hiust. destruct Hiust as [Hh0 Hd].
  rewrite (bool_decide_true (ac_state a = AcceptedPublishing)) by done. rewrite andb_true_r.
  set (slot := Z.to_nat (ak_slot key)) in *. destruct published as [handle|].
  - assert (in_use_ok (dr_key r) slot (published_accepted a handle)) as Hiu'.
    { destruct Hiu as [? ? ? ? ? ? _]. split; try done. split; [by apply Hhandle|done]. }
    assert (put_accepted r slot (published_accepted a handle) (dr_accepted_count r) =
      with_accepted (with_queue r (dr_accept_queue r) (dr_accept_head r) (dr_accept_count r))
        (<[slot := published_accepted a handle]> (dr_accepted_channels r)) (dr_accepted_count r) (dr_next_accepted_hint r)) as Er by done.
    split_and!; [cbn; lia| | | |].
    + rewrite Er. apply (accept_end_change slot a); try done.
      * by apply in_use_accepted.
      * by rewrite <- Hk.
      * cbn. lia.
      * destruct (rf_queue _ _ (ri_fine _ _ _ Hinv)) as [[] ? ?]. by split.
    + apply Hheld. rewrite <- (app_nil_r (row_receipts r)), <- (app_nil_r (row_receipts _)).
      eapply (receipts_accepted r _ slot a (published_accepted a handle)); try done. by rewrite Hu.
    + intros Hact. by rewrite bool_decide_true.
    + intros [H|H]; [by apply bool_decide_eq_true in H|done].
  - destruct (decide (dr_state r = EntryActive)) as [Hact|Hact].
    2: { rewrite bool_decide_false by done. split_and!; [lia|exact accept_end_same|by apply Hheld|naive_solver|naive_solver]. }
    rewrite bool_decide_true by done. set (q := MkQueued _ _ _).
    assert (QueuedChannelIsCanonical q = true) as Hcan.
    { unfold QueuedChannelIsCanonical. cbn. rewrite (iu_owner _ _ _ Hiu), (iu_channel _ _ _ Hiu), bool_decide_true, (proj2 (Z.eqb_neq _ _)) by done. done. }
    destruct (queue_fine_front r q (rf_queue _ _ (ri_fine _ _ _ Hinv)) (Hroom eq_refl Hact) Hcan ltac:(done)) as [Hq Hl].
    split_and!; [cbn; lia| | |by intros _|by intros _].
    + apply (accept_end_change slot a); try done.
      * apply clear_ok.
      * by rewrite clear_generation, Hk.
      * by rewrite clear_not_in_use.
      * rewrite clear_not_in_use. cbn. lia.
      * destruct Hq as [[] ? ?]. by split.
      * intros ch (x & Hx & H1 & H2). exists x. split; [|done]. change (queue_list _) with (queue_list (EnqueueFrontLocked r q)).
        rewrite Hl. by apply list_elem_of_further.
    + apply Hheld. rewrite <- (app_nil_r (row_receipts r)), <- (app_nil_r (row_receipts _)).
      eapply (receipts_accepted r _ slot a (ClearAcceptedLocked a)); try done. rewrite Hu, clear_not_in_use.
      change (queue_list _) with (queue_list (EnqueueFrontLocked r q)) at 1. rewrite Hl. cbn. by rewrite !app_nil_r, <- Permutation_cons_append.
Qed.

End accept_end.

(** ** Releasing an accepted channel *)

(** A record that is past its publication, and so of no accept under way,
    changes; [ts'] differs from [ts] in releases of the record only. *)
Lemma past_accept_change i r ts ts' j a a' count : row_inv i r ts -> dr_accepted_channels r !! j = Some a ->
  accepted_in_use a = true -> ac_state a <> AcceptedPublishing -> accepted_ok (dr_key r) j a' = true ->
  ak_generation (ac_key a') = ak_generation (ac_key a) -> (accepted_in_use a' = true -> ac_key a' = ac_key a) ->
  count = dr_accepted_count r - 1 + flag (accepted_in_use a') ->
  sumZ publishes ts' = sumZ publishes ts -> sumZ closes ts' = sumZ closes ts ->
  (forall key, key <> ac_key a -> sumZ (releases key) ts' = sumZ (releases key) ts) ->
  (accepted_in_use a' = true -> flag (ac_release_driver_active a') = sumZ (releases (ac_key a)) ts') ->
  (forall t, t ∈ ts' -> (t ∈ ts /\ releases (ac_key a) t = 0) \/ task_fits (put_accepted r j a' count) t) ->
  omap connects ts' = omap connects ts -> omap accepts ts' = omap accepts ts -> Z.of_nat (length ts') < u32_max ->
  row_inv i (put_accepted r j a' count) ts'.
Proof.
  intros Hinv Ha Hu Hst Hok Hgen Hkey Hcount Hpub Hcl Hrel Hmine Hfits Hcon Hacc Hfew.
  pose proof (ri_fine _ _ _ Hinv) as Hf. pose proof (ri_tasks _ _ _ Hinv) as Ht.
  destruct (af_slots _ (rf_accepted _ _ Hf) j a Ha) as [_ Hu32].
  assert (put_accepted r j a' count = rechannel r (dr_accept_queue r) (dr_accept_head r) (dr_accept_count r)
    (<[j := a']> (dr_accepted_channels r)) count (dr_next_accepted_hint r) (dr_external_publishers r)) as Er by done.
  rewrite Er in *. apply (reaccept_inv i r ts ts' j a a'); try done.
  - intros Hr. rewrite (reserved_idle i r ts Hinv Hr) in *. pose proof (rf_life _ _ Hf) as Hl. unfold life_ok in Hl. rewrite Hr in Hl.
    rewrite !andb_true_iff, !Z.eqb_eq in Hl. pose proof (in_use_counted r j a (rf_accepted _ _ Hf) Ha Hu). lia.
  - destruct (rf_queue _ _ Hf) as [[] ? ?]. by split.
  - by rewrite Hgen.
  - apply (rf_accepted _ _ Hf).
  - rewrite Hu. cbn. lia.
  - apply (rf_publishers _ _ Hf).
  - by rewrite Hpub, (rt_publishers _ _ Ht).
  - intros Hu'. rewrite (Hkey Hu'). by apply Hmine.
  - intros key Hne _. by apply Hrel.
  - intros t Hin. destruct (Hfits t Hin) as [[Hold Hne]|Hnew]; [left; split; [done|]|by right].
    destruct t as [? ch|key' obj|key' receipt|]; cbn; try done; [|intros ->; cbn in Hne; by rewrite bool_decide_true in Hne]. intros Ej.
    assert (key' <> ac_key a) as Hk.
    { intros ->. destruct (rt_fits _ _ Ht _ Hold) as [_ (_ & _ & _ & b & Hb & _ & Hpb & _)]. rewrite Ej, Ha in Hb. injection Hb as <-.
      by apply Hst, Hpb. }
    split; [by rewrite Hgen| |congruence]. intros Hu' E. exfalso. apply Hk. rewrite <- E. by apply Hkey.
  - rewrite Hcon. apply Ht.
  - rewrite Hacc. apply Ht.
Qed.

Lemma put_accepted_receipts r j a a' count gone come : dr_accepted_channels r !! j = Some a ->
  (if accepted_in_use a' then [ac_owner a'] else []) ++ gone ≡ₚ (if accepted_in_use a then [ac_owner a] else []) ++ come ->
  row_receipts (put_accepted r j a' count) ++ gone ≡ₚ row_receipts r ++ come.
Proof.
  intros Ha H. eapply (receipts_accepted r _ j a a'); try done. by apply Permutation_app_head.
Qed.

Lemma release_begin_step i r ts key a : row_inv i r ts -> 0 <= ak_slot key -> ResolveAcceptedLocked r key = Some a ->
  ac_state a <> AcceptedPublishing -> ac_release_driver_active a = false -> Z.of_nat (length ts) + 1 < u32_max ->
  let r' := put_accepted r (Z.to_nat (ak_slot key)) (releasing_accepted a true) (dr_accepted_count r) in
  row_inv i r' (ts ++ [TRelease key (ac_owner a)]) /\ held r' (ts ++ [TRelease key (ac_owner a)]) ≡ₚ held r ts.
Proof.
  intros Hinv H0 Hra Hst Hd Hn. cbv zeta. pose proof (ri_tasks _ _ _ Hinv) as Ht.
  destruct (resolve_accepted r key a (rf_accepted _ _ (ri_fine _ _ _ Hinv)) H0 Hra) as (Ha & Hu & <- & Hiu).
  set (j := Z.to_nat _) in *. assert (forall g : dtask -> Z, sumZ g (ts ++ [TRelease (ac_key a) (ac_owner a)]) = sumZ g ts + g (TRelease (ac_key a) (ac_owner a))) as Hsum.
  { intros g. rewrite sumZ_app. unfold sumZ at 2. cbn. lia. }
  assert (ac_server_handle a <> kHandleInvalid) as Hh by (pose proof (iu_state _ _ _ Hiu) as Hx; destruct (ac_state a); naive_solver).
  assert (dr_accepted_channels (put_accepted r j (releasing_accepted a true) (dr_accepted_count r)) !! j = Some (releasing_accepted a true)) as Hj
    by (cbn; by rewrite list_lookup_insert_eq by (by eapply lookup_lt_Some)).
  split.
  - apply (past_accept_change i r ts _ j a); try done.
    + apply in_use_accepted; [done|]. destruct Hiu. by split.
    + cbn. lia.
    + rewrite Hsum. cbn. lia.
    + rewrite Hsum. cbn. lia.
    + intros key Hne. rewrite Hsum. cbn. rewrite bool_decide_false by done. cbn. lia.
    + intros _. rewrite Hsum, <- (rt_releases _ _ Ht j a Ha Hu), Hd. cbn. by rewrite bool_decide_true.
    + intros t [Hin|Hin%list_elem_of_singleton]%elem_of_app; [left; split; [done|]|right].
      * destruct t; cbn; try done. rewrite bool_decide_false; [done|]. intros ->. by eapply (not_released i r ts Hinv j a Ha Hd).
      * subst t. split; [exact (iu_service _ _ _ Hiu)|]. by exists j, (releasing_accepted a true).
    + rewrite omap_app_one. cbn. by rewrite app_nil_r.
    + rewrite omap_app_one. cbn. by rewrite app_nil_r.
    + rewrite length_app. cbn. lia.
  - rewrite held_add. cbn [task_receipts]. rewrite app_nil_r. unfold held. apply Permutation_app_tail.
    rewrite <- (app_nil_r (row_receipts r)), <- (app_nil_r (row_receipts _)). eapply put_accepted_receipts; [done|]. by rewrite Hu.
Qed.

(** The release ends: the record stays to be released again, or goes with its
    receipt. *)
Lemma release_finish_step i r l1 l2 key receipt (ok : bool) : row_inv i r (l1 ++ TRelease key receipt :: l2) ->
  exists a, ResolveAcceptedLocked r key = Some a /\ ac_state a = AcceptedReleasing /\ ac_release_driver_active a = true /\
    let slot := Z.to_nat (ak_slot key) in
    let r' := if ok then put_accepted r slot (ClearAcceptedLocked a) (dr_accepted_count r - 1)
              else put_accepted r slot (releasing_accepted a false) (dr_accepted_count r) in
    row_inv i r' (l1 ++ l2) /\ held r' (l1 ++ l2) ++ (if ok then [receipt] else []) ≡ₚ held r (l1 ++ TRelease key receipt :: l2).
Proof.
  intros Hinv. pose proof (ri_tasks _ _ _ Hinv) as Ht.
  destruct (release_task_slot i r _ Hinv key receipt ltac:(set_solver)) as (a & Ha & <- & Hs & Hd & <- & Hiu).
  assert (accepted_in_use a = true) as Hu by (unfold accepted_in_use; by rewrite Hs).
  exists a. split_and!; [by eapply resolve_accepted_in_use; [apply Hinv|done|done]|done|done|]. cbv zeta. set (j := Z.to_nat _) in *.
  assert (sumZ (releases (ac_key a)) (l1 ++ l2) = 0) as Hrel.
  { pose proof (rt_releases _ _ Ht j a Ha Hu) as H. rewrite Hd, sumZ_without in H. cbn in H. rewrite bool_decide_true in H by done. cbn in H. lia. }
  assert (forall t, t ∈ l1 ++ l2 -> releases (ac_key a) t = 0) as Hother.
  { intros t Hin. assert (forall x, 0 <= releases (ac_key a) x) as Hnn by (intros []; cbn; try lia; destruct (bool_decide _); cbn; lia).
    assert (releases (ac_key a) t <= 0) as Hle; [|specialize (Hnn t); lia]. rewrite <- Hrel. by apply sumZ_member. }
  set (a' := if ok then ClearAcceptedLocked a else releasing_accepted a false).
  assert (accepted_in_use a' = negb ok) as Hu' by (subst a'; destruct ok; [apply clear_not_in_use|done]).
  assert ((if ok then put_accepted r j (ClearAcceptedLocked a) (dr_accepted_count r - 1) else put_accepted r j (releasing_accepted a false) (dr_accepted_count r))
    = put_accepted r j a' (dr_accepted_count r - 1 + flag (negb ok))) as ->.
  { subst a'. destruct ok; cbn [flag negb]; [by rewrite Z.add_0_r|by replace (dr_accepted_count r - 1 + 1) with (dr_accepted_count r) by lia]. }
  split.
  - apply (past_accept_change i r (l1 ++ TRelease (ac_key a) (ac_owner a) :: l2) _ j a); try done; rewrite ?sumZ_without, ?Hu'; cbn; try done; try lia.
    + congruence.
    + subst a'. destruct ok; [apply clear_ok|]. apply in_use_accepted; [done|]. destruct Hiu as [? ? ? ? ? ? Hx]. split; try done. by rewrite Hs in Hx.
    + subst a'. by destruct ok.
    + subst a'. by destruct ok.
    + intros key Hne. rewrite sumZ_without. cbn. rewrite bool_decide_false by done. cbn. lia.
    + rewrite Hrel. subst a'. by destruct ok.
    + intros t Hin. left. split; [set_solver|by apply Hother].
    + by rewrite !omap_app.
    + by rewrite !omap_app.
    + pose proof (ri_few _ _ _ Hinv) as H. rewrite length_app in *. cbn in H. lia.
  - rewrite <- (app_nil_r (held r _)). apply held_without; [done|]. eapply put_accepted_receipts; [done|]. rewrite Hu, Hu'. subst a'. by destruct ok.
Qed.

(** ** Process teardown *)

Lemma defer_step i r ts process : row_inv i r ts -> row_inv i (defer_row process r) ts /\ held (defer_row process r) ts = held r ts.
Proof.
  intros [Hf Ht Hn]. unfold defer_row. rewrite (rf_in_use _ _ Hf). cbn [negb]. set (f := fun a => if belongs_to process a then deferred_accepted a else a).
  assert (forall a, ac_key (f a) = ac_key a /\ ac_owner (f a) = ac_owner a /\ ac_state (f a) = ac_state a /\
    ac_release_driver_active (f a) = ac_release_driver_active a /\ accepted_in_use (f a) = accepted_in_use a) as Hfa
    by (intros a; subst f; cbn; by destruct (belongs_to process a)).
  assert (forall j a, dr_accepted_channels r !! j = Some a -> map f (dr_accepted_channels r) !! j = Some (f a)) as Hlook
    by (intros j a Hj; by rewrite list_lookup_fmap, Hj).
  assert (accepted_fine (with_accepted r (map f (dr_accepted_channels r)) (dr_accepted_count r) (dr_next_accepted_hint r))) as Hacc.
  { apply accepted_map; [apply Hf| |].
    - intros j a Ha. destruct (af_slots _ (rf_accepted _ _ Hf) j a Ha) as [Hok Hu]. destruct (Hfa a) as (Hk & _ & _ & _ & Hin).
      rewrite Hk. split; [|done]. subst f. cbn. destruct (belongs_to process a) eqn:E; [|done].
      unfold belongs_to in E. apply andb_true_iff in E as [E _]. apply (in_use_accepted _ _ _ E) in Hok. apply in_use_accepted; [done|].
      destruct Hok. by split.
    - rewrite (af_count _ (rf_accepted _ _ Hf)). apply sumZ_ext. intros a _. by destruct (Hfa a) as (_ & _ & _ & _ & ->). }
  split.
  - split; [|split|done]; try apply Ht.
    + destruct Hf as [? ? ? Ho Hq _ Hc Hl ?]. split; try done; [by destruct Ho|destruct Hq as [[] ? ?]; by split|by destruct Hc].
    + intros j a Ha Hu. cbn in Ha. rewrite list_lookup_fmap in Ha. destruct (dr_accepted_channels r !! j) as [b|] eqn:Hb; [|done].
      injection Ha as <-. destruct (Hfa b) as (Hk & _ & _ & Hd & Hin). rewrite Hk, Hd. apply (rt_releases _ _ Ht j b Hb). by rewrite <- Hin.
    + intros t Hin. destruct (rt_fits _ _ Ht t Hin) as [E Hfit]. split; [done|]. destruct t as [k ch|key obj|key receipt|k o batch]; cbn in *.
      * exact Hfit.
      * destruct Hfit as (H1 & H2 & H3 & a & Ha & Hrest). refine (conj H1 (conj H2 (conj H3 _))). exists (f a).
        destruct (Hfa a) as (-> & _ & -> & _ & ->). by rewrite list_lookup_fmap, Ha.
      * destruct Hfit as (j & a & Ha & Hrest). exists j, (f a). destruct (Hfa a) as (-> & -> & -> & -> & _). by rewrite list_lookup_fmap, Ha.
      * exact Hfit.
  - unfold held, row_receipts. f_equal. f_equal. cbn. f_equal. clear -Hfa. induction (dr_accepted_channels r) as [|a l IH]; [done|]. cbn.
    destruct (Hfa a) as (_ & Ho & _ & _ & ->). destruct (accepted_in_use a); cbn; by rewrite ?Ho, IH.
Qed.
