(* ===== verification/ServiceDirectoryClose.v ===== *)
(** * Closing a directory row

    Detaching the channels of a row into a batch, the release loop, and putting
    back what it could not release, with the tie between the row and its
    tasks and the receipts accounted for. *)

From S2P Require Import Prelude ServiceTransition Bytes KObject HandleTable ChannelCore Credentials.
From S2P Require Import Sha256 ServiceManifest ServiceManifestGraph ServiceLifecycleBroker ServiceDirectory ServiceDirectoryRows ServiceDirectoryInv.

Implicit Types (r : ServiceDirectoryRow) (q : ServiceDirectoryQueuedChannel) (a : ServiceDirectoryAcceptedChannel).
Implicit Types (t : dtask) (ts : list dtask).

#[local] Arguments sumZ : simpl never.

(** ** Parts of a closing row *)

Lemma closing_parts i r ts queue head count accepted acount hint closing ccount outstanding driver :
  let r' := with_closing (with_accepted (with_queue r queue head count) accepted acount hint) closing ccount outstanding driver in
  row_fine i r -> dr_state r = EntryClosing -> queue_fine r' -> accepted_fine r' -> closing_fine r' ->
  row_tasks r' ts -> Z.of_nat (length ts) < u32_max -> row_inv i r' ts.
Proof.
  intros r' [Hu Hs Hk Ho _ _ _ Hl Hp] Hst Hq Ha Hc Ht Hn. split; [|done|done]. split; try done.
  - by destruct Ho.
  - unfold life_ok in *. cbn. by rewrite Hst in *.
Qed.

(** The tie of a closing row without release drivers to its tasks, after its
    queue and accepted records changed: each record in use is one from before. *)
Lemma closing_tasks r r' ts : row_tasks r ts -> dr_state r = EntryClosing -> dr_state r' = EntryClosing ->
  dr_key r' = dr_key r -> dr_owner r' = dr_owner r -> dr_external_publishers r' = dr_external_publishers r ->
  dr_close_driver_active r' = dr_close_driver_active r -> dr_close_batch_outstanding r' = dr_close_batch_outstanding r ->
  HasAcceptedReleaseDriverLocked r = false -> length (dr_accepted_channels r) = 8%nat ->
  (forall j a, dr_accepted_channels r !! j = Some a -> exists a', dr_accepted_channels r' !! j = Some a' /\
     ak_generation (ac_key a') = ak_generation (ac_key a) /\ (accepted_in_use a' = true -> a' = a)) ->
  length (dr_accepted_channels r') = 8%nat -> row_tasks r' ts.
Proof.
  intros Ht Hst Hst' Hk Ho Hp Hd Hout Hno Hlen Hslots Hlen'.
  assert (forall j a, dr_accepted_channels r !! j = Some a -> ac_release_driver_active a = false) as Hidle.
  { intros j a Ha. destruct (ac_release_driver_active a) eqn:E; [|done]. exfalso.
    assert (HasAcceptedReleaseDriverLocked r = true) as Htrue; [|congruence]. apply existsb_exists. exists j.
    split; [apply in_seq; apply lookup_lt_Some in Ha; change (Z.to_nat _) with 8%nat; lia|]. unfold accepted_at. by rewrite nth_lookup, Ha. }
  split.
  - by rewrite Hp, (rt_publishers _ _ Ht).
  - by rewrite Hd, (rt_closes _ _ Ht).
  - intros j a' Ha' Hu'. destruct (lookup_lt_is_Some_2 (dr_accepted_channels r) j) as [a Ha]; [apply lookup_lt_Some in Ha'; lia|].
    destruct (Hslots j a Ha) as (b & Hb & _ & Hsame). rewrite Ha' in Hb. injection Hb as <-.
    specialize (Hsame Hu'). subst a'. by apply (rt_releases _ _ Ht j).
  - intros t Hin. destruct (rt_fits _ _ Ht t Hin) as [E Hfit]. split; [by rewrite Hk|]. destruct t as [k ch|key obj|key receipt|k o batch]; cbn in *.
    + intros Hact. congruence.
    + destruct Hfit as (H1 & H2 & H3 & a & Ha & Hg & Hpb & _). refine (conj H1 (conj H2 (conj H3 _))).
      destruct (Hslots _ a Ha) as (a' & Ha' & Hg' & Hsame). exists a'. split_and!; [done|lia| |congruence].
      intros Hu' Hkey. specialize (Hsame Hu'). subst a'. by apply Hpb.
    + destruct Hfit as (j & a & Ha & _ & _ & Hdr & _). by rewrite (Hidle j a Ha) in Hdr.
    + destruct Hfit as (H1 & _ & H3 & H4). by rewrite Ho, Hout, Hst'.
  - apply Ht.
  - apply Ht.
Qed.

(** ** Detaching *)

Lemma zero_owned_empty : ServiceDirectoryOwnedChannelIsEmpty zero_owned = true.
Proof. reflexivity. Qed.

(** The row without the channels of [batch]. *)
Record detached i r ts (batch : list ServiceDirectoryOwnedChannel) r' : Prop := {
  de_inv : row_inv i r' ts;
  de_state : dr_state r' = EntryClosing;
  de_same : dr_key r' = dr_key r /\ dr_owner r' = dr_owner r /\ dr_name r' = dr_name r /\ dr_close_driver_active r' = 0;
  de_count : dr_closing_count r' = 0;
  de_batch : Forall owned_held batch /\ (length batch <= 16)%nat;
  de_receipts : row_receipts r' ++ map ow_owner batch ≡ₚ row_receipts r;
}.

Lemma detach_failed i r ts : row_inv i r ts -> dr_state r = EntryClosing -> dr_close_driver_active r = 0 ->
  HasAcceptedReleaseDriverLocked r = false -> dr_closing_count r <> 0 ->
  detached i r ts (detach_channels r).1 (detach_channels r).2.
Proof.
  intros [Hf Ht Hn] Hst Hd Hno Hc. unfold detach_channels. rewrite (proj2 (Z.eqb_neq _ _)) by done. cbn [negb fst snd].
  set (n := Z.to_nat (dr_closing_count r)). destruct (rf_closing _ _ Hf) as [Hlen Hcount Hout Hheld Hempty Hdrv].
  assert (length (take n (dr_closing_channels r)) = n) as Htk by (apply length_take_le; lia).
  set (r' := with_closing _ _ _ _ _).
  assert (r' = with_closing (with_accepted (with_queue r (dr_accept_queue r) (dr_accept_head r) (dr_accept_count r)) (dr_accepted_channels r)
    (dr_accepted_count r) (dr_next_accepted_hint r)) (replicate n zero_owned ++ drop n (dr_closing_channels r)) 0
    (dr_close_batch_outstanding r) (dr_close_driver_active r)) as Er by done.
  split; try done.
  - rewrite Er. apply (closing_parts i r); try rewrite <- Er; try done.
    + destruct (rf_queue _ _ Hf) as [[] ? ?]. by split.
    + destruct (rf_accepted _ _ Hf). by split.
    + split; cbn; try done; [rewrite length_app, length_replicate, length_drop; lia| |].
      * apply Forall_app. split; [apply Forall_replicate; apply zero_owned_empty|done].
      * rewrite Hd in *. left. destruct Hdrv as [[_ ?]|[? _]]; [done|lia].
    + apply (closing_tasks r); try done; try apply (rf_accepted _ _ Hf). intros j a Ha. by exists a.
  - split; [done|]. rewrite Htk. lia.
  - unfold row_receipts. change (queue_list r') with (queue_list r). cbn. fold n. rewrite app_nil_r. by rewrite <- app_assoc.
Qed.

(** Clearing the records a close takes. *)
Definition cleared a : ServiceDirectoryAcceptedChannel := if close_takes a then ClearAcceptedLocked a else a.

Lemma cleared_kept a : ak_generation (ac_key (cleared a)) = ak_generation (ac_key a) /\ (accepted_in_use (cleared a) = true -> cleared a = a).
Proof.
  unfold cleared. destruct (close_takes a); [|done]. split; [done|]. by rewrite clear_not_in_use.
Qed.

Lemma cleared_count (l : list ServiceDirectoryAcceptedChannel) :
  sumZ (fun a => flag (accepted_in_use a)) l - Z.of_nat (length (List.filter close_takes l)) = sumZ (fun a => flag (accepted_in_use (cleared a))) l.
Proof.
  rewrite filter_count. unfold sumZ. induction l as [|a l IH]; [done|]. cbn [foldr].
  assert (flag (accepted_in_use a) - flag (close_takes a) = flag (accepted_in_use (cleared a))) as H; [|lia].
  unfold cleared, close_takes. destruct (accepted_in_use a) eqn:E, (ac_process_teardown_deferred a); cbn; rewrite ?E, ?clear_not_in_use; done.
Qed.

Lemma cleared_receipts (l : list ServiceDirectoryAcceptedChannel) :
  map ac_owner (List.filter accepted_in_use (map cleared l)) ++ map ac_owner (List.filter close_takes l) ≡ₚ
  map ac_owner (List.filter accepted_in_use l).
Proof.
  induction l as [|a l IH]; [done|]. cbn [map List.filter].
  assert (cleared a = if close_takes a then ClearAcceptedLocked a else a) as -> by done.
  destruct (close_takes a) eqn:Et.
  - rewrite clear_not_in_use. apply andb_true_iff in Et as [-> _]. cbn. by rewrite <- Permutation_middle, IH.
  - destruct (accepted_in_use a); cbn; by rewrite IH.
Qed.

Lemma detach_all i r ts : row_inv i r ts -> dr_state r = EntryClosing -> dr_close_driver_active r = 0 ->
  HasAcceptedReleaseDriverLocked r = false -> dr_closing_count r = 0 ->
  detached i r ts (detach_channels r).1 (detach_channels r).2.
Proof.
  intros Hinv Hst Hd Hno Hc. pose proof Hinv as [Hf Ht Hn]. unfold detach_channels. rewrite Hc. cbn [Z.eqb negb].
  destruct (detach_queue_fine _ r (rf_queue _ _ Hf) eq_refl) as (Hb & Hq & H0 & queue & head & Er1).
  destruct (detach_queue _ r) as [queued r1]. cbn [fst snd] in *. subst r1. unfold detach_accepted. cbn [dr_accepted_channels with_queue].
  change (fun a => if close_takes a then ClearAcceptedLocked a else a) with cleared.
  set (taken := List.filter close_takes (dr_accepted_channels r)). cbn [fst snd].
  set (r' := with_accepted _ _ _ _).
  assert (r' = with_closing (with_accepted (with_queue r queue head 0) (map cleared (dr_accepted_channels r))
    (dr_accepted_count r - Z.of_nat (length taken)) (dr_next_accepted_hint r)) (dr_closing_channels r) (dr_closing_count r)
    (dr_close_batch_outstanding r) (dr_close_driver_active r)) as Er by done.
  pose proof (rf_accepted _ _ Hf) as Hacc. split; try done.
  - rewrite Er. apply (closing_parts i r); try rewrite <- Er; try done.
    + destruct Hq as [[] ? ?]. by split.
    + assert (accepted_fine (with_accepted r (map cleared (dr_accepted_channels r)) (dr_accepted_count r - Z.of_nat (length taken))
        (dr_next_accepted_hint r))) as [] by (apply accepted_map; [done| |by rewrite (af_count _ Hacc), cleared_count];
          intros j a Ha; rewrite (proj1 (cleared_kept a)); destruct (af_slots _ Hacc j a Ha); split; [|done];
          unfold cleared; destruct (close_takes a); [apply clear_ok|done]). by split.
    + destruct (rf_closing _ _ Hf). by split.
    + apply (closing_tasks r); try done; [apply Hacc| |cbn; rewrite length_map; apply Hacc]. intros j a Ha. exists (cleared a).
      cbn. rewrite list_lookup_fmap, Ha. split; [done|apply cleared_kept].
  - split; [apply Forall_app; split|rewrite length_app].
    + rewrite Hb. apply Forall_fmap, Forall_forall. intros q Hin. destruct (queued_parts i r ts Hinv q Hin) as (? & _ & ? & _). by split.
    + apply Forall_fmap, Forall_forall. intros a Hin. apply list_elem_of_In, filter_In in Hin as [Hin Htk].
      apply list_elem_of_In, list_elem_of_lookup in Hin as [j Ha]. apply andb_true_iff in Htk as [Hu _].
      destruct (af_slots _ Hacc j a Ha) as [Hok _]. apply (in_use_accepted _ _ _ Hu) in Hok. split; [apply Hok|done].
    + rewrite Hb, !length_map, length_queue_list. pose proof (qs_count _ (qf_shape _ (rf_queue _ _ Hf))).
      pose proof (List.filter_length_le close_takes (dr_accepted_channels r)) as Hle. rewrite (af_length _ Hacc) in Hle. unfold taken. lia.
  - assert (queue_list r' = []) as Hq0 by (unfold queue_list; by change (dr_accept_count r') with 0).
    unfold row_receipts. rewrite Hq0. cbn -[queue_list]. rewrite Hc. cbn [Z.to_nat take map app]. rewrite !app_nil_r, Hb, map_app, !map_map. cbn.
    pose proof (cleared_receipts (dr_accepted_channels r)) as Hp. fold taken in Hp.
    change (fun x => ac_owner x) with ac_owner. permute.
Qed.

Lemma detach_row i r ts : row_inv i r ts -> dr_state r = EntryClosing -> dr_close_driver_active r = 0 ->
  HasAcceptedReleaseDriverLocked r = false -> detached i r ts (detach_channels r).1 (detach_channels r).2.
Proof. intros. destruct (decide (dr_closing_count r = 0)); [by apply detach_all|by apply detach_failed]. Qed.

(** ** The batch *)

(** The driver takes the batch. *)
Lemma start_close i r ts batch : row_inv i r ts -> dr_state r = EntryClosing -> dr_close_driver_active r = 0 -> dr_closing_count r = 0 ->
  Forall owned_held batch -> batch <> [] -> (length batch <= 16)%nat -> Z.of_nat (length ts) + 1 < u32_max ->
  let r' := with_closing r (dr_closing_channels r) (dr_closing_count r) (Z.of_nat (length batch)) 1 in
  let ts' := ts ++ [TClose (dr_key r) (dr_owner r) batch] in
  row_inv i r' ts' /\ held r' ts' = held r ts ++ map ow_owner batch.
Proof.
  intros [Hf Ht Hn] Hst Hd Hc Hb Hne Hlen Hfew r' ts'.
  assert (0 < length batch)%nat as Hpos by (destruct batch; [done|cbn; lia]).
  assert (forall g : dtask -> Z, sumZ g ts' = sumZ g ts + g (TClose (dr_key r) (dr_owner r) batch)) as Hsum.
  { intros g. unfold ts'. rewrite sumZ_app. unfold sumZ at 2. cbn. lia. }
  assert (forall t, t ∈ ts -> closes t = 0) as Hnone.
  { intros t Hin. assert (closes t <= sumZ closes ts) by (apply sumZ_member; [intros [] _; cbn; lia|done]).
    rewrite <- (rt_closes _ _ Ht), Hd in *. destruct t; cbn in *; lia. }
  split; [|unfold ts'; by rewrite held_add].
  assert (r' = with_closing (with_accepted (with_queue r (dr_accept_queue r) (dr_accept_head r) (dr_accept_count r)) (dr_accepted_channels r)
    (dr_accepted_count r) (dr_next_accepted_hint r)) (dr_closing_channels r) (dr_closing_count r) (Z.of_nat (length batch)) 1) as Er by done.
  rewrite Er. apply (closing_parts i r); try rewrite <- Er; try done.
  - destruct (rf_queue _ _ Hf) as [[] ? ?]. by split.
  - destruct (rf_accepted _ _ Hf). by split.
  - destruct (rf_closing _ _ Hf). split; cbn; try done; [lia|]. right. split_and!; [done|lia|done].
  - split.
    + rewrite Hsum. cbn. rewrite (rt_publishers _ _ Ht). lia.
    + rewrite Hsum. cbn. rewrite <- (rt_closes _ _ Ht), Hd. done.
    + intros j a Ha Hu. rewrite Hsum. cbn. rewrite (rt_releases _ _ Ht j a Ha Hu). lia.
    + intros t [Hin|Hin%list_elem_of_singleton]%elem_of_app; [|by subst t].
      destruct (rt_fits _ _ Ht t Hin) as [E Hfit]. split; [done|]. specialize (Hnone t Hin). by destruct t.
    + unfold ts'. rewrite omap_app_one. cbn. rewrite app_nil_r. apply Ht.
    + unfold ts'. rewrite omap_app_one. cbn. rewrite app_nil_r. apply Ht.
  - unfold ts'. rewrite length_app. cbn. lia.
Qed.

(** The receipts of the channels whose endpoints answered Ok. *)
Fixpoint drained_receipts (batch : list ServiceDirectoryOwnedChannel) (answers : list ServiceEndpointStatus)
    : list ServiceEndpointOwnerReceipt :=
  match batch with
  | [] => []
  | c :: batch =>
      (if bool_decide (hd EpCorruptState answers = EpOk) then [ow_owner c] else []) ++ drained_receipts batch (tl answers)
  end.

(** The loop hands every channel to its endpoint: those it kept, and the
    receipts of those that were released. *)
Lemma drain_batch_spec batch : forall answers drained first, Forall owned_held batch ->
  let '(drained', failed, _) := drain_batch batch answers drained first in
  Forall owned_held failed /\ (length failed <= length batch)%nat /\
  map ow_owner failed ++ drained_receipts batch answers ≡ₚ map ow_owner batch /\
  drained' = drained + Z.of_nat (length (drained_receipts batch answers)).
Proof.
  induction batch as [|c batch IH]; intros answers drained first Hb; cbn [drain_batch drained_receipts].
  { split_and!; [done|done|done|cbn; lia]. }
  apply Forall_cons in Hb as [[Hv Hd] Hb]. unfold ServiceDirectoryDrainOwnedChannel, ServiceDirectoryOwnedChannelIsEmpty.
  rewrite Hv, Hd. cbn [negb andb orb]. destruct (bool_decide (hd EpCorruptState answers = EpOk)).
  - specialize (IH (tl answers) (drained + 1) first Hb). destruct (drain_batch batch _ _ _) as [[drained' failed] ff].
    destruct IH as (H1 & H2 & H3 & ->). cbn. split_and!; [done|lia| |lia]. by rewrite <- Permutation_middle, H3.
  - specialize (IH (tl answers) drained (if bool_decide (first = EpOk) then hd EpCorruptState answers else first) Hb).
    destruct (drain_batch batch _ _ _) as [[drained' failed] ff]. destruct IH as (H1 & H2 & H3 & ->). cbn.
    split_and!; [by apply Forall_cons|lia| |done]. by rewrite H3.
Qed.

(** The driver ends: what failed is kept for the next close. *)
Lemma finish_close i r l1 l2 k o batch failed : row_inv i r (l1 ++ TClose k o batch :: l2) -> Forall owned_held failed ->
  (length failed <= length batch)%nat -> forall released, map ow_owner failed ++ released ≡ₚ map ow_owner batch ->
  let r' := with_closing r (failed ++ drop (length failed) (dr_closing_channels r)) (Z.of_nat (length failed)) 0 0 in
  dr_owner r = o /\ dr_state r = EntryClosing /\ dr_close_driver_active r = 1 /\ dr_close_batch_outstanding r = Z.of_nat (length batch) /\
  row_inv i r' (l1 ++ l2) /\ held r' (l1 ++ l2) ++ released ≡ₚ held r (l1 ++ TClose k o batch :: l2).
Proof.
  intros [Hf Ht Hn] Hheld Hlen released Hperm r'. destruct (rt_fits _ _ Ht (TClose k o batch) ltac:(set_solver)) as (_ & Ho & Hst & Hout & _).
  pose proof (rt_closes _ _ Ht) as Hcl. rewrite sumZ_without in Hcl. cbn in Hcl.
  assert (0 <= sumZ closes (l1 ++ l2)) as Hnn by (apply sumZ_nonneg; intros [] _; cbn; lia).
  destruct (rf_closing _ _ Hf) as [Clen Ccount Cout Cheld Cempty [[Cd _]|(Cd & _ & Cz)]]; [lia|]. rewrite Cz in Cempty. cbn in Cempty.
  split_and!; [done|done|done|done| |].
  - assert (r' = with_closing (with_accepted (with_queue r (dr_accept_queue r) (dr_accept_head r) (dr_accept_count r)) (dr_accepted_channels r)
      (dr_accepted_count r) (dr_next_accepted_hint r)) (failed ++ drop (length failed) (dr_closing_channels r)) (Z.of_nat (length failed)) 0 0) as Er by done.
    rewrite Er. apply (closing_parts i r); try rewrite <- Er; try done.
    + destruct (rf_queue _ _ Hf) as [[] ? ?]. by split.
    + destruct (rf_accepted _ _ Hf). by split.
    + split; cbn; try lia.
      * rewrite length_app, length_drop. lia.
      * by rewrite Nat2Z.id, take_app_length.
      * rewrite Nat2Z.id, drop_app_length. by apply Forall_drop.
    + assert (forall t, t ∈ l1 ++ l2 -> closes t = 0) as Hnone.
      { intros t Hin. assert (closes t <= sumZ closes (l1 ++ l2)) by (apply sumZ_member; [intros [] _; cbn; lia|done]). destruct t; cbn in *; lia. }
      split; cbn.
      * rewrite (rt_publishers _ _ Ht), sumZ_without. cbn. lia.
      * lia.
      * intros j a Ha Hu. rewrite (rt_releases _ _ Ht j a Ha Hu), sumZ_without. cbn. lia.
      * intros t Hin. destruct (rt_fits _ _ Ht t ltac:(set_solver)) as [E Hfit]. split; [done|]. specialize (Hnone t Hin). by destruct t.
      * by destruct (omap_without connects _ _ _ (rt_connects _ _ Ht)).
      * by destruct (omap_without accepts _ _ _ (rt_accepts _ _ Ht)).
    + rewrite length_app in *. cbn in Hn. lia.
  - unfold held, row_receipts. change (queue_list r') with (queue_list r). cbn. rewrite Nat2Z.id, take_app_length, Cz. cbn.
    rewrite !flat_map_app. change (Z.to_nat 0) with 0%nat. rewrite take_0. cbn. permute.
Qed.
