(* ===== verification/ServiceDirectoryRuns.v ===== *)
(** * The directory under concurrent calls

    The directory, the global generations and the calls between their sections
    make a world; a call or a section is a step of it.  What the code outside
    the directory answers - handle tables and endpoints - comes with the step.
    The world also logs the endpoint receipts it was given and what became of
    them. *)

From S2P Require Import Prelude ServiceTransition Bytes KObject HandleTable ChannelCore Credentials.
From S2P Require Import Sha256 ServiceManifest ServiceManifestGraph ServiceLifecycleBroker ServiceDirectory ServiceDirectoryRows ServiceDirectoryInv.
From S2P Require Import ServiceDirectoryClose.

Implicit Types (r : ServiceDirectoryRow) (q : ServiceDirectoryQueuedChannel) (a : ServiceDirectoryAcceptedChannel).
Implicit Types (t : dtask) (ts : list dtask).

#[local] Arguments sumZ : simpl never.

Record dworld := MkDWorld {
  w_dir : ServiceDirectory;
  w_generations : list Z;
  w_tasks : list dtask;
  (** receipts of the pairs queued; of those, released by the directory, and
      handed back to the connect that brought them *)
  w_given : list ServiceEndpointOwnerReceipt;
  w_done : list ServiceEndpointOwnerReceipt;
  w_back : list ServiceEndpointOwnerReceipt;
}.

Inductive dcall :=
| DReserve (name : ServiceDirectoryName) (manifest_slot : Z) (owner : ServiceInstanceToken) (credential : ServiceEndpointCredentialSnapshot)
| DPublish (reservation : ServiceRegistrationReservation) (owner : ServiceInstanceToken)
| DReady (service : ServiceKey) (owner : ServiceInstanceToken) (lifecycle_ready : bool)
| DAbort (reservation : ServiceRegistrationReservation) (owner : ServiceInstanceToken)
| DLookup (name : ServiceDirectoryName)
| DUnpin (pin : ServiceDirectoryOperationPin)
| DConnect (pin : ServiceDirectoryOperationPin) (made : ServiceEndpointPair)
| DUnpublished (task : nat)
| DActivated (task : nat) (activation_status : ServiceEndpointStatus)
| DAccept (service : ServiceKey) (owner : ServiceInstanceToken) (process : ProcessKey) (credential : ServiceEndpointCredentialSnapshot)
| DAccepted (task : nat) (published : option Z)
| DRelease (key : ServiceDirectoryAcceptedChannelKey)
| DReleased (task : nat) (endpoint_status : ServiceEndpointStatus)
| DDefer (process : ProcessKey)
| DScan
| DClose (service : ServiceKey) (owner : ServiceInstanceToken) (reason : ServiceDirectoryCloseReason)
| DClosed (task : nat) (answers : list ServiceEndpointStatus)
| DFind (process : ProcessKey) (handle : Z)
| DProbe (expected_endpoint_owner : Z).

Inductive danswer :=
| AStatus (status : ServiceDirectoryStatus)
| AReserved (status : ServiceDirectoryStatus) (reservation : ServiceRegistrationReservation)
| APin (status : ServiceDirectoryStatus) (pin : ServiceDirectoryOperationPin)
| AUnpublished (corrupt : bool) (removed : option ServiceDirectoryQueuedChannel)
| AActivated (outcome : connect_outcome)
| AClaimed (key : ServiceDirectoryAcceptedChannelKey) (acceptor_object : Z)
| AAccepted (outcome : accept_outcome)
| AReleasing (receipt : ServiceEndpointOwnerReceipt)
| ADeferred (result : ServiceDirectoryDeferAcceptedProcessResult)
| AScanned (keys : list ServiceDirectoryAcceptedChannelKey)
| ABatch (batch : list ServiceDirectoryOwnedChannel)
| AFound (key : ServiceDirectoryAcceptedChannelKey).

Definition removed_receipt (removed : option ServiceDirectoryQueuedChannel) : list ServiceEndpointOwnerReceipt :=
  match removed with Some q => [ow_owner (qu_owned q)] | None => [] end.

Section world.
Context (addr : Z).

Definition only_dir (w : dworld) (d : ServiceDirectory) : dworld :=
  MkDWorld d (w_generations w) (w_tasks w) (w_given w) (w_done w) (w_back w).
Definition starts (w : dworld) (d : ServiceDirectory) (t : dtask) : dworld :=
  MkDWorld d (w_generations w) (w_tasks w ++ [t]) (w_given w) (w_done w) (w_back w).
Definition ends (w : dworld) (d : ServiceDirectory) (n : nat) (done back : list ServiceEndpointOwnerReceipt) : dworld :=
  MkDWorld d (w_generations w) (delete n (w_tasks w)) (w_given w) (w_done w ++ done) (w_back w ++ back).

Definition dexec (w : dworld) (c : dcall) : option (danswer * dworld) :=
  let d := w_dir w in
  match c with
  | DReserve name manifest_slot owner credential =>
      let '((status, reservation), d, generations) :=
        ServiceDirectoryReserveRegistration addr d (w_generations w) (Some name) manifest_slot owner (Some credential) in
      Some (AReserved status reservation, MkDWorld d generations (w_tasks w) (w_given w) (w_done w) (w_back w))
  | DPublish reservation owner =>
      let '(status, d, _) := ServiceDirectoryPublishRegistration addr d (Some reservation) owner in Some (AStatus status, only_dir w d)
  | DReady service owner bit =>
      let '(status, d, _) := ServiceDirectoryCommitJointReady addr d service owner (Some bit) in Some (AStatus status, only_dir w d)
  | DAbort reservation owner =>
      let '(status, d, _) := ServiceDirectoryAbortRegistration addr d (Some reservation) owner in Some (AStatus status, only_dir w d)
  | DLookup name => let '((status, pin), d) := ServiceDirectoryLookup addr d (Some name) in Some (APin status pin, only_dir w d)
  | DUnpin pin => let '(status, d, _) := ServiceDirectoryReleaseOperation addr d (Some pin) in Some (AStatus status, only_dir w d)
  | DConnect pin made =>
      let '(status, d) := ConnectEnqueueLocked d pin made in
      Some (AStatus status,
            if bool_decide (status = DirOk)
            then MkDWorld d (w_generations w) (w_tasks w ++ [TConnect (op_service pin) (rc_channel (pr_owner made))])
                   (w_given w ++ [pr_owner made]) (w_done w) (w_back w)
            else only_dir w d)
  | DUnpublished n =>
      match w_tasks w !! n with
      | Some (TConnect service channel) =>
          let '(corrupt, removed, d) := ConnectUnpublishLocked d service channel in
          Some (AUnpublished corrupt removed, ends w d n [] (removed_receipt removed))
      | _ => None
      end
  | DActivated n activation_status =>
      match w_tasks w !! n with
      | Some (TConnect service channel) =>
          let '(outcome, d) := ConnectFinishLocked d service channel activation_status in
          Some (AActivated outcome, ends w d n [] (removed_receipt (co_removed outcome)))
      | _ => None
      end
  | DAccept service owner process credential =>
      let '(result, d) := AcceptClaimLocked d service owner process credential in
      Some (match result with
            | inl status => (AStatus status, only_dir w d)
            | inr (key, obj) => (AClaimed key obj, starts w d (TAccept key obj))
            end)
  | DAccepted n published =>
      match w_tasks w !! n with
      | Some (TAccept key obj) =>
          let '(outcome, d) := AcceptFinishLocked d (ak_service key) key obj published in
          Some (AAccepted outcome, ends w d n [] [])
      | _ => None
      end
  | DRelease key =>
      let '(result, d) := ReleaseAcceptedBeginLocked addr d (Some key) in
      Some (match result with
            | inl (status, _) => (AStatus status, only_dir w d)
            | inr receipt => (AReleasing receipt, starts w d (TRelease key receipt))
            end)
  | DReleased n endpoint_status =>
      match w_tasks w !! n with
      | Some (TRelease key receipt) =>
          let '((status, _), d', _) := ReleaseAcceptedFinishLocked d key endpoint_status in
          Some (AStatus status, ends w d' n (if bool_decide (endpoint_status = EpOk) then [receipt] else []) [])
      | _ => None
      end
  | DDefer process => let '(result, d) := ServiceDirectoryDeferAcceptedProcess addr d process in Some (ADeferred result, only_dir w d)
  | DScan =>
      let '(result, d) := DriveDeferredScanLocked addr d in
      Some (match result with inl status => AStatus status | inr keys => AScanned keys end, only_dir w d)
  | DClose service owner reason =>
      let '(result, d) := CloseBeginLocked addr d service owner reason in
      Some (match result with
            | inl closed => (AStatus (cl_status closed), only_dir w d)
            | inr batch => (ABatch batch, starts w d (TClose service owner batch))
            end)
  | DClosed n answers =>
      match w_tasks w !! n with
      | Some (TClose service owner batch) =>
          let '(drained, failed, first_failure) := drain_batch batch answers 0 EpOk in
          let '(closed, d) := CloseFinishLocked d service owner (Z.of_nat (length batch)) drained failed first_failure in
          Some (AStatus (cl_status closed), ends w d n (drained_receipts batch answers) [])
      | _ => None
      end
  | DFind process handle =>
      Some (match ServiceDirectoryReleaseAcceptedHandle addr d process handle with inl status => AStatus status | inr key => AFound key end, w)
  | DProbe expected => Some (AStatus (ServiceDirectoryValidateRuntimeOwner addr d expected), w)
  end.

(** The handle a table publishes for the record of an accept, with the
    record's process. *)
Definition new_handle (d : ServiceDirectory) (key : ServiceDirectoryAcceptedChannelKey) (published : option Z) : list (ProcessKey * Z) :=
  match published, ResolveExactLocked d (ak_service key) with
  | Some handle, Some r =>
      match ResolveAcceptedLocked r key with Some a => [(ac_server_process a, handle)] | None => [] end
  | _, _ => []
  end.

(** It is not one the table published before: none the directory has for the
    same process. *)
Definition handle_is_new (w : dworld) (n : nat) (handle : Z) : Prop :=
  match w_tasks w !! n with
  | Some (TAccept key _) => Forall (fun h => h ∉ directory_handles (w_dir w)) (new_handle (w_dir w) key (Some handle))
  | _ => True
  end.

(** What the callers and the code outside keep to: keys of their unsigned
    types; pairs as endpoints make them, of a channel never made before;
    handles that are handles, and new ones; probes for the endpoint owner the
    directory was opened with; and fewer calls under way than 32 bits count. *)
Definition key_typed (k : ServiceKey) : Prop := 0 <= key_slot k.
Definition call_ok (w : dworld) (c : dcall) : Prop :=
  Z.of_nat (length (w_tasks w)) + 1 < u32_max /\
  match c with
  | DPublish reservation _ | DAbort reservation _ => key_typed (reservation_service reservation)
  | DReady service _ _ | DClose service _ _ => key_typed service
  | DUnpin pin => key_typed (op_service pin) /\ 0 <= op_slot pin
  | DConnect pin made =>
      key_typed (op_service pin) /\ ServiceEndpointOwnerReceiptIsValid (pr_owner made) = true /\ pr_acceptor made <> 0 /\
      rc_channel (pr_owner made) ∉ map rc_channel (w_given w)
  | DAccept service _ process _ => key_typed service /\ ProcessKeyIsValid process = true
  | DAccepted n (Some handle) => handle <> kHandleInvalid /\ handle_is_new w n handle
  | DProbe expected => expected = sd_endpoint_owner (w_dir w)
  | DRelease key => key_typed (ak_service key) /\ 0 <= ak_slot key
  | _ => True
  end.

(** A run, with the answers. *)
Inductive druns : dworld -> list (dcall * danswer) -> dworld -> Prop :=
| druns_nil w : druns w [] w
| druns_cons w c answer w' h w'' : call_ok w c -> dexec w c = Some (answer, w') -> druns w' h w'' ->
    druns w ((c, answer) :: h) w''.

(** The queue has room for a channel whose accept could not publish it. *)
Definition restore_fits (w : dworld) (c : dcall) : Prop :=
  match c with
  | DAccepted n None =>
      match w_tasks w !! n with
      | Some (TAccept key _) =>
          match ResolveExactLocked (w_dir w) (ak_service key) with
          | Some r => dr_state r = EntryActive -> dr_accept_count r < kServiceDirectoryAcceptCapacity
          | None => True
          end
      | _ => True
      end
  | _ => True
  end.

(** At every failed publication of the run [h] from [w] the queue has room. *)
Fixpoint room_kept (w : dworld) (h : list (dcall * danswer)) : Prop :=
  match h with
  | [] => True
  | (c, _) :: h => restore_fits w c /\ match dexec w c with Some (_, w') => room_kept w' h | None => True end
  end.

Lemma druns_app w1 h1 w2 h2 w3 : druns w1 h1 w2 -> druns w2 h2 w3 -> druns w1 (h1 ++ h2) w3.
Proof. induction 1; [done|]. intros. cbn. eapply druns_cons; eauto. Qed.

End world.
