(* ===== verification/ServiceDirectoryKeys.v ===== *)
(** * Keys and handles in the directory

    What every section does to the keys and the published handles of rows,
    whether the directory is canonical or not: a row in use keeps its key, no
    handle appears but the one an accept publishes, and a reservation takes a
    generation above its slot's counter. *)

From S2P Require Import Prelude ServiceTransition Bytes KObject HandleTable ChannelCore Credentials.
From S2P Require Import Sha256 ServiceManifest ServiceManifestGraph ServiceLifecycleBroker ServiceDirectory ServiceDirectoryRows ServiceDirectoryInv.
From S2P Require Import ServiceDirectoryClose ServiceDirectoryRuns.

Implicit Types (r : ServiceDirectoryRow) (q : ServiceDirectoryQueuedChannel) (a : ServiceDirectoryAcceptedChannel) (d : ServiceDirectory).
Implicit Types (t : dtask) (w : dworld) (extra : list (ProcessKey * Z)).

(** ** Rows *)

(** [r] becomes [r'], with the handles [extra] published at most. *)
Record row_step extra r r' : Prop := {
  rs_key : entry_in_use r' = true -> entry_in_use r = true /\ dr_key r' = dr_key r;
  rs_handles : row_handles r' ⊆+ row_handles r ++ extra;
}.

Lemma row_step_trans extra r r1 r2 : row_step extra r r1 -> row_step [] r1 r2 -> row_step extra r r2.
Proof.
  intros [K1 H1] [K2 H2]. split.
  - intros Hu. destruct (K2 Hu) as [Hu1 ->]. by apply K1.
  - etrans; [exact H2|]. by rewrite app_nil_r.
Qed.

(** The row's key and accepted records stay. *)
Lemma row_step_same r r' : entry_in_use r = true -> dr_key r' = dr_key r -> dr_accepted_channels r' = dr_accepted_channels r -> row_step [] r r'.
Proof.
  intros Hu Hk Ha. split; [done|]. unfold row_handles. rewrite Hu, Ha, app_nil_r. by destruct (entry_in_use r'); [|apply submseteq_nil_l].
Qed.

(** One element of a list changes. *)
Lemma flat_map_insert_sub {A B} (h : A -> list B) (l : list A) (j : nat) (x y : A) (more : list B) :
  l !! j = Some y -> h x ⊆+ h y ++ more -> flat_map h (<[j := x]> l) ⊆+ flat_map h l ++ more.
Proof.
  revert j. induction l as [|z l IH]; intros j Hj H; [done|]. destruct j as [|j]; simplify_eq/=.
  - etrans; [apply submseteq_app; [exact H|reflexivity]|]. by rewrite <- !app_assoc, (Permutation_app_comm more).
  - rewrite <- app_assoc. apply submseteq_app; [done|]. by apply IH.
Qed.

Lemma flat_map_sub {A B} (h : A -> list B) (f : A -> A) (l : list A) : (forall x, h (f x) ⊆+ h x) -> flat_map h (map f l) ⊆+ flat_map h l.
Proof. intros H. induction l as [|a l IH]; [done|]. cbn. by apply submseteq_app. Qed.

(** The record [j] of a row in use changes. *)
Lemma row_step_accepted r r' j a a' extra : entry_in_use r = true -> dr_key r' = dr_key r ->
  dr_accepted_channels r !! j = Some a -> dr_accepted_channels r' = <[j := a']> (dr_accepted_channels r) ->
  record_handle a' ⊆+ record_handle a ++ extra -> row_step extra r r'.
Proof.
  intros Hu Hk Ha Ha' H. split; [done|]. unfold row_handles. rewrite Hu, Ha'. destruct (entry_in_use r'); [|apply submseteq_nil_l].
  by eapply flat_map_insert_sub.
Qed.

(** A record that shows no handle. *)
Lemma row_step_quiet r r' j a' : entry_in_use r = true -> dr_key r' = dr_key r ->
  dr_accepted_channels r' = <[j := a']> (dr_accepted_channels r) -> has_handle a' = false -> row_step [] r r'.
Proof.
  intros Hu Hk Ha' H. destruct (dr_accepted_channels r !! j) as [a|] eqn:Ha.
  - eapply row_step_accepted; try done. unfold record_handle. rewrite H. apply submseteq_nil_l.
  - apply row_step_same; [done..|]. by rewrite Ha', list_insert_ge by (by apply lookup_ge_None).
Qed.

Lemma recycle_row_step r : row_step [] r (TryRecycleLocked r).2.
Proof.
  unfold TryRecycleLocked. destruct (_ || _); cbn [snd].
  - split; [done|]. by rewrite app_nil_r.
  - split; [by destruct (_ =? _)|]. destruct (_ =? _); apply submseteq_nil_l.
Qed.

Lemma clear_no_handle a : has_handle (ClearAcceptedLocked a) = false.
Proof. unfold has_handle, ClearAcceptedLocked. cbn. by destruct (_ =? _). Qed.

Lemma resolve_accepted_lookup r key a : ResolveAcceptedLocked r key = Some a ->
  dr_accepted_channels r !! Z.to_nat (ak_slot key) = Some a /\ accepted_in_use a = true.
Proof.
  unfold ResolveAcceptedLocked. destruct (_ || _); [done|]. unfold accepted_at. rewrite nth_lookup.
  destruct (dr_accepted_channels r !! Z.to_nat (ak_slot key)) as [b|]; [|done]. cbn [default from_option id]. destruct (accepted_in_use b) eqn:Hu; [|done]. cbn [negb orb].
  destruct (negb _); [done|]. by intros [= <-].
Qed.

(** ** The directory *)

Record dir_step extra d d' : Prop := {
  st_length : length (sd_rows d') = length (sd_rows d);
  st_keys : forall i r', sd_rows d' !! i = Some r' -> entry_in_use r' = true ->
    exists r, sd_rows d !! i = Some r /\ entry_in_use r = true /\ dr_key r' = dr_key r;
  st_handles : directory_handles d' ⊆+ directory_handles d ++ extra;
}.

Lemma dir_step_refl d extra : dir_step extra d d.
Proof. split; [done|by eauto|]. by apply submseteq_inserts_r. Qed.

Lemma dir_step_row d i r r' extra : sd_rows d !! i = Some r -> row_step extra r r' -> dir_step extra d (with_row d i r').
Proof.
  intros Hr [Hk Hh]. split; cbn [with_row sd_rows].
  - apply length_insert.
  - intros j x [[-> ->]|[Hne Hx]]%lookup_insert_cases Hu; [|by eauto]. destruct (Hk Hu) as [Hu0 He]. by exists r.
  - by eapply (flat_map_insert_sub row_handles).
Qed.

Lemma resolve_lookup d k r : ResolveExactLocked d k = Some r ->
  sd_rows d !! Z.to_nat (key_slot k) = Some r /\ entry_in_use r = true /\ dr_key r = k.
Proof.
  unfold ResolveExactLocked. destruct (negb _); [done|]. unfold directory_row. rewrite nth_lookup.
  destruct (sd_rows d !! Z.to_nat (key_slot k)) as [x|]; [|done]. cbn [default from_option id]. destruct (entry_in_use x) eqn:Hu; [|done]. cbn [negb orb].
  case_bool_decide; [|done]. by intros [= <-].
Qed.

Lemma dir_step_put d k r r' extra : ResolveExactLocked d k = Some r -> row_step extra r r' -> dir_step extra d (put_entry d k r').
Proof. intros (Hr & _)%resolve_lookup. by apply dir_step_row. Qed.

(** ** Sections *)

Section sections.
Context (addr : Z) (d : ServiceDirectory).

Lemma guarded_dir_step {A} (fail : ServiceDirectoryStatus -> A) body : dir_step [] d body.2 -> dir_step [] d (guarded d fail body).2.
Proof. intros H. unfold guarded. destruct (negb _); [apply dir_step_refl|done]. Qed.

Lemma locked_dir_step {A} (fail : ServiceDirectoryStatus -> A) body : dir_step [] d body.2 -> dir_step [] d (locked addr d fail body).2.
Proof. intros H. unfold locked. destruct (ReadyStatus addr d); try apply dir_step_refl. by apply guarded_dir_step. Qed.

(** A section that resolves its row first. *)
Ltac resolved Hr := destruct (ResolveExactLocked d _) as [r|] eqn:Hr; [|apply dir_step_refl].
Ltac refused := repeat (match goal with |- context [if ?c then _ else _] => destruct c end; try apply dir_step_refl).

Lemma resolved_same k r r' : ResolveExactLocked d k = Some r -> dr_key r' = dr_key r -> dr_accepted_channels r' = dr_accepted_channels r ->
  dir_step [] d (put_entry d k r').
Proof. intros Hr Hk Ha. eapply dir_step_put; [done|]. destruct (resolve_lookup d k r Hr) as (_ & Hu & _). by apply row_step_same. Qed.

Lemma resolved_recycle k r r' extra : ResolveExactLocked d k = Some r -> row_step extra r r' ->
  dir_step extra d (put_entry d k (TryRecycleLocked r').2).
Proof. intros Hr Hs. eapply dir_step_put; [done|]. eapply row_step_trans; [done|apply recycle_row_step]. Qed.

Lemma resolved_same_row k r r' : ResolveExactLocked d k = Some r -> dr_key r' = dr_key r -> dr_accepted_channels r' = dr_accepted_channels r ->
  row_step [] r r'.
Proof. intros Hr Hk Ha. destruct (resolve_lookup d k r Hr) as (_ & Hu & _). by apply row_step_same. Qed.

Lemma publish_keys reservation owner : dir_step [] d (ServiceDirectoryPublishRegistration addr d reservation owner).1.2.
Proof.
  unfold ServiceDirectoryPublishRegistration. destruct reservation as [supplied|]; [|apply dir_step_refl]. destruct (_ || _); [apply dir_step_refl|].
  match goal with |- context [locked addr d id ?body] => pose proof (locked_dir_step id body) as H; destruct (locked addr d id body) as [s d'] end.
  apply H. resolved Hr. refused. by eapply resolved_same.
Qed.

Lemma ready_keys service owner bit : dir_step [] d (ServiceDirectoryCommitJointReady addr d service owner bit).1.2.
Proof.
  unfold ServiceDirectoryCommitJointReady. destruct bit as [bit|]; [|apply dir_step_refl]. destruct (_ || _); [apply dir_step_refl|].
  match goal with |- context [locked addr d id ?body] => pose proof (locked_dir_step id body) as H; destruct (locked addr d id body) as [s d'] end.
  apply H. resolved Hr. refused. by eapply resolved_same.
Qed.

Lemma abort_keys reservation owner : dir_step [] d (ServiceDirectoryAbortRegistration addr d reservation owner).1.2.
Proof.
  unfold ServiceDirectoryAbortRegistration. destruct reservation as [supplied|]; [|apply dir_step_refl]. destruct (_ || _); [apply dir_step_refl|].
  match goal with |- context [locked addr d id ?body] => pose proof (locked_dir_step id body) as H; destruct (locked addr d id body) as [s d'] end.
  apply H. resolved Hr. destruct (negb _); [apply dir_step_refl|]. destruct (_ || _); [apply dir_step_refl|].
  eapply resolved_recycle; [done|]. eapply resolved_same_row; [done|..]; by destruct (bool_decide _).
Qed.

Lemma lookup_keys name : dir_step [] d (ServiceDirectoryLookup addr d name).2.
Proof.
  unfold ServiceDirectoryLookup. destruct name as [name|]; [|apply dir_step_refl]. destruct (negb _); [apply dir_step_refl|].
  apply locked_dir_step. destruct (find_name d name) as [i|] eqn:Hf; [|apply dir_step_refl].
  apply find_some in Hf as [_ [Hu _]%andb_true_iff]. unfold directory_row in *. rewrite nth_lookup in *.
  destruct (sd_rows d !! i) as [r|] eqn:Hr; [|done]. cbn [default from_option id] in *. destruct (dr_state r); try apply dir_step_refl.
  destruct (free_operation r); [|apply dir_step_refl]. eapply dir_step_row; [done|]. by apply row_step_same.
Qed.

Lemma unpin_keys pin : dir_step [] d (ServiceDirectoryReleaseOperation addr d pin).1.2.
Proof.
  unfold ServiceDirectoryReleaseOperation. destruct pin as [pin|]; [|apply dir_step_refl]. destruct (negb _); [apply dir_step_refl|].
  match goal with |- context [locked addr d id ?body] => pose proof (locked_dir_step id body) as H; destruct (locked addr d id body) as [s d'] end.
  apply H. resolved Hr. destruct (ValidateOperationLocked r pin); try apply dir_step_refl.
  eapply resolved_recycle; [done|]. by eapply resolved_same_row.
Qed.

Lemma enqueue_keys pin made : dir_step [] d (ConnectEnqueueLocked d pin made).2.
Proof.
  apply guarded_dir_step. resolved Hr. destruct (connect_status r pin); try apply dir_step_refl. refused. by eapply resolved_same.
Qed.

(** The scans of a queue change the queue. *)
Lemma remove_same r channel q r' : RemoveQueuedLocked r channel = Some (q, r') ->
  dr_key r' = dr_key r /\ dr_accepted_channels r' = dr_accepted_channels r.
Proof.
  unfold RemoveQueuedLocked. generalize (Z.to_nat (dr_accept_count r)), 0. intros n. induction n as [|n IH]; intros o; [done|].
  cbn [remove_scan]. destruct (negb _); [apply IH|]. by intros [= <- <-].
Qed.

Lemma ready_same n r channel : forall o r', ready_scan n r channel o = Some r' ->
  dr_key r' = dr_key r /\ dr_accepted_channels r' = dr_accepted_channels r.
Proof. induction n as [|n IH]; intros o r'; [done|]. cbn [ready_scan]. destruct (_ && _); [by intros [= <-]|apply IH]. Qed.

(** The end of a publisher. *)
Lemma publisher_keys k r r1 extra : ResolveExactLocked d k = Some r -> row_step extra r r1 ->
  dir_step extra d (put_entry d k r1) /\ dir_step extra d (put_entry d k (TryRecycleLocked (with_publishers r1 (wrap32 (dr_external_publishers r1 - 1)))).2).
Proof.
  intros Hr Hs. split; [by eapply dir_step_put|]. eapply resolved_recycle; [done|]. destruct Hs as [Hk Hh]. by split.
Qed.

Lemma unpublish_keys k channel : dir_step [] d (ConnectUnpublishLocked d k channel).2.
Proof.
  unfold ConnectUnpublishLocked. resolved Hr.
  assert (forall r1, dr_key r1 = dr_key r -> dr_accepted_channels r1 = dr_accepted_channels r -> row_step [] r r1) as Hs
    by (intros; by eapply resolved_same_row).
  destruct (RemoveQueuedLocked r channel) as [[q r1]|] eqn:E.
  - destruct (remove_same _ _ _ _ E). destruct (_ =? _); apply (publisher_keys k r r1 [] Hr); by apply Hs.
  - destruct (_ =? _); apply (publisher_keys k r r [] Hr); by apply Hs.
Qed.

Lemma finish_keys k channel status : dir_step [] d (ConnectFinishLocked d k channel status).2.
Proof.
  unfold ConnectFinishLocked. resolved Hr.
  assert (forall r1, dr_key r1 = dr_key r -> dr_accepted_channels r1 = dr_accepted_channels r -> row_step [] r r1) as Hs
    by (intros; by eapply resolved_same_row).
  destruct (if _ && _ then _ else None) as [r1|] eqn:E1.
  - destruct (_ && _); [|done]. destruct (ready_same _ _ _ _ _ E1). destruct (_ =? _); apply (publisher_keys k r r1 [] Hr); by apply Hs.
  - destruct (if bool_decide (dr_state r = EntryActive) then _ else None) as [[q r1]|] eqn:E2.
    + destruct (bool_decide (dr_state r = EntryActive)); [|done]. destruct (remove_same _ _ _ _ E2).
      destruct (_ =? _); apply (publisher_keys k r r1 [] Hr); by apply Hs.
    + destruct (_ =? _); apply (publisher_keys k r r [] Hr); by apply Hs.
Qed.

(** The new record of a claim shows no handle yet. *)
Lemma claim_keys k owner process credential : dir_step [] d (AcceptClaimLocked d k owner process credential).2.
Proof.
  apply guarded_dir_step. resolved Hr. destruct (accept_identity r owner process credential); try apply dir_step_refl.
  destruct (_ || _); [apply dir_step_refl|]. destruct (DequeueLocked r) as [q r1] eqn:E.
  assert (dr_key r1 = dr_key r /\ dr_accepted_channels r1 = dr_accepted_channels r) as [Hk Ha] by (unfold DequeueLocked in E; by injection E as <- <-).
  unfold AllocateAcceptedLocked. destruct (find _ _) as [j|].
  - eapply dir_step_put; [done|]. destruct (resolve_lookup d k r Hr) as (_ & Hu & _). eapply (row_step_quiet _ _ j); [done|done| |].
    + cbn. by rewrite list_insert_insert_eq, Ha.
    + done.
  - by eapply resolved_same.
Qed.

Lemma accept_keys key obj published : dir_step (new_handle d key published) d (AcceptFinishLocked d (ak_service key) key obj published).2.
Proof.
  unfold AcceptFinishLocked, new_handle. destruct (ResolveExactLocked d (ak_service key)) as [r|] eqn:Hr; [|apply dir_step_refl].
  destruct (resolve_lookup d _ r Hr) as (_ & Hu & _).
  assert (row_step (match published with Some handle => match ResolveAcceptedLocked r key with Some a => [(ac_server_process a, handle)] | None => [] end | None => [] end)
    r (accept_commit r key obj published).2) as Hs.
  { unfold accept_commit. destruct (ResolveAcceptedLocked r key) as [a|] eqn:Ha.
    - destruct (resolve_accepted_lookup r key a Ha) as [Hj _]. destruct published as [handle|].
      + eapply row_step_accepted; [done|done|exact Hj|done|]. cbn. by apply submseteq_inserts_l.
      + destruct (_ && _); [|by apply row_step_same]. eapply (row_step_quiet _ _ _ (ClearAcceptedLocked a)); [done|done|done|apply clear_no_handle].
    - destruct published; by apply row_step_same. }
  destruct (accept_commit r key obj published) as [[committed restored] r1]. cbn [snd] in Hs.
  destruct published as [handle|], (_ =? _); by apply (publisher_keys (ak_service key) r r1 _ Hr).
Qed.

Lemma release_begin_keys key : dir_step [] d (ReleaseAcceptedBeginLocked addr d key).2.
Proof.
  unfold ReleaseAcceptedBeginLocked. destruct key as [key|]; [|apply dir_step_refl]. destruct (negb _); [apply dir_step_refl|].
  apply locked_dir_step. resolved Hr. destruct (ResolveAcceptedLocked r key) as [a|] eqn:Ha; [|apply dir_step_refl].
  destruct (_ || _); [apply dir_step_refl|]. destruct (negb _ && _) eqn:E; [apply dir_step_refl|].
  destruct (resolve_lookup d _ r Hr) as (_ & Hu & _). destruct (resolve_accepted_lookup r key a Ha) as [Hj _].
  eapply dir_step_put; [done|]. eapply row_step_accepted; [done|done|exact Hj|done|]. rewrite app_nil_r. unfold record_handle.
  change (has_handle (releasing_accepted a true)) with true. assert (has_handle a = true) as ->; [|done].
  unfold has_handle. apply andb_false_iff in E as [E|E]; apply negb_false_iff in E; rewrite E; [done|apply orb_true_r].
Qed.

Lemma release_finish_keys key status : dir_step [] d (ReleaseAcceptedFinishLocked d key status).1.2.
Proof.
  unfold ReleaseAcceptedFinishLocked.
  match goal with |- context [guarded d ?f ?body] => pose proof (guarded_dir_step f body) as H; destruct (guarded d f body) as [s d'] end.
  apply H. resolved Hr. destruct (ResolveAcceptedLocked r key) as [a|] eqn:Ha; [|apply dir_step_refl].
  destruct (_ || _) eqn:E; [apply dir_step_refl|]. apply orb_false_iff in E as [E%negb_false_iff%bool_decide_eq_true _].
  destruct (resolve_lookup d _ r Hr) as (_ & Hu & _). destruct (resolve_accepted_lookup r key a Ha) as [Hj _]. destruct (bool_decide _).
  - eapply resolved_recycle; [done|]. eapply (row_step_quiet _ _ _ (ClearAcceptedLocked a)); [done|done|done|apply clear_no_handle].
  - eapply dir_step_put; [done|]. eapply row_step_accepted; [done|done|exact Hj|done|]. rewrite app_nil_r. unfold record_handle, has_handle.
    cbn. rewrite E. done.
Qed.

Lemma defer_keys process : dir_step [] d (ServiceDirectoryDeferAcceptedProcess addr d process).2.
Proof.
  unfold ServiceDirectoryDeferAcceptedProcess. destruct (negb _); [apply dir_step_refl|]. apply locked_dir_step. cbn [snd].
  assert (forall r, entry_in_use (defer_row process r) = entry_in_use r /\ dr_key (defer_row process r) = dr_key r) as Hid
    by (intros r; unfold defer_row; by destruct (negb _)).
  split; cbn [sd_rows].
  - apply length_map.
  - intros i r' Hr Hu. rewrite list_lookup_fmap in Hr. destruct (sd_rows d !! i) as [r|]; [|done]. injection Hr as <-.
    destruct (Hid r) as [Hu' Hk]. exists r. rewrite <- Hu'. done.
  - rewrite app_nil_r. apply flat_map_sub. intros r. unfold row_handles. destruct (Hid r) as [-> _]. unfold defer_row.
    destruct (entry_in_use r) eqn:Hu; cbn [negb]; [|done]. apply flat_map_sub. intros a. unfold record_handle, has_handle. by destruct (belongs_to process a).
Qed.

Lemma scan_keys : dir_step [] d (DriveDeferredScanLocked addr d).2.
Proof.
  unfold DriveDeferredScanLocked. apply locked_dir_step. destruct (deferred_scan _ _ _ _) as [keys scanned]. split; [done|by eauto|].
  cbn. by rewrite app_nil_r.
Qed.

Lemma detach_keys r : entry_in_use r = true -> row_step [] r (detach_channels r).2.
Proof.
  intros Hu. unfold detach_channels. destruct (negb _); [by apply row_step_same|].
  assert (forall n r1, dr_key (detach_queue n r1).2 = dr_key r1 /\ dr_accepted_channels (detach_queue n r1).2 = dr_accepted_channels r1 /\
    dr_state (detach_queue n r1).2 = dr_state r1) as Hq.
  { intros n. induction n as [|n IH]; intros r1; [done|]. cbn [detach_queue]. destruct (DequeueLocked r1) as [q r2] eqn:E.
    unfold DequeueLocked in E. injection E as <- <-. specialize (IH (with_queue r1 (<[Z.to_nat (dr_accept_head r1) := zero_queued]> (dr_accept_queue r1))
      (if dr_accept_count r1 - 1 =? 0 then 0 else (dr_accept_head r1 + 1) mod kServiceDirectoryAcceptCapacity) (dr_accept_count r1 - 1))).
    destruct (detach_queue n _) as [batch r3]. exact IH. }
  destruct (Hq (Z.to_nat (dr_accept_count r)) r) as (Hk & Ha & Hs). destruct (detach_queue _ r) as [batch r1]. cbn [snd] in *.
  unfold detach_accepted. cbn [snd]. split; [done|]. rewrite app_nil_r. unfold row_handles. rewrite Hu.
  match goal with |- (if ?c then _ else _) ⊆+ _ => destruct c; [|apply submseteq_nil_l] end. cbn. rewrite Ha. apply flat_map_sub. intros a. unfold record_handle. destruct (close_takes a); [|done]. rewrite clear_no_handle. apply submseteq_nil_l.
Qed.

Lemma close_begin_keys k owner reason : dir_step [] d (CloseBeginLocked addr d k owner reason).2.
Proof.
  unfold CloseBeginLocked. destruct (_ || _); [apply dir_step_refl|]. apply locked_dir_step. resolved Hr. destruct (negb _); [apply dir_step_refl|].
  set (r0 := if _ || _ then _ else _). destruct (resolve_lookup d k r Hr) as (_ & Hu & _).
  assert (row_step [] r r0 /\ entry_in_use r0 = true) as [Hs Hu0] by (subst r0; destruct (_ || _); split; try done; by apply row_step_same).
  clearbody r0. destruct (negb (bool_decide (dr_state r0 = EntryClosing))); [apply dir_step_refl|].
  destruct (negb _ || _); [by eapply dir_step_put|]. pose proof (detach_keys r0 Hu0) as Hd. destruct (detach_channels r0) as [[|c batch] r1]; cbn [snd] in Hd.
  - destruct (TryRecycleLocked r1) as [recycled r2] eqn:E. pose proof (recycle_row_step r1) as Hrec. rewrite E in Hrec.
    eapply dir_step_put; [done|]. eapply row_step_trans; [|exact Hrec]. by eapply row_step_trans.
  - eapply dir_step_put; [done|]. eapply row_step_trans; [exact Hs|]. destruct Hd. by split.
Qed.

Lemma close_finish_keys k owner n drained failed first_failure :
  dir_step [] d (CloseFinishLocked d k owner n drained failed first_failure).2.
Proof.
  unfold CloseFinishLocked. apply guarded_dir_step. resolved Hr. destruct (_ || _); [apply dir_step_refl|].
  match goal with |- context [TryRecycleLocked ?x] => pose proof (recycle_row_step x) as Hs; destruct (TryRecycleLocked x) as [recycled r1] end.
  eapply dir_step_put; [done|]. eapply row_step_trans; [|exact Hs]. by eapply resolved_same_row.
Qed.

End sections.

(** ** Calls *)

Definition published_by w (c : dcall) : list (ProcessKey * Z) :=
  match c with
  | DAccepted n published => match w_tasks w !! n with Some (TAccept key _) => new_handle (w_dir w) key published | _ => [] end
  | _ => []
  end.

(** Every call but a reservation is a step of the directory. *)
Lemma dexec_keys addr w c answer w' : dexec addr w c = Some (answer, w') ->
  match c with
  | DReserve _ _ _ _ => True
  | _ => dir_step (published_by w c) (w_dir w) (w_dir w') /\ w_generations w' = w_generations w
  end.
Proof.
  destruct c as [name slot owner credential|reservation owner|service owner bit|reservation owner|name|pin|pin made|n|n status
    |service owner process credential|n published|key|n status|process| |service owner reason|n answers|process handle|expected]; cbn [dexec published_by]; [done|..].
  - pose proof (publish_keys addr (w_dir w) (Some reservation) owner) as H. destruct (ServiceDirectoryPublishRegistration _ _ _ _) as [[? ?] ?]. by intros [= _ <-].
  - pose proof (ready_keys addr (w_dir w) service owner (Some bit)) as H. destruct (ServiceDirectoryCommitJointReady _ _ _ _ _) as [[? ?] ?]. by intros [= _ <-].
  - pose proof (abort_keys addr (w_dir w) (Some reservation) owner) as H. destruct (ServiceDirectoryAbortRegistration _ _ _ _) as [[? ?] ?]. by intros [= _ <-].
  - pose proof (lookup_keys addr (w_dir w) (Some name)) as H. destruct (ServiceDirectoryLookup _ _ _) as [[? ?] ?]. by intros [= _ <-].
  - pose proof (unpin_keys addr (w_dir w) (Some pin)) as H. destruct (ServiceDirectoryReleaseOperation _ _ _) as [[? ?] ?]. by intros [= _ <-].
  - pose proof (enqueue_keys (w_dir w) pin made) as H. destruct (ConnectEnqueueLocked _ _ _) as [s ?]. destruct (bool_decide (s = DirOk)); by intros [= _ <-].
  - destruct (w_tasks w !! n) as [[k ch| | |]|]; try done. pose proof (unpublish_keys (w_dir w) k ch) as H.
    destruct (ConnectUnpublishLocked _ _ _) as [[? ?] ?]. by intros [= _ <-].
  - destruct (w_tasks w !! n) as [[k ch| | |]|]; try done. pose proof (finish_keys (w_dir w) k ch status) as H.
    destruct (ConnectFinishLocked _ _ _ _) as [? ?]. by intros [= _ <-].
  - pose proof (claim_keys (w_dir w) service owner process credential) as H. destruct (AcceptClaimLocked _ _ _ _ _) as [[?|[? ?]] ?]; by intros [= _ <-].
  - destruct (w_tasks w !! n) as [[|key obj| |]|]; try done. pose proof (accept_keys (w_dir w) key obj published) as H.
    destruct (AcceptFinishLocked _ _ _ _ _) as [? ?]. by intros [= _ <-].
  - pose proof (release_begin_keys addr (w_dir w) (Some key)) as H. destruct (ReleaseAcceptedBeginLocked _ _ _) as [[[? ?]|?] ?]; by intros [= _ <-].
  - destruct (w_tasks w !! n) as [[| |key receipt|]|]; try done. pose proof (release_finish_keys (w_dir w) key status) as H.
    destruct (ReleaseAcceptedFinishLocked _ _ _) as [[[? ?] ?] ?]. by intros [= _ <-].
  - pose proof (defer_keys addr (w_dir w) process) as H. destruct (ServiceDirectoryDeferAcceptedProcess _ _ _) as [? ?]. by intros [= _ <-].
  - pose proof (scan_keys addr (w_dir w)) as H. destruct (DriveDeferredScanLocked _ _) as [[?|?] ?]; by intros [= _ <-].
  - pose proof (close_begin_keys addr (w_dir w) service owner reason) as H. destruct (CloseBeginLocked _ _ _ _ _) as [[?|?] ?]; by intros [= _ <-].
  - destruct (w_tasks w !! n) as [[| | |k owner batch]|]; try done. destruct (drain_batch _ _ _ _) as [[drained failed] ff].
    pose proof (close_finish_keys (w_dir w) k owner (Z.of_nat (length batch)) drained failed ff) as H.
    destruct (CloseFinishLocked _ _ _ _ _ _ _) as [? ?]. by intros [= _ <-].
  - intros [= _ <-]. split; [apply dir_step_refl|done].
  - intros [= _ <-]. split; [apply dir_step_refl|done].
Qed.

(** ** Keys over a run *)

(** The generation counters only grow. *)
Definition grown (g g' : list Z) : Prop := forall i x, g !! i = Some x -> exists y, g' !! i = Some y /\ x <= y.

#[export] Instance grown_preorder : PreOrder grown.
Proof.
  split; [intros g i x Hx; by exists x|]. intros g1 g2 g3 H1 H2 i x Hx. destruct (H1 i x Hx) as (y & Hy & Hle).
  destruct (H2 i y Hy) as (z & Hz & Hle'). exists z. split; [done|lia].
Qed.

Notation capacity := (Z.to_nat kServiceDirectoryCapacity).

(** The key of a row in use names its slot, with a generation its counter has
    reached. *)
Definition keys_issued d (generations : list Z) : Prop :=
  forall i r, sd_rows d !! i = Some r -> entry_in_use r = true ->
  key_slot (dr_key r) = Z.of_nat i /\ exists g, generations !! i = Some g /\ key_generation (dr_key r) <= g.

(** A reservation: rows in use are those from before, or have a key above the
    counter it found. *)
Record reserve_step d generations d' generations' : Prop := {
  rv_length : length (sd_rows d') = length (sd_rows d) /\ length generations' = length generations;
  rv_grown : grown generations generations';
  rv_keys : forall i r', sd_rows d' !! i = Some r' -> entry_in_use r' = true ->
    (exists r, sd_rows d !! i = Some r /\ entry_in_use r = true /\ dr_key r' = dr_key r) \/
    (key_slot (dr_key r') = Z.of_nat i /\ exists g, generations !! i = Some g /\ g < key_generation (dr_key r') /\
       generations' !! i = Some (key_generation (dr_key r')));
}.

Lemma reserve_step_refl d generations : reserve_step d generations d generations.
Proof. split; [done|done|]. intros i r' Hr Hu. left. by exists r'. Qed.

Lemma reserve_scan_keys name manifest_slot owner credential todo : forall slot d generations exhausted,
  (slot + todo <= length generations)%nat ->
  let '(_, d', generations') := reserve_scan todo slot d generations exhausted
    (fun row key => reserved_row row name manifest_slot owner credential key) in
  reserve_step d generations d' generations'.
Proof.
  induction todo as [|todo IH]; intros slot d generations exhausted Hle; cbn [reserve_scan]; [apply reserve_step_refl|].
  destruct (negb _); [apply IH; lia|]. unfold AllocateServiceGeneration.
  destruct (lookup_lt_is_Some_2 generations slot ltac:(lia)) as [g Hg]. rewrite (nth_lookup_Some _ _ _ _ Hg).
  destruct (Z.ltb_spec g kServiceKeyGenerationMaximum) as [Hlt|Hge]; cbn [fst snd].
  - destruct (Z.eqb_spec (g + 1) 0) as [Hz|Hnz].
    + assert (grown generations (<[slot := g + 1]> generations)) as Hgrow.
      { intros i x Hx. destruct (decide (i = slot)) as [->|Hne]; [|exists x; by rewrite list_lookup_insert_ne].
        exists (g + 1). rewrite list_lookup_insert_eq by (by eapply lookup_lt_Some). split; [done|]. rewrite Hg in Hx. injection Hx as <-. lia. }
      specialize (IH (S slot) (with_row d slot (ClearRowLocked true)) (<[slot := g + 1]> generations) true ltac:(rewrite length_insert; lia)).
      destruct (reserve_scan _ _ _ _ _ _) as [[? d'] generations']. destruct IH as [[L1 L2] Hgr Hk]. cbn [with_row sd_rows] in L1, Hk.
      rewrite !length_insert in *. split; [done|by etrans|]. intros i r' Hr Hu. destruct (Hk i r' Hr Hu) as [(r & Hx & Hur & ?)|(Hs & x & Hx & ? & ?)].
      * apply lookup_insert_cases in Hx as [[-> ->]|[Hne Hx]]; [done|]. left. by exists r.
      * right. split; [done|]. apply lookup_insert_cases in Hx as [[-> ->]|[Hne Hx]]; [exists g; split_and!; [done|lia|done]|by exists x].
    + split; cbn [with_row sd_rows]; [by rewrite !length_insert| |].
      * intros i x Hx. destruct (decide (i = slot)) as [->|Hne]; [|exists x; by rewrite list_lookup_insert_ne].
        exists (g + 1). rewrite list_lookup_insert_eq by (by eapply lookup_lt_Some). split; [done|]. rewrite Hg in Hx. injection Hx as <-. lia.
      * intros i r' [[-> ->]|[Hne Hx]]%lookup_insert_cases Hu; [right|left; by exists r']. split; [done|]. exists g.
        split_and!; [done|cbn; lia|]. by rewrite list_lookup_insert_eq by (by eapply lookup_lt_Some).
  - cbn [Z.eqb]. specialize (IH (S slot) (with_row d slot (ClearRowLocked true)) generations true ltac:(lia)).
    destruct (reserve_scan _ _ _ _ _ _) as [[? d'] generations']. destruct IH as [[L1 L2] Hgr Hk]. cbn [with_row sd_rows] in L1, Hk.
    rewrite length_insert in L1. split; [done|done|]. intros i r' Hr Hu. destruct (Hk i r' Hr Hu) as [(r & Hx & Hur & ?)|?]; [left|by right].
    apply lookup_insert_cases in Hx as [[-> ->]|[Hne Hx]]; [done|]. by exists r.
Qed.

Lemma register_keys addr d generations name manifest_slot owner credential : length generations = capacity ->
  let '(_, d', generations') :=
    ServiceDirectoryReserveRegistration addr d generations (Some name) manifest_slot owner (Some credential) in
  reserve_step d generations d' generations'.
Proof.
  intros Hl. unfold ServiceDirectoryReserveRegistration. destruct (_ || _); [apply reserve_step_refl|].
  destruct (ReadyStatus addr d); try apply reserve_step_refl. destruct (negb _); [apply reserve_step_refl|].
  destruct (conflict _ _ _); try apply reserve_step_refl. apply reserve_scan_keys. by rewrite Hl.
Qed.

(** Seen from the keys, every call is such a step. *)
Lemma dexec_reserve_step addr w c answer w' : length (w_generations w) = capacity -> dexec addr w c = Some (answer, w') ->
  reserve_step (w_dir w) (w_generations w) (w_dir w') (w_generations w').
Proof.
  intros Hl Hex. pose proof (dexec_keys addr w c answer w' Hex) as Hk. destruct c as [name slot owner credential| | | | | | | | | | | | | | | | | |].
  { cbn [dexec] in Hex. pose proof (register_keys addr (w_dir w) (w_generations w) name slot owner credential Hl) as Hs.
    destruct (ServiceDirectoryReserveRegistration _ _ _ _ _ _ _) as [[[? ?] d'] generations']. by injection Hex as _ <-. }
  all: destruct Hk as [[Hlen Hkeys _] ->]; split; [done|done|]; intros i r' Hr Hu; left; by apply Hkeys.
Qed.

(** Every key in use was issued, over any run. *)
Definition issued w : Prop := length (w_generations w) = capacity /\ keys_issued (w_dir w) (w_generations w).

Lemma step_issued d generations d' generations' : reserve_step d generations d' generations' -> keys_issued d generations -> keys_issued d' generations'.
Proof.
  intros [_ Hg Hk] H i r' Hr Hu. destruct (Hk i r' Hr Hu) as [(r & Hr0 & Hu0 & ->)|(Hs & g & _ & _ & Hg')].
  - destruct (H i r Hr0 Hu0) as (Hs & g & Hlook & Hle). split; [done|]. destruct (Hg i g Hlook) as (y & Hy & ?). exists y. split; [done|lia].
  - split; [done|]. by eexists.
Qed.

Lemma druns_issued addr w h w' : druns addr w h w' -> issued w -> issued w' /\ grown (w_generations w) (w_generations w').
Proof.
  induction 1 as [w|w c answer w1 h w2 _ Hex _ IH]; intros [Hl H]; [done|]. pose proof (dexec_reserve_step addr w c answer w1 Hl Hex) as Hs.
  destruct IH as [H2 Hg]; [split; [by rewrite (proj2 (rv_length _ _ _ _ Hs))|by eapply step_issued]|].
  split; [done|]. etrans; [apply (rv_grown _ _ _ _ Hs)|done].
Qed.

(** A key that was issued and names nothing. *)
Record spent (k : ServiceKey) w : Prop := {
  sp_gone : forall i r, sd_rows (w_dir w) !! i = Some r -> entry_in_use r = true -> dr_key r <> k;
  sp_issued : exists g, w_generations w !! Z.to_nat (key_slot k) = Some g /\ key_generation k <= g;
}.

Lemma druns_spent addr k w h w' : druns addr w h w' -> issued w -> spent k w -> spent k w'.
Proof.
  induction 1 as [w|w c answer w1 h w2 _ Hex _ IH]; intros [Hl H] [Hgone (g & Hg & Hle)]; [by split; [|exists g]|].
  pose proof (dexec_reserve_step addr w c answer w1 Hl Hex) as Hs. pose proof (step_issued _ _ _ _ Hs H) as H1. destruct Hs as [[_ Hl1] Hgrow Hk].
  apply IH; [split; [by rewrite Hl1|done]|]. split.
  - intros i r' Hr Hu He. destruct (Hk i r' Hr Hu) as [(r & Hr0 & Hu0 & He0)|(Hs & x & Hx & Hlt & _)]; [eapply Hgone; [done..|congruence]|].
    subst k. rewrite Hs, Nat2Z.id, Hx in Hg. injection Hg as <-. lia.
  - destruct (Hgrow _ g Hg) as (y & Hy & ?). exists y. split; [done|lia].
Qed.

Lemma spent_unresolved k w : spent k w -> ResolveExactLocked (w_dir w) k = None.
Proof.
  intros [Hgone _]. destruct (ResolveExactLocked (w_dir w) k) as [r|] eqn:Hr; [|done]. apply resolve_lookup in Hr as (Hr & Hu & He).
  by destruct (Hgone _ r Hr Hu).
Qed.

(** A key that named a registration and names none any more is spent. *)
Lemma unresolved_spent k r w w' : issued w -> issued w' -> grown (w_generations w) (w_generations w') ->
  ResolveExactLocked (w_dir w) k = Some r -> ResolveExactLocked (w_dir w') k = None -> spent k w'.
Proof.
  intros [_ H] [_ H'] Hg Hr Hnone. assert (ServiceKeyIsValid k = true) as Hv.
  { unfold ResolveExactLocked in Hr. by destruct (ServiceKeyIsValid k). }
  apply resolve_lookup in Hr as (Hr & Hu & He). split.
  - intros i r' Hr' Hu' He'. destruct (H' i r' Hr' Hu') as [Hs _]. rewrite He' in Hs. unfold ResolveExactLocked, directory_row in Hnone.
    rewrite Hv, Hs, Nat2Z.id, (nth_lookup_Some _ _ _ _ Hr'), Hu', (bool_decide_true _ He') in Hnone. discriminate Hnone.
  - destruct (H _ r Hr Hu) as (_ & g & Hlook & Hle). rewrite He in Hle. destruct (Hg _ g Hlook) as (y & Hy & ?). exists y. split; [done|lia].
Qed.
