(* ===== verification/ServiceDirectoryWorld.v ===== *)
(** * The invariant of the directory

    Every step of a run keeps the directory canonical, each row tied to the
    calls under way on it, names and keys unique, and every endpoint receipt in
    exactly one place. *)

From S2P Require Import Prelude ServiceTransition Bytes KObject HandleTable ChannelCore Credentials.
From S2P Require Import Sha256 ServiceManifest ServiceManifestGraph ServiceLifecycleBroker ServiceDirectory ServiceDirectoryRows ServiceDirectoryInv.
From S2P Require Import ServiceDirectoryClose ServiceDirectoryRuns ServiceDirectoryKeys.

Implicit Types (r : ServiceDirectoryRow) (q : ServiceDirectoryQueuedChannel) (a : ServiceDirectoryAcceptedChannel).
Implicit Types (t : dtask) (ts : list dtask) (w : dworld).

#[local] Arguments sumZ : simpl never.

(** ** Tasks by row *)

Definition task_slot t : Z := key_slot (task_service t).
Definition tasks_at (i : nat) ts : list dtask := filter (fun t => task_slot t = Z.of_nat i) ts.
Definition tasks_off (i : nat) ts : list dtask := filter (fun t => task_slot t <> Z.of_nat i) ts.

Lemma tasks_split i ts : ts ≡ₚ tasks_at i ts ++ tasks_off i ts.
Proof. symmetry. apply filter_app_complement. Qed.

Lemma tasks_at_off k i ts : k <> i -> tasks_at k ts = tasks_at k (tasks_off i ts).
Proof.
  intros Hne. unfold tasks_at, tasks_off. induction ts as [|t ts IH]; [done|].
  rewrite (filter_cons _ t ts), (filter_cons (fun t => task_slot t <> Z.of_nat i) t ts).
  destruct (decide (task_slot t = Z.of_nat k)) as [Hk|Hk], (decide (task_slot t <> Z.of_nat i)) as [Hi|Hi]; rewrite ?filter_cons; rewrite IH.
  - by rewrite decide_True by done.
  - exfalso. apply Hi. lia.
  - by rewrite decide_False by done.
  - done.
Qed.

Lemma tasks_add i ts t : task_slot t = Z.of_nat i -> tasks_at i (ts ++ [t]) = tasks_at i ts ++ [t] /\ tasks_off i (ts ++ [t]) = tasks_off i ts.
Proof.
  intros Ht. unfold tasks_at, tasks_off. rewrite !filter_app, !filter_cons, !filter_nil. rewrite decide_True by done.
  rewrite decide_False by (intros H; by apply H). by rewrite app_nil_r.
Qed.

Lemma tasks_end i ts n t : ts !! n = Some t -> task_slot t = Z.of_nat i ->
  exists l1 l2, tasks_at i ts = l1 ++ t :: l2 /\ tasks_at i (delete n ts) = l1 ++ l2 /\ tasks_off i (delete n ts) = tasks_off i ts.
Proof.
  intros Hn Ht. pose proof (take_drop_middle ts n t Hn) as Hs. pose proof (delete_take_drop ts n) as Hd.
  set (m1 := take n ts) in *. set (m2 := drop (S n) ts) in *. rewrite Hd, <- Hs.
  exists (tasks_at i m1), (tasks_at i m2). unfold tasks_at, tasks_off.
  rewrite !filter_app, !filter_cons. rewrite decide_True by done. rewrite decide_False by (intros H; by apply H). done.
Qed.

(** ** The invariant *)

Record dinv w : Prop := {
  di_open : sd_initialized (w_dir w) = kDirectoryInitializeReady /\ sd_state (w_dir w) = DirectoryOpen /\
    sd_endpoint_owner (w_dir w) <> 0 /\ 0 <= sd_deferred_scan_hint (w_dir w) < kServiceDirectoryDeferredAcceptedCapacity;
  di_length : length (sd_rows (w_dir w)) = capacity;
  di_rows : forall i r, sd_rows (w_dir w) !! i = Some r -> row_state i r (tasks_at i (w_tasks w));
  di_homes : Forall (fun t => 0 <= task_slot t < kServiceDirectoryCapacity) (w_tasks w);
  di_generations : length (w_generations w) = capacity /\
    Forall (fun g => 0 <= g <= kServiceKeyGenerationMaximum) (w_generations w);
  di_keys : forall i r g, sd_rows (w_dir w) !! i = Some r -> entry_in_use r = true -> w_generations w !! i = Some g ->
    0 < key_generation (dr_key r) <= g;
  di_unique : forall i j r r', sd_rows (w_dir w) !! i = Some r -> sd_rows (w_dir w) !! j = Some r' ->
    entry_in_use r = true -> entry_in_use r' = true -> i <> j ->
    NameEquals (dr_name r) (dr_name r') = false /\
    ticket_service_identity (token_start (dr_owner r)) <> ticket_service_identity (token_start (dr_owner r'));
  di_given : NoDup (map rc_channel (w_given w));
  di_connects : forall k ch, TConnect k ch ∈ w_tasks w -> ch ∈ map rc_channel (w_given w);
  di_receipts : w_given w ≡ₚ flat_map row_receipts (sd_rows (w_dir w)) ++ flat_map task_receipts (w_tasks w) ++ w_done w ++ w_back w;
}.

Lemma row_state_ok i r ts : row_state i r ts -> row_ok i r.
Proof. intros [H|[[->| ->] _]]; [left; apply H|right; auto..]. Qed.

Lemma row_state_in_use i r ts : row_state i r ts -> entry_in_use r = true -> row_inv i r ts.
Proof. intros [H|[[->| ->] _]] Hu; [done|discriminate Hu..]. Qed.

Lemma dinv_canonical w : dinv w -> DirectoryIsCanonicalLocked (w_dir w) = true.
Proof.
  intros H. destruct (di_open _ H) as (_ & Hs & Ho & Hh). unfold DirectoryIsCanonicalLocked.
  rewrite bool_decide_true, (proj2 (Z.eqb_neq _ _)), (proj2 (Z.ltb_lt _ _)) by (done || lia). cbn [negb andb]. unfold directory_row.
  apply (forallb_seq (fun i r => RowIsCanonical r && negb (entry_in_use r && negb (key_slot (dr_key r) =? Z.of_nat i))) _ _ _ (di_length _ H)).
  intros i r Hi. apply row_ok_canonical. eapply row_state_ok. by apply (di_rows _ H).
Qed.

(** ** Resolving *)

Lemma key_valid_slot k : ServiceKeyIsValid k = true -> 0 <= key_slot k -> (Z.to_nat (key_slot k) < capacity)%nat.
Proof. unfold ServiceKeyIsValid. rewrite !andb_true_iff, Z.ltb_lt. lia. Qed.

Lemma directory_row_some w i : dinv w -> (i < capacity)%nat -> sd_rows (w_dir w) !! i = Some (directory_row (w_dir w) i).
Proof. intros H Hi. apply (nth_some _ _ _ capacity); [apply H|done]. Qed.

Lemma resolve_row w k r : dinv w -> key_typed k -> ResolveExactLocked (w_dir w) k = Some r ->
  exists i, Z.to_nat (key_slot k) = i /\ key_slot k = Z.of_nat i /\ (i < capacity)%nat /\ sd_rows (w_dir w) !! i = Some r /\ dr_key r = k /\
    row_inv i r (tasks_at i (w_tasks w)).
Proof.
  intros H Hk. unfold ResolveExactLocked. destruct (ServiceKeyIsValid k) eqn:Hv; [|done]. cbn [negb].
  pose proof (key_valid_slot k Hv Hk) as Hlt. pose proof (directory_row_some w _ H Hlt) as Hr.
  destruct (entry_in_use _) eqn:Hu; [|done]. cbn [negb orb]. case_bool_decide as He; [|done]. intros [= <-].
  exists (Z.to_nat (key_slot k)). unfold key_typed in Hk. split_and!; try done; [lia|].
  eapply row_state_in_use; [|done]. by apply (di_rows _ H).
Qed.

Lemma task_row w n t : dinv w -> w_tasks w !! n = Some t ->
  exists i r l1 l2, Z.to_nat (key_slot (task_service t)) = i /\ task_slot t = Z.of_nat i /\ sd_rows (w_dir w) !! i = Some r /\ (i < capacity)%nat /\
    ResolveExactLocked (w_dir w) (task_service t) = Some r /\ tasks_at i (w_tasks w) = l1 ++ t :: l2 /\
    tasks_at i (delete n (w_tasks w)) = l1 ++ l2 /\ tasks_off i (delete n (w_tasks w)) = tasks_off i (w_tasks w) /\
    row_inv i r (l1 ++ t :: l2).
Proof.
  intros H Hn. pose proof (proj1 (Forall_lookup _ _) (di_homes _ H) n t Hn) as Hh. unfold task_slot in *. cbn beta in Hh.
  set (i := Z.to_nat (key_slot (task_service t))). assert (key_slot (task_service t) = Z.of_nat i) as Hi by lia.
  assert (i < capacity)%nat as Hlt by lia. pose proof (directory_row_some w i H Hlt) as Hr.
  destruct (tasks_end i (w_tasks w) n t Hn Hi) as (l1 & l2 & H1 & H2 & H3). pose proof (di_rows _ H i _ Hr) as Hst. rewrite H1 in Hst.
  assert (row_inv i (directory_row (w_dir w) i) (l1 ++ t :: l2)) as Hinv by (destruct Hst as [|[_ Hnil]]; [done|by destruct l1]).
  exists i, (directory_row (w_dir w) i), l1, l2. split_and!; try done.
  destruct (rt_fits _ _ (ri_tasks _ _ _ Hinv) t ltac:(set_solver)) as [Hk _].
  pose proof (ri_fine _ _ _ Hinv) as Hf. unfold ResolveExactLocked. fold i.
  rewrite Hk. pose proof (rf_static _ _ Hf) as Hs. unfold static_ok in Hs. rewrite !andb_true_iff in Hs. destruct Hs as (((_ & Hv) & _) & _).
  rewrite Hv. cbn [negb]. rewrite (rf_in_use _ _ Hf). cbn [negb orb]. by rewrite bool_decide_true by done.
Qed.

(** ** Steps *)

Lemma flat_map_insert_perm (l : list ServiceDirectoryRow) : forall i r r', l !! i = Some r ->
  flat_map row_receipts (<[i := r']> l) ++ row_receipts r ≡ₚ flat_map row_receipts l ++ row_receipts r'.
Proof.
  induction l as [|x l IH]; intros i r r' Hi; [done|]. destruct i as [|i]; simplify_eq/=; [permute|].
  specialize (IH i r r' Hi). permute.
Qed.

Lemma task_receipts_split i ts : flat_map task_receipts ts ≡ₚ flat_map task_receipts (tasks_at i ts) ++ flat_map task_receipts (tasks_off i ts).
Proof. rewrite <- flat_map_app. by rewrite <- tasks_split. Qed.

(** A step that changes the row [i] and its tasks. *)
Lemma dinv_row w i r r' ts' given' done' back' gone come : dinv w -> sd_rows (w_dir w) !! i = Some r ->
  row_state i r' (tasks_at i ts') -> tasks_off i ts' = tasks_off i (w_tasks w) ->
  (entry_in_use r' = true -> entry_in_use r = true /\ dr_key r' = dr_key r /\ dr_name r' = dr_name r /\ dr_owner r' = dr_owner r) ->
  NoDup (map rc_channel given') -> (forall k ch, TConnect k ch ∈ ts' -> ch ∈ map rc_channel given') -> given' ≡ₚ w_given w ++ come ->
  held r' (tasks_at i ts') ++ gone ≡ₚ held r (tasks_at i (w_tasks w)) ++ come ->
  done' ++ back' ≡ₚ (w_done w ++ w_back w) ++ gone ->
  dinv (MkDWorld (with_row (w_dir w) i r') (w_generations w) ts' given' done' back').
Proof.
  intros H Hr Hst Hoff Hsame Hnd Hcon Hgiven Hheld Hdone. pose proof (lookup_lt_Some _ _ _ Hr) as Hlt.
  assert (forall j x, <[i := r']> (sd_rows (w_dir w)) !! j = Some x -> (j = i /\ x = r') \/ (j <> i /\ sd_rows (w_dir w) !! j = Some x)) as Hrows
    by (intros j x; apply lookup_insert_cases).
  split; cbn [w_dir w_generations w_tasks w_given w_done w_back with_row sd_rows sd_initialized sd_state sd_endpoint_owner sd_deferred_scan_hint].
  - apply H.
  - rewrite length_insert. apply H.
  - intros j x [[-> ->]|[Hne Hx]]%Hrows; [done|]. rewrite (tasks_at_off j i ts'), Hoff, <- tasks_at_off by done. by apply (di_rows _ H).
  - rewrite (tasks_split i ts'). apply Forall_app. rewrite Hoff. split.
    + apply Forall_forall. intros t [Ht _]%list_elem_of_filter. rewrite (di_length _ H) in Hlt. lia.
    + apply Forall_forall. intros t [_ Ht]%list_elem_of_filter. exact (proj1 (Forall_forall _ _) (di_homes _ H) t Ht).
  - apply H.
  - intros j x g [[-> ->]|[Hne Hx]]%Hrows Hu Hg; [|by apply (di_keys _ H j)]. destruct (Hsame Hu) as (Hu0 & -> & _). by apply (di_keys _ H i).
  - intros j k x y Hx Hy Hux Huy Hne.
    assert (exists x0 y0, sd_rows (w_dir w) !! j = Some x0 /\ sd_rows (w_dir w) !! k = Some y0 /\ entry_in_use x0 = true /\ entry_in_use y0 = true /\
      dr_name x = dr_name x0 /\ dr_name y = dr_name y0 /\ dr_owner x = dr_owner x0 /\ dr_owner y = dr_owner y0) as (x0 & y0 & Hx0 & Hy0 & ? & ? & -> & -> & -> & ->).
    { apply Hrows in Hx as [[-> ->]|[? Hx]], Hy as [[-> ->]|[? Hy]]; [done|..].
      - destruct (Hsame Hux) as (? & _ & ? & ?). by exists r, y.
      - destruct (Hsame Huy) as (? & _ & ? & ?). by exists x, r.
      - by exists x, y. }
    by apply (di_unique _ H j k x0 y0).
  - done.
  - done.
  - pose proof (flat_map_insert_perm _ i r r' Hr) as H1. pose proof (di_receipts _ H) as H2. pose proof (task_receipts_split i ts') as H3.
    pose proof (task_receipts_split i (w_tasks w)) as H4. rewrite Hoff in H3. unfold held in Hheld.
    revert H1 H2 H3 H4 Hheld Hdone Hgiven. clear. intros. permute.
Qed.

(** The common case: the tasks stay and no receipt moves. *)
Lemma dinv_same w i r r' : dinv w -> sd_rows (w_dir w) !! i = Some r -> row_state i r' (tasks_at i (w_tasks w)) ->
  (entry_in_use r' = true -> entry_in_use r = true /\ dr_key r' = dr_key r /\ dr_name r' = dr_name r /\ dr_owner r' = dr_owner r) ->
  held r' (tasks_at i (w_tasks w)) = held r (tasks_at i (w_tasks w)) -> dinv (only_dir w (with_row (w_dir w) i r')).
Proof.
  intros H Hr Hst Hsame Hheld. apply (dinv_row w i r r' _ _ _ _ [] []); try done; rewrite ?app_nil_r; try done; [apply H|apply H|by rewrite Hheld].
Qed.

(** Recycling keeps the identity of a row it leaves in use. *)
Lemma recycle_same r : entry_in_use (TryRecycleLocked r).2 = true -> (TryRecycleLocked r).2 = r.
Proof. unfold TryRecycleLocked. destruct (_ || _); [done|]. cbn. by destruct (_ =? _). Qed.

Definition answer_fine (answer : danswer) : Prop :=
  match answer with
  | AStatus status | AReserved status _ | APin status _ => status <> DirCorruptState
  | AUnpublished corrupt _ => corrupt = false
  | AActivated outcome => co_corrupt outcome = false
  | AAccepted outcome => ao_corrupt outcome = false
  | ADeferred result => df_status result <> DirCorruptState
  | AClaimed _ _ | AReleasing _ | AScanned _ | ABatch _ | AFound _ => True
  end.

Section steps.
Context (addr : Z) (Haddr : addr <> 0).

Lemma locked_open {A} w (fail : ServiceDirectoryStatus -> A) body : dinv w -> locked addr (w_dir w) fail body = body.
Proof.
  intros H. unfold locked, ReadyStatus, guarded. destruct (di_open _ H) as (-> & _).
  rewrite (proj2 (Z.eqb_neq _ _)) by done. cbn. by rewrite (dinv_canonical w H).
Qed.

Lemma guarded_open {A} w (fail : ServiceDirectoryStatus -> A) body : dinv w -> guarded (w_dir w) fail body = body.
Proof. intros H. unfold guarded. by rewrite (dinv_canonical w H). Qed.

Lemma only_dir_same w : only_dir w (w_dir w) = w.
Proof. by destruct w. Qed.

(** Registration. *)
Lemma life_dinv w i r authority ready state reason : dinv w -> sd_rows (w_dir w) !! i = Some r -> row_inv i r (tasks_at i (w_tasks w)) ->
  life_ok (with_life r authority ready state reason) = true -> state = dr_state r \/ state = EntryClosing \/ dr_state r = EntryReserved ->
  dinv (only_dir w (with_row (w_dir w) i (with_life r authority ready state reason))).
Proof.
  intros H Hr Hinv Hl Hs. destruct (life_step i r _ authority ready state reason Hinv Hl Hs) as [Hi Hh].
  apply (dinv_same w i r); try done; [by left|]. intros _. split; [apply Hinv|done].
Qed.

(** Writing back a row that may be recycled. *)
Lemma recycle_dinv w i r r1 : dinv w -> sd_rows (w_dir w) !! i = Some r -> row_inv i r (tasks_at i (w_tasks w)) ->
  row_inv i r1 (tasks_at i (w_tasks w)) -> held r1 (tasks_at i (w_tasks w)) = held r (tasks_at i (w_tasks w)) ->
  dr_key r1 = dr_key r -> dr_name r1 = dr_name r -> dr_owner r1 = dr_owner r ->
  dinv (only_dir w (with_row (w_dir w) i (TryRecycleLocked r1).2)).
Proof.
  intros H Hr Hinv Hinv1 Hheld Hk Hn Ho. destruct (recycle_state i r1 _ Hinv1) as [Hst Hh].
  apply (dinv_same w i r); try done; [|by rewrite Hh]. intros Hu. rewrite (recycle_same _ Hu). split; [apply Hinv|done].
Qed.

Ltac refuse := cbv beta iota zeta; intros [= <- <- <-]; rewrite only_dir_same; done.

Lemma publish_dinv w reservation owner status d' held' : dinv w -> key_typed (reservation_service reservation) ->
  ServiceDirectoryPublishRegistration addr (w_dir w) (Some reservation) owner = (status, d', held') ->
  dinv (only_dir w d') /\ status <> DirCorruptState.
Proof.
  intros H Hk. unfold ServiceDirectoryPublishRegistration. destruct (_ || _); [refuse|].
  rewrite locked_open by done. destruct (ResolveExactLocked _ _) as [r|] eqn:Hres; [|refuse].
  destruct (resolve_row w _ r H Hk Hres) as (i & Hi & _ & _ & Hr & Hkey & Hinv).
  case_bool_decide; cbn [negb]; [|refuse]. case_bool_decide as Hc; [refuse|]. case_bool_decide as Hs; cbn [negb orb]; [|refuse].
  destruct (_ =? _); cbn [negb]; [|refuse]. intros [= <- <- <-]. split; [|done].
  unfold put_entry. rewrite Hi. apply (life_dinv w i r); try done; [|by auto].
  pose proof (rf_life _ _ (ri_fine _ _ _ Hinv)) as Hl. unfold life_ok in *. rewrite Hs in Hl. cbn.
  rewrite !andb_true_iff in Hl. rewrite !andb_true_iff. tauto.
Qed.

Lemma joint_ready_dinv w service owner bit status d' bit' : dinv w -> key_typed service ->
  ServiceDirectoryCommitJointReady addr (w_dir w) service owner (Some bit) = (status, d', bit') ->
  dinv (only_dir w d') /\ status <> DirCorruptState.
Proof.
  intros H Hk. unfold ServiceDirectoryCommitJointReady. destruct (_ || _); [refuse|].
  rewrite locked_open by done. destruct (ResolveExactLocked _ _) as [r|] eqn:Hres; [|refuse].
  destruct (resolve_row w _ r H Hk Hres) as (i & Hi & _ & _ & Hr & Hkey & Hinv).
  case_bool_decide; cbn [negb]; [|refuse]. case_bool_decide as Hc; [refuse|]. case_bool_decide as Hs; cbn [negb]; [|refuse].
  intros [= <- <- <-]. split; [|done]. unfold put_entry. rewrite Hi. apply (life_dinv w i r); try done; [|by auto].
  pose proof (rf_life _ _ (ri_fine _ _ _ Hinv)) as Hl. unfold life_ok in *. cbn. by rewrite Hs in *.
Qed.

Lemma abort_dinv w reservation owner status d' held' : dinv w -> key_typed (reservation_service reservation) ->
  ServiceDirectoryAbortRegistration addr (w_dir w) (Some reservation) owner = (status, d', held') ->
  dinv (only_dir w d') /\ status <> DirCorruptState.
Proof.
  intros H Hk. unfold ServiceDirectoryAbortRegistration. destruct (_ || _); [refuse|].
  rewrite locked_open by done. destruct (ResolveExactLocked _ _) as [r|] eqn:Hres; [|refuse].
  destruct (resolve_row w _ r H Hk Hres) as (i & Hi & _ & _ & Hr & Hkey & Hinv).
  case_bool_decide; cbn [negb]; [|refuse]. destruct (_ || _) eqn:E; [refuse|]. intros [= <- <- <-]. split; [|done].
  unfold put_entry. rewrite Hi. set (r1 := if bool_decide (dr_state r = EntryReserved) then _ else _).
  assert (row_inv i r1 (tasks_at i (w_tasks w)) /\ held r1 (tasks_at i (w_tasks w)) = held r (tasks_at i (w_tasks w))) as [Hi1 Hh1].
  { apply orb_false_iff in E as [E _]. pose proof (rf_life _ _ (ri_fine _ _ _ Hinv)) as Hl. subst r1. case_bool_decide as Hs.
    - apply life_step; [done|by vm_compute|by auto].
    - cbn [negb andb] in E. apply negb_false_iff, bool_decide_eq_true in E. apply life_step; [done| |by auto].
      unfold life_ok in *. cbn. rewrite E in *. rewrite !andb_true_iff in *. tauto. }
  apply (recycle_dinv w i r r1); try done; subst r1; by case_bool_decide.
Qed.

Lemma unpin_dinv w pin status d' pin' : dinv w -> key_typed (op_service pin) -> 0 <= op_slot pin ->
  ServiceDirectoryReleaseOperation addr (w_dir w) (Some pin) = (status, d', pin') ->
  dinv (only_dir w d') /\ status <> DirCorruptState.
Proof.
  intros H Hk H0. unfold ServiceDirectoryReleaseOperation. destruct (negb _); [refuse|].
  rewrite locked_open by done. destruct (ResolveExactLocked _ _) as [r|] eqn:Hres; [|refuse].
  destruct (resolve_row w _ r H Hk Hres) as (i & Hi & _ & _ & Hr & Hkey & Hinv). unfold ValidateOperationLocked.
  case_bool_decide; cbn [negb]; [|refuse]. destruct (_ || _) eqn:Ea; [refuse|]. cbv zeta. destruct (negb _ || _) eqn:Eb; [refuse|].
  intros [= <- <- <-]. split; [|done]. unfold put_entry. rewrite Hi. rewrite !orb_false_iff, !negb_false_iff in *.
  destruct Ea as [Ea _], Eb as [Eb _]. unfold kServiceDirectoryOperationCapacity in Ea.
  assert (dr_state r <> EntryReserved) as Hst.
  { intros Hs. pose proof (rf_life _ _ (ri_fine _ _ _ Hinv)) as Hl. unfold life_ok in Hl. rewrite Hs in Hl.
    rewrite !andb_true_iff, !Z.eqb_eq in Hl. assert (dr_active_operations r = 0) as Hz by tauto.
    pose proof (rf_ops _ _ (ri_fine _ _ _ Hinv)) as Ho. rewrite (of_active _ Ho) in Hz.
    assert (flag (operation_is_live (operation_at r (Z.to_nat (op_slot pin)))) <= 0) as Hle; [|by rewrite Eb in Hle].
    rewrite <- Hz. apply (sumZ_member (fun s => flag (operation_is_live s))).
    - intros s _. destruct (operation_is_live s); cbn; lia.
    - eapply list_elem_of_lookup_2. apply (nth_some _ _ _ 8); [apply Ho|lia]. }
  destruct (unpin_row i r _ (Z.to_nat (op_slot pin)) Hinv Hst ltac:(lia) Eb) as [Hi1 Hh1]. by apply (recycle_dinv w i r).
Qed.

Lemma lookup_dinv w name result d' : dinv w -> ServiceDirectoryLookup addr (w_dir w) (Some name) = (result, d') ->
  dinv (only_dir w d') /\ result.1 <> DirCorruptState.
Proof.
  intros H. unfold ServiceDirectoryLookup. destruct (negb _); [intros [= <- <-]; by rewrite only_dir_same|].
  rewrite locked_open by done. destruct (find_name _ _) as [i|] eqn:Hf; [|intros [= <- <-]; by rewrite only_dir_same].
  apply find_some in Hf as [Hin%in_seq Hp%andb_true_iff]. destruct Hp as [Hu _].
  pose proof (directory_row_some w i H ltac:(lia)) as Hr. set (r := directory_row (w_dir w) i) in *.
  pose proof (row_state_in_use _ _ _ (di_rows _ H i r Hr) Hu) as Hinv.
  destruct (dr_state r) eqn:Hs; try (intros [= <- <-]; by rewrite only_dir_same);
    [unfold entry_in_use in Hu; by rewrite Hs in Hu| |unfold entry_in_use in Hu; by rewrite Hs in Hu].
  destruct (free_operation r) as [slot|] eqn:Hfree; [|intros [= <- <-]; by rewrite only_dir_same].
  intros [= <- <-]. split; [|done]. destruct (lookup_pins_row i r _ slot Hinv Hs Hfree) as [Hi1 Hh1].
  apply (dinv_same w i r); try done. by left.
Qed.

(** Connecting. *)
Lemma connect_status_ok r pin : connect_status r pin = DirOk -> dr_state r = EntryActive.
Proof. unfold connect_status. by destruct (dr_state r). Qed.

Lemma connect_status_fine r pin : connect_status r pin <> DirCorruptState.
Proof.
  unfold connect_status, ValidateOperationLocked. destruct (dr_state r); try done. destruct (negb _); [done|].
  destruct (negb _); [done|]. destruct (_ || _); [done|]. cbv zeta. by destruct (negb _ || _).
Qed.

Lemma connect_dinv w pin made : dinv w -> call_ok w (DConnect pin made) ->
  let '(status, d') := ConnectEnqueueLocked (w_dir w) pin made in
  status <> DirCorruptState /\
  dinv (if bool_decide (status = DirOk)
        then MkDWorld d' (w_generations w) (w_tasks w ++ [TConnect (op_service pin) (rc_channel (pr_owner made))])
               (w_given w ++ [pr_owner made]) (w_done w) (w_back w)
        else only_dir w d').
Proof.
  intros H (Hn & Hk & Hv & Hacc & Hfresh). unfold ConnectEnqueueLocked. rewrite guarded_open by done.
  destruct (ResolveExactLocked _ _) as [r|] eqn:Hres; [|cbn; by rewrite only_dir_same].
  destruct (resolve_row w _ r H Hk Hres) as (i & Hi & Hslot & _ & Hr & Hkey & Hinv).
  pose proof (connect_status_fine r pin) as Hfine. destruct (connect_status r pin) eqn:Hs; try (cbn; by rewrite only_dir_same).
  apply connect_status_ok in Hs. destruct (Z.eqb_spec (dr_accept_count r) kServiceDirectoryAcceptCapacity) as [_|Hroom]; [cbn; by rewrite only_dir_same|].
  cbn [bool_decide]. split; [done|]. rewrite bool_decide_true by done. unfold put_entry. rewrite Hi.
  assert (length (tasks_at i (w_tasks w)) <= length (w_tasks w))%nat as Hle by (rewrite (tasks_split i (w_tasks w)) at 2; rewrite length_app; lia).
  destruct (enqueue_step i r _ Hinv (pr_owner made) (pr_acceptor made) Hs Hroom Hv Hacc) as [Hi1 Hh1]; [|lia|].
  { intros ([] & Hin & Hc)%list_elem_of_omap; try done. injection Hc as ->. apply list_elem_of_filter in Hin as [_ Hin].
    by apply Hfresh, (di_connects _ H service). }
  destruct (tasks_add i (w_tasks w) (TConnect (op_service pin) (rc_channel (pr_owner made))) Hslot) as [Hat Hoff]. rewrite <- Hkey in *.
  eapply (dinv_row w i r _ _ _ _ _ [] [pr_owner made]); try done.
  - rewrite Hat. by left.
  - rewrite map_app. apply NoDup_app. split_and!; [apply H| |apply NoDup_singleton]. intros ch Hch ->%list_elem_of_singleton. done.
  - intros k ch [Hin|Hin%list_elem_of_singleton]%elem_of_app; rewrite map_app; [apply elem_of_app; left; by eapply (di_connects _ H)|].
    injection Hin as -> ->. apply elem_of_app. right. apply list_elem_of_here.
  - rewrite Hat, app_nil_r. exact Hh1.
  - by rewrite app_nil_r.
Qed.

(** A section that ends a task and counts its publisher out. *)
Lemma publisher_ends w n t i r l1 l2 r' done back : dinv w -> sd_rows (w_dir w) !! i = Some r ->
  tasks_at i (w_tasks w) = l1 ++ t :: l2 -> tasks_at i (delete n (w_tasks w)) = l1 ++ l2 ->
  tasks_off i (delete n (w_tasks w)) = tasks_off i (w_tasks w) -> row_inv i r (l1 ++ t :: l2) -> row_inv i r' (l1 ++ l2) ->
  dr_key r' = dr_key r -> dr_name r' = dr_name r -> dr_owner r' = dr_owner r ->
  held r' (l1 ++ l2) ++ done ++ back ≡ₚ held r (l1 ++ t :: l2) ->
  dinv (ends w (with_row (w_dir w) i (TryRecycleLocked r').2) n done back).
Proof.
  intros H Hr H1 H2 H3 Hinv Hinv' Hk Hn Ho Hheld. destruct (recycle_state i r' _ Hinv') as [Hst Hh].
  apply (dinv_row w i r _ _ _ _ _ (done ++ back) []); try done.
  - by rewrite H2.
  - intros Hu. rewrite (recycle_same _ Hu). split; [apply Hinv|done].
  - apply H.
  - intros k ch Hin. eapply (di_connects _ H). by eapply elem_of_delete_sub.
  - by rewrite app_nil_r.
  - by rewrite H2, Hh, H1, app_nil_r.
  - permute.
Qed.

Lemma unpublished_dinv w n service channel : dinv w -> w_tasks w !! n = Some (TConnect service channel) ->
  let '(corrupt, removed, d') := ConnectUnpublishLocked (w_dir w) service channel in
  corrupt = false /\ dinv (ends w d' n [] (removed_receipt removed)).
Proof.
  intros H Hn. destruct (task_row w n _ H Hn) as (i & r & l1 & l2 & Hi & Hslot & Hr & _ & Hres & H1 & H2 & H3 & Hinv). cbn in Hi, Hres.
  unfold ConnectUnpublishLocked. rewrite Hres.
  pose proof (remove_queued r channel (rf_queue _ _ (ri_fine _ _ _ Hinv))) as Hrem.
  pose proof (unpublish_step i r _ Hinv l1 l2 service channel eq_refl) as Hstep.
  assert (forall r1, (exists queue head count, r1 = with_queue r queue head count) -> dr_key r1 = dr_key r /\ dr_name r1 = dr_name r /\ dr_owner r1 = dr_owner r)
    as Hid by (by intros ? (? & ? & ? & ->)).
  unfold put_entry. rewrite Hi. destruct (RemoveQueuedLocked r channel) as [[q r1]|]; destruct Hstep as (Hp & Hi1 & _ & Hh); rewrite (proj2 (Z.eqb_neq _ _)) by done;
    (split; [done|]); eapply (publisher_ends w n); try done; apply (Hid r1); apply Hrem.
Qed.

Lemma activated_dinv w n service channel status : dinv w -> w_tasks w !! n = Some (TConnect service channel) ->
  let '(outcome, d') := ConnectFinishLocked (w_dir w) service channel status in
  co_corrupt outcome = false /\ dinv (ends w d' n [] (removed_receipt (co_removed outcome))).
Proof.
  intros H Hn. destruct (task_row w n _ H Hn) as (i & r & l1 & l2 & Hi & Hslot & Hr & _ & Hres & H1 & H2 & H3 & Hinv). cbn in Hi, Hres.
  unfold ConnectFinishLocked. rewrite Hres. pose proof (connect_finish_step i r _ Hinv l1 l2 service channel eq_refl status) as Hstep.
  assert (dr_key (connect_row r channel status).2 = dr_key r /\ dr_name (connect_row r channel status).2 = dr_name r /\
    dr_owner (connect_row r channel status).2 = dr_owner r) as (Hk & Hnm & Ho).
  { pose proof (ready_queued r channel (rf_queue _ _ (ri_fine _ _ _ Hinv))) as Ha.
    pose proof (remove_queued r channel (rf_queue _ _ (ri_fine _ _ _ Hinv))) as Hb. unfold connect_row.
    destruct (bool_decide (status = EpOk) && _), (ready_scan _ r channel 0) as [r1|], (bool_decide (dr_state r = EntryActive)),
      (RemoveQueuedLocked r channel) as [[q r2]|]; try done; try (by destruct Ha as (_ & (? & ->) & _));
      by destruct Hb as (_ & _ & (? & ? & ? & ->) & _). }
  unfold put_entry. rewrite Hi. unfold connect_row in *. destruct (match (if _ && _ then _ else None) with Some _ => _ | None => _ end) as [[committed removed] r1].
  cbn [fst snd] in *. destruct Hstep as (Hp & Hi1 & _ & _ & _ & Hh). rewrite (proj2 (Z.eqb_neq _ _)) by done. cbn [co_corrupt co_removed].
  split; [done|]. eapply (publisher_ends w n); try done.
Qed.

(** A section that starts a task. *)
Lemma task_starts w i r r' t : dinv w -> sd_rows (w_dir w) !! i = Some r -> row_inv i r (tasks_at i (w_tasks w)) ->
  task_slot t = Z.of_nat i -> connects t = None -> row_inv i r' (tasks_at i (w_tasks w) ++ [t]) ->
  dr_key r' = dr_key r -> dr_name r' = dr_name r -> dr_owner r' = dr_owner r ->
  held r' (tasks_at i (w_tasks w) ++ [t]) ≡ₚ held r (tasks_at i (w_tasks w)) -> dinv (starts w (with_row (w_dir w) i r') t).
Proof.
  intros H Hr Hinv Hs Hc Hinv' Hk Hn Ho Hheld. destruct (tasks_add i (w_tasks w) t Hs) as [Hat Hoff].
  apply (dinv_row w i r _ _ _ _ _ [] []); try done; rewrite ?Hat, ?app_nil_r; try done.
  - by left.
  - intros _. split; [apply Hinv|done].
  - apply H.
  - intros k ch [Hin|Hin%list_elem_of_singleton]%elem_of_app; [by eapply (di_connects _ H)|]. by subst t.
Qed.

Lemma tasks_at_few w i : Z.of_nat (length (w_tasks w)) + 1 < u32_max -> Z.of_nat (length (tasks_at i (w_tasks w))) + 1 < u32_max.
Proof.
  intros Hn. assert (length (tasks_at i (w_tasks w)) <= length (w_tasks w))%nat by (rewrite (tasks_split i (w_tasks w)) at 2; rewrite length_app; lia).
  lia.
Qed.

(** Accepting. *)
Lemma accept_identity_fine r owner process credential : accept_identity r owner process credential <> DirCorruptState.
Proof. unfold accept_identity. by repeat (destruct (negb _); [done|]); destruct (bool_decide _). Qed.

Lemma accept_dinv w service owner process credential : dinv w -> call_ok w (DAccept service owner process credential) ->
  let '(result, d') := AcceptClaimLocked (w_dir w) service owner process credential in
  match result with
  | inl status => status <> DirCorruptState /\ dinv (only_dir w d')
  | inr (key, obj) => dinv (starts w d' (TAccept key obj))
  end.
Proof.
  intros H (Hn & Hk & Hp). unfold AcceptClaimLocked. rewrite guarded_open by done.
  destruct (ResolveExactLocked _ _) as [r|] eqn:Hres; [|by rewrite only_dir_same].
  destruct (resolve_row w _ r H Hk Hres) as (i & Hi & Hslot & _ & Hr & Hkey & Hinv).
  pose proof (accept_identity_fine r owner process credential). destruct (accept_identity r owner process credential); try (by rewrite only_dir_same).
  destruct (_ || _) eqn:E; [by rewrite only_dir_same|].
  rewrite !orb_false_iff, !negb_false_iff, bool_decide_eq_true, Z.eqb_neq in E. destruct E as ((Hs & Hc) & Hh).
  pose proof (qs_count _ (qf_shape _ (rf_queue _ _ (ri_fine _ _ _ Hinv)))) as Hcb.
  pose proof (claim_step i r _ Hinv process Hs ltac:(lia) Hh Hp (tasks_at_few w i Hn)) as Hstep. unfold put_entry. rewrite Hi.
  assert ((DequeueLocked r).2 = with_queue r (dr_accept_queue (DequeueLocked r).2) (dr_accept_head (DequeueLocked r).2) (dr_accept_count r - 1)) as Er1 by done.
  destruct (DequeueLocked r) as [q r1]. cbn [snd] in Er1.
  pose proof (allocate_accepted r1 (qu_channel q) process) as Hall.
  destruct (AllocateAcceptedLocked r1 (qu_channel q) process) as [[[j a] r2]|].
  - destruct Hstep as (Hi1 & Hh1 & Hsv). apply (task_starts w i r); try done; [unfold task_slot; cbn in *; by rewrite Hsv, (rf_slot _ _ (ri_fine _ _ _ Hinv))|..];
      (destruct Hall as (? & _ & _ & _ & _ & ->); [rewrite Er1; destruct (rf_accepted _ _ (ri_fine _ _ _ Hinv)); by split|]; by rewrite Er1).
  - destruct Hstep as [Hi1 Hh1]. split; [done|]. apply (dinv_same w i r); try done; [by left|]. intros _. rewrite Er1. split; [apply Hinv|done].
Qed.

Lemma accepted_dinv w n key obj published : dinv w -> w_tasks w !! n = Some (TAccept key obj) -> call_ok w (DAccepted n published) ->
  restore_fits w (DAccepted n published) ->
  let '(outcome, d') := AcceptFinishLocked (w_dir w) (ak_service key) key obj published in
  ao_corrupt outcome = false /\ dinv (ends w d' n [] []).
Proof.
  intros H Hn (_ & Hok) Hfit. destruct (task_row w n _ H Hn) as (i & r & l1 & l2 & Hi & Hslot & Hr & _ & Hres & H1 & H2 & H3 & Hinv). cbn in Hi, Hres.
  unfold AcceptFinishLocked. rewrite Hres.
  pose proof (accept_finish_step i r l1 l2 key obj Hinv published) as Hstep.
  assert (forall x y z, accept_commit r key obj published = (x, y, z) -> dr_key z = dr_key r /\ dr_name z = dr_name r /\ dr_owner z = dr_owner r) as Hid.
  { intros x y z. unfold accept_commit. destruct (ResolveAcceptedLocked r key); [|by intros [= _ _ <-]]. destruct published; [by intros [= _ _ <-]|].
    destruct (_ && _); by intros [= _ _ <-]. }
  destruct (accept_commit r key obj published) as [[committed restored] r1]. destruct (Hid _ _ _ eq_refl) as (Hk & Hnm & Ho).
  destruct Hstep as (Hp & Hi1 & Hh & _).
  { intros handle ->. exact (proj1 Hok). }
  { intros ->. cbn in Hfit. rewrite Hn, Hres in Hfit. exact Hfit. }
  unfold put_entry. rewrite (proj2 (Z.eqb_neq _ _)) by done. rewrite Hi. split; [done|].
  eapply (publisher_ends w n); try done. cbn. by rewrite !app_nil_r.
Qed.

(** Releasing. *)
Lemma release_dinv w key : dinv w -> call_ok w (DRelease key) ->
  let '(result, d') := ReleaseAcceptedBeginLocked addr (w_dir w) (Some key) in
  match result with
  | inl (status, _) => status <> DirCorruptState /\ dinv (only_dir w d')
  | inr receipt => dinv (starts w d' (TRelease key receipt))
  end.
Proof.
  intros H (Hn & Hk & H0). unfold ReleaseAcceptedBeginLocked. destruct (negb _); [by rewrite only_dir_same|]. rewrite locked_open by done.
  destruct (ResolveExactLocked _ _) as [r|] eqn:Hres; [|by rewrite only_dir_same].
  destruct (resolve_row w _ r H Hk Hres) as (i & Hi & Hslot & _ & Hr & Hkey & Hinv).
  destruct (ResolveAcceptedLocked r key) as [a|] eqn:Hra; [|by rewrite only_dir_same].
  destruct (_ || _) eqn:E; [by rewrite only_dir_same|]. destruct (negb _ && _); [by rewrite only_dir_same|].
  apply orb_false_iff in E as [Es%bool_decide_eq_false Ed]. unfold put_entry. rewrite Hi.
  destruct (release_begin_step i r _ key a Hinv H0 Hra Es Ed (tasks_at_few w i Hn)) as [Hi1 Hh1]. by apply (task_starts w i r).
Qed.

Lemma released_dinv w n key receipt status : dinv w -> w_tasks w !! n = Some (TRelease key receipt) ->
  let '((result, _), d', _) := ReleaseAcceptedFinishLocked (w_dir w) key status in
  result <> DirCorruptState /\ dinv (ends w d' n (if bool_decide (status = EpOk) then [receipt] else []) []).
Proof.
  intros H Hn. destruct (task_row w n _ H Hn) as (i & r & l1 & l2 & Hi & Hslot & Hr & _ & Hres & H1 & H2 & H3 & Hinv). cbn in Hi, Hres.
  destruct (release_finish_step i r l1 l2 key receipt (bool_decide (status = EpOk)) Hinv) as (a & Hra & Hs & Hd & Hi1 & Hh1).
  unfold ReleaseAcceptedFinishLocked. rewrite guarded_open by done. rewrite Hres, Hra, Hd. rewrite bool_decide_true by done. cbn [negb orb].
  unfold put_entry. rewrite Hi. case_bool_decide as Hok.
  - split; [done|]. by eapply (publisher_ends w n).
  - split; [by destruct (bool_decide _)|]. apply (dinv_row w i r _ _ _ _ _ [] []); try done; rewrite ?H2, ?H1, ?app_nil_r; try done.
    + by left.
    + apply H.
    + intros k ch Hin. eapply (di_connects _ H). by eapply elem_of_delete_sub.
    + by rewrite app_nil_r in Hh1.
Qed.

(** Process teardown. *)
Lemma defer_dinv w process result d' : dinv w -> ServiceDirectoryDeferAcceptedProcess addr (w_dir w) process = (result, d') ->
  dinv (only_dir w d') /\ df_status result <> DirCorruptState.
Proof.
  intros H. unfold ServiceDirectoryDeferAcceptedProcess. destruct (negb _); [intros [= <- <-]; by rewrite only_dir_same|].
  rewrite locked_open by done. intros [= <- <-]. split; [|done].
  assert (forall i r ts, row_state i r ts -> row_state i (defer_row process r) ts /\ row_receipts (defer_row process r) = row_receipts r) as Hrow.
  { intros i r ts [Hi|[[->| ->] ->]]; [|split; [right; auto|done]..]. destruct (defer_step i r ts process Hi) as [Hi1 Hh]. split; [by left|].
    unfold held in Hh. by apply app_inv_tail in Hh. }
  assert (forall r, entry_in_use (defer_row process r) = entry_in_use r /\ dr_key (defer_row process r) = dr_key r /\
    dr_name (defer_row process r) = dr_name r /\ dr_owner (defer_row process r) = dr_owner r) as Hid by (intros r; unfold defer_row; by destruct (negb _)).
  assert (forall i r, map (defer_row process) (sd_rows (w_dir w)) !! i = Some r -> exists r0, sd_rows (w_dir w) !! i = Some r0 /\ r = defer_row process r0) as Hmap.
  { intros i r Hr. rewrite list_lookup_fmap in Hr. destruct (sd_rows (w_dir w) !! i) as [r0|]; [|done]. injection Hr as <-. eauto. }
  destruct H as [Ho Hl Hrows Hh Hg Hk Hu Hnd Hc Hrec].
  split; cbn [only_dir w_dir w_generations w_tasks w_given w_done w_back sd_rows sd_initialized sd_state sd_endpoint_owner sd_deferred_scan_hint]; try done.
  - by rewrite length_map.
  - intros i r (r0 & Hr & ->)%Hmap. by apply Hrow, Hrows.
  - intros i r g (r0 & Hr & ->)%Hmap. destruct (Hid r0) as (-> & -> & _). by apply Hk.
  - intros i j r r' (r0 & Hr & ->)%Hmap (r1 & Hr1 & ->)%Hmap. destruct (Hid r0) as (-> & _ & -> & ->), (Hid r1) as (-> & _ & -> & ->). by apply Hu.
  - rewrite Hrec. enough (flat_map row_receipts (map (defer_row process) (sd_rows (w_dir w))) = flat_map row_receipts (sd_rows (w_dir w))) as -> by done.
    rewrite !flat_map_concat_map, map_map. f_equal. apply map_ext_in. intros r Hin%list_elem_of_In.
    apply list_elem_of_lookup in Hin as [i Hr]. exact (proj2 (Hrow i r _ (Hrows i r Hr))).
Qed.

Lemma deferred_scan_count todo : forall d flattened room, 0 <= (deferred_scan todo d flattened room).2.
Proof.
  induction todo as [|todo IH]; intros d flattened room; cbn [deferred_scan]; [done|]. destruct room as [|room]; [done|].
  destruct (_ || _); [pose proof (IH d (flattened + 1) (S room))|pose proof (IH d (flattened + 1) room)];
    destruct (deferred_scan _ _ _ _); cbn in *; lia.
Qed.

Lemma scan_dinv w : dinv w -> let '(result, d') := DriveDeferredScanLocked addr (w_dir w) in
  dinv (only_dir w d') /\ forall status, result = inl status -> status <> DirCorruptState.
Proof.
  intros H. unfold DriveDeferredScanLocked. rewrite locked_open by done.
  pose proof (deferred_scan_count (Z.to_nat kServiceDirectoryDeferredAcceptedCapacity) (w_dir w) (sd_deferred_scan_hint (w_dir w))
    (Z.to_nat kServiceDirectoryProcessTeardownBatchCapacity)) as Hs.
  destruct (deferred_scan _ _ _ _) as [keys scanned]. split; [|done]. destruct H as [(Ho1 & Ho2 & Ho3 & Ho4) Hl Hrows Hh Hg Hk Hu Hnd Hc Hrec].
  split; try done. split_and!; try done; apply Z.mod_pos_bound; done.
Qed.

(** Closing. *)
Lemma close_marks i r ts reason : row_inv i r ts -> reason <> CloseNone ->
  let r0 := if bool_decide (dr_state r = EntryReserved) || bool_decide (dr_state r = EntryActive)
            then with_life r (dr_reservation_authority r) false EntryClosing reason else r in
  row_inv i r0 ts /\ held r0 ts = held r ts /\ dr_state r0 = EntryClosing /\ dr_key r0 = dr_key r /\ dr_name r0 = dr_name r /\ dr_owner r0 = dr_owner r.
Proof.
  intros Hinv Hreason. cbv zeta. pose proof (rf_life _ _ (ri_fine _ _ _ Hinv)) as Hl. destruct (_ || _) eqn:E.
  - destruct (life_step i r ts (dr_reservation_authority r) false EntryClosing reason Hinv) as [Hi Hh]; [|by auto|by split_and!].
    unfold life_ok in *. cbn. rewrite (bool_decide_false (reason = CloseNone)) by done. apply orb_true_iff in E as [E%bool_decide_eq_true|E%bool_decide_eq_true];
      rewrite E in Hl; rewrite !andb_true_iff in Hl; rewrite !andb_true_iff; split_and!; try done; apply orb_true_iff; tauto.
  - apply orb_false_iff in E as [E1%bool_decide_eq_false E2%bool_decide_eq_false]. split_and!; try done.
    pose proof (rf_in_use _ _ (ri_fine _ _ _ Hinv)) as Hu. unfold entry_in_use in Hu. by destruct (dr_state r).
Qed.

Lemma close_dinv w service owner reason : dinv w -> call_ok w (DClose service owner reason) ->
  let '(result, d') := CloseBeginLocked addr (w_dir w) service owner reason in
  match result with
  | inl closed => cl_status closed <> DirCorruptState /\ dinv (only_dir w d')
  | inr batch => dinv (starts w d' (TClose service owner batch))
  end.
Proof.
  intros H (Hn & Hk). unfold CloseBeginLocked. destruct (_ || _) eqn:Earg; [by rewrite only_dir_same|].
  rewrite !orb_false_iff, !bool_decide_eq_false in Earg. destruct Earg as ((_ & Hreason) & _).
  rewrite locked_open by done. destruct (ResolveExactLocked _ _) as [r|] eqn:Hres; [|by rewrite only_dir_same].
  destruct (resolve_row w _ r H Hk Hres) as (i & Hi & Hslot & _ & Hr & Hkey & Hinv).
  case_bool_decide as Howner; cbn [negb]; [|by rewrite only_dir_same].
  destruct (close_marks i r _ reason Hinv Hreason) as (Hi0 & Hh0 & Hs0 & Hk0 & Hn0 & Ho0). set (r0 := if _ || _ then _ else _) in *. clearbody r0.
  rewrite (bool_decide_true (dr_state r0 = EntryClosing)) by done. cbn [negb]. unfold put_entry. rewrite Hi.
  destruct (negb _ || HasAcceptedReleaseDriverLocked _) eqn:Ebusy.
  { split; [done|]. apply (dinv_same w i r); try done; [by left|]. intros _. split; [apply Hinv|done]. }
  apply orb_false_iff in Ebusy as [Hd%negb_false_iff%Z.eqb_eq Hno].
  destruct (detach_row i r0 _ Hi0 Hs0 Hd Hno) as [Di Ds (Dk & Do & Dn & Dd) Dc [Db Dl] Dr]. destruct (detach_channels r0) as [batch r1]. cbn [fst snd] in *.
  assert (held r1 (tasks_at i (w_tasks w)) ++ map ow_owner batch ≡ₚ held r (tasks_at i (w_tasks w))) as Hheld
    by (rewrite <- Hh0; unfold held; permute).
  destruct batch as [|c batch].
  - destruct (recycle_state i r1 _ Di) as [Hst Hh]. pose proof (recycle_same r1) as Hsame. destruct (TryRecycleLocked r1) as [recycled r2]. cbn [snd] in *.
    split; [by destruct recycled|]. apply (dinv_row w i r _ _ _ _ _ [] []); try done; rewrite ?app_nil_r; try done; [|apply H|apply H|].
    + intros Hu. rewrite (Hsame Hu), Dk, Dn, Do, Hk0, Hn0, Ho0. split; [apply Hinv|done].
    + cbn in Hheld. by rewrite app_nil_r, <- Hh in Hheld.
  - destruct (start_close i r1 _ (c :: batch) Di Ds Dd Dc Db ltac:(done) Dl (tasks_at_few w i Hn)) as [Hi1 Hh1].
    assert (dr_key r1 = service /\ dr_owner r1 = owner) as [Ek Eo] by (by rewrite Dk, Do, Hk0, Ho0). rewrite Ek, Eo in *.
    apply (task_starts w i r); try done; cbn [with_closing dr_key dr_name dr_owner]; try congruence.
Qed.

Lemma closed_dinv w n service owner batch answers : dinv w -> w_tasks w !! n = Some (TClose service owner batch) ->
  let '(drained, failed, first_failure) := drain_batch batch answers 0 EpOk in
  let '(closed, d') := CloseFinishLocked (w_dir w) service owner (Z.of_nat (length batch)) drained failed first_failure in
  cl_status closed <> DirCorruptState /\ dinv (ends w d' n (drained_receipts batch answers) []).
Proof.
  intros H Hn. destruct (task_row w n _ H Hn) as (i & r & l1 & l2 & Hi & Hslot & Hr & _ & Hres & H1 & H2 & H3 & Hinv). cbn in Hi, Hres.
  destruct (rt_fits _ _ (ri_tasks _ _ _ Hinv) (TClose service owner batch) ltac:(set_solver)) as (_ & _ & _ & _ & Hb).
  pose proof (drain_batch_spec batch answers 0 EpOk Hb) as Hdr. destruct (drain_batch batch answers 0 EpOk) as [[drained failed] ff].
  destruct Hdr as (Hf & Hl & Hp & _). destruct (finish_close i r l1 l2 service owner batch failed Hinv Hf Hl _ Hp) as (Ho & Hs & Hd & Hout & Hi1 & Hh1).
  unfold CloseFinishLocked. rewrite guarded_open by done. rewrite Hres, Hd, Hout. rewrite !bool_decide_true by done. cbn [negb orb Z.eqb Pos.eqb]. rewrite Z.eqb_refl. cbn [negb].
  unfold put_entry. rewrite Hi.
  assert (dinv (ends w (with_row (w_dir w) i (TryRecycleLocked (with_closing r (failed ++ drop (length failed) (dr_closing_channels r))
    (Z.of_nat (length failed)) 0 0)).2) n (drained_receipts batch answers) [])) as Hw.
  { eapply (publisher_ends w n); try done. by rewrite app_nil_r. }
  destruct (TryRecycleLocked _) as [recycled r']. cbn [snd] in Hw. split; [by destruct failed, recycled|done].
Qed.

(** Reserving. *)
Lemma name_equals_sym n m : NameEquals n m = NameEquals m n.
Proof.
  unfold NameEquals. rewrite (Z.eqb_sym (dn_length m)). destruct (Z.eqb_spec (dn_length n) (dn_length m)) as [->|]; [cbn [negb]|done].
  f_equal. generalize (seq 0 (Z.to_nat (dn_length m))). intros l.
  enough (forall x, fold_left (fun acc i => Z.lor acc (Z.lxor (nth i (dn_bytes n) 0) (nth i (dn_bytes m) 0))) l x =
    fold_left (fun acc i => Z.lor acc (Z.lxor (nth i (dn_bytes m) 0) (nth i (dn_bytes n) 0))) l x) as H by done.
  induction l as [|i l IH]; intros x; [done|]. cbn [fold_left]. by rewrite IH, (Z.lxor_comm (nth i (dn_bytes n) 0)).
Qed.

Definition unlike name owner r : Prop := entry_in_use r = true ->
  NameEquals (dr_name r) name = false /\ ticket_service_identity (token_start (dr_owner r)) <> ticket_service_identity (token_start owner).

Lemma no_conflict rows name owner : conflict rows name owner = DirOk -> Forall (unlike name owner) rows.
Proof.
  induction rows as [|r rows IH]; [done|]. cbn [conflict]. destruct (entry_in_use r) eqn:Hu; cbn [negb].
  - destruct (NameEquals _ _) eqn:Hn; [done|]. destruct (Z.eqb_spec (ticket_service_identity (token_start (dr_owner r))) (ticket_service_identity (token_start owner))) as [|Hi]; [done|]. intros H%IH. by constructor.
  - intros H%IH. constructor; [|done]. unfold unlike. by rewrite Hu.
Qed.

Lemma conflict_fine rows name owner : conflict rows name owner <> DirCorruptState.
Proof. induction rows as [|r rows IH]; [done|]. cbn [conflict]. by repeat destruct (_ : bool). Qed.

Lemma reserved_fine i name manifest_slot owner credential generation :
  ServiceDirectoryNameIsCanonical name = true -> manifest_slot < kServiceDirectoryCapacity -> ServiceInstanceTokenIsValid owner = true ->
  ServiceEndpointCredentialSnapshotIsCanonical credential = true -> (i < capacity)%nat -> 0 < generation <= kServiceKeyGenerationMaximum ->
  let r := reserved_row (ClearRowLocked false) name manifest_slot owner credential (MkServiceKey (Z.of_nat i) generation) in
  row_inv i r [] /\ row_receipts r = [].
Proof.
  intros Hn Hm Ho Hc Hi Hg r. split; [|done]. split; [|split; try done|done].
  - split; try done.
    + unfold static_ok, ServiceKeyIsValid, r, reserved_row. cbn [dr_name dr_owner dr_owner_credential dr_key dr_manifest_slot key_slot key_generation].
      rewrite Hn, Ho, Hc. rewrite !andb_true_iff, !Z.ltb_lt, Z.leb_le, negb_true_iff, Z.eqb_neq. lia.
    + split; try done. by repeat constructor.
    + split; try done; by repeat constructor.
    + split; try done. intros j a Ha. change (replicate 8 zero_accepted !! j = Some a) in Ha. apply lookup_replicate in Ha as [-> _]. by vm_compute.
    + split; try done; first [by left|by repeat constructor].
    + unfold life_ok, r. cbn. by rewrite Z.eqb_refl.
  - intros j a Ha Hu. change (replicate 8 zero_accepted !! j = Some a) in Ha. by apply lookup_replicate in Ha as [-> _].
  - by intros t Ht%elem_of_nil.
  - constructor.
  - constructor.
Qed.

(** An empty row takes a new registration, under the next generation of its
    slot. *)
Lemma dinv_reserved w i g r' : dinv w -> sd_rows (w_dir w) !! i = Some (ClearRowLocked false) -> w_generations w !! i = Some g ->
  g < kServiceKeyGenerationMaximum -> row_inv i r' [] -> row_receipts r' = [] -> key_slot (dr_key r') = Z.of_nat i ->
  key_generation (dr_key r') = g + 1 -> Forall (unlike (dr_name r') (dr_owner r')) (sd_rows (w_dir w)) ->
  dinv (MkDWorld (with_row (w_dir w) i r') (<[i := g + 1]> (w_generations w)) (w_tasks w) (w_given w) (w_done w) (w_back w)).
Proof.
  intros H Hr Hg Hmax Hinv Hrec Hks Hkg Hun.
  assert (forall j x, <[i := r']> (sd_rows (w_dir w)) !! j = Some x -> (j = i /\ x = r') \/ (j <> i /\ sd_rows (w_dir w) !! j = Some x)) as Hrows
    by (intros j x; apply lookup_insert_cases).
  assert (tasks_at i (w_tasks w) = []) as Hnone.
  { destruct (di_rows _ H i _ Hr) as [Hf|[_ ?]]; [|done]. by pose proof (rf_in_use _ _ (ri_fine _ _ _ Hf)). }
  destruct (di_generations _ H) as [Hgl Hgf]. pose proof (proj1 (Forall_lookup _ _) Hgf i g Hg) as Hgb. cbn beta in Hgb.
  assert (forall j x, <[i := g + 1]> (w_generations w) !! j = Some x -> (j = i /\ x = g + 1) \/ (j <> i /\ w_generations w !! j = Some x)) as Hgens
    by (intros j x; apply lookup_insert_cases).
  split; cbn [w_dir w_generations w_tasks w_given w_done w_back with_row sd_rows sd_initialized sd_state sd_endpoint_owner sd_deferred_scan_hint];
    try apply H.
  - rewrite length_insert. apply H.
  - intros j x [[-> ->]|[Hne Hx]]%Hrows; [rewrite Hnone; by left|]. by apply (di_rows _ H).
  - rewrite length_insert. split; [done|]. apply Forall_insert; [done|lia].
  - intros j x y [[-> ->]|[Hne Hx]]%Hrows Hu [[? ->]|[? Hy]]%Hgens; try done; [lia|]. by apply (di_keys _ H j).
  - intros j k x y [[-> ->]|[? Hx]]%Hrows [[-> ->]|[? Hy]]%Hrows Hux Huy Hne; [done|..].
    + destruct (proj1 (Forall_lookup _ _) Hun k y Hy Huy). rewrite name_equals_sym. auto.
    + by apply (proj1 (Forall_lookup _ _) Hun j x Hx).
    + by apply (di_unique _ H j k).
  - pose proof (flat_map_insert_perm _ i _ r' Hr) as Hp. rewrite Hrec, clear_row_receipts in Hp. pose proof (di_receipts _ H) as Hq.
    revert Hp Hq. clear. intros. permute.
Qed.

Lemma reserve_scan_dinv name manifest_slot owner credential :
  ServiceDirectoryNameIsCanonical name = true -> manifest_slot < kServiceDirectoryCapacity -> ServiceInstanceTokenIsValid owner = true ->
  ServiceEndpointCredentialSnapshotIsCanonical credential = true ->
  forall todo slot w exhausted, (slot + todo <= capacity)%nat -> dinv w -> Forall (unlike name owner) (sd_rows (w_dir w)) ->
  let '((status, reservation), d', generations) := reserve_scan todo slot (w_dir w) (w_generations w) exhausted
    (fun row key => reserved_row row name manifest_slot owner credential key) in
  status <> DirCorruptState /\ dinv (MkDWorld d' generations (w_tasks w) (w_given w) (w_done w) (w_back w)).
Proof.
  intros Hn Hm Ho Hc todo. induction todo as [|todo IH]; intros slot w exhausted Hle H Hun; cbn [reserve_scan].
  { split; [by destruct exhausted|by destruct w]. }
  pose proof (directory_row_some w slot H ltac:(lia)) as Hr. set (r := directory_row (w_dir w) slot) in *.
  case_bool_decide as Hs; cbn [negb]; [|apply IH; try done; lia].
  assert (r = ClearRowLocked false /\ tasks_at slot (w_tasks w) = []) as [Er Et].
  { destruct (di_rows _ H slot r Hr) as [Hf|[[->| ->] ?]]; try done. pose proof (rf_in_use _ _ (ri_fine _ _ _ Hf)) as Hu.
    unfold entry_in_use in Hu. by rewrite Hs in Hu. }
  destruct (di_generations _ H) as [Hgl Hgf]. unfold AllocateServiceGeneration.
  pose proof (nth_some (w_generations w) 0 slot capacity Hgl ltac:(lia)) as Hg. set (g := nth slot (w_generations w) 0) in *.
  pose proof (proj1 (Forall_lookup _ _) Hgf slot g Hg) as Hgb. cbn beta in Hgb.
  destruct (Z.ltb_spec g kServiceKeyGenerationMaximum) as [Hlt|Hge].
  - rewrite (proj2 (Z.eqb_neq _ _)) by lia. split; [done|]. rewrite Er in *.
    destruct (reserved_fine slot name manifest_slot owner credential (g + 1) Hn Hm Ho Hc ltac:(lia) ltac:(lia)) as [Hf Hrec].
    by apply (dinv_reserved w slot g).
  - cbn [Z.eqb]. apply (IH (S slot) (only_dir w (with_row (w_dir w) slot (ClearRowLocked true))) true); [lia| |].
    + apply (dinv_same w slot r); try done; [right; rewrite Et; auto|]. rewrite Er. unfold held. by rewrite !clear_row_receipts.
    + cbn. by apply Forall_insert.
Qed.

Lemma reserve_dinv w name manifest_slot owner credential : dinv w ->
  let '((status, reservation), d', generations) :=
    ServiceDirectoryReserveRegistration addr (w_dir w) (w_generations w) (Some name) manifest_slot owner (Some credential) in
  status <> DirCorruptState /\ dinv (MkDWorld d' generations (w_tasks w) (w_given w) (w_done w) (w_back w)).
Proof.
  intros H. unfold ServiceDirectoryReserveRegistration. destruct (_ || _) eqn:E; [by destruct w|].
  rewrite !orb_false_iff, !negb_false_iff, Z.leb_gt in E. destruct E as (((Hn & Hm) & Ho) & Hc).
  pose proof (locked_open w (fun s => s) (DirOk, w_dir w) H) as Hl. unfold locked, guarded in Hl. rewrite (dinv_canonical w H) in *. cbn [negb].
  destruct (ReadyStatus addr (w_dir w)); try (by injection Hl).
  pose proof (conflict_fine (sd_rows (w_dir w)) name owner) as Hf. destruct (conflict _ _ _) eqn:Hcon; try (by destruct w).
  apply no_conflict in Hcon. by apply reserve_scan_dinv.
Qed.

(** Published handles are told apart by process and handle. *)
Definition hinv w : Prop := NoDup (directory_handles (w_dir w)).

Lemma handle_scan_fine records process handle : forall found, NoDup (accepted_handles records) ->
  (ServiceDirectoryAcceptedChannelKeyIsValid found = true -> (process, handle) ∉ accepted_handles records) ->
  handle_scan records process handle found <> inl DirCorruptState.
Proof.
  induction records as [|a records IH]; intros found Hnd Hfree; cbn [handle_scan]; [by destruct (negb _)|].
  unfold accepted_handles in *. cbn [flat_map] in Hnd, Hfree. unfold record_handle in Hnd at 1. unfold record_handle in Hfree at 1. unfold has_handle in Hnd, Hfree.
  rewrite <- negb_orb. destruct (_ || _); cbn [negb]; cbn [app] in Hnd, Hfree; [|by apply IH].
  apply NoDup_cons in Hnd as [Hout Hnd]. destruct (negb _ || _) eqn:E.
  - apply IH; [done|]. intros Hv. specialize (Hfree Hv). set_solver.
  - apply orb_false_iff in E as [E1%negb_false_iff%bool_decide_eq_true E2%negb_false_iff%Z.eqb_eq]. subst process handle.
    destruct (ServiceDirectoryAcceptedChannelKeyIsValid found); [|by apply IH]. destruct (Hfree eq_refl). apply list_elem_of_here.
Qed.

Lemma records_handles w : dinv w -> accepted_handles (accepted_records (w_dir w)) = directory_handles (w_dir w).
Proof.
  intros H. unfold directory_handles, accepted_records. rewrite <- (map_nth_seq (sd_rows (w_dir w)) (zero_directory_row EntryEmpty)), (di_length _ H).
  fold (directory_row (w_dir w)).
  assert (forall i, i ∈ seq 0 capacity -> sd_rows (w_dir w) !! i = Some (directory_row (w_dir w) i)) as Hrows
    by (intros i Hi%elem_of_seq; apply directory_row_some; [done|lia]).
  revert Hrows. generalize (seq 0 capacity) as l. intros l Hrows. induction l as [|i l IH]; [done|].
  cbn [map flat_map]. unfold accepted_handles in *. rewrite flat_map_app, IH by set_solver. f_equal. unfold row_handles, accepted_handles.
  pose proof (Hrows i (list_elem_of_here _ _)) as Hi. destruct (entry_in_use _) eqn:Hu; [|done].
  pose proof (row_state_in_use _ _ _ (di_rows _ H i _ Hi) Hu) as Hinv.
  pose proof (map_nth_seq (dr_accepted_channels (directory_row (w_dir w) i)) zero_accepted) as Hn.
  rewrite (af_length _ (rf_accepted _ _ (ri_fine _ _ _ Hinv))) in Hn. f_equal. exact Hn.
Qed.

Lemma find_fine w process handle : dinv w -> hinv w -> ServiceDirectoryReleaseAcceptedHandle addr (w_dir w) process handle <> inl DirCorruptState.
Proof.
  intros H Hh. unfold ServiceDirectoryReleaseAcceptedHandle. destruct (HandleDecode handle) as [?|]; [|done]. destruct (negb _); [done|].
  rewrite locked_open by done. cbn [fst]. apply handle_scan_fine; [by rewrite records_handles|]. intros Hv. discriminate Hv.
Qed.

Lemma probe_fine w expected : dinv w -> expected = sd_endpoint_owner (w_dir w) ->
  ServiceDirectoryValidateRuntimeOwner addr (w_dir w) expected <> DirCorruptState.
Proof.
  intros H ->. unfold ServiceDirectoryValidateRuntimeOwner. destruct (_ =? 0); [done|]. rewrite locked_open by done. by rewrite Z.eqb_refl.
Qed.

Lemma dexec_dinv w c answer w' : dinv w -> call_ok w c -> restore_fits w c -> dexec addr w c = Some (answer, w') ->
  dinv w' /\ (hinv w -> answer_fine answer).
Proof.
  intros H Hok Hfit Hex. enough (dinv w' /\ match c with DFind _ _ => hinv w -> answer_fine answer | _ => answer_fine answer end) as [? ?]
    by (split; [done|destruct c; done]). revert Hex. pose proof Hok as [_ Hc]. destruct c as [name slot owner credential|reservation owner|service owner bit|reservation owner|name|pin|pin made|n|n status
    |service owner process credential|n published|key|n status|process| |service owner reason|n answers|process handle|expected]; cbn [dexec].
  - pose proof (reserve_dinv w name slot owner credential H) as Hs.
    destruct (ServiceDirectoryReserveRegistration _ _ _ _ _ _ _) as [[[status reservation] d'] generations]. intros [= <- <-]. by destruct Hs.
  - destruct (ServiceDirectoryPublishRegistration _ _ _ _) as [[status d'] h] eqn:E. intros [= <- <-]. by eapply publish_dinv.
  - destruct (ServiceDirectoryCommitJointReady _ _ _ _ _) as [[status d'] h] eqn:E. intros [= <- <-]. by eapply joint_ready_dinv.
  - destruct (ServiceDirectoryAbortRegistration _ _ _ _) as [[status d'] h] eqn:E. intros [= <- <-]. by eapply abort_dinv.
  - destruct (ServiceDirectoryLookup _ _ _) as [[status pin] d'] eqn:E. intros [= <- <-]. by eapply (lookup_dinv w name (status, pin)).
  - destruct (ServiceDirectoryReleaseOperation _ _ _) as [[status d'] h] eqn:E. intros [= <- <-]. destruct Hc. by eapply unpin_dinv.
  - pose proof (connect_dinv w pin made H Hok) as Hs. destruct (ConnectEnqueueLocked _ _ _) as [status d']. intros [= <- <-]. by destruct Hs.
  - destruct (w_tasks w !! n) as [[service channel| | |]|] eqn:Hn; try done.
    pose proof (unpublished_dinv w n service channel H Hn) as Hs. destruct (ConnectUnpublishLocked _ _ _) as [[corrupt removed] d'].
    intros [= <- <-]. by destruct Hs.
  - destruct (w_tasks w !! n) as [[service channel| | |]|] eqn:Hn; try done.
    pose proof (activated_dinv w n service channel status H Hn) as Hs. destruct (ConnectFinishLocked _ _ _ _) as [outcome d'].
    intros [= <- <-]. by destruct Hs.
  - pose proof (accept_dinv w service owner process credential H Hok) as Hs. destruct (AcceptClaimLocked _ _ _ _ _) as [[status|[key obj]] d'];
      intros [= <- <-]; [by destruct Hs|done].
  - destruct (w_tasks w !! n) as [[|key obj| |]|] eqn:Hn; try done.
    pose proof (accepted_dinv w n key obj published H Hn Hok Hfit) as Hs. destruct (AcceptFinishLocked _ _ _ _ _) as [outcome d'].
    intros [= <- <-]. by destruct Hs.
  - pose proof (release_dinv w key H Hok) as Hs. destruct (ReleaseAcceptedBeginLocked _ _ _) as [[[status ?]|receipt] d'];
      intros [= <- <-]; [by destruct Hs|done].
  - destruct (w_tasks w !! n) as [[| |key receipt|]|] eqn:Hn; try done. pose proof (released_dinv w n key receipt status H Hn) as Hs.
    destruct (ReleaseAcceptedFinishLocked _ _ _) as [[[result ?] d'] ?]. intros [= <- <-]. by destruct Hs.
  - destruct (ServiceDirectoryDeferAcceptedProcess _ _ _) as [result d'] eqn:E. intros [= <- <-]. by eapply defer_dinv.
  - pose proof (scan_dinv w H) as Hs. destruct (DriveDeferredScanLocked _ _) as [[status|keys] d']; intros [= <- <-]; [|by destruct Hs].
    destruct Hs as [? Hs]. split; [done|]. by apply Hs.
  - pose proof (close_dinv w service owner reason H Hok) as Hs. destruct (CloseBeginLocked _ _ _ _ _) as [[closed|batch] d'];
      intros [= <- <-]; [by destruct Hs|done].
  - destruct (w_tasks w !! n) as [[| | |service owner batch]|] eqn:Hn; try done. pose proof (closed_dinv w n service owner batch answers H Hn) as Hs.
    destruct (drain_batch _ _ _ _) as [[drained failed] ff]. destruct (CloseFinishLocked _ _ _ _ _ _ _) as [closed d']. intros [= <- <-]. by destruct Hs.
  - intros [= <- <-]. split; [done|]. intros Hh. pose proof (find_fine w process handle H Hh) as Hs.
    destruct (ServiceDirectoryReleaseAcceptedHandle _ _ _ _) as [status|key]; [|done]. intros ->. by apply Hs.
  - intros [= <- <-]. split; [done|]. by apply probe_fine.
Qed.

(** A reservation publishes nothing. *)
Lemma reserve_scan_handles name manifest_slot owner credential todo : forall slot d generations exhausted,
  (forall i r, sd_rows d !! i = Some r -> dr_state r = EntryEmpty -> r = ClearRowLocked false) ->
  directory_handles (reserve_scan todo slot d generations exhausted
    (fun row key => reserved_row row name manifest_slot owner credential key)).1.2 ⊆+ directory_handles d.
Proof.
  assert (forall d slot r r', sd_rows d !! slot = Some r -> row_handles r' = [] -> directory_handles (with_row d slot r') ⊆+ directory_handles d) as Hput.
  { intros d slot r r' Hr Hr'. unfold directory_handles. rewrite <- (app_nil_r (flat_map row_handles (sd_rows d))). cbn [with_row sd_rows].
    eapply flat_map_insert_sub; [done|]. rewrite Hr'. apply submseteq_nil_l. }
  induction todo as [|todo IH]; intros slot d generations exhausted Hempty; cbn [reserve_scan]; [done|].
  destruct (bool_decide _) eqn:E; cbn [negb]; [|by apply IH]. apply bool_decide_eq_true in E.
  destruct (sd_rows d !! slot) as [r|] eqn:Hr.
  - unfold directory_row in *. rewrite (nth_lookup_Some _ _ _ _ Hr) in *. pose proof (Hempty slot r Hr E) as ->.
    destruct (AllocateServiceGeneration generations slot) as [g gens]. destruct (g =? 0); [|by eapply Hput].
    etrans; [apply IH|by eapply Hput]. intros i x [[-> ->]|[_ Hx]]%lookup_insert_cases; [done|by apply Hempty with i].
  - destruct (AllocateServiceGeneration generations slot) as [g gens]. apply lookup_ge_None in Hr.
    assert (forall r', with_row d slot r' = d) as Hsame by (intros r'; unfold with_row; rewrite list_insert_ge by done; by destruct d).
    rewrite !Hsame. destruct (g =? 0); [by apply IH|done].
Qed.

Lemma register_handles w name manifest_slot owner credential : dinv w ->
  directory_handles (ServiceDirectoryReserveRegistration addr (w_dir w) (w_generations w) (Some name) manifest_slot owner (Some credential)).1.2
    ⊆+ directory_handles (w_dir w).
Proof.
  intros H. unfold ServiceDirectoryReserveRegistration. destruct (_ || _); [done|]. destruct (ReadyStatus _ _); try done. destruct (negb _); [done|].
  destruct (conflict _ _ _); try done. apply reserve_scan_handles. intros i r Hr Hs.
  destruct (di_rows _ H i r Hr) as [Hf|[[->| ->] ?]]; try done. pose proof (rf_in_use _ _ (ri_fine _ _ _ Hf)) as Hu.
  unfold entry_in_use in Hu. by rewrite Hs in Hu.
Qed.

Lemma dexec_hinv w c answer w' : dinv w -> call_ok w c -> dexec addr w c = Some (answer, w') -> hinv w -> hinv w'.
Proof.
  intros H [_ Hok] Hex Hh. assert (directory_handles (w_dir w') ⊆+ directory_handles (w_dir w) ++ published_by w c) as Hsub.
  { pose proof (dexec_keys addr w c answer w' Hex) as Hk. destruct c as [name slot owner credential| | | | | | | | | | | | | | | | | |]; [|apply Hk..].
    cbn [dexec] in Hex. pose proof (register_handles w name slot owner credential H) as Hs.
    destruct (ServiceDirectoryReserveRegistration _ _ _ _ _ _ _) as [[[? ?] d'] ?]. injection Hex as _ <-. by rewrite app_nil_r. }
  apply submseteq_Permutation in Hsub as [rest Hp]. enough (NoDup (directory_handles (w_dir w) ++ published_by w c)) as Hnd.
  { rewrite Hp in Hnd. by apply NoDup_app in Hnd as [? _]. }
  clear Hp. destruct c as [| | | | | | | | | |n published| | | | | | | |]; cbn [published_by]; rewrite ?app_nil_r; try done.
  unfold handle_is_new in Hok. destruct (w_tasks w !! n) as [[|key obj| |]|]; rewrite ?app_nil_r; try done.
  destruct published as [handle|]; [|by rewrite app_nil_r]. destruct Hok as [_ Hnew]. unfold new_handle in *.
  destruct (ResolveExactLocked _ _) as [r|]; [|by rewrite app_nil_r]. destruct (ResolveAcceptedLocked _ _) as [a|]; [|by rewrite app_nil_r].
  apply NoDup_app. split; [done|]. split; [|apply NoDup_singleton]. intros x Hx ->%list_elem_of_singleton. by inversion Hnew.
Qed.

Lemma druns_dinv w h w' : druns addr w h w' -> room_kept addr w h -> dinv w ->
  dinv w' /\ (hinv w -> hinv w' /\ Forall (fun step => answer_fine step.2) h).
Proof.
  induction 1 as [w|w c answer w1 h w2 Hok Hex Hrun IH]; intros Hroom H; [done|]. cbn [room_kept] in Hroom. rewrite Hex in Hroom. destruct Hroom as [Hfit Hroom].
  destruct (dexec_dinv w c answer w1 H Hok Hfit Hex) as [H1 Ha]. destruct (IH Hroom H1) as [H2 Hf]. split; [done|]. intros Hh.
  destruct (Hf (dexec_hinv w c answer w1 H Hok Hex Hh)). auto.
Qed.

End steps.
