(* ===== verification/ServiceDirectoryDrain.v ===== *)
(** * Closing a registration to the end

    A registration without calls under way, pins, a reservation or records
    left to process teardown is gone after at most two closes whose channels
    the endpoints release. *)

From S2P Require Import Prelude ServiceTransition Bytes KObject HandleTable ChannelCore Credentials.
From S2P Require Import Sha256 ServiceManifest ServiceManifestGraph ServiceLifecycleBroker ServiceDirectory ServiceDirectoryRows ServiceDirectoryInv.
From S2P Require Import ServiceDirectoryClose ServiceDirectoryRuns ServiceDirectoryKeys ServiceDirectoryWorld.

Implicit Types (r : ServiceDirectoryRow) (a : ServiceDirectoryAcceptedChannel) (t : dtask) (ts : list dtask) (w : dworld).

#[local] Arguments sumZ : simpl never.

(** ** Rows *)

Definition undeferred a : Prop := accepted_in_use a = true -> ac_process_teardown_deferred a = false.

(** No reservation, no pin, and no record left to process teardown. *)
Record row_quiet r : Prop := {
  rq_authority : dr_reservation_authority r = 0;
  rq_operations : dr_active_operations r = 0;
  rq_accepted : Forall undeferred (dr_accepted_channels r);
}.

Lemma cleared_undeferred a : undeferred a -> accepted_in_use (cleared a) = false.
Proof.
  unfold undeferred, cleared, close_takes. destruct (accepted_in_use a) eqn:E; cbn [andb]; [|done]. intros ->; [|done]. cbn [negb].
  by rewrite clear_not_in_use.
Qed.

Lemma detach_quiet i r : row_fine i r -> row_quiet r ->
  let '(batch, r1) := detach_channels r in
  row_quiet r1 /\ dr_external_publishers r1 = dr_external_publishers r /\
  dr_close_batch_outstanding r1 = dr_close_batch_outstanding r /\
  (dr_closing_count r = 0 -> dr_accept_count r1 = 0 /\ dr_accepted_count r1 = 0) /\ (batch = [] -> dr_closing_count r = 0).
Proof.
  intros Hf [Hau Hop Hac]. unfold detach_channels. destruct (Z.eqb_spec (dr_closing_count r) 0) as [Hz|Hnz]; cbn [negb].
  - destruct (detach_queue_fine _ r (rf_queue _ _ Hf) eq_refl) as (_ & _ & _ & queue & head & Er). destruct (detach_queue _ r) as [queued r1].
    cbn [snd] in Er. subst r1. cbn. split_and!; try done.
    + split; try done. cbn. apply Forall_fmap, Forall_forall. intros a Hin Hu. exfalso. change (accepted_in_use (cleared a) = true) in Hu.
      by rewrite cleared_undeferred in Hu by exact (proj1 (Forall_forall _ _) Hac a Hin).
    + intros _. split; [done|]. rewrite (af_count _ (rf_accepted _ _ Hf)), cleared_count. apply sumZ_zero. intros a Hin.
      by rewrite cleared_undeferred by exact (proj1 (Forall_forall _ _) Hac a Hin).
  - split_and!; try done. intros Hnil%(f_equal length). destruct (rf_closing _ _ Hf) as [Hl Hc _ _ _ _]. rewrite length_take_le in Hnil by lia. cbn in Hnil. lia.
Qed.

(** ** The loop over a batch whose endpoints all answer Ok *)

Lemma drain_all batch : Forall owned_held batch -> forall drained,
  drain_batch batch (replicate (length batch) EpOk) drained EpOk = (drained + Z.of_nat (length batch), [], EpOk) /\
  drained_receipts batch (replicate (length batch) EpOk) = map ow_owner batch.
Proof.
  induction 1 as [|c batch [Hv Hd] _ IH]; intros drained; cbn [drain_batch drained_receipts length replicate hd tl map].
  { split; [|done]. by rewrite Z.add_0_r. }
  unfold ServiceDirectoryDrainOwnedChannel, ServiceDirectoryOwnedChannelIsEmpty. rewrite Hv, Hd. cbn [negb andb orb].
  destruct (IH (drained + 1)) as [IH1 IH2]. rewrite !bool_decide_true by done. rewrite IH1, IH2. split; [|done]. do 2 f_equal. lia.
Qed.

(** ** A close and its end *)

Section drain.
Context (addr : Z) (Haddr : addr <> 0).

Lemma resolve_put d k r' : length (sd_rows d) = Z.to_nat kServiceDirectoryCapacity -> key_typed k -> ServiceKeyIsValid k = true ->
  ResolveExactLocked (put_entry d k r') k = if entry_in_use r' && bool_decide (dr_key r' = k) then Some r' else None.
Proof.
  intros Hl Hk Hv. unfold ResolveExactLocked, put_entry, directory_row, with_row. rewrite Hv. cbn [negb sd_rows].
  rewrite (nth_lookup_Some _ _ _ r') by (apply list_lookup_insert_eq; rewrite Hl; by apply key_valid_slot).
  by destruct (entry_in_use r'), (bool_decide _).
Qed.

Lemma recycle_resolve d k r' : length (sd_rows d) = Z.to_nat kServiceDirectoryCapacity -> key_typed k -> ServiceKeyIsValid k = true ->
  entry_in_use r' = true -> dr_key r' = k ->
  ResolveExactLocked (put_entry d k (TryRecycleLocked r').2) k = if (TryRecycleLocked r').1 then None else Some r'.
Proof.
  intros Hl Hk Hv Hu Hkey. rewrite resolve_put by done. unfold TryRecycleLocked. destruct (_ || _); cbn [fst snd].
  - by rewrite Hu, bool_decide_true by done.
  - by destruct (_ =? _).
Qed.

(** No call is under way on the registration. *)
Definition idle w (k : ServiceKey) : Prop := Forall (fun t => task_service t <> k) (w_tasks w).

Lemma idle_row w k i r : row_inv i r (tasks_at i (w_tasks w)) -> dr_key r = k -> idle w k ->
  dr_external_publishers r = 0 /\ dr_close_driver_active r = 0 /\ dr_close_batch_outstanding r = 0 /\ HasAcceptedReleaseDriverLocked r = false.
Proof.
  intros Hinv Hkey Hidle. assert (tasks_at i (w_tasks w) = []) as Hnil.
  { destruct (tasks_at i (w_tasks w)) as [|t ts] eqn:E; [done|]. exfalso.
    destruct (rt_fits _ _ (ri_tasks _ _ _ Hinv) t (list_elem_of_here _ _)) as [Ht _].
    assert (t ∈ w_tasks w) as Hin by (apply (list_elem_of_filter (fun t => task_slot t = Z.of_nat i)); fold (tasks_at i (w_tasks w)); rewrite E; apply list_elem_of_here).
    apply (proj1 (Forall_forall _ _) Hidle t Hin). congruence. }
  rewrite Hnil in Hinv. destruct Hinv as [Hf Ht _]. rewrite (rt_publishers _ _ Ht), (rt_closes _ _ Ht).
  pose proof (rt_closes _ _ Ht) as Hd. unfold sumZ in Hd |- *. cbn in Hd |- *. split_and!; try done.
  - destruct (cf_driver _ (rf_closing _ _ Hf)) as [[_ ?]|[Hd' _]]; [done|]. rewrite Hd in Hd'. discriminate.
  - apply not_true_iff_false. intros (j & Hj%in_seq & Hb)%existsb_exists. unfold accepted_at in Hb.
    pose proof (nth_some (dr_accepted_channels r) zero_accepted j 8 (af_length _ (rf_accepted _ _ Hf)) ltac:(change (Z.to_nat kServiceDirectoryAcceptedCapacity) with 8%nat in Hj; lia)) as Ha.
    set (a := nth j _ _) in *. destruct (accepted_in_use a) eqn:Hu.
    + pose proof (rt_releases _ _ Ht j a Ha Hu) as Hr. rewrite Hb in Hr. discriminate.
    + assert (row_inv i r []) as Hinv by (by split).
      by rewrite (free_slot_idle i r [] Hinv j a Ha Hu) in Hb.
Qed.

(** What a step of the drive is. *)
Definition drives (k : ServiceKey) (owner : ServiceInstanceToken) (step : dcall * danswer) : Prop :=
  step.1 = DClose k owner CloseUnregister \/ exists n m, step.1 = DClosed n (replicate m EpOk).

(** A drive publishes nothing, so none of its steps needs room. *)
Lemma drives_room k owner h : forall w, Forall (drives k owner) h -> room_kept addr w h.
Proof.
  induction h as [|[c answer] h IH]; intros w Hd; cbn [room_kept]; [done|]. apply Forall_cons in Hd as [Hc Hd]. split.
  - destruct Hc as [Hc|(n & m & Hc)]; cbn in Hc; by rewrite Hc.
  - destruct (dexec addr w c) as [[? w']|]; [by apply IH|done].
Qed.

(** The first section: the mark, and the batch or the end. *)
Lemma close_begin w k r : dinv w -> key_typed k -> ResolveExactLocked (w_dir w) k = Some r -> idle w k -> row_quiet r ->
  exists i r0 batch r1, (i < Z.to_nat kServiceDirectoryCapacity)%nat /\ ServiceKeyIsValid k = true /\
    dr_closing_count r0 = dr_closing_count r /\ row_receipts r0 = row_receipts r /\ detached i r0 (tasks_at i (w_tasks w)) batch r1 /\
    detach_channels r0 = (batch, r1) /\ row_fine i r0 /\ row_quiet r0 /\ dr_key r1 = k /\ dr_owner r1 = dr_owner r /\
    dr_external_publishers r1 = 0 /\ dr_close_batch_outstanding r1 = 0 /\
    CloseBeginLocked addr (w_dir w) k (dr_owner r) CloseUnregister =
      match batch with
      | [] => (inl (CloseFailure (if (TryRecycleLocked r1).1 then DirOk else DirBusy) EpOk 0), put_entry (w_dir w) k (TryRecycleLocked r1).2)
      | _ => (inr batch, put_entry (w_dir w) k (with_closing r1 (dr_closing_channels r1) (dr_closing_count r1) (Z.of_nat (length batch)) 1))
      end.
Proof.
  intros H Hk Hres Hidle Hq. destruct (resolve_row w k r H Hk Hres) as (i & Hi & Hslot & Hlt & Hr & Hkey & Hinv).
  pose proof (rf_static _ _ (ri_fine _ _ _ Hinv)) as Hst. unfold static_ok in Hst. rewrite !andb_true_iff in Hst.
  destruct Hst as (((((_ & Hot) & _) & Hv) & _) & _). rewrite Hkey in Hv.
  destruct (close_marks i r _ CloseUnregister Hinv ltac:(done)) as (Hi0 & Hh0 & Hs0 & Hk0 & Hn0 & Ho0).
  destruct (idle_row w k i _ Hi0 ltac:(by rewrite Hk0) Hidle) as (Hp & Hd & Hb & Hno).
  set (r0 := if bool_decide (dr_state r = EntryReserved) || bool_decide (dr_state r = EntryActive) then _ else _) in *.
  assert (row_quiet r0) as Hq0 by (destruct Hq; subst r0; destruct (_ || _); by split).
  pose proof (detach_row i r0 _ Hi0 Hs0 Hd Hno) as Hdet. pose proof (detach_quiet i r0 (ri_fine _ _ _ Hi0) Hq0) as Hdq.
  assert (CloseBeginLocked addr (w_dir w) k (dr_owner r) CloseUnregister =
    let '(batch, row) := detach_channels r0 in
    match batch with
    | [] => let '(recycled, row) := TryRecycleLocked row in
            (inl (CloseFailure (if recycled : bool then DirOk else DirBusy) EpOk 0), put_entry (w_dir w) k row)
    | _ => (inr batch, put_entry (w_dir w) k (with_closing row (dr_closing_channels row) (dr_closing_count row) (Z.of_nat (length batch)) 1))
    end) as Hbegin.
  { unfold CloseBeginLocked. rewrite Hv, Hot. cbn [negb orb]. rewrite !bool_decide_false by done. cbn [orb].
    rewrite (locked_open addr Haddr w) by done. rewrite Hres. rewrite (bool_decide_true (dr_owner r = dr_owner r)) by done. cbn [negb].
    fold r0. rewrite (bool_decide_true (dr_state r0 = EntryClosing)), Hd, Hno by done. done. }
  exists i, r0, (detach_channels r0).1, (detach_channels r0).2.
  destruct (detach_channels r0) as [batch r1]. cbn [fst snd] in *. destruct Hdet as [Di Ds (Dk & Do & Dn & Dd) Dc Db Dr].
  destruct Hdq as (Q1 & Q2 & Q3 & _ & _).
  split_and!; try done; try congruence.
  - subst r0. by destruct (_ || _).
  - unfold held in Hh0. by apply app_inv_tail in Hh0.
  - apply Hi0.
  - rewrite Hbegin. destruct batch; [by destruct (TryRecycleLocked r1)|done].
Qed.

Lemma recycle_quiet r : dr_state r = EntryClosing -> row_quiet r -> dr_accept_count r = 0 -> dr_accepted_count r = 0 ->
  dr_external_publishers r = 0 -> dr_closing_count r = 0 -> dr_close_batch_outstanding r = 0 -> dr_close_driver_active r = 0 ->
  (TryRecycleLocked r).1 = true.
Proof.
  intros Hs [Ha Ho _] H1 H2 H3 H4 H5 H6. unfold TryRecycleLocked. rewrite (bool_decide_true (dr_state r = EntryClosing)), Ha, Ho, H1, H2, H3, H4, H5, H6 by done. done.
Qed.

Lemma recycled_counts r : (TryRecycleLocked r).1 = true -> dr_accept_count r = 0 /\ dr_accepted_count r = 0.
Proof.
  unfold TryRecycleLocked. destruct (_ || _) eqn:E; [done|]. rewrite !orb_false_iff, !negb_false_iff, !Z.eqb_eq in E. tauto.
Qed.

(** A batch taken, released and ended. *)
Lemma close_batch w k owner r1 b : dinv w -> key_typed k -> ServiceKeyIsValid k = true -> Z.of_nat (length (w_tasks w)) + 2 < u32_max ->
  dr_key r1 = k -> dr_owner r1 = owner -> dr_state r1 = EntryClosing -> Forall owned_held b ->
  let r1' := with_closing r1 (dr_closing_channels r1) (dr_closing_count r1) (Z.of_nat (length b)) 1 in
  let r2 := with_closing r1' (dr_closing_channels r1') 0 0 0 in
  CloseBeginLocked addr (w_dir w) k owner CloseUnregister = (inr b, put_entry (w_dir w) k r1') ->
  exists h w', druns addr w h w' /\ (length h <= 2)%nat /\ Forall (drives k owner) h /\ w_tasks w' = w_tasks w /\
    w_done w' = w_done w ++ map ow_owner b /\ ResolveExactLocked (w_dir w') k = if (TryRecycleLocked r2).1 then None else Some r2.
Proof.
  intros H Hk Hv Hfew Hk1 Ho1 Hs1 Hb r1' r2 Hbegin. pose proof (di_length _ H) as Hlen.
  assert (entry_in_use r1' = true /\ entry_in_use r2 = true) as [Hu1 Hu2] by (unfold entry_in_use, r2, r1'; cbn; by rewrite Hs1).
  set (d1 := put_entry (w_dir w) k r1') in *. set (w1 := starts w d1 (TClose k owner b)).
  assert (dexec addr w (DClose k owner CloseUnregister) = Some (ABatch b, w1)) as E1 by (cbn [dexec]; by rewrite Hbegin).
  assert (call_ok w (DClose k owner CloseUnregister)) as Hok by (split; [lia|done]).
  destruct (dexec_dinv addr Haddr w _ _ _ H Hok I E1) as [H1 _].
  assert (w_tasks w1 !! length (w_tasks w) = Some (TClose k owner b)) as Hn by (apply list_lookup_middle; done).
  destruct (drain_all b Hb 0) as [Hda Hdr].
  assert (ResolveExactLocked d1 k = Some r1') as Hres1 by (unfold d1; rewrite resolve_put, Hu1 by done; by rewrite bool_decide_true).
  set (w2 := ends w1 (put_entry d1 k (TryRecycleLocked r2).2) (length (w_tasks w)) (map ow_owner b) []).
  set (end_answer := AStatus (if (TryRecycleLocked r2).1 then DirOk else DirBusy)).
  assert (dexec addr w1 (DClosed (length (w_tasks w)) (replicate (length b) EpOk)) = Some (end_answer, w2)) as E2.
  { cbn [dexec]. rewrite Hn, Hda, Hdr. unfold CloseFinishLocked. rewrite (guarded_open w1) by done. change (w_dir w1) with d1. rewrite Hres1.
    rewrite (bool_decide_true (dr_owner r1' = owner)), (bool_decide_true (dr_state r1' = EntryClosing)) by done.
    change (dr_close_driver_active r1') with 1. change (dr_close_batch_outstanding r1') with (Z.of_nat (length b)). rewrite !Z.eqb_refl. cbn [negb orb].
    change (with_closing r1' _ _ 0 0) with r2. unfold w2, end_answer. by destruct (TryRecycleLocked r2). }
  exists [(DClose k owner CloseUnregister, ABatch b); (DClosed (length (w_tasks w)) (replicate (length b) EpOk), end_answer)], w2.
  split_and!; [|cbn; lia| | |done|].
  - eapply druns_cons; [exact Hok|exact E1|]. eapply druns_cons; [|exact E2|constructor]. split; [|done]. cbn. rewrite length_app. cbn. lia.
  - constructor; [by left|]. constructor; [right; by do 2 eexists|done].
  - cbn. rewrite delete_middle. by rewrite app_nil_r.
  - cbn [w2 w_dir ends]. apply recycle_resolve; try done. unfold d1, put_entry, with_row. cbn [sd_rows]. by rewrite length_insert.
Qed.

(** What is left of the registration after one close: nothing, or, when the
    close took the channels an earlier one had left, the others. *)
Definition after_close k r w' gone : Prop :=
  (ResolveExactLocked (w_dir w') k = None /\ gone ≡ₚ row_receipts r) \/
  (dr_closing_count r <> 0 /\ exists r', ResolveExactLocked (w_dir w') k = Some r' /\ row_quiet r' /\ dr_owner r' = dr_owner r /\
    dr_closing_count r' = 0 /\ gone ++ row_receipts r' ≡ₚ row_receipts r).

Lemma close_round w k r : dinv w -> key_typed k -> Z.of_nat (length (w_tasks w)) + 2 < u32_max ->
  ResolveExactLocked (w_dir w) k = Some r -> idle w k -> row_quiet r ->
  exists h w' gone, druns addr w h w' /\ (length h <= 2)%nat /\ Forall (drives k (dr_owner r)) h /\ w_tasks w' = w_tasks w /\
    w_done w' = w_done w ++ gone /\ after_close k r w' gone.
Proof.
  intros H Hk Hfew Hres Hidle Hq.
  destruct (close_begin w k r H Hk Hres Hidle Hq) as (i & r0 & batch & r1 & Hlt & Hv & Hc0 & Hr0 & Hdet & Hch & Hf0 & Hq0 & Hk1 & Ho1 & Hp1 & Hb1 & Hbegin).
  destruct Hdet as [Di Ds (_ & _ & _ & Dd) Dc [Db Dl] Dr]. pose proof (detach_quiet i r0 Hf0 Hq0) as Hdq. rewrite Hch in Hdq.
  destruct Hdq as (Q1 & _ & _ & Q4 & Q5). pose proof (rf_in_use _ _ (ri_fine _ _ _ Di)) as Hu1. rewrite Hr0 in Dr.
  pose proof (rf_accepted _ _ (ri_fine _ _ _ Di)) as Ha1. destruct batch as [|c batch].
  - destruct (Q4 (Q5 eq_refl)) as [Q6 Q7]. pose proof (recycle_quiet r1 Ds Q1 Q6 Q7 Hp1 Dc Hb1 Dd) as Hrec. rewrite Hrec in Hbegin.
    exists [(DClose k (dr_owner r) CloseUnregister, AStatus DirOk)], (only_dir w (put_entry (w_dir w) k (TryRecycleLocked r1).2)), [].
    split_and!; [|cbn; lia|by repeat constructor|done|by rewrite app_nil_r|left; split].
    + eapply druns_cons; [split; [lia|done]| |constructor]. cbn [dexec]. by rewrite Hbegin.
    + cbn [w_dir only_dir]. pose proof (di_length _ H). by rewrite recycle_resolve, Hrec by done.
    + by rewrite <- Dr, (no_receipts r1 Ha1 Q6 Q7 Dc).
  - set (b := c :: batch) in *. destruct (close_batch w k (dr_owner r) r1 b H Hk Hv Hfew Hk1 Ho1 Ds Db Hbegin) as (h & w' & Hrun & Hl & Hdrv & Ht & Hd & Hfin).
    exists h, w', (map ow_owner b). split_and!; try done. set (r2 := with_closing _ _ 0 0 0) in Hfin.
    assert (row_quiet r2) as Q2 by (destruct Q1; by split).
    destruct (TryRecycleLocked r2).1 eqn:Erec; [left|right]; (split; [try done|]).
    + rewrite <- Dr. destruct (recycled_counts r2 Erec) as [Hz1 Hz2]. by rewrite (no_receipts r1 Ha1 Hz1 Hz2 Dc).
    + intros Hz. destruct (Q4 ltac:(congruence)) as [Q6 Q7]. by rewrite recycle_quiet in Erec.
    + exists r2. split_and!; try done. rewrite <- Dr, Permutation_app_comm.
      assert (row_receipts r2 = row_receipts r1) as -> by (unfold row_receipts; change (queue_list r2) with (queue_list r1); cbn; by rewrite Dc). done.
Qed.

Lemma close_completes w k r : dinv w -> key_typed k -> Z.of_nat (length (w_tasks w)) + 2 < u32_max ->
  ResolveExactLocked (w_dir w) k = Some r -> idle w k -> row_quiet r ->
  exists h w' gone, druns addr w h w' /\ (length h <= 4)%nat /\ Forall (drives k (dr_owner r)) h /\
    ResolveExactLocked (w_dir w') k = None /\ w_done w' = w_done w ++ gone /\ gone ≡ₚ row_receipts r.
Proof.
  intros H Hk Hfew Hres Hidle Hq.
  destruct (close_round w k r H Hk Hfew Hres Hidle Hq) as (h & w1 & gone & Hrun & Hl & Hd & Ht & Hdone & [[Hnone Hg]|(_ & r' & Hres' & Hq' & Ho & Hc & Hg)]).
  { exists h, w1, gone. split_and!; try done. lia. }
  destruct (druns_dinv addr Haddr _ _ _ Hrun (drives_room _ _ _ _ Hd) H) as [H1 _].
  destruct (close_round w1 k r' H1 Hk ltac:(by rewrite Ht) Hres' ltac:(unfold idle; by rewrite Ht) Hq') as (h' & w2 & gone' & Hrun' & Hl' & Hd' & _ & Hdone' & [[Hnone Hg']|[Hbad _]]); [|done].
  exists (h ++ h'), w2, (gone ++ gone'). split_and!.
  - by eapply druns_app.
  - rewrite length_app. lia.
  - apply Forall_app. by rewrite Ho in Hd'.
  - done.
  - by rewrite Hdone', Hdone, app_assoc.
  - by rewrite Hg', Hg.
Qed.

End drain.
