(* ===== verification/ServiceDirectoryProps.v ===== *)
(** * What the service directory guarantees

    Claims about every run of the directory from its initialization, and two
    runs in which a failed publication of an accepted channel leaves the
    directory in a state it cannot leave. *)

From S2P Require Import Prelude ServiceTransition Bytes KObject HandleTable ChannelCore Credentials.
From S2P Require Import Sha256 ServiceManifest ServiceManifestGraph ServiceLifecycleBroker ServiceDirectory ServiceDirectoryRows ServiceDirectoryInv.
From S2P Require Import ServiceDirectoryClose ServiceDirectoryRuns ServiceDirectoryKeys ServiceDirectoryWorld ServiceDirectoryDrain.

Implicit Types (r : ServiceDirectoryRow) (t : dtask) (ts : list dtask) (w : dworld).

#[local] Arguments sumZ : simpl never.

(** ** Runs from initialization *)

(** Zeroed storage, and the world after its initialization. *)
Definition zero_directory : ServiceDirectory :=
  MkDirectory 0 DirectoryUninitialized 0 0 (replicate (Z.to_nat kServiceDirectoryCapacity) (zero_directory_row EntryEmpty)).
Definition dstart (addr owner : Z) (generations : list Z) : dworld :=
  MkDWorld (ServiceDirectoryInitialize addr zero_directory owner true).2 generations [] [] [] [].

(** The generation counters outlive a directory: any values of their range. *)
Definition counters_fit (generations : list Z) : Prop :=
  length generations = Z.to_nat kServiceDirectoryCapacity /\ Forall (fun g => 0 <= g <= kServiceKeyGenerationMaximum) generations.

Section start.
Context (addr owner : Z) (generations : list Z).
Context (Haddr : addr <> 0) (Howner : owner <> 0) (Hfit : counters_fit generations).

Lemma dstart_dir : w_dir (dstart addr owner generations) =
  MkDirectory kDirectoryInitializeReady DirectoryOpen owner 0 (replicate (Z.to_nat kServiceDirectoryCapacity) (ClearRowLocked false)).
Proof.
  unfold dstart, ServiceDirectoryInitialize. cbn [w_dir]. rewrite (proj2 (Z.eqb_neq addr 0)), (proj2 (Z.eqb_neq owner 0)) by done.
  cbn [orb negb]. by vm_compute.
Qed.

Lemma dstart_dinv : dinv (dstart addr owner generations).
Proof.
  assert (forall i r, sd_rows (w_dir (dstart addr owner generations)) !! i = Some r -> r = ClearRowLocked false) as Hrows.
  { intros i r. rewrite dstart_dir. cbn [sd_rows]. by intros [-> _]%lookup_replicate. }
  split; try done.
  - rewrite dstart_dir. split_and!; done.
  - by rewrite dstart_dir.
  - intros i r ->%Hrows. right. auto.
  - by intros i r g ->%Hrows.
  - intros i j r r' ->%Hrows. done.
  - constructor.
  - by intros k ch ?%elem_of_nil.
  - by rewrite dstart_dir.
Qed.

Lemma dstart_hinv : hinv (dstart addr owner generations).
Proof. unfold hinv. rewrite dstart_dir. constructor. Qed.

Lemma dstart_issued : issued (dstart addr owner generations).
Proof.
  split; [apply Hfit|]. intros i r. rewrite dstart_dir. cbn [sd_rows]. by intros [-> _]%lookup_replicate.
Qed.

Lemma reached_dinv h w : druns addr (dstart addr owner generations) h w -> room_kept addr (dstart addr owner generations) h -> dinv w.
Proof. intros Hrun Hroom. exact (proj1 (druns_dinv addr Haddr _ _ _ Hrun Hroom dstart_dinv)). Qed.

End start.

(** A row as its calls under way have it: in use, it counts them; else it is
    zero and has none. *)
Definition row_counts (i : nat) r ts : Prop :=
  if entry_in_use r
  then dr_external_publishers r = sumZ publishes (tasks_at i ts) /\ dr_close_driver_active r = sumZ closes (tasks_at i ts)
  else (r = ClearRowLocked false \/ r = ClearRowLocked true) /\ tasks_at i ts = [].

(** C37: From initialization on, whatever calls run and however their sections
    interleave, the directory stays canonical and no call ever answers
    CorruptState, provided the queue has room whenever a publication fails, the
    handle tables publish handles the directory does not have for that process
    already, and owner probes ask for the owner the directory was opened with.
    Every row in use counts exactly the connects, accepts and closes under way
    on it, every other row is zero and has none, and no two registrations share
    a name or a service. *)
Theorem directory_never_corrupt addr owner generations h w : addr <> 0 -> owner <> 0 -> counters_fit generations ->
  druns addr (dstart addr owner generations) h w -> room_kept addr (dstart addr owner generations) h ->
  DirectoryIsCanonicalLocked (w_dir w) = true /\ Forall (fun step => answer_fine step.2) h /\
  (forall i r, sd_rows (w_dir w) !! i = Some r -> row_counts i r (w_tasks w)) /\
  (forall i j r r', sd_rows (w_dir w) !! i = Some r -> sd_rows (w_dir w) !! j = Some r' -> entry_in_use r = true -> entry_in_use r' = true ->
    NameEquals (dr_name r) (dr_name r') = true \/
    ticket_service_identity (token_start (dr_owner r)) = ticket_service_identity (token_start (dr_owner r')) -> i = j).
Proof.
  intros Ha Ho Hc Hrun Hroom. destruct (druns_dinv addr Ha _ _ _ Hrun Hroom (dstart_dinv addr owner generations Ha Ho Hc)) as [H Hf].
  destruct (Hf (dstart_hinv addr owner generations Ha Ho)) as [_ Hfine].
  split_and!; [by eapply dinv_canonical|done| |].
  - intros i r Hr. unfold row_counts. destruct (di_rows _ H i r Hr) as [Hi|[Hz ->]]; [|by destruct Hz as [->| ->]; cbn; auto].
    rewrite (rf_in_use _ _ (ri_fine _ _ _ Hi)). split; apply (ri_tasks _ _ _ Hi).
  - intros i j r r' Hr Hr' Hu Hu' Hsame. destruct (decide (i = j)) as [|Hne]; [done|].
    destruct (di_unique _ H i j r r' Hr Hr' Hu Hu' Hne) as [Hn Hs]. destruct Hsame as [Hn'|Hs']; [by rewrite Hn in Hn'|done].
Qed.

(** C38: Provided the queue has room whenever a publication fails, and connects
    bring channels that were never queued before ([call_ok]), every endpoint
    receipt queued with the directory is at any moment in exactly one place: a
    row, a close under way, released by the directory, or handed back to its
    connect.  So no channel is lost, none is released twice, and none is
    released after it was handed back.  (Where a failed publication meets a full
    queue a channel is overwritten: [directory_restore_overflows].) *)
Theorem directory_receipts_exact addr owner generations h w : addr <> 0 -> owner <> 0 -> counters_fit generations ->
  druns addr (dstart addr owner generations) h w -> room_kept addr (dstart addr owner generations) h ->
  w_given w ≡ₚ flat_map row_receipts (sd_rows (w_dir w)) ++ flat_map task_receipts (w_tasks w) ++ w_done w ++ w_back w /\
  NoDup (map rc_channel (flat_map row_receipts (sd_rows (w_dir w)) ++ flat_map task_receipts (w_tasks w) ++ w_done w ++ w_back w)).
Proof.
  intros Ha Ho Hc Hrun Hroom. pose proof (reached_dinv addr owner generations Ha Ho Hc h w Hrun Hroom) as H.
  split; [apply H|]. rewrite <- (di_receipts _ H). apply H.
Qed.

(** ** Keys *)

(** C39: A service key names one registration: once it has named one and that
    registration is gone, no later run makes it name another, so stale keys,
    pins and channels of an old service never reach its successor.  This holds
    of every run, also of one in which a queue overflows. *)
Theorem directory_keys_never_return addr owner generations h1 w1 h2 w2 h3 w3 k r : addr <> 0 -> owner <> 0 -> counters_fit generations ->
  druns addr (dstart addr owner generations) h1 w1 -> druns addr w1 h2 w2 -> druns addr w2 h3 w3 ->
  ResolveExactLocked (w_dir w1) k = Some r -> ResolveExactLocked (w_dir w2) k = None -> ResolveExactLocked (w_dir w3) k = None.
Proof.
  intros Ha Ho Hc H1 H2 H3 Hr Hnone. destruct (druns_issued addr _ _ _ H1 (dstart_issued addr owner generations Ha Ho Hc)) as [I1 _].
  destruct (druns_issued addr _ _ _ H2 I1) as [I2 Hg]. apply spent_unresolved, (druns_spent addr k _ _ _ H3 I2). by apply (unresolved_spent k r w1).
Qed.

(** ** Closing *)

(** C40: As long as the queue has had room whenever a publication failed, and
    connects brought channels that were never queued before ([call_ok]), a
    registration without calls under way, pins, a reservation or channels left
    to process teardown can be closed to the end: at most two closes by its
    owner, with the endpoints releasing their channels, make its key stale and
    its row free, and release exactly the channels it had. *)
Theorem directory_close_completes addr owner generations h w k r : addr <> 0 -> owner <> 0 -> counters_fit generations ->
  druns addr (dstart addr owner generations) h w -> room_kept addr (dstart addr owner generations) h -> key_typed k -> Z.of_nat (length (w_tasks w)) + 2 < u32_max ->
  ResolveExactLocked (w_dir w) k = Some r -> idle w k -> row_quiet r ->
  exists h' w' gone, druns addr w h' w' /\ (length h' <= 4)%nat /\ Forall (drives k (dr_owner r)) h' /\
    ResolveExactLocked (w_dir w') k = None /\ w_done w' = w_done w ++ gone /\ gone ≡ₚ row_receipts r.
Proof.
  intros Ha Ho Hc Hrun Hroom. pose proof (reached_dinv addr owner generations Ha Ho Hc h w Hrun Hroom) as H. by apply close_completes.
Qed.

(** ** Runs to evaluate *)

#[local] Instance handle_is_new_dec w n handle : Decision (handle_is_new w n handle).
Proof. unfold handle_is_new. destruct (w_tasks w !! n) as [[]|]; apply _. Defined.

#[local] Instance call_ok_dec w c : Decision (call_ok w c).
Proof. unfold call_ok, key_typed. apply and_dec; [apply _|]. destruct c as [| | | | | | | | | |n []| | | | | | | |]; apply _. Defined.

#[local] Instance restore_fits_dec w c : Decision (restore_fits w c).
Proof.
  unfold restore_fits. destruct c as [| | | | | | | | | |n []| | | | | | | |]; try apply _.
  destruct (w_tasks w !! n) as [[]|]; try apply _. destruct (ResolveExactLocked _ _); apply _.
Defined.

(** The run of a list of calls; with [fits], only where a queue has room for
    the channels given back to it. *)
Fixpoint run_calls (fits : bool) (addr : Z) w (calls : list dcall) : option (list (dcall * danswer) * dworld) :=
  match calls with
  | [] => Some ([], w)
  | c :: calls =>
      if negb (bool_decide (call_ok w c)) || (fits && negb (bool_decide (restore_fits w c))) then None
      else
        match dexec addr w c with
        | Some (answer, w') =>
            match run_calls fits addr w' calls with Some (h, w'') => Some ((c, answer) :: h, w'') | None => None end
        | None => None
        end
  end.

Lemma run_calls_druns fits addr calls : forall w h w', run_calls fits addr w calls = Some (h, w') ->
  druns addr w h w' /\ (fits = true -> room_kept addr w h).
Proof.
  induction calls as [|c calls IH]; intros w h w'; cbn [run_calls]; [intros [= <- <-]; split; [constructor|done]|].
  case_bool_decide as Hok; [|done]. destruct (fits && _) eqn:Hf; [done|]. cbn [negb orb].
  destruct (dexec addr w c) as [[answer w1]|] eqn:E; [|done]. destruct (run_calls fits addr w1 calls) as [[h1 w2]|] eqn:E1; [|done].
  intros [= <- <-]. destruct (IH _ _ _ E1) as [Hrun Hroom]. split; [by eapply druns_cons|]. intros ->. cbn [room_kept andb] in *. rewrite E.
  split; [|by apply Hroom]. by apply negb_false_iff, bool_decide_eq_true in Hf.
Qed.

Module Scenario.
Definition name : ServiceDirectoryName := MkDirectoryName 3 ([108; 111; 103] ++ replicate 29 0).
Definition owner : ServiceInstanceToken := MkToken (MkTicket 7 1) (MkInstanceKey 100 200).
Definition process : ProcessKey := MkProcessKey 100 200.
Definition credential : ServiceEndpointCredentialSnapshot := MkEndpointCredential (MkCredentialKey 0 1) TrustedRootContext.
Definition key : ServiceKey := MkServiceKey 0 1.
Definition channel (n : Z) : ServiceEndpointChannelKey := MkChannelKey n 1 1.
Definition pair (n : Z) : ServiceEndpointPair :=
  MkPair (MkReceipt 9 (channel n)) (MkActivation 9 (channel n) 1) 50 60 (MkIdentity (channel n) RoleInitiator) (MkIdentity (channel n) RoleAcceptor).
Definition pin : ServiceDirectoryOperationPin := MkOperationPin key 0 1.
Definition accepted : ServiceDirectoryAcceptedChannelKey := MkAcceptedKey key 0 1 (channel 0).

(** A service that registers, is published and announced, and a client's pin. *)
Definition register : list dcall :=
  [DReserve name 0 owner credential; DPublish (MkReservation key 1) owner; DReady key owner false; DLookup name].
Definition connect (n : Z) : list dcall := [DConnect pin (pair n); DActivated 0 EpOk].
Definition accept : list dcall := [DAccept key owner process credential].

Definition start : dworld := dstart 1 1 (replicate 64 0).
Definition history w (calls : list dcall) : list (dcall * danswer) := from_option fst [] (run_calls true 1 w calls).
Definition after w (calls : list dcall) : dworld := from_option snd w (run_calls true 1 w calls).

Lemma counters : counters_fit (replicate 64 0).
Proof. split; [done|]. by apply Forall_replicate. Qed.

Lemma runs w calls : (if run_calls true 1 w calls then true else false) = true -> druns 1 w (history w calls) (after w calls).
Proof.
  unfold history, after. destruct (run_calls true 1 w calls) as [[h w']|] eqn:E; [|done]. intros _. apply (run_calls_druns _ _ _ _ _ _ E).
Qed.

Lemma room w calls : (if run_calls true 1 w calls then true else false) = true -> room_kept 1 w (history w calls).
Proof.
  unfold history. destruct (run_calls true 1 w calls) as [[h w']|] eqn:E; [|done]. intros _. by apply (run_calls_druns _ _ _ _ _ _ E).
Qed.

(** Two connections, one of them accepted and published under a handle. *)
Definition handle : Z := HandleEncode 1 1.
Definition two : list dcall := register ++ connect 0 ++ connect 1 ++ accept ++ [DAccepted 0 (Some handle)].
(** The same, then a search for the handle and a probe of the owner. *)
Definition found : list dcall := two ++ [DFind process handle; DProbe 1].
(** The client leaves and the service is closed, with the endpoints' answers. *)
Definition close : list dcall := [DUnpin pin; DClose key owner CloseUnregister; DClosed 0 [EpOk; EpOk]].
(** A failed publication that finds the queue full again. *)
Definition refill : list dcall :=
  register ++ concat (map connect (map Z.of_nat (seq 0 8))) ++ accept ++ [DConnect pin (pair 8); DActivated 1 EpOk; DAccepted 0 None].
(** A publication that fails after the server and the service are gone. *)
Definition orphan : list dcall :=
  register ++ connect 0 ++ accept ++ [DDefer process; DClose key owner CloseOwnerCrash; DAccepted 0 None; DUnpin pin].
End Scenario.

Lemma directory_never_corrupt_witness :
  let h := Scenario.history Scenario.start Scenario.found in let w := Scenario.after Scenario.start Scenario.found in
  drop 10 (map snd h) = [AFound Scenario.accepted; AStatus DirOk] /\ Forall (fun step => answer_fine step.2) h /\
  DirectoryIsCanonicalLocked (w_dir w) = true /\ row_counts 0 (directory_row (w_dir w) 0) (w_tasks w).
Proof.
  cbv zeta. destruct (directory_never_corrupt 1 1 (replicate 64 0) (Scenario.history Scenario.start Scenario.found) (Scenario.after Scenario.start Scenario.found))
    as (Hc & Hf & Hr & _); [done|done|exact Scenario.counters|apply Scenario.runs; vm_compute; reflexivity|apply Scenario.room; vm_compute; reflexivity|].
  split; [vm_compute; reflexivity|]. split; [exact Hf|]. split; [exact Hc|]. apply Hr. vm_compute. reflexivity.
Defined.

Lemma directory_receipts_exact_witness :
  let w := Scenario.after Scenario.start (Scenario.two ++ Scenario.close) in
  length (w_given w) = 2%nat /\ length (w_done w) = 2%nat /\
  NoDup (map rc_channel (flat_map row_receipts (sd_rows (w_dir w)) ++ flat_map task_receipts (w_tasks w) ++ w_done w ++ w_back w)).
Proof.
  cbv zeta. split; [vm_compute; reflexivity|]. split; [vm_compute; reflexivity|].
  apply (directory_receipts_exact 1 1 (replicate 64 0) (Scenario.history Scenario.start (Scenario.two ++ Scenario.close)));
    [done|done|exact Scenario.counters|apply Scenario.runs; vm_compute; reflexivity|apply Scenario.room; vm_compute; reflexivity].
Defined.

Lemma directory_keys_never_return_witness :
  let w1 := Scenario.after Scenario.start Scenario.two in
  let w3 := Scenario.after (Scenario.after w1 Scenario.close) [DReserve Scenario.name 0 Scenario.owner Scenario.credential] in
  ResolveExactLocked (w_dir w3) (MkServiceKey 0 2) <> None /\ ResolveExactLocked (w_dir w3) Scenario.key = None.
Proof.
  cbv zeta. split; [vm_compute; discriminate|].
  eapply (directory_keys_never_return 1 1 (replicate 64 0) (Scenario.history Scenario.start Scenario.two)
    (Scenario.after Scenario.start Scenario.two) (Scenario.history (Scenario.after Scenario.start Scenario.two) Scenario.close)
    (Scenario.after (Scenario.after Scenario.start Scenario.two) Scenario.close)
    (Scenario.history (Scenario.after (Scenario.after Scenario.start Scenario.two) Scenario.close) [DReserve Scenario.name 0 Scenario.owner Scenario.credential])
    _ Scenario.key (directory_row (w_dir (Scenario.after Scenario.start Scenario.two)) 0));
    [done|done|exact Scenario.counters|apply Scenario.runs; vm_compute; reflexivity..|vm_compute; reflexivity|vm_compute; reflexivity].
Defined.

Lemma directory_close_completes_witness :
  let w := Scenario.after Scenario.start (Scenario.two ++ [DUnpin Scenario.pin]) in
  exists h' w' gone, druns 1 w h' w' /\ ResolveExactLocked (w_dir w') Scenario.key = None /\ w_done w' = gone /\
    gone ≡ₚ [MkReceipt 9 (Scenario.channel 0); MkReceipt 9 (Scenario.channel 1)].
Proof.
  cbv zeta. set (w := Scenario.after Scenario.start (Scenario.two ++ [DUnpin Scenario.pin])).
  destruct (directory_close_completes 1 1 (replicate 64 0) (Scenario.history Scenario.start (Scenario.two ++ [DUnpin Scenario.pin])) w
    Scenario.key (directory_row (w_dir w) 0)) as (h' & w' & gone & Hrun & _ & _ & Hnone & Hd & Hp);
    [done|done|exact Scenario.counters|apply Scenario.runs; vm_compute; reflexivity|apply Scenario.room; vm_compute; reflexivity|done|vm_compute; reflexivity|vm_compute; reflexivity|constructor| |].
  { split; [vm_compute; reflexivity|vm_compute; reflexivity|]. apply (bool_decide_unpack _). vm_compute. exact I. }
  assert (row_receipts (directory_row (w_dir w) 0) = [MkReceipt 9 (Scenario.channel 1); MkReceipt 9 (Scenario.channel 0)]) as Hrow
    by (vm_compute; reflexivity).
  exists h', w', gone. split; [exact Hrun|]. split; [exact Hnone|]. split; [exact Hd|]. rewrite Hrow in Hp. rewrite Hp. apply Permutation_swap.
Defined.

(** ** Two runs of a failed publication *)

(** The queue takes a channel back without a test for room: with eight
    connections activated since the accept took its channel, the ninth
    overwrites the last, the directory is not canonical any more and every
    later call answers CorruptState. *)
Theorem directory_restore_overflows :
  match run_calls false 1 Scenario.start Scenario.refill with
  | Some (h, w) =>
      Forall (fun step => answer_fine step.2) h /\ dr_accept_count (directory_row (w_dir w) 0) = kServiceDirectoryAcceptCapacity + 1 /\
      DirectoryIsCanonicalLocked (w_dir w) = false /\ forall name, ServiceDirectoryNameIsCanonical name = true ->
        (ServiceDirectoryLookup 1 (w_dir w) (Some name)).1.1 = DirCorruptState
  | None => False
  end.
Proof.
  destruct (run_calls false 1 Scenario.start Scenario.refill) as [[h w]|] eqn:E; [|vm_compute in E; discriminate].
  vm_compute in E. injection E as <- <-. split; [|split; [vm_compute; reflexivity|split; [vm_compute; reflexivity|]]].
  - repeat constructor; discriminate.
  - intros name Hn. unfold ServiceDirectoryLookup. rewrite Hn. vm_compute. reflexivity.
Qed.

(** A record whose publication fails once its process is torn down and its
    service closed stays Publishing: no call is under way and nothing is
    pinned, and yet releasing it and closing its service answer Busy and change
    nothing, so the row is never free again. *)
Theorem directory_publishing_orphan :
  let w := Scenario.after Scenario.start Scenario.orphan in
  druns 1 Scenario.start (Scenario.history Scenario.start Scenario.orphan) w /\ w_tasks w = [] /\
  dr_active_operations (directory_row (w_dir w) 0) = 0 /\ dr_state (directory_row (w_dir w) 0) = EntryClosing /\
  dexec 1 w (DRelease Scenario.accepted) = Some (AStatus DirBusy, w) /\
  dexec 1 w (DClose Scenario.key Scenario.owner CloseOwnerCrash) = Some (AStatus DirBusy, w).
Proof.
  cbv zeta. split; [apply Scenario.runs; vm_compute; reflexivity|]. do 4 (split; [vm_compute; reflexivity|]). vm_compute. reflexivity.
Qed.
