(* ===== verification/ServiceLifecycleInv.v ===== *)
(** * The broker simulates the fleet

    The shapes a row of the broker can have, the invariant of the table, and
    the relation [shows] between a broker and the fleet it implements.  Every
    call keeps them and answers as the contract does. *)

From S2P Require Import Prelude ServiceTransition Bytes Sha256.
From S2P Require Import ServiceManifest ServiceManifestGraph ServiceLifecycleBroker ServiceLifecycleSpec.

(** ** Rows *)

(** The telemetry of a row of generation [g]. *)
Definition tally (g sp sf oe fe : Z) : Prop :=
  0 <= fe <= oe /\ oe <= sp <= u32_max /\ 0 <= sf <= u32_max /\ sp + sf <= g <= u64_max.

(** A published instance is not yet counted among the exits, unless the
    counter of publications is saturated. *)
Definition unexited (sp oe : Z) : Prop := oe < sp \/ sp = u32_max.

Inductive row_shape : ServiceLifecycleRow -> Prop :=
| shape_idle id ph g mask ns sp sf oe fe :
    0 < id -> tally g sp sf oe fe ->
    (ph = Stopped /\ g <> u64_max) \/ ((ph = Exited \/ ph = Failed) /\ g <> 0) ->
    row_shape (MkLifecycleRow (MkTransition id ph g kInvalidServiceInstanceKey false false)
                 mask ns sp sf oe fe BuilderNone false 0 0 0)
| shape_spent id mask ns sp sf oe fe :
    0 < id -> tally u64_max sp sf oe fe ->
    row_shape (MkLifecycleRow (MkTransition id GenerationExhausted u64_max kInvalidServiceInstanceKey false false)
                 mask ns sp sf oe fe BuilderNone false 0 0 0)
| shape_cancelled id ph g mask ns sp sf oe fe :
    0 < id -> tally g sp sf oe fe -> g <> 0 ->
    ph = (if g =? u64_max then GenerationExhausted else Stopped) ->
    row_shape (MkLifecycleRow (MkTransition id ph g kInvalidServiceInstanceKey false false)
                 mask ns sp sf oe fe BuilderCancelledAwaitingRetirement false 0 0 0)
| shape_building id g mask ns sp sf oe fe :
    0 < id -> tally g sp sf oe fe -> sp + sf < g ->
    row_shape (MkLifecycleRow (MkTransition id Starting g kInvalidServiceInstanceKey true true)
                 mask ns sp sf oe fe BuilderConstructing false 0 0 0)
| shape_live id g k mask ns sp sf oe fe ready :
    0 < id -> tally g sp sf oe fe -> unexited sp oe -> g <> 0 -> ServiceInstanceKeyIsValid k = true ->
    row_shape (MkLifecycleRow (MkTransition id Running g k true false)
                 mask ns sp sf oe fe BuilderNone ready 0 0 0)
| shape_killing id g k mask ns sp sf oe fe :
    0 < id -> tally g sp sf oe fe -> unexited sp oe -> g <> 0 -> ServiceInstanceKeyIsValid k = true ->
    row_shape (MkLifecycleRow (MkTransition id Stopping g k false false)
                 mask ns sp sf oe fe BuilderNone false 0 0 0).

Definition stage_of (r : ServiceLifecycleRow) : stage :=
  match row_phase r, lr_builder_state r with
  | Starting, _ => Building
  | Running, _ => Live (instance (lr_transition r))
  | Stopping, _ => Killing (instance (lr_transition r))
  | _, BuilderCancelledAwaitingRetirement => Cancelled
  | GenerationExhausted, _ => Spent
  | _, _ => Idle
  end.
Definition member_of (r : ServiceLifecycleRow) : member :=
  MkMember (row_generation r) (stage_of r) (lr_ready r) (lr_last_transition_ns r).

Lemma IncrementSaturating_min v : 0 <= v <= u32_max -> IncrementSaturating v = Z.min (v + 1) u32_max.
Proof.
  intros H. unfold IncrementSaturating. destruct (Z.eqb_spec v u32_max) as [->|Hn]; [lia|].
  rewrite wrap32_small by ulia. lia.
Qed.

Lemma row_shape_transition r : row_shape r -> row_view (lr_transition r).
Proof.
  destruct 1 as [? ph ? ? ? ? ? ? ? ? Ht [[-> ?]|[Hp ?]]| | | | |]; unfold tally in *; simpl.
  all: try (constructor; unfold is_u64; [lia|lia|tauto]).
  all: try (constructor; unfold is_u64; try lia; done).
  subst. destruct (Z.eqb_spec g u64_max) as [->|]; [by apply view_exhausted; lia|]. constructor; unfold is_u64; try lia; auto.
Qed.

Lemma row_shape_canonical r : row_shape r -> ServiceTransitionIsCanonical (lr_transition r) = true.
Proof. intros H%row_shape_transition. by apply row_ok_view in H as [? _]. Qed.

Lemma row_shape_identity r : row_shape r -> 0 < row_identity r.
Proof. by destruct 1. Qed.

(** What the mode of the broker allows of a row. *)
Definition mode_allows (mode : ServiceLifecycleBrokerState) (st : stage) : Prop :=
  match mode with
  | BrokerUninitialized => False
  | BrokerOpen => True
  | BrokerDraining => match st with Building | Live _ => False | _ => True end
  | BrokerClosed => match st with Idle | Spent => True | _ => False end
  end.

Lemma RowIsCanonical_shape mode mask index previous r :
  row_shape r -> mode_allows mode (stage_of r) -> previous < row_identity r ->
  Z.land (lr_dependency_mask r) (Z.lnot mask) = 0 ->
  Z.land (lr_dependency_mask r) (Z.shiftl 1 (Z.of_nat index)) = 0 ->
  RowIsCanonical mode mask index previous r = true.
Proof.
  intros Hs Hm Hp Hmask Hself. pose proof (row_shape_canonical r Hs) as Hc. unfold RowIsCanonical.
  rewrite Hc, Hmask, Hself.
  assert (BuilderStateIsCanonical r = true /\ lr_reserved8 r = 0 /\ lr_reserved16 r = 0 /\ lr_reserved32 r = 0 /\
          tally (row_generation r) (lr_successful_publications r) (lr_spawn_failures r) (lr_observed_exits r) (lr_failed_exits r))
    as (Hb & -> & -> & -> & Ht).
  { destruct Hs; unfold BuilderStateIsCanonical; simpl; split_and!; try done.
    - destruct_or?; destruct_and?; destruct_or?; by subst.
    - subst. cbn. apply Z.eqb_neq in H1. rewrite H1. by destruct (g =? u64_max). }
  rewrite Hb. unfold tally in Ht. simpl.
  repeat match goal with |- context [?x <=? ?y] => destruct (Z.leb_spec x y); [lia|] end.
  repeat match goal with |- context [?x <? ?y] => destruct (Z.ltb_spec x y); [lia|] end. simpl.
  destruct mode; [done| | |]; destruct Hs; simpl in *; unfold stage_of in Hm; simpl in Hm;
    repeat match goal with
    | H : _ \/ _ |- _ => destruct H
    | H : _ /\ _ |- _ => destruct H
    end; subst; simpl in *; try done;
    try (by destruct (g =? u64_max));
    match goal with H : ServiceInstanceKeyIsValid _ = true |- _ => rewrite H; by destruct ready end.
Qed.

(** ** The table *)

Record broker_inv (b : ServiceLifecycleBroker) : Prop := {
  bi_init : lb_initialized b = 1;
  bi_count : 0 < lb_service_count b <= 64;
  bi_edges : lb_dependency_count b <= 256;
  bi_reserved : lb_reserved16 b = 0;
  bi_epoch : lb_epoch b <> 0;
  bi_manifest : lb_manifest_identity b <> 0;
  bi_authority : lb_manifest_authority_identity b <> 0;
  bi_hash : HashIsNonZero (lb_manifest_object_hash b) = true;
  bi_extent : lb_manifest_object_extent b = ServiceManifestEncodedSizeV1 (lb_service_count b) (lb_dependency_count b);
  bi_rows : length (lb_rows b) = 64%nat;
  bi_sorted : forall i j, (i < j < rows_used b)%nat -> row_identity (row_at b i) < row_identity (row_at b j);
  bi_shape : forall i, (i < rows_used b)%nat -> row_shape (row_at b i);
  bi_mask : forall i, (i < rows_used b)%nat ->
    Z.land (lr_dependency_mask (row_at b i)) (Z.lnot (all_rows_mask (lb_service_count b))) = 0 /\
    Z.land (lr_dependency_mask (row_at b i)) (Z.shiftl 1 (Z.of_nat i)) = 0;
}.

Definition broker_ok (b : ServiceLifecycleBroker) : Prop :=
  broker_inv b /\ forall i, (i < rows_used b)%nat -> mode_allows (lb_state b) (stage_of (row_at b i)).

Lemma rows_canonical_ok mode mask rows : forall index previous,
  (forall i r, rows !! i = Some r -> row_shape r /\ mode_allows mode (stage_of r) /\
     Z.land (lr_dependency_mask r) (Z.lnot mask) = 0 /\
     Z.land (lr_dependency_mask r) (Z.shiftl 1 (Z.of_nat (index + i))) = 0) ->
  (forall i j r r', (i < j)%nat -> rows !! i = Some r -> rows !! j = Some r' -> row_identity r < row_identity r') ->
  (forall i r, rows !! i = Some r -> previous < row_identity r) ->
  rows_canonical mode mask index previous rows = true.
Proof.
  induction rows as [|r rows IH]; intros index previous Hr Hs Hp; [done|]. cbn [rows_canonical].
  destruct (Hr 0%nat r eq_refl) as (Hsh & Hm & H1 & H2). rewrite Nat.add_0_r in H2.
  rewrite RowIsCanonical_shape by (try done; by apply (Hp 0%nat)). apply IH.
  - intros i r' Hi. specialize (Hr (S i) r' Hi). by rewrite <- Nat.add_succ_comm in Hr.
  - intros i j r1 r2 Hij H3 H4. apply (Hs (S i) (S j)); [lia|done|done].
  - intros i r' Hi. apply (Hs 0%nat (S i)); [lia|done|done].
Qed.

Lemma row_at_lookup b i r : lb_rows b !! i = Some r -> row_at b i = r.
Proof. intros H. unfold row_at. by rewrite (nth_lookup_Some _ _ _ _ H). Qed.

Lemma used_le b : broker_inv b -> (0 < rows_used b <= 64)%nat.
Proof. intros H. pose proof (bi_count _ H). unfold rows_used. lia. Qed.

Lemma row_lookup b i : broker_inv b -> (i < rows_used b)%nat -> lb_rows b !! i = Some (row_at b i).
Proof.
  intros H Hi. pose proof (used_le b H). pose proof (bi_rows _ H).
  destruct (lookup_lt_is_Some_2 (lb_rows b) i) as [r Hr]; [lia|]. rewrite Hr. by rewrite (row_at_lookup _ _ _ Hr).
Qed.

Lemma broker_canonical b : broker_ok b -> BrokerIsCanonical b = true.
Proof.
  intros [Hi Hq]. pose proof (used_le b Hi) as Hu. unfold BrokerIsCanonical. apply andb_true_iff. split.
  - unfold BrokerHeaderIsCanonical.
    rewrite (bi_init _ Hi), (bi_reserved _ Hi), (bi_hash _ Hi), (bi_extent _ Hi).
    pose proof (bi_count _ Hi) as Hc. pose proof (bi_edges _ Hi) as He.
    unfold kServiceLifecycleCapacity, kServiceManifestMaximumServices, kServiceManifestMaximumDependencies,
      kServiceLifecycleInvalidBrokerEpoch.
    change (1 =? 1) with true. change (0 =? 0) with true. rewrite (proj2 (Z.eqb_neq (lb_service_count b) 0)) by lia. rewrite !(proj2 (Z.ltb_ge _ _)) by lia.
    rewrite (proj2 (Z.eqb_neq _ _) (bi_epoch _ Hi)), (proj2 (Z.eqb_neq _ _) (bi_manifest _ Hi)),
      (proj2 (Z.eqb_neq _ _) (bi_authority _ Hi)). rewrite Z.eqb_refl. simpl.
    specialize (Hq 0%nat ltac:(lia)). by destruct (lb_state b).
  - unfold BrokerRowsAreCanonical.
    assert (forall i r, take (rows_used b) (lb_rows b) !! i = Some r -> (i < rows_used b)%nat /\ row_at b i = r) as Hat.
    { intros i r [H1 H2]%lookup_take_Some. split; [done|by apply row_at_lookup]. }
    apply rows_canonical_ok.
    + intros i r [H1 <-]%Hat. destruct (bi_mask _ Hi i H1). split_and!; try done; [by apply (bi_shape _ Hi)|by apply Hq].
    + intros i j r r' Hij [_ <-]%Hat [? <-]%Hat. apply (bi_sorted _ Hi). lia.
    + intros i r [? <-]%Hat. apply row_shape_identity. by apply (bi_shape _ Hi).
Qed.

(** ** Lookup *)

Lemma find_row_spec b id : broker_inv b ->
  (exists i, (i < rows_used b)%nat /\ find_row b id = Some i /\ row_identity (row_at b i) = id) \/
  (find_row b id = None /\ forall i, (i < rows_used b)%nat -> row_identity (row_at b i) <> id).
Proof.
  intros Hi. pose proof (bi_count _ Hi) as Hc. pose proof (bi_sorted _ Hi) as Hs. unfold find_row, FindBrokerIndex. cbv zeta.
  set (key i := row_identity (row_at b i)) in *.
  change (lower_bound (S (rows_used b)) key id 0 (rows_used b)) with (search key (rows_used b) id).
  pose proof (search_hit key (rows_used b) Hs id) as Hh. set (low := search key (rows_used b) id) in *.
  change (row_identity (row_at b low)) with (key low).
  destruct (Nat.ltb low (rows_used b) && (key low =? id)) eqn:E.
  - left. apply andb_true_iff in E as [E1%Nat.ltb_lt E2%Z.eqb_eq]. exists low. split_and!; [done| |done].
    rewrite (proj2 (Z.leb_gt _ _)) by (unfold rows_used in *; lia). by rewrite Nat2Z.id.
  - right. split.
    + unfold kServiceLifecycleCapacity, kServiceManifestMaximumServices. by rewrite (proj2 (Z.leb_le _ _)) by lia.
    + intros i Hlt He. pose proof (proj2 Hh (ex_intro _ i (conj Hlt He))). congruence.
Qed.

Lemma find_row_at b i : broker_inv b -> (i < rows_used b)%nat -> find_row b (row_identity (row_at b i)) = Some i.
Proof.
  intros Hi Hlt. destruct (find_row_spec b (row_identity (row_at b i)) Hi) as [(j & Hj & -> & He)|[_ Hn]].
  - f_equal. apply (key_inj (fun i => row_identity (row_at b i)) (rows_used b) (bi_sorted _ Hi)); done.
  - by destruct (Hn i Hlt).
Qed.

(** ** What a broker shows *)

(** The identities of the services a mask names. *)
Definition mask_needs (b : ServiceLifecycleBroker) (mask : Z) : gset Z :=
  list_to_set (map (fun i => row_identity (row_at b i))
    (filter (fun i => Z.testbit mask (Z.of_nat i) = true) (seq 0 (rows_used b)))).

Record shows (b : ServiceLifecycleBroker) (f : fleet) : Prop := {
  sh_epoch : f_epoch f = lb_epoch b;
  sh_mode : f_mode f = lb_state b;
  sh_roster : f_roster f = map (fun i => row_identity (row_at b i)) (seq 0 (rows_used b));
  sh_needs : forall id i, find_row b id = Some i -> needs_of f id = mask_needs b (lr_dependency_mask (row_at b i));
  sh_members : forall id, f_members f !! id = (fun i => member_of (row_at b i)) <$> find_row b id;
}.

(** ** Changing one row *)

Lemma row_at_put b i r j : broker_inv b -> (i < rows_used b)%nat ->
  row_at (put_row b i r) j = if decide (i = j) then r else row_at b j.
Proof.
  intros Hi Hlt. pose proof (used_le b Hi). pose proof (bi_rows _ Hi). unfold row_at. simpl.
  rewrite !nth_lookup. case_decide as Hd; [subst; by rewrite list_lookup_insert_eq by lia|].
  by rewrite list_lookup_insert_ne.
Qed.

Section put.
Context (b : ServiceLifecycleBroker) (i : nat) (r : ServiceLifecycleRow).
Context (Hi : broker_inv b) (Hlt : (i < rows_used b)%nat) (Hshape : row_shape r).
Context (Hid : row_identity r = row_identity (row_at b i))
        (Hmask : lr_dependency_mask r = lr_dependency_mask (row_at b i)).

Lemma put_identity j : row_identity (row_at (put_row b i r) j) = row_identity (row_at b j).
Proof. rewrite row_at_put by done. by case_decide; subst. Qed.

Lemma put_mask j : lr_dependency_mask (row_at (put_row b i r) j) = lr_dependency_mask (row_at b j).
Proof. rewrite row_at_put by done. by case_decide; subst. Qed.

Lemma put_inv : broker_inv (put_row b i r).
Proof.
  destruct Hi. split; simpl; try done.
  - by rewrite length_insert.
  - intros j k Hjk. rewrite !put_identity. by apply bi_sorted0.
  - intros j Hj. rewrite row_at_put by done. case_decide; [done|by apply bi_shape0].
  - intros j Hj. rewrite put_mask. by apply bi_mask0.
Qed.

Lemma put_find id : find_row (put_row b i r) id = find_row b id.
Proof.
  destruct (find_row_spec _ id put_inv) as [(j & Hj & -> & He)|[-> Hn]].
  - rewrite put_identity in He. rewrite <- He. symmetry. by apply find_row_at.
  - destruct (find_row_spec _ id Hi) as [(j & Hj & -> & He)|[-> _]]; [|done].
    destruct (Hn j Hj). by rewrite put_identity.
Qed.

Lemma put_shows f : shows b f -> shows (put_row b i r) (set_member f (row_identity r) (member_of r)).
Proof.
  intros [He Hm Hr Hn Hmem]. split; simpl; try done.
  - rewrite Hr. apply map_ext. intros j. by rewrite put_identity.
  - intros id j Hj. rewrite put_find in Hj. rewrite put_mask. unfold needs_of, set_member. simpl.
    change (default ∅ (f_needs f !! id)) with (needs_of f id). rewrite (Hn id j Hj).
    unfold mask_needs. change (rows_used (put_row b i r)) with (rows_used b). f_equal. apply map_ext. intros k. by rewrite put_identity.
  - intros id. rewrite put_find. destruct (decide (id = row_identity r)) as [->|Hne].
    + rewrite lookup_insert_eq, Hid, find_row_at by done. simpl. by rewrite row_at_put, decide_True by done.
    + rewrite lookup_insert_ne by done. rewrite Hmem. destruct (find_row_spec _ id Hi) as [(j & Hj & -> & He')|[-> _]]; [|done].
      simpl. rewrite row_at_put by done. rewrite decide_False; [done|]. intros ->. congruence.
Qed.

Lemma put_ok : broker_ok b -> mode_allows (lb_state b) (stage_of r) -> broker_ok (put_row b i r).
Proof.
  intros [_ Hq] Hm. split; [apply put_inv|]. intros j Hj. simpl. rewrite row_at_put by done. case_decide; [done|by apply Hq].
Qed.

End put.

Lemma put_row_same b i : broker_inv b -> (i < rows_used b)%nat -> put_row b i (row_at b i) = b.
Proof. intros Hi Hlt. unfold put_row. rewrite list_insert_id by (by apply row_lookup). by destruct b. Qed.

(** ** Dependencies *)

Lemma ready_stage r : row_shape r -> DependencyIsRunning r = is_ready (Some (member_of r)).
Proof.
  unfold DependencyIsRunning, member_of. destruct 1; simpl;
    repeat match goal with H : _ \/ _ |- _ => destruct H | H : _ /\ _ |- _ => destruct H end;
    subst; try done; try (by destruct (g =? u64_max)); unfold row_phase; simpl.
  rewrite H3. by destruct ready.
Qed.

Lemma dependencies_ready b f i : broker_ok b -> shows b f -> (i < rows_used b)%nat ->
  DependenciesAreRunningLocked b (row_at b i) = needs_ready f (row_identity (row_at b i)).
Proof.
  intros [Hi _] Hs Hlt. apply eq_iff_eq_true. unfold DependenciesAreRunningLocked, needs_ready.
  rewrite forallb_forall, bool_decide_eq_true, (sh_needs _ _ Hs _ i (find_row_at _ _ Hi Hlt)). unfold set_Forall, mask_needs.
  setoid_rewrite elem_of_list_to_set. split.
  - intros H t (j & -> & [Hb Hj]%list_elem_of_filter)%list_elem_of_fmap. apply list_elem_of_In in Hj.
    specialize (H j Hj). apply in_seq in Hj. rewrite (sh_members _ _ Hs), find_row_at by (done || lia).
    change (is_ready (Some (member_of (row_at b j))) = true). rewrite <- ready_stage by (apply (bi_shape _ Hi); lia).
    apply orb_true_iff in H as [H|H]; [|done]. apply Z.eqb_eq in H.
    pose proof (land_bit (lr_dependency_mask (row_at b i)) (Z.of_nat j) ltac:(lia)) as Hl. rewrite H, Hb in Hl. done.
  - intros H j Hj. destruct (Z.eqb_spec (Z.land (lr_dependency_mask (row_at b i)) (Z.shiftl 1 (Z.of_nat j))) 0) as [|Hb]; [done|].
    simpl. pose proof (proj1 (in_seq _ _ _) Hj) as Hj'. rewrite ready_stage by (apply (bi_shape _ Hi); lia).
    specialize (H (row_identity (row_at b j))). rewrite (sh_members _ _ Hs), find_row_at in H by (done || lia). apply H.
    apply list_elem_of_fmap. exists j. split; [done|]. apply list_elem_of_filter. split; [|by apply list_elem_of_In].
    rewrite <- land_bit by lia. by apply negb_true_iff, Z.eqb_neq.
Qed.
