(* ===== verification/ServiceLifecycleSim.v ===== *)
(** * Every broker call answers as the contract

    One simulation lemma per operation, and [exec_simulates] for all of
    them. *)

From S2P Require Import Prelude ServiceTransition Bytes Sha256.
From S2P Require Import ServiceManifest ServiceManifestGraph ServiceLifecycleBroker.
From S2P Require Import ServiceLifecycleSpec ServiceLifecycleInv.

Lemma existsb_through {A B} (p : A -> bool) (q : B -> bool) (h : A -> B) l :
  (forall x, In x l -> p x = q (h x)) -> existsb p l = existsb q (map h l).
Proof.
  induction l as [|x l IH]; intros H; cbn; [done|].
  rewrite (H x) by (by left). rewrite IH; [done|]. intros y Hy. apply H. by right.
Qed.

Definition sim {A} (x : A * ServiceLifecycleBroker) (y : A * fleet) : Prop :=
  x.1 = y.1 /\ broker_ok x.2 /\ shows x.2 y.2.

Section sim.
Context (b : ServiceLifecycleBroker) (f : fleet) (Hok : broker_ok b) (Hs : shows b f).

Lemma broker_ready addr : RangeIsValid addr sizeof_Broker = true -> ReadyBroker addr b = LcOk.
Proof. intros Haddr. unfold ReadyBroker. destruct Hok as [Hi _]. by rewrite Haddr, (bi_init _ Hi). Qed.

Lemma sim_same {A} (a : A) : sim (a, b) (a, f).
Proof. done. Qed.

Lemma sim_put {A} (a : A) i r id m : (i < rows_used b)%nat -> row_shape r ->
  row_identity r = row_identity (row_at b i) -> lr_dependency_mask r = lr_dependency_mask (row_at b i) ->
  mode_allows (lb_state b) (stage_of r) -> id = row_identity r -> m = member_of r ->
  sim (a, put_row b i r) (a, set_member f id m).
Proof.
  intros Hlt Hr Hid Hm Hq -> ->. destruct Hok as [Hi _]. split; [done|]. split; simpl.
  - by apply put_ok.
  - by apply put_shows.
Qed.

Lemma sim_keep {A} (a : A) i r : (i < rows_used b)%nat -> r = row_at b i -> sim (a, put_row b i r) (a, f).
Proof. intros Hlt ->. rewrite put_row_same; [done|apply Hok|done]. Qed.

Lemma open_mode : broker_state_eqb (lb_state b) BrokerClosed = false -> broker_state_eqb (lb_state b) BrokerDraining = false ->
  lb_state b = BrokerOpen.
Proof.
  destruct Hok as [Hi Hq]. specialize (Hq 0%nat). pose proof (used_le b Hi).
  destruct (lb_state b); try done. intros _ _. destruct Hq. lia.
Qed.

Lemma check_open_cases :
  (lb_state b = BrokerClosed /\ check_open f = LcClosed /\ check_not_closed f = LcClosed) \/
  (lb_state b = BrokerDraining /\ check_open f = LcDraining /\ check_not_closed f = LcOk) \/
  (lb_state b = BrokerOpen /\ check_open f = LcOk /\ check_not_closed f = LcOk).
Proof.
  unfold check_open, check_not_closed. rewrite (sh_mode _ _ Hs).
  destruct Hok as [Hi Hq]. specialize (Hq 0%nat). pose proof (used_le b Hi).
  destruct (lb_state b); try tauto. destruct Hq. lia.
Qed.

(** The row a call finds, with its shape and the member it shows. *)
Lemma find_cases id :
  (find_row b id = None /\ f_members f !! id = None) \/
  exists i, find_row b id = Some i /\ (i < rows_used b)%nat /\ row_identity (row_at b i) = id /\
    row_shape (row_at b i) /\ mode_allows (lb_state b) (stage_of (row_at b i)) /\
    f_members f !! id = Some (member_of (row_at b i)).
Proof.
  destruct Hok as [Hi Hq]. rewrite (sh_members _ _ Hs).
  destruct (find_row_spec b id Hi) as [(i & Hlt & -> & He)|[-> _]]; [right|by left].
  exists i. split_and!; try done; [by apply (bi_shape _ Hi)|by apply Hq].
Qed.

Lemma check_ticket_same t : ValidateTicketEpoch b t = check_ticket f t.
Proof. unfold ValidateTicketEpoch, check_ticket. by rewrite (sh_epoch _ _ Hs). Qed.
Lemma check_token_same t : ValidateTokenEpoch b t = check_token f t.
Proof. unfold ValidateTokenEpoch, check_token. by rewrite (sh_epoch _ _ Hs). Qed.

End sim.

(** Evaluate the comparisons of a known mode. *)
Ltac modes Em :=
  rewrite ?Em;
  repeat match goal with
  | |- context [broker_state_eqb ?x ?y] =>
      let v := eval vm_compute in (broker_state_eqb x y) in change (broker_state_eqb x y) with v
  end; cbv iota.

(** The cases of a shaped row, each an explicit record. *)
Ltac shape_cases H :=
  let Hc := fresh "Hcanon" in
  pose proof (row_shape_canonical _ H) as Hc;
  destruct H as [sid ph g mask ns sp sf oe fe Hsid Ht Hph | sid mask ns sp sf oe fe Hsid Ht
    | sid ph g mask ns sp sf oe fe Hsid Ht Hg0 Hph | sid g mask ns sp sf oe fe Hsid Ht Hg
    | sid g key mask ns sp sf oe fe rdy Hsid Ht Hu Hg0 Hkey | sid g key mask ns sp sf oe fe Hsid Ht Hu Hg0 Hkey].

Lemma builder_cancelled r : row_shape r ->
  builder_eqb (lr_builder_state r) BuilderCancelledAwaitingRetirement = bool_decide (stage_of r = Cancelled).
Proof.
  intros H. shape_cases H; try done.
  - destruct Hph as [[-> _]|[[->| ->] _]]; done.
  - subst ph. by destruct (g =? u64_max).
Qed.

(** The transition of a start, by stage. *)
Lemma reserve_transition r : row_shape r ->
  ServiceTransitionReserveStart (Some (lr_transition r)) (Some kInvalidServiceStartTicket) =
  let t := lr_transition r in
  let same s := (s, Some t, Some kInvalidServiceStartTicket) in
  match stage_of r with
  | Building | Live _ => same AlreadyRequested
  | Killing _ => same StopInProgress
  | Spent => same ReserveGenerationExhausted
  | Idle | Cancelled =>
      if row_generation r =? u64_max
      then (ReserveGenerationExhausted,
            Some (MkTransition (row_identity r) GenerationExhausted u64_max kInvalidServiceInstanceKey false false),
            Some kInvalidServiceStartTicket)
      else (Reserved,
            Some (MkTransition (row_identity r) Starting (row_generation r + 1) kInvalidServiceInstanceKey true true),
            Some (MkTicket (row_identity r) (row_generation r + 1)))
  end.
Proof.
  intros H. shape_cases H; unfold ServiceTransitionReserveStart; cbn [lr_transition] in *; rewrite Hcanon;
    unfold stage_of, row_generation, row_identity, row_phase; cbn; try done.
  - assert (g <> u64_max -> wrap64 (g + 1) = g + 1) by (intros; apply wrap64_small; unfold tally in Ht; ulia).
    destruct (Z.eqb_spec g u64_max) as [->|Hm].
    + destruct Hph as [[-> ?]|[[->| ->] ?]]; done.
    + unfold kServiceTransitionGenerationMaximum. rewrite (proj2 (Z.eqb_neq g u64_max)) by done.
      destruct Hph as [[-> ?]|[[->| ->] ?]]; cbn; by rewrite H.
  - subst ph. unfold kServiceTransitionGenerationMaximum. destruct (Z.eqb_spec g u64_max) as [->|Hm]; cbn; [done|].
    by rewrite wrap64_small by (unfold tally in Ht; ulia).
Qed.

Lemma reserve_simulates b f deps id gen now : broker_ok b -> shows b f ->
  sim (ReserveStartLocked b id gen now deps) (f_reserve f deps id gen now).
Proof.
  intros Hok Hs. unfold ReserveStartLocked. rewrite broker_canonical by done. cbn [negb]. unfold f_reserve.
  destruct (check_open_cases b f Hok Hs) as [(Em & -> & _)|[(Em & -> & _)|(Em & -> & _)]]; modes Em; try done.
  unfold select. destruct (find_cases b f Hok Hs id) as [[-> ->]|(i & -> & Hlt & Hid & Hsh & Hq & ->)]; [done|].
  cbn [m_minted m_clock m_stage member_of].
  destruct (row_generation (row_at b i) =? gen); cbn [negb]; [|done].
  destruct (now <? lr_last_transition_ns (row_at b i)); [done|]. rewrite builder_cancelled by done.
  cbn [m_minted m_clock m_stage member_of].
  case_bool_decide as Hc; [done|]. rewrite (dependencies_ready b f i), Hid by done.
  destruct (deps && negb (needs_ready f id)); [done|]. rewrite reserve_transition by done. cbv zeta.
  rewrite (sh_epoch _ _ Hs). remember (row_at b i) as r eqn:Er. clear Hq. shape_cases Hsh; cbn in *; try done.
  - unfold row_generation, row_identity in *. cbn in *. subst sid.
    destruct Hph as [[-> ?]|[[->| ->] ?]]; cbn in *; destruct (Z.eqb_spec g u64_max) as [->|Hm]; try done;
      (apply sim_put; rewrite <- ?Er; try done; [constructor; unfold tally in *; try done; ulia|by rewrite Em]).
  - by apply sim_keep.
  - subst ph. exfalso. apply Hc. by destruct (g =? u64_max).
  - by apply sim_keep.
  - by apply sim_keep.
  - by apply sim_keep.
Qed.

(** ** Tickets and tokens *)

Lemma ticket_epoch_ok b t : ValidateTicketEpoch b t = LcOk ->
  ServiceStartTicketIsValid (start_transition t) = true /\ start_epoch t = lb_epoch b.
Proof.
  unfold ValidateTicketEpoch, ServiceLifecycleStartTicketIsValid.
  destruct (start_epoch t =? kServiceLifecycleInvalidBrokerEpoch), (ServiceStartTicketIsValid (start_transition t)),
    (Z.eqb_spec (start_epoch t) (lb_epoch b)); done.
Qed.

Lemma token_epoch_ok b tok : ValidateTokenEpoch b tok = LcOk ->
  ServiceStartTicketIsValid (start_transition (inst_start tok)) = true /\ start_epoch (inst_start tok) = lb_epoch b /\
  ServiceInstanceKeyIsValid (inst_process tok) = true.
Proof.
  unfold ValidateTokenEpoch, ServiceLifecycleInstanceTokenIsValid, ServiceLifecycleStartTicketIsValid.
  destruct (start_epoch (inst_start tok) =? kServiceLifecycleInvalidBrokerEpoch),
    (ServiceStartTicketIsValid (start_transition (inst_start tok))), (ServiceInstanceKeyIsValid (inst_process tok)),
    (Z.eqb_spec (start_epoch (inst_start tok)) (lb_epoch b)); done.
Qed.

Section tokens.
Context (r : ServiceLifecycleRow) (t : ServiceStartTicket) (Hr : row_shape r).
Context (Hv : ServiceStartTicketIsValid t = true)
        (Hi : row_identity r = ticket_service_identity t) (Hg : row_generation r = ticket_generation t).

Lemma ticket_matches : TicketMatches (lr_transition r) t = true.
Proof.
  unfold TicketMatches, row_identity, row_generation in *. by rewrite Hv, <- Hi, <- Hg, !Z.eqb_refl.
Qed.

Lemma current_start : ServiceTransitionIsCurrentStart (lr_transition r) t = bool_decide (stage_of r = Building).
Proof.
  unfold ServiceTransitionIsCurrentStart. rewrite ticket_matches, (row_shape_canonical r Hr). clear Hi Hg.
  shape_cases Hr; try done; cbn.
  - by destruct Hph as [[-> _]|[[->| ->] _]].
  - subst ph. by destruct (g =? u64_max).
Qed.

Lemma current_instance k : ServiceInstanceKeyIsValid k = true ->
  ServiceTransitionIsCurrentInstance (lr_transition r) (MkToken t k)
  = bool_decide (stage_of r = Live k \/ stage_of r = Killing k).
Proof.
  intros Hk. unfold ServiceTransitionIsCurrentInstance, ServiceInstanceTokenIsValid. cbn [token_start token_process].
  rewrite Hv, Hk, (row_shape_canonical r Hr), ticket_matches. clear Hi Hg.
  assert (forall k', ServiceInstanceKey_eqb k' k = bool_decide (k' = k)) as He.
  { intros k'. apply eq_iff_eq_true. by rewrite ServiceInstanceKey_eqb_spec, bool_decide_eq_true. }
  shape_cases Hr; cbn; rewrite ?He; unfold row_phase; cbn; rewrite ?andb_true_r.
  - by destruct Hph as [[-> _]|[[->| ->] _]].
  - done.
  - subst ph. by destruct (g =? u64_max).
  - done.
  - apply bool_decide_ext. naive_solver.
  - apply bool_decide_ext. naive_solver.
Qed.

Lemma current_running k : ServiceInstanceKeyIsValid k = true ->
  ServiceTransitionIsCurrentRunning (lr_transition r) (MkToken t k) = bool_decide (stage_of r = Live k).
Proof.
  intros Hk. unfold ServiceTransitionIsCurrentRunning. rewrite current_instance by done. clear Hi Hg.
  shape_cases Hr; cbn; unfold row_phase; cbn; try done.
  - by destruct Hph as [[-> _]|[[->| ->] _]].
  - subst ph. by destruct (g =? u64_max).
  - apply bool_decide_ext. naive_solver.
Qed.

End tokens.

(** The shared prefix of the ticket operations: readiness, the ticket, the
    mode, the row, its generation and the clock. *)
Ltac locate b f Hok Hs :=
  match goal with
  | |- context [find_row b ?id] =>
      destruct (find_cases b f Hok Hs id) as [[-> Hm]|(i & -> & Hlt & Hid & Hsh & Hq & Hm)];
      unfold select_ticket, select; rewrite Hm; [done|];
      cbn [m_minted m_clock m_stage m_ready member_of];
      match goal with
      | |- context [row_generation ?r =? ?g] => destruct (Z.eqb_spec (row_generation r) g) as [Hgen|]; cbn [negb]; [|done]
      end
  end.
Ltac clock := match goal with
  | |- context [?now <? lr_last_transition_ns ?r] => destruct (now <? lr_last_transition_ns r); [done|]
  end; cbn [m_minted m_clock m_stage m_ready member_of].

Lemma published_shape sid g k mask ns now sp sf oe fe :
  0 < sid -> tally g sp sf oe fe -> sp + sf < g -> ServiceInstanceKeyIsValid k = true ->
  row_shape (published_row (MkLifecycleRow (MkTransition sid Starting g kInvalidServiceInstanceKey true true)
                              mask ns sp sf oe fe BuilderConstructing false 0 0 0)
               (MkTransition sid Running g k true false) now).
Proof.
  intros Hsid Ht Hg Hk. unfold published_row, tally in *. cbn. rewrite IncrementSaturating_min by ulia.
  constructor; unfold tally, unexited; try done; ulia.
Qed.

Lemma exited_tally g sp sf oe fe (failed : bool) : tally g sp sf oe fe -> unexited sp oe ->
  tally g sp sf (IncrementSaturating oe) (if failed then IncrementSaturating fe else fe).
Proof.
  unfold tally, unexited. intros Ht Hu. rewrite !IncrementSaturating_min by ulia. destruct failed; ulia.
Qed.

(** A refused joint publication puts the row back as it was. *)
Lemma rollback_restores b i t k row' g mask ns sp sf oe fe :
  broker_ok b -> (i < rows_used b)%nat ->
  row_at b i = MkLifecycleRow (MkTransition (ticket_service t) Starting g kInvalidServiceInstanceKey true true)
                 mask ns sp sf oe fe BuilderConstructing false 0 0 0 ->
  row' = published_row (row_at b i) (MkTransition (ticket_service t) Running g k true false) (lr_last_transition_ns row') ->
  ServiceLifecycleStartTicketIsValid t = true -> start_transition t = MkTicket (ticket_service t) g ->
  ServiceInstanceKeyIsValid k = true ->
  RollbackUnpublishedPublicationLocked (put_row b i row') (MkRollback (lb_epoch b) i t k (row_at b i) true) = (LcOk, b).
Proof.
  intros Hok Hlt Hrow Hrow' Hv Ht Hk. pose proof (proj1 Hok) as Hi. pose proof (bi_shape _ Hi i Hlt) as Hsh.
  assert (ServiceStartTicketIsValid (start_transition t) = true) as Hv'.
  { unfold ServiceLifecycleStartTicketIsValid in Hv. by apply andb_true_iff in Hv as [_ ?]. }
  unfold RollbackUnpublishedPublicationLocked. cbn [rb_valid rb_epoch rb_row_index rb_ticket rb_instance rb_prior_row].
  change (lb_epoch (put_row b i row')) with (lb_epoch b). change (lb_service_count (put_row b i row')) with (lb_service_count b).
  rewrite Z.eqb_refl, Hv, Hk, (proj2 (Z.leb_gt _ _)) by (unfold rows_used in Hlt; lia). cbn [negb orb].
  rewrite row_at_put, decide_True by done.
  assert (Hst : stage_of (row_at b i) = Building) by (by rewrite Hrow).
  rewrite current_start, Hst by (done || (by rewrite Hrow, Ht)).
  assert (row_shape row') as Hsh'.
  { rewrite Hrow', Hrow in *. inversion Hsh; subst. by apply published_shape. }
  rewrite current_running by (done || (by rewrite Hrow', Ht)).
  assert (stage_of row' = Live k) as -> by (by rewrite Hrow'). rewrite bool_decide_true by done.
  rewrite Hrow' , Ht. unfold row_identity, row_generation. cbn. rewrite !Z.eqb_refl. cbn.
  assert (lr_successful_publications (row_at b i) = sp) as -> by (by rewrite Hrow).
  assert (lr_builder_state (row_at b i) = BuilderConstructing) as -> by (by rewrite Hrow). unfold IncrementSaturating.
  assert ((if sp =? u32_max then sp else wrap32 (sp + 1)) = (if sp =? u32_max then u32_max else wrap32 (sp + 1))) as ->
    by (by destruct (Z.eqb_spec sp u32_max)).
  rewrite Z.eqb_refl. cbn. unfold put_row. f_equal. unfold set_rows. cbn. rewrite list_insert_insert_eq.
  rewrite list_insert_id by (by apply row_lookup). by destruct b.
Qed.

(** A row that is building for a ticket. *)
Lemma building_row r t : row_shape r -> stage_of r = Building -> row_identity r = ticket_service t ->
  row_generation r = ticket_generation (start_transition t) ->
  exists g mask ns sp sf oe fe, r =
    MkLifecycleRow (MkTransition (ticket_service t) Starting g kInvalidServiceInstanceKey true true)
      mask ns sp sf oe fe BuilderConstructing false 0 0 0 /\ start_transition t = MkTicket (ticket_service t) g.
Proof.
  intros Hsh Hst Hid Hgen. shape_cases Hsh; try done; unfold row_generation, row_identity in *; cbn in *.
  - by destruct Hph as [[-> ?]|[[->| ->] ?]].
  - subst ph. by destruct (g =? u64_max).
  - unfold ticket_service in *. subst sid. do 7 eexists. split; [done|]. destruct (start_transition t); cbn in *; congruence.
Qed.

Section calls.
Context (addr : Z) (b : ServiceLifecycleBroker) (f : fleet).
Context (Haddr : RangeIsValid addr sizeof_Broker = true) (Hok : broker_ok b) (Hs : shows b f).

(** Close the cases whose row leaves the answer to its phase alone. *)
Ltac phases :=
  try match goal with H : _ \/ _ |- _ => by destruct H as [[-> ?]|[[->| ->] ?]] end;
  try match goal with |- context [?x =? u64_max] => by destruct (x =? u64_max) end.

(** Put a changed row whose shape and member are evident. *)
Ltac put_shaped Er :=
  apply sim_put; rewrite <- ?Er; try done.

Lemma spawn_failure_simulates t now :
  sim (ServiceLifecycleBrokerRecordSpawnFailure addr b t now) (f_spawn_failure f t now).
Proof.
  unfold ServiceLifecycleBrokerRecordSpawnFailure. rewrite broker_ready, broker_canonical by done. cbn [negb].
  unfold f_spawn_failure. rewrite <- (check_ticket_same b f) by done.
  destruct (ValidateTicketEpoch b t) eqn:Ev; try done. apply ticket_epoch_ok in Ev as [Hv _].
  destruct (check_open_cases b f Hok Hs) as [(Em & _ & ->)|[(Em & _ & ->)|(Em & _ & ->)]]; modes Em; try done.
  all: locate b f Hok Hs; clock; rewrite builder_cancelled by done;
    unfold ServiceTransitionRecordSpawnFailure; rewrite current_start by done;
    remember (row_at b i) as r eqn:Er; shape_cases Hsh; cbn; try done;
    try (by destruct Hph as [[-> ?]|[[->| ->] ?]]); try (by subst ph; destruct (g =? u64_max)).
  - by rewrite Em in Hq.
  - put_shaped Er; [|by rewrite Em]. unfold tally in *.
    apply shape_idle; rewrite ?IncrementSaturating_min by ulia; unfold tally; [done|ulia|right; split; [auto|ulia]].
Qed.

Lemma acknowledge_simulates t now :
  sim (ServiceLifecycleBrokerAcknowledgeCancelledStart addr b t now) (f_acknowledge f t now).
Proof.
  unfold ServiceLifecycleBrokerAcknowledgeCancelledStart. rewrite broker_ready, broker_canonical by done. cbn [negb].
  unfold f_acknowledge. rewrite <- (check_ticket_same b f) by done.
  destruct (ValidateTicketEpoch b t) eqn:Ev; try done.
  destruct (check_open_cases b f Hok Hs) as [(Em & _ & ->)|[(Em & _ & ->)|(Em & _ & ->)]]; modes Em; try done.
  all: locate b f Hok Hs; clock; rewrite builder_cancelled by done;
    remember (row_at b i) as r eqn:Er; shape_cases Hsh; cbn; try done;
    try (by destruct Hph as [[-> ?]|[[->| ->] ?]]); subst ph; unfold row_generation, retired; cbn;
    destruct (Z.eqb_spec g u64_max) as [->|Hn]; cbn;
    (put_shaped Er; [first [by apply shape_spent | apply shape_idle; auto]|by rewrite Em]).
Qed.

Lemma commit_simulates t k now :
  sim (ServiceLifecycleBrokerCommitPublication addr b t k now) (f_commit f t k now).
Proof.
  unfold ServiceLifecycleBrokerCommitPublication. rewrite broker_ready, broker_canonical by done. cbn [negb].
  unfold f_commit, publishable. rewrite <- (check_ticket_same b f) by done.
  destruct (ValidateTicketEpoch b t) eqn:Ev; try done. apply ticket_epoch_ok in Ev as [Hv _].
  destruct (check_open_cases b f Hok Hs) as [(Em & -> & _)|[(Em & -> & _)|(Em & -> & _)]]; modes Em; try done.
  locate b f Hok Hs. clock. unfold ServiceTransitionCommitAtSchedulerPublication. rewrite current_start by done.
  destruct (ServiceInstanceKeyIsValid k) eqn:Hk; cbn [negb orb];
    remember (row_at b i) as r eqn:Er; shape_cases Hsh; cbn; try done;
    try (by destruct Hph as [[-> ?]|[[->| ->] ?]]); try (by subst ph; destruct (g =? u64_max)).
  put_shaped Er; first [by apply published_shape|by rewrite Em].
Qed.

Lemma stop_simulates id gen now :
  sim (ServiceLifecycleBrokerRequestStop addr b id gen now) (f_stop f id gen now).
Proof.
  unfold ServiceLifecycleBrokerRequestStop. rewrite broker_ready, broker_canonical by done. cbn [negb]. unfold f_stop.
  destruct (check_open_cases b f Hok Hs) as [(Em & _ & ->)|[(Em & _ & ->)|(Em & _ & ->)]]; modes Em; try done.
  all: locate b f Hok Hs; clock; rewrite builder_cancelled by done; rewrite (sh_epoch _ _ Hs);
    unfold ServiceTransitionStop; rewrite (row_shape_canonical _ Hsh); cbn [negb];
    remember (row_at b i) as r eqn:Er; shape_cases Hsh; unfold row_generation, row_identity in *; cbn in *; subst; cbn; try done;
    phases; try (by rewrite Em in Hq).
  - unfold cancel_ticket; cbn. put_shaped Er; [|by rewrite Em|];
      unfold stopped_row, member_of, stage_of, kServiceTransitionGenerationMaximum; cbn.
    + constructor; try done. unfold tally in Ht. ulia.
    + by destruct (gen =? u64_max).
  - put_shaped Er; [by constructor|by rewrite Em].
Qed.

Lemma observe_exit_simulates tok now failed :
  sim (ServiceLifecycleBrokerObserveExit addr b tok now failed) (f_observe_exit f tok now).
Proof.
  unfold ServiceLifecycleBrokerObserveExit. rewrite broker_ready, broker_canonical by done. cbn [negb].
  unfold f_observe_exit. rewrite <- (check_token_same b f) by done.
  destruct (ValidateTokenEpoch b tok) eqn:Ev; try done. apply token_epoch_ok in Ev as (Hv & _ & Hk).
  destruct (check_open_cases b f Hok Hs) as [(Em & _ & ->)|[(Em & _ & ->)|(Em & _ & ->)]]; modes Em; try done.
  all: locate b f Hok Hs; clock; unfold ServiceTransitionObserveExit; rewrite current_instance by done;
    remember (row_at b i) as r eqn:Er; shape_cases Hsh; unfold row_generation, row_identity in *; cbn in *; subst; cbn; try done;
    phases; try (by rewrite Em in Hq).
  all: destruct (decide (key = inst_process tok)) as [->|Hne]; cbn; [|by rewrite bool_decide_false by naive_solver].
  all: rewrite bool_decide_true by auto; cbn;
    pose proof (exited_tally _ _ _ _ _ failed Ht Hu) as Ht'; unfold retired, kServiceTransitionGenerationMaximum;
    change (phase_eqb Stopping Stopping) with true; change (phase_eqb Running Stopping) with false; cbv iota;
    try (put_shaped Er; [by apply shape_idle; auto|by rewrite Em]).
  all: destruct (Z.eqb_spec (ticket_generation (start_transition (inst_start tok))) u64_max) as [Hg|Hg];
    (put_shaped Er; [first [rewrite Hg in *; by apply shape_spent|by apply shape_idle; auto]|by rewrite Em]).
Qed.

Lemma finish_simulates : sim (ServiceLifecycleBrokerFinishDrain addr b) (f_finish_drain f).
Proof.
  unfold ServiceLifecycleBrokerFinishDrain. rewrite broker_ready, broker_canonical by done. cbn [negb].
  unfold f_finish_drain. rewrite (sh_mode _ _ Hs).
  destruct (check_open_cases b f Hok Hs) as [(Em & _ & _)|[(Em & _ & _)|(Em & _ & _)]]; modes Em; try done.
  assert (existsb (fun i => row_is_busy (row_at b i)) (seq 0 (rows_used b))
          = existsb (fun id => busy (f_members f !! id)) (f_roster f)) as Hb.
  { rewrite (sh_roster _ _ Hs). destruct Hok as [Hi _]. apply existsb_through. intros i Hin%in_seq. rewrite (sh_members _ _ Hs), find_row_at by (done || lia).
    pose proof (bi_shape _ Hi i ltac:(lia)) as Hsh. cbn [fmap option_fmap option_map].
    remember (row_at b i) as r. shape_cases Hsh; try done; phases. subst ph. by destruct (g =? u64_max). }
  rewrite Hb. destruct (existsb (fun id => busy (f_members f !! id)) (f_roster f)) eqn:Eb; [done|].
  split; [done|]. destruct Hok as [Hi Hq]. split; cbn.
  - split.
    + destruct Hi; by split.
    + intros i Hlt. change (row_at (set_broker_state b BrokerClosed) i) with (row_at b i).
      change (rows_used (set_broker_state b BrokerClosed)) with (rows_used b) in Hlt.
      pose proof (bi_shape _ Hi i Hlt) as Hsh.
      assert (row_is_busy (row_at b i) = false) as Hn.
      { destruct (row_is_busy (row_at b i)) eqn:E; [|done].
        rewrite (proj2 (existsb_exists _ _)) in Hb; [done|]. exists i. split; [apply in_seq; lia|done]. }
      remember (row_at b i) as r. shape_cases Hsh; cbn in *; try done; phases.
  - destruct Hs. by split.
Qed.

End calls.

(** ** Drain *)

Lemma drain_rows_simulate now n : forall k b f plan,
  broker_inv b -> lb_state b = BrokerDraining -> shows b f -> (k + n = rows_used b)%nat ->
  (forall i, (i < k)%nat -> mode_allows BrokerDraining (stage_of (row_at b i))) ->
  let '(f', plan') := f_drain_all (map (fun i => row_identity (row_at b i)) (seq k n)) f now plan in
  exists b', drain_rows (seq k n) b now plan = (LcOk, b', plan') /\ broker_ok b' /\ shows b' f'.
Proof.
  induction n as [|n IH]; intros k b f plan Hi Hd Hs Hk Hpast; cbn [seq map f_drain_all drain_rows].
  { exists b. split_and!; try done. split; [done|]. intros i Hlt. rewrite Hd. apply Hpast. lia. }
  assert (Hlt : (k < rows_used b)%nat) by lia. pose proof (bi_shape _ Hi k Hlt) as Hsh.
  pose proof (find_row_at b k Hi Hlt) as Hfind.
  (* the tail, whatever was done to row [k] *)
  assert (Hnext : forall r' plan1, row_shape r' -> row_identity r' = row_identity (row_at b k) ->
    lr_dependency_mask r' = lr_dependency_mask (row_at b k) -> mode_allows BrokerDraining (stage_of r') ->
    let '(f', plan') := f_drain_all (map (fun i => row_identity (row_at b i)) (seq (S k) n))
                          (set_member f (row_identity r') (member_of r')) now plan1 in
    exists b', drain_rows (seq (S k) n) (put_row b k r') now plan1 = (LcOk, b', plan') /\ broker_ok b' /\ shows b' f').
  { intros r' plan1 Hr' Hid Hm Hq.
    rewrite (map_ext _ (fun i => row_identity (row_at (put_row b k r') i))) by (intros; by rewrite put_identity).
    apply IH; [by apply put_inv|done|by apply put_shows|unfold rows_used in *; cbn; lia|].
    intros i Hik. rewrite row_at_put by done. case_decide; [by subst|]. apply Hpast. lia. }
  unfold f_drain_one. rewrite (sh_members _ _ Hs), Hfind. cbn [fmap option_fmap option_map].
  pose proof (sh_epoch _ _ Hs) as Hep. specialize (IH (S k) b f plan Hi Hd Hs ltac:(lia)).
  remember (row_at b k) as r eqn:Er.
  assert (Hskip : mode_allows BrokerDraining (stage_of r) ->
    forall i, (i < S k)%nat -> mode_allows BrokerDraining (stage_of (row_at b i))).
  { intros Hq i Hik. destruct (decide (i = k)) as [->|]; [by rewrite <- Er|]. apply Hpast. lia. }
  unfold ServiceTransitionStop. rewrite (row_shape_canonical _ Hsh). cbn [negb m_stage m_minted member_of].
  shape_cases Hsh; unfold kill_token, cancel_ticket, stage_of, row_phase, row_identity, row_generation in *; cbn in *.
  - destruct Hph as [[-> ?]|[[->| ->] ?]]; by apply IH, Hskip.
  - by apply IH, Hskip.
  - subst ph. destruct (g =? u64_max); by apply IH, Hskip.
  - rewrite Hep.
    specialize (Hnext (stopped_row (MkLifecycleRow (MkTransition sid Starting g kInvalidServiceInstanceKey true true)
        mask ns sp sf oe fe BuilderConstructing false 0 0 0)
      (MkTransition sid (if g =? kServiceTransitionGenerationMaximum then GenerationExhausted else Stopped) g
         kInvalidServiceInstanceKey false false) now BuilderCancelledAwaitingRetirement)
      (MkDrainPlan (plan_instances plan) (plan_cancelled_starts plan ++ [MkStart (lb_epoch b) (MkTicket sid g)]))).
    unfold stopped_row, member_of, stage_of, row_phase, row_generation, kServiceTransitionGenerationMaximum in *. cbn in *.
    replace (match (if g =? u64_max then GenerationExhausted else Stopped) with Starting => Building | Running => Live kInvalidServiceInstanceKey
             | Stopping => Killing kInvalidServiceInstanceKey | _ => Cancelled end) with Cancelled in Hnext by (by destruct (g =? u64_max)).
    apply Hnext; try done. constructor; try done. unfold tally in Ht. ulia.
  - rewrite Hep.
    specialize (Hnext (stopped_row (MkLifecycleRow (MkTransition sid Running g key true false) mask ns sp sf oe fe BuilderNone rdy 0 0 0)
      (MkTransition sid Stopping g key false false) now BuilderNone)
      (MkDrainPlan (plan_instances plan ++ [MkInstance (MkStart (lb_epoch b) (MkTicket sid g)) key]) (plan_cancelled_starts plan))).
    apply Hnext; try done. by constructor.
  - by apply IH, Hskip.
Qed.

(** Pointers of the calls are usable: the broker and the drain plan are valid
    and apart. *)
Definition pointers_ok (addr plan_out : Z) : Prop :=
  RangeIsValid addr sizeof_Broker = true /\ RangeIsValid plan_out sizeof_DrainPlan = true /\
  RangesOverlap addr sizeof_Broker plan_out sizeof_DrainPlan = false.

Lemma begin_drain_simulates addr plan_out b f now : pointers_ok addr plan_out -> broker_ok b -> shows b f ->
  let '(s, b', plan) := ServiceLifecycleBrokerBeginDrain addr b now plan_out in
  let '(s', plan', f') := f_begin_drain f now in
  (s, plan) = (s', Some plan') /\ broker_ok b' /\ shows b' f'.
Proof.
  intros (Ha & Hp & Hn) Hok Hs. unfold ServiceLifecycleBrokerBeginDrain. rewrite Hp, Ha, Hn. cbn [negb andb].
  rewrite (broker_ready b Hok addr Ha), broker_canonical by done. cbn [negb]. unfold f_begin_drain.
  destruct (check_open_cases b f Hok Hs) as [(Em & -> & _)|[(Em & -> & _)|(Em & -> & _)]]; modes Em; try done.
  destruct Hok as [Hi Hq]. rewrite (sh_roster _ _ Hs).
  rewrite <- (existsb_through (fun i => now <? lr_last_transition_ns (row_at b i))).
  2: { intros i Hin%in_seq. unfold clock_after. by rewrite (sh_members _ _ Hs), find_row_at by (done || lia). }
  destruct (existsb _ _); [done|].
  pose proof (drain_rows_simulate now (rows_used b) 0 (set_broker_state b BrokerDraining) (set_mode f BrokerDraining)
    empty_drain_plan) as H.
  change (row_at (set_broker_state b BrokerDraining)) with (row_at b) in H.
  destruct (f_drain_all _ _ _ _) as [f' plan']. destruct H as (b' & -> & ? & ?); try done.
  - destruct Hi; by split.
  - destruct Hs; by split.
  - intros i Hlt. lia.
Qed.

Section directory.
Context {D : Type} `{DirectoryPeer D}.
Context (addr : Z) (b : ServiceLifecycleBroker) (f : fleet) (dir : D).
Context (Haddr : RangeIsValid addr sizeof_Broker = true) (Hok : broker_ok b) (Hs : shows b f).

Lemma joint_simulates t k now held :
  let '(r, b', dir', held') :=
    ServiceLifecycleBrokerCommitDirectoryPublication addr b t k now (Some dir) (Some held) in
  let '(r', held'', f', dir'') := f_commit_joint f dir t k now held in
  (r, held', dir') = (r', Some held'', Some dir'') /\ broker_ok b' /\ shows b' f'.
Proof.
  unfold ServiceLifecycleBrokerCommitDirectoryPublication, f_commit_joint.
  destruct (ServiceRegistrationReservationIsValid held); cbn [negb]; [|done].
  rewrite broker_ready, broker_canonical by done. cbn [negb].
  unfold publishable. rewrite <- (check_ticket_same b f) by done.
  destruct (ValidateTicketEpoch b t) eqn:Ev; try done.
  assert (ServiceLifecycleStartTicketIsValid t = true) as Hvt.
  { unfold ValidateTicketEpoch in Ev. by destruct (ServiceLifecycleStartTicketIsValid t). }
  apply ticket_epoch_ok in Ev as [Hv _].
  destruct (check_open_cases b f Hok Hs) as [(Em & -> & _)|[(Em & -> & _)|(Em & -> & _)]]; modes Em; try done.
  locate b f Hok Hs. clock. rewrite current_start by done.
  destruct (decide (stage_of (row_at b i) = Building)) as [Hst|Hst].
  2: { rewrite (bool_decide_false (stage_of (row_at b i) = Building)) by done. rewrite orb_true_r.
       by destruct (stage_of (row_at b i)). }
  rewrite Hst. rewrite bool_decide_true by done.
  destruct (building_row _ t Hsh Hst Hid Hgen) as (g & mask & ns & sp & sf & oe & fe & Hrow & Ht).
  assert (lr_builder_state (row_at b i) = BuilderConstructing) as -> by (by rewrite Hrow).
  change (negb (builder_eqb BuilderConstructing BuilderConstructing)) with false. cbn [negb orb]. unfold publish_jointly.
  unfold ServiceTransitionCommitAtSchedulerPublication. rewrite current_start, Hst, bool_decide_true by done.
  destruct (ServiceInstanceKeyIsValid k) eqn:Hk; cbn [negb orb]; [|done].
  destruct (peer_publish dir held (MkToken (start_transition t) k)) as [[status dir'] held'].
  set (row' := published_row _ _ _).
  assert (row' = published_row (row_at b i) (MkTransition (ticket_service t) Running g k true false) now) as Hrow'.
  { subst row'. by rewrite Hrow. }
  case_decide as Hd.
  - split; [done|]. apply (sim_put b f Hok Hs () i row'); try done.
    all: rewrite ?Hrow', ?Hrow; try done; try (by rewrite Em).
    rewrite Hrow in Hsh. inversion Hsh; subst. by apply published_shape.
  - rewrite (rollback_restores b i t k row' g mask ns sp sf oe fe) by (try done; by rewrite Hrow').
    done.
Qed.

Lemma mark_ready_simulates tok svc :
  let '(r, b', dir') := ServiceLifecycleBrokerMarkReady addr b tok (Some dir) svc in
  let '(r', f', dir'') := f_mark_ready f dir tok svc in
  (r, dir') = (r', Some dir'') /\ broker_ok b' /\ shows b' f'.
Proof.
  unfold ServiceLifecycleBrokerMarkReady, f_mark_ready. rewrite broker_ready, broker_canonical by done. cbn [negb].
  rewrite <- (check_token_same b f) by done. destruct (ValidateTokenEpoch b tok) eqn:Ev; try done.
  apply token_epoch_ok in Ev as (Hv & _ & Hk).
  destruct (check_open_cases b f Hok Hs) as [(Em & -> & _)|[(Em & -> & _)|(Em & -> & _)]]; modes Em; try done.
  change (token_service tok) with (ticket_service_identity (start_transition (inst_start tok))).
  locate b f Hok Hs. rewrite current_running by done.
  destruct (decide (stage_of (row_at b i) = Live (inst_process tok))) as [Hst|Hst].
  2: { rewrite (bool_decide_false (_ = Live _)) by done. by rewrite orb_true_r. }
  rewrite bool_decide_true by done.
  assert (lr_builder_state (row_at b i) = BuilderNone) as Hbs.
  { clear Hid Hgen Hm Hq. shape_cases Hsh; try done. subst ph. by destruct (g =? u64_max). }
  rewrite Hbs. cbn [negb orb]. change (negb (builder_eqb BuilderNone BuilderNone)) with false. cbn [orb].
  destruct (peer_joint_ready _ _ _ _) as [[status dir'] bit] eqn:Ep. apply peer_ready_written in Ep as ->.
  split; [done|]. case_decide as Hd.
  - apply (sim_put b f Hok Hs () i); try done.
    + remember (row_at b i) as r eqn:Er. shape_cases Hsh; try done; cbn in Hst.
      * by destruct Hph as [[-> ?]|[[->| ->] ?]].
      * by constructor.
    + by rewrite Em.
    + unfold member_of, stage_of, row_phase, row_generation. cbn. by rewrite Hbs.
  - apply (sim_keep b f Hok Hs () i); [done|]. rewrite <- Hbs. by destruct (row_at b i).
Qed.

End directory.
