(* ===== verification/ServiceLifecycleRefusals.v ===== *)
(** * What refused broker calls change

    A call the broker refuses leaves every field of it as it was: the row a
    refused start rewrites is the row it found, and the row published before
    the directory refused is put back.  The one exception is the first start
    asked of a service that has used its last generation, which retires it. *)

From S2P Require Import Prelude ServiceTransition Bytes Sha256.
From S2P Require Import ServiceManifest ServiceManifestGraph ServiceLifecycleBroker.
From S2P Require Import ServiceLifecycleSpec ServiceLifecycleInv ServiceLifecycleSim.

(** The answers that refuse. *)
Definition refused (a : answer) : Prop :=
  match a with
  | AnsStart (s, _) => s <> LcOk
  | AnsStatus s => s <> LcOk
  | AnsPublication (s, _) => s <> LcOk
  | AnsJoint r _ => dp_lifecycle_status r <> LcOk \/ dp_directory_status r <> DirOk
  | AnsReady (s, d) => s <> LcOk \/ d <> DirOk
  | AnsStop r => stop_status r <> LcStartCancelled /\ stop_status r <> LcKillRequired
  | AnsDrain s _ => s <> LcOk
  end.

(** A service that has used its last generation, retired at [now]. *)
Definition spent_row (r : ServiceLifecycleRow) (now : Z) : ServiceLifecycleRow :=
  MkLifecycleRow (MkTransition (row_identity r) GenerationExhausted (row_generation r) kInvalidServiceInstanceKey false false)
    (lr_dependency_mask r) now (lr_successful_publications r) (lr_spawn_failures r) (lr_observed_exits r) (lr_failed_exits r)
    (lr_builder_state r) (lr_ready r) (lr_reserved8 r) (lr_reserved16 r) (lr_reserved32 r).

(** The start [c], answered [a], found its service at the last generation and
    not yet retired, and retired it. *)
Definition retires (b : ServiceLifecycleBroker) (c : call) (a : answer) (b' : ServiceLifecycleBroker) : Prop :=
  match c with
  | CallReserve _ id _ now =>
      a = AnsStart (StartFailure LcGenerationExhausted) /\
      exists i, find_row b id = Some i /\ row_generation (row_at b i) = u64_max /\ row_phase (row_at b i) <> GenerationExhausted /\
        b' = put_row b i (spent_row (row_at b i) now)
  | _ => False
  end.

Section refusals.
Context (addr : Z) (b : ServiceLifecycleBroker) (f : fleet).
Context (Haddr : RangeIsValid addr sizeof_Broker = true) (Hok : broker_ok b) (Hs : shows b f).

(** Phases by stage. *)
Lemma idle_phase r : stage_of r = Idle -> phase_eqb (row_phase r) GenerationExhausted = false /\ row_phase r <> GenerationExhausted.
Proof. unfold stage_of. destruct (row_phase r), (lr_builder_state r); done. Qed.
Lemma spent_phase r : stage_of r = Spent -> phase_eqb (row_phase r) GenerationExhausted = true.
Proof. unfold stage_of. destruct (row_phase r), (lr_builder_state r); done. Qed.
Lemma cancelled_builder r : stage_of r = Cancelled -> builder_eqb (lr_builder_state r) BuilderCancelledAwaitingRetirement = true.
Proof. unfold stage_of. destruct (row_phase r), (lr_builder_state r); done. Qed.

(** The result of a call that keeps its broker when it refuses. *)
Definition keeps {A} (wrap : A -> answer) (x : A * ServiceLifecycleBroker) : Prop := refused (wrap x.1) -> x.2 = b.

Lemma keeps_same {A} (wrap : A -> answer) r : keeps wrap (r, b).
Proof. done. Qed.
Lemma keeps_row {A} (wrap : A -> answer) r i : (i < rows_used b)%nat -> keeps wrap (r, put_row b i (row_at b i)).
Proof. intros Hlt _. apply put_row_same; [apply Hok|done]. Qed.

(** The next test of a call that refuses before it writes. *)
Ltac refuse_if := match goal with |- context [if ?c then (_, b) else _] => destruct c eqn:?; [intros _; by left|] end.

Lemma reserve_refusal deps id gen now :
  let '(r, b') := ReserveStartLocked b id gen now deps in
  refused (AnsStart r) -> b' = b \/ retires b (CallReserve deps id gen now) (AnsStart r) b'.
Proof.
  unfold ReserveStartLocked. destruct (find_cases b f Hok Hs id) as [[-> _]|(i & Hfind & Hlt & _ & Hsh & _)].
  { do 3 (refuse_if). intros _; by left. }
  rewrite Hfind. do 5 (refuse_if). destruct (builder_eqb _ BuilderCancelledAwaitingRetirement) eqn:Hbuilder; [intros _; by left|].
  refuse_if. rewrite reserve_transition by done. cbv zeta.
  assert (forall t, t = lr_transition (row_at b i) -> MkLifecycleRow t (lr_dependency_mask (row_at b i))
     (lr_last_transition_ns (row_at b i)) (lr_successful_publications (row_at b i)) (lr_spawn_failures (row_at b i))
     (lr_observed_exits (row_at b i)) (lr_failed_exits (row_at b i)) (lr_builder_state (row_at b i)) (lr_ready (row_at b i))
     (lr_reserved8 (row_at b i)) (lr_reserved16 (row_at b i)) (lr_reserved32 (row_at b i)) = row_at b i) as Hkeep
    by (intros t ->; by destruct (row_at b i)).
  assert (put_row b i (row_at b i) = b) as Hsame by (apply put_row_same; [apply Hok|done]).
  destruct (stage_of (row_at b i)) eqn:Hst; cbv iota; rewrite ?Hkeep, ?Hsame by done; try (intros _; by left).
  - destruct (idle_phase _ Hst) as [Hph _]. destruct (Z.eqb_spec (row_generation (row_at b i)) u64_max) as [Hmax|]; [|done].
    rewrite Hph. intros _. right. split; [done|]. exists i. split_and!; [done|done|by intros Hg; rewrite Hg in Hph|]. unfold spent_row. by rewrite Hmax.
  - rewrite (spent_phase _ Hst). cbn [negb]. rewrite ?Hkeep, ?Hsame by done. intros _; by left.
  - by rewrite (cancelled_builder _ Hst) in Hbuilder.
Qed.

Ltac keep_cases := repeat (case_match; try apply keeps_same; try by intros []).

Lemma spawn_failure_refusal t now : keeps AnsStatus (ServiceLifecycleBrokerRecordSpawnFailure addr b t now).
Proof. unfold ServiceLifecycleBrokerRecordSpawnFailure. keep_cases. Qed.

Lemma acknowledge_refusal t now : keeps AnsStatus (ServiceLifecycleBrokerAcknowledgeCancelledStart addr b t now).
Proof. unfold ServiceLifecycleBrokerAcknowledgeCancelledStart. keep_cases. Qed.

Lemma commit_refusal t k now : keeps AnsPublication (ServiceLifecycleBrokerCommitPublication addr b t k now).
Proof. unfold ServiceLifecycleBrokerCommitPublication. keep_cases. Qed.

Lemma observe_exit_refusal tok now failed : keeps AnsStatus (ServiceLifecycleBrokerObserveExit addr b tok now failed).
Proof. unfold ServiceLifecycleBrokerObserveExit. keep_cases. Qed.

Lemma finish_refusal : keeps AnsStatus (ServiceLifecycleBrokerFinishDrain addr b).
Proof. unfold ServiceLifecycleBrokerFinishDrain. keep_cases. Qed.

Lemma stop_refusal id gen now : keeps AnsStop (ServiceLifecycleBrokerRequestStop addr b id gen now).
Proof. unfold ServiceLifecycleBrokerRequestStop. keep_cases. Qed.

Lemma begin_drain_refusal plan_out now :
  let '(s, b', plan) := ServiceLifecycleBrokerBeginDrain addr b now plan_out in s <> LcOk -> b' = b.
Proof.
  unfold ServiceLifecycleBrokerBeginDrain. do 2 (match goal with |- context [if ?c then _ else _] => destruct c; [done|] end). destruct (ReadyBroker addr b); try done.
  do 4 (match goal with |- context [if ?c then _ else _] => destruct c; [done|] end).
  pose proof (drain_rows_simulate now (rows_used b) 0 (set_broker_state b BrokerDraining) (set_mode f BrokerDraining)
    empty_drain_plan) as H.
  destruct (f_drain_all _ _ _ _) as [f' plan']. destruct H as (b' & -> & _); try done.
  - destruct Hok as [[] _]; by split.
  - destruct Hs; by split.
  - intros i Hlt. lia.
Qed.

End refusals.

Section directory_refusals.
Context {D : Type} `{DirectoryPeer D}.
Context (addr : Z) (b : ServiceLifecycleBroker) (f : fleet) (dir : D).
Context (Haddr : RangeIsValid addr sizeof_Broker = true) (Hok : broker_ok b) (Hs : shows b f).

Lemma joint_refusal t k now held :
  let '(r, b', dir', held') :=
    ServiceLifecycleBrokerCommitDirectoryPublication addr b t k now (Some dir) (Some held) in
  dp_lifecycle_status r <> LcOk \/ dp_directory_status r <> DirOk -> b' = b.
Proof.
  unfold ServiceLifecycleBrokerCommitDirectoryPublication.
  destruct (negb _); [done|]. rewrite broker_ready, broker_canonical by done. cbn [negb].
  destruct (ValidateTicketEpoch b t) eqn:Ev; try done.
  assert (ServiceLifecycleStartTicketIsValid t = true) as Hvt.
  { unfold ValidateTicketEpoch in Ev. by destruct (ServiceLifecycleStartTicketIsValid t). }
  apply ticket_epoch_ok in Ev as [Hv _]. do 2 (destruct (broker_state_eqb _ _); [done|]).
  destruct (find_cases b f Hok Hs (ticket_service_identity (start_transition t))) as [[-> _]|(i & -> & Hlt & Hid & Hsh & _)]; [done|].
  destruct (Z.eqb_spec (row_generation (row_at b i)) (ticket_generation (start_transition t))) as [Hgen|]; cbn [negb]; [|done].
  destruct (now <? _); [done|]. rewrite current_start by done.
  destruct (decide (stage_of (row_at b i) = Building)) as [Hst|Hst].
  2: { rewrite (bool_decide_false (stage_of _ = Building)) by done. by rewrite orb_true_r. }
  rewrite (bool_decide_true (stage_of _ = Building)) by done. cbn [negb]. rewrite orb_false_r.
  destruct (negb (builder_eqb _ _)); [done|].
  destruct (building_row _ t Hsh Hst Hid Hgen) as (g & mask & ns & sp & sf & oe & fe & Hrow & Ht). unfold publish_jointly.
  unfold ServiceTransitionCommitAtSchedulerPublication. rewrite current_start, Hst, bool_decide_true by done.
  destruct (ServiceInstanceKeyIsValid k) eqn:Hk; cbn [negb orb]; [|done].
  destruct (peer_publish dir held (MkToken (start_transition t) k)) as [[status dir'] held'].
  case_decide; [cbn; tauto|].
  rewrite (rollback_restores b i t k _ g mask ns sp sf oe fe) by (try done; by rewrite Hrow). done.
Qed.

Lemma mark_ready_refusal tok svc :
  let '((s, d), b', dir') := ServiceLifecycleBrokerMarkReady addr b tok (Some dir) svc in
  s <> LcOk \/ d <> DirOk -> b' = b.
Proof.
  unfold ServiceLifecycleBrokerMarkReady. rewrite broker_ready, broker_canonical by done. cbn [negb].
  destruct (ValidateTokenEpoch b tok); try done. do 2 (destruct (broker_state_eqb _ _); [done|]).
  destruct (find_cases b f Hok Hs (ticket_service_identity (start_transition (inst_start tok))))
    as [[-> _]|(i & -> & Hlt & _)]; [done|].
  destruct (negb (_ =? _)); [done|]. destruct (negb (builder_eqb _ _) || _); [done|].
  destruct (peer_joint_ready _ _ _ _) as [[status dir'] bit] eqn:Ep. apply peer_ready_written in Ep as ->.
  case_decide; [intros [?|?]; done|]. intros _.
  etrans; [|apply (put_row_same b i); [apply Hok|done]]. f_equal. by destruct (row_at b i).
Qed.

Lemma exec_refusal plan_out c : pointers_ok addr plan_out ->
  let '(a, (b', dir')) := exec addr plan_out (b, dir) c in refused a -> b' = b \/ retires b c a b'.
Proof.
  intros Hp.
  assert (forall {A} (w : A -> answer) x, keeps b w x -> let '(r, b') := x in refused (w r) -> b' = b \/ retires b c (w r) b') as Hx
    by (intros A w [r b'] Hk Hr; left; exact (Hk Hr)).
  destruct c; cbn [exec].
  - replace (if dependencies then _ else _) with (ReserveStartLocked b id expected now dependencies).
    2: { unfold ServiceLifecycleBrokerReserveStart, ServiceLifecycleBrokerReserveStartWithDependencies.
         rewrite (broker_ready b Hok addr Haddr). by destruct dependencies. }
    pose proof (reserve_refusal b f Hok Hs dependencies id expected now). by destruct (ReserveStartLocked _ _ _ _ _).
  - pose proof (Hx _ _ _ (spawn_failure_refusal addr b t now)). by destruct (ServiceLifecycleBrokerRecordSpawnFailure _ _ _ _).
  - pose proof (Hx _ _ _ (acknowledge_refusal addr b t now)). by destruct (ServiceLifecycleBrokerAcknowledgeCancelledStart _ _ _ _).
  - pose proof (Hx _ _ _ (commit_refusal addr b t k now)). by destruct (ServiceLifecycleBrokerCommitPublication _ _ _ _ _).
  - pose proof (joint_refusal t k now r). destruct (ServiceLifecycleBrokerCommitDirectoryPublication _ _ _ _ _ _ _) as [[[??]?]?]. by left; auto.
  - pose proof (mark_ready_refusal tok key). destruct (ServiceLifecycleBrokerMarkReady _ _ _ _ _) as [[[??]?]?]. by left; auto.
  - pose proof (Hx _ _ _ (stop_refusal addr b id expected now)). by destruct (ServiceLifecycleBrokerRequestStop _ _ _ _ _).
  - pose proof (Hx _ _ _ (observe_exit_refusal addr b tok now failed)). by destruct (ServiceLifecycleBrokerObserveExit _ _ _ _ _).
  - pose proof (begin_drain_refusal addr b f Haddr Hok Hs plan_out now). destruct (ServiceLifecycleBrokerBeginDrain _ _ _ _) as [[??]?]. by left; auto.
  - pose proof (Hx _ _ _ (finish_refusal addr b)). by destruct (ServiceLifecycleBrokerFinishDrain _ _).
Qed.

End directory_refusals.
