(* ===== verification/ServiceLifecycleInit.v ===== *)
(** * Initialization of the broker

    The broker replays the manifest's start order with a bit mask.  On an
    accepted document that replay is the reference order of
    [ServiceManifestGraph], so the broker accepts exactly the plans the
    manifest validator produces, and its rows are the document's services. *)

From S2P Require Import Prelude ServiceTransition Bytes Sha256.
From S2P Require Import ServiceManifest ServiceManifestGraph ServiceManifestCodec ServiceManifestProps.
From S2P Require Import ServiceLifecycleBroker ServiceLifecycleSpec ServiceLifecycleInv.

Section document.
Context (d : ServiceManifestDocumentV1) (authority : option ServiceManifestAuthoritySnapshotV1).
Context (Hshape : document_shape d) (Hacc : document_accepted d authority).

Local Notation n := (services_used d).
Local Notation ids := (identity_at d).

Lemma document_index t : (exists i, (i < n)%nat /\ ids i = t) ->
  exists i, (i < n)%nat /\ ids i = t /\ FindDocumentIndex d t = Z.of_nat i.
Proof.
  intros (i & Hi & <-). exists i. split_and!; try done. exact (FindService_found d authority Hacc i Hi).
Qed.

Lemma used_count : Z.of_nat n = service_count d.
Proof. pose proof (da_count _ _ Hacc). unfold services_used. lia. Qed.

(** ** The replay of the order *)

Record visits (past : list Z) (visited : Z) : Prop := {
  vi_bit : forall c, (c < n)%nat -> Z.testbit visited (Z.of_nat c) = bool_decide (ids c ∈ past);
  vi_rest : forall k, Z.of_nat n <= k -> Z.testbit visited k = false;
}.

Lemma visits_nil : visits [] 0.
Proof.
  split; [|by intros; rewrite Z.bits_0]. intros c Hc. rewrite Z.bits_0. symmetry.
  apply bool_decide_eq_false. apply not_elem_of_nil.
Qed.

Lemma bit_clear v k : 0 <= k -> (Z.land v (Z.shiftl 1 k) =? 0) = negb (Z.testbit v k).
Proof. intros Hk. rewrite <- land_bit by done. by rewrite negb_involutive. Qed.

Lemma visited_ready_next past visited c : visits past visited -> (c < n)%nat ->
  visited_ready d visited c = negb (bool_decide (ids c ∈ past)) && ready d past c.
Proof.
  intros Hv Hc. unfold visited_ready. rewrite bit_clear by lia. rewrite (vi_bit _ _ Hv c Hc). f_equal.
  unfold ready. apply eq_iff_eq_true. rewrite !forallb_forall.
  assert (forall t, In t (targets d c) ->
    negb ((service_count d <=? FindDocumentIndex d t) || (Z.land visited (Z.shiftl 1 (FindDocumentIndex d t)) =? 0))
    = bool_decide (t ∈ past)) as Heq.
  { intros t Ht%list_elem_of_In. destruct (targets_services d authority Hshape Hacc c t Hc Ht) as (j & Hj & Hid & _).
    destruct (document_index t) as (i & Hi & Hit & ->); [by exists j|].
    rewrite (proj2 (Z.leb_gt _ _)) by (rewrite <- used_count; lia). cbn [orb]. rewrite bit_clear, negb_involutive by lia.
    by rewrite (vi_bit _ _ Hv i Hi), Hit. }
  split; intros H t Ht; [rewrite <- Heq by done|rewrite Heq by done]; by apply H.
Qed.

Lemma find_ext_in {A} (p q : A -> bool) l : (forall x, In x l -> p x = q x) -> find p l = find q l.
Proof.
  induction l as [|x l IH]; intros H; cbn; [done|]. rewrite (H x) by (by left).
  destruct (q x); [done|]. apply IH. intros y Hy. apply H. by right.
Qed.

Lemma visits_next past visited c : visits past visited -> (c < n)%nat -> ids c ∉ past ->
  visits (past ++ [ids c]) (Z.lor visited (Z.shiftl 1 (Z.of_nat c))).
Proof.
  intros Hv Hc Hn. rewrite Z.shiftl_1_l. split.
  - intros j Hj. rewrite Z.lor_spec, (vi_bit _ _ Hv j Hj), Z.pow2_bits_eqb by lia.
    apply eq_iff_eq_true. rewrite orb_true_iff, !bool_decide_eq_true, Z.eqb_eq, elem_of_app, list_elem_of_singleton.
    split; intros [H|H]; auto; right.
    + by apply Nat2Z.inj in H as ->.
    + f_equal. symmetry. by apply (key_inj ids n (identities_increase d authority Hacc)).
  - intros k Hk. rewrite Z.lor_spec, (vi_rest _ _ Hv k Hk), Z.pow2_bits_eqb by lia. cbn. apply Z.eqb_neq. lia.
Qed.

Lemma visit_order_reference todo : forall past order visited, visits past visited ->
  match order_from todo d past with
  | Some full =>
      (take todo order = drop (length past) full -> (todo <= length order)%nat ->
        exists v, visit_order todo d order visited = Some v /\ visits full v) /\
      (forall v, (todo <= length order)%nat -> visit_order todo d order visited = Some v -> take todo order = drop (length past) full)
  | None => visit_order todo d order visited = None
  end.
Proof.
  induction todo as [|todo IH]; intros past order visited Hv; cbn [order_from visit_order].
  { rewrite drop_all. split; [|done]. intros _ _. by exists visited. }
  rewrite (find_ext_in _ (fun c => negb (bool_decide (ids c ∈ past)) && ready d past c))
    by (intros c Hc%in_seq; apply visited_ready_next; [done|lia]).
  fold (next_start d past). destruct (next_start d past) as [c|] eqn:Hn; [|done].
  apply next_start_spec in Hn as (Hc & Hnot & _ & _).
  specialize (IH (past ++ [ids c]) (tl order) _ (visits_next past visited c Hv Hc Hnot)).
  destruct (order_from todo d (past ++ [ids c])) as [full|] eqn:Hf; [|by destruct (hd 0 order =? ids c)].
  assert (exists tail, full = past ++ ids c :: tail) as (tail & ->).
  { clear - Hf. revert Hf. generalize (ids c) as x. revert past full.
    assert (forall m q full, order_from m d q = Some full -> exists t, full = q ++ t) as Hpre.
    { induction m as [|m IHm]; intros q full H; cbn in H; [simplify_eq; exists []; by rewrite app_nil_r|].
      destruct (next_start d q) as [c'|]; [|done]. apply IHm in H as (t & ->). exists (ids c' :: t). by rewrite <- app_assoc. }
    intros past full x H. apply Hpre in H as (t & ->). exists t. by rewrite <- app_assoc. }
  rewrite drop_app_length. rewrite length_app in IH. cbn [length] in IH.
  replace (drop (length past + 1) (past ++ ids c :: tail)) with tail in IH
    by (rewrite drop_app_add; done).
  destruct order as [|x order]; cbn [hd tl take length] in *; [split; [done|lia]|].
  destruct IH as [IH1 IH2]. destruct (Z.eqb_spec x (ids c)) as [->|Hx].
  - split; [intros [= H] Hl; apply IH1; [done|lia]|]. intros v Hl H. f_equal. apply (IH2 v); [lia|done].
  - split; [intros [= ? _]; congruence|done].
Qed.

Lemma visits_all order visited : start_order d order -> visits order visited -> visited = all_rows_mask (service_count d).
Proof.
  intros [Hp _] Hv. pose proof (da_count _ _ Hacc) as Hc. pose proof used_count as Hn.
  assert (visited = Z.ones (service_count d)) as ->.
  { apply Z.bits_inj'. intros k Hk. destruct (Z.lt_ge_cases k (service_count d)) as [Hlt|Hge].
    - rewrite Z.ones_spec_low by lia. rewrite <- (Z2Nat.id k) by lia. rewrite (vi_bit _ _ Hv) by lia.
      apply bool_decide_eq_true. rewrite Hp. apply list_elem_of_fmap. eexists. split; [done|]. apply elem_of_seq. lia.
    - rewrite Z.ones_spec_high by lia. apply (vi_rest _ _ Hv). lia. }
  unfold all_rows_mask. rewrite Z.ones_equiv, Z.shiftl_1_l. destruct (Z.eqb_spec (service_count d) 64) as [->|]; [done|lia].
Qed.

(** ** The rows *)

Lemma dependency_mask_visits ts : (forall t, t ∈ ts -> exists j, (j < n)%nat /\ ids j = t) ->
  exists mask, dependency_mask_of d ts = Some mask /\ visits ts mask.
Proof.
  intros Hts. unfold dependency_mask_of.
  assert (forall past m0, visits past m0 -> (forall t, t ∈ ts -> exists j, (j < n)%nat /\ ids j = t) ->
    exists mask, fold_left (add_dependency d) ts (Some m0) = Some mask /\ visits (past ++ ts) mask) as Hgen.
  { induction ts as [|t ts IH]; intros past m0 Hv Ht; cbn [fold_left].
    - exists m0. by rewrite app_nil_r.
    - destruct (document_index t) as (i & Hi & Hid & Hx); [by apply Ht; left|]. unfold add_dependency at 2. rewrite Hx.
      rewrite (proj2 (Z.leb_gt _ _)) by (rewrite <- used_count; lia).
      destruct (IH ltac:(intros; apply Hts; by right) (past ++ [t]) (Z.lor m0 (Z.shiftl 1 (Z.of_nat i)))) as (mask & -> & Hm).
      + split.
        * intros j Hj. rewrite Z.shiftl_1_l, Z.lor_spec, (vi_bit _ _ Hv j Hj), Z.pow2_bits_eqb by lia.
          apply eq_iff_eq_true. rewrite orb_true_iff, !bool_decide_eq_true, Z.eqb_eq, elem_of_app, list_elem_of_singleton.
          split; intros [H|H]; auto; right; [apply Nat2Z.inj in H; by subst|].
          f_equal. apply (key_inj ids n (identities_increase d authority Hacc)); [done|done|congruence].
        * intros k Hk. rewrite Z.shiftl_1_l, Z.lor_spec, (vi_rest _ _ Hv k Hk), Z.pow2_bits_eqb by lia. cbn. apply Z.eqb_neq. lia.
      + intros t' Ht'. apply Ht. by right.
      + exists mask. split; [done|]. by rewrite <- app_assoc in Hm. }
  apply (Hgen [] 0); [apply visits_nil|done].
Qed.

Definition fresh_row (identity mask : Z) : ServiceLifecycleRow :=
  MkLifecycleRow (MkTransition identity Stopped 0 kInvalidServiceInstanceKey false false) mask 0 0 0 0 0 BuilderNone false 0 0 0.

Lemma identity_positive i : (i < n)%nat -> 0 < ids i.
Proof.
  intros Hi. pose proof (ra_service _ _ _ (da_rows _ _ Hacc i Hi)) as Hv. apply ValidateService_inv in Hv as (Hv & _).
  unfold IdentityIsValid in Hv. apply andb_true_iff in Hv as [Hv%negb_true_iff%Z.eqb_neq _].
  pose proof (ss_identity _ (service_at_shape d i Hshape)) as Hu. change (svc_identity (service_at d i)) with (ids i) in *. ulia.
Qed.

Lemma initialize_rows_exact todo : forall k rows, (k + todo = n)%nat -> length rows = 64%nat ->
  exists rows', initialize_rows (seq k todo) d rows = Some rows' /\ length rows' = 64%nat /\
    (forall i, (i < k)%nat -> rows' !! i = rows !! i) /\
    (forall i, (k <= i < n)%nat -> exists mask, rows' !! i = Some (fresh_row (ids i) mask) /\ visits (targets d i) mask).
Proof.
  induction todo as [|todo IH]; intros k rows Hk Hl; cbn [seq initialize_rows].
  { exists rows. split_and!; try done. intros i Hi. lia. }
  pose proof (services_used_bound d authority Hacc) as Hb.
  assert (Hlt : (k < n)%nat) by lia. pose proof (identity_positive k Hlt) as Hpos.
  unfold ServiceTransitionInitialize, kInvalidServiceTransitionIdentity. rewrite (proj2 (Z.eqb_neq _ _)) by lia.
  destruct (dependency_mask_visits (targets d k)) as (mask & -> & Hm).
  { intros t Ht. destruct (targets_services d authority Hshape Hacc k t Hlt Ht) as (j & ? & ? & _). by exists j. }
  change (MkLifecycleRow _ mask 0 0 0 0 0 BuilderNone false 0 0 0) with (fresh_row (ids k) mask).
  destruct (IH (S k) (<[k := fresh_row (ids k) mask]> rows)) as (rows' & -> & Hl' & Hpast & Hnew).
  - lia.
  - by rewrite length_insert.
  - exists rows'. split_and!; try done.
    + intros i Hi. rewrite Hpast by lia. by rewrite list_lookup_insert_ne by lia.
    + intros i Hi. destruct (decide (i = k)) as [->|]; [|apply Hnew; lia]. exists mask. split; [|done].
      rewrite Hpast by lia. by rewrite list_lookup_insert_eq by lia.
Qed.

(** The broker an accepted document gives: every service idle at generation
    zero, its dependencies those of the manifest. *)
Definition initial_fleet (epoch : Z) : fleet :=
  MkFleet epoch BrokerOpen (map ids (seq 0 n))
    (list_to_map (map (fun i => (ids i, list_to_set (targets d i))) (seq 0 n)))
    (list_to_map (map (fun i => (ids i, MkMember 0 Idle false 0)) (seq 0 n))).

Lemma ids_map_lookup {A} (h : nat -> A) i : (i < n)%nat ->
  (list_to_map (map (fun i => (ids i, h i)) (seq 0 n)) : gmap Z A) !! ids i = Some (h i).
Proof.
  intros Hi. apply elem_of_list_to_map.
  - rewrite <- list_fmap_compose. exact (ids_nodup d authority Hacc).
  - apply list_elem_of_fmap. exists i. split; [done|]. apply elem_of_seq. lia.
Qed.

Lemma ids_map_none {A} (h : nat -> A) t : (forall i, (i < n)%nat -> ids i <> t) ->
  (list_to_map (map (fun i => (ids i, h i)) (seq 0 n)) : gmap Z A) !! t = None.
Proof.
  intros Ht. apply not_elem_of_list_to_map. rewrite <- list_fmap_compose.
  intros (i & -> & Hi%elem_of_seq)%list_elem_of_fmap. by apply (Ht i); [lia|].
Qed.

End document.

(** ** Plans *)

(** A plan of its native type. *)
Record plan_shape (plan : ServiceManifestPlanV1) : Prop := {
  ps_document : document_shape (plan_document plan);
  ps_hash : length (plan_sealed_object_hash plan) = 32%nat;
  ps_order : length (topological_identities plan) = 64%nat;
}.

(** The plan is what the manifest validator returns for some sealed bytes. *)
Definition validated (a : ServiceManifestAuthoritySnapshotV1) (plan : ServiceManifestPlanV1) : Prop :=
  exists bytes byte_count, bytes_ok bytes /\ 0 <= byte_count <= Z.of_nat (length bytes) /\
    validate_sealed bytes byte_count a = Some (ManifestOk, plan).

Definition hash_local_ok (plan_addr hash_addr : Z) : Prop :=
  hash_addr <> 0 /\ PointerRangeIsValid hash_addr sizeof_Hash256 = true /\
  PointerRangesOverlap hash_addr sizeof_Hash256 plan_addr sizeof_Document = false.

Lemma document_hash_ok daddr d hash_addr : document_shape d -> ServiceManifestDocumentValidateV1 d = ManifestOk ->
  hash_local_ok daddr hash_addr ->
  ServiceManifestDocumentHashV1 daddr d hash_addr = Some (ManifestOk, Some (sha256_of (encoding d))).
Proof.
  intros Hd Hv (H1 & H2 & H3). unfold ServiceManifestDocumentHashV1.
  rewrite (proj2 (Z.eqb_neq _ _) H1), H2, H3, Hv. cbn [negb]. cbv zeta.
  pose proof (document_valid_ok d Hd Hv) as Ha. pose proof (da_count _ _ Ha). pose proof (da_dependencies _ _ Ha).
  destruct (encoded_size_nat d Hd) as [_ Hs]; [lia|done|]. pose proof (ds_dependencies d Hd).
  rewrite (proj2 (Z.eqb_neq _ _)) by (rewrite Hs; ulia).
  destruct (updates_exact (hash_pieces d (ServiceManifestEncodedSizeV1 (service_count d) (dependency_count d)))
    (hash_pieces_small d _ Hd)) as (ctx & -> & ->). by rewrite (hash_pieces_encoding d Hd).
Qed.

Lemma against_authority_weaken d a : document_shape d ->
  ServiceManifestDocumentValidateAgainstAuthorityV1 d a = ManifestOk -> ServiceManifestDocumentValidateV1 d = ManifestOk.
Proof.
  intros Hd H. destruct (against_authority_ok d a Hd H) as (_ & _ & _ & _ & Ha & order & Hg).
  unfold ServiceManifestDocumentValidateV1. by rewrite (accepted_validates d None (accepted_weaken d a Hd Ha)), Hg.
Qed.

Lemma zeros_replicate l : forallb (fun x => x =? 0) l = true -> l = replicate (length l) 0.
Proof.
  induction l as [|x l IH]; cbn; [done|]. intros [->%Z.eqb_eq H]%andb_true_iff. f_equal. by apply IH.
Qed.

Lemma forallb_zero_replicate n : forallb (fun x => x =? 0) (replicate n 0) = true.
Proof. by induction n. Qed.

(** Whatever the broker accepts is exactly the plan of its document. *)
Lemma plan_canonical_exact plan_addr plan a hash_addr :
  plan_shape plan -> length (sealed_object_hash a) = 32%nat -> hash_local_ok plan_addr hash_addr ->
  ManifestPlanIsCanonical plan_addr plan a hash_addr = Some true ->
  let d := plan_document plan in
  ServiceManifestDocumentValidateAgainstAuthorityV1 d a = ManifestOk /\
  sealed_object_hash a = sha256_of (encoding d) /\
  sealed_object_extent a = ServiceManifestEncodedSizeV1 (service_count d) (dependency_count d) /\
  exists order, ValidateGraph d = (ManifestOk, order) /\
    plan = MkPlan d (authority_identity a) (sealed_object_hash a) (sealed_object_extent a) (service_count d) 0 0
             (order ++ replicate (64 - length order) 0).
Proof.
  intros [Hd Hh Ho] Hha Hp H. unfold ManifestPlanIsCanonical in H. cbv zeta in H. peel H.
  repeat match goal with E : _ || _ = false |- _ => apply orb_false_iff in E as [E ?] end.
  rewrite ?negb_false_iff in *. rewrite ?Z.eqb_eq in *.
  match goal with E : bool_decide _ = true |- _ => apply bool_decide_eq_true in E; rename E into Hv end.
  rewrite document_hash_ok in H by (try done; by eapply against_authority_weaken). cbn [default] in H. peel H.
  match goal with E : _ || _ = false |- _ => apply orb_false_iff in E as [_ Hd2%negb_false_iff] end.
  match goal with E : HashEquals _ (sealed_object_hash a) = true |- _ => apply HashEquals_eq in E; [rename E into Hd1|done|done] end.
  apply HashEquals_eq in Hd2; [|apply length_sha256_of|done].
  destruct (visit_order _ _ _ _) as [v|] eqn:Hvis; [|done]. peel H.
  destruct (against_authority_ok _ a Hd Hv) as (_ & _ & _ & _ & Ha & order & Hg).
  match goal with E : topological_count plan = _ |- _ => rename E into Hcount end.
  destruct (ValidateGraph_ok _ _ Hd Ha order Hg) as (Hfrom & Hstart & _ & Hlen).
  rewrite Hcount in *.
  change (Z.to_nat (service_count (plan_document plan))) with (services_used (plan_document plan)) in *.
  pose proof (services_used_bound _ _ Ha) as Hb.
  pose proof (visit_order_reference (plan_document plan) (Some a) Hd Ha (services_used (plan_document plan)) []
    (topological_identities plan) 0) as Href. rewrite Hfrom in Href.
  assert (take (services_used (plan_document plan)) (topological_identities plan) = order) as Htake.
  { destruct Href as [_ Href]; [apply visits_nil|]. apply (Href v); [lia|done]. }
  apply negb_false_iff, zeros_replicate in E. rename E into Hz. cbv [id] in Hd2.
  cbv zeta. split_and!; try done; [congruence|congruence|]. exists order. split; [done|].
  rewrite length_drop, Ho in Hz. rewrite Hlen. rewrite <- Htake at 1. rewrite <- Hz, take_drop.
  destruct plan; cbn in *. congruence.
Qed.

Lemma authority_facts a : ServiceManifestAuthoritySnapshotIsCanonicalV1 a = true ->
  authority_identity a <> 0 /\ HashIsNonZero (sealed_object_hash a) = true.
Proof.
  unfold ServiceManifestAuthoritySnapshotIsCanonicalV1. intros H. rewrite !andb_true_iff in H. destruct_and!.
  split; [|done]. intros Hz. rewrite Hz in *. done.
Qed.

Lemma plan_canonical_validated plan_addr plan a hash_addr :
  length (sealed_object_hash a) = 32%nat -> hash_local_ok plan_addr hash_addr -> validated a plan ->
  ManifestPlanIsCanonical plan_addr plan a hash_addr = Some true.
Proof.
  intros Hha Hp (bytes & byte_count & Hb & Hl & H).
  destruct (validate_sealed_ok _ _ _ _ Hb Hl H) as (order & [Hc He (h & Hh & Hheq) Hd Ha Hg Hm Hsi Hpr Hbytes Hplan]).
  set (d := plan_document plan) in *.
  pose proof (da_count _ _ Ha) as Hcount. pose proof (da_dependencies _ _ Ha) as Hdeps.
  destruct (encoded_size_nat d Hd) as [Hn Hsize]; [lia|done|].
  assert (byte_count = ServiceManifestEncodedSizeV1 (service_count d) (dependency_count d)) as Hbc.
  { apply (f_equal length) in Hbytes. rewrite length_encoding, length_take in Hbytes by done. pose proof (ds_dependencies d Hd). ulia. }
  assert (sealed_object_hash a = sha256_of (encoding d)) as Hhash.
  { rewrite <- Hbytes in Hh. rewrite Sha256Hash_exact in Hh.
    - simplify_eq. symmetry. apply HashEquals_eq; [apply length_sha256_of|done|done].
    - rewrite length_encoding by done. unfold services_used, dependencies_used. lia. }
  assert (ServiceManifestDocumentValidateAgainstAuthorityV1 d a = ManifestOk) as Hv.
  { unfold ServiceManifestDocumentValidateAgainstAuthorityV1.
    by rewrite Hc, (da_manifest _ _ Ha), Hm, Hsi, Hpr, !Z.eqb_refl, (accepted_validates d (Some a) Ha), Hg. }
  destruct (ValidateGraph_ok _ _ Hd Ha order Hg) as (Hfrom & Hstart & _ & Hlen).
  pose proof (services_used_bound _ _ Ha) as Hbound.
  unfold ManifestPlanIsCanonical. cbv zeta. fold d. rewrite Hplan.
  cbn [plan_authority_identity topological_count plan_reserved16 plan_reserved32 plan_sealed_object_extent
       plan_sealed_object_hash topological_identities].
  rewrite Hv, bool_decide_true, He, Hbc, !Z.eqb_refl, HashEquals_refl by done. cbn [negb orb].
  assert (HashIsNonZero (sealed_object_hash a) = true) as ->.
  { by apply authority_facts. }
  rewrite document_hash_ok by (try done; by eapply against_authority_weaken). cbn [negb default].
  rewrite Hhash, bool_decide_true by done. cbv [id]. rewrite HashEquals_refl. cbn [negb orb].
  change (Z.to_nat (service_count d)) with (services_used d).
  pose proof (visit_order_reference d (Some a) Hd Ha (services_used d) [] (order ++ replicate (64 - length order) 0) 0
    (visits_nil d)) as Href. rewrite Hfrom in Href. destruct Href as [Href _].
  destruct Href as (v & -> & Hvis); [by rewrite <- Hlen, take_app_length|rewrite length_app; lia|].
  rewrite <- Hlen, drop_app_length, forallb_zero_replicate. cbn [negb].
  by rewrite (visits_all d (Some a) Ha order v Hstart Hvis), Z.eqb_refl.
Qed.

(** An encoding consists of bytes. *)
Lemma land_u8 v : is_u8 (Z.land v 255).
Proof. change 255 with (Z.ones 8). rewrite Z.land_ones by lia. pose proof (Z.mod_pos_bound v (2 ^ 8)). ulia. Qed.

Lemma le_bytes_ok v : bytes_ok (le16 v) /\ bytes_ok (le32 v) /\ bytes_ok (le64 v).
Proof.
  assert (forall w, bytes_ok (le32 w)) as H32 by (intros w; repeat constructor; apply land_u8).
  split_and!; [repeat constructor; apply land_u8|done|]. apply Forall_app. split; apply H32.
Qed.

Ltac bytes_parts :=
  repeat (apply Forall_app; split); try apply le_bytes_ok; try (apply Forall_take); try (apply Forall_replicate; ulia);
  try (by apply Forall_singleton); try done.

Lemma encoding_ok d : document_shape d -> bytes_ok (encoding d).
Proof.
  intros Hd. unfold encoding, bytes_ok, header_bytes. bytes_parts.
  - apply Forall_flat_map, Forall_forall. intros i _. pose proof (service_at_shape d i Hd) as Hs. destruct Hs.
    unfold service_bytes. destruct_and!. bytes_parts.
  - apply Forall_flat_map, Forall_forall. intros i _. unfold dependency_bytes. bytes_parts.
Qed.

Lemma plan_canonical_iff plan_addr plan a hash_addr :
  plan_shape plan -> length (sealed_object_hash a) = 32%nat -> hash_local_ok plan_addr hash_addr ->
  ManifestPlanIsCanonical plan_addr plan a hash_addr = Some true <-> validated a plan.
Proof.
  intros Hp Hh Hl. split; [|by apply plan_canonical_validated].
  intros H. destruct (plan_canonical_exact _ _ _ _ Hp Hh Hl H) as (Hv & Hs & He & order & Hg & Hplan).
  pose proof (ps_document _ Hp) as Hd. set (d := plan_document plan) in *.
  destruct (validate_sealed_encoding d a [] Hd Hv Hs He) as (order' & Hr). rewrite app_nil_r in Hr.
  destruct (against_authority_ok d a Hd Hv) as (_ & _ & _ & _ & Ha & _).
  pose proof (da_count _ _ Ha). pose proof (da_dependencies _ _ Ha). pose proof (ds_dependencies d Hd).
  destruct (encoded_size_nat d Hd) as [Hn Hsize]; [lia|done|].
  assert (bytes_ok (encoding d) /\ 0 <= sealed_object_extent a <= Z.of_nat (length (encoding d))) as [Hb Hlen].
  { split; [by apply encoding_ok|]. rewrite He, length_encoding by done. ulia. }
  destruct (validate_sealed_ok _ _ _ _ Hb Hlen Hr) as (order2 & Hacc). pose proof (pa_graph _ _ _ _ _ Hacc) as Hg2.
  pose proof (pa_plan _ _ _ _ _ Hacc) as Hp2. cbn [plan_document] in Hg2, Hp2. rewrite Hg in Hg2. injection Hg2 as <-.
  exists (encoding d), (sealed_object_extent a). split_and!; try done; [lia|lia|]. rewrite Hr. do 2 f_equal. by rewrite Hplan, Hp2.
Qed.

Lemma plan_canonical_answers plan_addr plan a hash_addr :
  plan_shape plan -> hash_local_ok plan_addr hash_addr ->
  ManifestPlanIsCanonical plan_addr plan a hash_addr = Some true \/
  ManifestPlanIsCanonical plan_addr plan a hash_addr = Some false.
Proof.
  intros [Hd _ _] Hp. unfold ManifestPlanIsCanonical. cbv zeta.
  destruct (bool_decide (ServiceManifestDocumentValidateAgainstAuthorityV1 (plan_document plan) a = ManifestOk)) eqn:Hv;
    cbn [negb orb]; [|by right].
  apply bool_decide_eq_true in Hv. rewrite document_hash_ok by (try done; by eapply against_authority_weaken).
  repeat match goal with |- context [if ?c then _ else _] => destruct c end; try tauto.
  destruct (visit_order _ _ _ _) as [v|]; [|tauto]. destruct (v =? all_rows_mask (service_count (plan_document plan))); tauto.
Qed.

(** ** The initialized broker *)

Section initialized.
Context (plan : ServiceManifestPlanV1) (a : ServiceManifestAuthoritySnapshotV1) (epoch : Z).
Local Notation d := (plan_document plan).
Context (Hd : document_shape d) (Hacc : document_accepted d (Some a)) (Hepoch : epoch <> 0).
Context (Hplan : plan_authority_identity plan <> 0) (Hhash : HashIsNonZero (plan_sealed_object_hash plan) = true)
        (Hextent : plan_sealed_object_extent plan = ServiceManifestEncodedSizeV1 (service_count d) (dependency_count d)).

Definition initialized_broker (rows : list ServiceLifecycleRow) : ServiceLifecycleBroker :=
  MkBroker BrokerOpen 1 (service_count d) (dependency_count d) 0 epoch (manifest_identity d)
    (plan_authority_identity plan) (plan_sealed_object_hash plan) (plan_sealed_object_extent plan) rows.

Context (rows : list ServiceLifecycleRow) (Hlen : length rows = 64%nat).
Context (Hrows : forall i, (i < services_used d)%nat ->
  exists mask, rows !! i = Some (fresh_row (identity_at d i) mask) /\ visits d (targets d i) mask).
Local Notation b := (initialized_broker rows).

Lemma initial_row i : (i < services_used d)%nat ->
  exists mask, row_at b i = fresh_row (identity_at d i) mask /\ visits d (targets d i) mask.
Proof. intros Hi. destruct (Hrows i Hi) as (mask & Hm & Hv). exists mask. split; [by apply row_at_lookup|done]. Qed.

Lemma initial_identity i : (i < services_used d)%nat -> row_identity (row_at b i) = identity_at d i.
Proof. intros Hi. by destruct (initial_row i Hi) as (mask & -> & _). Qed.

Lemma mask_inside mask ts : visits d ts mask -> Z.land mask (Z.lnot (all_rows_mask (service_count d))) = 0.
Proof.
  intros Hv. apply Z.bits_inj'. intros k Hk. rewrite Z.land_spec, Z.lnot_spec, Z.bits_0 by lia.
  pose proof (da_count _ _ Hacc) as Hc. pose proof (used_count d _ Hacc) as Hn.
  assert (all_rows_mask (service_count d) = Z.ones (service_count d)) as ->.
  { unfold all_rows_mask. rewrite Z.ones_equiv, Z.shiftl_1_l. destruct (Z.eqb_spec (service_count d) 64) as [->|]; [done|lia]. }
  destruct (Z.lt_ge_cases k (service_count d)); [by rewrite Z.ones_spec_low, andb_false_r by lia|].
  rewrite (vi_rest d _ _ Hv) by lia. done.
Qed.

Lemma initial_inv : broker_inv b.
Proof.
  pose proof (da_count _ _ Hacc). pose proof (da_dependencies _ _ Hacc).
  split; try done.
  - cbn. intros H1. pose proof (da_manifest _ _ Hacc) as Hm. by rewrite H1 in Hm.
  - intros i j Hij. change (rows_used b) with (services_used d) in Hij.
    rewrite !initial_identity by lia. by apply (identities_increase d _ Hacc).
  - intros i Hi. destruct (initial_row i Hi) as (mask & -> & _). pose proof (identity_positive d _ Hd Hacc i Hi).
    apply shape_idle; unfold tally; [done|ulia|left; split; [done|ulia]].
  - intros i Hi. destruct (initial_row i Hi) as (mask & -> & Hv). cbn. split; [by eapply mask_inside|].
    apply Z.eqb_eq. rewrite bit_clear, (vi_bit d _ _ Hv i Hi) by lia. apply negb_true_iff, bool_decide_eq_false.
    intros Ht. destruct (targets_services d _ Hd Hacc i _ Hi Ht) as (j & Hj & He & Hne). apply Hne.
    by apply (key_inj (identity_at d) (services_used d) (identities_increase d _ Hacc)).
Qed.

Lemma initial_ok : broker_ok b.
Proof. split; [apply initial_inv|]. done. Qed.

Lemma initial_shows : shows b (initial_fleet d epoch).
Proof.
  pose proof initial_inv as Hi.
  assert (forall t, f_members (initial_fleet d epoch) !! t = (fun i => member_of (row_at b i)) <$> find_row b t) as Hm.
  { intros t. destruct (find_row_spec b t Hi) as [(i & Hlt & -> & <-)|[-> Hn]].
    - rewrite initial_identity by done. cbn [f_members initial_fleet].
      rewrite (ids_map_lookup d _ Hacc (fun _ => MkMember 0 Idle false 0)) by done.
      destruct (initial_row i Hlt) as (mask & Hr & _). cbn [fmap option_fmap option_map]. by rewrite Hr.
    - cbn [f_members initial_fleet]. apply (ids_map_none d (fun _ => MkMember 0 Idle false 0)).
      intros i Hlt <-. apply (Hn i Hlt). by apply initial_identity. }
  split; try done.
  - cbn [f_roster initial_fleet]. apply map_ext_in. change (rows_used b) with (services_used d).
    intros i Hin%in_seq. symmetry. apply initial_identity. lia.
  - intros t i Hf. destruct (find_row_spec b t Hi) as [(j & Hlt & Hj & <-)|[Hj _]]; [|congruence].
    rewrite Hf in Hj. injection Hj as <-. rewrite initial_identity by done. unfold needs_of. cbn [f_needs initial_fleet].
    rewrite (ids_map_lookup d _ Hacc (fun i => list_to_set (targets d i))) by done. cbn [default].
    destruct (initial_row i Hlt) as (mask & -> & Hv). cbn [fresh_row lr_dependency_mask]. unfold mask_needs.
    apply set_eq. intros x. cbv [id]. rewrite !elem_of_list_to_set. split.
    + intros Hx. destruct (targets_services d _ Hd Hacc i x Hlt Hx) as (k & Hk & He & _). apply list_elem_of_fmap. exists k.
      rewrite initial_identity by done. split; [done|]. apply list_elem_of_filter. split; [|apply elem_of_seq; cbn; unfold rows_used; cbn; unfold services_used in Hk; lia].
      rewrite (vi_bit d _ _ Hv k Hk). apply bool_decide_eq_true. by rewrite He.
    + intros (k & -> & [Hb Hk%elem_of_seq]%list_elem_of_filter)%list_elem_of_fmap.
      change (rows_used b) with (services_used d) in Hk. rewrite initial_identity by lia.
      rewrite (vi_bit d _ _ Hv k ltac:(lia)) in Hb. by apply bool_decide_eq_true in Hb.
Qed.

End initialized.

Definition init_pointers_ok (addr plan_addr authority_addr epoch_addr : Z) : bool :=
  RangeIsValid addr sizeof_Broker && RangeIsValid plan_addr sizeof_Plan && RangeIsValid authority_addr sizeof_Authority &&
  RangeIsValid epoch_addr sizeof_BrokerEpoch &&
  negb (RangesOverlap addr sizeof_Broker plan_addr sizeof_Plan
        || RangesOverlap addr sizeof_Broker authority_addr sizeof_Authority
        || RangesOverlap addr sizeof_Broker epoch_addr sizeof_BrokerEpoch) &&
  negb (RangesOverlap plan_addr sizeof_Plan authority_addr sizeof_Authority
        || RangesOverlap plan_addr sizeof_Plan epoch_addr sizeof_BrokerEpoch
        || RangesOverlap authority_addr sizeof_Authority epoch_addr sizeof_BrokerEpoch).

Lemma initialize_exact addr b plan_addr plan authority_addr a epoch_addr epoch hash_addr :
  plan_shape plan -> length (sealed_object_hash a) = 32%nat -> hash_local_ok plan_addr hash_addr ->
  init_pointers_ok addr plan_addr authority_addr epoch_addr = true -> lb_initialized b = 0 -> epoch <> 0 ->
  (validated a plan /\ exists b',
     ServiceLifecycleBrokerInitialize addr b plan_addr plan authority_addr a epoch_addr epoch hash_addr = Some (LcOk, b', 0) /\
     broker_ok b' /\ shows b' (initial_fleet (plan_document plan) epoch)) \/
  (~ validated a plan /\
   ServiceLifecycleBrokerInitialize addr b plan_addr plan authority_addr a epoch_addr epoch hash_addr
   = Some (LcInvalidManifestPlan, b, epoch)).
Proof.
  intros Hp Hh Hl Hptr Hi He. unfold init_pointers_ok in Hptr.
  rewrite !andb_true_iff, !negb_true_iff in Hptr. destruct Hptr as (((((P1 & P2) & P3) & P4) & P5) & P6).
  unfold ServiceLifecycleBrokerInitialize. rewrite P1, P2, P3, P4, P5, P6, Hi. cbn [negb orb].
  change (0 =? 0) with true. cbn [negb]. unfold kServiceLifecycleInvalidBrokerEpoch. rewrite (proj2 (Z.eqb_neq _ _) He).
  pose proof (plan_canonical_iff plan_addr plan a hash_addr Hp Hh Hl) as Hiff.
  destruct (plan_canonical_answers plan_addr plan a hash_addr Hp Hl) as [Hc|Hc]; rewrite Hc.
  2: { right. split; [|done]. intros Hv. apply Hiff in Hv. congruence. }
  left. split; [by apply Hiff|]. clear Hiff.
  destruct (plan_canonical_exact _ _ _ _ Hp Hh Hl Hc) as (Hv & Hs & Hx & order & Hg & Hplan). cbv zeta in *.
  pose proof (ps_document _ Hp) as Hd. destruct (against_authority_ok _ a Hd Hv) as (Hauth & _ & _ & _ & Ha & _).
  destruct (initialize_rows_exact (plan_document plan) (Some a) Hd Ha (services_used (plan_document plan)) 0
    (replicate 64 zero_lifecycle_row)) as (rows & -> & Hlen & _ & Hrows); [lia|done|].
  destruct (authority_facts a Hauth) as [Hai Hah].
  assert (plan_authority_identity plan <> 0) as Hpa by (by rewrite Hplan).
  assert (HashIsNonZero (plan_sealed_object_hash plan) = true) as Hph by (by rewrite Hplan).
  assert (plan_sealed_object_extent plan = ServiceManifestEncodedSizeV1 (service_count (plan_document plan))
    (dependency_count (plan_document plan))) as Hpe by (rewrite Hplan at 1; done).
  assert (forall i, (i < services_used (plan_document plan))%nat ->
    exists mask, rows !! i = Some (fresh_row (identity_at (plan_document plan) i) mask) /\
      visits (plan_document plan) (targets (plan_document plan) i) mask) as Hr.
  { intros i Hlt. apply Hrows. split; [apply Nat.le_0_l|done]. }
  pose proof (initial_ok plan a epoch Hd Ha He Hpa Hph Hpe rows Hlen Hr) as Hok.
  change (MkBroker _ _ _ _ _ _ _ _ _ _ rows) with (initialized_broker plan epoch rows).
  rewrite (broker_canonical _ Hok). cbn [negb]. eexists. split; [done|]. split; [done|].
  by apply (initial_shows plan a epoch).
Qed.
