(* ===== verification/ServiceLifecycleRuns.v ===== *)
(** * Runs of broker calls

    Whole runs of calls on a broker built from a manifest plan: the broker
    runs as the promised fleet ([run_simulates]), the evidence a run leaves
    about a service moves forward only ([run_marks_forward]) and tells whether the
    service is ready ([run_ready]). *)

From S2P Require Import Prelude ServiceTransition Bytes Sha256.
From S2P Require Import ServiceManifest ServiceManifestGraph ServiceManifestCodec ServiceManifestProps.
From S2P Require Import ServiceLifecycleBroker ServiceLifecycleSpec ServiceLifecycleInv ServiceLifecycleSim.
From S2P Require Import ServiceLifecycleInit.

(** ** Runs *)

Section runs.
Context {D : Type} `{DirectoryPeer D}.

Fixpoint run_calls {S} (step : S -> call -> answer * S) (s : S) (cs : list call) : list answer * S :=
  match cs with
  | [] => ([], s)
  | c :: cs =>
      let '(a, s) := step s c in
      let '(answers, s) := run_calls step s cs in
      (a :: answers, s)
  end.

Lemma exec_simulates addr plan_out b f (dir : D) c : pointers_ok addr plan_out -> broker_ok b -> shows b f ->
  let '(a, (b', dir')) := exec addr plan_out (b, dir) c in
  exists f', f_exec (f, dir) c = (a, (f', dir')) /\ broker_ok b' /\ shows b' f'.
Proof.
  intros Hp Hok Hs. pose proof Hp as (Ha & _ & _).
  assert (forall {A} (x : A * ServiceLifecycleBroker) (y : A * fleet), sim x y ->
    exists r b' f', x = (r, b') /\ y = (r, f') /\ broker_ok b' /\ shows b' f') as Hsim.
  { intros A [r b'] [r' f'] (He & H1 & H2). cbn in *. subst. by exists r', b', f'. }
  destruct c; cbn [exec f_exec].
  - replace (if dependencies then _ else _) with (ReserveStartLocked b id expected now dependencies).
    2: { unfold ServiceLifecycleBrokerReserveStart, ServiceLifecycleBrokerReserveStartWithDependencies.
         rewrite (broker_ready b Hok addr Ha). by destruct dependencies. }
    destruct (Hsim _ _ _ (reserve_simulates b f dependencies id expected now Hok Hs)) as (r & b' & f' & -> & -> & ? & ?). eauto.
  - destruct (Hsim _ _ _ (spawn_failure_simulates addr b f Ha Hok Hs t now)) as (r & b' & f' & -> & -> & ? & ?). eauto.
  - destruct (Hsim _ _ _ (acknowledge_simulates addr b f Ha Hok Hs t now)) as (r & b' & f' & -> & -> & ? & ?). eauto.
  - destruct (Hsim _ _ _ (commit_simulates addr b f Ha Hok Hs t k now)) as (r & b' & f' & -> & -> & ? & ?). eauto.
  - pose proof (joint_simulates addr b f dir Ha Hok Hs t k now r) as Hj.
    destruct (ServiceLifecycleBrokerCommitDirectoryPublication _ _ _ _ _ _ _) as [[[res b'] dir'] held'].
    destruct (f_commit_joint _ _ _ _ _ _) as [[[res' held''] f'] dir'']. destruct Hj as ([= -> -> ->] & ? & ?). eauto.
  - pose proof (mark_ready_simulates addr b f dir Ha Hok Hs tok key) as Hj.
    destruct (ServiceLifecycleBrokerMarkReady _ _ _ _ _) as [[res b'] dir'].
    destruct (f_mark_ready _ _ _ _) as [[res' f'] dir'']. destruct Hj as ([= -> ->] & ? & ?). eauto.
  - destruct (Hsim _ _ _ (stop_simulates addr b f Ha Hok Hs id expected now)) as (r & b' & f' & -> & -> & ? & ?). eauto.
  - destruct (Hsim _ _ _ (observe_exit_simulates addr b f Ha Hok Hs tok now failed)) as (r & b' & f' & -> & -> & ? & ?). eauto.
  - pose proof (begin_drain_simulates addr plan_out b f now Hp Hok Hs) as Hj.
    destruct (ServiceLifecycleBrokerBeginDrain _ _ _ _) as [[s b'] plan]. destruct (f_begin_drain f now) as [[s' plan'] f'].
    destruct Hj as ([= -> ->] & ? & ?). eauto.
  - destruct (Hsim _ _ _ (finish_simulates addr b f Ha Hok Hs)) as (r & b' & f' & -> & -> & ? & ?). eauto.
Qed.

Lemma run_simulates addr plan_out cs : forall b f (dir : D), pointers_ok addr plan_out -> broker_ok b -> shows b f ->
  let '(answers, (b', dir')) := run_calls (exec addr plan_out) (b, dir) cs in
  exists f', run_calls f_exec (f, dir) cs = (answers, (f', dir')) /\ broker_ok b' /\ shows b' f'.
Proof.
  induction cs as [|c cs IH]; intros b f dir Hp Hok Hs; cbn [run_calls]; [by exists f|].
  pose proof (exec_simulates addr plan_out b f dir c Hp Hok Hs) as Hx.
  destruct (exec addr plan_out (b, dir) c) as [a [b1 dir1]]. destruct Hx as (f1 & -> & Hok1 & Hs1).
  specialize (IH b1 f1 dir1 Hp Hok1 Hs1). destruct (run_calls (exec addr plan_out) (b1, dir1) cs) as [answers [b2 dir2]].
  destruct IH as (f2 & -> & ? & ?). eauto.
Qed.

End runs.

(** A broker fresh from a successful initialization at [addr]. *)
Definition booted (addr : Z) (plan : ServiceManifestPlanV1) (a : ServiceManifestAuthoritySnapshotV1) (epoch : Z)
    (b : ServiceLifecycleBroker) : Prop :=
  plan_shape plan /\ length (sealed_object_hash a) = 32%nat /\
  exists b0 plan_addr authority_addr epoch_addr hash_addr left,
    hash_local_ok plan_addr hash_addr /\
    ServiceLifecycleBrokerInitialize addr b0 plan_addr plan authority_addr a epoch_addr epoch hash_addr = Some (LcOk, b, left).

Lemma booted_shows addr plan a epoch b : booted addr plan a epoch b ->
  broker_ok b /\ shows b (initial_fleet (plan_document plan) epoch) /\ validated a plan.
Proof.
  intros (Hp & Hh & b0 & paddr & aaddr & eaddr & haddr & left & Hl & H).
  assert (init_pointers_ok addr paddr aaddr eaddr = true /\ lb_initialized b0 = 0 /\ epoch <> 0) as (Hptr & Hi & He).
  { unfold ServiceLifecycleBrokerInitialize in H. peel H. unfold init_pointers_ok.
    repeat match goal with E : _ || _ = false |- _ => apply orb_false_iff in E as [? ?] end.
    rewrite ?negb_false_iff in *.
    repeat match goal with E : RangeIsValid _ _ = true |- _ => rewrite E end.
    repeat match goal with E : RangesOverlap _ _ _ _ = false |- _ => rewrite E end.
    split_and!; [done|by apply Z.eqb_eq|by apply Z.eqb_neq]. }
  destruct (initialize_exact addr b0 paddr plan aaddr a eaddr epoch haddr Hp Hh Hl Hptr Hi He)
    as [(Hv & b' & Hb & Hok & Hs)|[_ Hn]]; [|congruence].
  rewrite H in Hb. by simplify_eq.
Qed.

(** ** Epochs *)

(** The turns of any mints in any order, each with the value its mint last
    read and whether its exchange fails by chance; the epochs they return. *)
Fixpoint mint_turns (g : Z) (turns : list (Z * bool)) : list Z :=
  match turns with
  | [] => []
  | (current, spurious) :: turns =>
      let '(g, out) := mint_turn g current spurious in
      match out with
      | inl epoch => if epoch =? kServiceLifecycleInvalidBrokerEpoch then mint_turns g turns else epoch :: mint_turns g turns
      | inr _ => mint_turns g turns
      end
  end.

Lemma mint_turns_fresh turns : forall g, 0 < g <= u64_max ->
  StronglySorted Z.lt (mint_turns g turns) /\ Forall (fun e => g <= e) (mint_turns g turns).
Proof.
  induction turns as [|[current spurious] turns IH]; intros g Hg; cbn [mint_turns]; [by repeat constructor|].
  unfold mint_turn. destruct (Z.eqb_spec current u64_max) as [|Hmax]; [by apply IH|].
  destruct (Z.eqb_spec g current) as [->|]; cbn [andb]; [|by apply IH]. destruct spurious; cbn [negb]; [by apply IH|].
  unfold kServiceLifecycleInvalidBrokerEpoch. rewrite (proj2 (Z.eqb_neq current 0)) by lia.
  rewrite wrap64_small by ulia. destruct (IH (current + 1) ltac:(ulia)) as [Hs Hl].
  assert (Forall (fun e => current < e) (mint_turns (current + 1) turns)) by (eapply Forall_impl; [exact Hl|cbn; lia]).
  split; constructor; [done|done|lia|eapply Forall_impl; [done|cbn; lia]].
Qed.

(** ** Authority moves forward *)

(** How far a service has come: its generation, and within it building,
    published, told to end, ended. *)
Definition rank (st : stage) : Z :=
  match st with Building => 0 | Live _ => 1 | Cancelled | Killing _ => 2 | Idle | Spent => 3 end.
Definition position (f : fleet) (id : Z) : Z :=
  match f_members f !! id with Some m => 4 * m_minted m + rank (m_stage m) | None => 3 end.

Definition ticket_mark (id : Z) (step : Z) (t : ServiceLifecycleStartTicket) : list Z :=
  if ticket_service t =? id then [4 * ticket_generation (start_transition t) + step] else [].
Definition token_mark (id : Z) (step : Z) (tok : ServiceLifecycleInstanceToken) : list Z := ticket_mark id step (inst_start tok).

(** The steps of service [id] that a call and its answer are evidence of: the
    generation granted, published, told to end, or ended. *)
Definition marks (id : Z) (e : call * answer) : list Z :=
  match e with
  | (_, AnsStart (LcOk, t)) => ticket_mark id 0 t
  | (_, AnsPublication (LcOk, tok)) => token_mark id 1 tok
  | (_, AnsJoint (MkDirectoryPublication LcOk DirOk tok) _) => token_mark id 1 tok
  | (_, AnsStop (MkStop LcKillRequired tok _)) => token_mark id 2 tok
  | (_, AnsStop (MkStop LcStartCancelled _ t)) => ticket_mark id 2 t
  | (_, AnsDrain _ plan) =>
      flat_map (token_mark id 2) (plan_instances plan) ++ flat_map (ticket_mark id 2) (plan_cancelled_starts plan)
  | (CallSpawnFailure t _, AnsStatus LcOk) | (CallAcknowledge t _, AnsStatus LcOk) => ticket_mark id 3 t
  | (CallObserveExit tok _ _, AnsStatus LcOk) => token_mark id 3 tok
  | _ => []
  end.

(** One call: the service stays where it is without evidence, or moves
    forward to the position the evidence names, within its generation or to
    the grant of a later one, and is no longer ready. *)
Definition forward (p q : Z) : Prop := p < q /\ (q / 4 = p / 4 \/ q mod 4 = 0).
Definition up (f : fleet) (id : Z) : bool := is_ready (f_members f !! id).
Definition advances (f f' : fleet) (id : Z) (ms : list Z) : Prop :=
  (ms = [] /\ position f' id = position f id /\ up f' id = up f id) \/
  (exists p, ms = [p] /\ forward (position f id) p /\ position f' id = p /\ up f' id = false).

Lemma position_set f id m id' :
  position (set_member f id m) id' = if decide (id = id') then 4 * m_minted m + rank (m_stage m) else position f id'.
Proof.
  unfold position, set_member. cbn. case_decide; [subst; by rewrite lookup_insert_eq|by rewrite lookup_insert_ne].
Qed.

Lemma up_set f id m id' :
  up (set_member f id m) id' = if decide (id = id') then is_ready (Some m) else up f id'.
Proof.
  unfold up, set_member. cbn [f_members]. case_decide; [subst; by rewrite lookup_insert_eq|by rewrite lookup_insert_ne].
Qed.

Lemma advances_same f id : advances f f id [].
Proof. by left. Qed.

Lemma advances_still f id m m' id' :
  f_members f !! id = Some m -> m_minted m' = m_minted m -> rank (m_stage m') = rank (m_stage m) ->
  is_ready (Some m') = is_ready (Some m) -> advances f (set_member f id m') id' [].
Proof.
  intros Hm Hg Hr Hy. left. split; [done|]. rewrite position_set, up_set. case_decide; [subst|done].
  unfold position, up. rewrite Hm, Hy. split; [lia|done].
Qed.

Lemma rank_range st : 0 <= rank st <= 3.
Proof. destruct st; cbn; lia. Qed.

(** The member of the ticket's service moves to [m'], later in the same
    generation or freshly granted the next one. *)
Lemma advances_set f id m m' step t id' :
  f_members f !! id = Some m -> ticket_service t = id -> ticket_generation (start_transition t) = m_minted m' ->
  rank (m_stage m') = step ->
  (m_minted m' = m_minted m /\ rank (m_stage m) < step \/ m_minted m' = m_minted m + 1 /\ step = 0) ->
  is_ready (Some m') = false -> advances f (set_member f id m') id' (ticket_mark id' step t).
Proof.
  intros Hm Ht Hg Hr Hlt Hy. unfold advances, ticket_mark. rewrite position_set, up_set, Ht, Hg, Hr.
  destruct (Z.eqb_spec id id') as [->|Hne]; [|left; by rewrite !decide_False].
  right. rewrite !decide_True by done. eexists. split; [done|]. split; [|done]. unfold position, forward. rewrite Hm.
  pose proof (rank_range (m_stage m)). pose proof (rank_range (m_stage m')).
  split; [lia|]. destruct Hlt as [[-> ?]|[-> ->]]; [left|right]; Z.div_mod_to_equations; lia.
Qed.

Lemma select_member f id g now m : select f id g now = inr m -> f_members f !! id = Some m /\ m_minted m = g.
Proof.
  unfold select. destruct (f_members f !! id) as [m'|]; [|done]. destruct (Z.eqb_spec (m_minted m') g); cbn; [|done].
  destruct (now <? m_clock m'); [done|]. naive_solver.
Qed.

Lemma select_refusal f id g now s : select f id g now = inl s ->
  s = LcNotFound \/ s = LcStaleGeneration \/ s = LcInvalidTimestamp.
Proof. unfold select. intros H. repeat case_match; simplify_eq; auto. Qed.

Lemma publishable_refusal f t now s : publishable f t now = inl s -> s <> LcOk.
Proof.
  unfold publishable. intros H. destruct (check_ticket f t); try naive_solver. destruct (check_open f); try naive_solver.
  destruct (select_ticket f t now) as [s'|m] eqn:E; [|by destruct (m_stage m); simplify_eq].
  simplify_eq. by destruct (select_refusal _ _ _ _ _ E) as [->|[->| ->]].
Qed.

Lemma publishable_member f t now m : publishable f t now = inr m ->
  f_members f !! ticket_service t = Some m /\ m_minted m = ticket_generation (start_transition t) /\ m_stage m = Building.
Proof.
  unfold publishable. intros Hp.
  repeat first [progress simplify_eq | case_match]; match goal with E : select_ticket _ _ _ = _ |- _ => by apply select_member in E as [? ?] end.
Qed.

(** A refusal leaves no mark; a success moves the member it selected. *)
Ltac step_same :=
  match goal with
  | H : select _ _ _ _ = inl ?s |- _ => apply select_refusal in H as [->|[->| ->]]; apply advances_same
  | H : select_ticket _ _ _ = inl ?s |- _ => apply select_refusal in H as [->|[->| ->]]; apply advances_same
  | H : publishable _ _ _ = inl ?s |- _ => apply publishable_refusal in H; destruct s; try done; apply advances_same
  | _ => apply advances_same
  end.
Ltac step_set := eapply advances_set; [eassumption|done|cbn; lia|done|cbn; repeat match goal with E : m_stage _ = _ |- _ => rewrite E; clear E end; cbn; lia|done].

Lemma reserve_advances f deps id expected now id' :
  let '(r, f') := f_reserve f deps id expected now in
  advances f f' id' (marks id' (CallReserve deps id expected now, AnsStart r)).
Proof.
  unfold f_reserve. destruct (check_open f); try step_same.
  destruct (select f id expected now) as [s|m] eqn:Hm; [step_same|].
  apply select_member in Hm as [Hm <-]. case_bool_decide; [step_same|].
  destruct (deps && _); [step_same|]. destruct (m_stage m) eqn:Hst; try step_same.
  destruct (m_minted m =? u64_max); cbn -[Z.mul]; [|step_set].
  eapply advances_still; [done..|cbn; by rewrite Hst|]. destruct m; cbn in *. by rewrite Hst.
Qed.

Lemma retired_rank g : rank (retired g) = 3.
Proof. unfold retired. by case_match. Qed.

Lemma retired_unready g ns : is_ready (Some (MkMember g (retired g) false ns)) = false.
Proof. unfold retired. by case_match. Qed.

Lemma spawn_failure_advances f t now id' :
  let '(r, f') := f_spawn_failure f t now in advances f f' id' (marks id' (CallSpawnFailure t now, AnsStatus r)).
Proof.
  unfold f_spawn_failure. destruct (check_ticket f t); try step_same. destruct (check_not_closed f); try step_same.
  destruct (select_ticket f t now) as [s|m] eqn:Hm; [step_same|]. apply select_member in Hm as [Hm Hg].
  destruct (m_stage m) eqn:Hst; try step_same. step_set.
Qed.

Lemma acknowledge_advances f t now id' :
  let '(r, f') := f_acknowledge f t now in advances f f' id' (marks id' (CallAcknowledge t now, AnsStatus r)).
Proof.
  unfold f_acknowledge. destruct (check_ticket f t); try step_same. destruct (check_not_closed f); try step_same.
  destruct (select_ticket f t now) as [s|m] eqn:Hm; [step_same|]. apply select_member in Hm as [Hm Hg].
  destruct (m_stage m) eqn:Hst; try step_same. 
  eapply advances_set; [done..|cbn; lia|apply retired_rank|cbn; rewrite Hst; cbn; lia|apply retired_unready].
Qed.

Lemma commit_advances f t k now id' :
  let '(r, f') := f_commit f t k now in advances f f' id' (marks id' (CallCommit t k now, AnsPublication r)).
Proof.
  unfold f_commit. destruct (publishable f t now) as [s|m] eqn:Hm; [step_same|].
  apply publishable_member in Hm as (Hm & Hg & Hst). destruct (ServiceInstanceKeyIsValid k); [|step_same].
  cbn [marks]. unfold token_mark. step_set.
Qed.

Lemma stop_advances f id expected now id' :
  let '(r, f') := f_stop f id expected now in advances f f' id' (marks id' (CallStop id expected now, AnsStop r)).
Proof.
  unfold f_stop, check_not_closed. destruct (f_mode f); try step_same;
  (destruct (select f id expected now) as [s|m] eqn:Hm; [step_same|]); apply select_member in Hm as [Hm <-];
  destruct (m_stage m) eqn:Hst; try step_same; cbn [marks]; unfold token_mark; step_set.
Qed.

Lemma observe_exit_advances f tok now failed id' :
  let '(r, f') := f_observe_exit f tok now in
  advances f f' id' (marks id' (CallObserveExit tok now failed, AnsStatus r)).
Proof.
  unfold f_observe_exit. destruct (check_token f tok); try step_same. destruct (check_not_closed f); try step_same.
  destruct (select_ticket f (inst_start tok) now) as [s|m] eqn:Hm; [step_same|]. apply select_member in Hm as [Hm Hg].
  destruct (m_stage m) eqn:Hst; try step_same; (case_decide; [|step_same]); cbn [marks]; unfold token_mark;
    (eapply advances_set; [done..|cbn; lia| |cbn; rewrite Hst; cbn; lia|]); [done|done|apply retired_rank|apply retired_unready].
Qed.

(** *** A drain tells each service once *)

Definition plan_marks (id : Z) (plan : ServiceLifecycleDrainPlan) : list Z :=
  flat_map (token_mark id 2) (plan_instances plan) ++ flat_map (ticket_mark id 2) (plan_cancelled_starts plan).

Lemma drain_one_advances f id now plan id' :
  let '(f', plan') := f_drain_one f id now plan in
  exists insts starts, plan' = MkDrainPlan (plan_instances plan ++ insts) (plan_cancelled_starts plan ++ starts) /\
    advances f f' id' (plan_marks id' (MkDrainPlan insts starts)) /\
    (id <> id' -> plan_marks id' (MkDrainPlan insts starts) = []).
Proof.
  assert (forall step t, ticket_service t = id -> id <> id' -> ticket_mark id' step t = []) as Hoff.
  { intros step t <- ?. unfold ticket_mark. by destruct (Z.eqb_spec (ticket_service t) id'). }
  assert (exists insts starts, plan = MkDrainPlan (plan_instances plan ++ insts) (plan_cancelled_starts plan ++ starts) /\
    advances f f id' (plan_marks id' (MkDrainPlan insts starts)) /\
    (id <> id' -> plan_marks id' (MkDrainPlan insts starts) = [])) as Hsame.
  { exists [], []. rewrite !app_nil_r. destruct plan. split_and!; [done|step_same|done]. }
  unfold f_drain_one. destruct (f_members f !! id) as [m|] eqn:Hm; [|done].
  destruct (m_stage m) eqn:Hst; try done.
  - exists [], [MkStart (f_epoch f) (MkTicket id (m_minted m))].
    unfold plan_marks; cbn [plan_instances plan_cancelled_starts flat_map app]. rewrite !app_nil_r.
    split_and!; [done| |by apply Hoff]. step_set.
  - exists [MkInstance (MkStart (f_epoch f) (MkTicket id (m_minted m))) k], [].
    unfold plan_marks; cbn [plan_instances plan_cancelled_starts flat_map app]. rewrite !app_nil_r.
    split_and!; [done| |by apply Hoff]. unfold token_mark. step_set.
Qed.

Lemma plan_marks_app id insts starts insts' starts' :
  plan_marks id (MkDrainPlan insts starts) = [] \/ plan_marks id (MkDrainPlan insts' starts') = [] ->
  plan_marks id (MkDrainPlan (insts ++ insts') (starts ++ starts')) =
  plan_marks id (MkDrainPlan insts starts) ++ plan_marks id (MkDrainPlan insts' starts').
Proof.
  unfold plan_marks; cbn [plan_instances plan_cancelled_starts]. rewrite !flat_map_app.
  intros [[-> ->]%app_nil|[-> ->]%app_nil]; cbn; by rewrite ?app_nil_r.
Qed.

Lemma advances_trans f1 f2 f3 id ms ms' : advances f1 f2 id ms -> advances f2 f3 id ms' -> ms = [] \/ ms' = [] ->
  advances f1 f3 id (ms ++ ms').
Proof.
  intros [(-> & H1 & R1)|(p & -> & H1 & H1' & R1)] [(-> & H2 & R2)|(q & -> & H2 & H2' & R2)] Ho; unfold advances; cbn;
    rewrite ?H1, ?H2, ?H1', ?H2', ?R1, ?R2 in *; eauto 6; by destruct Ho.
Qed.

Lemma drain_all_advances now id' ids : forall f plan, NoDup ids ->
  let '(f', plan') := f_drain_all ids f now plan in
  exists insts starts, plan' = MkDrainPlan (plan_instances plan ++ insts) (plan_cancelled_starts plan ++ starts) /\
    advances f f' id' (plan_marks id' (MkDrainPlan insts starts)) /\
    (id' ∉ ids -> plan_marks id' (MkDrainPlan insts starts) = []).
Proof.
  induction ids as [|id ids IH]; intros f plan Hnd; cbn [f_drain_all].
  { exists [], []. rewrite !app_nil_r. destruct plan. split_and!; [done|step_same|done]. }
  apply NoDup_cons in Hnd as [Hin Hnd].
  pose proof (drain_one_advances f id now plan id') as H1. destruct (f_drain_one f id now plan) as [f1 plan1].
  destruct H1 as (i1 & s1 & Hp1 & Ha1 & Ho1). specialize (IH f1 plan1 Hnd).
  destruct (f_drain_all ids f1 now plan1) as [f2 plan2]. destruct IH as (i2 & s2 & -> & Ha2 & Ho2). subst plan1.
  assert (plan_marks id' (MkDrainPlan i1 s1) = [] \/ plan_marks id' (MkDrainPlan i2 s2) = []) as Ho.
  { destruct (decide (id = id')) as [->|]; auto. }
  exists (i1 ++ i2), (s1 ++ s2). cbn [plan_instances plan_cancelled_starts]. rewrite <- !app_assoc.
  rewrite plan_marks_app by done. split_and!; [done|by eapply advances_trans|].
  intros Hn. apply not_elem_of_cons in Hn as [? ?]. by rewrite Ho1, Ho2.
Qed.

Lemma begin_drain_advances f now id' : NoDup (f_roster f) ->
  let '(r, plan, f') := f_begin_drain f now in advances f f' id' (marks id' (CallBeginDrain now, AnsDrain r plan)).
Proof.
  intros Hnd. unfold f_begin_drain. destruct (check_open f); try step_same. destruct (existsb _ _); [step_same|].
  pose proof (drain_all_advances now id' (f_roster f) (set_mode f BrokerDraining) empty_drain_plan Hnd) as Hd.
  destruct (f_drain_all _ _ _ _) as [f' plan]. destruct Hd as (insts & starts & -> & Ha & _). exact Ha.
Qed.

Section steps.
Context {D : Type} `{DirectoryPeer D}.
Implicit Type dir : D.

Lemma joint_advances f dir t k now held id' :
  let '(r, held', f', dir') := f_commit_joint f dir t k now held in
  advances f f' id' (marks id' (CallCommitJoint t k now held, AnsJoint r held')).
Proof.
  unfold f_commit_joint. destruct (negb _); [step_same|].
  destruct (publishable f t now) as [s|m] eqn:Hm; [step_same|].
  apply publishable_member in Hm as (Hm & Hg & Hst). destruct (ServiceInstanceKeyIsValid k); [|step_same].
  destruct (peer_publish _ _ _) as [[st dir'] held'].
  case_decide; [cbn [marks]; unfold token_mark; step_set|]. destruct st; try done; step_same.
Qed.

(** The directory and the broker have announced service [id] ready. *)
Definition announced (id : Z) (e : call * answer) : bool :=
  match e with (CallMarkReady tok _, AnsReady (LcOk, DirOk)) => token_service tok =? id | _ => false end.

(** Whether a service is ready after a call, from what it and its answer are
    evidence of. *)
Definition ready_after (id : Z) (was : bool) (e : call * answer) : bool :=
  match marks id e with [] => announced id e || was | _ => false end.

Lemma mark_ready_announces f dir tok key id' :
  let '(r, f', dir') := f_mark_ready f dir tok key in
  position f' id' = position f id' /\ up f' id' = announced id' (CallMarkReady tok key, AnsReady r) || up f id'.
Proof.
  unfold f_mark_ready. destruct (check_token f tok); try done. destruct (check_open f); try done.
  destruct (f_members f !! token_service tok) as [m|] eqn:Hm; [|done].
  destruct (negb _); [done|]. case_decide as Hst; [|done].
  destruct (peer_joint_ready _ _ _ _) as [[st dir'] w]. destruct st; (case_decide; [|done]); try done.
  rewrite position_set, up_set. cbn [announced]. destruct (Z.eqb_spec (token_service tok) id') as [<-|Hne].
  - rewrite !decide_True by done. unfold position. rewrite Hm. cbn. by rewrite Hst.
  - by rewrite !decide_False.
Qed.

(** One call moves a service forward, or leaves it where it is and at most
    announces it. *)
Lemma exec_follows f dir c id : NoDup (f_roster f) ->
  let '(a, (f', dir')) := f_exec (f, dir) c in
  up f' id = ready_after id (up f id) (c, a) /\
  ((marks id (c, a) = [] /\ position f' id = position f id) \/
   (exists p, marks id (c, a) = [p] /\ forward (position f id) p /\ position f' id = p)).
Proof.
  intros Hnd.
  assert (forall f' a, announced id (c, a) = false -> advances f f' id (marks id (c, a)) ->
    up f' id = ready_after id (up f id) (c, a) /\
    ((marks id (c, a) = [] /\ position f' id = position f id) \/
     (exists p, marks id (c, a) = [p] /\ forward (position f id) p /\ position f' id = p))) as Hx.
  { intros f' a Hn Ha. unfold ready_after. rewrite Hn. destruct Ha as [(-> & ? & ->)|(p & -> & ? & ? & ->)]; eauto 6. }
  destruct c; cbn [f_exec].
  - pose proof (reserve_advances f dependencies id0 expected now id). destruct (f_reserve _ _ _ _ _). by apply Hx.
  - pose proof (spawn_failure_advances f t now id). destruct (f_spawn_failure _ _ _). by apply Hx.
  - pose proof (acknowledge_advances f t now id). destruct (f_acknowledge _ _ _). by apply Hx.
  - pose proof (commit_advances f t k now id). destruct (f_commit _ _ _ _). by apply Hx.
  - pose proof (joint_advances f dir t k now r id). destruct (f_commit_joint _ _ _ _ _ _) as [[[??]?]?]. by apply Hx.
  - pose proof (mark_ready_announces f dir tok key id). destruct (f_mark_ready _ _ _ _) as [[??]?]. naive_solver.
  - pose proof (stop_advances f id0 expected now id). destruct (f_stop _ _ _ _). by apply Hx.
  - pose proof (observe_exit_advances f tok now failed id). destruct (f_observe_exit _ _ _). by apply Hx.
  - pose proof (begin_drain_advances f now id Hnd). destruct (f_begin_drain _ _) as [[??]?]. by apply Hx.
  - assert (advances f (f_finish_drain f).2 id (marks id (CallFinishDrain, AnsStatus (f_finish_drain f).1))) as Hf
      by (unfold f_finish_drain; repeat case_match; by left).
    destruct (f_finish_drain f). by apply Hx.
Qed.

Lemma drain_all_fixed now ids : forall f plan, let f' := (f_drain_all ids f now plan).1 in
  f_roster f' = f_roster f /\ f_needs f' = f_needs f /\ f_epoch f' = f_epoch f /\ f_mode f' = f_mode f.
Proof.
  induction ids as [|id ids IH]; intros g plan; cbn [f_drain_all]; [done|].
  unfold f_drain_one. destruct (f_members g !! id) as [m|]; [|apply IH]. destruct (m_stage m); apply IH || exact (IH (set_member g id _) _).
Qed.

(** The roster and the dependencies of a fleet never change. *)
Lemma exec_fixed f dir c : f_roster (f_exec (f, dir) c).2.1 = f_roster f /\ f_needs (f_exec (f, dir) c).2.1 = f_needs f.
Proof.
  destruct c; cbn [f_exec]; unfold f_reserve, f_spawn_failure, f_acknowledge, f_commit, f_commit_joint, f_mark_ready,
    f_stop, f_observe_exit, f_finish_drain; try by (repeat first [progress simplify_eq | done | case_match]).
  unfold f_begin_drain. destruct (check_open f); try done. destruct (existsb _ _); [done|].
  destruct (drain_all_fixed now (f_roster f) (set_mode f BrokerDraining) empty_drain_plan) as (H1 & H2 & _).
  by destruct (f_drain_all _ _ _ _).
Qed.

Lemma run_fixed cs : forall f dir, f_roster (run_calls f_exec (f, dir) cs).2.1 = f_roster f /\
  f_needs (run_calls f_exec (f, dir) cs).2.1 = f_needs f.
Proof.
  induction cs as [|c cs IH]; intros f dir; cbn [run_calls]; [done|]. destruct (exec_fixed f dir c) as [<- <-].
  destruct (f_exec (f, dir) c) as [a [f1 dir1]]. cbn [fst snd]. destruct (IH f1 dir1) as [<- <-]. by destruct (run_calls f_exec _ cs).
Qed.

(** The evidence a run leaves about one service. *)
Definition history (id : Z) (cs : list call) (answers : list answer) : list Z := flat_map (marks id) (zip cs answers).

Lemma run_marks_forward id cs : forall f dir, NoDup (f_roster f) ->
  let ms := history id cs (run_calls f_exec (f, dir) cs).1 in
  StronglySorted Z.lt ms /\ Forall (fun q => position f id < q) ms /\
  Forall (fun q => q / 4 = position f id / 4 \/ 4 * (q / 4) ∈ ms) ms.
Proof.
  induction cs as [|c cs IH]; intros f dir Hnd; cbn [run_calls]; [by repeat constructor|].
  pose proof (exec_follows f dir c id Hnd) as Ha. destruct (exec_fixed f dir c) as [Hr _].
  destruct (f_exec (f, dir) c) as [a [f1 dir1]]. cbn in Hr. rewrite <- Hr in Hnd.
  specialize (IH f1 dir1 Hnd). destruct (run_calls f_exec (f1, dir1) cs) as [answers s2]. cbn [fst] in *.
  unfold history in *. cbn [zip_with flat_map]. set (ms := flat_map _ _) in *. destruct IH as (Hs & Hl & Hg).
  destruct Ha as [_ [[-> <-]|(p & -> & [Hlt Hp] & <-)]]; cbn [app]; [done|]. split_and!.
  - by constructor.
  - constructor; [done|]. eapply Forall_impl; [exact Hl|]. cbn. intros q Hq. lia.
  - assert (position f1 id / 4 = position f id / 4 \/ 4 * (position f1 id / 4) ∈ position f1 id :: ms) as Hq.
    { destruct Hp as [?|Hp]; [by left|right]. apply elem_of_cons; left. Z.div_mod_to_equations. lia. }
    constructor; [done|]. eapply Forall_impl; [exact Hg|]. cbn. intros q [->|Hq']; [done|right; set_solver].
Qed.

(** Whether the evidence of a run says that service [id] is ready. *)
Definition ready_in (id : Z) (cs : list call) (answers : list answer) : bool :=
  fold_left (ready_after id) (zip cs answers) false.

Lemma run_ready id cs : forall f dir, NoDup (f_roster f) ->
  let '(answers, (f', dir')) := run_calls f_exec (f, dir) cs in
  up f' id = fold_left (ready_after id) (zip cs answers) (up f id).
Proof.
  induction cs as [|c cs IH]; intros f dir Hnd; cbn [run_calls]; [done|].
  pose proof (exec_follows f dir c id Hnd) as Ha. destruct (exec_fixed f dir c) as [Hr _].
  destruct (f_exec (f, dir) c) as [a [f1 dir1]]. cbn in Hr. rewrite <- Hr in Hnd. specialize (IH f1 dir1 Hnd).
  destruct (run_calls f_exec (f1, dir1) cs) as [answers [f2 dir2]]. cbn [zip_with fold_left].
  destruct Ha as [<- _]. done.
Qed.

End steps.
