(* ===== verification/ServiceLifecycleDrain.v ===== *)
(** * A drain completes

    What a drained broker still waits for, and that it can be had in any
    order: every cancelled start is acknowledged and every killed instance
    observed to exit, after which the broker closes. *)

From S2P Require Import Prelude ServiceTransition Bytes Sha256.
From S2P Require Import ServiceManifest ServiceManifestGraph ServiceLifecycleBroker.
From S2P Require Import ServiceLifecycleSpec ServiceLifecycleInv ServiceLifecycleSim ServiceLifecycleRuns.

(** The call that settles row [i] of a draining broker, if it waits for one. *)
Definition settlement (b : ServiceLifecycleBroker) (later : Z) (failed : Z -> bool) (i : nat) : list call :=
  let row := row_at b i in
  let ticket := MkStart (lb_epoch b) (MkTicket (row_identity row) (row_generation row)) in
  if builder_eqb (lr_builder_state row) BuilderCancelledAwaitingRetirement then [CallAcknowledge ticket later]
  else if phase_eqb (row_phase row) Stopping
  then [CallObserveExit (MkInstance ticket (instance (lr_transition row))) later (failed (row_identity row))]
  else [].

Definition f_settlement (f : fleet) (later : Z) (failed : Z -> bool) (id : Z) : list call :=
  match f_members f !! id with
  | Some m =>
      let ticket := MkStart (f_epoch f) (MkTicket id (m_minted m)) in
      match m_stage m with
      | Cancelled => [CallAcknowledge ticket later]
      | Killing k => [CallObserveExit (MkInstance ticket k) later (failed id)]
      | _ => []
      end
  | None => []
  end.

Lemma settlement_shows b f later failed i : broker_ok b -> shows b f -> (i < rows_used b)%nat ->
  settlement b later failed i = f_settlement f later failed (row_identity (row_at b i)).
Proof.
  intros Hok Hs Hlt. destruct Hok as [Hi _]. unfold settlement, f_settlement.
  rewrite (sh_members _ _ Hs), find_row_at by done. cbn [fmap option_fmap option_map].
  rewrite (sh_epoch _ _ Hs). pose proof (bi_shape _ Hi i Hlt) as Hsh. remember (row_at b i) as r.
  shape_cases Hsh; unfold row_phase, stage_of; cbn; try done.
  - destruct Hph as [[-> ?]|[[->| ->] ?]]; done.
  - subst ph. by destruct (g =? u64_max).
Qed.

(** A member that can be settled at [later]. *)
Definition settleable (f : fleet) (later id : Z) (m : member) : Prop :=
  m_clock m <= later /\
  match m_stage m with
  | Building | Live _ => False
  | Cancelled => ServiceLifecycleStartTicketIsValid (MkStart (f_epoch f) (MkTicket id (m_minted m))) = true
  | Killing k =>
      ServiceLifecycleInstanceTokenIsValid (MkInstance (MkStart (f_epoch f) (MkTicket id (m_minted m))) k) = true
  | Idle | Spent => True
  end.

Lemma row_settleable b f i later : broker_ok b -> shows b f -> (i < rows_used b)%nat -> lb_state b = BrokerDraining ->
  lr_last_transition_ns (row_at b i) <= later ->
  settleable f later (row_identity (row_at b i)) (member_of (row_at b i)).
Proof.
  intros [Hi Hq] Hs Hlt Hd Hc. split; [done|]. specialize (Hq i Hlt). rewrite Hd in Hq.
  pose proof (bi_epoch _ Hi) as He. pose proof (bi_shape _ Hi i Hlt) as Hsh. rewrite (sh_epoch _ _ Hs). cbn [member_of m_stage].
  unfold ServiceLifecycleInstanceTokenIsValid, ServiceLifecycleStartTicketIsValid, ServiceStartTicketIsValid,
    kServiceLifecycleInvalidBrokerEpoch, kInvalidServiceTransitionIdentity.
  cbn [inst_start inst_process start_epoch start_transition ticket_service_identity ticket_generation m_minted member_of].
  rewrite (proj2 (Z.eqb_neq _ _) He). clear Hc. remember (row_at b i) as r.
  shape_cases Hsh; unfold row_identity, row_generation, stage_of, row_phase in *; cbn in *; try done.
  - by destruct Hph as [[-> ?]|[[->| ->] ?]].
  - subst ph. destruct (g =? u64_max); cbn; rewrite !(proj2 (Z.eqb_neq _ _)) by lia; done.
  - rewrite !(proj2 (Z.eqb_neq _ _)) by lia. done.
Qed.

Lemma flat_map_ext_in' {A B} (g h : A -> list B) l : (forall x, In x l -> g x = h x) -> flat_map g l = flat_map h l.
Proof.
  induction l as [|x l IH]; intros Hx; cbn; [done|]. rewrite (Hx x) by (by left). f_equal. apply IH. intros. apply Hx. by right.
Qed.

Lemma flat_map_map {A B C} (g : B -> list C) (h : A -> B) l : flat_map (fun x => g (h x)) l = flat_map g (map h l).
Proof. induction l as [|x l IH]; cbn; [done|by rewrite IH]. Qed.

(** The roster a broker shows lists its rows, each service once. *)
Lemma roster_nodup b f : broker_ok b -> shows b f -> NoDup (f_roster f).
Proof.
  intros [Hi _] Hs. rewrite (sh_roster _ _ Hs). apply NoDup_fmap_2_strong; [|apply NoDup_seq].
  intros i j Hi'%elem_of_seq Hj%elem_of_seq He.
  destruct (lt_eq_lt_dec i j) as [[Hlt|]|Hlt]; [|done|]; pose proof (bi_sorted _ Hi) as Hb;
    [specialize (Hb i j)|specialize (Hb j i)]; lia.
Qed.

Lemma roster_length b f : shows b f -> length (f_roster f) = rows_used b.
Proof. intros Hs. by rewrite (sh_roster _ _ Hs), length_map, length_seq. Qed.

Section settle.
Context {D : Type} `{DirectoryPeer D}.

Lemma run_calls_app {S} (step : S -> call -> answer * S) cs cs' : forall s,
  run_calls step s (cs ++ cs') =
  let '(a, s) := run_calls step s cs in let '(a', s) := run_calls step s cs' in (a ++ a', s).
Proof.
  induction cs as [|c cs IH]; intros s; cbn [run_calls app]; [by destruct (run_calls step s cs')|].
  destruct (step s c) as [a s1]. rewrite IH. destruct (run_calls step s1 cs) as [a1 s2]. by destruct (run_calls step s2 cs').
Qed.

Lemma settle_one f (dir : D) later failed id m : f_mode f = BrokerDraining -> f_members f !! id = Some m ->
  settleable f later id m ->
  exists m', busy (Some m') = false /\
    let '(a, s) := run_calls f_exec (f, dir) (f_settlement f later failed id) in
    Forall (eq (AnsStatus LcOk)) a /\ s = (set_member f id m', dir).
Proof.
  intros Hmode Hm [Hc Hv]. unfold f_settlement. rewrite Hm.
  assert (set_member f id m = f) as Hid by (destruct f; unfold set_member; cbn in *; by rewrite insert_id).
  assert (forall st, busy (Some (MkMember (m_minted m) (retired st) false later)) = false) as Hret
    by (intros st; unfold retired; by destruct (st =? u64_max)).
  assert (check_not_closed f = LcOk) as Hopen by (unfold check_not_closed; by rewrite Hmode).
  assert (now_ok : later <? m_clock m = false) by (apply Z.ltb_ge; lia).
  destruct (m_stage m) eqn:Hst; try done.
  - exists m. destruct m; cbn in *; subst. by rewrite Hid.
  - exists m. destruct m; cbn in *; subst. by rewrite Hid.
  - eexists. split; [apply Hret|]. cbn [run_calls f_exec]. unfold f_acknowledge, check_ticket, select_ticket, select.
    rewrite Hv, Hopen. cbn [negb start_epoch start_transition ticket_service_identity ticket_generation].
    rewrite Z.eqb_refl, Hm, Z.eqb_refl, now_ok. cbn [negb]. rewrite Hst. split; [by repeat constructor|done].
  - eexists. split; [apply Hret|]. cbn [run_calls f_exec]. unfold f_observe_exit, check_token, select_ticket, select.
    rewrite Hv, Hopen. cbn [negb inst_start inst_process start_epoch start_transition ticket_service_identity ticket_generation].
    rewrite Z.eqb_refl, Hm, Z.eqb_refl, now_ok. cbn [negb]. rewrite Hst. rewrite decide_True by done.
    split; [by repeat constructor|done].
Qed.

Lemma settle_all later failed ids : forall f (dir : D), NoDup ids -> f_mode f = BrokerDraining ->
  (forall id, id ∈ ids -> exists m, f_members f !! id = Some m /\ settleable f later id m) ->
  exists f', let '(a, s) := run_calls f_exec (f, dir) (flat_map (f_settlement f later failed) ids) in
    Forall (eq (AnsStatus LcOk)) a /\ s = (f', dir) /\ f_mode f' = BrokerDraining /\ f_roster f' = f_roster f /\
    forall id, if decide (id ∈ ids) then busy (f_members f' !! id) = false else f_members f' !! id = f_members f !! id.
Proof.
  induction ids as [|id ids IH]; intros f dir Hnd Hmode Hall; cbn [flat_map].
  { exists f. cbn. by split_and!. }
  apply NoDup_cons in Hnd as [Hin Hnd]. destruct (Hall id) as (m & Hm & Hset); [set_solver|].
  destruct (settle_one f dir later failed id m Hmode Hm Hset) as (m' & Hb & H1).
  rewrite run_calls_app. destruct (run_calls f_exec (f, dir) _) as [a1 s1]. destruct H1 as [Ha1 ->].
  assert (forall id', id' ∈ ids -> f_members (set_member f id m') !! id' = f_members f !! id') as Hrest.
  { intros id' Hid'. cbn. rewrite lookup_insert_ne; [done|]. by intros ->. }
  rewrite (flat_map_ext_in' (f_settlement f later failed) (f_settlement (set_member f id m') later failed)).
  2: { intros id' Hid'%list_elem_of_In. unfold f_settlement. by rewrite Hrest. }
  destruct (IH (set_member f id m') dir Hnd) as (f' & H2); [done| |].
  { intros id' Hid'. rewrite Hrest by done. by destruct (Hall id') as (m2 & ? & ?); [set_solver|eauto]. }
  exists f'. destruct (run_calls f_exec _ (flat_map _ ids)) as [a2 s2]. destruct H2 as (Ha2 & -> & Hmode' & Hr & Hmem).
  split_and!; try done; [by apply Forall_app|]. intros id'. specialize (Hmem id').
  destruct (decide (id' ∈ ids)); [by rewrite decide_True by set_solver|]. rewrite Hmem.
  destruct (decide (id' = id)) as [->|Hne].
  - rewrite decide_True by set_solver. cbn. by rewrite lookup_insert_eq.
  - rewrite decide_False by set_solver. cbn. by rewrite lookup_insert_ne.
Qed.

Lemma drain_all_clocks now ids : forall f plan, (forall id m, f_members f !! id = Some m -> m_clock m <= now) ->
  forall id m, f_members (f_drain_all ids f now plan).1 !! id = Some m -> m_clock m <= now.
Proof.
  induction ids as [|id ids IH]; intros f plan Hc; cbn [f_drain_all]; [done|].
  assert (forall m', m_clock m' <= now -> forall id0 m, f_members (set_member f id m') !! id0 = Some m -> m_clock m <= now) as Hset.
  { intros m' Hm' id0 m. cbn. rewrite lookup_insert_Some. intros [[_ <-]|[_ ?]]; [done|by eapply Hc]. }
  unfold f_drain_one. destruct (f_members f !! id) as [m|]; [|by apply IH].
  destruct (m_stage m); apply IH; try done; apply Hset; cbn; lia.
Qed.

Lemma f_begin_drain_ok f now : f_mode f = BrokerOpen -> (forall id m, f_members f !! id = Some m -> m_clock m <= now) ->
  exists plan f', f_begin_drain f now = (LcOk, plan, f') /\ f_mode f' = BrokerDraining /\
    forall id m, f_members f' !! id = Some m -> m_clock m <= now.
Proof.
  intros Hmode Hc. unfold f_begin_drain, check_open. rewrite Hmode.
  destruct (existsb (clock_after f now) (f_roster f)) eqn:E.
  { apply existsb_exists in E as (id & _ & E). unfold clock_after in E. destruct (f_members f !! id) as [m|] eqn:Hm; [|done].
    specialize (Hc id m Hm). lia. }
  pose proof (drain_all_clocks now (f_roster f) (set_mode f BrokerDraining) empty_drain_plan Hc) as Hcl.
  destruct (drain_all_fixed now (f_roster f) (set_mode f BrokerDraining) empty_drain_plan) as (_ & _ & _ & Hm).
  destruct (f_drain_all _ _ _ _) as [f' plan]. eauto.
Qed.

(** From an open broker: the drain begins, what it waits for is settled in any
    order, and it closes. *)
Lemma drain_completes addr plan_out b f (dir : D) now later failed order :
  pointers_ok addr plan_out -> broker_ok b -> shows b f -> lb_state b = BrokerOpen ->
  (forall i, (i < rows_used b)%nat -> lr_last_transition_ns (row_at b i) <= now) -> now <= later ->
  Permutation order (seq 0 (rows_used b)) ->
  exists plan b1, exec addr plan_out (b, dir) (CallBeginDrain now) = (AnsDrain LcOk plan, (b1, dir)) /\
    let '(answers, (b2, _)) :=
      run_calls (exec addr plan_out) (b1, dir) (flat_map (settlement b1 later failed) order ++ [CallFinishDrain]) in
    Forall (eq (AnsStatus LcOk)) answers /\ lb_state b2 = BrokerClosed.
Proof.
  intros Hp Hok Hs Hopen Hclock Hlater Horder.
  destruct (f_begin_drain_ok f now) as (plan & f1 & Hb & Hmode & Hc1).
  { by rewrite (sh_mode _ _ Hs). }
  { intros id m. rewrite (sh_members _ _ Hs). destruct (find_row_spec b id (proj1 Hok)) as [(i & Hi & -> & _)|[-> _]]; [|done].
    cbn. intros [= <-]. by apply Hclock. }
  pose proof (exec_simulates addr plan_out b f dir (CallBeginDrain now) Hp Hok Hs) as Hx. cbn [f_exec] in Hx.
  assert (rows_used (exec addr plan_out (b, dir) (CallBeginDrain now)).2.1 = rows_used b) as Hused.
  { pose proof (exec_fixed f dir (CallBeginDrain now)) as [Hr _].
    destruct (exec addr plan_out (b, dir) (CallBeginDrain now)) as [a [b1 dir1]]. destruct Hx as (f1' & He & _ & Hs1).
    cbn [f_exec] in Hr. rewrite He in Hr. cbn [fst snd] in *. by rewrite <- (roster_length _ _ Hs), <- Hr, <- (roster_length _ _ Hs1). }
  destruct (exec addr plan_out (b, dir) (CallBeginDrain now)) as [a [b1 dir1]].
  destruct Hx as (f1' & He & Hok1 & Hs1). rewrite Hb in He. simplify_eq. cbn [fst snd] in Hused.
  exists plan, b1. split; [done|].
  pose proof (run_simulates addr plan_out (flat_map (settlement b1 later failed) order ++ [CallFinishDrain]) b1 f1' dir1 Hp Hok1 Hs1) as Hr.
  destruct (run_calls (exec addr plan_out) _ _) as [answers [b2 dir2]]. destruct Hr as (f2 & Hr & Hok2 & Hs2).
  assert (forall i, In i order -> (i < rows_used b1)%nat) as Hin.
  { intros i Hi. rewrite Hused. apply (Permutation_in _ Horder), in_seq in Hi. lia. }
  rewrite (flat_map_ext_in' _ (fun i => f_settlement f1' later failed (row_identity (row_at b1 i)))) in Hr
    by (intros i Hi; apply settlement_shows; try done; by apply Hin).
  rewrite (flat_map_map (f_settlement f1' later failed)), run_calls_app in Hr.
  assert (Permutation (map (fun i => row_identity (row_at b1 i)) order) (f_roster f1')) as Hperm.
  { rewrite (sh_roster _ _ Hs1), Hused. by apply Permutation_map. }
  destruct (settle_all later failed (map (fun i => row_identity (row_at b1 i)) order) f1' dir1) as (f3 & Hset); [|done| |].
  { rewrite Hperm. by apply (roster_nodup b1). }
  { intros id (i & -> & Hi%list_elem_of_In)%list_elem_of_fmap. specialize (Hin i Hi). exists (member_of (row_at b1 i)).
    assert (f_members f1' !! row_identity (row_at b1 i) = Some (member_of (row_at b1 i))) as Hm
      by (by rewrite (sh_members _ _ Hs1), find_row_at by (done || apply Hok1)).
    split; [done|]. apply row_settleable; try done; [by rewrite <- (sh_mode _ _ Hs1)|]. specialize (Hc1 _ _ Hm). cbn in Hc1. lia. }
  destruct (run_calls f_exec (f1', dir1) _) as [a3 s3]. destruct Hset as (Ha3 & -> & Hmode3 & Hr3 & Hmem).
  cbn [run_calls f_exec] in Hr. unfold f_finish_drain in Hr. rewrite Hmode3 in Hr.
  assert (existsb (fun id => busy (f_members f3 !! id)) (f_roster f3) = false) as Hb3.
  { apply not_true_is_false. intros (id & Hid & Hbusy)%existsb_exists. specialize (Hmem id).
    rewrite Hr3 in Hid. rewrite decide_True in Hmem by (rewrite Hperm; by apply list_elem_of_In). congruence. }
  rewrite Hb3 in Hr. simplify_eq. split; [|by rewrite <- (sh_mode _ _ Hs2)].
  apply Forall_app. split; [done|by repeat constructor].
Qed.

End settle.
