(* ===== verification/ServiceLifecycleProps.v ===== *)
(** * Theorems about the service lifecycle broker

    The broker accepts exactly the validated manifest plans, answers any run
    of calls as the promised fleet, hands authority on once and forward only,
    starts services after their dependencies, changes nothing when it refuses
    and can always be drained. *)

From S2P Require Import Prelude ServiceTransition Bytes Sha256.
From S2P Require Import ServiceManifest ServiceManifestGraph ServiceManifestCodec ServiceManifestProps.
From S2P Require Import ServiceLifecycleBroker ServiceLifecycleSpec ServiceLifecycleInv ServiceLifecycleSim.
From S2P Require Import ServiceLifecycleRefusals ServiceLifecycleInit ServiceLifecycleRuns ServiceLifecycleDrain.

Section broker.
Context {D : Type} `{DirectoryPeer D}.
Implicit Types (dir : D) (b : ServiceLifecycleBroker).

(** The state a booted broker is in after any calls, with the fleet it shows. *)
Lemma booted_run addr plan_out plan a epoch b dir cs : booted addr plan a epoch b -> pointers_ok addr plan_out ->
  let '(answers, (b', dir')) := run_calls (exec addr plan_out) (b, dir) cs in
  exists f', run_calls f_exec (initial_fleet (plan_document plan) epoch, dir) cs = (answers, (f', dir')) /\
    broker_ok b' /\ shows b' f'.
Proof. intros (Hok & Hs & _)%booted_shows Hp. by apply run_simulates. Qed.

Lemma initial_position d epoch id : position (initial_fleet d epoch) id = 3.
Proof.
  unfold position. destruct (f_members (initial_fleet d epoch) !! id) as [m|] eqn:Hm; [|done].
  cbn [f_members initial_fleet] in Hm. apply elem_of_list_to_map_2, list_elem_of_fmap in Hm as (i & [= _ ->] & _). done.
Qed.

Lemma initial_up d epoch id : up (initial_fleet d epoch) id = false.
Proof.
  unfold up. destruct (f_members (initial_fleet d epoch) !! id) as [m|] eqn:Hm; [|done].
  cbn [f_members initial_fleet] in Hm. apply elem_of_list_to_map_2, list_elem_of_fmap in Hm as (i & [= _ ->] & _). done.
Qed.

Lemma booted_roster addr plan a epoch b : booted addr plan a epoch b ->
  NoDup (f_roster (initial_fleet (plan_document plan) epoch)).
Proof. intros (Hok & Hs & _)%booted_shows. by apply (roster_nodup b). Qed.

Lemma initial_needs d epoch i : NoDup (f_roster (initial_fleet d epoch)) -> (i < services_used d)%nat ->
  needs_of (initial_fleet d epoch) (identity_at d i) = list_to_set (targets d i).
Proof.
  intros Hnd Hi. unfold needs_of. cbn [f_needs initial_fleet].
  rewrite (elem_of_list_to_map_1 _ _ (list_to_set (targets d i))); [done| |].
  - by rewrite <- list_fmap_compose.
  - apply list_elem_of_fmap. exists i. split; [done|]. apply elem_of_seq. lia.
Qed.

(** What a start that requires dependencies tells about them. *)
Lemma reserve_needs f id expected now :
  let '((status, _), _) := f_reserve f true id expected now in
  (status = LcOk -> needs_ready f id = true) /\ (status = LcDependencyNotReady -> needs_ready f id = false).
Proof.
  unfold f_reserve, check_open. destruct (f_mode f); try done;
    (destruct (select f id expected now) as [s|m] eqn:Hm;
     [by apply select_refusal in Hm as [->|[->| ->]]|]); (case_bool_decide; [done|]);
    destruct (needs_ready f id); cbn [andb negb]; try done; destruct (m_stage m); try done; by destruct (_ =? _).
Qed.

(** C32: Initialization is exact.  On storage that is not yet a broker, at
    addresses that are valid and apart and with a nonzero epoch, the broker
    accepts a plan exactly when the manifest validator returns it for some
    sealed bytes under the same authority; the broker then is canonical and
    shows every service of the manifest idle, with its dependencies, and the
    epoch is consumed.  Any other plan is answered InvalidManifestPlan and
    nothing changes. *)
Theorem broker_initialize_exact addr b plan_addr plan authority_addr a epoch_addr epoch hash_addr :
  plan_shape plan -> length (sealed_object_hash a) = 32%nat -> hash_local_ok plan_addr hash_addr ->
  init_pointers_ok addr plan_addr authority_addr epoch_addr = true -> lb_initialized b = 0 -> epoch <> 0 ->
  (validated a plan /\ exists b',
     ServiceLifecycleBrokerInitialize addr b plan_addr plan authority_addr a epoch_addr epoch hash_addr = Some (LcOk, b', 0) /\
     BrokerIsCanonical b' = true /\ shows b' (initial_fleet (plan_document plan) epoch)) \/
  (~ validated a plan /\
   ServiceLifecycleBrokerInitialize addr b plan_addr plan authority_addr a epoch_addr epoch hash_addr
   = Some (LcInvalidManifestPlan, b, epoch)).
Proof.
  intros Hp Hh Hl Hptr Hi He. destruct (initialize_exact addr b plan_addr plan authority_addr a epoch_addr epoch hash_addr)
    as [(Hv & b' & H1 & Hok & Hs)|Hn]; try done; [left|by right].
  split; [done|]. exists b'. split_and!; [done|by apply broker_canonical|done].
Qed.

(** C29: The broker is the promised fleet.  Any sequence of calls on a broker
    fresh from initialization, with any service directory beside it, gets the
    answers of the abstract fleet, in which each service is idle, building,
    cancelled, live, being killed or out of generations; the final broker
    shows the final fleet and is canonical, so that no call is ever answered
    CorruptState. *)
Theorem broker_refines_fleet addr plan_out plan a epoch b dir cs :
  booted addr plan a epoch b -> pointers_ok addr plan_out ->
  let '(answers, (b', dir')) := run_calls (exec addr plan_out) (b, dir) cs in
  exists f', run_calls f_exec (initial_fleet (plan_document plan) epoch, dir) cs = (answers, (f', dir')) /\
    shows b' f' /\ BrokerIsCanonical b' = true.
Proof.
  intros Hb Hp. pose proof (booted_run addr plan_out plan a epoch b dir cs Hb Hp) as Hr.
  destruct (run_calls (exec addr plan_out) _ _) as [answers [b' dir']]. destruct Hr as (f' & Hr & Hok & Hs).
  exists f'. split_and!; [done|done|by apply broker_canonical].
Qed.

(** C30: Authority moves forward and is handed out once.  The answers of a run
    name generations of a service as granted (mark [4g]), published ([4g+1]),
    told to end ([4g+2]) and ended ([4g+3]), in calls and in drain plans.
    Over any run the marks of a service strictly increase: a start ticket is
    granted, published and ended at most once, and nothing happens to a
    generation after a later one was granted.  Every mark belongs to a
    generation that was granted in the run. *)
Theorem broker_authority_moves_forward addr plan_out plan a epoch b dir cs id :
  booted addr plan a epoch b -> pointers_ok addr plan_out ->
  let ms := history id cs (run_calls (exec addr plan_out) (b, dir) cs).1 in
  StronglySorted Z.lt ms /\ Forall (fun q => 4 * (q / 4) ∈ ms) ms.
Proof.
  intros Hb Hp. pose proof (booted_run addr plan_out plan a epoch b dir cs Hb Hp) as Hr.
  destruct (run_calls (exec addr plan_out) _ _) as [answers [b' dir']]. destruct Hr as (f' & Hr & _).
  pose proof (run_marks_forward id cs (initial_fleet (plan_document plan) epoch) dir (booted_roster _ _ _ _ _ Hb)) as Hh.
  rewrite Hr, initial_position in Hh. cbn [fst] in *. cbv zeta in *. destruct Hh as (Hsorted & Hgt & Hgrant).
  split; [done|]. rewrite Forall_forall in *. intros q Hq. destruct (Hgrant q Hq) as [Hz|]; [|done].
  specialize (Hgt q Hq). change (3 / 4) with 0 in Hz. Z.div_mod_to_equations. lia.
Qed.

(** C31: Services start after their dependencies.  When a start that requires
    its dependencies is granted, then for every target the manifest names the
    directory and the broker have announced an instance ready, and no call or
    answer since has granted, published, stopped or ended that service; when
    it is refused with DependencyNotReady, this fails for some target. *)
Theorem broker_starts_after_dependencies addr plan_out plan a epoch b dir cs i expected now :
  booted addr plan a epoch b -> pointers_ok addr plan_out -> (i < services_used (plan_document plan))%nat ->
  let '(answers, s) := run_calls (exec addr plan_out) (b, dir) cs in
  let '(answer, _) := exec addr plan_out s (CallReserve true (identity_at (plan_document plan) i) expected now) in
  (forall t, answer = AnsStart (LcOk, t) ->
     Forall (fun target => ready_in target cs answers = true) (targets (plan_document plan) i)) /\
  (answer = AnsStart (StartFailure LcDependencyNotReady) ->
     Exists (fun target => ready_in target cs answers = false) (targets (plan_document plan) i)).
Proof.
  intros Hb Hp Hi. pose proof (booted_run addr plan_out plan a epoch b dir cs Hb Hp) as Hr.
  destruct (run_calls (exec addr plan_out) _ _) as [answers [b' dir']]. destruct Hr as (f' & Hr & Hok & Hs).
  pose proof (exec_simulates addr plan_out b' f' dir' (CallReserve true (identity_at (plan_document plan) i) expected now) Hp Hok Hs) as Hx.
  destruct (exec addr plan_out (b', dir') _) as [answer [b2 dir2]]. destruct Hx as (f2 & Hx & _).
  assert (forall id, up f' id = ready_in id cs answers) as Hup.
  { intros id. pose proof (run_ready id cs (initial_fleet (plan_document plan) epoch) dir (booted_roster _ _ _ _ _ Hb)) as Hu.
    rewrite Hr, initial_up in Hu. done. }
  assert (needs_of f' (identity_at (plan_document plan) i) = list_to_set (targets (plan_document plan) i)) as Hneeds.
  { destruct (run_fixed cs (initial_fleet (plan_document plan) epoch) dir) as [_ Hn]. rewrite Hr in Hn. cbn [fst snd] in Hn.
    unfold needs_of. rewrite Hn. apply initial_needs; [by eapply booted_roster|done]. }
  cbn [f_exec] in Hx. pose proof (reserve_needs f' (identity_at (plan_document plan) i) expected now) as Hres.
  destruct (f_reserve _ _ _ _ _) as [[status t'] f3]. simplify_eq. destruct Hres as [Hyes Hno].
  unfold needs_ready in *. rewrite Hneeds in *. split.
  - intros t [= -> _]. specialize (Hyes eq_refl). apply bool_decide_eq_true in Hyes. apply Forall_forall. intros x Hx'.
    rewrite <- Hup. apply Hyes. by apply elem_of_list_to_set.
  - intros [= -> _]. specialize (Hno eq_refl). apply bool_decide_eq_false in Hno.
    destruct (decide (Exists (fun target => ready_in target cs answers = false) (targets (plan_document plan) i))) as [|Hn]; [done|].
    destruct Hno. intros x Hx'%elem_of_list_to_set. change (up f' x = true). rewrite Hup.
    destruct (ready_in x cs answers) eqn:E; [done|]. destruct Hn. apply Exists_exists. eauto.
Qed.

(** C33: What a refusal changes.  After any run, a call the broker refuses (a
    failed start or publication, an unknown or stale ticket or token, a stop of
    what is not running, a drain that may not begin or finish) leaves every
    field of the broker as it was; so does a directory that refuses a joint
    publication, whose row is put back, or a readiness announcement.  There is
    one exception: the first start asked of a service that has used its last
    generation is answered GenerationExhausted and retires that one row, with
    the time of the call, and nothing else. *)
Theorem broker_refusals_exact addr plan_out plan a epoch b dir cs c :
  booted addr plan a epoch b -> pointers_ok addr plan_out ->
  let '(_, (b1, dir1)) := run_calls (exec addr plan_out) (b, dir) cs in
  let '(answer, (b2, _)) := exec addr plan_out (b1, dir1) c in
  refused answer -> b2 = b1 \/ retires b1 c answer b2.
Proof.
  intros Hb Hp. pose proof (booted_run addr plan_out plan a epoch b dir cs Hb Hp) as Hr.
  destruct (run_calls (exec addr plan_out) _ _) as [answers [b' dir']]. destruct Hr as (f' & _ & Hok & Hs).
  exact (exec_refusal addr b' f' dir' (proj1 Hp) Hok Hs plan_out c Hp).
Qed.

(** C34: A drain completes.  After any run that leaves the broker open, a drain
    begun at a time no row has passed answers Ok, and then every cancelled
    start can be acknowledged and every killed instance observed to exit, in
    any order, failed or not, each answered Ok, after which the drain finishes
    with Ok and the broker is closed. *)
Theorem broker_drain_completes addr plan_out plan a epoch b dir cs now later failed order :
  booted addr plan a epoch b -> pointers_ok addr plan_out ->
  let '(_, (b1, dir1)) := run_calls (exec addr plan_out) (b, dir) cs in
  lb_state b1 = BrokerOpen -> Forall (fun r => lr_last_transition_ns r <= now) (take (rows_used b1) (lb_rows b1)) ->
  now <= later -> Permutation order (seq 0 (rows_used b1)) ->
  exists drain_plan b2, exec addr plan_out (b1, dir1) (CallBeginDrain now) = (AnsDrain LcOk drain_plan, (b2, dir1)) /\
    let '(answers, (b3, _)) :=
      run_calls (exec addr plan_out) (b2, dir1) (flat_map (settlement b2 later failed) order ++ [CallFinishDrain]) in
    Forall (eq (AnsStatus LcOk)) answers /\ lb_state b3 = BrokerClosed.
Proof.
  intros Hb Hp. pose proof (booted_run addr plan_out plan a epoch b dir cs Hb Hp) as Hr.
  destruct (run_calls (exec addr plan_out) _ _) as [answers [b' dir']]. destruct Hr as (f' & _ & Hok & Hs).
  intros Hopen Hclock. apply (drain_completes addr plan_out b' f'); try done.
  intros i Hi. rewrite Forall_forall in Hclock. apply Hclock. apply list_elem_of_lookup. exists i.
  rewrite lookup_take_lt by done. by apply row_lookup; [apply Hok|].
Qed.

End broker.

(** ** Concrete instances *)

#[local] Strategy 1000 [sha256_of].

(** A directory that answers from a script, and Ok when the script is over. *)
#[local] Instance scripted_directory : DirectoryPeer (list ServiceDirectoryStatus).
Proof.
  refine {| peer_publish script held _ := (hd DirOk script, tl script, held);
            peer_joint_ready script _ _ bit :=
              (hd DirOk script, tl script, if decide (hd DirOk script = DirOk) then true else bit) |}.
  intros script key owner bit status d' bit' [= <- <- <-]. done.
Defined.

(** The manifest of [ServiceManifestProps], in which 7 depends on 9. *)
Definition demo_plan : ServiceManifestPlanV1 :=
  MkPlan demo_document 400 (sha256_of (encoding demo_document)) 592 2 0 0 ([9; 7] ++ replicate 62 0).

Lemma demo_plan_shape : plan_shape demo_plan.
Proof. split; [exact demo_shape|apply length_sha256_of|done]. Qed.

Lemma demo_validated : validated demo_authority demo_plan.
Proof.
  destruct (validate_sealed_encoding demo_document demo_authority (replicate 8 255) demo_shape demo_against_authority
    eq_refl eq_refl) as (order & Hr).
  change (encoding demo_document ++ replicate 8 255) with (buf_bytes demo_bytes) in Hr.
  change (sealed_object_extent demo_authority) with 592 in Hr at 1.
  destruct demo_bytes_ok as [Hb Hl]. exists (buf_bytes demo_bytes), 592. split_and!; [done|lia|lia|]. rewrite Hr.
  destruct (validate_sealed_ok _ _ _ _ Hb Hl Hr) as (order2 & Hacc). pose proof (pa_graph _ _ _ _ _ Hacc) as Hg.
  pose proof (pa_plan _ _ _ _ _ Hacc) as Hp. cbn [plan_document] in Hg, Hp.
  replace (ValidateGraph demo_document) with (ManifestOk, [9; 7]) in Hg by (vm_compute; done). injection Hg as <-.
  rewrite Hp. done.
Qed.

Lemma demo_pointers : pointers_ok 65536 131072 /\ hash_local_ok 262144 524288 /\
  init_pointers_ok 65536 262144 1048576 2097152 = true.
Proof. by vm_compute. Qed.

Definition blank_broker : ServiceLifecycleBroker :=
  MkBroker BrokerUninitialized 0 0 0 0 0 0 0 (replicate 32 0) 0 (replicate 64 zero_lifecycle_row).

Lemma demo_booted : exists b, booted 65536 demo_plan demo_authority 55 b.
Proof.
  destruct demo_pointers as (_ & Hl & Hp).
  destruct (initialize_exact 65536 blank_broker 262144 demo_plan 1048576 demo_authority 2097152 55 524288 demo_plan_shape
    (length_sha256_of _) Hl Hp eq_refl ltac:(done)) as [(_ & b & Hb & _)|[Hn _]]; [|destruct Hn; exact demo_validated].
  exists b. split; [exact demo_plan_shape|]. split; [apply length_sha256_of|].
  exists blank_broker, 262144, 1048576, 2097152, 524288, 0. split; [exact Hl|exact Hb].
Qed.

Definition key9 : ServiceInstanceKey := MkInstanceKey 4000 12.
Definition ticket9 : ServiceLifecycleStartTicket := MkStart 55 (MkTicket 9 1).
Definition held9 : ServiceRegistrationReservation := MkReservation (MkServiceKey 3 1) 1.

(** 7 may not start yet; 9 is granted, refused by the directory, published
    and announced ready. *)
Definition demo_bringup : list call :=
  [CallReserve true 7 0 10; CallReserve true 9 0 10; CallCommitJoint ticket9 key9 20 held9;
   CallCommitJoint ticket9 key9 20 held9; CallMarkReady (MkInstance ticket9 key9) (MkServiceKey 3 1)].
Definition demo_script : list ServiceDirectoryStatus := [DirQueueFull; DirOk; DirOk].
Definition demo_answers : list answer :=
  [AnsStart (StartFailure LcDependencyNotReady); AnsStart (LcOk, ticket9);
   AnsJoint (DirectoryPublicationFailure LcOk DirQueueFull) held9;
   AnsJoint (MkDirectoryPublication LcOk DirOk (MkInstance ticket9 key9)) held9; AnsReady (LcOk, DirOk)].

(** The fleet of the demonstration. *)
Definition demo_fleet : fleet := initial_fleet demo_document 55.

Lemma demo_fleet_run : (run_calls f_exec (demo_fleet, demo_script) demo_bringup).1 = demo_answers.
Proof. by vm_compute. Qed.

Lemma broker_initialize_exact_witness : exists b,
  ServiceLifecycleBrokerInitialize 65536 blank_broker 262144 demo_plan 1048576 demo_authority 2097152 55 524288 = Some (LcOk, b, 0) /\
  BrokerIsCanonical b = true.
Proof.
  destruct demo_pointers as (_ & Hl & Hp).
  destruct (broker_initialize_exact 65536 blank_broker 262144 demo_plan 1048576 demo_authority 2097152 55 524288 demo_plan_shape
    (length_sha256_of _) Hl Hp eq_refl ltac:(discriminate)) as [(_ & b & Hb & Hc & _)|[Hn _]].
  - exists b. split; [exact Hb|exact Hc].
  - destruct Hn. exact demo_validated.
Defined.

Lemma broker_refines_fleet_witness : exists b, booted 65536 demo_plan demo_authority 55 b /\
  (run_calls (exec 65536 131072) (b, demo_script) demo_bringup).1 = demo_answers.
Proof.
  destruct demo_booted as [b Hb]. exists b. split; [exact Hb|].
  pose proof (broker_refines_fleet 65536 131072 demo_plan demo_authority 55 b demo_script demo_bringup Hb (proj1 demo_pointers)) as T.
  destruct (run_calls (exec 65536 131072) (b, demo_script) demo_bringup) as [answers [b' dir']].
  destruct T as (f' & Hr & _). cbn [fst]. rewrite <- demo_fleet_run. change (plan_document demo_plan) with demo_document in Hr.
  unfold demo_fleet. by rewrite Hr.
Defined.

Lemma broker_authority_moves_forward_witness : exists b, booted 65536 demo_plan demo_authority 55 b /\
  StronglySorted Z.lt (history 9 demo_bringup (run_calls (exec 65536 131072) (b, demo_script) demo_bringup).1).
Proof.
  destruct demo_booted as [b Hb]. exists b. split; [exact Hb|].
  apply (broker_authority_moves_forward 65536 131072 demo_plan demo_authority 55 b demo_script demo_bringup 9 Hb (proj1 demo_pointers)).
Defined.

(** One more call answers as on the fleet. *)
Lemma demo_next b c : booted 65536 demo_plan demo_authority 55 b ->
  (exec 65536 131072 (run_calls (exec 65536 131072) (b, demo_script) demo_bringup).2 c).1 =
  (f_exec (run_calls f_exec (demo_fleet, demo_script) demo_bringup).2 c).1.
Proof.
  intros Hb. destruct demo_pointers as [Hp _].
  pose proof (booted_run 65536 131072 demo_plan demo_authority 55 b demo_script demo_bringup Hb Hp) as Hr.
  destruct (run_calls (exec 65536 131072) _ _) as [answers [b' dir']]. destruct Hr as (f' & Hr & Hok & Hs).
  change (plan_document demo_plan) with demo_document in Hr. unfold demo_fleet. rewrite Hr. cbn [snd].
  pose proof (exec_simulates 65536 131072 b' f' dir' c Hp Hok Hs) as Hx.
  destruct (exec 65536 131072 (b', dir') c) as [a [b2 d2]]. destruct Hx as (f2 & -> & _). done.
Qed.

Lemma broker_starts_after_dependencies_witness : exists b, booted 65536 demo_plan demo_authority 55 b /\
  let '(answers, s) := run_calls (exec 65536 131072) (b, demo_script) demo_bringup in
  (exec 65536 131072 s (CallReserve true 7 0 30)).1 = AnsStart (LcOk, MkStart 55 (MkTicket 7 1)) /\
  ready_in 9 demo_bringup answers = true.
Proof.
  destruct demo_booted as [b Hb]. exists b. split; [exact Hb|].
  pose proof (broker_starts_after_dependencies 65536 131072 demo_plan demo_authority 55 b demo_script demo_bringup 0 0 30 Hb
    (proj1 demo_pointers) ltac:(vm_compute; lia)) as T.
  assert (Hstart : (exec 65536 131072 (run_calls (exec 65536 131072) (b, demo_script) demo_bringup).2 (CallReserve true 7 0 30)).1
    = AnsStart (LcOk, MkStart 55 (MkTicket 7 1))) by (rewrite demo_next by exact Hb; vm_compute; reflexivity).
  destruct (run_calls (exec 65536 131072) (b, demo_script) demo_bringup) as [answers s]. cbn [snd] in Hstart.
  split; [exact Hstart|]. change (identity_at (plan_document demo_plan) 0) with 7 in T.
  destruct (exec 65536 131072 s (CallReserve true 7 0 30)) as [answer s']. cbn [fst] in Hstart.
  change (targets (plan_document demo_plan) 0) with [9] in T. destruct T as [T _]. specialize (T _ Hstart).
  by inversion T.
Defined.

Lemma broker_refusals_exact_witness : exists b, booted 65536 demo_plan demo_authority 55 b /\
  let s := (run_calls (exec 65536 131072) (b, demo_script) demo_bringup).2 in
  (exec 65536 131072 s (CallStop 7 0 30)).1 = AnsStop (StopFailure LcAlreadyStopped) /\
  (exec 65536 131072 s (CallStop 7 0 30)).2.1 = s.1.
Proof.
  destruct demo_booted as [b Hb]. exists b. split; [exact Hb|]. cbv zeta.
  pose proof (broker_refusals_exact 65536 131072 demo_plan demo_authority 55 b demo_script demo_bringup (CallStop 7 0 30) Hb
    (proj1 demo_pointers)) as T.
  assert (Hstop : (exec 65536 131072 (run_calls (exec 65536 131072) (b, demo_script) demo_bringup).2 (CallStop 7 0 30)).1
    = AnsStop (StopFailure LcAlreadyStopped)) by (rewrite demo_next by exact Hb; vm_compute; reflexivity).
  split; [exact Hstop|].
  destruct (run_calls (exec 65536 131072) (b, demo_script) demo_bringup) as [answers [b1 dir1]]. cbn [snd fst] in *.
  destruct (exec 65536 131072 (b1, dir1) (CallStop 7 0 30)) as [a [b2 dir2]]. cbn [fst snd] in *. subst a.
  destruct T as [T|T]; [split; discriminate|exact T|destruct T].
Defined.

(** The broker after the bring-up is open and its clocks have not passed 20. *)
Lemma demo_quiet b : booted 65536 demo_plan demo_authority 55 b ->
  let b1 := (run_calls (exec 65536 131072) (b, demo_script) demo_bringup).2.1 in
  lb_state b1 = BrokerOpen /\ Forall (fun r => lr_last_transition_ns r <= 20) (take (rows_used b1) (lb_rows b1)).
Proof.
  intros Hb. destruct demo_pointers as [Hp _].
  pose proof (booted_run 65536 131072 demo_plan demo_authority 55 b demo_script demo_bringup Hb Hp) as Hr.
  destruct (run_calls (exec 65536 131072) _ _) as [answers [b' dir']]. destruct Hr as (f' & Hr & Hok & Hs).
  change (initial_fleet (plan_document demo_plan) 55) with demo_fleet in Hr. cbn [fst snd].
  assert (f' = (run_calls f_exec (demo_fleet, demo_script) demo_bringup).2.1) as Hf by (by rewrite Hr).
  split; [rewrite <- (sh_mode _ _ Hs), Hf; by vm_compute|].
  assert (map_Forall (fun _ m => m_clock m <= 20) (f_members f')) as Hall.
  { rewrite Hf. apply (bool_decide_eq_true_1 _). by vm_compute. }
  apply Forall_forall. intros r [i [Hr' Hi]%lookup_take_Some]%list_elem_of_lookup.
  pose proof (row_at_lookup _ _ _ Hr') as <-. apply (Hall (row_identity (row_at b' i)) (member_of (row_at b' i))).
  by rewrite (sh_members _ _ Hs), find_row_at by (done || apply Hok).
Qed.

Lemma broker_drain_completes_witness : exists b, booted 65536 demo_plan demo_authority 55 b /\
  let '(_, (b1, dir1)) := run_calls (exec 65536 131072) (b, demo_script) demo_bringup in
  exists drain_plan b2, exec 65536 131072 (b1, dir1) (CallBeginDrain 20) = (AnsDrain LcOk drain_plan, (b2, dir1)) /\
    lb_state (run_calls (exec 65536 131072) (b2, dir1)
      (flat_map (settlement b2 25 (fun _ => false)) (rev (seq 0 (rows_used b1))) ++ [CallFinishDrain])).2.1 = BrokerClosed.
Proof.
  destruct demo_booted as [b Hb]. exists b. split; [exact Hb|]. pose proof (demo_quiet b Hb) as Hq.
  pose proof (fun order => broker_drain_completes 65536 131072 demo_plan demo_authority 55 b demo_script demo_bringup 20 25 (fun _ => false) order Hb
    (proj1 demo_pointers)) as T.
  destruct (run_calls (exec 65536 131072) (b, demo_script) demo_bringup) as [answers [b1 dir1]]. cbn [fst snd] in Hq.
  destruct Hq as [Ho Hc].
  destruct (T (rev (seq 0 (rows_used b1))) Ho Hc ltac:(lia) (Permutation_sym (Permutation_rev _))) as (dp & b2 & Hd & Hrest).
  exists dp, b2. split; [exact Hd|]. destruct (run_calls _ _ _) as [a3 [b3 d3]]. apply Hrest.
Defined.
